(* ===== verification/_CoqProject ===== *)
-Q . S2P
Prelude.v
LinkedList.v
HeapAdt.v
Tree.v
Bitmap.v
Physical.v
Swapfile.v
VirtMem.v
VirtMemTree.v
VirtMemSplit.v
VirtMemPages.v
VirtMemFault.v
VirtMemCow.v
VirtMemUnmap.v
VirtMemMap.v
VirtMemTheorems.v
KernelHeap.v
KernelHeapInv.v
KernelHeapBlocks.v
KernelHeapAlloc.v
KernelHeapFind.v
KernelHeapTheorems.v
Transfer.v
Buffers.v
ThreadList.v
Scheduler.v
Timer.v
Semaphore.v
SchedulerInv.v
SchedulerSteps.v
SchedulerTheorems.v
Signal.v
Mailbox.v
MailboxConc.v
MailboxTheorems.v
MailboxKernel.v
MailboxAccess.v
Vnode.v
Vfs.v
FileDes.v
VfsPaths.v
VfsOpen.v
FdTables.v
VfsMounts.v
DemoFs.v
DemoFsRead.v
DemoFsFollow.v
DemoFsContract.v
DiskNames.v
FsTable.v
Partition.v
PartitionTheorems.v
Boxes.v
Pipe.v
Pty.v
PtyTheorems.v
Syscalls.v
SyscallsTheorems.v
Process.v
ProcessTable.v
ProcessInv.v
ProcessWait.v
ProcessCreate.v
ProcessKill.v
ProcessRun.v
Irql.v
TimeConv.v
SearchSort.v
CString.v
Strings.v
Stdio.v
Driver.v
DriverTheorems.v
Elf.v
ElfTheorems.v
Message.v
Console.v
Vga.v
Keyboard.v
Ed.v
