(* ===== verification/Prelude.v ===== *)
(** * Verification of the Merlon kernel

    Merlon is a small operating system kernel in C for the i386. This library
    models its core and proves what the parts promise each other. The models
    follow the code function by function and keep its names; sources are given
    below relative to src/kernel, except the C library's, relative to src/libc,
    those of the screen and the keyboard, in src/drivers/x86, and the editor, in
    src/applications.

    ** How the kernel is put together

    Interrupts and faults enter at a level (the IRQL). Work that may not run at
    the current level is queued and run when the level drops (irq/irql.c). Threads
    are kept on lists by state (thread/); they block on semaphores
    (sync/semaphore.c), with time-outs kept by the timer. Physical pages come from
    a bitmap and a stack (mem/physical.c). The kernel heap takes spans of pages
    and cuts them into blocks (mem/heap.c). An address space is an AVL tree
    (adt/tree.c) of mappings, written out to the page tables of the machine; page
    faults bring pages in, copy the shared ones, and eviction writes pages to slots
    of the swapfile (mem/virtual.c, mem/swapfile.c). Data crosses between kernel
    and program through checked transfers (vfs/transfer.c). Byte streams pass
    through mailboxes, rings guarded by semaphores (sync/mailbox.c). Files are
    reached by path through mounts and vnodes, whose operations are function
    pointers into drivers, and are held open through counted files and the
    descriptor table of a process (vfs/). Processes own an address space, threads
    and a descriptor table, form a tree, and are waited for by their parent
    (thread/process.c). Below the files are disks with names (vfs/diskutil.c),
    partitions on them (dev/partition.c) and a read-only file system
    (fs/demofs/), found through a table of file systems (fs/filesystem.c);
    beside them pipes (dev/pipe.c) and pseudoterminals (dev/pty.c), which are
    vnodes over mailboxes. Keys typed (ps2/ps2keyboard.c) reach the terminal of
    the console; what programs write to it comes out as escape codes and text
    (util/console.c) on the screen (vga/vga.c). Programs enter through a table
    of system calls (sys/). Drivers are ELF files that are loaded, relocated
    and linked against a table of symbols (util/driver.c, arch/x86/elf/elf.c);
    their pages can be dropped and read again. Programs use the calls through the
    streams of their C library (hosted/stdio/stdio.c), as the text editor does
    (init/ed.c).

    ** The files

    - [Prelude]: outcomes, state passing, machine integers, C arrays, the
      allocator interface, automation.
    - [LinkedList], [HeapAdt], [Tree]: the lists and stacks, the array heap and the
      AVL tree of adt/.
    - [Bitmap]: bits in words. [Physical]: mem/physical.c. [Swapfile]:
      mem/swapfile.c.
    - [VirtMem]: mem/virtual.c and arch/x86/mem/virtual.c. The state [vm] holds the
      entries, the address spaces with their trees, the page directories and
      tables, the frames of memory, and the states of [Physical] and [Swapfile].
      [VirtMemTree] proves the tree operations for entries that do not overlap and
      defines the abstract [view] of an address space, page by page,
      [VirtMemSplit] the invariant [space_ok] and the splitting of entries,
      [VirtMemPages] the agreement [mmu_ok] of mappings and tables,
      [VirtMemFault], [VirtMemCow], [VirtMemUnmap] and [VirtMemMap] the runs of the
      operations, [VirtMemTheorems] what follows from them.
    - [KernelHeap]: mem/heap.c over words of memory. [KernelHeapInv],
      [KernelHeapBlocks], [KernelHeapAlloc] and [KernelHeapFind] carry its
      invariant through the operations; [KernelHeapTheorems] relates it to a map
      of live allocations.
    - [Transfer]: vfs/transfer.c over a paged user memory.
    - [ThreadList], [Scheduler], [Timer], [Semaphore], [Signal]: thread/threadlist.c,
      thread.c, timer.c, signal.c and sync/semaphore.c on one shared state [kern].
      [SchedulerInv] and [SchedulerSteps] keep the invariant that relates lists,
      thread states and semaphore counts; [SchedulerTheorems] states the results.
    - [Mailbox]: sync/mailbox.c, each call a program over the ring and its five
      semaphores. [MailboxConc] interleaves the programs of many threads and
      [MailboxTheorems] relates the interleavings to a bounded queue;
      [MailboxKernel] runs a call over the semaphores of [Semaphore];
      [MailboxAccess] is the transfer through a mailbox.
    - [Vnode]: vfs/vnode.c and vfs/openfile.c with the class [Drivers] of what the
      function pointers of a vnode do; [Vfs]: vfs/vfs.c; [FileDes]: vfs/filedes.c.
      [VfsPaths] proves the path lookup against a walk over components, [VfsOpen]
      the reference counts of opening and closing under the class
      [DriverContract], [VfsMounts] the mounts, [FdTables] the descriptor tables.
    - [Process]: thread/process.c over the class [Kernel] of what it uses of
      threads, semaphores, address spaces and descriptors. [ProcessTable] has trees
      of [Tree] as sets under their comparator, the laws of the class,
      [KernelLaws], and the process table; [ProcessInv] the invariant
      [procs_ok] of the process tree, and reaping; [ProcessCreate], [ProcessKill]
      and [ProcessWait] the operations; [ProcessRun] an instance of the class with
      a run from the first process to a child that ends and is waited for.
    - [Irql]: irq/irql.c, irq/irq.c, sync/spinlock.c and the interrupt masking of
      arch/x86, with the deferred calls in a [HeapAdt].
    - [Buffers]: byte transfers between kernel buffers and their user, shared by
      the devices. [Boxes]: a store of the mailboxes of [Mailbox], for the devices
      that own some.
    - [DiskNames]: vfs/diskutil.c. [Partition]: dev/partition.c, with
      [PartitionTheorems]. [FsTable]: fs/filesystem.c.
    - [DemoFs]: fs/demofs/. [DemoFsRead] proves reading against the bytes of the
      image, [DemoFsFollow] the lookup of names, [DemoFsContract] that it is a
      driver in the sense of [DriverContract], with a run through [Vfs].
    - [Pipe]: dev/pipe.c. [Pty]: dev/pty.c, with [PtyTheorems].
    - [Syscalls]: sys/syscalls.c and the calls on files, over [FileDes] and [Vfs],
      with [SyscallsTheorems]. [Message]: sync/message.c.
    - [Driver]: util/driver.c, with [DriverTheorems]. [Elf]: arch/x86/elf/elf.c over
      the bytes of a file; [ElfTheorems] loads an image through it and relocates
      its pages again through [Driver].
    - [Console]: util/console.c over a class of video drivers. [Vga]: vga/vga.c,
      the instance of that class. [Keyboard]: ps2/ps2keyboard.c, its interrupt
      handler and deferred call on the machine of [Irql].
    - [TimeConv], [SearchSort], [CString], [Strings]: timeconv.c,
      stdlib/search_sort.c, string.c, ctype.c and stdlib/atoi.c of the C library;
      [Strings] is on lists of bytes, for those who read whole strings.
    - [Stdio]: hosted/stdio/stdio.c, streams and formatted output, over the class
      [Sys] of the system calls they make. [Ed]: init/ed.c over [Stdio].

    ** Conventions

    A C function is a definition in [M S], from a state to an [outcome] with the new
    state: a result, a panic with its code, [Faulted] for an access through a
    pointer or index that is not valid (and, in [VirtMem], for a page fault inside
    the kernel), [Blocked] for a lock that cannot come free, [Exhausted] for a loop
    that outran its fuel. Integers are [Z] with the wrap-around of their C type
    written as [u8], [u32], [u64], [i8], [i32]. Structures behind pointers are maps
    from handles; NULL is 0. [Allocator] is what the clients of the heap rely on: a
    fresh handle that is not NULL. The global locks are flags where double
    acquisition matters; the machine has one processor, as in the code. The
    spinlocks around the counts of vnodes and files, the names of locks, log
    messages and the IRQL assertions are left out, except in [Irql] and [Keyboard].

    Code outside src/, callbacks and hardware are parameters: the thread switch and
    its clock, alarm and deferred functions, page accesses of transfers, file
    reads and writes. Fuel stands for loops that are not structural. Lists and
    stores pass their size, sifting in the heap its capacity, the page search the
    number of pages, the deferred-call loop the queue's length; the theorems either
    show that the fuel used by the code's own callers is enough, or are stated for
    every fuel above a bound in terms of the data (the length of the string, list
    or array, the bytes of a transfer, the units of a semaphore).

    ** What the theorems show

    - Scheduler: no sequence of calls panics, faults or loops from a well-formed
      state; no wake-up is lost; the ready list is served round robin; time-outs
      and sleeps end when due; the thread list is a sequence.
    - Kernel heap: a refinement of a map of live allocations, and the contract of
      each call, with the requests that can only panic.
    - Physical memory and swap: pages and slots are handed out once; the fast
      allocator holds the pages of the one it replaces.
    - Virtual memory: [MapVirtEx], [UnmapVirt], [SetVirtPermissions] and the page
      fault handler change exactly the pages they should, in mappings and page
      tables alike; demand-zero and copied pages get a frame that was free and the
      right contents; splitting an entry is invisible; mapping and unmapping are
      inverse. One theorem collects runs that go wrong.
    - Mailboxes: along every interleaving a mailbox is a bounded queue, its lock
      discipline is kept and threads only ever wait because it is full or empty; a
      transfer moves what fits, in order.
    - Files: a path lookup is the walk over its components; opening and closing
      balance the counts, except where stated; a descriptor table is a finite map;
      mounting and unmounting are inverse.
    - Processes: creating, ending and waiting for processes keep the tree, the
      table and the semaphores consistent; a dead child is found and reaped once;
      polling terminates.
    - IRQL and locks: deferred calls run once, in order; critical sections.
    - Disks: a partition confines the requests that begin inside it. A read of a
      file of the demo file system delivers its bytes, at any offset and length,
      within the limit stated; it meets the contract the virtual file system
      relies on.
    - Streams: a pipe and a mailbox deliver what was written, in order; a
      terminal delivers the line that was typed and edited. A program that reads
      a file through system calls, in pieces of any size, gets the file.
    - Drivers: the symbol table is a finite map in which the first address of a
      name stays; a page of a driver that was dropped and read again is the page
      that was loaded and relocated.
    - Screen and keyboard: text written to the console stands on the screen, line
      by line, scrolled; the keys of a text, with shift and caps lock, type it, when
      each key is handled before the next arrives.
    - C library: what is printed to a stream goes to its file in order, up to the
      first write that fails; a number that is printed is read back. The editor
      changes the text as its keys say, and loads what it saved.
    - Transfers between kernel and program copy exactly or change nothing, and can
      be undone. Signals that may not
      be blocked are not. Lists refine sequences, trees stay balanced and ordered,
      the heap sorts, calendar times round-trip, sorting is stable.

    Properties that fail in the code are stated with the condition under which
    they hold, or as a theorem about the failing run.

    ** Not modelled

    - Boot code, descriptor tables, port access, the controllers and the device
      drivers other than the two above: no state to reason about beyond the
      hardware. InitVirt and ArchInitVirt build the kernel tables once at boot;
      the theorems start from an address space whose tables exist. The context
      switch is assembly: the switch of the model ends where the other thread
      continues.
    - Log and panic messages are output only; a panic is an outcome. The null and
      random devices keep no state. The disk cache is switched off in the source,
      and nothing calls the hash map.
    - The system calls on processes, memory, signals and time pass their arguments
      to components whose states are separate models here; the call table takes
      them as a parameter. The program loader, and the loops of the idle and
      cleaner threads, only call into the parts above.
    - FatFs and ACPICA are third-party code. The rest of the hosted C library, its
      allocator and directories, and the shell are clients of the interfaces
      modelled here. *)

From Stdlib Require Export ZArith Lia.
From stdpp Require Export base tactics option list numbers gmap sets sorting.

#[export] Set Default Goal Selector "!".
Open Scope Z_scope.
Coercion Z.of_nat : nat >-> Z.

(** ** Outcomes of kernel code

    A C function of the kernel either returns, panics with a code of
    [include/panic.h], executes an undefined operation (a null or dangling
    dereference, an index out of an array), blocks for ever on a lock nobody
    else in the sequential model can release, or runs out of the loop bound
    given to a model function. *)

(** The codes of [include/panic.h] that the modelled code raises. *)
Inductive panic_code : Type :=
  | PANIC_UNKNOWN
  | PANIC_ASSERTION_FAILURE
  | PANIC_INVALID_IRQL
  | PANIC_OUT_OF_PHYS
  | PANIC_PRIORITY_QUEUE
  | PANIC_LINKED_LIST
  | PANIC_THREAD_LIST
  | PANIC_SEM_BLOCK_WITHOUT_THREAD
  | PANIC_IMPOSSIBLE_RETURN
  | PANIC_NEGATIVE_SEMAPHORE
  | PANIC_OUT_OF_HEAP
  | PANIC_OUT_OF_SWAPFILE
  | PANIC_NO_FILESYSTEM
  | PANIC_BAD_KERNEL
  | PANIC_HEAP_REQUEST_TOO_LARGE
  | PANIC_CANNOT_MALLOC_WITHOUT_FAULTING
  | PANIC_SPINLOCK_DOUBLE_ACQUISITION
  | PANIC_SPINLOCK_RELEASED_BEFORE_ACQUIRED
  | PANIC_DISK_FAILURE_ON_SWAPFILE
  | PANIC_UNHANDLED_KERNEL_EXCEPTION
  | PANIC_NOT_IMPLEMENTED
  | PANIC_CANNOT_LOCK_MEMORY
  | PANIC_VAS_TRIED_TO_SELF_DESTRUCT.

#[export] Instance panic_code_eq_dec : EqDecision panic_code.
Proof. solve_decision. Defined.

Inductive outcome (A : Type) : Type :=
  | Done (a : A)
  | Panicked (code : panic_code)
  | Faulted
  | Blocked
  | Exhausted.
Arguments Done {_} _.
Arguments Panicked {_} _.
Arguments Faulted {_}.
Arguments Blocked {_}.
Arguments Exhausted {_}.

Definition outcome_bind {A B} (k : A → outcome B) (m : outcome A) : outcome B :=
  match m with
  | Done a => k a
  | Panicked c => Panicked c
  | Faulted => Faulted
  | Blocked => Blocked
  | Exhausted => Exhausted
  end.

#[export] Instance outcome_mret : MRet outcome := @Done.
#[export] Instance outcome_mbind : MBind outcome := @outcome_bind.

(** ** State passing

    [M S A] is code that reads and updates a component state [S]. stdpp's
    do-notation [x ← m; k] is the sequencing of C statements. *)
Definition M (S A : Type) : Type := S → outcome (A * S).

#[export] Instance M_mret {S} : MRet (M S) := λ A a s, Done (a, s).
#[export] Instance M_mbind {S} : MBind (M S) :=
  λ A B k m s, outcome_bind (λ '(a, s'), k a s') (m s).

Definition get {S} : M S S := λ s, Done (s, s).
Definition put {S} (s : S) : M S unit := λ _, Done (tt, s).
Definition modify {S} (f : S → S) : M S unit := λ s, Done (tt, f s).
Definition gets {S A} (f : S → A) : M S A := λ s, Done (f s, s).
Definition panic {S A} (c : panic_code) : M S A := λ _, Panicked c.
Definition fault {S A} : M S A := λ _, Faulted.
Definition block {S A} : M S A := λ _, Blocked.
Definition exhausted {S A} : M S A := λ _, Exhausted.
(** [assert(b)] of a debug kernel. *)
Definition c_assert {S} (b : bool) : M S unit :=
  if b then mret tt else panic PANIC_ASSERTION_FAILURE.
(** A read through a pointer or an index that must be valid. *)
Definition deref {S A} (o : option A) : M S A :=
  match o with Some a => mret a | None => fault end.

Lemma M_bind_done {S A B} (m : M S A) (k : A → M S B) s a s' :
  m s = Done (a, s') → (m ≫= k) s = k a s'.
Proof. intros H. unfold mbind, M_mbind. by rewrite H. Qed.

Lemma M_bind_panic {S A B} (m : M S A) (k : A → M S B) s c :
  m s = Panicked c → (m ≫= k) s = Panicked c.
Proof. intros H. unfold mbind, M_mbind. by rewrite H. Qed.

(** Inversion of a sequence that returned. *)
Lemma M_bind_inv {S A B} (m : M S A) (k : A → M S B) s b s' :
  (m ≫= k) s = Done (b, s') → ∃ a s1, m s = Done (a, s1) ∧ k a s1 = Done (b, s').
Proof.
  unfold mbind, M_mbind. destruct (m s) as [[a s1]| | | |] eqn:E; simpl; intros; try done.
  eauto.
Qed.

(** ** Total correctness

    [runs E m s Q]: from [s], [m] returns with a result and a state that satisfy
    [Q], or stops in a panic that [E] allows; it does not fault, block or run out
    of fuel. *)
Definition runs {S A} (E : panic_code → Prop) (m : M S A) (s : S) (Q : A → S → Prop) : Prop :=
  match m s with Done (a, s') => Q a s' | Panicked c => E c | _ => False end.

Section runs.
Context {S : Type} (E : panic_code → Prop).
Implicit Types s : S.

Lemma runs_done {A} (m : M S A) s Q a s' : m s = Done (a, s') → Q a s' → runs E m s Q.
Proof. unfold runs. by intros ->. Qed.
Lemma runs_ret {A} (a : A) s Q : Q a s → runs E (mret a) s Q.
Proof. done. Qed.
Lemma runs_bind {A B} (m : M S A) (k : A → M S B) s Q :
  runs E m s (λ a s', runs E (k a) s' Q) → runs E (m ≫= k) s Q.
Proof. unfold runs, mbind, M_mbind. by destruct (m s) as [[a s1]| | | |]. Qed.
Lemma runs_mono {A} (m : M S A) s (Q Q' : A → S → Prop) :
  runs E m s Q → (∀ a s', Q a s' → Q' a s') → runs E m s Q'.
Proof. unfold runs. destruct (m s) as [[a s1]| | | |]; auto. Qed.
Lemma runs_get s Q : Q s s → runs E get s Q.
Proof. done. Qed.
Lemma runs_put s s' (Q : unit → S → Prop) : Q tt s' → runs E (put s') s Q.
Proof. done. Qed.
Lemma runs_modify f s (Q : unit → S → Prop) : Q tt (f s) → runs E (modify f) s Q.
Proof. done. Qed.
Lemma runs_gets {A} (f : S → A) s Q : Q (f s) s → runs E (gets f) s Q.
Proof. done. Qed.
Lemma runs_assert b s (Q : unit → S → Prop) : b = true → Q tt s → runs E (c_assert b) s Q.
Proof. by intros ->. Qed.
Lemma runs_deref {A} (o : option A) a s Q : o = Some a → Q a s → runs E (deref o) s Q.
Proof. by intros ->. Qed.
Lemma runs_allowed {A} (m : M S A) s Q c : m s = Panicked c → E c → runs E m s Q.
Proof. unfold runs. by intros ->. Qed.
End runs.

Lemma runs_weaken {S A} (E E' : panic_code → Prop) (m : M S A) s Q :
  runs E m s Q → (∀ c, E c → E' c) → runs E' m s Q.
Proof. unfold runs. destruct (m s) as [[a s1]| | | |]; auto. Qed.

(** ** Machine integers: the wrap-around of each C type of the i386 target. *)
Definition u8 (z : Z) : Z := z `mod` 2 ^ 8.
Definition u32 (z : Z) : Z := z `mod` 2 ^ 32.
Definition u64 (z : Z) : Z := z `mod` 2 ^ 64.
Definition i8 (z : Z) : Z := (z + 2 ^ 7) `mod` 2 ^ 8 - 2 ^ 7.
Definition i32 (z : Z) : Z := (z + 2 ^ 31) `mod` 2 ^ 32 - 2 ^ 31.

Definition is_u8 (z : Z) : Prop := 0 ≤ z < 2 ^ 8.
Definition is_u32 (z : Z) : Prop := 0 ≤ z < 2 ^ 32.
Definition is_u64 (z : Z) : Prop := 0 ≤ z < 2 ^ 64.

Lemma u8_small z : is_u8 z → u8 z = z.
Proof. apply Z.mod_small. Qed.
Lemma u32_small z : is_u32 z → u32 z = z.
Proof. apply Z.mod_small. Qed.
Lemma u64_small z : is_u64 z → u64 z = z.
Proof. apply Z.mod_small. Qed.
Lemma i8_small z : -2 ^ 7 ≤ z < 2 ^ 7 → i8 z = z.
Proof. intros. unfold i8. rewrite Z.mod_small; lia. Qed.
Lemma i32_small z : -2 ^ 31 ≤ z < 2 ^ 31 → i32 z = z.
Proof. intros. unfold i32. rewrite Z.mod_small; lia. Qed.
Lemma u32_range z : is_u32 (u32 z).
Proof. apply Z.mod_pos_bound. lia. Qed.
Lemma u8_range z : is_u8 (u8 z).
Proof. apply Z.mod_pos_bound. lia. Qed.
Lemma u64_range z : is_u64 (u64 z).
Proof. apply Z.mod_pos_bound. lia. Qed.

(** ** C arrays: a list with bounds-checked Z indices. *)
Definition aget {A} (l : list A) (i : Z) : option A :=
  if decide (0 ≤ i) then l !! Z.to_nat i else None.
Definition aset {A} (l : list A) (i : Z) (x : A) : option (list A) :=
  if decide (0 ≤ i < Z.of_nat (length l)) then Some (<[Z.to_nat i := x]> l) else None.

Lemma aget_nat {A} (l : list A) (i : nat) : aget l i = l !! i.
Proof. unfold aget. by rewrite decide_True, Nat2Z.id by lia. Qed.
Lemma aset_nat {A} (l : list A) (i : nat) (x : A) :
  (i < length l)%nat → aset l i x = Some (<[i := x]> l).
Proof. intros. unfold aset. by rewrite decide_True, Nat2Z.id by lia. Qed.

(** ** The allocator the components rely on

    [AllocHeap] (mem/heap.c) hands out an address that is not live and is not
    NULL; the words behind it hold whatever was there before. Clients are
    verified against this interface. *)
Definition NULL : Z := 0.

Class Allocator : Type := {
  pick : gset Z → Z;
  junk : Z;
  pick_fresh : ∀ live, pick live ∉ live;
  pick_nonnull : ∀ live, pick live ≠ NULL;
}.

(** A concrete allocator, used to run the models: one past the largest live
    address. *)
Definition bump_pick (live : gset Z) : Z := 1 + set_fold Z.max 0 live.

Lemma bump_pick_bound (live : gset Z) :
  0 ≤ set_fold Z.max 0 live ∧ ∀ a, a ∈ live → a ≤ set_fold Z.max 0 live.
Proof.
  apply (set_fold_ind_L (λ (r : Z) (s : gset Z), 0 ≤ r ∧ ∀ a, a ∈ s → a ≤ r)).
  - split; [lia|]. set_solver.
  - intros x s r Hx [H0 Hs]. split; [lia|].
    intros a [->%elem_of_singleton|Ha]%elem_of_union; [lia|].
    specialize (Hs a Ha). lia.
Qed.

#[refine] Definition bump_allocator : Allocator := {| pick := bump_pick; junk := 0 |}.
Proof.
  - intros live Hin. destruct (bump_pick_bound live) as [_ H].
    specialize (H _ Hin). unfold bump_pick in H. lia.
  - intros live. destruct (bump_pick_bound live). unfold bump_pick, NULL. lia.
Defined.

(** ** errno values, [libc/common/include/errno.h]. *)
Definition ENOSYS := 1.
Definition ENOMEM := 2.
Definition ENODEV := 3.
Definition EALREADY := 4.
Definition ENOTSUP := 5.
Definition EINVAL := 7.
Definition EEXIST := 8.
Definition ENOENT := 9.
Definition EIO := 10.
Definition EACCES := 11.
Definition ENOSPC := 12.
Definition ENAMETOOLONG := 13.
Definition ENOTDIR := 14.
Definition EISDIR := 15.
Definition EROFS := 17.
Definition EAGAIN := 18.
Definition EBADF := 20.
Definition ENOTTY := 21.
Definition EMFILE := 24.
Definition ETIMEDOUT := 28.
Definition EBUSY := 30.

(** ** Automation *)
Create HintDb merlon.
#[export] Hint Resolve u32_range u8_range u64_range : merlon.

(** Expose the state passing of a monadic definition. *)
Ltac munfold :=
  unfold mbind, M_mbind, mret, M_mret, outcome_mbind, outcome_mret,
    get, put, modify, gets, panic, fault, block, exhausted, c_assert, deref.
Ltac mred := repeat (progress (munfold; cbn [outcome_bind fst snd])).
Ltac mstep := mred.

(** Decide a test of the code whose answer is known to [lia] or the context. *)
Ltac decide_true := rewrite decide_True by (first [assumption | lia | done]).
Ltac decide_false := rewrite decide_False by (first [assumption | lia | done | congruence]).
