(* ===== verification/LinkedList.v ===== *)
(** * adt/linkedlist.c and adt/stack.c

    The kernel's generic singly linked list, over an explicit store of list
    headers and nodes, and the stack built on it. *)

From S2P Require Import Prelude.

(** ** Data *)
Record linked_list_node := Node { n_data : Z; n_next : Z }.
Record linked_list := LList { l_size : Z; l_head : Z; l_tail : Z }.

#[export] Instance linked_list_node_eq_dec : EqDecision linked_list_node.
Proof. solve_decision. Defined.
#[export] Instance linked_list_eq_dec : EqDecision linked_list.
Proof. solve_decision. Defined.

(** The kernel memory that list code owns: headers and nodes by address. *)
Record lheap := LHeap { nodes : gmap Z linked_list_node; lists : gmap Z linked_list }.

Definition live (h : lheap) : gset Z := dom (nodes h) ∪ dom (lists h).
Definition set_nodes (f : gmap Z linked_list_node → gmap Z linked_list_node) (h : lheap) : lheap :=
  LHeap (f (nodes h)) (lists h).
Definition set_lists (f : gmap Z linked_list → gmap Z linked_list) (h : lheap) : lheap :=
  LHeap (nodes h) (f (lists h)).

Definition set_head (p : Z) (l : linked_list) := LList (l_size l) p (l_tail l).
Definition set_tail (p : Z) (l : linked_list) := LList (l_size l) (l_head l) p.
Definition add_size (k : Z) (l : linked_list) := LList (l_size l + k) (l_head l) (l_tail l).

Definition read_list (lp : Z) : M lheap linked_list := h ← get; deref (lists h !! lp).
Definition read_node (p : Z) : M lheap linked_list_node := h ← get; deref (nodes h !! p).
Definition write_list (lp : Z) (f : linked_list → linked_list) : M lheap unit :=
  l ← read_list lp; modify (set_lists <[lp := f l]>).
Definition write_node (p : Z) (f : linked_list_node → linked_list_node) : M lheap unit :=
  n ← read_node p; modify (set_nodes <[p := f n]>).
Definition free_node (p : Z) : M lheap unit :=
  n ← read_node p; modify (set_nodes (delete p)).

Section linkedlist.
Context `{Allocator}.

Definition alloc_node : M lheap Z :=
  h ← get;
  let p := pick (live h) in
  modify (set_nodes <[p := Node junk junk]>);; mret p.

Definition ListCreate : M lheap Z :=
  h ← get;
  let p := pick (live h) in
  modify (set_lists <[p := LList 0 NULL NULL]>);; mret p.

Definition ListInsertStart (lp data : Z) : M lheap unit :=
  node ← alloc_node;
  l ← read_list lp;
  write_node node (λ _, Node data (l_tail l));;
  (if decide (l_head l = NULL) then
     c_assert (bool_decide (l_tail l = NULL));;
     write_list lp (set_tail node)
   else mret tt);;
  write_list lp (set_head node);;
  write_list lp (add_size 1).

Definition ListInsertEnd (lp data : Z) : M lheap unit :=
  l ← read_list lp;
  (if decide (l_tail l = NULL) then
     c_assert (bool_decide (l_head l = NULL));;
     node ← alloc_node;
     write_list lp (set_tail node);;
     write_list lp (set_head node)
   else
     node ← alloc_node;
     write_node (l_tail l) (λ n, Node (n_data n) node);;
     write_list lp (set_tail node));;
  l ← read_list lp;
  write_node (l_tail l) (λ n, Node data (n_next n));;
  write_node (l_tail l) (λ n, Node (n_data n) NULL);;
  write_list lp (add_size 1).

(** The [while (iter != NULL)] loops visit each node of the store at most once
    on a well-formed list, so one more than the number of nodes is enough. *)
Definition walk_bound (h : lheap) : nat := S (size (nodes h)).

Fixpoint ListGetIndex_loop (fuel : nat) (data iter i : Z) : M lheap Z :=
  match fuel with
  | O => exhausted
  | S fuel =>
    if decide (iter = NULL) then mret (-1) else
    n ← read_node iter;
    if decide (n_data n = data) then mret i
    else ListGetIndex_loop fuel data (n_next n) (i + 1)
  end.

Definition ListGetIndex (lp data : Z) : M lheap Z :=
  l ← read_list lp;
  h ← get;
  ListGetIndex_loop (walk_bound h) data (l_head l) 0.

Definition ListContains (lp data : Z) : M lheap bool :=
  i ← ListGetIndex lp data; mret (bool_decide (i ≠ -1)).

Fixpoint ListGetData_loop (fuel : nat) (index iter i : Z) : M lheap Z :=
  match fuel with
  | O => exhausted
  | S fuel =>
    if decide (iter = NULL) then panic PANIC_LINKED_LIST else
    n ← read_node iter;
    if decide (i = index) then mret (n_data n)
    else ListGetData_loop fuel index (n_next n) (i + 1)
  end.

Definition ListGetData (lp index : Z) : M lheap Z :=
  l ← read_list lp;
  h ← get;
  ListGetData_loop (walk_bound h) index (l_head l) 0.

Definition ProperDelete (lp iter prev : Z) : M lheap unit :=
  l ← read_list lp;
  (if decide (iter = l_head l) then
     hd ← read_node (l_head l);
     write_list lp (set_head (n_next hd))
   else
     it ← read_node iter;
     write_node prev (λ n, Node (n_data n) (n_next it)));;
  l ← read_list lp;
  (if decide (iter = l_tail l) then write_list lp (set_tail prev) else mret tt);;
  free_node iter;;
  write_list lp (add_size (-1)).

Fixpoint ListDeleteIndex_loop (fuel : nat) (lp index iter prev i : Z) : M lheap bool :=
  match fuel with
  | O => exhausted
  | S fuel =>
    if decide (iter = NULL) then mret false else
    if decide (i = index) then ProperDelete lp iter prev;; mret true else
    n ← read_node iter;
    ListDeleteIndex_loop fuel lp index (n_next n) iter (i + 1)
  end.

Definition ListDeleteIndex (lp index : Z) : M lheap bool :=
  l ← read_list lp;
  if decide (l_size l ≤ index ∨ index < 0) then mret false else
  h ← get;
  ListDeleteIndex_loop (walk_bound h) lp index (l_head l) NULL 0.

Definition ListDeleteData (lp data : Z) : M lheap bool :=
  i ← ListGetIndex lp data; ListDeleteIndex lp i.

Definition ListSize (lp : Z) : M lheap Z := l ← read_list lp; mret (l_size l).

(** [while (list->size > 0) ListDeleteIndex(list, 0);]: [fuel] bounds the
    number of iterations. *)
Fixpoint ListDestroy_loop (fuel : nat) (lp : Z) : M lheap unit :=
  l ← read_list lp;
  if decide (0 < l_size l) then
    match fuel with
    | O => exhausted
    | S fuel => ListDeleteIndex lp 0;; ListDestroy_loop fuel lp
    end
  else mret tt.

Definition ListDestroy (fuel : nat) (lp : Z) : M lheap unit :=
  ListDestroy_loop fuel lp;;
  l ← read_list lp;
  modify (set_lists (delete lp)).

Definition ListGetFirstNode (lp : Z) : M lheap Z :=
  if decide (lp = NULL) then panic PANIC_LINKED_LIST else
  l ← read_list lp; mret (l_head l).

Definition ListGetNextNode (p : Z) : M lheap Z :=
  if decide (p = NULL) then panic PANIC_LINKED_LIST else
  n ← read_node p; mret (n_next n).

Definition ListGetDataFromNode (p : Z) : M lheap Z :=
  if decide (p = NULL) then panic PANIC_LINKED_LIST else
  n ← read_node p; mret (n_data n).

(** The [while (index > 0)] loop steps down from [index]. *)
Fixpoint ListGetDataAtIndex_loop (steps : nat) (iter : Z) : M lheap Z :=
  match steps with
  | O => if decide (iter = NULL) then mret NULL else n ← read_node iter; mret (n_data n)
  | S steps =>
    if decide (iter = NULL) then mret NULL else
    n ← read_node iter; ListGetDataAtIndex_loop steps (n_next n)
  end.

Definition ListGetDataAtIndex (lp index : Z) : M lheap Z :=
  l ← read_list lp; ListGetDataAtIndex_loop (Z.to_nat index) (l_head l).

(** ** adt/stack.c: [struct stack_adt] holds the address of its list. *)
Record stack_adt := Stack { s_list : Z }.

Definition StackAdtCreate : M lheap stack_adt := p ← ListCreate; mret (Stack p).
Definition StackAdtDestroy (fuel : nat) (s : stack_adt) : M lheap unit :=
  ListDestroy fuel (s_list s).
Definition StackAdtPush (s : stack_adt) (data : Z) : M lheap unit :=
  ListInsertStart (s_list s) data.
Definition StackAdtPeek (s : stack_adt) : M lheap Z :=
  p ← ListGetFirstNode (s_list s); ListGetDataFromNode p.
Definition StackAdtPop (s : stack_adt) : M lheap Z :=
  data ← StackAdtPeek s;
  ListDeleteIndex (s_list s) 0;;
  mret data.
Definition StackAdtSize (s : stack_adt) : M lheap Z := ListSize (s_list s).

End linkedlist.

(** ** Segments of a list in the store *)
Fixpoint seg (ns : gmap Z linked_list_node) (p : Z) (l : list (Z * Z)) (q : Z) : Prop :=
  match l with
  | [] => p = q
  | (a, d) :: l => p = a ∧ a ≠ NULL ∧ ∃ nx, ns !! a = Some (Node d nx) ∧ seg ns nx l q
  end.

Definition first_ptr (l : list (Z * Z)) : Z := from_option fst NULL (head l).
Definition last_ptr (l : list (Z * Z)) : Z := from_option fst NULL (last l).

(** [is_listn h lp n l]: the nodes reachable from the header at [lp] are the
    sequence [l] of (node address, data) pairs, and the size field is [n]. *)
Record is_listn (h : lheap) (lp n : Z) (l : list (Z * Z)) : Prop := {
  il_header : lists h !! lp = Some (LList n (first_ptr l) (last_ptr l));
  il_seg : seg (nodes h) (first_ptr l) l NULL;
  il_nodup : NoDup l.*1;
}.

(** A list in good order also counts its nodes. *)
Definition is_list (h : lheap) (lp : Z) (l : list (Z * Z)) : Prop :=
  is_listn h lp (length l) l.

Lemma seg_app ns p l1 l2 q :
  seg ns p (l1 ++ l2) q ↔ ∃ m, seg ns p l1 m ∧ seg ns m l2 q.
Proof.
  revert p; induction l1 as [|[a d] l1 IH]; intros p; simpl.
  - split; [intros; eauto|]. intros (m & -> & Hm). done.
  - split.
    + intros (-> & Ha & nx & Hnx & (m & H1 & H2)%IH). naive_solver.
    + intros (m & (-> & Ha & nx & Hnx & H1) & H2).
      split_and!; [done..|]. exists nx. split; [done|]. apply IH. eauto.
Qed.

Lemma seg_frame ns ns' p l q :
  (∀ a, a ∈ l.*1 → ns' !! a = ns !! a) → seg ns p l q → seg ns' p l q.
Proof.
  revert p; induction l as [|[a d] l IH]; intros p Hf; simpl; [done|].
  intros (-> & Ha & nx & Hnx & Hs). split_and!; [done..|].
  exists nx. split.
  - rewrite Hf; [done|]. simpl. set_solver.
  - apply IH; [|done]. intros b Hb. apply Hf. simpl. set_solver.
Qed.

Lemma seg_dom ns p l q a : seg ns p l q → a ∈ l.*1 → a ∈ dom ns.
Proof.
  revert p; induction l as [|[b d] l IH]; intros p; simpl; [set_solver|].
  intros (-> & Hb & nx & Hnx & Hs) Ha. apply elem_of_cons in Ha as [->|Ha].
  - by apply elem_of_dom_2 in Hnx.
  - eauto.
Qed.

Lemma seg_nonnull ns p l q a : seg ns p l q → a ∈ l.*1 → a ≠ NULL.
Proof.
  revert p; induction l as [|[b d] l IH]; intros p; simpl; [set_solver|].
  intros (-> & Hb & nx & Hnx & Hs) Ha. apply elem_of_cons in Ha as [->|Ha]; eauto.
Qed.

Lemma seg_length ns p l q :
  seg ns p l q → NoDup l.*1 → (length l ≤ size ns)%nat.
Proof.
  intros Hs Hnd. rewrite <- size_dom, <- (length_fmap fst).
  rewrite <- (size_list_to_set (C := gset Z) (l.*1)) by done.
  apply subseteq_size. intros a Ha%elem_of_list_to_set. by eapply seg_dom.
Qed.

Lemma first_ptr_cons a d l : first_ptr ((a, d) :: l) = a.
Proof. done. Qed.
Lemma last_ptr_snoc l a d : last_ptr (l ++ [(a, d)]) = a.
Proof. unfold last_ptr. by rewrite last_snoc. Qed.
Lemma seg_first ns p l : seg ns p l NULL → p = first_ptr l.
Proof. destruct l as [|[a d] l]; simpl; [done|]. by intros [-> _]. Qed.

Lemma live_fresh_node `{Allocator} h : nodes h !! pick (live h) = None.
Proof. apply not_elem_of_dom. pose proof (pick_fresh (live h)). unfold live in *. set_solver. Qed.
Lemma live_fresh_list `{Allocator} h : lists h !! pick (live h) = None.
Proof. apply not_elem_of_dom. pose proof (pick_fresh (live h)). unfold live in *. set_solver. Qed.

(** ** Running the primitive accesses *)
Lemma read_list_run h lp l : lists h !! lp = Some l → read_list lp h = Done (l, h).
Proof. intros E. unfold read_list. mstep. by rewrite E. Qed.
Lemma read_node_run h p n : nodes h !! p = Some n → read_node p h = Done (n, h).
Proof. intros E. unfold read_node. mstep. by rewrite E. Qed.
Lemma write_list_run h lp f l :
  lists h !! lp = Some l → write_list lp f h = Done (tt, set_lists <[lp := f l]> h).
Proof. intros E. unfold write_list. by rewrite (M_bind_done _ _ _ _ _ (read_list_run _ _ _ E)). Qed.
Lemma write_node_run h p f n :
  nodes h !! p = Some n → write_node p f h = Done (tt, set_nodes <[p := f n]> h).
Proof. intros E. unfold write_node. by rewrite (M_bind_done _ _ _ _ _ (read_node_run _ _ _ E)). Qed.
Lemma free_node_run h p n :
  nodes h !! p = Some n → free_node p h = Done (tt, set_nodes (delete p) h).
Proof. intros E. unfold free_node. by rewrite (M_bind_done _ _ _ _ _ (read_node_run _ _ _ E)). Qed.
Lemma alloc_node_run `{Allocator} h :
  alloc_node h = Done (pick (live h), set_nodes <[pick (live h) := Node junk junk]> h).
Proof. done. Qed.

Lemma get_run {S} (s : S) : get s = Done (s, s).
Proof. done. Qed.
Lemma c_assert_run {S} b (s : S) : b = true → c_assert b s = Done (tt, s).
Proof. by intros ->. Qed.
Lemma mret_run {S A} (a : A) (s : S) : mret (M := M S) a s = Done (a, s).
Proof. done. Qed.

(** One statement: rewrite the first step of a sequence with its run lemma. *)
Ltac lookup_solve :=
  unfold set_lists, set_nodes in *; cbn [nodes lists] in *;
  solve [ eassumption | by simplify_map_eq | by rewrite lookup_insert_eq
        | by rewrite ?lookup_insert_ne, ?lookup_delete_ne by congruence ].
Ltac run1 :=
  first
    [ rewrite (M_bind_done _ _ _ _ _ (get_run _))
    | rewrite (M_bind_done _ _ _ _ _ (mret_run _ _))
    | rewrite (M_bind_done _ _ _ _ _ (alloc_node_run _))
    | erewrite M_bind_done; [|apply c_assert_run; by case_bool_decide]
    | erewrite M_bind_done; [|apply read_list_run; lookup_solve]
    | erewrite M_bind_done; [|apply read_node_run; lookup_solve]
    | erewrite M_bind_done; [|apply write_list_run; lookup_solve]
    | erewrite M_bind_done; [|apply write_node_run; lookup_solve]
    | erewrite M_bind_done; [|eapply free_node_run; lookup_solve] ].
Ltac norm := unfold set_head, set_tail, add_size, set_nodes, set_lists;
             cbn [n_data n_next l_size l_head l_tail nodes lists].
Ltac frame_tac :=
  split; cbn [nodes lists]; intros ? Hnot;
  rewrite ?lookup_delete_ne, ?lookup_insert_ne by
    first [congruence | intros E; apply Hnot; rewrite <- E; assumption]; done.
Ltac runs := repeat (run1; norm).

Section linkedlist_proofs.
Context `{Allocator}.

Lemma is_list_not_null h lp n l a : is_listn h lp n l → a ∈ l.*1 → a ≠ NULL.
Proof. intros []. by eapply seg_nonnull. Qed.

Lemma fresh_not_in h lp n l : is_listn h lp n l → pick (live h) ∉ l.*1.
Proof.
  intros [_ Hs _] Hin. eapply seg_dom in Hs; [|done].
  apply elem_of_dom in Hs as [? Hs]. by rewrite live_fresh_node in Hs.
Qed.

(** What an operation on one list may touch. *)
Definition frame_but (h h' : lheap) (lp : Z) (touched : list Z) : Prop :=
  (∀ a, a ∉ touched → nodes h' !! a = nodes h !! a) ∧
  (∀ q, q ≠ lp → lists h' !! q = lists h !! q).

(** Traversals: with enough fuel each loop computes the list function. *)
Fixpoint index_of (d : Z) (l : list (Z * Z)) (i : Z) : Z :=
  match l with
  | [] => -1
  | (_, d') :: l => if decide (d' = d) then i else index_of d l (i + 1)
  end.

Lemma walk_enough h lp n l : is_listn h lp n l → (length l < walk_bound h)%nat.
Proof. intros [_ Hs Hnd]. apply seg_length in Hs; [|done]. unfold walk_bound. lia. Qed.

Lemma ListGetIndex_loop_run h l : ∀ fuel p d i,
  seg (nodes h) p l NULL → (length l < fuel)%nat →
  ListGetIndex_loop fuel d p i h = Done (index_of d l i, h).
Proof.
  induction l as [|[a d'] l IH]; intros [|fuel] p d i Hs Hf; simpl in *; try lia.
  - by rewrite decide_True.
  - destruct Hs as (-> & Ha & nx & Hnx & Hs). rewrite decide_False by done.
    run1. simpl. case_decide; [done|]. apply IH; [done|lia].
Qed.

Lemma ListGetIndex_run h lp n l d :
  is_listn h lp n l → ListGetIndex lp d h = Done (index_of d l 0, h).
Proof.
  intros Hl. unfold ListGetIndex. destruct (Hl) as [Hh Hs _]. runs.
  apply ListGetIndex_loop_run; [done|]. by eapply walk_enough.
Qed.

Lemma ListGetData_loop_run h l : ∀ fuel p (k i : nat),
  seg (nodes h) p l NULL → (length l < fuel)%nat →
  ListGetData_loop fuel (i + k) p i h =
    match l !! k with Some (_, d) => Done (d, h) | None => Panicked PANIC_LINKED_LIST end.
Proof.
  induction l as [|[a d'] l IH]; intros [|fuel] p k i Hs Hf; simpl in *; try lia.
  - by rewrite decide_True.
  - destruct Hs as (-> & Ha & nx & Hnx & Hs). rewrite decide_False by done.
    run1. simpl. destruct k as [|k]; simpl.
    + by rewrite decide_True by lia.
    + rewrite decide_False by lia.
      rewrite <- (IH fuel nx k (S i)) by (done || lia). f_equal; lia.
Qed.

Lemma ListGetDataAtIndex_loop_run h l : ∀ k p,
  seg (nodes h) p l NULL →
  ListGetDataAtIndex_loop k p h = Done (from_option snd NULL (l !! k), h).
Proof.
  induction l as [|[a d'] l IH]; intros [|k] p Hs; simpl in *.
  - by rewrite decide_True.
  - by rewrite decide_True.
  - destruct Hs as (-> & Ha & nx & Hnx & Hs). rewrite decide_False by done. by runs.
  - destruct Hs as (-> & Ha & nx & Hnx & Hs). rewrite decide_False by done. runs. by apply IH.
Qed.

Lemma last_split (l : list (Z * Z)) : l ≠ [] → ∃ l0 a d, l = l0 ++ [(a, d)].
Proof.
  destruct l as [|x l _] using rev_ind; [done|]. destruct x as [a d]. eauto.
Qed.

Lemma ListInsertEnd_run h lp n l d :
  is_listn h lp n l →
  ∃ h', ListInsertEnd lp d h = Done (tt, h') ∧
        is_listn h' lp (n + 1) (l ++ [(pick (live h), d)]) ∧
        frame_but h h' lp (pick (live h) :: l.*1).
Proof.
  intros Hl. pose proof (fresh_not_in _ _ _ _ Hl) as Hfr.
  pose proof (live_fresh_node h) as Hfn.
  pose proof (pick_nonnull (live h)) as Hnn.
  destruct Hl as [Hh Hs Hnd]. set (p := pick (live h)) in *.
  unfold ListInsertEnd. run1. norm.
  destruct (decide (l = [])) as [->|Hne].
  - decide_true. erewrite M_bind_done.
    2: { runs. apply write_list_run. lookup_solve. }
    runs. eexists. split; [apply write_list_run; lookup_solve|].
    norm. split; [split|split]; norm; intros.
    + by rewrite !insert_insert_eq, lookup_insert_eq.
    + simpl. split_and!; [done..|]. eexists. by rewrite !insert_insert_eq, lookup_insert_eq.
    + simpl. constructor; [set_solver|constructor].
    + rewrite !lookup_insert_ne; set_solver.
    + by rewrite !lookup_insert_ne.
  - destruct (last_split _ Hne) as (l0 & a & d0 & ->).
    rewrite last_ptr_snoc in *.
    apply seg_app in Hs as (m & Hs0 & (-> & Ha & nx & Hnx & Hend)). simpl in Hend. subst nx.
    rewrite decide_False by done.
    rewrite fmap_app in *. cbn [fmap list_fmap fst] in *.
    assert (p ≠ a) as Hpa by set_solver.
    erewrite M_bind_done. 2: { runs. apply write_list_run. lookup_solve. }
    runs. eexists. split; [apply write_list_run; lookup_solve|].
    norm. split; [split|split]; norm; intros.
    + rewrite !insert_insert_eq, lookup_insert_eq. norm. f_equal.
      rewrite <- app_assoc. simpl. f_equal.
      * destruct l0; done.
      * unfold last_ptr. rewrite last_app. done.
    + rewrite <- app_assoc. apply seg_app. exists a. split.
      * assert (first_ptr (l0 ++ [(a, d0)] ++ [(p, d)]) = first_ptr (l0 ++ [(a, d0)])) as ->
          by (destruct l0; done).
        eapply seg_frame; [|exact Hs0]. intros b Hb.
        assert (b ≠ a). { intros ->. apply NoDup_app in Hnd as (_ & Hd & _). set_solver. }
        rewrite !lookup_insert_ne; set_solver.
      * simpl. split_and!; [done..|]. exists p.
        split. { by simplify_map_eq. }
        split_and!; [done..|]. eexists. by rewrite lookup_insert_eq.
    + rewrite !fmap_app. simpl. apply NoDup_app. split_and!.
      * done.
      * set_solver.
      * constructor; [set_solver|constructor].
    + rewrite !lookup_insert_ne; set_solver.
    + by rewrite !lookup_insert_ne.
Qed.

Lemma last_ptr_cons_in a d l : last_ptr ((a, d) :: l) ∈ ((a, d) :: l).*1.
Proof.
  destruct (last_split ((a, d) :: l)) as (l0 & b & e & ->); [done|].
  rewrite last_ptr_snoc, fmap_app. set_solver.
Qed.

Lemma last_ptr_app_r l1 a d l2 : last_ptr (l1 ++ (a, d) :: l2) = last_ptr ((a, d) :: l2).
Proof.
  destruct (last_split ((a, d) :: l2)) as (l0 & b & e & ->); [done|].
  by rewrite app_assoc, !last_ptr_snoc.
Qed.

Lemma last_ptr_eq a d l : a ∉ l.*1 → last_ptr ((a, d) :: l) = a ↔ l = [].
Proof.
  intros Hn. split; [|by intros ->]. destruct l as [|[b e] l]; [done|].
  intros E. destruct Hn. rewrite <- E.
  change ((a, d) :: (b, e) :: l) with ([(a, d)] ++ (b, e) :: l).
  rewrite last_ptr_app_r. apply last_ptr_cons_in.
Qed.

Lemma nodup_mid (l0 l2 : list (Z * Z)) b e a d :
  NoDup ((l0 ++ [(b, e)]) ++ (a, d) :: l2).*1 →
  ((a ∉ l0.*1) ∧ (b ∉ l0.*1) ∧ a ≠ b ∧ (a ∉ l2.*1) ∧ (b ∉ l2.*1)) ∧
  NoDup ((l0 ++ [(b, e)]) ++ l2).*1.
Proof.
  rewrite !fmap_app. csimpl. intros Hnd. split.
  - apply NoDup_app in Hnd as (Hnd1 & Hdisj & [Ha2 Hnd2]%NoDup_cons).
    apply NoDup_app in Hnd1 as (Hnd0 & Hd0 & _).
    split_and!; [intros Hin; apply (Hdisj a); set_solver | set_solver | | done |].
    + intros ->. eapply (Hdisj b); set_solver.
    + intros Hin. eapply (Hdisj b); set_solver.
  - eapply sublist_NoDup; [exact Hnd|]. apply sublist_app; [done|by constructor].
Qed.

Lemma seg_unlink ns l0 b e a d l2 nb :
  seg ns (first_ptr ((l0 ++ [(b, e)]) ++ (a, d) :: l2)) l0 b →
  seg ns (first_ptr l2) l2 NULL →
  NoDup ((l0 ++ [(b, e)]) ++ (a, d) :: l2).*1 → b ≠ NULL → nb = Node e (first_ptr l2) →
  seg (delete a (<[b := nb]> ns)) (first_ptr ((l0 ++ [(b, e)]) ++ l2))
    ((l0 ++ [(b, e)]) ++ l2) NULL.
Proof.
  intros H0 H2 [(Ha0 & Hb0 & Hab & Ha2 & Hb2) Hnd]%nodup_mid Hb ->.
  assert (first_ptr ((l0 ++ [(b, e)]) ++ l2) = first_ptr ((l0 ++ [(b, e)]) ++ (a, d) :: l2))
    as -> by (by destruct l0).
  apply seg_app. exists (first_ptr l2). split; [apply seg_app; exists b; split|].
  - eapply seg_frame; [|done]. intros c Hc.
    by rewrite lookup_delete_ne, lookup_insert_ne by congruence.
  - simpl. split_and!; [done..|]. eexists. split; [|done].
    by rewrite lookup_delete_ne, lookup_insert_eq by congruence.
  - eapply seg_frame; [|done]. intros c Hc.
    by rewrite lookup_delete_ne, lookup_insert_ne by congruence.
Qed.

(** Unlinking the head, or the node after [b]. *)
Lemma ProperDelete_head_run h lp n a d l2 :
  is_listn h lp n ((a, d) :: l2) →
  ∃ h', ProperDelete lp a NULL h = Done (tt, h') ∧
        is_listn h' lp (n - 1) l2 ∧ nodes h' !! a = None ∧ frame_but h h' lp ((a, d) :: l2).*1.
Proof.
  intros [Hh Hs Hnd]. csimpl in Hnd. apply NoDup_cons in Hnd as [Ha2 Hnd2].
  destruct Hs as (_ & Ha & nx & Hnx & Hs2). pose proof (seg_first _ _ _ Hs2) as ->.
  assert (a ∈ ((a, d) :: l2).*1) as HaT by (csimpl; left).
  unfold ProperDelete. run1. norm. rewrite decide_True by done.
  erewrite M_bind_done. 2: { runs. apply write_list_run. lookup_solve. }
  assert (seg (delete a (nodes h)) (first_ptr l2) l2 NULL).
  { eapply seg_frame; [|done]. intros b Hb. by rewrite lookup_delete_ne by congruence. }
  runs. destruct (decide (l2 = [])) as [->|Hl2].
  - rewrite decide_True by done.
    erewrite M_bind_done; [|apply write_list_run; lookup_solve].
    runs. eexists. split; [apply write_list_run; lookup_solve|].
    norm. rewrite !insert_insert_eq. split_and!; [|by rewrite lookup_delete_eq|frame_tac].
    split; norm; [by rewrite lookup_insert_eq|done..].
  - rewrite decide_False by (intros E; symmetry in E; by apply last_ptr_eq in E).
    runs. eexists. split; [apply write_list_run; lookup_solve|].
    norm. rewrite !insert_insert_eq. split_and!; [|by rewrite lookup_delete_eq|frame_tac].
    split; norm; [|done..].
    rewrite lookup_insert_eq. do 2 f_equal. destruct l2 as [|[b e] l2]; [done|].
    by rewrite <- (last_ptr_app_r [(a, d)]).
Qed.

Lemma ProperDelete_mid_run h lp n l0 b e a d l2 :
  is_listn h lp n ((l0 ++ [(b, e)]) ++ (a, d) :: l2) →
  ∃ h', ProperDelete lp a b h = Done (tt, h') ∧
        is_listn h' lp (n - 1) ((l0 ++ [(b, e)]) ++ l2) ∧ nodes h' !! a = None ∧
        frame_but h h' lp ((l0 ++ [(b, e)]) ++ (a, d) :: l2).*1.
Proof.
  intros [Hh Hs Hnd].
  pose proof (nodup_mid _ _ _ _ _ _ Hnd) as [(Ha0 & Hb0 & Hab & Ha2 & Hb2) Hnd'].
  apply seg_app in Hs as (m & Hs1 & (-> & Ha & nx & Hnx & Hs2)).
  pose proof (seg_first _ _ _ Hs2) as ->.
  apply seg_app in Hs1 as (m & Hs0 & (-> & Hb & nx & Hnb & Hend)). simpl in Hend. subst nx.
  pose proof (seg_unlink _ _ _ _ _ _ _ _ Hs0 Hs2 Hnd Hb eq_refl) as Hseg.
  assert (a ∈ ((l0 ++ [(b, e)]) ++ (a, d) :: l2).*1) as HaT by (rewrite !fmap_app; set_solver-).
  assert (b ∈ ((l0 ++ [(b, e)]) ++ (a, d) :: l2).*1) as HbT by (rewrite !fmap_app; set_solver-).
  rewrite last_ptr_app_r in Hh. unfold ProperDelete. run1. norm.
  rewrite decide_False by (destruct l0 as [|[c f] l0]; simpl in *; set_solver).
  erewrite M_bind_done. 2: { runs. apply write_node_run. lookup_solve. }
  runs. destruct (decide (l2 = [])) as [->|Hl2].
  - rewrite decide_True by done.
    erewrite M_bind_done; [|apply write_list_run; lookup_solve].
    runs. eexists. split; [apply write_list_run; lookup_solve|].
    norm. rewrite !insert_insert_eq. split_and!; [|by rewrite lookup_delete_eq|frame_tac].
    split; norm; [|done..]. rewrite lookup_insert_eq, app_nil_r, last_ptr_snoc.
    do 2 f_equal; by destruct l0.
  - rewrite decide_False by (intros E; symmetry in E; by apply last_ptr_eq in E).
    runs. eexists. split; [apply write_list_run; lookup_solve|].
    norm. split_and!; [|by rewrite lookup_delete_eq|frame_tac].
    split; norm; [|done..]. rewrite lookup_insert_eq.
    destruct l2 as [|[c f] l2]; [done|].
    rewrite last_ptr_app_r, <- (last_ptr_app_r [(a, d)]).
    do 2 f_equal; by destruct l0.
Qed.

Lemma ProperDelete_run h lp n l1 a d l2 :
  is_listn h lp n (l1 ++ (a, d) :: l2) →
  ∃ h', ProperDelete lp a (last_ptr l1) h = Done (tt, h') ∧
        is_listn h' lp (n - 1) (l1 ++ l2) ∧ nodes h' !! a = None ∧
        frame_but h h' lp (l1 ++ (a, d) :: l2).*1.
Proof.
  destruct (decide (l1 = [])) as [->|Hne]; [apply ProperDelete_head_run|].
  destruct (last_split _ Hne) as (l0 & b & e & ->). rewrite last_ptr_snoc.
  apply ProperDelete_mid_run.
Qed.

Lemma ListDeleteIndex_loop_run h lp n l2 : ∀ fuel l1 p (k : nat),
  is_listn h lp n (l1 ++ l2) → seg (nodes h) p l2 NULL → (length l2 < fuel)%nat →
  (k < length l2)%nat →
  ∃ h', ListDeleteIndex_loop fuel lp (length l1 + k) p (last_ptr l1) (length l1) h
          = Done (true, h') ∧
        is_listn h' lp (n - 1) (l1 ++ delete k l2) ∧
        nodes h' !! (l2.*1 !!! k) = None ∧ frame_but h h' lp (l1 ++ l2).*1.
Proof.
  induction l2 as [|[a d] l2 IH]; intros [|fuel] l1 p k Hl Hs Hf Hk; simpl in Hf, Hk; try lia.
  simpl in Hs. destruct Hs as (-> & Ha & nx & Hnx & Hs).
  simpl. rewrite decide_False by done. destruct k as [|k].
  - rewrite decide_True by lia.
    destruct (ProperDelete_run _ _ _ _ _ _ _ Hl) as (h' & E & Hl' & Hn & Hfr).
    exists h'. erewrite M_bind_done by done. done.
  - rewrite decide_False by lia. run1. norm.
    destruct (IH fuel (l1 ++ [(a, d)]) nx k) as (h' & E & Hl' & Hn & Hfr);
      [by rewrite <- app_assoc|done|lia|lia|].
    rewrite last_ptr_snoc, length_app in E. simpl in E.
    rewrite <- app_assoc in Hl', Hfr.
    exists h'. split_and!; [|done..].
    rewrite <- E. f_equal; lia.
Qed.

(** [ListDeleteIndex] removes exactly the node at a valid index and frees it;
    any other index leaves the store as it is. *)
Lemma ListDeleteIndex_run h lp n l (k : nat) :
  is_listn h lp n l → (k < length l)%nat → k < n →
  ∃ h', ListDeleteIndex lp k h = Done (true, h') ∧ is_listn h' lp (n - 1) (delete k l) ∧
        nodes h' !! (l.*1 !!! k) = None ∧ frame_but h h' lp l.*1.
Proof.
  intros Hl Hk Hn. unfold ListDeleteIndex. destruct (Hl) as [Hh Hs Hnd]. run1. norm.
  rewrite decide_False by lia. runs.
  apply (ListDeleteIndex_loop_run h lp n l (walk_bound h) [] (first_ptr l) k); [done..|eapply walk_enough; done|done].
Qed.

Lemma ListDeleteIndex_out h lp n l i :
  is_listn h lp n l → ¬ (0 ≤ i < n) → ListDeleteIndex lp i h = Done (false, h).
Proof.
  intros [Hh _ _] Hi. unfold ListDeleteIndex. run1. norm. by rewrite decide_True by lia.
Qed.

Lemma index_of_range d l i :
  index_of d l i = -1 ∨ ∃ k : nat, index_of d l i = i + k ∧ (k < length l)%nat.
Proof.
  revert i; induction l as [|[a d'] l IH]; intros i; simpl; [auto|].
  case_decide; [right; exists O; split; simpl; lia|].
  destruct (IH (i + 1)) as [?|(k & ? & ?)]; [auto|]. right. exists (S k). split; lia.
Qed.

(** Destruction releases every node and the header. *)
Lemma ListDestroy_loop_run l : ∀ h lp fuel,
  is_list h lp l → (length l ≤ fuel)%nat →
  ∃ h', ListDestroy_loop fuel lp h = Done (tt, h') ∧ is_list h' lp [] ∧
        (∀ a, a ∈ l.*1 → nodes h' !! a = None) ∧ frame_but h h' lp l.*1.
Proof.
  induction l as [|[a d] l IH]; intros h lp fuel Hl Hf.
  - exists h. destruct (Hl) as [Hh _ _]. split_and!; [|done|set_solver|done].
    destruct fuel; simpl; run1; norm; by rewrite decide_False.
  - destruct fuel as [|fuel]; simpl in Hf; [lia|]. simpl.
    destruct (Hl) as [Hh Hs _]. run1. norm. rewrite decide_True by (simpl; lia).
    destruct (ListDeleteIndex_run _ _ _ _ 0 Hl) as (h1 & E1 & Hl1 & Hn1 & Hf1); [simpl; lia..|].
    erewrite M_bind_done by exact E1. csimpl in *.
    replace (S (length l) - 1) with (Z.of_nat (length l)) in Hl1 by lia.
    destruct (IH _ _ fuel Hl1) as (h2 & E2 & Hl2 & Hn2 & Hf2); [lia|].
    exists h2. split_and!; [done..| |].
    + intros b Hb. apply elem_of_cons in Hb as [->|Hb]; [|auto].
      destruct (decide (a ∈ l.*1)); [auto|]. destruct Hf2 as [-> _]; done.
    + destruct Hf1 as [H1n H1l], Hf2 as [H2n H2l]. split; intros c Hc.
      * rewrite H2n, H1n; set_solver.
      * rewrite H2l, H1l; done.
Qed.

(** [ListInsertStart] links the new node to the TAIL: whatever the list held,
    what is reachable from the head afterwards is the new node followed by the
    old last node, while the size field counts one more. *)
Lemma ListInsertStart_run h lp n l d :
  is_listn h lp n l →
  ∃ h', ListInsertStart lp d h = Done (tt, h') ∧
        is_listn h' lp (n + 1) ((pick (live h), d) :: option_list (last l)) ∧
        frame_but h h' lp [pick (live h)].
Proof.
  intros Hl. pose proof (fresh_not_in _ _ _ _ Hl) as Hfr.
  pose proof (pick_nonnull (live h)) as Hnn. destruct Hl as [Hh Hs Hnd].
  set (p := pick (live h)) in *. assert (p ∈ [p]) as HpT by left.
  unfold ListInsertStart. runs. destruct (decide (l = [])) as [->|Hne].
  - rewrite decide_True by done.
    erewrite M_bind_done. 2: { runs. apply write_list_run. lookup_solve. }
    runs. eexists. split; [apply write_list_run; lookup_solve|]. norm.
    rewrite !insert_insert_eq. split_and!; [split; norm|frame_tac].
    + by rewrite lookup_insert_eq.
    + simpl. split_and!; [done..|]. eexists. by rewrite lookup_insert_eq.
    + apply NoDup_singleton.
  - destruct (last_split _ Hne) as (l0 & a & e & ->). rewrite last_ptr_snoc in *.
    apply seg_app in Hs as (m & Hs0 & (-> & Ha & nx & Hnx & Hend)). simpl in Hend. subst nx.
    assert (p ≠ a) as Hpa. { intros ->. apply Hfr. rewrite fmap_app. set_solver-. }
    rewrite decide_False by (destruct l0 as [|[c f] l0]; simpl in *; naive_solver).
    runs. eexists. split; [apply write_list_run; lookup_solve|]. norm.
    rewrite !insert_insert_eq, last_snoc. split_and!; [split; norm|frame_tac].
    + by rewrite lookup_insert_eq.
    + simpl. split_and!; [done..|]. eexists. split; [by rewrite lookup_insert_eq|].
      split_and!; [done..|]. eexists. by rewrite lookup_insert_ne by done.
    + csimpl. constructor; [set_solver|apply NoDup_singleton].
Qed.

(** A list whose size field is larger than the chain it heads can never be
    destroyed: the loop spins on the empty chain. *)
Lemma ListDestroy_loop_spins n l : ∀ h lp fuel,
  is_listn h lp n l → length l < n → ListDestroy_loop fuel lp h = Exhausted.
Proof.
  intros h lp fuel. revert n l h.
  induction fuel as [|fuel IH]; intros n l h Hl Hlt; destruct (Hl) as [Hh _ _]; simpl.
  { run1. norm. by rewrite decide_True by lia. }
  run1. norm. rewrite decide_True by lia. destruct l as [|[a d] l].
  - erewrite M_bind_done; [by apply (IH _ _ _ Hl)|].
    unfold ListDeleteIndex. run1. norm. simpl in Hlt. rewrite decide_False by lia.
    by run1.
  - destruct (ListDeleteIndex_run _ _ _ _ 0 Hl) as (h1 & E1 & Hl1 & _ & _); [simpl in *; lia..|].
    erewrite M_bind_done by exact E1. apply (IH _ _ _ Hl1). simpl in *. lia.
Qed.

Lemma ListCreate_run h :
  ∃ h', ListCreate h = Done (pick (live h), h') ∧ is_list h' (pick (live h)) [] ∧
        lists h !! pick (live h) = None ∧ frame_but h h' (pick (live h)) [].
Proof.
  exists (set_lists <[pick (live h) := LList 0 NULL NULL]> h).
  split; [done|]. norm. split_and!; [split; norm|apply live_fresh_list|].
  - by rewrite lookup_insert_eq.
  - done.
  - constructor.
  - split; norm; intros; [done|]. by rewrite lookup_insert_ne.
Qed.

(** ** The list as a sequence of data

    [list_op] are the calls of linkedlist.h that respect the list; [exec] runs
    one against the store, [abs_exec] is its meaning on a plain sequence. *)
Inductive list_op : Type :=
  | OpInsertEnd (d : Z)
  | OpDeleteIndex (i : Z)
  | OpDeleteData (d : Z)
  | OpContains (d : Z)
  | OpGetIndex (d : Z)
  | OpGetData (i : Z)
  | OpGetDataAtIndex (i : Z)
  | OpSize.

Definition exec (lp : Z) (op : list_op) : M lheap Z :=
  match op with
  | OpInsertEnd d => ListInsertEnd lp d;; mret 0
  | OpDeleteIndex i => b ← ListDeleteIndex lp i; mret (Z.b2z b)
  | OpDeleteData d => b ← ListDeleteData lp d; mret (Z.b2z b)
  | OpContains d => b ← ListContains lp d; mret (Z.b2z b)
  | OpGetIndex d => ListGetIndex lp d
  | OpGetData i => ListGetData lp i
  | OpGetDataAtIndex i => ListGetDataAtIndex lp i
  | OpSize => ListSize lp
  end.

(** A sequence of calls, with their results. *)
Fixpoint run_ops (lp : Z) (ops : list list_op) : M lheap (list Z) :=
  match ops with
  | [] => mret []
  | op :: ops => r ← exec lp op; rs ← run_ops lp ops; mret (r :: rs)
  end.

Definition seq_index (d : Z) (s : list Z) : Z :=
  match list_find (λ x, x = d) s with Some (i, _) => Z.of_nat i | None => -1 end.

Definition seq_delete (i : Z) (s : list Z) : Z * list Z :=
  if decide (0 ≤ i < length s) then (1, delete (Z.to_nat i) s) else (0, s).

(** [None] is the panic of [ListGetData] past the end. *)
Definition abs_exec (op : list_op) (s : list Z) : option (Z * list Z) :=
  match op with
  | OpInsertEnd d => Some (0, s ++ [d])
  | OpDeleteIndex i => Some (seq_delete i s)
  | OpDeleteData d => Some (seq_delete (seq_index d s) s)
  | OpContains d => Some (Z.b2z (bool_decide (d ∈ s)), s)
  | OpGetIndex d => Some (seq_index d s, s)
  | OpGetData i => if decide (0 ≤ i) then (λ d, (d, s)) <$> s !! Z.to_nat i else None
  | OpGetDataAtIndex i => Some (default NULL (s !! Z.to_nat i), s)
  | OpSize => Some (Z.of_nat (length s), s)
  end.

Fixpoint abs_run (ops : list list_op) (s : list Z) : option (list Z * list Z) :=
  match ops with
  | [] => Some ([], s)
  | op :: ops => '(r, s1) ← abs_exec op s; '(rs, s2) ← abs_run ops s1; Some (r :: rs, s2)
  end.

Lemma index_of_seq d l (i : Z) :
  index_of d l i = match list_find (λ x, x = d) l.*2 with
                   | Some (k, _) => i + Z.of_nat k | None => -1 end.
Proof.
  revert i; induction l as [|[a d'] l IH]; intros i; csimpl; [done|].
  case_decide; [simpl; lia|]. rewrite IH.
  destruct (list_find _ l.*2) as [[k x]|]; simpl; [lia|done].
Qed.

Lemma index_of_seq_index d l : index_of d l 0 = seq_index d l.*2.
Proof. rewrite index_of_seq. unfold seq_index. by destruct (list_find _ _) as [[]|]. Qed.

Lemma seq_index_elem d s : seq_index d s = -1 ↔ d ∉ s.
Proof.
  unfold seq_index. destruct (list_find (λ x, x = d) s) as [[i x]|] eqn:E.
  - apply list_find_Some in E as (Hi & -> & _). split; [lia|].
    intros []. by eapply list_elem_of_lookup_2.
  - apply list_find_None in E. split; [|done]. intros _ Hd.
    rewrite Forall_forall in E. by eapply E.
Qed.

Lemma delete_exec h lp l i :
  is_list h lp l →
  ∃ h' l', (b ← ListDeleteIndex lp i; mret (Z.b2z b)) h = Done ((seq_delete i l.*2).1, h') ∧
           is_list h' lp l' ∧ l'.*2 = (seq_delete i l.*2).2.
Proof.
  intros Hl. unfold seq_delete. rewrite length_fmap. case_decide as Hi.
  - destruct (ListDeleteIndex_run _ _ _ _ (Z.to_nat i) Hl) as (h' & E & Hl' & _); [lia..|].
    rewrite Z2Nat.id in E by lia. exists h', (delete (Z.to_nat i) l).
    erewrite M_bind_done by exact E. split_and!; [done| |].
    + unfold is_list. rewrite length_delete by (apply lookup_lt_is_Some; lia).
      by replace (Z.of_nat (length l - 1)) with (length l - 1) by lia.
    + simpl. by rewrite list_fmap_delete.
  - exists h, l. split_and!; [|done..]. 
    by erewrite M_bind_done by (by eapply ListDeleteIndex_out).
Qed.

Lemma exec_refines h lp l op :
  is_list h lp l →
  match abs_exec op l.*2 with
  | Some (r, s') => ∃ h' l', exec lp op h = Done (r, h') ∧ is_list h' lp l' ∧ l'.*2 = s'
  | None => exec lp op h = Panicked PANIC_LINKED_LIST
  end.
Proof.
  intros Hl. destruct op as [d|i|d|d|d|i|i|]; simpl.
  - destruct (ListInsertEnd_run _ _ _ _ d Hl) as (h' & E & Hl' & _).
    exists h', (l ++ [(pick (live h), d)]). erewrite M_bind_done by exact E.
    split_and!; [done| |by rewrite fmap_app].
    unfold is_list. rewrite length_app, Nat2Z.inj_add. done.
  - destruct (delete_exec _ _ _ i Hl) as (h' & l' & E & Hl' & Hs).
    destruct (seq_delete i l.*2) as [r s']. eauto.
  - destruct (delete_exec _ _ _ (seq_index d l.*2) Hl) as (h' & l' & E & Hl' & Hs).
    destruct (seq_delete (seq_index d l.*2) l.*2) as [r s']. exists h', l'.
    split; [|done]. simpl in E. rewrite <- E, <- index_of_seq_index. unfold ListDeleteData.
    unfold mbind, M_mbind. by rewrite (ListGetIndex_run _ _ _ _ d Hl).
  - exists h, l. split_and!; [|done..]. unfold ListContains.
    unfold mbind, M_mbind. rewrite (ListGetIndex_run _ _ _ _ d Hl). simpl.
    rewrite index_of_seq_index, mret_run. do 3 f_equal.
    apply bool_decide_ext. rewrite seq_index_elem. destruct (decide (d ∈ l.*2)); naive_solver.
  - exists h, l. split_and!; [|done..].
    by rewrite (ListGetIndex_run _ _ _ _ d Hl), index_of_seq_index.
  - unfold ListGetData. destruct (Hl) as [Hh Hs _]. pose proof (walk_enough _ _ _ _ Hl).
    case_decide.
    + pose proof (ListGetData_loop_run h l (walk_bound h) (first_ptr l) (Z.to_nat i) 0 Hs) as E.
      rewrite list_lookup_fmap. rewrite Z.add_0_l, Z2Nat.id in E by lia.
      destruct (l !! Z.to_nat i) as [[a d]|] eqn:El; simpl.
      * exists h, l. split_and!; [|done..]. runs. by apply E.
      * runs. by apply E.
    + assert (∀ l0 fuel p j, seg (nodes h) p l0 NULL → (length l0 < fuel)%nat → i < j →
        ListGetData_loop fuel i p j h = Panicked PANIC_LINKED_LIST) as Hneg.
      { clear. induction l0 as [|[a d] l0 IH]; intros [|fuel] p j Hs Hf Hj; simpl in *; try lia.
        - by rewrite decide_True.
        - destruct Hs as (-> & Ha & nx & Hnx & Hs). rewrite decide_False by done.
          run1. rewrite decide_False by lia. apply IH; [done|lia|lia]. }
      runs. apply Hneg with l; [done..|lia].
  - exists h, l. split_and!; [|done..]. unfold ListGetDataAtIndex. destruct (Hl) as [Hh Hs _].
    runs. rewrite ListGetDataAtIndex_loop_run with (l := l) by done.
    rewrite list_lookup_fmap. by destruct (l !! Z.to_nat i) as [[]|].
  - exists h, l. split_and!; [|done..]. unfold ListSize. destruct (Hl) as [Hh _ _].
    run1. norm. by rewrite length_fmap.
Qed.

(** ** Properties *)

(** any sequence of calls to the list (append, delete by index or by value,
    membership, index of, read at index, size) started on a well-formed list
    returns exactly what the same calls return on the plain sequence of its
    data and leaves a well-formed list of the resulting sequence; the only
    failure is the panic of [ListGetData] on an index past the end. *)
Theorem list_refines_sequence ops h lp l :
  is_list h lp l →
  match abs_run ops l.*2 with
  | Some (rs, s') => ∃ h' l', run_ops lp ops h = Done (rs, h') ∧ is_list h' lp l' ∧ l'.*2 = s'
  | None => run_ops lp ops h = Panicked PANIC_LINKED_LIST
  end.
Proof.
  revert h l. induction ops as [|op ops IH]; intros h l Hl; [by exists h, l|].
  cbn [abs_run run_ops]. pose proof (exec_refines _ _ _ op Hl) as Hop.
  destruct (abs_exec op l.*2) as [[r s1]|]; cbn [mbind option_bind].
  - destruct Hop as (h1 & l1 & E1 & Hl1 & <-). erewrite M_bind_done by exact E1.
    specialize (IH _ _ Hl1). destruct (abs_run ops l1.*2) as [[rs s2]|]; cbn.
    + destruct IH as (h2 & l2 & E2 & Hl2 & <-). exists h2, l2.
      by erewrite M_bind_done by exact E2.
    + by erewrite M_bind_panic by exact IH.
  - by erewrite M_bind_panic by exact Hop.
Qed.

(** destroying a well-formed list terminates (one iteration per element is
    enough), releases the header and every node of the list, and touches
    nothing else. *)
Theorem ListDestroy_frees_all h lp l fuel :
  is_list h lp l → (length l ≤ fuel)%nat →
  ∃ h', ListDestroy fuel lp h = Done (tt, h') ∧ lists h' !! lp = None ∧
        (∀ a, a ∈ l.*1 → nodes h' !! a = None) ∧ frame_but h h' lp l.*1.
Proof.
  intros Hl Hf. destruct (ListDestroy_loop_run _ _ _ _ Hl Hf) as (h1 & E1 & [Hh1 _ _] & Hn & Hfr).
  exists (set_lists (delete lp) h1). unfold ListDestroy.
  erewrite M_bind_done by exact E1. runs. split_and!; norm; [done|by rewrite lookup_delete_eq|done|].
  destruct Hfr as [Hfn Hfl]. split; norm; [done|]. intros q Hq. rewrite lookup_delete_ne; auto.
Qed.

(** inserting at the start of a list of two or more elements loses all but
    the last of them (the new node is linked to the tail, not to the head):
    afterwards only the new element and the old last one are reachable, while
    the size still counts every element, and destroying that list never
    terminates, whatever the loop bound. *)
Theorem ListInsertStart_loses_middle h lp l d :
  is_list h lp l → (2 ≤ length l)%nat →
  ∃ h' z, ListInsertStart lp d h = Done (tt, h') ∧ last l = Some z ∧
          is_listn h' lp (length l + 1) [(pick (live h), d); z] ∧
          (∀ fuel, ListDestroy fuel lp h' = Exhausted).
Proof.
  intros Hl Hlen. destruct (ListInsertStart_run _ _ _ _ d Hl) as (h' & E & Hl' & _).
  destruct (last l) as [z|] eqn:Ez; [|apply last_None in Ez; subst; simpl in *; lia].
  exists h', z. simpl in Hl'. split_and!; [done..|].
  intros fuel. unfold ListDestroy, mbind, M_mbind.
  by rewrite (ListDestroy_loop_spins _ _ _ _ _ Hl') by (simpl; lia).
Qed.

(** a pop returns the value of the last push, from any state of the stack's
    list. *)
Theorem stack_push_then_pop h s n l d :
  is_listn h (s_list s) n l → 0 ≤ n → s_list s ≠ NULL →
  ∃ h1 h2, StackAdtPush s d h = Done (tt, h1) ∧ StackAdtPeek s h1 = Done (d, h1) ∧
           StackAdtPop s h1 = Done (d, h2) ∧ is_listn h2 (s_list s) n (option_list (last l)).
Proof.
  intros Hl Hn Hnn. destruct (ListInsertStart_run _ _ _ _ d Hl) as (h1 & E1 & Hl1 & _).
  destruct (ListDeleteIndex_run _ _ _ _ 0 Hl1) as (h2 & E2 & Hl2 & _); [simpl; lia..|].
  assert (StackAdtPeek s h1 = Done (d, h1)) as Epeek.
  { destruct Hl1 as [Hh (_ & Hp & nx & Hnx & _) _].
    unfold StackAdtPeek, ListGetFirstNode, ListGetDataFromNode. rewrite decide_False by done.
    unfold mbind at 1, M_mbind at 1. runs. simpl. rewrite decide_False by done. by runs. }
  exists h1, h2. split_and!; [done..| |].
  - unfold StackAdtPop. erewrite M_bind_done by exact Epeek. by erewrite M_bind_done by exact E2.
  - by replace n with (n + 1 - 1) by lia.
Qed.

End linkedlist_proofs.

(** ** Witnesses: the properties applied to concrete lists *)
Definition empty_heap : lheap := LHeap ∅ ∅.
Definition one_list : lheap := LHeap ∅ {[ 1 := LList 0 NULL NULL ]}.

Lemma one_list_ok : is_list one_list 1 [].
Proof. split; [done|done|constructor]. Qed.

Definition demo_ops : list list_op :=
  [OpInsertEnd 10; OpInsertEnd 20; OpInsertEnd 30; OpDeleteIndex 1; OpGetIndex 30;
   OpDeleteData 99; OpSize; OpGetData 0].

Lemma list_refines_sequence_witness :
  ∃ h' l', run_ops (H := bump_allocator) 1 demo_ops one_list = Done ([0; 0; 0; 1; 1; 0; 2; 10], h') ∧
           is_list h' 1 l' ∧ l'.*2 = [10; 30].
Proof. exact (list_refines_sequence (H := bump_allocator) demo_ops _ _ _ one_list_ok). Defined.

(** A list of three elements at the addresses 2, 3, 4. *)
Definition three_list : lheap :=
  LHeap {[ 2 := Node 10 3; 3 := Node 20 4; 4 := Node 30 NULL ]} {[ 1 := LList 3 2 4 ]}.

Lemma three_list_ok : is_list three_list 1 [(2, 10); (3, 20); (4, 30)].
Proof.
  split; [done| |].
  - simpl. split_and!; [done..|]. eexists; split; [done|]. split_and!; [done..|].
    eexists; split; [done|]. split_and!; [done..|]. by eexists.
  - apply (bool_decide_unpack _). by vm_compute.
Qed.

Lemma ListDestroy_frees_all_witness :
  ∃ h', ListDestroy 3 1 three_list = Done (tt, h') ∧ lists h' !! 1 = None ∧
        (∀ a, a ∈ [2; 3; 4] → nodes h' !! a = None) ∧ frame_but three_list h' 1 [2; 3; 4].
Proof. apply (ListDestroy_frees_all _ _ _ 3 three_list_ok). simpl. lia. Defined.

Lemma ListInsertStart_loses_middle_witness :
  ∃ h' z, ListInsertStart (H := bump_allocator) 1 5 three_list = Done (tt, h') ∧
          last [(2, 10); (3, 20); (4, 30)] = Some z ∧
          is_listn h' 1 4 [(5, 5); z] ∧ (∀ fuel, ListDestroy fuel 1 h' = Exhausted).
Proof.
  apply (ListInsertStart_loses_middle (H := bump_allocator) _ _ _ 5 three_list_ok). simpl. lia.
Defined.

Lemma stack_push_then_pop_witness :
  ∃ h1 h2, StackAdtPush (H := bump_allocator) (Stack 1) 7 three_list = Done (tt, h1) ∧
           StackAdtPeek (Stack 1) h1 = Done (7, h1) ∧ StackAdtPop (Stack 1) h1 = Done (7, h2) ∧
           is_listn h2 1 3 [(4, 30)].
Proof.
  apply (stack_push_then_pop (H := bump_allocator) three_list (Stack 1) _ _ 7 three_list_ok);
    simpl; [lia|done].
Defined.
