(* ===== verification/HeapAdt.v ===== *)
(** * adt/heap.c: the binary min/max heap behind the deferred-call queue

    The array is kept flat, as in the code: [capacity] rows of
    [qwords_per_elem] 64-bit words, the first word of a row being the priority
    and the rest the bytes of the element. Indices and sizes, which are C ints
    that the code never makes negative, are [nat]; words are [Z]. *)

From Stdlib Require Import Sorted.
From S2P Require Import Prelude.

Record heap_adt := Heap {
  capacity : nat;
  size : nat;
  element_width : nat;
  qwords_per_elem : nat;
  max : bool;
  array : list Z;
}.

#[export] Instance heap_adt_eq_dec : EqDecision heap_adt.
Proof. solve_decision. Defined.

Definition set_array (h : heap_adt) (a : list Z) : heap_adt :=
  Heap (capacity h) (size h) (element_width h) (qwords_per_elem h) (max h) a.
Definition set_size (h : heap_adt) (n : nat) : heap_adt :=
  Heap (capacity h) n (element_width h) (qwords_per_elem h) (max h) (array h).

(** [array[i]] and [array[i] = w]; an index outside the array is a fault. *)
Definition word (i : nat) : M heap_adt Z := h ← get; deref (array h !! i).
Definition set_word (i : nat) (w : Z) : M heap_adt unit :=
  h ← get;
  if decide (i < length (array h))%nat then put (set_array h (<[i := w]> (array h))) else fault.

(** Little-endian bytes in the words of a row ([inline_memcpy]). *)
Fixpoint le_combine (bs : list Z) : Z :=
  match bs with [] => 0 | b :: bs => b + 2 ^ 8 * le_combine bs end.
Fixpoint le_split (n : nat) (w : Z) : list Z :=
  match n with O => [] | S n => (w `mod` 2 ^ 8) :: le_split n (w `div` 2 ^ 8) end.

(** The low [length bs] bytes of a word are replaced. *)
Definition store_word (w : Z) (bs : list Z) : Z :=
  le_combine bs + (w `div` 2 ^ (8 * length bs)) * 2 ^ (8 * length bs).

Fixpoint memcpy_words (base : nat) (n : nat) (bs : list Z) : M heap_adt unit :=
  match n with
  | O => mret tt
  | S n =>
    match bs with
    | [] => mret tt
    | _ => w ← word base;
           set_word base (store_word w (take 8 bs));;
           memcpy_words (S base) n (drop 8 bs)
    end
  end.

Section heap_create.
Context `{Allocator}.

Definition HeapAdtCreate (cap : nat) (is_max : bool) (width : nat) : outcome heap_adt :=
  if negb (bool_decide (0 < cap)%nat) then Panicked PANIC_ASSERTION_FAILURE else
  if negb (bool_decide (0 < width)%nat) then Panicked PANIC_ASSERTION_FAILURE else
  let q := (1 + (width + 8 - 1) / 8)%nat in
  Done (Heap cap 0 width q is_max (replicate (q * cap) junk)).
End heap_create.

Fixpoint SwapElements_loop (n a b : nat) : M heap_adt unit :=
  match n with
  | O => mret tt
  | S n =>
    tmp ← word a;
    wb ← word b;
    set_word a wb;;
    set_word b tmp;;
    SwapElements_loop n (S a) (S b)
  end.

Definition SwapElements (a b : nat) : M heap_adt unit :=
  h ← get;
  SwapElements_loop (qwords_per_elem h) (a * qwords_per_elem h) (b * qwords_per_elem h).

Definition GetMinOrMaxIndex (a b : nat) : M heap_adt nat :=
  h ← get;
  if decide (size h ≤ a ∨ size h ≤ b)%nat then mret (a `min` b)%nat else
  wa ← word (a * qwords_per_elem h);
  wb ← word (b * qwords_per_elem h);
  let is_a_small := bool_decide (wa < wb) in
  mret (if xorb (max h) is_a_small then a else b).

(** Each recursive call moves to a strictly larger index below [size]. *)
Fixpoint Heapify (fuel i : nat) : M heap_adt unit :=
  match fuel with
  | O => exhausted
  | S fuel =>
    let left := (i * 2 + 1)%nat in
    let right := (left + 1)%nat in
    m ← GetMinOrMaxIndex i left;
    best ← GetMinOrMaxIndex right m;
    if decide (i ≠ best) then SwapElements i best;; Heapify fuel best
    else mret tt
  end.

(** The loop at the end of [HeapAdtInsert]; each turn halves [i]. *)
Fixpoint sift_up (fuel i : nat) : M heap_adt unit :=
  match fuel with
  | O => exhausted
  | S fuel =>
    h ← get;
    let q := qwords_per_elem h in
    if decide (i = O) then mret tt else
    wp ← word ((i - 1) / 2 * q);
    wi ← word (i * q);
    if xorb (max h) (bool_decide (wi < wp)) then
      SwapElements ((i - 1) / 2) i;; sift_up fuel ((i - 1) / 2)
    else mret tt
  end.

Definition HeapAdtInsert (elem : list Z) (priority : Z) : M heap_adt unit :=
  h ← get;
  if decide (size h = capacity h) then panic PANIC_PRIORITY_QUEUE else
  let q := qwords_per_elem h in
  let i := size h in
  put (set_size h (S (size h)));;
  set_word (i * q) priority;;
  memcpy_words (i * q + 1) (q - 1) (take (element_width h) elem);;
  sift_up (S i) i.

(** The priority, and the index in the array of the data it refers to. *)
Record heap_adt_result := Result { priority : Z; data : nat }.

Definition HeapAdtPeek : M heap_adt heap_adt_result :=
  h ← get;
  if decide (size h = O) then panic PANIC_PRIORITY_QUEUE else
  p ← word 0;
  mret (Result p 1).

Fixpoint copy_row (n dst src : nat) : M heap_adt unit :=
  match n with
  | O => mret tt
  | S n => w ← word src; set_word dst w;; copy_row n (S dst) (S src)
  end.

Definition HeapAdtPop : M heap_adt unit :=
  h ← get;
  if decide (size h = O) then panic PANIC_PRIORITY_QUEUE else
  let n := (size h - 1)%nat in
  put (set_size h n);;
  copy_row (qwords_per_elem h) 0 (n * qwords_per_elem h);;
  Heapify (S (size h)) 0.

Definition HeapAdtGetCapacity : M heap_adt nat := gets capacity.
Definition HeapAdtGetUsedSize : M heap_adt nat := gets size.

(** Reading an element back through the pointer of a result. *)
Definition read_data (r : heap_adt_result) : M heap_adt (list Z) :=
  h ← get;
  mret (take (element_width h)
          (mjoin (le_split 8 <$> take (qwords_per_elem h - 1) (drop (data r) (array h))))).

(** A run: three insertions into a min-heap of 8-byte elements, then a pop. *)
Example heap_demo :
  let elem n := [n; 0; 0; 0; 0; 0; 0; 0] in
  (h ← HeapAdtCreate (H := bump_allocator) 4 false 8;
   '(r, _) ← (HeapAdtInsert (elem 5) 50;; HeapAdtInsert (elem 3) 30;; HeapAdtInsert (elem 4) 40;;
         HeapAdtPop;; p ← HeapAdtPeek; d ← read_data p; mret (priority p, d)) h;
   mret r) = Done (40, elem 4).
Proof. by vm_compute. Qed.

(** ** The array as rows *)
Section flat.
Context {A : Type}.
Implicit Types rows : list (list A).

Lemma flat_length rows q :
  Forall (λ r, length r = q) rows → length (mjoin rows) = (length rows * q)%nat.
Proof. induction 1 as [|r rows Hr _ IH]; [done|]. simpl. rewrite length_app. lia. Qed.

Lemma flat_lookup rows q a j :
  Forall (λ r, length r = q) rows → (j < q)%nat →
  mjoin rows !! (a * q + j)%nat = rows !! a ≫= (λ r, r !! j).
Proof.
  intros Hr Hj. revert a. induction Hr as [|r rows Hr _ IH]; intros a; [done|]. simpl.
  destruct a as [|a]; simpl.
  - rewrite lookup_app_l by lia. done.
  - rewrite lookup_app_r by lia. rewrite <- IH. f_equal. lia.
Qed.

Lemma flat_insert rows q a j r x :
  Forall (λ r, length r = q) rows → (j < q)%nat → rows !! a = Some r →
  <[(a * q + j)%nat := x]> (mjoin rows) = mjoin (<[a := <[j := x]> r]> rows).
Proof.
  intros Hr Hj. revert a. induction Hr as [|r' rows Hr' _ IH]; intros a; [done|]. simpl.
  destruct a as [|a]; simpl.
  - intros [= ->]. rewrite insert_app_l by lia. done.
  - intros Ha. rewrite insert_app_r_alt by lia. f_equal. rewrite <- IH by done. f_equal. lia.
Qed.
End flat.

(** [hrep h rows]: the array of [h] is the concatenation of [rows]. *)
Record hrep (h : heap_adt) (rows : list (list Z)) : Prop := {
  hr_array : array h = mjoin rows;
  hr_rows : Forall (λ r, length r = qwords_per_elem h) rows;
  hr_capacity : length rows = capacity h;
  hr_size : (size h ≤ capacity h)%nat;
  hr_q : (0 < qwords_per_elem h)%nat;
}.

Lemma hrep_row_length h rows a r :
  hrep h rows → rows !! a = Some r → length r = qwords_per_elem h.
Proof. intros [_ Hr _ _ _] Ha. rewrite Forall_lookup in Hr. eauto. Qed.

Lemma word_run h rows a j r w i :
  hrep h rows → rows !! a = Some r → r !! j = Some w → i = (a * qwords_per_elem h + j)%nat →
  word i h = Done (w, h).
Proof.
  intros Hh Ha Hj ->. unfold word. mstep.
  rewrite (hr_array _ _ Hh), (flat_lookup _ (qwords_per_elem h)).
  - rewrite Ha. simpl. by rewrite Hj.
  - apply Hh.
  - apply lookup_lt_Some in Hj. by erewrite <- hrep_row_length.
Qed.

Lemma set_word_run h rows a j r x i :
  hrep h rows → rows !! a = Some r → (j < qwords_per_elem h)%nat →
  i = (a * qwords_per_elem h + j)%nat →
  set_word i x h = Done (tt, set_array h (mjoin (<[a := <[j := x]> r]> rows))).
Proof.
  intros Hh Ha Hj ->. unfold set_word. mstep. rewrite decide_True.
  - by rewrite (hr_array _ _ Hh), (flat_insert _ _ _ _ r) by (done || apply Hh).
  - rewrite (hr_array _ _ Hh), (flat_length _ (qwords_per_elem h)) by apply Hh.
    apply lookup_lt_Some in Ha. nia.
Qed.

Lemma hrep_insert h rows a r :
  hrep h rows → length r = qwords_per_elem h →
  hrep (set_array h (mjoin (<[a := r]> rows))) (<[a := r]> rows).
Proof.
  intros [Ha Hr Hc Hs Hq] Hlen. split; simpl; [done| |by rewrite length_insert|done..].
  by apply Forall_insert.
Qed.

Lemma hrep_insert2 h rows a b r s :
  hrep h rows → length r = qwords_per_elem h → length s = qwords_per_elem h →
  hrep (set_array h (mjoin (<[a := r]> (<[b := s]> rows)))) (<[a := r]> (<[b := s]> rows)).
Proof.
  intros Hh Hr Hs. apply (hrep_insert (set_array h (mjoin (<[b := s]> rows)))); [|done].
  by apply hrep_insert.
Qed.

Lemma set_array_set_array h a b : set_array (set_array h a) b = set_array h b.
Proof. done. Qed.

(** Partially exchanged rows, as the loop of [SwapElements] leaves them. *)
Definition mix (j : nat) (r s : list Z) : list Z := take j s ++ drop j r.

Lemma mix_step j r s w : s !! j = Some w → length r = length s → <[j := w]> (mix j r s) = mix (S j) r s.
Proof.
  intros Hw Hl. unfold mix. assert (j < length s)%nat by (by eapply lookup_lt_Some).
  rewrite insert_app_r_alt by (rewrite length_take; lia).
  rewrite length_take, Nat.min_l, Nat.sub_diag by lia.
  rewrite (drop_S r (r !!! j) j) by (apply list_lookup_lookup_total_lt; lia). simpl.
  rewrite (take_S_r _ _ _ Hw). by rewrite <- app_assoc.
Qed.

Lemma mix_lookup j r s : length r = length s → mix j r s !! j = r !! j.
Proof.
  intros Hl. unfold mix. destruct (decide (j < length s)%nat).
  - rewrite lookup_app_r by (rewrite length_take; lia).
    rewrite length_take, Nat.min_l, Nat.sub_diag, lookup_drop by lia. f_equal. lia.
  - rewrite drop_ge, app_nil_r, take_ge by lia. rewrite !lookup_ge_None_2 by lia. done.
Qed.

Lemma mix_length j r s : length r = length s → length (mix j r s) = length s.
Proof. intros. unfold mix. rewrite length_app, length_take, length_drop. lia. Qed.

Lemma mix_0 r s : mix 0 r s = r.
Proof. done. Qed.
Lemma mix_all r s : length r = length s → mix (length s) r s = s.
Proof. intros. unfold mix. rewrite take_ge, drop_ge by lia. apply app_nil_r. Qed.

Lemma SwapElements_loop_run h rows a b ra rb n : ∀ j,
  hrep h rows → a ≠ b → rows !! a = Some ra → rows !! b = Some rb →
  (j + n = qwords_per_elem h)%nat →
  SwapElements_loop n (a * qwords_per_elem h + j) (b * qwords_per_elem h + j)
    (set_array h (mjoin (<[a := mix j ra rb]> (<[b := mix j rb ra]> rows))))
  = Done (tt, set_array h (mjoin (<[a := rb]> (<[b := ra]> rows)))).
Proof.
  induction n as [|n IH]; intros j Hh Hab Ha Hb Hj;
    pose proof (hrep_row_length _ _ _ _ Hh Ha) as La;
    pose proof (hrep_row_length _ _ _ _ Hh Hb) as Lb; simpl.
  - assert (j = length rb) as -> by lia. rewrite mix_all by lia.
    replace (length rb) with (length ra) by lia. by rewrite mix_all by lia.
  - assert (a < length rows)%nat by (by eapply lookup_lt_Some).
    assert (b < length rows)%nat by (by eapply lookup_lt_Some).
    destruct (lookup_lt_is_Some_2 ra j) as [wa Hwa]; [lia|].
    destruct (lookup_lt_is_Some_2 rb j) as [wb Hwb]; [lia|].
    pose proof (hrep_insert2 h rows a b (mix j ra rb) (mix j rb ra) Hh) as Hr0.
    rewrite !mix_length in Hr0 by lia. specialize (Hr0 Lb La).
    erewrite M_bind_done.
    2: { eapply (word_run _ _ a j); [exact Hr0| | |done].
         - rewrite list_lookup_insert_eq by (rewrite length_insert; lia). done.
         - rewrite mix_lookup by lia. exact Hwa. }
    erewrite M_bind_done.
    2: { eapply (word_run _ _ b j); [exact Hr0| | |done].
         - rewrite list_lookup_insert_ne, list_lookup_insert_eq by lia. done.
         - rewrite mix_lookup by lia. exact Hwb. }
    erewrite M_bind_done.
    2: { eapply (set_word_run _ _ a j); [exact Hr0| | |done].
         - rewrite list_lookup_insert_eq by (rewrite length_insert; lia). done.
         - simpl. lia. }
    rewrite set_array_set_array, mix_step, list_insert_insert_eq by (done || lia).
    pose proof (hrep_insert2 h rows a b (mix (S j) ra rb) (mix j rb ra) Hh) as Hr1.
    rewrite !mix_length in Hr1 by lia. specialize (Hr1 Lb La).
    erewrite M_bind_done.
    2: { eapply (set_word_run _ _ b j); [exact Hr1| | |done].
         - rewrite list_lookup_insert_ne, list_lookup_insert_eq by lia. done.
         - simpl. lia. }
    rewrite set_array_set_array, mix_step by (done || lia).
    rewrite list_insert_insert_ne, list_insert_insert_eq by done.
    rewrite <- (IH (S j)) by (done || lia). f_equal; lia.
Qed.

Lemma SwapElements_run h rows a b ra rb :
  hrep h rows → a ≠ b → rows !! a = Some ra → rows !! b = Some rb →
  SwapElements a b h = Done (tt, set_array h (mjoin (<[a := rb]> (<[b := ra]> rows)))).
Proof.
  intros Hh Hab Ha Hb. unfold SwapElements. mstep.
  rewrite <- (SwapElements_loop_run h rows a b ra rb (qwords_per_elem h) 0) by done.
  rewrite !mix_0, !Nat.add_0_r. f_equal.
  rewrite (list_insert_id rows b), (list_insert_id rows a) by done.
  rewrite <- (hr_array _ _ Hh). by destruct h.
Qed.

(** ** Heap order on the keys of the rows *)
Definition key (rows : list (list Z)) (i : nat) : Z := default 0 (rows !! i ≫= head).
Definition parent (i : nat) : nat := ((i - 1) / 2)%nat.

(** [better m x y]: [x] may stand above [y] in a max- ([m]) or min-heap. *)
Definition better (m : bool) (x y : Z) : Prop := if m then y ≤ x else x ≤ y.

#[local] Instance better_trans m : Transitive (better m).
Proof. intros x y z. unfold better. destruct m; lia. Qed.
Lemma better_refl m x : better m x x.
Proof. unfold better. destruct m; lia. Qed.

Definition ordered (m : bool) (k : nat → Z) (n : nat) : Prop :=
  ∀ j, (0 < j < n)%nat → better m (k (parent j)) (k j).

(** All is in order but possibly between [i] and its children. *)
Definition down_inv (m : bool) (k : nat → Z) (n i : nat) : Prop :=
  (∀ j, (0 < j < n)%nat → parent j ≠ i → better m (k (parent j)) (k j)) ∧
  (∀ j, (0 < j < n)%nat → parent j = i → (0 < i)%nat → better m (k (parent i)) (k j)).

(** All is in order but possibly between [i] and its parent. *)
Definition up_inv (m : bool) (k : nat → Z) (n i : nat) : Prop :=
  (∀ j, (0 < j < n)%nat → j ≠ i → better m (k (parent j)) (k j)) ∧
  (∀ j, (0 < j < n)%nat → parent j = i → (0 < i)%nat → better m (k (parent i)) (k j)).

Definition kswap (k : nat → Z) (a b : nat) : nat → Z :=
  λ j, if decide (j = a) then k b else if decide (j = b) then k a else k j.

Lemma kswap_l k a b : kswap k a b a = k b.
Proof. unfold kswap. by rewrite decide_True. Qed.
Lemma kswap_r k a b : a ≠ b → kswap k a b b = k a.
Proof. intros. unfold kswap. by rewrite decide_False, decide_True. Qed.
Lemma kswap_ne k a b j : j ≠ a → j ≠ b → kswap k a b j = k j.
Proof. intros. unfold kswap. by rewrite !decide_False. Qed.

Lemma parent_lt j : (0 < j)%nat → (parent j < j)%nat.
Proof. intros. apply Nat.Div0.div_lt_upper_bound. lia. Qed.
Lemma parent_child j i : (0 < j)%nat → parent j = i ↔ (j = i * 2 + 1 ∨ j = i * 2 + 2)%nat.
Proof.
  unfold parent. intros. pose proof (Nat.div_mod_eq (j - 1) 2).
  pose proof (Nat.mod_upper_bound (j - 1) 2). lia.
Qed.

(** Sifting down: exchanging [i] with its best child moves the defect there. *)
Lemma down_step m k n i b :
  down_inv m k n i → (0 < b < n)%nat → parent b = i → better m (k b) (k i) →
  (∀ j, (0 < j < n)%nat → parent j = i → better m (k b) (k j)) →
  down_inv m (kswap k i b) n b.
Proof.
  intros [H1 H2] Hb Hpb Hbi Hbest. assert (i < b)%nat by (subst i; apply parent_lt; lia).
  split; intros j Hj Hpj; [|intros _]; pose proof (parent_lt j ltac:(lia)).
  - destruct (decide (parent j = i)) as [E|E].
    + rewrite E, kswap_l. destruct (decide (j = b)) as [->|].
      * by rewrite kswap_r by lia.
      * rewrite kswap_ne by lia. by apply Hbest.
    + rewrite (kswap_ne _ _ _ (parent j)) by lia. destruct (decide (j = i)) as [->|].
      * rewrite kswap_l. apply H2; [lia|done|lia].
      * rewrite kswap_ne by (congruence || lia). by apply H1.
  - rewrite Hpb, kswap_l, kswap_ne by lia. rewrite <- Hpj. apply H1; [lia|lia].
Qed.

Lemma down_done m k n i :
  down_inv m k n i → (∀ j, (0 < j < n)%nat → parent j = i → better m (k i) (k j)) →
  ordered m k n.
Proof.
  intros [H1 H2] Hb j Hj. destruct (decide (parent j = i)) as [E|]; [|auto].
  rewrite E. auto.
Qed.

(** Sifting up. *)
Lemma up_step m k n i :
  up_inv m k n i → (0 < i < n)%nat → better m (k i) (k (parent i)) →
  up_inv m (kswap k (parent i) i) n (parent i).
Proof.
  intros [H1 H2] Hi Hb. pose proof (parent_lt i ltac:(lia)) as Hpi. set (p := parent i) in *.
  split; intros j Hj Hpj; [|intros Hp0]; pose proof (parent_lt j ltac:(lia)).
  - destruct (decide (j = i)) as [->|].
    + fold p. rewrite kswap_l, kswap_r by lia. done.
    + rewrite (kswap_ne _ _ _ j) by lia. destruct (decide (parent j = p)) as [E|].
      * rewrite E, kswap_l. etrans; [exact Hb|]. rewrite <- E. by apply H1.
      * destruct (decide (parent j = i)) as [E|].
        -- rewrite E, kswap_r by lia. apply H2; [lia|done|lia].
        -- rewrite kswap_ne by lia. by apply H1.
  - pose proof (parent_lt p Hp0). rewrite (kswap_ne _ _ _ (parent p)) by lia.
    assert (better m (k (parent p)) (k p)) by (apply H1; lia).
    destruct (decide (j = i)) as [->|].
    + by rewrite kswap_r by lia.
    + rewrite kswap_ne by lia. etrans; [done|]. rewrite <- Hpj. by apply H1.
Qed.

Lemma up_done m k n i :
  up_inv m k n i → (i = O ∨ better m (k (parent i)) (k i)) → ordered m k n.
Proof.
  intros [H1 _] Hi j Hj. destruct (decide (j = i)) as [->|]; [|auto].
  destruct Hi as [->|]; [lia|done].
Qed.

(** The root of an ordered heap is at least as good as every element. *)
Lemma ordered_root m k n j : ordered m k n → (j < n)%nat → better m (k O) (k j).
Proof.
  intros Ho. induction (lt_wf j) as [j _ IH]. intros Hj. destruct (decide (j = O)) as [->|].
  - apply better_refl.
  - pose proof (parent_lt j ltac:(lia)). etrans; [apply (IH (parent j)); lia|]. apply Ho. lia.
Qed.

(** ** Running the operations on rows *)
Lemma key_word_run h rows i :
  hrep h rows → (i < capacity h)%nat →
  word (i * qwords_per_elem h) h = Done (key rows i, h).
Proof.
  intros Hh Hi. destruct (lookup_lt_is_Some_2 rows i) as [r Hr].
  { by rewrite (hr_capacity _ _ Hh). }
  pose proof (hrep_row_length _ _ _ _ Hh Hr) as Hl. pose proof (hr_q _ _ Hh).
  destruct r as [|w r]; simpl in Hl; [lia|].
  eapply (word_run _ _ i 0); [done|done| |lia].
  unfold key. by rewrite Hr.
Qed.

Lemma key_swap rows a b ra rb j :
  rows !! a = Some ra → rows !! b = Some rb → a ≠ b →
  key (<[a := rb]> (<[b := ra]> rows)) j = kswap (key rows) a b j.
Proof.
  intros Ha Hb Hab. pose proof (lookup_lt_Some _ _ _ Ha). pose proof (lookup_lt_Some _ _ _ Hb).
  unfold kswap, key. destruct (decide (j = a)) as [->|].
  { rewrite list_lookup_insert_eq by (rewrite length_insert; lia). by rewrite Hb. }
  rewrite list_lookup_insert_ne by done. destruct (decide (j = b)) as [->|].
  - rewrite list_lookup_insert_eq by lia. by rewrite Ha.
  - by rewrite list_lookup_insert_ne.
Qed.

Lemma ordered_ext m k k' n : (∀ j, k j = k' j) → ordered m k n → ordered m k' n.
Proof. intros E H j Hj. rewrite <- !E. auto. Qed.
Lemma down_inv_ext m k k' n i : (∀ j, k j = k' j) → down_inv m k n i → down_inv m k' n i.
Proof. intros E [H1 H2]. split; intros; rewrite <- !E; auto. Qed.
Lemma up_inv_ext m k k' n i : (∀ j, k j = k' j) → up_inv m k n i → up_inv m k' n i.
Proof. intros E [H1 H2]. split; intros; rewrite <- !E; auto. Qed.

Lemma GetMinOrMaxIndex_run h rows a b :
  hrep h rows → (a < size h ∨ b < size h)%nat →
  ∃ c, GetMinOrMaxIndex a b h = Done (c, h) ∧ (c = a ∨ c = b) ∧ (c < size h)%nat ∧
       ((a < size h)%nat → better (max h) (key rows c) (key rows a)) ∧
       ((b < size h)%nat → better (max h) (key rows c) (key rows b)).
Proof.
  intros Hh Hab. unfold GetMinOrMaxIndex. mstep. pose proof (hr_size _ _ Hh). case_decide.
  - exists (a `min` b)%nat. split; [done|]. split; [lia|]. split; [lia|].
    split; intros; [rewrite Nat.min_l by lia|rewrite Nat.min_r by lia]; apply better_refl.
  - rewrite (key_word_run _ rows) by (done || lia). cbn [outcome_bind].
    rewrite (key_word_run _ rows) by (done || lia). cbn [outcome_bind]. eexists. split; [done|].
    unfold better. destruct (max h); simpl; case_bool_decide; simpl;
      (split; [auto|split; [lia|split; lia]]).
Qed.

(** The result of [Heapify] and [sift_up]: a permutation of the occupied rows. *)
Record rearranged (h : heap_adt) (rows : list (list Z)) (h' : heap_adt) (rows' : list (list Z)) : Prop := {
  ra_heap : h' = set_array h (mjoin rows');
  ra_rep : hrep h' rows';
  ra_ordered : ordered (max h) (key rows') (size h);
  ra_perm : take (size h) rows' ≡ₚ take (size h) rows;
}.

Lemma swap_step h rows a b :
  hrep h rows → a ≠ b → (a < size h)%nat → (b < size h)%nat →
  ∃ rows1, SwapElements a b h = Done (tt, set_array h (mjoin rows1)) ∧
    hrep (set_array h (mjoin rows1)) rows1 ∧
    (∀ j, kswap (key rows) a b j = key rows1 j) ∧
    take (size h) rows1 ≡ₚ take (size h) rows.
Proof.
  intros Hh Hab Ha Hb. pose proof (hr_size _ _ Hh) as Hs. rewrite <- (hr_capacity _ _ Hh) in Hs.
  destruct (lookup_lt_is_Some_2 rows a) as [ra Hra]; [lia|].
  destruct (lookup_lt_is_Some_2 rows b) as [rb Hrb]; [lia|].
  exists (<[a := rb]> (<[b := ra]> rows)). split_and!.
  - by apply SwapElements_run.
  - apply hrep_insert2; [done|by eapply hrep_row_length..].
  - intros j. by rewrite (key_swap _ _ _ ra rb).
  - rewrite !take_insert_lt by done. apply Permutation_insert_swap.
    + by rewrite lookup_take_lt.
    + by rewrite lookup_take_lt.
Qed.

Lemma Heapify_run fuel : ∀ h rows i,
  hrep h rows → (i < size h)%nat → (size h - i < fuel)%nat →
  down_inv (max h) (key rows) (size h) i →
  ∃ h' rows', Heapify fuel i h = Done (tt, h') ∧ rearranged h rows h' rows'.
Proof.
  induction fuel as [|fuel IH]; intros h rows i Hh Hi Hf Hinv; [lia|].
  cbn [Heapify].
  destruct (GetMinOrMaxIndex_run h rows i (i * 2 + 1) Hh) as (m1 & E1 & Hm1 & Hm1s & Hb1 & Hb1'); [lia|].
  erewrite M_bind_done by exact E1.
  destruct (GetMinOrMaxIndex_run h rows (i * 2 + 1 + 1) m1 Hh) as (b & E2 & Hb & Hbs & Hb2 & Hb2'); [lia|].
  erewrite M_bind_done by exact E2.
  assert (better (max h) (key rows b) (key rows i)) as Hbi.
  { etrans; [apply Hb2'|apply Hb1]; done. }
  assert (∀ j, (0 < j < size h)%nat → parent j = i → better (max h) (key rows b) (key rows j)) as Hbest.
  { intros j Hj Hp. apply parent_child in Hp; [|lia]. destruct Hp as [->| ->].
    - etrans; [by apply Hb2'|]. apply Hb1'. lia.
    - replace (i * 2 + 2)%nat with (i * 2 + 1 + 1)%nat by lia. apply Hb2. lia. }
  destruct (decide (i ≠ b)) as [Hne|Heq].
  - assert (parent b = i) as Hpb. { apply parent_child; lia. }
    destruct (swap_step h rows i b Hh) as (rows1 & Es & Hh1 & Hk & Hp); [done..|].
    erewrite M_bind_done by exact Es.
    destruct (IH (set_array h (mjoin rows1)) rows1 b) as (h' & rows' & E & [-> ? ? Hperm]);
      [done|done|simpl; lia| |].
    + eapply down_inv_ext; [exact Hk|]. apply down_step; try done. simpl. lia.
    + exists (set_array h (mjoin rows')), rows'. split; [done|]. split; [done..|].
      simpl in Hperm. by rewrite Hperm.
  - assert (i = b) as -> by (destruct (decide (i = b)); tauto).
    exists h, rows. split; [done|]. split; [|done| |done].
    + rewrite <- (hr_array _ _ Hh). by destruct h.
    + eapply down_done; done.
Qed.

Lemma sift_up_run fuel : ∀ h rows i,
  hrep h rows → (i < size h)%nat → (i < fuel)%nat → up_inv (max h) (key rows) (size h) i →
  ∃ h' rows', sift_up fuel i h = Done (tt, h') ∧ rearranged h rows h' rows'.
Proof.
  induction fuel as [|fuel IH]; intros h rows i Hh Hi Hf Hinv; [lia|].
  assert (ordered (max h) (key rows) (size h) → ∃ h' rows', Done (tt, h) = Done (tt, h') ∧
    rearranged h rows h' rows') as Hstop.
  { intros Ho. exists h, rows. split; [done|]. split; [|done..].
    rewrite <- (hr_array _ _ Hh). by destruct h. }
  cbn [sift_up]. mstep. pose proof (hr_size _ _ Hh).
  destruct (decide (i = O)) as [->|Hi0].
  { apply Hstop. eapply up_done; eauto. }
  change ((i - 1) / 2)%nat with (parent i). pose proof (parent_lt i ltac:(lia)).
  rewrite (key_word_run _ rows) by (done || lia). cbn [outcome_bind].
  rewrite (key_word_run _ rows) by (done || lia). cbn [outcome_bind].
  destruct (xorb _ _) eqn:Ex.
  - assert (better (max h) (key rows i) (key rows (parent i))) as Hb.
    { unfold better. destruct (max h); case_bool_decide; simpl in Ex; (done || lia). }
    destruct (swap_step h rows (parent i) i Hh) as (rows1 & Es & Hh1 & Hk & Hp); [lia..|].
    rewrite Es. cbn [outcome_bind].
    destruct (IH (set_array h (mjoin rows1)) rows1 (parent i)) as (h' & rows' & E & [-> ? ? Hperm]);
      [done|simpl; lia|lia| |].
    + eapply up_inv_ext; [exact Hk|]. apply up_step; try done. simpl; lia.
    + exists (set_array h (mjoin rows')), rows'. split; [done|]. split; [done..|].
      simpl in Hperm. by rewrite Hperm.
  - apply Hstop. eapply up_done; [done|]. right.
    unfold better. destruct (max h); case_bool_decide; simpl in Ex; (done || lia).
Qed.

(** ** Element bytes *)
Definition is_byte (b : Z) : Prop := 0 ≤ b < 2 ^ 8.

Fixpoint store_row (ws bs : list Z) : list Z :=
  match ws with
  | [] => []
  | w :: ws =>
    match bs with
    | [] => w :: ws
    | _ => store_word w (take 8 bs) :: store_row ws (drop 8 bs)
    end
  end.

Lemma store_row_length ws bs : length (store_row ws bs) = length ws.
Proof. revert bs; induction ws as [|w ws IH]; intros [|b bs]; simpl; auto. Qed.

Lemma le_split_app_combine bs n v :
  Forall is_byte bs → (length bs ≤ n)%nat →
  take (length bs) (le_split n (le_combine bs + v * 2 ^ (8 * length bs))) = bs.
Proof.
  intros Hb. revert n; induction Hb as [|b bs Hb _ IH]; intros n Hn; [done|].
  destruct n as [|n]; simpl in Hn; [lia|]. cbn [length take le_split le_combine].
  unfold is_byte in Hb.
  replace (8 * Z.of_nat (S (length bs))) with (8 + 8 * length bs) by lia.
  rewrite Z.pow_add_r by lia.
  replace (b + 2 ^ 8 * le_combine bs + v * (2 ^ 8 * 2 ^ (8 * length bs)))
    with (b + (le_combine bs + v * 2 ^ (8 * length bs)) * 2 ^ 8) by ring.
  rewrite Z.mod_add, Z.mod_small by lia.
  rewrite Z.div_add, (Z.div_small b), Z.add_0_l by lia.
  f_equal. apply IH. lia.
Qed.

Lemma le_split_length n w : length (le_split n w) = n.
Proof. revert w; induction n; intros; simpl; auto. Qed.

(** Copying an element in and reading it out gives the element back. *)
Lemma store_row_read ws bs :
  Forall is_byte bs → (length bs ≤ 8 * length ws)%nat →
  take (length bs) (mjoin (le_split 8 <$> store_row ws bs)) = bs.
Proof.
  revert bs; induction ws as [|w ws IH]; intros bs Hb Hl.
  { destruct bs; simpl in *; [done|lia]. }
  destruct bs as [|b bs]; [done|]. cbn [store_row]. set (l := b :: bs) in *.
  rewrite fmap_cons. cbn [mjoin list_join]. unfold store_word.
  transitivity (take 8 l ++ drop 8 l); [|apply take_drop].
  assert (length l = S (length bs)) as Hll by done. simpl length in Hl.
  rewrite take_app, le_split_length. f_equal.
  - destruct (decide (8 ≤ length l)%nat).
    + rewrite take_ge by (rewrite le_split_length; lia).
      assert (length (take 8 l) = 8%nat) as Hlen by (rewrite length_take; lia).
      pose proof (le_split_app_combine (take 8 l) 8 (w `div` 2 ^ (8 * length (take 8 l)))
        (Forall_take _ _ _ Hb)) as E.
      rewrite (take_ge (le_split _ _)) in E by (rewrite le_split_length; lia). apply E. lia.
    + rewrite (take_ge l 8) by lia. apply le_split_app_combine; [done|lia].
  - rewrite <- length_drop. apply IH; [by apply Forall_drop|]. rewrite length_drop. lia.
Qed.

Lemma memcpy_words_run h rows i bs ws : ∀ r1,
  hrep h rows → (i < capacity h)%nat → (length r1 + length ws = qwords_per_elem h)%nat →
  memcpy_words (i * qwords_per_elem h + length r1) (length ws) bs
    (set_array h (mjoin (<[i := r1 ++ ws]> rows)))
  = Done (tt, set_array h (mjoin (<[i := r1 ++ store_row ws bs]> rows))).
Proof.
  revert bs. induction ws as [|w ws IH]; intros bs r1 Hh Hi Hl; [done|].
  destruct bs as [|b bs]; [done|]. cbn [length memcpy_words store_row]. simpl in Hl.
  assert (hrep (set_array h (mjoin (<[i := r1 ++ w :: ws]> rows))) (<[i := r1 ++ w :: ws]> rows)) as H1.
  { apply hrep_insert; [done|]. rewrite length_app. simpl. lia. }
  assert (<[i := r1 ++ w :: ws]> rows !! i = Some (r1 ++ w :: ws)) as Hrow.
  { apply list_lookup_insert_eq. by rewrite (hr_capacity _ _ Hh). }
  erewrite M_bind_done.
  2: { eapply (word_run _ _ i (length r1)); [exact H1|exact Hrow| |done].
       rewrite lookup_app_r, Nat.sub_diag by done. done. }
  erewrite M_bind_done.
  2: { eapply (set_word_run _ _ i (length r1)); [exact H1|exact Hrow|simpl; lia|done]. }
  rewrite set_array_set_array, list_insert_insert_eq.
  rewrite insert_app_r_alt, Nat.sub_diag by done. cbn [insert list_insert].
  specialize (IH (drop 8 (b :: bs)) (r1 ++ [store_word w (take 8 (b :: bs))]) Hh Hi).
  rewrite <- !app_assoc in IH. cbn [app] in IH. rewrite length_app in IH. simpl length in IH.
  rewrite <- IH by lia. f_equal. lia.
Qed.

Lemma copy_row_run h rows s rs rd n : ∀ j,
  hrep h rows → s ≠ O → rows !! O = Some rd → rows !! s = Some rs →
  (j + n = qwords_per_elem h)%nat →
  copy_row n j (s * qwords_per_elem h + j) (set_array h (mjoin (<[O := mix j rd rs]> rows)))
  = Done (tt, set_array h (mjoin (<[O := rs]> rows))).
Proof.
  induction n as [|n IH]; intros j Hh Hs Hd Hr Hj;
    pose proof (hrep_row_length _ _ _ _ Hh Hd) as Ld;
    pose proof (hrep_row_length _ _ _ _ Hh Hr) as Ls; simpl.
  - assert (j = length rs) as -> by lia. by rewrite mix_all by lia.
  - pose proof (lookup_lt_Some _ _ _ Hd). pose proof (lookup_lt_Some _ _ _ Hr).
    destruct (lookup_lt_is_Some_2 rs j) as [w Hw]; [lia|].
    pose proof (hrep_insert h rows O (mix j rd rs) Hh) as Hr0.
    rewrite mix_length in Hr0 by lia. specialize (Hr0 Ls).
    erewrite M_bind_done.
    2: { eapply (word_run _ _ s j); [exact Hr0| |exact Hw|done].
         by rewrite list_lookup_insert_ne by lia. }
    erewrite M_bind_done.
    2: { eapply (set_word_run _ _ O j); [exact Hr0| |simpl; lia|done].
         by rewrite list_lookup_insert_eq by lia. }
    rewrite set_array_set_array, mix_step, list_insert_insert_eq by (done || lia).
    rewrite <- (IH (S j)) by (done || lia). f_equal; lia.
Qed.

(** ** The heap as a priority queue *)

(** An entry is a priority with the bytes of its element. *)
Definition decode (width : nat) (r : list Z) : Z * list Z :=
  (default 0 (head r), take width (mjoin (le_split 8 <$> tail r))).

Definition entry (h : heap_adt) (i : nat) : Z * list Z :=
  decode (element_width h)
    (take (qwords_per_elem h) (drop (i * qwords_per_elem h) (array h))).

Definition entries (h : heap_adt) : list (Z * list Z) := entry h <$> seq 0 (size h).

(** The representation invariant. *)
Definition heap_wf (h : heap_adt) : Prop :=
  (element_width h ≤ 8 * (qwords_per_elem h - 1))%nat ∧
  ∃ rows, hrep h rows ∧ ordered (max h) (key rows) (size h).

Lemma flat_row (rows : list (list Z)) q i r :
  Forall (λ r, length r = q) rows → rows !! i = Some r → take q (drop (i * q) (mjoin rows)) = r.
Proof.
  intros Hr. revert i. induction Hr as [|r' rows Hr' _ IH]; intros i; [done|]. simpl.
  destruct i as [|i]; simpl.
  - intros [= ->]. rewrite drop_0, take_app_length'; [done|lia].
  - intros Hi. rewrite drop_app_ge by lia. etrans; [|exact (IH i Hi)]. do 2 f_equal. lia.
Qed.

Lemma entries_rows h rows :
  hrep h rows → entries h = decode (element_width h) <$> take (size h) rows.
Proof.
  intros Hh. apply list_eq. intros i. unfold entries. rewrite !list_lookup_fmap.
  destruct (decide (i < size h)%nat) as [Hi|Hi].
  - rewrite lookup_seq_lt by done. simpl.
    pose proof (hr_size _ _ Hh) as Hs. rewrite <- (hr_capacity _ _ Hh) in Hs.
    destruct (lookup_lt_is_Some_2 rows i) as [r Hr]; [lia|].
    rewrite lookup_take_lt, Hr by done. simpl. f_equal. unfold entry. f_equal.
    rewrite (hr_array _ _ Hh). apply flat_row; [apply Hh|done].
  - rewrite lookup_seq_ge, lookup_take_ge by lia. done.
Qed.

Lemma entries_key h rows e :
  hrep h rows → e ∈ entries h → ∃ i, (i < size h)%nat ∧ e.1 = key rows i.
Proof.
  intros Hh. rewrite (entries_rows _ _ Hh). intros (r & -> & Hr)%list_elem_of_fmap.
  apply list_elem_of_lookup in Hr as [i Hi]. apply lookup_take_Some in Hi as [Hi Hlt].
  exists i. split; [done|]. unfold key, decode. by rewrite Hi.
Qed.

Lemma hrep_resize h rows n : hrep h rows → (n ≤ capacity h)%nat → hrep (set_size h n) rows.
Proof. by intros [] ?. Qed.

Lemma insert_run h elem p :
  heap_wf h → (size h < capacity h)%nat → length elem = element_width h → Forall is_byte elem →
  ∃ h', HeapAdtInsert elem p h = Done (tt, h') ∧ heap_wf h' ∧
        entries h' ≡ₚ (p, elem) :: entries h ∧
        size h' = S (size h) ∧ capacity h' = capacity h ∧ max h' = max h ∧
        element_width h' = element_width h.
Proof.
  intros (Hw & rows & Hh & Ho) Hsz Hlen Hb.
  pose proof (hrep_resize h rows (S (size h)) Hh ltac:(lia)) as H1.
  set (h1 := set_size h (S (size h))) in *. set (i := size h) in *.
  destruct (lookup_lt_is_Some_2 rows i) as [r Hr]; [rewrite (hr_capacity _ _ Hh); lia|].
  pose proof (hrep_row_length _ _ _ _ Hh Hr) as Lr. pose proof (hr_q _ _ Hh).
  destruct r as [|w ws]; simpl in Lr; [lia|].
  unfold HeapAdtInsert. rewrite (M_bind_done _ _ _ _ _ (eq_refl (get h))).
  rewrite decide_False by lia. fold i. erewrite M_bind_done by done. fold h1.
  erewrite M_bind_done.
  2: { eapply (set_word_run h1 rows i 0); [done|done|simpl; lia|simpl; lia]. }
  cbn [insert list_insert].
  replace (qwords_per_elem h - 1)%nat with (length ws) by lia.
  pose proof (memcpy_words_run h1 rows i (take (element_width h) elem) ws [p] H1) as Em.
  erewrite M_bind_done by (apply Em; simpl; lia).
  cbn [app]. rewrite take_ge by lia. set (row := p :: store_row ws elem).
  assert (length row = qwords_per_elem h) as Lrow by (simpl; rewrite store_row_length; lia).
  pose proof (hrep_insert h1 rows i row H1 Lrow) as H2.
  assert (Hlt : (i < length rows)%nat) by (by eapply lookup_lt_Some).
  assert (∀ j, (j < i)%nat → key (<[i := row]> rows) j = key rows j) as Hkey.
  { intros j Hj. unfold key. by rewrite list_lookup_insert_ne by lia. }
  destruct (sift_up_run (S i) (set_array h1 (mjoin (<[i := row]> rows))) (<[i := row]> rows) i)
    as (h' & rows' & E & [-> Hrep Hord Hperm]); [done|simpl; lia|lia| |].
  { simpl. split; intros j Hj Hp.
    - pose proof (parent_lt j ltac:(lia)). rewrite !Hkey by lia. apply Ho. lia.
    - intros _. pose proof (parent_lt j ltac:(lia)). lia. }
  eexists. split; [exact E|]. simpl in Hord, Hperm. split; [|split; [|done]].
  - split; [done|]. by exists rows'.
  - rewrite (entries_rows _ _ Hrep), (entries_rows _ _ Hh). simpl. fold i. rewrite Hperm.
    rewrite (take_S_r _ _ row), take_insert_ge by (rewrite ?list_lookup_insert_eq by lia; done).
    rewrite fmap_app. csimpl. rewrite <- Permutation_cons_append.
    replace (decode (element_width h) row) with (p, elem); [done|].
    unfold decode. simpl. rewrite <- Hlen. by rewrite store_row_read by (done || lia).
Qed.

Lemma entry_0 h rows r :
  hrep h rows → rows !! O = Some r → entry h 0 = decode (element_width h) r.
Proof.
  intros Hh Hr. unfold entry. f_equal. rewrite (hr_array _ _ Hh).
  apply (flat_row rows); [apply Hh|done].
Qed.

Lemma peek_run h :
  heap_wf h → (0 < size h)%nat →
  ∃ e r, HeapAdtPeek h = Done (r, h) ∧ priority r = e.1 ∧ read_data r h = Done (e.2, h) ∧
         head (entries h) = Some e ∧ ∀ e', e' ∈ entries h → better (max h) e.1 e'.1.
Proof.
  intros (Hw & rows & Hh & Ho) Hs.
  pose proof (hr_size _ _ Hh) as Hc. pose proof (hr_q _ _ Hh) as Hq.
  destruct (lookup_lt_is_Some_2 rows 0) as [r Hr]; [rewrite (hr_capacity _ _ Hh); lia|].
  assert ((entry h 0).1 = key rows 0) as Ek.
  { rewrite (entry_0 _ _ _ Hh Hr). unfold key. by rewrite Hr. }
  exists (entry h 0), (Result (key rows 0) 1). split_and!.
  - unfold HeapAdtPeek. mstep. rewrite decide_False by lia.
    by rewrite (key_word_run _ rows O) by (done || lia).
  - done.
  - unfold read_data. mstep. unfold entry, decode. cbn [snd]. do 5 f_equal.
    rewrite Nat.mul_0_l, drop_0. cbn [data].
    destruct (array h) as [|w l], (qwords_per_elem h) as [|q]; try lia; [by rewrite drop_nil, take_nil|].
    cbn [take tail drop]. by rewrite drop_0, Nat.sub_succ, Nat.sub_0_r.
  - unfold entries. by destruct (size h); [lia|].
  - intros e' He'. destruct (entries_key _ _ _ Hh He') as (i & Hi & ->).
    rewrite Ek. eapply ordered_root; [exact Ho|lia].
Qed.

Lemma set_array_id h rows : hrep h rows → set_array h (mjoin rows) = h.
Proof. intros Hh. rewrite <- (hr_array _ _ Hh). by destruct h. Qed.

(** The loop of [HeapAdtPop] that moves row [n] over row 0. *)
Lemma copy_to_root_run h rows n rs :
  hrep h rows → (n < capacity h)%nat → rows !! n = Some rs →
  copy_row (qwords_per_elem h) 0 (n * qwords_per_elem h) h
  = Done (tt, set_array h (mjoin (<[O := rs]> rows))).
Proof.
  intros Hh Hlt Hn.
  destruct (lookup_lt_is_Some_2 rows 0) as [rd Hd]; [rewrite (hr_capacity _ _ Hh); lia|].
  destruct (decide (n = O)) as [->|Hn0].
  - assert (rs = rd) as -> by congruence.
    rewrite (list_insert_id rows O rd Hd), (set_array_id _ _ Hh), Nat.mul_0_l.
    pose proof (hrep_row_length _ _ _ _ Hh Hd) as Ld.
    assert (∀ k j, (j + k = qwords_per_elem h)%nat → copy_row k j j h = Done (tt, h)) as Hid;
      [|apply Hid; lia].
    induction k as [|k IH]; intros j Hj; [done|]. simpl.
    destruct (lookup_lt_is_Some_2 rd j) as [w Hw]; [lia|].
    erewrite M_bind_done by (eapply (word_run h rows O j rd); [done|done|exact Hw|done]).
    erewrite M_bind_done by (eapply (set_word_run h rows O j rd); [done|done|lia|done]).
    rewrite (list_insert_id rd), (list_insert_id rows), (set_array_id _ _ Hh) by done.
    apply IH. lia.
  - pose proof (copy_row_run h rows n rs rd (qwords_per_elem h) 0 Hh Hn0 Hd Hn) as E.
    rewrite mix_0, (list_insert_id rows O rd Hd), (set_array_id _ _ Hh), !Nat.add_0_r in E.
    by apply E.
Qed.

(** Removing the root row and putting the last row in its place. *)
Lemma take_root_perm (rows : list (list Z)) n rd rs :
  rows !! O = Some rd → rows !! n = Some rs →
  take (S n) rows ≡ₚ rd :: take n (<[O := rs]> rows).
Proof.
  intros Hd Hn. rewrite (take_S_r _ _ _ Hn). destruct n as [|n].
  - rewrite !take_0. by replace rs with rd by congruence.
  - destruct rows as [|r0 rows]; [done|]. injection Hd as ->. simpl.
    by rewrite <- Permutation_cons_append.
Qed.

Lemma pop_run h :
  heap_wf h → (0 < size h)%nat →
  ∃ e h', HeapAdtPop h = Done (tt, h') ∧ heap_wf h' ∧ head (entries h) = Some e ∧
          entries h ≡ₚ e :: entries h' ∧ size h' = (size h - 1)%nat ∧
          capacity h' = capacity h ∧ max h' = max h ∧ element_width h' = element_width h.
Proof.
  intros (Hw & rows & Hh & Ho) Hs. pose proof (hr_size _ _ Hh) as Hc.
  remember (size h - 1)%nat as n eqn:En.
  pose proof (hrep_resize h rows n Hh ltac:(lia)) as H1. set (h1 := set_size h n) in *.
  destruct (lookup_lt_is_Some_2 rows 0) as [rd Hd]; [rewrite (hr_capacity _ _ Hh); lia|].
  destruct (lookup_lt_is_Some_2 rows n) as [rs Hn]; [rewrite (hr_capacity _ _ Hh); lia|].
  pose proof (hrep_row_length _ _ _ _ Hh Hn) as Ls.
  exists (decode (element_width h) rd).
  assert (entries h ≡ₚ decode (element_width h) rd
            :: (decode (element_width h) <$> take n (<[O := rs]> rows))) as Hent.
  { rewrite (entries_rows _ _ Hh). replace (size h) with (S n) by lia.
    by rewrite (take_root_perm _ _ _ _ Hd Hn). }
  assert (head (entries h) = Some (decode (element_width h) rd)) as Hhead.
  { rewrite (entries_rows _ _ Hh). destruct rows as [|r0 rows]; [done|].
    destruct (size h); [lia|]. simpl in *. by injection Hd as ->. }
  unfold HeapAdtPop. rewrite (M_bind_done _ _ _ _ _ (eq_refl (get h))).
  rewrite decide_False by lia. rewrite <- En. erewrite M_bind_done by done. fold h1.
  erewrite M_bind_done by (eapply (copy_to_root_run h1 rows n rs); [done|simpl; lia|done]).
  pose proof (hrep_insert h1 rows O rs H1 Ls) as H2.
  set (h2 := set_array h1 (mjoin (<[O := rs]> rows))) in *.
  destruct (decide (n = O)) as [Hn0|Hn0].
  - exists h2. split.
    { cbn [Heapify]. unfold GetMinOrMaxIndex. mstep. simpl. rewrite Hn0.
      rewrite decide_True by lia. cbn. by rewrite decide_True by lia. }
    split; [split; [done|]; exists (<[O := rs]> rows); split; [done|]; intros j Hj; simpl in Hj; lia|].
    split; [done|]. rewrite (entries_rows _ _ H2). by rewrite Hent.
  - destruct (Heapify_run (S (size h)) h2 (<[O := rs]> rows) 0)
      as (h' & rows' & E & [-> Hrep Hord Hperm]); [done|simpl; lia|simpl; lia| |].
    { assert (∀ j, (0 < j)%nat → key (<[O := rs]> rows) j = key rows j) as Hkey.
      { intros j Hj. unfold key. by rewrite list_lookup_insert_ne by lia. }
      split; [|lia]. intros j Hj Hp. simpl in Hj.
      rewrite !Hkey by lia. apply Ho. lia. }
    eexists. split; [exact E|]. split; [split; [done|by exists rows']|]. split; [done|split; [|done]].
    rewrite (entries_rows _ _ Hrep), Hent. simpl in Hperm |- *. by rewrite Hperm.
Qed.

Lemma create_wf `{Allocator} cap m width :
  (0 < cap)%nat → (0 < width)%nat →
  ∃ h, HeapAdtCreate cap m width = Done h ∧ heap_wf h ∧ entries h = [] ∧
       capacity h = cap ∧ max h = m ∧ element_width h = width ∧ size h = O.
Proof.
  intros Hc Hw. unfold HeapAdtCreate. rewrite !bool_decide_true by done. cbn [negb].
  assert (width ≤ 8 * ((width + 8 - 1) / 8))%nat.
  { pose proof (Nat.div_mod_eq (width + 8 - 1) 8).
    pose proof (Nat.mod_upper_bound (width + 8 - 1) 8). lia. }
  assert (0 < 1 + (width + 8 - 1) / 8)%nat by lia.
  revert H0. replace ((width + 8 - 1) / 8)%nat with (1 + (width + 8 - 1) / 8 - 1)%nat at 1 by lia.
  generalize (1 + (width + 8 - 1) / 8)%nat, H1. intros q Hq Hwq.
  eexists. split; [done|]. split; [|done]. split; cbn; [done|].
  exists (replicate cap (replicate q junk)). split.
  - split; cbn; [|by apply Forall_replicate, length_replicate|by rewrite length_replicate|lia|done].
    rewrite Nat.mul_comm. clear. induction cap as [|c IH]; [done|]. simpl.
    by rewrite <- IH, <- replicate_add.
  - intros j Hj. simpl in Hj. lia.
Qed.

(** Insert a batch; then pop everything, reading each element first. *)
Fixpoint insert_all (l : list (Z * list Z)) : M heap_adt unit :=
  match l with
  | [] => mret tt
  | (p, e) :: l => HeapAdtInsert e p;; insert_all l
  end.

Fixpoint drain (n : nat) : M heap_adt (list (Z * list Z)) :=
  match n with
  | O => mret []
  | S n =>
    r ← HeapAdtPeek;
    e ← read_data r;
    HeapAdtPop;;
    rest ← drain n;
    mret ((priority r, e) :: rest)
  end.

Lemma insert_all_run l : ∀ h,
  heap_wf h → (length l + size h ≤ capacity h)%nat →
  Forall (λ x, length x.2 = element_width h ∧ Forall is_byte x.2) l →
  ∃ h', insert_all l h = Done (tt, h') ∧ heap_wf h' ∧ entries h' ≡ₚ l ++ entries h ∧
        size h' = (length l + size h)%nat ∧ max h' = max h.
Proof.
  induction l as [|[p e] l IH]; intros h Hwf Hcap Hl; [by exists h|].
  apply Forall_cons in Hl as [[Hlen Hb] Hl]. simpl in *.
  destruct (insert_run h e p Hwf) as (h1 & E1 & Hwf1 & Hp1 & Hs1 & Hc1 & Hm1 & He1);
    [lia|done|done|].
  erewrite M_bind_done by exact E1.
  destruct (IH h1) as (h2 & E2 & Hwf2 & Hp2 & Hs2 & Hm2); [done|lia|by rewrite He1|].
  exists h2. split; [done|]. split; [done|]. split; [|split; [lia|congruence]].
  rewrite Hp2, Hp1. by rewrite <- Permutation_middle.
Qed.

Lemma drain_run n : ∀ h,
  heap_wf h → size h = n →
  ∃ h' l, drain n h = Done (l, h') ∧ l ≡ₚ entries h ∧
          Sorted (λ x y, better (max h) x.1 y.1) l.
Proof.
  induction n as [|n IH]; intros h Hwf Hs.
  - exists h, []. split; [done|]. split; [|constructor]. unfold entries. by rewrite Hs.
  - destruct (peek_run h Hwf) as (e & r & E1 & Hp & Hd & Hhd & Hbest); [lia|].
    destruct (pop_run h Hwf) as (e' & h' & E2 & Hwf' & Hhd' & Hperm & Hs' & _ & Hm & _); [lia|].
    rewrite Hhd in Hhd'. injection Hhd' as <-.
    destruct (IH h' Hwf') as (h2 & l & E3 & Hl & Hsort); [lia|].
    exists h2, (e :: l). cbn [drain]. erewrite M_bind_done by exact E1.
    erewrite M_bind_done by exact Hd. erewrite M_bind_done by exact E2.
    erewrite M_bind_done by exact E3. split; [|split].
    + rewrite Hp. by destruct e.
    + by rewrite Hl, Hperm.
    + rewrite Hm in Hsort. constructor; [done|]. destruct l as [|x l]; constructor.
      apply Hbest. rewrite Hperm, <- Hl. set_solver.
Qed.

(** ** Properties *)

(** inserting into a well-formed heap that is not full puts exactly the new
    (priority, element) pair among the entries, byte for byte, and keeps the
    heap ordered; a full heap panics and nothing else is reported. *)
Theorem heap_insert_correct h elem p :
  heap_wf h → length elem = element_width h → Forall is_byte elem →
  if decide (size h = capacity h) then HeapAdtInsert elem p h = Panicked PANIC_PRIORITY_QUEUE
  else ∃ h', HeapAdtInsert elem p h = Done (tt, h') ∧ heap_wf h' ∧
             entries h' ≡ₚ (p, elem) :: entries h.
Proof.
  intros Hwf Hlen Hb. case_decide as Hfull.
  - unfold HeapAdtInsert. mstep. by rewrite decide_True.
  - destruct (insert_run h elem p Hwf) as (h' & E & Hwf' & Hp & _); [|done|done|eauto].
    destruct Hwf as (_ & rows & [] & _). lia.
Qed.

(** on a well-formed non-empty heap, peek returns an entry no other entry
    beats (least priority of a min-heap, greatest of a max-heap) with its own
    bytes, and pop terminates, removes exactly that entry and keeps the heap
    ordered. *)
Theorem heap_pop_removes_best h :
  heap_wf h → (0 < size h)%nat →
  ∃ e r h', HeapAdtPeek h = Done (r, h) ∧ priority r = e.1 ∧ read_data r h = Done (e.2, h) ∧
            (∀ e', e' ∈ entries h → better (max h) e.1 e'.1) ∧
            HeapAdtPop h = Done (tt, h') ∧ heap_wf h' ∧ entries h ≡ₚ e :: entries h'.
Proof.
  intros Hwf Hs. destruct (peek_run h Hwf Hs) as (e & r & E1 & Hp & Hd & Hhd & Hbest).
  destruct (pop_run h Hwf Hs) as (e' & h' & E2 & Hwf' & Hhd' & Hperm & _).
  assert (e' = e) as -> by congruence. by exists e, r, h'.
Qed.

(** filling a freshly created heap with any batch that fits and popping it
    empty terminates and returns the batch sorted by priority, each priority
    with its own element. *)
Theorem heap_sorts `{Allocator} cap m width l :
  (length l ≤ cap)%nat → (0 < cap)%nat → (0 < width)%nat →
  Forall (λ x, length x.2 = width ∧ Forall is_byte x.2) l →
  ∃ h h1 h2 out, HeapAdtCreate cap m width = Done h ∧ insert_all l h = Done (tt, h1) ∧
    drain (length l) h1 = Done (out, h2) ∧ out ≡ₚ l ∧
    Sorted (λ x y, better m x.1 y.1) out.
Proof.
  intros Hl Hc Hw Hb. destruct (create_wf cap m width Hc Hw) as (h & E & Hwf & He & <- & <- & <- & Hs).
  destruct (insert_all_run l h Hwf) as (h1 & E1 & Hwf1 & Hp1 & Hs1 & Hm1); [lia|done|].
  destruct (drain_run (length l) h1 Hwf1) as (h2 & out & E2 & Hp2 & Hsort); [lia|].
  exists h, h1, h2, out. rewrite Hm1 in Hsort. split_and!; [done..| |done].
  by rewrite Hp2, Hp1, He, app_nil_r.
Qed.

(** ** Witnesses *)
Definition small_heap : heap_adt := Heap 3 2 8 2 false [3; 30; 5; 50; 0; 0].

Lemma small_heap_wf : heap_wf small_heap.
Proof.
  split; [simpl; lia|]. exists [[3; 30]; [5; 50]; [0; 0]]. split.
  - split; simpl; [done|by repeat constructor|done|lia|lia].
  - intros j Hj. simpl in Hj. assert (j = 1%nat) as -> by lia. unfold better, key, parent. simpl. lia.
Qed.

Lemma heap_insert_correct_witness :
  ∃ h', HeapAdtInsert [7; 0; 0; 0; 0; 0; 0; 0] 1 small_heap = Done (tt, h') ∧ heap_wf h' ∧
        entries h' ≡ₚ (1, [7; 0; 0; 0; 0; 0; 0; 0]) :: entries small_heap.
Proof.
  exact (heap_insert_correct small_heap [7; 0; 0; 0; 0; 0; 0; 0] 1 small_heap_wf eq_refl
           ltac:(repeat constructor; unfold is_byte; lia)).
Defined.

Lemma heap_pop_removes_best_witness :
  ∃ e r h', HeapAdtPeek small_heap = Done (r, small_heap) ∧ priority r = e.1 ∧
            read_data r small_heap = Done (e.2, small_heap) ∧
            (∀ e', e' ∈ entries small_heap → better false e.1 e'.1) ∧
            HeapAdtPop small_heap = Done (tt, h') ∧ heap_wf h' ∧
            entries small_heap ≡ₚ e :: entries h'.
Proof. apply (heap_pop_removes_best small_heap small_heap_wf). simpl. lia. Defined.

Lemma heap_sorts_witness :
  let l := [(5, [1]); (2, [2]); (9, [3])] in
  ∃ h h1 h2 out, HeapAdtCreate (H := bump_allocator) 4 true 1 = Done h ∧ insert_all l h = Done (tt, h1) ∧
    drain 3 h1 = Done (out, h2) ∧ out ≡ₚ l ∧ Sorted (λ x y, better true x.1 y.1) out.
Proof.
  apply (heap_sorts (H := bump_allocator) 4 true 1 [(5, [1]); (2, [2]); (9, [3])]); simpl; try lia.
  repeat constructor; unfold is_byte; simpl; lia.
Defined.
