(* ===== verification/Tree.v ===== *)
(** * adt/tree.c: the AVL tree

    A node is reachable from exactly one parent, so a [struct tree_node*] is
    modelled by the subtree it points to, NULL by [Null]. Heights, balance
    factors and comparator results are C ints ([Z]); data are pointers ([Z]). *)

From Stdlib Require Import Sorted.
From S2P Require Import Prelude.

Inductive tree_node : Type :=
  | Null
  | TNode (lt : tree_node) (data : Z) (rt : tree_node).

#[export] Instance tree_node_eq_dec : EqDecision tree_node.
Proof. solve_decision. Defined.

Definition tree_comparator : Type := Z → Z → Z.

Definition AvlCreateNode (data : Z) (lt rt : tree_node) : tree_node := TNode lt data rt.

Fixpoint AvlGetHeight (tree : tree_node) : Z :=
  match tree with
  | Null => 0
  | TNode lt _ rt => 1 + Z.max (AvlGetHeight lt) (AvlGetHeight rt)
  end.

Definition AvlGetBalance (tree : tree_node) : Z :=
  match tree with
  | Null => 0
  | TNode lt _ rt => AvlGetHeight lt - AvlGetHeight rt
  end.

(** The rotations dereference the child they promote. *)
Definition AvlRotateLeft (tree : tree_node) : outcome tree_node :=
  match tree with
  | TNode lt data (TNode new_right rdata rright) =>
      Done (TNode (TNode lt data new_right) rdata rright)
  | _ => Faulted
  end.

Definition AvlRotateRight (tree : tree_node) : outcome tree_node :=
  match tree with
  | TNode (TNode lleft ldata new_left) data rt =>
      Done (TNode lleft ldata (TNode new_left data rt))
  | _ => Faulted
  end.

Definition AvlBalance (tree : tree_node) : outcome tree_node :=
  match tree with
  | Null => Done Null
  | TNode lt data rt =>
    let bf := AvlGetBalance tree in
    if negb (bool_decide (-2 ≤ bf ∧ bf ≤ 2)) then Panicked PANIC_ASSERTION_FAILURE else
    if decide (bf = -2) then
      rt ← (if decide (AvlGetBalance rt = 1) then AvlRotateRight rt else Done rt);
      AvlRotateLeft (TNode lt data rt)
    else if decide (bf = 2) then
      lt ← (if decide (AvlGetBalance lt = -1) then AvlRotateLeft lt else Done lt);
      AvlRotateRight (TNode lt data rt)
    else Done tree
  end.

Section avl.
Variable comparator : tree_comparator.

Fixpoint AvlInsert (tree : tree_node) (data : Z) : outcome tree_node :=
  match tree with
  | Null => Panicked PANIC_ASSERTION_FAILURE
  | TNode lt tdata rt =>
    new_tree ←
      (if decide (comparator data tdata < 0) then
         left_tree ← match lt with
                     | Null => Done (AvlCreateNode data Null Null)
                     | _ => AvlInsert lt data
                     end;
         Done (AvlCreateNode tdata left_tree rt)
       else
         right_tree ← match rt with
                      | Null => Done (AvlCreateNode data Null Null)
                      | _ => AvlInsert rt data
                      end;
         Done (AvlCreateNode tdata lt right_tree));
    AvlBalance new_tree
  end.

(** [while (node->left != NULL) node = node->left;] *)
Fixpoint leftmost_data (lt : tree_node) (data : Z) : Z :=
  match lt with
  | Null => data
  | TNode l d _ => leftmost_data l d
  end.

Fixpoint AvlDelete (tree : tree_node) (data : Z) : outcome tree_node :=
  match tree with
  | Null => Done Null
  | TNode lt tdata rt =>
    if decide (comparator data tdata < 0) then
      lt' ← AvlDelete lt data;
      AvlBalance (TNode lt' tdata rt)
    else if decide (0 < comparator data tdata) then
      rt' ← AvlDelete rt data;
      AvlBalance (TNode lt tdata rt')
    else match lt, rt with
    | Null, _ => AvlBalance rt
    | _, Null => AvlBalance lt
    | _, TNode rl rd _ =>
      let node_data := leftmost_data rl rd in
      rt' ← AvlDelete rt node_data;
      AvlBalance (TNode lt node_data rt')
    end
  end.

(** Searches the whole tree, in pre-order; NULL when nothing compares equal. *)
Fixpoint AvlGet (tree : tree_node) (data : Z) : Z :=
  match tree with
  | Null => NULL
  | TNode lt tdata rt =>
    if decide (comparator tdata data = 0) then tdata else
    let l := AvlGet lt data in
    if decide (l ≠ NULL) then l else AvlGet rt data
  end.

Fixpoint AvlContains (tree : tree_node) (data : Z) : bool :=
  match tree with
  | Null => false
  | TNode lt tdata rt =>
    if decide (comparator tdata data = 0) then true
    else AvlContains lt data || AvlContains rt data
  end.
End avl.

(** [AvlPrint]: the data handed to the printer, in order. *)
Fixpoint AvlPrint (tree : tree_node) : list Z :=
  match tree with
  | Null => []
  | TNode lt data rt => AvlPrint lt ++ data :: AvlPrint rt
  end.

(** [AvlDestroy]: the data handed to the deletion handler, in order. *)
Fixpoint AvlDestroy (tree : tree_node) : list Z :=
  match tree with
  | Null => []
  | TNode lt data rt => AvlDestroy lt ++ AvlDestroy rt ++ [data]
  end.

Definition AvlDefaultComparator (a b : Z) : Z :=
  if decide (a = b) then 0 else if decide (a < b) then -1 else 1.

(** [struct tree]; a handler is the address of a C function. *)
Record tree := Tree {
  tree_size : Z;
  root : tree_node;
  deletion_handler : Z;
  equality_handler : tree_comparator;
}.

Definition TreeCreate : tree := Tree 0 Null NULL AvlDefaultComparator.

Definition TreeSetDeletionHandler (handler : Z) : M tree Z :=
  t ← get;
  put (Tree (tree_size t) (root t) handler (equality_handler t));;
  mret (deletion_handler t).

Definition TreeSetComparator (handler : tree_comparator) : M tree tree_comparator :=
  t ← get;
  put (Tree (tree_size t) (root t) (deletion_handler t) handler);;
  mret (equality_handler t).

Definition lift_tree {A} (o : outcome A) : M tree A :=
  λ t, a ← o; Done (a, t).

Definition set_root (r : tree_node) (k : Z) (t : tree) : tree :=
  Tree (tree_size t + k) r (deletion_handler t) (equality_handler t).

Definition TreeInsert (data : Z) : M tree unit :=
  t ← get;
  r ← match root t with
      | Null => mret (AvlCreateNode data Null Null)
      | _ => lift_tree (AvlInsert (equality_handler t) (root t) data)
      end;
  put (set_root r 1 t).

Definition TreeDelete (data : Z) : M tree unit :=
  t ← get;
  r ← lift_tree (AvlDelete (equality_handler t) (root t) data);
  put (set_root r (-1) t).

Definition TreeContains (data : Z) : M tree bool :=
  t ← get; mret (AvlContains (equality_handler t) (root t) data).
Definition TreeGet (data : Z) : M tree Z :=
  t ← get; mret (AvlGet (equality_handler t) (root t) data).
Definition TreeSize : M tree Z := gets tree_size.

(** The calls of the deletion handler made while the tree is freed. *)
Definition TreeDestroy (t : tree) : list Z :=
  if decide (deletion_handler t = NULL) then [] else AvlDestroy (root t).
Definition TreePrint (t : tree) : list Z := AvlPrint (root t).

Example tree_demo :
  (TreeInsert 3;; TreeInsert 1;; TreeInsert 2;; TreeDelete 1;; t ← get; mret (TreePrint t)) TreeCreate
  = Done ([2; 3], Tree 2 (TNode Null 2 (TNode Null 3 Null)) NULL AvlDefaultComparator).
Proof. by vm_compute. Qed.

(** ** Balance *)
Abbreviation height := AvlGetHeight.

Fixpoint avl (t : tree_node) : Prop :=
  match t with
  | Null => True
  | TNode l _ r => -1 ≤ height l - height r ≤ 1 ∧ avl l ∧ avl r
  end.

Lemma height_nonneg t : 0 ≤ height t.
Proof. induction t; simpl; lia. Qed.

Ltac heights :=
  repeat match goal with t : tree_node |- _ =>
    lazymatch goal with H : 0 ≤ height t |- _ => fail | _ => pose proof (height_nonneg t) end end.

(** A node whose subtrees are balanced and differ by at most two is rebalanced
    without a fault, keeping the order of the data. *)
Lemma AvlBalance_run l d r :
  avl l → avl r → -2 ≤ height l - height r ≤ 2 →
  ∃ t, AvlBalance (TNode l d r) = Done t ∧ avl t ∧ AvlPrint t = AvlPrint l ++ d :: AvlPrint r ∧
       height (TNode l d r) - 1 ≤ height t ≤ height (TNode l d r) ∧
       (-1 ≤ height l - height r ≤ 1 → height t = height (TNode l d r)).
Proof.
  intros Hl Hr Hd. unfold AvlBalance. cbn [AvlGetBalance].
  rewrite bool_decide_true by lia. cbn [negb].
  destruct (decide (height l - height r = -2)) as [E|E]; [|destruct (decide (height l - height r = 2)) as [E2|E2]].
  - destruct r as [|rl rd rr]; [simpl in *; heights; lia|].
    destruct Hr as (Hrb & Hrl & Hrr). simpl in E, Hd. case_decide as Hb; simpl in Hb.
    + destruct rl as [|rll rld rlr]; [simpl in *; heights; lia|].
      destruct Hrl as (? & ? & ?). simpl in *. heights.
      eexists. split; [done|]. simpl. split; [split_and!; (done || lia)|].
      split; [by simplify_list_eq|lia].
    + eexists. split; [done|]. simpl in *. heights. split; [split_and!; (done || lia)|].
      split; [by simplify_list_eq|lia].
  - destruct l as [|ll ld lr]; [simpl in *; heights; lia|].
    destruct Hl as (Hlb & Hll & Hlr). simpl in E2, Hd. case_decide as Hb; simpl in Hb.
    + destruct lr as [|lrl lrd lrr]; [simpl in *; heights; lia|].
      destruct Hlr as (? & ? & ?). simpl in *. heights.
      eexists. split; [done|]. simpl. split; [split_and!; (done || lia)|].
      split; [by simplify_list_eq|lia].
    + eexists. split; [done|]. simpl in *. heights. split; [split_and!; (done || lia)|].
      split; [by simplify_list_eq|lia].
  - eexists. split; [done|]. simpl. split; [split_and!; (done || lia)|]. split; [done|]. lia.
Qed.

Lemma AvlBalance_avl t : avl t → AvlBalance t = Done t.
Proof.
  destruct t as [|l d r]; [done|]. intros (Hb & Hl & Hr). unfold AvlBalance. cbn [AvlGetBalance].
  rewrite bool_decide_true by lia. cbn [negb]. by rewrite !decide_False by lia.
Qed.

(** ** Ordering *)
Class TotalComparator (cmp : tree_comparator) : Prop := {
  cmp_refl x : cmp x x = 0;
  cmp_anti x y : cmp x y < 0 ↔ 0 < cmp y x;
  cmp_trans x y z : cmp x y ≤ 0 → cmp y z ≤ 0 → cmp x z ≤ 0;
}.

#[export] Instance default_comparator_total : TotalComparator AvlDefaultComparator.
Proof. split; intros; unfold AvlDefaultComparator in *; repeat case_decide; lia. Qed.

Section order.
Context (cmp : tree_comparator) `{!TotalComparator cmp}.

Definition ordered_tree (t : tree_node) : Prop := StronglySorted (λ x y, cmp x y ≤ 0) (AvlPrint t).

Lemma sorted_mid l d r :
  StronglySorted (λ x y, cmp x y ≤ 0) (l ++ d :: r) ↔
  StronglySorted (λ x y, cmp x y ≤ 0) l ∧ StronglySorted (λ x y, cmp x y ≤ 0) r ∧
  Forall (λ x, cmp x d ≤ 0) l ∧ Forall (λ y, cmp d y ≤ 0) r.
Proof.
  rewrite StronglySorted_app, StronglySorted_cons. setoid_rewrite Forall_forall. split.
  - intros (H & Hl & Hr & Hd). split_and!; [done..| |done]. intros x Hx. apply H; set_solver.
  - intros (Hl & Hr & Hld & Hdr). split_and!; [|done..].
    intros x y Hx Hy. apply elem_of_cons in Hy as [->|Hy]; [auto|].
    eapply cmp_trans; [by apply Hld|by apply Hdr].
Qed.

(** Where an insertion lands: [d] between [l] and [r]. *)
Definition splits_at (t : tree_node) (d : Z) (t' : tree_node) : Prop :=
  ∃ l r, AvlPrint t = l ++ r ∧ AvlPrint t' = l ++ d :: r ∧
         (ordered_tree t → Forall (λ x, cmp x d ≤ 0) l ∧ Forall (λ y, cmp d y ≤ 0) r).

Lemma cmp_le x y : cmp x y < 0 → cmp x y ≤ 0.
Proof. lia. Qed.
Lemma cmp_ge x y : ¬ cmp x y < 0 → cmp y x ≤ 0.
Proof. rewrite cmp_anti. lia. Qed.

Lemma Forall_le_trans x y l : cmp x y ≤ 0 → Forall (λ z, cmp y z ≤ 0) l → Forall (λ z, cmp x z ≤ 0) l.
Proof. intros Hxy Hl. eapply Forall_impl; [exact Hl|]. intros z Hz. exact (cmp_trans x y z Hxy Hz). Qed.
Lemma Forall_ge_trans x y l : cmp x y ≤ 0 → Forall (λ z, cmp z x ≤ 0) l → Forall (λ z, cmp z y ≤ 0) l.
Proof. intros Hxy Hl. eapply Forall_impl; [exact Hl|]. intros z Hz. exact (cmp_trans z x y Hz Hxy). Qed.

Lemma AvlInsert_run t d :
  t ≠ Null → avl t →
  ∃ t', AvlInsert cmp t d = Done t' ∧ avl t' ∧ height t ≤ height t' ≤ height t + 1 ∧
        splits_at t d t'.
Proof.
  induction t as [|l IHl td r IHr]; [done|]. intros _ (Hb & Hl & Hr). cbn [AvlInsert].
  destruct (decide (cmp d td < 0)) as [Hc|Hc].
  - assert (∃ l', match l with Null => Done (AvlCreateNode d Null Null) | _ => AvlInsert cmp l d end = Done l' ∧
      avl l' ∧ height l ≤ height l' ≤ height l + 1 ∧ splits_at l d l') as (l' & E & Hl' & Hh & Hs).
    { destruct l as [|ll ld lr]; [|by apply IHl].
      eexists. split; [done|]. simpl. split_and!; try (done || lia).
      exists [], []. by split_and!. }
    rewrite E. cbn [mbind outcome_mbind outcome_bind]. unfold AvlCreateNode.
    destruct (AvlBalance_run l' td r Hl' Hr) as (t' & Et & Ht' & Hp & Hh' & Hh2); [lia|].
    exists t'. split_and!; [done..|simpl in *; lia|simpl in *; lia|].
    destruct Hs as (a & b & Ea & Eb & Ho). exists a, (b ++ td :: AvlPrint r).
    rewrite Hp, Eb. simpl. rewrite Ea, <- !app_assoc. split_and!; [done..|].
    intros Hot. unfold ordered_tree in *. simpl in Hot. apply sorted_mid in Hot as (Hsl & _ & _ & Hdr).
    destruct (Ho Hsl) as [H1 H2]. split; [done|]. apply Forall_app. split; [done|].
    constructor; [lia|]. eapply Forall_le_trans; [|done]. lia.
  - assert (∃ r', match r with Null => Done (AvlCreateNode d Null Null) | _ => AvlInsert cmp r d end = Done r' ∧
      avl r' ∧ height r ≤ height r' ≤ height r + 1 ∧ splits_at r d r') as (r' & E & Hr' & Hh & Hs).
    { destruct r as [|rl rd rr]; [|by apply IHr].
      eexists. split; [done|]. simpl. split_and!; try (done || lia).
      exists [], []. by split_and!. }
    rewrite E. cbn [mbind outcome_mbind outcome_bind]. unfold AvlCreateNode.
    destruct (AvlBalance_run l td r' Hl Hr') as (t' & Et & Ht' & Hp & Hh' & Hh2); [lia|].
    exists t'. split_and!; [done..|simpl in *; lia|simpl in *; lia|].
    destruct Hs as (a & b & Ea & Eb & Ho). exists (AvlPrint l ++ td :: a), b.
    rewrite Hp, Eb. simpl. rewrite Ea, <- !app_assoc. split_and!; [done..|].
    intros Hot. unfold ordered_tree in *. simpl in Hot. apply sorted_mid in Hot as (_ & Hsr & Hld & _).
    destruct (Ho Hsr) as [H1 H2]. split; [|done]. apply cmp_ge in Hc. apply Forall_app. split.
    + by eapply Forall_ge_trans.
    + by constructor.
Qed.

Lemma splits_ordered t d t' : splits_at t d t' → ordered_tree t → ordered_tree t'.
Proof.
  intros (l & r & E & E' & H) Ho. destruct (H Ho) as [H1 H2]. unfold ordered_tree in *.
  rewrite E in Ho. rewrite E'. apply sorted_mid.
  split_and!; [by eapply StronglySorted_app_1_l|by eapply StronglySorted_app_1_r|done..].
Qed.

(** No two data of the tree compare equal. *)
Definition strict_tree (t : tree_node) : Prop := StronglySorted (λ x y, cmp x y < 0) (AvlPrint t).

Lemma cmp_lt_trans x y z : cmp x y < 0 → cmp y z < 0 → cmp x z < 0.
Proof.
  intros Hxy Hyz. destruct (decide (cmp x z < 0)) as [|Hn]; [done|]. apply cmp_ge in Hn.
  assert (cmp z y ≤ 0) by (eapply cmp_trans; [done|lia]). apply cmp_anti in Hyz. lia.
Qed.

Lemma strict_mid l d r :
  StronglySorted (λ x y, cmp x y < 0) (l ++ d :: r) →
  StronglySorted (λ x y, cmp x y < 0) l ∧ StronglySorted (λ x y, cmp x y < 0) r ∧
  Forall (λ x, cmp x d < 0) l ∧ Forall (λ y, cmp d y < 0) r.
Proof.
  rewrite StronglySorted_app, StronglySorted_cons. intros (H & Hl & Hd & Hr).
  split_and!; [done..| |done]. apply Forall_forall. intros x Hx. apply H; set_solver.
Qed.

(** The data that [AvlDelete] leaves. *)
Definition without (d : Z) (s : list Z) : list Z := filter (λ x, cmp d x ≠ 0) s.

Lemma without_all d s : Forall (λ x, cmp d x ≠ 0) s → without d s = s.
Proof.
  intros H. unfold without. induction H; [done|]. rewrite filter_cons_True by done. by f_equal.
Qed.
Lemma without_lt d s : Forall (λ x, cmp d x < 0) s → without d s = s.
Proof. intros H. apply without_all. eapply Forall_impl; [exact H|]. simpl. lia. Qed.
Lemma without_gt d s : Forall (λ x, cmp x d < 0) s → without d s = s.
Proof.
  intros H. apply without_all. eapply Forall_impl; [exact H|]. simpl.
  intros x Hx. apply cmp_anti in Hx. lia.
Qed.
Lemma cmp_eq_lt d x y : cmp d x = 0 → cmp x y < 0 → cmp d y < 0.
Proof.
  intros H Hxy. destruct (decide (cmp d y < 0)) as [|Hn]; [done|]. apply cmp_ge in Hn.
  assert (cmp y x ≤ 0) by (eapply cmp_trans; [done|lia]). apply cmp_anti in Hxy. lia.
Qed.
Lemma cmp_eq_sym d x : cmp d x = 0 → cmp x d = 0.
Proof. intros H. pose proof (cmp_anti d x). pose proof (cmp_anti x d). lia. Qed.
Lemma cmp_eq_gt d x y : cmp d x = 0 → cmp y x < 0 → cmp y d < 0.
Proof.
  intros H Hxy. destruct (decide (cmp y d < 0)) as [|Hn]; [done|]. apply cmp_ge in Hn.
  apply cmp_eq_sym in H. assert (cmp x y ≤ 0) by (eapply cmp_trans; [|exact Hn]; lia).
  apply cmp_anti in Hxy. lia.
Qed.

(** Deleting from [l ++ x :: r] when [x] is the match, below it, above it. *)
Lemma without_here d l x r :
  cmp d x = 0 → Forall (λ y, cmp y x < 0) l → Forall (λ y, cmp x y < 0) r →
  without d (l ++ x :: r) = l ++ r.
Proof.
  intros H Hl Hr. unfold without. rewrite filter_app, filter_cons_False by tauto. f_equal.
  - apply without_gt. eapply Forall_impl; [exact Hl|]. intros y. by apply cmp_eq_gt.
  - apply without_lt. eapply Forall_impl; [exact Hr|]. intros y. by apply cmp_eq_lt.
Qed.
Lemma without_left d l x r :
  cmp d x < 0 → Forall (λ y, cmp x y < 0) r → without d (l ++ x :: r) = without d l ++ x :: r.
Proof.
  intros H Hr. unfold without. rewrite filter_app, filter_cons_True by lia. do 2 f_equal.
  apply without_lt. eapply Forall_impl; [exact Hr|]. intros y. by apply cmp_lt_trans.
Qed.
Lemma without_right d l x r :
  0 < cmp d x → Forall (λ y, cmp y x < 0) l → without d (l ++ x :: r) = l ++ x :: without d r.
Proof.
  intros H Hl. unfold without. rewrite filter_app, filter_cons_True by lia. f_equal.
  apply without_gt. eapply Forall_impl; [exact Hl|]. intros y Hy.
  apply (cmp_lt_trans y x d Hy). by apply cmp_anti.
Qed.

Lemma leftmost_head l d r :
  ∃ s, AvlPrint (TNode l d r) = leftmost_data l d :: s.
Proof.
  revert d r; induction l as [|ll IH ld lr _]; intros d r; simpl; [eauto|].
  destruct (IH ld lr) as [s E]. simpl in E. rewrite E. simpl. eauto.
Qed.

(** Deletion never faults or panics on a balanced tree, whatever the data are;
    when no two data compare equal it removes exactly the match. *)
Lemma AvlDelete_run t : ∀ d,
  avl t →
  ∃ t', AvlDelete cmp t d = Done t' ∧ avl t' ∧ height t - 1 ≤ height t' ≤ height t ∧
        (strict_tree t → AvlPrint t' = without d (AvlPrint t)).
Proof.
  induction t as [|l IHl td r IHr]; intros d Ht.
  { exists Null. simpl. split_and!; (done || lia). }
  destruct Ht as (Hb & Hl & Hr). cbn [AvlDelete].
  destruct (decide (cmp d td < 0)) as [Hlt|Hge]; [|destruct (decide (0 < cmp d td)) as [Hgt|Hle]].
  - destruct (IHl d Hl) as (l' & E & Hl' & Hh & Hp). rewrite E. cbn [mbind outcome_mbind outcome_bind].
    destruct (AvlBalance_run l' td r Hl' Hr) as (t' & Et & Ht' & Hp' & Hh' & Hh2); [lia|].
    exists t'. split_and!; [done..|simpl in *; lia|simpl in *; lia|].
    intros (Hsl & Hsr & Hf & Hfr)%strict_mid. rewrite Hp', (Hp Hsl). simpl. by rewrite without_left.
  - destruct (IHr d Hr) as (r' & E & Hr' & Hh & Hp). rewrite E. cbn [mbind outcome_mbind outcome_bind].
    destruct (AvlBalance_run l td r' Hl Hr') as (t' & Et & Ht' & Hp' & Hh' & Hh2); [lia|].
    exists t'. split_and!; [done..|simpl in *; lia|simpl in *; lia|].
    intros (Hsl & Hsr & Hf & Hfr)%strict_mid. rewrite Hp', (Hp Hsr). simpl. by rewrite without_right.
  - assert (cmp d td = 0) as Heq by lia. clear IHl.
    destruct l as [|ll ld lr]; [|destruct r as [|rl rd rr]].
    + exists r. rewrite AvlBalance_avl by done. simpl in *. heights. split_and!; [done..|lia|lia|].
      intros (_ & _ & Hf & Hfr)%strict_mid. symmetry. by apply (without_here d [] td).
    + exists (TNode ll ld lr). rewrite AvlBalance_avl by done. split; [done|]. split; [done|].
      simpl in Hb |- *. heights. split; [lia|]. intros (_ & _ & Hf & Hfr)%strict_mid.
      rewrite (without_here d _ td []) by done. by rewrite app_nil_r.
    + set (nd := leftmost_data rl rd). set (lf := TNode ll ld lr) in *.
      destruct (IHr nd Hr) as (r' & E & Hr' & Hh & Hp).
      rewrite E. cbn [mbind outcome_mbind outcome_bind].
      destruct (AvlBalance_run lf nd r' Hl Hr') as (t' & Et & Ht' & Hp' & Hh' & Hh2); [lia|].
      exists t'. split_and!; [done..|simpl in *; lia|simpl in *; lia|].
      intros (Hsl & Hsr & Hf & Hfr)%strict_mid. rewrite Hp', (Hp Hsr).
      change (AvlPrint (TNode lf td (TNode rl rd rr)))
        with (AvlPrint lf ++ td :: AvlPrint (TNode rl rd rr)).
      rewrite (without_here d _ td) by done. f_equal.
      destruct (leftmost_head rl rd rr) as [s Es]. fold nd in Es.
      change (strict_tree (TNode rl rd rr)) in Hsr. unfold strict_tree in Hsr. rewrite Es in Hsr |- *.
      apply StronglySorted_cons in Hsr as [Hns _].
      f_equal. by apply (without_here nd [] nd s (cmp_refl nd)).
Qed.
End order.

(** ** The tree as a container *)
Definition contents (t : tree) : list Z := AvlPrint (root t).

Record tree_wf (t : tree) : Prop := {
  tw_avl : avl (root t);
  tw_ordered : ordered_tree (equality_handler t) (root t);
  tw_size : tree_size t = length (contents t);
}.

Lemma AvlContains_iff cmp t d :
  AvlContains cmp t d = true ↔ ∃ x, x ∈ AvlPrint t ∧ cmp x d = 0.
Proof.
  induction t as [|l IHl x r IHr]; simpl; [set_solver|].
  case_decide as E.
  - split; [|done]. intros _. exists x. set_solver.
  - rewrite orb_true_iff, IHl, IHr. set_solver.
Qed.

Lemma AvlGet_spec cmp t d :
  NULL ∉ AvlPrint t →
  (AvlGet cmp t d ∈ AvlPrint t ∧ cmp (AvlGet cmp t d) d = 0) ∨
  (AvlGet cmp t d = NULL ∧ ∀ x, x ∈ AvlPrint t → cmp x d ≠ 0).
Proof.
  induction t as [|l IHl x r IHr]; simpl.
  { intros _. right. split; [done|]. intros x Hx. by apply not_elem_of_nil in Hx. }
  rewrite not_elem_of_app, not_elem_of_cons. intros (Hnl & Hnx & Hnr).
  setoid_rewrite elem_of_app. setoid_rewrite elem_of_cons.
  case_decide as E; [by auto|].
  destruct (IHl Hnl) as [[Hin Hc]|[Hl Hno]].
  - rewrite decide_True by congruence. auto.
  - rewrite decide_False by tauto. destruct (IHr Hnr) as [[Hin Hc]|[Hr Hno']]; [auto|].
    right. split; [done|]. intros y [Hy|[->|Hy]]; auto.
Qed.

Lemma avl_leaves t : avl t → 2 ^ height t ≤ (length (AvlPrint t) + 1) * (length (AvlPrint t) + 1).
Proof.
  induction t as [|l IHl d r IHr]; simpl; [lia|]. intros (Hb & Hl & Hr).
  specialize (IHl Hl). specialize (IHr Hr). rewrite length_app. simpl length.
  set (a := length (AvlPrint l)) in *. set (b := length (AvlPrint r)) in *. heights.
  destruct (decide (1 + Z.max (height l) (height r) ≤ 1)).
  { assert (2 ^ (1 + Z.max (height l) (height r)) ≤ 2 ^ 1) by (apply Z.pow_le_mono_r; lia). nia. }
  set (h := 1 + Z.max (height l) (height r)) in *.
  assert (2 ^ (h - 2) ≤ 2 ^ height l) by (apply Z.pow_le_mono_r; lia).
  assert (2 ^ (h - 2) ≤ 2 ^ height r) by (apply Z.pow_le_mono_r; lia).
  replace (2 ^ h) with (4 * 2 ^ (h - 2)) by (rewrite <- (Z.pow_add_r 2 2) by lia; f_equal; lia).
  assert (∃ m : Z, 0 ≤ m ∧ m ≤ a + 1 ∧ m ≤ b + 1 ∧ 2 ^ (h - 2) ≤ m * m) as (m & ? & ? & ? & ?).
  { destruct (decide (a ≤ b)%nat); [exists (a + 1)|exists (b + 1)]; split_and!; lia. }
  nia.
Qed.

(** ** Properties *)

(** inserting into a well-formed tree (balanced, in order, counted) never
    panics or faults, adds exactly the new datum and gives a well-formed tree. *)
Theorem TreeInsert_correct t d :
  tree_wf t → TotalComparator (equality_handler t) →
  ∃ t', TreeInsert d t = Done (tt, t') ∧ tree_wf t' ∧ contents t' ≡ₚ d :: contents t ∧
        equality_handler t' = equality_handler t.
Proof.
  intros [Ha Ho Hs] Hc. unfold TreeInsert. mstep. destruct (root t) as [|l x r] eqn:Er.
  - eexists. split; [done|]. unfold contents in *. rewrite Er in *. simpl in *. split_and!; [|done..].
    split; simpl; [done| |rewrite Hs; done]. repeat constructor.
  - destruct (AvlInsert_run (equality_handler t) (TNode l x r) d) as (t' & E & Ha' & Hh & Hsp);
      [done..|].
    unfold lift_tree. rewrite E. cbn. eexists. split; [done|].
    assert (AvlPrint t' ≡ₚ d :: contents t) as Hp.
    { unfold contents. rewrite Er. destruct Hsp as (a & b & Ea & Eb & _). rewrite Ea, Eb.
      by rewrite <- Permutation_middle. }
    split_and!; [|done..]. split; simpl; [done|by eapply splits_ordered|].
    unfold contents. simpl. rewrite Hp, Hs. simpl. lia.
Qed.

(** C36: deleting a datum from a well-formed tree in which no two data compare
    equal never panics or faults, removes exactly the datum that compares equal
    and keeps the tree well formed; the count stays right when there is one. *)
Theorem TreeDelete_correct t d :
  tree_wf t → TotalComparator (equality_handler t) → strict_tree (equality_handler t) (root t) →
  ∃ t', TreeDelete d t = Done (tt, t') ∧ avl (root t') ∧
        contents t' = filter (λ x, equality_handler t d x ≠ 0) (contents t) ∧
        ((∃ x, x ∈ contents t ∧ equality_handler t d x = 0) → tree_wf t').
Proof.
  intros [Ha Ho Hs] Hc Hst. unfold TreeDelete. mstep.
  destruct (AvlDelete_run (equality_handler t) (root t) d Ha) as (t' & E & Ha' & _ & Hp).
  specialize (Hp Hst). unfold lift_tree. rewrite E. cbn. eexists. split; [done|].
  unfold contents in *. simpl. split_and!; [done..|]. intros (x & Hx & Hd).
  apply list_elem_of_split in Hx as (l1 & l2 & El).
  unfold strict_tree in Hst. rewrite El in Hst, Hp.
  pose proof (strict_mid _ _ _ _ Hst) as (Hl & Hr & Hlx & Hxr).
  rewrite without_here in Hp by done. split; simpl; [done| |].
  - unfold ordered_tree. rewrite Hp. unfold ordered_tree in Ho. rewrite El in Ho.
    apply sorted_mid in Ho as (H1 & H2 & _ & _); [|done].
    apply StronglySorted_app. split_and!; [|done..]. intros y z Hy Hz.
    eapply cmp_trans; [apply cmp_le, (proj1 (Forall_forall _ _) Hlx y Hy)|
                       apply cmp_le, (proj1 (Forall_forall _ _) Hxr z Hz)].
  - unfold contents. simpl. rewrite Hp, Hs, El, !length_app. simpl. lia.
Qed.

(** lookups in a tree agree with its contents whatever the order of the
    data, and a well-formed tree of n data is at most 2 log2 (n + 1) high. *)
Theorem tree_lookup_and_height t d :
  tree_wf t → NULL ∉ contents t →
  (TreeContains d t = Done (true, t) ↔ ∃ x, x ∈ contents t ∧ equality_handler t x d = 0) ∧
  (∃ p, TreeGet d t = Done (p, t) ∧
        (p ≠ NULL → p ∈ contents t ∧ equality_handler t p d = 0) ∧
        (p = NULL → ∀ x, x ∈ contents t → equality_handler t x d ≠ 0)) ∧
  2 ^ height (root t) ≤ (tree_size t + 1) * (tree_size t + 1).
Proof.
  intros [Ha _ Hs] Hn. split_and!.
  - unfold contents. rewrite <- AvlContains_iff. unfold TreeContains. mstep.
    split; [by intros [= ->]|]. by intros ->.
  - exists (AvlGet (equality_handler t) (root t) d). split; [done|].
    destruct (AvlGet_spec (equality_handler t) (root t) d Hn) as [[Hin Hc]|[E Hno]].
    + split; [done|]. intros E. rewrite E in Hin. done.
    + by rewrite E.
  - rewrite Hs. by apply avl_leaves.
Qed.

(** Data that compare equal: deleting the root copies the smallest datum of the
    right subtree up and then deletes the first datum that compares equal to it,
    which need not be the copy. Comparing by tens, 21 is lost and 20 appears
    twice. *)
Definition by_tens (a b : Z) : Z := a / 10 - b / 10.

Theorem TreeDelete_equal_data_lost :
  ∃ t', (TreeSetComparator by_tens;; TreeInsert 10;; TreeInsert 5;; TreeInsert 20;;
         TreeInsert 21;; TreeInsert 22;; TreeDelete 10) TreeCreate = Done (tt, t') ∧
        contents t' = [5; 20; 20; 22].
Proof. eexists. split; [by vm_compute|]. by vm_compute. Qed.

(** Deleting a datum that is not there still counts it out. *)
Theorem TreeDelete_absent_miscounts :
  ∃ t', (TreeInsert 1;; TreeDelete 2) TreeCreate = Done (tt, t') ∧
        contents t' = [1] ∧ tree_size t' = 0.
Proof. eexists. split; [by vm_compute|]. by vm_compute. Qed.

(** ** Witnesses *)
Definition small_tree : tree :=
  Tree 3 (TNode (TNode Null 3 Null) 5 (TNode Null 8 Null)) NULL AvlDefaultComparator.

Lemma small_tree_wf : tree_wf small_tree.
Proof.
  split; simpl; [split_and!; (done || lia)| |done].
  unfold ordered_tree. simpl. repeat (constructor; [|repeat constructor]); unfold AvlDefaultComparator;
    repeat constructor; simpl; lia.
Qed.

Lemma small_tree_strict : strict_tree AvlDefaultComparator (root small_tree).
Proof. unfold strict_tree. simpl. repeat constructor. Qed.

Lemma TreeInsert_correct_witness :
  ∃ t', TreeInsert 4 small_tree = Done (tt, t') ∧ tree_wf t' ∧ contents t' ≡ₚ [4; 3; 5; 8] ∧
        equality_handler t' = AvlDefaultComparator.
Proof. exact (TreeInsert_correct small_tree 4 small_tree_wf default_comparator_total). Defined.

Lemma TreeDelete_correct_witness :
  ∃ t', TreeDelete 5 small_tree = Done (tt, t') ∧ avl (root t') ∧ contents t' = [3; 8] ∧
        ((∃ x, x ∈ contents small_tree ∧ AvlDefaultComparator 5 x = 0) → tree_wf t').
Proof.
  exact (TreeDelete_correct small_tree 5 small_tree_wf default_comparator_total small_tree_strict).
Defined.

Lemma tree_lookup_and_height_witness :
  (TreeContains 8 small_tree = Done (true, small_tree) ↔
     ∃ x, x ∈ contents small_tree ∧ AvlDefaultComparator x 8 = 0) ∧
  (∃ p, TreeGet 8 small_tree = Done (p, small_tree) ∧
        (p ≠ NULL → p ∈ contents small_tree ∧ AvlDefaultComparator p 8 = 0) ∧
        (p = NULL → ∀ x, x ∈ contents small_tree → AvlDefaultComparator x 8 ≠ 0)) ∧
  2 ^ 2 ≤ (3 + 1) * (3 + 1).
Proof.
  apply (tree_lookup_and_height small_tree 8 small_tree_wf).
  apply (bool_decide_unpack (NULL ∉ contents small_tree)). by vm_compute.
Defined.
