(* ===== verification/Bitmap.v ===== *)
(** * Bitmaps over zero-initialised word arrays

    Shared by the physical memory manager (32-bit words) and the swapfile
    (8-bit words). An array of [W]-bit words that starts all zero is a finite
    map from word index to word, absent words being zero. *)

From S2P Require Import Prelude.

Section bitmap.
Variable W : Z.
Hypothesis W_pos : 0 < W.

(** [array[i / W] & (1 << (i % W))], as a C truth value. *)
Definition bm_word (bm : gmap Z Z) (b : Z) : Z := default 0 (bm !! b).
Definition bm_test (bm : gmap Z Z) (i : Z) : bool :=
  negb (Z.land (bm_word bm (i `div` W)) (Z.shiftl 1 (i `mod` W)) =? 0).
(** [array[i / W] |= 1 << (i % W)] *)
Definition bm_set (bm : gmap Z Z) (i : Z) : gmap Z Z :=
  <[i `div` W := Z.lor (bm_word bm (i `div` W)) (Z.shiftl 1 (i `mod` W))]> bm.
(** [array[i / W] &= ~(1 << (i % W))] *)
Definition bm_clear (bm : gmap Z Z) (i : Z) : gmap Z Z :=
  <[i `div` W := Z.land (bm_word bm (i `div` W)) (Z.lnot (Z.shiftl 1 (i `mod` W)))]> bm.

Lemma shiftl_1_testbit n k : 0 ≤ n → 0 ≤ k → Z.testbit (Z.shiftl 1 n) k = bool_decide (k = n).
Proof.
  intros Hn Hk. rewrite Z.shiftl_1_l, Z.pow2_bits_eqb by done.
  case_bool_decide; [subst; apply Z.eqb_refl|apply Z.eqb_neq; lia].
Qed.

Lemma land_pow2_testbit x n : 0 ≤ n → negb (Z.land x (Z.shiftl 1 n) =? 0) = Z.testbit x n.
Proof.
  intros Hn. destruct (Z.testbit x n) eqn:E.
  - apply negb_true_iff, Z.eqb_neq. intros H0.
    assert (Z.testbit (Z.land x (Z.shiftl 1 n)) n = true) as Ht.
    { rewrite Z.land_spec, E, shiftl_1_testbit by done. by rewrite bool_decide_true. }
    rewrite H0, Z.bits_0 in Ht. done.
  - apply negb_false_iff, Z.eqb_eq. apply Z.bits_inj'. intros k Hk.
    rewrite Z.land_spec, shiftl_1_testbit, Z.bits_0 by done.
    case_bool_decide; [subst; by rewrite E|by rewrite andb_false_r].
Qed.

Lemma bm_test_bit bm i : bm_test bm i = Z.testbit (bm_word bm (i `div` W)) (i `mod` W).
Proof. apply land_pow2_testbit. by apply Z.mod_pos_bound. Qed.

Lemma div_mod_ne i j : i ≠ j → i `div` W = j `div` W → i `mod` W ≠ j `mod` W.
Proof. intros Hne Hd Hm. apply Hne. rewrite (Z.div_mod i W), (Z.div_mod j W) by lia. congruence. Qed.

Lemma bm_word_insert_eq bm b w : bm_word (<[b := w]> bm) b = w.
Proof. unfold bm_word. by rewrite lookup_insert_eq. Qed.
Lemma bm_word_insert_ne bm b c w : b ≠ c → bm_word (<[b := w]> bm) c = bm_word bm c.
Proof. intros. unfold bm_word. by rewrite lookup_insert_ne. Qed.

Lemma bm_test_set bm i j : bm_test (bm_set bm i) j = bool_decide (j = i) || bm_test bm j.
Proof.
  pose proof (Z.mod_pos_bound i W W_pos). pose proof (Z.mod_pos_bound j W W_pos).
  rewrite !bm_test_bit. unfold bm_set. destruct (decide (i `div` W = j `div` W)) as [E|E].
  - rewrite E, bm_word_insert_eq, Z.lor_spec, shiftl_1_testbit by lia.
    rewrite orb_comm. f_equal. apply bool_decide_ext. split; [|congruence].
    intros Hm. destruct (decide (j = i)); [done|]. by apply (div_mod_ne j i) in n.
  - rewrite bm_word_insert_ne by done. rewrite bool_decide_false by congruence. done.
Qed.

Lemma bm_test_clear bm i j : bm_test (bm_clear bm i) j = negb (bool_decide (j = i)) && bm_test bm j.
Proof.
  pose proof (Z.mod_pos_bound i W W_pos). pose proof (Z.mod_pos_bound j W W_pos).
  rewrite !bm_test_bit. unfold bm_clear. destruct (decide (i `div` W = j `div` W)) as [E|E].
  - rewrite E, bm_word_insert_eq, Z.land_spec, Z.lnot_spec, shiftl_1_testbit by lia.
    rewrite andb_comm. do 2 f_equal. apply bool_decide_ext. split; [|congruence].
    intros Hm. destruct (decide (j = i)); [done|]. by apply (div_mod_ne j i) in n.
  - rewrite bm_word_insert_ne by done. rewrite bool_decide_false by congruence. done.
Qed.

Lemma bm_test_empty i : bm_test ∅ i = false.
Proof. unfold bm_test, bm_word. rewrite lookup_empty. done. Qed.
End bitmap.
