(* ===== verification/Physical.v ===== *)
(** * mem/physical.c: the physical page allocator

    One bit per page of the 4 GiB address space says whether the page is free;
    once virtual memory is up, the free pages are also kept on a stack. *)

From S2P Require Import Prelude Bitmap.

Definition ARCH_PAGE_SIZE : Z := 4096.
Definition ARCH_MAX_RAM_KBS : Z := 1024 * 1024 * 4.
Definition MAX_MEMORY_PAGES : Z := ARCH_MAX_RAM_KBS / ARCH_PAGE_SIZE * 1024.
Definition BITS_PER_ENTRY : Z := 4 * 8.
Definition BITMAP_ENTRIES : Z := MAX_MEMORY_PAGES / BITS_PER_ENTRY.
Definition NUM_RESERVE_PAGES : Z := 32.

(** Calls into other components, in the order they are made. *)
Inductive call : Type :=
  | SetDiskCaches (mode : Z)
  | DeferEvictPagesIfNeeded
  | EvictVirt.
Definition DISKCACHE_NORMAL : Z := 0.
Definition DISKCACHE_REDUCE : Z := 1.
Definition DISKCACHE_TOSS : Z := 2.

Record phys := Phys {
  phys_lock : bool;                       (* held? *)
  allocation_bitmap : gmap Z Z;
  allocation_stack : option (list Z);     (* None: the NULL pointer *)
  allocation_stack_pointer : Z;
  pages_left : Z;
  total_pages : Z;
  highest_page_index : Z;
  handling_page_fault : Z;
  calls : list call;
}.

Definition set_lock (b : bool) (s : phys) : phys :=
  Phys b (allocation_bitmap s) (allocation_stack s) (allocation_stack_pointer s) (pages_left s)
    (total_pages s) (highest_page_index s) (handling_page_fault s) (calls s).
Definition set_bitmap (bm : gmap Z Z) (s : phys) : phys :=
  Phys (phys_lock s) bm (allocation_stack s) (allocation_stack_pointer s) (pages_left s)
    (total_pages s) (highest_page_index s) (handling_page_fault s) (calls s).
Definition set_stack (st : option (list Z)) (sp : Z) (s : phys) : phys :=
  Phys (phys_lock s) (allocation_bitmap s) st sp (pages_left s)
    (total_pages s) (highest_page_index s) (handling_page_fault s) (calls s).
Definition set_counts (left total highest : Z) (s : phys) : phys :=
  Phys (phys_lock s) (allocation_bitmap s) (allocation_stack s) (allocation_stack_pointer s) left
    total highest (handling_page_fault s) (calls s).
Definition set_handling (k : Z) (s : phys) : phys :=
  Phys (phys_lock s) (allocation_bitmap s) (allocation_stack s) (allocation_stack_pointer s)
    (pages_left s) (total_pages s) (highest_page_index s) k (calls s).
Definition log_call (c : call) (s : phys) : phys :=
  Phys (phys_lock s) (allocation_bitmap s) (allocation_stack s) (allocation_stack_pointer s)
    (pages_left s) (total_pages s) (highest_page_index s) (handling_page_fault s) (calls s ++ [c]).

(** The spinlock of this component: acquiring it twice or releasing it when it
    is free panics (sync/spinlock.c). *)
Definition AcquireLock : M phys unit :=
  s ← get;
  if phys_lock s then panic PANIC_SPINLOCK_DOUBLE_ACQUISITION else put (set_lock true s).
Definition ReleaseLock : M phys unit :=
  s ← get;
  if phys_lock s then put (set_lock false s) else panic PANIC_SPINLOCK_RELEASED_BEFORE_ACQUIRED.

Definition IsBitmapEntryFree (index : Z) : M phys bool :=
  s ← get;
  if decide (0 ≤ index / BITS_PER_ENTRY < BITMAP_ENTRIES)
  then mret (bm_test BITS_PER_ENTRY (allocation_bitmap s) index) else fault.

Definition AllocateBitmapEntry (index : Z) : M phys unit :=
  free ← IsBitmapEntryFree index;
  c_assert free;;
  modify (λ s, set_bitmap (bm_clear BITS_PER_ENTRY (allocation_bitmap s) index) s).

Definition DeallocateBitmapEntry (index : Z) : M phys unit :=
  free ← IsBitmapEntryFree index;
  c_assert (negb free);;
  modify (λ s, set_bitmap (bm_set BITS_PER_ENTRY (allocation_bitmap s) index) s).

Definition PushIndex (index : Z) : M phys unit :=
  s ← get;
  c_assert (bool_decide (index ≤ highest_page_index s));;
  st ← deref (allocation_stack s);
  st' ← deref (aset st (allocation_stack_pointer s) index);
  put (set_stack (Some st') (allocation_stack_pointer s + 1) s).

Definition PopIndex : M phys Z :=
  s ← get;
  c_assert (bool_decide (allocation_stack_pointer s ≠ 0));;
  st ← deref (allocation_stack s);
  v ← deref (aget st (allocation_stack_pointer s - 1));
  put (set_stack (Some st) (allocation_stack_pointer s - 1) s);;
  mret v.

(** [memmove(st + i, st + i + 1, n words)] *)
Definition memmove_down (st : list Z) (i n : nat) : list Z :=
  take i st ++ take n (drop (i + 1) st) ++ drop (i + n) st.

Fixpoint RemoveStackEntry_loop (n : nat) (index i : Z) : M phys unit :=
  match n with
  | O => mret tt
  | S n =>
    s ← get;
    st ← deref (allocation_stack s);
    v ← deref (aget st i);
    if decide (v = index) then
      let sp := allocation_stack_pointer s - 1 in
      put (set_stack (Some (memmove_down st (Z.to_nat i) (Z.to_nat (sp - i)))) sp s)
    else RemoveStackEntry_loop n index (i + 1)
  end.

Definition RemoveStackEntry (index : Z) : M phys unit :=
  s ← get;
  RemoveStackEntry_loop (Z.to_nat (allocation_stack_pointer s)) index 0.

Definition DeallocPhys (addr : Z) : M phys unit :=
  c_assert (bool_decide (addr `mod` ARCH_PAGE_SIZE = 0));;
  let page := addr / ARCH_PAGE_SIZE in
  AcquireLock;;
  modify (λ s, set_counts (pages_left s + 1) (total_pages s) (highest_page_index s) s);;
  DeallocateBitmapEntry page;;
  s ← get;
  (if decide (allocation_stack s = None) then mret tt else PushIndex page);;
  ReleaseLock;;
  s ← get;
  if decide (NUM_RESERVE_PAGES * 2 < pages_left s)
  then modify (log_call (SetDiskCaches DISKCACHE_NORMAL)) else mret tt.

Definition BytesToPages (bytes : Z) : Z := u32 (bytes + ARCH_PAGE_SIZE - 1) / ARCH_PAGE_SIZE.

Fixpoint DeallocPhysContiguous_loop (n : nat) (addr : Z) : M phys unit :=
  match n with
  | O => mret tt
  | S n => DeallocPhys addr;; DeallocPhysContiguous_loop n (u32 (addr + ARCH_PAGE_SIZE))
  end.
Definition DeallocPhysContiguous (addr bytes : Z) : M phys unit :=
  DeallocPhysContiguous_loop (Z.to_nat (BytesToPages bytes)) addr.

(** The boot-time search goes down from page 0, wrapping to the top; it visits
    every page once in [MAX_MEMORY_PAGES] steps. *)
Fixpoint AllocPhys_search (fuel : nat) (index : Z) : M phys Z :=
  match fuel with
  | O => exhausted
  | S fuel =>
    free ← IsBitmapEntryFree index;
    if (free : bool) then mret index
    else AllocPhys_search fuel ((index + MAX_MEMORY_PAGES - 1) `mod` MAX_MEMORY_PAGES)
  end.

Definition AllocPhys : M phys Z :=
  AcquireLock;;
  s ← get;
  if decide (pages_left s = 0) then panic PANIC_OUT_OF_PHYS else
  (if decide (pages_left s ≤ NUM_RESERVE_PAGES) then modify (log_call DeferEvictPagesIfNeeded)
   else mret tt);;
  index ← (if decide (allocation_stack s = None)
           then AllocPhys_search (Z.to_nat MAX_MEMORY_PAGES) 0 else PopIndex);
  AllocateBitmapEntry index;;
  modify (λ s, set_counts (pages_left s - 1) (total_pages s) (highest_page_index s) s);;
  ReleaseLock;;
  mret (index * ARCH_PAGE_SIZE).

(** [while (start_index <= index) {...}]; returns [start_index] after the loop. *)
Fixpoint TakeRun_loop (n : nat) (start_index : Z) : M phys Z :=
  match n with
  | O => mret start_index
  | S n =>
    AllocateBitmapEntry start_index;;
    RemoveStackEntry start_index;;
    TakeRun_loop n (start_index + 1)
  end.

Fixpoint AllocPhysContiguous_loop (n : nat) (pages boundary index count : Z) : M phys Z :=
  match n with
  | O => ReleaseLock;; mret 0
  | S n =>
    crossed ← (if decide (boundary = 0) then mret false
               else if decide (boundary / ARCH_PAGE_SIZE = 0) then fault
               else mret (bool_decide (index `mod` (boundary / ARCH_PAGE_SIZE) = 0)));
    free ← IsBitmapEntryFree index;
    if negb free || (crossed : bool) then AllocPhysContiguous_loop n pages boundary (index + 1) 0 else
    if decide (count + 1 = pages) then
      start_index ← TakeRun_loop (Z.to_nat (count + 1)) (index - (count + 1) + 1);
      ReleaseLock;;
      mret (u32 (start_index * ARCH_PAGE_SIZE))
    else AllocPhysContiguous_loop n pages boundary (index + 1) (count + 1)
  end.

Definition AllocPhysContiguous (bytes min_addr max_addr boundary : Z) : M phys Z :=
  s ← get;
  if decide (allocation_stack s = None) then mret 0 else
  let pages := BytesToPages bytes in
  let min_index := u32 (min_addr + ARCH_PAGE_SIZE - 1) / ARCH_PAGE_SIZE in
  let max_index := if decide (max_addr = 0) then highest_page_index s + 1
                   else max_addr / ARCH_PAGE_SIZE in
  AcquireLock;;
  if decide (pages_left s ≤ pages + NUM_RESERVE_PAGES) then ReleaseLock;; mret 0 else
  AllocPhysContiguous_loop (Z.to_nat (max_index - min_index)) pages boundary min_index 0.

Section evict.
(** [EvictVirt] belongs to the virtual memory manager. *)
Variable evict_virt : M phys unit.

Fixpoint EvictPages_loop (n : nat) : M phys unit :=
  match n with
  | O => mret tt
  | S n =>
    s ← get;
    if decide (pages_left s < NUM_RESERVE_PAGES) then
      modify (λ s, set_handling (handling_page_fault s + 1) s);;
      evict_virt;;
      modify (λ s, set_handling (handling_page_fault s - 1) s);;
      EvictPages_loop n
    else mret tt
  end.

Definition EvictPagesIfNeeded : M phys unit :=
  s ← get;
  if decide (0 < handling_page_fault s) then mret tt else
  (if decide (pages_left s < NUM_RESERVE_PAGES) then modify (log_call (SetDiskCaches DISKCACHE_TOSS))
   else if decide (pages_left s < NUM_RESERVE_PAGES * 3 / 2)
   then modify (log_call (SetDiskCaches DISKCACHE_REDUCE)) else mret tt);;
  EvictPages_loop 5.
End evict.

(** A range of the firmware memory map, as [ArchGetMemory] hands it out. *)
Record boot_memory_entry := Range { address : Z; length_ : Z }.

Fixpoint InitPhys_pages (n : nat) (first_page : Z) : M phys unit :=
  match n with
  | O => mret tt
  | S n =>
    DeallocateBitmapEntry first_page;;
    modify (λ s, set_counts (pages_left s + 1) (total_pages s + 1)
                   (if decide (highest_page_index s < first_page) then first_page
                    else highest_page_index s) s);;
    InitPhys_pages n (first_page + 1)
  end.

(** [first_page] and [last_page] are size_t; the loop stops at the end of the
    range or of the bitmap. *)
Definition InitPhys_range (r : boot_memory_entry) : M phys unit :=
  let first_page := u32 (u64 (address r + ARCH_PAGE_SIZE - 1) / ARCH_PAGE_SIZE) in
  let last_page := u32 (u64 (address r + length_ r) / ARCH_PAGE_SIZE) in
  InitPhys_pages (Z.to_nat (Z.min last_page MAX_MEMORY_PAGES - first_page)) first_page.

Fixpoint InitPhys_ranges (ranges : list boot_memory_entry) : M phys unit :=
  match ranges with
  | [] => mret tt
  | r :: ranges => InitPhys_range r;; InitPhys_ranges ranges
  end.

(** [InitSpinlock], then every range until [ArchGetMemory] returns NULL. *)
Definition InitPhys (ranges : list boot_memory_entry) : M phys unit :=
  modify (set_lock false);; InitPhys_ranges ranges.

Section reinit.
(** Where the linker put [allocation_bitmap], and the page tables. *)
Variable bitmap_address : Z.
Variable ArchVirtualToPhysical : Z → Z.

Fixpoint ReclaimBitmapSpace_loop (n : nat) (region : Z) : M phys unit :=
  match n with
  | O => mret tt
  | S n =>
    DeallocPhys (ArchVirtualToPhysical region);;
    modify (λ s, set_counts (pages_left s) (total_pages s + 1) (highest_page_index s) s);;
    ReclaimBitmapSpace_loop n (region + ARCH_PAGE_SIZE)
  end.

Definition ReclaimBitmapSpace : M phys unit :=
  s ← get;
  let unreachable_pages := MAX_MEMORY_PAGES - (highest_page_index s + 1) in
  let unreachable_bitmap_pages := unreachable_pages / BITS_PER_ENTRY / ARCH_PAGE_SIZE in
  let end_bitmap := bitmap_address + BITMAP_ENTRIES * 4 in
  let region := Z.land (end_bitmap - ARCH_PAGE_SIZE * unreachable_bitmap_pages)
                  (Z.lnot (ARCH_PAGE_SIZE - 1)) in
  ReclaimBitmapSpace_loop (Z.to_nat unreachable_bitmap_pages) region.

Fixpoint PushFree_loop (n : nat) (i : Z) : M phys unit :=
  match n with
  | O => mret tt
  | S n =>
    free ← IsBitmapEntryFree i;
    (if (free : bool) then PushIndex i else mret tt);;
    PushFree_loop n (i + 1)
  end.

(** [mapped] is the zeroed memory MapVirt returned for the stack. *)
Definition ReinitPhys (mapped : list Z) : M phys unit :=
  s ← get;
  c_assert (bool_decide (allocation_stack s = None));;
  modify (set_stack (Some mapped) (allocation_stack_pointer s));;
  PushFree_loop (Z.to_nat MAX_MEMORY_PAGES) 0;;
  ReclaimBitmapSpace.
End reinit.

Definition GetTotalPhysKilobytes : M phys Z := s ← get; mret (total_pages s * (ARCH_PAGE_SIZE / 1024)).
Definition GetFreePhysKilobytes : M phys Z := s ← get; mret (pages_left s * (ARCH_PAGE_SIZE / 1024)).

(** The state before [InitPhys]: static storage, all zero. *)
Definition phys_boot : phys := Phys false ∅ None 0 0 0 0 0 [].

(** ** Invariant *)

Abbreviation is_free s i := (bm_test BITS_PER_ENTRY (allocation_bitmap s) i).

(** [free] is the set of free page numbers, [n] what [pages_left] says. *)
Record phys_invn (s : phys) (free : gset Z) (n : Z) : Prop := {
  pi_bitmap : ∀ i, is_free s i = bool_decide (i ∈ free);
  pi_range : ∀ i, i ∈ free → 0 ≤ i ≤ highest_page_index s;
  pi_highest : 0 ≤ highest_page_index s < MAX_MEMORY_PAGES;
  pi_count : pages_left s = n;
  pi_stack : ∀ st, allocation_stack s = Some st →
    0 ≤ allocation_stack_pointer s ∧ highest_page_index s < length st ∧
    allocation_stack_pointer s ≤ length st ∧
    NoDup (take (Z.to_nat (allocation_stack_pointer s)) st) ∧
    ∀ i, i ∈ take (Z.to_nat (allocation_stack_pointer s)) st ↔ i ∈ free;
}.

(** In good order, [pages_left] counts the free pages. *)
Abbreviation phys_inv s free := (phys_invn s free (size free)).

Lemma bits_pos : 0 < BITS_PER_ENTRY.
Proof. done. Qed.

Lemma bounded_size (X : gset Z) n : (∀ i, i ∈ X → 0 ≤ i ≤ n) → 0 ≤ n → size X ≤ n + 1.
Proof.
  intros HX Hn. assert (X ⊆ list_to_set (seqZ 0 (n + 1))) as Hsub.
  { intros i Hi. apply elem_of_list_to_set, elem_of_seqZ. specialize (HX i Hi). lia. }
  apply subseteq_size in Hsub. rewrite size_list_to_set in Hsub by apply NoDup_seqZ.
  rewrite length_seqZ in Hsub. lia.
Qed.

Lemma pi_pointer s free n st :
  phys_invn s free n → allocation_stack s = Some st → allocation_stack_pointer s = size free.
Proof.
  intros Hi Hst. destruct (pi_stack _ _ _ Hi st Hst) as (H0 & Hh & Hle & Hnd & Hel).
  set (l := take _ st) in *. assert (free = list_to_set l) as ->.
  { apply set_eq. intros i. rewrite elem_of_list_to_set. by rewrite Hel. }
  rewrite size_list_to_set by done. unfold l. rewrite length_take. lia.
Qed.

Lemma entry_in_range i : 0 ≤ i < MAX_MEMORY_PAGES → 0 ≤ i / BITS_PER_ENTRY < BITMAP_ENTRIES.
Proof.
  change MAX_MEMORY_PAGES with 1048576. change BITMAP_ENTRIES with 32768.
  change BITS_PER_ENTRY with 32. intros Hi.
  split; [apply Z.div_pos; lia|]. apply Z.div_lt_upper_bound; lia.
Qed.

Lemma max_pages_val : MAX_MEMORY_PAGES = 1048576.
Proof. done. Qed.
Lemma max_pages_pos : 0 < MAX_MEMORY_PAGES.
Proof. done. Qed.
(** Keep the million-page bounds from being unfolded into unary numbers. *)
#[global] Opaque MAX_MEMORY_PAGES.

Lemma IsBitmapEntryFree_run s i :
  0 ≤ i < MAX_MEMORY_PAGES → IsBitmapEntryFree i s = Done (is_free s i, s).
Proof. intros Hi. unfold IsBitmapEntryFree. mstep. by rewrite decide_True by (by apply entry_in_range). Qed.

Lemma AllocateBitmapEntry_run s i :
  0 ≤ i < MAX_MEMORY_PAGES → is_free s i = true →
  AllocateBitmapEntry i s
  = Done (tt, set_bitmap (bm_clear BITS_PER_ENTRY (allocation_bitmap s) i) s).
Proof.
  intros Hi Hf. unfold AllocateBitmapEntry.
  rewrite (M_bind_done _ _ _ _ _ (IsBitmapEntryFree_run _ _ Hi)), Hf. done.
Qed.

Lemma DeallocateBitmapEntry_run s i :
  0 ≤ i < MAX_MEMORY_PAGES → is_free s i = false →
  DeallocateBitmapEntry i s
  = Done (tt, set_bitmap (bm_set BITS_PER_ENTRY (allocation_bitmap s) i) s).
Proof.
  intros Hi Hf. unfold DeallocateBitmapEntry.
  rewrite (M_bind_done _ _ _ _ _ (IsBitmapEntryFree_run _ _ Hi)), Hf. done.
Qed.

Lemma inv_frame s s' free n :
  allocation_bitmap s' = allocation_bitmap s → allocation_stack s' = allocation_stack s →
  allocation_stack_pointer s' = allocation_stack_pointer s → pages_left s' = pages_left s →
  highest_page_index s' = highest_page_index s → phys_invn s free n → phys_invn s' free n.
Proof. intros E1 E2 E3 E4 E5 []. split; rewrite ?E1, ?E2, ?E3, ?E4, ?E5; auto. Qed.

Lemma acquire_run s : phys_lock s = false → AcquireLock s = Done (tt, set_lock true s).
Proof. intros E. unfold AcquireLock. mstep. by rewrite E. Qed.
Lemma release_run s : phys_lock s = true → ReleaseLock s = Done (tt, set_lock false s).
Proof. intros E. unfold ReleaseLock. mstep. by rewrite E. Qed.

(** The bitmap and count after a page leaves or joins the free set. *)
Lemma inv_clear_bit bm (free : gset Z) i j :
  (∀ k, bm_test BITS_PER_ENTRY bm k = bool_decide (k ∈ free)) →
  bm_test BITS_PER_ENTRY (bm_clear BITS_PER_ENTRY bm i) j = bool_decide (j ∈ free ∖ {[i]}).
Proof.
  intros H. rewrite (bm_test_clear _ bits_pos), H. repeat case_bool_decide; simpl; set_solver.
Qed.
Lemma inv_set_bit bm (free : gset Z) i j :
  (∀ k, bm_test BITS_PER_ENTRY bm k = bool_decide (k ∈ free)) →
  bm_test BITS_PER_ENTRY (bm_set BITS_PER_ENTRY bm i) j = bool_decide (j ∈ {[i]} ∪ free).
Proof.
  intros H. rewrite (bm_test_set _ bits_pos), H. repeat case_bool_decide; simpl; set_solver.
Qed.
Lemma size_pos (X : gset Z) : X ≠ ∅ → size X ≠ 0%nat.
Proof. intros Hne E. apply Hne. apply leibniz_equiv. by apply size_empty_inv. Qed.
Lemma size_remove (free : gset Z) i : i ∈ free → Z.of_nat (size (free ∖ {[i]})) = size free - 1.
Proof.
  intros Hi. rewrite size_difference by set_solver. rewrite size_singleton.
  assert (size free ≠ 0%nat). { apply size_pos. set_solver. } lia.
Qed.
Lemma size_add (free : gset Z) i : i ∉ free → Z.of_nat (size ({[i]} ∪ free)) = size free + 1.
Proof. intros Hi. rewrite size_union by set_solver. rewrite size_singleton. lia. Qed.

Lemma aget_lookup {A} (l : list A) i : 0 ≤ i → aget l i = l !! Z.to_nat i.
Proof. intros. unfold aget. by rewrite decide_True. Qed.

(** The top of the stack is a free page. *)
Lemma PopIndex_run s free n st :
  phys_invn s free n → allocation_stack s = Some st → free ≠ ∅ →
  ∃ i, PopIndex s = Done (i, set_stack (Some st) (allocation_stack_pointer s - 1) s) ∧ i ∈ free ∧
       NoDup (take (Z.to_nat (allocation_stack_pointer s - 1)) st) ∧
       ∀ j, j ∈ take (Z.to_nat (allocation_stack_pointer s - 1)) st ↔ j ∈ free ∖ {[i]}.
Proof.
  intros Hi Hst Hne. pose proof (pi_pointer _ _ _ _ Hi Hst) as Hsp.
  assert (size free ≠ 0%nat) by (by apply size_pos).
  destruct (pi_stack _ _ _ Hi st Hst) as (H0 & Hh & Hle & Hnd & Hel).
  set (k := Z.to_nat (allocation_stack_pointer s - 1)).
  assert (Z.to_nat (allocation_stack_pointer s) = S k) as En by lia. rewrite En in Hnd, Hel.
  destruct (lookup_lt_is_Some_2 st k) as [i Hn]; [lia|].
  rewrite (take_S_r _ _ _ Hn) in Hnd, Hel. exists i. split_and!.
  - unfold PopIndex. mstep. rewrite bool_decide_true by lia. mred. rewrite Hst. mred.
    rewrite aget_lookup by lia. fold k. by rewrite Hn.
  - apply Hel. set_solver.
  - by apply NoDup_app in Hnd as (? & _).
  - intros j. apply NoDup_app in Hnd as (_ & Hd & _). specialize (Hel j). specialize (Hd j).
    rewrite elem_of_app, list_elem_of_singleton in Hel.
    rewrite elem_of_difference, elem_of_singleton, <- Hel. set_solver.
Qed.

(** The boot-time search finds a free page if there is one. *)
Lemma AllocPhys_search_run s fuel : ∀ index,
  0 ≤ index < MAX_MEMORY_PAGES →
  (∃ k : nat, (k < fuel)%nat ∧ is_free s ((index - k) `mod` MAX_MEMORY_PAGES) = true) →
  ∃ i, AllocPhys_search fuel index s = Done (i, s) ∧ is_free s i = true ∧
       0 ≤ i < MAX_MEMORY_PAGES.
Proof.
  pose proof max_pages_pos as HM.
  induction fuel as [|fuel IH]; intros index Hr (k & Hk & Hfree); [lia|].
  cbn [AllocPhys_search]. rewrite (M_bind_done _ _ _ _ _ (IsBitmapEntryFree_run s index Hr)).
  destruct (is_free s index) eqn:E; [by exists index|].
  apply IH; [by apply Z.mod_pos_bound|].
  destruct k as [|k]; [by rewrite Z.sub_0_r, Z.mod_small, E in Hfree by lia|].
  exists k. split; [lia|]. rewrite <- Hfree. f_equal.
  rewrite Zminus_mod_idemp_l.
  replace (index + MAX_MEMORY_PAGES - 1 - k) with (index - S k + 1 * MAX_MEMORY_PAGES) by lia.
  by rewrite Z.mod_add by lia.
Qed.

Lemma search_finds s free n :
  phys_invn s free n → free ≠ ∅ →
  ∃ i, AllocPhys_search (Z.to_nat MAX_MEMORY_PAGES) 0 s = Done (i, s) ∧ i ∈ free.
Proof.
  intros Hi Hne. destruct (set_choose_L _ Hne) as [j Hj].
  pose proof (pi_range _ _ _ Hi j Hj). pose proof (pi_highest _ _ _ Hi) as Hh.
  pose proof max_pages_pos as HM.
  destruct (AllocPhys_search_run s (Z.to_nat MAX_MEMORY_PAGES) 0) as (i & E & Hf & Hr); [lia| |].
  - exists (Z.to_nat ((-j) `mod` MAX_MEMORY_PAGES)).
    pose proof (Z.mod_pos_bound (-j) MAX_MEMORY_PAGES HM). split; [lia|].
    rewrite Z2Nat.id by lia. rewrite Zminus_mod_idemp_r.
    replace (0 - - j) with j by lia. rewrite Z.mod_small by lia.
    rewrite (pi_bitmap _ _ _ Hi). by apply bool_decide_true.
  - exists i. split; [done|]. rewrite (pi_bitmap _ _ _ Hi) in Hf. by apply bool_decide_eq_true in Hf.
Qed.

Lemma AllocPhys_run s free n :
  phys_invn s free n → phys_lock s = false → free ≠ ∅ → 0 < n →
  ∃ i s', AllocPhys s = Done (i * ARCH_PAGE_SIZE, s') ∧ i ∈ free ∧
          phys_invn s' (free ∖ {[i]}) (n - 1) ∧ phys_lock s' = false ∧
          total_pages s' = total_pages s ∧ highest_page_index s' = highest_page_index s.
Proof.
  intros Hi Hlock Hne Hn. assert (size free ≠ 0%nat) by (by apply size_pos).
  unfold AllocPhys. rewrite (M_bind_done _ _ _ _ _ (acquire_run _ Hlock)).
  rewrite (M_bind_done _ _ _ _ _ (eq_refl (get _))).
  pose proof (pi_count _ _ _ Hi) as Hc. rewrite decide_False by (simpl; lia).
  assert (∃ s1, ((if decide (pages_left (set_lock true s) ≤ NUM_RESERVE_PAGES)
                 then modify (log_call DeferEvictPagesIfNeeded) else mret tt) : M phys unit)
                (set_lock true s) = Done (tt, s1) ∧
      phys_invn s1 free n ∧ phys_lock s1 = true ∧ allocation_stack s1 = allocation_stack s ∧
      allocation_stack_pointer s1 = allocation_stack_pointer s ∧
      pages_left s1 = pages_left s ∧ total_pages s1 = total_pages s ∧
      highest_page_index s1 = highest_page_index s) as (s1 & E1 & Hi1 & Hl1 & Hst1 & Hsp1 & Hp1 & Ht1 & Hh1).
  { case_decide; (eexists; split; [done|]); split_and!; try done; apply (inv_frame s); done. }
  rewrite (M_bind_done _ _ _ _ _ E1).
  assert (∃ i s2, ((if decide (allocation_stack (set_lock true s) = None)
           then AllocPhys_search (Z.to_nat MAX_MEMORY_PAGES) 0 else PopIndex) : M phys Z) s1 = Done (i, s2) ∧
      i ∈ free ∧ allocation_bitmap s2 = allocation_bitmap s1 ∧ pages_left s2 = pages_left s1 ∧
      phys_lock s2 = true ∧ total_pages s2 = total_pages s ∧
      highest_page_index s2 = highest_page_index s1 ∧
      ∀ st, allocation_stack s2 = Some st →
        0 ≤ allocation_stack_pointer s2 ∧ highest_page_index s2 < length st ∧
        allocation_stack_pointer s2 ≤ length st ∧
        NoDup (take (Z.to_nat (allocation_stack_pointer s2)) st) ∧
        ∀ j, j ∈ take (Z.to_nat (allocation_stack_pointer s2)) st ↔ j ∈ free ∖ {[i]})
    as (i & s2 & E2 & Hin & Hbm & Hpl & Hl2 & Ht2 & Hh2 & Hst2).
  { cbn [allocation_stack set_lock]. rewrite <- Hst1. destruct (allocation_stack s1) as [st|] eqn:Est.
    - rewrite decide_False by done.
      destruct (PopIndex_run _ _ _ _ Hi1 Est Hne) as (i & E & Hin & Hnd & Hel).
      exists i. eexists. split; [exact E|]. split_and!; try done. simpl. intros ? [= <-].
      pose proof (pi_pointer _ _ _ _ Hi1 Est). destruct (pi_stack _ _ _ Hi1 st Est) as (? & ? & ? & _).
      split_and!; (done || lia).
    - rewrite decide_True by done. destruct (search_finds _ _ _ Hi1 Hne) as (i & E & Hin).
      exists i, s1. split_and!; try done. by rewrite Est. }
  rewrite (M_bind_done _ _ _ _ _ E2).
  pose proof (pi_range _ _ _ Hi1 i Hin). pose proof (pi_highest _ _ _ Hi1).
  assert (is_free s2 i = true) as Hf.
  { rewrite Hbm, (pi_bitmap _ _ _ Hi1). by apply bool_decide_true. }
  rewrite (M_bind_done _ _ _ _ _ (AllocateBitmapEntry_run s2 i ltac:(lia) Hf)).
  erewrite M_bind_done by done.
  erewrite M_bind_done by (apply release_run; done).
  clear E1 E2. eexists i, _. split; [done|]. split_and!; simpl; try (done || congruence).
  split; simpl.
  - rewrite Hbm. intros j. apply inv_clear_bit. apply (pi_bitmap _ _ _ Hi1).
  - intros j Hj. rewrite Hh2. apply (pi_range _ _ _ Hi1). set_solver.
  - by rewrite Hh2.
  - rewrite Hpl, Hp1. lia.
  - done.
Qed.

Lemma DeallocPhys_run s free n page :
  phys_invn s free n → phys_lock s = false → 0 ≤ page ≤ highest_page_index s → page ∉ free →
  ∃ s', DeallocPhys (page * ARCH_PAGE_SIZE) s = Done (tt, s') ∧
        phys_invn s' ({[page]} ∪ free) (n + 1) ∧ phys_lock s' = false ∧
        total_pages s' = total_pages s ∧ highest_page_index s' = highest_page_index s ∧
        (allocation_stack s = None ↔ allocation_stack s' = None).
Proof.
  intros Hi Hlock Hp Hnin. unfold DeallocPhys.
  rewrite bool_decide_true by (by rewrite Z.mod_mul). rewrite Z.div_mul by done.
  erewrite M_bind_done by done. erewrite M_bind_done by (by apply acquire_run).
  erewrite M_bind_done by done. pose proof (pi_highest _ _ _ Hi).
  erewrite M_bind_done.
  2: { apply DeallocateBitmapEntry_run; [lia|]. simpl. rewrite (pi_bitmap _ _ _ Hi).
       by apply bool_decide_false. }
  rewrite (M_bind_done _ _ _ _ _ (eq_refl (get _))). cbn [allocation_stack set_bitmap set_counts set_lock].
  set (s1 := set_bitmap _ _).
  assert (∃ s2, ((if decide (allocation_stack s = None) then mret tt else PushIndex page) : M phys unit) s1
      = Done (tt, s2) ∧ phys_invn s2 ({[page]} ∪ free) (n + 1) ∧ phys_lock s2 = true ∧
      total_pages s2 = total_pages s ∧ highest_page_index s2 = highest_page_index s ∧
      (allocation_stack s = None ↔ allocation_stack s2 = None))
    as (s2 & E2 & Hi2 & Hl2 & Ht2 & Hh2 & Hs2).
  { assert (∀ j, is_free s1 j = bool_decide (j ∈ {[page]} ∪ free)) as Hbm.
    { intros j. apply inv_set_bit, Hi. }
    assert (∀ j, j ∈ {[page]} ∪ free → 0 ≤ j ≤ highest_page_index s) as Hrg.
    { intros j Hj. apply elem_of_union in Hj as [->%elem_of_singleton|Hj]; [lia|].
      by apply (pi_range _ _ _ Hi). }
    pose proof (bounded_size _ _ Hrg ltac:(lia)) as Hsz. rewrite size_add in Hsz by done.
    pose proof (pi_count _ _ _ Hi).
    destruct (allocation_stack s) as [st|] eqn:Est.
    - rewrite decide_False by done. pose proof (pi_pointer _ _ _ _ Hi Est) as Hsp.
      destruct (pi_stack _ _ _ Hi st Est) as (Hsp0 & Hlen & Hle & Hnd & Hel).
      unfold PushIndex. mred. rewrite bool_decide_true by (simpl; lia). mred. simpl. rewrite Est. mred.
      unfold aset. rewrite decide_True by lia. mred. eexists. split; [done|].
      assert (take (Z.to_nat (allocation_stack_pointer s + 1))
                (<[Z.to_nat (allocation_stack_pointer s):=page]> st)
              = take (Z.to_nat (allocation_stack_pointer s)) st ++ [page]) as Etake.
      { rewrite Z2Nat.inj_add, Nat.add_1_r by lia.
        rewrite (take_S_r _ _ page) by (apply list_lookup_insert_eq; lia).
        by rewrite take_insert_ge. }
      split_and!; try done. split; simpl; [done..|lia|]. intros ? [= <-].
      rewrite length_insert, Etake. split_and!; try lia.
      + apply NoDup_app. split_and!; [done| |apply NoDup_singleton]. set_solver.
      + intros j. rewrite elem_of_app, list_elem_of_singleton, Hel. set_solver.
    - rewrite decide_True by done. exists s1. split; [done|]. split_and!; try done.
      split; simpl; [done..|lia|]. by rewrite Est. }
  erewrite M_bind_done by exact E2. erewrite M_bind_done by (by apply release_run).
  rewrite (M_bind_done _ _ _ _ _ (eq_refl (get _))).
  clear E2. case_decide; (eexists; split; [done|]); split_and!; try done; by apply (inv_frame s2).
Qed.

(** ** Taking a run of pages off the stack *)

Lemma RemoveStackEntry_loop_run s st index l1 l2 m : ∀ k : nat,
  allocation_stack s = Some st →
  take (Z.to_nat (allocation_stack_pointer s)) st = l1 ++ index :: l2 →
  allocation_stack_pointer s = length l1 + length l2 + 1 →
  index ∉ l1 → (k ≤ length l1)%nat →
  RemoveStackEntry_loop (length l1 - k + S m) index k s
  = Done (tt, set_stack (Some (memmove_down st (length l1) (length l2)))
                (allocation_stack_pointer s - 1) s).
Proof.
  intros k Hst Hl Hsp Hnin. remember (length l1 - k)%nat as d eqn:Hd. revert k Hd.
  induction d as [|d IH]; intros k Hd Hk; simpl RemoveStackEntry_loop; mred; rewrite Hst; mred;
    rewrite aget_lookup, Nat2Z.id by lia.
  - assert (k = length l1) as -> by lia.
    assert (st !! length l1 = Some index) as ->.
    { rewrite <- (lookup_take_lt _ (Z.to_nat (allocation_stack_pointer s))) by lia.
      by rewrite Hl, list_lookup_middle. }
    mred. rewrite decide_True by done. do 5 f_equal; lia.
  - destruct (l1 !! k) as [v|] eqn:Ev; [|apply lookup_ge_None in Ev; lia].
    assert (st !! k = Some v) as ->.
    { rewrite <- (lookup_take_lt _ (Z.to_nat (allocation_stack_pointer s))) by lia.
      by rewrite Hl, lookup_app_l by lia. }
    mred. rewrite decide_False by (intros ->; apply Hnin; by eapply list_elem_of_lookup_2).
    replace (k + 1) with (Z.of_nat (S k)) by lia. apply IH; lia.
Qed.

Lemma memmove_down_spec st l1 l2 (x : Z) n :
  n = (length l1 + length l2)%nat → take (S n) st = l1 ++ x :: l2 →
  take n (memmove_down st (length l1) (length l2)) = l1 ++ l2 ∧
  length (memmove_down st (length l1) (length l2)) = length st.
Proof.
  intros -> Hst. assert (length l1 + length l2 < length st)%nat as Hlt.
  { apply (f_equal length) in Hst. rewrite length_take, length_app in Hst. cbn [length] in Hst. lia. }
  assert (st = l1 ++ x :: l2 ++ drop (S (length l1 + length l2)) st) as E.
  { rewrite <- (take_drop (S (length l1 + length l2)) st) at 1. rewrite Hst.
    by rewrite <- app_assoc. }
  assert (take (length l1) st = l1) as E1.
  { rewrite E. by rewrite take_app_length. }
  assert (take (length l2) (drop (length l1 + 1) st) = l2) as E2.
  { rewrite E. rewrite <- drop_drop, drop_app_length. simpl. rewrite drop_0.
    by rewrite take_app_length. }
  unfold memmove_down. rewrite E1, E2. split.
  - rewrite app_assoc. rewrite <- length_app. by rewrite take_app_length.
  - rewrite !length_app, length_drop. lia.
Qed.

Lemma RemoveStackEntry_run s st (X : gset Z) index :
  allocation_stack s = Some st → 0 ≤ allocation_stack_pointer s ≤ length st →
  NoDup (take (Z.to_nat (allocation_stack_pointer s)) st) →
  (∀ i, i ∈ take (Z.to_nat (allocation_stack_pointer s)) st ↔ i ∈ X) → index ∈ X →
  ∃ st', RemoveStackEntry index s
         = Done (tt, set_stack (Some st') (allocation_stack_pointer s - 1) s) ∧
    length st' = length st ∧ 0 < allocation_stack_pointer s ∧
    NoDup (take (Z.to_nat (allocation_stack_pointer s - 1)) st') ∧
    ∀ i, i ∈ take (Z.to_nat (allocation_stack_pointer s - 1)) st' ↔ i ∈ X ∖ {[index]}.
Proof.
  intros Hst Hsp Hnd Hel Hin. apply Hel in Hin as Hin'. apply list_elem_of_split in Hin' as (l1 & l2 & El).
  assert (allocation_stack_pointer s = length l1 + length l2 + 1) as Hlen.
  { apply (f_equal length) in El. rewrite length_take, length_app in El. cbn [length] in El. lia. }
  rewrite El in Hnd, Hel. apply NoDup_app in Hnd as (Hnd1 & Hd & (Hx & Hnd2)%NoDup_cons).
  exists (memmove_down st (length l1) (length l2)).
  destruct (memmove_down_spec st l1 l2 index (length l1 + length l2)) as [Et Hl']; [done| |].
  { rewrite <- El. f_equal. lia. }
  replace (Z.to_nat (allocation_stack_pointer s - 1)) with (length l1 + length l2)%nat by lia.
  rewrite Et. split_and!.
  - unfold RemoveStackEntry. rewrite (M_bind_done _ _ _ _ _ (eq_refl (get _))).
    replace (Z.to_nat (allocation_stack_pointer s)) with (length l1 - 0 + S (length l2))%nat by lia.
    apply (RemoveStackEntry_loop_run s st index l1 l2 (length l2) 0%nat); [done|done|done| |lia].
    intros H. specialize (Hd _ H). set_solver.
  - done.
  - lia.
  - apply NoDup_app. split_and!; [done| |done]. set_solver.
  - intros i. specialize (Hel i). specialize (Hd i). set_solver.
Qed.

(** The pages [start, start + n). *)
Definition run_set (start : Z) (n : nat) : gset Z := list_to_set (seqZ start n).
Lemma elem_of_run_set start n i : i ∈ run_set start n ↔ start ≤ i < start + n.
Proof. unfold run_set. rewrite elem_of_list_to_set, elem_of_seqZ. lia. Qed.

(** [pages_left] is [m] before and after: the loop does not count. *)
Lemma TakeRun_loop_run m n : ∀ s free start,
  phys_invn s free m → allocation_stack s ≠ None → run_set start n ⊆ free →
  ∃ s', TakeRun_loop n start s = Done (start + n, s') ∧
    phys_invn s' (free ∖ run_set start n) m ∧ phys_lock s' = phys_lock s ∧
    total_pages s' = total_pages s.
Proof.
  induction n as [|n IH]; intros s free start Hi Hns Hsub.
  { exists s. simpl. split; [by rewrite Z.add_0_r|]. split; [|done].
    replace (free ∖ run_set start 0) with free; [done|]. apply set_eq. intros j.
    rewrite elem_of_difference, elem_of_run_set. simpl. intuition lia. }
  destruct (allocation_stack s) as [st|] eqn:Hst; [|done].
  assert (start ∈ free) as Hin by (apply Hsub, elem_of_run_set; lia).
  pose proof (pi_range _ _ _ Hi _ Hin). pose proof (pi_highest _ _ _ Hi).
  assert (is_free s start = true) as Hf by (rewrite (pi_bitmap _ _ _ Hi); by apply bool_decide_true).
  cbn [TakeRun_loop].
  rewrite (M_bind_done _ _ _ _ _ (AllocateBitmapEntry_run s start ltac:(lia) Hf)).
  destruct (pi_stack _ _ _ Hi st Hst) as (Hsp0 & Hlen & Hle & Hnd & Hel).
  destruct (RemoveStackEntry_run (set_bitmap (bm_clear BITS_PER_ENTRY (allocation_bitmap s) start) s)
              st free start) as (st' & E & Hl' & Hpos & Hnd' & Hel'); try done.
  rewrite (M_bind_done _ _ _ _ _ E). set (s1 := set_stack _ _ _). clear E.
  destruct (IH s1 (free ∖ {[start]}) (start + 1)) as (s' & E & Hi' & Hl & Ht).
  - split; cbn -[aget].
    + intros j. apply inv_clear_bit, Hi.
    + intros j Hj. apply (pi_range _ _ _ Hi). set_solver.
    + apply Hi.
    + apply Hi.
    + intros ? [= <-]. split_and!; try done; simpl in *; lia.
  - done.
  - intros j Hj. apply elem_of_run_set in Hj as Hj'. apply elem_of_difference. split.
    + apply Hsub, elem_of_run_set. lia.
    + apply not_elem_of_singleton. lia.
  - exists s'. rewrite E. split; [do 2 f_equal; lia|]. split_and!; [|done|done].
    replace (free ∖ run_set start (S n)) with (free ∖ {[start]} ∖ run_set (start + 1) n); [done|].
    apply set_eq. intros j. rewrite !elem_of_difference, !elem_of_run_set, elem_of_singleton. intuition lia.
Qed.

Lemma release_frame s free m :
  phys_invn s free m → phys_lock s = true →
  ∃ s', ReleaseLock s = Done (tt, s') ∧ phys_invn s' free m ∧ phys_lock s' = false ∧
        total_pages s' = total_pages s.
Proof.
  intros Hi Hl. exists (set_lock false s). split; [by apply release_run|]. split; [|done].
  by apply (inv_frame s).
Qed.

(** What a call that asked for [pages] pages in [min, max) may answer. *)
Definition contiguous_result (s : phys) (free : gset Z) (m pages boundary min max : Z)
    (r : outcome (Z * phys)) : Prop :=
  (∃ s', r = Done (0, s') ∧ phys_invn s' free m ∧ phys_lock s' = false ∧
         total_pages s' = total_pages s) ∨
  ∃ start s', r = Done (u32 ((start + pages) * ARCH_PAGE_SIZE), s') ∧
    min ≤ start ∧ start + pages ≤ max ∧ run_set start (Z.to_nat pages) ⊆ free ∧
    (boundary ≠ 0 → ∀ i, start ≤ i < start + pages → i `mod` (boundary / ARCH_PAGE_SIZE) ≠ 0) ∧
    phys_invn s' (free ∖ run_set start (Z.to_nat pages)) m ∧ phys_lock s' = false ∧
    total_pages s' = total_pages s.

Lemma AllocPhysContiguous_loop_run free m pages boundary min (n : nat) : ∀ s index count,
  phys_invn s free m → phys_lock s = true → allocation_stack s ≠ None →
  (boundary = 0 ∨ ARCH_PAGE_SIZE ≤ boundary) →
  0 ≤ min → min ≤ index - count → 0 ≤ count → index + n ≤ MAX_MEMORY_PAGES →
  (∀ i, index - count ≤ i < index → i ∈ free ∧
     (boundary ≠ 0 → i `mod` (boundary / ARCH_PAGE_SIZE) ≠ 0)) →
  contiguous_result s free m pages boundary min (index + n)
    (AllocPhysContiguous_loop n pages boundary index count s).
Proof.
  induction n as [|n IH]; intros s index count Hi Hl Hns Hb Hmin Hmc Hc Hmax Hrun.
  - cbn [AllocPhysContiguous_loop]. destruct (release_frame _ _ _ Hi Hl) as (s' & E & ? & ? & ?).
    left. exists s'. by rewrite (M_bind_done _ _ _ _ _ E).
  - cbn [AllocPhysContiguous_loop].
    set (crossed := if decide (boundary = 0) then false
                    else bool_decide (index `mod` (boundary / ARCH_PAGE_SIZE) = 0)).
    rewrite (M_bind_done _ _ s crossed s).
    2: { unfold crossed. case_decide; [done|]. rewrite decide_False; [done|].
         assert (1 ≤ boundary / ARCH_PAGE_SIZE); [|lia].
         apply Z.div_le_lower_bound; unfold ARCH_PAGE_SIZE in *; lia. }
    rewrite (M_bind_done _ _ _ _ _ (IsBitmapEntryFree_run s index ltac:(lia))).
    rewrite (pi_bitmap _ _ _ Hi). replace (index + S n) with (index + 1 + n) by lia.
    destruct (negb _ || crossed) eqn:Eskip.
    { apply IH; try done; try lia. }
    apply orb_false_iff in Eskip as [Ein Ecr].
    apply negb_false_iff, bool_decide_eq_true in Ein.
    assert (∀ i, index + 1 - (count + 1) ≤ i < index + 1 → i ∈ free ∧
              (boundary ≠ 0 → i `mod` (boundary / ARCH_PAGE_SIZE) ≠ 0)) as Hrun'.
    { intros i Hir. destruct (decide (i = index)) as [->|]; [|apply Hrun; lia]. split; [done|].
      intros Hb0. unfold crossed in Ecr. rewrite decide_False in Ecr by done.
      by apply bool_decide_eq_false in Ecr. }
    case_decide as Hp; [|apply IH; try done; try lia].
    destruct (TakeRun_loop_run m (Z.to_nat (count + 1)) s free (index - (count + 1) + 1))
      as (s1 & E1 & Hi1 & Hl1 & Ht1); [done|done| |].
    { intros i Hir%elem_of_run_set. apply Hrun'. lia. }
    rewrite (M_bind_done _ _ _ _ _ E1).
    destruct (release_frame _ _ _ Hi1 ltac:(congruence)) as (s' & E & Hi' & Hl' & Ht').
    rewrite (M_bind_done _ _ _ _ _ E). right. exists (index - (count + 1) + 1), s'. subst pages.
    split_and!; try done; try lia.
    + by replace (Z.of_nat (Z.to_nat (count + 1))) with (count + 1) by lia.
    + intros i Hir%elem_of_run_set. apply Hrun'. lia.
    + intros Hb0 i Hir. apply Hrun'; [lia|done].
Qed.

(** [AllocPhysContiguous] on a well-formed manager either gives up
    (address 0) and changes nothing but the lock's history, or takes a run of
    exactly the requested number of free pages that lies inside the address
    limits and contains no page whose number is a multiple of the boundary.
    The address it returns is that of the page after the run, and
    [pages_left] stays where it was although the run left the free set. *)
Theorem AllocPhysContiguous_takes_run s free bytes min_addr max_addr boundary :
  phys_inv s free → phys_lock s = false → allocation_stack s ≠ None →
  boundary = 0 ∨ ARCH_PAGE_SIZE ≤ boundary →
  is_u32 min_addr → is_u32 max_addr →
  contiguous_result s free (size free) (BytesToPages bytes) boundary
    (u32 (min_addr + ARCH_PAGE_SIZE - 1) / ARCH_PAGE_SIZE)
    (Z.max (u32 (min_addr + ARCH_PAGE_SIZE - 1) / ARCH_PAGE_SIZE)
      (if decide (max_addr = 0) then highest_page_index s + 1 else max_addr / ARCH_PAGE_SIZE))
    (AllocPhysContiguous bytes min_addr max_addr boundary s).
Proof.
  intros Hi Hl Hns Hb Hmn Hmx. unfold AllocPhysContiguous.
  rewrite (M_bind_done _ _ _ _ _ (eq_refl (get _))).
  rewrite (decide_False (P := allocation_stack s = None)) by done.
  rewrite (M_bind_done _ _ _ _ _ (acquire_run _ Hl)).
  assert (phys_invn (set_lock true s) free (size free)) as Hi1 by (by apply (inv_frame s)).
  destruct (decide (pages_left s ≤ _)) as [Hfew|Hfew].
  { destruct (release_frame _ _ _ Hi1 eq_refl) as (s' & E & ? & ? & ?).
    left. exists s'. by rewrite (M_bind_done _ _ _ _ _ E). }
  set (min_index := u32 _ / _). set (max_index := if decide (max_addr = 0) then _ else _).
  pose proof (pi_highest _ _ _ Hi). rewrite max_pages_val in *.
  assert (0 ≤ min_index < 1048576).
  { pose proof (u32_range (min_addr + ARCH_PAGE_SIZE - 1)) as Hr. unfold is_u32 in Hr.
    unfold min_index, ARCH_PAGE_SIZE in *. split; [apply Z.div_pos; lia|apply Z.div_lt_upper_bound; lia]. }
  assert (0 ≤ max_index ≤ 1048576).
  { unfold max_index. case_decide; [lia|]. unfold is_u32, ARCH_PAGE_SIZE in *.
    split; [apply Z.div_pos; lia|]. apply Z.lt_le_incl, Z.div_lt_upper_bound; lia. }
  replace (Z.max min_index max_index) with (min_index + Z.to_nat (max_index - min_index)) by lia.
  pose proof (AllocPhysContiguous_loop_run free (size free) (BytesToPages bytes) boundary min_index
                (Z.to_nat (max_index - min_index)) (set_lock true s) min_index 0 Hi1 eq_refl) as Hloop.
  apply Hloop; rewrite ?max_pages_val; try done; try lia.
Qed.

(** ** Single pages *)

(** C6: [AllocPhys] on a well-formed manager panics with OUT_OF_PHYS exactly
    when no page is free; otherwise it returns the address of a page that was
    free, removes that page from the free set, counts it, and leaves the
    manager well formed and unlocked, both before and after the stack exists. *)
Theorem AllocPhys_correct s free :
  phys_inv s free → phys_lock s = false →
  (free = ∅ ∧ AllocPhys s = Panicked PANIC_OUT_OF_PHYS) ∨
  ∃ page s', AllocPhys s = Done (page * ARCH_PAGE_SIZE, s') ∧ page ∈ free ∧
    phys_inv s' (free ∖ {[page]}) ∧ phys_lock s' = false ∧ total_pages s' = total_pages s.
Proof.
  intros Hi Hl. destruct (decide (free = ∅)) as [->|Hne]; [left|right].
  - split; [done|]. unfold AllocPhys. rewrite (M_bind_done _ _ _ _ _ (acquire_run _ Hl)).
    rewrite (M_bind_done _ _ _ _ _ (eq_refl (get _))), decide_True; [done|].
    pose proof (pi_count _ _ _ Hi) as Hc. by rewrite size_empty in Hc.
  - pose proof (size_pos _ Hne).
    destruct (AllocPhys_run s free (size free)) as (i & s' & E & Hin & Hi' & Hl' & Ht & _); [done..|lia|].
    exists i, s'. split_and!; try done. by rewrite size_remove.
Qed.

(** Freeing a page that was handed out returns it to the free set and to
    the count; freeing a page that is already free stops the kernel at the
    assertion, as does an address that is not page aligned. *)
Theorem DeallocPhys_correct s free page :
  phys_inv s free → phys_lock s = false → 0 ≤ page ≤ highest_page_index s →
  ((page ∉ free) ∧ ∃ s', DeallocPhys (page * ARCH_PAGE_SIZE) s = Done (tt, s') ∧
     phys_inv s' ({[page]} ∪ free) ∧ phys_lock s' = false) ∨
  (page ∈ free ∧ ∀ off, 0 ≤ off < ARCH_PAGE_SIZE →
     DeallocPhys (page * ARCH_PAGE_SIZE + off) s = Panicked PANIC_ASSERTION_FAILURE).
Proof.
  intros Hi Hl Hp. destruct (decide (page ∈ free)) as [Hin|Hnin]; [right|left]; (split; [done|]).
  - intros off Hoff. unfold DeallocPhys. pose proof (pi_highest _ _ _ Hi).
    destruct (decide (off = 0)) as [->|Hne].
    + rewrite Z.add_0_r, bool_decide_true by (by rewrite Z.mod_mul).
      rewrite Z.div_mul by done. erewrite M_bind_done by done.
      erewrite M_bind_done by (by apply acquire_run). erewrite M_bind_done by done.
      apply M_bind_panic. unfold DeallocateBitmapEntry.
      rewrite (M_bind_done _ _ _ _ _ (IsBitmapEntryFree_run _ page ltac:(lia))).
      cbn [set_counts set_lock allocation_bitmap]. rewrite (pi_bitmap _ _ _ Hi).
      by rewrite bool_decide_true.
    + apply M_bind_panic. rewrite bool_decide_false; [done|].
      rewrite Z.add_comm, Z.mod_add, Z.mod_small by done. done.
  - destruct (DeallocPhys_run s free (size free) page) as (s' & E & Hi' & Hl' & _); try done.
    exists s'. split_and!; try done. by rewrite size_add.
Qed.

Fixpoint alloc_many (n : nat) : M phys (list Z) :=
  match n with
  | O => mret []
  | S n => a ← AllocPhys; rest ← alloc_many n; mret (a :: rest)
  end.

(** As long as pages remain, successive allocations never hand out the
    same page twice, and every page handed out was free at the start. *)
Theorem AllocPhys_never_twice s free n :
  phys_inv s free → phys_lock s = false → (n ≤ size free)%nat →
  ∃ pages s', alloc_many n s = Done ((λ p, p * ARCH_PAGE_SIZE) <$> pages, s') ∧
    length pages = n ∧ NoDup pages ∧ list_to_set pages ⊆ free ∧
    phys_inv s' (free ∖ list_to_set pages).
Proof.
  revert s free. induction n as [|n IH]; intros s free Hi Hl Hn.
  { exists [], s. split_and!; try done; try apply NoDup_nil_2; try set_solver.
    simpl list_to_set. by rewrite difference_empty_L. }
  assert (free ≠ ∅) as Hne by (intros ->; rewrite size_empty in Hn; lia).
  destruct (AllocPhys_run s free (size free)) as (i & s1 & E & Hin & Hi1 & Hl1 & _); [done..|lia|].
  rewrite <- (size_remove free i Hin) in Hi1. pose proof (size_remove free i Hin).
  destruct (IH s1 (free ∖ {[i]})) as (ps & s' & E' & Hlen & Hnd & Hsub & Hi'); [done..|lia|].
  exists (i :: ps), s'. split_and!.
  - simpl. rewrite (M_bind_done _ _ _ _ _ E), (M_bind_done _ _ _ _ _ E'). done.
  - simpl. lia.
  - apply NoDup_cons. split; [|done]. set_solver.
  - set_solver.
  - simpl list_to_set. by rewrite <- difference_difference_l_L.
Qed.

(** ** Boot *)

Definition range_pages (r : boot_memory_entry) : list Z :=
  let first_page := u32 (u64 (address r + ARCH_PAGE_SIZE - 1) / ARCH_PAGE_SIZE) in
  let last_page := u32 (u64 (address r + length_ r) / ARCH_PAGE_SIZE) in
  seqZ first_page (Z.min last_page MAX_MEMORY_PAGES - first_page).

Definition max_page (h : Z) (l : list Z) : Z := foldl (λ h p, if decide (h < p) then p else h) h l.

Lemma max_page_ge l : ∀ h, h ≤ max_page h l ∧ ∀ p, p ∈ l → p ≤ max_page h l.
Proof.
  induction l as [|q l IH]; intros h; simpl; [split; [lia|set_solver]|].
  destruct (IH (if decide (h < q) then q else h)) as [H1 H2]. split.
  - case_decide; lia.
  - intros p [->|Hp]%elem_of_cons; [case_decide; lia|by apply H2].
Qed.
Lemma max_page_lt l b : ∀ h, h < b → (∀ p, p ∈ l → p < b) → max_page h l < b.
Proof.
  induction l as [|q l IH]; intros h Hh Hl; simpl; [done|]. apply IH.
  - case_decide; [apply Hl; set_solver|done].
  - intros p Hp. apply Hl. set_solver.
Qed.

(** Mark the pages of [l] free, one after the other. *)
Fixpoint mark_free (l : list Z) (s : phys) : phys :=
  match l with
  | [] => s
  | p :: l => mark_free l
      (set_counts (pages_left s + 1) (total_pages s + 1)
         (if decide (highest_page_index s < p) then p else highest_page_index s)
         (set_bitmap (bm_set BITS_PER_ENTRY (allocation_bitmap s) p) s))
  end.

Lemma mark_free_app l1 l2 s : mark_free (l1 ++ l2) s = mark_free l2 (mark_free l1 s).
Proof. revert s. induction l1 as [|p l1 IH]; intros s; simpl; [done|apply IH]. Qed.

Lemma mark_free_spec l : ∀ s (free : gset Z),
  (∀ i, is_free s i = bool_decide (i ∈ free)) →
  (∀ i, is_free (mark_free l s) i = bool_decide (i ∈ free ∪ list_to_set l)) ∧
  pages_left (mark_free l s) = pages_left s + length l ∧
  total_pages (mark_free l s) = total_pages s + length l ∧
  highest_page_index (mark_free l s) = max_page (highest_page_index s) l ∧
  allocation_stack (mark_free l s) = allocation_stack s ∧ phys_lock (mark_free l s) = phys_lock s.
Proof.
  induction l as [|p l IH]; intros s free Hf; cbn [mark_free length list_to_set max_page foldl].
  { split_and!; try done; try lia. intros i. rewrite Hf. apply bool_decide_ext. set_solver. }
  destruct (IH (set_counts (pages_left s + 1) (total_pages s + 1)
         (if decide (highest_page_index s < p) then p else highest_page_index s)
         (set_bitmap (bm_set BITS_PER_ENTRY (allocation_bitmap s) p) s)) ({[p]} ∪ free))
    as (H1 & H2 & H3 & H4 & H5 & H6).
  { intros i. apply inv_set_bit, Hf. }
  split_and!; try done; try (rewrite ?H2, ?H3; simpl; lia).
  intros i. rewrite H1. apply bool_decide_ext. set_solver.
Qed.

Lemma InitPhys_pages_run (n : nat) : ∀ s p,
  0 ≤ p → p + n ≤ MAX_MEMORY_PAGES → (∀ i, p ≤ i < p + n → is_free s i = false) →
  InitPhys_pages n p s = Done (tt, mark_free (seqZ p n) s).
Proof.
  induction n as [|n IH]; intros s p Hp Hm Hf; [done|].
  cbn [InitPhys_pages]. rewrite seqZ_cons by lia. cbn [mark_free].
  rewrite (M_bind_done _ _ _ _ _ (DeallocateBitmapEntry_run s p ltac:(lia) (Hf p ltac:(lia)))).
  rewrite (M_bind_done _ _ _ _ _ (eq_refl (modify _ _))). rewrite IH.
  - replace (Z.pred (S n)) with (Z.of_nat n) by lia. done.
  - lia.
  - lia.
  - intros i Hi. cbn [set_counts set_bitmap allocation_bitmap].
    rewrite (bm_test_set _ bits_pos), bool_decide_false by lia. apply Hf. lia.
Qed.

Lemma range_pages_bounds r p : p ∈ range_pages r → 0 ≤ p < MAX_MEMORY_PAGES.
Proof.
  unfold range_pages. set (f := u32 (u64 (address r + _ - 1) / _)). intros H%elem_of_seqZ.
  pose proof (u32_range (u64 (address r + ARCH_PAGE_SIZE - 1) / ARCH_PAGE_SIZE)) as Hr.
  fold f in Hr. unfold is_u32 in Hr. lia.
Qed.

Lemma InitPhys_range_run r s :
  (∀ i, i ∈ range_pages r → is_free s i = false) →
  InitPhys_range r s = Done (tt, mark_free (range_pages r) s).
Proof.
  intros Hf. unfold InitPhys_range, range_pages in *.
  set (f := u32 (u64 (address r + _ - 1) / _)) in *. set (l := u32 (u64 (address r + length_ r) / _)) in *.
  assert (0 ≤ f) by apply u32_range.
  destruct (decide (Z.min l MAX_MEMORY_PAGES - f ≤ 0)) as [Hneg|Hpos].
  - replace (Z.to_nat (Z.min l MAX_MEMORY_PAGES - f)) with 0%nat by lia.
    replace (seqZ f (Z.min l MAX_MEMORY_PAGES - f)) with ([] : list Z); [done|].
    symmetry. by apply seqZ_nil.
  - rewrite InitPhys_pages_run; try lia; [by rewrite Z2Nat.id by lia|].
    intros i Hi. apply Hf, elem_of_seqZ. lia.
Qed.

Lemma InitPhys_ranges_run ranges : ∀ s (free : gset Z),
  (∀ i, is_free s i = bool_decide (i ∈ free)) →
  NoDup (ranges ≫= range_pages) → (∀ p, p ∈ ranges ≫= range_pages → p ∉ free) →
  InitPhys_ranges ranges s = Done (tt, mark_free (ranges ≫= range_pages) s).
Proof.
  induction ranges as [|r ranges IH]; intros s free Hf Hnd Hd; [done|].
  cbn [InitPhys_ranges]. change ((r :: ranges) ≫= range_pages)
    with (range_pages r ++ (ranges ≫= range_pages)) in *.
  apply NoDup_app in Hnd as (Hnd1 & Hx & Hnd2).
  rewrite (M_bind_done _ _ _ _ _ (InitPhys_range_run r s ltac:(
    intros i Hi; rewrite Hf; apply bool_decide_false, Hd; set_solver))).
  rewrite mark_free_app. destruct (mark_free_spec (range_pages r) s free Hf) as (Hf' & _).
  apply (IH _ (free ∪ list_to_set (range_pages r))); [done|done|].
  intros p Hp. specialize (Hd p). specialize (Hx p). set_solver.
Qed.

Lemma boot_none_free (free : gset Z) :
  free = ∅ → ∀ i, is_free phys_boot i = bool_decide (i ∈ free).
Proof.
  intros -> i. cbn [phys_boot allocation_bitmap]. rewrite bm_test_empty.
  symmetry. apply bool_decide_false. set_solver.
Qed.

Lemma mark_free_inv l :
  NoDup l → (∀ p, p ∈ l → 0 ≤ p < MAX_MEMORY_PAGES) →
  phys_inv (mark_free l phys_boot) (list_to_set l : gset Z).
Proof.
  intros Hnd Hb. pose proof (boot_none_free ∅ eq_refl) as H0.
  destruct (mark_free_spec l phys_boot ∅ H0) as (H1 & H2 & H3 & H4 & H5 & H6).
  pose proof (max_page_ge l 0) as [Hm0 Hmg]. pose proof max_pages_pos.
  pose proof (max_page_lt l MAX_MEMORY_PAGES 0) as Hlt.
  split; rewrite ?H4; cbn [phys_boot highest_page_index].
  - intros i. rewrite H1. apply bool_decide_ext. set_solver.
  - intros i Hi. apply elem_of_list_to_set in Hi. specialize (Hb i Hi). specialize (Hmg i Hi). lia.
  - split; [done|]. apply Hlt; [done|]. intros p Hp. apply Hb. done.
  - rewrite H2, size_list_to_set by done. cbn [phys_boot pages_left]. lia.
  - by rewrite H5.
Qed.

(** [InitPhys] on a memory map whose page ranges do not overlap makes
    exactly the pages of the map free: start addresses are rounded up, end
    addresses down, pages above 4 GiB are dropped; the free and total counts
    are the number of those pages and the manager is well formed. *)
Theorem InitPhys_correct ranges :
  NoDup (ranges ≫= range_pages) →
  ∃ s, InitPhys ranges phys_boot = Done (tt, s) ∧
    phys_inv s (list_to_set (ranges ≫= range_pages) : gset Z) ∧
    total_pages s = length (ranges ≫= range_pages) ∧
    allocation_stack s = None ∧ phys_lock s = false.
Proof.
  intros Hnd. unfold InitPhys. rewrite (M_bind_done _ _ _ _ _ (eq_refl (modify _ _))).
  change (set_lock false phys_boot) with phys_boot.
  pose proof (boot_none_free ∅ eq_refl) as H0.
  rewrite (InitPhys_ranges_run ranges phys_boot ∅ H0 Hnd) by set_solver.
  assert (∀ p, p ∈ ranges ≫= range_pages → 0 ≤ p < MAX_MEMORY_PAGES) as Hb.
  { intros p (r & Hp & Hr)%list_elem_of_bind. by apply (range_pages_bounds r). }
  destruct (mark_free_spec (ranges ≫= range_pages) phys_boot ∅ H0) as (H1 & H2 & H3 & H4 & H5 & H6).
  eexists. split; [done|]. split_and!; [|by rewrite H3|by rewrite H5|by rewrite H6].
  by apply mark_free_inv.
Qed.

(** ** The stack is built from the bitmap *)

Lemma PushIndex_run s st index :
  allocation_stack s = Some st → index ≤ highest_page_index s →
  0 ≤ allocation_stack_pointer s < length st →
  PushIndex index s
  = Done (tt, set_stack (Some (<[Z.to_nat (allocation_stack_pointer s) := index]> st))
                (allocation_stack_pointer s + 1) s).
Proof.
  intros Hst Hi Hsp. unfold PushIndex. mred. rewrite bool_decide_true by done. mred.
  rewrite Hst. mred. unfold aset. by rewrite decide_True.
Qed.

Lemma take_push (st : list Z) sp x :
  0 ≤ sp < length st →
  take (Z.to_nat (sp + 1)) (<[Z.to_nat sp := x]> st) = take (Z.to_nat sp) st ++ [x].
Proof.
  intros H. rewrite Z2Nat.inj_add, Nat.add_1_r by lia.
  rewrite (take_S_r _ _ x) by (apply list_lookup_insert_eq; lia). by rewrite take_insert_ge.
Qed.

(** While the bitmap is scanned the stack holds, in order, the free pages
    already passed; there are never more than [i] of them. *)
Lemma PushFree_loop_run (free : gset Z) (n : nat) : ∀ s st i,
  allocation_stack s = Some st → 0 ≤ i → i + n = MAX_MEMORY_PAGES →
  (∀ j, is_free s j = bool_decide (j ∈ free)) →
  (∀ j, j ∈ free → 0 ≤ j ≤ highest_page_index s) →
  highest_page_index s < length st → 0 ≤ allocation_stack_pointer s ≤ i →
  allocation_stack_pointer s ≤ length st →
  take (Z.to_nat (allocation_stack_pointer s)) st = filter (λ j, j ∈ free) (seqZ 0 i) →
  ∃ s' st', PushFree_loop n i s = Done (tt, s') ∧ allocation_stack s' = Some st' ∧
    length st' = length st ∧ 0 ≤ allocation_stack_pointer s' ≤ length st ∧
    take (Z.to_nat (allocation_stack_pointer s')) st' = filter (λ j, j ∈ free) (seqZ 0 MAX_MEMORY_PAGES) ∧
    allocation_bitmap s' = allocation_bitmap s ∧ pages_left s' = pages_left s ∧
    total_pages s' = total_pages s ∧ highest_page_index s' = highest_page_index s ∧
    phys_lock s' = phys_lock s.
Proof.
  induction n as [|n IH]; intros s st i Hst Hi0 Hin Hbm Hrg Hlen Hsp Hle Htk.
  { exists s, st. replace MAX_MEMORY_PAGES with i by lia. split_and!; try done; lia. }
  cbn [PushFree_loop].
  rewrite (M_bind_done _ _ _ _ _ (IsBitmapEntryFree_run s i ltac:(lia))), Hbm.
  assert (seqZ 0 (i + 1) = seqZ 0 i ++ [i]) as Eseq.
  { rewrite seqZ_app by lia. by rewrite Z.add_0_l. }
  case_bool_decide as Hfree.
  - specialize (Hrg i Hfree) as Hri.
    rewrite (M_bind_done _ _ _ _ _ (PushIndex_run s st i Hst ltac:(lia) ltac:(lia))).
    set (s1 := set_stack _ _ _).
    destruct (IH s1 (<[Z.to_nat (allocation_stack_pointer s) := i]> st) (i + 1))
      as (s' & st' & H); try done; try lia.
    + cbn -[take Z.to_nat]. by rewrite length_insert.
    + cbn -[take Z.to_nat]. lia.
    + cbn -[take Z.to_nat]. rewrite length_insert. lia.
    + cbn -[take Z.to_nat]. rewrite take_push, Htk, Eseq, filter_app by lia. f_equal.
      by rewrite filter_cons_True.
    + exists s', st'. rewrite length_insert in H. exact H.
  - rewrite (M_bind_done _ _ s tt s) by done.
    destruct (IH s st (i + 1)) as (s' & st' & H); try done; try lia.
    + rewrite Htk, Eseq, filter_app, filter_cons_False, filter_nil, app_nil_r by done. done.
    + by exists s', st'.
Qed.

Lemma build_stack s free mapped :
  phys_inv s free → allocation_stack s = None → allocation_stack_pointer s = 0 →
  highest_page_index s < length mapped →
  ∃ s', PushFree_loop (Z.to_nat MAX_MEMORY_PAGES) 0 (set_stack (Some mapped) 0 s) = Done (tt, s') ∧
    phys_inv s' free ∧ allocation_stack s' ≠ None ∧ phys_lock s' = phys_lock s ∧
    total_pages s' = total_pages s ∧ highest_page_index s' = highest_page_index s.
Proof.
  intros Hi Hst Hsp Hlen. pose proof max_pages_pos as HM.
  destruct (PushFree_loop_run free (Z.to_nat MAX_MEMORY_PAGES) (set_stack (Some mapped) 0 s) mapped 0)
    as (s' & st' & E & Hst' & Hl' & Hsp' & Htk & Hbm & Hpl & Ht & Hh & Hlk);
    cbn [set_stack allocation_stack_pointer highest_page_index allocation_bitmap allocation_stack];
    [reflexivity|lia|lia|apply Hi|apply Hi|exact Hlen|lia|lia|reflexivity|].
  exists s'. split; [exact E|]. clear E. split_and!; [|congruence|done..]. split.
  - rewrite Hbm. apply Hi.
  - rewrite Hh. apply Hi.
  - rewrite Hh. apply Hi.
  - rewrite Hpl. apply Hi.
  - rewrite Hst'. intros ? [= <-]. rewrite Htk, Hh, Hl'. cbn [set_stack highest_page_index].
    split_and!; try done; try lia.
    + apply NoDup_filter, NoDup_seqZ.
    + intros i. rewrite list_elem_of_filter, elem_of_seqZ. split; [by intros []|].
      intros Hin. split; [done|]. pose proof (pi_range _ _ _ Hi i Hin). pose proof (pi_highest _ _ _ Hi). lia.
Qed.

(** The virtual pages of the bitmap that [ReclaimBitmapSpace] gives back. *)
Definition reclaim_count (s : phys) : nat :=
  Z.to_nat ((MAX_MEMORY_PAGES - (highest_page_index s + 1)) / BITS_PER_ENTRY / ARCH_PAGE_SIZE).
Definition reclaim_start (bitmap_address : Z) (s : phys) : Z :=
  Z.land (bitmap_address + BITMAP_ENTRIES * 4
            - ARCH_PAGE_SIZE * ((MAX_MEMORY_PAGES - (highest_page_index s + 1)) / BITS_PER_ENTRY / ARCH_PAGE_SIZE))
    (Z.lnot (ARCH_PAGE_SIZE - 1)).
Fixpoint region_pages (n : nat) (region : Z) : list Z :=
  match n with O => [] | S n => region :: region_pages n (region + ARCH_PAGE_SIZE) end.

Lemma ReclaimBitmapSpace_loop_run v2p n : ∀ s free region pages,
  phys_inv s free → phys_lock s = false →
  v2p <$> region_pages n region = (λ p, p * ARCH_PAGE_SIZE) <$> pages →
  NoDup pages → (∀ p, p ∈ pages → (p ∉ free) ∧ 0 ≤ p ≤ highest_page_index s) →
  allocation_stack s ≠ None →
  ∃ s', ReclaimBitmapSpace_loop v2p n region s = Done (tt, s') ∧
    phys_inv s' (free ∪ list_to_set pages) ∧ phys_lock s' = false ∧
    total_pages s' = total_pages s + length pages ∧ allocation_stack s' ≠ None.
Proof.
  induction n as [|n IH]; intros s free region pages Hi Hl Hv Hnd Hp Hns.
  { destruct pages; [|done]. exists s. simpl list_to_set. rewrite union_empty_r_L.
    split_and!; try done. simpl. lia. }
  destruct pages as [|p pages]; [done|]. cbn [region_pages] in Hv. rewrite !fmap_cons in Hv.
  injection Hv as Hv1 Hv2. apply NoDup_cons in Hnd as [Hpn Hnd].
  destruct (Hp p) as [Hpf Hpr]; [set_solver|].
  destruct (DeallocPhys_run s free (size free) p) as (s1 & E & Hi1 & Hl1 & Ht1 & Hh1 & Hs1); try done.
  cbn [ReclaimBitmapSpace_loop]. rewrite Hv1, (M_bind_done _ _ _ _ _ E).
  rewrite (M_bind_done _ _ _ _ _ (eq_refl (modify _ _))). rewrite <- (size_add free p Hpf) in Hi1.
  destruct (IH (set_counts (pages_left s1) (total_pages s1 + 1) (highest_page_index s1) s1)
              ({[p]} ∪ free) (region + ARCH_PAGE_SIZE) pages) as (s' & E' & Hi' & Hl' & Ht' & Hs'); try done.
  - by apply (inv_frame s1).
  - intros q Hq. destruct (Hp q) as [Hqf Hqr]; [set_solver|]. cbn [set_counts highest_page_index].
    rewrite Hh1. set_solver.
  - cbn [set_counts allocation_stack]. by rewrite <- Hs1.
  - exists s'. split_and!; try done.
    + by replace (free ∪ list_to_set (p :: pages)) with ({[p]} ∪ free ∪ list_to_set pages) by set_solver.
    + rewrite Ht'. cbn [set_counts total_pages length]. lia.
Qed.

(** [ReinitPhys] builds the constant-time allocator: given the zeroed
    memory for the stack and a bitmap whose unreachable pages are mapped to
    distinct allocated frames, the stack afterwards lists exactly the free
    pages, the reclaimed bitmap frames are free and counted, and the manager
    is well formed. *)
Theorem ReinitPhys_correct s free bitmap_address v2p mapped reclaimed :
  phys_inv s free → phys_lock s = false →
  allocation_stack s = None → allocation_stack_pointer s = 0 →
  highest_page_index s < length mapped →
  v2p <$> region_pages (reclaim_count s) (reclaim_start bitmap_address s)
    = (λ p, p * ARCH_PAGE_SIZE) <$> reclaimed →
  NoDup reclaimed → (∀ p, p ∈ reclaimed → (p ∉ free) ∧ 0 ≤ p ≤ highest_page_index s) →
  ∃ s', ReinitPhys bitmap_address v2p mapped s = Done (tt, s') ∧
    phys_inv s' (free ∪ list_to_set reclaimed) ∧ phys_lock s' = false ∧
    total_pages s' = total_pages s + length reclaimed ∧ allocation_stack s' ≠ None.
Proof.
  intros Hi Hl Hst Hsp Hlen Hv Hnd Hp. unfold ReinitPhys.
  rewrite (M_bind_done _ _ _ _ _ (eq_refl (get _))). rewrite bool_decide_true by exact Hst.
  rewrite (M_bind_done _ _ s tt s) by reflexivity.
  rewrite (M_bind_done _ _ _ _ _ (eq_refl (modify _ _))). rewrite Hsp.
  destruct (build_stack s free mapped Hi Hst Hsp Hlen) as (s1 & E & Hi1 & Hs1 & Hl1 & Ht1 & Hh1).
  rewrite (M_bind_done _ _ _ _ _ E). unfold ReclaimBitmapSpace.
  rewrite (M_bind_done _ _ _ _ _ (eq_refl (get _))). rewrite Hh1.
  destruct (ReclaimBitmapSpace_loop_run v2p (reclaim_count s) s1 free
              (reclaim_start bitmap_address s) reclaimed) as (s' & E' & Hi' & Hl' & Ht' & Hs');
    [done|by rewrite Hl1|done|done| |done|].
  { intros p Hin. rewrite Hh1. by apply Hp. }
  exists s'. split; [exact E'|]. split_and!; [done|done|by rewrite Ht', Ht1|done].
Qed.

(** ** Concrete runs *)

(** Pages 1 to 40 free, before and after the stack exists. *)
Definition sample_pages : list Z := seqZ 1 40.
Definition sample_free : gset Z := list_to_set sample_pages.
Definition sample_boot : phys := mark_free sample_pages phys_boot.
Definition sample : phys := set_stack (Some (sample_pages ++ [0])) 40 sample_boot.

Lemma sample_boot_inv : phys_inv sample_boot sample_free.
Proof.
  apply mark_free_inv; [apply NoDup_seqZ|]. intros p Hp%elem_of_seqZ. rewrite max_pages_val. lia.
Qed.
Lemma with_stack_inv s n l extra sp :
  phys_invn s (list_to_set l) n → NoDup l → sp = Z.of_nat (length l) →
  highest_page_index s < length (l ++ extra) →
  phys_invn (set_stack (Some (l ++ extra)) sp s) (list_to_set l) n.
Proof.
  intros [H1 H2 H3 H4 _] Hnd -> Hh. split; cbn [set_stack allocation_bitmap highest_page_index
    pages_left allocation_stack allocation_stack_pointer]; [done..|].
  intros st [= <-]. rewrite Nat2Z.id, take_app_length, length_app in *. split_and!; try done; try lia.
  intros i. by rewrite elem_of_list_to_set.
Qed.
Lemma sample_inv : phys_inv sample sample_free.
Proof.
  unfold sample. apply with_stack_inv; [apply sample_boot_inv|apply NoDup_seqZ|reflexivity|].
  vm_compute. reflexivity.
Qed.

(** Pages 41 to 80 free. *)
Definition sample_pages2 : list Z := seqZ 41 40.
Definition sample_free2 : gset Z := list_to_set sample_pages2.
Definition sample_boot2 : phys := mark_free sample_pages2 phys_boot.
Lemma sample_boot2_inv : phys_inv sample_boot2 (sample_free2 : gset Z).
Proof.
  apply mark_free_inv; [apply NoDup_seqZ|]. intros p Hp%elem_of_seqZ. rewrite max_pages_val. lia.
Qed.

Lemma AllocPhys_correct_witness :
  (sample_free = ∅ ∧ AllocPhys sample = Panicked PANIC_OUT_OF_PHYS) ∨
  ∃ page s', AllocPhys sample = Done (page * ARCH_PAGE_SIZE, s') ∧ page ∈ sample_free ∧
    phys_inv s' (sample_free ∖ {[page]}) ∧ phys_lock s' = false ∧
    total_pages s' = total_pages sample.
Proof. apply (AllocPhys_correct sample sample_free); [apply sample_inv|reflexivity]. Defined.

Lemma DeallocPhys_correct_witness :
  ((0 ∉ sample_free) ∧ ∃ s', DeallocPhys (0 * ARCH_PAGE_SIZE) sample = Done (tt, s') ∧
     phys_inv s' ({[0]} ∪ sample_free) ∧ phys_lock s' = false) ∨
  (0 ∈ sample_free ∧ ∀ off, 0 ≤ off < ARCH_PAGE_SIZE →
     DeallocPhys (0 * ARCH_PAGE_SIZE + off) sample = Panicked PANIC_ASSERTION_FAILURE).
Proof.
  apply (DeallocPhys_correct sample sample_free 0);
    [apply sample_inv|reflexivity|split; vm_compute; discriminate].
Defined.

Lemma AllocPhys_never_twice_witness :
  ∃ pages s', alloc_many 2 sample = Done ((λ p, p * ARCH_PAGE_SIZE) <$> pages, s') ∧
    length pages = 2%nat ∧ NoDup pages ∧ list_to_set pages ⊆ sample_free ∧
    phys_inv s' (sample_free ∖ list_to_set pages).
Proof.
  apply (AllocPhys_never_twice sample sample_free 2);
    [apply sample_inv|reflexivity|apply Nat.leb_le; vm_compute; reflexivity].
Defined.

(** The run taken is pages 1 and 2; the address returned is that of page 3. *)
Lemma AllocPhysContiguous_takes_run_witness :
  outcome_bind (λ '(a, _), Done a) (AllocPhysContiguous 8192 0 0 0 sample) = Done (3 * ARCH_PAGE_SIZE) ∧
  contiguous_result sample sample_free (size sample_free)
    (BytesToPages 8192) 0 (u32 (0 + ARCH_PAGE_SIZE - 1) / ARCH_PAGE_SIZE)
    (Z.max (u32 (0 + ARCH_PAGE_SIZE - 1) / ARCH_PAGE_SIZE)
      (if decide (0 = 0) then highest_page_index sample + 1 else 0 / ARCH_PAGE_SIZE))
    (AllocPhysContiguous 8192 0 0 0 sample).
Proof.
  split; [vm_compute; reflexivity|].
  apply (AllocPhysContiguous_takes_run sample sample_free 8192 0 0 0);
    [apply sample_inv|reflexivity|discriminate|by left|split; [done|reflexivity]..].
Defined.

(** 64 KiB at 1 MiB and a page-unaligned range above it. *)
Definition sample_map : list boot_memory_entry := [Range 1048576 65536; Range 2097153 8192].
Lemma InitPhys_correct_witness :
  sample_map ≫= range_pages = seqZ 256 16 ++ [513] ∧
  ∃ s, InitPhys sample_map phys_boot = Done (tt, s) ∧
    phys_inv s (list_to_set (sample_map ≫= range_pages) : gset Z) ∧
    total_pages s = length (sample_map ≫= range_pages) ∧
    allocation_stack s = None ∧ phys_lock s = false.
Proof.
  assert (sample_map ≫= range_pages = seqZ 256 16 ++ [513]) as E by (vm_compute; reflexivity).
  split; [exact E|]. apply (InitPhys_correct sample_map). rewrite E.
  apply NoDup_app. split_and!; [apply NoDup_seqZ| |apply NoDup_singleton].
  intros x Hx%elem_of_seqZ ->%list_elem_of_singleton. lia.
Defined.

(** With 40 pages of memory seven pages of the bitmap can be given back. *)
Definition sample_v2p (v : Z) : Z := v - 1073741824.
Lemma ReinitPhys_correct_witness :
  reclaim_count sample_boot2 = 7%nat ∧
  ∃ s', ReinitPhys 1073741824 sample_v2p (replicate 100 0) sample_boot2 = Done (tt, s') ∧
    phys_inv s' (sample_free2 ∪ list_to_set (seqZ 25 7)) ∧ phys_lock s' = false ∧
    total_pages s' = total_pages sample_boot2 + length (seqZ 25 7) ∧ allocation_stack s' ≠ None.
Proof.
  split; [vm_compute; reflexivity|].
  apply (ReinitPhys_correct sample_boot2 (sample_free2) 1073741824 sample_v2p
           (replicate 100 0) (seqZ 25 7));
    [apply sample_boot2_inv|reflexivity|reflexivity|reflexivity|reflexivity
    |vm_compute; reflexivity|apply NoDup_seqZ|].
  intros p Hp%elem_of_seqZ. change (highest_page_index sample_boot2) with 80.
  unfold sample_free2, sample_pages2. rewrite elem_of_list_to_set. rewrite elem_of_seqZ. lia.
Defined.
