(* ===== verification/Swapfile.v ===== *)
(** * mem/swapfile.c: slots of the swap partition

    A bitmap with one bit per page-sized slot; a set bit is a slot in use. *)

From S2P Require Import Prelude Bitmap Physical.

Record swapstate := Swap {
  swapfile : option Z;                    (* the open file, None: NULL *)
  swapfile_lock : bool;
  swapfile_bitmap : gmap Z Z;             (* bytes, mapped zeroed *)
  number_on_swapfile : Z;
  bits_in_bitmap : Z;
}.

Definition swap_boot : swapstate := Swap None false ∅ 0 0.

Definition swap_acquire : M swapstate unit :=
  s ← get;
  if swapfile_lock s then panic PANIC_SPINLOCK_DOUBLE_ACQUISITION
  else put (Swap (swapfile s) true (swapfile_bitmap s) (number_on_swapfile s) (bits_in_bitmap s)).
Definition swap_release : M swapstate unit :=
  s ← get;
  if swapfile_lock s
  then put (Swap (swapfile s) false (swapfile_bitmap s) (number_on_swapfile s) (bits_in_bitmap s))
  else panic PANIC_SPINLOCK_RELEASED_BEFORE_ACQUIRED.

(** [target_size] is a 32-bit size_t, the quotient is taken at 64 bits. *)
Definition GetPageCountForBitmap (total_kilobytes : Z) : Z :=
  let accessible_per_page := 8 * ARCH_PAGE_SIZE * ARCH_PAGE_SIZE in
  let target_size := u32 ((total_kilobytes * 4 + 32 * 1024) * 1024) in
  u64 (target_size + accessible_per_page - 1) / accessible_per_page.

Definition SetupSwapfileBitmap (total_kilobytes : Z) : M swapstate unit :=
  s ← get;
  let pages_in_bitmap := GetPageCountForBitmap total_kilobytes in
  put (Swap (swapfile s) (swapfile_lock s) ∅ (number_on_swapfile s)
         (8 * pages_in_bitmap * ARCH_PAGE_SIZE)).

(** [opened]: what [OpenFile("swap:/")] answered. *)
Definition InitSwapfile (opened : Z + Z) (total_kilobytes : Z) : M swapstate unit :=
  match opened with
  | inl _ => panic PANIC_NO_FILESYSTEM
  | inr file =>
    modify (λ s, Swap (Some file) false (swapfile_bitmap s) (number_on_swapfile s) (bits_in_bitmap s));;
    SetupSwapfileBitmap total_kilobytes
  end.

Definition GetSwapfile : M swapstate (option Z) := gets swapfile.

(** The mapping holds [bits_in_bitmap / 8] bytes. *)
Definition GetBitmapEntry (index : Z) : M swapstate bool :=
  s ← get;
  if decide (0 ≤ index / 8 < bits_in_bitmap s / 8)
  then mret (bm_test 8 (swapfile_bitmap s) index) else fault.

Definition SetBitmapEntry (index : Z) (value : bool) : M swapstate unit :=
  s ← get;
  if decide (0 ≤ index / 8 < bits_in_bitmap s / 8) then
    put (Swap (swapfile s) (swapfile_lock s)
           (if value then bm_set 8 (swapfile_bitmap s) index else bm_clear 8 (swapfile_bitmap s) index)
           (number_on_swapfile s) (bits_in_bitmap s))
  else fault.

Fixpoint AllocSwap_loop (n : nat) (i : Z) : M swapstate Z :=
  match n with
  | O => panic PANIC_OUT_OF_SWAPFILE
  | S n =>
    used ← GetBitmapEntry i;
    if (used : bool) then AllocSwap_loop n (i + 1) else
    SetBitmapEntry i true;;
    swap_release;;
    mret i
  end.

Definition AllocSwap : M swapstate Z :=
  swap_acquire;;
  modify (λ s, Swap (swapfile s) (swapfile_lock s) (swapfile_bitmap s) (number_on_swapfile s + 1)
                 (bits_in_bitmap s));;
  s ← get;
  AllocSwap_loop (Z.to_nat (bits_in_bitmap s)) 0.

Definition DeallocSwap (index : Z) : M swapstate unit :=
  swap_acquire;;
  modify (λ s, Swap (swapfile s) (swapfile_lock s) (swapfile_bitmap s) (number_on_swapfile s - 1)
                 (bits_in_bitmap s));;
  SetBitmapEntry (u32 index) false;;
  swap_release.

Definition GetSwapCount : M swapstate Z :=
  swap_acquire;; val ← gets number_on_swapfile; swap_release;; mret val.

(** ** Invariant: the used slots, and the count of them *)
Record swap_inv (s : swapstate) (used : gset Z) : Prop := {
  si_bitmap : ∀ i, bm_test 8 (swapfile_bitmap s) i = bool_decide (i ∈ used);
  si_range : ∀ i, i ∈ used → 0 ≤ i < bits_in_bitmap s;
  si_bits : 0 ≤ bits_in_bitmap s < 2 ^ 32;
  si_bytes : bits_in_bitmap s `mod` 8 = 0;
  si_count : number_on_swapfile s = size used;
  si_lock : swapfile_lock s = false;
}.

Lemma swap_in_map s i :
  bits_in_bitmap s `mod` 8 = 0 → 0 ≤ i < bits_in_bitmap s → 0 ≤ i / 8 < bits_in_bitmap s / 8.
Proof.
  intros Hm Hi. split; [apply Z.div_pos; lia|]. apply Z.div_lt_upper_bound; [lia|].
  rewrite <- (Z.div_exact (bits_in_bitmap s) 8) in Hm by lia. lia.
Qed.

Lemma AllocSwap_loop_run (used : gset Z) (n : nat) : ∀ s i,
  (∀ j, bm_test 8 (swapfile_bitmap s) j = bool_decide (j ∈ used)) →
  bits_in_bitmap s `mod` 8 = 0 → 0 ≤ i → i + n = bits_in_bitmap s →
  swapfile_lock s = true → (∀ j, 0 ≤ j < i → j ∈ used) →
  (AllocSwap_loop n i s = Panicked PANIC_OUT_OF_SWAPFILE ∧ ∀ j, 0 ≤ j < bits_in_bitmap s → j ∈ used) ∨
  ∃ r, AllocSwap_loop n i s
       = Done (r, Swap (swapfile s) false (bm_set 8 (swapfile_bitmap s) r) (number_on_swapfile s)
                    (bits_in_bitmap s)) ∧
    0 ≤ r < bits_in_bitmap s ∧ (r ∉ used) ∧ ∀ j, 0 ≤ j < r → j ∈ used.
Proof.
  induction n as [|n IH]; intros s i Hbm Hm Hi Hn Hl Hall; cbn [AllocSwap_loop].
  { left. split; [done|]. intros j Hj. apply Hall. lia. }
  unfold GetBitmapEntry, SetBitmapEntry, swap_release. mred.
  rewrite decide_True by (apply swap_in_map; [done|lia]). mred. rewrite Hbm.
  case_bool_decide as Hu.
  - apply IH; try done; try lia. intros j Hj. destruct (decide (j = i)) as [->|]; [done|apply Hall; lia].
  - right. exists i. mred. rewrite decide_True by (apply swap_in_map; [done|lia]). mred. simpl. rewrite Hl.
    split_and!; try done; lia.
Qed.

(** [AllocSwap] hands out the lowest slot that is not in use, marks it and
    counts it; it panics with OUT_OF_SWAPFILE exactly when every slot of the
    bitmap is in use. *)
Theorem AllocSwap_lowest s used :
  swap_inv s used →
  (AllocSwap s = Panicked PANIC_OUT_OF_SWAPFILE ∧ ∀ j, 0 ≤ j < bits_in_bitmap s → j ∈ used) ∨
  ∃ r s', AllocSwap s = Done (r, s') ∧ swap_inv s' ({[r]} ∪ used) ∧
    0 ≤ r < bits_in_bitmap s ∧ (r ∉ used) ∧ ∀ j, 0 ≤ j < r → j ∈ used.
Proof.
  intros []. unfold AllocSwap, swap_acquire. mred. rewrite si_lock0. mred. cbn [swapfile swapfile_lock
    swapfile_bitmap number_on_swapfile bits_in_bitmap].
  set (s1 := Swap _ _ _ _ _).
  destruct (AllocSwap_loop_run used (Z.to_nat (bits_in_bitmap s)) s1 0)
    as [[E H]|(r & E & Hr & Hn & Hlow)]; try done; simpl; try lia.
  - left. done.
  - right. exists r. eexists. split; [exact E|]. split; [|by split_and!; try apply Hr].
    split; try done; cbn [swapfile swapfile_lock swapfile_bitmap number_on_swapfile bits_in_bitmap s1].
    + intros i. rewrite bm_test_set, si_bitmap0 by lia. repeat case_bool_decide; simpl; set_solver.
    + intros i [->%elem_of_singleton|Hi]%elem_of_union; [done|by apply si_range0].
    + rewrite size_union, size_singleton by set_solver. lia.
Qed.

(** Freeing a slot that is in use makes exactly that slot available again
    and uncounts it. *)
Theorem DeallocSwap_correct s used index :
  swap_inv s used → index ∈ used →
  ∃ s', DeallocSwap index s = Done (tt, s') ∧ swap_inv s' (used ∖ {[index]}) ∧
        GetSwapCount s' = Done (size used - 1, s').
Proof.
  intros [] Hin. pose proof (si_range0 _ Hin).
  unfold DeallocSwap, swap_acquire, SetBitmapEntry, swap_release. mred. rewrite si_lock0. mred.
  rewrite u32_small by (unfold is_u32; lia).
  rewrite decide_True by (apply swap_in_map; [done|done]). mred. simpl. eexists. split; [done|].
  assert (size (used ∖ {[index]}) = size used - 1 :> Z) as Hsz by (by apply size_remove).
  split.
  - split; try done; simpl.
    + intros i. rewrite bm_test_clear, si_bitmap0 by lia. repeat case_bool_decide; simpl; set_solver.
    + intros i Hi. apply si_range0. set_solver.
    + lia.
  - unfold GetSwapCount, swap_acquire, swap_release. mred. simpl. by rewrite si_count0.
Qed.

(** A machine with less than 1016 MiB of memory gets a bitmap that covers
    at least four times its memory plus 32 MiB, rounded up to whole bitmap
    pages; the swap is ready with no slot in use. *)
Theorem InitSwapfile_covers_target file kb :
  0 ≤ kb < 1016 * 1024 →
  ∃ s, InitSwapfile (inr file) kb swap_boot = Done (tt, s) ∧ swap_inv s ∅ ∧
    swapfile s = Some file ∧
    (kb * 4 + 32 * 1024) * 1024 ≤ bits_in_bitmap s * ARCH_PAGE_SIZE
      < (kb * 4 + 32 * 1024) * 1024 + 8 * ARCH_PAGE_SIZE * ARCH_PAGE_SIZE.
Proof.
  intros Hkb. unfold InitSwapfile, SetupSwapfileBitmap, GetPageCountForBitmap, ARCH_PAGE_SIZE. mred.
  eexists. split; [done|]. rewrite u32_small by (unfold is_u32; lia).
  rewrite u64_small by (unfold is_u64; lia).
  change (8 * 4096 * 4096) with 134217728.
  set (t := (kb * 4 + 32 * 1024) * 1024). cbn [swapfile bits_in_bitmap].
  assert (t ≤ 134217728 * ((t + 134217728 - 1) / 134217728) < t + 134217728) as Hq.
  { pose proof (Z.div_mod (t + 134217728 - 1) 134217728 ltac:(lia)).
    pose proof (Z.mod_pos_bound (t + 134217728 - 1) 134217728 ltac:(lia)). lia. }
  split_and!; [|done|lia|lia]. split; cbn [swapfile_bitmap bits_in_bitmap number_on_swapfile swapfile_lock].
  - intros i. rewrite bm_test_empty. symmetry. apply bool_decide_false. set_solver.
  - set_solver.
  - lia.
  - replace (8 * ((t + 134217728 - 1) / 134217728) * 4096)
      with (4096 * ((t + 134217728 - 1) / 134217728) * 8) by lia. by apply Z.mod_mul.
  - done.
  - done.
Qed.

(** With 1016 MiB the 32-bit size wraps to zero and no slot exists. *)
Lemma GetPageCountForBitmap_wraps : GetPageCountForBitmap (1016 * 1024) = 0.
Proof. reflexivity. Qed.

Definition swap_sample : swapstate := Swap (Some 1) false (bm_set 8 ∅ 0) 1 32768.
Lemma swap_sample_inv : swap_inv swap_sample {[0]}.
Proof.
  split; try done; simpl.
  - intros i. rewrite bm_test_set, bm_test_empty, orb_false_r by lia.
    apply bool_decide_ext. set_solver.
  - intros i ->%elem_of_singleton. lia.
Qed.

Lemma AllocSwap_lowest_witness :
  (AllocSwap swap_sample = Panicked PANIC_OUT_OF_SWAPFILE ∧
     ∀ j, 0 ≤ j < bits_in_bitmap swap_sample → j ∈ ({[0]} : gset Z)) ∨
  ∃ r s', AllocSwap swap_sample = Done (r, s') ∧ swap_inv s' ({[r]} ∪ {[0]}) ∧
    0 ≤ r < bits_in_bitmap swap_sample ∧ (r ∉ ({[0]} : gset Z)) ∧ ∀ j, 0 ≤ j < r → j ∈ ({[0]} : gset Z).
Proof. apply (AllocSwap_lowest swap_sample {[0]}). apply swap_sample_inv. Defined.

Lemma DeallocSwap_correct_witness :
  ∃ s', DeallocSwap 0 swap_sample = Done (tt, s') ∧ swap_inv s' ({[0]} ∖ {[0]}) ∧
        GetSwapCount s' = Done (size ({[0]} : gset Z) - 1, s').
Proof. apply (DeallocSwap_correct swap_sample {[0]} 0); [apply swap_sample_inv|set_solver]. Defined.

Lemma InitSwapfile_covers_target_witness :
  ∃ s, InitSwapfile (inr 7) 65536 swap_boot = Done (tt, s) ∧ swap_inv s ∅ ∧
    swapfile s = Some 7 ∧
    (65536 * 4 + 32 * 1024) * 1024 ≤ bits_in_bitmap s * ARCH_PAGE_SIZE
      < (65536 * 4 + 32 * 1024) * 1024 + 8 * ARCH_PAGE_SIZE * ARCH_PAGE_SIZE.
Proof. apply (InitSwapfile_covers_target 7 65536). lia. Defined.
