(* ===== verification/VirtMem.v ===== *)
(** * mem/virtual.c and arch/x86/mem/virtual.c: virtual memory

    A mapping is a [vas_entry]: a run of pages with the same attributes. The
    entries of an address space, and those global to all, are kept in AVL trees
    (the ones of adt/tree.c) ordered by address. The hardware side is the
    two-level page tables of the x86, seen through the recursive mapping of the
    address space whose directory is loaded; memory is accessed through them.

    The locks are flags that panic on misuse; the IRQL is in [Irql]. File
    accesses are parameters; the deferred ones are queued. *)

From S2P Require Import Prelude.
From S2P Require Tree Physical Swapfile.

Abbreviation PAGE := 4096 (only parsing).

(** ** Constants *)
Definition VM_READ := 1.
Definition VM_WRITE := 2.
Definition VM_USER := 4.
Definition VM_EXEC := 8.
Definition VM_LOCK := 16.
Definition VM_FILE := 32.
Definition VM_FIXED_VIRT := 64.
Definition VM_MAP_HARDWARE := 128.
Definition VM_LOCAL := 256.
Definition VM_RECURSIVE := 512.
Definition VM_RELOCATABLE := 1024.
Definition VM_EVICT_FIRST := 2048.
Definition VM_SHARED := 4096.
Definition VM_HARD_IO_FAIL := 8192.
Definition VMUN_ALLOW_NON_EXIST := 1.
Definition ARCH_USER_STACK_LIMIT := 0x10000000.
Definition ARCH_PROG_LOADER_BASE := 0xBFC00000.
Definition ARCH_KRNL_SBRK_BASE := 0xC4000000.
Definition x86_PAGE_PRESENT := 1.
Definition x86_PAGE_WRITE := 2.
Definition x86_PAGE_USER := 4.
Definition x86_PAGE_ACCESSED := 32.
Definition x86_PAGE_DIRTY := 64.
Definition S_IFBLK := 32768.
Definition S_IFREG := 131072.
Definition IFTODT (x : Z) : Z := Z.shiftr x 15.
Definition PREV_SWAP_LIMIT : nat := 32.

Definition has (flags bit : Z) : bool := bool_decide (Z.land flags bit ≠ 0).

(** ** State *)

(** [struct vas_entry]; [swapfile_offset] shares its memory with
    [relocation_base]. *)
Record vas_entry := Entry {
  virtual : Z;
  in_ram : bool; allocated : bool; file : bool; cow : bool; swapfile : bool;
  read : bool; write : bool; exec : bool; user : bool; global : bool;
  allow_temp_write : bool; relocatable : bool; first_load : bool; load_in_progress : bool;
  times_swapped : Z; evict_first : bool; share_on_fork : bool; hard_io_failure : bool;
  lock : bool;
  num_pages : Z;
  file_offset : Z;
  file_node : Z;
  physical : Z;
  swapfile_offset : Z;
  ref_count : Z;
}.
Definition relocation_base (e : vas_entry) : Z := swapfile_offset e.
(** What [AllocHeapZero] returns. *)
Definition entry0 : vas_entry :=
  Entry 0 false false false false false false false false false false false false false false
    0 false false false false 0 0 NULL 0 0 0.

Record vas := Vas { mappings : Tree.tree_node; mappings_size : Z; vas_lock : bool }.
(** The fields of an open file that are used here. *)
Record open_file := File { can_read : bool; can_write : bool; st_mode : Z; reference_count : Z }.
Record defer_disk_access := Access {
  da_file : Z; da_entry : Z; da_offset : Z; da_address : Z; da_write : bool; da_dealloc : bool
}.

(** The bytes of a page that are not zero. *)
Abbreviation page := (gmap Z Z).

Record vm := VM {
  entries : gmap Z vas_entry;
  vases : gmap Z vas;
  global_vas_mappings : Tree.tree_node;
  globals_size : Z;
  global_mappings_lock : bool;
  current_vas : Z;
  kernel_vas : Z;
  virt_initialised : bool;
  local_next : Z;                 (** the static of each branch of [AllocVirtRange] *)
  global_next : Z;
  pm : Physical.phys;
  swap : Swapfile.swapstate;
  files : gmap Z open_file;
  pdir : gmap (Z * Z) Z;          (** page directory entries: the frame of the table, by vas and number *)
  ptab : gmap (Z * Z) Z;          (** page table entries, by frame of the table and number; 0 if absent *)
  cr3 : Z;                        (** the vas whose directory is loaded *)
  ram : gmap Z page;              (** contents by physical address of the page *)
  deferred : list defer_disk_access;
  in_process : bool;              (** [GetProcess() != NULL] *)
  faults : list Z;                (** unhandled faults charged to the process *)
  rand : Z;
  previous_swaps : list Z;
  swap_num : Z;
}.
Abbreviation V := (M vm).

(** ** The components it calls *)
Definition on_phys {A} (m : M Physical.phys A) : V A := λ s,
  '(a, p) ← m (pm s); Done (a, {| s with pm := p |}).
Definition on_swap {A} (m : M Swapfile.swapstate A) : V A := λ s,
  '(a, w) ← m (swap s); Done (a, {| s with swap := w |}).
Definition AllocPhys : V Z := on_phys Physical.AllocPhys.
Definition DeallocPhys (addr : Z) : V unit := on_phys (Physical.DeallocPhys addr).
Definition AllocSwap : V Z := on_swap Swapfile.AllocSwap.
Definition DeallocSwap (index : Z) : V unit := on_swap (Swapfile.DeallocSwap index).
Definition GetSwapfile : V Z := s ← get; mret (default NULL (Swapfile.swapfile (swap s))).

Definition get_entry (p : Z) : V vas_entry := s ← get; deref (entries s !! p).
Definition set_entry (p : Z) (e : vas_entry) : V unit :=
  modify (λ s, {| s with entries := <[p := e]> (entries s) |}).
Definition get_vas (v : Z) : V vas := s ← get; deref (vases s !! v).
Definition set_vas (v : Z) (a : vas) : V unit := modify (λ s, {| s with vases := <[v := a]> (vases s) |}).
Definition get_file (f : Z) : V open_file := s ← get; deref (files s !! f).

Definition AcquireVas (v : Z) : V unit :=
  a ← get_vas v;
  if vas_lock a then panic PANIC_SPINLOCK_DOUBLE_ACQUISITION else set_vas v {| a with vas_lock := true |}.
Definition ReleaseVas (v : Z) : V unit :=
  a ← get_vas v;
  if vas_lock a then set_vas v {| a with vas_lock := false |} else panic PANIC_SPINLOCK_RELEASED_BEFORE_ACQUIRED.
Definition AssertVasLocked (v : Z) : V unit := a ← get_vas v; c_assert (vas_lock a).
Definition AcquireGlobal : V unit :=
  s ← get;
  if global_mappings_lock s then panic PANIC_SPINLOCK_DOUBLE_ACQUISITION
  else put {| s with global_mappings_lock := true |}.
Definition ReleaseGlobal : V unit :=
  s ← get;
  if global_mappings_lock s then put {| s with global_mappings_lock := false |}
  else panic PANIC_SPINLOCK_RELEASED_BEFORE_ACQUIRED.

Definition GetVas : V Z := gets current_vas.
Definition GetKernelVas : V Z := gets kernel_vas.
Definition IsVirtInitialised : V bool := gets virt_initialised.

(** [ReferenceFile]: its lock is taken and released inside. *)
Definition ReferenceFile (f : Z) : V unit :=
  c_assert (bool_decide (f ≠ NULL));;
  x ← get_file f;
  modify (λ s, {| s with files := <[f := {| x with reference_count := reference_count x + 1 |}]> (files s) |}).

(** [UnhandledFault(UNHANDLED_FAULT_SEGV)]: with a process, its thread is
    signalled or marked for termination and the call returns. *)
Definition UnhandledFault (kind : Z) : V unit :=
  s ← get;
  if in_process s then put {| s with faults := faults s ++ [kind] |} else panic PANIC_UNHANDLED_KERNEL_EXCEPTION.
Definition UNHANDLED_FAULT_SEGV := 0.
(** [RaiseSignal(GetThread(), SIGBUS, false)] *)
Definition SIGBUS_FAULT := 10.
Definition RaiseSigbus : V unit := modify (λ s, {| s with faults := faults s ++ [SIGBUS_FAULT] |}).

(** ** Page tables (arch/x86/mem/virtual.c) *)
Definition ArchSetVas (v : Z) : V unit := modify (λ s, {| s with cr3 := v |}).
Definition ArchFlushTlb (v : Z) : V unit := ArchSetVas v.
Definition SetVas (v : Z) : V unit := modify (λ s, {| s with current_vas := v |});; ArchSetVas v.

(** The table [table_num] through the recursive mapping of the loaded directory. *)
Definition table_frame (table_num : Z) : V Z := s ← get; deref (pdir s !! (cr3 s, table_num)).

Definition x86AllocatePageTable (v table_num : Z) : V unit :=
  page_dir_phys ← AllocPhys;
  modify (λ s, {| s with pdir := <[(v, table_num) := page_dir_phys]> (pdir s) |});;
  ArchFlushTlb v;;
  frame ← table_frame table_num;
  modify (λ s, {| s with ptab := filter (λ x : (Z * Z) * Z, x.1.1 ≠ frame) (ptab s) |}).

Definition x86GetPageEntry (v virt : Z) : V (Z * Z) :=
  let table_num := virt / 0x400000 in
  let page_num := virt `mod` 0x400000 / PAGE in
  s ← get;
  (if decide (pdir s !! (v, table_num) = None) then x86AllocatePageTable v table_num else mret tt);;
  frame ← table_frame table_num;
  mret (frame, page_num).

Definition read_pte (at_ : Z * Z) : V Z := s ← get; mret (default 0 (ptab s !! at_)).
Definition write_pte (at_ : Z * Z) (w : Z) : V unit := modify (λ s, {| s with ptab := <[at_ := w]> (ptab s) |}).

Definition x86MapPage (v phys virt flags : Z) : V unit :=
  at_ ← x86GetPageEntry v virt; write_pte at_ (Z.lor phys flags).

Definition pte_flags (e : vas_entry) : Z :=
  Z.lor (Z.lor (if (negb (cow e) && write e) || allow_temp_write e then x86_PAGE_WRITE else 0)
               (if in_ram e then x86_PAGE_PRESENT else 0))
        (if user e then x86_PAGE_USER else 0).

Fixpoint ArchUpdateMapping_loop (n : nat) (i v : Z) (e : vas_entry) (flags : Z) : V unit :=
  match n with
  | O => mret tt
  | S n =>
    x86MapPage v (if decide (physical e = 0) then 0 else u32 (physical e + i * PAGE))
      (u32 (virtual e + i * PAGE)) flags;;
    ArchUpdateMapping_loop n (i + 1) v e flags
  end.
Definition ArchUpdateMapping (v ep : Z) : V unit :=
  e ← get_entry ep;
  if decide (1 < num_pages e) then ArchUpdateMapping_loop (Z.to_nat (num_pages e)) 0 v e (pte_flags e)
  else x86MapPage v (physical e) (virtual e) (pte_flags e).
Definition ArchAddMapping (v ep : Z) : V unit := ArchUpdateMapping v ep.
Definition ArchUnmap (v ep : Z) : V unit := e ← get_entry ep; x86MapPage v 0 (virtual e) 0.

Definition ArchGetPageUsageBits (v ep : Z) : V (bool * bool) :=
  e ← get_entry ep;
  at_ ← x86GetPageEntry v (virtual e);
  w ← read_pte at_;
  mret (has w x86_PAGE_ACCESSED, has w x86_PAGE_DIRTY).
Definition set_bit_to (w bit : Z) (b : bool) : Z := if b then Z.lor w bit else Z.land w (Z.lnot bit).
Definition ArchSetPageUsageBits (v ep : Z) (acc dirty : bool) : V unit :=
  e ← get_entry ep;
  at_ ← x86GetPageEntry v (virtual e);
  w ← read_pte at_;
  write_pte at_ (set_bit_to (set_bit_to w x86_PAGE_ACCESSED acc) x86_PAGE_DIRTY dirty).

Definition ArchVirtualToPhysical (virt : Z) : V Z :=
  s ← get;
  let table_num := virt / 0x400000 in
  if decide (pdir s !! (current_vas s, table_num) = None) then mret 0 else
  frame ← table_frame table_num;
  w ← read_pte (frame, virt `mod` 0x400000 / PAGE);
  mret (if has w x86_PAGE_PRESENT then Z.land w (Z.lnot 0xFFF) else 0).

(** A kernel access to the page at [virt] through the tables: it faults when
    the page is not present or, for a write, not writable. *)
Definition translate (virt : Z) (for_write : bool) : V Z :=
  s ← get;
  frame ← deref (pdir s !! (cr3 s, virt / 0x400000));
  w ← read_pte (frame, virt `mod` 0x400000 / PAGE);
  if has w x86_PAGE_PRESENT && (has w x86_PAGE_WRITE || negb for_write)
  then mret (Z.land w (Z.lnot 0xFFF)) else fault.
Definition read_page (virt : Z) : V page :=
  f ← translate virt false; s ← get; mret (default ∅ (ram s !! f)).
Definition write_page (virt : Z) (c : page) : V unit :=
  f ← translate virt true; modify (λ s, {| s with ram := <[f := c]> (ram s) |}).
(** [memset(virt, 0, n * ARCH_PAGE_SIZE)] *)
Fixpoint zero_pages (n : nat) (virt : Z) : V unit :=
  match n with O => mret tt | S n => write_page virt ∅;; zero_pages n (u32 (virt + PAGE)) end.

(** ** The trees of entries *)
Definition VirtAvlComparator (a b : vas_entry) : Z :=
  let a_page := virtual a / PAGE in
  let b_page := virtual b / PAGE in
  if decide (b_page ≤ a_page < b_page + num_pages b) then 0 else
  if decide (a_page ≤ b_page < a_page + num_pages a) then 0 else
  if decide (virtual b < virtual a) then 1 else if decide (virtual a < virtual b) then -1 else 0.

Definition entry_at (es : gmap Z vas_entry) (p : Z) : vas_entry := default entry0 (es !! p).
Definition by_address (es : gmap Z vas_entry) : Tree.tree_comparator :=
  λ x y, VirtAvlComparator (entry_at es x) (entry_at es y).
(** The comparator asserts that both sides are page aligned; the root, at least,
    is compared with. An element whose entry is gone is a dangling pointer. *)
Definition check_compared (t : Tree.tree_node) (e : vas_entry) : V unit :=
  s ← get;
  if bool_decide (Tree.AvlPrint t = []) then mret tt else
  if decide (Forall (λ p, is_Some (entries s !! p)) (Tree.AvlPrint t)) then
    c_assert (bool_decide (virtual e `mod` PAGE = 0 ∧
      Forall (λ p, virtual (entry_at (entries s) p) `mod` PAGE = 0) (Tree.AvlPrint t)))
  else fault.

Definition in_mappings {A} (v : Z) (m : Tree.tree → outcome (A * Tree.tree)) : V A := λ s,
  match vases s !! v with
  | None => Faulted
  | Some a =>
    '(r, t) ← m (Tree.Tree (mappings_size a) (mappings a) NULL (by_address (entries s)));
    Done (r, {| s with vases := <[v := {| a with mappings := Tree.root t; mappings_size := Tree.tree_size t |}]> (vases s) |})
  end.
Definition in_globals {A} (m : Tree.tree → outcome (A * Tree.tree)) : V A := λ s,
  '(r, t) ← m (Tree.Tree (globals_size s) (global_vas_mappings s) NULL (by_address (entries s)));
  Done (r, {| s with global_vas_mappings := Tree.root t; globals_size := Tree.tree_size t |}).

(** [TreeGet] and [TreeContains] with a [dummy] on the stack of the caller. *)
Definition against (es : gmap Z vas_entry) (dummy : vas_entry) : Tree.tree_comparator :=
  λ x _, VirtAvlComparator (entry_at es x) dummy.
Definition tree_get (t : Tree.tree_node) (dummy : vas_entry) : V Z :=
  check_compared t dummy;;
  s ← get; mret (Tree.AvlGet (against (entries s) dummy) t NULL).
Definition tree_contains (t : Tree.tree_node) (dummy : vas_entry) : V bool :=
  check_compared t dummy;;
  s ← get; mret (Tree.AvlContains (against (entries s) dummy) t NULL).
Definition dummy_entry (virt : Z) : vas_entry := {| entry0 with virtual := virt; num_pages := 1 |}.

Definition InsertIntoAvl (v ep : Z) : V unit :=
  AssertVasLocked v;;
  e ← get_entry ep;
  if global e then
    AcquireGlobal;;
    s ← get; check_compared (global_vas_mappings s) e;;
    in_globals (Tree.TreeInsert ep);;
    ReleaseGlobal
  else
    a ← get_vas v; check_compared (mappings a) e;;
    in_mappings v (Tree.TreeInsert ep).

Definition DeleteFromAvl (v ep : Z) : V unit :=
  AssertVasLocked v;;
  e ← get_entry ep;
  if global e then
    AcquireGlobal;;
    s ← get; check_compared (global_vas_mappings s) e;;
    in_globals (Tree.TreeDelete ep);;
    ReleaseGlobal
  else
    a ← get_vas v; check_compared (mappings a) e;;
    in_mappings v (Tree.TreeDelete ep).

Definition align_down (virt : Z) : Z := Z.land virt (Z.lnot (PAGE - 1)).

Definition GetVirtEntry (v virt : Z) : V Z :=
  AssertVasLocked v;;
  let dummy := dummy_entry (align_down virt) in
  a ← get_vas v;
  res ← tree_get (mappings a) dummy;
  if decide (res = NULL) then
    AcquireGlobal;;
    s ← get;
    res ← tree_get (global_vas_mappings s) dummy;
    ReleaseGlobal;;
    mret res
  else mret res.

Fixpoint in_use_loop (n : nat) (t : Tree.tree_node) (virt : Z) : V bool :=
  match n with
  | O => mret false
  | S n =>
    b ← tree_contains t (dummy_entry virt);
    if (b : bool) then mret true else in_use_loop n t (u32 (virt + PAGE))
  end.

Definition IsRangeInUse (v virt pages : Z) : V bool :=
  AcquireVas v;;
  a ← get_vas v;
  in_use ← in_use_loop (Z.to_nat pages) (mappings a) virt;
  ReleaseVas v;;
  if (in_use : bool) then mret true else
  AcquireGlobal;;
  s ← get;
  in_use ← in_use_loop (Z.to_nat pages) (global_vas_mappings s) virt;
  ReleaseGlobal;;
  mret in_use.

Definition AllocVirtRange (pages flags : Z) : V Z :=
  s ← get;
  if decide (flags ≠ 0) then
    put {| s with local_next := u32 (local_next s + pages * PAGE) |};; mret (local_next s)
  else
    put {| s with global_next := u32 (global_next s + pages * PAGE) |};; mret (global_next s).
Definition FreeVirtRange : V unit := mret tt.

(** ** Allocation of entries *)
Section memory.
Context `{Allocator}.

Definition new_entry (e : vas_entry) : V Z :=
  s ← get;
  let p := pick (dom (entries s)) in
  put {| s with entries := <[p := e]> (entries s) |};; mret p.
Definition free_entry (p : Z) : V unit :=
  s ← get; deref (entries s !! p);; put {| s with entries := delete p (entries s) |}.

Definition SplitLargePageEntryIntoMultiple (v virt ep num_to_leave : Z) : V Z :=
  e ← get_entry ep;
  if decide (num_pages e = 1) then mret 1 else
  c_assert (negb (allocated e));;
  c_assert (negb (swapfile e));;
  let entry_page := virtual e / PAGE in
  let target_page := virt / PAGE in
  (if decide (entry_page < target_page) then
     let num_beforehand := target_page - entry_page in
     pre_entry ← new_entry {| e with num_pages := i32 num_beforehand |};
     set_entry ep {| e with
       num_pages := i32 (num_pages e - num_beforehand);
       virtual := u32 (virtual e + num_beforehand * PAGE);
       physical := if decide (physical e ≠ 0) then u32 (physical e + num_beforehand * PAGE) else physical e;
       file_offset := if file e then u32 (file_offset e + num_beforehand * PAGE) else file_offset e |};;
     InsertIntoAvl v pre_entry
   else mret tt);;
  e ← get_entry ep;
  (if decide (num_to_leave < num_pages e) then
     post_entry ← new_entry {| e with
       num_pages := i32 (num_pages e - num_to_leave);
       virtual := u32 (virtual e + PAGE * num_to_leave);
       physical := if decide (physical e ≠ 0) then u32 (physical e + PAGE * num_to_leave) else physical e;
       file_offset := if file e then u32 (file_offset e + PAGE * num_to_leave) else file_offset e |};
     set_entry ep {| e with num_pages := num_to_leave |};;
     InsertIntoAvl v post_entry
   else mret tt);;
  e ← get_entry ep;
  mret (num_pages e).

(** ** Permissions *)
Definition pick_bit (set clear bit : Z) (old : bool) : bool :=
  if has set bit then true else if has clear bit then false else old.

Definition SetVirtPermissionsEx (v virt set clear : Z) : V Z :=
  if decide (Z.land (Z.lor set clear) (Z.lnot (Z.lor (Z.lor (Z.lor VM_READ VM_WRITE) VM_EXEC) VM_USER)) ≠ 0)
  then mret EINVAL else
  ep ← GetVirtEntry v virt;
  if decide (ep = NULL) then mret ENOMEM else
  e ← get_entry ep;
  denied ← (if file e then f ← get_file (file_node e);
              mret (negb (can_write f) && has set VM_WRITE && negb (relocatable e))
            else mret false);
  if (denied : bool) then mret EACCES else
  SplitLargePageEntryIntoMultiple v virt ep 1;;
  e ← get_entry ep;
  set_entry ep {| e with
    read := pick_bit set clear VM_READ (read e);
    write := pick_bit set clear VM_WRITE (write e);
    exec := pick_bit set clear VM_EXEC (exec e);
    user := pick_bit set clear VM_USER (user e) |};;
  ArchUpdateMapping v ep;;
  ArchFlushTlb v;;
  mret 0.

Definition SetVirtPermissions (virt set clear : Z) : V Z :=
  v ← GetVas;
  AcquireVas v;;
  retv ← SetVirtPermissionsEx v virt set clear;
  ReleaseVas v;;
  mret retv.

Definition GetVirtPermissions (virt : Z) : V Z :=
  v ← GetVas;
  AcquireVas v;;
  ep ← GetVirtEntry v virt;
  if decide (ep = NULL) then ReleaseVas v;; mret 0 else
  e ← get_entry ep;
  ReleaseVas v;;
  let bit (b : bool) (f : Z) := if b then f else 0 in
  mret (Z.lor (bit (read e) VM_READ) (Z.lor (bit (write e) VM_WRITE) (Z.lor (bit (exec e) VM_EXEC)
       (Z.lor (bit (lock e) VM_LOCK) (Z.lor (bit (file e) VM_FILE) (Z.lor (bit (user e) VM_USER)
       (Z.lor (bit (negb (global e)) VM_LOCAL) (bit (relocatable e) VM_RELOCATABLE)))))))).

Definition GetPhysFromVirt (virt : Z) : V Z :=
  v ← GetVas;
  AcquireVas v;;
  ep ← GetVirtEntry v virt;
  e ← get_entry ep;
  let result := physical e in
  let target_page := virt / PAGE in
  let entry_page := virtual e / PAGE in
  let result := if decide (entry_page < target_page)
                then u32 (result + (target_page - entry_page) * PAGE) else result in
  ReleaseVas v;;
  mret result.

(** ** Mapping *)
Definition AddMapping (v phys virt flags f pos number : Z) : V unit :=
  c_assert (negb (bool_decide (f ≠ NULL ∧ has flags VM_FILE = false)));;
  ep ← new_entry entry0;
  let lk := has flags VM_LOCK in
  let reloc := has flags VM_RELOCATABLE in
  let reloc_base := if reloc then phys else 0 in
  let phys := if reloc then 0 else phys in
  '(phys, alloc) ← (if lk && bool_decide (phys = 0) then p ← AllocPhys; mret (p, true) else mret (phys, false));
  set_entry ep {| entry0 with
    allocated := alloc; lock := lk; in_ram := lk;
    virtual := virt; times_swapped := 0;
    read := has flags VM_READ; write := has flags VM_WRITE; exec := has flags VM_EXEC;
    file := has flags VM_FILE; user := has flags VM_USER; share_on_fork := has flags VM_SHARED;
    evict_first := has flags VM_EVICT_FIRST; relocatable := reloc;
    hard_io_failure := has flags VM_HARD_IO_FAIL;
    allow_temp_write := false; load_in_progress := false; global := negb (has flags VM_LOCAL);
    physical := phys; ref_count := 1; file_offset := pos; file_node := f; swapfile := false;
    first_load := reloc; num_pages := i32 number;
    swapfile_offset := if reloc then reloc_base else 0xDEADDEAD |};;
  (if has flags VM_RECURSIVE then mret tt else AcquireVas v);;
  InsertIntoAvl v ep;;
  ArchAddMapping v ep;;
  (if lk && negb (has flags VM_MAP_HARDWARE) then
     cur ← GetVas;
     if decide (cur = v) then
       SetVirtPermissionsEx v virt VM_WRITE 0;;
       e ← get_entry ep;
       zero_pages (Z.to_nat (num_pages e)) (virtual e);;
       e ← get_entry ep;
       if write e then mret tt else SetVirtPermissionsEx v virt 0 VM_WRITE;; mret tt
     else mret tt
   else mret tt);;
  if has flags VM_RECURSIVE then mret tt else ReleaseVas v.

(** The [RETURN_FAIL_IF] tests, in order. *)
Definition check_flags (phys flags f pos : Z) : V Z :=
  if bool_decide (phys ≠ 0) && negb (has flags (Z.lor VM_MAP_HARDWARE VM_RELOCATABLE)) then mret EINVAL else
  if has flags VM_MAP_HARDWARE && negb (has flags VM_LOCK) then mret EINVAL else
  if has flags VM_FILE && has flags VM_MAP_HARDWARE then mret EINVAL else
  if has flags VM_FILE && bool_decide (f = NULL) then mret EINVAL else
  if has flags VM_FILE && has flags VM_LOCK then mret EINVAL else
  if negb (has flags VM_FILE) && bool_decide (f ≠ NULL ∨ pos ≠ 0) then mret EINVAL else
  if has flags VM_RELOCATABLE && negb (has flags VM_FILE) then mret EINVAL else
  if has flags VM_RELOCATABLE && has flags VM_USER then mret EINVAL else
  if has flags VM_RELOCATABLE && bool_decide (phys = 0) then mret EINVAL else
  if has flags VM_LOCK && has flags VM_SHARED then mret EINVAL else
  if has flags VM_HARD_IO_FAIL && has flags VM_USER then mret EINVAL else
  if has flags VM_HARD_IO_FAIL && negb (has flags VM_FILE) then mret EINVAL else
  if has flags VM_FILE then
    x ← get_file f;
    if negb (bool_decide (IFTODT (st_mode x) = IFTODT S_IFREG ∨ IFTODT (st_mode x) = IFTODT S_IFBLK)) then mret EACCES else
    if negb (can_read x) then mret EACCES else
    if negb (can_write x) && has flags VM_WRITE then mret EACCES else mret 0
  else mret 0.

Fixpoint MapVirt_loop (n : nat) (i v phys virt flags f pos number : Z) : V unit :=
  match n with
  | O => mret tt
  | S n =>
    (if has flags VM_FILE then ReferenceFile f else mret tt);;
    AddMapping v
      (if has flags VM_RELOCATABLE then phys else if decide (phys = 0) then 0 else u32 (phys + i * PAGE))
      (u32 (virt + i * PAGE)) flags f (u32 (pos + i * PAGE)) number;;
    MapVirt_loop n (i + 1) v phys virt flags f pos number
  end.

(** Returns the address and the error. *)
Definition MapVirtEx (v phys virt pages flags f pos : Z) : V (Z * Z) :=
  err ← check_flags phys flags f pos;
  if decide (err ≠ 0) then mret (0, err) else
  placed ← (if decide (virt = 0) then r ← AllocVirtRange pages (Z.land flags VM_LOCAL); mret (Some r) else
            used ← IsRangeInUse v virt pages;
            if (used : bool) then
              if has flags VM_FIXED_VIRT then mret None
              else r ← AllocVirtRange pages (Z.land flags VM_LOCAL); mret (Some r)
            else mret (Some virt));
  match placed with
  | None => mret (0, EEXIST)
  | Some virt =>
    let multi_page_mapping :=
      (negb (has flags VM_LOCK) || has flags VM_MAP_HARDWARE) && bool_decide (3 ≤ pages) in
    MapVirt_loop (if multi_page_mapping then 1%nat else Z.to_nat pages) 0 v phys virt flags f pos
      (if multi_page_mapping then pages else 1);;
    cur ← GetVas;
    (if decide (v = cur) then ArchFlushTlb v else mret tt);;
    mret (virt, 0)
  end.

Definition MapVirt (phys virt bytes flags f pos : Z) : V Z :=
  v ← GetVas;
  r ← MapVirtEx v phys virt (Physical.BytesToPages bytes) flags f pos;
  mret (fst r).

(** ** Disk accesses *)
Definition DeferDiskWrite (old_addr f offset : Z) : V unit :=
  new_addr ← MapVirt 0 0 PAGE (Z.lor (Z.lor (Z.lor VM_LOCK VM_READ) VM_WRITE) VM_RECURSIVE) NULL 0;
  c ← read_page old_addr;
  write_page new_addr c;;
  v ← GetVas;
  ep ← GetVirtEntry v new_addr;
  modify (λ s, {| s with deferred := deferred s ++ [Access f ep offset new_addr true false] |}).

Definition DeferDiskRead (new_addr f offset : Z) (deallocate_swap_on_read : bool) : V unit :=
  v ← GetVas;
  ep ← GetVirtEntry v new_addr;
  modify (λ s, {| s with deferred := deferred s ++ [Access f ep offset new_addr false deallocate_swap_on_read] |}).

(** ** Page faults *)
Definition BringIntoMemoryFromCow (ep : Z) : V unit :=
  e ← get_entry ep;
  cur ← GetVas;
  if decide (ref_count e = 1) then
    set_entry ep {| e with cow := false |};;
    ArchUpdateMapping cur ep;;
    ArchFlushTlb cur
  else
  page_data ← read_page (virtual e);
  let e := {| e with ref_count := ref_count e - 1;
                     cow := if decide (ref_count e - 1 = 1) then false else cow e |} in
  set_entry ep e;;
  new ← new_entry {| e with ref_count := 1 |};
  p ← AllocPhys;
  (if allocated e then mret tt else panic PANIC_ASSERTION_FAILURE);;
  set_entry new {| e with ref_count := 1; physical := p; allocated := true; cow := false |};;
  DeleteFromAvl cur ep;;
  InsertIntoAvl cur new;;
  ArchUpdateMapping cur new;;
  ArchFlushTlb cur;;
  write_page (virtual e) page_data.

Definition BringIntoMemoryFromFile (ep faulting_virt : Z) : V unit :=
  cur ← GetVas;
  SplitLargePageEntryIntoMultiple cur faulting_virt ep 1;;
  e ← get_entry ep;
  set_entry ep {| e with load_in_progress := true |};;
  ArchUpdateMapping cur ep;;
  ArchFlushTlb cur;;
  DeferDiskRead (virtual e) (file_node e) (file_offset e) false.

Definition BringIntoMemoryFromSwapfile (ep : Z) : V unit :=
  e ← get_entry ep;
  c_assert (negb (file e));;
  set_entry ep {| e with load_in_progress := true |};;
  cur ← GetVas;
  ArchUpdateMapping cur ep;;
  ArchFlushTlb cur;;
  sf ← GetSwapfile;
  DeferDiskRead (virtual e) sf (swapfile_offset e) true.

Definition BringInBlankPage (v ep faulting_virt fault_type : Z) : V unit :=
  e ← get_entry ep;
  if has fault_type VM_READ && negb (read e) then UnhandledFault UNHANDLED_FAULT_SEGV else
  if has fault_type VM_WRITE && negb (write e) then UnhandledFault UNHANDLED_FAULT_SEGV else
  if has fault_type VM_EXEC && negb (exec e) then UnhandledFault UNHANDLED_FAULT_SEGV else
  SplitLargePageEntryIntoMultiple v faulting_virt ep 1;;
  e ← get_entry ep;
  c_assert (bool_decide (num_pages e = 1));;
  p ← AllocPhys;
  let e := {| e with physical := p; allocated := true; in_ram := true; allow_temp_write := true |} in
  set_entry ep e;;
  c_assert (negb (swapfile e));;
  ArchUpdateMapping v ep;;
  ArchFlushTlb v;;
  write_page (virtual e) ∅;;
  set_entry ep {| e with allow_temp_write := false |};;
  ArchUpdateMapping v ep;;
  ArchFlushTlb v.

Definition BringIntoMemory (v ep : Z) (allow_cow : bool) (faulting_virt fault_type : Z) : V Z :=
  AssertVasLocked v;;
  e ← get_entry ep;
  if cow e && allow_cow then
    c_assert (bool_decide (num_pages e = 1));;
    BringIntoMemoryFromCow ep;; mret 0
  else if file e && negb (in_ram e) then BringIntoMemoryFromFile ep faulting_virt;; mret 0
  else if swapfile e then
    c_assert (bool_decide (num_pages e = 1));;
    BringIntoMemoryFromSwapfile ep;; mret 0
  else if negb (in_ram e) then BringInBlankPage v ep faulting_virt fault_type;; mret 0
  else mret EINVAL.

(** [schedule]: [Schedule()], called when another thread is loading the page. *)
Definition HandleVirtFault (irql : Z) (schedule : V unit) (faulting_virt fault_type : Z) : V unit :=
  if decide (3 ≤ irql) then panic PANIC_INVALID_IRQL else
  v ← GetVas;
  AcquireVas v;;
  on_phys (modify (λ p, Physical.set_handling (Physical.handling_page_fault p + 1) p));;
  let cleanup :=
    on_phys (modify (λ p, Physical.set_handling (Physical.handling_page_fault p - 1) p));; ReleaseVas v in
  ep ← GetVirtEntry v faulting_virt;
  if decide (ep = NULL) then UnhandledFault UNHANDLED_FAULT_SEGV;; cleanup else
  e ← get_entry ep;
  if load_in_progress e then cleanup;; schedule else
  c_assert (negb (in_ram e && swapfile e));;
  c_assert (negb (file e && swapfile e));;
  c_assert (negb (negb (in_ram e) && lock e));;
  c_assert (negb (cow e && lock e));;
  result ← BringIntoMemory v ep (has fault_type VM_WRITE) faulting_virt fault_type;
  (if decide (result ≠ 0) then UnhandledFault UNHANDLED_FAULT_SEGV else mret tt);;
  cleanup.

Definition LockVirtEx (v virt : Z) : V bool :=
  ep ← GetVirtEntry v virt;
  e ← get_entry ep;
  (if in_ram e then mret tt else
     SplitLargePageEntryIntoMultiple v virt ep 1;;
     res ← BringIntoMemory v ep true virt 0;
     if decide (res ≠ 0) then panic PANIC_CANNOT_LOCK_MEMORY else
     e ← get_entry ep; c_assert (in_ram e));;
  e ← get_entry ep;
  set_entry ep {| e with lock := true |};;
  mret (lock e).
Definition UnlockVirtEx (v virt : Z) : V unit :=
  ep ← GetVirtEntry v virt;
  SplitLargePageEntryIntoMultiple v virt ep 1;;
  e ← get_entry ep;
  set_entry ep {| e with lock := false |}.
Definition LockVirt (virt : Z) : V bool :=
  v ← GetVas; AcquireVas v;; res ← LockVirtEx v virt; ReleaseVas v;; mret res.
Definition UnlockVirt (virt : Z) : V unit :=
  v ← GetVas; AcquireVas v;; UnlockVirtEx v virt;; ReleaseVas v.

(** ** Unmapping *)
Definition DereferenceEntry (v ep : Z) : V bool :=
  e ← get_entry ep;
  c_assert (bool_decide (0 < ref_count e));;
  set_entry ep {| e with ref_count := ref_count e - 1 |};;
  if decide (ref_count e - 1 = 0) then
    (if file e && write e && in_ram e then DeferDiskWrite (virtual e) (file_node e) (file_offset e) else mret tt);;
    (if in_ram e then ArchUnmap v ep else mret tt);;
    (if swapfile e then c_assert (negb (allocated e));; DeallocSwap (physical e / PAGE) else mret tt);;
    (if allocated e then c_assert (negb (swapfile e));; DeallocPhys (physical e) else mret tt);;
    ArchSetPageUsageBits v ep false false;;
    DeleteFromAvl v ep;;
    free_entry ep;;
    FreeVirtRange;;
    mret (in_ram e)
  else mret false.

Fixpoint UnmapVirtEx_loop (n : nat) (i v virt flags : Z) (needs_tlb_flush : bool) : V Z :=
  match n with
  | O => (if needs_tlb_flush then ArchFlushTlb v else mret tt);; mret 0
  | S n =>
    ep ← GetVirtEntry v (u32 (virt + i * PAGE));
    if decide (ep = NULL) then
      if has flags VMUN_ALLOW_NON_EXIST then UnmapVirtEx_loop n (i + 1) v virt flags needs_tlb_flush
      else mret EINVAL
    else
      SplitLargePageEntryIntoMultiple v virt ep 1;;
      b ← DereferenceEntry v ep;
      UnmapVirtEx_loop n (i + 1) v virt flags (needs_tlb_flush || b)
  end.
Definition UnmapVirtEx (v virt pages flags : Z) : V Z := UnmapVirtEx_loop (Z.to_nat pages) 0 v virt flags false.

Definition UnmapVirt (virt bytes : Z) : V Z :=
  v ← GetVas;
  AcquireVas v;;
  res ← UnmapVirtEx v virt (Physical.BytesToPages bytes) 0;
  ReleaseVas v;;
  mret res.

(** The recursion over the tree as it was when entered. A wiped entry is freed
    before its address is read again, which the model reports as a fault. *)
Fixpoint WipeUsermodePagesRecursive (node : Tree.tree_node) : V unit :=
  match node with
  | Tree.Null => mret tt
  | Tree.TNode l ep r =>
    e ← get_entry ep;
    (if decide (ARCH_USER_STACK_LIMIT ≤ virtual e < ARCH_PROG_LOADER_BASE) then
       cur ← GetVas; DereferenceEntry cur ep;; mret tt
     else mret tt);;
    e ← get_entry ep;
    (if decide (ARCH_USER_STACK_LIMIT ≤ virtual e) then WipeUsermodePagesRecursive l else mret tt);;
    e ← get_entry ep;
    (if decide (virtual e < ARCH_PROG_LOADER_BASE) then WipeUsermodePagesRecursive r else mret tt)
  end.
Definition WipeUsermodePages : V Z :=
  v ← GetVas;
  AcquireVas v;;
  a ← get_vas v;
  WipeUsermodePagesRecursive (mappings a);;
  ArchFlushTlb v;;
  ReleaseVas v;;
  mret 0.

(** ** Address spaces *)
Fixpoint CopyVasRecursive (node : Tree.tree_node) (new_vas : Z) : V unit :=
  match node with
  | Tree.Null => mret tt
  | Tree.TNode l ep r =>
    e ← get_entry ep;
    (if lock e then
       c_assert (in_ram e);;
       c_assert (negb (share_on_fork e));;
       if allocated e then panic PANIC_NOT_IMPLEMENTED else panic PANIC_UNKNOWN
     else
       let e := {| e with cow := if share_on_fork e then cow e else true; ref_count := ref_count e + 1 |} in
       set_entry ep e;;
       a ← get_vas new_vas; check_compared (mappings a) e;;
       in_mappings new_vas (Tree.TreeInsert ep);;
       cur ← GetVas;
       ArchUpdateMapping cur ep;;
       SetVas new_vas;;
       ArchAddMapping new_vas ep;;
       SetVas cur);;
    CopyVasRecursive l new_vas;;
    CopyVasRecursive r new_vas
  end.

Definition CopyVas (new_vas : Z) : V Z :=
  v ← GetVas;
  AcquireVas v;;
  AcquireGlobal;;
  a ← get_vas v;
  CopyVasRecursive (mappings a) new_vas;;
  ArchFlushTlb v;;
  ReleaseGlobal;;
  ReleaseVas v;;
  mret new_vas.

(** The tables of the kernel half, shared by every address space, are copied;
    the new directory lives in the page mapped for it. *)
Fixpoint copy_tables (n : nat) (i from to : Z) : V unit :=
  match n with
  | O => mret tt
  | S n =>
    modify (λ s, match pdir s !! (from, i) with
                 | Some f => {| s with pdir := <[(to, i) := f]> (pdir s) |}
                 | None => s
                 end);;
    copy_tables n (i + 1) from to
  end.
Definition ArchInitVas (v : Z) : V unit :=
  virt ← MapVirt 0 0 PAGE (Z.lor (Z.lor (Z.lor VM_READ VM_WRITE) VM_USER) VM_LOCK) NULL 0;
  phys ← GetPhysFromVirt virt;
  k ← GetKernelVas;
  copy_tables 255 768 k v.

Definition CreateVasEx (v flags : Z) : V unit :=
  set_vas v (Vas Tree.Null 0 false);;
  if has flags 1 then mret tt else ArchInitVas v.
Definition CreateVas (v : Z) : V Z := CreateVasEx v 0;; mret v.

Definition DestroyVas (v : Z) : V unit :=
  cur ← GetVas; if decide (v = cur) then panic PANIC_VAS_TRIED_TO_SELF_DESTRUCT else mret tt.

(** ** Eviction *)
Definition EvictPage (irql v ep : Z) : V unit :=
  c_assert (bool_decide (irql = 0));;
  e ← get_entry ep;
  c_assert (negb (lock e));;
  c_assert (negb (cow e));;
  c_assert (in_ram e);;
  AcquireVas v;;
  (if file e then
     (if write e && negb (relocatable e) then DeferDiskWrite (virtual e) (file_node e) (file_offset e) else mret tt);;
     set_entry ep {| e with in_ram := false; allocated := false |};;
     DeallocPhys (physical e);;
     ArchUnmap v ep;;
     ArchFlushTlb v
   else
     set_entry ep {| e with in_ram := false; swapfile := true; allocated := false |};;
     slot ← AllocSwap;
     let offset := u32 (slot * PAGE) in
     sf ← GetSwapfile;
     DeferDiskWrite (virtual e) sf offset;;
     set_entry ep {| e with in_ram := false; swapfile := true; allocated := false; swapfile_offset := offset |};;
     ArchUnmap v ep;;
     DeallocPhys (physical e);;
     ArchFlushTlb v);;
  ReleaseVas v.

Definition GetPageEvictionRank (v ep : Z) : V Z :=
  '(accessed, dirty) ← ArchGetPageUsageBits v ep;
  e ← get_entry ep;
  let penalty := (if global e then 3 else 0) + times_swapped e * 8 in
  mret (if evict_first e then times_swapped e
        else if relocatable e then 150
        else if cow e then 90 + penalty
        else if file e && negb (write e) then (if (accessed : bool) then 30 else 10) + penalty
        else if file e && write e then (if (dirty : bool) then 70 else if accessed then 40 else 20) + penalty
        else if negb dirty then (if accessed then 60 else 50) + penalty
        else 80 + penalty).

(** The best candidate so far: its rank, address space and entry. *)
Fixpoint FindVirtToEvictRecursive (v : Z) (node : Tree.tree_node) (best : Z * Z * Z) (prev_swaps : list Z) : V (Z * Z * Z) :=
  match node with
  | Tree.Null => mret best
  | Tree.TNode l ep r =>
    let '(lowest_rank, _, _) := best in
    if decide (lowest_rank < 10) then mret best else
    e ← get_entry ep;
    '(best, stop) ←
      (if negb (lock e) && allocated e && in_ram e then
         rank ← GetPageEvictionRank v ep;
         equal ← (if decide (rank = lowest_rank) then
                    s ← get; put {| s with rand := u8 (rand s + 1) |};; mret (bool_decide (Z.land (rand s) 3 = 0))
                  else mret false);
         mret (if (bool_decide (rank < lowest_rank) || equal) && negb (bool_decide (ep ∈ prev_swaps))
               then ((rank, v, ep), bool_decide (rank = 0)) else (best, false))
       else mret (best, false));
    if (stop : bool) then mret best else
    best ← FindVirtToEvictRecursive v l best prev_swaps;
    FindVirtToEvictRecursive v r best prev_swaps
  end.

Definition FindVirtToEvict (v : Z) (best : Z * Z * Z) (include_globals : bool) (prev_swaps : list Z) : V (Z * Z * Z) :=
  best ← (if include_globals then s ← get; FindVirtToEvictRecursive v (global_vas_mappings s) best prev_swaps
          else mret best);
  a ← get_vas v;
  FindVirtToEvictRecursive v (mappings a) best prev_swaps.

Definition EvictVirt (irql : Z) : V unit :=
  sf ← GetSwapfile;
  if decide (sf = NULL) then mret tt else
  v ← GetVas;
  AcquireVas v;;
  s ← get;
  '(_, ev, ep) ← FindVirtToEvict v (10000, NULL, NULL) true (previous_swaps s);
  ReleaseVas v;;
  if decide (ep = NULL) then mret tt else
  s ← get;
  ps ← deref (aset (previous_swaps s) (swap_num s `mod` 32) ep);
  put {| s with previous_swaps := ps; swap_num := swap_num s + 1 |};;
  EvictPage irql ev ep;;
  e ← get_entry ep;
  set_entry ep {| e with times_swapped := (times_swapped e + 1) `mod` 16 |}.

(** ** The deferred half of a disk access *)
Section disk.
(** [ReadFile] and [WriteFile] of a page at an offset of a file from or to a
    kernel address, and [RelocatePage]. *)
Variable ReadFile WriteFile : Z → Z → Z → V Z.
Variable RelocatePage : Z → Z → Z → V unit.

Definition PerformDeferredAccess (a : defer_disk_access) : V unit :=
  target_address ← (if da_write a then mret (da_address a)
    else MapVirt 0 0 PAGE (Z.lor (Z.lor VM_LOCK VM_READ) VM_WRITE) NULL 0);
  res ← (if da_write a then WriteFile else ReadFile) (da_file a) (da_offset a) target_address;
  (if decide (res ≠ 0) then
     e ← get_entry (da_entry a);
     if swapfile e then panic PANIC_DISK_FAILURE_ON_SWAPFILE
     else if user e then RaiseSigbus
     else if hard_io_failure e then panic PANIC_DISK_FAILURE_ON_SWAPFILE else mret tt
   else mret tt);;
  if da_write a then UnmapVirt (da_address a) PAGE;; mret tt else
  v ← GetVas;
  AcquireVas v;;
  ep ← GetVirtEntry v (da_address a);
  e ← get_entry ep;
  c_assert (bool_decide (num_pages e = 1));;
  c_assert (swapfile e || file e);;
  p ← AllocPhys;
  let e := {| e with lock := true; physical := p; allocated := true; allow_temp_write := true;
                     in_ram := true; swapfile := false |} in
  set_entry ep e;;
  ArchUpdateMapping v ep;;
  ArchFlushTlb v;;
  c ← read_page target_address;
  write_page (da_address a) c;;
  let e := {| e with allow_temp_write := false |} in
  set_entry ep e;;
  (if da_dealloc a then DeallocSwap (da_offset a / PAGE) else mret tt);;
  let needs_relocations := relocatable e && negb (first_load e) in
  ArchUpdateMapping v ep;;
  ArchFlushTlb v;;
  (if needs_relocations then mret tt
   else set_entry ep {| e with first_load := false; load_in_progress := false; lock := false |});;
  ReleaseVas v;;
  UnmapVirt target_address PAGE;;
  if needs_relocations then
    RelocatePage v (relocation_base e) (da_address a);;
    AcquireVas v;;
    e ← get_entry ep;
    set_entry ep {| e with first_load := false; load_in_progress := false |};;
    UnlockVirtEx v (da_address a);;
    ReleaseVas v
  else mret tt.
End disk.
End memory.
