(* ===== verification/VirtMemTree.v ===== *)
(** * The trees of entries: disjoint runs of pages in order of address

    The comparator of mem/virtual.c calls overlapping runs equal, which is no
    order in general. On entries that do not overlap it agrees with the order of
    their addresses, so the lemmas of [Tree] apply. What an address space maps,
    page by page, is the [view]. *)

From Stdlib Require Import Sorted.
From S2P Require Import Prelude Tree VirtMem.

#[local] Ltac Zify.zify_post_hook ::= Z.to_euclidean_division_equations.

(** ** Entries *)
Definition vend (e : vas_entry) : Z := virtual e + num_pages e * 4096.
Definition apart (a b : vas_entry) : Prop := vend a ≤ virtual b ∨ vend b ≤ virtual a.

Record entry_ok (e : vas_entry) : Prop := {
  eo_align : virtual e `mod` 4096 = 0;
  eo_low : 0 ≤ virtual e;
  eo_pages : 1 ≤ num_pages e < 2 ^ 20;
  eo_top : vend e ≤ 2 ^ 32;
  eo_phys : physical e = 0 ∨ 0 < physical e ∧ physical e + num_pages e * 4096 ≤ 2 ^ 32;
  eo_phys_align : physical e `mod` 4096 = 0;
  eo_offset : is_u32 (file_offset e);
  eo_multi : num_pages e = 1 ∨ allocated e = false ∧ swapfile e = false;
}.

Lemma apart_sym a b : apart a b → apart b a.
Proof. unfold apart. tauto. Qed.
Lemma compare_below a b : entry_ok a → entry_ok b → vend a ≤ virtual b → VirtAvlComparator a b = -1.
Proof.
  intros [A1 A2 A3 A4 _ _ _ _] [B1 B2 B3 B4 _ _ _ _] H. unfold vend in *. unfold VirtAvlComparator.
  rewrite decide_False by lia. rewrite decide_False by lia. rewrite decide_False by lia. by rewrite decide_True by lia.
Qed.
Lemma compare_above a b : entry_ok a → entry_ok b → vend b ≤ virtual a → VirtAvlComparator a b = 1.
Proof.
  intros [A1 A2 A3 A4 _ _ _ _] [B1 B2 B3 B4 _ _ _ _] H. unfold vend in *. unfold VirtAvlComparator.
  rewrite decide_False by lia. rewrite decide_False by lia. by rewrite decide_True by lia.
Qed.
Lemma compare_self a : entry_ok a → VirtAvlComparator a a = 0.
Proof. intros [A1 A2 A3 A4 _ _ _ _]. unfold VirtAvlComparator. by rewrite decide_True by lia. Qed.

(** Against a page: equal exactly when the run holds it. *)
Definition covers (e : vas_entry) (pg : Z) : Prop := virtual e ≤ pg * 4096 < vend e.
#[export] Instance covers_dec e pg : Decision (covers e pg).
Proof. unfold covers. apply _. Defined.
Lemma compare_page e pg : entry_ok e → VirtAvlComparator e (dummy_entry (pg * 4096)) = 0 ↔ covers e pg.
Proof.
  intros [A1 A2 A3 A4 _ _ _ _]. unfold VirtAvlComparator, covers, vend, dummy_entry in *. cbn [virtual num_pages entry0].
  repeat case_decide; split; intros; lia.
Qed.

(** ** Trees *)
Section tree.
Context (es : gmap Z vas_entry).

Definition key (p : Z) : Z := virtual (entry_at es p).
Definition before (x y : Z) : Prop := vend (entry_at es x) ≤ key y.
Definition by_key : tree_comparator := λ x y,
  if decide (key y < key x) then 1 else if decide (key x < key y) then -1 else 0.

#[export] Instance by_key_total : TotalComparator by_key.
Proof. split; intros; unfold by_key in *; repeat case_decide; lia. Qed.

Record tree_ok (t : tree_node) (sz : Z) : Prop := {
  to_avl : avl t;
  to_size : sz = length (AvlPrint t);
  to_live : ∀ p, p ∈ AvlPrint t → ∃ e, es !! p = Some e ∧ entry_ok e;
  to_sorted : StronglySorted before (AvlPrint t);
}.

Lemma entry_at_some p e : es !! p = Some e → entry_at es p = e.
Proof. unfold entry_at. by intros ->. Qed.
Lemma live_ok t sz p : tree_ok t sz → p ∈ AvlPrint t → entry_ok (entry_at es p).
Proof. intros Ht Hp. destruct (to_live _ _ Ht p Hp) as (e & He & Hok). by rewrite (entry_at_some _ _ He). Qed.

(** Elements of a sorted list are apart. *)
Lemma sorted_apart l x y : StronglySorted before l → x ∈ l → y ∈ l → x ≠ y → apart (entry_at es x) (entry_at es y).
Proof.
  intros Hs. induction Hs as [|z l Hs IH Hz]; [by intros Hx%elem_of_nil|].
  rewrite Forall_forall in Hz. intros [->|Hx]%elem_of_cons [->|Hy]%elem_of_cons Hne; [done| | |by apply IH].
  - left. by apply Hz.
  - right. by apply Hz.
Qed.
Lemma sorted_nodup l : (∀ p, p ∈ l → entry_ok (entry_at es p)) → StronglySorted before l → NoDup l.
Proof.
  intros Hok Hs. induction Hs as [|z l Hs IH Hz]; [constructor|]. constructor; [|apply IH; set_solver].
  intros Hin. rewrite Forall_forall in Hz. pose proof (Hz z Hin) as Hb. unfold before, key, vend in Hb.
  pose proof (eo_pages _ (Hok z ltac:(set_solver))). lia.
Qed.
Lemma sorted_filter (P : Z → Prop) `{!∀ x, Decision (P x)} l : StronglySorted before l → StronglySorted before (filter P l).
Proof.
  intros Hs. induction Hs as [|z l Hs IH Hz]; [constructor|]. rewrite filter_cons. case_decide; [|done].
  constructor; [done|]. rewrite Forall_forall in Hz |- *. intros x [_ Hx]%list_elem_of_filter. by apply Hz.
Qed.

(** ** The two comparators *)
Lemma AvlInsert_ext cmp cmp' t d : (∀ x, x ∈ AvlPrint t → cmp d x = cmp' d x) → AvlInsert cmp t d = AvlInsert cmp' t d.
Proof.
  induction t as [|l IHl x r IHr]; [done|]. simpl. intros H.
  rewrite (H x) by set_solver. rewrite IHl, IHr by set_solver. done.
Qed.
Lemma leftmost_in l d : leftmost_data l d ∈ AvlPrint l ++ [d].
Proof. revert d. induction l as [|l1 IH x r _]; intros d; simpl; [set_solver|]. specialize (IH x). set_solver. Qed.
Lemma AvlDelete_ext cmp cmp' t : ∀ d, (∀ x y, x ∈ d :: AvlPrint t → y ∈ AvlPrint t → cmp x y = cmp' x y) →
  AvlDelete cmp t d = AvlDelete cmp' t d.
Proof.
  induction t as [|l IHl x r IHr]; intros d H; [done|]. cbn [AvlDelete]. simpl in H.
  rewrite (H d x) by set_solver. rewrite (IHl d) by (intros; apply H; set_solver).
  rewrite (IHr d) by (intros; apply H; set_solver). destruct l as [|ll ld lr]; [done|]. destruct r as [|rl rd rr]; [done|].
  rewrite (IHr (leftmost_data rl rd)); [done|].
  assert (leftmost_data rl rd ∈ AvlPrint (TNode rl rd rr)) as Hn.
  { simpl. pose proof (leftmost_in rl rd) as Hn. rewrite elem_of_app, elem_of_cons in *. rewrite elem_of_nil in Hn. tauto. }
  intros a b Ha Hb. apply H; [apply elem_of_cons; right|]; apply elem_of_app; right; apply elem_of_cons; right; [|done].
  apply elem_of_cons in Ha as [->|Ha]; done.
Qed.

Lemma by_address_key x y : entry_ok (entry_at es x) → entry_ok (entry_at es y) →
  (x ≠ y → apart (entry_at es x) (entry_at es y)) → by_address es x y = by_key x y.
Proof.
  intros Hx Hy Hap. unfold by_address, by_key, key. pose proof (eo_pages _ Hx). pose proof (eo_pages _ Hy).
  destruct (decide (x = y)) as [->|Hne]; [rewrite compare_self, !decide_False by (done || lia); done|].
  destruct (Hap Hne) as [H1|H1].
  - rewrite compare_below by done. unfold vend in *. by rewrite decide_False, decide_True by lia.
  - rewrite compare_above by done. unfold vend in *. by rewrite decide_True by lia.
Qed.

Lemma sorted_keys l : (∀ p, p ∈ l → entry_ok (entry_at es p)) → StronglySorted before l → StronglySorted (λ x y, by_key x y < 0) l.
Proof.
  intros Hok Hs. induction Hs as [|z l Hs IH Hz]; [constructor|]. constructor; [apply IH; set_solver|].
  rewrite Forall_forall in Hz |- *. intros y Hy. pose proof (Hz y Hy) as Hb. unfold before, vend, key in Hb. unfold by_key, key.
  pose proof (eo_pages _ (Hok z ltac:(set_solver))). rewrite decide_False, decide_True by lia. lia.
Qed.

(** ** Insertion and deletion *)
Lemma insert_entry t sz p e :
  tree_ok t sz → es !! p = Some e → entry_ok e → (∀ q, q ∈ AvlPrint t → apart (entry_at es q) e) →
  ∃ t', TreeInsert p (Tree.Tree sz t NULL (by_address es)) = Done (tt, Tree.Tree (sz + 1) t' NULL (by_address es)) ∧
    tree_ok t' (sz + 1) ∧ ∀ q, q ∈ AvlPrint t' ↔ q = p ∨ q ∈ AvlPrint t.
Proof.
  intros Ht Hp Hok Hap. pose proof (entry_at_some _ _ Hp) as Ep. unfold TreeInsert.
  rewrite (M_bind_done _ _ _ _ _ (eq_refl (get _))). cbn [root equality_handler].
  destruct (decide (AvlPrint t = [])) as [Hnil|Hcons].
  { destruct t as [|l x r]; [|simpl in Hnil; by destruct (AvlPrint l)]. exists (AvlCreateNode p Null Null). split; [|split].
    - unfold set_root. mred. cbn [tree_size deletion_handler equality_handler]. done.
    - split; [simpl; lia|rewrite (to_size _ _ Ht); done| |by repeat constructor].
      intros q Hq. simpl in Hq. apply list_elem_of_singleton in Hq as ->. by exists e.
    - simpl. set_solver. }
  assert (t ≠ Null) as Hnn by (by intros ->).
  destruct (AvlInsert_run by_key t p Hnn (to_avl _ _ Ht)) as (t' & E & Havl & _ & (l & r & El & Er & Hspl)).
  assert (AvlInsert (by_address es) t p = Done t') as E'.
  { rewrite <- E. apply AvlInsert_ext. intros x Hx. apply by_address_key; rewrite ?Ep; [done|by eapply live_ok|].
    intros _. by apply apart_sym, Hap. }
  pose proof (sorted_keys _ (λ q Hq, live_ok t sz q Ht Hq) (to_sorted _ _ Ht)) as Hkeys.
  destruct Hspl as [Hl Hr].
  { unfold ordered_tree. clear -Hkeys. induction Hkeys as [|z l _ IH Hz]; [constructor|]. constructor; [done|].
    eapply Forall_impl; [exact Hz|]. simpl. lia. }
  exists t'. split.
  - destruct t as [|tl td tr]; [done|]. unfold lift_tree. mred. rewrite E'. mred. unfold set_root. done.
  - pose proof (to_sorted _ _ Ht) as Hsort. rewrite El in Hsort. split; [split|].
    + done.
    + rewrite (to_size _ _ Ht), El, Er, !length_app. simpl. lia.
    + intros q. rewrite Er. intros Hq. assert (q = p ∨ q ∈ AvlPrint t) as [->|Hin] by (rewrite El; set_solver); [by exists e|].
      by apply (to_live _ _ Ht).
    + rewrite Er. assert (Forall (λ x, before x p) l ∧ Forall (λ y, before p y) r) as [Bl Br].
      { rewrite Forall_forall in Hl. rewrite Forall_forall in Hr. split; apply Forall_forall; intros x Hx; (assert (x ∈ AvlPrint t) as Hin by (rewrite El; set_solver));
          pose proof (live_ok t sz x Ht Hin) as [_ _ ? _ _ _ _ _]; pose proof (eo_pages _ Hok);
          pose proof (Hap x Hin) as Hd; [specialize (Hl x Hx)|specialize (Hr x Hx)];
          unfold by_key, key in Hl, Hr; rewrite Ep in *; unfold apart, vend, before, key in *; rewrite ?Ep; unfold vend;
          repeat case_decide; lia. }
      apply StronglySorted_app in Hsort as (Hlr & Hsl & Hsr). apply StronglySorted_app. split_and!; [|done|by constructor].
      rewrite Forall_forall in Bl. intros x y Hx [->|Hy]%elem_of_cons; [by apply Bl|by apply Hlr].
    + intros q. rewrite Er, El. set_solver.
Qed.

Lemma delete_entry t sz p :
  tree_ok t sz → p ∈ AvlPrint t →
  ∃ t', TreeDelete p (Tree.Tree sz t NULL (by_address es)) = Done (tt, Tree.Tree (sz - 1) t' NULL (by_address es)) ∧
    tree_ok t' (sz - 1) ∧ ∀ q, q ∈ AvlPrint t' ↔ q ≠ p ∧ q ∈ AvlPrint t.
Proof.
  intros Ht Hp. destruct (AvlDelete_run by_key t p (to_avl _ _ Ht)) as (t' & E & Havl & _ & Hpr).
  assert (∀ q, q ∈ AvlPrint t → entry_ok (entry_at es q)) as Hok by (intros q Hq; by eapply live_ok).
  assert (AvlDelete (by_address es) t p = Done t') as E'.
  { rewrite <- E. apply AvlDelete_ext. intros x y Hx Hy. assert (x ∈ AvlPrint t) by set_solver.
    apply by_address_key; [by apply Hok..|]. intros Hne. by apply (sorted_apart (AvlPrint t)); [apply (to_sorted _ _ Ht)| | |]. }
  specialize (Hpr (sorted_keys _ Hok (to_sorted _ _ Ht))). unfold without in Hpr.
  assert (∀ q, q ∈ AvlPrint t' ↔ q ≠ p ∧ q ∈ AvlPrint t) as Hin.
  { intros q. rewrite Hpr, list_elem_of_filter. split; intros [H1 H2]; (split; [|done]).
    - intros ->. apply H1. apply cmp_refl.
    - rewrite <- by_address_key; [|by apply Hok..|].
      + unfold by_address. destruct (sorted_apart _ p q (to_sorted _ _ Ht) Hp H2 ltac:(done)) as [Ha|Ha];
          [rewrite compare_below|rewrite compare_above]; (by apply Hok) || done.
      + intros Hne. by apply (sorted_apart (AvlPrint t)); [apply (to_sorted _ _ Ht)| | |]. }
  exists t'. split; [|split; [split|done]].
  - unfold TreeDelete. mred. cbn [root equality_handler]. unfold lift_tree. mred. rewrite E'. mred. unfold set_root. done.
  - done.
  - pose proof (sorted_nodup _ Hok (to_sorted _ _ Ht)) as Hnd. rewrite (to_size _ _ Ht).
    assert (p :: AvlPrint t' ≡ₚ AvlPrint t) as Hperm.
    { apply NoDup_Permutation; [constructor; [rewrite Hin; tauto|rewrite Hpr; by apply NoDup_filter]|done|].
      intros q. rewrite elem_of_cons, Hin. destruct (decide (q = p)) as [->|]; tauto. }
    apply Permutation_length in Hperm. simpl in Hperm. lia.
  - intros q [_ Hq]%Hin. by apply (to_live _ _ Ht).
  - rewrite Hpr. by apply sorted_filter, (to_sorted _ _ Ht).
Qed.
End tree.

(** ** The view

    [view] gives the attributes of a page as if it had an entry of its own. It is
    the specification of the operations of [VirtMem]: how the pages are grouped
    into entries does not show in it. *)
Definition norm (e : vas_entry) (pg : Z) : vas_entry := {| e with
  virtual := pg * 4096; num_pages := 1;
  physical := if decide (physical e ≠ 0) then physical e + (pg * 4096 - virtual e) else physical e;
  file_offset := if file e then u32 (file_offset e + (pg * 4096 - virtual e)) else file_offset e |}.

Definition page_entry (es : gmap Z vas_entry) (l : list Z) (pg : Z) : option Z :=
  head (filter (λ p, covers (entry_at es p) pg) l).
Definition view_in (es : gmap Z vas_entry) (l : list Z) (pg : Z) : option vas_entry :=
  (λ p, norm (entry_at es p) pg) <$> page_entry es l pg.
Definition globals (s : vm) : list Z := AvlPrint (global_vas_mappings s).
Definition locals (a : vas) : list Z := AvlPrint (mappings a).
(** The entry in charge of a page: the address space's own before a global one. *)
Definition entry_for (s : vm) (a : vas) (pg : Z) : option Z :=
  match page_entry (entries s) (locals a) pg with
  | Some p => Some p
  | None => page_entry (entries s) (globals s) pg
  end.
Definition view (s : vm) (a : vas) (pg : Z) : option vas_entry :=
  match view_in (entries s) (locals a) pg with
  | Some x => Some x
  | None => view_in (entries s) (globals s) pg
  end.

Lemma view_entry s a pg : view s a pg = (λ p, norm (entry_at (entries s) p) pg) <$> entry_for s a pg.
Proof. unfold view, view_in, entry_for. by destruct (page_entry (entries s) (locals a) pg). Qed.

Section view_in.
Context (es : gmap Z vas_entry) (l : list Z) (Hs : StronglySorted (before es) l).

Lemma page_entry_iff pg p : page_entry es l pg = Some p ↔ p ∈ l ∧ covers (entry_at es p) pg.
Proof.
  unfold page_entry. split.
  - destruct (filter _ l) as [|x k] eqn:E; [done|]. intros [= ->].
    assert (p ∈ filter (λ p, covers (entry_at es p) pg) l) as [H1 H2]%list_elem_of_filter by (rewrite E; set_solver). done.
  - intros [Hin Hc]. induction Hs as [|z k Hk IH Hz]; [by apply elem_of_nil in Hin|]. rewrite filter_cons.
    apply elem_of_cons in Hin as [->|Hin]; [by rewrite decide_True|].
    rewrite Forall_forall in Hz. specialize (Hz p Hin). unfold before, key, covers, vend in *.
    rewrite decide_False by (unfold covers, vend; lia). by apply IH.
Qed.
Lemma page_entry_none pg : page_entry es l pg = None ↔ ∀ p, p ∈ l → ¬ covers (entry_at es p) pg.
Proof.
  split.
  - intros E p Hin Hc. assert (page_entry es l pg = Some p) as E' by (by apply page_entry_iff). congruence.
  - intros H. destruct (page_entry es l pg) as [p|] eqn:E; [|done]. apply page_entry_iff in E as [Hin Hc]. by destruct (H p Hin).
Qed.
Lemma view_in_iff pg x : view_in es l pg = Some x ↔ ∃ p, p ∈ l ∧ covers (entry_at es p) pg ∧ x = norm (entry_at es p) pg.
Proof.
  unfold view_in. rewrite fmap_Some. split.
  - intros (p & E & ->). apply page_entry_iff in E as [Hin Hc]. by exists p.
  - intros (p & Hin & Hc & ->). exists p. split; [by apply page_entry_iff|done].
Qed.
End view_in.

(** ** Cutting an entry in two *)
Definition left_part (e : vas_entry) (k : Z) : vas_entry := {| e with num_pages := k |}.
Definition right_part (e : vas_entry) (k : Z) : vas_entry := {| e with
  num_pages := num_pages e - k; virtual := virtual e + k * 4096;
  physical := if decide (physical e ≠ 0) then physical e + k * 4096 else physical e;
  file_offset := if file e then u32 (file_offset e + k * 4096) else file_offset e |}.

Section cut.
Context (e : vas_entry) (k : Z) (Hok : entry_ok e) (Hk : 0 < k < num_pages e).

Lemma left_ok : entry_ok (left_part e k).
Proof.
  destruct Hok as [A1 A2 A3 A4 A5 A6 A7 A8]. unfold vend in A4. split; unfold vend; cbn; try (done || lia).
  destruct A8 as [A8|A8]; [lia|by right].
Qed.
Lemma right_ok : entry_ok (right_part e k).
Proof.
  destruct Hok as [A1 A2 A3 A4 A5 A6 A7 A8]. unfold vend in A4.
  split; unfold vend; cbn; try lia.
  - case_decide; lia.
  - case_decide; lia.
  - destruct (file e); [apply u32_range|done].
  - destruct A8 as [A8|A8]; [lia|by right].
Qed.
Lemma parts_apart : apart (left_part e k) (right_part e k).
Proof. left. unfold vend. cbn. lia. Qed.
Lemma covers_parts pg : covers e pg ↔ covers (left_part e k) pg ∨ covers (right_part e k) pg.
Proof. unfold covers, vend. cbn. split; [|lia]. intros. lia. Qed.
Lemma norm_left pg : norm (left_part e k) pg = norm e pg.
Proof. done. Qed.
Lemma norm_right pg : norm (right_part e k) pg = norm e pg.
Proof.
  destruct Hok as [A1 A2 A3 A4 A5 A6 A7 A8]. unfold norm, right_part. cbn. f_equal.
  - destruct (file e); [|done]. unfold u32. rewrite Zplus_mod_idemp_l. f_equal. lia.
  - repeat case_decide; lia.
Qed.
End cut.

Section cut_view.
Context (es es' : gmap Z vas_entry) (l l' : list Z) (p q : Z) (e eq_ ep' : vas_entry) (k : Z).
Context (Hs : StronglySorted (before es) l) (Hs' : StronglySorted (before es') l').
Context (Hin : ∀ x, x ∈ l' ↔ x = q ∨ x ∈ l) (Hp : p ∈ l).
Context (Hpe : es !! p = Some e) (Hpe' : es' !! p = Some ep') (Hqe : es' !! q = Some eq_).
Context (Hparts : ep' = left_part e k ∧ eq_ = right_part e k ∨ ep' = right_part e k ∧ eq_ = left_part e k).
Context (Hrest : ∀ x, x ∈ l → x ≠ p → x ≠ q ∧ es' !! x = es !! x) (Hpq : p ≠ q) (Hok : entry_ok e) (Hk : 0 < k < num_pages e).

Lemma view_in_cut pg : view_in es' l' pg = view_in es l pg.
Proof.
  assert (∀ x, x ∈ l → x ≠ p → entry_at es' x = entry_at es x) as Hsame.
  { intros x Hx Hne. unfold entry_at. by destruct (Hrest x Hx Hne) as [_ ->]. }
  rewrite <- (entry_at_some es p e Hpe) in Hok, Hk, Hparts.
  rewrite <- (entry_at_some es' p _ Hpe'), <- (entry_at_some es' q _ Hqe) in Hparts.
  assert (covers (entry_at es p) pg ↔ covers (entry_at es' p) pg ∨ covers (entry_at es' q) pg) as Hcov.
  { rewrite (covers_parts _ k Hk). destruct Hparts as [[-> ->]|[-> ->]]; tauto. }
  assert (norm (entry_at es' p) pg = norm (entry_at es p) pg ∧ norm (entry_at es' q) pg = norm (entry_at es p) pg) as [Hnp Hnq].
  { destruct Hparts as [[-> ->]|[-> ->]]; split; (done || by apply norm_right). }
  apply option_eq. intros x. rewrite !view_in_iff by done. split.
  - intros (z & Hz & Hc & ->). apply Hin in Hz as [->|Hz]; [exists p; rewrite Hcov; auto|].
    destruct (decide (z = p)) as [->|Hne]; [exists p; rewrite Hcov; auto|]. exists z. rewrite (Hsame z Hz Hne) in *. done.
  - intros (z & Hz & Hc & ->). destruct (decide (z = p)) as [->|Hne].
    + apply Hcov in Hc as [Hc|Hc]; [exists p|exists q]; rewrite Hin; auto.
    + exists z. rewrite Hin, (Hsame z Hz Hne). auto.
Qed.
End cut_view.
