(* ===== verification/VirtMemSplit.v ===== *)
(** * Invariant of an address space, lookups, and the splitting of entries *)

From Stdlib Require Import Sorted.
From S2P Require Import Prelude Tree VirtMem VirtMemTree.

#[local] Ltac Zify.zify_post_hook ::= Z.to_euclidean_division_equations.
Ltac step H := rewrite (M_bind_done _ _ _ _ _ H).

(** ** The invariant, while the lock of the address space is held *)
Definition members (s : vm) (a : vas) (g : bool) : list Z := if g then globals s else locals a.

Record space_ok (s : vm) (v : Z) (a : vas) : Prop := {
  sp_vas : vases s !! v = Some a;
  sp_lock : vas_lock a = true;
  sp_unlocked : global_mappings_lock s = false;
  sp_null : entries s !! NULL = None;
  sp_local : tree_ok (entries s) (mappings a) (mappings_size a);
  sp_global : tree_ok (entries s) (global_vas_mappings s) (globals_size s);
  sp_flags : ∀ g p, p ∈ members s a g → global (entry_at (entries s) p) = g;
}.

(** Only entries and trees changed. *)
Definition map_frame (s s' : vm) : Prop := s' = {| s with entries := entries s'; vases := vases s';
  global_vas_mappings := global_vas_mappings s'; globals_size := globals_size s' |}.
Lemma map_frame_refl s : map_frame s s.
Proof. by destruct s. Qed.
Lemma map_frame_trans s1 s2 s3 : map_frame s1 s2 → map_frame s2 s3 → map_frame s1 s3.
Proof. unfold map_frame. intros H1 H2. rewrite H2, H1. done. Qed.

Lemma space_tree s v a (g : bool) : space_ok s v a →
  tree_ok (entries s) (if g then global_vas_mappings s else mappings a) (if g then globals_size s else mappings_size a).
Proof. intros H. destruct g; [apply (sp_global _ _ _ H)|apply (sp_local _ _ _ H)]. Qed.
Lemma member_ok s v a g p : space_ok s v a → p ∈ members s a g → ∃ e, entries s !! p = Some e ∧ entry_ok e ∧ global e = g ∧ p ≠ NULL.
Proof.
  intros H Hp. assert (∃ e, entries s !! p = Some e ∧ entry_ok e) as (e & He & Hok).
  { destruct g; [apply (to_live _ _ _ (sp_global _ _ _ H) p Hp)|apply (to_live _ _ _ (sp_local _ _ _ H) p Hp)]. }
  exists e. split; [done|]. split; [done|]. split; [|intros ->; by rewrite (sp_null _ _ _ H) in He].
  rewrite <- (sp_flags _ _ _ H g p Hp). by rewrite (entry_at_some _ _ _ He).
Qed.
Lemma members_sorted s v a g : space_ok s v a → StronglySorted (before (entries s)) (members s a g).
Proof. intros H. destruct g; [apply (sp_global _ _ _ H)|apply (sp_local _ _ _ H)]. Qed.

(** ** Lookups *)
Lemma AvlGet_ext cmp cmp' t d d' : (∀ x, x ∈ AvlPrint t → cmp x d = cmp' x d') → AvlGet cmp t d = AvlGet cmp' t d'.
Proof.
  induction t as [|l IHl x r IHr]; [done|]. simpl. intros H.
  rewrite (H x) by set_solver. rewrite IHl, IHr by set_solver. done.
Qed.

Lemma check_compared_run s v a (g : bool) e : space_ok s v a → virtual e `mod` 4096 = 0 →
  check_compared (if g then global_vas_mappings s else mappings a) e s = Done (tt, s).
Proof.
  intros H He. set (t := if g then _ else _). assert (AvlPrint t = members s a g) as Et by (by destruct g).
  unfold check_compared. rewrite (M_bind_done _ _ s s s) by done. rewrite Et. destruct (bool_decide _); [done|].
  assert (∀ p, p ∈ members s a g → ∃ e, entries s !! p = Some e ∧ entry_ok e) as Hlive.
  { intros p Hp. destruct (member_ok s v a g p H Hp) as (x & Hx & Hok & _). eauto. }
  rewrite decide_True by (apply Forall_forall; intros p Hp; destruct (Hlive p Hp) as (x & -> & _); by eexists).
  rewrite bool_decide_true; [done|]. split; [done|]. apply Forall_forall. intros p Hp.
  destruct (Hlive p Hp) as (x & Hx & Hok). rewrite (entry_at_some _ _ _ Hx). apply (eo_align _ Hok).
Qed.

Lemma tree_get_run s v a (g : bool) pg : space_ok s v a →
  tree_get (if g then global_vas_mappings s else mappings a) (dummy_entry (pg * 4096)) s
  = Done (default NULL (page_entry (entries s) (members s a g) pg), s).
Proof.
  intros H. unfold tree_get. step (check_compared_run s v a g (dummy_entry (pg * 4096)) H ltac:(simpl; lia)).
  rewrite (M_bind_done _ _ s s s) by done. mred. f_equal. f_equal. set (t := if g then _ else _).
  assert (AvlPrint t = members s a g) as Et by (by destruct g).
  assert (∀ x, x ∈ AvlPrint t → against (entries s) (dummy_entry (pg * 4096)) x NULL = 0 ↔ covers (entry_at (entries s) x) pg) as Hag.
  { intros x Hx. unfold against. apply compare_page. rewrite Et in Hx. destruct (member_ok s v a g x H Hx) as (e & He & Hok & _).
    by rewrite (entry_at_some _ _ _ He). }
  assert (NULL ∉ AvlPrint t) as Hn.
  { rewrite Et. intros Hx. by destruct (member_ok s v a g NULL H Hx) as (e & _ & _ & _ & ?). }
  destruct (AvlGet_spec (against (entries s) (dummy_entry (pg * 4096))) t NULL Hn) as [[Hin Hc]|[-> Hno]].
  - apply (Hag _ Hin) in Hc. rewrite Et in Hin.
    assert (page_entry (entries s) (members s a g) pg = Some (AvlGet (against (entries s) (dummy_entry (pg * 4096))) t NULL)) as ->; [|done].
    apply page_entry_iff; [by eapply members_sorted|done].
  - assert (page_entry (entries s) (members s a g) pg = None) as ->; [|done].
    apply page_entry_none; [by eapply members_sorted|]. intros p Hp Hc. rewrite <- Et in Hp. apply (Hno p Hp). by apply Hag.
Qed.

Lemma tree_contains_run s v a (g : bool) pg : space_ok s v a →
  tree_contains (if g then global_vas_mappings s else mappings a) (dummy_entry (pg * 4096)) s
  = Done (bool_decide (is_Some (page_entry (entries s) (members s a g) pg)), s).
Proof.
  intros H. unfold tree_contains. step (check_compared_run s v a g (dummy_entry (pg * 4096)) H ltac:(simpl; lia)).
  rewrite (M_bind_done _ _ s s s) by done. mred. f_equal. f_equal. set (t := if g then _ else _).
  assert (AvlPrint t = members s a g) as Et by (by destruct g).
  assert (∀ x, x ∈ AvlPrint t → against (entries s) (dummy_entry (pg * 4096)) x NULL = 0 ↔ covers (entry_at (entries s) x) pg) as Hag.
  { intros x Hx. unfold against. apply compare_page. rewrite Et in Hx. destruct (member_ok s v a g x H Hx) as (e & He & Hok & _).
    by rewrite (entry_at_some _ _ _ He). }
  apply eq_true_iff_eq. rewrite AvlContains_iff, bool_decide_eq_true. split.
  - intros (x & Hx & Hc). apply (Hag x Hx) in Hc. exists x. apply page_entry_iff; [by eapply members_sorted|]. by rewrite <- Et.
  - intros [p Hp]. apply page_entry_iff in Hp as [Hin Hc]; [|by eapply members_sorted]. exists p. rewrite Et. split; [done|].
    apply Hag; [by rewrite Et|done].
Qed.

Lemma align_page virt : 0 ≤ virt → align_down virt = virt / 4096 * 4096.
Proof.
  intros Hx. unfold align_down. change (4096 - 1) with (Z.ones 12). rewrite <- Z.ldiff_land, Z.ldiff_ones_r by lia.
  rewrite Z.shiftr_div_pow2, Z.shiftl_mul_pow2 by lia. done.
Qed.

Lemma GetVirtEntry_run s v a virt : space_ok s v a → 0 ≤ virt →
  GetVirtEntry v virt s = Done (default NULL (entry_for s a (virt / 4096)), s).
Proof.
  intros H Hv. unfold GetVirtEntry, AssertVasLocked. set (pg := virt / 4096).
  assert (get_vas v s = Done (a, s)) as Ea by (unfold get_vas; mred; by rewrite (sp_vas _ _ _ H)).
  assert ((a ← get_vas v; c_assert (vas_lock a)) s = Done (tt, s)) as Eas by (step Ea; by rewrite (sp_lock _ _ _ H)).
  step Eas. rewrite align_page by done. fold pg. step Ea. step (tree_get_run s v a false pg H). unfold entry_for.
  change (members s a false) with (locals a). destruct (page_entry (entries s) (locals a) pg) as [p|] eqn:E; cbn [default from_option].
  - assert (p ∈ locals a) as Hp by (apply page_entry_iff in E; [apply E|by eapply (members_sorted s v a false)]).
    destruct (member_ok s v a false p H Hp) as (_ & _ & _ & _ & Hne). by rewrite decide_False.
  - rewrite decide_True by done. set (s1 := {| s with global_mappings_lock := true |}).
    assert (AcquireGlobal s = Done (tt, s1)) as E1 by (unfold AcquireGlobal; mred; by rewrite (sp_unlocked _ _ _ H)).
    step E1. rewrite (M_bind_done _ _ s1 s1 s1) by done.
    assert (tree_get (global_vas_mappings s) (dummy_entry (pg * 4096)) s1 = Done (default NULL (page_entry (entries s) (globals s) pg), s1)) as E2.
    { pose proof (tree_get_run s v a true pg H) as E2. cbn [members] in E2. revert E2. unfold tree_get, check_compared, mbind, M_mbind. mred.
      destruct (bool_decide _); cbn [outcome_bind]; [intros [= E0]; f_equal; f_equal; exact E0|]. destruct (decide _); cbn [outcome_bind]; [|done].
      destruct (bool_decide _); cbn [outcome_bind]; [intros [= E0]; f_equal; f_equal; exact E0|done]. }
    change (global_vas_mappings s1) with (global_vas_mappings s). step E2.
    assert (ReleaseGlobal s1 = Done (tt, s)) as E3.
    { unfold ReleaseGlobal. mred. cbn. f_equal. f_equal. rewrite <- (sp_unlocked _ _ _ H). by destruct s. }
    by step E3.
Qed.

(** ** Changing the entries under a tree *)
Lemma sorted_impl (R R' : Z → Z → Prop) l : (∀ x y, x ∈ l → y ∈ l → R x y → R' x y) → StronglySorted R l → StronglySorted R' l.
Proof.
  intros H Hs. induction Hs as [|z k Hk IH Hz]; [constructor|]. constructor; [apply IH; intros; apply H; set_solver|].
  rewrite Forall_forall in Hz |- *. intros y Hy. apply H; [set_solver|set_solver|by apply Hz].
Qed.

Lemma tree_ok_shrink es es' t sz p e e' :
  tree_ok es t sz → es !! p = Some e → es' !! p = Some e' → entry_ok e' → virtual e ≤ virtual e' → vend e' ≤ vend e →
  (∀ q, q ∈ AvlPrint t → q ≠ p → es' !! q = es !! q) → tree_ok es' t sz.
Proof.
  intros [T1 T2 T3 T4] Hp Hp' Hok Hlo Hhi Hrest. split; [done|done| |].
  - intros q Hq. destruct (decide (q = p)) as [->|Hne]; [by exists e'|]. rewrite Hrest by done. by apply T3.
  - assert (∀ x, x ∈ AvlPrint t → virtual (entry_at es x) ≤ virtual (entry_at es' x) ∧ vend (entry_at es' x) ≤ vend (entry_at es x)) as Hx.
    { intros x Hx. unfold entry_at. destruct (decide (x = p)) as [->|Hne]; [by rewrite Hp, Hp'|]. by rewrite Hrest. }
    eapply sorted_impl; [|exact T4]. intros x y Hx' Hy' Hb. unfold before, key in *. destruct (Hx x Hx'), (Hx y Hy'). lia.
Qed.
Lemma tree_ok_agree es es' t sz : (∀ q, q ∈ AvlPrint t → es' !! q = es !! q) → tree_ok es t sz → tree_ok es' t sz.
Proof.
  intros Hrest [T1 T2 T3 T4]. split; [done|done| |].
  - intros q Hq. rewrite Hrest by done. by apply T3.
  - eapply sorted_impl; [|exact T4]. intros x y Hx Hy. unfold before, key, entry_at. by rewrite !Hrest.
Qed.

(** ** Insertion and deletion *)

(** The trees of [v] hold [q] as well, or no longer. *)
Record retree (s : vm) (v : Z) (a : vas) (g : bool) (P : Z → Prop) (s' : vm) (a' : vas) : Prop := {
  rt_ok : space_ok s' v a';
  rt_entries : entries s' = entries s;
  rt_vases : vases s' = <[v := a']> (vases s);
  rt_frame : map_frame s s';
  rt_members : ∀ x, x ∈ members s' a' g ↔ P x;
  rt_others : members s' a' (negb g) = members s a (negb g);
}.

Section retree.
Context (s : vm) (v : Z) (a : vas) (Hok : space_ok s v a).

Lemma AssertVasLocked_run : AssertVasLocked v s = Done (tt, s).
Proof.
  unfold AssertVasLocked. assert (get_vas v s = Done (a, s)) as Ea by (unfold get_vas; mred; by rewrite (sp_vas _ _ _ Hok)).
  step Ea. by rewrite (sp_lock _ _ _ Hok).
Qed.
Lemma get_vas_run : get_vas v s = Done (a, s).
Proof. unfold get_vas. mred. by rewrite (sp_vas _ _ _ Hok). Qed.

Lemma get_entry_run p e : entries s !! p = Some e → get_entry p s = Done (e, s).
Proof. intros He. unfold get_entry. mred. by rewrite He. Qed.

(** Whichever tree operation runs, given what it does to the tree. *)
Lemma retree_run (ep : Z) (e : vas_entry) (op : Z → M Tree.tree unit) t' sz' (P : Z → Prop) :
  entries s !! ep = Some e → virtual e `mod` 4096 = 0 →
  op ep (Tree.Tree (if global e then globals_size s else mappings_size a)
    (if global e then global_vas_mappings s else mappings a) NULL (by_address (entries s)))
    = Done (tt, Tree.Tree sz' t' NULL (by_address (entries s))) →
  tree_ok (entries s) t' sz' → (∀ x, x ∈ AvlPrint t' ↔ P x) →
  (∀ x, P x → global (entry_at (entries s) x) = global e) →
  ∃ s' a', (AssertVasLocked v;; e ← get_entry ep;
    if global e then AcquireGlobal;; s ← get; check_compared (global_vas_mappings s) e;; in_globals (op ep);; ReleaseGlobal
    else a ← get_vas v; check_compared (mappings a) e;; in_mappings v (op ep)) s = Done (tt, s') ∧ retree s v a (global e) P s' a'.
Proof.
  intros He Hal Hop Ht HP Hg. step AssertVasLocked_run. step (get_entry_run _ _ He).
  destruct (global e) eqn:Eg.
  - set (s1 := {| s with global_mappings_lock := true |}).
    assert (AcquireGlobal s = Done (tt, s1)) as E1 by (unfold AcquireGlobal; mred; by rewrite (sp_unlocked _ _ _ Hok)).
    step E1. rewrite (M_bind_done _ _ s1 s1 s1) by done.
    assert (check_compared (global_vas_mappings s1) e s1 = Done (tt, s1)) as E2.
    { pose proof (check_compared_run s v a true e Hok Hal) as E2. revert E2. unfold check_compared, mbind, M_mbind. mred.
      cbn [global_vas_mappings s1 entries]. destruct (bool_decide _); cbn [outcome_bind]; [done|].
      destruct (decide _); cbn [outcome_bind]; [|done]. by destruct (bool_decide _). }
    step E2. set (s2 := {| s1 with global_vas_mappings := t'; globals_size := sz' |}).
    assert (in_globals (op ep) s1 = Done (tt, s2)) as E3.
    { unfold in_globals. cbn [s1 globals_size global_vas_mappings entries]. rewrite Hop. by mred. }
    step E3. set (s3 := {| s2 with global_mappings_lock := false |}).
    assert (ReleaseGlobal s2 = Done (tt, s3)) as E4 by done.
    exists s3, a. split; [exact E4|].
    assert (map_frame s s3) as Hfr.
    { unfold map_frame. cbn. by rewrite (sp_unlocked _ _ _ Hok). }
    split; [|done| |done|by cbn|done].
    + destruct Hok as [O1 O2 O3 O4 O5 O6 O7]. split; try done.
      intros [] p; cbn [members]; [|by apply (O7 false)]. intros Hp. cbn [globals global_vas_mappings s3 s2] in Hp. apply Hg. by apply HP.
    + cbn. by rewrite insert_id by apply (sp_vas _ _ _ Hok).
  - step get_vas_run. step (check_compared_run s v a false e Hok Hal).
    set (a' := {| a with mappings := t'; mappings_size := sz' |}).
    exists {| s with vases := <[v := a']> (vases s) |}, a'. split.
    + unfold in_mappings. rewrite (sp_vas _ _ _ Hok), Hop. by mred.
    + split; [|done|done|done|by cbn|done].
      destruct Hok as [O1 O2 O3 O4 O5 O6 O7]. split; try done; cbn; [apply lookup_insert_eq|].
      intros [] p; cbn [members]; [by apply (O7 true)|]. intros Hp. apply Hg. by apply HP.
Qed.

Lemma InsertIntoAvl_run q e :
  entries s !! q = Some e → entry_ok e → (∀ x, x ∈ members s a (global e) → apart (entry_at (entries s) x) e) →
  ∃ s' a', InsertIntoAvl v q s = Done (tt, s') ∧ retree s v a (global e) (λ x, x = q ∨ x ∈ members s a (global e)) s' a'.
Proof.
  intros He Hoke Hap.
  destruct (insert_entry (entries s) (if global e then global_vas_mappings s else mappings a)
    (if global e then globals_size s else mappings_size a) q e) as (t' & E & Ht' & Hin); [|done|done| |].
  { by apply (space_tree _ _ _ _ Hok). }
  { destruct (global e); exact Hap. }
  eapply (retree_run q e TreeInsert t'); [done|apply (eo_align _ Hoke)|exact E|done|destruct (global e); exact Hin|].
  intros x [->|Hx]; [by rewrite (entry_at_some _ _ _ He)|by apply (sp_flags _ _ _ Hok)].
Qed.

Lemma DeleteFromAvl_run p e :
  entries s !! p = Some e → p ∈ members s a (global e) →
  ∃ s' a', DeleteFromAvl v p s = Done (tt, s') ∧ retree s v a (global e) (λ x, x ≠ p ∧ x ∈ members s a (global e)) s' a'.
Proof.
  intros He Hp. destruct (member_ok s v a _ p Hok Hp) as (e' & He' & Hoke & _). assert (e' = e) as -> by congruence.
  destruct (delete_entry (entries s) (if global e then global_vas_mappings s else mappings a)
    (if global e then globals_size s else mappings_size a) p) as (t' & E & Ht' & Hin).
  { by apply (space_tree _ _ _ _ Hok). }
  { destruct (global e); exact Hp. }
  eapply (retree_run p e TreeDelete t'); [done|apply (eo_align _ Hoke)|exact E|done|destruct (global e); exact Hin|].
  intros x [_ Hx]. by apply (sp_flags _ _ _ Hok).
Qed.
End retree.

(** ** Splitting *)
Definition view_of (s : vm) (a : vas) (g : bool) (pg : Z) : option vas_entry := view_in (entries s) (members s a g) pg.
Lemma view_views s a pg : view s a pg = match view_of s a false pg with Some x => Some x | None => view_of s a true pg end.
Proof. done. Qed.

(** The same pages, with [p] now the entry [y]. *)
Record regrouped (s : vm) (v : Z) (a : vas) (g : bool) (p : Z) (y : vas_entry) (s' : vm) (a' : vas) : Prop := {
  rg_ok : space_ok s' v a';
  rg_views : ∀ g' pg, view_of s' a' g' pg = view_of s a g' pg;
  rg_entry : entries s' !! p = Some y;
  rg_member : p ∈ members s' a' g;
  rg_keep : ∀ x, x ≠ p → is_Some (entries s !! x) → entries s' !! x = entries s !! x;
  rg_old : ∀ g' x, x ∈ members s a g' → x ∈ members s' a' g';
  rg_new : ∀ g' x, x ∈ members s' a' g' → x ∈ members s a g' ∨ entries s !! x = None;
  rg_frame : map_frame s s';
  rg_vases : vases s' = <[v := a']> (vases s);
  rg_other : members s' a' (negb g) = members s a (negb g);
}.

Lemma rg_view s v a g p y s' a' pg : regrouped s v a g p y s' a' → view s' a' pg = view s a pg.
Proof. intros R. by rewrite !view_views, !(rg_views _ _ _ _ _ _ _ _ R). Qed.
Lemma regrouped_refl s v a g p y : space_ok s v a → p ∈ members s a g → entries s !! p = Some y → regrouped s v a g p y s a.
Proof.
  intros H Hp Hy. split; auto using map_frame_refl. by rewrite insert_id by apply (sp_vas _ _ _ H).
Qed.
Lemma regrouped_trans s s1 s2 v a a1 a2 g p y1 y2 :
  regrouped s v a g p y1 s1 a1 → regrouped s1 v a1 g p y2 s2 a2 → is_Some (entries s !! p) → regrouped s v a g p y2 s2 a2.
Proof.
  intros [A1 A2 A3 A4 A5 A6 A7 A8 A9 A0] [B1 B2 B3 B4 B5 B6 B7 B8 B9 B0] Hp. split; auto.
  - intros g' pg. by rewrite B2, A2.
  - intros x Hx Hd. rewrite B5; [by apply A5|done|]. by rewrite A5.
  - intros g' x [Hx|Hx]%B7; [by apply A7|]. right. destruct (entries s !! x) as [z|] eqn:E; [|done].
    destruct (decide (x = p)) as [->|Hne]; [by rewrite A3 in Hx|]. rewrite A5 in Hx by (done || by eexists). congruence.
  - by eapply map_frame_trans.
  - rewrite B9, A9. by rewrite insert_insert_eq.
  - by rewrite B0, A0.
Qed.

Lemma view_in_agree es es' l pg : (∀ x, x ∈ l → es' !! x = es !! x) → view_in es' l pg = view_in es l pg.
Proof.
  intros H. unfold view_in, page_entry. assert (∀ x, x ∈ l → entry_at es' x = entry_at es x) as He by (intros x Hx; unfold entry_at; by rewrite H).
  assert (filter (λ p, covers (entry_at es' p) pg) l = filter (λ p, covers (entry_at es p) pg) l) as ->.
  { clear H. induction l as [|x l IH]; [done|]. rewrite !filter_cons, (He x) by set_solver. rewrite IH by (intros; apply He; set_solver). done. }
  destruct (filter _ l) as [|x k] eqn:E; [done|]. simpl. rewrite He; [done|].
  assert (x ∈ filter (λ p, covers (entry_at es p) pg) l) as [_ Hx]%list_elem_of_filter by (rewrite E; set_solver). done.
Qed.

Section split.
Context `{Allocator}.
Context (s : vm) (v : Z) (a : vas) (Hok : space_ok s v a) (g : bool) (p : Z) (e : vas_entry).
Context (Hp : p ∈ members s a g) (He : entries s !! p = Some e).

Lemma cut_run k x y :
  0 < k < num_pages e → x = left_part e k ∧ y = right_part e k ∨ x = right_part e k ∧ y = left_part e k →
  ∃ s' a', (q ← new_entry x; set_entry p y;; InsertIntoAvl v q) s = Done (tt, s') ∧ regrouped s v a g p y s' a'.
Proof.
  intros Hk Hxy. destruct (member_ok s v a g p Hok Hp) as (e' & He' & Hoke & Hg & Hpn). assert (e' = e) as -> by congruence. clear He'.
  assert (entry_ok x ∧ entry_ok y ∧ global x = g ∧ global y = g ∧ apart y x ∧
    virtual e ≤ virtual x ∧ vend x ≤ vend e ∧ virtual e ≤ virtual y ∧ vend y ≤ vend e) as (Hx & Hy & Hgx & Hgy & Hxya & H1 & H2 & H3 & H4).
  { pose proof (left_ok e k Hoke Hk). pose proof (right_ok e k Hoke Hk). pose proof (parts_apart e k).
    unfold vend. destruct Hxy as [[-> ->]|[-> ->]]; cbn; split_and!; try done; try lia; by apply apart_sym. }
  set (q := pick (dom (entries s))). assert (entries s !! q = None) as Hq by apply not_elem_of_dom, pick_fresh.
  assert (p ≠ q) as Hpq by (intros ->; congruence).
  set (es1 := <[p := y]> (<[q := x]> (entries s))). set (s1 := {| s with entries := es1 |}).
  assert (es1 !! p = Some y) as Ep by apply lookup_insert_eq.
  assert (es1 !! q = Some x) as Eq by (unfold es1; rewrite lookup_insert_ne by done; apply lookup_insert_eq).
  assert (∀ z, z ≠ p → is_Some (entries s !! z) → es1 !! z = entries s !! z) as Ez.
  { intros z Hz [w Hw]. unfold es1. rewrite !lookup_insert_ne; [done| |done]. intros ->. congruence. }
  assert (∀ g' z, z ∈ members s a g' → is_Some (entries s !! z)) as Hlive.
  { intros g' z Hz. destruct (member_ok s v a g' z Hok Hz) as (w & -> & _). by eexists. }
  assert (∀ z, z ∈ members s a (negb g) → z ≠ p) as Hother.
  { intros z Hz ->. pose proof (sp_flags _ _ _ Hok _ _ Hz) as F. pose proof (sp_flags _ _ _ Hok _ _ Hp) as F'. rewrite F' in F. by destruct g. }
  assert (∀ g' : bool, tree_ok es1 (if g' then global_vas_mappings s else mappings a) (if g' then globals_size s else mappings_size a)) as Htrees.
  { intros g'. pose proof (space_tree s v a g' Hok) as Ht. destruct (decide (g' = g)) as [->|Hne].
    - eapply tree_ok_shrink; [exact Ht|exact He|exact Ep|done|done|done|]. intros z Hz Hzp. apply Ez; [done|]. apply (Hlive g). destruct g; exact Hz.
    - eapply tree_ok_agree; [|exact Ht]. intros z Hz. assert (z ∈ members s a g') by (destruct g'; exact Hz).
      apply Ez; [|by eapply Hlive]. apply Hother. by replace (negb g) with g' by (destruct g, g'; done). }
  assert (space_ok s1 v a) as Hok1.
  { destruct Hok as [O1 O2 O3 O4 O5 O6 O7]. split; try done.
    - unfold s1, es1. cbn. rewrite !lookup_insert_ne by (done || apply pick_nonnull). done.
    - apply (Htrees false).
    - apply (Htrees true).
    - intros g' z Hz. change (members s1 a g') with (members s a g') in Hz. cbn [s1 entries]. unfold entry_at.
      destruct (decide (z = p)) as [->|Hzp].
      + rewrite Ep. cbn. rewrite Hgy. pose proof (O7 _ _ Hz) as F. by rewrite (entry_at_some _ _ _ He), Hg in F.
      + rewrite Ez by (done || by eapply Hlive). by apply O7. }
  destruct (InsertIntoAvl_run s1 v a Hok1 q x Eq Hx) as (s' & a' & E & R).
  { rewrite Hgx. intros z Hz. change (members s1 a g) with (members s a g) in Hz. cbn [s1 entries]. destruct (decide (z = p)) as [->|Hzp].
    - by rewrite (entry_at_some _ _ _ Ep).
    - unfold entry_at. rewrite Ez by (done || by eapply Hlive).
      pose proof (sorted_apart _ _ p z (members_sorted s v a g Hok) Hp Hz ltac:(done)) as Hap.
      rewrite (entry_at_some _ _ _ He) in Hap. unfold entry_at, apart in *. destruct Hap; [right|left]; lia. }
  rewrite Hgx in R. destruct R as [R1 R2 R3 R4 R5 R6]. exists s', a'. split.
  { rewrite (M_bind_done _ _ s q {| s with entries := <[q := x]> (entries s) |}) by done.
    rewrite (M_bind_done _ _ _ tt s1) by done. exact E. }
  split.
  - done.
  - intros g' pg. assert (view_in (entries s') (members s' a' g) pg = view_in (entries s) (members s a g) pg) as Vg.
    { rewrite R2. eapply (view_in_cut (entries s) es1 (members s a g) (members s' a' g) p q e x y k); eauto using members_sorted.
      - change es1 with (entries s1). rewrite <- R2. by eapply members_sorted.
      - tauto.
      - intros z Hz Hzp. split; [|apply Ez; [done|by eapply Hlive]]. intros ->. destruct (Hlive g q Hz) as [? ?]. congruence. }
    assert (view_in (entries s') (members s' a' (negb g)) pg = view_in (entries s) (members s a (negb g)) pg) as Vo.
    { rewrite R2, R6. apply view_in_agree. intros z Hz. apply Ez; [by apply Hother|by eapply Hlive]. }
    unfold view_of. destruct g, g'; cbn [members negb] in *; by rewrite ?Vg, ?Vo.
  - by rewrite R2.
  - apply R5. by right.
  - intros z Hz Hd. rewrite R2. by apply Ez.
  - intros g' z Hz. destruct (decide (g' = g)) as [->|Hne]; [apply R5; by right|].
    replace g' with (negb g) in * by (destruct g, g'; done). by rewrite R6.
  - intros g' z Hz. destruct (decide (g' = g)) as [->|Hne]; [apply R5 in Hz as [->|Hz]; auto|].
    replace g' with (negb g) in * by (destruct g, g'; done). rewrite R6 in Hz. by left.
  - eapply map_frame_trans; [|exact R4]. done.
  - done.
  - done.
Qed.

Lemma num_small k : 0 < k < num_pages e → i32 k = k ∧ i32 (num_pages e - k) = num_pages e - k ∧
  u32 (virtual e + k * 4096) = virtual e + k * 4096 ∧
  (physical e ≠ 0 → u32 (physical e + k * 4096) = physical e + k * 4096).
Proof.
  intros Hk. destruct (member_ok s v a g p Hok Hp) as (e' & He' & [A1 A2 A3 A4 A5 A6 A7 A8] & _). assert (e' = e) as -> by congruence.
  unfold vend in A4. split_and!; [apply i32_small; lia|apply i32_small; lia|apply u32_small; unfold is_u32; lia|].
  intros Hn. apply u32_small. unfold is_u32. lia.
Qed.
Lemma right_part_eq k : 0 < k < num_pages e → right_part e k = {| e with
  num_pages := i32 (num_pages e - k); virtual := u32 (virtual e + k * 4096);
  physical := if decide (physical e ≠ 0) then u32 (physical e + k * 4096) else physical e;
  file_offset := if file e then u32 (file_offset e + k * 4096) else file_offset e |}.
Proof.
  intros Hk. destruct (num_small k Hk) as (_ & -> & -> & Hph). unfold right_part. f_equal. case_decide; [by rewrite Hph|done].
Qed.
End split.

Lemma norm_own e : entry_ok e → num_pages e = 1 → norm e (virtual e / 4096) = e.
Proof.
  intros [A1 A2 A3 A4 A5 A6 A7 A8] Hn. unfold norm.
  replace (virtual e / 4096 * 4096) with (virtual e) by lia. rewrite Z.sub_diag, !Z.add_0_r.
  rewrite (u32_small _ A7). destruct e as [? ? ? [] ? ? ? ? ? ? ? ? ? ? ? ? ? ? ? ? ? ? ? ph ? ?]; cbn in *; subst; by case_decide.
Qed.

(** The whole function, as it is called, leaving one page: that of [virt], or
    the first of the entry when [virt] lies before it. *)
Definition kept_page (e : vas_entry) (virt : Z) : Z := Z.max (virt / 4096) (virtual e / 4096).

Lemma Split_run `{Allocator} s v a g p e virt :
  space_ok s v a → p ∈ members s a g → entries s !! p = Some e → 0 ≤ virt < vend e →
  ∃ s' a', SplitLargePageEntryIntoMultiple v virt p 1 s = Done (1, s') ∧
    regrouped s v a g p (norm e (kept_page e virt)) s' a'.
Proof.
  intros Hok Hp He Hv. destruct (member_ok s v a g p Hok Hp) as (e' & He' & Hoke & Hg & _). assert (e' = e) as -> by congruence. clear He'.
  pose proof Hoke as [A1 A2 A3 A4 A5 A6 A7 A8]. unfold SplitLargePageEntryIntoMultiple. step (get_entry_run s p e He).
  unfold kept_page. case_decide as Hone.
  { exists s, a. split; [done|]. assert (Z.max (virt / 4096) (virtual e / 4096) = virtual e / 4096) as -> by (unfold vend in Hv; lia).
    rewrite norm_own by done. by apply regrouped_refl. }
  destruct A8 as [A8|[Hal Hsw]]; [done|].
  assert (c_assert (negb (allocated e)) s = Done (tt, s)) as Ea by (by rewrite Hal). step Ea.
  assert (c_assert (negb (swapfile e)) s = Done (tt, s)) as Ew by (by rewrite Hsw). step Ew. cbv zeta.
  assert (∃ s1 a1 e1, (if decide (virtual e / 4096 < virt / 4096) then
      pre_entry ← new_entry {| e with num_pages := i32 (virt / 4096 - virtual e / 4096) |};
      set_entry p {| e with num_pages := i32 (num_pages e - (virt / 4096 - virtual e / 4096));
        virtual := u32 (virtual e + (virt / 4096 - virtual e / 4096) * 4096);
        physical := if decide (physical e ≠ 0) then u32 (physical e + (virt / 4096 - virtual e / 4096) * 4096) else physical e;
        file_offset := if file e then u32 (file_offset e + (virt / 4096 - virtual e / 4096) * 4096) else file_offset e |};;
      InsertIntoAvl v pre_entry else mret tt) s = Done (tt, s1) ∧ regrouped s v a g p e1 s1 a1 ∧
      (∀ pg, norm e1 pg = norm e pg) ∧ virtual e1 / 4096 = Z.max (virt / 4096) (virtual e / 4096) ∧ entry_ok e1) as (s1 & a1 & e1 & E1 & R1 & Hn1 & Hv1 & Hok1).
  { unfold vend in *. case_decide as Hpre.
    - set (k := virt / 4096 - virtual e / 4096) in *. assert (0 < k < num_pages e) as Hk by lia.
      destruct (cut_run s v a Hok g p e Hp He k (left_part e k) (right_part e k) Hk ltac:(by left)) as (s1 & a1 & E1 & R1).
      exists s1, a1, (right_part e k). split.
      + rewrite <- (right_part_eq s v a Hok g p e Hp He k Hk).
        destruct (num_small s v a Hok g p e Hp He k Hk) as (-> & _). exact E1.
      + split; [done|]. split; [intros pg; by apply norm_right|]. split; [cbn; lia|by apply right_ok].
    - exists s, a, e. split; [done|]. split; [by apply regrouped_refl|]. split; [done|]. split; [lia|done]. }
  step E1. pose proof (rg_entry _ _ _ _ _ _ _ _ R1) as He1. step (get_entry_run s1 p e1 He1).
  rewrite <- Hv1, <- Hn1. clear E1. pose proof (rg_ok _ _ _ _ _ _ _ _ R1) as Hok'. pose proof (rg_member _ _ _ _ _ _ _ _ R1) as Hp1.
  case_decide as Hpost.
  - destruct (cut_run s1 v a1 Hok' g p e1 Hp1 He1 1 (right_part e1 1) (left_part e1 1) ltac:(lia) ltac:(by right)) as (s2 & a2 & E2 & R2).
    rewrite (right_part_eq s1 v a1 Hok' g p e1 Hp1 He1 1 ltac:(lia)) in E2.
    change (1 * 4096) with 4096 in E2. change (4096 * 1) with 4096.
    exists s2, a2. rewrite (M_bind_done _ _ _ _ _ E2).
    step (get_entry_run s2 p _ (rg_entry _ _ _ _ _ _ _ _ R2)). split; [done|].
    replace (norm e1 (virtual e1 / 4096)) with (left_part e1 1).
    { eapply regrouped_trans; [exact R1|exact R2|by eexists]. }
    rewrite <- (norm_left e1 1). symmetry. apply (norm_own (left_part e1 1)); [by apply left_ok; [|lia]|done].
  - exists s1, a1. rewrite (M_bind_done _ _ s1 tt s1) by done. step (get_entry_run s1 p e1 He1).
    pose proof (eo_pages _ Hok1). assert (num_pages e1 = 1) as Hn by lia. rewrite Hn. split; [done|]. by rewrite norm_own.
Qed.

(** The kept page is still in the charge of [p]. *)
Lemma regrouped_for s v a g p e y s' a' pg :
  space_ok s v a → regrouped s v a g p y s' a' → entry_for s a pg = Some p → entries s !! p = Some e → global e = g →
  covers y pg → entry_for s' a' pg = Some p.
Proof.
  intros Hok [R1 R2 R3 R4 R5 R6 R7 R8 R9 R0] Hf He Hg Hc.
  assert (page_entry (entries s') (members s' a' g) pg = Some p) as Hin.
  { apply page_entry_iff; [by eapply members_sorted|]. by rewrite (entry_at_some _ _ _ R3). }
  unfold entry_for in *. destruct g; cbn [members negb] in *; [|by rewrite Hin].
  destruct (page_entry (entries s) (locals a) pg) as [q|] eqn:E.
  - injection Hf as ->. apply page_entry_iff in E as [Hp _]; [|by eapply (members_sorted s v a false)].
    pose proof (sp_flags _ _ _ Hok false p Hp) as F. rewrite (entry_at_some _ _ _ He) in F. congruence.
  - assert (page_entry (entries s') (locals a') pg = None) as ->; [|exact Hin]. rewrite R0.
    rewrite page_entry_none in E by (by eapply (members_sorted s v a false)).
    apply page_entry_none; [rewrite <- R0; by eapply (members_sorted s' v a' false)|].
    intros x Hx Hcx. apply (E x Hx). destruct (member_ok s v a false x Hok Hx) as (z & Hz & _).
    unfold entry_at in *. rewrite R5 in Hcx; [done| |by eexists].
    intros ->. pose proof (sp_flags _ _ _ Hok false p Hx) as F. rewrite (entry_at_some _ _ _ He) in F. congruence.
Qed.
