(* ===== verification/VirtMemPages.v ===== *)
(** * The page tables against the mappings, and changes to one page *)

From Stdlib Require Import Sorted.
From S2P Require Import Prelude Tree VirtMem VirtMemTree VirtMemSplit.

#[local] Ltac Zify.zify_post_hook ::= Z.to_euclidean_division_equations.

(** ** Page table entries *)
Definition pte_at (s : vm) (v pg : Z) : option Z :=
  (λ frame, default 0 (ptab s !! (frame, pg `mod` 1024))) <$> pdir s !! (v, pg / 1024).

(** The processor sets the accessed and dirty bits. *)
Definition usage_bits : Z := Z.lor x86_PAGE_ACCESSED x86_PAGE_DIRTY.
Definition agrees (w : Z) (x : vas_entry) : Prop :=
  has w x86_PAGE_PRESENT = in_ram x ∧
  (in_ram x = true → Z.land w (Z.lnot usage_bits) = Z.lor (physical x) (pte_flags x)).

(** The loaded tables say what the mappings say. *)
Record mmu_ok (s : vm) (v : Z) (a : vas) : Prop := {
  mm_cr3 : cr3 s = v;
  mm_current : current_vas s = v;
  mm_tables : ∀ t t' f, pdir s !! (v, t) = Some f → pdir s !! (v, t') = Some f → t = t';
  mm_pages : ∀ pg x, view s a pg = Some x → ∃ w, pte_at s v pg = Some w ∧ agrees w x;
}.

(** Except that the table entry of [pg] may be out of date. *)
Record mmu_but (s : vm) (v : Z) (a : vas) (pg : Z) : Prop := {
  mb_cr3 : cr3 s = v;
  mb_current : current_vas s = v;
  mb_tables : ∀ t t' f, pdir s !! (v, t) = Some f → pdir s !! (v, t') = Some f → t = t';
  mb_pages : ∀ pg' x, view s a pg' = Some x → ∃ w, pte_at s v pg' = Some w ∧ (pg' ≠ pg → agrees w x);
}.
Lemma mmu_ok_but s v a pg : mmu_ok s v a → mmu_but s v a pg.
Proof. intros [M1 M2 M3 M4]. split; [done..|]. intros pg' x Hx. destruct (M4 pg' x Hx) as (w & Hw & Hag). eauto. Qed.

Lemma low_bits phys m : phys `mod` 4096 = 0 → 0 ≤ m < 4096 → Z.land phys m = 0.
Proof.
  intros Hp Hm. assert (phys = Z.shiftl (phys / 4096) 12) as -> by (rewrite Z.shiftl_mul_pow2; lia).
  rewrite <- (Z.mod_small m (2 ^ 12)) by lia. rewrite <- Z.land_ones by lia.
  apply Z.bits_inj'. intros n Hn. rewrite Z.land_spec, Z.land_spec, Z.bits_0.
  destruct (decide (n < 12)); [by rewrite Z.shiftl_spec_low|].
  rewrite Z.ones_spec_high by lia. by rewrite andb_false_r, andb_false_r.
Qed.
Lemma has_lor_low phys m bit : phys `mod` 4096 = 0 → 0 ≤ bit < 4096 → has (Z.lor phys m) bit = has m bit.
Proof. intros Hp Hb. unfold has. by rewrite Z.land_lor_distr_l, low_bits, Z.lor_0_l by done. Qed.
Lemma frame_of phys m : phys `mod` 4096 = 0 → 0 ≤ m < 4096 → Z.land (Z.lor phys m) (Z.lnot 0xFFF) = phys.
Proof.
  intros Hp Hm. rewrite Z.land_lor_distr_l. change 0xFFF with (Z.ones 12).
  rewrite <- !Z.ldiff_land, !Z.ldiff_ones_r, !Z.shiftr_div_pow2, !Z.shiftl_mul_pow2 by lia.
  change (2 ^ 12) with 4096. rewrite (Z.div_small m) by done. rewrite Z.lor_0_r. lia.
Qed.

Lemma pte_flags_small e : 0 ≤ pte_flags e < 8.
Proof. unfold pte_flags. destruct (_ || _), (in_ram e), (user e); vm_compute; split; congruence. Qed.
Lemma pte_flags_present e : has (pte_flags e) x86_PAGE_PRESENT = in_ram e.
Proof. unfold pte_flags. by destruct (_ || _), (in_ram e), (user e). Qed.
Lemma pte_flags_write e : has (pte_flags e) x86_PAGE_WRITE = (negb (cow e) && write e) || allow_temp_write e.
Proof. unfold pte_flags. by destruct (_ || _), (in_ram e), (user e). Qed.
Lemma fresh_agrees e : physical e `mod` 4096 = 0 → agrees (Z.lor (physical e) (pte_flags e)) e.
Proof.
  intros Ha. split; [by rewrite has_lor_low, pte_flags_present|]. intros _.
  rewrite Z.land_lor_distr_l. f_equal.
  - unfold usage_bits. rewrite <- Z.ldiff_land. apply Z.bits_inj'. intros n Hn. rewrite Z.ldiff_spec.
    assert (Z.land (physical e) 96 = 0) as H0 by (by apply low_bits).
    apply (f_equal (λ z, Z.testbit z n)) in H0. rewrite Z.land_spec, Z.bits_0 in H0. change (Z.lor x86_PAGE_ACCESSED x86_PAGE_DIRTY) with 96.
    destruct (Z.testbit (physical e) n), (Z.testbit 96 n); done.
  - unfold pte_flags. by destruct (_ || _), (in_ram e), (user e).
Qed.

(** ** Writing one entry of a table *)
Definition set_pte (s : vm) (f pg w : Z) : vm := {| s with ptab := <[(f, pg `mod` 1024) := w]> (ptab s) |}.

Section tables.
Context (s : vm) (v : Z) (Hcr3 : cr3 s = v).
Context (pg f : Z) (Hpg : 0 ≤ pg < 2 ^ 20) (Hf : pdir s !! (v, pg / 1024) = Some f).

Lemma table_index : pg * 4096 / 0x400000 = pg / 1024.
Proof. lia. Qed.
Lemma page_index : (pg * 4096) `mod` 0x400000 / 4096 = pg `mod` 1024.
Proof. lia. Qed.

Lemma x86GetPageEntry_run : x86GetPageEntry v (pg * 4096) s = Done ((f, pg `mod` 1024), s).
Proof.
  unfold x86GetPageEntry. rewrite table_index, page_index, (M_bind_done _ _ s s s) by done.
  rewrite decide_False by (by rewrite Hf). rewrite (M_bind_done _ _ s tt s) by done.
  unfold table_frame. mred. by rewrite Hcr3, Hf.
Qed.
Lemma x86MapPage_run phys flags : x86MapPage v phys (pg * 4096) flags s = Done (tt, set_pte s f pg (Z.lor phys flags)).
Proof. unfold x86MapPage. step x86GetPageEntry_run. done. Qed.

Lemma translate_run w for_write : pte_at s v pg = Some w → has w x86_PAGE_PRESENT = true →
  for_write = false ∨ has w x86_PAGE_WRITE = true → translate (pg * 4096) for_write s = Done (Z.land w (Z.lnot 0xFFF), s).
Proof.
  intros Hw Hp Hwr. unfold pte_at in Hw. rewrite Hf in Hw. injection Hw as Hw.
  unfold translate. rewrite table_index, page_index, (M_bind_done _ _ s s s) by done. rewrite Hcr3, Hf.
  rewrite (M_bind_done _ _ s f s) by done. unfold read_pte. mred. rewrite Hw, Hp. destruct Hwr as [Hwr|Hwr]; rewrite Hwr; by rewrite ?orb_true_r.
Qed.
End tables.

Lemma set_pte_at s v pg f w pg' :
  (∀ t t' f, pdir s !! (v, t) = Some f → pdir s !! (v, t') = Some f → t = t') → pdir s !! (v, pg / 1024) = Some f →
  pte_at (set_pte s f pg w) v pg' = if decide (pg' = pg) then Some w else pte_at s v pg'.
Proof.
  intros Hinj Hf. unfold pte_at. cbn [pdir set_pte ptab]. case_decide as Hd.
  - subst pg'. rewrite Hf. cbn. by rewrite lookup_insert_eq.
  - destruct (pdir s !! (v, pg' / 1024)) as [f'|] eqn:E; [|done]. cbn. f_equal. f_equal. rewrite lookup_insert_ne; [done|].
    intros [= <- Hm]. assert (pg' / 1024 = pg / 1024) by (by eapply Hinj). lia.
Qed.

(** ** Replacing the entry of one page *)
Definition set_entries (s : vm) (p : Z) (x : vas_entry) : vm := {| s with entries := <[p := x]> (entries s) |}.

Lemma entry_for_member s v a pg p : space_ok s v a → entry_for s a pg = Some p →
  ∃ g e, p ∈ members s a g ∧ entries s !! p = Some e ∧ entry_ok e ∧ global e = g ∧ covers e pg ∧ p ≠ NULL.
Proof.
  intros Hok. unfold entry_for. destruct (page_entry (entries s) (locals a) pg) as [q|] eqn:E; [intros [= <-]|intros E'].
  - apply page_entry_iff in E as [Hin Hc]; [|by eapply (members_sorted s v a false)].
    destruct (member_ok s v a false q Hok Hin) as (e & He & ? & ? & ?). exists false, e.
    rewrite (entry_at_some _ _ _ He) in Hc. done.
  - apply page_entry_iff in E' as [Hin Hc]; [|by eapply (members_sorted s v a true)].
    destruct (member_ok s v a true p Hok Hin) as (e & He & ? & ? & ?). exists true, e.
    rewrite (entry_at_some _ _ _ He) in Hc. done.
Qed.

Lemma covers_page e pg : entry_ok e → covers e pg → num_pages e = 1 → virtual e = pg * 4096.
Proof. intros [A1 A2 A3 A4 A5 A6 A7 A8] Hc Hn. unfold covers, vend in *. lia. Qed.
Lemma covers_range e pg : entry_ok e → covers e pg → 0 ≤ pg < 2 ^ 20.
Proof. intros [A1 A2 A3 A4 A5 A6 A7 A8] Hc. unfold covers in *. lia. Qed.

Section set_page.
Context (s : vm) (v : Z) (a : vas) (Hok : space_ok s v a) (g : bool) (p : Z) (e e' : vas_entry).
Context (Hp : p ∈ members s a g) (He : entries s !! p = Some e).
Context (Hv : virtual e' = virtual e) (Hn : num_pages e' = num_pages e) (Hg : global e' = global e) (Hok' : entry_ok e').

Lemma set_page_others q : q ≠ p → entries (set_entries s p e') !! q = entries s !! q.
Proof. intros. cbn. by rewrite lookup_insert_ne. Qed.
Lemma set_page_same : entries (set_entries s p e') !! p = Some e'.
Proof. apply lookup_insert_eq. Qed.

Lemma set_page_ok : space_ok (set_entries s p e') v a.
Proof.
  destruct (member_ok s v a g p Hok Hp) as (e0 & He0 & _ & _ & Hnn). assert (e0 = e) as -> by congruence.
  assert (∀ g' : bool, tree_ok (entries (set_entries s p e')) (if g' then global_vas_mappings s else mappings a) (if g' then globals_size s else mappings_size a)) as Ht.
  { intros g'. eapply tree_ok_shrink; [by apply (space_tree s v a g')|exact He|apply set_page_same|done|lia| |].
    - unfold vend. lia.
    - intros q _ Hq. by apply set_page_others. }
  destruct Hok as [O1 O2 O3 O4 O5 O6 O7]. split; try done.
  - cbn. by rewrite lookup_insert_ne.
  - apply (Ht false).
  - apply (Ht true).
  - intros g' q Hq. unfold entry_at. destruct (decide (q = p)) as [->|Hne].
    + rewrite set_page_same. change (global e' = g'). rewrite Hg. pose proof (O7 _ _ Hq) as F. by rewrite (entry_at_some _ _ _ He) in F.
    + rewrite set_page_others by done. by apply O7.
Qed.

(** Which entry is in charge of a page does not change. *)
Lemma set_page_entry l pg : page_entry (entries (set_entries s p e')) l pg = page_entry (entries s) l pg.
Proof.
  unfold page_entry. f_equal. apply list_filter_iff. intros q. unfold covers, vend, entry_at.
  destruct (decide (q = p)) as [->|Hne]; [rewrite set_page_same, He; cbn; by rewrite Hv, Hn|by rewrite set_page_others].
Qed.
Lemma set_page_for pg : entry_for (set_entries s p e') a pg = entry_for s a pg.
Proof. unfold entry_for. by rewrite !set_page_entry. Qed.
Lemma set_page_view pg : view (set_entries s p e') a pg =
  if decide (entry_for s a pg = Some p) then Some (norm e' pg) else view s a pg.
Proof.
  rewrite !view_entry, set_page_for. destruct (entry_for s a pg) as [q|]; [|by rewrite decide_False]. cbn. case_decide as Hq.
  - injection Hq as ->. by rewrite (entry_at_some _ p e') by apply set_page_same.
  - unfold entry_at. rewrite set_page_others; [done|]. congruence.
Qed.
End set_page.

(** When that page has an entry of its own. *)
Lemma set_one_page s v a pg p e e' :
  space_ok s v a → entry_for s a pg = Some p → entries s !! p = Some e → num_pages e = 1 →
  virtual e' = virtual e → num_pages e' = 1 → global e' = global e → entry_ok e' →
  space_ok (set_entries s p e') v a ∧ entry_for (set_entries s p e') a pg = Some p ∧
  ∀ pg', view (set_entries s p e') a pg' = if decide (pg' = pg) then Some e' else view s a pg'.
Proof.
  intros Hok Hf He Hn Hv Hn' Hg Hok'. destruct (entry_for_member s v a pg p Hok Hf) as (g & e0 & Hp & He0 & Hoke & Hge & Hc & Hnn).
  assert (e0 = e) as -> by congruence. split; [eapply set_page_ok; eauto; lia|].
  split; [by rewrite (set_page_for s a p e) by (done || lia)|]. intros pg'.
  pose proof (covers_page e pg Hoke Hc Hn) as Hve. rewrite (set_page_view s a p e) by (done || lia). case_decide as H1; case_decide as H2.
  - subst pg'. f_equal. replace pg with (virtual e' / 4096) by lia. by apply norm_own.
  - destruct (entry_for_member s v a pg' p Hok H1) as (g' & e1 & _ & He1 & Hok1 & _ & Hc' & _). assert (e1 = e) as -> by congruence.
    pose proof (covers_page e pg' Hok1 Hc' Hn). lia.
  - subst pg'. by rewrite Hf in H1.
  - done.
Qed.

(** ** Locks *)
Definition lock_vas (a : vas) : vas := {| a with vas_lock := true |}.
Definition unlock_vas (a : vas) : vas := {| a with vas_lock := false |}.
Definition put_vas (s : vm) (v : Z) (a : vas) : vm := {| s with vases := <[v := a]> (vases s) |}.
Definition locked (s : vm) (v : Z) (a : vas) : vm := put_vas s v (lock_vas a).
Definition unlocked (s : vm) (v : Z) (a : vas) : vm := put_vas s v (unlock_vas a).

(** The invariant when nobody holds the lock. *)
Record at_rest (s : vm) (v : Z) (a : vas) : Prop := {
  ar_vas : vases s !! v = Some a;
  ar_free : vas_lock a = false;
  ar_ok : space_ok (locked s v a) v (lock_vas a);
}.

Lemma AcquireVas_run s v a : at_rest s v a → AcquireVas v s = Done (tt, locked s v a).
Proof. intros [A1 A2 A3]. unfold AcquireVas, get_vas. mred. rewrite A1. mred. by rewrite A2. Qed.
Lemma ReleaseVas_run s v a : space_ok s v a → ReleaseVas v s = Done (tt, unlocked s v a).
Proof. intros H. unfold ReleaseVas, get_vas. mred. rewrite (sp_vas _ _ _ H). mred. by rewrite (sp_lock _ _ _ H). Qed.
Lemma unlocked_locked s v a : at_rest s v a → unlocked (locked s v a) v (lock_vas a) = s.
Proof.
  intros [A1 A2 A3]. unfold unlocked, locked, put_vas. cbn. rewrite insert_insert_eq.
  replace (unlock_vas (lock_vas a)) with a by (unfold unlock_vas, lock_vas; destruct a; cbn in *; by subst).
  rewrite insert_id by done. by destruct s.
Qed.
Lemma put_vas_ok s v a a' : space_ok s v a → vas_lock a' = true → mappings a' = mappings a → mappings_size a' = mappings_size a →
  space_ok (put_vas s v a') v a'.
Proof.
  intros [O1 O2 O3 O4 O5 O6 O7] Hl Hm Hs. split; try done.
  - cbn. apply lookup_insert_eq.
  - by rewrite Hm, Hs.
  - intros [] q; cbn [members]; [apply (O7 true)|]. unfold locals. rewrite Hm. apply (O7 false).
Qed.
Lemma release_rest s v a : space_ok s v a → at_rest (unlocked s v a) v (unlock_vas a).
Proof.
  intros H. split; [cbn; apply lookup_insert_eq|done|].
  assert (locked (unlocked s v a) v (unlock_vas a) = put_vas s v (lock_vas (unlock_vas a))) as ->.
  { unfold locked, unlocked, put_vas. cbn. by rewrite insert_insert_eq. }
  by eapply put_vas_ok.
Qed.

Lemma mmu_same s s' v a a' :
  (∀ pg, view s' a' pg = view s a pg) → cr3 s' = cr3 s → current_vas s' = current_vas s → pdir s' = pdir s → ptab s' = ptab s →
  mmu_ok s v a → mmu_ok s' v a'.
Proof.
  intros H1 H2 H3 H4 H5 [M1 M2 M3 M4]. split; rewrite ?H2, ?H3, ?H4; try done.
  intros pg x Hx. rewrite H1 in Hx. destruct (M4 pg x Hx) as (w & Hw & Hag). exists w. split; [|done].
  unfold pte_at. by rewrite H4, H5.
Qed.
Lemma mmu_locked s v a : mmu_ok s v a → mmu_ok (locked s v a) v (lock_vas a).
Proof. by apply mmu_same. Qed.
Lemma mmu_unlocked s v a : mmu_ok s v a → mmu_ok (unlocked s v a) v (unlock_vas a).
Proof. by apply mmu_same. Qed.
Lemma mmu_regrouped s v a g p y s' a' : regrouped s v a g p y s' a' → mmu_ok s v a → mmu_ok s' v a'.
Proof.
  intros R. pose proof (rg_frame _ _ _ _ _ _ _ _ R) as F. apply mmu_same; [intros ?; by eapply rg_view|rewrite F..]; done.
Qed.

(** ** An entry of one page, written to the tables *)
Section update.
Context (s : vm) (v : Z) (a : vas) (pg p : Z) (e e' : vas_entry).
Context (Hok : space_ok s v a) (Hf : entry_for s a pg = Some p) (He : entries s !! p = Some e) (Hn : num_pages e = 1).
Context (Hv' : virtual e' = virtual e) (Hn' : num_pages e' = 1) (Hg' : global e' = global e) (Hok' : entry_ok e').
Context (f : Z) (Hd : pdir s !! (v, pg / 1024) = Some f).

Definition updated (f : Z) : vm := set_pte (set_entries s p e') f pg (Z.lor (physical e') (pte_flags e')).

Lemma ArchUpdateMapping_run : cr3 s = v → ArchUpdateMapping v p (set_entries s p e') = Done (tt, updated f).
Proof.
  intros Hcr. unfold ArchUpdateMapping. assert (get_entry p (set_entries s p e') = Done (e', set_entries s p e')) as E.
  { apply get_entry_run. apply set_page_same. }
  step E. rewrite decide_False by lia. destruct (entry_for_member s v a pg p Hok Hf) as (g & e0 & Hp & He0 & Hoke & Hge & Hc & Hnn).
  assert (e0 = e) as -> by congruence. rewrite Hv', (covers_page e pg Hoke Hc Hn).
  apply x86MapPage_run; [done|by eapply covers_range|done].
Qed.

Lemma updated_ok : space_ok (updated f) v a ∧ entry_for (updated f) a pg = Some p ∧
  (∀ pg', view (updated f) a pg' = if decide (pg' = pg) then Some e' else view s a pg') ∧
  (mmu_but s v a pg → mmu_ok (updated f) v a).
Proof.
  destruct (set_one_page s v a pg p e e') as (O1 & O2 & O3); [done..|]. split_and!; [by destruct O1; split|done|done|].
  intros [M1 M2 M3 M4]. split; [done|done|done|]. intros pg' x Hx. change (view (updated f) a pg') with (view (set_entries s p e') a pg') in Hx.
  rewrite O3 in Hx. unfold updated. rewrite (set_pte_at (set_entries s p e') v pg f _ pg') by done. case_decide.
  - injection Hx as <-. eexists. split; [done|]. apply fresh_agrees, (eo_phys_align _ Hok').
  - destruct (M4 pg' x Hx) as (w & Hw & Hag). eauto.
Qed.
End update.
