(* ===== verification/VirtMemFault.v ===== *)
(** * Faults on pages that are not in memory *)

From Stdlib Require Import Sorted.
From S2P Require Import Prelude Tree VirtMem VirtMemTree VirtMemSplit VirtMemPages.
From S2P Require Physical Swapfile.

#[local] Ltac Zify.zify_post_hook ::= Z.to_euclidean_division_equations.

Lemma entry_ok_ext e e' : entry_ok e → virtual e' = virtual e → num_pages e' = num_pages e → physical e' = physical e →
  file_offset e' = file_offset e → allocated e' = allocated e → swapfile e' = swapfile e → entry_ok e'.
Proof.
  intros [A1 A2 A3 A4 A5 A6 A7 A8] H1 H2 H3 H4 H5 H6. unfold vend in *.
  split; unfold vend; by rewrite ?H1, ?H2, ?H3, ?H4, ?H5, ?H6.
Qed.

(** ** A page with an entry of its own, under the lock *)
Record held (s : vm) (v : Z) (a : vas) (pg p : Z) (x : vas_entry) : Prop := {
  hd_ok : space_ok s v a;
  hd_mmu : mmu_ok s v a;
  hd_for : entry_for s a pg = Some p;
  hd_entry : entries s !! p = Some x;
  hd_one : num_pages x = 1;
}.
(** The same, its table entry not yet written. *)
Record held_but (s : vm) (v : Z) (a : vas) (pg p : Z) (x : vas_entry) : Prop := {
  hb_ok : space_ok s v a;
  hb_mmu : mmu_but s v a pg;
  hb_for : entry_for s a pg = Some p;
  hb_entry : entries s !! p = Some x;
  hb_one : num_pages x = 1;
}.
Lemma held_held_but s v a pg p x : held s v a pg p x → held_but s v a pg p x.
Proof. intros []. split; auto using mmu_ok_but. Qed.

(** Only page tables changed. *)
Definition table_frame (s s' : vm) : Prop := s' = {| s with ptab := ptab s' |}.

Definition with_pm (s : vm) (q : Physical.phys) : vm := {| s with pm := q |}.
Definition with_ram (s : vm) (m : gmap Z page) : vm := {| s with ram := m |}.
Lemma space_ok_pm s v a q : space_ok s v a → space_ok (with_pm s q) v a.
Proof. by intros []; split. Qed.
Lemma mmu_ok_pm s v a q : mmu_ok s v a → mmu_ok (with_pm s q) v a.
Proof. by intros []; split. Qed.
Lemma held_pm s v a pg p x q : held s v a pg p x → held (with_pm s q) v a pg p x.
Proof. intros []; split; auto using space_ok_pm, mmu_ok_pm. Qed.
Lemma held_ram s v a pg p x m : held s v a pg p x → held (with_ram s m) v a pg p x.
Proof. intros [[] [] H1 H2 H3]; split; try done; by split. Qed.

Section held_but.
Context (s : vm) (v : Z) (a : vas) (pg p : Z) (x : vas_entry) (Hh : held_but s v a pg p x).

Lemma held_but_view : view s a pg = Some x ∧ entry_ok x ∧ 0 ≤ pg < 2 ^ 20 ∧ virtual x = pg * 4096.
Proof.
  destruct Hh as [H1 H2 H3 H4 H5]. destruct (entry_for_member s v a pg p H1 H3) as (g & e & Hp & He & Hok & _ & Hc & _).
  assert (e = x) as -> by congruence. pose proof (covers_page x pg Hok Hc H5) as Hv. split_and!; try done; try by eapply covers_range.
  rewrite view_entry, H3. cbn. rewrite (entry_at_some _ _ _ H4). f_equal. replace pg with (virtual x / 4096) by lia. by apply norm_own.
Qed.

(** Changing the entry and writing it to the tables. *)
Lemma remap_run x' : virtual x' = virtual x → num_pages x' = 1 → global x' = global x → entry_ok x' →
  ∃ s', ArchUpdateMapping v p (set_entries s p x') = Done (tt, s') ∧ ArchFlushTlb v s' = Done (tt, s') ∧
    held s' v a pg p x' ∧ table_frame (set_entries s p x') s' ∧
    pte_at s' v pg = Some (Z.lor (physical x') (pte_flags x')) ∧
    (∀ pg', pg' ≠ pg → pte_at s' v pg' = pte_at s v pg') ∧
    ∀ pg', view s' a pg' = if decide (pg' = pg) then Some x' else view s a pg'.
Proof.
  intros Hv Hn Hg Hok. destruct held_but_view as (Vx & _). destruct Hh as [H1 H2 H3 H4 H5].
  destruct (mb_pages _ _ _ _ H2 pg x Vx) as (w & Hw & _). unfold pte_at in Hw.
  destruct (pdir s !! (v, pg / 1024)) as [f|] eqn:Hd; [|done]. exists (updated s pg p x' f).
  destruct (updated_ok s v a pg p x x' H1 H3 H4 H5 Hv Hn Hg Hok f Hd) as (U1 & U2 & U3 & U4).
  split; [eapply ArchUpdateMapping_run; eauto using mb_cr3|]. split.
  { unfold ArchFlushTlb, ArchSetVas, modify. cbn. do 2 f_equal. by rewrite <- (mb_cr3 _ _ _ _ H2). }
  split; [split; auto; cbn; apply lookup_insert_eq|]. split; [done|].
  pose proof (λ w, set_pte_at (set_entries s p x') v pg f w) as Hs. cbn [pdir set_entries] in Hs.
  split; [|split; [|done]].
  - unfold updated. rewrite Hs; [by rewrite decide_True|apply H2|done].
  - intros pg' Hne. unfold updated. rewrite Hs; [by rewrite decide_False|apply H2|done].
Qed.
End held_but.

Section held.
Context (s : vm) (v : Z) (a : vas) (pg p : Z) (x : vas_entry) (Hh : held s v a pg p x).

Lemma held_view : view s a pg = Some x ∧ entry_ok x ∧ 0 ≤ pg < 2 ^ 20 ∧ virtual x = pg * 4096.
Proof. by eapply held_but_view, held_held_but. Qed.
Lemma held_get : get_entry p s = Done (x, s).
Proof. apply get_entry_run, Hh. Qed.

Lemma write_page_run w c : pte_at s v pg = Some w → has w x86_PAGE_PRESENT = true → has w x86_PAGE_WRITE = true →
  write_page (virtual x) c s = Done (tt, with_ram s (<[Z.land w (Z.lnot 0xFFF) := c]> (ram s))).
Proof.
  intros Hw H1 H2. destruct held_view as (_ & _ & Hr & ->). pose proof Hw as Hw'. unfold pte_at in Hw'.
  destruct (pdir s !! (v, pg / 1024)) as [f|] eqn:Hd; [|done]. unfold write_page.
  step (translate_run s v (mm_cr3 _ _ _ (hd_mmu _ _ _ _ _ _ Hh)) pg f Hr Hd w true Hw H1 (or_intror H2)). done.
Qed.
Lemma read_page_run w : pte_at s v pg = Some w → has w x86_PAGE_PRESENT = true →
  read_page (virtual x) s = Done (default ∅ (ram s !! Z.land w (Z.lnot 0xFFF)), s).
Proof.
  intros Hw H1. destruct held_view as (_ & _ & Hr & ->). pose proof Hw as Hw'. unfold pte_at in Hw'.
  destruct (pdir s !! (v, pg / 1024)) as [f|] eqn:Hd; [|done]. unfold read_page.
  by step (translate_run s v (mm_cr3 _ _ _ (hd_mmu _ _ _ _ _ _ Hh)) pg f Hr Hd w false Hw H1 (or_introl eq_refl)).
Qed.
End held.

(** ** Splitting down to a page *)
Section split_page.
Context `{Allocator}.
Context (s : vm) (v : Z) (a : vas) (pg virt p : Z).
Context (Hok : space_ok s v a) (Hm : mmu_ok s v a) (Hf : entry_for s a pg = Some p).

(** From an address before the page when nothing is mapped in between. *)
Lemma split_page_from : 0 ≤ virt → virt / 4096 ≤ pg → (∀ k g, virt / 4096 ≤ k < pg → view_of s a g k = None) →
  ∃ s' a' x, SplitLargePageEntryIntoMultiple v virt p 1 s = Done (1, s') ∧ view s a pg = Some x ∧
    held s' v a' pg p x ∧ (∀ pg', view s' a' pg' = view s a pg') ∧ map_frame s s' ∧
    (∀ g pg', view_of s' a' g pg' = view_of s a g pg') ∧ (∀ w, w ≠ v → vases s' !! w = vases s !! w).
Proof.
  intros Hv0 Hle Hgap. destruct (entry_for_member s v a pg p Hok Hf) as (g & e & Hp & He & Hoke & Hg & Hc & Hnn).
  pose proof (covers_range e pg Hoke Hc) as Hr.
  assert (0 ≤ virt < vend e) as Hv by (destruct Hoke; unfold covers, vend in *; lia).
  destruct (Split_run s v a g p e virt Hok Hp He Hv) as (s' & a' & E & R).
  assert (kept_page e virt = pg) as Hk.
  { unfold kept_page. set (k := Z.max (virt / 4096) (virtual e / 4096)). assert (k ≤ pg ∧ covers e k) as [Hkp Hck].
    { unfold k. destruct Hoke. unfold covers, vend in *. lia. }
    destruct (decide (k = pg)) as [|Hne]; [done|]. assert (view_of s a g k = Some (norm e k)) as Vk.
    { apply view_in_iff; [by eapply members_sorted|]. exists p. by rewrite (entry_at_some _ _ _ He). }
    rewrite Hgap in Vk by lia. done. }
  rewrite Hk in R. exists s', a', (norm e pg). split; [done|]. split; [by rewrite view_entry, Hf; cbn; rewrite (entry_at_some _ _ _ He)|].
  split; [split|split; [intros ?; by eapply rg_view|split; [apply (rg_frame _ _ _ _ _ _ _ _ R)|split; [apply (rg_views _ _ _ _ _ _ _ _ R)|]]]].
  - apply (rg_ok _ _ _ _ _ _ _ _ R).
  - by eapply mmu_regrouped.
  - eapply regrouped_for; [exact Hok|exact R|done|exact He|done|]; unfold covers, vend, norm; simpl; lia.
  - apply (rg_entry _ _ _ _ _ _ _ _ R).
  - done.
  - intros w Hw. rewrite (rg_vases _ _ _ _ _ _ _ _ R). by rewrite lookup_insert_ne.
Qed.
Lemma split_page : virt / 4096 = pg →
  ∃ s' a' x, SplitLargePageEntryIntoMultiple v virt p 1 s = Done (1, s') ∧ view s a pg = Some x ∧
    held s' v a' pg p x ∧ (∀ pg', view s' a' pg' = view s a pg') ∧ map_frame s s' ∧
    (∀ g pg', view_of s' a' g pg' = view_of s a g pg') ∧ (∀ w, w ≠ v → vases s' !! w = vases s !! w).
Proof.
  intros Hpg. destruct (entry_for_member s v a pg p Hok Hf) as (g & e & _ & _ & Hoke & _ & Hc & _).
  pose proof (covers_range e pg Hoke Hc). apply split_page_from; [lia..|]. intros; lia.
Qed.
End split_page.

(** ** Filling a page with zeroes on demand *)
Definition permitted (fault_type : Z) (x : vas_entry) : bool :=
  negb (has fault_type VM_READ && negb (read x)) && negb (has fault_type VM_WRITE && negb (write x))
  && negb (has fault_type VM_EXEC && negb (exec x)).
Definition filled (frame : Z) (x : vas_entry) : vas_entry :=
  {| x with physical := frame; allocated := true; in_ram := true; allow_temp_write := false |}.

(** Frames come from the free set [free] of the physical allocator. *)
Definition frames_ok (s : vm) (free : gset Z) : Prop := Physical.phys_inv (pm s) free ∧ Physical.phys_lock (pm s) = false.

Lemma AllocPhys_frame s free : frames_ok s free → free ≠ ∅ →
  ∃ i q, AllocPhys s = Done (i * 4096, with_pm s q) ∧ i ∈ free ∧ 0 ≤ i < 2 ^ 20 ∧ frames_ok (with_pm s q) (free ∖ {[i]}).
Proof.
  intros [Hi Hl] Hne. destruct (Physical.AllocPhys_run (pm s) free (size free) Hi Hl Hne) as (i & q & E & Hin & Hi' & Hl' & _ & _).
  { pose proof (Physical.size_pos free Hne). lia. }
  exists i, q. unfold AllocPhys, on_phys. rewrite E. split; [done|]. split; [done|].
  pose proof (Physical.pi_range _ _ _ Hi i Hin). pose proof (Physical.pi_highest _ _ _ Hi) as Hh. rewrite Physical.max_pages_val in Hh.
  split; [lia|]. split; [|done]. by rewrite Physical.size_remove.
Qed.

Section fault.
Context `{Allocator}.
Context (s : vm) (v : Z) (a : vas) (virt fault_type : Z) (x : vas_entry) (p : Z).
Context (Hok : space_ok s v a) (Hm : mmu_ok s v a).
Context (Hf : entry_for s a (virt / 4096) = Some p) (Hx : view s a (virt / 4096) = Some x).

Lemma entry_view : ∃ e, entries s !! p = Some e ∧ x = norm e (virt / 4096).
Proof.
  destruct (entry_for_member s v a _ p Hok Hf) as (g & e & Hp & He & _). exists e. split; [done|].
  rewrite view_entry, Hf in Hx. cbn in Hx. rewrite (entry_at_some _ _ _ He) in Hx. congruence.
Qed.

Lemma BringInBlankPage_denied : permitted fault_type x = false →
  BringInBlankPage v p virt fault_type s = UnhandledFault UNHANDLED_FAULT_SEGV s.
Proof.
  intros Hd. destruct entry_view as (e & He & ->). unfold BringInBlankPage. step (get_entry_run s p e He).
  unfold permitted in Hd. cbn [read write exec norm] in Hd.
  destruct (has fault_type VM_READ && negb (read e)), (has fault_type VM_WRITE && negb (write e)), (has fault_type VM_EXEC && negb (exec e)); done.
Qed.

Lemma BringInBlankPage_run free : frames_ok s free → free ≠ ∅ → permitted fault_type x = true →
  in_ram x = false → swapfile x = false →
  ∃ i s' a', BringInBlankPage v p virt fault_type s = Done (tt, s') ∧ i ∈ free ∧
    held s' v a' (virt / 4096) p (filled (i * 4096) x) ∧ frames_ok s' (free ∖ {[i]}) ∧
    (∀ pg, view s' a' pg = if decide (pg = virt / 4096) then Some (filled (i * 4096) x) else view s a pg) ∧
    ram s' = <[i * 4096 := ∅]> (ram s) ∧ faults s' = faults s ∧ vas_lock a' = vas_lock a.
Proof.
  intros Hfr Hne Hp Hr Hsw. destruct entry_view as (e & He & Ex). set (pg := virt / 4096) in *.
  destruct (split_page s v a pg virt p Hok Hm Hf eq_refl) as (s1 & a1 & x1 & E1 & Hx1 & H1 & V1 & F1 & _).
  assert (x1 = x) as -> by congruence.
  assert (frames_ok s1 free) as Hfr1 by (unfold frames_ok; by rewrite F1).
  destruct (AllocPhys_frame s1 free Hfr1 Hne) as (i & q & E2 & Hi & Hir & Hfr2).
  set (x2 := {| x with physical := i * 4096; allocated := true; in_ram := true; allow_temp_write := true |}).
  pose proof (held_pm _ _ _ _ _ _ q H1) as H2. destruct (held_view _ _ _ _ _ _ H1) as (_ & Hokx & Hpg & Hvx).
  pose proof (hd_one _ _ _ _ _ _ H1) as Hone.
  assert (entry_ok x2) as Hok2 by (destruct Hokx; split; unfold vend in *; cbn; try done; try lia).
  destruct (remap_run _ _ _ _ _ _ (held_held_but _ _ _ _ _ _ H2) x2) as (s3 & E3 & E3' & H3 & F3 & P3 & _ & V3); [done..|].
  set (w := Z.lor (physical x2) (pte_flags x2)) in *.
  assert (has w x86_PAGE_PRESENT = true ∧ has w x86_PAGE_WRITE = true ∧ Z.land w (Z.lnot 0xFFF) = i * 4096) as (Hw1 & Hw2 & Hw3).
  { assert (physical x2 `mod` 4096 = 0) as Hal by (cbn; lia). pose proof (pte_flags_small x2). unfold w.
    rewrite !has_lor_low, frame_of, pte_flags_present, pte_flags_write by (done || lia). split; [done|]. split; [cbn; apply orb_true_r|done]. }
  pose proof (write_page_run _ _ _ _ _ _ H3 w ∅ P3 Hw1 Hw2) as E4. rewrite Hw3 in E4.
  pose proof (held_ram _ _ _ _ _ _ (<[i * 4096 := ∅]> (ram s3)) H3) as H4.
  assert (entry_ok (filled (i * 4096) x)) as Hok5 by (by apply (entry_ok_ext x2)).
  destruct (remap_run _ _ _ _ _ _ (held_held_but _ _ _ _ _ _ H4) (filled (i * 4096) x)) as (s5 & E5 & E5' & H5 & F5 & _ & _ & V5); [done..|].
  exists i, s5, a1. split_and!.
  - unfold BringInBlankPage. step (get_entry_run s p e He). unfold permitted in Hp. rewrite Ex in Hp. cbn [read write exec norm] in Hp.
    destruct (has fault_type VM_READ && negb (read e)); [done|]. destruct (has fault_type VM_WRITE && negb (write e)); [done|].
    destruct (has fault_type VM_EXEC && negb (exec e)); [done|]. step E1. step (held_get _ _ _ _ _ _ H1).
    rewrite bool_decide_true by done. rewrite (M_bind_done _ _ s1 tt s1) by done. step E2. cbv zeta. fold x2.
    rewrite (M_bind_done _ _ (with_pm s1 q) tt (set_entries (with_pm s1 q) p x2)) by done.
    assert (c_assert (negb (swapfile x2)) (set_entries (with_pm s1 q) p x2) = Done (tt, set_entries (with_pm s1 q) p x2)) as Ea by (cbn; by rewrite Hsw).
    step Ea. step E3. step E3'. step E4.
    rewrite (M_bind_done _ _ _ tt (set_entries (with_ram s3 (<[i * 4096 := ∅]> (ram s3))) p (filled (i * 4096) x))) by done.
    step E5. exact E5'.
  - done.
  - done.
  - unfold frames_ok in *. rewrite F5. cbn [pm with_ram]. by rewrite F3.
  - intros pg'. rewrite V5. case_decide; [done|]. change (view s3 a1 pg' = view s a pg'). rewrite V3.
    rewrite decide_False by done. apply V1.
  - rewrite F5. cbn [ram with_ram]. rewrite F3. cbn [ram with_pm]. by rewrite F1.
  - rewrite F5. cbn [faults with_ram]. rewrite F3. cbn [faults with_pm]. by rewrite F1.
  - by rewrite (sp_lock _ _ _ Hok), (sp_lock _ _ _ (hd_ok _ _ _ _ _ _ H1)).
Qed.
End fault.
