(* ===== verification/VirtMemCow.v ===== *)
(** * Copy on write: a private copy of a shared page *)

From Stdlib Require Import Sorted.
From S2P Require Import Prelude Tree VirtMem VirtMemTree VirtMemSplit VirtMemPages VirtMemFault.
From S2P Require Physical Swapfile.

#[local] Ltac Zify.zify_post_hook ::= Z.to_euclidean_division_equations.

(** ** Entries that are in no tree yet *)
Lemma add_entry_ok s v a q x : space_ok s v a → entries s !! q = None → q ≠ NULL →
  space_ok (set_entries s q x) v a ∧
  (∀ g z, z ∈ members s a g → entries (set_entries s q x) !! z = entries s !! z).
Proof.
  intros Hok Hq Hqn. assert (∀ g z, z ∈ members s a g → entries (set_entries s q x) !! z = entries s !! z) as Hz.
  { intros g z Hz. destruct (member_ok s v a g z Hok Hz) as (w & Hw & _). cbn. rewrite lookup_insert_ne; [done|]. intros ->. congruence. }
  split; [|done]. destruct Hok as [O1 O2 O3 O4 O5 O6 O7]. split; try done.
  - cbn. by rewrite lookup_insert_ne.
  - eapply tree_ok_agree; [apply (Hz false)|done].
  - eapply tree_ok_agree; [apply (Hz true)|done].
  - intros g z Hz'. unfold entry_at. rewrite (Hz g) by done. by apply O7.
Qed.

(** ** One entry in the place of another *)
Lemma page_entry_agree es es' l pg : (∀ x, x ∈ l → es' !! x = es !! x) → page_entry es' l pg = page_entry es l pg.
Proof.
  intros Hl. unfold page_entry. f_equal. induction l as [|x l IH]; [done|]. rewrite !filter_cons.
  assert (entry_at es' x = entry_at es x) as -> by (unfold entry_at; rewrite Hl; [done|set_solver]).
  rewrite IH by (intros; apply Hl; set_solver). done.
Qed.
Section replace.
Context (es es' : gmap Z vas_entry) (l l' : list Z) (p q : Z).
Context (Hs : StronglySorted (before es) l) (Hs' : StronglySorted (before es') l').
Context (Hin : ∀ x, x ∈ l' ↔ x = q ∨ x ≠ p ∧ x ∈ l) (Hp : p ∈ l) (Hq : q ∉ l).
Context (Hrange : ∀ pg, covers (entry_at es' q) pg ↔ covers (entry_at es p) pg).
Context (Hrest : ∀ x, x ∈ l → x ≠ p → es' !! x = es !! x).

Lemma page_entry_replace pg : page_entry es' l' pg =
  if decide (page_entry es l pg = Some p) then Some q else page_entry es l pg.
Proof.
  case_decide as Hd.
  - apply page_entry_iff in Hd as [_ Hc]; [|done]. apply page_entry_iff; [done|]. split; [rewrite Hin; by left|by apply Hrange].
  - apply option_eq. intros x. rewrite page_entry_iff by done. rewrite Hin. split.
    + intros [[->|[Hne Hx]] Hc]; [exfalso; apply Hd, page_entry_iff; [done|]; split; [done|by apply Hrange]|].
      apply page_entry_iff; [done|]. split; [done|]. unfold entry_at in *. by rewrite Hrest in Hc.
    + intros E. assert (x ≠ p) as Hne by congruence. apply page_entry_iff in E as [Hx Hc]; [|done]. split; [by right|].
      unfold entry_at in *. by rewrite Hrest.
Qed.
End replace.

(** ** An address space with one entry in the place of another *)
Section replaced.
Context (s s' : vm) (v : Z) (a a' : vas) (pg p q : Z) (e y : vas_entry) (g : bool).
Context (Hok : space_ok s v a) (Hok' : space_ok s' v a') (Hf : entry_for s a pg = Some p).
Context (He : entries s !! p = Some e) (Hone : num_pages e = 1) (Hg : global e = g).
Context (Hy : entries s' !! q = Some y) (Hyv : virtual y = virtual e) (Hyn : num_pages y = 1) (Hoky : entry_ok y).
Context (Hq : entries s !! q = None) (Hrest : ∀ z, z ≠ p → z ≠ q → entries s' !! z = entries s !! z).
Context (Hin : ∀ z, z ∈ members s' a' g ↔ z = q ∨ z ≠ p ∧ z ∈ members s a g).
Context (Ho : members s' a' (negb g) = members s a (negb g)).

Lemma replaced_member : p ∈ members s a g ∧ covers e pg ∧ virtual e = pg * 4096.
Proof.
  destruct (entry_for_member s v a pg p Hok Hf) as (g' & e' & Hp & He' & Hoke & Hg' & Hc & _).
  assert (e' = e) as -> by congruence. subst g'. rewrite Hg in Hp. split_and!; try done. by apply covers_page.
Qed.
Lemma replaced_old g' z : z ∈ members s a g' → z ≠ q.
Proof. intros Hz ->. destruct (member_ok s v a g' q Hok Hz) as (w & Hw & _). congruence. Qed.
Lemma replaced_other z : z ∈ members s a (negb g) → z ≠ p.
Proof. intros Hz ->. pose proof (sp_flags _ _ _ Hok _ _ Hz) as F. rewrite (entry_at_some _ _ _ He), Hg in F. by destruct g. Qed.

Lemma replaced_page_other pg' : page_entry (entries s') (members s' a' (negb g)) pg' = page_entry (entries s) (members s a (negb g)) pg'.
Proof.
  rewrite Ho. apply page_entry_agree. intros z Hz. apply Hrest; [by apply replaced_other|by eapply replaced_old].
Qed.
Lemma replaced_page pg' : page_entry (entries s') (members s' a' g) pg' =
  if decide (page_entry (entries s) (members s a g) pg' = Some p) then Some q else page_entry (entries s) (members s a g) pg'.
Proof.
  apply page_entry_replace; try done.
  - by eapply members_sorted.
  - by eapply members_sorted.
  - apply replaced_member.
  - intros k. rewrite (entry_at_some _ _ _ Hy), (entry_at_some _ _ _ He). unfold covers, vend. by rewrite Hyv, Hyn, Hone.
  - intros z Hz Hzp. apply Hrest; [done|by eapply replaced_old].
Qed.
Lemma replaced_for pg' : entry_for s' a' pg' = if decide (entry_for s a pg' = Some p) then Some q else entry_for s a pg'.
Proof.
  assert (∀ g', g' = negb g → page_entry (entries s) (members s a g') pg' ≠ Some p) as Hno.
  { intros g' -> E. apply page_entry_iff in E as [Hz _]; [|by eapply members_sorted]. by destruct (replaced_other p Hz). }
  pose proof (replaced_page pg') as P1. pose proof (replaced_page_other pg') as P2. unfold entry_for. clear Hin Ho Hg Hf.
  destruct g; cbn [members negb] in *; rewrite P1, P2; specialize (Hno _ eq_refl); cbn [members] in Hno.
  - destruct (page_entry (entries s) (locals a) pg') as [z|]; [|done]. by rewrite decide_False.
  - destruct (page_entry (entries s) (locals a) pg') as [z|]; [by destruct (decide _)|].
    rewrite decide_False by done. destruct (page_entry (entries s) (globals s) pg') as [z|]; [|done]. by rewrite decide_False.
Qed.
Lemma replaced_view pg' : view s' a' pg' = if decide (pg' = pg) then Some y else view s a pg'.
Proof.
  destruct replaced_member as (Hp & Hc & Hve). rewrite !view_entry, replaced_for. case_decide as Hd.
  - destruct (entry_for_member s v a pg' p Hok Hd) as (g' & e' & _ & He' & Hok2 & _ & Hc' & _).
    assert (e' = e) as -> by congruence. pose proof (covers_page e pg' Hok2 Hc' Hone).
    rewrite decide_True by lia. cbn. rewrite (entry_at_some _ _ _ Hy). f_equal.
    replace pg' with (virtual y / 4096) by lia. by apply norm_own.
  - rewrite decide_False by (intros ->; done). destruct (entry_for s a pg') as [z|] eqn:Hz; [|done]. cbn. do 2 f_equal.
    destruct (entry_for_member s v a pg' z Hok Hz) as (g' & w & Hzm & _). unfold entry_at. rewrite Hrest; [done|congruence|by eapply replaced_old].
Qed.
Lemma replaced_held : mmu_ok s v a → pdir s' = pdir s → ptab s' = ptab s → cr3 s' = cr3 s → current_vas s' = current_vas s →
  held_but s' v a' pg q y.
Proof.
  intros Hm F1 F2 F3 F4. split; [done| |by rewrite replaced_for, decide_True|done|done].
  destruct Hm as [M1 M2 M3 M4]. split; rewrite ?F3, ?F4, ?F1; try done. intros pg' x. rewrite replaced_view.
  assert (∀ z, view s a pg' = Some z → ∃ w, pte_at s' v pg' = Some w ∧ agrees w z) as Hw.
  { intros z Hz. destruct (M4 pg' z Hz) as (w & Hw & Hag). exists w. unfold pte_at in *. rewrite F1, F2. done. }
  case_decide as Hd.
  - intros _. destruct (Hw (norm e pg)) as (w & Hw1 & _); [|by exists w].
    subst pg'. rewrite view_entry, Hf. cbn. by rewrite (entry_at_some _ _ _ He).
  - intros Hx. destruct (Hw x Hx) as (w & Hw1 & Hag). by exists w.
Qed.
End replaced.

Section cow.
Context `{Allocator}.
Context (s : vm) (v : Z) (a : vas) (pg p : Z) (e e1 n1 : vas_entry).
Context (Hh : held s v a pg p e).
Context (Hv1 : virtual e1 = virtual e) (Hn1 : num_pages e1 = 1) (Hg1 : global e1 = global e) (Hok1 : entry_ok e1).
Context (Hv2 : virtual n1 = virtual e) (Hn2 : num_pages n1 = 1) (Hg2 : global n1 = global e) (Hok2 : entry_ok n1).

(** [p] leaves the tree with what is left of its entry; [q], not live before, takes its place. *)
Lemma replace_run q pm' n0 : entries s !! q = None → q ≠ NULL →
  let s3 := set_entries (with_pm (set_entries (set_entries s p e1) q n0) pm') q n1 in
  ∃ s4 s' a', DeleteFromAvl v p s3 = Done (tt, s4) ∧ InsertIntoAvl v q s4 = Done (tt, s') ∧
    held_but s' v a' pg q n1 ∧ map_frame s3 s' ∧
    entries s' = <[q := n1]> (<[p := e1]> (entries s)) ∧ (∀ w, w ≠ v → vases s' !! w = vases s !! w) ∧
    ∀ pg', view s' a' pg' = if decide (pg' = pg) then Some n1 else view s a pg'.
Proof.
  intros Hq Hqn s3. destruct Hh as [Hok Hm Hf He Hone]. assert (q ≠ p) as Hqp by (intros ->; congruence).
  destruct (entry_for_member s v a pg p Hok Hf) as (g & e' & Hp & He' & Hoke & Hg & Hc & Hnn). assert (e' = e) as -> by congruence. clear He'.
  assert (space_ok (set_entries s p e1) v a) as Ha by (eapply set_page_ok; eauto; lia).
  assert (entries (set_entries s p e1) !! q = None) as Hq1 by (cbn; by rewrite lookup_insert_ne).
  destruct (add_entry_ok _ _ _ q n1 Ha Hq1 Hqn) as [Hb _].
  assert (entries s3 = <[q := n1]> (<[p := e1]> (entries s))) as Es3 by (cbn; by rewrite insert_insert_eq).
  assert (space_ok s3 v a) as H3.
  { destruct Hb as [O1 O2 O3 O4 O5 O6 O7]. split; try done; by rewrite Es3. }
  assert (entries s3 !! p = Some e1) as Ep by (by rewrite Es3, lookup_insert_ne, lookup_insert_eq).
  assert (entries s3 !! q = Some n1) as Eq by (by rewrite Es3, lookup_insert_eq).
  assert (∀ z, z ≠ p → z ≠ q → entries s3 !! z = entries s !! z) as Ez by (intros; by rewrite Es3, !lookup_insert_ne).
  destruct (DeleteFromAvl_run s3 v a H3 p e1 Ep) as (s4 & a4 & E4 & R4); [by rewrite Hg1, Hg|]. rewrite Hg1, Hg in R4.
  destruct R4 as [D1 D2 D3 D4 D5 D6]. assert (∀ z, z ∈ members s4 a4 g ↔ z ≠ p ∧ z ∈ members s a g) as D5' by exact D5.
  destruct (InsertIntoAvl_run s4 v a4 D1 q n1) as (s5 & a5 & E5 & R5); [by rewrite D2|done| |].
  { rewrite Hg2, Hg, D2. intros z [Hzp Hz]%D5'. pose proof (replaced_old s v a q Hok Hq g z Hz). unfold entry_at. rewrite Ez by done.
    pose proof (sorted_apart _ _ z p (members_sorted s v a g Hok) Hz Hp Hzp) as Hap.
    rewrite (entry_at_some _ _ _ He) in Hap. unfold entry_at, apart, vend in *. rewrite Hv2, Hn2. rewrite Hone in Hap. lia. }
  rewrite Hg2, Hg in R5. destruct R5 as [I1 I2 I3 I4 I5 I6].
  assert (map_frame s3 s5) as Hfr by (by eapply map_frame_trans).
  assert (entries s5 = entries s3) as E53 by (by rewrite I2, D2).
  assert (∀ z, z ∈ members s5 a5 g ↔ z = q ∨ z ≠ p ∧ z ∈ members s a g) as Hin by (intros z; rewrite I5, D5'; tauto).
  assert (members s5 a5 (negb g) = members s a (negb g)) as Ho by (rewrite I6, D6; by destruct g).
  exists s4, s5, a5. split; [done|]. split; [done|]. split.
  { eapply (replaced_held s s5 v a a5 pg p q e n1 g); rewrite ?E53; try done; by rewrite Hfr. }
  split; [done|]. split; [by rewrite E53|]. split; [intros w Hw; rewrite I3, D3; by rewrite !lookup_insert_ne|].
  eapply (replaced_view s s5 v a a5 pg p q e n1 g); by rewrite ?E53.
Qed.
End cow.

(** ** The copy itself *)
Definition after_copy (e : vas_entry) : vas_entry :=
  {| e with ref_count := ref_count e - 1; cow := if decide (ref_count e - 1 = 1) then false else cow e |}.
Definition private_copy (frame : Z) (e : vas_entry) : vas_entry :=
  let e1 := after_copy e in {| e1 with ref_count := 1; physical := frame; allocated := true; cow := false |}.

(** The frame a page table entry leads to, whatever its usage bits. *)
Lemma agrees_frame w x : agrees w x → in_ram x = true → physical x `mod` 4096 = 0 →
  has w x86_PAGE_PRESENT = true ∧ Z.land w (Z.lnot 0xFFF) = physical x.
Proof.
  intros [H1 H2] Hr Hal. split; [congruence|]. specialize (H2 Hr).
  assert (Z.land w (Z.lnot 0xFFF) = Z.land (Z.land w (Z.lnot usage_bits)) (Z.lnot 0xFFF)) as ->.
  { rewrite <- Z.land_assoc. reflexivity. }
  rewrite H2. apply frame_of; [done|]. pose proof (pte_flags_small x). lia.
Qed.

Section copy.
Context `{Allocator}.
Context (s : vm) (v : Z) (a : vas) (pg p : Z) (e : vas_entry) (Hh : held s v a pg p e).

(** The last sharer has the page to itself again. *)
Lemma FromCow_last : ref_count e = 1 →
  ∃ s', BringIntoMemoryFromCow p s = Done (tt, s') ∧ held s' v a pg p {| e with cow := false |} ∧
    table_frame (set_entries s p {| e with cow := false |}) s' ∧
    ∀ pg', view s' a pg' = if decide (pg' = pg) then Some {| e with cow := false |} else view s a pg'.
Proof.
  intros Hn. destruct (held_view _ _ _ _ _ _ Hh) as (_ & Hoke & _). pose proof (hd_one _ _ _ _ _ _ Hh).
  destruct (remap_run _ _ _ _ _ _ (held_held_but _ _ _ _ _ _ Hh) {| e with cow := false |}) as (s' & E1 & E2 & H1 & F1 & _ & _ & V1);
    [done..|by apply (entry_ok_ext e)|].
  exists s'. split; [|done]. unfold BringIntoMemoryFromCow. step (held_get _ _ _ _ _ _ Hh).
  unfold GetVas. rewrite (M_bind_done _ _ s (current_vas s) s), (mm_current _ _ _ (hd_mmu _ _ _ _ _ _ Hh)) by done.
  rewrite decide_True by done. rewrite (M_bind_done _ _ s tt (set_entries s p {| e with cow := false |})) by done. by step E1.
Qed.

Lemma FromCow_run free : ref_count e ≠ 1 → in_ram e = true → allocated e = true → write e = true →
  frames_ok s free → free ≠ ∅ →
  ∃ i q s' a', BringIntoMemoryFromCow p s = Done (tt, s') ∧ i ∈ free ∧ entries s !! q = None ∧
    held s' v a' pg q (private_copy (i * 4096) e) ∧ frames_ok s' (free ∖ {[i]}) ∧
    (∀ pg', view s' a' pg' = if decide (pg' = pg) then Some (private_copy (i * 4096) e) else view s a pg') ∧
    ram s' = <[i * 4096 := default ∅ (ram s !! physical e)]> (ram s) ∧
    entries s' = <[q := private_copy (i * 4096) e]> (<[p := after_copy e]> (entries s)) ∧
    (∀ w, w ≠ v → vases s' !! w = vases s !! w) ∧ faults s' = faults s.
Proof.
  intros Hn Hr Hal Hw Hfr Hne. destruct (held_view _ _ _ _ _ _ Hh) as (Vx & Hoke & Hpg & Hve). pose proof (hd_one _ _ _ _ _ _ Hh) as Hone.
  destruct (mm_pages _ _ _ (hd_mmu _ _ _ _ _ _ Hh) pg e Vx) as (w & Pw & Hag).
  destruct (agrees_frame w e Hag Hr (eo_phys_align _ Hoke)) as [Hw1 Hw2].
  pose proof (read_page_run _ _ _ _ _ _ Hh w Pw Hw1) as Er. rewrite Hw2 in Er. set (data := default ∅ (ram s !! physical e)) in *.
  set (e1 := after_copy e). set (s1 := set_entries s p e1). set (q := pick (dom (entries s1))).
  assert (entries s1 !! q = None) as Hq1 by apply not_elem_of_dom, pick_fresh.
  assert (entries s !! q = None) as Hq.
  { cbn in Hq1. apply lookup_insert_None in Hq1. tauto. }
  set (n0 := {| e1 with ref_count := 1 |}). set (s2 := set_entries s1 q n0).
  destruct (AllocPhys_frame s2 free) as (i & q' & E2 & Hi & Hir & Hfr2); [by destruct Hfr|done|].
  set (n1 := private_copy (i * 4096) e).
  assert (entry_ok e1) as Hok1 by (by apply (entry_ok_ext e)).
  assert (entry_ok n1) as Hok2 by (destruct Hoke; split; unfold vend in *; cbn; try done; try lia).
  destruct (replace_run s v a pg p e e1 n1 Hh eq_refl Hone eq_refl Hok1 eq_refl Hone eq_refl Hok2 q q' n0 Hq (pick_nonnull _))
    as (s4 & s5 & a5 & E4 & E5 & H5 & F5 & En5 & Vs5 & V5).
  destruct (remap_run _ _ _ _ _ _ H5 n1 eq_refl Hone eq_refl Hok2) as (s6 & E6 & E6' & H6 & F6 & P6 & _ & V6).
  assert (set_entries s5 q n1 = s5) as Es5 by (unfold set_entries; rewrite insert_id; [by destruct s5|apply H5]). rewrite Es5 in E6.
  set (w' := Z.lor (physical n1) (pte_flags n1)) in *.
  assert (has w' x86_PAGE_PRESENT = true ∧ has w' x86_PAGE_WRITE = true ∧ Z.land w' (Z.lnot 0xFFF) = i * 4096) as (Hp1 & Hp2 & Hp3).
  { assert (physical n1 `mod` 4096 = 0) as Hal1 by (cbn; lia). pose proof (pte_flags_small n1). unfold w'.
    rewrite !has_lor_low, frame_of, pte_flags_present, pte_flags_write by (done || lia). cbn. by rewrite Hr, Hw. }
  pose proof (write_page_run _ _ _ _ _ _ H6 w' data P6 Hp1 Hp2) as E7. rewrite Hp3 in E7.
  rewrite Es5 in F6.
  exists i, q, (with_ram s6 (<[i * 4096 := data]> (ram s6))), a5. split_and!.
  - unfold BringIntoMemoryFromCow. step (held_get _ _ _ _ _ _ Hh). unfold GetVas.
    rewrite (M_bind_done _ _ s (current_vas s) s), (mm_current _ _ _ (hd_mmu _ _ _ _ _ _ Hh)) by done.
    rewrite decide_False by done. step Er. cbv zeta. fold (after_copy e). fold e1. rewrite (M_bind_done _ _ s tt s1) by done.
    rewrite (M_bind_done _ _ s1 q s2) by done. step E2. change (allocated e1) with (allocated e). rewrite Hal.
    rewrite (M_bind_done _ _ (with_pm s2 q') tt (with_pm s2 q')) by done.
    rewrite (M_bind_done _ _ (with_pm s2 q') tt (set_entries (with_pm s2 q') q n1)) by done.
    step E4. step E5. step E6. step E6'. exact E7.
  - done.
  - done.
  - by apply held_ram.
  - unfold frames_ok in *. cbn [pm with_ram]. rewrite F6. cbn [pm]. rewrite F5. exact Hfr2.
  - intros pg'. change (view s6 a5 pg' = if decide (pg' = pg) then Some n1 else view s a pg'). rewrite V6, V5. by case_decide.
  - cbn [ram with_ram]. rewrite F6. cbn [ram]. by rewrite F5.
  - cbn [entries with_ram]. rewrite F6. exact En5.
  - intros z Hz. cbn [vases with_ram]. rewrite F6. by apply Vs5.
  - cbn [faults with_ram]. rewrite F6. cbn [faults]. by rewrite F5.
Qed.
End copy.
