(* ===== verification/VirtMemUnmap.v ===== *)
(** * Unmapping *)

From Stdlib Require Import Sorted.
From S2P Require Import Prelude Tree VirtMem VirtMemTree VirtMemSplit VirtMemPages VirtMemFault VirtMemCow.
From S2P Require Physical Swapfile.

#[local] Ltac Zify.zify_post_hook ::= Z.to_euclidean_division_equations.

(** ** A tree without one of its entries *)
Lemma page_entry_without es l l' p pg : StronglySorted (before es) l → StronglySorted (before es) l' →
  (∀ x, x ∈ l' ↔ x ≠ p ∧ x ∈ l) →
  page_entry es l' pg = if decide (page_entry es l pg = Some p) then None else page_entry es l pg.
Proof.
  intros Hs Hs' Hin. case_decide as Hd.
  - apply page_entry_none; [done|]. intros x [Hne Hx]%Hin Hc.
    assert (page_entry es l pg = Some x) as E by (by apply page_entry_iff). congruence.
  - apply option_eq. intros x. rewrite !page_entry_iff by done. rewrite Hin. split; [tauto|]. intros [Hx Hc].
    split; [split; [|done]|done]. intros ->. apply Hd. by apply page_entry_iff.
Qed.

Lemma free_entry_ok s v a p : space_ok s v a → (∀ g, p ∉ members s a g) →
  let s' := {| s with entries := delete p (entries s) |} in
  space_ok s' v a ∧ ∀ g pg, view_of s' a g pg = view_of s a g pg.
Proof.
  intros Hok Hp s'. assert (∀ g z, z ∈ members s a g → entries s' !! z = entries s !! z) as Hz.
  { intros g z Hz. cbn. rewrite lookup_delete_ne; [done|]. intros ->. by destruct (Hp g). }
  split; [|intros g pg; apply view_in_agree, Hz].
  destruct Hok as [O1 O2 O3 O4 O5 O6 O7]. split; try done.
  - cbn. rewrite lookup_delete_None. by right.
  - eapply tree_ok_agree; [apply (Hz false)|done].
  - eapply tree_ok_agree; [apply (Hz true)|done].
  - intros g z Hz'. unfold entry_at. rewrite (Hz g) by done. by apply O7.
Qed.

(** ** Giving up a page *)

(** A page with one owner that needs no writing back. *)
Definition plain (x : vas_entry) : Prop :=
  ref_count x = 1 ∧ swapfile x = false ∧ (file x && write x && in_ram x) = false.
(** The frame it owns, if any, is one the allocator handed out. *)
Definition owned_frame (s : vm) (free : gset Z) (x : vas_entry) : Prop :=
  allocated x = true → ((physical x / 4096) ∉ free) ∧ physical x / 4096 ≤ Physical.highest_page_index (pm s).
Definition freed (x : vas_entry) (free : gset Z) : gset Z :=
  if allocated x then {[(physical x / 4096)]} ∪ free else free.

Lemma DeallocPhys_frame s free x : frames_ok s free → entry_ok x → allocated x = true → owned_frame s free x →
  ∃ q, DeallocPhys (physical x) s = Done (tt, with_pm s q) ∧ frames_ok (with_pm s q) ({[(physical x / 4096)]} ∪ free) ∧
    Physical.highest_page_index q = Physical.highest_page_index (pm s).
Proof.
  intros [Hi Hl] Hok Ha Ho. destruct (Ho Ha) as [Hn Hh]. destruct Hok as [A1 A2 A3 A4 A5 A6 A7 A8].
  destruct (Physical.DeallocPhys_run (pm s) free (size free) (physical x / 4096) Hi Hl) as (q & E & Hi' & Hl' & _ & Hh' & _); [lia|done|].
  exists q. unfold DeallocPhys, on_phys. replace (physical x) with (physical x / 4096 * Physical.ARCH_PAGE_SIZE) at 1 by (unfold Physical.ARCH_PAGE_SIZE; lia).
  rewrite E. split; [done|]. split; [|done]. split; [|done]. by rewrite Physical.size_add.
Qed.

Lemma clear_usage w : has w x86_PAGE_PRESENT = false →
  has (set_bit_to (set_bit_to w x86_PAGE_ACCESSED false) x86_PAGE_DIRTY false) x86_PAGE_PRESENT = false.
Proof.
  unfold has, set_bit_to. rewrite !bool_decide_eq_false. intros H H'. apply H'. clear H'.
  assert (Z.land w x86_PAGE_PRESENT = 0) as H0 by (destruct (decide (Z.land w x86_PAGE_PRESENT = 0)); tauto).
  assert (∀ a b c, Z.land (Z.land (Z.land w a) b) c = Z.land (Z.land (Z.land w c) a) b) as ->.
  { intros a b c. apply Z.bits_inj'. intros n _. rewrite !Z.land_spec. destruct (Z.testbit w n), (Z.testbit a n), (Z.testbit b n), (Z.testbit c n); done. }
  by rewrite H0.
Qed.

Definition with_tables (s : vm) (t : gmap (Z * Z) Z) (q : Physical.phys) : vm := {| s with ptab := t; pm := q |}.

Section dereference.
Context `{Allocator}.
Context (s : vm) (v : Z) (a : vas) (pg p : Z) (x : vas_entry) (free : gset Z).
Context (Hh : held s v a pg p x) (Hp : plain x) (Hfr : frames_ok s free) (Ho : owned_frame s free x).
(** The page is not both local and global. *)
Context (Hsingle : view_of s a false pg = None ∨ view_of s a true pg = None).

Lemma hh_member : ∃ g, p ∈ members s a g ∧ global x = g ∧ covers x pg ∧ entry_ok x ∧
  view_of s a g pg = Some (norm x pg) ∧ view_of s a (negb g) pg = None ∧ ∀ g', g' ≠ g → p ∉ members s a g'.
Proof.
  destruct Hh as [Hok Hm Hf He Hone].
  destruct (entry_for_member s v a pg p Hok Hf) as (g & e & Hpm & He' & Hokx & Hg & Hc & Hnn). assert (e = x) as -> by congruence.
  exists g. split_and!; try done.
  - apply view_in_iff; [by eapply members_sorted|]. exists p. by rewrite (entry_at_some _ _ _ He).
  - assert (view_of s a g pg = Some (norm x pg)) as Hv.
    { apply view_in_iff; [by eapply members_sorted|]. exists p. by rewrite (entry_at_some _ _ _ He). }
    destruct g, Hsingle as [E|E]; cbn [negb]; congruence.
  - intros g' Hne Hin. apply Hne. rewrite <- (sp_flags _ _ _ Hok _ _ Hin). by rewrite (entry_at_some _ _ _ He).
Qed.

(** What the pages look like without it. *)
Lemma without_view s1 s2 a2 x1 g : p ∈ members s a g → space_ok s1 v a → space_ok s2 v a2 →
  entries s1 = <[p := x1]> (entries s) → entries s2 = entries s1 → virtual x1 = virtual x → num_pages x1 = 1 →
  (∀ z, z ∈ members s2 a2 g ↔ z ≠ p ∧ z ∈ members s a g) → members s2 a2 (negb g) = members s a (negb g) →
  members s1 a g = members s a g →
  ∀ g' pg', view_of s2 a2 g' pg' = if decide (pg' = pg) then None else view_of s a g' pg'.
Proof.
  intros Hpm H1 H2 Es1 Es2 Hv Hn Hin Hneg Em g' pg'. destruct hh_member as (g0 & Hpm0 & Hg0 & Hc & Hokx & Vg & Vn & Hno).
  assert (g0 = g) as -> by (destruct (decide (g = g0)) as [|Hne]; [done|by destruct (Hno g Hne)]).
  destruct Hh as [Hok Hm Hf He Hone]. pose proof (covers_page x pg Hokx Hc Hone) as Hvx. unfold view_of in *.
  destruct (decide (g' = g)) as [->|Hne].
  - unfold view_in. rewrite (page_entry_without (entries s2) (members s a g) _ p); [|rewrite Es2, <- Em; by eapply members_sorted|by eapply members_sorted|done].
    rewrite Es2. rewrite Es1. rewrite (set_page_entry s p x x1 He Hv) by lia.
    case_decide as Hd; [|case_decide as Hd2].
    + apply page_entry_iff in Hd as [_ Hc']; [|by eapply members_sorted]. rewrite (entry_at_some _ _ _ He) in Hc'.
      pose proof (covers_page x pg' Hokx Hc' Hone). by rewrite decide_True by lia.
    + subst pg'. destruct Hd. apply page_entry_iff; [by eapply members_sorted|]. by rewrite (entry_at_some _ _ _ He).
    + destruct (page_entry (entries s) (members s a g) pg') as [z|]; [|done]. cbn. unfold entry_at.
      rewrite lookup_insert_ne by congruence. done.
  - assert (g' = negb g) as -> by (destruct g, g'; done). rewrite Hneg, Es2, Es1.
    rewrite (view_in_agree (entries s) (<[p:=x1]> (entries s))).
    + case_decide; [by subst|done].
    + intros z Hz. rewrite lookup_insert_ne; [done|]. intros <-. by destruct (Hno _ Hne).
Qed.

(** The entry leaves its tree and is freed. *)
Lemma leave_tree s1 x1 : space_ok s1 v a → entries s1 = <[p := x1]> (entries s) → entry_ok x1 →
  virtual x1 = virtual x → num_pages x1 = 1 → global x1 = global x → global_vas_mappings s1 = global_vas_mappings s →
  ∃ s2 s3 a', DeleteFromAvl v p s1 = Done (tt, s2) ∧ free_entry p s2 = Done (tt, s3) ∧ space_ok s3 v a' ∧
    map_frame s1 s3 ∧ (∀ w, w ≠ v → vases s3 !! w = vases s1 !! w) ∧ vases s3 !! v = Some a' ∧
    entries s3 = delete p (entries s) ∧
    ∀ g pg', view_of s3 a' g pg' = if decide (pg' = pg) then None else view_of s a g pg'.
Proof.
  intros H1 Es1 Hok1 Hv1 Hn1 Hg1 Eg. destruct hh_member as (g & Hpm & Hg & _ & _ & _ & _ & Hno).
  assert (entries s1 !! p = Some x1) as Ep by (by rewrite Es1, lookup_insert_eq).
  assert (∀ g', members s1 a g' = members s a g') as Em.
  { intros []; cbn [members]; [|done]. unfold globals. by rewrite Eg. }
  destruct (DeleteFromAvl_run s1 v a H1 p x1 Ep) as (s2 & a2 & E2 & [D1 D2 D3 D4 D5 D6]); [by rewrite Em, Hg1, Hg|].
  rewrite Hg1, Hg, Em in *.
  assert (∀ z, z ∈ members s2 a2 g ↔ z ≠ p ∧ z ∈ members s a g) as D5' by exact D5.
  assert (∀ g', p ∉ members s2 a2 g') as Hout.
  { intros g' Hin. destruct (decide (g' = g)) as [->|Hne]; [by apply D5' in Hin as [? _]|].
    assert (g' = negb g) as -> by (destruct g, g'; done). rewrite D6 in Hin. by destruct (Hno _ Hne). }
  destruct (free_entry_ok s2 v a2 p D1 Hout) as [H3 V3]. set (s3 := {| s2 with entries := delete p (entries s2) |}) in *.
  assert (entries s2 !! p = Some x1) as Ep2 by (by rewrite D2).
  exists s2, s3, a2. split; [done|]. split; [unfold free_entry; mred; by rewrite Ep2|]. split; [done|]. split.
  { eapply map_frame_trans; [exact D4|done]. }
  split; [intros w Hw; cbn; rewrite D3; by rewrite lookup_insert_ne|]. split; [apply H3|].
  split; [cbn; by rewrite D2, Es1, delete_insert_eq|]. intros g' pg'. rewrite V3.
  by eapply (without_view s1 s2 a2 x1 g); rewrite ?D6, ?Em.
Qed.

(** The page table entry and the frame are given up first. *)
Definition gone : vas_entry := {| x with ref_count := ref_count x - 1 |}.
Lemma give_up_run : ∃ s2 s3 s4 f w,
  (if in_ram x then ArchUnmap v p else mret tt) (set_entries s p gone) = Done (tt, s2) ∧
  (if allocated x then c_assert (negb (swapfile x));; DeallocPhys (physical x) else mret tt) s2 = Done (tt, s3) ∧
  ArchSetPageUsageBits v p false false s3 = Done (tt, s4) ∧
  s4 = with_tables (set_entries s p gone) (ptab s4) (pm s4) ∧
  frames_ok s4 (freed x free) ∧ Physical.highest_page_index (pm s4) = Physical.highest_page_index (pm s) ∧
  pdir s !! (v, pg / 1024) = Some f ∧ pte_at s4 v pg = Some w ∧ has w x86_PAGE_PRESENT = false ∧
  ∀ pg', pg' ≠ pg → pte_at s4 v pg' = pte_at s v pg'.
Proof.
  destruct (held_view _ _ _ _ _ _ Hh) as (Vx & Hokx & Hpg & Hvx). pose proof (hd_mmu _ _ _ _ _ _ Hh) as Hm.
  destruct (mm_pages _ _ _ Hm pg x Vx) as (w & Hw & Hag & _). pose proof Hw as Hw0. unfold pte_at in Hw0.
  destruct (pdir s !! (v, pg / 1024)) as [f|] eqn:Hf; [|done]. set (s1 := set_entries s p gone).
  assert (get_entry p s1 = Done (gone, s1)) as E1 by (apply get_entry_run, set_page_same).
  set (s2 := if in_ram x then set_pte s1 f pg 0 else s1).
  assert ((if in_ram x then ArchUnmap v p else mret tt) s1 = Done (tt, s2)) as E2.
  { unfold s2. destruct (in_ram x); [|done]. unfold ArchUnmap. step E1. cbn [virtual gone]. rewrite Hvx.
    by apply (x86MapPage_run s1 v (mm_cr3 _ _ _ Hm) pg f Hpg Hf 0 0). }
  assert (∃ w2, pte_at s2 v pg = Some w2 ∧ has w2 x86_PAGE_PRESENT = false ∧ s2 = {| s1 with ptab := ptab s2 |} ∧
    ∀ pg', pg' ≠ pg → pte_at s2 v pg' = pte_at s v pg') as (w2 & Hw2 & Hnp & F2 & Hoth).
  { unfold s2. destruct (in_ram x) eqn:Er; [|by exists w]. exists 0.
    split; [|split; [done|split; [done|]]]; [|intros pg' Hne];
      (rewrite (set_pte_at s1 v pg f 0); [|apply Hm|done]); by case_decide. }
  assert (∃ q, (if allocated x then c_assert (negb (swapfile x));; DeallocPhys (physical x) else mret tt) s2 = Done (tt, with_pm s2 q) ∧
    frames_ok (with_pm s2 q) (freed x free) ∧ Physical.highest_page_index q = Physical.highest_page_index (pm s)) as (q & E3 & Hfr3 & Hhi).
  { assert (pm s2 = pm s) as Epm by (by rewrite F2). unfold freed. destruct (allocated x) eqn:Eal.
    - destruct Hp as (_ & Hs & _). rewrite Hs. rewrite (M_bind_done _ _ s2 tt s2) by done. rewrite <- Epm.
      apply DeallocPhys_frame; try done; unfold frames_ok, owned_frame; by rewrite Epm.
    - exists (pm s2). rewrite <- Epm. split; [by destruct s2|]. unfold frames_ok. cbn [pm with_pm]. by rewrite Epm. }
  set (s3 := with_pm s2 q) in *. set (w4 := set_bit_to (set_bit_to w2 x86_PAGE_ACCESSED false) x86_PAGE_DIRTY false).
  assert (cr3 s3 = v ∧ pdir s3 = pdir s ∧ entries s3 = entries s1) as (C1 & C2 & C3).
  { cbn [cr3 pdir entries s3 with_pm]. rewrite F2. split; [apply Hm|done]. }
  assert (ArchSetPageUsageBits v p false false s3 = Done (tt, set_pte s3 f pg w4)) as E4.
  { unfold ArchSetPageUsageBits. assert (get_entry p s3 = Done (gone, s3)) as E by (apply get_entry_run; rewrite C3; apply set_page_same).
    step E. cbn [virtual gone]. rewrite Hvx. assert (pdir s3 !! (v, pg / 1024) = Some f) as Hf3 by (by rewrite C2).
    step (x86GetPageEntry_run s3 v C1 pg f Hpg Hf3). unfold read_pte. mred.
    assert (default 0 (ptab s3 !! (f, pg `mod` 1024)) = w2) as ->; [|done].
    unfold pte_at in Hw2. change (pdir s2) with (pdir s3) in Hw2. rewrite C2, Hf in Hw2. by injection Hw2. }
  assert (∀ pg', pte_at (set_pte s3 f pg w4) v pg' = if decide (pg' = pg) then Some w4 else pte_at s2 v pg') as Hpte.
  { intros pg'. rewrite (set_pte_at s3 v pg f w4); [done| |by rewrite C2]. rewrite C2. apply Hm. }
  exists s2, s3, (set_pte s3 f pg w4), f, w4. split; [done|]. split; [done|]. split; [done|].
  split; [exact (f_equal (λ t, with_tables t (ptab (set_pte s3 f pg w4)) q) F2)|].
  split; [done|]. split; [done|]. split; [done|]. rewrite Hpte, decide_True by done. split; [done|]. split; [by apply clear_usage|].
  intros pg' Hne. rewrite Hpte, decide_False by done. by apply Hoth.
Qed.

Lemma DereferenceEntry_run : ∃ s' a', DereferenceEntry v p s = Done (in_ram x, s') ∧ space_ok s' v a' ∧ mmu_ok s' v a' ∧
  frames_ok s' (freed x free) ∧ Physical.highest_page_index (pm s') = Physical.highest_page_index (pm s) ∧
  (∀ g pg', view_of s' a' g pg' = if decide (pg' = pg) then None else view_of s a g pg') ∧
  (∃ w, pte_at s' v pg = Some w ∧ has w x86_PAGE_PRESENT = false) ∧
  (∀ pg', pg' ≠ pg → pte_at s' v pg' = pte_at s v pg') ∧
  ram s' = ram s ∧ deferred s' = deferred s ∧ faults s' = faults s ∧ entries s' = delete p (entries s) ∧
  ∀ w, w ≠ v → vases s' !! w = vases s !! w.
Proof.
  destruct give_up_run as (s2 & s3 & s4 & f & w & E2 & E3 & E4 & F4 & Hfr4 & Hhi & Hf & Hw & Hnp & Hoth).
  destruct Hp as (Hn & Hs & Hwb). destruct hh_member as (g & Hpm & _ & _ & Hokx & _).
  pose proof (hd_mmu _ _ _ _ _ _ Hh) as Hm. pose proof (hd_one _ _ _ _ _ _ Hh) as Hone.
  assert (entry_ok gone) as Hok1 by (by apply (entry_ok_ext x)).
  assert (space_ok s4 v a) as H4.
  { assert (space_ok (set_entries s p gone) v a) as [O1 O2 O3 O4 O5 O6 O7]; [|rewrite F4; by split].
    eapply (set_page_ok s v a (hd_ok _ _ _ _ _ _ Hh) g p x gone Hpm (hd_entry _ _ _ _ _ _ Hh)); done. }
  destruct (leave_tree s4 gone H4) as (s5 & s6 & a' & E5 & E6 & H6 & F6 & Vs & _ & En & V6); try done; [by rewrite F4..|].
  assert (∀ pg', pte_at s6 v pg' = pte_at s4 v pg') as Hpte.
  { intros pg'. unfold pte_at. by rewrite F6. }
  assert (∀ pg', view s6 a' pg' = if decide (pg' = pg) then None else view s a pg') as Vw.
  { intros pg'. rewrite !view_views, !V6. by case_decide. }
  exists s6, a'. split_and!; try done.
  - unfold DereferenceEntry. step (held_get _ _ _ _ _ _ Hh). rewrite bool_decide_true by lia.
    rewrite (M_bind_done _ _ s tt s) by done. rewrite (M_bind_done _ _ s tt (set_entries s p gone)) by done.
    rewrite decide_True by lia. rewrite Hwb, Hs. rewrite (M_bind_done _ _ _ tt (set_entries s p gone)) by done. step E2.
    rewrite (M_bind_done _ _ s2 tt s2) by done. rewrite Hs in E3. step E3. step E4. step E5. step E6. done.
  - split; [rewrite F6; cbn [cr3]; rewrite F4; apply Hm|rewrite F6; cbn [current_vas]; rewrite F4; apply Hm|rewrite F6; cbn [pdir]; rewrite F4; apply Hm|].
    intros pg' y. rewrite Vw. case_decide as Hd; [done|]. intros Hy. rewrite Hpte, Hoth by done. by apply Hm.
  - unfold frames_ok. by rewrite F6.
  - by rewrite F6.
  - exists w. by rewrite Hpte.
  - intros pg' Hne. rewrite Hpte. by apply Hoth.
  - rewrite F6. cbn [ram]. by rewrite F4.
  - rewrite F6. cbn [deferred]. by rewrite F4.
  - rewrite F6. cbn [faults]. by rewrite F4.
  - intros w' Hw'. rewrite Vs by done. by rewrite F4.
Qed.
End dereference.

(** ** A range of pages *)
Record unmappable (s : vm) (a : vas) (free : gset Z) (lo hi : Z) : Prop := {
  um_page : ∀ pg, lo ≤ pg < hi → ∃ x, view s a pg = Some x ∧ plain x ∧ owned_frame s free x;
  um_single : ∀ pg, lo ≤ pg < hi → view_of s a false pg = None ∨ view_of s a true pg = None;
  um_frames : ∀ pg pg' x y, lo ≤ pg < hi → lo ≤ pg' < hi → view s a pg = Some x → view s a pg' = Some y →
    allocated x = true → allocated y = true → physical x / 4096 = physical y / 4096 → pg = pg';
}.
(** The pages of the range are gone, with their frames back in the free set. *)
Record range_unmapped (s : vm) (v : Z) (a : vas) (free : gset Z) (lo hi : Z) (s' : vm) (a' : vas) (free' : gset Z) : Prop := {
  ru_ok : space_ok s' v a';
  ru_mmu : mmu_ok s' v a';
  ru_frames : frames_ok s' free';
  ru_highest : Physical.highest_page_index (pm s') = Physical.highest_page_index (pm s);
  ru_views : ∀ g pg, view_of s' a' g pg = if decide (lo ≤ pg < hi) then None else view_of s a g pg;
  ru_ptes : ∀ pg, lo ≤ pg < hi → ∃ w, pte_at s' v pg = Some w ∧ has w x86_PAGE_PRESENT = false;
  ru_others : ∀ pg, ¬ lo ≤ pg < hi → pte_at s' v pg = pte_at s v pg;
  ru_free : ∀ i, i ∈ free' ↔ i ∈ free ∨ ∃ pg x, lo ≤ pg < hi ∧ view s a pg = Some x ∧ allocated x = true ∧ i = physical x / 4096;
  ru_ram : ram s' = ram s;
  ru_deferred : deferred s' = deferred s;
  ru_faults : faults s' = faults s;
  ru_vases : ∀ w, w ≠ v → vases s' !! w = vases s !! w;
}.

Section range.
Context `{Allocator}.

Lemma unmapped_none s v a free lo : space_ok s v a → mmu_ok s v a → frames_ok s free → range_unmapped s v a free lo lo s a free.
Proof.
  intros H1 H2 H3. split; try done.
  - intros g pg. by rewrite decide_False by lia.
  - intros pg Hpg. lia.
  - intros i. split; [tauto|]. intros [Hi|(pg & x & Hr & _)]; [done|lia].
Qed.

(** The first page of a range, then the rest of it. *)
Lemma unmap_page s v a free lo hi base virt : space_ok s v a → mmu_ok s v a → frames_ok s free → unmappable s a free lo hi → lo < hi →
  virt / 4096 = lo → 0 ≤ base ≤ virt → (∀ k g, base / 4096 ≤ k < lo → view_of s a g k = None) →
  ∃ p x s1 a1 s2 a2 free2, GetVirtEntry v virt s = Done (p, s) ∧ p ≠ NULL ∧
    SplitLargePageEntryIntoMultiple v base p 1 s = Done (1, s1) ∧ DereferenceEntry v p s1 = Done (in_ram x, s2) ∧
    range_unmapped s v a free lo (lo + 1) s2 a2 free2 ∧ unmappable s2 a2 free2 (lo + 1) hi ∧ space_ok s1 v a1.
Proof.
  intros Hok Hm Hfr Hu Hlt Hv Hv0 Hgap. destruct (um_page _ _ _ _ _ Hu lo ltac:(lia)) as (x & Vx & Hpl & Hown).
  pose proof Vx as Hf. rewrite view_entry in Hf. destruct (entry_for s a lo) as [p|] eqn:Hfor; [|done].
  destruct (split_page_from s v a lo base p Hok Hm Hfor ltac:(lia) ltac:(lia) Hgap) as (s1 & a1 & x1 & E1 & Vx1 & H1 & V1 & F1 & W1 & Z1).
  assert (x1 = x) as -> by congruence.
  assert (owned_frame s1 free x) as Hown1 by (unfold owned_frame; by rewrite F1).
  destruct (DereferenceEntry_run s1 v a1 lo p x free H1 Hpl) as (s2 & a2 & E2 & R1 & R2 & R3 & R4 & R5 & R6 & R7 & R8 & R9 & R10 & _ & R11).
  { unfold frames_ok. by rewrite F1. }
  { done. }
  { rewrite !W1. by apply (um_single _ _ _ _ _ Hu); lia. }
  assert (∀ g pg, view_of s2 a2 g pg = if decide (pg = lo) then None else view_of s a g pg) as Vw by (intros; by rewrite R5, W1).
  assert (∀ pg, lo < pg → view s2 a2 pg = view s a pg) as Vw2.
  { intros pg Hpg. by rewrite !view_views, !Vw, !decide_False by lia. }
  assert (Physical.highest_page_index (pm s2) = Physical.highest_page_index (pm s)) as Hhi by (rewrite R4; by rewrite F1).
  exists p, x, s1, a1, s2, a2, (freed x free). split; [|split; [|split; [done|split; [done|split; [split|split; [split|]]]]]]; try done.
  - rewrite (GetVirtEntry_run s v a virt Hok) by lia. by rewrite Hv, Hfor.
  - by destruct (entry_for_member s v a lo p Hok Hfor) as (_ & _ & _ & _ & _ & _ & _ & Hnn).
  - intros g pg. rewrite Vw. case_decide; case_decide; done || lia.
  - intros pg Hpg. replace pg with lo by lia. done.
  - intros pg Hpg. rewrite R7 by lia. unfold pte_at. by rewrite F1.
  - intros i. unfold freed. destruct (allocated x) eqn:Eal.
    + rewrite elem_of_union, elem_of_singleton. split; [intros [->|Hi]; [right; exists lo, x; split_and!; done || lia|by left]|].
      intros [Hi|(pg & y & Hpg & Hy & Hal & ->)]; [by right|]. assert (pg = lo) as -> by lia. left. congruence.
    + split; [by left|]. intros [Hi|(pg & y & Hpg & Hy & Hal & ->)]; [done|]. assert (pg = lo) as -> by lia. congruence.
  - rewrite R8. by rewrite F1.
  - rewrite R9. by rewrite F1.
  - rewrite R10. by rewrite F1.
  - intros w Hw. rewrite R11 by done. by apply Z1.
  - intros pg Hpg. destruct (um_page _ _ _ _ _ Hu pg ltac:(lia)) as (y & Hy & Hpy & Hoy). exists y. rewrite Vw2 by lia.
    split; [done|]. split; [done|]. intros Hal. destruct (Hoy Hal) as [O1 O2]. rewrite Hhi. split; [|done].
    unfold freed. destruct (allocated x) eqn:Eal; [|done]. rewrite elem_of_union, elem_of_singleton. intros [Eq|Hin]; [|done].
    assert (pg = lo); [|lia]. eapply (um_frames _ _ _ _ _ Hu pg lo y x); try done; lia.
  - intros pg Hpg. rewrite !Vw, !decide_False by lia. apply (um_single _ _ _ _ _ Hu). lia.
  - intros pg pg' y z Hpg Hpg' Hy Hz. rewrite Vw2 in Hy, Hz by lia. apply (um_frames _ _ _ _ _ Hu); done || lia.
  - apply H1.
Qed.

Lemma unmapped_trans s v a free lo mid hi s1 a1 free1 s2 a2 free2 : lo ≤ mid ≤ hi →
  range_unmapped s v a free lo mid s1 a1 free1 → range_unmapped s1 v a1 free1 mid hi s2 a2 free2 →
  range_unmapped s v a free lo hi s2 a2 free2.
Proof.
  intros Hlt [A1 A2 A3 A4 A5 A6 A7 A8 A9 A10 A11 A12] [B1 B2 B3 B4 B5 B6 B7 B8 B9 B10 B11 B12].
  assert (∀ pg, mid ≤ pg → view s1 a1 pg = view s a pg) as V1.
  { intros pg Hpg. by rewrite !view_views, !A5, !decide_False by lia. }
  split; try done; try congruence.
  - intros g pg. rewrite B5, A5. repeat case_decide; done || lia.
  - intros pg Hpg. destruct (decide (mid ≤ pg)) as [Hm|Hm]; [apply B6; lia|]. rewrite B7 by lia. apply A6. lia.
  - intros pg Hpg. rewrite B7, A7 by lia. done.
  - intros i. rewrite B8, A8. split.
    + intros [[Hi|(pg & x & Hpg & Hx & Hr)]|(pg & x & Hpg & Hx & Hr)]; [by left|right; exists pg, x; split; [lia|done]|].
      rewrite V1 in Hx by lia. right. exists pg, x. split; [lia|done].
    + intros [Hi|(pg & x & Hpg & Hx & Hr)]; [tauto|]. destruct (decide (mid ≤ pg)).
      * right. exists pg, x. rewrite V1 by lia. split; [lia|done].
      * left. right. exists pg, x. split; [lia|done].
  - intros w Hw. rewrite B12, A12; done.
Qed.

(** [m] pages are unmapped; the loop ends there, or fails at a page that is not mapped. *)
Lemma UnmapVirtEx_loop_run v virt flags (m : nat) : ∀ (n : nat) s a free i (b : bool),
  space_ok s v a → mmu_ok s v a → frames_ok s free → has flags VMUN_ALLOW_NON_EXIST = false →
  0 ≤ virt → 0 ≤ i → virt + (i + n) * 4096 ≤ 2 ^ 32 →
  unmappable s a free (virt / 4096 + i) (virt / 4096 + i + m) →
  (∀ k g, virt / 4096 ≤ k < virt / 4096 + i → view_of s a g k = None) →
  m = n ∨ (m < n)%nat ∧ view s a (virt / 4096 + i + m) = None →
  ∃ s' a' free', UnmapVirtEx_loop n i v virt flags b s = Done (if decide (m = n) then 0 else EINVAL, s') ∧
    range_unmapped s v a free (virt / 4096 + i) (virt / 4096 + i + m) s' a' free'.
Proof.
  induction m as [|m IH]; intros n s a free i b Hok Hm Hfr Hfl Hv Hi Hwrap Hu Hgap Hend.
  - exists s, a, free. replace (virt / 4096 + i + 0%nat) with (virt / 4096 + i) in * by lia. split; [|by apply unmapped_none].
    destruct n as [|n]; cbn [UnmapVirtEx_loop].
    + destruct b; [|done]. assert (ArchFlushTlb v s = Done (tt, s)) as E; [|by step E].
      unfold ArchFlushTlb, ArchSetVas, modify. cbn. do 2 f_equal. rewrite <- (mm_cr3 _ _ _ Hm). by destruct s.
    + destruct Hend as [?|[_ Hnone]]; [done|]. rewrite u32_small by (unfold is_u32; lia).
      step (GetVirtEntry_run s v a (virt + i * 4096) Hok ltac:(lia)). replace ((virt + i * 4096) / 4096) with (virt / 4096 + i) by lia.
      rewrite view_entry in Hnone. destruct (entry_for s a (virt / 4096 + i)); [done|]. cbn [default from_option].
      rewrite decide_True by done. by rewrite Hfl.
  - destruct n as [|n]; [destruct Hend as [?|[? _]]; lia|]. cbn [UnmapVirtEx_loop]. rewrite u32_small by (unfold is_u32; lia).
    destruct (unmap_page s v a free (virt / 4096 + i) (virt / 4096 + i + S m) virt (virt + i * 4096) Hok Hm Hfr Hu)
      as (p & x & s1 & a1 & s2 & a2 & free2 & E1 & Hnn & E2 & E3 & R2 & Hu2 & _); [lia..|done|].
    step E1. rewrite decide_False by done. step E2. step E3.
    replace (virt / 4096 + i + S m) with (virt / 4096 + (i + 1) + m) in * by lia.
    replace (virt / 4096 + i + 1) with (virt / 4096 + (i + 1)) in * by lia.
    destruct (IH n s2 a2 free2 (i + 1) (b || in_ram x)) as (s3 & a3 & free3 & E4 & R3); [apply R2|apply R2|apply R2|done|done|lia|lia|done| | |].
    { intros k g Hk. rewrite (ru_views _ _ _ _ _ _ _ _ _ R2). case_decide; [done|]. apply Hgap. lia. }
    { destruct Hend as [Heq|[? Hnone]]; [left; lia|]. right. split; [lia|]. rewrite view_views, !(ru_views _ _ _ _ _ _ _ _ _ R2), !decide_False by lia. done. }
    exists s3, a3, free3. rewrite E4. split; [do 2 f_equal; repeat case_decide; done || lia|].
    eapply unmapped_trans; [|exact R2|exact R3]. lia.
Qed.
End range.
