(* ===== verification/VirtMemMap.v ===== *)
(** * Mapping pages that are brought in later *)

From Stdlib Require Import Sorted.
From S2P Require Import Prelude Tree VirtMem VirtMemTree VirtMemSplit VirtMemPages VirtMemFault VirtMemCow.
From S2P Require Physical Swapfile.

#[local] Ltac Zify.zify_post_hook ::= Z.to_euclidean_division_equations.

(** ** Writing a run of table entries *)
Definition tables_present (s : vm) (v lo hi : Z) : Prop := ∀ pg, lo ≤ pg < hi → is_Some (pdir s !! (v, pg / 1024)).
Definition one_to_one (s : vm) (v : Z) : Prop := ∀ t t' f, pdir s !! (v, t) = Some f → pdir s !! (v, t') = Some f → t = t'.

Lemma ArchUpdateMapping_loop_run v e flags lo (n : nat) : ∀ s i,
  cr3 s = v → one_to_one s v → virtual e = lo * 4096 → physical e = 0 → 0 ≤ lo → 0 ≤ i → lo + i + n ≤ 2 ^ 20 →
  tables_present s v (lo + i) (lo + i + n) →
  ∃ s', ArchUpdateMapping_loop n i v e flags s = Done (tt, s') ∧ table_frame s s' ∧
    ∀ pg, pte_at s' v pg = if decide (lo + i ≤ pg < lo + i + n) then Some flags else pte_at s v pg.
Proof.
  induction n as [|n IH]; intros s i Hc H1 Hv Hp Hlo Hi Hn Ht; cbn [ArchUpdateMapping_loop].
  { exists s. split; [done|]. split; [by destruct s|]. intros pg. by rewrite decide_False by lia. }
  destruct (Ht (lo + i) ltac:(lia)) as [f Hf]. rewrite decide_True by done. rewrite Hv, u32_small by (unfold is_u32; lia).
  replace (lo * 4096 + i * 4096) with ((lo + i) * 4096) by lia.
  step (x86MapPage_run s v Hc (lo + i) f ltac:(lia) Hf 0 flags). rewrite Z.lor_0_l.
  destruct (IH (set_pte s f (lo + i) flags) (i + 1)) as (s' & E & F & P); try done; try lia.
  { intros pg Hpg. apply Ht. lia. }
  exists s'. split; [done|]. split; [unfold table_frame in *; by rewrite F|]. intros pg. rewrite P.
  rewrite (set_pte_at s v (lo + i) f flags pg H1 Hf). repeat case_decide; done || lia.
Qed.
Lemma ArchAddMapping_run s v q e lo : entries s !! q = Some e → cr3 s = v → one_to_one s v → physical e = 0 →
  virtual e = lo * 4096 → 0 ≤ lo → 1 ≤ num_pages e → lo + num_pages e ≤ 2 ^ 20 → tables_present s v lo (lo + num_pages e) →
  ∃ s', ArchAddMapping v q s = Done (tt, s') ∧ table_frame s s' ∧
    ∀ pg, pte_at s' v pg = if decide (lo ≤ pg < lo + num_pages e) then Some (pte_flags e) else pte_at s v pg.
Proof.
  intros He Hc H1 Hp Hv Hlo Hn Hhi Ht. unfold ArchAddMapping, ArchUpdateMapping. step (get_entry_run s q e He). case_decide.
  - destruct (ArchUpdateMapping_loop_run v e (pte_flags e) lo (Z.to_nat (num_pages e)) s 0) as (s' & E & F & P); try done; try lia.
    { intros pg Hpg. apply Ht. lia. }
    exists s'. split; [done|]. split; [done|]. intros pg. rewrite P. repeat case_decide; done || lia.
  - assert (num_pages e = 1) as Hone by lia. destruct (Ht lo ltac:(lia)) as [f Hf]. rewrite Hv, Hp.
    exists (set_pte s f lo (pte_flags e)). split; [apply (x86MapPage_run s v Hc lo f ltac:(lia) Hf 0)|]. split; [done|].
    intros pg. rewrite (set_pte_at s v lo f _ pg H1 Hf). repeat case_decide; done || lia.
Qed.

(** ** One more entry in a tree *)
Lemma apart_pages w e lo : entry_ok w → entry_ok e → virtual e = lo * 4096 →
  (∀ pg, lo ≤ pg < lo + num_pages e → ¬ covers w pg) → apart w e.
Proof.
  intros [A1 A2 A3 A4 _ _ _ _] [B1 B2 B3 B4 _ _ _ _] Hv Hc. unfold apart, covers, vend in *.
  destruct (decide (virtual w + num_pages w * 4096 ≤ virtual e)); [by left|].
  destruct (decide (virtual e + num_pages e * 4096 ≤ virtual w)); [by right|]. exfalso.
  apply (Hc (Z.max lo (virtual w / 4096))); lia.
Qed.

Lemma page_entry_with es es' l l' q e pg : StronglySorted (before es) l → StronglySorted (before es') l' →
  (∀ x, x ∈ l' ↔ x = q ∨ x ∈ l) → es' !! q = Some e → (∀ x, x ∈ l → es' !! x = es !! x) →
  (covers e pg → page_entry es l pg = None) →
  page_entry es' l' pg = if decide (covers e pg) then Some q else page_entry es l pg.
Proof.
  intros Hs Hs' Hin Hq Hrest Hno. case_decide as Hd.
  - apply page_entry_iff; [done|]. rewrite Hin, (entry_at_some _ _ _ Hq). auto.
  - apply option_eq. intros x. rewrite !page_entry_iff by done. rewrite Hin. split.
    + intros [[->|Hx] Hc]; [by rewrite (entry_at_some _ _ _ Hq) in Hc|]. split; [done|].
      unfold entry_at in *. by rewrite Hrest in Hc.
    + intros [Hx Hc]. split; [by right|]. unfold entry_at in *. by rewrite Hrest.
Qed.

(** ** AddMapping without memory *)
Definition lazy_entry (virt flags f pos number : Z) : vas_entry := {| entry0 with
  allocated := false; lock := false; in_ram := false;
  virtual := virt; times_swapped := 0;
  read := has flags VM_READ; write := has flags VM_WRITE; exec := has flags VM_EXEC;
  file := has flags VM_FILE; user := has flags VM_USER; share_on_fork := has flags VM_SHARED;
  evict_first := has flags VM_EVICT_FIRST; relocatable := false;
  hard_io_failure := has flags VM_HARD_IO_FAIL;
  allow_temp_write := false; load_in_progress := false; global := negb (has flags VM_LOCAL);
  physical := 0; ref_count := 1; file_offset := pos; file_node := f; swapfile := false;
  first_load := false; num_pages := number; swapfile_offset := 0xDEADDEAD |}.
(** Flags of a mapping whose pages come on first access. *)
Definition lazy_flags (flags f : Z) : Prop :=
  has flags VM_LOCK = false ∧ has flags VM_RELOCATABLE = false ∧ has flags VM_RECURSIVE = false ∧
  has flags VM_MAP_HARDWARE = false ∧ (f ≠ NULL → has flags VM_FILE = true).
(** Nothing is mapped there, in either tree. *)
Definition unused (s : vm) (a : vas) (lo hi : Z) : Prop := ∀ g pg, lo ≤ pg < hi → view_of s a g pg = None.

Lemma view_of_none s v a g pg : space_ok s v a → view_of s a g pg = None ↔ page_entry (entries s) (members s a g) pg = None.
Proof. intros Hok. unfold view_of, view_in. by rewrite fmap_None. Qed.

Section insert.
Context (s : vm) (v : Z) (a : vas) (q lo : Z) (e : vas_entry) (Hok : space_ok s v a).
Context (Hq : entries s !! q = None) (Hqn : q ≠ NULL) (Hoke : entry_ok e) (Hv : virtual e = lo * 4096).
Context (Hun : unused s a lo (lo + num_pages e)).

Lemma covers_lo pg : covers e pg ↔ lo ≤ pg < lo + num_pages e.
Proof. unfold covers, vend. rewrite Hv. lia. Qed.
Lemma insert_entry_run : ∃ s' a', InsertIntoAvl v q (set_entries s q e) = Done (tt, s') ∧ space_ok s' v a' ∧
  map_frame (set_entries s q e) s' ∧ entries s' !! q = Some e ∧ (∀ w, w ≠ v → vases s' !! w = vases s !! w) ∧
  (∀ z, is_Some (entries s !! z) → entries s' !! z = entries s !! z) ∧
  ∀ g pg, view_of s' a' g pg = if decide (g = global e ∧ lo ≤ pg < lo + num_pages e) then Some (norm e pg) else view_of s a g pg.
Proof.
  destruct (add_entry_ok s v a q e Hok Hq Hqn) as [H1 Hz]. set (g := global e).
  assert (∀ pg, covers e pg → page_entry (entries s) (members s a g) pg = None) as Hno.
  { intros pg Hc. apply (view_of_none s v a g pg Hok). apply Hun. by apply covers_lo. }
  destruct (InsertIntoAvl_run (set_entries s q e) v a H1 q e) as (s' & a' & E & [R1 R2 R3 R4 R5 R6]); [apply lookup_insert_eq|done| |].
  { intros x Hx. change (members (set_entries s q e) a (global e)) with (members s a g) in Hx.
    unfold entry_at. rewrite (Hz g x Hx). destruct (member_ok s v a g x Hok Hx) as (w & Hw & Hokw & _). rewrite Hw. cbn.
    apply (apart_pages w e lo Hokw Hoke Hv). intros pg Hpg Hc. pose proof (Hno pg ltac:(by apply covers_lo)) as Hn.
    rewrite page_entry_none in Hn by (by eapply members_sorted). apply (Hn x Hx). by rewrite (entry_at_some _ _ _ Hw). }
  assert (entries s' !! q = Some e) as Eq by (rewrite R2; apply lookup_insert_eq).
  exists s', a'. split; [done|]. split; [done|]. split; [done|]. split; [done|].
  split; [intros w Hw; rewrite R3; by rewrite lookup_insert_ne|].
  split; [intros z [y Hy]; rewrite R2; cbn; rewrite lookup_insert_ne; [done|congruence]|].
  intros g' pg. unfold view_of. destruct (decide (g' = g)) as [->|Hne].
  - unfold view_in. rewrite (page_entry_with (entries s) (entries s') (members s a g) (members s' a' g) q e pg).
    + pose proof (covers_lo pg) as Hcl. case_decide as Hd; [rewrite decide_True by tauto; cbn; by rewrite (entry_at_some _ _ _ Eq)|].
      rewrite decide_False by tauto.
      destruct (page_entry (entries s) (members s a g) pg) as [z|] eqn:Ez; [|done]. cbn. do 2 f_equal.
      apply page_entry_iff in Ez as [Hzm _]; [|by eapply members_sorted]. unfold entry_at. rewrite R2. by rewrite (Hz g z Hzm).
    + by eapply members_sorted.
    + by eapply members_sorted.
    + exact R5.
    + done.
    + intros x Hx. rewrite R2. by apply (Hz g).
    + apply Hno.
  - rewrite decide_False by (intros [? _]; done). assert (g' = negb g) as -> by (destruct g, g'; done).
    fold g in R6. rewrite R6, R2. apply view_in_agree. intros x Hx. by apply (Hz (negb g)).
Qed.
End insert.

Section add.
Context `{Allocator}.
Context (s : vm) (v : Z) (a : vas) (lo flags f pos number : Z).
Context (Hr : at_rest s v a) (Hm : mmu_ok s v a) (Hfl : lazy_flags flags f).
Context (Hlo : 0 ≤ lo) (Hn : 1 ≤ number < 2 ^ 20) (Hhi : lo + number ≤ 2 ^ 20) (Hpos : is_u32 pos).
Context (Hun : unused s a lo (lo + number)) (Ht : tables_present s v lo (lo + number)).

Abbreviation e := (lazy_entry (lo * 4096) flags f pos number).
Lemma lazy_ok : entry_ok e.
Proof. split; unfold vend; cbn; try done; try lia; by right. Qed.

(** What a mapping operation leaves alone. *)
Record lazily_mapped (lo hi : Z) (x : Z → vas_entry) (s' : vm) (a' : vas) : Prop := {
  lm_rest : at_rest s' v a';
  lm_mmu : mmu_ok s' v a';
  lm_views : ∀ g pg, view_of s' a' g pg = if decide (g = negb (has flags VM_LOCAL) ∧ lo ≤ pg < hi) then Some (x pg) else view_of s a g pg;
  lm_pdir : pdir s' = pdir s;
  lm_ram : ram s' = ram s;
  lm_pm : pm s' = pm s;
  lm_others : ∀ w, w ≠ v → vases s' !! w = vases s !! w;
  lm_entries : ∀ z, is_Some (entries s !! z) → entries s' !! z = entries s !! z;
  lm_next : local_next s' = local_next s ∧ global_next s' = global_next s;
}.

Lemma AddMapping_run : ∃ s' a', AddMapping v 0 (lo * 4096) flags f pos number s = Done (tt, s') ∧
  lazily_mapped lo (lo + number) (norm e) s' a' ∧ files s' = files s.
Proof.
  destruct Hfl as (F1 & F2 & F3 & F4 & F5). set (q := pick (dom (entries s))).
  assert (entries s !! q = None) as Hq by apply not_elem_of_dom, pick_fresh.
  pose proof (ar_ok _ _ _ Hr) as Hok. pose proof lazy_ok as Hoke.
  destruct (insert_entry_run (locked s v a) v (lock_vas a) q lo e Hok Hq (pick_nonnull _) Hoke eq_refl Hun) as (s1 & a1 & E1 & H1 & M1 & Eq & W1 & Z1 & V1).
  assert (pdir s1 = pdir s ∧ ptab s1 = ptab s ∧ cr3 s1 = v ∧ current_vas s1 = v) as (C1 & C2 & C3 & C4).
  { rewrite M1. cbn. split; [done|]. split; [done|]. split; apply Hm. }
  destruct (ArchAddMapping_run s1 v q e lo Eq C3) as (s2 & E2 & F & P); try done; try (cbn; lia).
  { unfold one_to_one. rewrite C1. apply Hm. }
  { unfold tables_present. rewrite C1. exact Ht. }
  assert (space_ok s2 v a1) as H2 by (rewrite F; destruct H1; by split).
  exists (unlocked s2 v a1), (unlock_vas a1). split; [|split; [split|]].
  - unfold AddMapping. rewrite F1, F2, F3, F4. cbv zeta.
    assert (negb (bool_decide (f ≠ NULL ∧ has flags VM_FILE = false)) = true) as ->.
    { rewrite bool_decide_false; [done|]. intros [Hf Hx]. by rewrite F5 in Hx. }
    rewrite (M_bind_done _ _ s tt s) by done. rewrite (M_bind_done _ _ s q (set_entries s q entry0)) by done.
    cbn [andb]. rewrite (M_bind_done _ _ _ (0, false) (set_entries s q entry0)) by done. rewrite i32_small by lia.
    assert (set_entry q e (set_entries s q entry0) = Done (tt, set_entries s q e)) as E0.
    { unfold set_entry, modify. cbn. do 2 f_equal. unfold set_entries. cbn. by rewrite insert_insert_eq. }
    step E0. assert (AcquireVas v (set_entries s q e) = Done (tt, set_entries (locked s v a) q e)) as Ea.
    { destruct Hr as [R1 R2 _]. unfold AcquireVas, get_vas. mred. cbn [vases set_entries]. rewrite R1. mred. by rewrite R2. }
    step Ea. step E1. step E2. rewrite (M_bind_done _ _ s2 tt s2) by done. by apply ReleaseVas_run.
  - by apply release_rest.
  - apply mmu_unlocked. destruct Hm as [N1 N2 N3 N4].
    assert (cr3 s2 = v ∧ current_vas s2 = v ∧ pdir s2 = pdir s) as (D1 & D2 & D3) by (by rewrite F).
    split; rewrite ?D1, ?D2, ?D3; try done. intros pg x.
    assert (view s2 a1 pg = view s1 a1 pg) as -> by (by rewrite F). rewrite view_views, !V1, P.
    destruct (decide (lo ≤ pg < lo + num_pages e)) as [Hin|Hout].
    + assert (∀ g, view_of (locked s v a) (lock_vas a) g pg = None) as Hn0 by (intros; apply Hun; exact Hin).
      rewrite !Hn0. intros Hx. exists (pte_flags e). split; [done|].
      assert (x = norm e pg) as -> by (destruct (global e); cbn in Hx; repeat case_decide; naive_solver).
      split; [apply (pte_flags_present e)|done].
    + rewrite !decide_False by tauto. intros Hx. destruct (N4 pg x Hx) as (w & Hw & Hag). exists w.
      unfold pte_at in *. by rewrite C1, C2.
  - intros g pg. change (view_of s2 a1 g pg = if decide (g = negb (has flags VM_LOCAL) ∧ lo ≤ pg < lo + number) then Some (norm e pg) else view_of s a g pg).
    assert (view_of s2 a1 g pg = view_of s1 a1 g pg) as -> by (by rewrite F). apply V1.
  - cbn. rewrite F. done.
  - cbn. rewrite F. cbn. by rewrite M1.
  - cbn. rewrite F. cbn. by rewrite M1.
  - intros w Hw. cbn. rewrite lookup_insert_ne by done. rewrite F. cbn. rewrite W1 by done. cbn. by rewrite lookup_insert_ne.
  - intros z Hz. cbn. rewrite F. cbn. by apply Z1.
  - cbn. rewrite F. cbn. by rewrite M1.
  - cbn. rewrite F. cbn. by rewrite M1.
Qed.
End add.

(** ** Ranges in use *)
Definition range_used (s : vm) (a : vas) (lo pages : Z) : bool :=
  existsb (λ pg, bool_decide (is_Some (view s a pg))) (seqZ lo pages).
Lemma range_used_false s a lo pages : range_used s a lo pages = false ↔ unused s a lo (lo + pages).
Proof.
  unfold range_used, unused. rewrite <- not_true_iff_false, existsb_exists. split.
  - intros Hno g pg Hpg. destruct (view_of s a g pg) as [x|] eqn:E; [|done]. destruct Hno. exists pg.
    split; [apply list_elem_of_In, elem_of_seqZ; lia|]. apply bool_decide_eq_true. rewrite view_views.
    destruct g; [rewrite E; destruct (view_of s a false pg)|rewrite E]; by eexists.
  - intros Hun (pg & Hin%list_elem_of_In & Hs%bool_decide_eq_true). apply elem_of_seqZ in Hin.
    rewrite view_views, !Hun in Hs by lia. by destruct Hs.
Qed.

Definition tree_used (s : vm) (a : vas) (g : bool) (lo pages : Z) : bool :=
  existsb (λ pg, bool_decide (is_Some (page_entry (entries s) (members s a g) pg))) (seqZ lo pages).
Lemma range_used_trees s a lo pages : range_used s a lo pages = tree_used s a false lo pages || tree_used s a true lo pages.
Proof.
  unfold range_used, tree_used. induction (seqZ lo pages) as [|pg l IH]; [done|]. cbn. rewrite IH.
  assert (bool_decide (is_Some (view s a pg)) = bool_decide (is_Some (page_entry (entries s) (members s a false) pg))
    || bool_decide (is_Some (page_entry (entries s) (members s a true) pg))) as ->.
  { unfold view, view_in. cbn [members]. destruct (page_entry (entries s) (locals a) pg), (page_entry (entries s) (globals s) pg); done. }
  repeat destruct (bool_decide _); cbn; rewrite ?orb_true_r; done.
Qed.

Lemma tree_contains_free s v a (g : bool) pg s1 : space_ok s v a → entries s1 = entries s →
  tree_contains (if g then global_vas_mappings s else mappings a) (dummy_entry (pg * 4096)) s1
  = Done (bool_decide (is_Some (page_entry (entries s) (members s a g) pg)), s1).
Proof.
  intros Hok He. pose proof (tree_contains_run s v a g pg Hok) as E. revert E. unfold tree_contains, check_compared, mbind, M_mbind.
  mred. rewrite He. destruct (bool_decide (Tree.AvlPrint _ = [])); cbn [outcome_bind]; [intros [= E0]; rewrite He; do 2 f_equal; exact E0|].
  destruct (decide _); cbn [outcome_bind]; [|done]. destruct (bool_decide (_ ∧ _)); cbn [outcome_bind]; [intros [= E0]; rewrite He; do 2 f_equal; exact E0|done].
Qed.
Lemma in_use_loop_run s v a (g : bool) s1 (n : nat) : space_ok s v a → entries s1 = entries s → ∀ lo, 0 ≤ lo → lo + n ≤ 2 ^ 20 →
  in_use_loop n (if g then global_vas_mappings s else mappings a) (lo * 4096) s1 = Done (tree_used s a g lo n, s1).
Proof.
  intros Hok He. induction n as [|n IH]; intros lo Hlo Hhi; cbn [in_use_loop]; [done|].
  step (tree_contains_free s v a g lo s1 Hok He). unfold tree_used. rewrite seqZ_cons by lia. cbn [existsb].
  destruct (bool_decide _); [done|]. destruct n as [|n]; [done|]. replace (u32 (lo * 4096 + 4096)) with ((lo + 1) * 4096).
  - rewrite IH by lia. unfold tree_used. cbn [orb]. do 3 f_equal. f_equal; lia.
  - rewrite u32_small; [lia|]. unfold is_u32. lia.
Qed.

Section in_use.
Context (s : vm) (v : Z) (a : vas) (Hr : at_rest s v a).
Lemma IsRangeInUse_run lo pages : 0 ≤ lo → 0 ≤ pages → lo + pages ≤ 2 ^ 20 →
  IsRangeInUse v (lo * 4096) pages s = Done (range_used s a lo pages, s).
Proof.
  intros Hlo Hp Hhi. pose proof (ar_ok _ _ _ Hr) as Hok. unfold IsRangeInUse. step (AcquireVas_run s v a Hr).
  assert (get_vas v (locked s v a) = Done (lock_vas a, locked s v a)) as Eg by (unfold get_vas; mred; by rewrite (sp_vas _ _ _ Hok)).
  step Eg. pose proof (in_use_loop_run _ v _ false (locked s v a) (Z.to_nat pages) Hok eq_refl lo Hlo ltac:(lia)) as E1. step E1.
  step (ReleaseVas_run _ v _ Hok). rewrite (unlocked_locked s v a Hr), Z2Nat.id by lia.
  rewrite range_used_trees. change (tree_used (locked s v a) (lock_vas a) false lo pages) with (tree_used s a false lo pages).
  destruct (tree_used s a false lo pages); [done|]. cbn [orb]. set (s1 := {| s with global_mappings_lock := true |}).
  assert (AcquireGlobal s = Done (tt, s1)) as E2.
  { unfold AcquireGlobal. mred. by rewrite (sp_unlocked _ _ _ Hok : global_mappings_lock s = false). }
  step E2. rewrite (M_bind_done _ _ s1 s1 s1) by done. change (global_vas_mappings s1) with (global_vas_mappings (locked s v a)).
  pose proof (in_use_loop_run _ v _ true s1 (Z.to_nat pages) Hok eq_refl lo Hlo ltac:(lia)) as E3. step E3. rewrite Z2Nat.id by lia.
  assert (ReleaseGlobal s1 = Done (tt, s)) as E4.
  { unfold ReleaseGlobal. mred. cbn. do 2 f_equal. rewrite <- (sp_unlocked _ _ _ Hok : global_mappings_lock s = false). by destruct s. }
  by step E4.
Qed.
End in_use.

(** ** The loop over the pages *)
Definition with_files (s : vm) (m : gmap Z open_file) : vm := {| s with files := m |}.
(** How page [pg] looks in a mapping of [pages] pages from page [lo] on: pages
    are mapped by one entry from three on, or one by one. *)
Definition mapped_page (flags f pos lo pages pg : Z) : vas_entry :=
  if bool_decide (3 ≤ pages) then norm (lazy_entry (lo * 4096) flags f pos pages) pg
  else lazy_entry (pg * 4096) flags f (u32 (pos + (pg - lo) * 4096)) 1.

Lemma at_rest_files s v a m : at_rest s v a → at_rest (with_files s m) v a.
Proof. intros [A1 A2 [O1 O2 O3 O4 O5 O6 O7]]. by split; [| |split]. Qed.
Lemma mmu_ok_files s v a m : mmu_ok s v a → mmu_ok (with_files s m) v a.
Proof. by intros []; split. Qed.

Section lazily_trans.
Context (s : vm) (v : Z) (a : vas) (flags : Z).
Lemma lazily_mapped_trans lo mid hi x s1 a1 s2 a2 : lo ≤ mid ≤ hi →
  lazily_mapped s v a flags lo mid x s1 a1 → lazily_mapped s1 v a1 flags mid hi x s2 a2 → lazily_mapped s v a flags lo hi x s2 a2.
Proof.
  intros Hle [A1 A2 A3 A4 A5 A6 A7 A8 [A9 A10]] [B1 B2 B3 B4 B5 B6 B7 B8 [B9 B10]]. split; try done; try (split; congruence); try congruence.
  - intros g pg. rewrite B3, A3. destruct (decide (g = negb (has flags VM_LOCAL))) as [Hg|Hg]; [|by rewrite !decide_False by tauto].
    destruct (decide (mid ≤ pg < hi)); [rewrite !decide_True by (split; [done|lia]); done|]. rewrite (decide_False (P := _ ∧ mid ≤ pg < hi)) by tauto.
    destruct (decide (lo ≤ pg < mid)); [rewrite !decide_True by (split; [done|lia]); done|].
    rewrite !decide_False by (intros [_ ?]; lia). done.
  - intros w Hw. rewrite B7, A7; done.
  - intros z Hz. rewrite B8, A8; [done..|]. by rewrite A8.
Qed.
Lemma lazily_mapped_ext lo hi x x' s1 a1 : (∀ pg, lo ≤ pg < hi → x pg = x' pg) →
  lazily_mapped s v a flags lo hi x s1 a1 → lazily_mapped s v a flags lo hi x' s1 a1.
Proof.
  intros Hx [A1 A2 A3 A4 A5 A6 A7 A8 A9]. split; try done. intros g pg. rewrite A3. case_decide as Hd; [|done]. f_equal. apply Hx, Hd.
Qed.
Lemma lazily_mapped_none lo x : at_rest s v a → mmu_ok s v a → lazily_mapped s v a flags lo lo x s a.
Proof. intros H1 H2. split; try done. intros g pg. by rewrite decide_False by lia. Qed.
(** The open files may have changed before. *)
Lemma lazily_mapped_files lo hi x m s1 a1 :
  lazily_mapped (with_files s m) v a flags lo hi x s1 a1 → lazily_mapped s v a flags lo hi x s1 a1.
Proof. by intros [A1 A2 A3 A4 A5 A6 A7 A8 A9]; split. Qed.
End lazily_trans.

Section loop.
Context `{Allocator}.
Context (v flags f pos : Z) (Hfl : lazy_flags flags f) (Hpos : is_u32 pos).
Definition file_known (s : vm) : Prop := has flags VM_FILE = true → f ≠ NULL ∧ is_Some (files s !! f).

Lemma reference_run s : file_known s → ∃ m, (if has flags VM_FILE then ReferenceFile f else mret tt) s = Done (tt, with_files s m) ∧ file_known (with_files s m).
Proof.
  unfold file_known. intros Hf. destruct (has flags VM_FILE); [|by exists (files s); split; [destruct s|]].
  destruct (Hf eq_refl) as [Hn [x Hx]]. eexists. unfold ReferenceFile. rewrite bool_decide_true by done.
  rewrite (M_bind_done _ _ s tt s) by done. assert (get_file f s = Done (x, s)) as E by (unfold get_file; mred; by rewrite Hx).
  step E. split; [done|]. intros _. split; [done|]. cbn. rewrite lookup_insert_eq. by eexists.
Qed.

Lemma MapVirt_step s a lo number i base : at_rest s v a → mmu_ok s v a → 0 ≤ base → 0 ≤ i → lo = base + i →
  1 ≤ number < 2 ^ 20 → lo + number ≤ 2 ^ 20 → file_known s →
  unused s a lo (lo + number) → tables_present s v lo (lo + number) →
  ∃ m s' a', (if has flags VM_FILE then ReferenceFile f else mret tt) s = Done (tt, with_files s m) ∧
    AddMapping v (if has flags VM_RELOCATABLE then 0 else if decide (0 = 0) then 0 else u32 (0 + i * 4096))
      (u32 (base * 4096 + i * 4096)) flags f (u32 (pos + i * 4096)) number (with_files s m) = Done (tt, s') ∧
    lazily_mapped s v a flags lo (lo + number) (norm (lazy_entry (lo * 4096) flags f (u32 (pos + i * 4096)) number)) s' a' ∧
    file_known s'.
Proof.
  intros Hr Hm Hb Hi -> Hn Hhi Hf Hun Ht. destruct (reference_run s Hf) as (m & E & Hf').
  destruct (AddMapping_run (with_files s m) v a (base + i) flags f (u32 (pos + i * 4096)) number) as (s' & a' & E' & L & Fs);
    [by apply at_rest_files|by apply mmu_ok_files|done|lia|done|done|apply u32_range|done|done|].
  exists m, s', a'. split; [done|]. split.
  - replace (base * 4096 + i * 4096) with ((base + i) * 4096) by lia.
    rewrite (u32_small ((base + i) * 4096)) by (unfold is_u32; lia). destruct Hfl as (_ & Hre & _). rewrite Hre, decide_True by reflexivity. exact E'.
  - split; [by eapply lazily_mapped_files|]. unfold file_known. by rewrite Fs.
Qed.

Lemma MapVirt_loop_one (n : nat) base : ∀ s a i, at_rest s v a → mmu_ok s v a → 0 ≤ base → 0 ≤ i → base + i + n ≤ 2 ^ 20 →
  file_known s → unused s a (base + i) (base + i + n) → tables_present s v (base + i) (base + i + n) →
  ∃ s' a', MapVirt_loop n i v 0 (base * 4096) flags f pos 1 s = Done (tt, s') ∧
    lazily_mapped s v a flags (base + i) (base + i + n) (λ pg, lazy_entry (pg * 4096) flags f (u32 (pos + (pg - base) * 4096)) 1) s' a'.
Proof.
  induction n as [|n IH]; intros s a i Hr Hm Hb Hi Hhi Hf Hun Ht; cbn [MapVirt_loop].
  { exists s, a. split; [done|]. rewrite Z.add_0_r. by apply lazily_mapped_none. }
  destruct (MapVirt_step s a (base + i) 1 i base Hr Hm Hb Hi eq_refl) as (m & s1 & a1 & E1 & E2 & L1 & Hf1); [lia|lia|done| | |].
  { intros g pg Hpg. apply Hun. lia. }
  { intros pg Hpg. apply Ht. lia. }
  step E1. step E2. destruct (IH s1 a1 (i + 1)) as (s2 & a2 & E3 & L2); try done; try apply L1; try lia.
  { intros g pg Hpg. rewrite (lm_views _ _ _ _ _ _ _ _ _ L1). rewrite decide_False by (intros [_ ?]; lia). apply Hun. lia. }
  { intros pg Hpg. rewrite (lm_pdir _ _ _ _ _ _ _ _ _ L1). apply Ht. lia. }
  exists s2, a2. split; [done|].
  replace (base + (i + 1)) with (base + i + 1) in L2 by lia. replace (base + i + 1 + n) with (base + i + S n) in L2 by lia.
  eapply lazily_mapped_trans; [|eapply lazily_mapped_ext; [|exact L1]|exact L2]; [lia|].
  intros pg Hpg. assert (pg = base + i) as -> by lia. replace (base + i - base) with i by lia.
  pose proof (norm_own (lazy_entry ((base + i) * 4096) flags f (u32 (pos + i * 4096)) 1)) as Ho. cbn [virtual lazy_entry entry0] in Ho.
  replace ((base + i) * 4096 / 4096) with (base + i) in Ho by lia. apply Ho; [|done]. apply lazy_ok; [lia|done|lia|apply u32_range].
Qed.
End loop.

(** ** The whole call *)
Section map_virt.
Context `{Allocator}.
Context (s : vm) (v : Z) (a : vas) (pages flags f pos : Z).
Context (Hr : at_rest s v a) (Hm : mmu_ok s v a) (Hfl : lazy_flags flags f) (Hpos : is_u32 pos) (Hn : 1 ≤ pages).

(** The pages are mapped at the place that was chosen. *)
Lemma MapVirt_loop_run lo : 0 ≤ lo → lo + pages ≤ 2 ^ 20 → pages < 2 ^ 20 → file_known flags f s →
  unused s a lo (lo + pages) → tables_present s v lo (lo + pages) →
  let multi := (negb (has flags VM_LOCK) || has flags VM_MAP_HARDWARE) && bool_decide (3 ≤ pages) in
  ∃ s' a', MapVirt_loop (if multi then 1%nat else Z.to_nat pages) 0 v 0 (lo * 4096) flags f pos (if multi then pages else 1) s = Done (tt, s') ∧
    lazily_mapped s v a flags lo (lo + pages) (mapped_page flags f pos lo pages) s' a'.
Proof.
  intros Hlo Hhi Hp Hf Hun Ht multi. assert (multi = bool_decide (3 ≤ pages)) as -> by (unfold multi; destruct Hfl as [-> _]; done).
  unfold mapped_page. case_bool_decide.
  - destruct (MapVirt_step v flags f pos Hfl s a lo pages 0 lo Hr Hm Hlo) as (m & s1 & a1 & E1 & E2 & L1 & _); try done; try lia.
    cbn [MapVirt_loop]. rewrite Z.add_0_r, u32_small in L1 by done. exists s1, a1. split; [step E1; by step E2|]. exact L1.
  - destruct (MapVirt_loop_one v flags f pos Hfl (Z.to_nat pages) lo s a 0 Hr Hm) as (s1 & a1 & E1 & L1); try done; try lia.
    { by replace (lo + 0 + Z.to_nat pages) with (lo + pages) by lia; replace (lo + 0) with lo by lia. }
    { by replace (lo + 0 + Z.to_nat pages) with (lo + pages) by lia; replace (lo + 0) with lo by lia. }
    exists s1, a1. split; [done|]. replace (lo + 0 + Z.to_nat pages) with (lo + pages) in L1 by lia. by rewrite Z.add_0_r in L1.
Qed.

(** Where [AllocVirtRange] puts the mapping. *)
Definition with_next (s : vm) (l g : Z) : vm := {| s with local_next := l; global_next := g |}.
Definition next_virt (s : vm) (flags : Z) : Z := if has flags VM_LOCAL then local_next s else global_next s.
Definition advanced (s : vm) (flags pages : Z) : vm :=
  if has flags VM_LOCAL then with_next s (u32 (local_next s + pages * 4096)) (global_next s)
  else with_next s (local_next s) (u32 (global_next s + pages * 4096)).
Lemma AllocVirtRange_run s1 : AllocVirtRange pages (Z.land flags VM_LOCAL) s1 = Done (next_virt s1 flags, advanced s1 flags pages).
Proof.
  unfold AllocVirtRange, next_virt, advanced, has. rewrite (M_bind_done _ _ s1 s1 s1) by done.
  case_decide; [rewrite bool_decide_true by done|rewrite bool_decide_false by tauto]; reflexivity.
Qed.
Lemma advanced_rest : at_rest (advanced s flags pages) v a ∧ mmu_ok (advanced s flags pages) v a.
Proof.
  assert (∀ l g, at_rest (with_next s l g) v a ∧ mmu_ok (with_next s l g) v a) as Hw.
  { intros l g. destruct Hr as [A1 A2 [O1 O2 O3 O4 O5 O6 O7]], Hm as [M1 M2 M3 M4]. split; split; try done; by split. }
  unfold advanced. destruct (has flags VM_LOCAL); apply Hw.
Qed.
End map_virt.

Section map_ex.
Context `{Allocator}.
Context (s : vm) (v : Z) (a : vas) (virt pages flags f pos : Z).
Context (Hr : at_rest s v a) (Hm : mmu_ok s v a) (Hfl : lazy_flags flags f) (Hpos : is_u32 pos).
Context (Hn : 1 ≤ pages < 2 ^ 20) (Hf : file_known flags f s) (Hchk : check_flags 0 flags f pos s = Done (0, s)).

(** A place where the pages can go. *)
Definition place_ok (at_ : Z) : Prop := at_ `mod` 4096 = 0 ∧ 0 ≤ at_ ∧ at_ + pages * 4096 ≤ 2 ^ 32 ∧
  unused s a (at_ / 4096) (at_ / 4096 + pages) ∧ tables_present s v (at_ / 4096) (at_ / 4096 + pages).

(** The rest of the call once the place is known. *)
Lemma map_at_run s1 at_ : (s1 = s ∨ s1 = advanced s flags pages) → place_ok at_ →
  ∃ s' a', (let multi_page_mapping :=
      (negb (has flags VM_LOCK) || has flags VM_MAP_HARDWARE) && bool_decide (3 ≤ pages) in
    MapVirt_loop (if multi_page_mapping then 1%nat else Z.to_nat pages) 0 v 0 at_ flags f pos
      (if multi_page_mapping then pages else 1);;
    cur ← GetVas;
    (if decide (v = cur) then ArchFlushTlb v else mret tt);;
    mret (at_, 0)) s1 = Done ((at_, 0), s') ∧
    lazily_mapped s1 v a flags (at_ / 4096) (at_ / 4096 + pages) (mapped_page flags f pos (at_ / 4096) pages) s' a'.
Proof.
  intros Hs1 (P1 & P2 & P3 & P4 & P5). cbv zeta.
  destruct (advanced_rest s v a pages flags Hr Hm) as [Ra Ma].
  assert (at_rest s1 v a ∧ mmu_ok s1 v a ∧ file_known flags f s1 ∧ unused s1 a (at_ / 4096) (at_ / 4096 + pages) ∧
    tables_present s1 v (at_ / 4096) (at_ / 4096 + pages)) as (Q1 & Q2 & Q3 & Q4 & Q5).
  { destruct Hs1 as [->| ->]; [done|]. split; [done|]. split; [done|]. unfold advanced. by destruct (has flags VM_LOCAL). }
  destruct (MapVirt_loop_run s1 v a pages flags f pos Q1 Q2 Hfl Hpos ltac:(lia) (at_ / 4096)) as (s' & a' & E & L); try done; try lia.
  replace (at_ / 4096 * 4096) with at_ in E by lia. exists s', a'. split.
  - step E. unfold GetVas. rewrite (M_bind_done _ _ s' (current_vas s') s') by done.
    assert (ArchFlushTlb v s' = Done (tt, s')) as Ef.
    { unfold ArchFlushTlb, ArchSetVas, modify. cbn. do 2 f_equal. rewrite <- (mm_cr3 _ _ _ (lm_mmu _ _ _ _ _ _ _ _ _ L)). by destruct s'. }
    destruct (decide (v = current_vas s')); [by step Ef|done].
  - done.
Qed.

Definition taken : bool := range_used s a (virt / 4096) pages.
(** The kernel chooses the place: none was asked for, or it is taken. *)
Definition moved : bool := bool_decide (virt = 0) || taken.
Definition chosen : Z := if moved then next_virt s flags else virt.
Definition placed : vm := if moved then advanced s flags pages else s.
Lemma placed_same : (∀ g pg, view_of placed a g pg = view_of s a g pg) ∧ ram placed = ram s ∧ pm placed = pm s ∧ vases placed = vases s.
Proof. unfold placed, advanced. by destruct moved, (has flags VM_LOCAL). Qed.
Lemma placed_views lo hi x s' a' : lazily_mapped placed v a flags lo hi x s' a' →
  ∀ g pg, view_of s' a' g pg = if decide (g = negb (has flags VM_LOCAL) ∧ lo ≤ pg < hi) then Some (x pg) else view_of s a g pg.
Proof. intros L g pg. rewrite (lm_views _ _ _ _ _ _ _ _ _ L). by rewrite (proj1 placed_same). Qed.
Lemma placed_next : next_virt placed flags = if moved then u32 (next_virt s flags + pages * 4096) else next_virt s flags.
Proof. unfold placed, next_virt, advanced. by destruct moved, (has flags VM_LOCAL). Qed.

Lemma MapVirtEx_run : virt `mod` 4096 = 0 → 0 ≤ virt → virt + pages * 4096 ≤ 2 ^ 32 →
  if negb (bool_decide (virt = 0)) && taken && has flags VM_FIXED_VIRT
  then MapVirtEx v 0 virt pages flags f pos s = Done ((0, EEXIST), s)
  else place_ok chosen → ∃ s' a', MapVirtEx v 0 virt pages flags f pos s = Done ((chosen, 0), s') ∧
    lazily_mapped placed v a flags (chosen / 4096) (chosen / 4096 + pages) (mapped_page flags f pos (chosen / 4096) pages) s' a'.
Proof.
  intros Hal H0 Hhi. pose proof (IsRangeInUse_run s v a Hr (virt / 4096) pages ltac:(lia) ltac:(lia) ltac:(lia)) as Hu.
  replace (virt / 4096 * 4096) with virt in Hu by lia. fold taken in Hu.
  unfold MapVirtEx, chosen, placed, moved. step Hchk. rewrite (decide_False (P := (0 : Z) ≠ 0)) by lia.
  pose proof (AllocVirtRange_run pages flags s) as Ha.
  destruct (decide (virt = 0)) as [Hv|Hv].
  - rewrite (bool_decide_true (virt = 0)) by done. cbn [negb andb orb]. intros Hp.
    rewrite (M_bind_done _ _ s (Some (next_virt s flags)) (advanced s flags pages)) by (by step Ha).
    apply map_at_run; [by right|done].
  - rewrite (bool_decide_false (virt = 0)) by done. cbn [negb andb orb]. destruct taken; cbn [andb].
    + destruct (has flags VM_FIXED_VIRT).
      * rewrite (M_bind_done _ _ s None s) by (by step Hu). done.
      * intros Hp. rewrite (M_bind_done _ _ s (Some (next_virt s flags)) (advanced s flags pages)) by (step Hu; by step Ha).
        apply map_at_run; [by right|done].
    + intros Hp. rewrite (M_bind_done _ _ s (Some virt) s) by (by step Hu). apply map_at_run; [by left|done].
Qed.
End map_ex.
