(* ===== verification/VirtMemTheorems.v ===== *)
(** * Virtual memory: what the operations do to the pages of an address space *)

From Stdlib Require Import Sorted.
From S2P Require Import Prelude Tree VirtMem VirtMemTree VirtMemSplit VirtMemPages VirtMemFault VirtMemCow VirtMemUnmap VirtMemMap.
From S2P Require Bitmap Physical Swapfile.

#[local] Ltac Zify.zify_post_hook ::= Z.to_euclidean_division_equations.

(** ** Permissions *)
Definition with_permissions (set clear : Z) (x : vas_entry) : vas_entry := {| x with
  read := pick_bit set clear VM_READ (read x);
  write := pick_bit set clear VM_WRITE (write x);
  exec := pick_bit set clear VM_EXEC (exec x);
  user := pick_bit set clear VM_USER (user x) |}.
Definition permission_bits (w : Z) : Prop :=
  Z.land w (Z.lnot (Z.lor (Z.lor (Z.lor VM_READ VM_WRITE) VM_EXEC) VM_USER)) = 0.
(** The mapping of a file that may not be written. *)
Definition write_denied (s : vm) (set : Z) (x : vas_entry) : bool :=
  file x && (match files s !! file_node x with Some f => negb (can_write f) | None => false end)
  && has set VM_WRITE && negb (relocatable x).
Definition files_open (s : vm) (x : vas_entry) : Prop := file x = true → is_Some (files s !! file_node x).

Section permissions.
Context `{Allocator}.
Context (s : vm) (v : Z) (a : vas) (virt set clear : Z).
Context (Hok : space_ok s v a) (Hm : mmu_ok s v a) (Hv : 0 ≤ virt < 2 ^ 32).

Lemma SetVirtPermissionsEx_none : permission_bits (Z.lor set clear) → view s a (virt / 4096) = None →
  SetVirtPermissionsEx v virt set clear s = Done (ENOMEM, s).
Proof.
  intros Hb Hn. unfold SetVirtPermissionsEx. rewrite decide_False by (intros Hx0; by apply Hx0).
  step (GetVirtEntry_run s v a virt Hok ltac:(lia)). rewrite view_entry in Hn.
  by destruct (entry_for s a (virt / 4096)).
Qed.

Lemma SetVirtPermissionsEx_run x : permission_bits (Z.lor set clear) → view s a (virt / 4096) = Some x → files_open s x →
  if write_denied s set x then SetVirtPermissionsEx v virt set clear s = Done (EACCES, s) else
  ∃ s' a', SetVirtPermissionsEx v virt set clear s = Done (0, s') ∧ space_ok s' v a' ∧ mmu_ok s' v a' ∧ ram s' = ram s ∧ pm s' = pm s ∧
    ∀ pg, view s' a' pg = if decide (pg = virt / 4096) then Some (with_permissions set clear x) else view s a pg.
Proof.
  intros Hb Hx Hfile. set (pg := virt / 4096) in *. pose proof Hx as Hx'. rewrite view_entry in Hx'.
  destruct (entry_for s a pg) as [p|] eqn:Hf; [|done]. cbn in Hx'. injection Hx' as Hx'.
  destruct (entry_for_member s v a pg p Hok Hf) as (g & e & Hp & He & Hoke & Hg & Hc & Hnn). rewrite (entry_at_some _ _ _ He) in Hx'.
  assert ((if file e then f ← get_file (file_node e); mret (negb (can_write f) && has set VM_WRITE && negb (relocatable e)) else mret false) s
    = Done (write_denied s set x, s)) as Ed.
  { unfold write_denied, files_open in *. rewrite <- Hx' in *. cbn in *. destruct (file e); [|done]. destruct Hfile as [fl Hfl]; [done|].
    unfold get_file. mred. by rewrite Hfl. }
  assert (SetVirtPermissionsEx v virt set clear s = (if write_denied s set x then mret EACCES else
    SplitLargePageEntryIntoMultiple v virt p 1;; e ← get_entry p; set_entry p (with_permissions set clear e);;
    ArchUpdateMapping v p;; ArchFlushTlb v;; mret 0) s) as ->.
  { unfold SetVirtPermissionsEx. rewrite decide_False by (intros Hx0; by apply Hx0).
    step (GetVirtEntry_run s v a virt Hok ltac:(lia)). fold pg. rewrite Hf. cbn [default from_option]. rewrite decide_False by done.
    step (get_entry_run s p e He). step Ed. done. }
  destruct (write_denied s set x); [done|].
  destruct (split_page s v a pg virt p Hok Hm Hf eq_refl) as (s1 & a1 & x' & E1 & Hx1 & H1 & V1 & F1 & _).
  assert (x' = x) as -> by congruence. step E1. step (held_get _ _ _ _ _ _ H1). rewrite (M_bind_done _ _ s1 tt (set_entries s1 p (with_permissions set clear x))) by done.
  destruct (held_view _ _ _ _ _ _ H1) as (_ & Hokx & _). pose proof (hd_one _ _ _ _ _ _ H1).
  destruct (remap_run _ _ _ _ _ _ (held_held_but _ _ _ _ _ _ H1) (with_permissions set clear x)) as (s2 & E2 & E3 & H2 & F2 & _ & _ & V2); [done..|by apply (entry_ok_ext x)|].
  step E2. step E3. exists s2, a1. split; [done|]. split; [apply H2|]. split; [apply H2|].
  split; [rewrite F2; cbn [ram]; by rewrite F1|]. split; [rewrite F2; cbn [pm]; by rewrite F1|]. intros pg'. rewrite V2. by rewrite V1.
Qed.
End permissions.

(** ** The calls as the kernel makes them *)

(** The state behind a lock that was taken and released around a call. *)
Lemma with_lock {A} s v a (m : V A) r s1 a1 : at_rest s v a → m (locked s v a) = Done (r, s1) → space_ok s1 v a1 →
  (AcquireVas v;; x ← m; ReleaseVas v;; mret x) s = Done (r, unlocked s1 v a1).
Proof. intros Hr E H1. step (AcquireVas_run s v a Hr). step E. by step (ReleaseVas_run s1 v a1 H1). Qed.
Lemma with_lock_unchanged {A} s v a (m : V A) r : at_rest s v a → m (locked s v a) = Done (r, locked s v a) →
  (AcquireVas v;; x ← m; ReleaseVas v;; mret x) s = Done (r, s).
Proof. intros Hr E. rewrite (with_lock s v a m r _ _ Hr E (ar_ok _ _ _ Hr)). by rewrite unlocked_locked. Qed.

(** Giving a page an entry of its own changes the attributes of no page of
    the address space, nor the page tables, and keeps the trees in order. *)
Theorem split_preserves_pages `{Allocator} s v a virt p x :
  space_ok s v a → mmu_ok s v a → entry_for s a (virt / 4096) = Some p → view s a (virt / 4096) = Some x →
  ∃ s' a', SplitLargePageEntryIntoMultiple v virt p 1 s = Done (1, s') ∧
    space_ok s' v a' ∧ (∀ pg, view s' a' pg = view s a pg) ∧ ptab s' = ptab s ∧
    entry_for s' a' (virt / 4096) = Some p ∧ entries s' !! p = Some x ∧ num_pages x = 1.
Proof.
  intros Hok Hm Hf Hx. destruct (split_page s v a _ virt p Hok Hm Hf eq_refl) as (s1 & a1 & x1 & E & Hx1 & [] & V1 & F1 & _).
  assert (x1 = x) as -> by congruence. exists s1, a1. split_and!; try done. by rewrite F1.
Qed.

(** SetVirtPermissions changes the permissions of the one page asked for, in
    the mappings and in the page tables, and of no other page; it refuses other
    flags, a page that is not mapped, and writing to a file not open for it. *)
Theorem SetVirtPermissions_correct `{Allocator} s v a virt set clear :
  at_rest s v a → mmu_ok s v a → 0 ≤ virt < 2 ^ 32 →
  (∀ x, view s a (virt / 4096) = Some x → files_open s x) →
  if decide (permission_bits (Z.lor set clear)) then
    match view s a (virt / 4096) with
    | None => SetVirtPermissions virt set clear s = Done (ENOMEM, s)
    | Some x =>
      if write_denied s set x then SetVirtPermissions virt set clear s = Done (EACCES, s) else
      ∃ s' a', SetVirtPermissions virt set clear s = Done (0, s') ∧ at_rest s' v a' ∧ mmu_ok s' v a' ∧
        ram s' = ram s ∧ pm s' = pm s ∧
        ∀ pg, view s' a' pg = if decide (pg = virt / 4096) then Some (with_permissions set clear x) else view s a pg
    end
  else SetVirtPermissions virt set clear s = Done (EINVAL, s).
Proof.
  intros Hr Hm Hv Hfile. pose proof (mmu_locked _ _ _ Hm) as Hm'. pose proof (ar_ok _ _ _ Hr) as Hok.
  assert (∀ m : Z → V Z, (v ← GetVas; AcquireVas v;; r ← m v; ReleaseVas v;; mret r) s = (AcquireVas v;; r ← m v; ReleaseVas v;; mret r) s) as Ev.
  { intros m. unfold GetVas. rewrite (M_bind_done _ _ s (current_vas s) s) by done. by rewrite (mm_current _ _ _ Hm). }
  unfold SetVirtPermissions. rewrite (Ev (λ v, SetVirtPermissionsEx v virt set clear)). case_decide as Hb.
  - destruct (view s a (virt / 4096)) as [x|] eqn:Hx.
    + pose proof (SetVirtPermissionsEx_run (locked s v a) v (lock_vas a) virt set clear Hok Hm' Hv x Hb Hx (Hfile x eq_refl)) as Run.
      change (write_denied (locked s v a) set x) with (write_denied s set x) in Run. destruct (write_denied s set x).
      * by apply (with_lock_unchanged s v a _ _ Hr).
      * destruct Run as (s1 & a1 & E & Hok1 & Hm1 & R1 & R2 & V1). exists (unlocked s1 v a1), (unlock_vas a1).
        split; [by eapply with_lock|]. split; [by apply release_rest|]. split; [by apply mmu_unlocked|]. done.
    + apply (with_lock_unchanged s v a _ _ Hr). by apply (SetVirtPermissionsEx_none _ v (lock_vas a)).
  - apply (with_lock_unchanged s v a _ _ Hr). unfold SetVirtPermissionsEx. by rewrite decide_True.
Qed.

(** ** Page faults *)
Lemma if_apply {A B} (b : bool) (f g : A → B) x : (if b then f else g) x = if b then f x else g x.
Proof. by destruct b. Qed.

(** What the assertions of [HandleVirtFault] say of an entry. *)
Definition flags_ok (x : vas_entry) : Prop :=
  (in_ram x && swapfile x) = false ∧ (file x && swapfile x) = false ∧
  (negb (in_ram x) && lock x) = false ∧ (cow x && lock x) = false.
(** A page the program may not access in this way, and one to be filled with
    zeroes on its first access. *)
Definition bad_access (fault_type : Z) (x : vas_entry) : bool :=
  negb (load_in_progress x) && negb (cow x && has fault_type VM_WRITE) && negb (swapfile x) &&
  (if in_ram x then true else negb (file x) && negb (permitted fault_type x)).
Definition blank_access (fault_type : Z) (x : vas_entry) : bool :=
  negb (load_in_progress x) && negb (cow x && has fault_type VM_WRITE) && negb (swapfile x) &&
  negb (in_ram x) && negb (file x) && permitted fault_type x.

Definition with_faults (s : vm) (l : list Z) : vm := {| s with faults := l |}.

Section handle.
Context `{Allocator}.
Context (s : vm) (v : Z) (a : vas) (irql : Z) (schedule : V unit) (virt fault_type : Z).
Context (Hr : at_rest s v a) (Hm : mmu_ok s v a) (Hirql : irql < 3) (Hv : 0 ≤ virt).

(** In the handler, with the lock held. *)
Definition handling (k : Z) (s : vm) : vm := with_pm s (Physical.set_handling (Physical.handling_page_fault (pm s) + k) (pm s)).
Definition handler_state : vm := handling 1 (locked s v a).

Lemma handling_back (s1 : vm) : handling (-1) (handling 1 s1) = s1.
Proof.
  unfold handling, with_pm. cbn. destruct s1 as [? ? ? ? ? ? ? ? ? ? q]. cbn. f_equal. destruct q. unfold Physical.set_handling. cbn. f_equal. lia.
Qed.
Lemma cleanup_run s1 a1 : space_ok s1 v a1 →
  (on_phys (modify (λ p, Physical.set_handling (Physical.handling_page_fault p - 1) p));; ReleaseVas v) s1
  = Done (tt, unlocked (handling (-1) s1) v a1).
Proof.
  intros H1. rewrite (M_bind_done _ _ s1 tt (handling (-1) s1)) by done. apply ReleaseVas_run. by apply space_ok_pm.
Qed.

Lemma handler_space : space_ok handler_state v (lock_vas a) ∧ mmu_ok handler_state v (lock_vas a).
Proof. split; [apply space_ok_pm, Hr|by apply mmu_ok_pm, mmu_locked]. Qed.

(** The handler up to what it does with the entry. *)
Lemma handler_entry p e : entry_for s a (virt / 4096) = Some p → entries s !! p = Some e →
  load_in_progress e = false → flags_ok e →
  HandleVirtFault irql schedule virt fault_type s =
  (result ← BringIntoMemory v p (has fault_type VM_WRITE) virt fault_type;
   (if decide (result ≠ 0) then UnhandledFault UNHANDLED_FAULT_SEGV else mret tt);;
   on_phys (modify (λ p, Physical.set_handling (Physical.handling_page_fault p - 1) p));; ReleaseVas v) handler_state.
Proof.
  intros Hf He Hl (F1 & F2 & F3 & F4). destruct handler_space as [Hok Hm'].
  unfold HandleVirtFault. rewrite decide_False by lia. unfold GetVas. rewrite (M_bind_done _ _ s (current_vas s) s) by done.
  rewrite (mm_current _ _ _ Hm). step (AcquireVas_run s v a Hr). rewrite (M_bind_done _ _ (locked s v a) tt handler_state) by done. cbv zeta.
  step (GetVirtEntry_run handler_state v (lock_vas a) virt Hok Hv). change (entry_for handler_state (lock_vas a) (virt / 4096)) with (entry_for s a (virt / 4096)).
  rewrite Hf. cbn [default from_option]. destruct (entry_for_member handler_state v (lock_vas a) _ p Hok Hf) as (_ & _ & _ & _ & _ & _ & _ & Hnn).
  rewrite decide_False by done. step (get_entry_run handler_state p e He). rewrite Hl, F1, F2, F3, F4. cbn [negb].
  by rewrite !(M_bind_done _ _ handler_state tt handler_state) by done.
Qed.

Lemma BringIntoMemory_start (s1 : vm) a1 p e (b : bool) : space_ok s1 v a1 → entries s1 !! p = Some e →
  BringIntoMemory v p b virt fault_type s1 =
  (if cow e && b then c_assert (bool_decide (num_pages e = 1));; BringIntoMemoryFromCow p;; mret 0
   else if file e && negb (in_ram e) then BringIntoMemoryFromFile p virt;; mret 0
   else if swapfile e then c_assert (bool_decide (num_pages e = 1));; BringIntoMemoryFromSwapfile p;; mret 0
   else if negb (in_ram e) then BringInBlankPage v p virt fault_type;; mret 0 else mret EINVAL) s1.
Proof. intros H1 He. unfold BringIntoMemory. step (AssertVasLocked_run s1 v a1 H1). by step (get_entry_run s1 p e He). Qed.

Lemma refused_end (s1 : vm) : s1 = handler_state →
  (UnhandledFault UNHANDLED_FAULT_SEGV;; on_phys (modify (λ p, Physical.set_handling (Physical.handling_page_fault p - 1) p));; ReleaseVas v) s1
  = if in_process s then Done (tt, with_faults s (faults s ++ [UNHANDLED_FAULT_SEGV])) else Panicked PANIC_UNHANDLED_KERNEL_EXCEPTION.
Proof.
  intros ->. set (s2 := {| handler_state with faults := faults handler_state ++ [UNHANDLED_FAULT_SEGV] |}).
  assert (UnhandledFault UNHANDLED_FAULT_SEGV handler_state
    = if in_process s then Done (tt, s2) else Panicked PANIC_UNHANDLED_KERNEL_EXCEPTION) as E.
  { unfold UnhandledFault. rewrite (M_bind_done _ _ handler_state handler_state handler_state) by done.
    exact (if_apply (in_process s) (put s2) (panic _) handler_state). }
  destruct (in_process s); [|by rewrite (M_bind_panic _ _ _ _ E)]. step E.
  assert (space_ok s2 v (lock_vas a)) as H2 by (destruct handler_space as [[] _]; by split).
  rewrite (cleanup_run s2 _ H2). f_equal. f_equal.
  pose proof (handling_back (locked s v a)) as Hb. pose proof (unlocked_locked s v a Hr) as Hu.
  change (unlocked (handling (-1) s2) v (lock_vas a)) with
    (with_faults (unlocked (handling (-1) (handling 1 (locked s v a))) v (lock_vas a)) (faults s ++ [UNHANDLED_FAULT_SEGV])).
  by rewrite Hb, Hu.
Qed.
End handle.

(** C29: The accesses that are refused at once ([bad_access]): to a page that is not
    mapped; to an anonymous page not yet in memory, neither in the swapfile nor copy on
    write for a write, whose permissions do not allow the access; and any to a page that
    is in memory, a write to a copy-on-write page aside. The process is charged with the
    fault and nothing else changes, no memory and no mapping; without a process the
    kernel panics. The permissions are looked at nowhere else: writes to copy-on-write
    pages are copied, pages of files and of the swapfile are read in, whatever the
    permissions, and these faults are not of this theorem. *)
Theorem HandleVirtFault_refuses `{Allocator} s v a irql schedule virt fault_type :
  at_rest s v a → mmu_ok s v a → irql < 3 → 0 ≤ virt →
  match view s a (virt / 4096) with Some x => flags_ok x ∧ bad_access fault_type x = true | None => True end →
  HandleVirtFault irql schedule virt fault_type s =
    if in_process s then Done (tt, with_faults s (faults s ++ [UNHANDLED_FAULT_SEGV]))
    else Panicked PANIC_UNHANDLED_KERNEL_EXCEPTION.
Proof.
  intros Hr Hm Hi Hv Hx. rewrite view_entry in Hx. destruct (handler_space s v a Hr Hm) as [Hok Hm'].
  destruct (entry_for s a (virt / 4096)) as [p|] eqn:Hf; cbn in Hx.
  - destruct (entry_for_member _ v _ _ p Hok Hf) as (g & e & Hp & He & _). rewrite (entry_at_some (entries s) _ _ He) in Hx. destruct Hx as [Hfl Hbad].
    unfold bad_access in Hbad. cbn in Hbad. rewrite !andb_true_iff, !negb_true_iff in Hbad. destruct Hbad as [[[Hl Hc] Hs] Hb].
    rewrite (handler_entry s v a irql schedule virt fault_type Hr Hm Hi Hv p e Hf He Hl Hfl).
    assert (BringIntoMemory v p (has fault_type VM_WRITE) virt fault_type (handler_state s v a)
      = if in_ram e then Done (EINVAL, handler_state s v a)
        else (UnhandledFault UNHANDLED_FAULT_SEGV;; mret 0) (handler_state s v a)) as E.
    { rewrite (BringIntoMemory_start v virt fault_type (handler_state s v a) (lock_vas a) p e _ Hok He). rewrite Hc, Hs.
      destruct (in_ram e); [by rewrite andb_false_r|]. apply andb_true_iff in Hb as [Hfile%negb_true_iff Hperm%negb_true_iff].
      rewrite Hfile. cbn [negb andb]. unfold mbind, M_mbind at 1. erewrite BringInBlankPage_denied; [done|exact Hok|exact Hf| |exact Hperm].
      rewrite view_entry. change (entry_for (handler_state s v a) (lock_vas a) (virt / 4096)) with (entry_for s a (virt / 4096)).
      rewrite Hf. cbn. by rewrite (entry_at_some (entries s) _ _ He). }
    destruct (in_ram e).
    + step E. rewrite decide_True by done. by apply (refused_end s v a).
    + rewrite <- (refused_end s v a Hr Hm (handler_state s v a) eq_refl). unfold mbind, M_mbind in *. rewrite E.
      destruct (UnhandledFault UNHANDLED_FAULT_SEGV (handler_state s v a)) as [[[] s1]| | | |]; done.
  - unfold HandleVirtFault. rewrite decide_False by lia. unfold GetVas. rewrite (M_bind_done _ _ s (current_vas s) s) by done.
    rewrite (mm_current _ _ _ Hm). step (AcquireVas_run s v a Hr).
    rewrite (M_bind_done _ _ (locked s v a) tt (handler_state s v a)) by done. cbv zeta.
    step (GetVirtEntry_run (handler_state s v a) v (lock_vas a) virt Hok Hv).
    change (entry_for (handler_state s v a) (lock_vas a) (virt / 4096)) with (entry_for s a (virt / 4096)). rewrite Hf.
    cbn [default from_option]. rewrite decide_True by done. by apply (refused_end s v a).
Qed.

(** C25: The first access to an anonymous page takes one free frame, clears it
    and maps it with the permissions of the page; no other page, frame or
    mapping changes, and the lock is free again. *)
Theorem HandleVirtFault_demand_zero `{Allocator} s v a irql schedule virt fault_type x free :
  at_rest s v a → mmu_ok s v a → irql < 3 → 0 ≤ virt → frames_ok s free → free ≠ ∅ →
  view s a (virt / 4096) = Some x → flags_ok x → blank_access fault_type x = true →
  ∃ i s' a', HandleVirtFault irql schedule virt fault_type s = Done (tt, s') ∧ i ∈ free ∧
    at_rest s' v a' ∧ mmu_ok s' v a' ∧ frames_ok s' (free ∖ {[i]}) ∧
    (∀ pg, view s' a' pg = if decide (pg = virt / 4096) then Some (filled (i * 4096) x) else view s a pg) ∧
    ram s' = <[i * 4096 := ∅]> (ram s) ∧ faults s' = faults s.
Proof.
  intros Hr Hm Hi Hv Hfr Hne Hx Hfl Hb. destruct (handler_space s v a Hr Hm) as [Hok Hm']. pose proof Hx as Hx'. rewrite view_entry in Hx.
  destruct (entry_for s a (virt / 4096)) as [p|] eqn:Hf; [|done]. cbn in Hx.
  destruct (entry_for_member _ v _ _ p Hok Hf) as (g & e & Hp & He & _). rewrite (entry_at_some (entries s) _ _ He) in Hx. injection Hx as Hx.
  unfold blank_access in Hb. rewrite !andb_true_iff, !negb_true_iff in Hb. destruct Hb as [[[[[Hl Hc] Hs] Hin] Hfile] Hperm].
  pose proof Hx as Ex. assert (frames_ok (handler_state s v a) free) as Hfr'.
  { destruct Hfr as [F1 F2]. split; [|done]. by eapply Physical.inv_frame; [..|exact F1]. }
  destruct (BringInBlankPage_run (handler_state s v a) v (lock_vas a) virt fault_type x p Hok Hm' Hf Hx' free Hfr' Hne Hperm Hin Hs)
    as (i & s1 & a1 & E & Hif & H1 & Hfr1 & V1 & R1 & F1 & _).
  exists i, (unlocked (handling (-1) s1) v a1), (unlock_vas a1).
  rewrite (handler_entry s v a irql schedule virt fault_type Hr Hm Hi Hv p e Hf He); [|by rewrite <- Ex in Hl|by rewrite <- Ex in Hfl].
  split; [|split; [done|]].
  - assert (BringIntoMemory v p (has fault_type VM_WRITE) virt fault_type (handler_state s v a) = Done (0, s1)) as E1.
    { rewrite (BringIntoMemory_start v virt fault_type (handler_state s v a) (lock_vas a) p e _ Hok He).
      rewrite <- Ex in Hc, Hfile, Hs, Hin. cbn in Hc, Hfile, Hs, Hin. rewrite Hc, Hfile, Hs, Hin. cbn [andb negb]. by step E. }
    step E1. rewrite decide_False by lia. rewrite (M_bind_done _ _ s1 tt s1) by done. apply cleanup_run, H1.
  - assert (space_ok (handling (-1) s1) v a1) as H2 by (by apply space_ok_pm, H1).
    split; [by apply release_rest|]. split; [by apply mmu_unlocked, mmu_ok_pm, H1|]. split; [|done].
    destruct Hfr1 as [G1 G2]. split; [|done]. by eapply Physical.inv_frame; [..|exact G1].
Qed.

(** ** Copy on write *)
Section copy.
Context `{Allocator}.
Context (s : vm) (v : Z) (a : vas) (irql : Z) (schedule : V unit) (virt fault_type p : Z) (e : vas_entry).
Context (Hr : at_rest s v a) (Hm : mmu_ok s v a) (Hirql : irql < 3) (Hv : 0 ≤ virt).
Context (Hf : entry_for s a (virt / 4096) = Some p) (He : entries s !! p = Some e) (Hone : num_pages e = 1).
Context (Hfl : flags_ok e) (Hl : load_in_progress e = false) (Hc : cow e = true) (Hw : has fault_type VM_WRITE = true).

Lemma handler_held : held (handler_state s v a) v (lock_vas a) (virt / 4096) p e.
Proof. destruct (handler_space s v a Hr Hm). by split. Qed.

Lemma handler_copies s1 a1 : BringIntoMemoryFromCow p (handler_state s v a) = Done (tt, s1) → space_ok s1 v a1 →
  HandleVirtFault irql schedule virt fault_type s = Done (tt, unlocked (handling (-1) s1) v a1).
Proof.
  intros E H1. destruct (handler_space s v a Hr Hm) as [Hok _].
  rewrite (handler_entry s v a irql schedule virt fault_type Hr Hm Hirql Hv p e Hf He Hl Hfl).
  assert (BringIntoMemory v p (has fault_type VM_WRITE) virt fault_type (handler_state s v a) = Done (0, s1)) as E1.
  { rewrite (BringIntoMemory_start v virt fault_type (handler_state s v a) (lock_vas a) p e _ Hok He), Hc, Hw.
    cbn [andb]. rewrite bool_decide_true by done. rewrite (M_bind_done _ _ (handler_state s v a) tt (handler_state s v a)) by done. by step E. }
  step E1. rewrite decide_False by lia. rewrite (M_bind_done _ _ s1 tt s1) by done. by apply cleanup_run.
Qed.
End copy.

(** C26: A write to a page shared after a fork that has an entry of its own (one page),
    is in memory in a frame from the allocator, and is writable, gives the writer a
    private, writable copy with the contents of the page, in a frame that was free; the
    shared frame keeps its contents and its entry stays with the others, who
    lose one sharer. The last sharer takes the page over without a copy. These
    conditions are needed: in [virtual_memory_defects] the write to a shared page that
    is blank or read-only faults inside the handler, and that to a shared mapping of
    three pages stops at an assertion. *)
Theorem HandleVirtFault_copies_on_write `{Allocator} s v a irql schedule virt fault_type p e free :
  at_rest s v a → mmu_ok s v a → irql < 3 → 0 ≤ virt → frames_ok s free → free ≠ ∅ →
  entry_for s a (virt / 4096) = Some p → entries s !! p = Some e → num_pages e = 1 → flags_ok e →
  load_in_progress e = false → cow e = true → in_ram e = true → allocated e = true → write e = true →
  has fault_type VM_WRITE = true → physical e / 4096 ∉ free →
  ∃ x s' a', HandleVirtFault irql schedule virt fault_type s = Done (tt, s') ∧ at_rest s' v a' ∧ mmu_ok s' v a' ∧
    (∀ pg, view s' a' pg = if decide (pg = virt / 4096) then Some x else view s a pg) ∧
    cow x = false ∧ write x = true ∧ faults s' = faults s ∧
    default ∅ (ram s' !! physical x) = default ∅ (ram s !! physical e) ∧
    (∀ f, f ≠ physical x → ram s' !! f = ram s !! f) ∧
    if decide (ref_count e = 1) then physical x = physical e
    else ∃ i q, i ∈ free ∧ frames_ok s' (free ∖ {[i]}) ∧ x = private_copy (i * 4096) e ∧ physical x ≠ physical e ∧
      entries s' = <[q := x]> (<[p := after_copy e]> (entries s)) ∧ entries s !! q = None ∧
      ∀ w, w ≠ v → vases s' !! w = vases s !! w.
Proof.
  intros Hr Hm Hi Hv Hfr Hne Hf He Hone Hfl Hl Hc Hin Hal Hw Hwr Hout.
  pose proof (handler_held s v a virt p e Hr Hm Hf He Hone) as Hh.
  destruct (decide (ref_count e = 1)) as [Hn|Hn].
  - destruct (FromCow_last _ _ _ _ _ _ Hh Hn) as (s1 & E & H1 & F1 & V1).
    exists {| e with cow := false |}, (unlocked (handling (-1) s1) v (lock_vas a)), (unlock_vas (lock_vas a)).
    split; [eapply (handler_copies s v a); eauto; apply H1|].
    split; [apply release_rest, space_ok_pm, H1|]. split; [apply mmu_unlocked, mmu_ok_pm, H1|]. split; [done|].
    split_and!; try done; cbn [faults ram unlocked put_vas handling with_pm]; by rewrite F1.
  - assert (frames_ok (handler_state s v a) free) as Hfr'.
    { destruct Hfr as [F1 F2]. split; [|done]. by eapply Physical.inv_frame; [..|exact F1]. }
    destruct (FromCow_run _ _ _ _ _ _ Hh free Hn Hin Hal Hw Hfr' Hne) as (i & q & s1 & a1 & E & Hif & Hq & H1 & Hfr1 & V1 & R1 & En1 & Vs1 & F1).
    exists (private_copy (i * 4096) e), (unlocked (handling (-1) s1) v a1), (unlock_vas a1).
    split; [eapply (handler_copies s v a); eauto; apply H1|].
    split; [apply release_rest, space_ok_pm, H1|]. split; [apply mmu_unlocked, mmu_ok_pm, H1|]. split; [done|].
    split; [done|]. split; [done|]. split; [done|]. cbn [ram unlocked put_vas handling with_pm physical private_copy]. rewrite R1.
    split; [by rewrite lookup_insert_eq|]. split; [intros f Hf'; by rewrite lookup_insert_ne|].
    exists i, q. split; [done|]. split; [|split; [done|split; [|split; [done|split; [done|]]]]].
    + destruct Hfr1 as [G1 G2]. split; [|done]. by eapply Physical.inv_frame; [..|exact G1].
    + intros E'. apply Hout. rewrite <- E'. by rewrite Z.div_mul.
    + intros w Hw'. cbn. rewrite lookup_insert_ne by done. rewrite Vs1 by done. cbn. by rewrite lookup_insert_ne.
Qed.

(** ** Mapping and unmapping *)
Lemma unmappable_lock s v a free lo hi : unmappable s a free lo hi → unmappable (locked s v a) (lock_vas a) free lo hi.
Proof. by intros [A1 A2 A3]; split. Qed.

Lemma UnmapVirt_run `{Allocator} s v a virt bytes (m : nat) free :
  at_rest s v a → mmu_ok s v a → frames_ok s free → 0 ≤ virt → virt + Physical.BytesToPages bytes * 4096 ≤ 2 ^ 32 →
  unmappable s a free (virt / 4096) (virt / 4096 + m) →
  m = Z.to_nat (Physical.BytesToPages bytes) ∨ m < Physical.BytesToPages bytes ∧ view s a (virt / 4096 + m) = None →
  ∃ s' a' free', UnmapVirt virt bytes s = Done (if decide (m = Z.to_nat (Physical.BytesToPages bytes)) then 0 else EINVAL, unlocked s' v a') ∧
    range_unmapped (locked s v a) v (lock_vas a) free (virt / 4096) (virt / 4096 + m) s' a' free'.
Proof.
  intros Hr Hm Hfr Hv Hhi Hu Hend. set (n := Physical.BytesToPages bytes) in *.
  assert (0 ≤ n) as Hn by (unfold n, Physical.BytesToPages, u32, Physical.ARCH_PAGE_SIZE; lia).
  destruct (UnmapVirtEx_loop_run v virt 0 m (Z.to_nat n) (locked s v a) (lock_vas a) free 0 false) as (s' & a' & free' & E & R).
  - apply Hr.
  - by apply mmu_locked.
  - done.
  - done.
  - done.
  - done.
  - lia.
  - rewrite Z.add_0_r. by apply unmappable_lock.
  - intros; lia.
  - rewrite Z.add_0_r. destruct Hend as [->|[? ?]]; [by left|right]. split; [lia|done].
  - rewrite Z.add_0_r in R. exists s', a', free'. split; [|done]. unfold UnmapVirt, GetVas.
    rewrite (M_bind_done _ _ s (current_vas s) s), (mm_current _ _ _ Hm) by done. apply (with_lock s v a _ _ _ _ Hr E (ru_ok _ _ _ _ _ _ _ _ _ R)).
Qed.

(** C27: On pages with one owner (not shared by a fork), that are not in the swapfile,
    need no writing back to a file, and have frames of their own, UnmapVirt removes
    exactly the pages of the range up to the first that is
    not mapped, where it stops with an error: they can no longer be accessed,
    the frames they owned are free again, and no other page, table entry,
    address space or byte of memory changes. Of a page that is shared or in the swapfile
    this is not so: [virtual_memory_defects] has one that stays mapped and one whose
    slot stays taken. *)
Theorem UnmapVirt_correct `{Allocator} s v a virt bytes (m : nat) free :
  at_rest s v a → mmu_ok s v a → frames_ok s free → 0 ≤ virt → virt + Physical.BytesToPages bytes * 4096 ≤ 2 ^ 32 →
  unmappable s a free (virt / 4096) (virt / 4096 + m) →
  m = Z.to_nat (Physical.BytesToPages bytes) ∨ m < Physical.BytesToPages bytes ∧ view s a (virt / 4096 + m) = None →
  ∃ s' a' free', UnmapVirt virt bytes s = Done (if decide (m = Z.to_nat (Physical.BytesToPages bytes)) then 0 else EINVAL, s') ∧
    at_rest s' v a' ∧ mmu_ok s' v a' ∧ frames_ok s' free' ∧
    (∀ pg, view s' a' pg = if decide (virt / 4096 ≤ pg < virt / 4096 + m) then None else view s a pg) ∧
    (∀ pg, virt / 4096 ≤ pg < virt / 4096 + m → ∃ w, pte_at s' v pg = Some w ∧ has w x86_PAGE_PRESENT = false) ∧
    (∀ pg, ¬ virt / 4096 ≤ pg < virt / 4096 + m → pte_at s' v pg = pte_at s v pg) ∧
    (∀ i, i ∈ free' ↔ i ∈ free ∨ ∃ pg x, virt / 4096 ≤ pg < virt / 4096 + m ∧ view s a pg = Some x ∧ allocated x = true ∧ i = physical x / 4096) ∧
    ram s' = ram s ∧ faults s' = faults s ∧ ∀ w, w ≠ v → vases s' !! w = vases s !! w.
Proof.
  intros Hr Hm Hfr Hv Hhi Hu Hend. destruct (UnmapVirt_run s v a virt bytes m free Hr Hm Hfr Hv Hhi Hu Hend) as (s' & a' & free' & E & R).
  exists (unlocked s' v a'), (unlock_vas a'), free'. split; [done|]. destruct R as [R1 R2 R3 R4 R5 R6 R7 R8 R9 R10 R11 R12].
  split; [by apply release_rest|]. split; [by apply mmu_unlocked|]. split; [done|]. split.
  { intros pg. change (view s' a' pg = if decide (virt / 4096 ≤ pg < virt / 4096 + m) then None else view s a pg).
    rewrite !view_views, !R5. destruct (decide (virt / 4096 ≤ pg < virt / 4096 + m)); reflexivity. }
  split; [done|]. split; [done|]. split; [done|]. split; [done|]. split; [done|].
  intros w Hw. cbn. rewrite lookup_insert_ne by done. rewrite R12 by done. cbn. by rewrite lookup_insert_ne.
Qed.

(** The allocator of addresses is a pointer that only moves up and looks at nothing. What
    it relies on: nothing is mapped from the pointer on, up to page [hi]. *)
Record bump_ok (s : vm) (a : vas) (flags hi : Z) : Prop := {
  bp_aligned : next_virt s flags `mod` 4096 = 0;
  bp_range : 0 ≤ next_virt s flags ∧ hi < 2 ^ 20;
  bp_unused : unused s a (next_virt s flags / 4096) hi;
}.

(** The place is free: asked for and not taken, or past the pointer. *)
Lemma bump_place s v a virt pages flags hi :
  0 ≤ virt → virt `mod` 4096 = 0 → virt + pages * 4096 ≤ 2 ^ 32 → 1 ≤ pages < 2 ^ 20 →
  bump_ok s a flags hi → (moved s a virt pages = true → next_virt s flags / 4096 + pages ≤ hi) →
  tables_present s v (chosen s a virt pages flags / 4096) (chosen s a virt pages flags / 4096 + pages) →
  place_ok s v a pages (chosen s a virt pages flags).
Proof.
  intros Hv Hal Hhi Hn [B1 B2 B3] Hroom Ht. unfold place_ok, chosen in *. destruct (moved s a virt pages) eqn:Hmv.
  - specialize (Hroom eq_refl). split_and!; [done|lia|lia| |done]. intros g pg Hpg. apply B3. lia.
  - split_and!; [done|lia|lia| |done]. unfold moved in Hmv. apply orb_false_iff in Hmv as [_ Hmv]. by apply range_used_false.
Qed.

(** C24: MapVirtEx for pages that are brought in later (no physical address, and none of
    VM_LOCK, VM_MAP_HARDWARE, VM_RELOCATABLE and VM_RECURSIVE). With valid arguments it
    maps exactly the pages asked for, where asked, or where the allocator of addresses
    stands when that is taken or none is asked for, with their attributes and offsets;
    no other page changes. A fixed place that is taken, and invalid arguments, are
    refused with nothing changed. The allocator is a pointer that never looks at the
    mappings: the theorem has its invariant, that nothing is mapped from the pointer up
    to a page [hi], as a hypothesis, with room for the pages below [hi], and shows that
    the call keeps it, unless the caller himself asked for a place up there. Page tables
    for the place exist. *)
Theorem MapVirtEx_correct `{Allocator} s v a virt pages flags f pos err hi :
  at_rest s v a → mmu_ok s v a → lazy_flags flags f → is_u32 pos → 1 ≤ pages < 2 ^ 20 → file_known flags f s →
  virt `mod` 4096 = 0 → 0 ≤ virt → virt + pages * 4096 ≤ 2 ^ 32 →
  check_flags 0 flags f pos s = Done (err, s) →
  if decide (err ≠ 0) then MapVirtEx v 0 virt pages flags f pos s = Done ((0, err), s) else
  if negb (bool_decide (virt = 0)) && taken s a virt pages && has flags VM_FIXED_VIRT
  then MapVirtEx v 0 virt pages flags f pos s = Done ((0, EEXIST), s)
  else let at_ := chosen s a virt pages flags in let moved := moved s a virt pages in
    bump_ok s a flags hi → (moved = true → next_virt s flags / 4096 + pages ≤ hi) →
    tables_present s v (at_ / 4096) (at_ / 4096 + pages) →
    ∃ s' a', MapVirtEx v 0 virt pages flags f pos s = Done ((at_, 0), s') ∧ at_rest s' v a' ∧ mmu_ok s' v a' ∧
      (∀ pg, view s' a' pg = if decide (at_ / 4096 ≤ pg < at_ / 4096 + pages)
        then Some (mapped_page flags f pos (at_ / 4096) pages pg) else view s a pg) ∧
      ram s' = ram s ∧ pm s' = pm s ∧ (∀ w, w ≠ v → vases s' !! w = vases s !! w) ∧
      next_virt s' flags = next_virt s flags + (if moved then pages * 4096 else 0) ∧
      (moved = true ∨ virt / 4096 + pages ≤ next_virt s flags / 4096 ∨ hi ≤ virt / 4096 → bump_ok s' a' flags hi).
Proof.
  intros Hr Hm Hfl Hpos Hn Hf Hal Hv Hhi Hchk. case_decide as Herr.
  { unfold MapVirtEx. step Hchk. by rewrite decide_True by done. }
  assert (err = 0) as -> by lia.
  pose proof (MapVirtEx_run s v a virt pages flags f pos Hr Hm Hfl Hpos Hn Hf Hchk Hal Hv Hhi) as Run.
  destruct (negb _ && _ && _); [done|]. cbv zeta. intros Hb Hroom Ht.
  pose proof (bump_place s v a virt pages flags hi Hv Hal Hhi Hn Hb Hroom Ht) as Hp.
  destruct (Run Hp) as (s' & a' & E & L). exists s', a'. set (at_ := chosen s a virt pages flags) in *.
  split; [done|]. destruct Hp as (P1 & P2 & P3 & P4 & P5). pose proof (placed_views s v a virt pages flags _ _ _ _ _ L) as L3. destruct L as [L1 L2 _ L4 L5 L6 L7 L8 L9].
  destruct (placed_same s a virt pages flags) as (Q1 & Q2 & Q3 & Q4). rewrite Q2 in L5. rewrite Q3 in L6. rewrite Q4 in L7.
  assert (next_virt s' flags = next_virt s flags + (if moved s a virt pages then pages * 4096 else 0)) as Hnext.
  { transitivity (next_virt (placed s a virt pages flags) flags); [unfold next_virt; destruct L9 as [-> ->]; done|].
    rewrite placed_next. destruct (moved s a virt pages); [|lia]. destruct Hb. apply u32_small. unfold is_u32. specialize (Hroom eq_refl). lia. }
  split_and!; try done.
  2: { intros Hout. destruct Hb as [B1 B2 B3]. split; [rewrite Hnext; destruct (moved _ _ _ _); lia|rewrite Hnext; destruct (moved _ _ _ _); lia|].
       intros g pg Hpg. rewrite Hnext in Hpg. rewrite L3. rewrite decide_False; [apply B3; destruct (moved _ _ _ _); lia|].
       intros [_ Hin]. unfold at_, chosen in Hin. destruct (moved _ _ _ _); [lia|]. destruct Hout as [|Hout]; [done|]. lia. }
  intros pg. rewrite !view_views, !L3. destruct (decide (at_ / 4096 ≤ pg < at_ / 4096 + pages)) as [Hd|Hd].
  - destruct (has flags VM_LOCAL); cbn [negb].
    + by rewrite decide_True.
    + rewrite decide_False by (intros [? _]; done). rewrite (P4 false pg Hd). by rewrite decide_True.
  - by rewrite !decide_False by tauto.
Qed.

(** Unmapping what MapVirtEx has just mapped leaves the address space as it
    was, page by page, with the same frames free and the same memory. *)
Theorem map_unmap_roundtrip `{Allocator} s v a virt pages flags f pos free :
  at_rest s v a → mmu_ok s v a → frames_ok s free → lazy_flags flags f → is_u32 pos → 1 ≤ pages < 2 ^ 20 → file_known flags f s →
  virt `mod` 4096 = 0 → 0 ≤ virt → virt + pages * 4096 ≤ 2 ^ 32 → check_flags 0 flags f pos s = Done (0, s) →
  negb (bool_decide (virt = 0)) && taken s a virt pages && has flags VM_FIXED_VIRT = false →
  place_ok s v a pages (chosen s a virt pages flags) →
  ∃ s1 s2 a2 free2, MapVirtEx v 0 virt pages flags f pos s = Done ((chosen s a virt pages flags, 0), s1) ∧
    UnmapVirt (chosen s a virt pages flags) (pages * 4096) s1 = Done (0, s2) ∧ at_rest s2 v a2 ∧ mmu_ok s2 v a2 ∧
    (∀ g pg, view_of s2 a2 g pg = view_of s a g pg) ∧ frames_ok s2 free2 ∧ (∀ i, i ∈ free2 ↔ i ∈ free) ∧ ram s2 = ram s.
Proof.
  intros Hr Hm Hfr Hfl Hpos Hn Hf Hal Hv Hhi Hchk Hno Hp.
  pose proof (MapVirtEx_run s v a virt pages flags f pos Hr Hm Hfl Hpos Hn Hf Hchk Hal Hv Hhi) as Run. rewrite Hno in Run.
  destruct (Run Hp) as (s1 & a1 & E & L). set (at_ := chosen s a virt pages flags) in *. destruct Hp as (P1 & P2 & P3 & P4 & P5).
  destruct (placed_same s a virt pages flags) as (Q1 & Q2 & Q3 & Q4).
  pose proof (placed_views s v a virt pages flags _ _ _ _ _ L) as L3.
  set (lo := at_ / 4096) in *.
  assert (Physical.BytesToPages (pages * 4096) = pages) as Hb.
  { unfold Physical.BytesToPages, Physical.ARCH_PAGE_SIZE. rewrite u32_small by (unfold is_u32; lia). lia. }
  assert (∀ pg x, lo ≤ pg < lo + pages → view s1 a1 pg = Some x → x = mapped_page flags f pos lo pages pg) as Vm.
  { intros pg x Hpg. rewrite !view_views, !L3. destruct (has flags VM_LOCAL); cbn [negb].
    - rewrite decide_True by done. by intros [= <-].
    - rewrite decide_False by (intros [? _]; done). rewrite (P4 false pg Hpg), decide_True by done. by intros [= <-]. }
  assert (∀ pg, plain (mapped_page flags f pos lo pages pg) ∧ allocated (mapped_page flags f pos lo pages pg) = false) as Hpl.
  { intros pg. unfold plain, mapped_page. destruct (bool_decide (3 ≤ pages)); split_and!; try done; apply andb_false_r. }
  assert (unmappable s1 a1 free lo (lo + Z.to_nat pages)) as Hu.
  { rewrite Z2Nat.id by lia. split.
    - intros pg Hpg. exists (mapped_page flags f pos lo pages pg). destruct (Hpl pg) as [H1 H2]. split; [|split; [done|intros ?; congruence]].
      rewrite view_views, !L3. destruct (has flags VM_LOCAL); cbn [negb].
      + by rewrite decide_True.
      + rewrite decide_False by (intros [? _]; done). by rewrite (P4 false pg Hpg), decide_True.
    - intros pg Hpg. rewrite !L3. destruct (has flags VM_LOCAL); cbn [negb];
        [right|left]; rewrite decide_False by (intros [? _]; done); by apply P4.
    - intros pg pg' x y Hpg Hpg' Hx Hy Hax. pose proof (Vm pg x Hpg Hx) as ->. by rewrite (proj2 (Hpl pg)) in Hax. }
  destruct (UnmapVirt_run s1 v a1 at_ (pages * 4096) (Z.to_nat pages) free) as (s2 & a2 & free2 & E2 & R);
    [apply L|apply L|unfold frames_ok; by rewrite (lm_pm _ _ _ _ _ _ _ _ _ L), Q3|lia|lia|done|left; by rewrite Hb|].
  rewrite Hb, decide_True in E2 by done. destruct R as [R1 R2 R3 R4 R5 R6 R7 R8 R9 R10 R11 R12]. rewrite Z2Nat.id in * by lia. fold lo in R5, R8.
  exists s1, (unlocked s2 v a2), (unlock_vas a2), free2. split; [done|]. split; [done|].
  split; [by apply release_rest|]. split; [by apply mmu_unlocked|]. split; [|split; [done|split]].
  - intros g pg. change (view_of s2 a2 g pg = view_of s a g pg). rewrite R5. destruct (decide (lo ≤ pg < lo + pages)) as [Hd|Hd]; [symmetry; by apply P4|].
    change (view_of s1 a1 g pg = view_of s a g pg). rewrite L3.
    by rewrite decide_False by (intros [_ ?]; lia).
  - intros i. rewrite R8. split; [|tauto]. intros [Hi|(pg & x & Hpg & Hx & Hax & _)]; [done|].
    pose proof (Vm pg x ltac:(lia) Hx) as ->. by rewrite (proj2 (Hpl pg)) in Hax.
  - change (ram s2 = ram s). rewrite R9. rewrite <- Q2. apply L.
Qed.

(** ** Concrete address spaces *)
Section samples.
Existing Instance bump_allocator.
Definition sample_flags : Z := Z.lor (Z.lor (Z.lor VM_READ VM_WRITE) VM_USER) VM_LOCAL.
Definition one_vas : vas := Vas (TNode Null 7 Null) 1 false.
(** One local entry at 0x20000000, and one page table. *)
Definition one_vm (e : vas_entry) (t : gmap (Z * Z) Z) (proc : bool) : vm :=
  VM {[7 := e]} {[1 := one_vas]} Null 0 false 1 1 true 0x20004000 0xC4000000
    Physical.sample Swapfile.swap_boot ∅ {[(1, 128) := 0x100000]} t 1 ∅ [] proc [] 0 (replicate 32 NULL) 0.

Lemma one_rest e t b : entry_ok e → global e = false → at_rest (one_vm e t b) 1 one_vas.
Proof.
  intros He Hg. split; [done|done|]. split; try done.
  - split; [by repeat split|done| |repeat constructor].
    intros p Hp. apply list_elem_of_singleton in Hp as ->. by exists e.
  - split; [done|done| |constructor]. intros p Hp. by apply elem_of_nil in Hp.
  - intros [] p Hp; [by apply elem_of_nil in Hp|]. apply list_elem_of_singleton in Hp as ->. exact Hg.
Qed.
Lemma one_view e t b pg : view (one_vm e t b) one_vas pg = if decide (covers e pg) then Some (norm e pg) else None.
Proof.
  assert (entry_at (entries (one_vm e t b)) 7 = e) as He by done.
  unfold view, view_in, page_entry. change (locals one_vas) with [7]. change (globals (one_vm e t b)) with (@nil Z).
  change (filter (λ p, covers (entry_at (entries (one_vm e t b)) p) pg) [7]) with (if decide (covers e pg) then [7] else []).
  by case_decide.
Qed.
Lemma one_mmu e t b : virtual e = 0x20000000 → num_pages e ≤ 4 →
  (∀ pg, covers e pg → agrees (default 0 (t !! (0x100000, pg `mod` 1024))) (norm e pg)) → mmu_ok (one_vm e t b) 1 one_vas.
Proof.
  intros Hv Hn Hag. split; [done|done| |].
  - intros x y f H1 H2. cbn in H1, H2. apply lookup_singleton_Some in H1 as [[= <-] _]. by apply lookup_singleton_Some in H2 as [[= <-] _].
  - intros pg x. rewrite one_view. case_decide as Hc; [|done]. intros [= <-]. exists (default 0 (t !! (0x100000, pg `mod` 1024))). split; [|by apply Hag].
    unfold pte_at. cbn. unfold covers, vend in Hc. replace (pg / 1024) with 128 by lia. by rewrite lookup_singleton_eq.
Qed.

(** Four pages, not yet in memory. *)
Definition lazy4 : vas_entry := lazy_entry 0x20000000 sample_flags NULL 0 4.
Lemma lazy4_ok : entry_ok lazy4.
Proof. split; vm_compute; try done; auto. Qed.
Lemma lazy4_rest b : at_rest (one_vm lazy4 ∅ b) 1 one_vas.
Proof. apply one_rest; [apply lazy4_ok|done]. Qed.
Lemma lazy4_mmu b : mmu_ok (one_vm lazy4 ∅ b) 1 one_vas.
Proof. by apply one_mmu. Qed.
Lemma sample_frames e t b : frames_ok (one_vm e t b) Physical.sample_free.
Proof. split; [apply Physical.sample_inv|done]. Qed.
Lemma sample_frames_left : Physical.sample_free ≠ ∅.
Proof. intros E. apply (f_equal (λ X : gset Z, bool_decide (1 ∈ X))) in E. vm_compute in E. done. Qed.

(** A page shared by two sharers after a fork, in the last frame of [mem]. *)
Definition shared : vas_entry :=
  let x := filled (100 * 4096) (lazy_entry 0x20000000 sample_flags NULL 0 1) in {| x with cow := true; ref_count := 2 |}.
Definition shared_table : gmap (Z * Z) Z := {[(0x100000, 0) := Z.lor (physical shared) (pte_flags shared)]}.
Lemma shared_ok : entry_ok shared.
Proof. split; unfold vend; cbn; try done; try lia; auto. Qed.
Lemma shared_frame : physical shared / 4096 ∉ Physical.sample_free.
Proof. unfold Physical.sample_free, Physical.sample_pages. rewrite elem_of_list_to_set, elem_of_seqZ. cbn. lia. Qed.
Lemma shared_rest b : at_rest (one_vm shared shared_table b) 1 one_vas.
Proof. apply one_rest; [apply shared_ok|done]. Qed.
Lemma shared_mmu b : mmu_ok (one_vm shared shared_table b) 1 one_vas.
Proof.
  apply one_mmu; [done..|]. intros pg Hc. assert (pg = 131072) as -> by (unfold covers, vend in Hc; cbn in Hc; lia).
  change (agrees (Z.lor (physical shared) (pte_flags shared)) shared). by apply fresh_agrees.
Qed.

Lemma split_preserves_pages_witness :
  let s := locked (one_vm lazy4 ∅ true) 1 one_vas in
  ∃ s' a', SplitLargePageEntryIntoMultiple 1 0x20001000 7 1 s = Done (1, s') ∧
    space_ok s' 1 a' ∧ (∀ pg, view s' a' pg = view s (lock_vas one_vas) pg) ∧ ptab s' = ptab s ∧
    entry_for s' a' (0x20001000 / 4096) = Some 7 ∧ entries s' !! 7 = Some (norm lazy4 131073) ∧ num_pages (norm lazy4 131073) = 1.
Proof.
  intros s. apply (split_preserves_pages s 1 (lock_vas one_vas) 0x20001000 7).
  - apply (lazy4_rest true).
  - apply mmu_locked, lazy4_mmu.
  - vm_compute. done.
  - vm_compute. done.
Defined.

Lemma SetVirtPermissions_correct_witness :
  let s := one_vm lazy4 ∅ true in
  ∃ s' a', SetVirtPermissions 0x20001234 VM_EXEC VM_WRITE s = Done (0, s') ∧ at_rest s' 1 a' ∧ mmu_ok s' 1 a' ∧
    ram s' = ram s ∧ pm s' = pm s ∧
    ∀ pg, view s' a' pg = if decide (pg = 0x20001234 / 4096)
      then Some (with_permissions VM_EXEC VM_WRITE (norm lazy4 131073)) else view s one_vas pg.
Proof.
  intros s. pose proof (SetVirtPermissions_correct s 1 one_vas 0x20001234 VM_EXEC VM_WRITE (lazy4_rest true) (lazy4_mmu true)) as T.
  assert (0 ≤ 0x20001234 < 2 ^ 32) as Hv by lia. specialize (T Hv). rewrite decide_True in T by done.
  assert (view s one_vas (0x20001234 / 4096) = Some (norm lazy4 131073)) as Hx by (by vm_compute). rewrite Hx in T.
  apply T. intros x [= <-]. done.
Defined.

Lemma HandleVirtFault_refuses_witness :
  HandleVirtFault 0 (mret tt) 0x20001000 VM_EXEC (one_vm lazy4 ∅ true) = Done (tt, with_faults (one_vm lazy4 ∅ true) [UNHANDLED_FAULT_SEGV]) ∧
  HandleVirtFault 0 (mret tt) 0 VM_READ (one_vm lazy4 ∅ false) = Panicked PANIC_UNHANDLED_KERNEL_EXCEPTION.
Proof.
  split.
  - apply (HandleVirtFault_refuses _ 1 one_vas 0 (mret tt) 0x20001000 VM_EXEC (lazy4_rest true) (lazy4_mmu true)); [lia|lia|].
    by vm_compute.
  - apply (HandleVirtFault_refuses _ 1 one_vas 0 (mret tt) 0 VM_READ (lazy4_rest false) (lazy4_mmu false)); [lia|lia|].
    by vm_compute.
Defined.

Lemma HandleVirtFault_demand_zero_witness :
  let s := one_vm lazy4 ∅ true in
  ∃ i s' a', HandleVirtFault 0 (mret tt) 0x20001000 VM_WRITE s = Done (tt, s') ∧ i ∈ Physical.sample_free ∧
    at_rest s' 1 a' ∧ mmu_ok s' 1 a' ∧ frames_ok s' (Physical.sample_free ∖ {[i]}) ∧
    (∀ pg, view s' a' pg = if decide (pg = 0x20001000 / 4096) then Some (filled (i * 4096) (norm lazy4 131073)) else view s one_vas pg) ∧
    ram s' = <[i * 4096 := ∅]> (ram s) ∧ faults s' = faults s.
Proof.
  intros s. apply (HandleVirtFault_demand_zero s 1 one_vas 0 (mret tt) 0x20001000 VM_WRITE (norm lazy4 131073) Physical.sample_free
    (lazy4_rest true) (lazy4_mmu true)); [lia|lia|apply sample_frames|apply sample_frames_left| | |]; by vm_compute.
Defined.

Lemma HandleVirtFault_copies_on_write_witness :
  let s := one_vm shared shared_table true in
  ∃ x s' a', HandleVirtFault 0 (mret tt) 0x20000008 VM_WRITE s = Done (tt, s') ∧ at_rest s' 1 a' ∧ mmu_ok s' 1 a' ∧
    (∀ pg, view s' a' pg = if decide (pg = 0x20000008 / 4096) then Some x else view s one_vas pg) ∧
    cow x = false ∧ write x = true ∧ faults s' = faults s ∧
    default ∅ (ram s' !! physical x) = default ∅ (ram s !! physical shared) ∧
    (∀ f, f ≠ physical x → ram s' !! f = ram s !! f) ∧
    if decide (ref_count shared = 1) then physical x = physical shared
    else ∃ i q, i ∈ Physical.sample_free ∧ frames_ok s' (Physical.sample_free ∖ {[i]}) ∧ x = private_copy (i * 4096) shared ∧
      physical x ≠ physical shared ∧ entries s' = <[q := x]> (<[7 := after_copy shared]> (entries s)) ∧ entries s !! q = None ∧
      ∀ w, w ≠ 1 → vases s' !! w = vases s !! w.
Proof.
  intros s. apply (HandleVirtFault_copies_on_write s 1 one_vas 0 (mret tt) 0x20000008 VM_WRITE 7 shared Physical.sample_free
    (shared_rest true) (shared_mmu true)); [lia|lia|apply sample_frames|apply sample_frames_left|by vm_compute..|apply shared_frame].
Defined.

(** A frame in use, for a page in memory. *)
Definition used_pm : Physical.phys := match Physical.AllocPhys Physical.sample with Done (_, q) => q | _ => Physical.sample end.
Lemma used_frames : Physical.phys_inv used_pm (Physical.sample_free ∖ {[40]}) ∧ Physical.phys_lock used_pm = false.
Proof.
  destruct (Physical.AllocPhys_run Physical.sample Physical.sample_free (size Physical.sample_free) Physical.sample_inv eq_refl sample_frames_left)
    as (i & q & E & Hi & Hq & Hl & _); [by vm_compute|].
  assert (Physical.AllocPhys Physical.sample = Done (40 * 4096, used_pm)) as E' by (by vm_compute).
  assert (i = 40 ∧ q = used_pm) as [-> ->].
  { rewrite E in E'. revert E'. generalize used_pm. intros q' [= Hp Hpq]. split; [|done]. clear -Hp. unfold Physical.ARCH_PAGE_SIZE in Hp. lia. }
  split; [|done]. by rewrite Physical.size_remove.
Qed.
Lemma at_rest_pm s v a q : at_rest s v a → at_rest (with_pm s q) v a.
Proof. intros [A1 A2 [O1 O2 O3 O4 O5 O6 O7]]. split; try done; by split. Qed.

Definition owned : vas_entry := filled (40 * 4096) (lazy_entry 0x20000000 sample_flags NULL 0 1).
Definition owned_table : gmap (Z * Z) Z := {[(0x100000, 0) := Z.lor (physical owned) (pte_flags owned)]}.
Definition owned_vm : vm := with_pm (one_vm owned owned_table true) used_pm.
Lemma owned_ok : entry_ok owned.
Proof. split; unfold vend; cbn; try done; try lia; auto. Qed.
Lemma owned_unmappable : unmappable owned_vm one_vas (Physical.sample_free ∖ {[40]}) 131072 (131072 + 1%nat).
Proof.
  assert (∀ pg, 131072 ≤ pg < 131072 + 1%nat → pg = 131072) as Hpg by lia. split.
  - intros pg ->%Hpg. exists owned. split; [by vm_compute|]. split; [done|]. intros _. split; [|by vm_compute].
    change (physical owned / 4096) with 40. rewrite elem_of_difference, elem_of_singleton. tauto.
  - intros pg ->%Hpg. right. by vm_compute.
  - intros pg pg' x y ->%Hpg ->%Hpg. done.
Qed.

Lemma UnmapVirt_correct_witness :
  ∃ s' a' free', UnmapVirt 0x20000000 8192 owned_vm = Done (EINVAL, s') ∧ at_rest s' 1 a' ∧ mmu_ok s' 1 a' ∧ frames_ok s' free' ∧
    view s' a' 131072 = None ∧ 40 ∈ free'.
Proof.
  destruct (UnmapVirt_correct owned_vm 1 one_vas 0x20000000 8192 1 (Physical.sample_free ∖ {[40]}))
    as (s' & a' & free' & E & R1 & R2 & R3 & R4 & _ & _ & R7 & _).
  - apply at_rest_pm, one_rest; [apply owned_ok|done].
  - apply mmu_ok_pm, one_mmu; [done..|]. intros pg Hc. assert (pg = 131072) as -> by (unfold covers, vend in Hc; cbn in Hc; lia).
    change (agrees (Z.lor (physical owned) (pte_flags owned)) owned). by apply fresh_agrees.
  - apply used_frames.
  - lia.
  - by vm_compute.
  - apply owned_unmappable.
  - right. split; [by vm_compute|]. by vm_compute.
  - assert (1%nat ≠ Z.to_nat (Physical.BytesToPages 8192)) as Hne by (by vm_compute). rewrite decide_False in E by exact Hne.
    exists s', a', free'. split; [exact E|]. split; [exact R1|]. split; [exact R2|]. split; [exact R3|].
    split; [rewrite R4; reflexivity|]. apply R7. right. exists 131072, owned.
    split; [lia|]. split; [vm_compute; reflexivity|]. split; reflexivity.
Defined.

(** Three pages where a mapping already is: they go elsewhere. *)
Lemma sample_place : place_ok (one_vm lazy4 ∅ true) 1 one_vas 3 0x20004000.
Proof.
  split; [done|]. split; [lia|]. split; [lia|]. change (0x20004000 / 4096) with 131076. split.
  - apply range_used_false. by vm_compute.
  - intros pg Hpg. replace (pg / 1024) with 128 by lia. by eexists.
Qed.
Lemma sample_bump : bump_ok (one_vm lazy4 ∅ true) one_vas sample_flags 131200.
Proof.
  split; [by vm_compute|by vm_compute|]. change (next_virt _ sample_flags / 4096) with 131076. change 131200 with (131076 + 124).
  apply range_used_false. by vm_compute.
Qed.
Lemma sample_lazy : lazy_flags sample_flags NULL.
Proof. by repeat split. Qed.

Lemma MapVirtEx_correct_witness :
  let s := one_vm lazy4 ∅ true in
  ∃ s' a', MapVirtEx 1 0 0x20001000 3 sample_flags NULL 0 s = Done ((0x20004000, 0), s') ∧ at_rest s' 1 a' ∧ mmu_ok s' 1 a' ∧
    (∀ pg, view s' a' pg = if decide (0x20004000 / 4096 ≤ pg < 0x20004000 / 4096 + 3)
      then Some (mapped_page sample_flags NULL 0 (0x20004000 / 4096) 3 pg) else view s one_vas pg) ∧
    ram s' = ram s ∧ pm s' = pm s ∧ (∀ w, w ≠ 1 → vases s' !! w = vases s !! w) ∧
    next_virt s' sample_flags = 0x20007000 ∧ bump_ok s' a' sample_flags 131200.
Proof.
  intros s. pose proof (MapVirtEx_correct s 1 one_vas 0x20001000 3 sample_flags NULL 0 0 131200 (lazy4_rest true) (lazy4_mmu true) sample_lazy) as T.
  assert (chosen s one_vas 0x20001000 3 sample_flags = 0x20004000) as Hc by (by vm_compute).
  assert (negb (bool_decide (0x20001000 = 0)) && taken s one_vas 0x20001000 3 && has sample_flags VM_FIXED_VIRT = false) as Hb by (by vm_compute).
  assert (moved s one_vas 0x20001000 3 = true) as Hmv by (by vm_compute).
  rewrite Hc, Hb, Hmv in T. rewrite decide_False in T by lia.
  destruct T as (s' & a' & E & R1 & R2 & R3 & R4 & R5 & R6 & R7 & R8); [done|lia|done|done|lia|lia|done|apply sample_bump|by vm_compute|apply sample_place|].
  exists s', a'. split; [exact E|]. split; [exact R1|]. split; [exact R2|]. split; [exact R3|]. split; [exact R4|].
  split; [exact R5|]. split; [exact R6|]. split; [exact R7|]. apply R8. by left.
Defined.

Lemma map_unmap_roundtrip_witness :
  let s := one_vm lazy4 ∅ true in
  ∃ s1 s2 a2 free2, MapVirtEx 1 0 0x20001000 3 sample_flags NULL 0 s = Done ((0x20004000, 0), s1) ∧
    UnmapVirt 0x20004000 (3 * 4096) s1 = Done (0, s2) ∧ at_rest s2 1 a2 ∧ mmu_ok s2 1 a2 ∧
    (∀ g pg, view_of s2 a2 g pg = view_of s one_vas g pg) ∧ frames_ok s2 free2 ∧ (∀ i, i ∈ free2 ↔ i ∈ Physical.sample_free) ∧ ram s2 = ram s.
Proof.
  intros s. pose proof (map_unmap_roundtrip s 1 one_vas 0x20001000 3 sample_flags NULL 0 Physical.sample_free
    (lazy4_rest true) (lazy4_mmu true) (sample_frames _ _ _) sample_lazy) as T.
  assert (chosen s one_vas 0x20001000 3 sample_flags = 0x20004000) as Hc by (by vm_compute). rewrite Hc in T.
  apply T; try done; try lia; apply sample_place.
Defined.

(** ** What goes wrong *)

(** The kernel's address space 1 after start-up: the tables of its half exist. *)
Definition kernel_tables : gmap (Z * Z) Z := list_to_map ((λ i : nat, ((1, 768 + i), 0x100000 + i * 4096)) <$> seq 0 255).
Definition boot_vm : vm := VM ∅ {[1 := Vas Null 0 false]} Null 0 false 1 1 true 0x20000000 ARCH_KRNL_SBRK_BASE
  Physical.sample Swapfile.swap_sample ∅ kernel_tables ∅ 1 ∅ [] true [] 0 (replicate 32 NULL) 0.
Definition map_user (pages : Z) : V Z := MapVirt 0 0 (pages * 4096) sample_flags NULL 0.
Definition access (virt kind : Z) : V unit := HandleVirtFault 0 (mret tt) virt kind.
Definition fork : V Z := CreateVas 2;; CopyVas 2.
Definition entry_of (virt : Z) : V Z := v ← GetVas; AcquireVas v;; p ← GetVirtEntry v virt; ReleaseVas v;; mret p.
Definition ends {A} (m : V A) (P : A → vm → Prop) : Prop := match m boot_vm with Done (a, s) => P a s | _ => False end.
Definition mapped_in (s : vm) (v virt : Z) : bool :=
  match vases s !! v with Some a => bool_decide (is_Some (view s a (virt / 4096))) | None => false end.

(** In these runs from start-up the code does not do what it means to. Of two
    processes that write to a page shared by a fork, the second is charged with a
    fault although its page is writable. A write to a shared page that is
    read-only, or not in memory, faults again inside the handler, and one to a
    shared mapping of several pages stops at an assertion. Splitting a shared
    mapping in one process makes pages of the other disappear. Unmapping a page
    that was swapped out clears the slot numbered after its old frame, and its
    own slot stays taken. Unmapping a shared page leaves it mapped, and doing it
    twice frees the entry the other address space still holds. Wiping the user
    pages before a new program reads an entry after freeing it. *)
Theorem virtual_memory_defects :
  ends (v ← map_user 1; access v VM_WRITE;; fork;; access v VM_WRITE;; SetVas 2;; access v VM_WRITE;; entry_of v)
    (λ p s, faults s = [UNHANDLED_FAULT_SEGV] ∧ write (entry_at (entries s) p) = true ∧ in_ram (entry_at (entries s) p) = true) ∧
  (v ← map_user 1; access v VM_WRITE;; fork;; SetVirtPermissions v 0 VM_WRITE;; access v VM_WRITE) boot_vm = Faulted ∧
  (v ← map_user 1; fork;; access v VM_WRITE) boot_vm = Faulted ∧
  (v ← map_user 3; fork;; access v VM_WRITE) boot_vm = Panicked PANIC_ASSERTION_FAILURE ∧
  ends (v ← map_user 3; fork;; mret v) (λ v s, mapped_in s 2 (v + 8192) = true) ∧
  ends (v ← map_user 3; fork;; access (v + 4096) VM_READ;; mret v) (λ v s, mapped_in s 2 (v + 8192) = false) ∧
  ends (v ← map_user 1; access v VM_WRITE;; p ← entry_of v; EvictPage 0 1 p;; e ← get_entry p; UnmapVirt v 4096;; mret e)
    (λ e s, swapfile_offset e / 4096 = 1 ∧ Bitmap.bm_test 8 (Swapfile.swapfile_bitmap (swap s)) 1 = true ∧
       physical e / 4096 = 39 ∧ Swapfile.number_on_swapfile (swap s) = 1) ∧
  ends (v ← map_user 1; access v VM_WRITE;; fork;; r ← UnmapVirt v 4096; mret (v, r)) (λ r s, snd r = 0 ∧ mapped_in s 1 (fst r) = true) ∧
  ends (v ← map_user 1; access v VM_WRITE;; p ← entry_of v; fork;; UnmapVirt v 4096;; UnmapVirt v 4096;; mret p)
    (λ p s, entries s !! p = None ∧ (λ a, bool_decide (p ∈ locals a)) <$> vases s !! 2 = Some true) ∧
  (map_user 1;; WipeUsermodePages) boot_vm = Faulted.
Proof. vm_compute. repeat split. Qed.
End samples.
