(* ===== verification/KernelHeap.v ===== *)
(** * mem/heap.c: the kernel's boundary-tag allocator

    Memory is word addressed: a map from 4-aligned addresses to the 32-bit word
    there. A block is [size | flags] at offset 0, the free-list links at offsets
    4 and 8 of a free block, and its size again in its last word. Free blocks
    are on one of 35 doubly linked lists by size class; neighbours are found
    through the tags and merged. New memory comes from the reserve blocks, which
    a deferred call refills from the virtual memory manager. *)

From S2P Require Import Prelude.

(** ** Constants *)
Definition BOOTSTRAP_SIZE := 1024 * 16.
Definition MAX_RESERVE_BLOCKS : nat := 16.
Definition ALIGNMENT := 8.
Definition METADATA_LEADING := 4.
Definition METADATA_TRIALING := 4.
Definition METADATA_TOTAL := METADATA_LEADING + METADATA_TRIALING.
Definition MIN_REQ_SIZE := 8.
Definition TOTAL_NUM_FREE_LISTS : nat := 35.
Definition ARCH_PAGE_SIZE := 4096.
Definition HEAP_ZERO := 1.

Definition free_list_block_sizes : list Z :=
  [8; 16; 24; 32; 40; 48; 56; 64; 72; 80; 88; 96; 104; 112; 120; 128; 160; 192; 224; 256;
   320; 384; 448; 512; 768; 1024; 1536; 2048;
   1024 * 4; 1024 * 8; 1024 * 16; 1024 * 32; 1024 * 64; 1024 * 128; 1024 * 256].

(** ** State *)
Record reserve_block := Reserve { rb_address : Z; rb_size : Z; rb_valid : bool }.

Record kheap := KHeap {
  words : gmap Z Z;
  head_block : list Z;
  reserve_blocks : list reserve_block;
  heap_spinlock : bool;
  outstanding_allocations : Z;
  virt_initialised : bool;
  refill_deferred : bool;      (** [RefillReservePages] is waiting in the deferred queue *)
}.


Definition rd (p : Z) : M kheap Z := s ← get; deref (words s !! p).
Definition wr (p w : Z) : M kheap unit :=
  s ← get; deref (words s !! p);; put {| s with words := <[p := w]> (words s) |}.

Definition LockHeap : M kheap bool :=
  s ← get;
  if heap_spinlock s then panic PANIC_SPINLOCK_DOUBLE_ACQUISITION else
  put {| s with heap_spinlock := true |};; mret true.
Definition UnlockHeap : M kheap unit :=
  s ← get;
  if heap_spinlock s then put {| s with heap_spinlock := false |}
  else panic PANIC_SPINLOCK_RELEASED_BEFORE_ACQUIRED.

(** *** The reserve *)
Fixpoint smallest_fit (n : nat) (i smallest : Z) (size : Z) (rs : list reserve_block) : Z :=
  match n with
  | O => smallest
  | S n =>
    let smallest' :=
      match aget rs i with
      | Some r =>
        if rb_valid r && bool_decide (size ≤ rb_size r) then
          match (if decide (smallest = -1) then None else aget rs smallest) with
          | None => i
          | Some s => if decide (rb_size r < rb_size s) then i else smallest
          end
        else smallest
      | None => smallest
      end in
    smallest_fit n (i + 1) smallest' size rs
  end.

Definition AllocateFromReserveBlocks (size : Z) : M kheap Z :=
  s ← get;
  let smallest := smallest_fit MAX_RESERVE_BLOCKS 0 (-1) size (reserve_blocks s) in
  if decide (smallest = -1) then panic PANIC_CANNOT_MALLOC_WITHOUT_FAULTING else
  r ← deref (aget (reserve_blocks s) smallest);
  let left := rb_size r - size in
  rs ← deref (aset (reserve_blocks s) smallest
    (Reserve (u32 (rb_address r + size)) left (if decide (left < ARCH_PAGE_SIZE) then false else rb_valid r)));
  put {| s with reserve_blocks := rs |};;
  mret (rb_address r).

Section refill.
(** [MapVirtEasy(size, false)] and [UnmapVirt] of the memory manager. *)
Variable MapVirtEasy : Z → M kheap Z.
Variable UnmapVirt : Z → Z → M kheap unit.

(** The [for] loop: the first invalid entry takes the new block. The index of
    the smallest valid block is computed by the code and not used. *)
Fixpoint first_invalid (n : nat) (i : Z) (rs : list reserve_block) : option Z :=
  match n with
  | O => None
  | S n => match aget rs i with
           | Some r => if rb_valid r then first_invalid n (i + 1) rs else Some i
           | None => None
           end
  end.

Definition AddBlockToBackupHeap (size : Z) : M kheap unit :=
  UnlockHeap;;
  address ← MapVirtEasy size;
  LockHeap;;
  s ← get;
  match first_invalid MAX_RESERVE_BLOCKS 0 (reserve_blocks s) with
  | Some i =>
    rs ← deref (aset (reserve_blocks s) i (Reserve address size true));
    put {| s with reserve_blocks := rs |}
  | None => UnlockHeap;; UnmapVirt address size;; LockHeap;; mret tt
  end.

Fixpoint largest_valid (rs : list reserve_block) (largest : Z) : Z :=
  match rs with
  | [] => largest
  | r :: rs => largest_valid rs (if rb_valid r && bool_decide (largest < rb_size r) then rb_size r else largest)
  end.

Definition RefillReservePages : M kheap unit :=
  LockHeap;;
  s ← get;
  let largest_block := largest_valid (reserve_blocks s) 0 in
  (if decide (largest_block < BOOTSTRAP_SIZE) then AddBlockToBackupHeap BOOTSTRAP_SIZE else mret tt);;
  UnlockHeap.
End refill.

(** *** Size classes *)
Fixpoint GetSmallestListIndexThatFits_loop (n : nat) (i : Z) (size : Z) : outcome Z :=
  match n with
  | O => Exhausted
  | S n =>
    match aget free_list_block_sizes i with
    | None => Faulted
    | Some f => if decide (size ≤ f) then Done i else GetSmallestListIndexThatFits_loop n (i + 1) size
    end
  end.
(** The 36th turn reads outside the table. *)
Definition GetSmallestListIndexThatFits (size_without_metadata : Z) : M kheap Z := λ s,
  i ← GetSmallestListIndexThatFits_loop (S TOTAL_NUM_FREE_LISTS) 0 size_without_metadata; Done (i, s).

Fixpoint insertion_loop (l : list Z) (i : Z) (size : Z) : option Z :=
  match l with
  | [] => None
  | f :: l => if decide (size ≤ f) then Some (i - 1) else insertion_loop l (i + 1) size
  end.
Definition GetInsertionIndex (size_without_metadata : Z) : M kheap Z :=
  c_assert (bool_decide (8 ≤ size_without_metadata));;
  if decide (size_without_metadata = 8) then mret 0 else
  match insertion_loop (take (TOTAL_NUM_FREE_LISTS - 1) free_list_block_sizes) 0 size_without_metadata with
  | Some i => mret i
  | None => panic PANIC_HEAP_REQUEST_TOO_LARGE
  end.

Definition RoundUpSize (size : Z) : M kheap Z :=
  c_assert (bool_decide (size ≠ 0));;
  let size := if decide (size < MIN_REQ_SIZE) then MIN_REQ_SIZE else size in
  mret (Z.land (u32 (size + ALIGNMENT - 1)) (Z.lnot (ALIGNMENT - 1))).

(** *** Blocks: [size] at 0, [next] at 4, [prev] at 8 *)
Definition MarkFree (block : Z) : M kheap unit := w ← rd block; wr block (Z.land w (Z.lnot 1)).
Definition MarkAllocated (block : Z) : M kheap unit := w ← rd block; wr block (Z.lor w 1).
Definition IsAllocated (block : Z) : M kheap bool := w ← rd block; mret (Z.testbit w 0).
Definition get_next (block : Z) : M kheap Z := rd (block + 4).
Definition get_prev (block : Z) : M kheap Z := rd (block + 8).
Definition set_next (block p : Z) : M kheap unit := wr (block + 4) p.
Definition set_prev (block p : Z) : M kheap unit := wr (block + 8) p.

Definition GetSize (block : Z) : M kheap Z :=
  w ← rd block;
  let size := Z.land w (Z.lnot 3) in
  t ← rd (block + (size / 4 - 1) * 4);
  c_assert (bool_decide (t = size));;
  mret size.

Definition SetSizeTags (block size : Z) : M kheap unit :=
  w ← rd block;
  wr block (Z.lor (Z.land w 3) size);;
  wr (block + (size / 4 - 1) * 4) size.

Definition get_head (i : Z) : M kheap Z := s ← get; deref (aget (head_block s) i).
Definition set_head (i p : Z) : M kheap unit :=
  s ← get; hs ← deref (aset (head_block s) i p); put {| s with head_block := hs |}.

Definition GetSystemMemory (size : Z) : M kheap Z :=
  s ← get;
  (if virt_initialised s then put {| s with refill_deferred := true |} else mret tt);;
  AllocateFromReserveBlocks size.

Definition RequestBlock (total_size : Z) : M kheap Z :=
  let total_size := u32 (total_size + MIN_REQ_SIZE * 2) in
  let total_size := Z.land (u32 (total_size + ARCH_PAGE_SIZE - 1)) (Z.lnot (ARCH_PAGE_SIZE - 1)) in
  block ← GetSystemMemory total_size;
  if decide (block = NULL) then panic PANIC_OUT_OF_HEAP else
  let left_fence := block in
  let actual_block := block + (MIN_REQ_SIZE / 4) * 4 in
  let right_fence := block + ((total_size - MIN_REQ_SIZE) / 4) * 4 in
  SetSizeTags left_fence MIN_REQ_SIZE;;
  SetSizeTags actual_block (total_size - 2 * MIN_REQ_SIZE);;
  SetSizeTags right_fence MIN_REQ_SIZE;;
  set_prev actual_block NULL;;
  set_next actual_block NULL;;
  MarkAllocated left_fence;;
  MarkAllocated right_fence;;
  MarkFree actual_block;;
  mret actual_block.

Definition RemoveBlock (free_list_index block : Z) : M kheap unit :=
  prev ← get_prev block;
  next ← get_next block;
  if decide (prev = NULL ∧ next = NULL) then
    h ← get_head free_list_index;
    c_assert (bool_decide (h = block));;
    set_head free_list_index NULL
  else if decide (prev = NULL) then
    set_head free_list_index next;;
    set_prev next NULL
  else if decide (next = NULL) then
    set_next prev NULL
  else
    set_next prev next;;
    set_prev next prev.

(** A merged block has no free neighbour left, so the call it makes returns
    without another: two levels are enough. *)
Fixpoint AddBlock (fuel : nat) (block : Z) : M kheap Z :=
  match fuel with
  | O => exhausted
  | S fuel =>
    size ← GetSize block;
    free_list_index ← GetInsertionIndex (size - METADATA_TOTAL);
    prev_size ← rd (block - 4);
    let prev := block - prev_size / 4 * 4 in
    let next := block + size / 4 * 4 in
    prev_alloc ← IsAllocated prev;
    next_alloc ← IsAllocated next;
    match prev_alloc : bool, next_alloc : bool with
    | true, true =>
      set_prev block NULL;;
      h ← get_head free_list_index;
      set_next block h;;
      (if decide (h ≠ NULL) then set_prev h block else mret tt);;
      set_head free_list_index block;;
      MarkFree block;;
      mret block
    | true, false =>
      next_size ← GetSize next;
      i ← GetInsertionIndex (next_size - METADATA_TOTAL);
      RemoveBlock i next;;
      next_size ← GetSize next;
      SetSizeTags block (size + next_size);;
      set_prev block NULL;;
      set_next block NULL;;
      MarkFree block;;
      AddBlock fuel block
    | false, true =>
      psize ← GetSize prev;
      i ← GetInsertionIndex (psize - METADATA_TOTAL);
      RemoveBlock i prev;;
      psize ← GetSize prev;
      SetSizeTags prev (size + psize);;
      set_prev prev NULL;;
      set_next prev NULL;;
      MarkFree prev;;
      AddBlock fuel prev
    | false, false =>
      psize ← GetSize prev;
      i ← GetInsertionIndex (psize - METADATA_TOTAL);
      RemoveBlock i prev;;
      next_size ← GetSize next;
      j ← GetInsertionIndex (next_size - METADATA_TOTAL);
      RemoveBlock j next;;
      psize ← GetSize prev;
      next_size ← GetSize next;
      SetSizeTags prev (size + psize + next_size);;
      set_prev prev NULL;;
      set_next prev NULL;;
      MarkFree prev;;
      AddBlock fuel prev
    end
  end.
Definition add_fuel : nat := 2.

Definition AllocateBlock (block free_list_index user_requested_size : Z) : M kheap Z :=
  c_assert (bool_decide (block ≠ NULL));;
  let total_size := user_requested_size + METADATA_TOTAL in
  block_size ← GetSize block;
  c_assert (bool_decide (total_size ≤ block_size));;
  if decide (block_size - total_size < MIN_REQ_SIZE + METADATA_TOTAL) then
    RemoveBlock free_list_index block;;
    SetSizeTags block block_size;;
    MarkAllocated block;;
    mret block
  else
    RemoveBlock free_list_index block;;
    let leftover := block_size - total_size in
    SetSizeTags block leftover;;
    let allocated_block := block + leftover / 4 * 4 in
    SetSizeTags allocated_block total_size;;
    MarkAllocated allocated_block;;
    MarkFree block;;
    AddBlock add_fuel block;;
    mret allocated_block.

(** The [for] over the lists from [min_index]: the first that is not empty. *)
Fixpoint first_nonempty (hs : list Z) (i : Z) : option (Z * Z) :=
  match hs with
  | [] => None
  | h :: hs => if decide (h ≠ NULL) then Some (i, h) else first_nonempty hs (i + 1)
  end.

Definition FindBlock (user_requested_size : Z) : M kheap Z :=
  min_index ← GetSmallestListIndexThatFits user_requested_size;
  s ← get;
  match first_nonempty (drop (Z.to_nat min_index) (head_block s)) min_index with
  | Some (i, h) => AllocateBlock h i user_requested_size
  | None =>
    f ← deref (aget free_list_block_sizes (min_index + 1));
    sys_block ← RequestBlock (f + METADATA_TOTAL);
    size ← GetSize sys_block;
    sys_index ← GetInsertionIndex (size - METADATA_TOTAL);
    h ← get_head sys_index;
    c_assert (bool_decide (h = NULL));;
    set_head sys_index sys_block;;
    h ← get_head sys_index;
    AllocateBlock h sys_index user_requested_size
  end.

(** [inline_memset(ptr, 0, size)] by words; both arguments are multiples of 4. *)
Fixpoint zero_words (n : nat) (p : Z) : M kheap unit :=
  match n with O => mret tt | S n => wr p 0;; zero_words n (p + 4) end.

(** The warning about large requests has no effect on the state. *)
Definition AllocHeapEx (size flags : Z) : M kheap Z :=
  if decide (size = 0) then mret NULL else
  acquired ← LockHeap;
  size ← RoundUpSize size;
  block ← FindBlock size;
  modify (λ s, {| s with outstanding_allocations := outstanding_allocations s + 1 |});;
  (if (acquired : bool) then UnlockHeap else mret tt);;
  c_assert (bool_decide (Z.land block (ALIGNMENT - 1) = 0));;
  let ptr := block + METADATA_LEADING in
  (if decide (Z.land flags HEAP_ZERO ≠ 0) then zero_words (Z.to_nat (size / 4)) ptr else mret tt);;
  mret ptr.
Definition AllocHeap (size : Z) : M kheap Z := AllocHeapEx size 0.
Definition AllocHeapZero (size : Z) : M kheap Z := AllocHeapEx size HEAP_ZERO.

Definition FreeHeap (ptr : Z) : M kheap unit :=
  if decide (ptr = NULL) then mret tt else
  let block := ptr - METADATA_LEADING in
  set_prev block NULL;;
  set_next block NULL;;
  LockHeap;;
  AddBlock add_fuel block;;
  modify (λ s, {| s with outstanding_allocations := outstanding_allocations s - 1 |});;
  UnlockHeap.

(** [memcpy] by words; the last partial word is copied whole, as sizes that
    reach it are multiples of 4. *)
Fixpoint copy_words (n : nat) (dst src : Z) : M kheap unit :=
  match n with O => mret tt | S n => w ← rd src; wr dst w;; copy_words n (dst + 4) (src + 4) end.

Definition ReallocHeap (ptr new_size : Z) : M kheap Z :=
  old_size ← GetSize (ptr - METADATA_LEADING);
  if decide (new_size ≤ old_size) then mret ptr else
  new_ptr ← AllocHeap new_size;
  if decide (new_ptr = NULL) then mret NULL else
  copy_words (Z.to_nat (old_size / 4)) new_ptr ptr;;
  FreeHeap ptr;;
  mret new_ptr.

Definition InitHeap : M kheap unit := modify (λ s, {| s with heap_spinlock := false |}).
Definition DbgGetOutstandingHeapAllocations : M kheap Z := gets outstanding_allocations.
