(* ===== verification/KernelHeapInv.v ===== *)
(** * Invariant of the kernel heap and the lemmas of its list operations

    The heap is described by a map from block addresses to blocks; what the
    words of memory say of it (tags, links) is kept apart from the geometry of
    the blocks, so that each memory write disturbs one part only. *)

From S2P Require Import Prelude KernelHeap.

#[local] Ltac Zify.zify_post_hook ::= Z.to_euclidean_division_equations.

(** ** Blocks *)
Inductive kind := LeftFence | RightFence | Used | Free.
#[export] Instance kind_eq_dec : EqDecision kind.
Proof. solve_decision. Defined.

(** A block: total size, kind, and the span of system memory it was cut from. *)
Record blk := Blk { bsize : Z; bkind : kind; bspan : Z * Z }.
Abbreviation heap_map := (gmap Z blk).
Definition is_fence (k : kind) : bool := bool_decide (k = LeftFence ∨ k = RightFence).
(** The low bit of the header. *)
Definition flag (k : kind) : bool := bool_decide (k ≠ Free).

Record block_ok (a : Z) (b : blk) : Prop := {
  bo_pos : 0 < a;
  bo_align : a `mod` 8 = 0;
  bo_size8 : bsize b `mod` 8 = 0;
  bo_fence : is_fence (bkind b) = true → bsize b = 8;
  bo_min : is_fence (bkind b) = false → 16 ≤ bsize b;
  bo_span : (bspan b).1 ≤ a ∧ a + bsize b ≤ (bspan b).1 + (bspan b).2;
  bo_bound : (bspan b).2 ≤ BOOTSTRAP_SIZE;
  bo_top : a + bsize b ≤ 2 ^ 32;
}.

Record geometry (B : heap_map) : Prop := {
  ge_ok : ∀ a b, B !! a = Some b → block_ok a b;
  ge_disj : ∀ a b a' b', B !! a = Some b → B !! a' = Some b' → a ≠ a' →
    a + bsize b ≤ a' ∨ a' + bsize b' ≤ a;
  ge_next : ∀ a b, B !! a = Some b → bkind b ≠ RightFence →
    ∃ b', B !! (a + bsize b) = Some b' ∧ bspan b' = bspan b;
  ge_prev : ∀ a b, B !! a = Some b → bkind b ≠ LeftFence →
    ∃ p pb, B !! p = Some pb ∧ p + bsize pb = a ∧ bspan pb = bspan b;
}.

(** Neighbours are merged: no free block follows a free block. *)
Definition merged (B : heap_map) : Prop := ∀ a b b',
  B !! a = Some b → bkind b = Free → B !! (a + bsize b) = Some b' → bkind b' ≠ Free.

(** ** What memory says of a block, with or without its flag, and of all of
    them; the flag of the block [ex] is left open. *)
Definition tag (m : gmap Z Z) (a : Z) (b : blk) (with_flag : Prop) : Prop :=
  (∃ w, m !! a = Some w ∧ Z.land w (Z.lnot 3) = bsize b ∧ (with_flag → Z.testbit w 0 = flag (bkind b))) ∧
  m !! (a + bsize b - 4) = Some (bsize b).
Definition tags (m : gmap Z Z) (B : heap_map) (ex : Z) : Prop := ∀ a b, B !! a = Some b → tag m a b (a ≠ ex).
Definition mapped (m : gmap Z Z) (B : heap_map) : Prop := ∀ a b x,
  B !! a = Some b → a ≤ x < a + bsize b → x `mod` 4 = 0 → is_Some (m !! x).

(** ** Free lists *)
Definition first (l : list Z) (n : Z) : Z := default n (head l).
Definition final (p : Z) (l : list Z) : Z := default p (last l).
(** A doubly linked segment between the block [prev] and the block [next]. *)
Fixpoint dseg (m : gmap Z Z) (prev : Z) (l : list Z) (next : Z) : Prop :=
  match l with
  | [] => True
  | a :: l => m !! (a + 4) = Some (first l next) ∧ m !! (a + 8) = Some prev ∧ dseg m a l next
  end.
Definition dll (m : gmap Z Z) (l : list Z) : Prop := dseg m NULL l NULL.
Definition links (m : gmap Z Z) (heads : list Z) (L : list (list Z)) : Prop :=
  heads = (λ l, first l NULL) <$> L ∧ Forall (dll m) L.

(** The list a block of user size [s] belongs to. *)
Definition class (s : Z) : Z :=
  if decide (s = 8) then 0 else
  default (-1) (insertion_loop (take (TOTAL_NUM_FREE_LISTS - 1) free_list_block_sizes) 0 s).

Record classes (B : heap_map) (L : list (list Z)) : Prop := {
  cl_length : length L = TOTAL_NUM_FREE_LISTS;
  cl_sound : ∀ (i : nat) l a, L !! i = Some l → a ∈ l →
    ∃ b, B !! a = Some b ∧ bkind b = Free ∧ class (bsize b - 8) = i;
  cl_complete : ∀ a b, B !! a = Some b → bkind b = Free →
    ∃ (i : nat) l, class (bsize b - 8) = i ∧ L !! i = Some l ∧ a ∈ l;
  cl_nodup : ∀ (i : nat) l, L !! i = Some l → NoDup l;
}.

(** ** Size classes, by evaluation *)
Lemma insertion_loop_spec l : ∀ i s r,
  insertion_loop l i s = Some r →
  ∃ k : nat, r = i + k - 1 ∧ (∃ f, l !! k = Some f ∧ s ≤ f) ∧ ∀ j g, (j < k)%nat → l !! j = Some g → g < s.
Proof.
  induction l as [|f l IH]; intros i s r H; [done|]. simpl in H. destruct (decide (s ≤ f)) as [Hle|Hgt].
  - injection H as <-. exists 0%nat. split; [lia|]. split; [by exists f|]. lia.
  - destruct (IH _ _ _ H) as (k & -> & Hf & Hlt). exists (S k). split; [lia|]. split; [done|].
    intros [|j] g Hj Hg; [injection Hg as <-; lia|]. apply (Hlt j); [lia|done].
Qed.
Lemma insertion_loop_total l : ∀ i s f, last l = Some f → s ≤ f → ∃ r, insertion_loop l i s = Some r.
Proof.
  induction l as [|g l IH]; intros i s f Hlast Hs; [done|]. simpl. destruct (decide (s ≤ g)); [by eexists|].
  destruct l as [|h l]; [injection Hlast as ->; lia|]. by eapply IH.
Qed.

(** A block of user size [s] goes on a list whose entries fit its class. *)
Lemma class_spec s : 8 ≤ s ≤ BOOTSTRAP_SIZE → 0 ≤ class s < 34 ∧ ∃ f, aget free_list_block_sizes (class s) = Some f ∧ f ≤ s.
Proof.
  intros Hs. unfold class. destruct (decide (s = 8)) as [->|Hne].
  { split; [lia|]. exists 8. split; [done|lia]. }
  destruct (insertion_loop_total (take (TOTAL_NUM_FREE_LISTS - 1) free_list_block_sizes) 0 s (1024 * 128))
    as [r Hr]; [done|unfold BOOTSTRAP_SIZE in Hs; lia|]. rewrite Hr. simpl.
  destruct (insertion_loop_spec _ _ _ _ Hr) as (k & -> & (f & Hf & Hsf) & Hlt).
  assert (k < 34)%nat as Hk by (apply lookup_lt_Some in Hf; exact Hf).
  destruct k as [|k]; [injection Hf as <-; lia|]. split; [lia|].
  destruct (lookup_lt_is_Some_2 (take (TOTAL_NUM_FREE_LISTS - 1) free_list_block_sizes) k) as [g Hg]; [simpl; lia|].
  exists g. split; [|specialize (Hlt k g ltac:(lia) Hg); lia].
  replace (0 + S k - 1) with (Z.of_nat k) by lia. rewrite aget_nat.
  rewrite lookup_take_Some in Hg. apply Hg.
Qed.

Lemma GetInsertionIndex_run s st : 8 ≤ s ≤ BOOTSTRAP_SIZE → GetInsertionIndex s st = Done (class s, st).
Proof.
  intros Hs. unfold GetInsertionIndex, class. mred. rewrite bool_decide_true by lia. cbn [outcome_bind].
  destruct (decide (s = 8)); [done|].
  destruct (insertion_loop_total (take (TOTAL_NUM_FREE_LISTS - 1) free_list_block_sizes) 0 s (1024 * 128))
    as [r ->]; [done|unfold BOOTSTRAP_SIZE in Hs; lia|done].
Qed.

(** ** Separation *)
Section separation.
Context (B : heap_map) (HB : geometry B).

Lemma same_block a b a' b' x :
  B !! a = Some b → B !! a' = Some b' → a ≤ x < a + bsize b → a' ≤ x < a' + bsize b' → a = a'.
Proof.
  intros Ha Ha' Hx Hx'. destruct (decide (a = a')) as [|Hne]; [done|].
  destruct (ge_disj B HB a b a' b' Ha Ha' Hne); lia.
Qed.

Lemma block_size_pos a b : B !! a = Some b → 8 ≤ bsize b.
Proof.
  intros Ha. destruct (ge_ok B HB a b Ha) as [? ? ? Hf Hm ? ? ?].
  destruct (is_fence (bkind b)); [rewrite Hf; lia|specialize (Hm eq_refl); lia].
Qed.

(** A link word of a block with links is no tag of any block. *)
Lemma link_not_tag c cb a b x :
  B !! c = Some cb → 16 ≤ bsize cb → x = c + 4 ∨ x = c + 8 → B !! a = Some b →
  x ≠ a ∧ x ≠ a + bsize b - 4.
Proof.
  intros Hc H16 Hx Ha. pose proof (block_size_pos _ _ Ha). pose proof (bo_align _ _ (ge_ok B HB _ _ Ha)).
  pose proof (bo_align _ _ (ge_ok B HB _ _ Hc)). pose proof (bo_size8 _ _ (ge_ok B HB _ _ Ha)).
  assert (a ≤ x < a + bsize b → a = c) as Hsame by (intros; eapply (same_block a b c cb x); eauto; lia).
  split; intros ->.
  - destruct Hx as [Hx|Hx]; [lia|]. assert (a = c) by (apply Hsame; lia). lia.
  - assert (a = c) as Hac by (apply Hsame; lia). rewrite Hac in *. assert (b = cb) as -> by congruence.
    destruct Hx; lia.
Qed.

Lemma size_small a b : B !! a = Some b → bsize b ≤ BOOTSTRAP_SIZE.
Proof. intros Ha. destruct (ge_ok B HB a b Ha). lia. Qed.
End separation.

(** ** Segments *)
Lemma dseg_app m p l1 l2 n :
  dseg m p (l1 ++ l2) n ↔ dseg m p l1 (first l2 n) ∧ dseg m (final p l1) l2 n.
Proof.
  revert p. induction l1 as [|a l1 IH]; intros p; [simpl; tauto|].
  cbn [app dseg]. rewrite IH.
  replace (first (l1 ++ l2) n) with (first l1 (first l2 n)) by (by destruct l1).
  replace (final p (a :: l1)) with (final a l1); [tauto|].
  unfold final. destruct l1 as [|b l1]; [done|]. rewrite (last_cons_cons a b l1).
  destruct (last (b :: l1)) eqn:E; [done|]. by apply last_None in E.
Qed.

Lemma dseg_frame m m' p l n :
  (∀ c, c ∈ l → m' !! (c + 4) = m !! (c + 4) ∧ m' !! (c + 8) = m !! (c + 8)) →
  dseg m p l n → dseg m' p l n.
Proof.
  revert p. induction l as [|a l IH]; intros p Hf; [done|]. intros (H1 & H2 & H3).
  destruct (Hf a) as [E1 E2]; [set_solver|]. split_and!; [congruence|congruence|].
  apply IH; [|done]. set_solver.
Qed.

Definition aligned (l : list Z) : Prop := Forall (λ a, a `mod` 8 = 0) l.

Lemma dseg_set_next m p l z n n' :
  NoDup (l ++ [z]) → aligned (l ++ [z]) → dseg m p (l ++ [z]) n → dseg (<[z + 4 := n']> m) p (l ++ [z]) n'.
Proof.
  intros Hnd Hal H. apply dseg_app in H as [H1 (H2 & H3 & _)]. apply Forall_app in Hal as [Hal Hz].
  rewrite Forall_singleton in Hz. apply NoDup_app in Hnd as (_ & Hnd & _).
  apply dseg_app. split.
  - eapply dseg_frame; [|exact H1]. intros c Hc. unfold aligned in Hal. rewrite Forall_forall in Hal.
    specialize (Hal c Hc). assert (c ≠ z) by (intros ->; by eapply Hnd; [|apply list_elem_of_singleton]).
    rewrite !lookup_insert_ne by lia. done.
  - split_and!; [by rewrite lookup_insert_eq|by rewrite lookup_insert_ne by lia|done].
Qed.

Lemma dseg_set_prev m p p' l z n :
  NoDup (z :: l) → aligned (z :: l) → dseg m p (z :: l) n → dseg (<[z + 8 := p']> m) p' (z :: l) n.
Proof.
  intros Hnd Hal (H1 & H2 & H3). apply Forall_cons in Hal as [Hz Hal]. apply NoDup_cons in Hnd as [Hnz _].
  split_and!; [by rewrite lookup_insert_ne by lia|by rewrite lookup_insert_eq|].
  eapply dseg_frame; [|exact H3]. intros c Hc. unfold aligned in Hal. rewrite Forall_forall in Hal.
  specialize (Hal c Hc). assert (c ≠ z) by (by intros ->). rewrite !lookup_insert_ne by lia. done.
Qed.

(** The lists as a whole: aligned blocks, each on one list once. *)
Record lists_ok (L : list (list Z)) : Prop := {
  lo_align : ∀ (i : nat) l, L !! i = Some l → aligned l;
  lo_nonnull : ∀ (i : nat) l a, L !! i = Some l → a ∈ l → a ≠ NULL;
  lo_nodup : ∀ (i : nat) l, L !! i = Some l → NoDup l;
  lo_once : ∀ (i j : nat) l l' a, L !! i = Some l → L !! j = Some l' → a ∈ l → a ∈ l' → i = j;
}.

Lemma classes_lists_ok B L : geometry B → classes B L → lists_ok L.
Proof.
  intros HB [HL Hs Hc Hn]. split.
  - intros i l Hi. apply Forall_forall. intros a Ha. destruct (Hs i l a Hi Ha) as (b & Hb & _).
    apply (ge_ok B HB _ _ Hb).
  - intros i l a Hi Ha. destruct (Hs i l a Hi Ha) as (b & Hb & _).
    pose proof (bo_pos _ _ (ge_ok B HB _ _ Hb)). unfold NULL. lia.
  - done.
  - intros i j l l' a Hi Hj Ha Ha'. destruct (Hs i l a Hi Ha) as (b & Hb & _ & E).
    destruct (Hs j l' a Hj Ha') as (b' & Hb' & _ & E'). assert (b = b') as <- by congruence. lia.
Qed.

(** Only words of links on lists changed, and nothing else of the state but
    the heads. *)
Record relinked (L : list (list Z)) (s s' : kheap) : Prop := {
  rl_words : ∀ x, (∀ (i : nat) l c, L !! i = Some l → c ∈ l → x ≠ c + 4 ∧ x ≠ c + 8) → words s' !! x = words s !! x;
  rl_dom : dom (words s') = dom (words s);
  rl_heads : length (head_block s') = length (head_block s);
  rl_rest : s' = {| s with words := words s'; head_block := head_block s' |};
}.

Lemma rd_run s p w : words s !! p = Some w → rd p s = Done (w, s).
Proof. intros H. unfold rd. mred. by rewrite H. Qed.
Lemma wr_run s p w : is_Some (words s !! p) → wr p w s = Done (tt, {| s with words := <[p := w]> (words s) |}).
Proof. intros [v H]. unfold wr. mred. by rewrite H. Qed.
Lemma get_head_run s (i : nat) h : head_block s !! i = Some h → get_head i s = Done (h, s).
Proof. intros H. unfold get_head. mred. by rewrite aget_nat, H. Qed.
Lemma set_head_run s (i : nat) p : (i < length (head_block s))%nat →
  set_head i p s = Done (tt, {| s with head_block := <[i := p]> (head_block s) |}).
Proof. intros H. unfold set_head. mred. by rewrite aset_nat. Qed.
Lemma dom_write (m : gmap Z Z) p w : is_Some (m !! p) → dom (<[p := w]> m) = dom m.
Proof. intros H%elem_of_dom. rewrite dom_insert_L. set_solver. Qed.

Lemma first_app l1 l2 n : first (l1 ++ l2) n = first l1 (first l2 n).
Proof. by destruct l1. Qed.
Lemma final_snoc p l z : final p (l ++ [z]) = z.
Proof. unfold final. by rewrite last_snoc. Qed.
Lemma split_last (l : list Z) : l = [] ∨ ∃ l0 z, l = l0 ++ [z].
Proof. destruct l as [|z l] using rev_ind; [by left|right; by exists l, z]. Qed.

(** Replacing one list, when the memory of the others did not change. *)
Lemma links_insert m m' hs L (i : nat) l' :
  lists_ok L → links m hs L → (i < length L)%nat → dll m' l' →
  (∀ (j : nat) l c, L !! j = Some l → j ≠ i → c ∈ l → m' !! (c + 4) = m !! (c + 4) ∧ m' !! (c + 8) = m !! (c + 8)) →
  links m' (<[i := first l' NULL]> hs) (<[i := l']> L).
Proof.
  intros Hok [-> Hdll] Hi Hd Hf. split; [by rewrite list_fmap_insert|].
  rewrite Forall_lookup in Hdll |- *. intros j l Hj. destruct (decide (i = j)) as [<-|Hne].
  - rewrite list_lookup_insert_eq in Hj by done. by injection Hj as <-.
  - rewrite list_lookup_insert_ne in Hj by done. eapply dseg_frame; [|exact (Hdll j l Hj)].
    intros c Hc. by eapply Hf.
Qed.

(** A write to a link of a block on list [i] leaves the other lists alone. *)
Lemma other_list_frame L (i j : nat) l l' z c :
  lists_ok L → L !! i = Some l → L !! j = Some l' → j ≠ i → z ∈ l → c ∈ l' →
  (z + 4 ≠ c + 4 ∧ z + 4 ≠ c + 8) ∧ (z + 8 ≠ c + 4 ∧ z + 8 ≠ c + 8).
Proof.
  intros Hok Hi Hj Hne Hz Hc. assert (z ≠ c) by (intros ->; by apply Hne, (lo_once L Hok j i l' l c)).
  pose proof (lo_align L Hok i l Hi) as Hal. pose proof (lo_align L Hok j l' Hj) as Hal'.
  unfold aligned in *. rewrite Forall_forall in Hal, Hal'. specialize (Hal z Hz). specialize (Hal' c Hc). lia.
Qed.

Lemma relinked_refl L s : relinked L s s.
Proof. split; [done..|]. by destruct s. Qed.

Section remove.
Context (L : list (list Z)) (Hok : lists_ok L).
Context (s : kheap) (Hlinks : links (words s) (head_block s) L).
Context (i : nat) (l : list Z) (Hi : L !! i = Some l).

Lemma heads_length : length (head_block s) = length L.
Proof. destruct Hlinks as [-> _]. apply length_fmap. Qed.
Lemma list_index : (i < length L)%nat.
Proof. by eapply lookup_lt_Some. Qed.
Lemma list_dll : dll (words s) l.
Proof. destruct Hlinks as [_ H]. rewrite Forall_lookup in H. by eapply H. Qed.
Lemma list_head : head_block s !! i = Some (first l NULL).
Proof. destruct Hlinks as [-> _]. by rewrite list_lookup_fmap, Hi. Qed.

(** The state after writes [m'] to links of blocks of this list, with its new
    contents [l']. *)
Lemma relink (m' : gmap Z Z) l' :
  dll m' l' → dom m' = dom (words s) →
  (∀ x, (∀ c, c ∈ l → x ≠ c + 4 ∧ x ≠ c + 8) → m' !! x = words s !! x) →
  let s' := {| s with words := m'; head_block := <[i := first l' NULL]> (head_block s) |} in
  links (words s') (head_block s') (<[i := l']> L) ∧ relinked L s s'.
Proof.
  intros Hd Hdom Hx s'. split.
  - apply (links_insert (words s)); [done|done|apply list_index|done|].
    intros j lj c Hj Hne Hc. rewrite !Hx; [done|..];
      intros z Hz; destruct (other_list_frame L i j l lj z c Hok Hi Hj Hne Hz Hc) as [[] []]; lia.
  - split; [|done| |done].
    + intros x Hnx. apply Hx. intros c Hc. by eapply Hnx.
    + simpl. by rewrite length_insert.
Qed.

Lemma head_same l' : first l' NULL = first l NULL → <[i := first l' NULL]> (head_block s) = head_block s.
Proof. intros ->. apply list_insert_id, list_head. Qed.
End remove.

Lemma nodup_without {A} (l1 : list A) a l2 : NoDup (l1 ++ a :: l2) → NoDup (l1 ++ l2) ∧ NoDup l1 ∧ NoDup l2.
Proof. rewrite !NoDup_app, NoDup_cons. set_solver. Qed.

Lemma RemoveBlock_run L s (i : nat) l1 a l2 :
  lists_ok L → links (words s) (head_block s) L → L !! i = Some (l1 ++ a :: l2) →
  ∃ s', RemoveBlock i a s = Done (tt, s') ∧ links (words s') (head_block s') (<[i := l1 ++ l2]> L) ∧ relinked L s s'.
Proof.
  intros Hok Hlk Hi. pose proof (list_dll L s Hlk i _ Hi) as Hd.
  pose proof (lo_nodup L Hok i _ Hi) as Hnd. pose proof (lo_align L Hok i _ Hi) as Hal.
  pose proof (list_index L i _ Hi) as Hlt. pose proof (heads_length L s Hlk) as Hhl.
  pose proof (list_head L s Hlk i _ Hi) as Hhd.
  assert (∀ c, c ∈ l1 ++ a :: l2 → c ≠ NULL) as Hnn by (intros c; by apply (lo_nonnull L Hok i)).
  apply nodup_without in Hnd as (Hnd & Hnd1 & Hnd2).
  apply Forall_app in Hal as [Hal1 Hal2]. apply Forall_cons in Hal2 as [Hala Hal2].
  unfold dll in Hd. apply dseg_app in Hd as [D1 (Dn & Dp & D2)].
  change (first (a :: l2) NULL) with a in D1.
  unfold RemoveBlock, get_prev, get_next. rewrite (M_bind_done _ _ _ _ _ (rd_run _ _ _ Dp)).
  rewrite (M_bind_done _ _ _ _ _ (rd_run _ _ _ Dn)).
  destruct (split_last l1) as [->|(l0 & z & ->)], l2 as [|y l2].
  - (* the only block *)
    rewrite decide_True by done. rewrite (M_bind_done _ _ _ _ _ (get_head_run _ _ _ Hhd)).
    rewrite bool_decide_true by done. rewrite (M_bind_done _ _ s tt s) by done. rewrite set_head_run by lia.
    eexists. split; [done|]. pose proof (relink L Hok s Hlk i _ Hi (words s) []) as Hr.
    cbn zeta in Hr. by apply Hr.
  - (* the head of a longer list *)
    assert (y ≠ NULL) as Hy by (apply Hnn; set_solver).
    rewrite decide_False by (intros [_ H]; done). rewrite decide_True by done.
    rewrite (M_bind_done _ _ _ _ _ (set_head_run s i _ ltac:(lia))).
    pose proof D2 as (_ & Dy & _). unfold set_prev. rewrite wr_run by (simpl; by eexists).
    eexists. split; [done|].
    apply (relink L Hok s Hlk i _ Hi (<[y + 8 := NULL]> (words s)) (y :: l2)).
    + by apply (dseg_set_prev _ a).
    + apply dom_write. by eexists.
    + intros x Hx. apply lookup_insert_ne. destruct (Hx y); [set_solver|]. lia.
  - (* the last block *)
    assert (z ≠ NULL) as Hz by (apply Hnn; set_solver). rewrite final_snoc.
    rewrite !decide_False by (intros H; destruct_and?; done). rewrite decide_True by done.
    pose proof D1 as D1'. apply dseg_app in D1' as [_ (Dz & _)].
    unfold set_next. rewrite wr_run by (by eexists). eexists. split; [done|]. rewrite app_nil_r.
    rewrite <- (head_same L s Hlk i _ Hi (l0 ++ [z])) by (rewrite <- app_assoc; by rewrite !first_app).
    apply (relink L Hok s Hlk i _ Hi (<[z + 4 := NULL]> (words s)) (l0 ++ [z])).
    + by apply (dseg_set_next _ _ _ _ a).
    + apply dom_write. by eexists.
    + intros x Hx. apply lookup_insert_ne. destruct (Hx z); [set_solver|]. lia.
  - (* in the middle *)
    assert (z ≠ NULL) as Hz by (apply Hnn; set_solver). assert (y ≠ NULL) as Hy by (apply Hnn; set_solver).
    change (first (y :: l2) NULL) with y. rewrite final_snoc. rewrite !decide_False by (intros H; destruct_and?; done).
    pose proof D1 as D1'. apply dseg_app in D1' as [_ (Dz & _)]. pose proof D2 as (_ & Dy & _).
    assert (z `mod` 8 = 0) by (apply Forall_app in Hal1 as [_ H]; by rewrite Forall_singleton in H).
    assert (y `mod` 8 = 0) by (by apply Forall_cons in Hal2 as [H' _]).
    unfold set_next, set_prev. rewrite (M_bind_done _ _ _ _ _ (wr_run s (z + 4) y ltac:(by eexists))).
    set (m1 := <[z + 4 := y]> (words s)).
    assert (is_Some (m1 !! (y + 8))) as Hy' by (unfold m1; rewrite lookup_insert_ne by lia; by eexists).
    rewrite wr_run by done. eexists. split; [done|]. simpl.
    rewrite <- (head_same L s Hlk i _ Hi ((l0 ++ [z]) ++ y :: l2)) by (rewrite <- !app_assoc; by rewrite !first_app).
    pose proof (relink L Hok s Hlk i _ Hi (<[y + 8 := z]> m1) ((l0 ++ [z]) ++ y :: l2)) as HR.
    cbn zeta beta in HR. apply HR; clear HR.
    + apply dseg_app. rewrite final_snoc.
      assert (∀ c, c ∈ l0 ++ [z] → c ∉ y :: l2) as Hdis by (by apply NoDup_app in Hnd as (_ & ? & _)).
      unfold aligned in Hal1, Hal2. pose proof Hal1 as Hal1'. pose proof Hal2 as Hal2'.
      rewrite Forall_forall in Hal1', Hal2'. split.
      * eapply dseg_frame; [|by apply (dseg_set_next _ _ _ _ a _ Hnd1 Hal1 D1)].
        intros c Hc. specialize (Hal1' c Hc). fold m1.
        rewrite !(lookup_insert_ne m1); [done| |lia]. intros Heq. apply (Hdis c Hc). replace c with y by lia. set_solver.
      * apply (dseg_set_prev _ a); [done..|]. eapply dseg_frame; [|exact D2]. intros c Hc. specialize (Hal2' c Hc).
        unfold m1. rewrite !lookup_insert_ne; [done|lia|]. intros Heq. apply (Hdis z); [set_solver|]. by replace z with c by lia.
    + rewrite dom_write by done. unfold m1. by rewrite dom_write by (by eexists).
    + intros x Hx. unfold m1. rewrite !lookup_insert_ne; [done|destruct (Hx z); [set_solver|]; lia|destruct (Hx y); [set_solver|]; lia].
Qed.

Lemma AddFront_run L s (i : nat) l a :
  lists_ok L → links (words s) (head_block s) L → L !! i = Some l → a `mod` 8 = 0 → a ≠ NULL →
  (∀ (j : nat) l', L !! j = Some l' → a ∉ l') → is_Some (words s !! (a + 4)) → is_Some (words s !! (a + 8)) →
  ∃ s', (∀ A (k : M kheap A), (set_prev a NULL;; h ← get_head i; set_next a h;;
         (if decide (h ≠ NULL) then set_prev h a else mret tt);; set_head i a;; k) s = k s') ∧
    links (words s') (head_block s') (<[i := a :: l]> L) ∧ relinked (<[i := a :: l]> L) s s'.
Proof.
  intros Hok Hlk Hi Ha Hnn Hout [v4 H4] [v8 H8].
  pose proof (list_dll L s Hlk i _ Hi) as Hd. pose proof (lo_nodup L Hok i _ Hi) as Hnd.
  pose proof (lo_align L Hok i _ Hi) as Hal. pose proof (list_index L i _ Hi) as Hlt.
  pose proof (heads_length L s Hlk) as Hhl. pose proof (list_head L s Hlk i _ Hi) as Hhd.
  set (m1 := <[a + 8 := NULL]> (words s)). set (s1 := {| s with words := m1 |}).
  assert (is_Some (m1 !! (a + 4))) as H4' by (unfold m1; rewrite lookup_insert_ne by lia; by eexists).
  set (m2 := <[a + 4 := first l NULL]> m1). set (s2 := {| s with words := m2 |}).
  set (m3 := match l with [] => m2 | y :: _ => <[y + 8 := a]> m2 end).
  assert (∀ c, c ∈ l → c ≠ a) as Hca by (intros c Hc ->; by eapply Hout).
  assert (∀ c, c ∈ l → c `mod` 8 = 0) as Hc8 by (unfold aligned in Hal; by rewrite Forall_forall in Hal).
  exists {| s with words := m3; head_block := <[i := a]> (head_block s) |}. split.
  { intros A k. unfold set_prev, set_next. rewrite (M_bind_done _ _ _ _ _ (wr_run s (a + 8) NULL ltac:(by eexists))).
    rewrite (M_bind_done _ _ _ _ _ (get_head_run s1 _ _ Hhd)).
    rewrite (M_bind_done _ _ _ _ _ (wr_run s1 _ _ H4')). simpl. fold m2 s2.
    rewrite (M_bind_done _ _ s2 tt {| s with words := m3 |});
      [by rewrite (M_bind_done _ _ _ _ _ (set_head_run {| s with words := m3 |} i a ltac:(simpl; lia)))|].     unfold m3. destruct l as [|y l]; [done|]. pose proof Hd as (_ & Dy & _).
       assert (y ≠ NULL) by (apply (lo_nonnull L Hok i _ y Hi); set_solver).
       change (first (y :: l) NULL) with y. rewrite decide_True by done.
       rewrite wr_run; [done|]. simpl. unfold m2, m1.
       assert (y ≠ a) by (apply Hca; set_solver). assert (y `mod` 8 = 0) by (apply Hc8; set_solver).
       rewrite !lookup_insert_ne by lia. by eexists. }
  assert (dll m3 (a :: l)) as Hd3.
  { assert (m3 !! (a + 4) = Some (first l NULL) ∧ m3 !! (a + 8) = Some NULL) as [E4 E8].
    { unfold m3, m2, m1. destruct l as [|y l].
      - rewrite lookup_insert_eq, lookup_insert_ne, lookup_insert_eq by lia. done.
      - assert (y ≠ a) by (apply Hca; set_solver). assert (y `mod` 8 = 0) by (apply Hc8; set_solver).
        rewrite !(lookup_insert_ne _ (y + 8)) by lia.
        rewrite lookup_insert_eq, lookup_insert_ne, lookup_insert_eq by lia. done. }
    split_and!; [done|done|]. unfold m3. destruct l as [|y l]; [done|].
    apply (dseg_set_prev _ NULL); [done..|]. eapply dseg_frame; [|exact Hd]. intros c Hc.
    specialize (Hca c Hc). specialize (Hc8 c Hc). unfold m2, m1. rewrite !lookup_insert_ne by lia. done. }
  assert (∀ x, (∀ c, c ∈ a :: l → x ≠ c + 4 ∧ x ≠ c + 8) → m3 !! x = words s !! x) as Hx3.
  { intros x Hx. destruct (Hx a) as [? ?]; [set_solver|]. unfold m3. destruct l as [|y l].
    - unfold m2, m1. by rewrite !lookup_insert_ne by lia.
    - destruct (Hx y) as [? ?]; [set_solver|]. unfold m2, m1. by rewrite !lookup_insert_ne by lia. }
  split.
  - apply (links_insert (words s) _ _ L i (a :: l)); [done|done|done|done|].
    intros j lj c Hj Hne Hc. assert (c ≠ a) as Hc' by (intros ->; by eapply Hout).
    assert (c `mod` 8 = 0) as Hcm.
    { pose proof (lo_align L Hok j lj Hj) as Hj8. unfold aligned in Hj8. rewrite Forall_forall in Hj8. by apply Hj8. }
    rewrite !Hx3; [done|..]; intros z [->|Hz]%elem_of_cons; try lia;
      destruct (other_list_frame L i j l lj z c Hok Hi Hj Hne Hz Hc) as [[] []]; lia.
  - split.
    + intros x Hx. apply Hx3. intros c Hc. apply (Hx i (a :: l) c); [|done]. by apply list_lookup_insert_eq.
    + simpl. unfold m3. assert (dom m2 = dom (words s)) as E2.
      { unfold m2. rewrite dom_write by done. unfold m1. by rewrite dom_write by (by eexists). }
      destruct l as [|y l]; [done|]. rewrite dom_write; [done|]. apply elem_of_dom. rewrite E2.
      apply elem_of_dom. pose proof Hd as (_ & Dy & _). by eexists.
    + simpl. by rewrite length_insert.
    + done.
Qed.
