(* ===== verification/KernelHeapBlocks.v ===== *)
(** * Blocks of the kernel heap: tags, merging and splitting

    Each operation of mem/heap.c on blocks is run against the invariant of
    [KernelHeapInv]: reading and writing tags, joining neighbours, cutting a
    block in two. *)

From S2P Require Import Prelude KernelHeap KernelHeapInv.

#[local] Ltac Zify.zify_post_hook ::= Z.to_euclidean_division_equations.

(** ** The header word *)
Lemma testbit_low_3 (i : Z) : 0 ≤ i → Z.testbit 3 i = bool_decide (i < 2).
Proof.
  intros Hi. change 3 with (Z.ones 2). destruct (decide (i < 2)).
  - rewrite Z.ones_spec_low by lia. symmetry. by apply bool_decide_true.
  - rewrite Z.ones_spec_high by lia. symmetry. by apply bool_decide_false.
Qed.
Lemma testbit_mult8 n i : n `mod` 8 = 0 → 0 ≤ i < 3 → Z.testbit n i = false.
Proof.
  intros Hn Hi. replace n with (n / 8 * 2 ^ 3) by lia. rewrite Z.mul_pow2_bits_low by lia. done.
Qed.

(** [(w & 3) | n] keeps the flags of [w] and has the size [n]. *)
Lemma header_size w n : n `mod` 8 = 0 → Z.land (Z.lor (Z.land w 3) n) (Z.lnot 3) = n.
Proof.
  intros Hn. apply Z.bits_inj'. intros i Hi. rewrite Z.land_spec, Z.lor_spec, Z.land_spec, Z.lnot_spec by done.
  rewrite testbit_low_3 by done. destruct (decide (i < 2)).
  - rewrite bool_decide_true by done. rewrite (testbit_mult8 n i) by lia. by rewrite andb_false_r.
  - rewrite bool_decide_false by done. by rewrite andb_false_r, andb_true_r.
Qed.
Lemma header_flag w n : n `mod` 8 = 0 → Z.testbit (Z.lor (Z.land w 3) n) 0 = Z.testbit w 0.
Proof.
  intros Hn. rewrite Z.lor_spec, Z.land_spec, (testbit_mult8 n 0) by lia. by rewrite andb_true_r, orb_false_r.
Qed.
Lemma free_size w : Z.land (Z.land w (Z.lnot 1)) (Z.lnot 3) = Z.land w (Z.lnot 3).
Proof. rewrite <- Z.land_assoc. done. Qed.
Lemma free_flag w : Z.testbit (Z.land w (Z.lnot 1)) 0 = false.
Proof. rewrite Z.land_spec. by rewrite andb_false_r. Qed.
Lemma alloc_size w : Z.land (Z.lor w 1) (Z.lnot 3) = Z.land w (Z.lnot 3).
Proof. rewrite Z.land_lor_distr_l. change (Z.land 1 (Z.lnot 3)) with 0. by rewrite Z.lor_0_r. Qed.
Lemma alloc_flag w : Z.testbit (Z.lor w 1) 0 = true.
Proof. rewrite Z.lor_spec. by rewrite orb_true_r. Qed.

(** ** Reading and writing tags *)
Definition wset (m : gmap Z Z) (s : kheap) : kheap := {| s with words := m |}.

Lemma GetSize_run s a b P : tag (words s) a b P → bsize b `mod` 8 = 0 → GetSize a s = Done (bsize b, s).
Proof.
  intros [(w & Hw & Hsz & _) Ht] H8. unfold GetSize. rewrite (M_bind_done _ _ _ _ _ (rd_run _ _ _ Hw)). rewrite Hsz.
  replace (a + (bsize b / 4 - 1) * 4) with (a + bsize b - 4) by lia.
  rewrite (M_bind_done _ _ _ _ _ (rd_run _ _ _ Ht)). by rewrite bool_decide_true.
Qed.
Lemma IsAllocated_run s a b P : tag (words s) a b P → P → IsAllocated a s = Done (flag (bkind b), s).
Proof.
  intros [(w & Hw & _ & Hf) _] HP. unfold IsAllocated. rewrite (M_bind_done _ _ _ _ _ (rd_run _ _ _ Hw)).
  by rewrite Hf.
Qed.
Definition size_words (m : gmap Z Z) (a w n : Z) : gmap Z Z := <[a + n - 4 := n]> (<[a := Z.lor (Z.land w 3) n]> m).
Lemma SetSizeTags_run s a n w :
  words s !! a = Some w → is_Some (words s !! (a + n - 4)) → n `mod` 8 = 0 →
  SetSizeTags a n s = Done (tt, wset (size_words (words s) a w n) s).
Proof.
  intros Hw Ht Hn. unfold SetSizeTags. rewrite (M_bind_done _ _ _ _ _ (rd_run _ _ _ Hw)).
  rewrite (M_bind_done _ _ _ _ _ (wr_run s a _ ltac:(by eexists))).
  replace (a + (n / 4 - 1) * 4) with (a + n - 4) by lia. rewrite wr_run; [done|]. simpl.
  destruct (decide (a = a + n - 4)) as [<-|]; [rewrite lookup_insert_eq; by eexists|].
  by rewrite lookup_insert_ne.
Qed.
Lemma MarkFree_run s a w : words s !! a = Some w →
  MarkFree a s = Done (tt, wset (<[a := Z.land w (Z.lnot 1)]> (words s)) s).
Proof. intros Hw. unfold MarkFree. rewrite (M_bind_done _ _ _ _ _ (rd_run _ _ _ Hw)). rewrite wr_run; [done|by eexists]. Qed.
Lemma MarkAllocated_run s a w : words s !! a = Some w →
  MarkAllocated a s = Done (tt, wset (<[a := Z.lor w 1]> (words s)) s).
Proof. intros Hw. unfold MarkAllocated. rewrite (M_bind_done _ _ _ _ _ (rd_run _ _ _ Hw)). rewrite wr_run; [done|by eexists]. Qed.

(** ** Frames: a word inside one block is no tag of another. *)
Section frames.
Context (B : heap_map) (HB : geometry B).

Lemma inside_tag a b x b' x' :
  B !! a = Some b → B !! x = Some b' → a ≠ x → x ≤ x' < x + bsize b' → x' ≠ a ∧ x' ≠ a + bsize b - 4.
Proof.
  intros Ha Hx Hne Hin. pose proof (block_size_pos B HB _ _ Ha).
  split; intros ->; apply Hne; eapply (same_block B HB a b x b'); eauto; lia.
Qed.
Lemma tag_write m a b x b' x' v P :
  B !! a = Some b → B !! x = Some b' → a ≠ x → x ≤ x' < x + bsize b' → tag m a b P → tag (<[x' := v]> m) a b P.
Proof.
  intros Ha Hx Hne Hin [(w & Hw & R) Ht]. destruct (inside_tag a b x b' x' Ha Hx Hne Hin).
  split; [exists w|]; by rewrite lookup_insert_ne.
Qed.

(** Writing the flag of the open block. *)
Lemma tags_header m a b w' :
  B !! a = Some b → tags m B a → Z.land w' (Z.lnot 3) = bsize b → Z.testbit w' 0 = flag (bkind b) →
  tags (<[a := w']> m) B 0.
Proof.
  intros Ha Ht Hs Hf c cb Hc. pose proof (block_size_pos B HB _ _ Ha). destruct (decide (c = a)) as [->|Hne].
  - assert (cb = b) as -> by congruence. destruct (Ht a b Ha) as [_ Htr].
    split; [exists w'; rewrite lookup_insert_eq; done|]. by rewrite lookup_insert_ne by lia.
  - eapply (tag_write m c cb a b a w'); [done..|lia|]. destruct (Ht c cb Hc) as [(w & ? & ? & Hfl) ?].
    split; [|done]. exists w. split; [done|]. split; [done|]. intros _. by apply Hfl.
Qed.

(** A link write keeps every tag. *)
Lemma tags_link m c cb x v ex :
  B !! c = Some cb → 16 ≤ bsize cb → x = c + 4 ∨ x = c + 8 → tags m B ex → tags (<[x := v]> m) B ex.
Proof.
  intros Hc H16 Hx Ht a b Ha. destruct (link_not_tag B HB c cb a b x Hc H16 Hx Ha).
  destruct (Ht a b Ha) as [(w & Hw & R) Htr]. split; [exists w|]; by rewrite lookup_insert_ne.
Qed.

Definition members_ok (L : list (list Z)) : Prop := ∀ (i : nat) l c,
  L !! i = Some l → c ∈ l → ∃ cb, B !! c = Some cb ∧ bkind cb = Free.

Lemma member_size L (i : nat) l c : members_ok L → L !! i = Some l → c ∈ l →
  ∃ cb, B !! c = Some cb ∧ bkind cb = Free ∧ 16 ≤ bsize cb.
Proof.
  intros HL Hi Hc. destruct (HL i l c Hi Hc) as (cb & Hcb & Hk). exists cb. split_and!; [done..|].
  apply (bo_min _ _ (ge_ok B HB _ _ Hcb)). by rewrite Hk.
Qed.

Lemma tags_relinked L s s' ex : members_ok L → relinked L s s' → tags (words s) B ex → tags (words s') B ex.
Proof.
  intros HL Hr Ht a b Ha. destruct (Ht a b Ha) as [(w & Hw & R) Htr].
  assert (∀ x, x = a ∨ x = a + bsize b - 4 → words s' !! x = words s !! x) as Hx.
  { intros x Hx. apply (rl_words _ _ _ Hr). intros i l c Hi Hc.
    destruct (member_size L i l c HL Hi Hc) as (cb & Hcb & _ & H16).
    destruct (link_not_tag B HB c cb a b (c + 4)); [done|done|lia|done|].
    destruct (link_not_tag B HB c cb a b (c + 8)); [done|done|lia|done|]. lia. }
  split; [exists w|]; rewrite Hx by lia; done.
Qed.

(** Words of allocated memory. *)
Definition user_kept (s s' : kheap) : Prop := ∀ a b x,
  B !! a = Some b → bkind b = Used → a + 4 ≤ x < a + bsize b - 4 → words s' !! x = words s !! x.

Lemma user_kept_relinked L s s' : members_ok L → relinked L s s' → user_kept s s'.
Proof.
  intros HL Hr a b x Ha Hk Hx. apply (rl_words _ _ _ Hr). intros i l c Hi Hc.
  destruct (member_size L i l c HL Hi Hc) as (cb & Hcb & Hf & H16).
  assert (a ≤ x < a + bsize b ∧ (x = c + 4 ∨ x = c + 8) → False) as Hno; [|split; intros ->; apply Hno; lia].
  intros [? ?]. assert (a = c) as -> by (apply (same_block B HB a b c cb x); (done || lia)). congruence.
Qed.
Lemma user_kept_write s x x' b' v m :
  B !! x = Some b' → bkind b' ≠ Used → x ≤ x' < x + bsize b' → words s = m → user_kept s (wset (<[x' := v]> m) s).
Proof.
  intros Hx Hk Hin <- a b y Ha Hu Hy. simpl. apply lookup_insert_ne. intros ->.
  assert (a = x) as -> by (apply (same_block B HB a b x b' y); (done || lia)). congruence.
Qed.
Lemma user_kept_header s x b' v : B !! x = Some b' → user_kept s (wset (<[x := v]> (words s)) s).
Proof.
  intros Hx a b y Ha Hu Hy. simpl. apply lookup_insert_ne. intros ->. pose proof (block_size_pos B HB _ _ Hx).
  assert (a = y) by (apply (same_block B HB a b y b' y); (done || lia)). lia.
Qed.
End frames.

Lemma user_kept_trans B s1 s2 s3 : user_kept B s1 s2 → user_kept B s2 s3 → user_kept B s1 s3.
Proof. intros H1 H2 a b x Ha Hk Hx. rewrite (H2 a b x), (H1 a b x); done. Qed.
Lemma user_kept_sub B B' s s' :
  (∀ a b, B !! a = Some b → bkind b = Used → B' !! a = Some b) → user_kept B' s s' → user_kept B s s'.
Proof. intros Hs H a b x Ha Hk Hx. apply (H a b x); [by apply Hs|done..]. Qed.

(** ** The invariant *)
Record heap_inv (s : kheap) (B : heap_map) (L : list (list Z)) (ex : Z) : Prop := {
  hi_geometry : geometry B;
  hi_merged : merged B;
  hi_tags : tags (words s) B ex;
  hi_mapped : mapped (words s) B;
  hi_links : links (words s) (head_block s) L;
  hi_classes : classes B L;
}.

Lemma classes_members B L : classes B L → members_ok B L.
Proof. intros H i l c Hi Hc. destruct (cl_sound B L H i l c Hi Hc) as (b & ? & ? & _). eauto. Qed.

(** Nothing but words and heads changed. *)
Definition same_rest (s s' : kheap) : Prop := s' = {| s with words := words s'; head_block := head_block s' |}.
Lemma same_rest_trans s1 s2 s3 : same_rest s1 s2 → same_rest s2 s3 → same_rest s1 s3.
Proof. unfold same_rest. intros H1 H2. rewrite H2, H1. done. Qed.
Lemma same_rest_wset s m : same_rest s (wset m s).
Proof. done. Qed.

(** ** Freeing a block between allocated neighbours *)
Definition rekind (k : kind) (b : blk) : blk := {| b with bkind := k |}.

Lemma geometry_rekind B a b k :
  geometry B → B !! a = Some b → is_fence (bkind b) = false → is_fence k = false →
  geometry (<[a := rekind k b]> B).
Proof.
  intros HB Ha Hb Hk.
  assert (∀ x c, <[a := rekind k b]> B !! x = Some c → ∃ c0, B !! x = Some c0 ∧ bsize c0 = bsize c ∧
    bspan c0 = bspan c ∧ is_fence (bkind c0) = is_fence (bkind c) ∧ (bkind c ≠ LeftFence → bkind c0 ≠ LeftFence) ∧
    (bkind c ≠ RightFence → bkind c0 ≠ RightFence)) as Hback.
  { intros x c Hx. destruct (decide (x = a)) as [->|Hne].
    - rewrite lookup_insert_eq in Hx. injection Hx as <-. exists b. split_and!; [done..|simpl; congruence| |];
        intros _ E; rewrite E in Hb; done.
    - rewrite lookup_insert_ne in Hx by done. by exists c. }
  assert (∀ x c0, B !! x = Some c0 → ∃ c, <[a := rekind k b]> B !! x = Some c ∧ bsize c = bsize c0 ∧ bspan c = bspan c0) as Hfwd.
  { intros x c0 Hx. destruct (decide (x = a)) as [->|Hne].
    - rewrite lookup_insert_eq. assert (c0 = b) as -> by congruence. by exists (rekind k b).
    - rewrite lookup_insert_ne by done. by exists c0. }
  split.
  - intros x c Hx. destruct (Hback x c Hx) as (c0 & H0 & E1 & E2 & E3 & _).
    destruct (ge_ok B HB x c0 H0). rewrite E1, E2, E3 in *. by split.
  - intros x c x' c' Hx Hx' Hne. destruct (Hback x c Hx) as (c0 & H0 & <- & _). destruct (Hback x' c' Hx') as (c0' & H0' & <- & _).
    by apply (ge_disj B HB).
  - intros x c Hx Hr. destruct (Hback x c Hx) as (c0 & H0 & <- & <- & _ & _ & Hr').
    destruct (ge_next B HB x c0 H0 (Hr' Hr)) as (d & Hd & Es). destruct (Hfwd _ _ Hd) as (d' & Hd' & _ & Es').
    exists d'. split; [done|congruence].
  - intros x c Hx Hl. destruct (Hback x c Hx) as (c0 & H0 & _ & <- & _ & Hl' & _).
    destruct (ge_prev B HB x c0 H0 (Hl' Hl)) as (p & pb & Hp & Ep & Es). destruct (Hfwd _ _ Hp) as (p' & Hp' & E1 & E2).
    exists p, p'. split; [done|]. split; [lia|congruence].
Qed.

Lemma used_not_fence b : bkind b = Used → is_fence (bkind b) = false.
Proof. by intros ->. Qed.
Lemma free_not_fence b : bkind b = Free → is_fence (bkind b) = false.
Proof. by intros ->. Qed.
Lemma flag_used b : bkind b ≠ Free → flag (bkind b) = true.
Proof. intros. by apply bool_decide_true. Qed.

Lemma class_nat s : 8 ≤ s ≤ BOOTSTRAP_SIZE → ∃ i : nat, class s = i ∧ (i < TOTAL_NUM_FREE_LISTS)%nat.
Proof.
  intros Hs. destruct (class_spec s Hs) as [Hr _]. exists (Z.to_nat (class s)). unfold TOTAL_NUM_FREE_LISTS. lia.
Qed.

(** User sizes are in the range the class table covers. *)
Lemma user_size B a b : geometry B → B !! a = Some b → is_fence (bkind b) = false → 8 ≤ bsize b - 8 ≤ BOOTSTRAP_SIZE.
Proof.
  intros HB Ha Hf. pose proof (bo_min _ _ (ge_ok B HB _ _ Ha) Hf). pose proof (size_small B HB _ _ Ha). lia.
Qed.

Lemma classes_add B L a b (i : nat) l :
  classes B L → B !! a = Some b → bkind b ≠ Free → class (bsize b - 8) = i → L !! i = Some l →
  classes (<[a := rekind Free b]> B) (<[i := a :: l]> L).
Proof.
  intros [HL Hs Hc Hn] Ha Hk Hi Hl. assert (∀ (j : nat) l', L !! j = Some l' → a ∉ l') as Hout.
  { intros j l' Hj Hin. destruct (Hs j l' a Hj Hin) as (c & Hc' & Hf & _). congruence. }
  assert (i < length L)%nat as Hlt by (by eapply lookup_lt_Some). split.
  - by rewrite length_insert.
  - intros j l' c Hj Hin. destruct (decide (c = a)) as [->|Hne].
    + rewrite lookup_insert_eq. exists (rekind Free b). split; [done|]. split; [done|]. simpl.
      destruct (decide (i = j)) as [<-|Hij]; [done|]. rewrite list_lookup_insert_ne in Hj by done. by apply Hout in Hj.
    + rewrite lookup_insert_ne by done. destruct (decide (i = j)) as [<-|Hij].
      * rewrite list_lookup_insert_eq in Hj by done. injection Hj as <-. apply (Hs i l c Hl). set_solver.
      * rewrite list_lookup_insert_ne in Hj by done. by apply (Hs j l' c).
  - intros c cb Hcb Hf. destruct (decide (c = a)) as [->|Hne].
    + rewrite lookup_insert_eq in Hcb. injection Hcb as <-. exists i, (a :: l). split; [done|].
      split; [by apply list_lookup_insert_eq|set_solver].
    + rewrite lookup_insert_ne in Hcb by done. destruct (Hc c cb Hcb Hf) as (j & l' & Ej & Hj & Hin).
      destruct (decide (i = j)) as [<-|Hij].
      * exists i, (a :: l). split; [done|]. split; [by apply list_lookup_insert_eq|]. assert (l' = l) as -> by congruence. set_solver.
      * exists j, l'. split; [done|]. split; [by rewrite list_lookup_insert_ne|done].
  - intros j l' Hj. destruct (decide (i = j)) as [<-|Hij].
    + rewrite list_lookup_insert_eq in Hj by done. injection Hj as <-. apply NoDup_cons. split; [by eapply Hout|by eapply Hn].
    + rewrite list_lookup_insert_ne in Hj by done. by eapply Hn.
Qed.

Lemma merged_free B a b :
  merged B → B !! a = Some b → 0 < bsize b →
  (∀ p pb, B !! p = Some pb → p + bsize pb = a → bkind pb ≠ Free) →
  (∀ nb, B !! (a + bsize b) = Some nb → bkind nb ≠ Free) →
  merged (<[a := rekind Free b]> B).
Proof.
  intros Hm Ha Hpos Hp Hn x c c' Hx Hf Hx' Hf'. destruct (decide (x = a)) as [->|Hne].
  - rewrite lookup_insert_eq in Hx. injection Hx as <-. simpl in Hx'.
    rewrite lookup_insert_ne in Hx' by lia. by apply (Hn c').
  - rewrite lookup_insert_ne in Hx by done. destruct (decide (x + bsize c = a)) as [Heq|Hne'].
    + by apply (Hp x c).
    + rewrite lookup_insert_ne in Hx' by done. by apply (Hm x c c').
Qed.

(** The neighbours of a block, as the code finds them. *)
Lemma neighbours s B a b ex :
  geometry B → tags (words s) B ex → B !! a = Some b → is_fence (bkind b) = false → ex = a ∨ ex = 0 →
  ∃ p pb nb, B !! p = Some pb ∧ p + bsize pb = a ∧ B !! (a + bsize b) = Some nb ∧
    bspan pb = bspan b ∧ bspan nb = bspan b ∧ p ≠ a ∧
    rd (a - 4) s = Done (bsize pb, s) ∧ a - bsize pb / 4 * 4 = p ∧ a + bsize b / 4 * 4 = a + bsize b ∧
    IsAllocated p s = Done (flag (bkind pb), s) ∧ IsAllocated (a + bsize b) s = Done (flag (bkind nb), s).
Proof.
  intros HB Ht Ha Hf Hex. destruct (ge_prev B HB a b Ha) as (p & pb & Hp & Ep & Es); [by intros E; rewrite E in Hf|].
  destruct (ge_next B HB a b Ha) as (nb & Hn & Es'); [by intros E; rewrite E in Hf|].
  pose proof (block_size_pos B HB _ _ Ha). pose proof (block_size_pos B HB _ _ Hp).
  pose proof (bo_size8 _ _ (ge_ok B HB _ _ Ha)). pose proof (bo_size8 _ _ (ge_ok B HB _ _ Hp)).
  pose proof (bo_pos _ _ (ge_ok B HB _ _ Hp)).
  destruct (Ht p pb Hp) as [Hh Htr] eqn:Etag. clear Etag.
  exists p, pb, nb. split_and!; [done..|lia| |lia|lia| |].
  - apply rd_run. replace (a - 4) with (p + bsize pb - 4) by lia. done.
  - eapply IsAllocated_run; [exact (Ht p pb Hp)|lia].
  - eapply IsAllocated_run; [exact (Ht _ nb Hn)|lia].
Qed.

Lemma AddBlock_plain (fuel : nat) s B L a b :
  heap_inv s B L a → B !! a = Some b → bkind b = Used →
  (∀ p pb, B !! p = Some pb → p + bsize pb = a → bkind pb ≠ Free) →
  (∀ nb, B !! (a + bsize b) = Some nb → bkind nb ≠ Free) →
  ∃ s' L', AddBlock (S fuel) a s = Done (a, s') ∧ heap_inv s' (<[a := rekind Free b]> B) L' 0 ∧
    user_kept (<[a := rekind Free b]> B) s s' ∧ same_rest s s' ∧ dom (words s') = dom (words s).
Proof.
  intros [HB Hm Ht Hmp Hlk Hcl] Ha Hk Hpf Hnf. pose proof (used_not_fence b Hk) as Hnfc.
  pose proof (user_size B a b HB Ha Hnfc) as Hus. destruct (ge_ok B HB a b Ha) as [Hpos Hal H8 _ Hmin _ _ _].
  specialize (Hmin Hnfc).
  destruct (neighbours s B a b a HB Ht Ha Hnfc ltac:(by left)) as
    (p & pb & nb & Hp & Ep & Hn & _ & _ & Hpa & Erd & Eprev & Enext & Eal & Ean).
  destruct (class_nat (bsize b - 8) Hus) as (i & Hi & Hilt).
  destruct (lookup_lt_is_Some_2 L i) as [l Hl]; [by rewrite (cl_length B L Hcl)|].
  set (B' := <[a := rekind Free b]> B). set (L' := <[i := a :: l]> L).
  assert (classes B' L') as Hcl' by (apply classes_add; [done|done|congruence|done|done]).
  assert (geometry B') as HB' by (by apply geometry_rekind).
  assert (B' !! a = Some (rekind Free b)) as Ha' by apply lookup_insert_eq.
  destruct (AddFront_run L s i l a) as (s1 & Erun & Hlk1 & Hrel); try done.
  { by apply (classes_lists_ok B). }
  { unfold NULL. lia. }
  { intros j l' Hj Hin. destruct (cl_sound B L Hcl j l' a Hj Hin) as (c & Hc & Hf & _). congruence. }
  { apply (Hmp a b); [done|lia|lia]. }
  { apply (Hmp a b); [done|lia|lia]. }
  fold L' in Hlk1, Hrel.
  assert (tags (words s) B' a) as Ht'.
  { intros x c Hx. destruct (decide (x = a)) as [->|Hne].
    - rewrite Ha' in Hx. injection Hx as <-. destruct (Ht a b Ha) as [(w & Hw & Hs & _) Htr].
      split; [exists w; split_and!; [done|done|by intros []]|done].
    - unfold B' in Hx. rewrite lookup_insert_ne in Hx by done. by apply Ht. }
  pose proof (tags_relinked B' HB' L' s s1 a (classes_members _ _ Hcl') Hrel Ht') as Ht1.
  destruct (Ht1 a _ Ha') as [(w & Hw & Hws & _) _]. simpl in Hws.
  set (s2 := wset (<[a := Z.land w (Z.lnot 1)]> (words s1)) s1).
  exists s2, L'. split_and!.
  - cbn [AddBlock]. rewrite (M_bind_done _ _ _ _ _ (GetSize_run s a b _ (Ht a b Ha) H8)).
    rewrite (M_bind_done _ _ _ _ _ (GetInsertionIndex_run _ s Hus)). rewrite (M_bind_done _ _ _ _ _ Erd).
    rewrite Eprev, Enext. rewrite (M_bind_done _ _ _ _ _ Eal), (M_bind_done _ _ _ _ _ Ean).
    rewrite (flag_used pb) by (by eapply Hpf). rewrite (flag_used nb) by (by eapply Hnf).
    rewrite Hi, Erun. by rewrite (M_bind_done _ _ _ _ _ (MarkFree_run _ _ _ Hw)).
  - split; [done| | | | |done].
    + apply merged_free; [done|done|lia|done|done].
    + apply (tags_header B' HB' (words s1) a (rekind Free b)); [done|done|by rewrite free_size|by rewrite free_flag].
    + intros x c y Hx Hy Hy4. apply elem_of_dom. cbn [s2 wset words]. rewrite dom_write by (by eexists).
      rewrite (rl_dom _ _ _ Hrel). apply elem_of_dom. destruct (decide (x = a)) as [->|Hne].
      * rewrite Ha' in Hx. injection Hx as <-. by apply (Hmp a b).
      * unfold B' in Hx. rewrite lookup_insert_ne in Hx by done. by apply (Hmp x c).
    + destruct Hlk1 as [Hh Hd]. split; [done|]. rewrite Forall_forall in Hd |- *. intros l' Hl'.
      apply list_elem_of_lookup in Hl' as [j Hj]. eapply dseg_frame; [|apply Hd, list_elem_of_lookup; by exists j].
      intros c Hc. destruct (member_size B' HB' L' j l' c (classes_members _ _ Hcl') Hj Hc) as (cb & Hcb & _ & H16).
      destruct (link_not_tag B' HB' c cb a _ (c + 4) Hcb H16 ltac:(lia) Ha') as [? _].
      destruct (link_not_tag B' HB' c cb a _ (c + 8) Hcb H16 ltac:(lia) Ha') as [? _].
      cbn [s2 wset words]. by rewrite !lookup_insert_ne by done.
  - eapply user_kept_trans; [apply (user_kept_relinked B' HB' L'); [by apply classes_members|done]|].
    eapply user_kept_header; [done|exact Ha'].
  - eapply same_rest_trans; [apply (rl_rest _ _ _ Hrel)|apply same_rest_wset].
  - cbn [s2 wset words]. rewrite dom_write by (by eexists). apply (rl_dom _ _ _ Hrel).
Qed.

(** ** Joining neighbours *)
Definition join (B : heap_map) (x y : Z) (bx b_y : blk) : heap_map :=
  <[x := Blk (bsize bx + bsize b_y) Used (bspan bx)]> (delete y B).

Section join.
Context (B : heap_map) (HB : geometry B).
Context (x : Z) (bx b_y : blk) (Hx : B !! x = Some bx) (Hy : B !! (x + bsize bx) = Some b_y).
Context (Hfx : is_fence (bkind bx) = false) (Hfy : is_fence (bkind b_y) = false).

Lemma join_span : bspan b_y = bspan bx.
Proof.
  destruct (ge_next B HB x bx Hx) as (b' & Hb' & E); [by intros E; rewrite E in Hfx|]. congruence.
Qed.
Lemma join_lookup a : a ≠ x → a ≠ x + bsize bx → join B x (x + bsize bx) bx b_y !! a = B !! a.
Proof. intros H1 H2. unfold join. by rewrite lookup_insert_ne, lookup_delete_ne. Qed.
Lemma join_gone : join B x (x + bsize bx) bx b_y !! (x + bsize bx) = None.
Proof.
  pose proof (block_size_pos B HB _ _ Hx). unfold join. by rewrite lookup_insert_ne, lookup_delete_eq by lia.
Qed.
Lemma join_here : join B x (x + bsize bx) bx b_y !! x = Some (Blk (bsize bx + bsize b_y) Used (bspan bx)).
Proof. apply lookup_insert_eq. Qed.
Lemma join_other a b : a ≠ x → join B x (x + bsize bx) bx b_y !! a = Some b → B !! a = Some b ∧ a ≠ x + bsize bx.
Proof.
  intros Hne Ha. destruct (decide (a = x + bsize bx)) as [->|Hne']; [by rewrite join_gone in Ha|].
  by rewrite join_lookup in Ha.
Qed.

Lemma geometry_join : geometry (join B x (x + bsize bx) bx b_y).
Proof.
  pose proof join_span as Hspan. destruct (ge_ok B HB _ _ Hx) as [X1 X2 X3 _ X5 X6 X7 X8].
  destruct (ge_ok B HB _ _ Hy) as [Y1 Y2 Y3 _ Y5 Y6 Y7 Y8]. specialize (X5 Hfx). specialize (Y5 Hfy). rewrite Hspan in Y6.
  assert (∀ a b, B !! a = Some b → a ≠ x → a ≠ x + bsize bx →
    a + bsize b ≤ x ∨ x + (bsize bx + bsize b_y) ≤ a) as Hout.
  { intros a b Ha H1 H2. pose proof (block_size_pos B HB _ _ Ha).
    destruct (ge_disj B HB a b x bx Ha Hx H1), (ge_disj B HB a b _ b_y Ha Hy H2); lia. }
  split.
  - intros a b Ha. destruct (decide (a = x)) as [->|Hne].
    + rewrite join_here in Ha. injection Ha as <-. split; simpl; try done; lia.
    + apply join_other in Ha as [Ha _]; [|done]. by apply (ge_ok B HB).
  - intros a b a' b' Ha Ha' Hne. destruct (decide (a = x)) as [->|Hax], (decide (a' = x)) as [->|Hax']; try done.
    + rewrite join_here in Ha. injection Ha as <-. apply join_other in Ha' as [Ha' ?]; [|done]. simpl.
      destruct (Hout a' b' Ha'); [done|done|lia|lia].
    + rewrite join_here in Ha'. injection Ha' as <-. apply join_other in Ha as [Ha ?]; [|done]. simpl.
      destruct (Hout a b Ha); [done|done|lia|lia].
    + apply join_other in Ha as [Ha _], Ha' as [Ha' _]; [|done|done]. by apply (ge_disj B HB).
  - intros a b Ha Hk. destruct (decide (a = x)) as [->|Hne].
    + rewrite join_here in Ha. injection Ha as <-. simpl. rewrite Z.add_assoc.
      destruct (ge_next B HB _ _ Hy) as (b' & Hb' & E); [by intros E; rewrite E in Hfy|].
      exists b'. rewrite join_lookup by lia. split; [done|congruence].
    + apply join_other in Ha as [Ha Hney]; [|done]. destruct (ge_next B HB a b Ha Hk) as (b' & Hb' & E).
      destruct (decide (a + bsize b = x)) as [Heq|Hnx].
      * rewrite Heq, join_here. eexists. split; [done|]. simpl. rewrite Heq in Hb'. congruence.
      * exists b'. rewrite join_lookup; [done|done|]. intros Heq. pose proof (block_size_pos B HB _ _ Ha). destruct (Hout a b Ha Hne Hney); lia.
  - intros a b Ha Hk. destruct (decide (a = x)) as [->|Hne].
    + rewrite join_here in Ha. injection Ha as <-.
      destruct (ge_prev B HB x bx Hx) as (p & pb & Hp & Ep & E); [by intros E; rewrite E in Hfx|].
      pose proof (block_size_pos B HB _ _ Hp). exists p, pb. rewrite join_lookup by lia. done.
    + apply join_other in Ha as [Ha Hney]; [|done]. destruct (ge_prev B HB a b Ha Hk) as (p & pb & Hp & Ep & E).
      destruct (decide (p = x + bsize bx)) as [->|Hnp].
      * exists x, (Blk (bsize bx + bsize b_y) Used (bspan bx)). rewrite join_here. split; [done|]. simpl.
        assert (pb = b_y) as -> by congruence. split; [lia|congruence].
      * destruct (decide (p = x)) as [->|Hnx]; [assert (pb = bx) as -> by congruence; lia|].
        exists p, pb. by rewrite join_lookup.
Qed.

Lemma merged_join : merged B → merged (join B x (x + bsize bx) bx b_y).
Proof.
  intros Hm a b b' Ha Hf Hb' Hf'. destruct (decide (a = x)) as [->|Hne].
  - rewrite join_here in Ha. injection Ha as <-. done.
  - apply join_other in Ha as [Ha _]; [|done]. destruct (decide (a + bsize b = x)) as [Heq|Hnx].
    + rewrite Heq, join_here in Hb'. injection Hb' as <-. done.
    + apply join_other in Hb' as [Hb' _]; [|done]. by apply (Hm a b b').
Qed.
Lemma mapped_join m : mapped m B → mapped m (join B x (x + bsize bx) bx b_y).
Proof.
  intros Hm a b z Ha Hz H4. destruct (decide (a = x)) as [->|Hne].
  - rewrite join_here in Ha. injection Ha as <-. simpl in Hz. destruct (decide (z < x + bsize bx)).
    + apply (Hm x bx); [done|lia|done].
    + apply (Hm _ b_y z Hy); [lia|done].
  - apply join_other in Ha as [Ha _]; [|done]. by apply (Hm a b).
Qed.
End join.

(** ** Lists of free blocks under these changes *)
Lemma classes_remove B L n nb (i : nat) l1 l2 :
  classes B L → B !! n = Some nb → L !! i = Some (l1 ++ n :: l2) → classes (delete n B) (<[i := l1 ++ l2]> L).
Proof.
  intros [HL Hs Hc Hn] Hb Hi. assert (i < length L)%nat as Hlt by (by eapply lookup_lt_Some).
  pose proof (Hn i _ Hi) as Hnd. assert (n ∉ l1 ++ l2) as Hnin.
  { apply NoDup_app in Hnd as (_ & Hd & Hnd2). apply NoDup_cons in Hnd2 as [Hn2 _].
    intros [Hin|Hin]%elem_of_app; [|done]. apply (Hd n Hin). set_solver. }
  split.
  - by rewrite length_insert.
  - intros j l c Hj Hin. assert (∃ l', L !! j = Some l' ∧ c ∈ l' ∧ c ≠ n) as (l' & Hj' & Hin' & Hne).
    { destruct (decide (i = j)) as [<-|Hij].
      - rewrite list_lookup_insert_eq in Hj by done. injection Hj as <-. eexists. split; [exact Hi|].
        split; [set_solver|]. by intros ->.
      - rewrite list_lookup_insert_ne in Hj by done. exists l. split_and!; [done..|]. intros ->.
        destruct (Hs j l n Hj Hin) as (c1 & E1 & _ & C1). destruct (Hs i _ n Hi ltac:(set_solver)) as (c2 & E2 & _ & C2).
        assert (c1 = c2) as -> by congruence. lia. }
    rewrite lookup_delete_ne by done. by apply (Hs j l').
  - intros c cb Hcb Hf. apply lookup_delete_Some in Hcb as [Hne Hcb].
    destruct (Hc c cb Hcb Hf) as (j & l & Ej & Hj & Hin). destruct (decide (i = j)) as [<-|Hij].
    + exists i, (l1 ++ l2). split; [done|]. split; [by apply list_lookup_insert_eq|].
      assert (l = l1 ++ n :: l2) as -> by congruence. set_solver.
    + exists j, l. split; [done|]. by rewrite list_lookup_insert_ne.
  - intros j l Hj. destruct (decide (i = j)) as [<-|Hij].
    + rewrite list_lookup_insert_eq in Hj by done. injection Hj as <-. by apply nodup_without in Hnd as [? _].
    + rewrite list_lookup_insert_ne in Hj by done. by eapply Hn.
Qed.
Lemma classes_set B L x bx :
  classes B L → (∀ b, B !! x = Some b → bkind b ≠ Free) → bkind bx ≠ Free → classes (<[x := bx]> B) L.
Proof.
  intros [HL Hs Hc Hn] Hold Hk. split; [done| | |done].
  - intros i l c Hi Hin. destruct (Hs i l c Hi Hin) as (b & Hb & R). exists b. split; [|done].
    rewrite lookup_insert_ne; [done|]. intros ->. destruct R as [Hf _]. by apply (Hold b).
  - intros c cb Hcb Hf. destruct (decide (c = x)) as [->|Hne].
    + rewrite lookup_insert_eq in Hcb. congruence.
    + rewrite lookup_insert_ne in Hcb by done. by apply (Hc c cb).
Qed.
Lemma classes_delete B L x : classes B L → (∀ b, B !! x = Some b → bkind b ≠ Free) → classes (delete x B) L.
Proof.
  intros [HL Hs Hc Hn] Hold. split; [done| | |done].
  - intros i l c Hi Hin. destruct (Hs i l c Hi Hin) as (b & Hb & R). exists b. split; [|done].
    rewrite lookup_delete_ne; [done|]. intros ->. destruct R as [Hf _]. by apply (Hold b).
  - intros c cb Hcb Hf. apply lookup_delete_Some in Hcb as [_ Hcb]. by apply (Hc c cb).
Qed.

(** Taking a free block off its list. The lists hold the free blocks of [D], a
    part of [B]. *)
Lemma unlink_run s B D L n nb ex :
  geometry B → tags (words s) B ex → links (words s) (head_block s) L → classes D L →
  (∀ a b, D !! a = Some b → B !! a = Some b) → D !! n = Some nb → bkind nb = Free →
  ∃ s1 L1, RemoveBlock (class (bsize nb - 8)) n s = Done (tt, s1) ∧ links (words s1) (head_block s1) L1 ∧
    classes (delete n D) L1 ∧ tags (words s1) B ex ∧ user_kept B s s1 ∧ same_rest s s1 ∧ dom (words s1) = dom (words s).
Proof.
  intros HB Ht Hlk Hcl Hsub Hn Hf. destruct (cl_complete D L Hcl n nb Hn Hf) as (i & l & Ei & Hi & Hin).
  apply list_elem_of_split in Hin as (l1 & l2 & ->). rewrite Ei.
  assert (members_ok B L) as Hmem.
  { intros j l c Hj Hc. destruct (cl_sound D L Hcl j l c Hj Hc) as (b & Hb & Hk & _). exists b. split; [by apply Hsub|done]. }
  destruct (RemoveBlock_run L s i l1 n l2) as (s1 & E & Hlk1 & Hrel); [|done|done|].
  { split.
    - intros j l Hj. apply Forall_forall. intros c Hc. destruct (Hmem j l c Hj Hc) as (b & Hb & _). apply (ge_ok B HB _ _ Hb).
    - intros j l c Hj Hc. destruct (Hmem j l c Hj Hc) as (b & Hb & _). pose proof (bo_pos _ _ (ge_ok B HB _ _ Hb)). unfold NULL. lia.
    - apply (cl_nodup D L Hcl).
    - intros j j' l l' c Hj Hj' Hc Hc'. destruct (cl_sound D L Hcl j l c Hj Hc) as (b & Hb & _ & E).
      destruct (cl_sound D L Hcl j' l' c Hj' Hc') as (b' & Hb' & _ & E'). assert (b = b') as <- by congruence. lia. }
  exists s1, (<[i := l1 ++ l2]> L). split_and!; [done|done| | | | |].
  - by apply (classes_remove D L n nb).
  - by apply (tags_relinked B HB L s).
  - by apply (user_kept_relinked B HB L).
  - apply (rl_rest _ _ _ Hrel).
  - apply (rl_dom _ _ _ Hrel).
Qed.

(** ** Writes inside a block that is on no list *)
Section inside.
Context (B : heap_map) (HB : geometry B) (x : Z) (bx : blk) (Hx : B !! x = Some bx).

Lemma links_inside m hs L z v :
  members_ok B L → bkind bx ≠ Free → x ≤ z < x + bsize bx → links m hs L → links (<[z := v]> m) hs L.
Proof.
  intros Hmem Hk Hz [Hh Hd]. split; [done|]. rewrite Forall_forall in Hd |- *. intros l Hl.
  pose proof Hl as Hl'. apply list_elem_of_lookup in Hl' as [j Hj]. eapply dseg_frame; [|by apply Hd].
  intros c Hc. destruct (member_size B HB L j l c Hmem Hj Hc) as (cb & Hcb & Hf & H16).
  assert (∀ y, c ≤ y < c + bsize cb → z ≠ y) as Hne.
  { intros y Hy ->. assert (x = c) as -> by (apply (same_block B HB x bx c cb y); (done || lia)). congruence. }
  rewrite !lookup_insert_ne; [done|apply Hne; lia|apply Hne; lia].
Qed.
Lemma user_kept_inside s s' :
  (∀ z, ¬ (x ≤ z < x + bsize bx) → words s' !! z = words s !! z) → user_kept (delete x B) s s'.
Proof.
  intros Hz a b y Ha Hk Hy. apply lookup_delete_Some in Ha as [Hne Ha]. apply Hz. intros Hin.
  apply Hne. apply (same_block B HB x bx a b y); (done || lia).
Qed.
Lemma mapped_write m z v : is_Some (m !! z) → mapped m B → mapped (<[z := v]> m) B.
Proof.
  intros Hz Hm a b y Ha Hy H4. apply elem_of_dom. rewrite dom_write by done. apply elem_of_dom. by apply (Hm a b).
Qed.
(** A header with the same size keeps the open block's tag. *)
Lemma tags_open m w w' :
  tags m B x → m !! x = Some w → Z.land w' (Z.lnot 3) = Z.land w (Z.lnot 3) → tags (<[x := w']> m) B x.
Proof.
  intros Ht Hw E a b Ha. pose proof (block_size_pos B HB _ _ Hx). destruct (decide (a = x)) as [->|Hne].
  - assert (b = bx) as -> by congruence. destruct (Ht x bx Hx) as [(w0 & Hw0 & Hs & _) Htr].
    split; [exists w'; rewrite lookup_insert_eq; split_and!; [done|congruence|by intros []]|].
    by rewrite lookup_insert_ne by lia.
  - eapply (tag_write B HB m a b x bx x w'); [done..|lia|]. by apply Ht.
Qed.
(** New size tags: the other blocks are blocks of [B0] whose flags are known. *)
Lemma tags_resize B0 m ex w :
  tags m B0 ex → m !! x = Some w →
  (∀ a b, a ≠ x → B !! a = Some b → B0 !! a = Some b ∧ a ≠ ex) → tags (size_words m x w (bsize bx)) B x.
Proof.
  intros Ht Hw Hold a b Ha. pose proof (block_size_pos B HB _ _ Hx). pose proof (bo_size8 _ _ (ge_ok B HB _ _ Hx)).
  unfold size_words. destruct (decide (a = x)) as [->|Hne].
  - assert (b = bx) as -> by congruence. split.
    + eexists. rewrite lookup_insert_ne, lookup_insert_eq by lia. split; [done|].
      split; [by apply header_size|by intros []].
    + by rewrite lookup_insert_eq.
  - destruct (Hold a b Hne Ha) as [Ha0 Hex].
    do 2 (eapply (tag_write B HB _ a b x bx); [done..|lia|]).
    destruct (Ht a b Ha0) as [(w0 & ? & ? & Hf) ?]. split; [exists w0; split_and!; [done|done|by intros; apply Hf]|done].
Qed.
End inside.

(** The writes of [AddBlock] that turn joined blocks into one. *)
Lemma resize_run s B0 B L x bx ex :
  geometry B → merged B → tags (words s) B0 ex → mapped (words s) B → links (words s) (head_block s) L → classes B L →
  B !! x = Some bx → bkind bx = Used → B0 !! x ≠ None →
  (∀ a b, a ≠ x → B !! a = Some b → B0 !! a = Some b ∧ a ≠ ex) →
  ∃ s', (∀ A (k : M kheap A), (SetSizeTags x (bsize bx);; set_prev x NULL;; set_next x NULL;; MarkFree x;; k) s = k s') ∧
    heap_inv s' B L x ∧ user_kept (delete x B) s s' ∧ same_rest s s' ∧ dom (words s') = dom (words s).
Proof.
  intros HB Hm Ht Hmp Hlk Hcl Hx Hk H0 Hold.
  destruct (B0 !! x) as [b0|] eqn:Hx0; [|done]. destruct (Ht x b0 Hx0) as [(w & Hw & _) _].
  pose proof (classes_members B L Hcl) as Hmem. assert (bkind bx ≠ Free) as Hnf by congruence.
  destruct (ge_ok B HB x bx Hx) as [X1 X2 X3 _ X5 _ _ _]. specialize (X5 (used_not_fence bx Hk)).
  assert (∀ z, x ≤ z < x + bsize bx → z `mod` 4 = 0 → is_Some (words s !! z)) as Hmx by (intros; by apply (Hmp x bx)).
  set (m1 := size_words (words s) x w (bsize bx)).
  assert (dom m1 = dom (words s)) as D1.
  { unfold m1, size_words. rewrite !dom_write; [done|by eexists|].
    apply elem_of_dom. rewrite dom_write by (by eexists). apply elem_of_dom. apply Hmx; lia. }
  assert (∀ z, x ≤ z < x + bsize bx → z `mod` 4 = 0 → is_Some (m1 !! z)) as Hm1.
  { intros z Hz Hz4. apply elem_of_dom. rewrite D1. apply elem_of_dom. by apply Hmx. }
  assert (tags m1 B x) as T1 by (by apply (tags_resize B HB x bx Hx B0 _ ex)).
  assert (links m1 (head_block s) L) as K1.
  { unfold m1, size_words. do 2 (apply (links_inside B HB x bx Hx); [done|done|lia|]). done. }
  set (m2 := <[x + 8 := NULL]> m1). set (m3 := <[x + 4 := NULL]> m2).
  assert (is_Some (m2 !! (x + 4))) as Hs4 by (unfold m2; rewrite lookup_insert_ne by lia; apply Hm1; lia).
  assert (tags m3 B x) as T3 by (do 2 (apply (tags_link B HB _ x bx); [done|lia|lia|]); done).
  assert (links m3 (head_block s) L) as K3 by (do 2 (apply (links_inside B HB x bx Hx); [done|done|lia|]); done).
  assert (dom m3 = dom (words s)) as D3.
  { unfold m3. rewrite dom_write by done. unfold m2. by rewrite dom_write by (apply Hm1; lia). }
  destruct (T3 x bx Hx) as [(w3 & Hw3 & Hs3 & _) _].
  set (m4 := <[x := Z.land w3 (Z.lnot 1)]> m3).
  assert (dom m4 = dom (words s)) as D4 by (unfold m4; by rewrite dom_write by (by eexists)).
  exists (wset m4 s). split_and!.
  - intros A k. rewrite (M_bind_done _ _ _ _ _ (SetSizeTags_run s x (bsize bx) w Hw (Hmx (x + bsize bx - 4) ltac:(lia) ltac:(lia)) X3)). fold m1.
    unfold set_prev, set_next. rewrite (M_bind_done _ _ _ _ _ (wr_run (wset m1 s) _ NULL (Hm1 (x + 8) ltac:(lia) ltac:(lia)))).
    rewrite (M_bind_done _ _ _ _ _ (wr_run (wset m2 s) (x + 4) NULL Hs4)).
    by rewrite (M_bind_done _ _ _ _ _ (MarkFree_run (wset m3 s) x w3 Hw3)).
  - split; [done|done| | | |done].
    + apply (tags_open B HB x bx Hx _ w3); [done|done|apply free_size].
    + intros a b y Ha Hy H4. apply elem_of_dom. cbn [wset words]. rewrite D4. apply elem_of_dom. by apply (Hmp a b).
    + apply (links_inside B HB x bx Hx); [done|done|lia|done].
  - apply (user_kept_inside B HB x bx Hx). intros z Hz. cbn [wset words]. unfold m4, m3, m2, m1, size_words.
    by rewrite !lookup_insert_ne by lia.
  - done.
  - done.
Qed.

(** ** [AddBlock]: the block returns to the lists, merged with its neighbours *)

(** [B'] has the allocated blocks of [B]. *)
Definition same_used (B B' : heap_map) : Prop := ∀ c cb, bkind cb = Used → (B !! c = Some cb ↔ B' !! c = Some cb).

(** Every span of [B'] is one of [B]: the blocks lie in the memory they did. *)
Definition spans_in (B' B : heap_map) : Prop := ∀ c cb, B' !! c = Some cb → ∃ d db, B !! d = Some db ∧ bspan db = bspan cb.
Lemma spans_in_refl B : spans_in B B.
Proof. intros c cb Hc. by exists c, cb. Qed.
Lemma spans_in_trans B1 B2 B3 : spans_in B1 B2 → spans_in B2 B3 → spans_in B1 B3.
Proof.
  intros H1 H2 c cb Hc. destruct (H1 c cb Hc) as (d & db & Hd & E). destruct (H2 d db Hd) as (e & eb & He & E').
  exists e, eb. split; [done|congruence].
Qed.
Lemma spans_in_delete B1 B x : spans_in B1 B → spans_in (delete x B1) B.
Proof. intros H c cb [_ Hc]%lookup_delete_Some. by apply (H c). Qed.
Lemma spans_in_insert B1 B x bx d db :
  spans_in B1 B → B !! d = Some db → bspan db = bspan bx → spans_in (<[x := bx]> B1) B.
Proof. intros H Hd E c cb [[<- <-]|[_ Hc]]%lookup_insert_Some; [by exists d, db|by apply (H c)]. Qed.
Lemma spans_in_join B x y bx b_y : B !! x = Some bx → spans_in (join B x y bx b_y) B.
Proof. intros Hx. eapply spans_in_insert; [apply spans_in_delete, spans_in_refl|exact Hx|done]. Qed.
#[export] Hint Resolve spans_in_refl spans_in_delete spans_in_join : merlon.

(** What freeing the block at [a] achieves. *)
Record freed (s : kheap) (B : heap_map) (a : Z) (s' : kheap) (B' : heap_map) (L' : list (list Z)) : Prop := {
  fr_inv : heap_inv s' B' L' 0;
  fr_used : same_used (delete a B) B';
  fr_user : user_kept (delete a B) s s';
  fr_spans : spans_in B' B;
  fr_rest : same_rest s s';
  fr_dom : dom (words s') = dom (words s);
}.

(** From the joined block [x] of [B1], open and with no free neighbour. *)
Lemma AddBlock_joined s s1 s2 B B1 L a x bx (fuel : nat) :
  heap_inv s2 B1 L x → B1 !! x = Some bx → bkind bx = Used →
  (∀ p pb, B1 !! p = Some pb → p + bsize pb = x → bkind pb ≠ Free) →
  (∀ nb, B1 !! (x + bsize bx) = Some nb → bkind nb ≠ Free) →
  same_used (delete a B) (delete x B1) → spans_in B1 B →
  user_kept B s s1 → user_kept (delete x B1) s1 s2 → same_rest s s1 → same_rest s1 s2 →
  dom (words s1) = dom (words s) → dom (words s2) = dom (words s1) →
  ∃ s' B' L', AddBlock (S fuel) x s2 = Done (x, s') ∧ freed s B a s' B' L'.
Proof.
  intros Hinv Hx Hk Hp Hn Hsu Hsp U1 U2 R1 R2 D1 D2.
  destruct (AddBlock_plain fuel s2 B1 L x bx Hinv Hx Hk Hp Hn) as (s' & L' & E & Hinv' & U3 & R3 & D3).
  exists s', (<[x := rekind Free bx]> B1), L'. split; [done|].
  assert (∀ c cb, delete a B !! c = Some cb → bkind cb = Used → B1 !! c = Some cb ∧ c ≠ x) as Hin.
  { intros c cb Hc Hcu. apply Hsu in Hc; [|done]. apply lookup_delete_Some in Hc as [? ?]. done. }
  split; [done| | | | |].
  - intros c cb Hcu. split.
    + intros Hc. destruct (Hin c cb Hc Hcu) as [Hc1 Hne]. by rewrite lookup_insert_ne.
    + intros Hc. destruct (decide (c = x)) as [->|Hne].
      * rewrite lookup_insert_eq in Hc. injection Hc as <-. done.
      * rewrite lookup_insert_ne in Hc by done. apply (Hsu c cb Hcu). by rewrite lookup_delete_ne.
  - apply (user_kept_trans _ _ s1).
    { eapply user_kept_sub; [|exact U1]. intros c cb [? ?]%lookup_delete_Some _. done. }
    apply (user_kept_trans _ _ s2).
    { eapply user_kept_sub; [|exact U2]. intros c cb Hc Hcu. destruct (Hin c cb Hc Hcu).
      by rewrite lookup_delete_ne. }
    eapply user_kept_sub; [|exact U3]. intros c cb Hc Hcu. destruct (Hin c cb Hc Hcu). by rewrite lookup_insert_ne.
  - eapply spans_in_trans; [|exact Hsp]. by eapply spans_in_insert; [apply spans_in_refl|exact Hx|].
  - by eapply same_rest_trans; [|eapply same_rest_trans].
  - congruence.
Qed.

Lemma prev_unique B p pb q qb a :
  geometry B → B !! p = Some pb → B !! q = Some qb → p + bsize pb = a → q + bsize qb = a → p = q.
Proof.
  intros HB Hp Hq Ep Eq. pose proof (block_size_pos B HB _ _ Hp). pose proof (block_size_pos B HB _ _ Hq).
  apply (same_block B HB p pb q qb (a - 1)); (done || lia).
Qed.

(** The four cases of the code. *)
Section add_block.
Context (s : kheap) (B : heap_map) (L : list (list Z)) (a : Z) (b : blk).
Context (Hinv : heap_inv s B L a) (Ha : B !! a = Some b) (Hk : bkind b = Used).
Context (p : Z) (pb nb : blk) (Hp : B !! p = Some pb) (Ep : p + bsize pb = a) (Hn : B !! (a + bsize b) = Some nb).

Let HB : geometry B := hi_geometry _ _ _ _ Hinv.
Let Hm : merged B := hi_merged _ _ _ _ Hinv.

Lemma size8 x c : B !! x = Some c → bsize c `mod` 8 = 0.
Proof. intros H. apply (ge_ok B HB _ _ H). Qed.

(** Both steps of finding a free neighbour's list and leaving it. *)
Lemma unlink_steps s0 D L0 n nb0 :
  tags (words s0) B a → links (words s0) (head_block s0) L0 → classes D L0 →
  (∀ x c, D !! x = Some c → B !! x = Some c) → D !! n = Some nb0 → bkind nb0 = Free →
  ∃ s1 L1, (∀ A (k : M kheap A), (z ← GetSize n; i ← GetInsertionIndex (z - METADATA_TOTAL); RemoveBlock i n;; k) s0 = k s1) ∧
    links (words s1) (head_block s1) L1 ∧ classes (delete n D) L1 ∧ tags (words s1) B a ∧
    user_kept B s0 s1 ∧ same_rest s0 s1 ∧ dom (words s1) = dom (words s0).
Proof.
  intros Ht Hlk Hcl Hsub Hn0 Hf. pose proof (Hsub n nb0 Hn0) as HnB.
  destruct (unlink_run s0 B D L0 n nb0 a HB Ht Hlk Hcl Hsub Hn0 Hf) as (s1 & L1 & E & R).
  exists s1, L1. split; [|done]. intros A k.
  rewrite (M_bind_done _ _ _ _ _ (GetSize_run s0 n nb0 _ (Ht n nb0 HnB) (size8 n nb0 HnB))).
  rewrite (M_bind_done _ _ _ _ _ (GetInsertionIndex_run _ s0 (user_size B n nb0 HB HnB (free_not_fence nb0 Hf)))).
  by rewrite (M_bind_done _ _ _ _ _ E).
Qed.

Lemma add_right (fuel : nat) : bkind pb ≠ Free → bkind nb = Free →
  ∃ x s' B' L', (z ← GetSize (a + bsize b); i ← GetInsertionIndex (z - METADATA_TOTAL);
      RemoveBlock i (a + bsize b);; z ← GetSize (a + bsize b); SetSizeTags a (bsize b + z);;
      set_prev a NULL;; set_next a NULL;; MarkFree a;; AddBlock (S fuel) a) s = Done (x, s') ∧ freed s B a s' B' L'.
Proof.
  intros Hpk Hnk. pose proof (hi_tags _ _ _ _ Hinv) as Ht.
  pose proof (hi_mapped _ _ _ _ Hinv) as Hmp. pose proof (hi_links _ _ _ _ Hinv) as Hlk. pose proof (hi_classes _ _ _ _ Hinv) as Hcl.
  pose proof (block_size_pos B HB _ _ Ha) as Hpos.
  pose proof (used_not_fence b Hk) as Hfa. pose proof (free_not_fence nb Hnk) as Hfn.
  destruct (unlink_steps s B L (a + bsize b) nb Ht Hlk Hcl ltac:(done) Hn Hnk)
    as (s1 & L1 & E & Hlk1 & Hcl1 & Ht1 & U1 & R1 & D1).
  set (B1 := join B a (a + bsize b) b nb). set (bx := Blk (bsize b + bsize nb) Used (bspan b)).
  assert (geometry B1) as HB1 by (by apply geometry_join).
  assert (merged B1) as Hm1 by (by apply merged_join).
  assert (B1 !! a = Some bx) as Hx by apply lookup_insert_eq.
  assert (∀ c cb, c ≠ a → B1 !! c = Some cb → B !! c = Some cb ∧ c ≠ a + bsize b) as Hother
    by (intros c cb; by apply join_other).
  destruct (resize_run s1 B B1 L1 a bx a) as (s2 & E2 & Hinv2 & U2 & R2 & D2); try done.
  { intros c cb y Hc Hy H4. apply elem_of_dom. rewrite D1. apply elem_of_dom.
    by apply (mapped_join B HB a b nb Ha Hn (words s) Hmp c cb). }
  { apply classes_set; [done| |done]. intros c [_ Hc]%lookup_delete_Some. congruence. }
  { congruence. }
  { intros c cb Hne Hc. destruct (Hother c cb Hne Hc). done. }
  destruct (AddBlock_joined s s1 s2 B B1 L1 a a bx fuel) as (s' & B' & L' & E3 & Hfr); try done.
  { intros q qb Hq Eq. destruct (decide (q = a)) as [->|Hne]; [rewrite Hx in Hq; injection Hq as <-; simpl in Eq; pose proof (block_size_pos B HB _ _ Hn); lia|].
    destruct (Hother q qb Hne Hq) as [Hq' _]. assert (q = p) as -> by (by apply (prev_unique B q qb p pb a)). congruence. }
  { intros c Hc. simpl in Hc. rewrite Z.add_assoc in Hc. destruct (Hother (a + bsize b + bsize nb) c) as [Hc' _];
      [pose proof (block_size_pos B HB _ _ Hn); lia|done|]. by apply (Hm (a + bsize b) nb c). }
  { intros c cb Hcu. rewrite !lookup_delete_Some. split; intros [Hne Hc]; (split; [done|]).
    - unfold B1. rewrite join_lookup; [done|done|]. intros ->. congruence.
    - by apply Hother. }
  { by apply spans_in_join. }
  exists a, s', B', L'. split; [|done]. rewrite E.
  rewrite (M_bind_done _ _ _ _ _ (GetSize_run s1 _ nb _ (Ht1 _ nb Hn) (size8 _ nb Hn))).
  change (bsize b + bsize nb) with (bsize bx). by rewrite E2.
Qed.

Lemma add_left (fuel : nat) : bkind pb = Free → bkind nb ≠ Free →
  ∃ x s' B' L', (z ← GetSize p; i ← GetInsertionIndex (z - METADATA_TOTAL);
      RemoveBlock i p;; z ← GetSize p; SetSizeTags p (bsize b + z);;
      set_prev p NULL;; set_next p NULL;; MarkFree p;; AddBlock (S fuel) p) s = Done (x, s') ∧ freed s B a s' B' L'.
Proof.
  intros Hpk Hnk. pose proof (hi_tags _ _ _ _ Hinv) as Ht.
  pose proof (hi_mapped _ _ _ _ Hinv) as Hmp. pose proof (hi_links _ _ _ _ Hinv) as Hlk. pose proof (hi_classes _ _ _ _ Hinv) as Hcl.
  pose proof (block_size_pos B HB _ _ Ha) as Hpos.
  pose proof (block_size_pos B HB _ _ Hp) as Hppos.
  pose proof (used_not_fence b Hk) as Hfa. pose proof (free_not_fence pb Hpk) as Hfp.
  destruct (unlink_steps s B L p pb Ht Hlk Hcl ltac:(done) Hp Hpk)
    as (s1 & L1 & E & Hlk1 & Hcl1 & Ht1 & U1 & R1 & D1).
  assert (B !! (p + bsize pb) = Some b) as Ha' by (by rewrite Ep).
  set (B1 := join B p (p + bsize pb) pb b). set (bx := Blk (bsize pb + bsize b) Used (bspan pb)).
  assert (geometry B1) as HB1 by (by apply geometry_join).
  assert (merged B1) as Hm1 by (by apply merged_join).
  assert (B1 !! p = Some bx) as Hx by apply lookup_insert_eq.
  assert (∀ c cb, c ≠ p → B1 !! c = Some cb → B !! c = Some cb ∧ c ≠ a) as Hother.
  { intros c cb Hne Hc. rewrite <- Ep. by apply join_other in Hc. }
  destruct (resize_run s1 B B1 L1 p bx a) as (s2 & E2 & Hinv2 & U2 & R2 & D2); try done.
  { intros c cb y Hc Hy H4. apply elem_of_dom. rewrite D1. apply elem_of_dom.
    by apply (mapped_join B HB p pb b Hp Ha' (words s) Hmp c cb). }
  { replace B1 with (<[p := bx]> (delete a (delete p B))).
    - apply classes_set; [apply classes_delete; [done|]| |done].
      + intros c [_ Hc]%lookup_delete_Some. congruence.
      + intros c [_ [? _]%lookup_delete_Some]%lookup_delete_Some. done.
    - unfold B1, join. rewrite Ep. by rewrite delete_delete, insert_delete_eq. }
  { congruence. }
  destruct (AddBlock_joined s s1 s2 B B1 L1 a p bx fuel) as (s' & B' & L' & E3 & Hfr); try done.
  { intros q qb Hq Eq Hqf. destruct (decide (q = p)) as [->|Hne]; [rewrite Hx in Hq; injection Hq as <-; done|].
    destruct (Hother q qb Hne Hq) as [Hq' _]. by apply (Hm q qb pb); [done|done|rewrite Eq|]. }
  { intros c Hc. simpl in Hc. replace (p + (bsize pb + bsize b)) with (a + bsize b) in Hc by lia.
    destruct (Hother (a + bsize b) c) as [Hc' _]; [lia|done|]. congruence. }
  { intros c cb Hcu. rewrite !lookup_delete_Some. split; intros [Hne Hc].
    - assert (p ≠ c) by (intros ->; congruence). split; [done|].
      unfold B1. rewrite join_lookup; [done|done|]. lia.
    - destruct (Hother c cb ltac:(done) Hc). done. }
  { by apply spans_in_join. }
  exists p, s', B', L'. split; [|done]. rewrite E.
  rewrite (M_bind_done _ _ _ _ _ (GetSize_run s1 _ pb _ (Ht1 _ pb Hp) (size8 _ pb Hp))).
  rewrite (Z.add_comm (bsize b)). change (bsize pb + bsize b) with (bsize bx). by rewrite E2.
Qed.

Lemma add_both (fuel : nat) : bkind pb = Free → bkind nb = Free →
  ∃ x s' B' L', (z ← GetSize p; i ← GetInsertionIndex (z - METADATA_TOTAL); RemoveBlock i p;;
      z ← GetSize (a + bsize b); i ← GetInsertionIndex (z - METADATA_TOTAL); RemoveBlock i (a + bsize b);;
      ps ← GetSize p; ns ← GetSize (a + bsize b); SetSizeTags p (bsize b + ps + ns);;
      set_prev p NULL;; set_next p NULL;; MarkFree p;; AddBlock (S fuel) p) s = Done (x, s') ∧ freed s B a s' B' L'.
Proof.
  intros Hpk Hnk. pose proof (hi_tags _ _ _ _ Hinv) as Ht.
  pose proof (hi_mapped _ _ _ _ Hinv) as Hmp. pose proof (hi_links _ _ _ _ Hinv) as Hlk. pose proof (hi_classes _ _ _ _ Hinv) as Hcl.
  pose proof (block_size_pos B HB _ _ Ha) as Hpos.
  pose proof (block_size_pos B HB _ _ Hp) as Hppos. pose proof (block_size_pos B HB _ _ Hn) as Hnpos.
  pose proof (used_not_fence b Hk) as Hfa. pose proof (free_not_fence pb Hpk) as Hfp. pose proof (free_not_fence nb Hnk) as Hfn.
  destruct (unlink_steps s B L p pb Ht Hlk Hcl ltac:(done) Hp Hpk)
    as (s0 & L0 & E0 & Hlk0 & Hcl0 & Ht0 & U0 & R0 & D0).
  assert (delete p B !! (a + bsize b) = Some nb) as Hn0 by (rewrite lookup_delete_ne by lia; done).
  destruct (unlink_steps s0 (delete p B) L0 (a + bsize b) nb Ht0 Hlk0 Hcl0
    ltac:(intros ? ? [_ ?]%lookup_delete_Some; done) Hn0 Hnk) as (s1 & L1 & E & Hlk1 & Hcl1 & Ht1 & U1 & R1 & D1).
  assert (B !! (p + bsize pb) = Some b) as Ha' by (by rewrite Ep).
  set (J := join B p (p + bsize pb) pb b). set (bj := Blk (bsize pb + bsize b) Used (bspan pb)).
  assert (geometry J) as HJ by (by apply geometry_join).
  assert (merged J) as HmJ by (by apply merged_join).
  assert (J !! p = Some bj) as HxJ by apply lookup_insert_eq.
  assert (J !! (p + bsize bj) = Some nb) as HnJ.
  { simpl. replace (p + (bsize pb + bsize b)) with (a + bsize b) by lia. unfold J. rewrite join_lookup by lia. done. }
  set (B1 := join J p (p + bsize bj) bj nb). set (bx := Blk (bsize bj + bsize nb) Used (bspan bj)).
  assert (geometry B1) as HB1 by (by apply geometry_join).
  assert (merged B1) as Hm1 by (by apply merged_join).
  assert (B1 !! p = Some bx) as Hx by apply lookup_insert_eq.
  assert (p + bsize bj = a + bsize b) as En by (simpl; lia).
  assert (∀ c cb, c ≠ p → B1 !! c = Some cb → B !! c = Some cb ∧ c ≠ a ∧ c ≠ a + bsize b) as Hother.
  { intros c cb Hne Hc. apply join_other in Hc as [Hc Hcn]; [|done..]. rewrite En in Hcn.
    apply join_other in Hc as [Hc Hca]; [|done..]. rewrite Ep in Hca. done. }
  destruct (resize_run s1 B B1 L1 p bx a) as (s2 & E2 & Hinv2 & U2 & R2 & D2); try done.
  { intros c cb y Hc Hy H4. apply elem_of_dom. rewrite D1, D0. apply elem_of_dom.
    apply (mapped_join J HJ p bj nb HxJ HnJ (words s) (mapped_join B HB p pb b Hp Ha' (words s) Hmp) c cb); done. }
  { replace B1 with (<[p := bx]> (delete a (delete (a + bsize b) (delete p B)))).
    - apply classes_set; [apply classes_delete; [done|]| |done].
      + intros c [_ [_ Hc]%lookup_delete_Some]%lookup_delete_Some. congruence.
      + intros c [_ [_ [? _]%lookup_delete_Some]%lookup_delete_Some]%lookup_delete_Some. done.
    - unfold B1, J, join. rewrite En, Ep. apply map_eq. intros k.
      destruct (decide (k = p)) as [->|Hkp]; [by rewrite !lookup_insert_eq|]. rewrite !lookup_insert_ne by done.
      destruct (decide (k = a)) as [->|Hka].
      + rewrite lookup_delete_eq, lookup_delete_ne, lookup_insert_ne, lookup_delete_eq by lia. done.
      + rewrite (lookup_delete_ne _ a) by done. destruct (decide (k = a + bsize b)) as [->|Hkn].
        * by rewrite !lookup_delete_eq.
        * rewrite !(lookup_delete_ne _ (a + bsize b)) by done. rewrite lookup_insert_ne by done.
          by rewrite !lookup_delete_ne by done. }
  { congruence. }
  { intros c cb Hne Hc. destruct (Hother c cb Hne Hc) as (? & ? & _). done. }
  destruct (AddBlock_joined s s1 s2 B B1 L1 a p bx fuel) as (s' & B' & L' & E3 & Hfr); try done.
  { intros q qb Hq Eq Hqf. destruct (decide (q = p)) as [->|Hne]; [rewrite Hx in Hq; injection Hq as <-; done|].
    destruct (Hother q qb Hne Hq) as [Hq' _]. by apply (Hm q qb pb); [done|done|rewrite Eq|]. }
  { intros c Hc. simpl in Hc. replace (p + (bsize pb + bsize b + bsize nb)) with (a + bsize b + bsize nb) in Hc by lia.
    destruct (Hother (a + bsize b + bsize nb) c) as [Hc' _]; [lia|done|]. by apply (Hm (a + bsize b) nb c). }
  { intros c cb Hcu. rewrite !lookup_delete_Some. split; intros [Hne Hc].
    - assert (p ≠ c) by (intros ->; congruence). split; [done|].
      unfold B1. rewrite join_lookup; [unfold J; rewrite join_lookup; [done|done|lia]|done|].
      rewrite En. intros ->. congruence.
    - destruct (Hother c cb ltac:(done) Hc) as (? & ? & _). done. }
  { apply (spans_in_trans _ J); by apply spans_in_join. }
  { by eapply user_kept_trans. }
  { by eapply same_rest_trans. }
  { congruence. }
  exists p, s', B', L'. split; [|done]. rewrite E0, E.
  rewrite (M_bind_done _ _ _ _ _ (GetSize_run s1 _ pb _ (Ht1 _ pb Hp) (size8 _ pb Hp))).
  rewrite (M_bind_done _ _ _ _ _ (GetSize_run s1 _ nb _ (Ht1 _ nb Hn) (size8 _ nb Hn))).
  replace (bsize b + bsize pb + bsize nb) with (bsize bx) by (simpl; lia). by rewrite E2.
Qed.
End add_block.

Lemma AddBlock_run s B L a b :
  heap_inv s B L a → B !! a = Some b → bkind b = Used →
  ∃ x s' B' L', AddBlock add_fuel a s = Done (x, s') ∧ freed s B a s' B' L'.
Proof.
  intros Hinv Ha Hk. pose proof (hi_geometry _ _ _ _ Hinv) as HB. pose proof (hi_tags _ _ _ _ Hinv) as Ht.
  pose proof (used_not_fence b Hk) as Hf.
  destruct (neighbours s B a b a HB Ht Ha Hf ltac:(by left)) as
    (p & pb & nb & Hp & Ep & Hn & _ & _ & Hpa & Erd & Eprev & Enext & Eal & Ean).
  unfold add_fuel. destruct (decide (bkind pb = Free)) as [Hpf|Hpf], (decide (bkind nb = Free)) as [Hnf|Hnf].
  4: { destruct (AddBlock_plain 1 s B L a b Hinv Ha Hk) as (s' & L' & E & Hi' & U & R & D).
       { intros q qb Hq Eq. assert (q = p) as -> by (by apply (prev_unique B q qb p pb a)). congruence. }
       { congruence. }
       exists a, s', (<[a := rekind Free b]> B), L'. split; [done|]. split; [done| | | |done|done].
       - intros c cb Hcu. rewrite lookup_delete_Some. split.
         + intros [Hne Hc]. by rewrite lookup_insert_ne.
         + intros Hc. destruct (decide (a = c)) as [<-|Hne]; [rewrite lookup_insert_eq in Hc; by injection Hc as <-|].
           by rewrite lookup_insert_ne in Hc.
       - eapply user_kept_sub; [|exact U]. intros c cb [Hne Hc]%lookup_delete_Some _. by rewrite lookup_insert_ne.
       - by eapply spans_in_insert; [apply spans_in_refl|exact Ha|]. }
  all: cbn [AddBlock]; rewrite (M_bind_done _ _ _ _ _ (GetSize_run s a b _ (Ht a b Ha) (bo_size8 _ _ (ge_ok B HB _ _ Ha))));
    rewrite (M_bind_done _ _ _ _ _ (GetInsertionIndex_run _ s (user_size B a b HB Ha Hf)));
    rewrite (M_bind_done _ _ _ _ _ Erd), Eprev, Enext, (M_bind_done _ _ _ _ _ Eal), (M_bind_done _ _ _ _ _ Ean).
  - rewrite Hpf, Hnf. by apply (add_both s B L a b Hinv Ha Hk p pb nb Hp Ep Hn 0).
  - rewrite Hpf, (flag_used nb Hnf). by apply (add_left s B L a b Hinv Ha Hk p pb nb Hp Ep Hn 0).
  - rewrite (flag_used pb Hpf), Hnf. by apply (add_right s B L a b Hinv Ha Hk p pb nb Hp Ep Hn 0).
Qed.
