(* ===== verification/KernelHeapAlloc.v ===== *)
(** * Allocation from the kernel heap: [AllocateBlock], [RequestBlock],
    [FindBlock]

    Cutting a block off a free one, asking the reserve for more memory and
    choosing the free list. *)

From S2P Require Import Prelude KernelHeap KernelHeapInv KernelHeapBlocks.

#[local] Ltac Zify.zify_post_hook ::= Z.to_euclidean_division_equations.

(** ** Cutting a block in two *)
Definition cut (B : heap_map) (a : Z) (b : blk) (left : Z) : heap_map :=
  <[a := Blk left Used (bspan b)]> (<[a + left := Blk (bsize b - left) Used (bspan b)]> B).

Section cut.
Context (B : heap_map) (HB : geometry B) (a : Z) (b : blk) (Ha : B !! a = Some b).
Context (left : Z) (Hf : is_fence (bkind b) = false).
Context (Hl : 16 ≤ left) (Hr : 16 ≤ bsize b - left) (Hl8 : left `mod` 8 = 0).

Let b1 := Blk left Used (bspan b).
Let b2 := Blk (bsize b - left) Used (bspan b).

Lemma cut_fresh : B !! (a + left) = None.
Proof.
  destruct (B !! (a + left)) as [c|] eqn:Hc; [|done]. pose proof (block_size_pos B HB _ _ Hc).
  assert (a = a + left) by (apply (same_block B HB a b (a + left) c (a + left)); (done || lia)). lia.
Qed.
Lemma cut_left : cut B a b left !! a = Some b1.
Proof. apply lookup_insert_eq. Qed.
Lemma cut_right : cut B a b left !! (a + left) = Some b2.
Proof. unfold cut. rewrite lookup_insert_ne by lia. apply lookup_insert_eq. Qed.
Lemma cut_lookup c : c ≠ a → c ≠ a + left → cut B a b left !! c = B !! c.
Proof. intros. unfold cut. by rewrite !lookup_insert_ne by done. Qed.
Lemma cut_cases c cb : cut B a b left !! c = Some cb →
  (c = a ∧ cb = b1) ∨ (c = a + left ∧ cb = b2) ∨ (c ≠ a ∧ c ≠ a + left ∧ B !! c = Some cb).
Proof.
  destruct (decide (c = a)) as [->|H1]; [rewrite cut_left; intros [=]; auto|].
  destruct (decide (c = a + left)) as [->|H2]; [rewrite cut_right; intros [=]; auto|].
  rewrite cut_lookup by done. auto.
Qed.

Lemma geometry_cut : geometry (cut B a b left).
Proof.
  destruct (ge_ok B HB a b Ha) as [A1 A2 A3 _ A5 A6 A7 A8]. specialize (A5 Hf).
  assert (∀ c cb, c ≠ a → B !! c = Some cb → c + bsize cb ≤ a ∨ a + bsize b ≤ c) as Hout
    by (intros c cb Hne Hc; by apply (ge_disj B HB)).
  split.
  - intros c cb [[-> ->]|[[-> ->]|(H1 & H2 & Hc)]]%cut_cases; [split; simpl; (done || lia)..|]. by apply (ge_ok B HB).
  - intros c cb d db Hc Hd Hne.
    apply cut_cases in Hc as [[-> ->]|[[-> ->]|(H1 & H2 & Hc)]], Hd as [[-> ->]|[[-> ->]|(H3 & H4 & Hd)]];
      try done; simpl; try lia.
    + destruct (Hout d db H3 Hd); lia.
    + destruct (Hout d db H3 Hd); lia.
    + destruct (Hout c cb H1 Hc); lia.
    + destruct (Hout c cb H1 Hc); lia.
    + by apply (ge_disj B HB).
  - intros c cb [[-> ->]|[[-> ->]|(H1 & H2 & Hc)]]%cut_cases Hk; simpl.
    + exists b2. split; [apply cut_right|done].
    + destruct (ge_next B HB a b Ha) as (n & Hn & E); [by intros E; rewrite E in Hf|]. exists n.
      replace (a + left + (bsize b - left)) with (a + bsize b) by lia. rewrite cut_lookup by lia. done.
    + destruct (ge_next B HB c cb Hc Hk) as (n & Hn & E). destruct (decide (c + bsize cb = a)) as [Heq|Hne].
      * rewrite Heq. exists b1. split; [apply cut_left|]. simpl. rewrite Heq in Hn. congruence.
      * exists n. rewrite cut_lookup; [done|done|]. intros Heq. rewrite Heq, cut_fresh in Hn. done.
  - intros c cb [[-> ->]|[[-> ->]|(H1 & H2 & Hc)]]%cut_cases Hk.
    + destruct (ge_prev B HB a b Ha) as (p & pb & Hp & Ep & E); [by intros E; rewrite E in Hf|].
      pose proof (block_size_pos B HB _ _ Hp). exists p, pb. rewrite cut_lookup by lia. done.
    + exists a, b1. split; [apply cut_left|done].
    + destruct (ge_prev B HB c cb Hc Hk) as (p & pb & Hp & Ep & E). destruct (decide (p = a)) as [->|Hne].
      * assert (pb = b) as -> by congruence. exists (a + left), b2. split; [apply cut_right|]. simpl. split; [lia|done].
      * exists p, pb. rewrite cut_lookup; [done|done|]. intros ->. by rewrite cut_fresh in Hp.
Qed.

Lemma merged_cut : merged B → merged (cut B a b left).
Proof.
  intros Hm c cb d Hc Hcf Hd Hdf. apply cut_cases in Hc as [[-> ->]|[[-> ->]|(H1 & H2 & Hc)]]; try done.
  apply cut_cases in Hd as [[_ ->]|[[_ ->]|(_ & _ & Hd)]]; try done. by apply (Hm c cb d).
Qed.
Lemma mapped_cut m : mapped m B → mapped m (cut B a b left).
Proof.
  intros Hm c cb z Hc Hz H4. apply cut_cases in Hc as [[-> ->]|[[-> ->]|(_ & _ & Hc)]]; simpl in *.
  - apply (Hm a b); [done|lia|done].
  - apply (Hm a b); [done|lia|done].
  - by apply (Hm c cb).
Qed.
Lemma classes_cut L : classes (delete a B) L → classes (cut B a b left) L.
Proof.
  intros Hcl. unfold cut. rewrite <- (insert_delete_eq _ a). rewrite delete_insert_ne by lia.
  apply classes_set; [apply classes_set; [done| |done]| |done].
  - intros c [_ Hc]%lookup_delete_Some. by rewrite cut_fresh in Hc.
  - intros c Hc. rewrite lookup_insert_ne, lookup_delete_eq in Hc by lia. done.
Qed.
End cut.

(** ** What an allocation achieves: one more allocated block, at [x] *)
Record allocated (s : kheap) (B : heap_map) (req x : Z) (s' : kheap) (B' : heap_map) (L' : list (list Z)) : Prop := {
  al_inv : heap_inv s' B' L' 0;
  al_block : ∃ bx, B' !! x = Some bx ∧ bkind bx = Used ∧ req + METADATA_TOTAL ≤ bsize bx;
  al_used : same_used B (delete x B');
  al_user : user_kept B s s';
  al_spans : spans_in B' B;
  al_rest : same_rest s s';
  al_dom : dom (words s') = dom (words s);
}.

Section allocate.
Context (s : kheap) (B : heap_map) (L : list (list Z)) (a : Z) (b : blk) (req : Z).
Context (Hinv : heap_inv s B L 0) (Ha : B !! a = Some b) (Hk : bkind b = Free).
Context (H8 : req `mod` 8 = 0) (Hreq : 8 ≤ req) (Hfit : req + METADATA_TOTAL ≤ bsize b).

Let HB : geometry B := hi_geometry _ _ _ _ Hinv.

Lemma free_not_used c cb : bkind cb = Used → B !! c = Some cb → c ≠ a.
Proof. intros Hu Hc ->. congruence. Qed.

(** Taking the whole block. *)
Lemma allocate_whole :
  ∃ s' B' L', (RemoveBlock (class (bsize b - 8)) a;; SetSizeTags a (bsize b);; MarkAllocated a;; mret a) s = Done (a, s') ∧
    allocated s B req a s' B' L'.
Proof.
  pose proof (hi_merged _ _ _ _ Hinv) as Hm. pose proof (hi_tags _ _ _ _ Hinv) as Ht.
  pose proof (hi_mapped _ _ _ _ Hinv) as Hmp. pose proof (hi_links _ _ _ _ Hinv) as Hlk. pose proof (hi_classes _ _ _ _ Hinv) as Hcl.
  pose proof (free_not_fence b Hk) as Hf.
  destruct (ge_ok B HB a b Ha) as [A1 A2 A3 _ A5 _ _ _]. specialize (A5 Hf).
  destruct (unlink_run s B B L a b 0 HB Ht Hlk Hcl ltac:(done) Ha Hk) as (s1 & L1 & E & Hlk1 & Hcl1 & Ht1 & U1 & R1 & D1).
  set (B' := <[a := rekind Used b]> B). assert (B' !! a = Some (rekind Used b)) as Ha' by apply lookup_insert_eq.
  assert (geometry B') as HB' by (by apply geometry_rekind).
  destruct (Ht1 a b Ha) as [(w & Hw & _) _].
  assert (∀ z, a ≤ z < a + bsize b → z `mod` 4 = 0 → is_Some (words s1 !! z)) as Hmx.
  { intros z Hz Hz4. apply elem_of_dom. rewrite D1. apply elem_of_dom. by apply (Hmp a b). }
  set (m1 := size_words (words s1) a w (bsize b)).
  assert (tags m1 B' a) as T1.
  { apply (tags_resize B' HB' a (rekind Used b) Ha' B (words s1) 0); [done|done|].
    intros c cb Hne Hc. unfold B' in Hc. rewrite lookup_insert_ne in Hc by done.
    pose proof (bo_pos _ _ (ge_ok B HB _ _ Hc)). split; [done|lia]. }
  assert (classes B' L1) as Hcl'.
  { unfold B'. rewrite <- insert_delete_eq. apply classes_set; [done| |done]. intros c. by rewrite lookup_delete_eq. }
  destruct (T1 a _ Ha') as [(w1 & Hw1 & Hs1 & _) _]. set (m2 := <[a := Z.lor w1 1]> m1).
  assert (dom m2 = dom (words s)) as D2.
  { unfold m2. rewrite dom_write by (by eexists). unfold m1, size_words. rewrite !dom_write; [done|by eexists|].
    apply elem_of_dom. rewrite dom_write by (by eexists). apply elem_of_dom. apply Hmx; lia. }
  exists (wset m2 s1), B', L1. split.
  - rewrite (M_bind_done _ _ _ _ _ E).
    rewrite (M_bind_done _ _ _ _ _ (SetSizeTags_run s1 a (bsize b) w Hw (Hmx (a + bsize b - 4) ltac:(lia) ltac:(lia)) A3)).
    fold m1. by rewrite (M_bind_done _ _ _ _ _ (MarkAllocated_run (wset m1 s1) a w1 Hw1)).
  - split; [split|..].
    + done.
    + intros c cb d Hc Hcf Hd Hdf. destruct (decide (c = a)) as [->|Hne].
      * rewrite Ha' in Hc. injection Hc as <-. done.
      * unfold B' in Hc. rewrite lookup_insert_ne in Hc by done. destruct (decide (c + bsize cb = a)) as [Heq|Hne'].
        -- rewrite Heq, Ha' in Hd. injection Hd as <-. done.
        -- unfold B' in Hd. rewrite lookup_insert_ne in Hd by done. by apply (Hm c cb d).
    + apply (tags_header B' HB' m1 a (rekind Used b)); [done|done|by rewrite alloc_size|by rewrite alloc_flag].
    + intros c cb z Hc Hz H4. apply elem_of_dom. cbn [wset words]. rewrite D2. apply elem_of_dom.
      destruct (decide (c = a)) as [->|Hne]; [rewrite Ha' in Hc; injection Hc as <-; by apply (Hmp a b)|].
      unfold B' in Hc. rewrite lookup_insert_ne in Hc by done. by apply (Hmp c cb).
    + cbn [wset words head_block]. unfold m2, m1, size_words.
      do 3 (apply (links_inside B' HB' a (rekind Used b) Ha'); [by apply classes_members|done|simpl; lia|]). done.
    + done.
    + exists (rekind Used b). done.
    + intros c cb Hcu. rewrite lookup_delete_Some. split.
      * intros Hc. pose proof (free_not_used c cb Hcu Hc). split; [done|]. unfold B'. by rewrite lookup_insert_ne.
      * intros [Hne Hc]. unfold B' in Hc. by rewrite lookup_insert_ne in Hc.
    + apply (user_kept_trans _ _ s1); [done|]. apply (user_kept_sub _ (delete a B)).
      { intros c cb Hc Hcu. rewrite lookup_delete_ne; [done|]. intros ->. congruence. }
      apply (user_kept_inside B HB a b Ha). intros z Hz. cbn [wset words]. unfold m2, m1, size_words.
      by rewrite !lookup_insert_ne by lia.
    + by eapply spans_in_insert; [apply spans_in_refl|exact Ha|].
    + eapply same_rest_trans; [exact R1|apply same_rest_wset].
    + done.
Qed.

(** Cutting the request off its end. *)
Lemma allocate_cut (left : Z) : left = bsize b - (req + METADATA_TOTAL) → 16 ≤ left →
  ∃ s' B' L', (RemoveBlock (class (bsize b - 8)) a;; SetSizeTags a left;;
      SetSizeTags (a + left) (req + METADATA_TOTAL);; MarkAllocated (a + left);; MarkFree a;;
      AddBlock add_fuel a;; mret (a + left)) s = Done (a + left, s') ∧
    allocated s B req (a + left) s' B' L'.
Proof.
  intros El Hl. pose proof (hi_merged _ _ _ _ Hinv) as Hm. pose proof (hi_tags _ _ _ _ Hinv) as Ht.
  pose proof (hi_mapped _ _ _ _ Hinv) as Hmp. pose proof (hi_links _ _ _ _ Hinv) as Hlk. pose proof (hi_classes _ _ _ _ Hinv) as Hcl.
  pose proof (free_not_fence b Hk) as Hf.
  destruct (ge_ok B HB a b Ha) as [A1 A2 A3 _ A5 _ _ _]. specialize (A5 Hf).
  unfold METADATA_TOTAL, METADATA_LEADING, METADATA_TRIALING in *.
  set (total := req + (4 + 4)) in *. assert (total = bsize b - left) as Et by lia.
  assert (left `mod` 8 = 0) as Hl8 by lia. assert (16 ≤ bsize b - left) as Hr by lia.
  destruct (unlink_run s B B L a b 0 HB Ht Hlk Hcl ltac:(done) Ha Hk) as (s1 & L1 & E & Hlk1 & Hcl1 & Ht1 & U1 & R1 & D1).
  set (B1 := cut B a b left). assert (geometry B1) as HB1 by (by apply geometry_cut).
  pose proof (cut_left B a b left : B1 !! a = Some _) as Hc1.
  pose proof (cut_right B a b left Hl : B1 !! (a + left) = Some _) as Hc2.
  destruct (Ht1 a b Ha) as [(w & Hw & _) _].
  assert (∀ z, a ≤ z < a + bsize b → z `mod` 4 = 0 → is_Some (words s1 !! z)) as Hmx.
  { intros z Hz Hz4. apply elem_of_dom. rewrite D1. apply elem_of_dom. by apply (Hmp a b). }
  set (m1 := size_words (words s1) a w left).
  assert (dom m1 = dom (words s1)) as Dm1.
  { unfold m1, size_words. rewrite !dom_write; [done|by eexists|].
    apply elem_of_dom. rewrite dom_write by (by eexists). apply elem_of_dom. apply Hmx; lia. }
  assert (∀ z, a ≤ z < a + bsize b → z `mod` 4 = 0 → is_Some (m1 !! z)) as Hmx1.
  { intros z Hz Hz4. apply elem_of_dom. rewrite Dm1. apply elem_of_dom. by apply Hmx. }
  destruct (Hmx1 (a + left) ltac:(lia) ltac:(lia)) as [w2 Hw2].
  set (m2 := size_words m1 (a + left) w2 total).
  assert (dom m2 = dom (words s1)) as Dm2.
  { unfold m2, size_words. rewrite !dom_write; [done|by eexists|].
    apply elem_of_dom. rewrite dom_write by (by eexists). apply elem_of_dom. apply Hmx1; lia. }
  set (h2 := Z.lor (Z.land w2 3) total). assert (m2 !! (a + left) = Some h2) as Hh2.
  { unfold m2, size_words. rewrite lookup_insert_ne, lookup_insert_eq by lia. done. }
  set (m3 := <[a + left := Z.lor h2 1]> m2). set (h1 := Z.lor (Z.land w 3) left).
  assert (m3 !! a = Some h1) as Hh1.
  { unfold m3, m2, m1, size_words. rewrite !(lookup_insert_ne _ _ a) by lia. by rewrite lookup_insert_eq. }
  set (m4 := <[a := Z.land h1 (Z.lnot 1)]> m3).
  assert (dom m4 = dom (words s1)) as Dm4 by (unfold m4, m3; rewrite !dom_write; [done|by eexists|by eexists]).
  assert (∀ z, ¬ (a ≤ z < a + bsize b) → m4 !! z = words s1 !! z) as Hout.
  { intros z Hz. unfold m4, m3, m2, m1, size_words. by rewrite !lookup_insert_ne by lia. }
  assert (heap_inv (wset m4 s1) B1 L1 a) as Hinv1.
  { split; [done|by apply merged_cut| | | |].
    - intros c cb Hc. apply (cut_cases B a b left Hl) in Hc as [[-> ->]|[[-> ->]|(H1 & H2 & Hc)]].
      + split; cbn [wset words bsize bkind].
        * exists (Z.land h1 (Z.lnot 1)). unfold m4. rewrite lookup_insert_eq. split; [done|].
          split; [rewrite free_size; by apply header_size|by intros []].
        * unfold m4, m3, m2, m1, size_words. rewrite !(lookup_insert_ne _ _ (a + left - 4)) by lia. by rewrite lookup_insert_eq.
      + split; cbn [wset words bsize bkind].
        * exists (Z.lor h2 1). unfold m4, m3. rewrite lookup_insert_ne, lookup_insert_eq by lia. split; [done|].
          split; [rewrite alloc_size, <- Et; apply header_size; lia|intros _; by rewrite alloc_flag].
        * unfold m4, m3, m2, size_words. rewrite <- Et. rewrite !(lookup_insert_ne _ _ (a + left + total - 4)) by lia.
          by rewrite lookup_insert_eq.
      + destruct (Ht1 c cb Hc) as [(w0 & Hw0 & Hs0 & Hf0) Htr]. pose proof (block_size_pos B HB _ _ Hc).
        destruct (ge_disj B HB c cb a b Hc Ha H1); cbn [wset words];
          (split; [exists w0|]; rewrite Hout by lia; [|done]; split; [done|]; split; [done|]; intros _; apply Hf0;
           pose proof (bo_pos _ _ (ge_ok B HB _ _ Hc)); lia).
    - intros c cb z Hc Hz H4. apply elem_of_dom. cbn [wset words]. rewrite Dm4, D1. apply elem_of_dom.
      by apply (mapped_cut B a b Ha left Hl Hr (words s) Hmp c cb).
    - cbn [wset words head_block].
      assert (classes B1 L1) as Hcl' by (by apply classes_cut). pose proof (classes_members _ _ Hcl') as Hmem.
      unfold m4, m3, m2, m1, size_words.
      apply (links_inside B1 HB1 a _ Hc1); [done|done|simpl; lia|].
      do 3 (apply (links_inside B1 HB1 (a + left) _ Hc2); [done|done|simpl; lia|]).
      do 2 (apply (links_inside B1 HB1 a _ Hc1); [done|done|simpl; lia|]). done.
    - by apply classes_cut. }
  destruct (AddBlock_run (wset m4 s1) B1 L1 a _ Hinv1 Hc1 eq_refl) as (x & s' & B' & L' & E5 & [F1 F2 F3 F6 F4 F5]).
  exists s', B', L'. split.
  - rewrite (M_bind_done _ _ _ _ _ E).
    rewrite (M_bind_done _ _ _ _ _ (SetSizeTags_run s1 a left w Hw (Hmx (a + left - 4) ltac:(lia) ltac:(lia)) Hl8)). fold m1.
    rewrite (M_bind_done _ _ _ _ _ (SetSizeTags_run (wset m1 s1) (a + left) total w2 Hw2 (Hmx1 (a + left + total - 4) ltac:(lia) ltac:(lia)) ltac:(lia))).
    cbn [wset words]. fold m2. change (wset m2 (wset m1 s1)) with (wset m2 s1).
    rewrite (M_bind_done _ _ _ _ _ (MarkAllocated_run (wset m2 s1) _ h2 Hh2)). cbn [wset words]. fold m3.
    change (wset m3 (wset m2 s1)) with (wset m3 s1).
    rewrite (M_bind_done _ _ _ _ _ (MarkFree_run (wset m3 s1) _ h1 Hh1)). cbn [wset words]. fold m4.
    change (wset m4 (wset m3 s1)) with (wset m4 s1). by rewrite (M_bind_done _ _ _ _ _ E5).
  - assert (B' !! (a + left) = Some (Blk (bsize b - left) Used (bspan b))) as Hnew.
    { apply F2; [done|]. rewrite lookup_delete_ne by lia. done. }
    split; [done| | | | | |].
    + eexists. split; [exact Hnew|]. split; [done|]. simpl. unfold METADATA_TOTAL, METADATA_LEADING, METADATA_TRIALING. lia.
    + intros c cb Hcu. rewrite lookup_delete_Some, <- (F2 c cb Hcu), lookup_delete_Some. split.
      * intros Hc. pose proof (free_not_used c cb Hcu Hc). assert (c ≠ a + left).
        { intros ->. by rewrite (cut_fresh B HB a b Ha left Hl Hr) in Hc. }
        split; [done|]. split; [done|]. unfold B1. by rewrite cut_lookup.
      * intros (Hne & Hne' & Hc). unfold B1 in Hc. by rewrite cut_lookup in Hc.
    + apply (user_kept_trans _ _ s1); [done|]. apply (user_kept_trans _ _ (wset m4 s1)).
      * apply (user_kept_sub _ (delete a B)).
        { intros c cb Hc Hcu. rewrite lookup_delete_ne; [done|]. intros ->. congruence. }
        by apply (user_kept_inside B HB a b Ha).
      * eapply user_kept_sub; [|exact F3]. intros c cb Hc Hcu. pose proof (free_not_used c cb Hcu Hc).
        rewrite lookup_delete_ne by done. unfold B1. rewrite cut_lookup; [done|done|].
        intros ->. by rewrite (cut_fresh B HB a b Ha left Hl Hr) in Hc.
    + eapply spans_in_trans; [exact F6|]. unfold B1, cut.
      do 2 (eapply spans_in_insert; [|exact Ha|done]). apply spans_in_refl.
    + eapply same_rest_trans; [exact R1|]. eapply same_rest_trans; [apply (same_rest_wset s1 m4)|done].
    + rewrite F5. cbn [wset words]. congruence.
Qed.

Lemma AllocateBlock_run :
  ∃ x s' B' L', AllocateBlock a (class (bsize b - 8)) req s = Done (x, s') ∧ allocated s B req x s' B' L'.
Proof.
  pose proof (hi_tags _ _ _ _ Hinv) as Ht. destruct (ge_ok B HB a b Ha) as [A1 A2 A3 _ _ _ _ _].
  assert (AllocateBlock a (class (bsize b - 8)) req s =
    if decide (bsize b - (req + METADATA_TOTAL) < MIN_REQ_SIZE + METADATA_TOTAL) then
      (RemoveBlock (class (bsize b - 8)) a;; SetSizeTags a (bsize b);; MarkAllocated a;; mret a) s
    else (RemoveBlock (class (bsize b - 8)) a;; SetSizeTags a (bsize b - (req + METADATA_TOTAL));;
      SetSizeTags (a + (bsize b - (req + METADATA_TOTAL))) (req + METADATA_TOTAL);;
      MarkAllocated (a + (bsize b - (req + METADATA_TOTAL)));; MarkFree a;;
      AddBlock add_fuel a;; mret (a + (bsize b - (req + METADATA_TOTAL)))) s) as E.
  { unfold AllocateBlock. rewrite bool_decide_true by (unfold NULL; lia). rewrite (M_bind_done _ _ s tt s) by done.
    rewrite (M_bind_done _ _ _ _ _ (GetSize_run s a b _ (Ht a b Ha) A3)).
    rewrite bool_decide_true by done. rewrite (M_bind_done _ _ s tt s) by done.
    destruct (decide _); [done|]. unfold METADATA_TOTAL, METADATA_LEADING, METADATA_TRIALING in *.
    replace ((bsize b - (req + (4 + 4))) / 4 * 4) with (bsize b - (req + (4 + 4))) by lia. done. }
  rewrite E. destruct (decide _) as [Hs|Hs].
  - destruct allocate_whole as (s' & B' & L' & E' & R). by exists a, s', B', L'.
  - destruct (allocate_cut (bsize b - (req + METADATA_TOTAL))) as (s' & B' & L' & E' & R); [done| |by eexists _, s', B', L'].
    unfold METADATA_TOTAL, METADATA_LEADING, METADATA_TRIALING, MIN_REQ_SIZE in *. lia.
Qed.
End allocate.
