(* ===== verification/KernelHeapFind.v ===== *)
(** * Memory from the reserve and the choice of a free list: [RequestBlock] and
    [FindBlock] of mem/heap.c *)

From S2P Require Import Prelude KernelHeap KernelHeapInv KernelHeapBlocks KernelHeapAlloc.

#[local] Ltac Zify.zify_post_hook ::= Z.to_euclidean_division_equations.

(** ** The reserve *)
Record reserve_entry_ok (s : kheap) (B : heap_map) (r : reserve_block) : Prop := {
  re_pos : 0 < rb_address r;
  re_align : rb_address r `mod` 4096 = 0;
  re_pages : rb_size r `mod` 4096 = 0;
  re_size : 0 < rb_size r ≤ BOOTSTRAP_SIZE;
  re_top : rb_address r + rb_size r ≤ 2 ^ 32;
  re_mapped : ∀ x, rb_address r ≤ x < rb_address r + rb_size r → x `mod` 4 = 0 → is_Some (words s !! x);
  re_apart : ∀ a b, B !! a = Some b →
    (bspan b).1 + (bspan b).2 ≤ rb_address r ∨ rb_address r + rb_size r ≤ (bspan b).1;
}.
Record reserve_ok (s : kheap) (B : heap_map) : Prop := {
  rs_length : length (reserve_blocks s) = MAX_RESERVE_BLOCKS;
  rs_entry : ∀ (i : nat) r, reserve_blocks s !! i = Some r → rb_valid r = true → reserve_entry_ok s B r;
  rs_disjoint : ∀ (i j : nat) r r', reserve_blocks s !! i = Some r → reserve_blocks s !! j = Some r' → i ≠ j →
    rb_valid r = true → rb_valid r' = true →
    rb_address r + rb_size r ≤ rb_address r' ∨ rb_address r' + rb_size r' ≤ rb_address r;
}.

Definition fits (size : Z) (r : reserve_block) : Prop := rb_valid r = true ∧ size ≤ rb_size r.

(** The loop chooses a smallest entry that fits, if one does. *)
Lemma smallest_fit_run size rs : ∀ (n : nat) (i : nat) smallest,
  (i + n = length rs)%nat →
  (smallest = -1 ∧ (∀ (j : nat) r, (j < i)%nat → rs !! j = Some r → ¬ fits size r) ∨
   ∃ (k : nat) r, smallest = k ∧ rs !! k = Some r ∧ fits size r ∧
     ∀ (j : nat) r', (j < i)%nat → rs !! j = Some r' → fits size r' → rb_size r ≤ rb_size r') →
  (smallest_fit n i smallest size rs = -1 ∧ (∀ (j : nat) r, rs !! j = Some r → ¬ fits size r)) ∨
  ∃ (k : nat) r, smallest_fit n i smallest size rs = k ∧ rs !! k = Some r ∧ fits size r ∧
    ∀ (j : nat) r', rs !! j = Some r' → fits size r' → rb_size r ≤ rb_size r'.
Proof.
  induction n as [|n IH]; intros i smallest Hn Hinv.
  - simpl. destruct Hinv as [[-> H]|(k & r & -> & Hk & Hf & H)]; [left|right].
    + split; [done|]. intros j r Hj. apply (H j); [|done]. apply lookup_lt_Some in Hj. lia.
    + exists k, r. split_and!; [done..|]. intros j r' Hj. apply (H j); [|done]. apply lookup_lt_Some in Hj. lia.
  - cbn [smallest_fit]. rewrite aget_nat. destruct (lookup_lt_is_Some_2 rs i) as [ri Hi]; [lia|]. rewrite Hi.
    replace (i + 1) with (Z.of_nat (S i)) by lia. apply IH; [lia|].
    assert (∀ (j : nat) r, (j < S i)%nat → rs !! j = Some r → (j < i)%nat ∨ (j = i ∧ r = ri)) as Hcase.
    { intros j r Hj Hr. destruct (decide (j = i)) as [->|]; [right; split; [done|congruence]|left; lia]. }
    destruct (decide (fits size ri)) as [Hfit|Hfit].
    + destruct Hfit as [Hv Hsz]. rewrite Hv, bool_decide_true by done. cbn [andb]. right.
      destruct Hinv as [[-> H]|(k & r & -> & Hk & Hf & H)].
      * rewrite decide_True by done. exists i, ri. split_and!; [done|done|done|].
        intros j r' Hj Hr' Hf'. destruct (Hcase j r' Hj Hr') as [Hlt|[-> ->]]; [by destruct (H j r')|lia].
      * rewrite decide_False by lia. rewrite aget_nat, Hk. destruct (decide (rb_size ri < rb_size r)) as [Hlt|Hge].
        -- exists i, ri. split_and!; [done|done|done|]. intros j r' Hj Hr' Hf'.
           destruct (Hcase j r' Hj Hr') as [Hji|[-> ->]]; [specialize (H j r' Hji Hr' Hf'); lia|lia].
        -- exists k, r. split_and!; [done|done|done|]. intros j r' Hj Hr' Hf'.
           destruct (Hcase j r' Hj Hr') as [Hji|[-> ->]]; [by apply (H j)|lia].
    + assert (rb_valid ri && bool_decide (size ≤ rb_size ri) = false) as ->.
      { destruct (rb_valid ri) eqn:Hv; [|done]. apply bool_decide_false. intros ?. by apply Hfit. }
      destruct Hinv as [[-> H]|(k & r & -> & Hk & Hf & H)]; [left|right].
      * split; [done|]. intros j r Hj Hr. destruct (Hcase j r Hj Hr) as [Hji|[-> ->]]; [by apply (H j)|done].
      * exists k, r. split_and!; [done..|]. intros j r' Hj Hr' Hf'. destruct (Hcase j r' Hj Hr') as [Hji|[-> ->]]; [by apply (H j)|done].
Qed.

(** [base] is fresh memory of [size] bytes, taken out of the reserve. *)
Record granted (s : kheap) (B : heap_map) (size base : Z) (s1 : kheap) : Prop := {
  gr_rest : s1 = {| s with reserve_blocks := reserve_blocks s1; refill_deferred := refill_deferred s1 |};
  gr_ok : reserve_ok s1 B;
  gr_pos : 0 < base;
  gr_align : base `mod` 4096 = 0;
  gr_size : size ≤ BOOTSTRAP_SIZE;
  gr_top : base + size ≤ 2 ^ 32;
  gr_mapped : ∀ x, base ≤ x < base + size → x `mod` 4 = 0 → is_Some (words s !! x);
  gr_apart : ∀ a b, B !! a = Some b → (bspan b).1 + (bspan b).2 ≤ base ∨ base + size ≤ (bspan b).1;
  gr_reserve : ∀ (i : nat) r, reserve_blocks s1 !! i = Some r → rb_valid r = true →
    base + size ≤ rb_address r ∨ rb_address r + rb_size r ≤ base;
}.

Lemma AllocateFromReserveBlocks_run s B size :
  reserve_ok s B → 0 < size → size `mod` 4096 = 0 →
  (AllocateFromReserveBlocks size s = Panicked PANIC_CANNOT_MALLOC_WITHOUT_FAULTING ∧
   ∀ (i : nat) r, reserve_blocks s !! i = Some r → ¬ fits size r) ∨
  ∃ base s1, AllocateFromReserveBlocks size s = Done (base, s1) ∧ granted s B size base s1.
Proof.
  intros [Hlen Hent Hdis] Hpos Hpg. unfold AllocateFromReserveBlocks. rewrite (M_bind_done _ _ s s s) by done.
  destruct (smallest_fit_run size (reserve_blocks s) MAX_RESERVE_BLOCKS 0 (-1)) as [[E Hno]|(k & r & E & Hk & [Hv Hsz] & _)].
  { by rewrite Hlen. }
  { left. split; [done|]. intros j ? Hj. by apply Nat.nlt_0_r in Hj. }
  - left. change (smallest_fit MAX_RESERVE_BLOCKS 0%nat (-1)) with (smallest_fit MAX_RESERVE_BLOCKS 0 (-1)) in E.
    rewrite E, decide_True by reflexivity. split; [reflexivity|exact Hno].
  - right. change (smallest_fit MAX_RESERVE_BLOCKS 0%nat (-1)) with (smallest_fit MAX_RESERVE_BLOCKS 0 (-1)) in E.
    rewrite E, decide_False by lia. clear E. rewrite aget_nat, Hk. rewrite (M_bind_done _ _ s r s) by done.
    assert (k < length (reserve_blocks s))%nat as Hlt by (by eapply lookup_lt_Some).
    destruct (Hent k r Hk Hv) as [P1 P2 P3 P4 P5 P6 P7].
    assert (u32 (rb_address r + size) = rb_address r + size ∨ rb_size r = size) as Hu.
    { destruct (decide (rb_size r = size)); [by right|left]. apply u32_small. unfold is_u32. lia. }
    set (r1 := Reserve (u32 (rb_address r + size)) (rb_size r - size)
      (if decide (rb_size r - size < ARCH_PAGE_SIZE) then false else rb_valid r)).
    rewrite aset_nat by done. rewrite (M_bind_done _ _ s (<[k := r1]> (reserve_blocks s)) s) by done.
    exists (rb_address r), {| s with reserve_blocks := <[k := r1]> (reserve_blocks s) |}. split; [done|].
    assert (rb_valid r1 = true → 0 < rb_size r1 ∧ rb_address r1 = rb_address r + size) as Hr1.
    { unfold r1. simpl. destruct (decide _); [done|]. intros _. unfold ARCH_PAGE_SIZE in *. split; [lia|]. destruct Hu; [done|lia]. }
    assert (∀ (i : nat) r', <[k := r1]> (reserve_blocks s) !! i = Some r' → rb_valid r' = true →
      (i = k ∧ r' = r1) ∨ (i ≠ k ∧ reserve_blocks s !! i = Some r')) as Hcase.
    { intros i r' Hi _. destruct (decide (i = k)) as [->|Hne].
      - rewrite list_lookup_insert_eq in Hi by done. left. split; [done|congruence].
      - rewrite list_lookup_insert_ne in Hi by done. by right. }
    split; [by simpl|split| | | | | | |]; simpl; try done.
    + by rewrite length_insert.
    + intros i r' Hi Hv'. destruct (Hcase i r' Hi Hv') as [[-> ->]|[Hne Hi']].
      * destruct (Hr1 Hv') as [Hs1 Ha1]. unfold ARCH_PAGE_SIZE in *.
        split; rewrite ?Ha1; simpl; [lia|lia|lia|simpl in Hs1; lia|lia| |].
        -- intros x Hx. apply P6. lia.
        -- intros a b Ha. destruct (P7 a b Ha); lia.
      * destruct (Hent i r' Hi' Hv'). by split.
    + intros i j r2 r3 Hi Hj Hne Hv2 Hv3.
      destruct (Hcase i r2 Hi Hv2) as [[-> ->]|[Hne2 Hi']], (Hcase j r3 Hj Hv3) as [[-> ->]|[Hne3 Hj']]; try done.
      * destruct (Hr1 Hv2) as [Hs1 Ha1]. rewrite Ha1. simpl. destruct (Hdis k j r r3 Hk Hj'); try done; lia.
      * destruct (Hr1 Hv3) as [Hs1 Ha1]. rewrite Ha1. simpl. destruct (Hdis i k r2 r Hi' Hk); try done; lia.
      * by apply (Hdis i j).
    + lia.
    + lia.
    + intros x Hx. apply P6. lia.
    + intros a b Ha. destruct (P7 a b Ha); lia.
    + intros i r' Hi Hv'. destruct (Hcase i r' Hi Hv') as [[-> ->]|[Hne Hi']].
      * destruct (Hr1 Hv') as [Hs1 Ha1]. rewrite Ha1. lia.
      * destruct (Hdis k i r r' Hk Hi'); try done; lia.
Qed.

Lemma GetSystemMemory_run s B size :
  reserve_ok s B → 0 < size → size `mod` 4096 = 0 →
  (GetSystemMemory size s = Panicked PANIC_CANNOT_MALLOC_WITHOUT_FAULTING ∧
   ∀ (i : nat) r, reserve_blocks s !! i = Some r → ¬ fits size r) ∨
  ∃ base s1, GetSystemMemory size s = Done (base, s1) ∧ granted s B size base s1.
Proof.
  intros Hok Hpos Hpg. unfold GetSystemMemory. rewrite (M_bind_done _ _ s s s) by done.
  set (s0 := if virt_initialised s then {| s with refill_deferred := true |} else s).
  rewrite (M_bind_done _ _ s tt s0) by (unfold s0; by destruct (virt_initialised s)).
  assert (reserve_blocks s0 = reserve_blocks s ∧ words s0 = words s) as [Er Ew] by (unfold s0; by destruct (virt_initialised s)).
  assert (reserve_ok s0 B) as Hok0.
  { destruct Hok as [O1 O2 O3]. split; rewrite ?Er; try done. intros i r Hi Hv.
    destruct (O2 i r Hi Hv). split; rewrite ?Ew; done. }
  destruct (AllocateFromReserveBlocks_run s0 B size Hok0 Hpos Hpg) as [[E H]|(base & s1 & E & G)]; [left|right].
  - split; [exact E|]. rewrite <- Er. exact H.
  - exists base, s1. split; [exact E|]. clear E. destruct G as [G1 G2 G3 G4 G5 G6 G7 G8 G9]. split; [|exact G2|exact G3|exact G4|exact G5|exact G6| |exact G8|exact G9].
    + etransitivity; [exact G1|]. unfold s0. clear. destruct s as [ws hs rs sp os vi rd]. simpl. destruct vi; reflexivity.
    + by rewrite <- Ew.
Qed.

(** ** A new span of memory: two fences around one free block *)
Definition grow (B : heap_map) (base total : Z) : heap_map :=
  <[base := Blk 8 LeftFence (base, total)]> (<[base + 8 := Blk (total - 16) Free (base, total)]>
    (<[base + total - 8 := Blk 8 RightFence (base, total)]> B)).

Section grow.
Context (B : heap_map) (HB : geometry B) (base total : Z).
Context (Hpos : 0 < base) (H8 : base `mod` 8 = 0) (Ht8 : total `mod` 8 = 0) (Hlow : 32 ≤ total).
Context (Hhigh : total ≤ BOOTSTRAP_SIZE) (Htop : base + total ≤ 2 ^ 32).
Context (Hapart : ∀ a b, B !! a = Some b → a + bsize b ≤ base ∨ base + total ≤ a).

Lemma grow_lookup a : a ≠ base → a ≠ base + 8 → a ≠ base + total - 8 → grow B base total !! a = B !! a.
Proof. intros. unfold grow. by rewrite !lookup_insert_ne by done. Qed.
Lemma grow_left : grow B base total !! base = Some (Blk 8 LeftFence (base, total)).
Proof. apply lookup_insert_eq. Qed.
Lemma grow_middle : grow B base total !! (base + 8) = Some (Blk (total - 16) Free (base, total)).
Proof. unfold grow. rewrite lookup_insert_ne by lia. apply lookup_insert_eq. Qed.
Lemma grow_right : grow B base total !! (base + total - 8) = Some (Blk 8 RightFence (base, total)).
Proof. unfold grow. rewrite !lookup_insert_ne by lia. apply lookup_insert_eq. Qed.
Lemma grow_cases a b : grow B base total !! a = Some b →
  (a = base ∧ b = Blk 8 LeftFence (base, total)) ∨ (a = base + 8 ∧ b = Blk (total - 16) Free (base, total)) ∨
  (a = base + total - 8 ∧ b = Blk 8 RightFence (base, total)) ∨
  (B !! a = Some b ∧ (a + bsize b ≤ base ∨ base + total ≤ a)).
Proof.
  destruct (decide (a = base)) as [->|H1]; [rewrite grow_left; intros [=]; auto|].
  destruct (decide (a = base + 8)) as [->|H2]; [rewrite grow_middle; intros [=]; auto|].
  destruct (decide (a = base + total - 8)) as [->|H3]; [rewrite grow_right; intros [=]; auto|].
  rewrite grow_lookup by done. intros Ha. right. right. right. split; [done|]. by apply Hapart.
Qed.
Lemma grow_old a b : B !! a = Some b → grow B base total !! a = Some b.
Proof. intros Ha. pose proof (block_size_pos B HB _ _ Ha). destruct (Hapart a b Ha); rewrite grow_lookup by lia; done. Qed.

Lemma geometry_grow : geometry (grow B base total).
Proof.
  split.
  - intros a b Ha. apply grow_cases in Ha as [[-> ->]|[[-> ->]|[[-> ->]|[Ha _]]]]; [split; simpl; (done || lia)..|].
    by apply (ge_ok B HB).
  - intros a b c d Ha Hc Hne.
    assert (∀ a b, B !! a = Some b → 8 ≤ bsize b) as Hsz by (apply block_size_pos; done).
    apply grow_cases in Ha as [[-> ->]|[[-> ->]|[[-> ->]|[Ha Ho]]]], Hc as [[-> ->]|[[-> ->]|[[-> ->]|[Hc Ho']]]];
      try done; simpl; try lia; try (specialize (Hsz _ _ Ha); lia); try (specialize (Hsz _ _ Hc); lia).
    by apply (ge_disj B HB).
  - intros a b Ha Hk. apply grow_cases in Ha as [[-> ->]|[[-> ->]|[[-> ->]|[Ha _]]]]; simpl in *.
    + eexists. split; [apply grow_middle|done].
    + eexists. split; [replace (base + 8 + (total - 16)) with (base + total - 8) by lia; apply grow_right|done].
    + done.
    + destruct (ge_next B HB a b Ha Hk) as (n & Hn & E). exists n. split; [by apply grow_old|done].
  - intros a b Ha Hk. apply grow_cases in Ha as [[-> ->]|[[-> ->]|[[-> ->]|[Ha _]]]]; simpl in *.
    + done.
    + exists base. eexists. split; [apply grow_left|done].
    + exists (base + 8). eexists. split; [apply grow_middle|]. simpl. split; [lia|done].
    + destruct (ge_prev B HB a b Ha Hk) as (p & pb & Hp & E). exists p, pb. split; [by apply grow_old|done].
Qed.

Lemma merged_grow : merged B → merged (grow B base total).
Proof.
  intros Hm a b b' Ha Hf Hb' Hf'. apply grow_cases in Ha as [[-> ->]|[[-> ->]|[[-> ->]|[Ha Ho]]]]; try done.
  - simpl in Hb'. replace (base + 8 + (total - 16)) with (base + total - 8) in Hb' by lia.
    rewrite grow_right in Hb'. injection Hb' as <-. done.
  - apply grow_cases in Hb' as [[_ ->]|[[E ->]|[[_ ->]|[Hb' _]]]]; try done.
    + pose proof (block_size_pos B HB _ _ Ha). lia.
    + by apply (Hm a b b').
Qed.

(** On its list, which was empty. *)
Lemma classes_grow L (i : nat) :
  classes B L → class (total - 16 - 8) = i → L !! i = Some [] → classes (grow B base total) (<[i := [base + 8]]> L).
Proof.
  intros Hcl Hi Hl. set (sp := (base, total)).
  assert (∀ x b, B !! x = Some b → base ≤ x < base + total → False) as Hno.
  { intros x b Hx Hin. pose proof (block_size_pos B HB _ _ Hx). destruct (Hapart x b Hx); lia. }
  set (B1 := <[base + 8 := Blk (total - 16) Used sp]> (<[base + total - 8 := Blk 8 RightFence sp]> B)).
  assert (classes B1 L) as Hcl1.
  { apply classes_set; [apply classes_set; [done| |done]| |done].
    - intros b Hb. exfalso. apply (Hno _ b Hb). lia.
    - intros b Hb. rewrite lookup_insert_ne in Hb by lia. exfalso. apply (Hno _ b Hb). lia. }
  pose proof (classes_add B1 L (base + 8) (Blk (total - 16) Used sp) i [] Hcl1) as Hadd.
  assert (classes (<[base + 8 := Blk (total - 16) Free sp]> (<[base + total - 8 := Blk 8 RightFence sp]> B)) (<[i := [base + 8]]> L)) as Hcl2.
  { rewrite <- (insert_insert_eq _ (base + 8) (Blk (total - 16) Free sp) (Blk (total - 16) Used sp)).
    apply Hadd; [apply lookup_insert_eq|done|done|done]. }
  apply classes_set; [done| |done]. intros b Hb. rewrite !lookup_insert_ne in Hb by lia. exfalso. apply (Hno _ b Hb). lia.
Qed.
End grow.

Lemma page_round x : 0 ≤ x → Z.land x (Z.lnot (ARCH_PAGE_SIZE - 1)) = x / 4096 * 4096.
Proof.
  intros Hx. change (ARCH_PAGE_SIZE - 1) with (Z.ones 12). rewrite <- Z.ldiff_land, Z.ldiff_ones_r by lia.
  rewrite Z.shiftr_div_pow2, Z.shiftl_mul_pow2 by lia. done.
Qed.

Definition page_total (t : Z) : Z := (t + 16 + 4095) / 4096 * 4096.

(** What [RequestBlock] leaves: the span is in place, its block on no list yet. *)
Record requested (s : kheap) (B : heap_map) (total base : Z) (s' : kheap) : Prop := {
  rq_geometry : geometry (grow B base total);
  rq_size : 4096 ≤ total ≤ BOOTSTRAP_SIZE;
  rq_pos : 0 < base ∧ base `mod` 8 = 0 ∧ total `mod` 8 = 0 ∧ base + total ≤ 2 ^ 32;
  rq_apart : ∀ a b, B !! a = Some b → a + bsize b ≤ base ∨ base + total ≤ a;
  rq_tags : tags (words s') (grow B base total) 0;
  rq_links : words s' !! (base + 8 + 4) = Some NULL ∧ words s' !! (base + 8 + 8) = Some NULL;
  rq_frame : ∀ x, ¬ (base ≤ x < base + total) → words s' !! x = words s !! x;
  rq_dom : dom (words s') = dom (words s);
  rq_mapped : ∀ x, base ≤ x < base + total → x `mod` 4 = 0 → is_Some (words s !! x);
  rq_rest : s' = {| s with words := words s'; reserve_blocks := reserve_blocks s'; refill_deferred := refill_deferred s' |};
  rq_reserve : reserve_ok s' (grow B base total);
}.

Lemma reserve_ok_words s m B :
  reserve_ok s B → dom m = dom (words s) → reserve_ok (wset m s) B.
Proof.
  intros [O1 O2 O3] Hd. split; [done| |done]. intros i r Hi Hv. destruct (O2 i r Hi Hv) as [P1 P2 P3 P4 P5 P6 P7].
  split; try done. intros x Hx H4. apply elem_of_dom. cbn [wset words]. rewrite Hd. apply elem_of_dom. by apply P6.
Qed.

Ltac look := repeat first [rewrite lookup_insert_eq | rewrite lookup_insert_ne by lia].

(** The writes that lay out a span, from any contents of its words. *)
Definition layout (m : gmap Z Z) (base total w0 w1 w2 : Z) : gmap Z Z :=
  let m1 := size_words m base w0 8 in
  let m2 := size_words m1 (base + 8) w1 (total - 16) in
  let m3 := size_words m2 (base + total - 8) w2 8 in
  let m4 := <[base + 8 + 4 := NULL]> (<[base + 8 + 8 := NULL]> m3) in
  let m5 := <[base := Z.lor (Z.lor (Z.land w0 3) 8) 1]> m4 in
  let m6 := <[base + total - 8 := Z.lor (Z.lor (Z.land w2 3) 8) 1]> m5 in
  <[base + 8 := Z.land (Z.lor (Z.land w1 3) (total - 16)) (Z.lnot 1)]> m6.

Lemma layout_run s base total w0 w1 w2 :
  32 ≤ total → total `mod` 8 = 0 →
  words s !! base = Some w0 → words s !! (base + 8) = Some w1 → words s !! (base + total - 8) = Some w2 →
  (∀ x, base ≤ x < base + total → (x - base) `mod` 4 = 0 → is_Some (words s !! x)) →
  (SetSizeTags base MIN_REQ_SIZE;; SetSizeTags (base + 8) (total - 2 * MIN_REQ_SIZE);;
   SetSizeTags (base + total - 8) MIN_REQ_SIZE;; set_prev (base + 8) NULL;; set_next (base + 8) NULL;;
   MarkAllocated base;; MarkAllocated (base + total - 8);; MarkFree (base + 8);; mret (base + 8)) s
  = Done (base + 8, wset (layout (words s) base total w0 w1 w2) s) ∧
  dom (layout (words s) base total w0 w1 w2) = dom (words s).
Proof.
  intros Hlow Ht8 H0 H1 H2 Hmap. unfold layout. unfold MIN_REQ_SIZE. change (2 * 8) with 16.
  set (m1 := size_words (words s) base w0 8). set (m2 := size_words m1 (base + 8) w1 (total - 16)).
  set (m3 := size_words m2 (base + total - 8) w2 8).
  set (m4 := <[base + 8 + 4 := NULL]> (<[base + 8 + 8 := NULL]> m3)).
  assert (is_Some (words s !! (base + 4))) as I4 by (apply Hmap; lia).
  assert (dom m1 = dom (words s)) as D1.
  { unfold m1, size_words. replace (base + 8 - 4) with (base + 4) by lia.
    rewrite !dom_write; [done|by eexists|]. by rewrite lookup_insert_ne by lia. }
  assert (m1 !! (base + 8) = Some w1) as H1' by (unfold m1, size_words; by look).
  assert (m1 !! (base + total - 8) = Some w2) as H2'.
  { unfold m1, size_words. look. done. }
  assert (∀ x, base ≤ x < base + total → (x - base) `mod` 4 = 0 → ∀ m : gmap Z Z, dom m = dom (words s) → is_Some (m !! x)) as Hd.
  { intros x Hx H4 m Hm. apply elem_of_dom. rewrite Hm. apply elem_of_dom. by apply Hmap. }
  assert (dom m2 = dom (words s)) as D2.
  { unfold m2, size_words. rewrite !dom_write; [done|by eexists|].
    apply Hd; [lia|lia|]. rewrite dom_write by (by eexists). done. }
  assert (m2 !! (base + total - 8) = Some w2) as H2''.
  { unfold m2, size_words. look. done. }
  assert (dom m3 = dom (words s)) as D3.
  { unfold m3, size_words. rewrite !dom_write; [done|by eexists|].
    apply Hd; [lia|lia|]. rewrite dom_write by (by eexists). done. }
  assert (dom (<[base + 8 + 8 := NULL]> m3) = dom (words s)) as D3' by (rewrite dom_write; [done|by apply Hd; (lia || done)]).
  assert (dom m4 = dom (words s)) as D4 by (unfold m4; rewrite dom_write; [done|by apply Hd; (lia || done)]).
  set (h0 := Z.lor (Z.land w0 3) 8). set (h1 := Z.lor (Z.land w1 3) (total - 16)). set (h2 := Z.lor (Z.land w2 3) 8).
  assert (m4 !! base = Some h0) as E0 by (unfold m4, m3, m2, m1, size_words; by look).
  set (m5 := <[base := Z.lor h0 1]> m4). assert (dom m5 = dom (words s)) as D5 by (unfold m5; rewrite dom_write; [done|by eexists]).
  assert (m5 !! (base + total - 8) = Some h2) as E2 by (unfold m5, m4, m3, size_words; by look).
  set (m6 := <[base + total - 8 := Z.lor h2 1]> m5).
  assert (dom m6 = dom (words s)) as D6 by (unfold m6; rewrite dom_write; [done|by eexists]).
  assert (m6 !! (base + 8) = Some h1) as E1 by (unfold m6, m5, m4, m3, m2, size_words; by look).
  split; [|rewrite dom_write; [done|by eexists]].
  rewrite (M_bind_done _ _ _ _ _ (SetSizeTags_run s base 8 w0 H0 (Hd (base + 8 - 4) ltac:(lia) ltac:(lia) _ eq_refl) eq_refl)). fold m1.
  rewrite (M_bind_done _ _ _ _ _ (SetSizeTags_run (wset m1 s) (base + 8) (total - 16) w1 H1'
    (Hd (base + 8 + (total - 16) - 4) ltac:(lia) ltac:(lia) m1 D1) ltac:(lia))). cbn [wset words]. fold m2.
  rewrite (M_bind_done _ _ _ _ _ (SetSizeTags_run (wset m2 s) (base + total - 8) 8 w2 H2''
    (Hd (base + total - 8 + 8 - 4) ltac:(lia) ltac:(lia) m2 D2) eq_refl)). cbn [wset words]. fold m3.
  unfold set_prev, set_next.
  rewrite (M_bind_done _ _ _ _ _ (wr_run (wset m3 s) (base + 8 + 8) NULL (Hd (base + 8 + 8) ltac:(lia) ltac:(lia) m3 D3))).
  rewrite (M_bind_done _ _ _ _ _ (wr_run (wset (<[base + 8 + 8 := NULL]> m3) s) (base + 8 + 4) NULL (Hd (base + 8 + 4) ltac:(lia) ltac:(lia) _ D3'))).
  cbn [wset words]. fold m4.
  rewrite (M_bind_done _ _ _ _ _ (MarkAllocated_run (wset m4 s) base h0 E0)). cbn [wset words]. fold m5.
  rewrite (M_bind_done _ _ _ _ _ (MarkAllocated_run (wset m5 s) _ h2 E2)). cbn [wset words]. fold m6.
  by rewrite (M_bind_done _ _ _ _ _ (MarkFree_run (wset m6 s) _ h1 E1)).
Qed.

Lemma RequestBlock_run s B t :
  geometry B → tags (words s) B 0 → reserve_ok s B → 0 ≤ t ≤ 2 ^ 20 →
  (RequestBlock t s = Panicked PANIC_CANNOT_MALLOC_WITHOUT_FAULTING ∧
   ∀ (i : nat) r, reserve_blocks s !! i = Some r → ¬ fits (page_total t) r) ∨
  ∃ base s', RequestBlock t s = Done (base + 8, s') ∧ requested s B (page_total t) base s'.
Proof.
  intros HB Ht Hok Hr. unfold RequestBlock.
  assert (Z.land (u32 (u32 (t + MIN_REQ_SIZE * 2) + ARCH_PAGE_SIZE - 1)) (Z.lnot (ARCH_PAGE_SIZE - 1)) = page_total t) as Etot.
  { unfold MIN_REQ_SIZE. rewrite (u32_small (t + 8 * 2)) by (unfold is_u32; lia).
    rewrite u32_small by (unfold is_u32, ARCH_PAGE_SIZE; lia). rewrite page_round by (unfold ARCH_PAGE_SIZE; lia).
    unfold page_total, ARCH_PAGE_SIZE. f_equal. f_equal. lia. }
  rewrite Etot. set (T := page_total t). assert (4096 ≤ T ∧ T `mod` 4096 = 0) as [HT HT4] by (unfold T, page_total; lia).
  clearbody T. clear Etot.
  destruct (GetSystemMemory_run s B T Hok ltac:(lia) HT4) as [[E Hno]|(base & s1 & E & G)].
  { left. split; [by apply M_bind_panic|done]. }
  right. destruct G as [G1 G2 G3 G4 G5 G6 G7 G8 G9]. rewrite (M_bind_done _ _ _ _ _ E). clear E.
  rewrite decide_False by (unfold NULL; lia). cbv zeta. change (MIN_REQ_SIZE / 4 * 4) with 8.
  replace (base + (T - MIN_REQ_SIZE) / 4 * 4) with (base + T - 8) by (unfold MIN_REQ_SIZE; lia).
  assert (words s1 = words s) as Ew by (rewrite G1; done).
  destruct (G7 base ltac:(lia) ltac:(lia)) as [w0 H0]. destruct (G7 (base + 8) ltac:(lia) ltac:(lia)) as [w1 H1].
  destruct (G7 (base + T - 8) ltac:(lia) ltac:(lia)) as [w2 H2]. rewrite <- Ew in H0, H1, H2.
  destruct (layout_run s1 base T w0 w1 w2 ltac:(lia) ltac:(lia) H0 H1 H2) as [Erun Hdom].
  { intros x Hx Hx4. rewrite Ew. apply G7; [done|lia]. }
  exists base, (wset (layout (words s1) base T w0 w1 w2) s1). split; [exact Erun|]. clear Erun.
  assert (∀ a b, B !! a = Some b → a + bsize b ≤ base ∨ base + T ≤ a) as Hap.
  { intros a b Ha. pose proof (bo_span _ _ (ge_ok B HB a b Ha)). destruct (G8 a b Ha); lia. }
  assert (geometry (grow B base T)) as HG by (apply geometry_grow; (done || lia)).
  assert (∀ x, ¬ (base ≤ x < base + T) → layout (words s1) base T w0 w1 w2 !! x = words s !! x) as Hfr.
  { intros x Hx. unfold layout, size_words. look. by rewrite Ew. }
  split; cbn [wset words]; [done|lia|split_and!; lia|done| | |done|congruence|done| |].
  - intros a b Ha. apply grow_cases in Ha as [[-> ->]|[[-> ->]|[[-> ->]|[Ha Ho]]]]; try done; try lia; cbn [bsize bkind].
    + split; [eexists|]; cbn [bsize bkind]; unfold layout, size_words; look; [|done]. split; [done|].
      split; [by rewrite alloc_size, header_size|intros _; by rewrite alloc_flag].
    + split; [eexists|]; cbn [bsize bkind]; unfold layout, size_words; look.
      * split; [done|]. split; [rewrite free_size; apply header_size; lia|intros _; by rewrite free_flag].
      * replace (base + 8 + (T - 16) - 4) with (base + T - 8 - 4) by lia. look. done.
    + split; [eexists|]; cbn [bsize bkind]; unfold layout, size_words; look; [|done]. split; [done|].
      split; [by rewrite alloc_size, header_size|intros _; by rewrite alloc_flag].
    + pose proof (block_size_pos B HB _ _ Ha). destruct (Ht a b Ha) as [(w & Hw & R) Htr].
      split; [exists w|]; rewrite Hfr by lia; done.
  - unfold layout, size_words. split; look; done.
  - rewrite G1. reflexivity.
  - apply reserve_ok_words; [|done]. destruct G2 as [O1 O2 O3]. split; [done| |done].
    intros i r Hi Hv. destruct (O2 i r Hi Hv) as [P1 P2 P3 P4 P5 P6 P7]. split; try done.
    intros a b Ha. pose proof (G9 i r Hi Hv) as Hd.
    apply grow_cases in Ha as [[-> ->]|[[-> ->]|[[-> ->]|[Ha _]]]]; cbn [bspan fst snd]; [lia|lia|lia|by apply (P7 a)|lia|done].
Qed.

(** ** The choice of a list *)
Lemma sizes_increase (i j : nat) f g :
  free_list_block_sizes !! i = Some f → free_list_block_sizes !! j = Some g → (i < j)%nat → f < g.
Proof.
  intros Hi Hj Hlt.
  assert (∀ l : list Z, (∀ (k : nat) x y, l !! k = Some x → l !! S k = Some y → x < y) →
    ∀ (d i : nat) x y, l !! i = Some x → l !! (i + S d)%nat = Some y → x < y) as Hchain.
  { intros l Hl. induction d as [|d IH]; intros k x y Hx Hy.
    - rewrite Nat.add_1_r in Hy. by apply (Hl k).
    - destruct (lookup_lt_is_Some_2 l (k + S d)) as [z Hz]; [apply lookup_lt_Some in Hy; lia|].
      specialize (IH k x z Hx Hz). rewrite Nat.add_succ_r in Hy. specialize (Hl _ z y Hz Hy). lia. }
  apply (Hchain free_list_block_sizes) with (d := (j - S i)%nat) (i := i); [|done|by replace (i + S (j - S i))%nat with j by lia].
  intros k x y Hx Hy. assert (k < 35)%nat as Hk by (apply lookup_lt_Some in Hx; exact Hx).
  do 35 (destruct k as [|k]; [simpl in Hx, Hy; (congruence || (injection Hx as <-; injection Hy as <-; lia))|]). lia.
Qed.
Lemma sizes_le (i j : nat) f g :
  free_list_block_sizes !! i = Some f → free_list_block_sizes !! j = Some g → (i ≤ j)%nat → f ≤ g.
Proof.
  intros Hi Hj Hle. destruct (decide (i = j)) as [->|]; [assert (f = g) by congruence; lia|].
  pose proof (sizes_increase i j f g Hi Hj ltac:(lia)). lia.
Qed.

(** The loop stops at the first class that fits: always within the table for the sizes it holds. *)
Lemma list_index_run size : ∀ (n i : nat), (i + n = 36)%nat → (∀ (j : nat) g, (j < i)%nat → free_list_block_sizes !! j = Some g → g < size) →
  size ≤ 1024 * 256 →
  ∃ (k : nat) f, GetSmallestListIndexThatFits_loop n i size = Done (Z.of_nat k) ∧ free_list_block_sizes !! k = Some f ∧ size ≤ f ∧
    ∀ (j : nat) g, (j < k)%nat → free_list_block_sizes !! j = Some g → g < size.
Proof.
  induction n as [|n IH]; intros i Hn Hlt Hsz.
  { specialize (Hlt 34%nat (1024 * 256) ltac:(lia) eq_refl). lia. }
  cbn [GetSmallestListIndexThatFits_loop]. rewrite aget_nat. destruct (free_list_block_sizes !! i) as [f|] eqn:E.
  - destruct (decide (size ≤ f)); [by exists i, f|]. replace (i + 1) with (Z.of_nat (S i)) by lia. apply IH; [lia| |done].
    intros j g Hj Hg. destruct (decide (j = i)) as [->|]; [assert (f = g) by congruence; lia|]. apply (Hlt j); [lia|done].
  - apply lookup_ge_None in E. change (length free_list_block_sizes) with 35%nat in E.
    specialize (Hlt 34%nat (1024 * 256) ltac:(lia) eq_refl). lia.
Qed.

Lemma first_nonempty_spec hs : ∀ (i : nat),
  match first_nonempty hs i with
  | Some (k, h) => ∃ j : nat, k = Z.of_nat (i + j) ∧ hs !! j = Some h ∧ h ≠ NULL
  | None => ∀ (j : nat) h, hs !! j = Some h → h = NULL
  end.
Proof.
  induction hs as [|h hs IH]; intros i; [intros j h Hj; by rewrite lookup_nil in Hj|]. cbn [first_nonempty].
  destruct (decide (h ≠ NULL)) as [Hh|Hh]; [exists 0%nat; split_and!; [lia|done|done]|].
  replace (i + 1) with (Z.of_nat (S i)) by lia. specialize (IH (S i)). destruct (first_nonempty hs (S i)) as [[k h']|].
  - destruct IH as (j & -> & Hj & Hne). exists (S j). split_and!; [lia|done|done].
  - intros [|j] h' Hj; [injection Hj as <-; by apply dec_stable|by apply (IH j)].
Qed.

(** A block goes at least as far up as its size allows. *)
Lemma class_ge s (j : nat) f : 8 ≤ s ≤ BOOTSTRAP_SIZE → free_list_block_sizes !! j = Some f → f ≤ s → j - 1 ≤ class s.
Proof.
  intros Hs Hj Hf. unfold class. destruct (decide (s = 8)) as [->|Hne].
  { destruct j as [|j]; [lia|]. pose proof (sizes_increase 0 (S j) 8 f eq_refl Hj ltac:(lia)). lia. }
  destruct (insertion_loop_total (take (TOTAL_NUM_FREE_LISTS - 1) free_list_block_sizes) 0 s (1024 * 128))
    as [r Hr]; [done|unfold BOOTSTRAP_SIZE in Hs; lia|]. rewrite Hr. simpl.
  destruct (insertion_loop_spec _ _ _ _ Hr) as (k & -> & (g & Hg & Hsg) & _). apply lookup_take_Some in Hg as [Hg _].
  destruct (decide (k < j)%nat) as [Hlt|]; [|lia]. pose proof (sizes_increase k j g f Hg Hj Hlt). lia.
Qed.

(** ** [FindBlock] *)
Lemma reserve_ok_sub s s' B B' :
  reserve_ok s B → reserve_blocks s' = reserve_blocks s → dom (words s') = dom (words s) → spans_in B' B → reserve_ok s' B'.
Proof.
  intros [O1 O2 O3] Er Ed Hs. split; rewrite ?Er; try done. intros i r Hi Hv.
  destruct (O2 i r Hi Hv) as [P1 P2 P3 P4 P5 P6 P7]. split; try done.
  - intros x Hx H4. apply elem_of_dom. rewrite Ed. apply elem_of_dom. by apply P6.
  - intros a b Ha. destruct (Hs a b Ha) as (d & db & Hd & <-). by apply (P7 d).
Qed.

(** One more allocated block, from a list or from new memory. *)
Record found (s : kheap) (B : heap_map) (req x : Z) (s' : kheap) (B' : heap_map) (L' : list (list Z)) : Prop := {
  fo_inv : heap_inv s' B' L' 0;
  fo_block : ∃ bx, B' !! x = Some bx ∧ bkind bx = Used ∧ req + METADATA_TOTAL ≤ bsize bx;
  fo_used : same_used B (delete x B');
  fo_user : user_kept B s s';
  fo_reserve : reserve_ok s' B';
  fo_dom : dom (words s') = dom (words s);
  fo_rest : s' = {| s with words := words s'; head_block := head_block s';
    reserve_blocks := reserve_blocks s'; refill_deferred := refill_deferred s' |};
}.

Section find.
Context (s : kheap) (B : heap_map) (L : list (list Z)) (req : Z).
Context (Hinv : heap_inv s B L 0) (Hres : reserve_ok s B).
Context (H8 : req `mod` 8 = 0) (Hreq : 8 ≤ req).

Lemma head_is_free (i : nat) h : head_block s !! i = Some h → h ≠ NULL →
  ∃ b, B !! h = Some b ∧ bkind b = Free ∧ class (bsize b - 8) = i.
Proof.
  intros Hh Hne. destruct (hi_links _ _ _ _ Hinv) as [Hhs _]. rewrite Hhs, list_lookup_fmap in Hh.
  destruct (L !! i) as [l|] eqn:El; [|done]. injection Hh as <-. destruct l as [|a l]; [done|].
  by apply (cl_sound B L (hi_classes _ _ _ _ Hinv) i (a :: l) a El (list_elem_of_here _ _)).
Qed.

(** From the first block of a list at or above the class of the request. *)
Lemma find_on_list (mi i : nat) f h :
  free_list_block_sizes !! mi = Some f → req ≤ f → (mi ≤ i)%nat → head_block s !! i = Some h → h ≠ NULL →
  ∃ x s' B' L', AllocateBlock h i req s = Done (x, s') ∧ found s B req x s' B' L'.
Proof.
  intros Hf Hrf Hle Hh Hne. destruct (head_is_free i h Hh Hne) as (b & Hb & Hk & Hc).
  pose proof (user_size B h b (hi_geometry _ _ _ _ Hinv) Hb (free_not_fence b Hk)) as Hsz.
  destruct (class_spec _ Hsz) as [_ (g & Hg & Hgs)]. rewrite Hc, aget_nat in Hg. pose proof (sizes_le mi i f g Hf Hg Hle).
  destruct (AllocateBlock_run s B L h b req Hinv Hb Hk H8 Hreq) as (x & s' & B' & L' & E & [A1 A2 A3 A4 A5 A6 A7]).
  { unfold METADATA_TOTAL, METADATA_LEADING, METADATA_TRIALING. lia. }
  rewrite Hc in E. exists x, s', B', L'. split; [exact E|]. clear E. split; [done|done|done|done| |done|].
  - eapply reserve_ok_sub; [exact Hres| |exact A7|exact A5]. by rewrite A6.
  - rewrite A6. reflexivity.
Qed.

(** The new block becomes the only one of its list. *)
Lemma requested_inv total base s1 (c : nat) :
  requested s B total base s1 → class (total - 16 - 8) = c → L !! c = Some [] →
  heap_inv {| s1 with head_block := <[c := base + 8]> (head_block s1) |} (grow B base total) (<[c := [base + 8]]> L) 0.
Proof.
  intros [Q1 Q2 Q3 Q4 Q5 Q6 Q7 Q8 Q9 Q10 Q11] Hc Hl. destruct Hinv as [HB Hm Ht Hmp Hlk Hcl].
  split; cbn [words head_block]; [done|by apply merged_grow; (done || lia)|done| | |by apply classes_grow; (done || lia)].
  - intros a b x Ha Hx H4. apply elem_of_dom. rewrite Q8. apply elem_of_dom.
    apply grow_cases in Ha as [[-> ->]|[[-> ->]|[[-> ->]|[Ha _]]]]; cbn [bsize] in Hx; [apply Q9; lia..|by apply (Hmp a b)|lia|done].
  - replace (head_block s1) with (head_block s) by (by rewrite Q10).
    apply (links_insert (words s) (words s1) (head_block s) L c [base + 8]); [by eapply classes_lists_ok|done| | |].
    + by eapply lookup_lt_Some.
    + cbn [dll dseg first head]. by destruct Q6.
    + intros j l a Hj _ Ha. destruct (cl_sound B L Hcl j l a Hj Ha) as (b & Hb & Hk & _).
      pose proof (bo_min _ _ (ge_ok B HB a b Hb) (free_not_fence b Hk)). pose proof (Q4 a b Hb).
      split; apply Q7; lia.
Qed.

Lemma find_new total base s1 (c : nat) :
  requested s B total base s1 → class (total - 16 - 8) = c → L !! c = Some [] → req + METADATA_TOTAL ≤ total - 16 →
  ∃ x s' B' L', AllocateBlock (base + 8) c req {| s1 with head_block := <[c := base + 8]> (head_block s1) |} = Done (x, s') ∧
    found s B req x s' B' L'.
Proof.
  intros Hq Hc Hl Hfit. pose proof (requested_inv total base s1 c Hq Hc Hl) as Hinv2.
  destruct Hq as [Q1 Q2 Q3 Q4 Q5 Q6 Q7 Q8 Q9 Q10 Q11]. pose proof (hi_geometry _ _ _ _ Hinv) as HB.
  assert (∀ a b, B !! a = Some b → bkind b = Used → grow B base total !! a = Some b) as Hold.
  { intros a b Ha _. apply grow_old; (done || lia). }
  destruct (AllocateBlock_run _ _ _ (base + 8) _ req Hinv2 (grow_middle B base total) eq_refl H8 Hreq Hfit)
    as (x & s' & B' & L' & E & [A1 A2 A3 A4 A5 A6 A7]).
  change (class (bsize (Blk (total - 16) Free (base, total)) - 8)) with (class (total - 16 - 8)) in E. rewrite Hc in E.
  exists x, s', B', L'. split; [exact E|]. clear E. split; [done|done| | | |by rewrite A7|].
  - intros d db Hu. rewrite <- (A3 d db Hu). split; [by intros Hd; apply Hold|].
    intros Hd. by apply grow_cases in Hd as [[-> ->]|[[-> ->]|[[-> ->]|[Hd _]]]]; [| | | |lia|].
  - apply (user_kept_trans _ _ s1); [|eapply user_kept_sub; [exact Hold|exact A4]].
    intros a b y Ha Hk Hy. apply Q7. pose proof (Q4 a b Ha). lia.
  - eapply reserve_ok_sub; [exact Q11| |exact A7|exact A5]. by rewrite A6.
  - rewrite A6, Q10. reflexivity.
Qed.
End find.

(** No reserve block has the three pages that a request of up to a page can need. *)
Definition reserve_low (s : kheap) : Prop := ∀ (i : nat) r, reserve_blocks s !! i = Some r → ¬ fits (3 * 4096) r.

Lemma FindBlock_run s B L req :
  heap_inv s B L 0 → reserve_ok s B → req `mod` 8 = 0 → 8 ≤ req ≤ 1024 * 128 →
  (FindBlock req s = Panicked PANIC_CANNOT_MALLOC_WITHOUT_FAULTING ∧ (req ≤ 4096 → reserve_low s)) ∨
  ∃ x s' B' L', FindBlock req s = Done (x, s') ∧ found s B req x s' B' L'.
Proof.
  intros Hinv Hres H8 [Hreq Hmax]. pose proof (hi_geometry _ _ _ _ Hinv) as HB. unfold FindBlock.
  destruct (list_index_run req 36 0) as (mi & f & Eidx & Hf & Hrf & Hbelow); [done|intros j g Hj; lia|lia|].
  assert (GetSmallestListIndexThatFits req s = Done (Z.of_nat mi, s)) as Em.
  { unfold GetSmallestListIndexThatFits. change (S TOTAL_NUM_FREE_LISTS) with 36%nat. change 0 with (Z.of_nat 0). by rewrite Eidx. }
  rewrite (M_bind_done _ _ _ _ _ Em), (M_bind_done _ _ s s s) by done. rewrite Nat2Z.id. clear Eidx Em.
  pose proof (first_nonempty_spec (drop mi (head_block s)) mi) as Hfn.
  destruct (first_nonempty (drop mi (head_block s)) mi) as [[k h]|].
  { right. destruct Hfn as (j & -> & Hj & Hne). rewrite lookup_drop in Hj.
    by apply (find_on_list s B L req Hinv Hres H8 Hreq mi (mi + j) f h); [| |lia|..]. }
  assert (mi < 34)%nat as Hmi.
  { destruct (decide (mi < 34)%nat); [done|]. specialize (Hbelow 33%nat (1024 * 128) ltac:(lia) eq_refl). lia. }
  destruct (lookup_lt_is_Some_2 free_list_block_sizes (S mi)) as [f' Hf']; [change (length free_list_block_sizes) with 35%nat; lia|].
  pose proof (sizes_increase mi (S mi) f f' Hf Hf' ltac:(lia)) as Hff.
  assert (f' ≤ 1024 * 256) as Hf'max by (apply (sizes_le (S mi) 34 f' _ Hf' eq_refl); lia).
  replace (Z.of_nat mi + 1) with (Z.of_nat (S mi)) by lia. rewrite aget_nat, Hf'. rewrite (M_bind_done _ _ s f' s) by done.
  set (t := f' + METADATA_TOTAL). assert (t = f' + 8) as Et by done.
  destruct (RequestBlock_run s B t HB (hi_tags _ _ _ _ Hinv) Hres ltac:(lia)) as [[E Hno]|(base & s1 & E & Hq)].
  { left. split; [by apply M_bind_panic|]. intros Hsmall i r Hi [Hv Hr]. apply (Hno i r Hi). split; [done|].
    assert (S mi ≤ 29)%nat as H29.
    { destruct (decide (S mi ≤ 29)%nat); [done|]. specialize (Hbelow 28%nat (1024 * 4) ltac:(lia) eq_refl). lia. }
    pose proof (sizes_le (S mi) 29 f' (1024 * 8) Hf' eq_refl H29). unfold page_total. lia. }
  right. rewrite (M_bind_done _ _ _ _ _ E). clear E. set (T := page_total t) in *. assert (t + 16 ≤ T) as HtT by (unfold T, page_total; lia).
  clearbody T. pose proof (rq_size _ _ _ _ _ Hq) as HT. pose proof (rq_pos _ _ _ _ _ Hq) as Hpos. unfold BOOTSTRAP_SIZE in HT.
  pose proof (rq_tags _ _ _ _ _ Hq _ _ (grow_middle B base T)) as Htag.
  rewrite (M_bind_done _ _ _ _ _ (GetSize_run s1 (base + 8) (Blk (T - 16) Free (base, T)) _ Htag ltac:(simpl; lia))). cbn [bsize].
  change (T - 16 - METADATA_TOTAL) with (T - 16 - 8).
  rewrite (M_bind_done _ _ _ _ _ (GetInsertionIndex_run (T - 16 - 8) s1 ltac:(unfold BOOTSTRAP_SIZE; lia))).
  destruct (class_nat (T - 16 - 8)) as (c & Ec & Hc); [unfold BOOTSTRAP_SIZE; lia|].
  pose proof (class_ge (T - 16 - 8) (S mi) f' ltac:(unfold BOOTSTRAP_SIZE; lia) Hf' ltac:(lia)) as Hge. rewrite Ec in *.
  destruct (hi_links _ _ _ _ Hinv) as [Hhs _]. pose proof (cl_length _ _ (hi_classes _ _ _ _ Hinv)) as Hlen.
  destruct (lookup_lt_is_Some_2 L c) as [l Hl]; [by rewrite Hlen|].
  assert (head_block s !! c = Some (first l NULL)) as Hhc by (by rewrite Hhs, list_lookup_fmap, Hl).
  assert (first l NULL = NULL) as Hnull.
  { apply (Hfn (c - mi)%nat). rewrite lookup_drop. replace (mi + (c - mi))%nat with c by lia. done. }
  assert (l = []) as ->.
  { destruct l as [|a l]; [done|]. destruct (cl_sound _ _ (hi_classes _ _ _ _ Hinv) c (a :: l) a Hl (list_elem_of_here _ _)) as (b & Hb & _).
    pose proof (bo_pos _ _ (ge_ok B HB a b Hb)). change (a = 0) in Hnull. lia. }
  assert (head_block s1 = head_block s) as Eh by (by rewrite (rq_rest _ _ _ _ _ Hq)).
  rewrite (M_bind_done _ _ _ _ _ (get_head_run s1 c NULL ltac:(by rewrite Eh))).
  rewrite bool_decide_true by done. rewrite (M_bind_done _ _ s1 tt s1) by done.
  assert (c < length (head_block s1))%nat as Hclen by (rewrite Eh; by eapply lookup_lt_Some).
  rewrite (M_bind_done _ _ _ _ _ (set_head_run s1 c (base + 8) Hclen)).
  rewrite (M_bind_done _ _ _ _ _ (get_head_run {| s1 with head_block := <[c := base + 8]> (head_block s1) |} c (base + 8)
    (list_lookup_insert_eq (head_block s1) c (base + 8) Hclen))).
  apply (find_new s B L req Hinv H8 Hreq T base s1 c Hq Ec Hl). unfold METADATA_TOTAL, METADATA_LEADING, METADATA_TRIALING. lia.
Qed.

(** A request over 8 KiB finds no list: no block is that large. *)
Lemma class_top s : 8 ≤ s ≤ BOOTSTRAP_SIZE → class s ≤ 29.
Proof.
  intros Hs. unfold class. destruct (decide (s = 8)) as [->|Hne]; [lia|].
  destruct (insertion_loop_total (take (TOTAL_NUM_FREE_LISTS - 1) free_list_block_sizes) 0 s (1024 * 128))
    as [r Hr]; [done|unfold BOOTSTRAP_SIZE in Hs; lia|]. rewrite Hr. simpl.
  destruct (insertion_loop_spec _ _ _ _ Hr) as (k & -> & _ & Hlt).
  destruct (decide (k ≤ 30)%nat); [lia|]. specialize (Hlt 30%nat (1024 * 16) ltac:(lia) eq_refl). unfold BOOTSTRAP_SIZE in Hs. lia.
Qed.

Lemma FindBlock_too_large s B L req :
  heap_inv s B L 0 → reserve_ok s B → 1024 * 8 < req ≤ 1024 * 128 →
  FindBlock req s = Panicked PANIC_CANNOT_MALLOC_WITHOUT_FAULTING.
Proof.
  intros Hinv Hres [Hlow Hmax]. pose proof (hi_geometry _ _ _ _ Hinv) as HB. unfold FindBlock.
  destruct (list_index_run req 36 0) as (mi & f & Eidx & Hf & Hrf & Hbelow); [done|intros j g Hj; lia|lia|].
  assert (GetSmallestListIndexThatFits req s = Done (Z.of_nat mi, s)) as Em.
  { unfold GetSmallestListIndexThatFits. change (S TOTAL_NUM_FREE_LISTS) with 36%nat. change 0 with (Z.of_nat 0). by rewrite Eidx. }
  rewrite (M_bind_done _ _ _ _ _ Em), (M_bind_done _ _ s s s) by done. rewrite Nat2Z.id. clear Eidx Em.
  assert (30 ≤ mi)%nat as H30.
  { destruct (decide (30 ≤ mi)%nat); [done|]. pose proof (sizes_le mi 29 f (1024 * 8) Hf eq_refl ltac:(lia)). lia. }
  pose proof (first_nonempty_spec (drop mi (head_block s)) mi) as Hfn.
  destruct (first_nonempty (drop mi (head_block s)) mi) as [[k h]|].
  { destruct Hfn as (j & _ & Hj & Hne). rewrite lookup_drop in Hj. exfalso.
    destruct (head_is_free s B L Hinv (mi + j)%nat h Hj Hne) as (b & Hb & Hk & Hc).
    pose proof (class_top _ (user_size B h b HB Hb (free_not_fence b Hk))). lia. }
  assert (mi < 34)%nat as Hmi.
  { destruct (decide (mi < 34)%nat); [done|]. specialize (Hbelow 33%nat (1024 * 128) ltac:(lia) eq_refl). lia. }
  destruct (lookup_lt_is_Some_2 free_list_block_sizes (S mi)) as [f' Hf']; [change (length free_list_block_sizes) with 35%nat; lia|].
  pose proof (sizes_le 31 (S mi) _ f' eq_refl Hf' ltac:(lia)) as Hff.
  pose proof (sizes_le (S mi) 34 f' _ Hf' eq_refl ltac:(lia)) as Hf'max.
  replace (Z.of_nat mi + 1) with (Z.of_nat (S mi)) by lia. rewrite aget_nat, Hf'. rewrite (M_bind_done _ _ s f' s) by done.
  set (t := f' + METADATA_TOTAL). assert (t = f' + 8) as Et by done.
  destruct (RequestBlock_run s B t HB (hi_tags _ _ _ _ Hinv) Hres ltac:(lia)) as [[E _]|(base & s1 & _ & Hq)]; [by apply M_bind_panic|].
  pose proof (rq_size _ _ _ _ _ Hq) as HT. unfold page_total, BOOTSTRAP_SIZE in HT. lia.
Qed.
