(* ===== verification/KernelHeapTheorems.v ===== *)
(** * What the kernel heap promises its callers

    The callers see a map of live allocations, pointer to capacity. [heap_view]
    ties it to the memory of the allocator, and the theorems run [AllocHeapEx],
    [FreeHeap] and [ReallocHeap] of mem/heap.c against it. *)

From S2P Require Import Prelude KernelHeap KernelHeapInv KernelHeapBlocks KernelHeapAlloc KernelHeapFind.

#[local] Ltac Zify.zify_post_hook ::= Z.to_euclidean_division_equations.

(** ** The view *)
Abbreviation live_map := (gmap Z Z).

Record heap_view (s : kheap) (U : live_map) (B : heap_map) (L : list (list Z)) : Prop := {
  hv_inv : heap_inv s B L 0;
  hv_reserve : reserve_ok s B;
  hv_unlocked : heap_spinlock s = false;
  hv_live : ∀ p n, U !! p = Some n ↔ ∃ b, B !! (p - 4) = Some b ∧ bkind b = Used ∧ n = bsize b - 8;
  hv_count : outstanding_allocations s = size U;
}.
Definition kheap_ok (s : kheap) (U : live_map) : Prop := ∃ B L, heap_view s U B L.

(** The words of the allocations [U] are as they were. *)
Definition contents_kept (U : live_map) (s s' : kheap) : Prop :=
  ∀ p n x, U !! p = Some n → p ≤ x < p + n → words s' !! x = words s !! x.
(** [p] and [n] overlap none of [U]. *)
Definition apart_from (U : live_map) (p n : Z) : Prop :=
  ∀ q m, U !! q = Some m → q ≠ p ∧ (p + n ≤ q ∨ q + m ≤ p).

Lemma live_block s U B L p n : heap_view s U B L → U !! p = Some n →
  ∃ b, B !! (p - 4) = Some b ∧ bkind b = Used ∧ bsize b = n + 8 ∧ 8 ≤ n ∧ n `mod` 8 = 0 ∧ p `mod` 8 = 4 ∧ 4 < p.
Proof.
  intros Hv Hp. apply (hv_live _ _ _ _ Hv) in Hp as (b & Hb & Hk & ->). exists b.
  destruct (ge_ok B (hi_geometry _ _ _ _ (hv_inv _ _ _ _ Hv)) _ b Hb) as [A1 A2 A3 _ A5 _ _ _].
  specialize (A5 (used_not_fence b Hk)). split_and!; (done || lia).
Qed.

(** Live allocations do not overlap. *)
Lemma live_disjoint s U p n q m : kheap_ok s U → U !! p = Some n → U !! q = Some m → p ≠ q → p + n ≤ q ∨ q + m ≤ p.
Proof.
  intros (B & L & Hv) Hp Hq Hne. destruct (live_block s U B L p n Hv Hp) as (b & Hb & _ & Eb & _).
  destruct (live_block s U B L q m Hv Hq) as (c & Hc & _ & Ec & _).
  destruct (ge_disj B (hi_geometry _ _ _ _ (hv_inv _ _ _ _ Hv)) _ b _ c Hb Hc ltac:(lia)); lia.
Qed.

(** ** Writing inside an allocation *)
Record inside (s s' : kheap) (a : Z) (b : blk) : Prop := {
  in_rest : s' = wset (words s') s;
  in_dom : dom (words s') = dom (words s);
  in_frame : ∀ x, ¬ (a + 4 ≤ x < a + bsize b - 4) → words s' !! x = words s !! x;
}.

Lemma inside_refl s a b : inside s s a b.
Proof. split; [by destruct s|done|done]. Qed.
Lemma inside_trans s s1 s2 a b : inside s s1 a b → inside s1 s2 a b → inside s s2 a b.
Proof. intros [R1 D1 F1] [R2 D2 F2]. split; [by rewrite R2, R1|congruence|]. intros x Hx. by rewrite F2, F1. Qed.
Lemma inside_write s a b x v :
  is_Some (words s !! x) → a + 4 ≤ x < a + bsize b - 4 → inside s (wset (<[x := v]> (words s)) s) a b.
Proof. intros Hx Hin. split; [done|by apply dom_write|]. intros y Hy. apply lookup_insert_ne. lia. Qed.

Lemma heap_inv_inside s s' B L a b :
  heap_inv s B L 0 → B !! a = Some b → bkind b = Used → inside s s' a b → heap_inv s' B L 0.
Proof.
  intros [HB Hm Ht Hmp Hlk Hcl] Ha Hk [R D F]. split; try done.
  - intros c cb Hc. pose proof (block_size_pos B HB _ _ Hc). pose proof (block_size_pos B HB _ _ Ha).
    assert (∀ x, x = c ∨ x = c + bsize cb - 4 → words s' !! x = words s !! x) as Hx.
    { intros x Hx. apply F. intros Hin. destruct (decide (c = a)) as [->|Hne].
      - assert (cb = b) as -> by congruence. lia.
      - destruct (inside_tag B HB c cb a b x Hc Ha Hne); lia. }
    destruct (Ht c cb Hc) as [(w & Hw & Hr) Htr]. split; [exists w|]; rewrite Hx by auto; done.
  - intros c cb x Hc Hx H4. apply elem_of_dom. rewrite D. apply elem_of_dom. by apply (Hmp c cb).
  - rewrite R. cbn [wset words head_block]. destruct Hlk as [E Hd]. split; [done|].
    rewrite Forall_lookup in Hd |- *. intros i l Hl. eapply dseg_frame; [|exact (Hd i l Hl)]. intros c Hc.
    destruct (cl_sound B L Hcl i l c Hl Hc) as (cb & Hcb & Hf & _). pose proof (bo_min _ _ (ge_ok B HB c cb Hcb) (free_not_fence cb Hf)).
    assert (∀ x, c ≤ x < c + bsize cb → words s' !! x = words s !! x) as Hx; [|split; apply Hx; lia].
    intros x Hx. apply F. intros Hin. assert (c = a) as -> by (apply (same_block B HB c cb a b x); (done || lia)). congruence.
Qed.

Lemma heap_view_inside s s' U B L a b :
  heap_view s U B L → B !! a = Some b → bkind b = Used → inside s s' a b → heap_view s' U B L.
Proof.
  intros [V1 V2 V3 V4 V5] Ha Hk Hi. pose proof (heap_inv_inside s s' B L a b V1 Ha Hk Hi) as Hinv. destruct Hi as [R D F].
  split; [done| | |done|]; [|by rewrite R..]. eapply reserve_ok_sub; [exact V2|by rewrite R|exact D|apply spans_in_refl].
Qed.
Lemma contents_inside s s' U B L p n b :
  heap_view s U B L → U !! p = Some n → B !! (p - 4) = Some b → inside s s' (p - 4) b → contents_kept (delete p U) s s'.
Proof.
  intros Hv Hp Hb [_ _ F] q m x [Hne Hq]%lookup_delete_Some Hx. apply F.
  destruct (live_block s U B L p n Hv Hp) as (b' & Hb' & _ & Eb & _). assert (b' = b) as -> by congruence.
  destruct (live_disjoint s U p n q m) as [?|?]; [by exists B, L|done..|lia|lia].
Qed.

(** *** [memset] and [memcpy] *)
Lemma zero_words_run a b : ∀ n p s,
  (∀ x, p ≤ x < p + 4 * Z.of_nat n → x `mod` 4 = 0 → is_Some (words s !! x)) →
  p `mod` 4 = 0 → a + 4 ≤ p → p + 4 * Z.of_nat n ≤ a + bsize b - 4 →
  ∃ s', zero_words n p s = Done (tt, s') ∧ inside s s' a b ∧
    (∀ x, ¬ (p ≤ x < p + 4 * Z.of_nat n) → words s' !! x = words s !! x) ∧
    ∀ x, p ≤ x < p + 4 * Z.of_nat n → x `mod` 4 = 0 → words s' !! x = Some 0.
Proof.
  induction n as [|n IH]; intros p s Hmap H4 Hlo Hhi.
  { exists s. split_and!; [done|apply inside_refl|done|lia]. }
  cbn [zero_words]. assert (is_Some (words s !! p)) as Hp by (apply Hmap; lia).
  rewrite (M_bind_done _ _ _ _ _ (wr_run s p 0 Hp)). set (s1 := wset (<[p := 0]> (words s)) s).
  pose proof (inside_write s a b p 0 Hp ltac:(lia)) as I1. destruct (IH (p + 4) s1) as (s' & E & I2 & Fo & Fi); [|lia|lia|lia|].
  { intros x Hx Hx4. apply elem_of_dom. cbn [s1 wset words]. rewrite dom_write by done. apply elem_of_dom. apply Hmap; lia. }
  exists s'. split; [exact E|]. split; [by eapply inside_trans|]. split.
  - intros x Hx. rewrite Fo by lia. apply lookup_insert_ne. lia.
  - intros x Hx Hx4. destruct (decide (x = p)) as [->|]; [rewrite Fo by lia; apply lookup_insert_eq|apply Fi; lia].
Qed.

Lemma copy_words_run a b : ∀ n dst src s,
  (∀ x, src ≤ x < src + 4 * Z.of_nat n → x `mod` 4 = 0 → is_Some (words s !! x)) →
  (∀ x, dst ≤ x < dst + 4 * Z.of_nat n → x `mod` 4 = 0 → is_Some (words s !! x)) →
  dst `mod` 4 = 0 → src `mod` 4 = 0 → a + 4 ≤ dst → dst + 4 * Z.of_nat n ≤ a + bsize b - 4 →
  (src + 4 * Z.of_nat n ≤ a + 4 ∨ a + bsize b - 4 ≤ src) →
  ∃ s', copy_words n dst src s = Done (tt, s') ∧ inside s s' a b ∧
    (∀ x, ¬ (dst ≤ x < dst + 4 * Z.of_nat n) → words s' !! x = words s !! x) ∧
    ∀ i, 0 ≤ i < 4 * Z.of_nat n → i `mod` 4 = 0 → words s' !! (dst + i) = words s !! (src + i).
Proof.
  induction n as [|n IH]; intros dst src s Hsrc Hdst Hd4 Hs4 Hlo Hhi Hap.
  { exists s. split_and!; [done|apply inside_refl|done|lia]. }
  cbn [copy_words]. destruct (Hsrc src) as [w Hw]; [lia|lia|]. assert (is_Some (words s !! dst)) as Hp by (apply Hdst; lia).
  rewrite (M_bind_done _ _ _ _ _ (rd_run s src w Hw)), (M_bind_done _ _ _ _ _ (wr_run s dst w Hp)).
  set (s1 := wset (<[dst := w]> (words s)) s).
  assert (dom (words s1) = dom (words s)) as Dom by (by apply dom_write).
  pose proof (inside_write s a b dst w Hp ltac:(lia)) as I1.
  destruct (IH (dst + 4) (src + 4) s1) as (s' & E & I2 & Fo & Fi); try lia.
  { intros x Hx Hx4. apply elem_of_dom. rewrite Dom. apply elem_of_dom. apply Hsrc; lia. }
  { intros x Hx Hx4. apply elem_of_dom. rewrite Dom. apply elem_of_dom. apply Hdst; lia. }
  exists s'. split; [exact E|]. split; [by eapply inside_trans|]. split.
  - intros x Hx. rewrite Fo by lia. apply lookup_insert_ne. lia.
  - intros i Hi Hi4. destruct (decide (i = 0)) as [->|].
    + rewrite !Z.add_0_r, Fo by lia. rewrite Hw. apply lookup_insert_eq.
    + replace (dst + i) with (dst + 4 + (i - 4)) by lia. rewrite Fi by lia.
      replace (src + 4 + (i - 4)) with (src + i) by lia. apply lookup_insert_ne. lia.
Qed.

Lemma reserve_ok_words_same s s' B :
  reserve_ok s B → words s' = words s → reserve_blocks s' = reserve_blocks s → reserve_ok s' B.
Proof. intros H Ew Er. eapply reserve_ok_sub; [exact H|done|by rewrite Ew|apply spans_in_refl]. Qed.

(** ** Allocation *)
Lemma RoundUpSize_run s size : 0 < size ≤ 1024 * 128 →
  ∃ req, RoundUpSize size s = Done (req, s) ∧ req `mod` 8 = 0 ∧ 8 ≤ req ≤ 1024 * 128 ∧ size ≤ req < size + 8.
Proof.
  intros Hs. unfold RoundUpSize. rewrite bool_decide_true by lia. rewrite (M_bind_done _ _ s tt s) by done.
  set (z := if decide (size < MIN_REQ_SIZE) then MIN_REQ_SIZE else size).
  assert (8 ≤ z ≤ 1024 * 128 ∧ size ≤ z ∧ (z = 8 ∨ z = size)) as Hz.
  { unfold z, MIN_REQ_SIZE. clear z. case_decide; split_and!; lia. }
  clearbody z. exists ((z + 7) / 8 * 8). split; [|lia].
  rewrite u32_small by (unfold is_u32, ALIGNMENT; lia). change (ALIGNMENT - 1) with (Z.ones 3).
  rewrite <- Z.ldiff_land, Z.ldiff_ones_r, Z.shiftr_div_pow2, Z.shiftl_mul_pow2 by lia.
  unfold ALIGNMENT. replace (z + 8 - 1) with (z + 7) by lia. done.
Qed.

(** The view after a block was found, [p] being the new pointer. *)
Lemma view_found s U B L req x s' B' L' :
  heap_view s U B L → found s B req x s' B' L' →
  ∃ n bx, B' !! x = Some bx ∧ bkind bx = Used ∧ bsize bx = n + 8 ∧ req ≤ n ∧ U !! (x + 4) = None ∧
    heap_view {| s' with outstanding_allocations := outstanding_allocations s' + 1 |} (<[x + 4 := n]> U) B' L' ∧
    contents_kept U s s'.
Proof.
  intros Hv [F1 (bx & Hx & Hk & Hsz) F3 F4 F5 F6 F7]. pose proof (hv_live _ _ _ _ Hv) as Hlive.
  exists (bsize bx - 8), bx. unfold METADATA_TOTAL, METADATA_LEADING, METADATA_TRIALING in Hsz.
  assert (U !! (x + 4) = None) as Hfresh.
  { apply eq_None_not_Some. intros [n (b & Hb & Hbk & _)%Hlive]. replace (x + 4 - 4) with x in Hb by lia.
    apply (F3 x b Hbk) in Hb. by rewrite lookup_delete_eq in Hb. }
  split_and!; [done|done|lia|lia|done| |].
  - split; cbn [outstanding_allocations].
    + destruct F1. by split.
    + by apply (reserve_ok_words_same s').
    + rewrite F7. apply Hv.
    + intros p n. destruct (decide (p = x + 4)) as [->|Hne].
      * rewrite lookup_insert_eq. replace (x + 4 - 4) with x by lia. split; [intros [= <-]; eauto|].
        intros (b & Hb & _ & ->). congruence.
      * rewrite lookup_insert_ne by done. rewrite Hlive. split; intros (b & Hb & Hbk & ->); exists b; (split; [|done]).
        -- apply (F3 (p - 4) b Hbk) in Hb. by apply lookup_delete_Some in Hb as [_ Hb].
        -- apply (F3 (p - 4) b Hbk). rewrite lookup_delete_ne by lia. done.
    + rewrite F7. cbn [outstanding_allocations]. rewrite (hv_count _ _ _ _ Hv), map_size_insert_None by done. lia.
  - intros p n y Hp Hy. destruct (live_block s U B L p n Hv Hp) as (b & Hb & Hbk & Eb & _).
    apply (F4 (p - 4) b y); [done|done|lia].
Qed.

(** What a successful request promises. *)
Record new_allocation (s : kheap) (U : live_map) (size flags p : Z) (s' : kheap) (U' : live_map) : Prop := {
  na_map : ∃ n, size ≤ n ∧ U' = <[p := n]> U ∧ apart_from U p n;
  na_fresh : U !! p = None;
  na_nonnull : 0 < p;
  na_align : p `mod` 8 = 4;
  na_ok : kheap_ok s' U';
  na_kept : contents_kept U s s';
  na_zero : Z.land flags HEAP_ZERO ≠ 0 → ∀ x, p ≤ x < p + size → x `mod` 4 = 0 → words s' !! x = Some 0;
}.

Lemma AllocHeapEx_run s U size flags :
  kheap_ok s U → 0 < size ≤ 1024 * 128 →
  (AllocHeapEx size flags s = Panicked PANIC_CANNOT_MALLOC_WITHOUT_FAULTING ∧ (size ≤ 4096 → reserve_low s)) ∨
  ∃ p s' U', AllocHeapEx size flags s = Done (p, s') ∧ new_allocation s U size flags p s' U'.
Proof.
  intros (B & L & Hv) Hs. pose proof (hv_unlocked _ _ _ _ Hv) as Hul. unfold AllocHeapEx. rewrite decide_False by lia.
  set (s0 := {| s with heap_spinlock := true |}).
  assert (LockHeap s = Done (true, s0)) as E0 by (unfold LockHeap; mred; by rewrite Hul).
  rewrite (M_bind_done _ _ _ _ _ E0). clear E0.
  destruct (RoundUpSize_run s0 size Hs) as (req & E1 & H8 & Hreq & Hsr). rewrite (M_bind_done _ _ _ _ _ E1). clear E1.
  assert (heap_inv s0 B L 0 ∧ reserve_ok s0 B) as [Hinv0 Hres0].
  { destruct Hv as [[] Hr _ _ _]. split; [by split|by apply (reserve_ok_words_same s)]. }
  destruct (FindBlock_run s0 B L req Hinv0 Hres0 H8 Hreq) as [[E Hlow]|(x & s1 & B' & L' & E & Hf)].
  { left. split; [by apply M_bind_panic|]. intros Hsz i r Hi. apply (Hlow ltac:(lia) i r). exact Hi. }
  right. rewrite (M_bind_done _ _ _ _ _ E). clear E.
  assert (found s B req x {| s1 with heap_spinlock := false |} B' L') as Hf'.
  { destruct Hf as [[] F2 F3 F4 F5 F6 F7]. split; [by split|done|done|done|by apply (reserve_ok_words_same s1)|done|]. rewrite F7. cbn. by rewrite <- Hul. }
  assert (heap_spinlock s1 = true) as Hl1 by (by rewrite (fo_rest _ _ _ _ _ _ _ Hf)). clear Hf.
  destruct (view_found s U B L req x _ B' L' Hv Hf') as (n & bx & Hx & Hk & Hsz & Hn & Hfresh & Hv' & Hkept). clear Hf'.
  set (s2 := {| s1 with heap_spinlock := false; outstanding_allocations := outstanding_allocations s1 + 1 |}).
  change (heap_view s2 (<[x + 4 := n]> U) B' L') in Hv'. change (contents_kept U s s2) in Hkept.
  rewrite (M_bind_done (modify _) _ s1 tt {| s1 with outstanding_allocations := outstanding_allocations s1 + 1 |}) by done.
  assert (UnlockHeap {| s1 with outstanding_allocations := outstanding_allocations s1 + 1 |} = Done (tt, s2)) as E2.
  { unfold UnlockHeap. mred. cbn [heap_spinlock]. by rewrite Hl1. }
  rewrite (M_bind_done _ _ _ _ _ E2). clear E2.
  destruct (ge_ok B' (hi_geometry _ _ _ _ (hv_inv _ _ _ _ Hv')) x bx Hx) as [A1 A2 A3 _ _ _ _ A8].
  assert (Z.land x (ALIGNMENT - 1) = 0) as ->.
  { change (ALIGNMENT - 1) with (Z.ones 3). rewrite Z.land_ones by lia. done. }
  rewrite bool_decide_true by done. rewrite (M_bind_done _ _ s2 tt s2) by done. unfold METADATA_LEADING.
  assert (∃ s', (if decide (Z.land flags HEAP_ZERO ≠ 0) then zero_words (Z.to_nat (req / 4)) (x + 4) else mret tt) s2 = Done (tt, s') ∧
    inside s2 s' x bx ∧ (Z.land flags HEAP_ZERO ≠ 0 → ∀ y, x + 4 ≤ y < x + 4 + size → y `mod` 4 = 0 → words s' !! y = Some 0))
    as (s' & E3 & Hin & Hz).
  { destruct (decide _) as [Hfl|Hfl]; [|exists s2; split_and!; [done|apply inside_refl|done]].
    destruct (zero_words_run x bx (Z.to_nat (req / 4)) (x + 4) s2) as (s' & E & I & _ & Z0); [|lia|lia|lia|].
    - intros y Hy H4. apply (hi_mapped _ _ _ _ (hv_inv _ _ _ _ Hv') x bx y); [done|lia|done].
    - exists s'. split_and!; [done|done|]. intros _ y Hy. apply Z0. lia. }
  rewrite (M_bind_done _ _ _ _ _ E3). clear E3. exists (x + 4), s', (<[x + 4 := n]> U). split; [done|].
  assert (kheap_ok s' (<[x + 4 := n]> U)) as Hok by (exists B', L'; by eapply heap_view_inside).
  split; [|done|lia|lia|done| |done].
  - exists n. split; [lia|]. split; [done|]. intros q m Hq.
    assert (q ≠ x + 4) as Hne by (intros ->; congruence). split; [done|].
    destruct (live_disjoint s' (<[x + 4 := n]> U) (x + 4) n q m Hok); [apply lookup_insert_eq|by rewrite lookup_insert_ne|done|lia|lia].
  - intros q m y Hq Hy. rewrite <- (Hkept q m y Hq Hy).
    apply (contents_inside s2 s' (<[x + 4 := n]> U) B' L' (x + 4) n bx Hv' (lookup_insert_eq _ _ _)) with (p := q) (n := m);
      [by replace (x + 4 - 4) with x by lia|by replace (x + 4 - 4) with x by lia| |done].
    rewrite delete_insert_id by done. done.
Qed.

(** ** Freeing *)
Lemma FreeHeap_run s U p n :
  kheap_ok s U → U !! p = Some n →
  ∃ s', FreeHeap p s = Done (tt, s') ∧ kheap_ok s' (delete p U) ∧ contents_kept (delete p U) s s'.
Proof.
  intros (B & L & Hv) Hp. destruct (live_block s U B L p n Hv Hp) as (b & Hb & Hk & Hsz & Hn & Hn8 & Hal & Hp4).
  unfold FreeHeap. rewrite decide_False by (unfold NULL; lia). cbv zeta. unfold METADATA_LEADING. set (a := p - 4) in *.
  pose proof (hi_mapped _ _ _ _ (hv_inv _ _ _ _ Hv)) as Hmp. unfold set_prev, set_next.
  assert (is_Some (words s !! (a + 8))) as M8 by (apply (Hmp a b); [done|lia|lia]).
  rewrite (M_bind_done _ _ _ _ _ (wr_run s (a + 8) NULL M8)). set (s1 := {| s with words := _ |}).
  pose proof (inside_write s a b (a + 8) NULL M8 ltac:(lia)) as I1. change (inside s s1 a b) in I1.
  assert (is_Some (words s1 !! (a + 4))) as M4.
  { apply elem_of_dom. rewrite (in_dom _ _ _ _ I1). apply elem_of_dom. apply (Hmp a b); [done|lia|lia]. }
  rewrite (M_bind_done _ _ _ _ _ (wr_run s1 (a + 4) NULL M4)). set (s2 := {| s1 with words := _ |}).
  pose proof (inside_write s1 a b (a + 4) NULL M4 ltac:(lia)) as I2. change (inside s1 s2 a b) in I2.
  pose proof (inside_trans _ _ _ _ _ I1 I2) as I. clear I1 I2.
  pose proof (heap_view_inside s s2 U B L a b Hv Hb Hk I) as Hv2.
  pose proof (contents_inside s s2 U B L p n b Hv Hp Hb I) as Hc2.
  assert (LockHeap s2 = Done (true, {| s2 with heap_spinlock := true |})) as E.
  { unfold LockHeap. mred. by rewrite (hv_unlocked _ _ _ _ Hv2). }
  rewrite (M_bind_done _ _ _ _ _ E). clear E. set (s3 := {| s2 with heap_spinlock := true |}).
  assert (heap_inv s3 B L a) as Hinv3.
  { destruct (hv_inv _ _ _ _ Hv2) as [? ? Ht ? ? ?]. split; try done. intros c cb Hc.
    destruct (Ht c cb Hc) as [(w & ? & ? & Hfl) ?]. split; [|done]. exists w. split; [done|]. split; [done|].
    intros _. apply Hfl. pose proof (bo_pos _ _ (ge_ok B ltac:(done) c cb Hc)). lia. }
  destruct (AddBlock_run s3 B L a b Hinv3 Hb Hk) as (x & s4 & B' & L' & E & [F1 F2 F3 F4 F5 F6]).
  rewrite (M_bind_done _ _ _ _ _ E). clear E.
  rewrite (M_bind_done (modify _) _ s4 tt {| s4 with outstanding_allocations := outstanding_allocations s4 - 1 |}) by done.
  assert (heap_spinlock s4 = true) as Hl4 by (by rewrite F5).
  exists {| s4 with outstanding_allocations := outstanding_allocations s4 - 1; heap_spinlock := false |}.
  split; [unfold UnlockHeap; mred; cbn [heap_spinlock]; by rewrite Hl4|]. split.
  - exists B', L'. split; cbn [outstanding_allocations heap_spinlock].
    + destruct F1. by split.
    + assert (reserve_ok s4 B') as Hr by (eapply (reserve_ok_sub s2); [apply Hv2|by rewrite F5|exact F6|exact F4]).
      by apply (reserve_ok_words_same s4).
    + done.
    + intros q m. rewrite lookup_delete_Some, (hv_live _ _ _ _ Hv2 q m). split.
      * intros (Hne & c & Hc & Hck & ->). exists c. split; [|done]. apply (F2 _ c Hck), lookup_delete_Some. split; [unfold a; lia|done].
      * intros (c & Hc & Hck & ->). apply (F2 _ c Hck) in Hc. apply lookup_delete_Some in Hc as [Hne Hc].
        split; [intros ->; done|]. by exists c.
    + rewrite F5. cbn [outstanding_allocations s3 s2 s1]. rewrite (hv_count _ _ _ _ Hv), map_size_delete_Some by (by eexists).
      assert (size U ≠ 0%nat); [|lia]. intros E0%map_size_empty_inv. rewrite E0 in Hp. by rewrite lookup_empty in Hp.
  - intros q m y Hq Hy. rewrite <- (Hc2 q m y Hq Hy). apply lookup_delete_Some in Hq as [Hne Hq].
    destruct (live_block s2 U B L q m Hv2 Hq) as (c & Hc & Hck & Ec & _).
    apply (F3 (q - 4) c y); [|done|lia]. apply lookup_delete_Some. split; [unfold a; lia|done].
Qed.

(** ** Growing an allocation *)
Lemma GetSize_live s U p n : kheap_ok s U → U !! p = Some n → GetSize (p - METADATA_LEADING) s = Done (n + 8, s).
Proof.
  intros (B & L & Hv) Hp. destruct (live_block s U B L p n Hv Hp) as (b & Hb & _ & Hsz & _ & Hn8 & _).
  unfold METADATA_LEADING. rewrite <- Hsz.
  apply (GetSize_run s (p - 4) b _ (hi_tags _ _ _ _ (hv_inv _ _ _ _ Hv) _ b Hb)). lia.
Qed.

(** The word after the last one of an allocation is its size tag, and the next
    one the header of its neighbour: both can be read. *)
Lemma live_mapped s U p n x : kheap_ok s U → U !! p = Some n → p ≤ x < p + n + 8 → x `mod` 4 = 0 → is_Some (words s !! x).
Proof.
  intros (B & L & Hv) Hp Hx H4. destruct (live_block s U B L p n Hv Hp) as (b & Hb & Hk & Hsz & _ & Hn8 & Hal & _).
  pose proof (hv_inv _ _ _ _ Hv) as [HB _ _ Hmp _ _].
  destruct (decide (x < p + n + 4)) as [|Hge]; [apply (Hmp (p - 4) b); (done || lia)|].
  destruct (ge_next B HB (p - 4) b Hb) as (nb & Hnb & _); [by rewrite Hk|].
  pose proof (block_size_pos B HB _ _ Hnb). apply (Hmp _ nb x Hnb); [lia|done].
Qed.

Record grown (s : kheap) (U : live_map) (p n new_size q : Z) (s' : kheap) (U' : live_map) : Prop := {
  gn_map : ∃ m, new_size ≤ m ∧ U' = <[q := m]> (delete p U);
  gn_fresh : U !! q = None;
  gn_ok : kheap_ok s' U';
  gn_data : ∀ i, 0 ≤ i < n → i `mod` 4 = 0 → words s' !! (q + i) = words s !! (p + i);
  gn_kept : contents_kept (delete p U) s s';
}.

Lemma ReallocHeap_run s U p n new_size :
  kheap_ok s U → U !! p = Some n → n + 8 < new_size ≤ 1024 * 128 →
  (ReallocHeap p new_size s = Panicked PANIC_CANNOT_MALLOC_WITHOUT_FAULTING ∧ (new_size ≤ 4096 → reserve_low s)) ∨
  ∃ q s' U', ReallocHeap p new_size s = Done (q, s') ∧ grown s U p n new_size q s' U'.
Proof.
  intros Hok Hp Hs. unfold ReallocHeap. rewrite (M_bind_done _ _ _ _ _ (GetSize_live s U p n Hok Hp)). rewrite decide_False by lia.
  assert (8 ≤ n ∧ n `mod` 8 = 0 ∧ p `mod` 8 = 4) as (Hn & Hn8 & Hal).
  { destruct Hok as (B & L & Hv). destruct (live_block s U B L p n Hv Hp) as (b & _ & _ & _ & ?). tauto. }
  destruct (AllocHeapEx_run s U new_size 0 Hok ltac:(lia)) as [[E Hlow]|(q & s1 & U1 & E & Hnew)].
  { left. split; [by apply M_bind_panic|done]. }
  right. unfold AllocHeap. rewrite (M_bind_done _ _ _ _ _ E). clear E.
  destruct Hnew as [(m & Hm & -> & Hap) N2 N3 N4 N5 N6 _]. rewrite decide_False by (unfold NULL; lia).
  destruct (Hap p n Hp) as [Hpq Hpd]. pose proof N5 as (B1 & L1 & Hv1).
  destruct (live_block s1 _ B1 L1 q m Hv1 (lookup_insert_eq _ _ _)) as (bq & Hbq & Hkq & Eq & Hm8 & Hmm & _).
  assert (<[q:=m]> U !! p = Some n) as Hp1 by (by rewrite lookup_insert_ne).
  destruct (live_block s1 _ B1 L1 p n Hv1 Hp1) as (bp & Hbp & _ & Ep & _).
  destruct (copy_words_run (q - 4) bq (Z.to_nat ((n + 8) / 4)) q p s1) as (s2 & E & Hin & _ & Hdata).
  { intros x Hx. apply (live_mapped s1 (<[q:=m]> U) p n x N5 Hp1). lia. }
  { intros x Hx. apply (live_mapped s1 (<[q:=m]> U) q m x N5 (lookup_insert_eq _ _ _)). lia. }
  { lia. }
  { lia. }
  { lia. }
  { lia. }
  { destruct (ge_disj B1 (hi_geometry _ _ _ _ (hv_inv _ _ _ _ Hv1)) _ _ _ _ Hbp Hbq ltac:(lia)); lia. }
  rewrite (M_bind_done _ _ _ _ _ E). clear E.
  assert (kheap_ok s2 (<[q:=m]> U)) as Hok2 by (exists B1, L1; exact (heap_view_inside s1 s2 _ B1 L1 (q - 4) bq Hv1 Hbq Hkq Hin)).
  destruct (FreeHeap_run s2 (<[q:=m]> U) p n Hok2 Hp1) as (s3 & E & Hok3 & Hkept).
  rewrite (M_bind_done _ _ _ _ _ E). exists q, s3, (delete p (<[q:=m]> U)). split; [done|].
  pose proof (contents_inside s1 s2 (<[q:=m]> U) B1 L1 q m bq Hv1 (lookup_insert_eq _ _ _) Hbq Hin) as Hk12.
  rewrite delete_insert_id in Hk12 by done.
  assert (delete p (<[q:=m]> U) !! q = Some m) as Hq3 by (rewrite lookup_delete_ne by done; apply lookup_insert_eq).
  split; [exists m; split; [lia|by apply delete_insert_ne]|done|done| |].
  - intros i Hi Hi4. rewrite (Hkept q m (q + i) Hq3) by lia. rewrite Hdata by lia. apply (N6 p n); [done|lia].
  - intros c k x Hc Hx. pose proof Hc as [Hcp Hc']%lookup_delete_Some. assert (c ≠ q) by (intros ->; congruence).
    rewrite (Hkept c k x), (Hk12 c k x), (N6 c k x); try done.
    rewrite lookup_delete_Some, lookup_insert_ne; done.
Qed.

(** ** The heap at boot: the static area is the one reserve block. *)
Definition boot_heap (bootstrap_memory_area : Z) : kheap :=
  KHeap (list_to_map ((λ i : nat, (bootstrap_memory_area + 4 * i, 0)) <$> seq 0 4096))
    (replicate TOTAL_NUM_FREE_LISTS NULL)
    (Reserve bootstrap_memory_area BOOTSTRAP_SIZE true :: replicate 15 (Reserve NULL 0 false))
    false 0 false false.

Lemma boot_heap_ok base : 0 < base → base `mod` 4096 = 0 → base + BOOTSTRAP_SIZE ≤ 2 ^ 32 → kheap_ok (boot_heap base) ∅.
Proof.
  intros Hpos Hal Htop. exists ∅, (replicate TOTAL_NUM_FREE_LISTS []). split; [split|..].
  - split; intros ? ?; by rewrite lookup_empty.
  - intros a b b' Ha. by rewrite lookup_empty in Ha.
  - intros a b Ha. by rewrite lookup_empty in Ha.
  - intros a b x Ha. by rewrite lookup_empty in Ha.
  - split; [done|]. by apply Forall_replicate.
  - split; [done| | |].
    + intros i l a Hl Ha. apply lookup_replicate in Hl as [-> _]. by apply elem_of_nil in Ha.
    + intros a b Ha. by rewrite lookup_empty in Ha.
    + intros i l Hl. apply lookup_replicate in Hl as [-> _]. constructor.
  - assert (∀ (i : nat) r, reserve_blocks (boot_heap base) !! i = Some r → rb_valid r = true → i = 0%nat ∧ r = Reserve base BOOTSTRAP_SIZE true) as Hone.
    { intros [|i] r Hi Hv; [by injection Hi as <-|]. cbn [boot_heap reserve_blocks] in Hi.
      change (replicate 15 (Reserve NULL 0 false) !! i = Some r) in Hi. apply lookup_replicate in Hi as [-> _]. done. }
    split; [done| |].
    + intros i r Hi Hv. destruct (Hone i r Hi Hv) as [-> ->]. split; cbn [rb_address rb_size]; try done.
      intros x Hx H4. unfold BOOTSTRAP_SIZE in Hx. exists 0. cbn [boot_heap words].
      apply elem_of_list_to_map_1.
      * rewrite <- list_fmap_compose. apply NoDup_fmap_2; [intros i j; simpl; lia|apply NoDup_seq].
      * apply list_elem_of_fmap. exists (Z.to_nat ((x - base) / 4)). split; [f_equal; lia|]. apply elem_of_seq. lia.
    + intros i j r r' Hi Hj Hne Hv Hv'. destruct (Hone i r Hi Hv) as [-> _], (Hone j r' Hj Hv') as [-> _]. done.
  - done.
  - intros p n. rewrite lookup_empty. split; [done|]. intros (b & Hb & _). by rewrite lookup_empty in Hb.
  - done.
Qed.
Lemma boot_heap_4096 : kheap_ok (boot_heap 4096) ∅.
Proof. by apply boot_heap_ok. Qed.
Lemma boot_reserve base : ¬ reserve_low (boot_heap base).
Proof. intros H. apply (H 0%nat (Reserve base BOOTSTRAP_SIZE true) eq_refl). by split. Qed.

(** ** The heap as its callers see it

    The abstract heap is the map of live allocations and the words their owners
    can rely on: what they stored, and the zeroes of [HEAP_ZERO]. *)
Inductive heap_op :=
  | HAlloc (size flags : Z)
  | HFree (p : Z)
  | HStore (x v : Z)
  | HLoad (x : Z).

Definition heap_do (op : heap_op) : M kheap Z :=
  match op with
  | HAlloc size flags => AllocHeapEx size flags
  | HFree p => FreeHeap p;; mret 0
  | HStore x v => wr x v;; mret 0
  | HLoad x => rd x
  end.

Record abstract_heap := AHeap { live : live_map; known : gmap Z Z }.

Definition in_live (U : live_map) (x : Z) : Prop := ∃ p n, U !! p = Some n ∧ p ≤ x < p + n.
(** What a well-behaved caller may ask. *)
Definition legal (A : abstract_heap) (op : heap_op) : Prop :=
  match op with
  | HAlloc size _ => 0 < size ≤ 1024 * 128
  | HFree p => is_Some (live A !! p)
  | HStore x _ => in_live (live A) x ∧ x `mod` 4 = 0
  | HLoad x => is_Some (known A !! x)
  end.

Inductive heap_spec (A : abstract_heap) : heap_op → Z → abstract_heap → Prop :=
  | spec_alloc size flags p n C :
      size ≤ n → live A !! p = None → 0 < p → p `mod` 8 = 4 → apart_from (live A) p n →
      (∀ x v, known A !! x = Some v → C !! x = Some v) →
      (Z.land flags HEAP_ZERO ≠ 0 → ∀ x, p ≤ x < p + size → x `mod` 4 = 0 → C !! x = Some 0) →
      heap_spec A (HAlloc size flags) p (AHeap (<[p := n]> (live A)) C)
  | spec_free p n C :
      live A !! p = Some n →
      (∀ x v, known A !! x = Some v → ¬ (p ≤ x < p + n) → C !! x = Some v) →
      heap_spec A (HFree p) 0 (AHeap (delete p (live A)) C)
  | spec_store x v : heap_spec A (HStore x v) 0 (AHeap (live A) (<[x := v]> (known A)))
  | spec_load x v : known A !! x = Some v → heap_spec A (HLoad x) v A.

Record implements (s : kheap) (A : abstract_heap) : Prop := {
  im_ok : kheap_ok s (live A);
  im_known : ∀ x v, known A !! x = Some v → in_live (live A) x ∧ words s !! x = Some v;
}.

Fixpoint zero_fill (n : nat) (p : Z) (C : gmap Z Z) : gmap Z Z :=
  match n with O => C | S n => <[p := 0]> (zero_fill n (p + 4) C) end.
Lemma zero_fill_inv (n : nat) : ∀ p C x v, zero_fill n p C !! x = Some v →
  (p ≤ x < p + 4 * n ∧ (x - p) `mod` 4 = 0 ∧ v = 0) ∨ C !! x = Some v.
Proof.
  induction n as [|n IH]; intros p C x v; [by right|]. cbn [zero_fill].
  intros [[<- <-]|[Hne H]]%lookup_insert_Some; [left; split_and!; lia|].
  destruct (IH _ _ _ _ H) as [(? & ? & ->)|]; [left; split_and!; lia|by right].
Qed.
Lemma zero_fill_in (n : nat) : ∀ p C x, p ≤ x < p + 4 * n → (x - p) `mod` 4 = 0 → zero_fill n p C !! x = Some 0.
Proof.
  induction n as [|n IH]; intros p C x Hx H4; [lia|]. cbn [zero_fill].
  destruct (decide (x = p)) as [->|]; [apply lookup_insert_eq|]. rewrite lookup_insert_ne by done. apply IH; lia.
Qed.
Lemma zero_fill_out (n : nat) : ∀ p C x, ¬ (p ≤ x < p + 4 * n) → zero_fill n p C !! x = C !! x.
Proof.
  induction n as [|n IH]; intros p C x Hx; [done|]. cbn [zero_fill]. rewrite lookup_insert_ne by lia. apply IH. lia.
Qed.

Lemma simulate_alloc s A size flags : implements s A → 0 < size ≤ 1024 * 128 →
  (AllocHeapEx size flags s = Panicked PANIC_CANNOT_MALLOC_WITHOUT_FAULTING ∧ (size ≤ 4096 → reserve_low s)) ∨
  ∃ p s' A', AllocHeapEx size flags s = Done (p, s') ∧ heap_spec A (HAlloc size flags) p A' ∧ implements s' A'.
Proof.
  intros Him Hs. destruct (AllocHeapEx_run s (live A) size flags (im_ok _ _ Him) Hs) as [|(p & s' & U' & E & N)]; [by left|right].
  destruct N as [(n & Hn & -> & Hap) N2 N3 N4 N5 N6 N7].
  assert (∀ x v, known A !! x = Some v → ¬ (p ≤ x < p + n)) as Hout.
  { intros x v Hx. destruct (im_known _ _ Him x v Hx) as [(q & m & Hq & Hin) _]. destruct (Hap q m Hq); lia. }
  assert (∀ x v, known A !! x = Some v → words s' !! x = Some v) as Hold.
  { intros x v Hx. destruct (im_known _ _ Him x v Hx) as [(q & m & Hq & Hin) Hw]. by rewrite (N6 q m x Hq Hin). }
  set (k := if decide (Z.land flags HEAP_ZERO ≠ 0) then Z.to_nat ((size + 3) / 4) else 0%nat).
  assert (4 * k ≤ size + 3) as Hk by (unfold k; case_decide; lia).
  assert (n `mod` 8 = 0) as Hn8.
  { destruct N5 as (B & L & Hv). destruct (live_block s' _ B L p n Hv (lookup_insert_eq _ _ _)) as (b & ? & ? & ? & ? & ? & _). done. }
  exists p, s', (AHeap (<[p := n]> (live A)) (zero_fill k p (known A))). split; [done|]. split.
  - apply spec_alloc; try done.
    + intros x v Hx. rewrite zero_fill_out; [done|]. specialize (Hout x v Hx). lia.
    + intros Hfl x Hx H4. apply zero_fill_in; [|lia]. unfold k. rewrite decide_True by done. lia.
  - split; cbn [live known]; [done|]. intros x v [(Hx & H4 & ->)|Hx]%zero_fill_inv.
    + split; [exists p, n; split; [apply lookup_insert_eq|lia]|]. unfold k in Hx. case_decide as Hfl; [|lia]. apply N7; (done || lia).
    + split; [|by apply Hold]. destruct (im_known _ _ Him x v Hx) as [(q & m & Hq & Hin) _].
      exists q, m. split; [|done]. rewrite lookup_insert_ne; [done|]. intros ->. congruence.
Qed.

Lemma simulate_free s A p n : implements s A → live A !! p = Some n →
  ∃ s' A', FreeHeap p s = Done (tt, s') ∧ heap_spec A (HFree p) 0 A' ∧ implements s' A'.
Proof.
  intros Him Hp. destruct (FreeHeap_run s (live A) p n (im_ok _ _ Him) Hp) as (s' & E & Hok & Hkept).
  set (C := filter (λ xv : Z * Z, ¬ (p ≤ xv.1 < p + n)) (known A)).
  exists s', (AHeap (delete p (live A)) C). split; [done|]. split.
  - apply (spec_free A p n C Hp). intros x v Hx Hout. apply map_lookup_filter_Some. by split.
  - split; cbn [live known]; [done|]. intros x v [Hx Hout]%map_lookup_filter_Some. cbn [fst] in Hout.
    destruct (im_known _ _ Him x v Hx) as [(q & m & Hq & Hin) Hw]. assert (q ≠ p) by (intros ->; assert (m = n) by congruence; lia).
    assert (delete p (live A) !! q = Some m) as Hq' by (by rewrite lookup_delete_ne by done).
    split; [by exists q, m|]. by rewrite (Hkept q m x Hq' Hin).
Qed.

Lemma simulate_store s A x v : implements s A → in_live (live A) x → x `mod` 4 = 0 →
  ∃ s', wr x v s = Done (tt, s') ∧ implements s' (AHeap (live A) (<[x := v]> (known A))).
Proof.
  intros Him (p & n & Hp & Hin) H4. destruct (im_ok _ _ Him) as (B & L & Hv).
  destruct (live_block s _ B L p n Hv Hp) as (b & Hb & Hk & Hsz & _).
  assert (is_Some (words s !! x)) as Hx by (apply (live_mapped s (live A) p n x (im_ok _ _ Him) Hp); (done || lia)).
  exists {| s with words := <[x := v]> (words s) |}. split; [by apply wr_run|].
  pose proof (inside_write s (p - 4) b x v Hx ltac:(lia)) as Hi. split; cbn [live known].
  - exists B, L. exact (heap_view_inside _ _ _ B L (p - 4) b Hv Hb Hk Hi).
  - intros y w [[<- <-]|[Hne Hy]]%lookup_insert_Some; cbn [words].
    + split; [by exists p, n|apply lookup_insert_eq].
    + rewrite lookup_insert_ne by done. by apply (im_known _ _ Him).
Qed.

(** ** Properties *)

(** C2: [kernel_heap_refines] the allocator of mem/heap.c implements the abstract
    heap. It starts so at boot; and every legal call by its users (allocate up
    to 128 KiB, free a live pointer, store into or load from live memory) is
    carried out as the abstract heap says, with no assertion, fault or lock
    panic. The one exception is the panic of a request that needs reserve
    memory, which a request of at most a page meets only when no reserve block
    has three pages left. *)
Theorem kernel_heap_refines :
  (∀ base, 0 < base → base `mod` 4096 = 0 → base + BOOTSTRAP_SIZE ≤ 2 ^ 32 → implements (boot_heap base) (AHeap ∅ ∅)) ∧
  ∀ s A op, implements s A → legal A op →
    (∃ r s' A', heap_do op s = Done (r, s') ∧ heap_spec A op r A' ∧ implements s' A') ∨
    (heap_do op s = Panicked PANIC_CANNOT_MALLOC_WITHOUT_FAULTING ∧
     ∃ size flags, op = HAlloc size flags ∧ (size ≤ 4096 → reserve_low s)).
Proof.
  split.
  { intros base H1 H2 H3. split; [by apply boot_heap_ok|]. intros x v Hx. cbn [known] in Hx. by rewrite lookup_empty in Hx. }
  intros s A [size flags|p|x v|x] Him Hl; cbn [legal heap_do] in *.
  - destruct (simulate_alloc s A size flags Him Hl) as [[E Hlow]|(p & s' & A' & H)]; [right|left].
    + split; [done|]. by exists size, flags.
    + by exists p, s', A'.
  - left. destruct Hl as [n Hp]. destruct (simulate_free s A p n Him Hp) as (s' & A' & E & H).
    exists 0, s', A'. split; [|done]. by rewrite (M_bind_done _ _ _ _ _ E).
  - left. destruct Hl as [Hx H4]. destruct (simulate_store s A x v Him Hx H4) as (s' & E & H).
    exists 0, s', (AHeap (live A) (<[x := v]> (known A))). split; [by rewrite (M_bind_done _ _ _ _ _ E)|]. split; [constructor|done].
  - left. destruct Hl as [v Hv]. exists v, s, A. split; [apply rd_run; by apply (im_known _ _ Him)|]. split; [by constructor|done].
Qed.

(** C4: [AllocHeap_correct] a request of 1 byte to 128 KiB returns a fresh 8k + 4
    pointer to at least that many bytes, overlapping no live allocation; live
    allocations keep their contents, and with [HEAP_ZERO] the new words are zero.
    It panics only for want of reserve memory, and not at all up to a page while
    a reserve block has three pages. *)
Theorem AllocHeap_correct s U size flags :
  kheap_ok s U → 0 < size ≤ 1024 * 128 →
  (∃ p s' U', AllocHeapEx size flags s = Done (p, s') ∧ new_allocation s U size flags p s' U') ∨
  (AllocHeapEx size flags s = Panicked PANIC_CANNOT_MALLOC_WITHOUT_FAULTING ∧ (size ≤ 4096 → reserve_low s)).
Proof. intros Hok Hs. destruct (AllocHeapEx_run s U size flags Hok Hs); [by right|by left]. Qed.

Lemma AllocHeap_correct_witness :
  ∃ p s' U', AllocHeapEx 100 HEAP_ZERO (boot_heap 4096) = Done (p, s') ∧ new_allocation (boot_heap 4096) ∅ 100 HEAP_ZERO p s' U'.
Proof.
  destruct (AllocHeap_correct (boot_heap 4096) ∅ 100 HEAP_ZERO boot_heap_4096 ltac:(lia)) as [H|[_ H]]; [exact H|].
  exfalso. apply (boot_reserve 4096), H. lia.
Defined.

(** [FreeHeap_correct] freeing a live pointer succeeds: the block goes back,
    merged with its free neighbours, the pointer is no longer live, the other
    allocations stay live with their contents, and the heap is well formed. *)
Theorem FreeHeap_correct s U p n :
  kheap_ok s U → U !! p = Some n →
  ∃ s', FreeHeap p s = Done (tt, s') ∧ kheap_ok s' (delete p U) ∧ contents_kept (delete p U) s s'.
Proof. apply FreeHeap_run. Qed.

(** A live allocation, for the witnesses. *)
Lemma one_allocation size : 0 < size ≤ 4096 →
  ∃ s p n, kheap_ok s {[p := n]} ∧ size ≤ n.
Proof.
  intros Hs. destruct (AllocHeapEx_run (boot_heap 4096) ∅ size 0 boot_heap_4096 ltac:(lia)) as [[_ H]|(p & s' & U' & _ & N)].
  - exfalso. apply (boot_reserve 4096), H. lia.
  - destruct N as [(n & Hn & -> & _) _ _ _ Hok _ _]. by exists s', p, n.
Qed.

Lemma FreeHeap_correct_witness :
  ∃ s p n s', kheap_ok s {[p := n]} ∧ FreeHeap p s = Done (tt, s') ∧ kheap_ok s' ∅.
Proof.
  destruct (one_allocation 100 ltac:(lia)) as (s & p & n & Hok & _).
  destruct (FreeHeap_correct s {[p := n]} p n Hok (lookup_singleton_eq p n)) as (s' & E & Hok' & _).
  exists s, p, n, s'. split; [exact Hok|]. split; [exact E|]. by rewrite delete_singleton_eq in Hok'.
Defined.

(** [ReallocHeap_correct] growing an allocation by more than 8 bytes moves it:
    the new block is large enough and starts with the old data, the old pointer
    is freed, and the other allocations keep their contents. The 8 bytes are the
    code's: it compares with the size of the block, tags included, so a growth of
    1 to 8 bytes returns the old pointer, whose capacity is too small. *)
Theorem ReallocHeap_correct s U p n new_size :
  kheap_ok s U → U !! p = Some n →
  (new_size ≤ n + 8 → ReallocHeap p new_size s = Done (p, s)) ∧
  (n + 8 < new_size ≤ 1024 * 128 →
   (∃ q s' U', ReallocHeap p new_size s = Done (q, s') ∧ grown s U p n new_size q s' U') ∨
   (ReallocHeap p new_size s = Panicked PANIC_CANNOT_MALLOC_WITHOUT_FAULTING ∧ (new_size ≤ 4096 → reserve_low s))).
Proof.
  intros Hok Hp. split.
  - intros Hs. unfold ReallocHeap. rewrite (M_bind_done _ _ _ _ _ (GetSize_live s U p n Hok Hp)). by rewrite decide_True by lia.
  - intros Hs. destruct (ReallocHeap_run s U p n new_size Hok Hp Hs); [by right|by left].
Qed.

Lemma ReallocHeap_correct_witness :
  ∃ s p n, kheap_ok s {[p := n]} ∧ ReallocHeap p (n + 8) s = Done (p, s).
Proof.
  destruct (one_allocation 100 ltac:(lia)) as (s & p & n & Hok & _). exists s, p, n. split; [exact Hok|].
  apply (ReallocHeap_correct s {[p := n]} p n (n + 8) Hok (lookup_singleton_eq p n)). lia.
Defined.

(** [AllocHeap_over_8K_panics] a request of more than 8 KiB panics whatever the
    state of the heap: blocks are cut from spans of at most 16 KiB, the class of
    a block is rounded down and that of a request up, and the memory asked of the
    reserve for it is more than a reserve block holds. *)
Theorem AllocHeap_over_8K_panics s U size flags :
  kheap_ok s U → 1024 * 8 < size ≤ 1024 * 128 →
  AllocHeapEx size flags s = Panicked PANIC_CANNOT_MALLOC_WITHOUT_FAULTING.
Proof.
  intros (B & L & Hv) Hs. pose proof (hv_unlocked _ _ _ _ Hv) as Hul. unfold AllocHeapEx. rewrite decide_False by lia.
  set (s0 := {| s with heap_spinlock := true |}).
  assert (LockHeap s = Done (true, s0)) as E0 by (unfold LockHeap; mred; by rewrite Hul).
  rewrite (M_bind_done _ _ _ _ _ E0). clear E0.
  destruct (RoundUpSize_run s0 size ltac:(lia)) as (req & E1 & H8 & Hreq & Hsr). rewrite (M_bind_done _ _ _ _ _ E1).
  apply M_bind_panic, (FindBlock_too_large s0 B L); [| |lia].
  - destruct Hv as [[] _ _ _ _]. by split.
  - apply (reserve_ok_words_same s); [apply Hv|done|done].
Qed.

Lemma AllocHeap_over_8K_panics_witness :
  AllocHeapEx 10000 0 (boot_heap 4096) = Panicked PANIC_CANNOT_MALLOC_WITHOUT_FAULTING.
Proof. apply (AllocHeap_over_8K_panics (boot_heap 4096) ∅ 10000 0 boot_heap_4096). lia. Defined.

Lemma kernel_heap_refines_witness :
  ∃ r s' A', heap_do (HAlloc 24 HEAP_ZERO) (boot_heap 4096) = Done (r, s') ∧
    heap_spec (AHeap ∅ ∅) (HAlloc 24 HEAP_ZERO) r A' ∧ implements s' A'.
Proof.
  destruct kernel_heap_refines as [Hboot Hstep].
  destruct (Hstep (boot_heap 4096) (AHeap ∅ ∅) (HAlloc 24 HEAP_ZERO)) as [H|[_ (sz & fl & [= <- <-] & H)]].
  - apply Hboot; [lia|reflexivity|unfold BOOTSTRAP_SIZE; lia].
  - cbn [legal]. lia.
  - exact H.
  - exfalso. apply (boot_reserve 4096), H. lia.
Defined.
