(* ===== verification/Transfer.v ===== *)
(** * vfs/transfer.c: copying between the kernel and a user program

    A [transfer] is the kernel's view of an untrusted buffer. The untrusted
    side lives in the byte memory of the current address space; the trusted
    side is a kernel object the caller owns, given by its bytes. *)

From S2P Require Import Prelude Physical.

Definition ARCH_USER_AREA_BASE : Z := 0x08000000.
Definition ARCH_USER_AREA_LIMIT : Z := 0xC0000000.

Definition VM_READ : Z := 1.
Definition VM_WRITE : Z := 2.
Definition VM_USER : Z := 4.
Definition VM_EXEC : Z := 8.
Definition VM_LOCK : Z := 16.
Definition VM_FILE : Z := 32.
Definition VM_LOCAL : Z := 256.
Definition VM_RELOCATABLE : Z := 1024.

(** The fields of an address space entry that say how its page may be used. *)
Record vas_entry := VasEntry {
  ve_read : bool; ve_write : bool; ve_exec : bool; ve_lock : Z;
  ve_file : bool; ve_user : bool; ve_global : bool; ve_relocatable : bool;
}.

(** The current address space: the entry of each page, and the bytes. *)
Record memory := Memory { vas_entries : gmap Z vas_entry; bytes : gmap Z Z }.

Definition flag (b : bool) (f : Z) : Z := if b then f else 0.

Definition GetVirtPermissions (vas : gmap Z vas_entry) (virtual : Z) : Z :=
  match vas !! (virtual / ARCH_PAGE_SIZE) with
  | None => 0
  | Some entry =>
    Z.lor (Z.lor (Z.lor (Z.lor (Z.lor (Z.lor (Z.lor (Z.lor 0
      (flag (ve_read entry) VM_READ)) (flag (ve_write entry) VM_WRITE))
      (flag (ve_exec entry) VM_EXEC)) (flag (bool_decide (ve_lock entry ≠ 0)) VM_LOCK))
      (flag (ve_file entry) VM_FILE)) (flag (ve_user entry) VM_USER))
      (flag (negb (ve_global entry)) VM_LOCAL)) (flag (ve_relocatable entry) VM_RELOCATABLE)
  end.

Definition has (permissions f : Z) : bool := negb (Z.land permissions f =? 0).

Fixpoint ValidateCopy_loop (vas : gmap Z vas_entry) (write : bool) (n : nat) (page : Z) : Z :=
  match n with
  | O => 0
  | S n =>
    let permissions := GetVirtPermissions vas (u32 (page * ARCH_PAGE_SIZE)) in
    if decide (permissions = 0) then EINVAL else
    if negb (has permissions VM_READ) then EINVAL else
    if negb (has permissions VM_USER) then EINVAL else
    if write && negb (has permissions VM_WRITE) then EINVAL else
    if write && has permissions VM_EXEC then EINVAL else
    ValidateCopy_loop vas write n (page + 1)
  end.

Definition ValidateCopy (vas : gmap Z vas_entry) (user_addr size : Z) (write : bool) : Z :=
  let initial_address := user_addr in
  let final_address := u32 (initial_address + size) in
  if decide (initial_address < ARCH_USER_AREA_BASE ∨ ARCH_USER_AREA_LIMIT ≤ initial_address) then EINVAL else
  if decide (final_address < initial_address) then EINVAL else
  if decide (final_address < ARCH_USER_AREA_BASE ∨ ARCH_USER_AREA_LIMIT ≤ final_address) then EINVAL else
  ValidateCopy_loop vas write (Z.to_nat (BytesToPages size)) (initial_address / ARCH_PAGE_SIZE).

(** *** Copies *)
Definition load (m : gmap Z Z) (addr : Z) : Z := default 0 (m !! addr).
Fixpoint load_bytes (m : gmap Z Z) (addr : Z) (n : nat) : list Z :=
  match n with O => [] | S n => load m addr :: load_bytes m (addr + 1) n end.
Fixpoint store_bytes (m : gmap Z Z) (addr : Z) (bs : list Z) : gmap Z Z :=
  match bs with [] => m | b :: bs => <[addr := b]> (store_bytes m (addr + 1) bs) end.

(** memcpy/memmove out of and into the object [trusted], [size] bytes. *)
Definition copy_out (trusted : list Z) (addr size : Z) : M memory unit :=
  if decide (size ≤ length trusted)
  then modify (λ m, Memory (vas_entries m) (store_bytes (bytes m) addr (take (Z.to_nat size) trusted)))
  else fault.
Definition copy_in (trusted : list Z) (addr size : Z) : M memory (list Z) :=
  if decide (size ≤ length trusted)
  then m ← get; mret (load_bytes (bytes m) addr (Z.to_nat size) ++ drop (Z.to_nat size) trusted)
  else fault.

Definition CopyIntoKernel (kernel : list Z) (user_addr size : Z) : M memory (Z * list Z) :=
  m ← get;
  let status := ValidateCopy (vas_entries m) user_addr size false in
  if decide (status ≠ 0) then mret (status, kernel) else
  kernel' ← copy_in kernel user_addr size;
  mret (0, kernel').

Definition CopyOutOfKernel (kernel : list Z) (user_addr size : Z) : M memory Z :=
  m ← get;
  let status := ValidateCopy (vas_entries m) user_addr size true in
  if decide (status ≠ 0) then mret status else
  copy_out kernel user_addr size;;
  mret 0.

(** *** Transfers *)
Inductive transfer_type := TRANSFER_INTRA_KERNEL | TRANSFER_USERMODE.
Inductive transfer_direction := TRANSFER_READ | TRANSFER_WRITE.

Record transfer := Transfer {
  address : Z;
  length_remaining : Z;
  offset : Z;
  direction : transfer_direction;
  type : transfer_type;
  blockable : bool;
}.

Definition RevertTransfer (untrusted : transfer) (amount : Z) : transfer :=
  Transfer (u32 (address untrusted - amount)) (u64 (length_remaining untrusted + amount))
    (u64 (offset untrusted - amount)) (direction untrusted) (type untrusted) (blockable untrusted).

Definition advance (untrusted : transfer) (amount : Z) : transfer :=
  Transfer (u32 (address untrusted + amount)) (u64 (length_remaining untrusted - amount))
    (u64 (offset untrusted + amount)) (direction untrusted) (type untrusted) (blockable untrusted).

(** Returns the status, the trusted object and the transfer. [None] is a NULL
    trusted pointer. *)
Definition PerformTransfer (trusted : option (list Z)) (untrusted : transfer) (len : Z) :
    M memory (Z * list Z * transfer) :=
  match trusted with
  | None => panic PANIC_ASSERTION_FAILURE
  | Some trusted =>
    c_assert (bool_decide (address untrusted ≠ NULL));;
    let amount := u32 (Z.min len (length_remaining untrusted)) in
    if decide (amount = 0) then mret (0, trusted, untrusted) else
    '(result, trusted') ←
      match type untrusted, direction untrusted with
      | TRANSFER_INTRA_KERNEL, TRANSFER_READ =>
        copy_out trusted (address untrusted) amount;; mret (0, trusted)
      | TRANSFER_INTRA_KERNEL, TRANSFER_WRITE =>
        trusted' ← copy_in trusted (address untrusted) amount; mret (0, trusted')
      | TRANSFER_USERMODE, TRANSFER_READ =>
        result ← CopyOutOfKernel trusted (address untrusted) amount; mret (result, trusted)
      | TRANSFER_USERMODE, TRANSFER_WRITE => CopyIntoKernel trusted (address untrusted) amount
      end;
    if decide (result ≠ 0) then mret (result, trusted', untrusted) else
    mret (0, trusted', advance untrusted amount)
  end.

Definition CreateTransfer (addr length offset : Z) (direction : transfer_direction)
    (type : transfer_type) : transfer := Transfer addr length offset direction type true.
Definition CreateKernelTransfer (addr length offset : Z) (direction : transfer_direction) : transfer :=
  CreateTransfer addr length offset direction TRANSFER_INTRA_KERNEL.
Definition CreateTransferWritingToUser (addr length offset : Z) : transfer :=
  CreateTransfer addr length offset TRANSFER_READ TRANSFER_USERMODE.
Definition CreateTransferReadingFromUser (addr length offset : Z) : transfer :=
  CreateTransfer addr length offset TRANSFER_WRITE TRANSFER_USERMODE.

(** [strlen] of a string object: the index of its first zero byte. *)
Fixpoint strlen_obj (s : list Z) : option Z :=
  match s with
  | [] => None
  | c :: s => if decide (c = 0) then Some 0 else n ← strlen_obj s; Some (n + 1)
  end.

Definition WriteStringToUsermode (trusted_string : list Z) (untrusted max_length : Z) : M memory Z :=
  let tr := CreateTransferWritingToUser untrusted max_length 0 in
  len ← deref (strlen_obj trusted_string);
  let size := if decide (len < max_length) then len else u64 (max_length - 1) in
  '(result, _, tr) ← PerformTransfer (Some trusted_string) tr size;
  if decide (result ≠ 0) then mret result else
  '(result, _, _) ← PerformTransfer (Some [0]) tr 1;
  mret result.

(** [while (max_length-- > 1)]: [n] iterations at most. *)
Fixpoint ReadString_loop (n : nat) (trusted : list Z) (tr : transfer) (i : Z) : M memory (Z * list Z) :=
  match n with
  | O =>
    t ← deref (aset trusted i 0); mret (0, t)
  | S n =>
    '(result, c, tr) ← PerformTransfer (Some [0]) tr 1;
    if decide (result ≠ 0) then mret (result, trusted) else
    c ← deref (head c);
    trusted ← deref (aset trusted i c);
    if decide (c = 0) then t ← deref (aset trusted (i + 1) 0); mret (0, t)
    else ReadString_loop n trusted tr (i + 1)
  end.
Definition ReadStringFromUsermode (trusted : list Z) (untrusted max_length : Z) : M memory (Z * list Z) :=
  ReadString_loop (Z.to_nat (max_length - 1)) trusted
    (CreateTransferReadingFromUser untrusted max_length 0) 0.

(** A size_t object, little endian. *)
Definition word_bytes (v : Z) : list Z :=
  [v `mod` 256; (v / 256) `mod` 256; (v / 65536) `mod` 256; (v / 16777216) `mod` 256].
Definition bytes_word (bs : list Z) : Z := foldr (λ b acc, b + 256 * acc) 0 bs.

Definition WriteWordToUsermode (location value : Z) : M memory Z :=
  '(res, _, io) ← PerformTransfer (Some (word_bytes value)) (CreateTransferWritingToUser location 4 0) 4;
  if decide (length_remaining io ≠ 0) then mret EINVAL else mret res.

Definition ReadWordFromUsermode (location output : Z) : M memory (Z * Z) :=
  '(res, out, io) ←
    PerformTransfer (Some (word_bytes output)) (CreateTransferReadingFromUser location 4 0) 4;
  if decide (length_remaining io ≠ 0) then mret (EINVAL, bytes_word out)
  else mret (res, bytes_word out).

(** ** What a validated buffer guarantees *)

Definition page_ok (vas : gmap Z vas_entry) (write : bool) (page : Z) : Prop :=
  ∃ e, vas !! page = Some e ∧ ve_read e = true ∧ ve_user e = true ∧
       (write = true → ve_write e = true ∧ ve_exec e = false).

Lemma permissions_bits vas page e :
  vas !! page = Some e →
  let p := GetVirtPermissions vas (page * ARCH_PAGE_SIZE) in
  has p VM_READ = ve_read e ∧ has p VM_USER = ve_user e ∧
  has p VM_WRITE = ve_write e ∧ has p VM_EXEC = ve_exec e.
Proof.
  intros He. unfold GetVirtPermissions. rewrite Z.div_mul, He by done.
  destruct e as [r w x l f u g rel]. simpl. generalize (bool_decide (l ≠ 0)). intros lk.
  destruct r, w, x, lk, f, u, g, rel; split_and!; reflexivity.
Qed.

Lemma ValidateCopy_loop_spec vas write (n : nat) : ∀ page,
  0 ≤ page → page + n ≤ MAX_MEMORY_PAGES →
  ((∀ i, page ≤ i < page + n → page_ok vas write i) ∧ ValidateCopy_loop vas write n page = 0) ∨
  (¬ (∀ i, page ≤ i < page + n → page_ok vas write i) ∧ ValidateCopy_loop vas write n page = EINVAL).
Proof.
  induction n as [|n IH]; intros page H0 Hn; cbn [ValidateCopy_loop].
  { left. split; [|done]. lia. }
  rewrite max_pages_val in *.
  rewrite u32_small by (unfold is_u32, ARCH_PAGE_SIZE; lia).
  destruct (vas !! page) as [e|] eqn:He.
  2: { right. split.
       - intros H. destruct (H page ltac:(lia)) as (e & ? & _). congruence.
       - unfold GetVirtPermissions. rewrite Z.div_mul, He by done. done. }
  destruct (permissions_bits _ _ _ He) as (Hr & Hu & Hw & Hx).
  set (p := GetVirtPermissions _ _) in *.
  assert (page_ok vas write page ↔
          ve_read e = true ∧ ve_user e = true ∧ (write = true → ve_write e = true ∧ ve_exec e = false)) as Hok.
  { split; [intros (e' & ? & ?); by simplify_eq|intros H; by exists e]. }
  assert (∀ P : Prop, ¬ page_ok vas write page → P ∨
            (¬ (∀ i, page ≤ i < page + S n → page_ok vas write i) ∧ EINVAL = EINVAL)) as Hbad.
  { intros P Hb. right. split; [|done]. intros H. apply Hb, H. lia. }
  destruct (decide (p = 0)) as [Hp|_].
  { apply Hbad. rewrite Hok. intros (Hr' & _). rewrite Hp in Hr. rewrite <- Hr in Hr'. done. }
  rewrite Hr, Hu, Hw, Hx.
  destruct (ve_read e); simpl; [|apply Hbad; rewrite Hok; by intros (? & _)].
  destruct (ve_user e); simpl; [|apply Hbad; rewrite Hok; by intros (_ & ? & _)].
  destruct (write && negb (ve_write e)) eqn:E1.
  { apply Hbad. rewrite Hok. apply andb_true_iff in E1 as [-> Hw']. apply negb_true_iff in Hw'.
    rewrite Hw'. intros (_ & _ & H). by destruct (H eq_refl). }
  destruct (write && ve_exec e) eqn:E2.
  { apply Hbad. rewrite Hok. apply andb_true_iff in E2 as [-> Hx'].
    rewrite Hx'. intros (_ & _ & H). by destruct (H eq_refl). }
  assert (page_ok vas write page) as Hgood.
  { apply Hok. split_and!; try done. intros ->. simpl in *. by rewrite E2, negb_false_iff in *. }
  destruct (IH (page + 1)) as [[Ha ->]|[Hn' ->]]; try (rewrite max_pages_val; lia); try lia; [left|right];
    (split; [|done]).
  - intros i Hi. destruct (decide (i = page)) as [->|]; [done|apply Ha; lia].
  - intros H. apply Hn'. intros i Hi. apply H. lia.
Qed.

Definition in_user_area (addr size : Z) : Prop :=
  ARCH_USER_AREA_BASE ≤ addr ∧ addr + size < ARCH_USER_AREA_LIMIT.

Lemma ValidateCopy_cases vas addr size write :
  is_u32 addr → is_u32 size →
  let pages := BytesToPages size in
  let accepted := in_user_area addr size ∧
    ∀ i, addr / ARCH_PAGE_SIZE ≤ i < addr / ARCH_PAGE_SIZE + pages → page_ok vas write i in
  (accepted ∧ ValidateCopy vas addr size write = 0) ∨
  (¬ accepted ∧ ValidateCopy vas addr size write = EINVAL).
Proof.
  intros Ha Hs pages accepted. unfold is_u32, ValidateCopy, accepted, in_user_area,
    ARCH_USER_AREA_BASE, ARCH_USER_AREA_LIMIT in *.
  case_decide as H1; [right; split; [lia|done]|].
  destruct (decide (addr + size < 2 ^ 32)) as [Hno|Hov].
  2: { right. rewrite decide_True; [split; [lia|done]|]. unfold u32.
       rewrite <- (Z.mod_add _ (-1)) by lia. rewrite Z.mod_small; lia. }
  rewrite u32_small by (unfold is_u32; lia).
  case_decide as H2; [lia|]. case_decide as H3; [right; split; [lia|done]|].
  assert (0 ≤ pages ∧ (addr + size) / ARCH_PAGE_SIZE + 1 ≤ MAX_MEMORY_PAGES ∧
          addr / ARCH_PAGE_SIZE + pages ≤ (addr + size) / ARCH_PAGE_SIZE + 1 ∧ 0 ≤ addr / ARCH_PAGE_SIZE)
    as (Hp0 & Hmax & Hpp & Ha0).
  { unfold pages, BytesToPages, ARCH_PAGE_SIZE. rewrite u32_small by (unfold is_u32; lia).
    rewrite max_pages_val. pose proof (Z.div_mod addr 4096 ltac:(lia)).
    pose proof (Z.mod_pos_bound addr 4096 ltac:(lia)).
    split_and!; [apply Z.div_pos; lia| | |apply Z.div_pos; lia].
    - assert ((addr + size) / 4096 < 1048576) by (apply Z.div_lt_upper_bound; lia). lia.
    - pose proof (Z.div_mod (addr + size) 4096 ltac:(lia)).
      pose proof (Z.mod_pos_bound (addr + size) 4096 ltac:(lia)).
      pose proof (Z.div_mod (size + 4096 - 1) 4096 ltac:(lia)).
      pose proof (Z.mod_pos_bound (size + 4096 - 1) 4096 ltac:(lia)). lia. }
  fold pages.
  destruct (ValidateCopy_loop_spec vas write (Z.to_nat pages) (addr / ARCH_PAGE_SIZE)) as [[H ->]|[H ->]];
    [lia|lia|left|right]; rewrite Z2Nat.id in H by lia; (split; [|done]).
  - split; [lia|done].
  - by intros [_ ?].
Qed.

(** A copy is accepted exactly when the buffer lies in the user area
    (without wrapping) and the pages counted from its first page, one per
    4096 bytes of its size, are user pages with the access asked for; every
    other request answers EINVAL. *)
Theorem ValidateCopy_spec vas addr size write :
  is_u32 addr → is_u32 size →
  let accepted := in_user_area addr size ∧
    ∀ i, addr / ARCH_PAGE_SIZE ≤ i < addr / ARCH_PAGE_SIZE + BytesToPages size → page_ok vas write i in
  (ValidateCopy vas addr size write = 0 ↔ accepted) ∧
  (ValidateCopy vas addr size write ≠ 0 → ValidateCopy vas addr size write = EINVAL).
Proof.
  intros Ha Hs accepted.
  destruct (ValidateCopy_cases vas addr size write Ha Hs) as [[H ->]|[H ->]]; by split.
Qed.

Lemma ValidateCopy_accepts vas addr size write :
  is_u32 addr → is_u32 size → ValidateCopy vas addr size write = 0 →
  in_user_area addr size ∧
  ∀ i, addr / ARCH_PAGE_SIZE ≤ i < addr / ARCH_PAGE_SIZE + BytesToPages size → page_ok vas write i.
Proof.
  intros Ha Hs Hv. by destruct (ValidateCopy_cases vas addr size write Ha Hs) as [[H _]|[_ H]];
    [|rewrite Hv in H].
Qed.

Lemma store_bytes_lookup m addr bs a :
  store_bytes m addr bs !! a =
  if decide (addr ≤ a < addr + length bs) then bs !! Z.to_nat (a - addr) else m !! a.
Proof.
  revert addr. induction bs as [|b bs IH]; intros addr; cbn [store_bytes length].
  { rewrite decide_False by lia. done. }
  destruct (decide (a = addr)) as [->|Hne].
  - rewrite lookup_insert_eq, decide_True by lia. by rewrite Z.sub_diag.
  - rewrite lookup_insert_ne, IH by done. case_decide as H1; case_decide as H2; try lia; [|done].
    replace (Z.to_nat (a - addr)) with (S (Z.to_nat (a - (addr + 1)))) by lia. done.
Qed.

Lemma load_bytes_lookup m addr n i :
  (i < n)%nat → load_bytes m addr n !! i = Some (load m (addr + i)).
Proof.
  revert addr i. induction n as [|n IH]; intros addr i Hi; [lia|]. destruct i as [|i]; simpl.
  - by rewrite Z.add_0_r.
  - rewrite IH by lia. do 2 f_equal. lia.
Qed.
Lemma length_load_bytes m addr n : length (load_bytes m addr n) = n.
Proof. revert addr. induction n; intros; simpl; auto. Qed.

Lemma load_store_bytes m addr bs : load_bytes (store_bytes m addr bs) addr (length bs) = bs.
Proof.
  apply list_eq_same_length with (length bs); [done|apply length_load_bytes|].
  intros i x y Hi Hx Hy. rewrite load_bytes_lookup in Hx by done. injection Hx as <-.
  unfold load. rewrite store_bytes_lookup, decide_True by lia.
  replace (Z.to_nat (addr + i - addr)) with i by lia. by rewrite Hy.
Qed.

(** The bytes a transfer of [len] moves. *)
Definition transfer_amount (tr : transfer) (len : Z) : Z := u32 (Z.min len (length_remaining tr)).

(** Inversion of a transfer that returned: nothing moved, refused, or moved. *)
Lemma PerformTransfer_inv t tr len m res t' tr' m' :
  PerformTransfer (Some t) tr len m = Done ((res, t', tr'), m') →
  let amount := transfer_amount tr len in
  (amount = 0 ∧ res = 0 ∧ t' = t ∧ tr' = tr ∧ m' = m) ∨
  (amount ≠ 0 ∧ type tr = TRANSFER_USERMODE ∧ res ≠ 0 ∧ t' = t ∧ tr' = tr ∧ m' = m ∧
     res = ValidateCopy (vas_entries m) (address tr) amount
             (match direction tr with TRANSFER_READ => true | TRANSFER_WRITE => false end)) ∨
  (amount ≠ 0 ∧ res = 0 ∧ amount ≤ length t ∧ tr' = advance tr amount ∧
     (type tr = TRANSFER_USERMODE → ValidateCopy (vas_entries m) (address tr) amount
        (match direction tr with TRANSFER_READ => true | TRANSFER_WRITE => false end) = 0) ∧
     match direction tr with
     | TRANSFER_READ => t' = t ∧ m' = Memory (vas_entries m)
         (store_bytes (bytes m) (address tr) (take (Z.to_nat amount) t))
     | TRANSFER_WRITE => m' = m ∧
         t' = load_bytes (bytes m) (address tr) (Z.to_nat amount) ++ drop (Z.to_nat amount) t
     end).
Proof.
  intros H amount. unfold PerformTransfer in H. fold amount in H.
  apply M_bind_inv in H as (? & s1 & Ha & H).
  unfold c_assert in Ha. case_bool_decide; [|done]. injection Ha as _ <-.
  change (u32 (Z.min len (length_remaining tr))) with amount in H.
  destruct (decide (amount = 0)) as [Hz|Hnz]; [left; by injection H as <- <- <- <-|right].
  apply M_bind_inv in H as ([r0 t0] & s2 & Hc & H).
  unfold CopyOutOfKernel, CopyIntoKernel, copy_out, copy_in in Hc.
  destruct (type tr), (direction tr); revert Hc; mred;
    repeat (match goal with |- context [decide ?P] => destruct (decide P) end; mred);
    intros Hc; simplify_eq; revert H;
    repeat (match goal with |- context [decide ?P] => destruct (decide P) end; mred);
    intros H'; simplify_eq;
    first [by left; split_and! | right; split_and!; done || (intros _; lia)].
Qed.

(** What [ValidateCopy] asks of the buffer of a transfer. *)
Definition writes_user (tr : transfer) : bool := match direction tr with TRANSFER_READ => true | TRANSFER_WRITE => false end.
Definition accepted (m : memory) (tr : transfer) (amount : Z) : Prop :=
  in_user_area (address tr) amount ∧
  ∀ i, address tr / ARCH_PAGE_SIZE ≤ i < address tr / ARCH_PAGE_SIZE + BytesToPages amount →
    page_ok (vas_entries m) (writes_user tr) i.

Lemma PerformTransfer_refused t tr len m :
  address tr ≠ NULL → type tr = TRANSFER_USERMODE → transfer_amount tr len ≠ 0 →
  ValidateCopy (vas_entries m) (address tr) (transfer_amount tr len) (writes_user tr) = EINVAL →
  PerformTransfer (Some t) tr len m = Done ((EINVAL, t, tr), m).
Proof.
  intros Hnn Hty Hnz Hv. unfold PerformTransfer. fold (transfer_amount tr len). mred.
  rewrite bool_decide_true by done. rewrite decide_False by done. rewrite Hty. unfold writes_user in Hv.
  destruct (direction tr); unfold CopyOutOfKernel, CopyIntoKernel; mred; by rewrite Hv.
Qed.

(** A buffer of two bytes at the end of a page is checked on its first page
    only: the second byte may belong to the kernel's or to nobody's page. *)
Definition user_page : vas_entry := VasEntry true true false 0 false true false false.
Lemma ValidateCopy_straddle_unchecked :
  let vas := {[ 0x10000 := user_page ]} in
  ValidateCopy vas 0x10000fff 2 true = 0 ∧ ¬ page_ok vas true ((0x10000fff + 1) / ARCH_PAGE_SIZE).
Proof.
  split; [vm_compute; reflexivity|]. intros (e & He & _).
  change ((0x10000fff + 1) / ARCH_PAGE_SIZE) with 0x10001 in He. by rewrite lookup_singleton_ne in He.
Qed.

Record transfer_wf (tr : transfer) : Prop := {
  tw_address : is_u32 (address tr);
  tw_length : is_u64 (length_remaining tr);
  tw_offset : is_u64 (offset tr);
}.

Lemma revert_advance tr amount :
  transfer_wf tr → RevertTransfer (advance tr amount) amount = tr.
Proof.
  intros [Ha Hl Ho]. destruct tr as [a l o d ty b]. unfold RevertTransfer, advance. simpl in *.
  unfold u32, u64 in *. rewrite Zminus_mod_idemp_l, Zminus_mod_idemp_l, Zplus_mod_idemp_l.
  replace (a + amount - amount) with a by lia. replace (l - amount + amount) with l by lia.
  replace (o + amount - amount) with o by lia. by rewrite !Z.mod_small.
Qed.

Definition validated (m : memory) (tr : transfer) (amount : Z) : Prop :=
  type tr = TRANSFER_USERMODE →
  ValidateCopy (vas_entries m) (address tr) amount
    (match direction tr with TRANSFER_READ => true | TRANSFER_WRITE => false end) = 0.

Lemma PerformTransfer_run t tr len m :
  address tr ≠ NULL → let amount := transfer_amount tr len in
  amount ≠ 0 → amount ≤ length t → validated m tr amount →
  PerformTransfer (Some t) tr len m =
  match direction tr with
  | TRANSFER_READ => Done ((0, t, advance tr amount),
      Memory (vas_entries m) (store_bytes (bytes m) (address tr) (take (Z.to_nat amount) t)))
  | TRANSFER_WRITE => Done ((0, load_bytes (bytes m) (address tr) (Z.to_nat amount)
                                  ++ drop (Z.to_nat amount) t, advance tr amount), m)
  end.
Proof.
  intros Hnn amount Hnz Hlen Hv. unfold PerformTransfer. fold (transfer_amount tr len). fold amount.
  mred. rewrite bool_decide_true by done. rewrite decide_False by done. mred.
  unfold CopyOutOfKernel, CopyIntoKernel, copy_out, copy_in. mred. unfold validated in Hv.
  destruct (type tr); [|specialize (Hv eq_refl)]; destruct (direction tr); mred;
    rewrite ?Hv; rewrite (decide_True (P := amount ≤ length t)) by done; done.
Qed.

(** C34: A transfer of a positive amount to or from user mode, with a kernel object of at
    least that size, does one of two things. If the buffer does not lie in the user area,
    or one of the pages counted for it (from its first page, one for every 4096 bytes of
    its length, begun or not) may not be used in this way (mapped, of the user, readable,
    and to be written also writable and not executable), it answers EINVAL, and nothing is
    read, written or moved on. Otherwise it copies exactly the bytes of the buffer: to the
    user, all of memory outside of the buffer stays; from the user, all of memory and the
    rest of the object stay. Every byte of the buffer then lies in the user area, and in a
    page that was checked, except for those in the last page of a buffer that begins inside
    a page and reaches into one page more than were counted: that page is not checked. *)
Theorem user_transfer_confined t tr len m :
  type tr = TRANSFER_USERMODE → address tr ≠ NULL → is_u32 (address tr) →
  let amount := transfer_amount tr len in
  amount ≠ 0 → amount ≤ length t →
  (¬ accepted m tr amount → PerformTransfer (Some t) tr len m = Done ((EINVAL, t, tr), m)) ∧
  (accepted m tr amount →
    PerformTransfer (Some t) tr len m =
      (if writes_user tr
       then Done ((0, t, advance tr amount), Memory (vas_entries m) (store_bytes (bytes m) (address tr) (take (Z.to_nat amount) t)))
       else Done ((0, load_bytes (bytes m) (address tr) (Z.to_nat amount) ++ drop (Z.to_nat amount) t, advance tr amount), m)) ∧
    ∀ a, address tr ≤ a < address tr + amount →
      ARCH_USER_AREA_BASE ≤ a < ARCH_USER_AREA_LIMIT ∧
      (page_ok (vas_entries m) (writes_user tr) (a / ARCH_PAGE_SIZE) ∨
       a / ARCH_PAGE_SIZE = address tr / ARCH_PAGE_SIZE + BytesToPages amount ∧
       BytesToPages amount * ARCH_PAGE_SIZE < address tr `mod` ARCH_PAGE_SIZE + amount)).
Proof.
  intros Hty Hnn Ha amount Hnz Hlen. assert (is_u32 amount) as Hs by apply u32_range.
  pose proof (ValidateCopy_cases (vas_entries m) (address tr) amount (writes_user tr) Ha Hs) as Hcases.
  fold (accepted m tr amount) in Hcases. split.
  - intros Hno. destruct Hcases as [[Hyes _]|[_ Hv]]; [done|]. by apply PerformTransfer_refused.
  - intros Hacc. destruct Hcases as [[_ Hv]|[Hno _]]; [|done]. split.
    + rewrite PerformTransfer_run by (try done; intros _; exact Hv). fold amount. unfold writes_user. by destruct (direction tr).
    + intros a Hin. destruct Hacc as [[Hb Hl] Hpg]. split; [unfold ARCH_USER_AREA_BASE, ARCH_USER_AREA_LIMIT in *; lia|].
      unfold BytesToPages in *. unfold is_u32 in *. unfold ARCH_USER_AREA_BASE, ARCH_USER_AREA_LIMIT, ARCH_PAGE_SIZE in *.
      rewrite u32_small in * by (unfold is_u32; lia).
      destruct (decide (a / 4096 < address tr / 4096 + (amount + 4096 - 1) / 4096)) as [Hlt|Hge]; [left; apply Hpg|right].
      * split; [apply Z.div_le_mono; lia|done].
      * pose proof (Z.div_mod (address tr) 4096 ltac:(lia)). pose proof (Z.mod_pos_bound (address tr) 4096 ltac:(lia)).
        pose proof (Z.div_mod a 4096 ltac:(lia)). pose proof (Z.mod_pos_bound a 4096 ltac:(lia)).
        pose proof (Z.div_mod (amount + 4096 - 1) 4096 ltac:(lia)). pose proof (Z.mod_pos_bound (amount + 4096 - 1) 4096 ltac:(lia)).
        split; lia.
Qed.

Lemma PerformTransfer_nonnull t tr len m r : PerformTransfer (Some t) tr len m = Done r → address tr ≠ NULL.
Proof.
  unfold PerformTransfer. mred. case_bool_decide; [done|]. simpl. discriminate.
Qed.

Lemma store_bytes_twice m addr bs : store_bytes (store_bytes m addr bs) addr bs = store_bytes m addr bs.
Proof. apply map_eq. intros a. rewrite !store_bytes_lookup. by case_decide. Qed.

(** Reverting a transfer by the amount it moved puts the transfer
    descriptor back exactly, and because a transfer does not disturb the buffer
    it copies from, repeating it then moves the same bytes again. *)
Theorem RevertTransfer_undoes t tr len m t' tr' m' :
  transfer_wf tr → PerformTransfer (Some t) tr len m = Done ((0, t', tr'), m') →
  let amount := transfer_amount tr len in
  RevertTransfer tr' amount = tr ∧
  PerformTransfer (Some t') (RevertTransfer tr' amount) len m' = Done ((0, t', tr'), m').
Proof.
  intros Hwf H amount. pose proof H as Hrun. pose proof (PerformTransfer_nonnull _ _ _ _ _ H) as Hnn.
  apply PerformTransfer_inv in H. fold amount in H.
  destruct H as [(Hz & _ & -> & -> & ->)|[(_ & _ & ? & _)|(Hnz & _ & Hlen & -> & Hv & Hm)]]; [|done|].
  - assert (RevertTransfer tr amount = tr) as ->; [|done].
    rewrite Hz. destruct Hwf, tr. unfold RevertTransfer. simpl in *.
    rewrite !Z.sub_0_r, Z.add_0_r, u32_small, !u64_small by done. done.
  - rewrite revert_advance by done. split; [done|].
    assert (is_u32 amount) as [H0 _] by apply u32_range. clear Hrun.
    destruct (direction tr) eqn:Ed; destruct Hm as [-> ->]; rewrite PerformTransfer_run; try done; fold amount.
    + rewrite Ed. cbn [vas_entries bytes]. by rewrite store_bytes_twice.
    + unfold validated. by rewrite Ed.
    + rewrite Ed. rewrite drop_app_ge by (rewrite length_load_bytes; lia).
      rewrite length_load_bytes, Nat.sub_diag, drop_0. done.
    + rewrite length_app, length_load_bytes, length_drop. lia.
    + unfold validated. by rewrite Ed.
Qed.

Lemma word_bytes_roundtrip v : is_u32 v → bytes_word (word_bytes v) = v.
Proof.
  unfold is_u32. intros Hv. unfold word_bytes, bytes_word. cbn [foldr].
  pose proof (Z.div_mod v 256 ltac:(lia)) as H1.
  pose proof (Z.div_mod (v / 256) 256 ltac:(lia)) as H2. rewrite Z.div_div in H2 by lia.
  pose proof (Z.div_mod (v / 65536) 256 ltac:(lia)) as H3. rewrite Z.div_div in H3 by lia.
  change (256 * 256) with 65536 in H2. change (65536 * 256) with 16777216 in H3.
  rewrite (Z.mod_small (v / 16777216)); [lia|].
  split; [apply Z.div_pos; lia|apply Z.div_lt_upper_bound; lia].
Qed.

Lemma page_ok_read vas write p : page_ok vas write p → page_ok vas false p.
Proof. intros (e & He & Hr & Hu & _). by exists e. Qed.

Lemma validated_read vas addr size :
  is_u32 addr → is_u32 size → ValidateCopy vas addr size true = 0 → ValidateCopy vas addr size false = 0.
Proof.
  intros Ha Hs [Har Hpg]%ValidateCopy_accepts; try done.
  destruct (ValidateCopy_cases vas addr size false Ha Hs) as [[_ H]|[H _]]; [done|].
  destruct H. split; [done|]. intros i Hi. by apply (page_ok_read _ true), Hpg.
Qed.

(** A word written to user memory is read back unchanged, and a write that
    is refused leaves memory as it was. *)
Theorem user_word_roundtrip location value old m res m' :
  is_u32 location → is_u32 value → WriteWordToUsermode location value m = Done (res, m') →
  (res = 0 ∧ ReadWordFromUsermode location old m' = Done ((0, value), m')) ∨ (res = EINVAL ∧ m' = m).
Proof.
  intros Hl Hv H. unfold WriteWordToUsermode in H.
  apply M_bind_inv in H as ([[r t'] io] & m1 & H & Hk).
  pose proof (PerformTransfer_nonnull _ _ _ _ _ H) as Hnn. apply PerformTransfer_inv in H.
  assert (transfer_amount (CreateTransferWritingToUser location 4 0) 4 = 4) as Ham by done.
  rewrite Ham in H.
  destruct H as [(? & _)|[(_ & _ & Hr & _ & -> & -> & _)|(_ & -> & _ & -> & Hval & Hm)]]; [done| |].
  - right. cbn in Hk. by injection Hk as <- <-.
  - left. cbn [direction CreateTransferWritingToUser CreateTransfer] in Hm. destruct Hm as [_ ->].
    vm_compute (length_remaining (advance _ _)) in Hk. cbn in Hk. injection Hk as <- <-. split; [done|].
    set (m2 := Memory _ _).
    assert (PerformTransfer (Some (word_bytes old)) (CreateTransferReadingFromUser location 4 0) 4 m2
            = Done ((0, word_bytes value, advance (CreateTransferReadingFromUser location 4 0) 4), m2)) as E.
    { rewrite PerformTransfer_run; try done.
      - cbn [direction CreateTransferReadingFromUser CreateTransfer]. do 4 f_equal.
        change (transfer_amount _ _) with 4. rewrite drop_ge, app_nil_r by done.
        apply (load_store_bytes (bytes m) location (word_bytes value)).
      - intros _. apply validated_read; [done|done|by apply Hval]. }
    unfold ReadWordFromUsermode. rewrite (M_bind_done _ _ _ _ _ E).
    change (length_remaining (advance _ 4)) with 0. cbn [decide]. mred.
    by rewrite word_bytes_roundtrip.
Qed.

Lemma transfer_one tr : length_remaining tr ≠ 0 → is_u64 (length_remaining tr) → transfer_amount tr 1 = 1.
Proof. unfold is_u64. intros H0 H. unfold transfer_amount. rewrite Z.min_l by lia. done. Qed.

(** One byte of the string: refused, or the byte. *)
Lemma read_byte tr m :
  address tr ≠ NULL → type tr = TRANSFER_USERMODE → direction tr = TRANSFER_WRITE →
  length_remaining tr ≠ 0 → is_u64 (length_remaining tr) → is_u32 (address tr) →
  PerformTransfer (Some [0]) tr 1 m = Done ((EINVAL, [0], tr), m) ∨
  (PerformTransfer (Some [0]) tr 1 m = Done ((0, [load (bytes m) (address tr)], advance tr 1), m) ∧
   in_user_area (address tr) 1).
Proof.
  intros Hnn Hty Hd Hl Hu Ha. pose proof (transfer_one tr Hl Hu) as Ham.
  destruct (ValidateCopy_cases (vas_entries m) (address tr) 1 false Ha ltac:(done)) as [[[Har _] Hv]|[_ Hv]].
  - right. split; [|done].
    rewrite PerformTransfer_run; rewrite ?Ham; try done; [by rewrite Hd|].
    intros _. by rewrite Hd.
  - left. unfold PerformTransfer. fold (transfer_amount tr 1). rewrite Ham. mred.
    rewrite bool_decide_true by done. rewrite (decide_False (P := 1 = 0)) by done. rewrite Hty, Hd. mred.
    unfold CopyIntoKernel. mred. rewrite Hv. done.
Qed.

Lemma ReadString_loop_run m (n : nat) : ∀ trusted tr (i : nat) pre,
  address tr ≠ NULL → type tr = TRANSFER_USERMODE → direction tr = TRANSFER_WRITE →
  length_remaining tr = n + 1 → is_u64 (length_remaining tr) → is_u32 (address tr) →
  (i + n < length trusted)%nat → take i trusted = pre →
  (∃ t', ReadString_loop n trusted tr i m = Done ((EINVAL, t'), m) ∧ length t' = length trusted) ∨
  ∃ t' k, ReadString_loop n trusted tr i m = Done ((0, t'), m) ∧ (k ≤ n)%nat ∧
    length t' = length trusted ∧
    take (i + k) t' = pre ++ load_bytes (bytes m) (address tr) k ∧ t' !! (i + k)%nat = Some 0 ∧
    (∀ j, (j < k)%nat → load (bytes m) (address tr + j) ≠ 0) ∧
    (k = n ∨ load (bytes m) (address tr + k) = 0).
Proof.
  induction n as [|n IH]; intros trusted tr i pre Hnn Hty Hd Hlr Hu Ha Hlen Hpre; cbn [ReadString_loop].
  { right. rewrite aset_nat by lia. mred.
    exists (<[i := 0]> trusted), 0%nat. rewrite length_insert. split_and!; try done; try lia.
    - simpl. rewrite app_nil_r, Nat.add_0_r, take_insert_ge by lia. done.
    - rewrite Nat.add_0_r. apply list_lookup_insert_eq. lia. }
  destruct (read_byte tr m) as [E|[E [Hb Hl]]]; try done; try lia.
  { left. exists trusted. rewrite (M_bind_done _ _ _ _ _ E). done. }
  rewrite (M_bind_done _ _ _ _ _ E). rewrite (decide_False (P := 0 ≠ 0)) by lia. cbn [head]. mred.
  set (c := load _ _). rewrite (aset_nat trusted i c) by lia. mred.
  destruct (decide (c = 0)) as [Hc|Hc].
  - right. replace (i + 1) with (Z.of_nat (S i)) by lia.
    rewrite aset_nat by (rewrite length_insert; lia). mred. eexists _, 0%nat. split; [done|].
    rewrite !length_insert. split_and!; try done; try lia.
    + simpl. rewrite app_nil_r, Nat.add_0_r, !take_insert_ge by lia. done.
    + rewrite Nat.add_0_r, list_lookup_insert_ne by lia. rewrite Hc. apply list_lookup_insert_eq. lia.
    + right. by rewrite Z.add_0_r.
  - assert (0 < address tr < 2 ^ 32 - 1) as Hr.
    { unfold ARCH_USER_AREA_BASE, ARCH_USER_AREA_LIMIT in *. lia. }
    assert (address (advance tr 1) = address tr + 1) as Ea by (apply u32_small; unfold is_u32; lia).
    replace (i + 1) with (Z.of_nat (S i)) by lia.
    destruct (IH (<[i := c]> trusted) (advance tr 1) (S i) (pre ++ [c])) as [(t' & E' & Hlt)|(t' & k & H)];
      rewrite ?Ea; try done.
    + unfold NULL. lia.
    + cbn [advance length_remaining]. rewrite u64_small; [lia|]. unfold is_u64 in *. lia.
    + apply u64_range.
    + unfold is_u32. lia.
    + rewrite length_insert. lia.
    + rewrite (take_S_r _ _ c) by (apply list_lookup_insert_eq; lia).
      by rewrite take_insert_ge, Hpre by lia.
    + left. exists t'. rewrite length_insert in Hlt. done.
    + right. rewrite Ea, length_insert in H. destruct H as (H1 & H2 & H3 & H4 & H5 & H6 & H7).
      exists t', (S k). replace (i + S k)%nat with (S i + k)%nat by lia. split_and!; try done; try lia.
      * rewrite H4, <- app_assoc. done.
      * intros j Hj. destruct j as [|j]; [by rewrite Z.add_0_r|].
        replace (address tr + S j) with (address tr + 1 + j) by lia. apply H6. lia.
      * destruct H7 as [->|H7]; [by left|right]. by replace (address tr + S k) with (address tr + 1 + k) by lia.
Qed.

(** Reading a string from user mode into a kernel buffer of at least
    [max_length] bytes never overruns the buffer: it answers EINVAL, or leaves
    the user's bytes up to their first zero (at most [max_length - 1] of them)
    followed by a terminator. User memory is not touched. *)
Theorem ReadStringFromUsermode_total trusted untrusted max_length m :
  untrusted ≠ NULL → is_u32 untrusted → 1 ≤ max_length → max_length ≤ length trusted →
  is_u64 max_length →
  (∃ t', ReadStringFromUsermode trusted untrusted max_length m = Done ((EINVAL, t'), m) ∧
     length t' = length trusted) ∨
  ∃ t' (k : nat), ReadStringFromUsermode trusted untrusted max_length m = Done ((0, t'), m) ∧
    k < max_length ∧ length t' = length trusted ∧
    take k t' = load_bytes (bytes m) untrusted k ∧ t' !! k = Some 0 ∧
    (∀ j, (j < k)%nat → load (bytes m) (untrusted + j) ≠ 0) ∧
    (k = max_length - 1 :> Z ∨ load (bytes m) (untrusted + k) = 0).
Proof.
  intros Hnn Hu Hm Hlen H64. unfold ReadStringFromUsermode.
  destruct (ReadString_loop_run m (Z.to_nat (max_length - 1)) trusted
             (CreateTransferReadingFromUser untrusted max_length 0) 0%nat [])
    as [H|(t' & k & E & Hk & Hl & Ht & H0 & Hj & Hend)]; try done; simpl; try lia; [by left|right].
  exists t', k. split_and!; try done; try lia. destruct Hend as [->|]; [left; lia|by right].
Qed.

(** ** Concrete runs: one user page at 0x10000000 holding a short string. *)
Definition sample_vas : gmap Z vas_entry := {[ 0x10000 := user_page ]}.
Definition sample_memory : memory := Memory sample_vas (store_bytes ∅ 0x10000000 [104; 105; 0]).

Lemma ValidateCopy_spec_witness :
  let accepted := in_user_area 0x10000000 8 ∧
    ∀ i, 0x10000000 / ARCH_PAGE_SIZE ≤ i < 0x10000000 / ARCH_PAGE_SIZE + BytesToPages 8 →
         page_ok sample_vas true i in
  (ValidateCopy sample_vas 0x10000000 8 true = 0 ↔ accepted) ∧
  (ValidateCopy sample_vas 0x10000000 8 true ≠ 0 → ValidateCopy sample_vas 0x10000000 8 true = EINVAL).
Proof. apply (ValidateCopy_spec sample_vas 0x10000000 8 true); unfold is_u32; lia. Defined.

Definition sample_out : transfer := CreateTransferWritingToUser 0x10000000 4 0.
Definition sample_written : memory := Memory sample_vas (store_bytes (bytes sample_memory) 0x10000000 [1; 2]).
Lemma sample_write_run :
  PerformTransfer (Some [1; 2]) sample_out 2 sample_memory
  = Done ((0, [1; 2], advance sample_out 2), sample_written).
Proof. vm_compute. reflexivity. Qed.

Lemma sample_accepted : accepted sample_memory sample_out 2.
Proof.
  split; [split; by vm_compute|]. change (BytesToPages 2) with 1. change (address sample_out / ARCH_PAGE_SIZE) with 0x10000.
  intros i Hi. assert (i = 0x10000) as -> by lia. by exists user_page.
Qed.
Lemma user_transfer_confined_witness :
  PerformTransfer (Some [1; 2]) sample_out 2 sample_memory = Done ((0, [1; 2], advance sample_out 2), sample_written) ∧
  PerformTransfer (Some [1; 2]) (CreateTransferReadingFromUser 0x20000000 2 0) 2 sample_memory
    = Done ((EINVAL, [1; 2], CreateTransferReadingFromUser 0x20000000 2 0), sample_memory).
Proof.
  split.
  - apply (user_transfer_confined [1; 2] sample_out 2 sample_memory); [done|done|by vm_compute|done|done|apply sample_accepted].
  - apply (user_transfer_confined [1; 2] (CreateTransferReadingFromUser 0x20000000 2 0) 2 sample_memory);
      [done|done|by vm_compute|done|done|].
    intros [_ Hp]. destruct (Hp 0x20000) as (e & He & _); [by vm_compute|]. by vm_compute in He.
Defined.

Lemma RevertTransfer_undoes_witness :
  RevertTransfer (advance sample_out 2) 2 = sample_out ∧
  PerformTransfer (Some [1; 2]) (RevertTransfer (advance sample_out 2) 2) 2 sample_written
  = Done ((0, [1; 2], advance sample_out 2), sample_written).
Proof.
  apply (RevertTransfer_undoes [1; 2] sample_out 2 sample_memory [1; 2] (advance sample_out 2)
           sample_written); [split; by vm_compute|apply sample_write_run].
Defined.

Lemma user_word_roundtrip_witness :
  ∃ m', WriteWordToUsermode 0x10000010 0xdeadbeef sample_memory = Done (0, m') ∧
    ((0 = 0 ∧ ReadWordFromUsermode 0x10000010 7 m' = Done ((0, 0xdeadbeef), m')) ∨
     (0 = EINVAL ∧ m' = sample_memory)).
Proof.
  eexists. split; [vm_compute; reflexivity|].
  apply (user_word_roundtrip 0x10000010 0xdeadbeef 7 sample_memory 0);
    [by vm_compute|by vm_compute|vm_compute; reflexivity].
Defined.

Lemma ReadStringFromUsermode_total_witness :
  ReadStringFromUsermode [9; 9; 9; 9] 0x10000000 4 sample_memory = Done ((0, [104; 105; 0; 0]), sample_memory) ∧
  ((∃ t', ReadStringFromUsermode [9; 9; 9; 9] 0x10000000 4 sample_memory = Done ((EINVAL, t'), sample_memory) ∧
     length t' = 4%nat) ∨
  ∃ t' (k : nat), ReadStringFromUsermode [9; 9; 9; 9] 0x10000000 4 sample_memory = Done ((0, t'), sample_memory) ∧
    k < 4 ∧ length t' = 4%nat ∧
    take k t' = load_bytes (bytes sample_memory) 0x10000000 k ∧ t' !! k = Some 0 ∧
    (∀ j, (j < k)%nat → load (bytes sample_memory) (0x10000000 + j) ≠ 0) ∧
    (k = 4 - 1 :> Z ∨ load (bytes sample_memory) (0x10000000 + k) = 0)).
Proof.
  split; [vm_compute; reflexivity|].
  apply (ReadStringFromUsermode_total [9; 9; 9; 9] 0x10000000 4 sample_memory);
    unfold NULL, is_u32, is_u64; simpl; lia.
Defined.
