(* ===== verification/Buffers.v ===== *)
(** * Buffers that a transfer may use

    When every byte of a transfer lies in pages that allow it, its parts can be
    moved one after the other, and the bytes end up side by side. *)

From S2P Require Import Prelude Physical Transfer.

Definition is_write (tr : transfer) : bool :=
  match direction tr with TRANSFER_WRITE => true | TRANSFER_READ => false end.

(** A transfer every byte of which may be moved. *)
Definition to_user (tr : transfer) : bool := negb (is_write tr).

Record usable (m : memory) (tr : transfer) : Prop := {
  us_address : 0 < address tr;
  us_length : 0 ≤ length_remaining tr;
  us_end : address tr + length_remaining tr < 2 ^ 32;
  us_offset : 0 ≤ offset tr;
  us_offset_end : offset tr + length_remaining tr < 2 ^ 64;
  us_user : type tr = TRANSFER_USERMODE →
    in_user_area (address tr) (length_remaining tr) ∧
    ∀ p, address tr / ARCH_PAGE_SIZE ≤ p ≤ (address tr + length_remaining tr) / ARCH_PAGE_SIZE →
      page_ok (vas_entries m) (to_user tr) p;
}.

Section buffers.
Implicit Types (m : memory) (tr : transfer).

Lemma advance_run m tr k : usable m tr → 0 ≤ k ≤ length_remaining tr →
  advance tr k = Transfer (address tr + k) (length_remaining tr - k) (offset tr + k)
    (direction tr) (type tr) (blockable tr).
Proof.
  intros [] Hk. unfold advance. rewrite u32_small by (unfold is_u32; lia).
  by rewrite !u64_small by (unfold is_u64; lia).
Qed.

Lemma advance_usable m m' tr k :
  usable m tr → 0 ≤ k ≤ length_remaining tr → vas_entries m' = vas_entries m → usable m' (advance tr k).
Proof.
  intros Hu Hk Hm. rewrite (advance_run m) by done. destruct Hu. split; simpl; try lia.
  intros Ht. destruct (us_user0 Ht) as [[? ?] Hp]. split; [split; simpl; lia|]. simpl. rewrite Hm.
  intros p Hpr. apply Hp. replace (address tr + k + (length_remaining tr - k)) with
    (address tr + length_remaining tr) in Hpr by lia. split; [|lia].
  etransitivity; [|apply Hpr]. apply Z.div_le_mono; unfold ARCH_PAGE_SIZE; lia.
Qed.

Lemma advance_advance m tr j k :
  usable m tr → 0 ≤ j → 0 ≤ k → j + k ≤ length_remaining tr → advance (advance tr j) k = advance tr (j + k).
Proof.
  intros Hu Hj Hk Hl. rewrite (advance_run m (advance tr j)); [|by apply (advance_usable m); [|lia|]|].
  2: { rewrite (advance_run m) by (done || lia). simpl. lia. }
  rewrite !(advance_run m tr) by (done || lia). simpl. f_equal; lia.
Qed.

Lemma advance_zero m tr : usable m tr → advance tr 0 = tr.
Proof. intros Hu. pose proof (us_length _ _ Hu). rewrite (advance_run m) by (done || lia). destruct tr. simpl. f_equal; lia. Qed.

Lemma revert_part m tr j k :
  usable m tr → 0 ≤ j ≤ k → k ≤ length_remaining tr → RevertTransfer (advance tr k) (k - j) = advance tr j.
Proof.
  intros Hu Hj Hk. rewrite !(advance_run m tr) by (done || lia). destruct Hu. unfold RevertTransfer. simpl.
  rewrite u32_small by (unfold is_u32; lia). rewrite !u64_small by (unfold is_u64; lia). f_equal; lia.
Qed.

(** A chunk of a usable buffer is accepted. *)
Lemma chunk_run m tr c len :
  usable m tr → 0 < len → len ≤ length_remaining tr → len ≤ length c →
  PerformTransfer (Some c) tr len m =
  if is_write tr
  then Done ((0, load_bytes (bytes m) (address tr) (Z.to_nat len) ++ drop (Z.to_nat len) c, advance tr len), m)
  else Done ((0, c, advance tr len),
      Memory (vas_entries m) (store_bytes (bytes m) (address tr) (take (Z.to_nat len) c))).
Proof.
  intros Hu Hlen Hl Hc. pose proof Hu as []. assert (transfer_amount tr len = len) as Ham.
  { unfold transfer_amount. rewrite Z.min_l by lia. apply u32_small. unfold is_u32. lia. }
  pose proof (PerformTransfer_run c tr len m) as H. rewrite Ham in H. rewrite H; [|unfold NULL; lia|lia|lia|].
  { unfold is_write. by destruct (direction tr). }
  intros Ht. destruct (us_user0 Ht) as [[? ?] Hp]. unfold to_user, is_write in Hp.
  destruct (ValidateCopy_cases (vas_entries m) (address tr) len
    (match direction tr with TRANSFER_READ => true | TRANSFER_WRITE => false end)) as [[_ Hv]|[Hv _]];
    [unfold is_u32; lia|unfold is_u32; lia|exact Hv|].
  exfalso. apply Hv. split; [split; lia|]. intros p Hpr.
  replace (match direction tr with TRANSFER_READ => true | TRANSFER_WRITE => false end)
    with (negb match direction tr with TRANSFER_READ => false | TRANSFER_WRITE => true end) by (by destruct (direction tr)).
  apply Hp. unfold BytesToPages, ARCH_PAGE_SIZE, ARCH_USER_AREA_LIMIT in *.
  rewrite u32_small in Hpr by (unfold is_u32; lia). clear -Hpr Hlen Hl. split; [lia|].
  Z.to_euclidean_division_equations. lia.
Qed.

Lemma load_bytes_app (d : gmap Z Z) a (i j : nat) : load_bytes d a (i + j) = load_bytes d a i ++ load_bytes d (a + i) j.
Proof.
  revert a. induction i as [|i IH]; intros a; simpl; [by rewrite Z.add_0_r|]. rewrite IH.
  by replace (a + 1 + i) with (a + S i) by lia.
Qed.

Lemma store_bytes_app (d : gmap Z Z) a (xs ys : list Z) :
  store_bytes (store_bytes d a xs) (a + length xs) ys = store_bytes d a (xs ++ ys).
Proof.
  apply map_eq. intros b. rewrite !store_bytes_lookup, length_app.
  destruct (decide (a + length xs ≤ b < a + length xs + length ys)).
  - rewrite decide_True by lia. rewrite lookup_app_r by lia. f_equal. lia.
  - destruct (decide (a ≤ b < a + length xs)).
    + rewrite decide_True by lia. by rewrite lookup_app_l by lia.
    + by rewrite decide_False by lia.
Qed.
End buffers.
