(* ===== verification/ThreadList.v ===== *)
(** * thread/threadlist.c: allocation-free lists of threads

    The scheduler, the timer and the semaphores keep threads on intrusive
    lists: each thread has one [next] pointer per kind of list. This file holds
    the state those components share, the list operations over it, and the
    proof that they implement sequences of threads. *)

From S2P Require Import Prelude.

(** ** The shared state *)

Definition THREAD_STATE_RUNNING : Z := 0.
Definition THREAD_STATE_READY : Z := 1.
Definition THREAD_STATE_SLEEPING : Z := 2.
Definition THREAD_STATE_WAITING_FOR_SEMAPHORE : Z := 3.
Definition THREAD_STATE_WAITING_FOR_SEMAPHORE_WITH_TIMEOUT : Z := 4.
Definition THREAD_STATE_TERMINATED : Z := 5.
Definition THREAD_STATE_STOPPED : Z := 6.
Definition THREAD_STATE_WAITING_FOR_SIGNAL : Z := 7.

Definition NEXT_INDEX_READY : Z := 0.
Definition NEXT_INDEX_SLEEP : Z := 1.
Definition NEXT_INDEX_SEMAPHORE : Z := 2.

(** The fields of [struct thread] that the scheduler, timer, semaphores and
    signals use. *)
Record thread := Thread {
  t_next : list Z;                        (* struct thread* next[3] *)
  thread_id : Z;
  state : Z;
  time_used : Z;
  priority : Z;
  schedule_policy : Z;
  timed_out : bool;
  timed_out_due_to_signal : bool;
  needs_termination : bool;
  needs_stopping : bool;
  waiting_on_semaphore : Z;
  signal_intr : bool;
  timeslice_expiry : Z;
  gifted_timeslice : Z;
  sleep_expiry : Z;
  alarm_id : Z;
  pending_signals : Z;
  blocked_signals : Z;
  prev_blocked_signals : Z;
  user_common_signal_handler : Z;
}.

Record thread_list := ThreadListHdr { head : Z; tail : Z; index : Z }.

(** [waiting_list] is the header stored at the semaphore's own address. *)
Record semaphore := Semaphore { max_count : Z; current_count : Z }.

Record alarm := Alarm { wakeup_time : Z; callback : Z; arg : Z }.

(** The kernel state of the thread subsystem. Pointers are addresses;
    [lists] holds the list headers ([ready_list], [sleep_list], each
    semaphore's [waiting_list]) by address. *)
Record kern := Kern {
  threads : gmap Z thread;
  lists : gmap Z thread_list;
  sems : gmap Z semaphore;
  current_thread : Z;                     (* NULL before multitasking *)
  postponed_task_switch : bool;
  scheduler_lock_count : Z;
  scheduler_prevent : Z;
  prev_time : Z;
  system_time : Z;
  sleep_wakeups_posted : Z;
  alarms : list alarm;
  num_alarms_installed : Z;
  deferred : list (Z * Z);                (* DeferUntilIrql(STANDARD, handler, arg) *)
}.

Definition get_thread (a : Z) : M kern thread := k ← get; deref (threads k !! a).
Definition set_thread (a : Z) (t : thread) : M kern unit :=
  modify (λ k, {| k with threads := <[a := t]> (threads k) |}).
Definition get_list (l : Z) : M kern thread_list := k ← get; deref (lists k !! l).
Definition set_list (l : Z) (h : thread_list) : M kern unit :=
  modify (λ k, {| k with lists := <[l := h]> (lists k) |}).

(** [a->next[i]] *)
Definition get_next (a i : Z) : M kern Z := t ← get_thread a; deref (aget (t_next t) i).
Definition set_next (a i v : Z) : M kern unit :=
  t ← get_thread a;
  n ← deref (aset (t_next t) i v);
  set_thread a {| t with t_next := n |}.

(** ** Operations *)

Definition ThreadListInit (list idx : Z) : M kern unit := set_list list (ThreadListHdr NULL NULL idx).

(** The walk visits each thread at most once on a well-formed list. *)
Fixpoint ThreadListGetIndex_loop (fuel : nat) (idx thread iter i : Z) : M kern Z :=
  if decide (iter = NULL) then mret (-1) else
  match fuel with
  | O => exhausted
  | S fuel =>
    if decide (iter = thread) then mret i else
    nx ← get_next iter idx;
    ThreadListGetIndex_loop fuel idx thread nx (i + 1)
  end.
Definition ThreadListGetIndex (list thread : Z) : M kern Z :=
  k ← get;
  l ← get_list list;
  ThreadListGetIndex_loop (size (threads k)) (index l) thread (head l) 0.

Definition ThreadListContains (list thread : Z) : M kern bool :=
  i ← ThreadListGetIndex list thread; mret (bool_decide (i ≠ -1)).

Definition ThreadListInsertAtFront (list thread : Z) : M kern unit :=
  c ← ThreadListContains list thread;
  c_assert (negb c);;
  l ← get_list list;
  (if decide (head l = NULL) then
     c_assert (bool_decide (tail l = NULL));;
     set_list list {| l with tail := thread |}
   else mret tt);;
  l ← get_list list;
  set_next thread (index l) (head l);;
  set_list list {| l with head := thread |}.

Definition ThreadListInsert (list thread : Z) : M kern unit :=
  c ← ThreadListContains list thread;
  c_assert (negb c);;
  l ← get_list list;
  (if decide (tail l = NULL) then
     c_assert (bool_decide (head l = NULL));;
     set_list list {| l with head := thread |}
   else set_next (tail l) (index l) thread);;
  l ← get_list list;
  set_list list {| l with tail := thread |};;
  set_next thread (index l) NULL.

Definition ProperDelete (list iter prev : Z) : M kern unit :=
  l ← get_list list;
  (if decide (iter = head l) then
     nx ← get_next (head l) (index l); set_list list {| l with head := nx |}
   else nx ← get_next iter (index l); set_next prev (index l) nx);;
  l ← get_list list;
  (if decide (iter = tail l) then set_list list {| l with tail := prev |} else mret tt);;
  l ← get_list list;
  if decide (head l = NULL) then c_assert (bool_decide (tail l = NULL)) else mret tt.

Fixpoint ThreadListDeleteIndex_loop (fuel : nat) (list target i iter prev : Z) : M kern unit :=
  if decide (iter = NULL) then panic PANIC_THREAD_LIST else
  match fuel with
  | O => exhausted
  | S fuel =>
    if decide (i = target) then ProperDelete list iter prev else
    l ← get_list list;
    nx ← get_next iter (index l);
    ThreadListDeleteIndex_loop fuel list target (i + 1) nx iter
  end.
Definition ThreadListDeleteIndex (list target : Z) : M kern unit :=
  c_assert (bool_decide (0 ≤ target));;
  k ← get;
  l ← get_list list;
  ThreadListDeleteIndex_loop (size (threads k)) list target 0 (head l) NULL.

Definition ThreadListDeleteTop (list : Z) : M kern Z :=
  l ← get_list list;
  let top := head l in
  (if decide (head l = tail l) then set_list list {| l with tail := NULL |} else mret tt);;
  l ← get_list list;
  nx ← get_next (head l) (index l);
  set_list list {| l with head := nx |};;
  l ← get_list list;
  (if decide (head l = NULL) then c_assert (bool_decide (tail l = NULL)) else mret tt);;
  mret top.

Definition ThreadListDelete (list thread : Z) : M kern unit :=
  i ← ThreadListGetIndex list thread; ThreadListDeleteIndex list i.

(** ** Lists as sequences *)

(** [ts[a].next[idx]] *)
Definition nxt (ts : gmap Z thread) (idx a : Z) : option Z := t ← ts !! a; aget (t_next t) idx.

Lemma exists_last' {A} (xs : list A) : xs = [] ∨ ∃ ys y, xs = ys ++ [y].
Proof. destruct (last xs) eqn:E; [right; apply last_Some in E as [ys ->]; eauto|left; by apply last_None]. Qed.

(** From [a], following [nx] through exactly the threads [xs], one ends at [b]. *)
Fixpoint chain (nx : Z → option Z) (a : Z) (xs : list Z) (b : Z) : Prop :=
  match xs with
  | [] => a = b
  | x :: xs => a = x ∧ x ≠ NULL ∧ ∃ n, nx x = Some n ∧ chain nx n xs b
  end.

Definition first_of (xs : list Z) : Z := default NULL (list.head xs).
Definition last_of (xs : list Z) : Z := default NULL (last xs).

Record list_rep (k : kern) (l idx : Z) (xs : list Z) : Prop := {
  lr_hdr : lists k !! l = Some (ThreadListHdr (first_of xs) (last_of xs) idx);
  lr_chain : chain (nxt (threads k) idx) (first_of xs) xs NULL;
  lr_nodup : NoDup xs;
}.

(** Everything about a thread but its [next] pointers. *)
Definition strip (t : thread) : thread := {| t with t_next := [] |}.

(** A list operation changes only the header [l] and, of the threads in [X],
    the pointer number [idx]. *)
Record list_frame (k k' : kern) (l idx : Z) (X : list Z) : Prop := {
  lf_rest : k' = {| k with threads := threads k'; lists := lists k' |};
  lf_fields : strip <$> threads k' = strip <$> threads k;
  lf_lists : ∀ l', l' ≠ l → lists k' !! l' = lists k !! l';
  lf_next : ∀ j b, j ≠ idx ∨ b ∉ X → nxt (threads k') j b = nxt (threads k) j b;
  lf_some : ∀ j b, is_Some (nxt (threads k) j b) → is_Some (nxt (threads k') j b);
}.

Lemma list_frame_refl k l idx X : list_frame k k l idx X.
Proof. split; try done. by destruct k. Qed.

Lemma list_frame_trans k1 k2 k3 l idx X Y :
  list_frame k1 k2 l idx X → list_frame k2 k3 l idx Y → list_frame k1 k3 l idx (X ++ Y).
Proof.
  intros [r1 f1 l1 n1 s1] [r2 f2 l2 n2 s2]. split.
  - rewrite r2, r1. done.
  - by rewrite f2.
  - intros l' H. by rewrite l2, l1.
  - intros j b H. rewrite n2, n1; [done|..]; set_solver.
  - eauto.
Qed.

Lemma list_frame_mono k k' l idx X Y :
  (∀ x, x ∈ X → x ∈ Y) → list_frame k k' l idx X → list_frame k k' l idx Y.
Proof. intros H []. split; try done. intros j b Hb. apply lf_next0. set_solver. Qed.

Lemma chain_ext nx nx' a xs b :
  (∀ x, x ∈ xs → nx' x = nx x) → chain nx a xs b → chain nx' a xs b.
Proof.
  revert a. induction xs as [|x xs IH]; intros a H; simpl; [done|].
  intros (-> & Hx & n & Hn & Hc). split_and!; try done. exists n. rewrite H by set_solver.
  split; [done|]. apply IH; [set_solver|done].
Qed.

Lemma chain_app nx a xs ys b : chain nx a (xs ++ ys) b ↔ ∃ m, chain nx a xs m ∧ chain nx m ys b.
Proof.
  revert a. induction xs as [|x xs IH]; intros a; simpl; [naive_solver|].
  setoid_rewrite IH. naive_solver.
Qed.

Lemma chain_start nx a xs : chain nx a xs NULL → a = first_of xs.
Proof. destruct xs; simpl; [done|naive_solver]. Qed.

Lemma chain_first nx a xs b : xs ≠ [] → chain nx a xs b → a = first_of xs.
Proof. destruct xs; simpl; [done|naive_solver]. Qed.

Lemma chain_nonnull nx a xs b x : chain nx a xs b → x ∈ xs → x ≠ NULL ∧ is_Some (nx x).
Proof.
  revert a. induction xs as [|y xs IH]; intros a H Hx; [set_solver|]. simpl in H.
  destruct H as (-> & Hy & n & Hn & Hc). apply elem_of_cons in Hx as [->|Hx]; [by rewrite Hn|eauto].
Qed.

Lemma first_of_null xs (nx : Z → option Z) b : chain nx (first_of xs) xs b → first_of xs = NULL → xs = [].
Proof. destruct xs; [done|]. simpl. unfold first_of. simpl. naive_solver. Qed.
Lemma last_of_app xs x : last_of (xs ++ [x]) = x.
Proof. unfold last_of. by rewrite last_snoc. Qed.
Lemma last_of_null nx a xs b : chain nx a xs b → last_of xs = NULL → xs = [].
Proof.
  intros Hc Hl. destruct (exists_last' xs) as [->|(ys & y & ->)]; [done|].
  rewrite last_of_app in Hl. subst y. destruct (chain_nonnull _ _ _ _ NULL Hc); [set_solver|done].
Qed.

(** ** Reading and writing the pointers *)

Definition upd_next (ts : gmap Z thread) (a i v : Z) : gmap Z thread :=
  alter (λ t, {| t with t_next := <[Z.to_nat i := v]> (t_next t) |}) a ts.

Lemma aget_some_bounds {A} (l : list A) i x : aget l i = Some x → 0 ≤ i < length l.
Proof.
  unfold aget. case_decide; [|done]. intros H1%lookup_lt_Some. lia.
Qed.

Lemma nxt_upd ts a i v j b :
  is_Some (nxt ts i a) →
  nxt (upd_next ts a i v) j b = if decide (b = a ∧ j = i) then Some v else nxt ts j b.
Proof.
  intros [v0 Hv]. unfold nxt, upd_next in *. destruct (decide (b = a)) as [->|Hb].
  - rewrite lookup_alter_eq. destruct (ts !! a) as [t|] eqn:Et; simpl in *; [|done].
    apply aget_some_bounds in Hv. unfold aget. destruct (decide (j = i)) as [->|Hj].
    + rewrite !decide_True by naive_solver lia. by rewrite list_lookup_insert_eq by lia.
    + rewrite (decide_False (P := a = a ∧ j = i)) by naive_solver. case_decide; [|done].
      rewrite list_lookup_insert_ne by lia. done.
  - rewrite lookup_alter_ne, decide_False by naive_solver. done.
Qed.

Lemma strip_upd ts a i v : strip <$> upd_next ts a i v = strip <$> ts.
Proof.
  unfold upd_next. apply map_eq. intros b. rewrite !lookup_fmap.
  destruct (decide (b = a)) as [->|Hb]; [rewrite lookup_alter_eq|by rewrite lookup_alter_ne].
  by destruct (ts !! a).
Qed.

Lemma get_next_run k a i v : nxt (threads k) i a = Some v → get_next a i k = Done (v, k).
Proof.
  unfold nxt, get_next, get_thread. mred. destruct (threads k !! a) as [t|]; simpl; [|done].
  intros ->. done.
Qed.

Lemma set_next_run k a i v :
  is_Some (nxt (threads k) i a) →
  set_next a i v k = Done (tt, {| k with threads := upd_next (threads k) a i v |}).
Proof.
  intros [v0 Hv]. unfold set_next, get_thread, set_thread. unfold nxt in Hv. mred.
  unfold upd_next. destruct (threads k !! a) as [t|] eqn:Et; simpl in *; [|done].
  pose proof (aget_some_bounds _ _ _ Hv). unfold aset. rewrite decide_True by lia. simpl.
  do 4 f_equal. by rewrite (alter_alt_Some _ _ _ _ Et).
Qed.

Lemma get_list_run k l h : lists k !! l = Some h → get_list l k = Done (h, k).
Proof. intros H. unfold get_list. mred. by rewrite H. Qed.

Lemma frame_hdr k l idx h X : list_frame k {| k with lists := <[l := h]> (lists k) |} l idx X.
Proof. split; try done; simpl. intros l' H. by rewrite lookup_insert_ne. Qed.

Lemma frame_next k l a idx v :
  is_Some (nxt (threads k) idx a) →
  list_frame k {| k with threads := upd_next (threads k) a idx v |} l idx [a].
Proof.
  intros Hs. split; try done; simpl.
  - apply strip_upd.
  - intros j b H. rewrite nxt_upd by done. rewrite decide_False; [done|]. set_solver.
  - intros j b H. rewrite nxt_upd by done. case_decide; eauto.
Qed.

(** A list other than the one operated on stays as it was. *)
Lemma list_rep_frame k k' l idx X l' idx' ys :
  list_frame k k' l idx X → list_rep k l' idx' ys → l' ≠ l → (idx' ≠ idx ∨ ∀ y, y ∈ ys → y ∉ X) →
  list_rep k' l' idx' ys.
Proof.
  intros [] [] Hl Hd. split; [by rewrite lf_lists0| |done].
  eapply chain_ext; [|done]. intros x Hx. apply lf_next0. destruct Hd as [?|Hd]; [by left|right; by apply Hd].
Qed.

(** ** Searching *)

Fixpoint pos (x : Z) (xs : list Z) : option nat :=
  match xs with [] => None | y :: xs => if decide (y = x) then Some 0%nat else S <$> pos x xs end.

Lemma pos_middle x l1 l2 : x ∉ l1 → pos x (l1 ++ x :: l2) = Some (length l1).
Proof.
  induction l1 as [|y l1 IH]; intros H; simpl; [by rewrite decide_True|].
  rewrite decide_False by set_solver. rewrite IH by set_solver. done.
Qed.
Lemma pos_none x xs : x ∉ xs → pos x xs = None.
Proof. induction xs as [|y xs IH]; intros H; simpl; [done|]. rewrite decide_False, IH by set_solver. done. Qed.

Lemma GetIndex_loop_run k idx x fuel : ∀ xs a (i : nat),
  chain (nxt (threads k) idx) a xs NULL → (length xs ≤ fuel)%nat →
  ThreadListGetIndex_loop fuel idx x a i k
  = Done (match pos x xs with Some p => i + p | None => -1 end, k).
Proof.
  induction fuel as [|fuel IH]; intros xs a i Hc Hl.
  { destruct xs; [|simpl in Hl; lia]. simpl in *. subst. by rewrite decide_True. }
  destruct xs as [|y xs]; simpl in Hc.
  { subst. cbn [ThreadListGetIndex_loop]. by rewrite decide_True. }
  destruct Hc as (-> & Hy & n & Hn & Hc). cbn [ThreadListGetIndex_loop pos].
  rewrite decide_False by done. destruct (decide (y = x)) as [->|Hne].
  - by rewrite Z.add_0_r.
  - rewrite (M_bind_done _ _ _ _ _ (get_next_run _ _ _ _ Hn)).
    replace (i + 1) with (Z.of_nat (S i)) by lia. rewrite (IH xs) by (done || simpl in Hl; lia).
    destruct (pos x xs); simpl; [|done]. do 2 f_equal. lia.
Qed.

Lemma rep_length k l idx xs : list_rep k l idx xs → (length xs ≤ size (threads k))%nat.
Proof.
  intros [_ Hc Hnd]. rewrite <- size_dom, <- (size_list_to_set (C := gset Z) xs) by done.
  apply subseteq_size. intros x Hx%elem_of_list_to_set.
  destruct (chain_nonnull _ _ _ _ x Hc Hx) as [_ [v Hv]]. apply elem_of_dom.
  unfold nxt in Hv. destruct (threads k !! x); [eauto|done].
Qed.

Lemma ThreadListGetIndex_run k l idx xs x :
  list_rep k l idx xs →
  ThreadListGetIndex l x k = Done (match pos x xs with Some p => Z.of_nat p | None => -1 end, k).
Proof.
  intros Hr. unfold ThreadListGetIndex. rewrite (M_bind_done _ _ _ _ _ (eq_refl (get _))).
  rewrite (M_bind_done _ _ _ _ _ (get_list_run _ _ _ (lr_hdr _ _ _ _ Hr))). simpl.
  rewrite (GetIndex_loop_run k idx x _ xs _ 0); [|apply Hr|by eapply rep_length].
  destruct (pos x xs); done.
Qed.

Lemma ThreadListContains_run k l idx xs x :
  list_rep k l idx xs → ThreadListContains l x k = Done (bool_decide (x ∈ xs), k).
Proof.
  intros Hr. unfold ThreadListContains. rewrite (M_bind_done _ _ _ _ _ (ThreadListGetIndex_run _ _ _ _ x Hr)).
  mred. do 2 f_equal. apply bool_decide_ext. destruct (decide (x ∈ xs)) as [Hx|Hx].
  - apply list_elem_of_split_l in Hx as (l1 & l2 & -> & Hx).
    rewrite pos_middle by done. split; [set_solver|lia].
  - rewrite pos_none by done. done.
Qed.

(** ** Insertion and removal *)

Lemma set_list_run k l h : set_list l h k = Done (tt, {| k with lists := <[l := h]> (lists k) |}).
Proof. done. Qed.

Lemma chain_upd_notin ts idx a v xs p q :
  is_Some (nxt ts idx a) → a ∉ xs →
  chain (nxt ts idx) p xs q → chain (nxt (upd_next ts a idx v) idx) p xs q.
Proof.
  intros Hs Ha. apply chain_ext. intros x Hx. rewrite nxt_upd by done.
  by rewrite decide_False by set_solver.
Qed.

Lemma ThreadListInsert_run k l idx xs x :
  list_rep k l idx xs → x ∉ xs → x ≠ NULL → is_Some (nxt (threads k) idx x) →
  ∃ k', ThreadListInsert l x k = Done (tt, k') ∧ list_rep k' l idx (xs ++ [x]) ∧
        list_frame k k' l idx (x :: xs).
Proof.
  intros Hr Hx Hnn Hs. unfold ThreadListInsert.
  rewrite (M_bind_done _ _ _ _ _ (ThreadListContains_run _ _ _ _ x Hr)).
  rewrite bool_decide_false by done. rewrite (M_bind_done _ _ k tt k) by done.
  rewrite (M_bind_done _ _ _ _ _ (get_list_run _ _ _ (lr_hdr _ _ _ _ Hr))). cbn [tail head index].
  destruct (exists_last' xs) as [->|(ys & y & ->)].
  - rewrite (M_bind_done _ _ k tt {| k with lists := <[l := ThreadListHdr x NULL idx]> (lists k) |}) by done.
    set (k1 := {| k with lists := _ |}).
    rewrite (M_bind_done _ _ _ _ _ (get_list_run k1 l _ (lookup_insert_eq _ _ _))).
    rewrite (M_bind_done _ _ _ _ _ (set_list_run k1 l _)). cbn [index]. set (k2 := {| k1 with lists := _ |}).
    rewrite set_next_run by done. eexists. split; [done|]. split.
    + split; cbn [lists threads app k1 k2]; [by rewrite lookup_insert_eq| |apply NoDup_singleton].
      simpl. split_and!; try done. exists NULL. rewrite nxt_upd by done. by rewrite decide_True.
    + apply (list_frame_mono _ _ _ _ ([] ++ [] ++ [x])); [set_solver|].
      apply (list_frame_trans _ k1); [apply frame_hdr|].
      apply (list_frame_trans _ k2); [apply frame_hdr|apply frame_next, Hs].
  - destruct Hr as [Hh Hc Hnd]. apply chain_app in Hc as (m & Hc1 & Hy). simpl in Hy.
    destruct Hy as (-> & Hy0 & n & Hn & ->). rewrite last_of_app.
    rewrite decide_False by done.
    rewrite (M_bind_done _ _ _ _ _ (set_next_run k y idx x ltac:(by rewrite Hn))).
    set (k1 := {| k with threads := _ |}).
    rewrite (M_bind_done _ _ _ _ _ (get_list_run k1 l _ Hh)). cbn [index].
    rewrite (M_bind_done _ _ _ _ _ (set_list_run k1 l _)). set (k2 := {| k1 with lists := _ |}).
    assert (y ≠ x ∧ (y ∉ ys)) as [Hyx Hyy].
    { apply NoDup_app in Hnd as (_ & Hd & _). specialize (Hd y). set_solver. }
    assert (is_Some (nxt (upd_next (threads k) y idx x) idx x)) as Hs'.
    { rewrite nxt_upd by (by rewrite Hn). case_decide; eauto. }
    rewrite set_next_run by done. eexists. split; [done|]. split.
    + split; cbn [lists threads k1 k2]; [rewrite lookup_insert_eq; do 2 f_equal| |].
      * unfold first_of. by destruct ys.
      * by rewrite last_of_app.
      * apply chain_app. exists x. split.
        -- apply chain_upd_notin; [done|done|].
           replace (first_of ((ys ++ [y]) ++ [x])) with (first_of (ys ++ [y]))
             by (unfold first_of; by destruct ys).
           apply chain_app. exists y. split.
           ++ apply chain_upd_notin; [by rewrite Hn|done|done].
           ++ simpl. split_and!; try done. exists x. rewrite nxt_upd by (by rewrite Hn).
              by rewrite decide_True.
        -- simpl. split_and!; try done. exists NULL. rewrite nxt_upd by done. by rewrite decide_True.
      * apply NoDup_app. split_and!; [done|set_solver|apply NoDup_singleton].
    + apply (list_frame_mono _ _ _ _ ([y] ++ [] ++ [x])); [set_solver|].
      apply (list_frame_trans _ k1); [apply frame_next; by rewrite Hn|].
      apply (list_frame_trans _ k2); [apply frame_hdr|apply frame_next, Hs'].
Qed.

Lemma ThreadListInsertAtFront_run k l idx xs x :
  list_rep k l idx xs → x ∉ xs → x ≠ NULL → is_Some (nxt (threads k) idx x) →
  ∃ k', ThreadListInsertAtFront l x k = Done (tt, k') ∧ list_rep k' l idx (x :: xs) ∧
        list_frame k k' l idx (x :: xs).
Proof.
  intros Hr Hx Hnn Hs. unfold ThreadListInsertAtFront.
  rewrite (M_bind_done _ _ _ _ _ (ThreadListContains_run _ _ _ _ x Hr)).
  rewrite bool_decide_false by done. rewrite (M_bind_done _ _ k tt k) by done.
  rewrite (M_bind_done _ _ _ _ _ (get_list_run _ _ _ (lr_hdr _ _ _ _ Hr))). cbn [tail head index].
  destruct Hr as [Hh Hc Hnd].
  set (h1 := ThreadListHdr (first_of xs) (last_of (x :: xs)) idx).
  assert (∃ k1, (if decide (first_of xs = NULL)
                 then c_assert (bool_decide (last_of xs = NULL));;
                      set_list l {| (ThreadListHdr (first_of xs) (last_of xs) idx) with tail := x |}
                 else mret tt) k = Done (tt, k1) ∧ lists k1 !! l = Some h1 ∧ threads k1 = threads k ∧
                list_frame k k1 l idx []) as (k1 & E & Hh1 & Ht1 & Hf1).
  { destruct xs as [|y xs].
    - eexists. split; [done|]. split_and!; try done; [simpl; by rewrite lookup_insert_eq|apply frame_hdr].
    - rewrite decide_False by (simpl in Hc; unfold first_of; simpl; naive_solver).
      exists k. split_and!; try done. apply list_frame_refl. }
  rewrite (M_bind_done _ _ _ _ _ E), (M_bind_done _ _ _ _ _ (get_list_run _ _ _ Hh1)). cbn [index head h1].
  rewrite (M_bind_done _ _ _ _ _ (set_next_run k1 x idx _ ltac:(by rewrite Ht1))).
  set (k2 := {| k1 with threads := _ |}). rewrite set_list_run. eexists. split; [done|]. split.
  - split; cbn [lists threads k2]; [by rewrite lookup_insert_eq| |by apply NoDup_cons].
    simpl. split_and!; try done. exists (first_of xs). rewrite Ht1. split.
    + rewrite nxt_upd by done. by rewrite decide_True.
    + by apply chain_upd_notin.
  - apply (list_frame_mono _ _ _ _ ([] ++ [x] ++ [])); [set_solver|].
    apply (list_frame_trans _ k1); [done|].
    apply (list_frame_trans _ k2); [apply frame_next; by rewrite Ht1|apply frame_hdr].
Qed.

Lemma last_of_cons x xs : xs ≠ [] → last_of (x :: xs) = last_of xs.
Proof. unfold last_of. by destruct xs. Qed.
Lemma last_of_mid l1 x l2 : last_of (l1 ++ x :: l2) = last_of (x :: l2).
Proof. unfold last_of. rewrite last_app_cons. done. Qed.
Lemma last_of_in xs : xs ≠ [] → last_of xs ∈ xs.
Proof. destruct (exists_last' xs) as [->|(ys & y & ->)]; [done|]. rewrite last_of_app. set_solver. Qed.
Lemma first_of_in xs : xs ≠ [] → first_of xs ∈ xs.
Proof. destruct xs; [done|]. unfold first_of. simpl. set_solver. Qed.
Lemma first_of_app xs ys : xs ≠ [] → first_of (xs ++ ys) = first_of xs.
Proof. by destruct xs. Qed.

Lemma ProperDelete_tail k l idx l1 x l2 h :
  NoDup (l1 ++ x :: l2) → lists k !! l = Some (ThreadListHdr h (last_of (l1 ++ x :: l2)) idx) →
  (h = NULL → l1 ++ l2 = []) →
  ∃ k', (k0 ← get_list l;
         (if decide (x = tail k0) then set_list l {| k0 with tail := last_of l1 |} else mret tt);;
         k0 ← get_list l;
         if decide (head k0 = NULL) then c_assert (bool_decide (tail k0 = NULL)) else mret tt) k
        = Done (tt, k') ∧
    lists k' !! l = Some (ThreadListHdr h (last_of (l1 ++ l2)) idx) ∧ threads k' = threads k ∧
    list_frame k k' l idx [].
Proof.
  intros Hnd Hl Hh. rewrite (M_bind_done _ _ _ _ _ (get_list_run _ _ _ Hl)). cbn [tail head].
  assert (∃ k1, (if decide (x = last_of (l1 ++ x :: l2))
                 then set_list l {| (ThreadListHdr h (last_of (l1 ++ x :: l2)) idx) with tail := last_of l1 |}
                 else mret tt) k = Done (tt, k1) ∧
             lists k1 !! l = Some (ThreadListHdr h (last_of (l1 ++ l2)) idx) ∧ threads k1 = threads k ∧
             list_frame k k1 l idx []) as (k1 & E & Hl1 & Ht1 & Hf1).
  { rewrite last_of_mid. destruct l2 as [|y l2].
    - rewrite decide_True by done. eexists. split; [done|].
      split_and!; [simpl; rewrite lookup_insert_eq; by rewrite app_nil_r|done|apply frame_hdr].
    - rewrite (last_of_cons x (y :: l2)) by done. rewrite decide_False.
      + exists k. split_and!; try done; [|apply list_frame_refl].
        rewrite Hl, !last_of_mid. by rewrite (last_of_cons x (y :: l2)).
      + intros E. apply NoDup_app in Hnd as (_ & _ & [Hx _]%NoDup_cons).
        apply Hx. rewrite E. by apply last_of_in. }
  rewrite (M_bind_done _ _ _ _ _ E), (M_bind_done _ _ _ _ _ (get_list_run _ _ _ Hl1)). cbn [head tail].
  exists k1. split; [|done]. destruct (decide (h = NULL)) as [Hn|Hn]; [|done]. rewrite (Hh Hn). done.
Qed.

Lemma ThreadProperDelete_run k l idx l1 x l2 :
  list_rep k l idx (l1 ++ x :: l2) →
  ∃ k', ProperDelete l x (last_of l1) k = Done (tt, k') ∧ list_rep k' l idx (l1 ++ l2) ∧
        list_frame k k' l idx (l1 ++ x :: l2).
Proof.
  intros [Hh Hc Hnd]. unfold ProperDelete.
  rewrite (M_bind_done _ _ _ _ _ (get_list_run _ _ _ Hh)). cbn [tail head index].
  pose proof (λ z, chain_nonnull _ _ _ _ z Hc) as Hall.
  apply chain_app in Hc as (m & Hc1 & Hc2). simpl in Hc2. destruct Hc2 as (-> & Hx0 & n & Hn & Hc2).
  pose proof (chain_start _ _ _ Hc2) as ->.
  apply NoDup_app in Hnd as Hnd'. destruct Hnd' as (Hnd1 & Hd & [Hx2 Hnd2]%NoDup_cons).
  assert (NoDup (l1 ++ l2)) as HndR by (apply NoDup_app; set_solver).
  destruct (exists_last' l1) as [->|(ys & y & ->)].
  - rewrite (M_bind_done _ _ k tt
      {| k with lists := <[l := ThreadListHdr (first_of l2) (last_of ([] ++ x :: l2)) idx]> (lists k) |}).
    2: { simpl. rewrite decide_True by done. rewrite (M_bind_done _ _ _ _ _ (get_next_run _ _ _ _ Hn)). done. }
    set (k1 := {| k with lists := _ |}).
    destruct (ProperDelete_tail k1 l idx [] x l2 (first_of l2)) as (k' & E & Hl' & Ht' & Hf'); try done.
    { simpl. by rewrite lookup_insert_eq. }
    { intros H. by apply first_of_null in Hc2. }
    exists k'. split; [exact E|]. split.
    + split; [done| |done]. by rewrite Ht'.
    + apply (list_frame_mono _ _ _ _ ([] ++ [])); [set_solver|].
      by apply (list_frame_trans _ k1); [apply frame_hdr|].
  - assert ((y ∉ ys) ∧ (y ∉ l2) ∧ y ≠ x) as (Hyy & Hy2 & Hyx).
    { apply NoDup_app in Hnd1 as (_ & Hd1 & _). pose proof (Hd y). specialize (Hd1 y). set_solver. }
    apply chain_app in Hc1 as (m & Hc1 & Hy). simpl in Hy. destruct Hy as (-> & Hy0 & n & Hny & ->).
    assert (x ≠ first_of ((ys ++ [y]) ++ x :: l2)) as Hxh.
    { rewrite first_of_app by (by destruct ys). intros E.
      apply (Hd (first_of (ys ++ [y]))); [apply first_of_in; by destruct ys|]. rewrite <- E. set_solver. }
    rewrite last_of_app.
    rewrite (M_bind_done _ _ k tt {| k with threads := upd_next (threads k) y idx (first_of l2) |}).
    2: { rewrite decide_False by done. rewrite (M_bind_done _ _ _ _ _ (get_next_run _ _ _ _ Hn)).
         apply set_next_run. by rewrite Hny. }
    set (k1 := {| k with threads := _ |}).
    destruct (ProperDelete_tail k1 l idx (ys ++ [y]) x l2 (first_of ((ys ++ [y]) ++ x :: l2)))
      as (k' & E & Hl' & Ht' & Hf'); try done.
    { intros H. exfalso. destruct (Hall NULL) as [Hz _]; [|done]. rewrite <- H.
      apply first_of_in. by destruct ys. }
    rewrite last_of_app in E. exists k'. split; [exact E|]. split.
    + split; [rewrite Hl'; by destruct ys| |done]. rewrite Ht'. cbn [threads k1].
      replace (first_of ((ys ++ [y]) ++ l2)) with (first_of ((ys ++ [y]) ++ x :: l2)) by (by destruct ys).
      assert (is_Some (nxt (threads k) idx y)) as Hsy by (by rewrite Hny).
      apply chain_app. exists (first_of l2). split; [|by apply chain_upd_notin].
      apply chain_app. exists y. split; [by apply chain_upd_notin|]. simpl. split_and!; try done.
      exists (first_of l2). rewrite nxt_upd by done. by rewrite decide_True.
    + apply (list_frame_mono _ _ _ _ ([y] ++ [])); [set_solver|].
      apply (list_frame_trans _ k1); [|done]. apply frame_next. by rewrite Hny.
Qed.

Lemma DeleteIndex_loop_run k l idx x l2 mid : ∀ pre fuel,
  list_rep k l idx (pre ++ mid ++ x :: l2) → (length mid < fuel)%nat →
  ∃ k', ThreadListDeleteIndex_loop fuel l (length (pre ++ mid)) (length pre)
          (first_of (mid ++ x :: l2)) (last_of pre) k = Done (tt, k') ∧
        list_rep k' l idx (pre ++ mid ++ l2) ∧ list_frame k k' l idx (pre ++ mid ++ x :: l2).
Proof.
  induction mid as [|y mid IH]; intros pre fuel Hr Hf; destruct fuel as [|fuel]; try lia;
    cbn [ThreadListDeleteIndex_loop].
  - rewrite app_nil_r. simpl in Hr |- *. rewrite (decide_True (P := Z.of_nat _ = _)) by done.
    destruct (chain_nonnull _ _ _ _ x (lr_chain _ _ _ _ Hr)) as [Hx _]; [set_solver|].
    unfold first_of at 1. simpl. rewrite decide_False by done. by apply ThreadProperDelete_run.
  - destruct (chain_nonnull _ _ _ _ y (lr_chain _ _ _ _ Hr)) as [Hy [n Hn]]; [set_solver|].
    change (first_of ((y :: mid) ++ x :: l2)) with y. rewrite decide_False by done.
    rewrite decide_False by (rewrite length_app; simpl; lia).
    rewrite (M_bind_done _ _ _ _ _ (get_list_run _ _ _ (lr_hdr _ _ _ _ Hr))). cbn [index].
    rewrite (M_bind_done _ _ _ _ _ (get_next_run _ _ _ _ Hn)).
    assert (n = first_of (mid ++ x :: l2)) as ->.
    { destruct Hr as [_ Hc _]. apply chain_app in Hc as (m & _ & Hc). simpl in Hc.
      destruct Hc as (-> & _ & n' & Hn' & Hc). rewrite Hn in Hn'. injection Hn' as <-.
      by apply chain_start in Hc. }
    assert (pre ++ (y :: mid) ++ x :: l2 = (pre ++ [y]) ++ mid ++ x :: l2) as E by (by rewrite <- app_assoc).
    rewrite E in Hr |- *. destruct (IH (pre ++ [y]) fuel Hr) as (k' & Ek & Hr' & Hf'); [simpl in Hf; lia|].
    rewrite last_of_app in Ek. exists k'. split_and!; [|by rewrite <- app_assoc in Hr'|done].
    rewrite <- Ek. f_equal; rewrite !length_app; simpl; rewrite ?length_app; simpl; lia.
Qed.

Lemma ThreadListDelete_run k l idx l1 x l2 :
  list_rep k l idx (l1 ++ x :: l2) →
  ∃ k', ThreadListDelete l x k = Done (tt, k') ∧ list_rep k' l idx (l1 ++ l2) ∧
        list_frame k k' l idx (l1 ++ x :: l2).
Proof.
  intros Hr. unfold ThreadListDelete. rewrite (M_bind_done _ _ _ _ _ (ThreadListGetIndex_run _ _ _ _ x Hr)).
  rewrite pos_middle.
  2: { pose proof (lr_nodup _ _ _ _ Hr) as (_ & Hd & _)%NoDup_app. intros H. apply (Hd x H). set_solver. }
  unfold ThreadListDeleteIndex. rewrite bool_decide_true by lia.
  rewrite (M_bind_done _ _ k tt k) by done. rewrite (M_bind_done _ _ _ _ _ (eq_refl (get _))).
  rewrite (M_bind_done _ _ _ _ _ (get_list_run _ _ _ (lr_hdr _ _ _ _ Hr))). cbn [head].
  pose proof (rep_length _ _ _ _ Hr) as Hl. rewrite length_app in Hl. simpl in Hl.
  apply (DeleteIndex_loop_run k l idx x l2 l1 []); [done|lia].
Qed.

(** A thread that is not on the list: the assertion on the index fires. *)
Lemma ThreadListDelete_absent k l idx xs x :
  list_rep k l idx xs → x ∉ xs → ThreadListDelete l x k = Panicked PANIC_ASSERTION_FAILURE.
Proof.
  intros Hr Hx. unfold ThreadListDelete. rewrite (M_bind_done _ _ _ _ _ (ThreadListGetIndex_run _ _ _ _ x Hr)).
  by rewrite pos_none.
Qed.

Lemma ThreadListDeleteTop_run k l idx x xs :
  list_rep k l idx (x :: xs) →
  ∃ k', ThreadListDeleteTop l k = Done (x, k') ∧ list_rep k' l idx xs ∧ list_frame k k' l idx (x :: xs).
Proof.
  intros [Hh Hc Hnd]. unfold ThreadListDeleteTop.
  rewrite (M_bind_done _ _ _ _ _ (get_list_run _ _ _ Hh)). cbn [head tail].
  simpl in Hc. destruct Hc as (_ & Hx0 & n & Hn & Hc). pose proof (chain_start _ _ _ Hc) as ->.
  apply NoDup_cons in Hnd as [Hx Hnd]. change (first_of (x :: xs)) with x.
  assert (∃ k1, (if decide (x = last_of (x :: xs))
                 then set_list l {| (ThreadListHdr (first_of (x :: xs)) (last_of (x :: xs)) idx) with tail := NULL |}
                 else mret tt) k = Done (tt, k1) ∧
             lists k1 !! l = Some (ThreadListHdr x (last_of xs) idx) ∧ threads k1 = threads k ∧
             list_frame k k1 l idx []) as (k1 & E & Hl1 & Ht1 & Hf1).
  { destruct xs as [|y xs].
    - rewrite decide_True by done. eexists. split; [done|].
      split_and!; [simpl; by rewrite lookup_insert_eq|done|apply frame_hdr].
    - rewrite (last_of_cons x (y :: xs)) in * by done. rewrite decide_False.
      + exists k. split_and!; try done. apply list_frame_refl.
      + intros E. apply Hx. rewrite E. by apply last_of_in. }
  change (first_of (x :: xs)) with x in E. rewrite (M_bind_done _ _ _ _ _ E).
  rewrite (M_bind_done _ _ _ _ _ (get_list_run _ _ _ Hl1)). cbn [head index].
  rewrite (M_bind_done _ _ k1 (first_of xs) k1) by (apply get_next_run; by rewrite Ht1).
  rewrite (M_bind_done _ _ _ _ _ (set_list_run k1 l _)). set (k2 := {| k1 with lists := _ |}).
  rewrite (M_bind_done _ _ _ _ _ (get_list_run k2 l _ (lookup_insert_eq _ _ _))). cbn [head tail].
  exists k2. split_and!.
  - destruct (decide (first_of xs = NULL)) as [Hz|]; [|done].
    apply first_of_null in Hc; [|done]. by subst xs.
  - split; [simpl; by rewrite lookup_insert_eq| |done]. cbn [threads k2]. by rewrite Ht1.
  - apply (list_frame_mono _ _ _ _ ([] ++ [])); [set_solver|].
    apply (list_frame_trans _ k1); [done|apply frame_hdr].
Qed.
