(* ===== verification/Scheduler.v ===== *)
(** * thread/thread.c: blocking, waking and switching threads

    Also [CancelSemaphoreOfThread] of sync/semaphore.c, which waking uses. One
    processor; the address space switch, the stack canaries and the machine
    context switch are outside the model: after [SwitchToNewTask] the code
    continues as the new thread. *)

From S2P Require Import Prelude ThreadList.

(** Addresses of the static list headers. *)
Definition ready_list : Z := 1.
Definition sleep_list : Z := 2.

(** The scheduler lock is recursive; it is held while its count is positive. *)
Definition LockScheduler : M kern unit :=
  modify (λ k, {| k with scheduler_lock_count := scheduler_lock_count k + 1 |}).
Definition AssertSchedulerLockHeld : M kern unit :=
  k ← get; c_assert (bool_decide (0 < scheduler_lock_count k)).

Definition PostponeScheduleUntilStandardIrql : M kern unit :=
  modify (λ k, {| k with postponed_task_switch := true |}).

Section unlock.
(** What runs when the lock is dropped with a task switch pending: [Schedule],
    and every other thread until this one is switched back in. *)
Variable others : M kern unit.
Definition UnlockScheduler : M kern unit :=
  k ← get;
  c_assert (bool_decide (0 < scheduler_lock_count k));;
  put {| k with scheduler_lock_count := scheduler_lock_count k - 1 |};;
  k ← get;
  if decide (scheduler_lock_count k = 0 ∧ postponed_task_switch k = true) then
    put {| k with postponed_task_switch := false |};; others
  else mret tt.
End unlock.

Definition GetThread : M kern Z := gets current_thread.
Definition GetSystemTimer : M kern Z := gets system_time.

Definition BlockThread (reason : Z) : M kern unit :=
  AssertSchedulerLockHeld;;
  c_assert (bool_decide (reason ≠ THREAD_STATE_READY ∧ reason ≠ THREAD_STATE_RUNNING));;
  cur ← GetThread;
  c_assert (bool_decide (cur ≠ NULL));;
  t ← get_thread cur;
  c_assert (bool_decide (state t = THREAD_STATE_RUNNING));;
  set_thread cur {| t with state := reason |};;
  PostponeScheduleUntilStandardIrql.

Definition CancelSemaphoreOfThread (thr : Z) : M kern unit :=
  AssertSchedulerLockHeld;;
  t ← get_thread thr;
  c ← ThreadListContains (waiting_on_semaphore t) thr;
  c_assert c;;
  ThreadListDelete (waiting_on_semaphore t) thr.

Definition UnblockThread (thr : Z) : M kern unit :=
  AssertSchedulerLockHeld;;
  t ← get_thread thr;
  (if decide (state t = THREAD_STATE_WAITING_FOR_SEMAPHORE_WITH_TIMEOUT)
   then CancelSemaphoreOfThread thr else mret tt);;
  ThreadListInsert ready_list thr;;
  t ← get_thread thr;
  cur ← GetThread;
  c ← get_thread cur;
  if decide (priority t < priority c) then PostponeScheduleUntilStandardIrql else mret tt.

Definition UnblockThreadGiftingTimeslice (thr : Z) : M kern unit :=
  AssertSchedulerLockHeld;;
  sys_time ← GetSystemTimer;
  cur ← GetThread;
  c ← get_thread cur;
  let current_expiry := timeslice_expiry c in
  t ← get_thread thr;
  (if decide (sys_time ≤ current_expiry)
   then set_thread thr {| t with gifted_timeslice := u64 (gifted_timeslice t + (current_expiry - sys_time)) |}
   else mret tt);;
  t ← get_thread thr;
  (if decide (state t = THREAD_STATE_WAITING_FOR_SEMAPHORE_WITH_TIMEOUT)
   then CancelSemaphoreOfThread thr else mret tt);;
  ThreadListInsertAtFront ready_list thr;;
  t ← get_thread thr;
  c ← get_thread cur;
  (if decide (priority t < priority c) then PostponeScheduleUntilStandardIrql else mret tt);;
  c ← get_thread cur;
  set_thread cur {| c with timeslice_expiry := sys_time |};;
  PostponeScheduleUntilStandardIrql.

Definition UpdateThreadTimeUsed : M kern unit :=
  time ← GetSystemTimer;
  prev ← gets prev_time;
  modify (λ k, {| k with prev_time := time |});;
  cur ← GetThread;
  t ← get_thread cur;
  set_thread cur {| t with time_used := u64 (time_used t + u64 (time - prev)) |}.

Definition SCHEDULE_POLICY_FIXED : Z := 0.
Definition SCHEDULE_POLICY_USER_HIGHER : Z := 1.
Definition SCHEDULE_POLICY_USER_NORMAL : Z := 2.
Definition SCHEDULE_POLICY_USER_LOWER : Z := 3.

Definition UpdateTimesliceExpiry : M kern unit :=
  cur ← GetThread;
  t ← get_thread cur;
  now ← GetSystemTimer;
  set_thread cur {| t with
    timeslice_expiry := u64 (now + gifted_timeslice t
      + (if decide (priority t = 255) then 0 else (20 + Z.quot (priority t) 4) * 1000000));
    gifted_timeslice := 0 |}.

Definition GetMinPriorityValueForPolicy (policy : Z) : Z :=
  if decide (policy = SCHEDULE_POLICY_USER_HIGHER) then 50 else
  if decide (policy = SCHEDULE_POLICY_USER_NORMAL) then 100 else
  if decide (policy = SCHEDULE_POLICY_USER_LOWER) then 150 else 0.

Definition GetMaxPriorityValueForPolicy (policy : Z) : Z :=
  if decide (policy = SCHEDULE_POLICY_FIXED) then 255 else GetMinPriorityValueForPolicy policy + 100.

Definition UpdatePriority (yielded : bool) : M kern unit :=
  cur ← GetThread;
  t ← get_thread cur;
  let policy := schedule_policy t in
  if decide (policy ≠ SCHEDULE_POLICY_FIXED) then
    let new_val := priority t + (if yielded then -1 else 1) in
    if decide (GetMinPriorityValueForPolicy policy ≤ new_val ≤ GetMaxPriorityValueForPolicy policy)
    then set_thread cur {| t with priority := new_val |} else mret tt
  else mret tt.

Definition PreventScheduler : M kern unit :=
  modify (λ k, {| k with scheduler_prevent := scheduler_prevent k + 1 |}).
Definition UnpreventScheduler : M kern unit :=
  modify (λ k, {| k with scheduler_prevent := scheduler_prevent k - 1 |}).

(** [ArchSwitchThread] returns as the new thread, which then sets its own
    timeslice. *)
Definition SwitchToNewTask (new_thread : Z) : M kern unit :=
  t ← get_thread new_thread;
  set_thread new_thread {| t with state := THREAD_STATE_RUNNING |};;
  _ ← ThreadListDeleteTop ready_list;
  modify (λ k, {| k with current_thread := new_thread |});;
  UpdateTimesliceExpiry.

Definition ScheduleWithLockHeld : M kern unit :=
  AssertSchedulerLockHeld;;
  old_thread ← GetThread;
  l ← get_list ready_list;
  let new_thread := head l in
  if decide (old_thread = NULL) then
    (if decide (head l ≠ NULL) then SwitchToNewTask new_thread else mret tt)
  else if decide (new_thread = old_thread ∨ new_thread = NULL) then mret tt
  else
    o ← get_thread old_thread;
    now ← GetSystemTimer;
    let yielded := bool_decide (now < timeslice_expiry o) in
    UpdatePriority yielded;;
    UpdateThreadTimeUsed;;
    o ← get_thread old_thread;
    (if decide (state o = THREAD_STATE_RUNNING) then ThreadListInsert ready_list old_thread else mret tt);;
    SwitchToNewTask new_thread.

(** [irql]: the level of the caller; [terminate], [stop]: [TerminateThread] and
    [StopThread] on the current thread. *)
Definition Schedule (irql : Z) (others terminate stop : M kern unit) : M kern unit :=
  k ← get;
  if decide (2 < irql ∨ 0 < scheduler_prevent k) then PostponeScheduleUntilStandardIrql else
  LockScheduler;;
  ScheduleWithLockHeld;;
  UnlockScheduler others;;
  cur ← GetThread;
  t ← get_thread cur;
  if needs_termination t then terminate;; panic PANIC_IMPOSSIBLE_RETURN
  else if needs_stopping t then stop else mret tt.

Definition InitScheduler : M kern unit := ThreadListInit ready_list NEXT_INDEX_READY.

(** The thread becomes known and ready; [fresh] is its zero-initialised or
    uninitialised memory as [AllocHeap] returned it, with the fields that
    [CreateThreadEx] does not set. *)
Definition CreateThreadEx (thr : Z) (fresh : thread) (id policy prio : Z) (others : M kern unit) : M kern unit :=
  now ← GetSystemTimer;
  set_thread thr {| fresh with
    state := THREAD_STATE_READY; time_used := 0; gifted_timeslice := 0; priority := prio;
    needs_termination := false; needs_stopping := false; waiting_on_semaphore := NULL;
    schedule_policy := policy; timeslice_expiry := u64 (now + 50); signal_intr := false;
    pending_signals := 0; blocked_signals := 0; prev_blocked_signals := 0;
    user_common_signal_handler := 0; alarm_id := -1; thread_id := id |};;
  LockScheduler;;
  ThreadListInsert ready_list thr;;
  UnlockScheduler others.

Definition SetThreadPriority (thr policy prio : Z) : M kern Z :=
  if decide (prio < -1 ∨ 255 < prio) then mret EINVAL else
  if decide (policy ≠ -1 ∧ policy ≠ SCHEDULE_POLICY_FIXED ∧ policy ≠ SCHEDULE_POLICY_USER_LOWER ∧
             policy ≠ SCHEDULE_POLICY_USER_NORMAL ∧ policy ≠ SCHEDULE_POLICY_USER_HIGHER)
  then mret EINVAL else
  let prio := if decide (prio < GetMinPriorityValueForPolicy policy)
              then GetMinPriorityValueForPolicy policy else prio in
  let prio := if decide (GetMaxPriorityValueForPolicy policy < prio)
              then GetMaxPriorityValueForPolicy policy else prio in
  t ← get_thread thr;
  let t := if decide (policy ≠ -1) then {| t with schedule_policy := policy |} else t in
  let t := if decide (prio ≠ -1) then {| t with priority := prio |} else t in
  set_thread thr t;;
  mret 0.
