(* ===== verification/Timer.v ===== *)
(** * thread/timer.c: sleeping, timeouts and alarms *)

From S2P Require Import Prelude ThreadList Scheduler.

Definition EXPIRED_ALARM : Z := 2 ^ 64 - 1.
Definition MAX_ALARMS : Z := 256.
Definition EINTR : Z := 33.

Definition QueueForSleep (thr : Z) : M kern unit :=
  AssertSchedulerLockHeld;;
  t ← get_thread thr;
  set_thread thr {| t with timed_out := false |};;
  ThreadListInsert sleep_list thr.

Fixpoint TryDequeueForSleep_loop (fuel : nat) (thr iter : Z) : M kern bool :=
  if decide (iter = NULL) then mret false else
  match fuel with
  | O => exhausted
  | S fuel =>
    if decide (iter = thr) then ThreadListDelete sleep_list iter;; mret true else
    nx ← get_next iter NEXT_INDEX_SLEEP;
    TryDequeueForSleep_loop fuel thr nx
  end.
Definition TryDequeueForSleep (thr : Z) : M kern bool :=
  AssertSchedulerLockHeld;;
  k ← get;
  l ← get_list sleep_list;
  TryDequeueForSleep_loop (size (threads k)) thr (head l).

(** [GetNumberInDeferQueue() < 8] is [room]. *)
Definition ReceivedTimer (nanos : Z) (room : bool) (HandleSleepWakeups_handler : Z) : M kern unit :=
  modify (λ k, {| k with system_time := u64 (system_time k + nanos) |});;
  k ← get;
  (if decide (current_thread k = NULL) then mret tt else
   t ← get_thread (current_thread k);
   if decide (timeslice_expiry t ≠ 0 ∧ timeslice_expiry t ≤ system_time k)
   then PostponeScheduleUntilStandardIrql else mret tt);;
  if room then modify (λ k, {| k with deferred := deferred k ++ [(HandleSleepWakeups_handler, 0)] |})
  else mret tt.

Definition InitTimer : M kern unit :=
  ThreadListInit sleep_list NEXT_INDEX_SLEEP;;
  modify (λ k, {| k with alarms := replicate 256 (Alarm 0 0 0) |}).

(** [for (i = 0; i < MAX_ALARMS && num_alarms_installed > 0; ++i)] *)
Fixpoint HandleAlarms_loop (n : nat) (i time : Z) : M kern unit :=
  match n with
  | O => mret tt
  | S n =>
    k ← get;
    if decide (0 < num_alarms_installed k) then
      a ← deref (aget (alarms k) i);
      (if decide (wakeup_time a ≤ time ∧ wakeup_time a ≠ 0 ∧ wakeup_time a ≠ EXPIRED_ALARM) then
         al ← deref (aset (alarms k) i {| a with wakeup_time := EXPIRED_ALARM |});
         put {| k with alarms := al; num_alarms_installed := num_alarms_installed k - 1;
                       deferred := deferred k ++ [(callback a, arg a)] |}
       else mret tt);;
      HandleAlarms_loop n (i + 1) time
    else mret tt
  end.
Definition HandleAlarms (time : Z) : M kern unit :=
  AssertSchedulerLockHeld;; HandleAlarms_loop (Z.to_nat MAX_ALARMS) 0 time.

(** Walk the sleep list; start again after every wake-up. *)
Fixpoint HandleSleepWakeups_loop (fuel : nat) (time iter : Z) : M kern unit :=
  if decide (iter = NULL) then mret tt else
  match fuel with
  | O => exhausted
  | S fuel =>
    t ← get_thread iter;
    if decide (sleep_expiry t ≤ time ∨ signal_intr t = true) then
      ThreadListDelete sleep_list iter;;
      t ← get_thread iter;
      set_thread iter {| t with timed_out := true; timed_out_due_to_signal := signal_intr t |};;
      UnblockThread iter;;
      l ← get_list sleep_list;
      HandleSleepWakeups_loop fuel time (head l)
    else
      nx ← get_next iter NEXT_INDEX_SLEEP;
      HandleSleepWakeups_loop fuel time nx
  end.

(** Each of the at most [n] wake-ups restarts a walk of at most [n] threads. *)
Definition wakeups_fuel (k : kern) : nat := S (size (threads k)) * S (size (threads k)).

Definition HandleSleepWakeups (others : M kern unit) : M kern unit :=
  cur ← GetThread;
  if decide (cur = NULL) then mret tt else
  LockScheduler;;
  modify (λ k, {| k with sleep_wakeups_posted :=
    if decide (0 < sleep_wakeups_posted k) then sleep_wakeups_posted k - 1 else sleep_wakeups_posted k |});;
  time ← gets system_time;
  HandleAlarms time;;
  k ← get;
  l ← get_list sleep_list;
  HandleSleepWakeups_loop (wakeups_fuel k) time (head l);;
  UnlockScheduler others.

Definition SleepUntil (system_time_ns : Z) (others : M kern unit) : M kern Z :=
  now ← GetSystemTimer;
  if decide (system_time_ns < now) then mret 0 else
  LockScheduler;;
  cur ← GetThread;
  t ← get_thread cur;
  set_thread cur {| t with sleep_expiry := system_time_ns |};;
  QueueForSleep cur;;
  BlockThread THREAD_STATE_SLEEPING;;
  UnlockScheduler others;;
  cur ← GetThread;
  t ← get_thread cur;
  mret (if timed_out_due_to_signal t then EINTR else 0).

Definition SleepNano (delta_ns : Z) (others : M kern unit) : M kern Z :=
  now ← GetSystemTimer; SleepUntil (u64 (now + delta_ns)) others.
Definition SleepMilli (delta_ms : Z) (others : M kern unit) : M kern Z :=
  SleepNano (u64 (delta_ms * 1000000)) others.

(** The first free slot. *)
Fixpoint find_free_alarm (al : list alarm) (i : Z) : option Z :=
  match al with
  | [] => None
  | a :: al => if decide (wakeup_time a = 0) then Some i else find_free_alarm al (i + 1)
  end.

(** Returns the status and what [*id_out] holds afterwards ([None]: not
    written). *)
Definition CreateAlarmAbsolute (system_time_ns cb ar : Z) (others : M kern unit) : M kern (Z * option Z) :=
  now ← GetSystemTimer;
  if decide (system_time_ns < now) then mret (EALREADY, Some (-1)) else
  LockScheduler;;
  k ← get;
  if decide (MAX_ALARMS ≤ num_alarms_installed k) then
    UnlockScheduler others;; mret (EAGAIN, Some (-1))
  else
  let slot := find_free_alarm (alarms k) 0 in
  (match slot with
   | Some i =>
     al ← deref (aset (alarms k) i (Alarm system_time_ns cb ar));
     put {| k with alarms := al |}
   | None => mret tt
   end);;
  modify (λ k, {| k with num_alarms_installed := num_alarms_installed k + 1 |});;
  UnlockScheduler others;;
  mret (0, slot).

Definition CreateAlarmMicro (delta_us cb ar : Z) (others : M kern unit) : M kern (Z * option Z) :=
  now ← GetSystemTimer;
  CreateAlarmAbsolute (u64 (now + delta_us * 1000)) cb ar others.

(** Returns the status and [*time_left_out] if it was written. *)
Definition UpdateAlarm (id : Z) (destroy : bool) (others : M kern unit) : M kern (Z * option Z) :=
  if decide (MAX_ALARMS ≤ id ∨ id < 0) then mret (EINVAL, None) else
  LockScheduler;;
  sys_time ← GetSystemTimer;
  k ← get;
  a ← deref (aget (alarms k) id);
  r ← (if decide (wakeup_time a = 0) then mret (EINVAL, None) else
       let left := if decide (wakeup_time a ≤ sys_time) then 1
                   else if decide (wakeup_time a = EXPIRED_ALARM) then 0
                   else wakeup_time a - sys_time in
       (if (destroy : bool) then
          al ← deref (aset (alarms k) id {| a with wakeup_time := 0 |});
          put {| k with alarms := al |}
        else mret tt);;
       mret (0, Some left));
  UnlockScheduler others;;
  mret r.

Definition GetAlarmTimeRemaining (id : Z) (others : M kern unit) : M kern (Z * option Z) :=
  UpdateAlarm id false others.
Definition DestroyAlarm (id : Z) (others : M kern unit) : M kern (Z * option Z) :=
  UpdateAlarm id true others.

(** [UnixAlarmHandler] is the address of the handler passed as callback. *)
Definition InstallUnixAlarm (UnixAlarmHandler microseconds : Z) (others : M kern unit) :
    M kern (Z * option Z) :=
  cur ← GetThread;
  t ← get_thread cur;
  '(res, time_left) ← DestroyAlarm (alarm_id t) others;
  cur ← GetThread;
  t ← get_thread cur;
  set_thread cur {| t with alarm_id := -1 |};;
  let remaining := if decide (res = 0) then Some (u64 (default 4 time_left + 999) / 1000) else None in
  if decide (microseconds ≠ 0) then
    '(res, id) ← CreateAlarmMicro microseconds UnixAlarmHandler cur others;
    t ← get_thread cur;
    set_thread cur {| t with alarm_id := default (alarm_id t) id |};;
    mret (res, remaining)
  else mret (0, remaining).
