(* ===== verification/Semaphore.v ===== *)
(** * sync/semaphore.c: counting semaphores with timeouts *)

From S2P Require Import Prelude ThreadList Scheduler Timer.

Definition SEM_DONT_CARE : Z := 0.
Definition SEM_REQUIRE_ZERO : Z := 1.
Definition SEM_REQUIRE_FULL : Z := 2.

Definition get_sem (s : Z) : M kern semaphore := k ← get; deref (sems k !! s).
Definition set_sem (s : Z) (v : semaphore) : M kern unit :=
  modify (λ k, {| k with sems := <[s := v]> (sems k) |}).

(** [sem]: the memory [AllocHeap] returned. *)
Definition CreateSemaphore (sem max initial : Z) : M kern unit :=
  set_sem sem (Semaphore max initial);;
  ThreadListInit sem NEXT_INDEX_SEMAPHORE.

Section ops.
Variable others : M kern unit.

Definition FillSemaphore (sem : Z) : M kern Z :=
  LockScheduler;;
  s ← get_sem sem;
  res ← (if decide (current_count s ≤ max_count s) then
           set_sem sem {| s with current_count := max_count s |};;
           mret (max_count s - current_count s)
         else mret (-1));
  UnlockScheduler others;;
  mret res.

Definition AcquireSemaphore (sem timeout_ms : Z) : M kern Z :=
  c_assert (bool_decide (sem ≠ NULL));;
  LockScheduler;;
  thr ← GetThread;
  s ← get_sem sem;
  if decide (thr = NULL) then
    (if decide (current_count s < max_count s)
     then set_sem sem {| s with current_count := current_count s + 1 |}
     else panic PANIC_SEM_BLOCK_WITHOUT_THREAD);;
    UnlockScheduler others;;
    mret 0
  else
  t ← get_thread thr;
  set_thread thr {| t with timed_out := false |};;
  (if decide (current_count s < max_count s)
   then set_sem sem {| s with current_count := current_count s + 1 |}
   else
     t ← get_thread thr;
     set_thread thr {| t with waiting_on_semaphore := sem |};;
     if decide (timeout_ms = 0) then
       t ← get_thread thr;
       set_thread thr {| t with timed_out := true |}
     else if decide (timeout_ms = -1) then
       ThreadListInsert sem thr;;
       BlockThread THREAD_STATE_WAITING_FOR_SEMAPHORE
     else
       ThreadListInsert sem thr;;
       now ← GetSystemTimer;
       t ← get_thread thr;
       set_thread thr {| t with sleep_expiry := u64 (now + u64 (timeout_ms * 1000000)) |};;
       QueueForSleep thr;;
       BlockThread THREAD_STATE_WAITING_FOR_SEMAPHORE_WITH_TIMEOUT);;
  UnlockScheduler others;;
  t ← get_thread thr;
  mret (if timed_out t then (if decide (timeout_ms = 0) then EAGAIN else ETIMEDOUT) else 0).

Definition DecrementSemaphore (sem : Z) (first : bool) : M kern unit :=
  l ← get_list sem;
  if decide (head l = NULL) then
    s ← get_sem sem;
    if decide (current_count s = 0) then panic PANIC_NEGATIVE_SEMAPHORE
    else set_sem sem {| s with current_count := current_count s - 1 |}
  else
    top ← ThreadListDeleteTop sem;
    t ← get_thread top;
    if decide (state t = THREAD_STATE_WAITING_FOR_SEMAPHORE_WITH_TIMEOUT) then
      on_sleep_queue ← TryDequeueForSleep top;
      if (on_sleep_queue : bool) then
        t ← get_thread top;
        set_thread top {| t with state := THREAD_STATE_READY |};;
        if first then UnblockThreadGiftingTimeslice top else UnblockThread top
      else mret tt
    else if first then UnblockThreadGiftingTimeslice top else UnblockThread top.

(** [do { ++decrements; ... } while (--count && sem->current_count > 0);] The
    body runs at most [max 1 count] times, [2^31] if [count] is 0. *)
Fixpoint ReleaseSemaphoreEx_loop (n : nat) (sem count decrements : Z) : M kern Z :=
  match n with
  | O => exhausted
  | S n =>
    let decrements := decrements + 1 in
    DecrementSemaphore sem (bool_decide (decrements = 0));;
    s ← get_sem sem;
    let count := i32 (count - 1) in
    if decide (count ≠ 0 ∧ 0 < current_count s) then ReleaseSemaphoreEx_loop n sem count decrements
    else mret decrements
  end.

Definition ReleaseSemaphoreEx (fuel : nat) (sem count : Z) : M kern Z :=
  if decide (count < 0) then mret 0 else
  s ← get_sem sem;
  c_assert (bool_decide (0 < current_count s));;
  ReleaseSemaphoreEx_loop fuel sem count 0.

Definition ReleaseSemaphore (sem : Z) : M kern unit :=
  LockScheduler;;
  _ ← ReleaseSemaphoreEx 1 sem 1;
  UnlockScheduler others.

(** The semaphore's memory is gone after [FreeHeap]. *)
Definition DestroySemaphore (sem flags : Z) : M kern Z :=
  LockScheduler;;
  s ← get_sem sem;
  ret ← (if decide ((flags = SEM_REQUIRE_ZERO ∧ current_count s ≠ 0) ∨
                    (flags = SEM_REQUIRE_FULL ∧ current_count s ≠ max_count s))
         then mret EBUSY
         else modify (λ k, {| k with sems := delete sem (sems k); lists := delete sem (lists k) |});;
              mret 0);
  UnlockScheduler others;;
  mret ret.
End ops.
