(* ===== verification/SchedulerInv.v ===== *)
(** * The invariant of the thread subsystem

    Which thread is on which list, in which state, and how many units of each
    semaphore are taken; with the proof that blocking, waking, sleeping,
    acquiring, releasing, timing out and switching keep it. *)

From S2P Require Import Prelude ThreadList Scheduler Timer Semaphore.

(** Threads without their list pointers. *)
Definition fields (k : kern) : gmap Z thread := strip <$> threads k.

(** The lists, as sequences. *)
Record linked (k : kern) (ready sleep : list Z) (waits : gmap Z (list Z)) : Prop := {
  ln_ready : list_rep k ready_list NEXT_INDEX_READY ready;
  ln_sleep : list_rep k sleep_list NEXT_INDEX_SLEEP sleep;
  ln_waits : ∀ sem ws, waits !! sem = Some ws →
    list_rep k sem NEXT_INDEX_SEMAPHORE ws ∧ sem ≠ ready_list ∧ sem ≠ sleep_list ∧ sem ≠ NULL;
  ln_disj : ∀ s1 s2 w1 w2 x, waits !! s1 = Some w1 → waits !! s2 = Some w2 → x ∈ w1 → x ∈ w2 → s1 = s2;
  ln_valid : ∀ a t, threads k !! a = Some t → a ≠ NULL ∧
    ∀ j, 0 ≤ j < 3 → is_Some (nxt (threads k) j a);
}.

(** What the lists say of the threads on them. *)
Record placed (F : gmap Z thread) (cur : Z) (ready sleep : list Z) (waits : gmap Z (list Z)) : Prop := {
  pl_ready : ∀ x, x ∈ ready → is_Some (F !! x);
  pl_wait : ∀ sem ws x, waits !! sem = Some ws → x ∈ ws → (x ∉ ready) ∧
    ∃ t, F !! x = Some t ∧ waiting_on_semaphore t = sem ∧
      ((state t = THREAD_STATE_WAITING_FOR_SEMAPHORE ∧ (x ∉ sleep)) ∨
       (state t = THREAD_STATE_WAITING_FOR_SEMAPHORE_WITH_TIMEOUT ∧ x ∈ sleep));
  pl_sleep : ∀ x, x ∈ sleep → (x ∉ ready) ∧
    ∃ t, F !! x = Some t ∧
      (state t = THREAD_STATE_SLEEPING ∨
       (state t = THREAD_STATE_WAITING_FOR_SEMAPHORE_WITH_TIMEOUT ∧
        ∃ ws, waits !! waiting_on_semaphore t = Some ws ∧ x ∈ ws));
  pl_current : cur ≠ NULL → ∃ t, F !! cur = Some t ∧ (state t = THREAD_STATE_RUNNING → cur ∉ ready);
}.

(** No unit is lost: threads wait only while every unit is taken. *)
Definition counted (ss : gmap Z semaphore) (waits : gmap Z (list Z)) : Prop :=
  (∀ sem, is_Some (ss !! sem) ↔ is_Some (waits !! sem)) ∧
  ∀ sem s ws, ss !! sem = Some s → waits !! sem = Some ws →
    0 ≤ current_count s ≤ max_count s ∧ 1 ≤ max_count s ∧ (ws ≠ [] → current_count s = max_count s).

Record sched_inv (k : kern) (ready sleep : list Z) (waits : gmap Z (list Z)) : Prop := {
  sv_linked : linked k ready sleep waits;
  sv_placed : placed (fields k) (current_thread k) ready sleep waits;
  sv_counted : counted (sems k) waits;
}.

(** Only the lists, and the request for a task switch, changed. *)
Definition same (k k' : kern) : Prop :=
  k' = {| k with threads := threads k'; lists := lists k';
                 postponed_task_switch := postponed_task_switch k' |} ∧ fields k' = fields k.

Lemma same_refl k : same k k.
Proof. split; [by destruct k|done]. Qed.
Lemma same_trans k1 k2 k3 : same k1 k2 → same k2 k3 → same k1 k3.
Proof. intros [-> H1] [-> H2]. split; [done|]. simpl in *. congruence. Qed.
Lemma frame_same k k' l idx X : list_frame k k' l idx X → same k k'.
Proof. intros [Hr Hf _ _ _]. split; [|done]. rewrite Hr at 1. by rewrite Hr. Qed.

Lemma fields_lookup k x : fields k !! x = strip <$> threads k !! x.
Proof. apply lookup_fmap. Qed.

Lemma valid_frame k k' l idx X :
  list_frame k k' l idx X →
  (∀ a t, threads k !! a = Some t → a ≠ NULL ∧ ∀ j, 0 ≤ j < 3 → is_Some (nxt (threads k) j a)) →
  ∀ a t, threads k' !! a = Some t → a ≠ NULL ∧ ∀ j, 0 ≤ j < 3 → is_Some (nxt (threads k') j a).
Proof.
  intros [_ Hf _ _ Hs] H a t Ht. apply (f_equal (lookup a)) in Hf. rewrite !lookup_fmap, Ht in Hf.
  destruct (threads k !! a) as [t0|] eqn:E; [|done]. destruct (H a t0 E) as [H0 Hj]. split; [done|].
  intros j Hr. by apply Hs, Hj.
Qed.

Lemma linked_ready k k' X ready ready' sleep waits :
  linked k ready sleep waits → list_frame k k' ready_list NEXT_INDEX_READY X →
  list_rep k' ready_list NEXT_INDEX_READY ready' → linked k' ready' sleep waits.
Proof.
  intros [Hr Hs Hw Hd Hv] Hf Hr'. split; try done.
  - apply (list_rep_frame k k' ready_list NEXT_INDEX_READY X); [done|done|done|by left].
  - intros sem ws H. destruct (Hw sem ws H) as (H1 & H2 & H3 & H4). split_and!; try done.
    apply (list_rep_frame k k' ready_list NEXT_INDEX_READY X); [done|done|done|by left].
  - by eapply valid_frame.
Qed.

Lemma linked_sleep k k' X ready sleep sleep' waits :
  linked k ready sleep waits → list_frame k k' sleep_list NEXT_INDEX_SLEEP X →
  list_rep k' sleep_list NEXT_INDEX_SLEEP sleep' → linked k' ready sleep' waits.
Proof.
  intros [Hr Hs Hw Hd Hv] Hf Hr'. split; try done.
  - apply (list_rep_frame k k' sleep_list NEXT_INDEX_SLEEP X); [done|done|done|by left].
  - intros sem ws H. destruct (Hw sem ws H) as (H1 & H2 & H3 & H4). split_and!; try done.
    apply (list_rep_frame k k' sleep_list NEXT_INDEX_SLEEP X); [done|done|done|by left].
  - by eapply valid_frame.
Qed.

Lemma linked_wait k k' X ready sleep waits sem ws' :
  linked k ready sleep waits → list_frame k k' sem NEXT_INDEX_SEMAPHORE X →
  list_rep k' sem NEXT_INDEX_SEMAPHORE ws' → is_Some (waits !! sem) →
  (∀ x, x ∈ ws' → x ∈ X) →
  (∀ s w x, s ≠ sem → waits !! s = Some w → x ∈ X → x ∉ w) →
  linked k' ready sleep (<[sem := ws']> waits).
Proof.
  intros [Hr Hs Hw Hd Hv] Hf Hr' [ws Hsem] Hsub Hx. destruct (Hw _ _ Hsem) as (_ & Hne1 & Hne2 & Hne3).
  split.
  - apply (list_rep_frame k k' sem NEXT_INDEX_SEMAPHORE X); [done|done|done|by left].
  - apply (list_rep_frame k k' sem NEXT_INDEX_SEMAPHORE X); [done|done|done|by left].
  - intros s w H. apply lookup_insert_Some in H as [[<- <-]|[Hne H]]; [done|].
    destruct (Hw s w H) as (H1 & H2 & H3 & H4). split_and!; try done.
    eapply list_rep_frame; [done|done|done|right]. intros y Hy Hy'. by apply (Hx s w y).
  - intros s1 s2 w1 w2 x H1 H2 Hx1 Hx2.
    apply lookup_insert_Some in H1 as [[<- <-]|[Hne1' H1]];
      apply lookup_insert_Some in H2 as [[<- <-]|[Hne2' H2]]; try done.
    + exfalso. apply (Hx s2 w2 x); auto.
    + exfalso. apply (Hx s1 w1 x); auto.
    + by eapply Hd.
  - by eapply valid_frame.
Qed.

(** A thread whose fields change keeps its place in every list. *)
Lemma nxt_set_thread ts a t t' j b :
  ts !! a = Some t → t_next t' = t_next t → nxt (<[a := t']> ts) j b = nxt ts j b.
Proof.
  intros Ht Hn. unfold nxt. destruct (decide (b = a)) as [->|Hb].
  - rewrite lookup_insert_eq, Ht. simpl. by rewrite Hn.
  - by rewrite lookup_insert_ne.
Qed.

Lemma linked_ext k k' ready sleep waits :
  linked k ready sleep waits → lists k' = lists k →
  (∀ j b, nxt (threads k') j b = nxt (threads k) j b) →
  (∀ a, is_Some (threads k' !! a) → is_Some (threads k !! a)) → linked k' ready sleep waits.
Proof.
  intros [Hr Hs Hw Hd Hv] Hl Hn Hdom.
  assert (∀ l idx xs, list_rep k l idx xs → list_rep k' l idx xs) as Hrep.
  { intros l idx xs [H1 H2 H3]. split; [by rewrite Hl| |done]. eapply chain_ext; [|done].
    intros x _. apply Hn. }
  split; try (by apply Hrep); try done.
  - intros sem ws H. destruct (Hw sem ws H) as (H1 & H2). split; [by apply Hrep|done].
  - intros a t Ht. destruct (Hdom a) as [t0 Ht0]; [by rewrite Ht|].
    destruct (Hv a t0 Ht0) as [H0 Hj]. split; [done|]. intros j Hr'. rewrite Hn. by apply Hj.
Qed.

Lemma set_thread_linked k a t t' ready sleep waits :
  linked k ready sleep waits → threads k !! a = Some t → t_next t' = t_next t →
  linked {| k with threads := <[a := t']> (threads k) |} ready sleep waits.
Proof.
  intros Hl Ht Hn. apply (linked_ext k); try done; simpl.
  - intros j b. by apply (nxt_set_thread _ _ t).
  - intros b [tb Hb]. apply lookup_insert_Some in Hb as [[<- _]|[_ Hb]]; eauto.
Qed.

Lemma fields_set_thread k a t' :
  fields {| k with threads := <[a := t']> (threads k) |} = <[a := strip t']> (fields k).
Proof. unfold fields. simpl. by rewrite fmap_insert. Qed.

Lemma get_thread_run k a t : threads k !! a = Some t → get_thread a k = Done (t, k).
Proof. intros H. unfold get_thread. mred. by rewrite H. Qed.

(** A thread known by its fields. *)
Lemma fields_thread k a ft : fields k !! a = Some ft → ∃ t, threads k !! a = Some t ∧ strip t = ft.
Proof. rewrite fields_lookup. intros H. apply fmap_Some in H as (t & Ht & ->). eauto. Qed.

(** ** Waking *)

Lemma same_thread k k' a t :
  same k k' → threads k !! a = Some t → ∃ t', threads k' !! a = Some t' ∧ strip t' = strip t.
Proof.
  intros [_ Hf] Ht. apply fields_thread. by rewrite Hf, fields_lookup, Ht.
Qed.

Lemma same_proj k k' :
  same k k' → sems k' = sems k ∧ current_thread k' = current_thread k ∧
    scheduler_lock_count k' = scheduler_lock_count k ∧ system_time k' = system_time k ∧ fields k' = fields k.
Proof. intros [-> ?]. done. Qed.

Lemma lock_held_run k : 0 < scheduler_lock_count k → AssertSchedulerLockHeld k = Done (tt, k).
Proof. intros H. unfold AssertSchedulerLockHeld. mred. by rewrite bool_decide_true. Qed.

Lemma push_ready k ready sleep waits x t :
  linked k ready sleep waits → threads k !! x = Some t → x ∉ ready →
  ∃ k', ThreadListInsert ready_list x k = Done (tt, k') ∧ linked k' (ready ++ [x]) sleep waits ∧ same k k'.
Proof.
  intros Hl Ht Hx. destruct (ln_valid _ _ _ _ Hl x t Ht) as [H0 Hv].
  destruct (ThreadListInsert_run k ready_list NEXT_INDEX_READY ready x) as (k' & E & Hr & Hf);
    [apply Hl|done|done|by apply Hv|].
  exists k'. split_and!; [done|by eapply linked_ready|by eapply frame_same].
Qed.

Lemma push_sleep k ready sleep waits x t :
  linked k ready sleep waits → threads k !! x = Some t → x ∉ sleep →
  ∃ k', ThreadListInsert sleep_list x k = Done (tt, k') ∧ linked k' ready (sleep ++ [x]) waits ∧ same k k'.
Proof.
  intros Hl Ht Hx. destruct (ln_valid _ _ _ _ Hl x t Ht) as [H0 Hv].
  destruct (ThreadListInsert_run k sleep_list NEXT_INDEX_SLEEP sleep x) as (k' & E & Hr & Hf);
    [apply Hl|done|done|by apply Hv|].
  exists k'. split_and!; [done|by eapply linked_sleep|by eapply frame_same].
Qed.

Lemma push_wait k ready sleep waits sem ws x t :
  linked k ready sleep waits → threads k !! x = Some t → waits !! sem = Some ws →
  (∀ s w, waits !! s = Some w → x ∉ w) →
  ∃ k', ThreadListInsert sem x k = Done (tt, k') ∧ linked k' ready sleep (<[sem := ws ++ [x]]> waits) ∧
        same k k'.
Proof.
  intros Hl Ht Hs Hx. destruct (ln_valid _ _ _ _ Hl x t Ht) as [H0 Hv].
  destruct (ThreadListInsert_run k sem NEXT_INDEX_SEMAPHORE ws x) as (k' & E & Hr & Hf);
    [by apply Hl|by eapply Hx|done|by apply Hv|].
  exists k'. split_and!; [done| |by eapply frame_same].
  eapply linked_wait; [done|done|done|by rewrite Hs|set_solver|].
  intros s w y Hne Hw [->|Hy]%elem_of_cons Hy'; [by eapply Hx|].
  apply Hne. symmetry. by apply (ln_disj _ _ _ _ Hl sem s ws w y).
Qed.

Lemma take_wait k ready sleep waits sem l1 x l2 :
  linked k ready sleep waits → waits !! sem = Some (l1 ++ x :: l2) →
  ∃ k', ThreadListDelete sem x k = Done (tt, k') ∧ linked k' ready sleep (<[sem := l1 ++ l2]> waits) ∧
        same k k'.
Proof.
  intros Hl Hs. destruct (ThreadListDelete_run k sem NEXT_INDEX_SEMAPHORE l1 x l2) as (k' & E & Hr & Hf);
    [by apply Hl|].
  exists k'. split_and!; [done| |by eapply frame_same].
  eapply linked_wait; [done|done|done|by rewrite Hs|set_solver|].
  intros s w y Hne Hw Hy Hy'. apply Hne. symmetry. by eapply (ln_disj _ _ _ _ Hl sem s _ w y).
Qed.

Lemma pop_wait k ready sleep waits sem x ws :
  linked k ready sleep waits → waits !! sem = Some (x :: ws) →
  ∃ k', ThreadListDeleteTop sem k = Done (x, k') ∧ linked k' ready sleep (<[sem := ws]> waits) ∧ same k k'.
Proof.
  intros Hl Hs. destruct (ThreadListDeleteTop_run k sem NEXT_INDEX_SEMAPHORE x ws) as (k' & E & Hr & Hf);
    [by apply Hl|].
  exists k'. split_and!; [done| |by eapply frame_same].
  eapply linked_wait; [done|done|done|by rewrite Hs|set_solver|].
  intros s w y Hne Hw Hy Hy'. apply Hne. symmetry. by eapply (ln_disj _ _ _ _ Hl sem s _ w y).
Qed.

Lemma take_sleep k ready l1 x l2 waits :
  linked k ready (l1 ++ x :: l2) waits →
  ∃ k', ThreadListDelete sleep_list x k = Done (tt, k') ∧ linked k' ready (l1 ++ l2) waits ∧ same k k'.
Proof.
  intros Hl. destruct (ThreadListDelete_run k sleep_list NEXT_INDEX_SLEEP l1 x l2) as (k' & E & Hr & Hf);
    [apply Hl|].
  exists k'. split_and!; [done|by eapply linked_sleep|by eapply frame_same].
Qed.

(** The end of [UnblockThread]: maybe ask for a task switch. *)
Lemma unblock_priority k x t cur c :
  current_thread k = cur → threads k !! x = Some t → threads k !! cur = Some c →
  ∃ k', (t ← get_thread x; cur ← GetThread; c ← get_thread cur;
         if decide (priority t < priority c) then PostponeScheduleUntilStandardIrql else mret tt) k
        = Done (tt, k') ∧ same k k' ∧ lists k' = lists k ∧ threads k' = threads k.
Proof.
  intros Hc Hx Ht. rewrite (M_bind_done _ _ _ _ _ (get_thread_run _ _ _ Hx)).
  rewrite (M_bind_done _ _ _ _ _ (eq_refl (GetThread _))). rewrite Hc.
  rewrite (M_bind_done _ _ _ _ _ (get_thread_run _ _ _ Ht)).
  case_decide; (eexists; split; [done|]); split_and!; try done. apply same_refl.
Qed.

Lemma linked_same_lists k k' ready sleep waits :
  lists k' = lists k → threads k' = threads k → linked k ready sleep waits → linked k' ready sleep waits.
Proof. intros Hl Ht H. apply (linked_ext k); rewrite ?Hl, ?Ht; done. Qed.

(** Waking a thread that is not waiting with a timeout. *)
Lemma UnblockThread_run k ready sleep waits x t c :
  linked k ready sleep waits → 0 < scheduler_lock_count k →
  threads k !! x = Some t → threads k !! current_thread k = Some c → x ∉ ready →
  state t ≠ THREAD_STATE_WAITING_FOR_SEMAPHORE_WITH_TIMEOUT →
  ∃ k', UnblockThread x k = Done (tt, k') ∧ linked k' (ready ++ [x]) sleep waits ∧ same k k'.
Proof.
  intros Hl Hlk Ht Hc Hx Hst. unfold UnblockThread.
  rewrite (M_bind_done _ _ _ _ _ (lock_held_run _ Hlk)), (M_bind_done _ _ _ _ _ (get_thread_run _ _ _ Ht)).
  rewrite decide_False by done. rewrite (M_bind_done _ _ k tt k) by done.
  destruct (push_ready k ready sleep waits x t) as (k1 & E1 & Hl1 & Hs1); try done.
  rewrite (M_bind_done _ _ _ _ _ E1).
  destruct (same_thread _ _ _ _ Hs1 Ht) as (t1 & Ht1 & _). destruct (same_thread _ _ _ _ Hs1 Hc) as (c1 & Hc1 & _).
  destruct (same_proj _ _ Hs1) as (_ & Hcur & _).
  destruct (unblock_priority k1 x t1 (current_thread k) c1) as (k' & E' & Hs' & Hls & Hts); try done.
  exists k'. split; [exact E'|]. split; [by eapply linked_same_lists|by eapply same_trans].
Qed.

(** Waking a thread that timed out: it leaves the semaphore's list as well. *)
Lemma UnblockThread_timeout_run k ready sleep waits x t c l1 l2 :
  linked k ready sleep waits → 0 < scheduler_lock_count k →
  threads k !! x = Some t → threads k !! current_thread k = Some c → x ∉ ready →
  state t = THREAD_STATE_WAITING_FOR_SEMAPHORE_WITH_TIMEOUT →
  waits !! waiting_on_semaphore t = Some (l1 ++ x :: l2) →
  ∃ k', UnblockThread x k = Done (tt, k') ∧
        linked k' (ready ++ [x]) sleep (<[waiting_on_semaphore t := l1 ++ l2]> waits) ∧ same k k'.
Proof.
  intros Hl Hlk Ht Hc Hx Hst Hw. unfold UnblockThread.
  rewrite (M_bind_done _ _ _ _ _ (lock_held_run _ Hlk)), (M_bind_done _ _ _ _ _ (get_thread_run _ _ _ Ht)).
  rewrite decide_True by done. set (sem := waiting_on_semaphore t) in *.
  destruct (take_wait k ready sleep waits sem l1 x l2) as (k1 & E1 & Hl1 & Hs1); try done.
  assert (CancelSemaphoreOfThread x k = Done (tt, k1)) as Ec.
  { unfold CancelSemaphoreOfThread.
    rewrite (M_bind_done _ _ _ _ _ (lock_held_run _ Hlk)), (M_bind_done _ _ _ _ _ (get_thread_run _ _ _ Ht)).
    destruct (ln_waits _ _ _ _ Hl _ _ Hw) as (Hrep & _). fold sem.
    rewrite (M_bind_done _ _ _ _ _ (ThreadListContains_run _ _ _ _ x Hrep)).
    rewrite bool_decide_true by set_solver. rewrite (M_bind_done _ _ k tt k) by done. done. }
  rewrite (M_bind_done _ _ _ _ _ Ec).
  destruct (same_thread _ _ _ _ Hs1 Ht) as (t1 & Ht1 & _). destruct (same_thread _ _ _ _ Hs1 Hc) as (c1 & Hc1 & _).
  destruct (push_ready k1 ready sleep (<[sem := l1 ++ l2]> waits) x t1) as (k2 & E2 & Hl2 & Hs2); try done.
  rewrite (M_bind_done _ _ _ _ _ E2).
  pose proof (same_trans _ _ _ Hs1 Hs2) as Hs12.
  destruct (same_thread _ _ _ _ Hs12 Ht) as (t2 & Ht2 & _). destruct (same_thread _ _ _ _ Hs12 Hc) as (c2 & Hc2 & _).
  destruct (same_proj _ _ Hs12) as (_ & Hcur & _).
  destruct (unblock_priority k2 x t2 (current_thread k) c2) as (k' & E' & Hs' & Hls & Hts); try done.
  exists k'. split; [exact E'|]. split; [by eapply linked_same_lists|by eapply same_trans].
Qed.

(** ** Where the running thread is: on no list *)

Definition nowhere (x : Z) (ready sleep : list Z) (waits : gmap Z (list Z)) : Prop :=
  (x ∉ ready) ∧ (x ∉ sleep) ∧ ∀ s w, waits !! s = Some w → x ∉ w.

Lemma running_nowhere F cur ready sleep waits t :
  placed F cur ready sleep waits → cur ≠ NULL → F !! cur = Some t → state t = THREAD_STATE_RUNNING →
  nowhere cur ready sleep waits.
Proof.
  intros [Hr Hw Hs Hc] Hn Ht Hst. split_and!.
  - destruct (Hc Hn) as (t' & Ht' & H). rewrite Ht in Ht'. injection Ht' as <-. by apply H.
  - intros Hin. destruct (Hs _ Hin) as (_ & t' & Ht' & H). rewrite Ht in Ht'. injection Ht' as <-.
    rewrite Hst in H. destruct H as [H|[H _]]; done.
  - intros s w Hsw Hin. destruct (Hw _ _ _ Hsw Hin) as (_ & t' & Ht' & _ & H).
    rewrite Ht in Ht'. injection Ht' as <-. rewrite Hst in H. destruct H as [[H _]|[H _]]; done.
Qed.

(** A thread on no list may change its fields. *)
Lemma placed_update F cur ready sleep waits x t' :
  placed F cur ready sleep waits → nowhere x ready sleep waits →
  placed (<[x := t']> F) cur ready sleep waits.
Proof.
  intros [Hr Hw Hs Hc] (Hxr & Hxs & Hxw). split.
  - intros y Hy. rewrite lookup_insert_ne by set_solver. by apply Hr.
  - intros s w y Hsw Hy. destruct (Hw s w y Hsw Hy) as (Hy1 & t & Ht & H). split; [done|].
    exists t. rewrite lookup_insert_ne; [done|]. intros ->. by eapply Hxw.
  - intros y Hy. destruct (Hs y Hy) as (Hy1 & t & Ht & H). split; [done|].
    exists t. rewrite lookup_insert_ne; [done|]. set_solver.
  - intros Hn. destruct (decide (cur = x)) as [->|Hne].
    + exists t'. by rewrite lookup_insert_eq.
    + destruct (Hc Hn) as (t & Ht & H). exists t. by rewrite lookup_insert_ne.
Qed.

(** Extra fields may change wherever a thread is. *)
Lemma placed_upd_same F cur ready sleep waits x t t' :
  placed F cur ready sleep waits → F !! x = Some t → state t' = state t →
  waiting_on_semaphore t' = waiting_on_semaphore t → placed (<[x := t']> F) cur ready sleep waits.
Proof.
  intros [Hr Hw Hs Hc] Hx Hst Hwo.
  assert (∀ y u, F !! y = Some u → ∃ u', <[x := t']> F !! y = Some u' ∧ state u' = state u ∧
            waiting_on_semaphore u' = waiting_on_semaphore u) as Hupd.
  { intros y u Hy. destruct (decide (y = x)) as [->|Hne].
    - rewrite Hx in Hy. injection Hy as <-. exists t'. by rewrite lookup_insert_eq.
    - exists u. by rewrite lookup_insert_ne. }
  split.
  - intros y Hy. destruct (Hr y Hy) as [u Hu]. destruct (Hupd y u Hu) as (u' & -> & _). eauto.
  - intros s w y Hsw Hy. destruct (Hw s w y Hsw Hy) as (Hy1 & u & Hu & H1 & H2). split; [done|].
    destruct (Hupd y u Hu) as (u' & Hu' & E1 & E2). exists u'. by rewrite E1, E2.
  - intros y Hy. destruct (Hs y Hy) as (Hy1 & u & Hu & H). split; [done|].
    destruct (Hupd y u Hu) as (u' & Hu' & E1 & E2). exists u'. by rewrite E1, E2.
  - intros Hn. destruct (Hc Hn) as (u & Hu & H). destruct (Hupd _ u Hu) as (u' & Hu' & E1 & E2).
    exists u'. by rewrite E1.
Qed.

(** A member of some list after [cur] joined the list of [sem]. *)
Lemma waits_snoc (waits : gmap Z (list Z)) sem ws cur s w y :
  waits !! sem = Some ws → (∀ s w, waits !! s = Some w → cur ∉ w) →
  <[sem := ws ++ [cur]]> waits !! s = Some w → y ∈ w →
  (y = cur ∧ s = sem) ∨ (y ≠ cur ∧ ∃ w', waits !! s = Some w' ∧ y ∈ w').
Proof.
  intros Hsem Hno Hsw Hy. apply lookup_insert_Some in Hsw as [[<- <-]|[Hne Hsw]].
  - apply elem_of_app in Hy as [Hy| ->%list_elem_of_singleton]; [right|by left].
    split; [|by exists ws]. intros ->. by eapply Hno.
  - right. split; [|by exists w]. intros ->. by eapply Hno.
Qed.

Lemma placed_wait F cur ready sleep waits t' sem ws :
  placed F cur ready sleep waits → nowhere cur ready sleep waits → waits !! sem = Some ws →
  state t' = THREAD_STATE_WAITING_FOR_SEMAPHORE → waiting_on_semaphore t' = sem →
  placed (<[cur := t']> F) cur ready sleep (<[sem := ws ++ [cur]]> waits).
Proof.
  intros Hp Hno Hsem Hst Hwo. pose proof (placed_update _ _ _ _ _ _ t' Hp Hno) as [Hr Hw Hs Hc].
  destruct Hno as (Hxr & Hxs & Hxw). split; try done.
  - intros s w y Hsw Hy.
    destruct (waits_snoc waits sem ws cur s w y) as [[-> ->]|(Hne & w' & Hw' & Hy')]; try done.
    + split; [done|]. exists t'. rewrite lookup_insert_eq. split_and!; try done. by left.
    + by apply (Hw s w' y).
  - intros y Hy. destruct (Hs y Hy) as (Hy1 & u & Hu & H). split; [done|]. exists u. split; [done|].
    destruct H as [H|(H & w & Hw' & Hy')]; [by left|right]. split; [done|].
    destruct (decide (waiting_on_semaphore u = sem)) as [E|E].
    + exists (ws ++ [cur]). rewrite E, lookup_insert_eq. split; [done|]. rewrite E, Hsem in Hw'.
      injection Hw' as <-. set_solver.
    + exists w. by rewrite lookup_insert_ne.
Qed.

Lemma placed_sleep F cur ready sleep waits t' :
  placed F cur ready sleep waits → nowhere cur ready sleep waits →
  state t' = THREAD_STATE_SLEEPING → placed (<[cur := t']> F) cur ready (sleep ++ [cur]) waits.
Proof.
  intros Hp Hno Hst. pose proof (placed_update _ _ _ _ _ _ t' Hp Hno) as [Hr Hw Hs Hc].
  destruct Hno as (Hxr & Hxs & Hxw). split; try done.
  - intros s w y Hsw Hy. destruct (Hw s w y Hsw Hy) as (Hy1 & u & Hu & Hwo & H). split; [done|].
    exists u. split_and!; try done.
    assert (y ≠ cur) as Hne by (intros ->; by eapply Hxw).
    destruct H as [[H1 H2]|[H1 H2]]; [left|right]; (split; [done|]); set_solver.
  - intros y [Hy| ->%list_elem_of_singleton]%elem_of_app; [by apply Hs|]. split; [done|].
    exists t'. rewrite lookup_insert_eq. split; [done|]. by left.
Qed.

Lemma placed_timeout F cur ready sleep waits t' sem ws :
  placed F cur ready sleep waits → nowhere cur ready sleep waits → waits !! sem = Some ws →
  state t' = THREAD_STATE_WAITING_FOR_SEMAPHORE_WITH_TIMEOUT → waiting_on_semaphore t' = sem →
  placed (<[cur := t']> F) cur ready (sleep ++ [cur]) (<[sem := ws ++ [cur]]> waits).
Proof.
  intros Hp Hno Hsem Hst Hwo. pose proof (placed_update _ _ _ _ _ _ t' Hp Hno) as [Hr Hw Hs Hc].
  destruct Hno as (Hxr & Hxs & Hxw). split; try done.
  - intros s w y Hsw Hy.
    destruct (waits_snoc waits sem ws cur s w y) as [[-> ->]|(Hne & w' & Hw' & Hy')]; try done.
    + split; [done|]. exists t'. rewrite lookup_insert_eq. split_and!; try done. right. set_solver.
    + destruct (Hw s w' y Hw' Hy') as (Hy1 & u & Hu & Hwu & H). split; [done|]. exists u. split_and!; try done.
      destruct H as [[H1 H2]|[H1 H2]]; [left|right]; (split; [done|]); set_solver.
  - intros y [Hy| ->%list_elem_of_singleton]%elem_of_app.
    + destruct (Hs y Hy) as (Hy1 & u & Hu & H). split; [done|]. exists u. split; [done|].
      destruct H as [H|(H & w & Hw' & Hy')]; [by left|right]. split; [done|].
      destruct (decide (waiting_on_semaphore u = sem)) as [E|E].
      * exists (ws ++ [cur]). rewrite E, lookup_insert_eq. split; [done|]. rewrite E, Hsem in Hw'.
        injection Hw' as <-. set_solver.
      * exists w. by rewrite lookup_insert_ne.
    + split; [done|]. exists t'. rewrite lookup_insert_eq. split; [done|]. right. split; [done|].
      exists (ws ++ [cur]). rewrite Hwo, lookup_insert_eq. set_solver.
Qed.

(** ** Counting *)

Lemma counted_set ss (waits : gmap Z (list Z)) sem s s' ws ws' :
  counted ss waits → ss !! sem = Some s → waits !! sem = Some ws →
  max_count s' = max_count s → 0 ≤ current_count s' ≤ max_count s →
  (ws' ≠ [] → current_count s' = max_count s) →
  counted (<[sem := s']> ss) (<[sem := ws']> waits).
Proof.
  intros [Hd Hc] Hs Hw Hm Hr He. destruct (Hc _ _ _ Hs Hw) as (_ & H1 & _). split.
  - intros s0. destruct (decide (s0 = sem)) as [->|Hne]; [by rewrite !lookup_insert_eq|].
    by rewrite !lookup_insert_ne.
  - intros s0 v w Hv Hw0. destruct (decide (s0 = sem)) as [->|Hne].
    + rewrite lookup_insert_eq in Hv. rewrite lookup_insert_eq in Hw0. injection Hv as <-. injection Hw0 as <-. rewrite Hm. done.
    + rewrite lookup_insert_ne in Hv by done. rewrite lookup_insert_ne in Hw0 by done. by eapply Hc.
Qed.

Lemma counted_sem ss (waits : gmap Z (list Z)) sem s :
  counted ss waits → ss !! sem = Some s → ∃ ws, waits !! sem = Some ws ∧
    0 ≤ current_count s ≤ max_count s ∧ 1 ≤ max_count s ∧ (ws ≠ [] → current_count s = max_count s).
Proof.
  intros [Hd Hc] Hs. destruct (proj1 (Hd sem)) as [ws Hw]; [by rewrite Hs|]. exists ws. split; [done|].
  by apply (Hc sem).
Qed.

(** ** Dropping the lock *)

(** The state in which the lock has been dropped, and what happens then. *)
Definition dropped (others : M kern unit) (k : kern) : outcome (unit * kern) :=
  if postponed_task_switch k then others {| k with postponed_task_switch := false |} else Done (tt, k).

Lemma UnlockScheduler_run others k :
  scheduler_lock_count k = 1 →
  UnlockScheduler others k = dropped others {| k with scheduler_lock_count := 0 |}.
Proof.
  intros H. unfold UnlockScheduler, dropped. mred. rewrite bool_decide_true by lia. simpl. rewrite H. simpl.
  destruct (postponed_task_switch k) eqn:E.
  - rewrite decide_True by done. done.
  - rewrite decide_False by naive_solver. done.
Qed.

Definition locked (k : kern) : kern := {| k with scheduler_lock_count := scheduler_lock_count k + 1 |}.

Lemma linked_lock k k' ready sleep waits :
  threads k' = threads k → lists k' = lists k → linked k ready sleep waits → linked k' ready sleep waits.
Proof. intros Ht Hl H. apply (linked_ext k); rewrite ?Hl, ?Ht; done. Qed.

Lemma BlockThread_run k t reason :
  0 < scheduler_lock_count k → reason ≠ THREAD_STATE_READY → reason ≠ THREAD_STATE_RUNNING →
  current_thread k ≠ NULL → threads k !! current_thread k = Some t → state t = THREAD_STATE_RUNNING →
  BlockThread reason k
  = Done (tt, {| k with threads := <[current_thread k := {| t with state := reason |}]> (threads k);
                        postponed_task_switch := true |}).
Proof.
  intros Hl H1 H0 Hn Ht Hst. unfold BlockThread. rewrite (M_bind_done _ _ _ _ _ (lock_held_run _ Hl)).
  rewrite bool_decide_true by done. rewrite (M_bind_done _ _ k tt k) by done.
  rewrite (M_bind_done _ _ _ _ _ (eq_refl (GetThread _))). rewrite bool_decide_true by done.
  rewrite (M_bind_done _ _ k tt k) by done. rewrite (M_bind_done _ _ _ _ _ (get_thread_run _ _ _ Ht)).
  rewrite bool_decide_true by done. rewrite (M_bind_done _ _ k tt k) by done. done.
Qed.

(** Changing fields of the running thread. *)
Lemma set_thread_run k a t' : set_thread a t' k = Done (tt, {| k with threads := <[a := t']> (threads k) |}).
Proof. done. Qed.
Lemma set_sem_run k a v : set_sem a v k = Done (tt, {| k with sems := <[a := v]> (sems k) |}).
Proof. done. Qed.
Lemma get_sem_run k a v : sems k !! a = Some v → get_sem a k = Done (v, k).
Proof. intros H. unfold get_sem. mred. by rewrite H. Qed.

(** A kernel state in which the running thread may make a system call. *)
Record can_run (k : kern) : Prop := {
  cr_unlocked : scheduler_lock_count k = 0;
  cr_switch : postponed_task_switch k = false;
  cr_current : current_thread k ≠ NULL;
  cr_running : ∃ t, threads k !! current_thread k = Some t ∧ state t = THREAD_STATE_RUNNING;
}.

(** What the caller of [AcquireSemaphore] gets once it runs again. *)
Definition acquire_result (thr timeout_ms : Z) : M kern Z :=
  t ← get_thread thr;
  mret (if timed_out t then (if decide (timeout_ms = 0) then EAGAIN else ETIMEDOUT) else 0).

Lemma inv_nowhere k ready sleep waits t :
  sched_inv k ready sleep waits → current_thread k ≠ NULL →
  threads k !! current_thread k = Some t → state t = THREAD_STATE_RUNNING →
  nowhere (current_thread k) ready sleep waits.
Proof.
  intros Hi Hn Ht Hst. apply (running_nowhere (fields k) _ _ _ _ (strip t)); [apply Hi|done| |done].
  by rewrite fields_lookup, Ht.
Qed.

(** The running thread changes its own fields. *)
Lemma self_update k ready sleep waits t t' :
  sched_inv k ready sleep waits → current_thread k ≠ NULL →
  threads k !! current_thread k = Some t → state t = THREAD_STATE_RUNNING →
  t_next t' = t_next t →
  sched_inv {| k with threads := <[current_thread k := t']> (threads k) |} ready sleep waits.
Proof.
  intros Hi Hn Ht Hst Hnx. pose proof (inv_nowhere _ _ _ _ _ Hi Hn Ht Hst) as Hno. split.
  - eapply set_thread_linked; [apply Hi|done|done].
  - rewrite fields_set_thread. by apply placed_update; [apply Hi|].
  - apply Hi.
Qed.

Lemma inv_ext k k' ready sleep waits :
  sched_inv k ready sleep waits → threads k' = threads k → lists k' = lists k → sems k' = sems k →
  current_thread k' = current_thread k → sched_inv k' ready sleep waits.
Proof.
  intros [Hl Hp Hc] E1 E2 E3 E4. split; [by eapply linked_lock| |by rewrite E3].
  unfold fields in *. by rewrite E1, E4.
Qed.

(** The running thread joins the list of a semaphore and blocks, without and
    with a timeout. *)
Lemma block_on k ready sleep waits sem ws t :
  sched_inv k ready sleep waits → 0 < scheduler_lock_count k → current_thread k ≠ NULL →
  threads k !! current_thread k = Some t → state t = THREAD_STATE_RUNNING →
  waiting_on_semaphore t = sem → waits !! sem = Some ws →
  (∀ s, sems k !! sem = Some s → current_count s = max_count s) →
  ∃ k', (ThreadListInsert sem (current_thread k);; BlockThread THREAD_STATE_WAITING_FOR_SEMAPHORE) k
        = Done (tt, k') ∧
    sched_inv k' ready sleep (<[sem := ws ++ [current_thread k]]> waits) ∧
    k' = {| k with threads := threads k'; lists := lists k'; postponed_task_switch := true |}.
Proof.
  intros Hi Hlk Hn Ht Hst Hwo Hw Hfull. pose proof (inv_nowhere _ _ _ _ _ Hi Hn Ht Hst) as Hno.
  destruct (push_wait k ready sleep waits sem ws (current_thread k) t) as (k1 & E1 & Hl1 & Hs1);
    [apply Hi|done|done|apply Hno|].
  rewrite (M_bind_done _ _ _ _ _ E1). destruct (same_thread _ _ _ _ Hs1 Ht) as (t1 & Ht1 & Hst1).
  destruct (same_proj _ _ Hs1) as (Esem & Ecur & Ecnt & _ & Ef). rewrite <- Ecur in Ht1.
  rewrite (BlockThread_run k1 t1); try done; [|by rewrite Ecnt|by rewrite Ecur|].
  2: { apply (f_equal state) in Hst1. simpl in Hst1. congruence. }
  eexists. split; [done|]. split.
  - split.
    + apply (linked_ext {| k1 with threads := <[current_thread k1 := {| t1 with state := THREAD_STATE_WAITING_FOR_SEMAPHORE |}]> (threads k1) |}); try done.
      by eapply set_thread_linked.
    + unfold fields. cbn [threads current_thread]. rewrite fmap_insert, Ecur. fold (fields k1). rewrite Ef.
      apply placed_wait; try done; [apply Hi|]. apply (f_equal waiting_on_semaphore) in Hst1. simpl in *. congruence.
    + cbn [sems]. rewrite Esem. destruct (sv_counted _ _ _ _ Hi) as [Hd Hc].
      destruct (proj2 (Hd sem)) as [s Hs]; [by rewrite Hw|].
      rewrite <- (insert_id _ _ _ Hs). destruct (Hc _ _ _ Hs Hw) as (Hr & _ & _).
      eapply counted_set; [done|done|done|done|done|]. intros _. by apply Hfull.
  - cbn [threads lists]. rewrite (proj1 Hs1). done.
Qed.

Lemma block_on_timeout k ready sleep waits sem ws t expiry :
  sched_inv k ready sleep waits → 0 < scheduler_lock_count k → current_thread k ≠ NULL →
  threads k !! current_thread k = Some t → state t = THREAD_STATE_RUNNING →
  waiting_on_semaphore t = sem → waits !! sem = Some ws →
  (∀ s, sems k !! sem = Some s → current_count s = max_count s) →
  ∃ k', (ThreadListInsert sem (current_thread k);;
         now ← GetSystemTimer;
         t ← get_thread (current_thread k);
         set_thread (current_thread k) {| t with sleep_expiry := expiry now |};;
         QueueForSleep (current_thread k);;
         BlockThread THREAD_STATE_WAITING_FOR_SEMAPHORE_WITH_TIMEOUT) k = Done (tt, k') ∧
    sched_inv k' ready (sleep ++ [current_thread k]) (<[sem := ws ++ [current_thread k]]> waits) ∧
    k' = {| k with threads := threads k'; lists := lists k'; postponed_task_switch := true |}.
Proof.
  intros Hi Hlk Hn Ht Hst Hwo Hw Hfull. pose proof (inv_nowhere _ _ _ _ _ Hi Hn Ht Hst) as Hno.
  destruct (push_wait k ready sleep waits sem ws (current_thread k) t) as (k1 & E1 & Hl1 & Hs1);
    [apply Hi|done|done|apply Hno|].
  rewrite (M_bind_done _ _ _ _ _ E1). destruct (same_thread _ _ _ _ Hs1 Ht) as (t1 & Ht1 & Hst1).
  destruct (same_proj _ _ Hs1) as (Esem & Ecur & Ecnt & _ & Ef).
  rewrite (M_bind_done _ _ _ _ _ (eq_refl (GetSystemTimer k1))).
  rewrite (M_bind_done _ _ _ _ _ (get_thread_run _ _ _ Ht1)).
  rewrite (M_bind_done _ _ _ _ _ (set_thread_run k1 _ _)).
  set (t2 := {| t1 with sleep_expiry := _ |}). set (k2 := {| k1 with threads := _ |}).
  assert (threads k2 !! current_thread k = Some t2) as Ht2 by (simpl; by rewrite lookup_insert_eq).
  assert (0 < scheduler_lock_count k2) as Hlk2 by (simpl; by rewrite Ecnt).
  unfold QueueForSleep.
  assert (linked k2 ready sleep (<[sem := ws ++ [current_thread k]]> waits)) as Hl2
    by (by eapply set_thread_linked).
  set (t3 := {| t2 with timed_out := false |}).
  set (k3 := {| k2 with threads := <[current_thread k := t3]> (threads k2) |}).
  destruct (push_sleep k3 ready sleep (<[sem := ws ++ [current_thread k]]> waits) (current_thread k) t3)
    as (k4 & E4 & Hl4 & Hs4); [by eapply set_thread_linked|simpl; by rewrite lookup_insert_eq|apply Hno|].
  rewrite (M_bind_done _ _ k2 tt k4).
  2: { rewrite (M_bind_done _ _ _ _ _ (lock_held_run _ Hlk2)).
       rewrite (M_bind_done _ _ _ _ _ (get_thread_run _ _ _ Ht2)).
       rewrite (M_bind_done _ _ _ _ _ (set_thread_run k2 _ _)). exact E4. }
  assert (threads k3 !! current_thread k = Some t3) as Ht3 by (simpl; by rewrite lookup_insert_eq).
  destruct (same_thread _ _ _ _ Hs4 Ht3) as (t4 & Ht4 & Hst4).
  destruct (same_proj _ _ Hs4) as (Esem4 & Ecur4 & Ecnt4 & _ & Ef4).
  assert (current_thread k4 = current_thread k) as Ec by (by rewrite Ecur4, <- Ecur).
  pose proof (f_equal state Hst1) as Hq1. pose proof (f_equal state Hst4) as Hq4. simpl in Hq1, Hq4.
  rewrite <- Ec in Ht4.
  rewrite (BlockThread_run k4 t4); [|rewrite Ecnt4; exact Hlk2|done|done|by rewrite Ec|done|congruence].
  eexists. split; [done|]. split.
  - split.
    + apply (linked_ext {| k4 with threads := <[current_thread k4 := {| t4 with state := THREAD_STATE_WAITING_FOR_SEMAPHORE_WITH_TIMEOUT |}]> (threads k4) |}); try done.
      by eapply set_thread_linked.
    + unfold fields. cbn [threads current_thread]. rewrite fmap_insert, Ec. fold (fields k4). rewrite Ef4.
      unfold fields, k3, k2. cbn [threads]. rewrite !fmap_insert, !insert_insert_eq. fold (fields k1). rewrite Ef.
      apply placed_timeout; try done; [apply Hi|].
      pose proof (f_equal waiting_on_semaphore Hst1). pose proof (f_equal waiting_on_semaphore Hst4).
      simpl in *. congruence.
    + cbn [sems]. rewrite Esem4. cbn [k3 k2 sems]. rewrite Esem. destruct (sv_counted _ _ _ _ Hi) as [Hd Hc].
      destruct (proj2 (Hd sem)) as [s Hs]; [by rewrite Hw|].
      rewrite <- (insert_id _ _ _ Hs). destruct (Hc _ _ _ Hs Hw) as (Hr & _ & _).
      eapply counted_set; [done|done|done|done|done|]. intros _. by apply Hfull.
  - cbn [threads lists]. rewrite (proj1 Hs4). unfold k3, k2. rewrite (proj1 Hs1). done.
Qed.

(** A call leaves the lock free, the same thread current and the alarms alone. *)
Definition quiet (k k' : kern) : Prop :=
  scheduler_lock_count k' = 0 ∧ current_thread k' = current_thread k ∧ alarms k' = alarms k.

Lemma AcquireSemaphore_run others k ready sleep waits sem s timeout_ms :
  sched_inv k ready sleep waits → can_run k → sem ≠ NULL → sems k !! sem = Some s →
  let thr := current_thread k in
  (current_count s < max_count s ∧ ∃ k', AcquireSemaphore others sem timeout_ms k = Done (0, k') ∧
     sems k' = <[sem := {| s with current_count := current_count s + 1 |}]> (sems k) ∧
     sched_inv k' ready sleep waits ∧ quiet k k' ∧ can_run k') ∨
  (current_count s = max_count s ∧ timeout_ms = 0 ∧
     ∃ k', AcquireSemaphore others sem timeout_ms k = Done (EAGAIN, k') ∧ sems k' = sems k ∧
     sched_inv k' ready sleep waits ∧ quiet k k' ∧ can_run k') ∨
  (current_count s = max_count s ∧ timeout_ms ≠ 0 ∧ ∃ k' ws, waits !! sem = Some ws ∧
     AcquireSemaphore others sem timeout_ms k = (others;; acquire_result thr timeout_ms) k' ∧
     scheduler_lock_count k' = 0 ∧ sems k' = sems k ∧ current_thread k' = thr ∧
     sched_inv k' ready (if decide (timeout_ms = -1) then sleep else sleep ++ [thr])
       (<[sem := ws ++ [thr]]> waits) ∧ quiet k k').
Proof.
  intros Hi [Hul Hsw Hn (t & Ht & Hst)] Hsem Hs thr. unfold AcquireSemaphore.
  rewrite bool_decide_true by done. rewrite (M_bind_done _ _ k tt k) by done.
  rewrite (M_bind_done _ _ _ _ _ (eq_refl (LockScheduler k))).
  set (k0 := {| k with scheduler_lock_count := _ |}).
  rewrite (M_bind_done _ _ _ _ _ (eq_refl (GetThread k0))).
  rewrite (M_bind_done _ _ _ _ _ (get_sem_run k0 _ _ Hs)). cbn [current_thread k0]. fold thr.
  rewrite decide_False by done. rewrite (M_bind_done _ _ _ _ _ (get_thread_run k0 _ _ Ht)).
  rewrite (M_bind_done _ _ _ _ _ (set_thread_run k0 _ _)).
  set (t1 := {| t with timed_out := false |}). set (k1 := {| k0 with threads := _ |}).
  assert (sched_inv k1 ready sleep waits) as Hi1.
  { apply (self_update k0 _ _ _ t); try done. by apply (inv_ext k). }
  assert (threads k1 !! thr = Some t1) as Ht1 by (simpl; by rewrite lookup_insert_eq).
  destruct (counted_sem _ _ _ _ (sv_counted _ _ _ _ Hi) Hs) as (ws & Hws & Hrange & Hmax & Hempty).
  destruct (decide (current_count s < max_count s)) as [Hlt|Hge]; [left|right].
  { split; [done|]. rewrite (M_bind_done _ _ _ _ _ (set_sem_run k1 _ _)).
    set (k2 := {| k1 with sems := _ |}).
    rewrite (M_bind_done _ _ k2 tt {| k2 with scheduler_lock_count := 0 |}).
    2: { rewrite UnlockScheduler_run by (simpl; lia). unfold dropped. cbn. by rewrite Hsw. }
    rewrite (M_bind_done _ _ _ _ _ (get_thread_run {| k2 with scheduler_lock_count := 0 |} _ _ Ht1)).
    eexists. split; [done|]. split; [done|]. split; [|split; [by split_and!|by split; eauto]]. split.
    - apply (linked_lock k1); try done. apply Hi1.
    - apply Hi1.
    - cbn [sems k2]. rewrite <- (insert_id _ _ _ Hws).
      eapply counted_set; [apply Hi|done|done|done|simpl; lia|]. intros Hne. specialize (Hempty Hne). lia. }
  assert (current_count s = max_count s) as Hfull by lia.
  set (t2 := {| t1 with waiting_on_semaphore := sem |}).
  set (k2 := {| k1 with threads := <[thr := t2]> (threads k1) |}).
  assert (sched_inv k2 ready sleep waits) as Hi2 by (by apply (self_update k1 _ _ _ t1)).
  assert (threads k2 !! thr = Some t2) as Ht2 by (simpl; by rewrite lookup_insert_eq).
  destruct (decide (timeout_ms = 0)) as [->|Hto]; [left|right].
  - split_and!; try done.
    set (t3 := {| t2 with timed_out := true |}). set (k3 := {| k2 with threads := <[thr := t3]> (threads k2) |}).
    rewrite (M_bind_done _ _ k1 tt k3).
    2: { rewrite (M_bind_done _ _ _ _ _ (get_thread_run _ _ _ Ht1)).
         rewrite (M_bind_done _ _ _ _ _ (set_thread_run k1 _ _)).
         by rewrite (M_bind_done _ _ _ _ _ (get_thread_run _ _ _ Ht2)). }
    assert (threads k3 !! thr = Some t3) as Ht3 by (simpl; by rewrite lookup_insert_eq).
    rewrite (M_bind_done _ _ k3 tt {| k3 with scheduler_lock_count := 0 |}).
    2: { rewrite UnlockScheduler_run by (simpl; lia). unfold dropped. cbn. by rewrite Hsw. }
    rewrite (M_bind_done _ _ _ _ _ (get_thread_run {| k3 with scheduler_lock_count := 0 |} _ _ Ht3)).
    eexists. split; [done|]. split; [done|]. split; [|split; [by split_and!|by split; eauto]].
    apply (inv_ext k3); try done. by apply (self_update k2 _ _ _ t2).
  - split_and!; try done.
    assert (∃ k3, (if decide (timeout_ms = -1)
        then ThreadListInsert sem thr;; BlockThread THREAD_STATE_WAITING_FOR_SEMAPHORE
        else ThreadListInsert sem thr;;
             now ← GetSystemTimer;
             t ← get_thread thr;
             set_thread thr {| t with sleep_expiry := u64 (now + u64 (timeout_ms * 1000000)) |};;
             QueueForSleep thr;;
             BlockThread THREAD_STATE_WAITING_FOR_SEMAPHORE_WITH_TIMEOUT) k2 = Done (tt, k3) ∧
        sched_inv k3 ready (if decide (timeout_ms = -1) then sleep else sleep ++ [thr])
          (<[sem := ws ++ [thr]]> waits) ∧
        k3 = {| k2 with threads := threads k3; lists := lists k3; postponed_task_switch := true |})
      as (k3 & E3 & Hi3 & Hk3).
    { assert (0 < scheduler_lock_count k2) by (simpl; lia).
      assert (∀ s, sems k2 !! sem = Some s → current_count s = max_count s) as Hf.
      { simpl. intros s' Hs'. rewrite Hs in Hs'. by injection Hs' as <-. }
      case_decide.
      - by apply (block_on k2 ready sleep waits sem ws t2).
      - by apply (block_on_timeout k2 ready sleep waits sem ws t2
                    (λ now, u64 (now + u64 (timeout_ms * 1000000)))). }
    rewrite (M_bind_done _ _ k1 tt k3).
    2: { rewrite (M_bind_done _ _ _ _ _ (get_thread_run _ _ _ Ht1)).
         rewrite (M_bind_done _ _ _ _ _ (set_thread_run k1 _ _)). exact E3. }
    exists {| k3 with scheduler_lock_count := 0; postponed_task_switch := false |}, ws.
    split; [done|]. split.
    { unfold mbind at 1, M_mbind. rewrite UnlockScheduler_run by (rewrite Hk3; simpl; lia).
      unfold dropped. cbn [postponed_task_switch]. replace (postponed_task_switch k3) with true by (by rewrite Hk3).
      unfold acquire_result. destruct (decide (timeout_ms = 0)); done. }
    split_and!; try done; [by rewrite Hk3|by rewrite Hk3|by apply (inv_ext k3)|split_and!; try done; by rewrite Hk3].
Qed.


(** ** Waking a thread takes it off every list but the ready list *)

Lemma placed_wake F cur ready sleep (waits : gmap Z (list Z)) x t' ready' sleep' (waits' : gmap Z (list Z)) :
  placed F cur ready sleep waits → (x = cur → state t' ≠ THREAD_STATE_RUNNING) →
  (∀ y, y ∈ ready' ↔ y ∈ ready ∨ y = x) → (∀ y, y ∈ sleep' ↔ y ∈ sleep ∧ y ≠ x) →
  (∀ s w', waits' !! s = Some w' → ∃ w, waits !! s = Some w ∧ ∀ y, y ∈ w' ↔ y ∈ w ∧ y ≠ x) →
  (∀ s w, waits !! s = Some w → is_Some (waits' !! s)) →
  placed (<[x := t']> F) cur ready' sleep' waits'.
Proof.
  intros [Hr Hw Hs Hc] Hx Er Es Ew Ed. split.
  - intros y [Hy| ->]%Er; [|by rewrite lookup_insert_eq].
    destruct (decide (y = x)) as [->|Hne]; [by rewrite lookup_insert_eq|].
    rewrite lookup_insert_ne by done. by apply Hr.
  - intros s w' y Hw' Hy. destruct (Ew s w' Hw') as (w & Hsw & Ey). destruct (proj1 (Ey y) Hy) as [Hyw Hne].
    destruct (Hw s w y Hsw Hyw) as (Hy1 & u & Hu & Hwo & H). split; [rewrite Er; naive_solver|].
    exists u. rewrite lookup_insert_ne by done. split_and!; try done. rewrite Es. naive_solver.
  - intros y [Hy Hne]%Es. destruct (Hs y Hy) as (Hy1 & u & Hu & H). split; [rewrite Er; naive_solver|].
    exists u. rewrite lookup_insert_ne by done. split; [done|].
    destruct H as [H|(H & w & Hsw & Hyw)]; [by left|right]. split; [done|].
    destruct (Ed _ _ Hsw) as [w' Hw']. exists w'. split; [done|].
    destruct (Ew _ _ Hw') as (w0 & Hsw0 & Ey). rewrite Hsw in Hsw0. injection Hsw0 as <-. by apply Ey.
  - intros Hn. destruct (decide (cur = x)) as [->|Hne].
    + exists t'. rewrite lookup_insert_eq. split; [done|]. intros H. by destruct (Hx eq_refl).
    + destruct (Hc Hn) as (u & Hu & H). exists u. rewrite lookup_insert_ne by done. split; [done|].
      rewrite Er. naive_solver.
Qed.

Lemma TryDequeue_loop_run k ready waits x l2 mid : ∀ pre fuel,
  linked k ready (pre ++ mid ++ x :: l2) waits → (length mid < fuel)%nat →
  ∃ k', TryDequeueForSleep_loop fuel x (first_of (mid ++ x :: l2)) k = Done (true, k') ∧
    linked k' ready (pre ++ mid ++ l2) waits ∧ same k k'.
Proof.
  induction mid as [|y mid IH]; intros pre fuel Hl Hf; destruct fuel as [|fuel]; try lia;
    cbn [TryDequeueForSleep_loop].
  - destruct (chain_nonnull _ _ _ _ x (lr_chain _ _ _ _ (ln_sleep _ _ _ _ Hl))) as [Hx _]; [set_solver|].
    change (first_of ([] ++ x :: l2)) with x. rewrite decide_False, decide_True by done.
    destruct (take_sleep k ready pre x l2 waits Hl) as (k' & E & Hl' & Hs').
    rewrite (M_bind_done _ _ _ _ _ E). by exists k'.
  - destruct (chain_nonnull _ _ _ _ y (lr_chain _ _ _ _ (ln_sleep _ _ _ _ Hl))) as [Hy [n Hn]]; [set_solver|].
    change (first_of ((y :: mid) ++ x :: l2)) with y. rewrite decide_False by done.
    destruct (ln_sleep _ _ _ _ Hl) as [_ Hc Hnd].
    rewrite decide_False.
    2: { intros ->. apply NoDup_app in Hnd as (_ & _ & Hnd). simpl in Hnd.
         apply NoDup_cons in Hnd as [Hnd _]. apply Hnd. set_solver. }
    rewrite (M_bind_done _ _ _ _ _ (get_next_run _ _ _ _ Hn)).
    assert (n = first_of (mid ++ x :: l2)) as ->.
    { apply chain_app in Hc as (m & _ & Hc). simpl in Hc.
      destruct Hc as (-> & _ & n' & Hn' & Hc). rewrite Hn in Hn'. injection Hn' as <-.
      by apply chain_start in Hc. }
    assert (pre ++ (y :: mid) ++ x :: l2 = (pre ++ [y]) ++ mid ++ x :: l2) as E by (by rewrite <- app_assoc).
    rewrite E in Hl. destruct (IH (pre ++ [y]) fuel Hl) as (k' & Ek & Hl' & Hs'); [simpl in Hf; lia|].
    exists k'. split_and!; [done|by rewrite <- app_assoc in Hl'|done].
Qed.

Lemma TryDequeueForSleep_run k ready l1 x l2 waits :
  linked k ready (l1 ++ x :: l2) waits → 0 < scheduler_lock_count k →
  ∃ k', TryDequeueForSleep x k = Done (true, k') ∧ linked k' ready (l1 ++ l2) waits ∧ same k k'.
Proof.
  intros Hl Hlk. unfold TryDequeueForSleep. rewrite (M_bind_done _ _ _ _ _ (lock_held_run _ Hlk)).
  rewrite (M_bind_done _ _ _ _ _ (eq_refl (get _))).
  rewrite (M_bind_done _ _ _ _ _ (get_list_run _ _ _ (lr_hdr _ _ _ _ (ln_sleep _ _ _ _ Hl)))). cbn [head].
  pose proof (rep_length _ _ _ _ (ln_sleep _ _ _ _ Hl)) as Hlen. rewrite length_app in Hlen. simpl in Hlen.
  apply (TryDequeue_loop_run k ready waits x l2 l1 []); [done|lia].
Qed.

Lemma strip_fields t t' : strip t' = strip t →
  state t' = state t ∧ waiting_on_semaphore t' = waiting_on_semaphore t ∧ priority t' = priority t ∧
  sleep_expiry t' = sleep_expiry t ∧ signal_intr t' = signal_intr t.
Proof.
  intros H. split_and!; [apply (f_equal state) in H|apply (f_equal waiting_on_semaphore) in H
    |apply (f_equal priority) in H|apply (f_equal sleep_expiry) in H|apply (f_equal signal_intr) in H]; done.
Qed.

(** Removing the head of one semaphore's queue. *)
Lemma waits_pop (waits : gmap Z (list Z)) sem l1 x l2 :
  waits !! sem = Some (l1 ++ x :: l2) → NoDup (l1 ++ x :: l2) →
  (∀ s w, waits !! s = Some w → x ∈ w → s = sem) →
  (∀ s w', <[sem := l1 ++ l2]> waits !! s = Some w' →
     ∃ w, waits !! s = Some w ∧ ∀ y, y ∈ w' ↔ y ∈ w ∧ y ≠ x) ∧
  (∀ s w, waits !! s = Some w → is_Some (<[sem := l1 ++ l2]> waits !! s)).
Proof.
  intros Hsem Hnd Hu. split.
  - intros s w' [[<- <-]|[Hne H]]%lookup_insert_Some.
    + eexists. split; [done|]. intros y. apply NoDup_app in Hnd as (_ & Hd & [Hx _]%NoDup_cons).
      specialize (Hd x). set_solver.
    + exists w'. split; [done|]. intros y. split; [|by intros []]. intros Hy. split; [done|]. intros ->.
      apply Hne. symmetry. by eapply Hu.
  - intros s w H. destruct (decide (s = sem)) as [->|Hne]; [by rewrite lookup_insert_eq|].
    by rewrite lookup_insert_ne, H.
Qed.
