(* ===== verification/SchedulerSteps.v ===== *)
(** * Releasing, timing out, sleeping and switching keep the scheduler's
    invariant *)

From S2P Require Import Prelude ThreadList Scheduler Timer Semaphore SchedulerInv.

(** Everything but threads, lists and the pending switch is as before. *)
Definition rest (k k' : kern) : Prop :=
  k' = {| k with threads := threads k'; lists := lists k';
                 postponed_task_switch := postponed_task_switch k' |}.

Lemma same_rest k k' : same k k' → rest k k'.
Proof. by intros []. Qed.
Lemma rest_trans k1 k2 k3 : rest k1 k2 → rest k2 k3 → rest k1 k3.
Proof. unfold rest. intros -> ->. done. Qed.
Lemma rest_set k a t : rest k {| k with threads := <[a := t]> (threads k) |}.
Proof. done. Qed.
Lemma rest_proj k k' : rest k k' → sems k' = sems k ∧ current_thread k' = current_thread k ∧
  scheduler_lock_count k' = scheduler_lock_count k ∧ system_time k' = system_time k.
Proof. intros ->. done. Qed.

Definition without (x : Z) (l : list Z) : list Z := filter (λ y, y ≠ x) l.

Lemma elem_of_without x l y : y ∈ without x l ↔ y ∈ l ∧ y ≠ x.
Proof. unfold without. rewrite list_elem_of_filter. tauto. Qed.
Lemma without_id x l : x ∉ l → without x l = l.
Proof.
  intros H. unfold without. induction l as [|y l IH]; [done|].
  rewrite filter_cons_True by set_solver. f_equal. apply IH. set_solver.
Qed.
Lemma without_split x l1 l2 : NoDup (l1 ++ x :: l2) → without x (l1 ++ x :: l2) = l1 ++ l2.
Proof.
  intros (_ & Hd & [Hx _]%NoDup_cons)%NoDup_app. unfold without.
  rewrite filter_app, filter_cons_False by (intros H; by apply H).
  fold (without x l1) (without x l2). rewrite !without_id; [done|done|].
  intros H. apply (Hd x H). set_solver.
Qed.

Lemma in_split x (l : list Z) : x ∈ l → ∃ l1 l2, l = l1 ++ x :: l2.
Proof. apply list_elem_of_split. Qed.

(** ** The head waiter is handed the unit *)

Lemma DecrementSemaphore_waiters k ready sleep waits sem x ws c :
  sched_inv k ready sleep waits → 0 < scheduler_lock_count k →
  threads k !! current_thread k = Some c → waits !! sem = Some (x :: ws) →
  ∃ k', DecrementSemaphore sem false k = Done (tt, k') ∧
    sched_inv k' (ready ++ [x]) (without x sleep) (<[sem := ws]> waits) ∧ rest k k'.
Proof.
  intros Hi Hlk Hc Hw. destruct (ln_waits _ _ _ _ (sv_linked _ _ _ _ Hi) _ _ Hw) as (Hrep & Hsr & Hss & _).
  destruct (chain_nonnull _ _ _ _ x (lr_chain _ _ _ _ Hrep)) as [Hx0 _]; [set_solver|].
  unfold DecrementSemaphore. rewrite (M_bind_done _ _ _ _ _ (get_list_run _ _ _ (lr_hdr _ _ _ _ Hrep))).
  cbn [head]. rewrite decide_False by done.
  destruct (pop_wait k ready sleep waits sem x ws) as (k1 & E1 & Hl1 & Hs1); [apply Hi|done|].
  rewrite (M_bind_done _ _ _ _ _ E1).
  destruct (pl_wait _ _ _ _ _ (sv_placed _ _ _ _ Hi) sem _ x Hw) as (Hxr & ft & Hft & Hwo & Hst); [set_solver|].
  destruct (same_proj _ _ Hs1) as (Esem & Ecur & Ecnt & _ & Ef).
  destruct (fields_thread k1 x ft) as (t1 & Ht1 & Hst1); [by rewrite Ef|].
  rewrite (M_bind_done _ _ _ _ _ (get_thread_run _ _ _ Ht1)).
  destruct (same_thread _ _ _ _ Hs1 Hc) as (c1 & Hc1 & _). rewrite <- Ecur in Hc1.
  assert (state t1 = state ft ∧ waiting_on_semaphore t1 = sem) as [Est Ewo].
  { split; [|rewrite <- Hwo]; rewrite <- Hst1; done. }
  assert (0 < scheduler_lock_count k1) as Hlk1 by (by rewrite Ecnt).
  destruct (waits_pop waits sem [] x ws Hw) as [Hp1 Hp2]; [apply Hrep| |].
  { intros s w Hs Hin. eapply (ln_disj _ _ _ _ (sv_linked _ _ _ _ Hi)); try done. set_solver. }
  assert (counted (sems k) (<[sem := ws]> waits)) as Hcnt.
  { destruct (sv_counted _ _ _ _ Hi) as [Hd Hcc]. destruct (proj2 (Hd sem)) as [s Hs]; [by rewrite Hw|].
    destruct (Hcc _ _ _ Hs Hw) as (Hr & _ & He). rewrite <- (insert_id _ _ _ Hs).
    eapply counted_set; [apply Hi|done|done|done|done|]. intros _. by apply He. }
  destruct Hst as [[Hst Hxs]|[Hst Hxs]]; rewrite Est, Hst.
  - rewrite decide_False by done.
    destruct (UnblockThread_run k1 ready sleep (<[sem := ws]> waits) x t1 c1) as (k2 & E2 & Hl2 & Hs2);
      try done; [by rewrite Est, Hst|].
    exists k2. split; [exact E2|]. destruct (same_proj _ _ (same_trans _ _ _ Hs1 Hs2)) as (Es2 & Ec2 & _ & _ & Ef2).
    rewrite without_id by done. split; [|by apply same_rest, (same_trans _ k1)]. split; [done| |by rewrite Es2].
    rewrite Ef2, Ec2. rewrite <- (insert_id _ _ _ Hft).
    apply (placed_wake _ _ ready sleep waits); try done; [apply Hi|by rewrite Hst|set_solver|set_solver].
  - rewrite decide_True by done. apply in_split in Hxs as (s1 & s2 & ->).
    destruct (TryDequeueForSleep_run k1 ready s1 x s2 (<[sem := ws]> waits)) as (k2 & E2 & Hl2 & Hs2); try done.
    rewrite (M_bind_done _ _ _ _ _ E2).
    destruct (same_thread _ _ _ _ Hs2 Ht1) as (t2 & Ht2 & Hst2).
    destruct (same_thread _ _ _ _ Hs2 Hc1) as (c2 & Hc2 & _).
    destruct (same_proj _ _ Hs2) as (Es2 & Ec2 & Ek2 & _ & Ef2).
    rewrite (M_bind_done _ _ _ _ _ (get_thread_run _ _ _ Ht2)).
    rewrite (M_bind_done _ _ _ _ _ (set_thread_run k2 _ _)).
    set (t3 := {| t2 with state := THREAD_STATE_READY |}). set (k3 := {| k2 with threads := _ |}).
    assert (threads k3 !! x = Some t3) as Ht3 by (simpl; by rewrite lookup_insert_eq).
    assert (∃ c3, threads k3 !! current_thread k3 = Some c3) as [c3 Hc3].
    { simpl. rewrite Ec2. destruct (decide (current_thread k1 = x)) as [->|Hne];
        [rewrite lookup_insert_eq; eauto|rewrite lookup_insert_ne by done; eauto]. }
    destruct (UnblockThread_run k3 ready (s1 ++ s2) (<[sem := ws]> waits) x t3 c3) as (k4 & E4 & Hl4 & Hs4);
      try done; [by eapply set_thread_linked|simpl; by rewrite Ek2|].
    exists k4. split; [exact E4|].
    rewrite without_split by (apply (lr_nodup _ _ _ _ (ln_sleep _ _ _ _ (sv_linked _ _ _ _ Hi)))).
    destruct (same_proj _ _ Hs4) as (Es4 & Ec4 & _ & _ & Ef4).
    split; [split; [done| |]|].
    + rewrite Ef4, Ec4. unfold k3. rewrite fields_set_thread, Ef2, Ef. cbn [current_thread]. rewrite Ec2, Ecur.
      apply (placed_wake _ _ ready (s1 ++ x :: s2) waits); try done; [apply Hi|set_solver|].
      intros y. pose proof (lr_nodup _ _ _ _ (ln_sleep _ _ _ _ (sv_linked _ _ _ _ Hi))) as Hnd.
      rewrite <- (without_split x s1 s2 Hnd). apply elem_of_without.
    + rewrite Es4. cbn [k3 sems]. by rewrite Es2, Esem.
    + apply (rest_trans _ k1); [by apply same_rest|]. apply (rest_trans _ k2); [by apply same_rest|].
      apply (rest_trans _ k3); [apply rest_set|by apply same_rest].
Qed.

Lemma DecrementSemaphore_free k ready sleep waits sem s first :
  sched_inv k ready sleep waits → waits !! sem = Some [] → sems k !! sem = Some s → 0 < current_count s →
  let k' := {| k with sems := <[sem := {| s with current_count := current_count s - 1 |}]> (sems k) |} in
  DecrementSemaphore sem first k = Done (tt, k') ∧ sched_inv k' ready sleep waits.
Proof.
  intros Hi Hw Hs Hpos k'. destruct (ln_waits _ _ _ _ (sv_linked _ _ _ _ Hi) _ _ Hw) as (Hrep & _).
  unfold DecrementSemaphore. rewrite (M_bind_done _ _ _ _ _ (get_list_run _ _ _ (lr_hdr _ _ _ _ Hrep))).
  cbn [head]. rewrite decide_True by done. rewrite (M_bind_done _ _ _ _ _ (get_sem_run _ _ _ Hs)).
  rewrite decide_False by lia. split; [done|]. destruct Hi as [Hl Hp Hc]. split; [|done|].
  - by apply (linked_lock k).
  - cbn [k' sems]. rewrite <- (insert_id _ _ _ Hw). destruct (proj2 Hc _ _ _ Hs Hw) as (Hr & _).
    eapply counted_set; [done|done|done|done|simpl; lia|done].
Qed.

Lemma ReleaseSemaphore_run others k ready sleep waits sem s ws c :
  sched_inv k ready sleep waits → scheduler_lock_count k = 0 →
  threads k !! current_thread k = Some c →
  sems k !! sem = Some s → waits !! sem = Some ws →
  (current_count s = 0 → ReleaseSemaphore others sem k = Panicked PANIC_ASSERTION_FAILURE) ∧
  (0 < current_count s → ∃ k', ReleaseSemaphore others sem k = dropped others k' ∧
     quiet k k' ∧
     match ws with
     | [] => sems k' = <[sem := {| s with current_count := current_count s - 1 |}]> (sems k) ∧
             sched_inv k' ready sleep waits
     | x :: ws => sems k' = sems k ∧ sched_inv k' (ready ++ [x]) (without x sleep) (<[sem := ws]> waits)
     end).
Proof.
  intros Hi Hul Hc Hs Hw. unfold ReleaseSemaphore.
  rewrite (M_bind_done _ _ _ _ _ (eq_refl (LockScheduler k))).
  set (k0 := {| k with scheduler_lock_count := _ |}).
  assert (sched_inv k0 ready sleep waits) as Hi0 by (by apply (inv_ext k)).
  unfold ReleaseSemaphoreEx. rewrite decide_False by lia. split; intros Hcnt.
  { apply M_bind_panic. rewrite (M_bind_done _ _ _ _ _ (get_sem_run k0 _ _ Hs)).
    by rewrite bool_decide_false by lia. }
  assert (∃ k1, DecrementSemaphore sem false k0 = Done (tt, k1) ∧ scheduler_lock_count k1 = 1 ∧
     current_thread k1 = current_thread k ∧ alarms k1 = alarms k ∧
     (∃ s1, sems k1 !! sem = Some s1) ∧
     match ws with
     | [] => sems k1 = <[sem := {| s with current_count := current_count s - 1 |}]> (sems k) ∧
             sched_inv k1 ready sleep waits
     | x :: ws => sems k1 = sems k ∧ sched_inv k1 (ready ++ [x]) (without x sleep) (<[sem := ws]> waits)
     end) as (k1 & E1 & Hlk1 & Hcur1 & Hal1 & (s1 & Hs1) & Hres).
  { destruct ws as [|x ws].
    - destruct (DecrementSemaphore_free k0 ready sleep waits sem s false) as [E Hi']; try done.
      eexists. split; [exact E|]. split_and!; try done; [simpl; lia|]. simpl. rewrite lookup_insert_eq. eauto.
    - destruct (DecrementSemaphore_waiters k0 ready sleep waits sem x ws c) as (k1 & E & Hi' & Hr);
        try done; [simpl; lia|].
      destruct (rest_proj _ _ Hr) as (Es & Ec & Ecnt & _).
      exists k1. split_and!; try done; [rewrite Ecnt; simpl; lia|by rewrite Hr|]. exists s. by rewrite Es. }
  exists {| k1 with scheduler_lock_count := 0 |}. split.
  - rewrite (M_bind_done _ _ k0 1 k1); [by rewrite UnlockScheduler_run|].
    rewrite (M_bind_done _ _ _ _ _ (get_sem_run k0 _ _ Hs)). rewrite bool_decide_true by done.
    rewrite (M_bind_done _ _ k0 tt k0) by done. cbn [ReleaseSemaphoreEx_loop].
    rewrite bool_decide_false by lia. rewrite (M_bind_done _ _ _ _ _ E1).
    rewrite (M_bind_done _ _ _ _ _ (get_sem_run _ _ _ Hs1)). rewrite decide_False; [done|].
    change (i32 (1 - 1)) with 0. naive_solver.
  - split; [done|]. destruct ws; destruct Hres as [? Hres]; (split; [done|]); by apply (inv_ext k1).
Qed.

(** ** Timeouts *)

Definition leave (x : Z) (waits : gmap Z (list Z)) : gmap Z (list Z) := without x <$> waits.

Lemma leave_absent x waits : (∀ s w, waits !! s = Some w → x ∉ w) → leave x waits = waits.
Proof.
  intros H. unfold leave. apply map_eq. intros s. rewrite lookup_fmap.
  destruct (waits !! s) as [w|] eqn:E; simpl; [|done]. by rewrite without_id by (by eapply H).
Qed.
Lemma leave_present x waits sem l1 l2 :
  waits !! sem = Some (l1 ++ x :: l2) → NoDup (l1 ++ x :: l2) →
  (∀ s w, waits !! s = Some w → x ∈ w → s = sem) → leave x waits = <[sem := l1 ++ l2]> waits.
Proof.
  intros Hsem Hnd Hu. unfold leave. apply map_eq. intros s. rewrite lookup_fmap.
  destruct (decide (s = sem)) as [->|Hne].
  - rewrite lookup_insert_eq, Hsem. simpl. by rewrite without_split.
  - rewrite lookup_insert_ne by done. destruct (waits !! s) as [w|] eqn:E; simpl; [|done].
    rewrite without_id; [done|]. intros Hin. by apply Hne, (Hu s w).
Qed.
Lemma counted_leave ss x waits : counted ss waits → counted ss (leave x waits).
Proof.
  intros [Hd Hc]. split.
  - intros s. rewrite Hd. unfold leave. rewrite lookup_fmap. by rewrite fmap_is_Some.
  - intros s v w' Hv Hw'. unfold leave in Hw'. rewrite lookup_fmap in Hw'.
    apply fmap_Some in Hw' as (w & Hw & ->). destruct (Hc s v w Hv Hw) as (H1 & H2 & H3).
    split_and!; try lia. intros Hne. apply H3. intros ->. done.
Qed.

Definition mark (t : thread) : thread :=
  {| t with timed_out := true; timed_out_due_to_signal := signal_intr t |}.

(** The wake-up of one sleeper. *)
Lemma wake_one k ready s1 x s2 waits c :
  sched_inv k ready (s1 ++ x :: s2) waits → 0 < scheduler_lock_count k →
  threads k !! current_thread k = Some c →
  ∃ k', (∀ cont : M kern unit,
          (ThreadListDelete sleep_list x;;
           t ← get_thread x;
           set_thread x {| t with timed_out := true; timed_out_due_to_signal := signal_intr t |};;
           UnblockThread x;;
           cont) k = cont k') ∧
    sched_inv k' (ready ++ [x]) (s1 ++ s2) (leave x waits) ∧ rest k k' ∧
    fields k' = alter mark x (fields k).
Proof.
  intros Hi Hlk Hc. pose proof (lr_nodup _ _ _ _ (ln_sleep _ _ _ _ (sv_linked _ _ _ _ Hi))) as Hnd.
  destruct (take_sleep k ready s1 x s2 waits) as (k1 & E1 & Hl1 & Hs1); [apply Hi|].
  destruct (pl_sleep _ _ _ _ _ (sv_placed _ _ _ _ Hi) x) as (Hxr & ft & Hft & Hst); [set_solver|].
  destruct (same_proj _ _ Hs1) as (Esem & Ecur & Ecnt & _ & Ef).
  destruct (fields_thread k1 x ft) as (t1 & Ht1 & Hst1); [by rewrite Ef|].
  destruct (same_thread _ _ _ _ Hs1 Hc) as (c1 & Hc1 & _). rewrite <- Ecur in Hc1.
  set (k2 := {| k1 with threads := <[x := mark t1]> (threads k1) |}).
  assert (∀ k3 (cont : M kern unit), UnblockThread x k2 = Done (tt, k3) →
      (ThreadListDelete sleep_list x;; t ← get_thread x;
       set_thread x {| t with timed_out := true; timed_out_due_to_signal := signal_intr t |};;
       UnblockThread x;; cont) k = cont k3) as Hseq.
  { intros k3 cont E. rewrite (M_bind_done _ _ _ _ _ E1), (M_bind_done _ _ _ _ _ (get_thread_run _ _ _ Ht1)).
    rewrite (M_bind_done _ _ _ _ _ (set_thread_run k1 _ _)). fold (mark t1). fold k2.
    by rewrite (M_bind_done _ _ _ _ _ E). }
  assert (threads k2 !! x = Some (mark t1)) as Ht2 by (simpl; by rewrite lookup_insert_eq).
  assert (∃ c2, threads k2 !! current_thread k2 = Some c2) as [c2 Hc2].
  { simpl. destruct (decide (current_thread k1 = x)) as [->|Hne];
      [rewrite lookup_insert_eq; eauto|rewrite lookup_insert_ne by done; eauto]. }
  assert (linked k2 ready (s1 ++ s2) waits) as Hl2 by (by eapply set_thread_linked).
  assert (fields k2 = <[x := mark ft]> (fields k)) as Ef2.
  { unfold k2. rewrite fields_set_thread, Ef. f_equal. by rewrite <- Hst1. }
  assert (alter mark x (fields k) = <[x := mark ft]> (fields k)) as Ealt by (by apply alter_alt_Some).
  assert (0 < scheduler_lock_count k2) as Hlk2 by (simpl; by rewrite Ecnt).
  assert (∀ y, y ∈ s1 ++ s2 ↔ y ∈ s1 ++ x :: s2 ∧ y ≠ x) as Esl.
  { intros y. rewrite <- (without_split x s1 s2 Hnd). apply elem_of_without. }
  assert (∀ y, y ∈ ready ++ [x] ↔ y ∈ ready ∨ y = x) as Erd by set_solver.
  destruct Hst as [Hst|(Hst & w & Hw & Hxw)].
  - assert (∀ s w, waits !! s = Some w → x ∉ w) as Hno.
    { intros s w Hsw Hin. destruct (pl_wait _ _ _ _ _ (sv_placed _ _ _ _ Hi) s w x Hsw Hin)
        as (_ & u & Hu & _ & H). rewrite Hft in Hu. injection Hu as <-. rewrite Hst in H.
      by destruct H as [[? _]|[? _]]. }
    destruct (UnblockThread_run k2 ready (s1 ++ s2) waits x (mark t1) c2) as (k3 & E3 & Hl3 & Hs3); try done.
    { simpl. rewrite <- Hst1 in Hst. simpl in Hst. by rewrite Hst. }
    destruct (same_proj _ _ Hs3) as (Es3 & Ec3 & _ & _ & Ef3).
    exists k3. split; [intros cont; by apply Hseq|]. rewrite leave_absent by done. split_and!.
    + split; [done| |rewrite Es3; cbn [k2 sems]; rewrite Esem; apply Hi].
      rewrite Ef3, Ef2, Ec3. cbn [k2 current_thread]. rewrite Ecur.
      apply (placed_wake _ _ ready (s1 ++ x :: s2) waits); try done; [apply Hi|simpl; by rewrite Hst|].
      intros s w Hw. exists w. split; [done|]. intros y. split; [|by intros []].
      intros Hy. split; [done|]. intros ->. by eapply Hno.
    + apply (rest_trans _ k1); [by apply same_rest|]. apply (rest_trans _ k2); [apply rest_set|by apply same_rest].
    + by rewrite Ef3, Ef2, Ealt.
  - apply in_split in Hxw as (l1 & l2 & ->).
    assert (waiting_on_semaphore t1 = waiting_on_semaphore ft ∧ state t1 = state ft) as [Ewo Est]
      by (by rewrite <- Hst1).
    set (sem := waiting_on_semaphore ft) in *.
    destruct (ln_waits _ _ _ _ (sv_linked _ _ _ _ Hi) _ _ Hw) as (Hrep & _).
    assert (∀ s w, waits !! s = Some w → x ∈ w → s = sem) as Hu.
    { intros s w Hs Hin. eapply (ln_disj _ _ _ _ (sv_linked _ _ _ _ Hi)); try done. set_solver. }
    destruct (UnblockThread_timeout_run k2 ready (s1 ++ s2) waits x (mark t1) c2 l1 l2)
      as (k3 & E3 & Hl3 & Hs3); try done; [simpl; by rewrite Est|simpl; by rewrite Ewo|].
    simpl in Hl3. rewrite Ewo in Hl3.
    destruct (same_proj _ _ Hs3) as (Es3 & Ec3 & _ & _ & Ef3).
    pose proof (leave_present x waits sem l1 l2 Hw (lr_nodup _ _ _ _ Hrep) Hu) as El.
    destruct (waits_pop waits sem l1 x l2 Hw (lr_nodup _ _ _ _ Hrep) Hu) as [Hp1 Hp2].
    exists k3. split; [intros cont; by apply Hseq|]. split_and!.
    + split; [by rewrite El| |].
      * rewrite Ef3, Ef2, Ec3, El. cbn [k2 current_thread]. rewrite Ecur.
        apply (placed_wake _ _ ready (s1 ++ x :: s2) waits); try done; [apply Hi|simpl; by rewrite Hst].
      * rewrite Es3. cbn [k2 sems]. rewrite Esem. apply counted_leave, Hi.
    + apply (rest_trans _ k1); [by apply same_rest|]. apply (rest_trans _ k2); [apply rest_set|by apply same_rest].
    + by rewrite Ef3, Ef2, Ealt.
Qed.

(** A sleeper whose time has come, or that was sent a signal. *)
Definition expired (F : gmap Z thread) (time x : Z) : bool :=
  match F !! x with
  | Some t => bool_decide (sleep_expiry t ≤ time ∨ signal_intr t = true)
  | None => false
  end.

Definition woken (F : gmap Z thread) (time : Z) (sleep : list Z) : list Z :=
  filter (λ x, expired F time x = true) sleep.
Definition asleep (F : gmap Z thread) (time : Z) (sleep : list Z) : list Z :=
  filter (λ x, expired F time x = false) sleep.
Definition leave_all (xs : list Z) (waits : gmap Z (list Z)) : gmap Z (list Z) := foldl (λ w x, leave x w) waits xs.
Definition mark_all (xs : list Z) (F : gmap Z thread) : gmap Z thread := foldl (λ F x, alter mark x F) F xs.

Lemma expired_mark F time x y : expired (alter mark y F) time x = expired F time x.
Proof.
  unfold expired. destruct (decide (x = y)) as [->|Hne].
  - rewrite lookup_alter_eq. by destruct (F !! y).
  - by rewrite lookup_alter_ne.
Qed.

Lemma filter_none {A} (P : A → Prop) `{∀ x, Decision (P x)} (l : list A) : (∀ x, x ∈ l → ¬ P x) → filter P l = [].
Proof.
  induction l as [|a l IH]; intros Hl; [done|].
  rewrite filter_cons_False by (apply Hl; set_solver). apply IH. set_solver.
Qed.
Lemma filter_all {A} (P : A → Prop) `{∀ x, Decision (P x)} (l : list A) : (∀ x, x ∈ l → P x) → filter P l = l.
Proof.
  induction l as [|a l IH]; intros Hl; [done|].
  rewrite filter_cons_True by (apply Hl; set_solver). f_equal. apply IH. set_solver.
Qed.

(** The list after the sleeper at [iter] was passed or woken. *)
Lemma sleep_step k l idx pre y suf n :
  list_rep k l idx (pre ++ y :: suf) → nxt (threads k) idx y = Some n → n = first_of suf.
Proof.
  intros [_ Hc _] Hn. apply chain_app in Hc as (m & _ & Hc). simpl in Hc.
  destruct Hc as (-> & _ & n' & Hn' & Hc). rewrite Hn in Hn'. injection Hn' as <-.
  by apply chain_start in Hc.
Qed.

Lemma wakeups_loop_run time fuel : ∀ k ready pre suf waits c,
  sched_inv k ready (pre ++ suf) waits → 0 < scheduler_lock_count k →
  threads k !! current_thread k = Some c →
  (∀ x, x ∈ pre → expired (fields k) time x = false) →
  (length (woken (fields k) time suf) * S (length (pre ++ suf)) + length suf ≤ fuel)%nat →
  ∃ k', HandleSleepWakeups_loop fuel time (first_of suf) k = Done (tt, k') ∧
    sched_inv k' (ready ++ woken (fields k) time suf) (pre ++ asleep (fields k) time suf)
      (leave_all (woken (fields k) time suf) waits) ∧ rest k k' ∧
    fields k' = mark_all (woken (fields k) time suf) (fields k).
Proof.
  induction fuel as [|fuel IH]; intros k ready pre suf waits c Hi Hlk Hc Hpre Hf.
  { destruct suf; [|simpl in Hf; lia]. exists k. cbn. rewrite !app_nil_r in *. split_and!; try done. by destruct k. }
  destruct suf as [|x suf].
  { exists k. cbn. rewrite !app_nil_r in *. split_and!; try done. by destruct k. }
  pose proof (ln_sleep _ _ _ _ (sv_linked _ _ _ _ Hi)) as Hrep.
  destruct (chain_nonnull _ _ _ _ x (lr_chain _ _ _ _ Hrep)) as [Hx0 [n Hn]]; [set_solver|].
  destruct (pl_sleep _ _ _ _ _ (sv_placed _ _ _ _ Hi) x) as (Hxr & ft & Hft & _); [set_solver|].
  destruct (fields_thread k x ft Hft) as (t & Ht & Hst).
  cbn [HandleSleepWakeups_loop]. change (first_of (x :: suf)) with x. rewrite decide_False by done.
  rewrite (M_bind_done _ _ _ _ _ (get_thread_run _ _ _ Ht)).
  assert (expired (fields k) time x = bool_decide (sleep_expiry t ≤ time ∨ signal_intr t = true)) as Eexp.
  { unfold expired. rewrite Hft, <- Hst. done. }
  destruct (decide (sleep_expiry t ≤ time ∨ signal_intr t = true)) as [Hexp|Hexp].
  - rewrite bool_decide_true in Eexp by done.
    destruct (wake_one k ready pre x suf waits c Hi Hlk Hc) as (k1 & E1 & Hi1 & Hr1 & Ef1).
    destruct (rest_proj _ _ Hr1) as (_ & Ecur1 & Ecnt1 & _).
    assert (∃ c1, threads k1 !! current_thread k1 = Some c1) as [c1 Hc1].
    { rewrite Ecur1. apply (f_equal (lookup (current_thread k))) in Ef1. rewrite fields_lookup in Ef1.
      assert (is_Some (alter mark x (fields k) !! current_thread k)) as Hs.
      { destruct (decide (current_thread k = x)) as [->|Hne]; [rewrite lookup_alter_eq, Hft; eauto|].
        rewrite lookup_alter_ne, fields_lookup, Hc by done. eauto. }
      rewrite <- Ef1 in Hs. by apply fmap_is_Some in Hs. }
    pose proof (ln_sleep _ _ _ _ (sv_linked _ _ _ _ Hi1)) as Hrep1.
    assert (woken (fields k1) time (pre ++ suf) = woken (fields k) time suf ∧
            asleep (fields k1) time (pre ++ suf) = pre ++ asleep (fields k) time suf) as [Ew Ea].
    { unfold woken, asleep. rewrite !filter_app. split.
      - rewrite filter_none.
        + apply list_filter_iff. intros y. by rewrite Ef1, expired_mark.
        + intros y Hy. rewrite Ef1, expired_mark, Hpre by done. done.
      - f_equal; [apply filter_all; intros y Hy; by rewrite Ef1, expired_mark, Hpre|].
        apply list_filter_iff. intros y. by rewrite Ef1, expired_mark. }
    assert (woken (fields k) time (x :: suf) = x :: woken (fields k) time suf) as Ew0
      by (unfold woken; by rewrite filter_cons_True).
    assert (asleep (fields k) time (x :: suf) = asleep (fields k) time suf) as Ea0
      by (unfold asleep; by rewrite filter_cons_False by (by rewrite Eexp)).
    rewrite Ew0 in Hf |- *. rewrite Ea0.
    destruct (IH k1 (ready ++ [x]) [] (pre ++ suf) (leave x waits) c1) as (k2 & E2 & Hi2 & Hr2 & Ef2); try done.
    { by rewrite Ecnt1. }
    { set_solver. }
    { rewrite Ew. simpl in Hf |- *. rewrite !length_app in *. simpl in Hf. lia. }
    rewrite Ew, Ea in *. exists k2. split_and!.
    + rewrite E1. rewrite (M_bind_done _ _ _ _ _ (get_list_run _ _ _ (lr_hdr _ _ _ _ Hrep1))). exact E2.
    + rewrite <- app_assoc in Hi2. exact Hi2.
    + by apply (rest_trans _ k1).
    + rewrite Ef2, Ef1. done.
  - rewrite bool_decide_false in Eexp by done.
    assert (woken (fields k) time (x :: suf) = woken (fields k) time suf) as Ew0
      by (unfold woken; by rewrite filter_cons_False by (by rewrite Eexp)).
    assert (asleep (fields k) time (x :: suf) = x :: asleep (fields k) time suf) as Ea0
      by (unfold asleep; by rewrite filter_cons_True).
    rewrite (M_bind_done _ _ _ _ _ (get_next_run _ _ _ _ Hn)).
    rewrite (sleep_step _ _ _ _ _ _ _ Hrep Hn). rewrite Ew0, Ea0 in *.
    assert (pre ++ x :: suf = (pre ++ [x]) ++ suf) as E by (by rewrite <- app_assoc). rewrite E in Hi, Hf.
    destruct (IH k ready (pre ++ [x]) suf waits c Hi Hlk Hc) as (k' & E' & Hi' & Hr' & Ef').
    { intros y [Hy| ->%list_elem_of_singleton]%elem_of_app; [by apply Hpre|done]. }
    { simpl in Hf. lia. }
    exists k'. rewrite <- app_assoc in Hi'. done.
Qed.

(** Alarms touch neither threads nor lists. *)
Definition alarm_rest (k k' : kern) : Prop :=
  k' = {| k with alarms := alarms k'; num_alarms_installed := num_alarms_installed k'; deferred := deferred k' |}.

Lemma HandleAlarms_loop_run (n : nat) : ∀ i time k,
  length (alarms k) = 256%nat → 0 ≤ i → i + n = MAX_ALARMS →
  ∃ k', HandleAlarms_loop n i time k = Done (tt, k') ∧ alarm_rest k k' ∧ length (alarms k') = 256%nat.
Proof.
  induction n as [|n IH]; intros i time k Hlen Hi Hn; cbn [HandleAlarms_loop].
  { exists k. split_and!; try done. by destruct k. }
  rewrite (M_bind_done _ _ _ _ _ (eq_refl (get k))).
  destruct (decide (0 < num_alarms_installed k)); [|exists k; split_and!; try done; by destruct k].
  unfold MAX_ALARMS in Hn.
  destruct (lookup_lt_is_Some_2 (alarms k) (Z.to_nat i)) as [a Ha]; [lia|].
  rewrite (M_bind_done _ _ k a k) by (unfold aget; rewrite decide_True by done; by rewrite Ha).
  case_decide.
  - set (al := <[Z.to_nat i := {| a with wakeup_time := EXPIRED_ALARM |}]> (alarms k)).
    set (k1 := {| k with alarms := al; num_alarms_installed := num_alarms_installed k - 1;
                         deferred := deferred k ++ [(callback a, arg a)] |}).
    rewrite (M_bind_done _ _ k tt k1).
    2: { unfold aset. rewrite decide_True by lia. done. }
    destruct (IH (i + 1) time k1) as (k' & E & Hr & Hl); [|lia|unfold MAX_ALARMS; lia|].
    { simpl. unfold al. by rewrite length_insert. }
    exists k'. split_and!; try done.
  - rewrite (M_bind_done _ _ k tt k) by done. apply IH; [done|lia|unfold MAX_ALARMS; lia].
Qed.

Lemma HandleSleepWakeups_run others k ready sleep waits c :
  sched_inv k ready sleep waits → scheduler_lock_count k = 0 → current_thread k ≠ NULL →
  threads k !! current_thread k = Some c → length (alarms k) = 256%nat →
  let up := woken (fields k) (system_time k) sleep in
  ∃ k', HandleSleepWakeups others k = dropped others k' ∧
    sched_inv k' (ready ++ up) (asleep (fields k) (system_time k) sleep) (leave_all up waits) ∧
    fields k' = mark_all up (fields k) ∧ sems k' = sems k ∧
    scheduler_lock_count k' = 0 ∧ current_thread k' = current_thread k ∧ length (alarms k') = 256%nat.
Proof.
  intros Hi Hul Hn Hc Hal up. unfold HandleSleepWakeups.
  rewrite (M_bind_done _ _ _ _ _ (eq_refl (GetThread k))), decide_False by done.
  rewrite (M_bind_done _ _ _ _ _ (eq_refl (LockScheduler k))).
  rewrite (M_bind_done _ _ _ _ _ (eq_refl (modify _ _))).
  set (k0 := {| _ with sleep_wakeups_posted := _ |}).
  rewrite (M_bind_done _ _ _ _ _ (eq_refl (gets system_time k0))). unfold HandleAlarms.
  assert (0 < scheduler_lock_count k0) as Hlk0 by (simpl; lia).
  destruct (HandleAlarms_loop_run (Z.to_nat MAX_ALARMS) 0 (system_time k0) k0) as (k1 & E1 & Hr1 & Hal1); try done.
  rewrite (M_bind_done _ _ k0 tt k1).
  2: { rewrite (M_bind_done _ _ _ _ _ (lock_held_run _ Hlk0)). exact E1. }
  rewrite (M_bind_done _ _ _ _ _ (eq_refl (get k1))).
  assert (sched_inv k1 ready sleep waits) as Hi1 by (rewrite Hr1; by apply (inv_ext k)).
  pose proof (ln_sleep _ _ _ _ (sv_linked _ _ _ _ Hi1)) as Hrep.
  rewrite (M_bind_done _ _ _ _ _ (get_list_run _ _ _ (lr_hdr _ _ _ _ Hrep))). cbn [head].
  assert (fields k1 = fields k) as Ef by (by rewrite Hr1).
  destruct (wakeups_loop_run (system_time k0) (wakeups_fuel k1) k1 ready [] sleep waits c)
    as (k2 & E2 & Hi2 & Hr2 & Ef2);
    [exact Hi1|rewrite Hr1; exact Hlk0|rewrite Hr1; exact Hc|intros x Hx; by apply elem_of_nil in Hx| |].
  { unfold wakeups_fuel. pose proof (rep_length _ _ _ _ Hrep) as Hlen.
    assert (length (woken (fields k1) (system_time k0) sleep) ≤ length sleep)%nat as Hw by apply length_filter.
    simpl app. nia. }
  rewrite (M_bind_done _ _ _ _ _ E2). rewrite Ef in *. change (system_time k0) with (system_time k) in *. fold up in Hi2, Ef2.
  destruct (rest_proj _ _ Hr2) as (Es2 & Ec2 & El2 & _).
  exists {| k2 with scheduler_lock_count := 0 |}. split.
  { apply UnlockScheduler_run. rewrite El2, Hr1. simpl. lia. }
  split_and!; try done; [by apply (inv_ext k2)|..].
  - cbn [sems]. by rewrite Es2, Hr1.
  - cbn [current_thread]. by rewrite Ec2, Hr1.
  - cbn [alarms]. by rewrite Hr2.
Qed.

(** ** Switching *)

Lemma field_update k ready sleep waits a t t' :
  sched_inv k ready sleep waits → threads k !! a = Some t → t_next t' = t_next t →
  state t' = state t → waiting_on_semaphore t' = waiting_on_semaphore t →
  sched_inv {| k with threads := <[a := t']> (threads k) |} ready sleep waits.
Proof.
  intros [Hl Hp Hc] Ht Hn Hs Hw. split; [by eapply set_thread_linked| |done].
  rewrite fields_set_thread. apply (placed_upd_same _ _ _ _ _ _ (strip t)); try done.
  by rewrite fields_lookup, Ht.
Qed.

Lemma placed_forget F cur ready sleep waits : placed F cur ready sleep waits → placed F NULL ready sleep waits.
Proof. intros []. by split. Qed.

Lemma placed_requeue F cur ready sleep waits t :
  placed F cur ready sleep waits → F !! cur = Some t → nowhere cur ready sleep waits →
  placed F NULL (ready ++ [cur]) sleep waits.
Proof.
  intros [Hr Hw Hs Hc] Ht (Hxr & Hxs & Hxw). split; [| | |done].
  - intros x [Hx| ->%list_elem_of_singleton]%elem_of_app; [by apply Hr|eauto].
  - intros s w x Hsw Hx. destruct (Hw s w x Hsw Hx) as [H1 H2]. split; [|done].
    intros [H| ->%list_elem_of_singleton]%elem_of_app; [done|by eapply Hxw].
  - intros x Hx. destruct (Hs x Hx) as [H1 H2]. split; [|done].
    intros [H| ->%list_elem_of_singleton]%elem_of_app; done.
Qed.

Lemma placed_switch F cur x rest sleep waits t' :
  placed F cur (x :: rest) sleep waits → x ∉ rest → placed (<[x := t']> F) x rest sleep waits.
Proof.
  intros [Hr Hw Hs Hc] Hx.
  assert (nowhere x rest sleep waits) as Hno.
  { split_and!; [done| |].
    - intros H. destruct (Hs x H) as [H1 _]. set_solver.
    - intros s w Hsw H. destruct (Hw s w x Hsw H) as [H1 _]. set_solver. }
  apply placed_update; [|done]. destruct Hno as (_ & Hxs & Hxw). split.
  - intros y Hy. apply Hr. set_solver.
  - intros s w y Hsw Hy. destruct (Hw s w y Hsw Hy) as [H1 H2]. set_solver.
  - intros y Hy. destruct (Hs y Hy) as [H1 H2]. set_solver.
  - intros _. destruct (Hr x) as [t Ht]; [set_solver|]. eauto.
Qed.

(** The head of the ready list becomes the running thread. *)
Lemma SwitchToNewTask_run k ready sleep waits x :
  linked k (x :: ready) sleep waits → placed (fields k) NULL (x :: ready) sleep waits → counted (sems k) waits →
  ∃ k' t, SwitchToNewTask x k = Done (tt, k') ∧ sched_inv k' ready sleep waits ∧
    current_thread k' = x ∧ threads k' !! x = Some t ∧ state t = THREAD_STATE_RUNNING ∧
    scheduler_lock_count k' = scheduler_lock_count k ∧ alarms k' = alarms k.
Proof.
  intros Hl Hp Hct. destruct (pl_ready _ _ _ _ _ Hp x) as [ft Hft]; [set_solver|].
  destruct (fields_thread k x ft Hft) as (t & Ht & _). unfold SwitchToNewTask.
  rewrite (M_bind_done _ _ _ _ _ (get_thread_run _ _ _ Ht)).
  rewrite (M_bind_done _ _ _ _ _ (set_thread_run k _ _)).
  set (t1 := {| t with state := _ |}). set (k1 := {| k with threads := _ |}).
  assert (linked k1 (x :: ready) sleep waits) as Hl1 by (by eapply set_thread_linked).
  destruct (ThreadListDeleteTop_run k1 ready_list NEXT_INDEX_READY x ready) as (k2 & E2 & Hr2 & Hf2); [apply Hl1|].
  rewrite (M_bind_done _ _ _ _ _ E2). rewrite (M_bind_done _ _ _ _ _ (eq_refl (modify _ _))).
  set (k3 := {| k2 with current_thread := x |}).
  pose proof (frame_same _ _ _ _ _ Hf2) as Hs2.
  assert (threads k1 !! x = Some t1) as Ht1 by (simpl; by rewrite lookup_insert_eq).
  destruct (same_thread _ _ _ _ Hs2 Ht1) as (t2 & Ht2 & Est2).
  unfold UpdateTimesliceExpiry. rewrite (M_bind_done _ _ _ _ _ (eq_refl (GetThread k3))).
  cbn [current_thread k3]. rewrite (M_bind_done _ _ _ _ _ (get_thread_run k3 _ _ Ht2)).
  rewrite (M_bind_done _ _ _ _ _ (eq_refl (GetSystemTimer k3))). rewrite set_thread_run.
  eexists _, _. split; [done|]. split; [|split; [done|split; [simpl; apply lookup_insert_eq|]]].
  - assert (linked k3 ready sleep waits) as Hl3.
    { apply (linked_lock k2); try done. by eapply linked_ready. }
    split; [by eapply set_thread_linked| |].
    + unfold fields. cbn [threads current_thread]. rewrite fmap_insert. change (threads k3) with (threads k2).
      fold (fields k2). destruct (same_proj _ _ Hs2) as (_ & _ & _ & _ & ->).
      unfold k1. rewrite fields_set_thread, insert_insert_eq.
      eapply placed_switch; [done|]. pose proof (lr_nodup _ _ _ _ (ln_ready _ _ _ _ Hl)) as [H _]%NoDup_cons. done.
    + cbn [sems k3]. destruct (same_proj _ _ Hs2) as (-> & _). done.
  - apply (f_equal state) in Est2. simpl in Est2 |- *. split; [done|].
    destruct (same_proj _ _ Hs2) as (_ & _ & -> & _). split; [done|]. by rewrite (proj1 Hs2).
Qed.

(** The accounting on the thread that is being switched out. *)
Lemma switch_out k ready sleep waits yielded o :
  sched_inv k ready sleep waits → current_thread k ≠ NULL → threads k !! current_thread k = Some o →
  ∃ k' o', (UpdatePriority yielded;; UpdateThreadTimeUsed) k = Done (tt, k') ∧
    sched_inv k' ready sleep waits ∧ current_thread k' = current_thread k ∧
    threads k' !! current_thread k = Some o' ∧ state o' = state o ∧
    scheduler_lock_count k' = scheduler_lock_count k ∧ alarms k' = alarms k.
Proof.
  intros Hi Hn Ho. unfold UpdatePriority, UpdateThreadTimeUsed.
  set (o1 := if decide (schedule_policy o ≠ SCHEDULE_POLICY_FIXED) then
               (if decide (GetMinPriorityValueForPolicy (schedule_policy o) ≤ priority o + (if yielded then -1 else 1)
                     ≤ GetMaxPriorityValueForPolicy (schedule_policy o))
                then {| o with priority := priority o + (if yielded then -1 else 1) |} else o) else o).
  set (k1 := {| k with threads := <[current_thread k := o1]> (threads k) |}).
  assert (t_next o1 = t_next o ∧ state o1 = state o ∧ waiting_on_semaphore o1 = waiting_on_semaphore o) as (H1 & H2 & H3).
  { unfold o1. repeat case_decide; done. }
  rewrite (M_bind_done _ _ k tt k1).
  2: { rewrite (M_bind_done _ _ _ _ _ (eq_refl (GetThread k))).
       rewrite (M_bind_done _ _ _ _ _ (get_thread_run _ _ _ Ho)). unfold k1, o1.
       repeat case_decide; try done; mred; do 2 f_equal; rewrite insert_id by done; by destruct k. }
  assert (threads k1 !! current_thread k = Some o1) as Ho1 by (simpl; by rewrite lookup_insert_eq).
  assert (sched_inv k1 ready sleep waits) as Hi1 by (by eapply field_update).
  rewrite (M_bind_done _ _ _ _ _ (eq_refl (GetSystemTimer k1))).
  rewrite (M_bind_done _ _ _ _ _ (eq_refl (gets prev_time k1))).
  rewrite (M_bind_done _ _ _ _ _ (eq_refl (modify _ _))). set (k2 := {| k1 with prev_time := _ |}).
  rewrite (M_bind_done _ _ _ _ _ (eq_refl (GetThread k2))).
  rewrite (M_bind_done _ _ _ _ _ (get_thread_run k2 _ _ Ho1)). rewrite set_thread_run.
  eexists _, _. split; [done|]. split; [|split; [done|split; [simpl; apply lookup_insert_eq|done]]].
  eapply field_update; [by apply (inv_ext k1)|exact Ho1|done..].
Qed.

Lemma ScheduleWithLockHeld_run k ready sleep waits o :
  sched_inv k ready sleep waits → 0 < scheduler_lock_count k → current_thread k ≠ NULL →
  threads k !! current_thread k = Some o →
  (ready = [] ∨ first_of ready = current_thread k) ∧ ScheduleWithLockHeld k = Done (tt, k) ∨
  ∃ x rest k' t, ready = x :: rest ∧ x ≠ current_thread k ∧ ScheduleWithLockHeld k = Done (tt, k') ∧
    current_thread k' = x ∧ threads k' !! x = Some t ∧ state t = THREAD_STATE_RUNNING ∧
    scheduler_lock_count k' = scheduler_lock_count k ∧ alarms k' = alarms k ∧
    sched_inv k' (rest ++ (if decide (state o = THREAD_STATE_RUNNING) then [current_thread k] else [])) sleep waits.
Proof.
  intros Hi Hlk Hn Ho. unfold ScheduleWithLockHeld. rewrite (M_bind_done _ _ _ _ _ (lock_held_run _ Hlk)).
  rewrite (M_bind_done _ _ _ _ _ (eq_refl (GetThread k))).
  pose proof (ln_ready _ _ _ _ (sv_linked _ _ _ _ Hi)) as Hrep.
  rewrite (M_bind_done _ _ _ _ _ (get_list_run _ _ _ (lr_hdr _ _ _ _ Hrep))). cbn [head].
  rewrite decide_False by done.
  destruct ready as [|x rest].
  { left. split; [by left|]. rewrite decide_True by (by right). done. }
  destruct (chain_nonnull _ _ _ _ x (lr_chain _ _ _ _ Hrep)) as [Hx0 _]; [set_solver|].
  change (first_of (x :: rest)) with x.
  destruct (decide (x = current_thread k ∨ x = NULL)) as [Hs|Hs].
  { left. split; [|done]. right. by destruct Hs. }
  right. rewrite (M_bind_done _ _ _ _ _ (get_thread_run _ _ _ Ho)).
  rewrite (M_bind_done _ _ _ _ _ (eq_refl (GetSystemTimer k))).
  set (yielded := bool_decide _).
  destruct (switch_out k (x :: rest) sleep waits yielded o Hi Hn Ho) as (k1 & o1 & E1 & Hi1 & Ec1 & Ho1 & Est1 & El1 & Ea1).
  assert (∃ k2, (if decide (state o1 = THREAD_STATE_RUNNING) then ThreadListInsert ready_list (current_thread k)
                 else mret tt) k1 = Done (tt, k2) ∧
      linked k2 (x :: rest ++ (if decide (state o = THREAD_STATE_RUNNING) then [current_thread k] else [])) sleep waits ∧
      placed (fields k2) NULL (x :: rest ++ (if decide (state o = THREAD_STATE_RUNNING) then [current_thread k] else []))
        sleep waits ∧ sems k2 = sems k1 ∧ scheduler_lock_count k2 = scheduler_lock_count k1 ∧
        alarms k2 = alarms k1)
    as (k2 & E2 & Hl2 & Hp2 & Es2 & El2 & Ea2).
  { rewrite Est1. case_decide as Hrun.
    - rewrite <- Ec1 in Hn, Ho1. rewrite <- Est1 in Hrun.
      pose proof (inv_nowhere _ _ _ _ _ Hi1 Hn Ho1 Hrun) as Hno. rewrite <- Ec1.
      destruct (push_ready k1 (x :: rest) sleep waits (current_thread k1) o1) as (k2 & E & Hl & Hs2);
        [apply Hi1|done|apply Hno|].
      destruct (same_proj _ _ Hs2) as (Es & _ & Elc & _ & Ef). exists k2. split_and!; try done; [|by rewrite (proj1 Hs2)].
      rewrite Ef. eapply (placed_requeue _ _ (x :: rest)); [apply Hi1| |done]. by rewrite fields_lookup, Ho1.
    - exists k1. rewrite app_nil_r. split_and!; try done; [apply Hi1|]. by eapply placed_forget, Hi1. }
  destruct (SwitchToNewTask_run k2 _ sleep waits x Hl2 Hp2) as (k' & t & E' & Hi' & Hc' & Ht' & Hst' & Hlk' & Hal');
    [rewrite Es2; apply Hi1|].
  exists x, rest, k', t. split_and!; try done; [naive_solver| |congruence|congruence].
  apply M_bind_inv in E1 as (u & k1' & E1a & E1b). rewrite (M_bind_done _ _ _ _ _ E1a), (M_bind_done _ _ _ _ _ E1b).
  rewrite (M_bind_done _ _ _ _ _ (get_thread_run _ _ _ Ho1)), (M_bind_done _ _ _ _ _ E2). exact E'.
Qed.

(** ** Sleeping and creating threads *)

Lemma SleepUntil_block others k ready sleep waits until :
  sched_inv k ready sleep waits → can_run k → system_time k ≤ until →
  ∃ k', SleepUntil until others k
        = (others;; cur ← GetThread; t ← get_thread cur;
           mret (if timed_out_due_to_signal t then EINTR else 0)) k' ∧
    sched_inv k' ready (sleep ++ [current_thread k]) waits ∧ scheduler_lock_count k' = 0 ∧
    k' = {| k with threads := threads k'; lists := lists k' |}.
Proof.
  intros Hi [Hul Hsw Hn (t & Ht & Hst)] Hle. unfold SleepUntil.
  rewrite (M_bind_done _ _ _ _ _ (eq_refl (GetSystemTimer k))), decide_False by lia.
  rewrite (M_bind_done _ _ _ _ _ (eq_refl (LockScheduler k))).
  set (k0 := {| k with scheduler_lock_count := _ |}).
  rewrite (M_bind_done _ _ _ _ _ (eq_refl (GetThread k0))). cbn [current_thread k0].
  rewrite (M_bind_done _ _ _ _ _ (get_thread_run k0 _ _ Ht)).
  rewrite (M_bind_done _ _ _ _ _ (set_thread_run k0 _ _)).
  set (t1 := {| t with sleep_expiry := _ |}). set (k1 := {| k0 with threads := _ |}).
  assert (sched_inv k1 ready sleep waits) as Hi1 by (apply (self_update k0 _ _ _ t); try done; by apply (inv_ext k)).
  assert (threads k1 !! current_thread k = Some t1) as Ht1 by (simpl; by rewrite lookup_insert_eq).
  set (t2 := {| t1 with timed_out := false |}).
  set (k2 := {| k1 with threads := <[current_thread k := t2]> (threads k1) |}).
  assert (sched_inv k2 ready sleep waits) as Hi2 by (by apply (self_update k1 _ _ _ t1)).
  assert (threads k2 !! current_thread k = Some t2) as Ht2 by (simpl; by rewrite lookup_insert_eq).
  pose proof (inv_nowhere _ _ _ _ _ Hi2 Hn Ht2 Hst) as Hno.
  destruct (push_sleep k2 ready sleep waits (current_thread k) t2) as (k3 & E3 & Hl3 & Hs3);
    [apply Hi2|done|apply Hno|].
  rewrite (M_bind_done _ _ k1 tt k3).
  2: { unfold QueueForSleep. rewrite (M_bind_done _ _ _ _ _ (lock_held_run k1 ltac:(simpl; lia))).
       rewrite (M_bind_done _ _ _ _ _ (get_thread_run _ _ _ Ht1)).
       rewrite (M_bind_done _ _ _ _ _ (set_thread_run k1 _ _)). exact E3. }
  destruct (same_thread _ _ _ _ Hs3 Ht2) as (t3 & Ht3 & Est3).
  destruct (same_proj _ _ Hs3) as (Es3 & Ec3 & El3 & _ & Ef3). change (current_thread k2) with (current_thread k) in Ec3.
  rewrite <- Ec3 in Ht3. pose proof (f_equal state Est3) as Hq. simpl in Hq.
  set (k4 := {| k3 with
      threads := <[current_thread k3 := {| t3 with state := THREAD_STATE_SLEEPING |}]> (threads k3);
      postponed_task_switch := true |}).
  assert (BlockThread THREAD_STATE_SLEEPING k3 = Done (tt, k4)) as E4.
  { apply BlockThread_run; try done; [rewrite El3; simpl; lia|by rewrite Ec3|congruence]. }
  rewrite (M_bind_done _ _ _ _ _ E4).
  exists {| k4 with scheduler_lock_count := 0; postponed_task_switch := false |}. split_and!.
  - unfold mbind at 1, M_mbind. rewrite UnlockScheduler_run by (cbn [k4 scheduler_lock_count]; rewrite El3; simpl; lia).
    done.
  - apply (inv_ext {| k3 with threads := threads k4 |}); try done. split.
    + by eapply set_thread_linked.
    + unfold fields. cbn [threads current_thread k4]. rewrite fmap_insert. fold (fields k3). rewrite Ef3, Ec3.
      apply placed_sleep; try done. apply Hi2.
    + cbn [sems]. rewrite Es3. apply Hi2.
  - done.
  - cbn. rewrite (proj1 Hs3). cbn. rewrite Hsw, Hul. by destruct k.
Qed.

Lemma linked_new k ready sleep waits a t :
  linked k ready sleep waits → threads k !! a = None → a ≠ NULL → length (t_next t) = 3%nat →
  linked {| k with threads := <[a := t]> (threads k) |} ready sleep waits.
Proof.
  intros [Hr Hs Hw Hd Hv] Ha Hn Hlen.
  assert (∀ j b, b ≠ a → nxt (<[a := t]> (threads k)) j b = nxt (threads k) j b) as Hnx.
  { intros j b Hb. unfold nxt. by rewrite lookup_insert_ne. }
  assert (∀ l idx xs, list_rep k l idx xs →
            list_rep {| k with threads := <[a := t]> (threads k) |} l idx xs) as Hrep.
  { intros l idx xs [H1 H2 H3]. split; [done| |done]. eapply chain_ext; [|done]. intros x Hx.
    apply Hnx. intros ->. destruct (chain_nonnull _ _ _ _ a H2 Hx) as [_ [v Hva]].
    unfold nxt in Hva. by rewrite Ha in Hva. }
  split; try (by apply Hrep); try done.
  - intros sem ws H. destruct (Hw sem ws H) as (H1 & H2). split; [by apply Hrep|done].
  - intros b tb Hb. simpl in Hb. apply lookup_insert_Some in Hb as [[<- <-]|[Hne Hb]].
    + split; [done|]. intros j Hj. unfold nxt. cbn [threads]. rewrite lookup_insert_eq. simpl.
      unfold aget. rewrite decide_True by lia. apply lookup_lt_is_Some_2. lia.
    + destruct (Hv b tb Hb) as [H0 Hj]. split; [done|]. intros j Hjr. cbn [threads]. rewrite Hnx by done. by apply Hj.
Qed.

Lemma placed_join F cur ready sleep waits x t :
  placed F cur ready sleep waits → F !! x = Some t → nowhere x ready sleep waits → x ≠ cur →
  placed F cur (ready ++ [x]) sleep waits.
Proof.
  intros [Hr Hw Hs Hc] Ht (Hxr & Hxs & Hxw) Hne. split.
  - intros y [Hy| ->%list_elem_of_singleton]%elem_of_app; [by apply Hr|eauto].
  - intros s w y Hsw Hy. destruct (Hw s w y Hsw Hy) as [H1 H2]. split; [|done].
    intros [H| ->%list_elem_of_singleton]%elem_of_app; [done|by eapply Hxw].
  - intros y Hy. destruct (Hs y Hy) as [H1 H2]. split; [|done].
    intros [H| ->%list_elem_of_singleton]%elem_of_app; done.
  - intros Hn. destruct (Hc Hn) as (u & Hu & H). exists u. set_solver.
Qed.

Lemma CreateThreadEx_run others k ready sleep waits thr fresh id policy prio :
  sched_inv k ready sleep waits → scheduler_lock_count k = 0 → current_thread k ≠ NULL →
  threads k !! thr = None → thr ≠ NULL → length (t_next fresh) = 3%nat →
  ∃ k', CreateThreadEx thr fresh id policy prio others k = dropped others k' ∧
    sched_inv k' (ready ++ [thr]) sleep waits ∧ scheduler_lock_count k' = 0 ∧
    current_thread k' = current_thread k ∧ alarms k' = alarms k.
Proof.
  intros Hi Hul Hn Hnone Hthr Hlen. unfold CreateThreadEx.
  rewrite (M_bind_done _ _ _ _ _ (eq_refl (GetSystemTimer k))).
  rewrite (M_bind_done _ _ _ _ _ (set_thread_run k _ _)). match goal with |- context [<[thr := ?t0]> (threads k)] => set (t := t0) end.
  set (k1 := {| k with threads := <[thr := t]> (threads k) |}). rewrite (M_bind_done _ _ _ _ _ (eq_refl (LockScheduler k1))).
  set (k2 := {| k1 with scheduler_lock_count := _ |}).
  assert (linked k2 ready sleep waits) as Hl2.
  { apply (linked_lock k1); try done. apply linked_new; try done. apply Hi. }
  assert (fields k !! thr = None) as Hfn by (by rewrite fields_lookup, Hnone).
  destruct Hi as [Hl Hp Hct].
  assert (nowhere thr ready sleep waits) as Hno.
  { destruct Hp as [Hr Hw Hs Hc]. split_and!.
    - intros H. destruct (Hr thr H). congruence.
    - intros H. destruct (Hs thr H) as (_ & u & ? & _). congruence.
    - intros s w Hsw H. destruct (Hw s w thr Hsw H) as (_ & u & ? & _). congruence. }
  assert (threads k2 !! thr = Some t) as Ht2 by (simpl; by rewrite lookup_insert_eq).
  destruct (push_ready k2 ready sleep waits thr t) as (k3 & E3 & Hl3 & Hs3); [done|done|apply Hno|].
  rewrite (M_bind_done _ _ _ _ _ E3). destruct (same_proj _ _ Hs3) as (Es3 & Ec3 & El3 & _ & Ef3).
  exists {| k3 with scheduler_lock_count := 0 |}. split.
  { apply UnlockScheduler_run. rewrite El3. simpl. lia. }
  split_and!; try done.
  - apply (inv_ext k3); try done. split; [done| |by rewrite Es3].
    rewrite Ef3, Ec3. change (fields k2) with (fields k1). unfold k1. rewrite fields_set_thread.
    cbn [k2 k1 current_thread]. eapply placed_join; [by apply placed_update|apply lookup_insert_eq|done|].
    intros ->. destruct (pl_current _ _ _ _ _ Hp Hn) as (u & Hu & _). congruence.
  - cbn [alarms]. by rewrite (proj1 Hs3).
Qed.

(** ** Any sequence of scheduler events *)

Inductive sched_op : Type :=
  | OpAcquire (sem timeout_ms : Z)
  | OpRelease (sem : Z)
  | OpSleep (until : Z)
  | OpCreate (thr : Z) (fresh : thread) (id policy prio : Z)
  | OpTick (nanos : Z) (room : bool)
  | OpWakeups
  | OpSwitch.

(** One event. When the lock is dropped the event ends; what the others do
    next are further events. *)
Definition sched_exec (op : sched_op) : M kern unit :=
  match op with
  | OpAcquire sem timeout_ms => _ ← AcquireSemaphore (mret tt) sem timeout_ms; mret tt
  | OpRelease sem => ReleaseSemaphore (mret tt) sem
  | OpSleep until => _ ← SleepUntil until (mret tt); mret tt
  | OpCreate thr fresh id policy prio => CreateThreadEx thr fresh id policy prio (mret tt)
  | OpTick nanos room => ReceivedTimer nanos room 0
  | OpWakeups => HandleSleepWakeups (mret tt)
  | OpSwitch =>
    modify (λ k, {| k with postponed_task_switch := false |});;
    LockScheduler;; ScheduleWithLockHeld;; UnlockScheduler (mret tt)
  end.

(** When an event may happen: calls are made by a thread that is running, a
    unit is released only if one is taken, a new thread is new memory. *)
Definition sched_guard (op : sched_op) (k : kern) : Prop :=
  match op with
  | OpAcquire sem _ => can_run k ∧ sem ≠ NULL ∧ is_Some (sems k !! sem)
  | OpRelease sem => ∃ s, sems k !! sem = Some s ∧ 0 < current_count s
  | OpSleep _ => can_run k
  | OpCreate thr fresh _ _ _ => threads k !! thr = None ∧ thr ≠ NULL ∧ length (t_next fresh) = 3%nat
  | OpTick _ _ | OpWakeups | OpSwitch => True
  end.

Inductive sched_step (k k' : kern) : Prop :=
  | Step op : sched_guard op k → sched_exec op k = Done (tt, k') → sched_step k k'.

Definition good (k : kern) : Prop :=
  ∃ ready sleep waits, sched_inv k ready sleep waits ∧ scheduler_lock_count k = 0 ∧
    current_thread k ≠ NULL ∧ length (alarms k) = 256%nat.

Lemma dropped_nop k : ∃ k', dropped (mret tt) k = Done (tt, k') ∧
  k' = {| k with postponed_task_switch := false |}.
Proof.
  unfold dropped. destruct (postponed_task_switch k) eqn:E; [by eexists|].
  exists k. split; [done|]. destruct k. simpl in *. by subst.
Qed.

Lemma good_dropped k ready sleep waits :
  sched_inv k ready sleep waits → scheduler_lock_count k = 0 → current_thread k ≠ NULL →
  length (alarms k) = 256%nat → ∃ k', dropped (mret tt) k = Done (tt, k') ∧ good k'.
Proof.
  intros Hi Hl Hn Ha. destruct (dropped_nop k) as (k' & E & ->). eexists. split; [exact E|].
  exists ready, sleep, waits. split_and!; try done. by apply (inv_ext k).
Qed.

Lemma inv_current k ready sleep waits :
  sched_inv k ready sleep waits → current_thread k ≠ NULL → ∃ c, threads k !! current_thread k = Some c.
Proof.
  intros Hi Hn. destruct (pl_current _ _ _ _ _ (sv_placed _ _ _ _ Hi) Hn) as (ft & Hft & _).
  destruct (fields_thread _ _ _ Hft) as (c & Hc & _). eauto.
Qed.

Lemma acquire_result_run k thr tm t :
  threads k !! thr = Some t → ∃ r, acquire_result thr tm k = Done (r, k).
Proof. intros Ht. unfold acquire_result. mred. unfold get_thread. mred. rewrite Ht. eauto. Qed.

Lemma exec_acquire k ready sleep waits sem s tm :
  sched_inv k ready sleep waits → can_run k → length (alarms k) = 256%nat → sem ≠ NULL →
  sems k !! sem = Some s → ∃ k', sched_exec (OpAcquire sem tm) k = Done (tt, k') ∧ good k'.
Proof.
  intros Hi Hcr Hal Hsem Hs. pose proof (cr_current _ Hcr) as Hn.
  destruct (AcquireSemaphore_run (mret tt) k ready sleep waits sem s tm Hi Hcr Hsem Hs)
    as [(_ & k1 & E & _ & Hi1 & Hq & _)|[(_ & _ & k1 & E & _ & Hi1 & Hq & _)|(_ & _ & k1 & ws & Hws & E & _ & _ & Hc & Hi1 & Hq)]];
    destruct Hq as (Hl1 & Hc1 & Ha1); simpl.
  1, 2: exists k1; rewrite (M_bind_done _ _ _ _ _ E); split; [done|];
        exists ready, sleep, waits; split_and!; congruence.
  assert (current_thread k1 ≠ NULL) as Hn1 by congruence.
  destruct (inv_current _ _ _ _ Hi1 Hn1) as [c1 Hct]. rewrite Hc1 in Hct.
  destruct (acquire_result_run k1 (current_thread k) tm c1 Hct) as [r Er].
  exists k1. split; [|by do 3 eexists; split_and!; [exact Hi1|..]; congruence].
  rewrite (M_bind_done _ _ k r k1); [done|]. rewrite E. by rewrite (M_bind_done _ _ k1 tt k1).
Qed.

Lemma exec_sleep k ready sleep waits until :
  sched_inv k ready sleep waits → can_run k → length (alarms k) = 256%nat →
  ∃ k', sched_exec (OpSleep until) k = Done (tt, k') ∧ good k'.
Proof.
  intros Hi Hcr Hal. pose proof (cr_current _ Hcr) as Hn. simpl.
  destruct (decide (system_time k ≤ until)) as [Hle|Hgt].
  - destruct (SleepUntil_block (mret tt) k ready sleep waits until Hi Hcr Hle) as (k1 & E & Hi1 & Hl1 & Hk1).
    assert (current_thread k1 ≠ NULL) as Hn1 by (by rewrite Hk1).
    destruct (inv_current _ _ _ _ Hi1 Hn1) as [c1 Hc1].
    exists k1. split.
    + rewrite (M_bind_done _ _ k (if timed_out_due_to_signal c1 then EINTR else 0) k1); [done|]. rewrite E.
      rewrite (M_bind_done _ _ k1 tt k1) by done. rewrite (M_bind_done _ _ _ _ _ (eq_refl (GetThread k1))).
      by rewrite (M_bind_done _ _ _ _ _ (get_thread_run _ _ _ Hc1)).
    + exists ready, (sleep ++ [current_thread k]), waits. split_and!; try done. by rewrite Hk1.
  - exists k. split; [|exists ready, sleep, waits; split_and!; try done; apply Hcr].
    rewrite (M_bind_done _ _ k 0 k); [done|]. unfold SleepUntil.
    rewrite (M_bind_done _ _ _ _ _ (eq_refl (GetSystemTimer k))). by rewrite decide_True by lia.
Qed.

Lemma exec_tick k ready sleep waits nanos room c :
  sched_inv k ready sleep waits → scheduler_lock_count k = 0 → current_thread k ≠ NULL →
  length (alarms k) = 256%nat → threads k !! current_thread k = Some c →
  ∃ k', sched_exec (OpTick nanos room) k = Done (tt, k') ∧ good k'.
Proof.
  intros Hi Hul Hn Hal Hc. simpl. unfold ReceivedTimer.
  rewrite (M_bind_done _ _ _ _ _ (eq_refl (modify _ _))). rewrite (M_bind_done _ _ _ _ _ (eq_refl (get _))).
  set (k1 := {| k with system_time := _ |}). change (current_thread k1) with (current_thread k).
  rewrite decide_False by done.
  assert (∃ b, (t ← get_thread (current_thread k);
     if decide (timeslice_expiry t ≠ 0 ∧ timeslice_expiry t ≤ system_time k1)
     then PostponeScheduleUntilStandardIrql else mret tt) k1
     = Done (tt, {| k1 with postponed_task_switch := b |})) as [b Eb].
  { rewrite (M_bind_done _ _ _ _ _ (get_thread_run k1 _ _ Hc)).
    case_decide; [by exists true|]. exists (postponed_task_switch k1). done. }
  rewrite (M_bind_done _ _ _ _ _ Eb).
  destruct room; (eexists; split; [done|]); exists ready, sleep, waits; split_and!; try done; by apply (inv_ext k).
Qed.

Lemma exec_switch k ready sleep waits c :
  sched_inv k ready sleep waits → scheduler_lock_count k = 0 → current_thread k ≠ NULL →
  length (alarms k) = 256%nat → threads k !! current_thread k = Some c →
  ∃ k', sched_exec OpSwitch k = Done (tt, k') ∧ good k'.
Proof.
  intros Hi Hul Hn Hal Hc. simpl. rewrite (M_bind_done _ _ _ _ _ (eq_refl (modify _ _))).
  rewrite (M_bind_done _ _ _ _ _ (eq_refl (LockScheduler _))).
  match goal with |- context [_ ?k1] => match type of k1 with kern => set (k0 := k1) end end.
  assert (sched_inv k0 ready sleep waits) as Hi0 by (by apply (inv_ext k)).
  assert (scheduler_lock_count k0 = 1) as Hl0 by (simpl; lia).
  assert (∃ k1 r s w, ScheduleWithLockHeld k0 = Done (tt, k1) ∧ sched_inv k1 r s w ∧
            scheduler_lock_count k1 = 1 ∧ current_thread k1 ≠ NULL ∧ alarms k1 = alarms k) as
    (k1 & r & s & w & E1 & Hi1 & Hl1 & Hn1 & Ha1).
  { destruct (ScheduleWithLockHeld_run k0 ready sleep waits c) as
      [[_ E]|(x & rest & k1 & t & -> & _ & E & Hx & _ & _ & Hlk & Ha & Hi1)]; try done; [lia| |].
    - exists k0, ready, sleep, waits. done.
    - exists k1. do 3 eexists. split_and!; [exact E|exact Hi1|congruence| |done].
      rewrite Hx. pose proof (ln_ready _ _ _ _ (sv_linked _ _ _ _ Hi)) as Hrep.
      destruct (chain_nonnull _ _ _ _ x (lr_chain _ _ _ _ Hrep)) as [? _]; [set_solver|done]. }
  rewrite (M_bind_done _ _ _ _ _ E1). rewrite UnlockScheduler_run by done.
  apply (good_dropped _ r s w); try done; [by apply (inv_ext k1)|]. cbn [alarms]. by rewrite Ha1.
Qed.

(** Every event that may happen returns, and leaves a good state. *)
Lemma sched_exec_good op k : good k → sched_guard op k → ∃ k', sched_exec op k = Done (tt, k') ∧ good k'.
Proof.
  intros (ready & sleep & waits & Hi & Hul & Hn & Hal) Hg.
  destruct (inv_current _ _ _ _ Hi Hn) as [c Hc].
  destruct op as [sem tm|sem|until|thr fresh id policy prio|nanos room| |].
  - destruct Hg as (Hcr & Hsem & s & Hs). by eapply exec_acquire.
  - destruct Hg as (s & Hs & Hpos).
    destruct (counted_sem _ _ _ _ (sv_counted _ _ _ _ Hi) Hs) as (ws & Hws & _).
    destruct (ReleaseSemaphore_run (mret tt) k ready sleep waits sem s ws c Hi Hul Hc Hs Hws) as [_ Hrel].
    destruct (Hrel Hpos) as (k1 & E & (Hl1 & Hc1 & Ha1) & Hres). simpl. rewrite E.
    destruct ws as [|x ws]; destruct Hres as [_ Hi1]; apply (good_dropped k1 _ _ _ Hi1); congruence.
  - by eapply exec_sleep.
  - destruct Hg as (H1 & H2 & H3).
    destruct (CreateThreadEx_run (mret tt) k ready sleep waits thr fresh id policy prio) as
      (k1 & E & Hi1 & Hl1 & Hc1 & Ha1); try done. simpl. rewrite E.
    apply (good_dropped k1 _ _ _ Hi1); congruence.
  - by eapply exec_tick.
  - destruct (HandleSleepWakeups_run (mret tt) k ready sleep waits c) as (k1 & E & Hi1 & _ & _ & Hl1 & Hc1 & Ha1);
      try done. simpl. rewrite E. apply (good_dropped k1 _ _ _ Hi1); congruence.
  - by eapply exec_switch.
Qed.
