(* ===== verification/SchedulerTheorems.v ===== *)
(** * What the thread subsystem guarantees

    The theorems about blocking, waking, timeouts and switching, and their
    consequences for every sequence of scheduler events. *)

From S2P Require Import Prelude ThreadList Scheduler Timer Semaphore SchedulerInv SchedulerSteps.

Lemma good_reachable k k' : good k → rtc sched_step k k' → good k'.
Proof.
  intros Hg Hr. induction Hr as [|k k1 k2 [op Hop E] _ IH]; [done|]. apply IH.
  destruct (sched_exec_good op k Hg Hop) as (k3 & E3 & Hg3). rewrite E in E3. by injection E3 as <-.
Qed.

(** C1: From a well-formed state, whatever sequence of events happens
    (acquiring, releasing, sleeping, thread creation, timer ticks, wake-ups, task
    switches), the state stays well formed and no further event can panic,
    fault, or loop: every event that may happen returns. *)
Theorem scheduler_never_panics k k' :
  good k → rtc sched_step k k' →
  good k' ∧ ∀ op, sched_guard op k' → ∃ k'', sched_exec op k' = Done (tt, k'') ∧ good k''.
Proof.
  intros Hg Hr. pose proof (good_reachable _ _ Hg Hr) as Hg'.
  split; [done|]. intros op Hop. by apply sched_exec_good.
Qed.

(** C3: No wake-up is lost: in every reachable state a semaphore's count is
    between 0 and its maximum, and threads queue on it only while all its
    units are taken. *)
Theorem no_lost_wakeup k k' sem s h :
  good k → rtc sched_step k k' → sems k' !! sem = Some s → lists k' !! sem = Some h →
  0 ≤ current_count s ≤ max_count s ∧ (head h ≠ NULL → current_count s = max_count s).
Proof.
  intros Hg Hr Hs Hh. destruct (good_reachable _ _ Hg Hr) as (ready & sleep & waits & Hi & _).
  destruct (counted_sem _ _ _ _ (sv_counted _ _ _ _ Hi) Hs) as (ws & Hws & H1 & _ & H2).
  split; [done|]. intros Hne. apply H2. intros ->.
  destruct (ln_waits _ _ _ _ (sv_linked _ _ _ _ Hi) _ _ Hws) as ([Hh' _ _] & _). rewrite Hh in Hh'.
  injection Hh' as ->. by apply Hne.
Qed.

(** [AcquireSemaphore] by a running thread. If a unit is free it is taken
    at once and the call returns 0. Otherwise a call with timeout 0 returns
    EAGAIN and changes no list and no count; any other call puts the thread at
    the end of the semaphore's queue (and on the sleep list if it has a
    timeout), and the call's answer is decided only after the others ran: 0, or
    ETIMEDOUT if the thread was marked as timed out. The scheduler's invariant
    holds in every case. *)
Theorem AcquireSemaphore_correct others k ready sleep waits sem s timeout_ms :
  sched_inv k ready sleep waits → can_run k → sem ≠ NULL → sems k !! sem = Some s →
  let thr := current_thread k in
  (current_count s < max_count s ∧ ∃ k', AcquireSemaphore others sem timeout_ms k = Done (0, k') ∧
     sems k' = <[sem := {| s with current_count := current_count s + 1 |}]> (sems k) ∧
     sched_inv k' ready sleep waits) ∨
  (current_count s = max_count s ∧ timeout_ms = 0 ∧
     ∃ k', AcquireSemaphore others sem timeout_ms k = Done (EAGAIN, k') ∧ sems k' = sems k ∧
     sched_inv k' ready sleep waits) ∨
  (current_count s = max_count s ∧ timeout_ms ≠ 0 ∧ ∃ k' ws, waits !! sem = Some ws ∧
     AcquireSemaphore others sem timeout_ms k = (others;; acquire_result thr timeout_ms) k' ∧
     scheduler_lock_count k' = 0 ∧ sems k' = sems k ∧ current_thread k' = thr ∧
     sched_inv k' ready (if decide (timeout_ms = -1) then sleep else sleep ++ [thr])
       (<[sem := ws ++ [thr]]> waits)).
Proof.
  intros Hi Hcr Hsem Hs thr.
  destruct (AcquireSemaphore_run others k ready sleep waits sem s timeout_ms Hi Hcr Hsem Hs)
    as [(H & k' & ? & ? & ? & _)|[(H & H0 & k' & ? & ? & ? & _)|(H & H0 & k' & ws & ? & ? & ? & ? & ? & ? & _)]];
    [left; eauto|right; left; eauto 10|right; right].
  split_and!; try done. exists k', ws. done.
Qed.

(** [ReleaseSemaphore] with a unit taken. If no thread waits, the count
    goes down by one and nothing else changes. Otherwise the first thread in
    the queue is handed the unit directly: the count stays, the thread leaves
    the queue (and the sleep list) and is made ready last, before the lock is
    dropped. Releasing a semaphore no unit of which is taken stops at the
    assertion. *)
Theorem ReleaseSemaphore_correct others k ready sleep waits sem s ws c :
  sched_inv k ready sleep waits → scheduler_lock_count k = 0 →
  threads k !! current_thread k = Some c →
  sems k !! sem = Some s → waits !! sem = Some ws →
  (current_count s = 0 → ReleaseSemaphore others sem k = Panicked PANIC_ASSERTION_FAILURE) ∧
  (0 < current_count s → ∃ k', ReleaseSemaphore others sem k = dropped others k' ∧
     scheduler_lock_count k' = 0 ∧
     match ws with
     | [] => sems k' = <[sem := {| s with current_count := current_count s - 1 |}]> (sems k) ∧
             sched_inv k' ready sleep waits
     | x :: ws => sems k' = sems k ∧ sched_inv k' (ready ++ [x]) (without x sleep) (<[sem := ws]> waits)
     end).
Proof.
  intros Hi Hul Hc Hs Hw.
  destruct (ReleaseSemaphore_run others k ready sleep waits sem s ws c Hi Hul Hc Hs Hw) as [H1 H2].
  split; [done|]. intros Hpos. destruct (H2 Hpos) as (k' & ? & (? & _) & ?). by exists k'.
Qed.

(** C33: [HandleSleepWakeups] always terminates and wakes exactly the
    sleepers whose time has come or that were sent a signal, in the order they
    went to sleep: they are marked as timed out, leave the sleep list and the
    queue of any semaphore they waited on, and become ready; everybody else
    stays where they were. *)
Theorem HandleSleepWakeups_correct others k ready sleep waits c :
  sched_inv k ready sleep waits → scheduler_lock_count k = 0 → current_thread k ≠ NULL →
  threads k !! current_thread k = Some c → length (alarms k) = 256%nat →
  let up := woken (fields k) (system_time k) sleep in
  ∃ k', HandleSleepWakeups others k = dropped others k' ∧ scheduler_lock_count k' = 0 ∧
    sched_inv k' (ready ++ up) (asleep (fields k) (system_time k) sleep) (leave_all up waits) ∧
    fields k' = mark_all up (fields k) ∧ sems k' = sems k ∧ current_thread k' = current_thread k.
Proof.
  intros Hi Hul Hn Hc Hal up.
  destruct (HandleSleepWakeups_run others k ready sleep waits c Hi Hul Hn Hc Hal)
    as (k' & ? & ? & ? & ? & ? & ? & _). by exists k'.
Qed.

(** A task switch with the lock held. With nobody else ready nothing
    happens. Otherwise the first ready thread becomes the running one, and the
    thread that ran goes to the end of the ready list if it was still running,
    and is left on the lists it put itself on if it had blocked. The
    scheduler's invariant holds after the switch. *)
Theorem ScheduleWithLockHeld_correct k ready sleep waits o :
  sched_inv k ready sleep waits → 0 < scheduler_lock_count k → current_thread k ≠ NULL →
  threads k !! current_thread k = Some o →
  (ready = [] ∨ first_of ready = current_thread k) ∧ ScheduleWithLockHeld k = Done (tt, k) ∨
  ∃ x rest k' t, ready = x :: rest ∧ x ≠ current_thread k ∧ ScheduleWithLockHeld k = Done (tt, k') ∧
    current_thread k' = x ∧ threads k' !! x = Some t ∧ state t = THREAD_STATE_RUNNING ∧
    scheduler_lock_count k' = scheduler_lock_count k ∧
    sched_inv k' (rest ++ (if decide (state o = THREAD_STATE_RUNNING) then [current_thread k] else [])) sleep waits.
Proof.
  intros Hi Hlk Hn Ho.
  destruct (ScheduleWithLockHeld_run k ready sleep waits o Hi Hlk Hn Ho)
    as [H|(x & rest & k' & t & ? & ? & ? & ? & ? & ? & ? & _ & ?)]; [by left|right].
  by exists x, rest, k', t.
Qed.

(** [n] task switches in a row. *)
Fixpoint switches (n : nat) : M kern unit :=
  match n with O => mret tt | S n => sched_exec OpSwitch;; switches n end.

(** One switch away from a running thread. *)
Lemma switch_once k x rest sleep waits c :
  sched_inv k (x :: rest) sleep waits → scheduler_lock_count k = 0 → current_thread k ≠ NULL →
  threads k !! current_thread k = Some c → state c = THREAD_STATE_RUNNING →
  ∃ k' t, sched_exec OpSwitch k = Done (tt, k') ∧ current_thread k' = x ∧ threads k' !! x = Some t ∧
    state t = THREAD_STATE_RUNNING ∧ scheduler_lock_count k' = 0 ∧
    sched_inv k' (rest ++ [current_thread k]) sleep waits.
Proof.
  intros Hi Hul Hn Hc Hst. cbn [sched_exec].
  rewrite (M_bind_done _ _ _ _ _ (eq_refl (modify _ _))).
  rewrite (M_bind_done _ _ _ _ _ (eq_refl (LockScheduler _))).
  match goal with |- context [_ ?k1] => match type of k1 with kern => set (k0 := k1) end end.
  assert (sched_inv k0 (x :: rest) sleep waits) as Hi0 by (by apply (inv_ext k)).
  destruct (ScheduleWithLockHeld_run k0 (x :: rest) sleep waits c) as
    [[Hbad _]|(x' & rest' & k1 & t & [= <- <-] & _ & E & Hx & Ht & Htst & Hlk & _ & Hi1)]; try done; [simpl; lia|..].
  { exfalso. pose proof (inv_nowhere _ _ _ _ _ Hi0 Hn Hc Hst) as (Hno & _). apply Hno.
    destruct Hbad as [?|Hbad]; [done|]. change (first_of (x :: rest)) with x in Hbad. rewrite <- Hbad. set_solver. }
  rewrite (M_bind_done _ _ _ _ _ E). rewrite UnlockScheduler_run by (rewrite Hlk; simpl; lia).
  destruct (dropped_nop {| k1 with scheduler_lock_count := 0 |}) as (k' & E' & ->). rewrite E'.
  rewrite decide_True in Hi1 by done.
  eexists _, t. split; [done|]. split_and!; try done. by apply (inv_ext k1).
Qed.

(** C32: Scheduling is round robin, whatever the priorities of the threads: if the
    running thread and its successors only yield, a ready thread with [n] threads ahead
    of it runs after [n + 1] switches. The idle thread is on the ready list like any
    other, so this holds of it too. *)
Theorem round_robin_progress k ahead x behind sleep waits c :
  sched_inv k (ahead ++ x :: behind) sleep waits → scheduler_lock_count k = 0 →
  current_thread k ≠ NULL → threads k !! current_thread k = Some c → state c = THREAD_STATE_RUNNING →
  ∃ k', switches (S (length ahead)) k = Done (tt, k') ∧ current_thread k' = x.
Proof.
  revert k behind c. induction ahead as [|y ahead IH]; intros k behind c Hi Hul Hn Hc Hst.
  - destruct (switch_once k x behind sleep waits c) as (k' & t & E & Hx & _); try done.
    exists k'. cbn [length switches]. by rewrite (M_bind_done _ _ _ _ _ E).
  - destruct (switch_once k y (ahead ++ x :: behind) sleep waits c) as (k1 & t & E & Hy & Ht & Htst & Hl1 & Hi1); try done.
    rewrite <- app_assoc in Hi1. simpl in Hi1.
    assert (current_thread k1 ≠ NULL) as Hn1.
    { rewrite Hy. pose proof (ln_ready _ _ _ _ (sv_linked _ _ _ _ Hi)) as Hrep.
      destruct (chain_nonnull _ _ _ _ y (lr_chain _ _ _ _ Hrep)) as [? _]; [set_solver|done]. }
    destruct (IH k1 (behind ++ [current_thread k]) t) as (k' & E' & Hx); try done; [by rewrite Hy|].
    exists k'. split; [|done]. cbn [length]. change (switches (S (S (length ahead))))
      with (sched_exec OpSwitch;; switches (S (length ahead))). by rewrite (M_bind_done _ _ _ _ _ E).
Qed.

(** ** Thread lists as sequences *)

Inductive tl_op : Type := TlInsert (x : Z) | TlInsertAtFront (x : Z) | TlDelete (x : Z) | TlDeleteTop.

Definition tl_exec (l : Z) (op : tl_op) : M kern (option Z) :=
  match op with
  | TlInsert x => ThreadListInsert l x;; mret None
  | TlInsertAtFront x => ThreadListInsertAtFront l x;; mret None
  | TlDelete x => ThreadListDelete l x;; mret None
  | TlDeleteTop => x ← ThreadListDeleteTop l; mret (Some x)
  end.

(** The same operations on a plain sequence; [None] where the caller breaks the
    contract. *)
Definition tl_spec (op : tl_op) (xs : list Z) : option (option Z * list Z) :=
  match op, xs with
  | TlInsert x, _ => if decide (x ∈ xs) then None else Some (None, xs ++ [x])
  | TlInsertAtFront x, _ => if decide (x ∈ xs) then None else Some (None, x :: xs)
  | TlDelete x, _ => if decide (x ∈ xs) then Some (None, without x xs) else None
  | TlDeleteTop, [] => None
  | TlDeleteTop, x :: xs => Some (Some x, xs)
  end.

Fixpoint tl_exec_all (l : Z) (ops : list tl_op) : M kern (list (option Z)) :=
  match ops with
  | [] => mret []
  | op :: ops => r ← tl_exec l op; rs ← tl_exec_all l ops; mret (r :: rs)
  end.
Fixpoint tl_spec_all (ops : list tl_op) (xs : list Z) : option (list (option Z) * list Z) :=
  match ops with
  | [] => Some ([], xs)
  | op :: ops => '(r, xs) ← tl_spec op xs; '(rs, xs) ← tl_spec_all ops xs; Some (r :: rs, xs)
  end.

Definition tl_thread (op : tl_op) : option Z :=
  match op with TlInsert x | TlInsertAtFront x => Some x | _ => None end.

Lemma tl_exec_refines k l idx xs op r xs' :
  list_rep k l idx xs → tl_spec op xs = Some (r, xs') →
  (∀ x, tl_thread op = Some x → x ≠ NULL ∧ is_Some (nxt (threads k) idx x)) →
  ∃ k' X, tl_exec l op k = Done (r, k') ∧ list_rep k' l idx xs' ∧ list_frame k k' l idx X.
Proof.
  intros Hr Hspec Hv. destruct op as [x|x|x|]; cbn [tl_spec tl_exec] in *.
  - case_decide; [done|]. injection Hspec as <- <-. destruct (Hv x eq_refl).
    destruct (ThreadListInsert_run k l idx xs x) as (k' & E & Hr' & Hf); try done.
    exists k', (x :: xs). by rewrite (M_bind_done _ _ _ _ _ E).
  - case_decide; [done|]. injection Hspec as <- <-. destruct (Hv x eq_refl).
    destruct (ThreadListInsertAtFront_run k l idx xs x) as (k' & E & Hr' & Hf); try done.
    exists k', (x :: xs). by rewrite (M_bind_done _ _ _ _ _ E).
  - case_decide as Hx; [|done]. injection Hspec as <- <-. apply in_split in Hx as (l1 & l2 & ->).
    destruct (ThreadListDelete_run k l idx l1 x l2) as (k' & E & Hr' & Hf); try done.
    exists k', (l1 ++ x :: l2). rewrite (M_bind_done _ _ _ _ _ E), without_split by apply Hr. done.
  - destruct xs as [|x xs]; [done|]. injection Hspec as <- <-.
    destruct (ThreadListDeleteTop_run k l idx x xs) as (k' & E & Hr' & Hf); try done.
    exists k', (x :: xs). by rewrite (M_bind_done _ _ _ _ _ E).
Qed.

(** Any sequence of list calls that keeps to the contract (insert a thread
    only if it is absent, delete only a member, take the top only of a
    non-empty list) returns the same answers as on a plain sequence of threads
    and leaves the list representing that sequence; nothing but the list's own
    header and pointers of that kind changes. *)
Theorem thread_list_refines_sequence l idx ops : ∀ k xs rs xs',
  list_rep k l idx xs → tl_spec_all ops xs = Some (rs, xs') →
  (∀ op x, op ∈ ops → tl_thread op = Some x → x ≠ NULL ∧ is_Some (nxt (threads k) idx x)) →
  ∃ k' X, tl_exec_all l ops k = Done (rs, k') ∧ list_rep k' l idx xs' ∧ list_frame k k' l idx X.
Proof.
  induction ops as [|op ops IH]; intros k xs rs xs' Hr Hspec Hv; simpl in Hspec.
  { injection Hspec as <- <-. exists k, []. split_and!; try done. apply list_frame_refl. }
  destruct (tl_spec op xs) as [[r xs1]|] eqn:E1; [|done]. simpl in Hspec.
  destruct (tl_spec_all ops xs1) as [[rs1 xs2]|] eqn:E2; [|done]. injection Hspec as <- <-.
  destruct (tl_exec_refines k l idx xs op r xs1 Hr E1) as (k1 & X & Ek & Hr1 & Hf1).
  { intros x Hx. apply (Hv op); [set_solver|done]. }
  destruct (IH k1 xs1 rs1 xs2 Hr1 E2) as (k' & Y & Ek' & Hr' & Hf').
  { intros op' x Hop Hx. destruct (Hv op' x) as [H0 Hs]; [set_solver|done|]. split; [done|].
    by apply (lf_some _ _ _ _ _ Hf1). }
  exists k', (X ++ Y). split_and!; [|done|by eapply list_frame_trans].
  cbn [tl_exec_all]. by rewrite (M_bind_done _ _ _ _ _ Ek), (M_bind_done _ _ _ _ _ Ek').
Qed.

(** ** Priorities *)

(** [SetThreadPriority] refuses a priority outside -1..255 or an unknown
    policy without touching the thread; otherwise the thread's priority becomes
    the given one clamped to the range of the given policy (0..100 when the
    policy is left alone), even if -1 was given for it. *)
Theorem SetThreadPriority_clamps k thr t policy prio :
  threads k !! thr = Some t →
  let valid := -1 ≤ prio ≤ 255 ∧ -1 ≤ policy ≤ 3 in
  (¬ valid → SetThreadPriority thr policy prio k = Done (EINVAL, k)) ∧
  (valid → ∃ t', SetThreadPriority thr policy prio k
                 = Done (0, {| k with threads := <[thr := t']> (threads k) |}) ∧
     priority t' = Z.min (GetMaxPriorityValueForPolicy policy) (Z.max (GetMinPriorityValueForPolicy policy) prio) ∧
     0 ≤ priority t' ≤ 255 ∧
     schedule_policy t' = (if decide (policy = -1) then schedule_policy t else policy)).
Proof.
  intros Ht valid. unfold SetThreadPriority, valid. split.
  - intros Hv. case_decide; [done|]. case_decide as H2; [done|]. exfalso. apply Hv.
    unfold SCHEDULE_POLICY_FIXED, SCHEDULE_POLICY_USER_LOWER, SCHEDULE_POLICY_USER_NORMAL,
      SCHEDULE_POLICY_USER_HIGHER in H2. lia.
  - intros [Hp Hpol]. rewrite decide_False by lia. rewrite decide_False.
    2: { unfold SCHEDULE_POLICY_FIXED, SCHEDULE_POLICY_USER_LOWER, SCHEDULE_POLICY_USER_NORMAL,
           SCHEDULE_POLICY_USER_HIGHER. lia. }
    rewrite (M_bind_done _ _ _ _ _ (get_thread_run _ _ _ Ht)).
    rewrite (M_bind_done _ _ _ _ _ (set_thread_run k _ _)). eexists. split; [done|].
    assert (0 ≤ GetMinPriorityValueForPolicy policy ≤ GetMaxPriorityValueForPolicy policy ∧
            GetMaxPriorityValueForPolicy policy ≤ 255) as Hr.
    { unfold GetMaxPriorityValueForPolicy, GetMinPriorityValueForPolicy, SCHEDULE_POLICY_FIXED,
        SCHEDULE_POLICY_USER_LOWER, SCHEDULE_POLICY_USER_NORMAL, SCHEDULE_POLICY_USER_HIGHER.
      repeat case_decide; lia. }
    set (mn := GetMinPriorityValueForPolicy policy) in *. set (mx := GetMaxPriorityValueForPolicy policy) in *.
    destruct (decide (prio < mn)), (decide (mx < _)); (rewrite decide_True by lia);
      destruct (decide (policy ≠ -1)), (decide (policy = -1)); simpl; split_and!; (done || lia).
Qed.

(** -1 for "leave the priority alone" makes the thread the most urgent one. *)
Lemma SetThreadPriority_minus_one k thr t :
  threads k !! thr = Some t →
  SetThreadPriority thr (-1) (-1) k
  = Done (0, {| k with threads := <[thr := {| t with priority := 0 |}]> (threads k) |}).
Proof.
  intros Ht. unfold SetThreadPriority. simpl. rewrite (M_bind_done _ _ _ _ _ (get_thread_run _ _ _ Ht)). done.
Qed.

(** ** Concrete states: thread 10 runs, thread 11 is ready, the mutex at
    address 100 is taken. *)
Definition plain_thread (id st : Z) : thread :=
  Thread [0; 0; 0] id st 0 30 0 false false false false 0 false 0 0 0 (-1) 0 0 0 0.
Definition kern0 : kern :=
  Kern {[ 10 := plain_thread 0 0; 11 := plain_thread 1 1 ]}
    {[ 1 := ThreadListHdr 11 11 0; 2 := ThreadListHdr 0 0 1; 100 := ThreadListHdr 0 0 2 ]}
    {[ 100 := Semaphore 1 1 ]} 10 false 0 0 0 1000 0 (replicate 256 (Alarm 0 0 0)) 0 [].
Definition waits0 : gmap Z (list Z) := {[ 100 := [] ]}.

Lemma waits0_lookup sem ws : waits0 !! sem = Some ws → sem = 100 ∧ ws = [].
Proof. intros H. unfold waits0 in H. by apply lookup_singleton_Some in H as [<- <-]. Qed.

Lemma kern0_inv : sched_inv kern0 [11] [] waits0.
Proof.
  split.
  - split.
    + split; [reflexivity| |apply NoDup_singleton]. simpl. split_and!; try done. by exists 0.
    + by split; [reflexivity| |apply NoDup_nil_2].
    + intros sem ws [-> ->]%waits0_lookup. split_and!; try done.
      by split; [reflexivity| |apply NoDup_nil_2].
    + intros s1 s2 w1 w2 x [-> ->]%waits0_lookup [-> ->]%waits0_lookup. done.
    + intros a t Ha. cbn [kern0 threads] in *.
      apply lookup_insert_Some in Ha as [[<- <-]|[_ [<- <-]%lookup_singleton_Some]]; (split; [done|]);
        intros j Hj; (assert (j = 0 ∨ j = 1 ∨ j = 2) as [->|[->| ->]] by lia); by eexists.
  - split.
    + intros x ->%list_elem_of_singleton. by eexists.
    + intros sem ws x [-> ->]%waits0_lookup. set_solver.
    + set_solver.
    + intros _. eexists. split; [reflexivity|]. set_solver.
  - split.
    + intros sem. unfold waits0. cbn [kern0 sems]. rewrite !lookup_singleton_is_Some. done.
    + intros sem s ws Hs [-> ->]%waits0_lookup. cbn [kern0 sems] in Hs.
      apply lookup_singleton_Some in Hs as [_ <-]. simpl. split_and!; (lia || done).
Qed.

Lemma kern0_good : good kern0.
Proof. exists [11], [], waits0. split_and!; [apply kern0_inv|done..]. Qed.
Lemma kern0_can_run : can_run kern0.
Proof. split; try done. by eexists. Qed.

Definition kern1 : kern :=
  match sched_exec (OpAcquire 100 5) kern0 with Done (_, k) => k | _ => kern0 end.
Lemma kern0_step : sched_step kern0 kern1.
Proof.
  apply (Step _ _ (OpAcquire 100 5)); [|vm_compute; reflexivity].
  split_and!; [apply kern0_can_run|done|by eexists].
Qed.

Lemma scheduler_never_panics_witness :
  good kern1 ∧ ∀ op, sched_guard op kern1 → ∃ k'', sched_exec op kern1 = Done (tt, k'') ∧ good k''.
Proof. apply (scheduler_never_panics kern0 kern1); [apply kern0_good|]. apply rtc_once, kern0_step. Defined.

Lemma no_lost_wakeup_witness :
  0 ≤ current_count (Semaphore 1 1) ≤ max_count (Semaphore 1 1) ∧
  (head (ThreadListHdr 10 10 2) ≠ NULL → current_count (Semaphore 1 1) = max_count (Semaphore 1 1)).
Proof.
  apply (no_lost_wakeup kern0 kern1 100); [apply kern0_good|apply rtc_once, kern0_step|by vm_compute|by vm_compute].
Defined.

Lemma AcquireSemaphore_correct_witness :
  (current_count (Semaphore 1 1) < max_count (Semaphore 1 1) ∧
     ∃ k', AcquireSemaphore (mret tt) 100 (-1) kern0 = Done (0, k') ∧
     sems k' = <[100 := Semaphore 1 2]> (sems kern0) ∧ sched_inv k' [11] [] waits0) ∨
  (current_count (Semaphore 1 1) = max_count (Semaphore 1 1) ∧ -1 = 0 ∧
     ∃ k', AcquireSemaphore (mret tt) 100 (-1) kern0 = Done (EAGAIN, k') ∧ sems k' = sems kern0 ∧
     sched_inv k' [11] [] waits0) ∨
  (current_count (Semaphore 1 1) = max_count (Semaphore 1 1) ∧ -1 ≠ 0 ∧ ∃ k' ws, waits0 !! 100 = Some ws ∧
     AcquireSemaphore (mret tt) 100 (-1) kern0 = (mret tt;; acquire_result 10 (-1)) k' ∧
     scheduler_lock_count k' = 0 ∧ sems k' = sems kern0 ∧ current_thread k' = 10 ∧
     sched_inv k' [11] (if decide (-1 = -1) then [] else [] ++ [10]) (<[100 := ws ++ [10]]> waits0)).
Proof.
  apply (AcquireSemaphore_correct (mret tt) kern0 [11] [] waits0 100 (Semaphore 1 1) (-1));
    [apply kern0_inv|apply kern0_can_run|done|reflexivity].
Defined.

Lemma ReleaseSemaphore_correct_witness :
  (current_count (Semaphore 1 1) = 0 → ReleaseSemaphore (mret tt) 100 kern0 = Panicked PANIC_ASSERTION_FAILURE) ∧
  (0 < current_count (Semaphore 1 1) → ∃ k', ReleaseSemaphore (mret tt) 100 kern0 = dropped (mret tt) k' ∧
     scheduler_lock_count k' = 0 ∧
     sems k' = <[100 := Semaphore 1 0]> (sems kern0) ∧ sched_inv k' [11] [] waits0).
Proof.
  apply (ReleaseSemaphore_correct (mret tt) kern0 [11] [] waits0 100 (Semaphore 1 1) [] (plain_thread 0 0));
    [apply kern0_inv|reflexivity..].
Defined.

(** At time 1000, thread 10 runs, 11 and 16 are ready, and four threads are on the sleep
    list: 12 slept until 900, 13 waits for the mutex until 1000, 14 sleeps until 2000, and
    15 sleeps until 3000 but has been sent a signal. *)
Definition sleeper (nexts : list Z) (id st expiry sem : Z) (sig : bool) : thread :=
  let t := plain_thread id st in
  {| t with t_next := nexts; sleep_expiry := expiry; waiting_on_semaphore := sem; signal_intr := sig |}.
Definition kern_asleep : kern :=
  Kern (list_to_map [(10, plain_thread 0 0); (11, sleeper [16; 0; 0] 1 1 0 0 false); (12, sleeper [0; 13; 0] 2 2 900 0 false);
      (13, sleeper [0; 14; 0] 3 4 1000 100 false); (14, sleeper [0; 15; 0] 4 2 2000 0 false); (15, sleeper [0; 0; 0] 5 2 3000 0 true);
      (16, plain_thread 6 1)])
    {[ 1 := ThreadListHdr 11 16 0; 2 := ThreadListHdr 12 15 1; 100 := ThreadListHdr 13 13 2 ]}
    {[ 100 := Semaphore 1 1 ]} 10 false 0 0 0 1000 0 (replicate 256 (Alarm 0 0 0)) 0 [].
Definition waits_asleep : gmap Z (list Z) := {[ 100 := [13] ]}.

Lemma waits_asleep_lookup sem ws : waits_asleep !! sem = Some ws → 100 = sem ∧ [13] = ws.
Proof. apply lookup_singleton_Some. Qed.
Lemma kern_asleep_linked : linked kern_asleep [11; 16] [12; 13; 14; 15] waits_asleep.
Proof.
  split.
  - split; [reflexivity| |by apply (bool_decide_unpack _)]. cbn. repeat (split; [done|]; split; [done|]; eexists; split; [by vm_compute|]). done.
  - split; [reflexivity| |by apply (bool_decide_unpack _)]. cbn. repeat (split; [done|]; split; [done|]; eexists; split; [by vm_compute|]). done.
  - intros sem ws [<- <-]%waits_asleep_lookup. split; [|done]. split; [reflexivity| |by apply (bool_decide_unpack _)].
    cbn. repeat (split; [done|]; split; [done|]; eexists; split; [by vm_compute|]). done.
  - intros s1 s2 w1 w2 x [<- <-]%waits_asleep_lookup [<- <-]%waits_asleep_lookup. done.
  - assert (map_Forall (λ a t, a ≠ NULL ∧ length (t_next t) = 3%nat) (threads kern_asleep)) as H by (apply (bool_decide_unpack _); by vm_compute).
    intros a t Ha. destruct (H a t Ha) as [Hn Hl]. split; [done|]. intros j Hj.
    unfold nxt. rewrite Ha. cbn [mbind option_bind]. unfold aget. rewrite decide_True by lia. apply lookup_lt_is_Some. lia.
Qed.
Lemma kern_asleep_inv : sched_inv kern_asleep [11; 16] [12; 13; 14; 15] waits_asleep.
Proof.
  split; [apply kern_asleep_linked| |].
  - split.
    + apply Forall_forall. repeat constructor; by eexists.
    + intros sem ws x [<- <-]%waits_asleep_lookup ->%list_elem_of_singleton. split; [by apply (bool_decide_unpack _)|].
      eexists. split; [by vm_compute|]. split; [done|]. right. split; [done|]. by apply (bool_decide_unpack _).
    + apply Forall_forall. repeat (apply Forall_cons; split); [..|by apply Forall_nil];
        (split; [by apply (bool_decide_unpack _)|eexists; split; [by vm_compute|]]).
      * by left.
      * right. split; [done|]. eexists. split; [by vm_compute|]. by apply list_elem_of_singleton.
      * by left.
      * by left.
    + intros _. eexists. split; [by vm_compute|]. intros _. by apply (bool_decide_unpack _).
  - split.
    + intros sem. unfold waits_asleep. cbn [kern_asleep sems]. by rewrite !lookup_singleton_is_Some.
    + intros sem s ws Hs [<- <-]%waits_asleep_lookup. cbn [kern_asleep sems] in Hs.
      apply lookup_singleton_Some in Hs as [_ <-]. simpl. split_and!; (lia || done).
Qed.

(** Threads 12, 13 and 15 are woken, and 13 leaves the queue of the mutex. *)
Lemma HandleSleepWakeups_correct_witness :
  ∃ k', HandleSleepWakeups (mret tt) kern_asleep = dropped (mret tt) k' ∧ scheduler_lock_count k' = 0 ∧
    sched_inv k' [11; 16; 12; 13; 15] [14] {[ 100 := [] ]} ∧
    fields k' = mark_all [12; 13; 15] (fields kern_asleep) ∧ sems k' = sems kern_asleep ∧ current_thread k' = 10.
Proof.
  assert (woken (fields kern_asleep) 1000 [12; 13; 14; 15] = [12; 13; 15]) as Hw by (by vm_compute).
  assert (asleep (fields kern_asleep) 1000 [12; 13; 14; 15] = [14]) as Ha by (by vm_compute).
  assert (leave_all [12; 13; 15] waits_asleep = {[ 100 := [] ]}) as Hl by (apply (bool_decide_unpack _); by vm_compute).
  pose proof (HandleSleepWakeups_correct (mret tt) kern_asleep [11; 16] [12; 13; 14; 15] waits_asleep (plain_thread 0 0)
    kern_asleep_inv eq_refl ltac:(done) eq_refl eq_refl) as H.
  cbv zeta in H. change (system_time kern_asleep) with 1000 in H. rewrite Hw, Ha, Hl in H. exact H.
Defined.

Definition kern0_locked : kern := {| kern0 with scheduler_lock_count := 1 |}.
Lemma ScheduleWithLockHeld_correct_witness :
  ([11] = [] ∨ first_of [11] = 10) ∧ ScheduleWithLockHeld kern0_locked = Done (tt, kern0_locked) ∨
  ∃ x rest k' t, [11] = x :: rest ∧ x ≠ 10 ∧ ScheduleWithLockHeld kern0_locked = Done (tt, k') ∧
    current_thread k' = x ∧ threads k' !! x = Some t ∧ state t = THREAD_STATE_RUNNING ∧
    scheduler_lock_count k' = 1 ∧
    sched_inv k' (rest ++ (if decide (state (plain_thread 0 0) = THREAD_STATE_RUNNING) then [10] else [])) [] waits0.
Proof.
  apply (ScheduleWithLockHeld_correct kern0_locked [11] [] waits0 (plain_thread 0 0));
    [by apply (inv_ext kern0); [apply kern0_inv|..]|reflexivity|done|reflexivity].
Defined.

Lemma round_robin_progress_witness :
  ∃ k', switches 2 kern_asleep = Done (tt, k') ∧ current_thread k' = 16.
Proof.
  apply (round_robin_progress kern_asleep [11] 16 [] [12; 13; 14; 15] waits_asleep (plain_thread 0 0));
    [apply kern_asleep_inv|reflexivity|done|reflexivity|reflexivity].
Defined.

Lemma thread_list_refines_sequence_witness :
  ∃ k' X, tl_exec_all 1 [TlInsert 10; TlDelete 11; TlDeleteTop] kern0 = Done ([None; None; Some 10], k') ∧
    list_rep k' 1 0 [] ∧ list_frame kern0 k' 1 0 X.
Proof.
  apply (thread_list_refines_sequence 1 0 [TlInsert 10; TlDelete 11; TlDeleteTop] kern0 [11]);
    [apply kern0_inv|reflexivity|].
  intros op x Hop Hx. assert (x = 10) as ->; [|split; [done|by eexists]].
  rewrite !elem_of_cons in Hop. destruct Hop as [->|[->|[->|?]]]; simpl in Hx; congruence || set_solver.
Defined.

Lemma SetThreadPriority_clamps_witness :
  let valid := -1 ≤ 200 ≤ 255 ∧ -1 ≤ 1 ≤ 3 in
  (¬ valid → SetThreadPriority 10 1 200 kern0 = Done (EINVAL, kern0)) ∧
  (valid → ∃ t', SetThreadPriority 10 1 200 kern0
                 = Done (0, {| kern0 with threads := <[10 := t']> (threads kern0) |}) ∧
     priority t' = Z.min 150 (Z.max 50 200) ∧ 0 ≤ priority t' ≤ 255 ∧
     schedule_policy t' = (if decide (1 = -1) then 0 else 1)).
Proof. apply (SetThreadPriority_clamps kern0 10 (plain_thread 0 0) 1 200). reflexivity. Defined.
