(* ===== verification/Signal.v ===== *)
(** * thread/signal.c: sending, blocking and picking up signals *)

From S2P Require Import Prelude ThreadList Scheduler Timer Semaphore SchedulerInv SchedulerSteps.

Definition SIGCONT : Z := 5.
Definition SIGKILL : Z := 9.
Definition SIGSTOP : Z := 14.
Definition SIG_UPPER_BND : Z := 29.
Definition SIG_BLOCK : Z := 1.
Definition SIG_UNBLOCK : Z := 2.
Definition SIG_SETMASK : Z := 3.
Definition EFAULT : Z := 19.

(** [1 << sig] of a valid signal number; a negative shift is undefined. *)
Definition sig_bit (sig_num : Z) : M kern Z :=
  if decide (0 ≤ sig_num) then mret (Z.shiftl 1 sig_num) else fault.

Section signals.
Variable others : M kern unit.

Definition StopThread (thr : Z) : M kern unit :=
  LockScheduler;;
  cur ← GetThread;
  t ← get_thread thr;
  (if decide (thr = cur) then
     set_thread thr {| t with needs_stopping := false |};;
     BlockThread THREAD_STATE_STOPPED
   else set_thread thr {| t with needs_stopping := true |});;
  UnlockScheduler others.

Definition RaiseSignal (thr sig_num : Z) (lock_already_held : bool) : M kern Z :=
  if decide (SIG_UPPER_BND ≤ sig_num) then mret EINVAL else
  (if lock_already_held then mret tt else LockScheduler);;
  bit ← sig_bit sig_num;
  t ← get_thread thr;
  set_thread thr {| t with signal_intr := true; pending_signals := Z.lor (pending_signals t) bit |};;
  t ← get_thread thr;
  (if decide (sig_num = SIGKILL) then set_thread thr {| t with needs_termination := true |}
   else if decide (sig_num = SIGSTOP) then set_thread thr {| t with needs_stopping := true |}
   else if decide (sig_num = SIGCONT) then
     (if decide (state t = THREAD_STATE_STOPPED) then UnblockThread thr else mret tt)
   else mret tt);;
  t ← get_thread thr;
  (if decide (state t = THREAD_STATE_WAITING_FOR_SIGNAL) then UnblockThread thr else mret tt);;
  (if lock_already_held then mret tt else UnlockScheduler others);;
  mret 0.

(** [RaiseSignalToProcessGroup], given one thread of each process of the group. *)
Fixpoint RaiseSignalToProcessGroup_loop (victims : list Z) (sig_num : Z) : M kern unit :=
  match victims with
  | [] => mret tt
  | thr :: victims => _ ← RaiseSignal thr sig_num true; RaiseSignalToProcessGroup_loop victims sig_num
  end.
Definition RaiseSignalToProcessGroup (victims : list Z) (sig_num : Z) : M kern unit :=
  LockScheduler;; RaiseSignalToProcessGroup_loop victims sig_num;; UnlockScheduler others.

Definition HasBeenSignalled : M kern bool :=
  cur ← GetThread; t ← get_thread cur; mret (signal_intr t).

(** [while (!(available_signals & 1)) { available_signals >>= 1; ++index; }] *)
Fixpoint FindSignal_loop (fuel : nat) (available_signals index : Z) : M kern Z :=
  if decide (Z.land available_signals 1 ≠ 0) then mret index else
  match fuel with
  | O => exhausted
  | S fuel => FindSignal_loop fuel (Z.shiftr available_signals 1) (index + 1)
  end.

Definition FindSignalToHandle : M kern Z :=
  thr ← GetThread;
  if decide (thr = NULL) then mret (-1) else
  t ← get_thread thr;
  let available_signals := Z.land (pending_signals t) (Z.lnot (blocked_signals t)) in
  if decide (available_signals = 0) then mret (-1) else
  set_thread thr {| t with signal_intr := false |};;
  index ← FindSignal_loop 32 available_signals 0;
  t ← get_thread thr;
  set_thread thr {| t with
    pending_signals := Z.land (pending_signals t) (Z.lnot (Z.shiftl 1 index));
    blocked_signals := Z.lor (blocked_signals t) (Z.shiftl 1 index) |};;
  mret index.

Definition HandleSignal (sig_num : Z) : M kern Z :=
  cur ← GetThread;
  t ← get_thread cur;
  (if decide (user_common_signal_handler t = 0)
   then set_thread cur {| t with needs_termination := true |} else mret tt);;
  bit ← sig_bit sig_num;
  t ← get_thread cur;
  set_thread cur {| t with blocked_signals := Z.land (blocked_signals t) (Z.lnot bit) |};;
  mret (user_common_signal_handler t).

Definition ProtectSpecialSignals (blocked : Z) : Z :=
  Z.land blocked (Z.lnot (Z.lor (Z.lor (Z.shiftl 1 SIGKILL) (Z.shiftl 1 SIGSTOP)) (Z.shiftl 1 SIGCONT))).

(** [None]: the NULL pointer. Returns the status and the old mask. [schedule]:
    the explicit call of [Schedule]. *)
Definition SuspendForSignal (new_mask : Z) (old_mask : option Z) (protect : bool) (schedule : M kern unit) :
    M kern (Z * option Z) :=
  if decide (old_mask = None) then mret (EFAULT, None) else
  LockScheduler;;
  thr ← GetThread;
  t ← get_thread thr;
  set_thread thr {| t with
    prev_blocked_signals := blocked_signals t;
    blocked_signals := if protect then ProtectSpecialSignals new_mask else new_mask |};;
  BlockThread THREAD_STATE_WAITING_FOR_SIGNAL;;
  UnlockScheduler others;;
  schedule;;
  LockScheduler;;
  u ← get_thread thr;
  set_thread thr {| u with blocked_signals := prev_blocked_signals u |};;
  UnlockScheduler others;;
  mret (EINTR, Some (blocked_signals t)).

Definition PauseForSignal : M kern Z :=
  LockScheduler;;
  BlockThread THREAD_STATE_WAITING_FOR_SIGNAL;;
  UnlockScheduler others;;
  mret EINTR.

(** Returns the status and what was stored through [old], if it is not NULL. *)
Definition SetBlockedSignals (how : Z) (changes : option Z) (want_old protect : bool) : M kern (Z * option Z) :=
  match changes with
  | None => mret (EFAULT, None)
  | Some changes =>
    thr ← GetThread;
    LockScheduler;;
    t ← get_thread thr;
    let old := if want_old then Some (blocked_signals t) else None in
    let '(retv, mask) :=
      if decide (how = SIG_BLOCK) then (0, Z.lor (blocked_signals t) changes)
      else if decide (how = SIG_UNBLOCK) then (0, Z.land (blocked_signals t) (Z.lnot changes))
      else if decide (how = SIG_SETMASK) then (0, changes)
      else (EINVAL, blocked_signals t) in
    let mask := if protect then ProtectSpecialSignals mask else mask in
    set_thread thr {| t with blocked_signals := mask |};;
    UnlockScheduler others;;
    mret (retv, old)
  end.
End signals.

(** ** Picking a signal *)

(** [i] is the lowest set bit of [a]. *)
Definition lowest_bit (a i : Z) : Prop :=
  0 ≤ i ∧ Z.testbit a i = true ∧ ∀ j, 0 ≤ j < i → Z.testbit a j = false.

Lemma land_one_bit a : Z.land a 1 ≠ 0 ↔ Z.testbit a 0 = true.
Proof.
  change 1 with (Z.ones 1). rewrite Z.land_ones by lia. rewrite Z.bit0_odd. change (2 ^ 1) with 2.
  rewrite Zmod_odd. destruct (Z.odd a); split; (done || lia).
Qed.

Lemma FindSignal_loop_run k (fuel : nat) : ∀ a index,
  0 < a → a < 2 ^ (Z.of_nat fuel + 1) →
  ∃ i, FindSignal_loop fuel a index k = Done (index + i, k) ∧ lowest_bit a i ∧ i ≤ fuel.
Proof.
  induction fuel as [|fuel IH]; intros a index Ha Hb; cbn [FindSignal_loop].
  { change (2 ^ (Z.of_nat 0 + 1)) with 2 in Hb. assert (a = 1) as -> by lia. rewrite decide_True by done. exists 0.
    rewrite Z.add_0_r. unfold lowest_bit. split_and!; done || lia. }
  case_decide as Hbit.
  - exists 0. rewrite Z.add_0_r. apply land_one_bit in Hbit. unfold lowest_bit. split_and!; done || lia.
  - assert (Z.testbit a 0 = false) as H0.
    { destruct (Z.testbit a 0) eqn:E; [|done]. by apply land_one_bit in E. }
    assert (a = 2 * Z.shiftr a 1) as Ea.
    { rewrite Z.shiftr_div_pow2 by lia. change (2 ^ 1) with 2. rewrite Z.bit0_odd in H0.
      pose proof (Z.div_mod a 2 ltac:(lia)) as Hdm. rewrite Zmod_odd, H0 in Hdm. lia. }
    destruct (IH (Z.shiftr a 1) (index + 1)) as (i & E & (Hi & Ht & Hl) & Hf).
    + lia.
    + rewrite Nat2Z.inj_succ, <- Z.add_1_l, <- Z.add_assoc, Z.pow_add_r in Hb by lia. change (2 ^ 1) with 2 in Hb. lia.
    + exists (i + 1). split_and!; try lia.
      * rewrite E. do 2 f_equal. lia.
      * split_and!; [lia|rewrite Z.shiftr_spec in Ht by lia; done|].
        intros j Hj. destruct (decide (j = 0)) as [->|Hj0]; [done|].
        specialize (Hl (j - 1) ltac:(lia)). rewrite Z.shiftr_spec in Hl by lia.
        by replace (j - 1 + 1) with j in Hl by lia.
Qed.

Lemma land_u32 a b : is_u32 a → 0 ≤ Z.land a b < 2 ^ 32.
Proof.
  intros Ha. assert (Z.land a b = Z.land a b `mod` 2 ^ 32) as ->; [|apply Z.mod_pos_bound; lia].
  rewrite <- Z.land_ones, <- Z.land_assoc, (Z.land_comm b), Z.land_assoc by lia.
  by rewrite (Z.land_ones a), Z.mod_small by (lia || done).
Qed.

(** [FindSignalToHandle] picks the lowest-numbered signal that is pending
    and not blocked, marks it as no longer pending and blocks it while it is
    handled; it answers -1 and changes nothing exactly when there is none. It
    always terminates. *)
Theorem FindSignalToHandle_picks_lowest k t :
  current_thread k ≠ NULL → threads k !! current_thread k = Some t →
  is_u32 (pending_signals t) →
  let available := Z.land (pending_signals t) (Z.lnot (blocked_signals t)) in
  (available = 0 ∧ FindSignalToHandle k = Done (-1, k)) ∨
  ∃ i t', FindSignalToHandle k = Done (i, {| k with threads := <[current_thread k := t']> (threads k) |}) ∧
    lowest_bit available i ∧ i < 32 ∧ signal_intr t' = false ∧
    (∀ j, 0 ≤ j → Z.testbit (pending_signals t') j = negb (bool_decide (j = i)) && Z.testbit (pending_signals t) j) ∧
    (∀ j, 0 ≤ j → Z.testbit (blocked_signals t') j = bool_decide (j = i) || Z.testbit (blocked_signals t) j).
Proof.
  intros Hn Ht Hp available. unfold FindSignalToHandle.
  rewrite (M_bind_done _ _ _ _ _ (eq_refl (GetThread k))), decide_False by done.
  rewrite (M_bind_done _ _ _ _ _ (get_thread_run _ _ _ Ht)). fold available.
  destruct (decide (available = 0)) as [Hz|Hnz]; [by left|right].
  rewrite (M_bind_done _ _ _ _ _ (set_thread_run k _ _)). set (t1 := {| t with signal_intr := false |}).
  set (k1 := {| k with threads := _ |}).
  assert (0 ≤ available < 2 ^ 32) as Hr by (by apply land_u32).
  destruct (FindSignal_loop_run k1 32 available 0) as (i & E & Hlow & Hi); [lia| |].
  { change (2 ^ (Z.of_nat 32 + 1)) with (2 * 2 ^ 32). lia. }
  rewrite (M_bind_done _ _ _ _ _ E). change (0 + i) with i.
  assert (threads k1 !! current_thread k = Some t1) as Ht1 by (simpl; by rewrite lookup_insert_eq).
  rewrite (M_bind_done _ _ _ _ _ (get_thread_run _ _ _ Ht1)).
  rewrite (M_bind_done _ _ _ _ _ (set_thread_run k1 _ _)). exists i. eexists. split.
  { cbn [k1 threads]. rewrite insert_insert_eq. done. }
  destruct Hlow as (Hi0 & Hbit & Hmin). split_and!; try done.
  - destruct (decide (i < 32)); [done|]. exfalso. unfold is_u32 in Hp.
    assert (available < 2 ^ i) as Hlt by (apply Z.lt_le_trans with (2 ^ 32); [lia|]; apply Z.pow_le_mono_r; lia).
    rewrite (Z.bits_above_log2 available i) in Hbit; [done|lia|].
    apply Z.log2_lt_pow2; lia.
  - intros j Hj. simpl. rewrite Z.land_spec, Z.lnot_spec, Z.shiftl_1_l, Z.pow2_bits_eqb by lia.
    rewrite andb_comm. f_equal. f_equal. case_bool_decide; [subst; apply Z.eqb_refl|apply Z.eqb_neq; lia].
  - intros j Hj. simpl. rewrite Z.lor_spec, Z.shiftl_1_l, Z.pow2_bits_eqb by lia.
    rewrite orb_comm. f_equal. case_bool_decide; [subst; apply Z.eqb_refl|apply Z.eqb_neq; lia].
Qed.

(** With [protect], no change of the signal mask ever leaves KILL, STOP or
    CONT blocked; an unknown [how] answers EINVAL; the mask in force before the
    call is what is reported as the old one. *)
Theorem SetBlockedSignals_protects others k t how changes :
  threads k !! current_thread k = Some t → scheduler_lock_count k = 0 → postponed_task_switch k = false →
  ∃ r t', SetBlockedSignals others how (Some changes) true true k
          = Done ((r, Some (blocked_signals t)), {| k with threads := <[current_thread k := t']> (threads k) |}) ∧
    (r = EINVAL ↔ ¬ 1 ≤ how ≤ 3) ∧ (r = 0 ↔ 1 ≤ how ≤ 3) ∧
    Z.testbit (blocked_signals t') SIGKILL = false ∧ Z.testbit (blocked_signals t') SIGSTOP = false ∧
    Z.testbit (blocked_signals t') SIGCONT = false.
Proof.
  intros Ht Hl Hp. unfold SetBlockedSignals. rewrite (M_bind_done _ _ _ _ _ (eq_refl (GetThread k))).
  rewrite (M_bind_done _ _ _ _ _ (eq_refl (LockScheduler k))). set (k0 := {| k with scheduler_lock_count := _ |}).
  rewrite (M_bind_done _ _ _ _ _ (get_thread_run k0 _ _ Ht)).
  set (rm := if decide (how = SIG_BLOCK) then _ else _). destruct rm as [r mask] eqn:Erm.
  rewrite (M_bind_done _ _ _ _ _ (set_thread_run k0 _ _)).
  match goal with |- context [<[_ := ?x]> _] => set (t' := x) end.
  rewrite (M_bind_done _ _ _ tt {| k with threads := <[current_thread k := t']> (threads k) |}).
  2: { rewrite UnlockScheduler_run by (simpl; lia). unfold dropped. cbn. rewrite Hp.
       do 2 f_equal. rewrite <- Hl. done. }
  exists r, t'. split; [done|].
  assert ((r = EINVAL ↔ ¬ 1 ≤ how ≤ 3) ∧ (r = 0 ↔ 1 ≤ how ≤ 3)) as [H1 H2].
  { unfold rm, SIG_BLOCK, SIG_UNBLOCK, SIG_SETMASK in Erm. clear -Erm.
    unfold EINVAL in *. repeat case_decide; injection Erm as <- _; split; lia. }
  split; [done|]. split; [done|]. unfold t'. cbn [blocked_signals]. unfold ProtectSpecialSignals.
  rewrite !Z.land_spec, !Z.lnot_spec by done. split_and!; by rewrite andb_false_r.
Qed.

(** ** A second signal *)

(** A thread suspended waiting for a signal is made ready by the first
    signal sent to it; since its state still says that it waits, a second
    signal before it has run stops the kernel at the assertion that it is not
    on the ready list yet. *)
Theorem RaiseSignal_twice_panics others k ready sleep waits thr t c sig :
  sched_inv k ready sleep waits → 0 < scheduler_lock_count k →
  threads k !! current_thread k = Some c → threads k !! thr = Some t → thr ∉ ready →
  state t = THREAD_STATE_WAITING_FOR_SIGNAL →
  0 ≤ sig < SIG_UPPER_BND → sig ≠ SIGKILL → sig ≠ SIGSTOP → sig ≠ SIGCONT →
  ∃ k', RaiseSignal others thr sig true k = Done (0, k') ∧
        RaiseSignal others thr sig true k' = Panicked PANIC_ASSERTION_FAILURE.
Proof.
  intros Hi Hlk Hc Ht Hnr Hst Hsig H9 H14 H5.
  assert (∀ k u, threads k !! thr = Some u → state u = THREAD_STATE_WAITING_FOR_SIGNAL →
    RaiseSignal others thr sig true k = (UnblockThread thr;; mret 0)
      {| k with threads := <[thr := {| u with signal_intr := true;
           pending_signals := Z.lor (pending_signals u) (Z.shiftl 1 sig) |}]> (threads k) |}) as Hrun.
  { clear k Hi Hlk Hc Ht t Hst. intros k u Hu Hst. unfold RaiseSignal. rewrite decide_False by lia.
    rewrite (M_bind_done _ _ k tt k) by done.
    rewrite (M_bind_done _ _ k (Z.shiftl 1 sig) k) by (unfold sig_bit; by rewrite decide_True by lia).
    rewrite (M_bind_done _ _ _ _ _ (get_thread_run _ _ _ Hu)).
    rewrite (M_bind_done _ _ _ _ _ (set_thread_run k _ _)). set (u1 := {| u with signal_intr := true; pending_signals := _ |}).
    set (k1 := {| k with threads := _ |}).
    assert (threads k1 !! thr = Some u1) as Hu1 by (simpl; by rewrite lookup_insert_eq).
    rewrite (M_bind_done _ _ _ _ _ (get_thread_run _ _ _ Hu1)). rewrite !decide_False by done.
    rewrite (M_bind_done _ _ k1 tt k1) by done.
    rewrite (M_bind_done _ _ _ _ _ (get_thread_run _ _ _ Hu1)). rewrite decide_True by done.
    unfold mbind, M_mbind. destruct (UnblockThread thr k1) as [[[] k2]| | | |]; done. }
  set (t1 := {| t with signal_intr := true; pending_signals := Z.lor (pending_signals t) (Z.shiftl 1 sig) |}).
  set (k1 := {| k with threads := <[thr := t1]> (threads k) |}).
  assert (linked k1 ready sleep waits) as Hl1 by (eapply set_thread_linked; [apply Hi|done|done]).
  assert (threads k1 !! thr = Some t1) as Ht1 by (simpl; by rewrite lookup_insert_eq).
  assert (∃ c1, threads k1 !! current_thread k1 = Some c1) as [c1 Hc1].
  { simpl. destruct (decide (current_thread k = thr)) as [->|Hne];
      [rewrite lookup_insert_eq; eauto|rewrite lookup_insert_ne by done; eauto]. }
  destruct (UnblockThread_run k1 ready sleep waits thr t1 c1) as (k2 & E2 & Hl2 & Hs2); try done.
  { simpl. by rewrite Hst. }
  exists k2. split.
  - rewrite (Hrun k t Ht Hst). fold t1. fold k1. by rewrite (M_bind_done _ _ _ _ _ E2).
  - destruct (same_thread _ _ _ _ Hs2 Ht1) as (t2 & Ht2 & Est2). destruct (strip_fields _ _ Est2) as (Hst2 & _).
    rewrite (Hrun k2 t2 Ht2) by (rewrite Hst2; done). set (t3 := {| t2 with signal_intr := true; pending_signals := _ |}).
    set (k3 := {| k2 with threads := _ |}).
    assert (linked k3 (ready ++ [thr]) sleep waits) as Hl3 by (by eapply set_thread_linked).
    assert (threads k3 !! thr = Some t3) as Ht3 by (simpl; by rewrite lookup_insert_eq).
    destruct (same_proj _ _ Hs2) as (_ & _ & Elk & _).
    apply M_bind_panic. unfold UnblockThread.
    rewrite (M_bind_done _ _ _ _ _ (lock_held_run k3 ltac:(simpl; rewrite Elk; done))).
    rewrite (M_bind_done _ _ _ _ _ (get_thread_run _ _ _ Ht3)).
    rewrite decide_False by (simpl; rewrite Hst2; simpl; by rewrite Hst).
    rewrite (M_bind_done _ _ k3 tt k3) by done. apply M_bind_panic. unfold ThreadListInsert.
    rewrite (M_bind_done _ _ _ _ _ (ThreadListContains_run _ _ _ _ thr (ln_ready _ _ _ _ Hl3))).
    rewrite bool_decide_true by set_solver. done.
Qed.

(** ** Concrete runs: thread 10 runs with signals 5 and 7 pending and 5
    blocked; thread 11 waits for a signal. *)
Definition sig_thread (st pending blocked : Z) : thread :=
  Thread [0; 0; 0] 0 st 0 30 0 false false false false 0 true 0 0 0 (-1) pending blocked 0 0.
Definition sig_kern : kern :=
  Kern {[ 10 := sig_thread 0 160 32; 11 := sig_thread 7 0 0 ]}
    {[ 1 := ThreadListHdr 0 0 0; 2 := ThreadListHdr 0 0 1 ]} ∅ 10 false 0 0 0 1000 0
    (replicate 256 (Alarm 0 0 0)) 0 [].
Definition sig_kern_locked : kern := {| sig_kern with scheduler_lock_count := 1 |}.

Lemma sig_kern_inv : sched_inv sig_kern_locked [] [] ∅.
Proof.
  split; [split| |].
  - by split; [reflexivity| |apply NoDup_nil_2].
  - by split; [reflexivity| |apply NoDup_nil_2].
  - intros sem ws H. by rewrite lookup_empty in H.
  - intros s1 s2 w1 w2 x H. by rewrite lookup_empty in H.
  - intros a t Ha. cbn [sig_kern_locked sig_kern threads] in *.
    apply lookup_insert_Some in Ha as [[<- <-]|[_ [<- <-]%lookup_singleton_Some]]; (split; [done|]);
      intros j Hj; (assert (j = 0 ∨ j = 1 ∨ j = 2) as [->|[->| ->]] by lia); by eexists.
  - split.
    + set_solver.
    + intros sem ws x H. by rewrite lookup_empty in H.
    + set_solver.
    + intros _. eexists. split; [reflexivity|]. set_solver.
  - split.
    + intros sem. cbn [sig_kern_locked sig_kern sems]. by rewrite !lookup_empty.
    + intros sem s ws _ H. by rewrite lookup_empty in H.
Qed.

Lemma FindSignalToHandle_picks_lowest_witness :
  let available := Z.land 160 (Z.lnot 32) in
  (available = 0 ∧ FindSignalToHandle sig_kern = Done (-1, sig_kern)) ∨
  ∃ i t', FindSignalToHandle sig_kern = Done (i, {| sig_kern with threads := <[10 := t']> (threads sig_kern) |}) ∧
    lowest_bit available i ∧ i < 32 ∧ signal_intr t' = false ∧
    (∀ j, 0 ≤ j → Z.testbit (pending_signals t') j = negb (bool_decide (j = i)) && Z.testbit 160 j) ∧
    (∀ j, 0 ≤ j → Z.testbit (blocked_signals t') j = bool_decide (j = i) || Z.testbit 32 j).
Proof.
  apply (FindSignalToHandle_picks_lowest sig_kern (sig_thread 0 160 32)); [done|reflexivity|by vm_compute].
Defined.

Lemma SetBlockedSignals_protects_witness :
  ∃ r t', SetBlockedSignals (mret tt) SIG_SETMASK (Some 0xffffffff) true true sig_kern
          = Done ((r, Some 32), {| sig_kern with threads := <[10 := t']> (threads sig_kern) |}) ∧
    (r = EINVAL ↔ ¬ 1 ≤ SIG_SETMASK ≤ 3) ∧ (r = 0 ↔ 1 ≤ SIG_SETMASK ≤ 3) ∧
    Z.testbit (blocked_signals t') SIGKILL = false ∧ Z.testbit (blocked_signals t') SIGSTOP = false ∧
    Z.testbit (blocked_signals t') SIGCONT = false.
Proof.
  apply (SetBlockedSignals_protects (mret tt) sig_kern (sig_thread 0 160 32) SIG_SETMASK 0xffffffff); reflexivity.
Defined.

Lemma RaiseSignal_twice_panics_witness :
  ∃ k', RaiseSignal (mret tt) 11 10 true sig_kern_locked = Done (0, k') ∧
        RaiseSignal (mret tt) 11 10 true k' = Panicked PANIC_ASSERTION_FAILURE.
Proof.
  apply (RaiseSignal_twice_panics (mret tt) sig_kern_locked [] [] ∅ 11 (sig_thread 7 0 0) (sig_thread 0 160 32) 10);
    [apply sig_kern_inv|reflexivity|reflexivity|reflexivity|set_solver|reflexivity|unfold SIG_UPPER_BND; lia|done..].
Defined.
