(* ===== verification/Mailbox.v ===== *)
(** * sync/mailbox.c: bounded byte queues that block

    A call on a mailbox is a [prog]: its accesses to the mailbox, one C statement
    at a time, and its calls on the five semaphores, in the order of the code. A
    program runs alone over any implementation of the semaphores ([interp]) or
    interleaved with others ([MailboxConc]). *)

From S2P Require Import Prelude Transfer Buffers ThreadList Scheduler Semaphore.

Record mailbox := Mailbox {
  data : list Z;
  total_size : Z;
  used_size : Z;
  start_pos : Z;
  end_pos : Z;
  full_sem : Z;
  empty_sem : Z;
  add_mtx : Z;
  get_mtx : Z;
  inner_mtx : Z;
}.

(** ** Creation and destruction

    The arguments after the size are what the six calls of [AllocHeap] returned:
    the memory of the buffer, and the addresses of the semaphores. *)
Definition CreateMutex (sem : Z) : M kern unit := CreateSemaphore sem 1 0.

Definition MailboxCreate (size : Z) (buffer : list Z) (full empty add get inner : Z) : M kern mailbox :=
  CreateSemaphore full size size;;
  CreateSemaphore empty size 0;;
  CreateMutex add;;
  CreateMutex get;;
  CreateMutex inner;;
  mret {| data := buffer; total_size := size; used_size := 0; start_pos := 0; end_pos := 0;
          full_sem := full; empty_sem := empty; add_mtx := add; get_mtx := get; inner_mtx := inner |}.

(** The struct itself is freed last; [data] is not. *)
Definition MailboxDestroy (others : M kern unit) (mbox : mailbox) : M kern unit :=
  _ ← DestroySemaphore others (full_sem mbox) SEM_DONT_CARE;
  _ ← DestroySemaphore others (empty_sem mbox) SEM_DONT_CARE;
  _ ← DestroySemaphore others (add_mtx mbox) SEM_REQUIRE_ZERO;
  _ ← DestroySemaphore others (get_mtx mbox) SEM_REQUIRE_ZERO;
  _ ← DestroySemaphore others (inner_mtx mbox) SEM_REQUIRE_ZERO;
  mret tt.

(** ** Statements on the struct *)
Inductive stmt : Type :=
  | StoreEnd (c : Z)    (* mbox->data[mbox->end_pos] = c *)
  | NextEnd             (* mbox->end_pos = (mbox->end_pos + 1) % mbox->total_size *)
  | IncUsed             (* mbox->used_size++ *)
  | LoadStart           (* mbox->data[mbox->start_pos] *)
  | NextStart           (* mbox->start_pos = (mbox->start_pos + 1) % mbox->total_size *)
  | DecUsed.            (* mbox->used_size-- *)

(** [pos + 1 % size] on C integers; division by zero traps. *)
Definition next_pos (pos size : Z) : option Z :=
  if decide (size = 0) then None else Some (Z.rem (i32 (pos + 1)) size).

Definition exec_stmt (st : stmt) : M mailbox Z :=
  m ← get;
  match st with
  | StoreEnd c => d ← deref (aset (data m) (end_pos m) c); put {| m with data := d |};; mret 0
  | NextEnd => p ← deref (next_pos (end_pos m) (total_size m)); put {| m with end_pos := p |};; mret 0
  | IncUsed => put {| m with used_size := i32 (used_size m + 1) |};; mret 0
  | LoadStart => deref (aget (data m) (start_pos m))
  | NextStart => p ← deref (next_pos (start_pos m) (total_size m)); put {| m with start_pos := p |};; mret 0
  | DecUsed => put {| m with used_size := i32 (used_size m - 1) |};; mret 0
  end.

(** ** Programs *)
Inductive mb_sem : Type := FullSem | EmptySem | AddMtx | GetMtx | InnerMtx.
#[export] Instance mb_sem_eq_dec : EqDecision mb_sem.
Proof. solve_decision. Defined.

(** How a call can go wrong by itself. *)
Inductive failure : Type := FPanic (c : panic_code) | FFault | FExhausted.

Inductive prog (A : Type) : Type :=
  | Ret (a : A)
  | Fail (f : failure)
  | Acquire (s : mb_sem) (timeout : Z) (k : Z → prog A)     (* AcquireSemaphore *)
  | Release (s : mb_sem) (count : Z) (k : prog A)           (* ReleaseSemaphoreEx, locked *)
  | Stmt (st : stmt) (k : Z → prog A)
  | Perform (c : list Z) (tr : transfer) (len : Z) (k : list Z → transfer → prog A). (* PerformTransfer *)
Arguments Ret {_} _.
Arguments Fail {_} _.
Arguments Acquire {_} _ _ _.
Arguments Release {_} _ _ _.
Arguments Stmt {_} _ _.
Arguments Perform {_} _ _ _ _.

Fixpoint prog_bind {A B} (k : A → prog B) (p : prog A) : prog B :=
  match p with
  | Ret a => k a
  | Fail f => Fail f
  | Acquire s t k' => Acquire s t (λ r, prog_bind k (k' r))
  | Release s n p => Release s n (prog_bind k p)
  | Stmt st k' => Stmt st (λ r, prog_bind k (k' r))
  | Perform c tr len k' => Perform c tr len (λ c' tr', prog_bind k (k' c' tr'))
  end.
#[export] Instance prog_mret : MRet prog := @Ret.
#[export] Instance prog_mbind : MBind prog := @prog_bind.

Definition AcquireSem (s : mb_sem) (timeout : Z) : prog Z := Acquire s timeout Ret.
Definition ReleaseSem (s : mb_sem) (count : Z) : prog unit := Release s count (Ret tt).
Definition do_stmt (st : stmt) : prog Z := Stmt st Ret.
Definition need {A} (o : option A) : prog A :=
  match o with Some a => Ret a | None => Fail FFault end.

(** ** Adding *)
Definition MailboxWaitAddableInternal (timeout : Z) : prog Z :=
  res ← AcquireSem AddMtx timeout;
  if decide (res ≠ 0) then mret res else
  res ← AcquireSem EmptySem timeout;
  (if decide (res ≠ 0) then ReleaseSem AddMtx 1 else mret tt);;
  mret res.

Definition MailboxWaitAddable (timeout : Z) : prog Z :=
  res ← MailboxWaitAddableInternal timeout;
  if decide (res ≠ 0) then mret res else
  ReleaseSem EmptySem 1;;
  ReleaseSem AddMtx 1;;
  mret 0.

(** [while (acquisitions < max && AcquireSemaphore(sem, 0) == 0) ++acquisitions;]
    [n] bounds the iterations: [max - 1] is enough. *)
Fixpoint acquire_more (n : nat) (sem : mb_sem) (acquisitions max : Z) : prog Z :=
  match n with
  | O => mret acquisitions
  | S n =>
    if decide (acquisitions < max) then
      r ← AcquireSem sem 0;
      if decide (r = 0) then acquire_more n sem (acquisitions + 1) max else mret acquisitions
    else mret acquisitions
  end.

(** The body of the loops that store: [c] at the end of the ring. *)
Definition add_byte (c : Z) : prog unit :=
  _ ← do_stmt (StoreEnd c);
  _ ← do_stmt NextEnd;
  _ ← do_stmt IncUsed;
  mret tt.

(** Iterations [i] to [i + n - 1]. *)
Fixpoint add_bytes (n : nat) (c : list Z) (i : Z) : prog unit :=
  match n with
  | O => mret tt
  | S n => b ← need (aget c i); add_byte b;; add_bytes n c (i + 1)
  end.

(** The result, and [*added]. The pointer [added] is dereferenced before it is
    compared with NULL, so it is a valid one. *)
Definition MailboxAddMany (timeout : Z) (c : list Z) (max : Z) : prog (Z * Z) :=
  if decide (max ≤ 0) then mret (EINVAL, 0) else
  res ← MailboxWaitAddableInternal timeout;
  if decide (res ≠ 0) then mret (res, 0) else
  acquisitions ← acquire_more (Z.to_nat (max - 1)) EmptySem 1 max;
  _ ← AcquireSem InnerMtx (-1);
  add_bytes (Z.to_nat acquisitions) c 0;;
  ReleaseSem InnerMtx 1;;
  ReleaseSem AddMtx 1;;
  ReleaseSem FullSem (i32 acquisitions);;
  mret (0, acquisitions).

Definition MailboxAdd (timeout c : Z) : prog Z :=
  res ← MailboxWaitAddableInternal timeout;
  if decide (res ≠ 0) then mret res else
  _ ← AcquireSem InnerMtx (-1);
  add_byte c;;
  ReleaseSem InnerMtx 1;;
  ReleaseSem AddMtx 1;;
  ReleaseSem FullSem 1;;
  mret 0.

(** ** Getting *)
Definition MailboxWaitGettableInternal (timeout : Z) : prog Z :=
  res ← AcquireSem GetMtx timeout;
  if decide (res ≠ 0) then mret res else
  res ← AcquireSem FullSem timeout;
  (if decide (res ≠ 0) then ReleaseSem GetMtx 1 else mret tt);;
  mret res.

Definition MailboxWaitGettable (timeout : Z) : prog Z :=
  res ← MailboxWaitGettableInternal timeout;
  if decide (res ≠ 0) then mret res else
  ReleaseSem FullSem 1;;
  ReleaseSem GetMtx 1;;
  mret 0.

Definition get_byte : prog Z :=
  c ← do_stmt LoadStart;
  _ ← do_stmt NextStart;
  _ ← do_stmt DecUsed;
  mret c.

(** The result, and [*c], which keeps its value [c0] if nothing came. *)
Definition MailboxGet (timeout c0 : Z) : prog (Z * Z) :=
  res ← MailboxWaitGettableInternal timeout;
  if decide (res ≠ 0) then mret (res, c0) else
  _ ← AcquireSem InnerMtx (-1);
  c ← get_byte;
  ReleaseSem InnerMtx 1;;
  ReleaseSem GetMtx 1;;
  ReleaseSem EmptySem 1;;
  mret (0, c).

Fixpoint get_bytes (n : nat) (c : list Z) (i : Z) : prog (list Z) :=
  match n with
  | O => mret c
  | S n => b ← get_byte; c ← need (aset c i b); get_bytes n c (i + 1)
  end.

(** The result, the caller's buffer, and [*added]. *)
Definition MailboxGetMany (timeout : Z) (c : list Z) (max : Z) : prog (Z * list Z * Z) :=
  if decide (max ≤ 0) then mret (EINVAL, c, 0) else
  res ← MailboxWaitGettableInternal timeout;
  if decide (res ≠ 0) then mret (res, c, 0) else
  acquisitions ← acquire_more (Z.to_nat (max - 1)) FullSem 1 max;
  _ ← AcquireSem InnerMtx (-1);
  c ← get_bytes (Z.to_nat acquisitions) c 0;
  ReleaseSem InnerMtx 1;;
  ReleaseSem GetMtx 1;;
  ReleaseSem EmptySem (i32 acquisitions);;
  mret (0, c, acquisitions).

(** ** Transfers *)
Definition CHUNK_SIZE : Z := 256.

(** [uint8_t c[CHUNK_SIZE]] on the stack; the model clears it. *)
Definition chunk : list Z := replicate 256 0.

Definition perform (c : list Z) (tr : transfer) (len : Z) : prog (list Z * transfer) :=
  Perform c tr len (λ c' tr', Ret (c', tr')).

(** The result and the caller's transfer. The status of [PerformTransfer] is
    ignored by the code. *)
Fixpoint MailboxAccess_loop (fuel : nat) (done_any : bool) (tr : transfer) : prog (Z * transfer) :=
  if decide (length_remaining tr ≤ 0) then mret (0, tr) else
  match fuel with
  | O => Fail FExhausted
  | S fuel =>
    let can_block := blockable tr && negb done_any in
    let timeout := if can_block then -1 else 0 in
    let len := Z.min (length_remaining tr) CHUNK_SIZE in
    if is_write tr then
      let old_remaining := length_remaining tr in
      '(c, tr) ← perform chunk tr len;
      let transferred := u64 (old_remaining - length_remaining tr) in
      '(res, added) ← MailboxAddMany timeout c transferred;
      tr ← (if decide (transferred ≠ added) then
              (if decide (transferred < added) then Fail (FPanic PANIC_UNKNOWN)
               else mret (RevertTransfer tr (transferred - added)))
            else mret tr);
      if decide (res ≠ 0) then mret (if done_any then 0 else res, tr) else
      MailboxAccess_loop fuel true tr
    else
      '(res, c, added) ← MailboxGetMany timeout chunk len;
      if decide (res ≠ 0) then mret (if done_any then 0 else res, tr) else
      '(_, tr) ← perform c tr added;
      MailboxAccess_loop fuel true tr
  end.

Definition MailboxAccess (fuel : nat) (tr : transfer) : prog (Z * transfer) :=
  if decide (length_remaining tr = 0) then
    res ← (if is_write tr then MailboxWaitAddable 0 else MailboxWaitGettable 0);
    mret (res, tr)
  else MailboxAccess_loop fuel false tr.

(** ** Running a program alone

    What a program needs of the semaphores. *)
Class SemOps (S : Type) : Type := {
  sem_acquire : mb_sem → Z → M S Z;
  sem_release : mb_sem → Z → M S unit;
}.

(** The state: the semaphores', the mailbox and the memory of the caller. *)
Record world (S : Type) := World { w_sems : S; w_box : mailbox; w_mem : memory }.
Arguments World {_} _ _ _.
Arguments w_sems {_} _.
Arguments w_box {_} _.
Arguments w_mem {_} _.

Section interp.
Context {S : Type} `{!SemOps S}.

Definition on_sems {A} (m : M S A) : M (world S) A := λ w,
  outcome_bind (λ '(a, s), Done (a, World s (w_box w) (w_mem w))) (m (w_sems w)).
Definition on_box {A} (m : M mailbox A) : M (world S) A := λ w,
  outcome_bind (λ '(a, b), Done (a, World (w_sems w) b (w_mem w))) (m (w_box w)).
Definition on_mem {A} (m : M memory A) : M (world S) A := λ w,
  outcome_bind (λ '(a, x), Done (a, World (w_sems w) (w_box w) x)) (m (w_mem w)).

Definition interp_failure {A} (f : failure) : M (world S) A :=
  match f with FPanic c => panic c | FFault => fault | FExhausted => exhausted end.

Fixpoint interp {A} (p : prog A) : M (world S) A :=
  match p with
  | Ret a => mret a
  | Fail f => interp_failure f
  | Acquire s t k => r ← on_sems (sem_acquire s t); interp (k r)
  | Release s n k => on_sems (sem_release s n);; interp k
  | Stmt st k => r ← on_box (exec_stmt st); interp (k r)
  | Perform c tr len k =>
    '(_, c', tr') ← on_mem (PerformTransfer (Some c) tr len); interp (k c' tr')
  end.
End interp.

(** *** The semaphores of the kernel *)
Definition sem_of (m : mailbox) (s : mb_sem) : Z :=
  match s with
  | FullSem => full_sem m | EmptySem => empty_sem m
  | AddMtx => add_mtx m | GetMtx => get_mtx m | InnerMtx => inner_mtx m
  end.

(** [LockScheduler(); ReleaseSemaphoreEx(sem, count); UnlockScheduler();] The
    loop makes at most [count] rounds when [count] is positive. *)
Definition kern_release (others : M kern unit) (sem count : Z) : M kern unit :=
  LockScheduler;;
  s ← get_sem sem;
  _ ← ReleaseSemaphoreEx (Z.to_nat (Z.max count (current_count s))) sem count;
  UnlockScheduler others.

#[refine] Definition kern_sem_ops (others : M kern unit) (m : mailbox) : SemOps kern := {|
  sem_acquire := λ s t, AcquireSemaphore others (sem_of m s) t;
  sem_release := λ s n, kern_release others (sem_of m s) n |}.
Defined.

(** *** Counting semaphores nobody else uses: a wait has no end *)
Definition counts : Type := mb_sem → Z.

(** The limit of each semaphore of a mailbox of [size] bytes. *)
Definition sem_max (size : Z) (s : mb_sem) : Z :=
  match s with FullSem | EmptySem => size | _ => 1 end.

Definition set_count (s : mb_sem) (n : Z) (c : counts) : counts := λ s', if decide (s' = s) then n else c s'.

Definition count_acquire (size : Z) (s : mb_sem) (timeout : Z) : M counts Z :=
  c ← get;
  if decide (c s < sem_max size s) then put (set_count s (c s + 1) c);; mret 0
  else if decide (timeout = 0) then mret EAGAIN else block.

(** [ReleaseSemaphoreEx] with no waiter: [do .. while (--count && current > 0)]. *)
Definition count_release (s : mb_sem) (count : Z) : M counts unit :=
  if decide (count < 0) then mret tt else
  c ← get;
  c_assert (bool_decide (0 < c s));;
  put (set_count s (if decide (count = 0) then 0 else Z.max 0 (c s - count)) c).

Definition count_sem_ops (size : Z) : SemOps counts := {|
  sem_acquire := count_acquire size;
  sem_release := count_release |}.

(** What [MailboxCreate] sets up. *)
Definition initial_counts (size : Z) : counts := λ s, match s with FullSem => size | _ => 0 end.
