(* ===== verification/MailboxConc.v ===== *)
(** * Mailboxes under concurrency

    Any number of threads run mailbox calls on one mailbox, interleaved between
    any two accesses. What a thread holds (mutexes, units of the counting
    semaphores, its place inside the inner critical section) is tracked by a
    discipline on programs, [wtp]; the discipline and a count of what all threads
    hold give the invariant. *)

From S2P Require Import Prelude Transfer Buffers ThreadList Scheduler Semaphore Mailbox.

(** ** Steps *)
Inductive event : Type := EvAdd (c : Z) | EvGet (c : Z).

Definition stmt_event (st : stmt) (r : Z) : list event :=
  match st with StoreEnd c => [EvAdd c] | LoadStart => [EvGet r] | _ => [] end.

Definition added (tr : list event) : list Z := omap (λ e, match e with EvAdd c => Some c | _ => None end) tr.
Definition got (tr : list event) : list Z := omap (λ e, match e with EvGet c => Some c | _ => None end) tr.

Section steps.
Variable size : Z.
#[local] Instance counting : SemOps counts := count_sem_ops size.

(** One access of one thread. [late]: the time-out of the wait the thread is in
    has passed. A thread that is done, or waits, is [Blocked]. *)
Definition thread_step {R} (late : bool) (p : prog R) : M (world counts) (list event * prog R) :=
  match p with
  | Ret _ => block
  | Fail f => interp_failure f
  | Acquire s t k =>
    if late then (if decide (t = 0 ∨ t = -1) then block else mret ([], k ETIMEDOUT))
    else r ← on_sems (sem_acquire s t); mret ([], k r)
  | Release s n k => on_sems (sem_release s n);; mret ([], k)
  | Stmt st k => r ← on_box (exec_stmt st); mret (stmt_event st r, k r)
  | Perform c tr len k =>
    '(_, c', tr') ← on_mem (PerformTransfer (Some c) tr len); mret ([], k c' tr')
  end.

Definition config (R : Type) : Type := world counts * list (prog R).

Definition exec_step {R} (i : nat) (late : bool) (c : config R) : outcome (list event * config R) :=
  match c.2 !! i with
  | None => Blocked
  | Some p =>
    '(tr, p', w) ← thread_step late p c.1; Done (tr, (w, <[i := p']> c.2))
  end.

Inductive steps {R} : config R → list event → config R → Prop :=
  | steps_refl c : steps c [] c
  | steps_snoc c1 tr c2 i late tr' c3 :
    steps c1 tr c2 → exec_step i late c2 = Done (tr', c3) → steps c1 (tr ++ tr') c3.
End steps.

(** ** Calls and their callers *)
Inductive call : Type :=
  | CallWaitAddable (timeout : Z)
  | CallAdd (timeout c : Z)
  | CallAddMany (timeout : Z) (c : list Z) (max : Z)
  | CallWaitGettable (timeout : Z)
  | CallGet (timeout c0 : Z)
  | CallGetMany (timeout : Z) (c : list Z) (max : Z)
  | CallAccess (fuel : nat) (tr : transfer).

Inductive reply : Type :=
  | Status (res : Z)
  | AddedMany (res added : Z)
  | Got (res c : Z)
  | GotMany (res : Z) (c : list Z) (added : Z)
  | Accessed (res : Z) (tr : transfer).

Definition call_prog (cl : call) : prog reply :=
  match cl with
  | CallWaitAddable t => r ← MailboxWaitAddable t; mret (Status r)
  | CallAdd t c => r ← MailboxAdd t c; mret (Status r)
  | CallAddMany t c max => '(r, n) ← MailboxAddMany t c max; mret (AddedMany r n)
  | CallWaitGettable t => r ← MailboxWaitGettable t; mret (Status r)
  | CallGet t c0 => '(r, c) ← MailboxGet t c0; mret (Got r c)
  | CallGetMany t c max => '(r, c, n) ← MailboxGetMany t c max; mret (GotMany r c n)
  | CallAccess fuel tr => '(r, tr) ← MailboxAccess fuel tr; mret (Accessed r tr)
  end.

(** The caller's buffers are as long as it says. *)
Definition call_ok (cl : call) : Prop :=
  match cl with
  | CallAddMany _ c max | CallGetMany _ c max => max ≤ length c
  | CallAccess _ tr => is_u64 (length_remaining tr)
  | _ => True
  end.

(** A thread that does nothing to the mailbox but call it, one call after the
    other, each chosen with the answers so far. *)
Inductive client : prog unit → Prop :=
  | client_done : client (Ret tt)
  | client_call cl k : call_ok cl → (∀ r, client (k r)) → client (call_prog cl ≫= k).

(** ** What a thread holds *)
Inductive phase : Type := Idle | Stored | Advanced | Loaded | Passed.

Record held := Held {
  h_add : bool; h_get : bool;
  h_crit : option phase;          (* inside the inner mutex, and where *)
  slots : Z;                      (* units of empty_sem: room claimed *)
  filled : Z;                     (* bytes stored whose full_sem is still to be released *)
  claims : Z;                     (* units of full_sem: bytes claimed *)
  freed : Z;                      (* bytes read whose empty_sem is still to be released *)
}.

#[export] Instance phase_eq_dec : EqDecision phase.
Proof. solve_decision. Defined.
#[export] Instance held_eq_dec : EqDecision held.
Proof. solve_decision. Defined.

Definition nothing : held := Held false false None 0 0 0 0.

(** The discipline: what [h] becomes, [None] if the access is not allowed. *)
Definition acquired (s : mb_sem) (timeout : Z) (h : held) : option held :=
  match s with
  | AddMtx => if decide (h = nothing) then Some {| h with h_add := true |} else None
  | GetMtx => if decide (h = nothing) then Some {| h with h_get := true |} else None
  | InnerMtx => if decide (h_crit h = None) then Some {| h with h_crit := Some Idle |} else None
  | EmptySem =>
    if decide (h = Held true false None (slots h) 0 0 0 ∧ (timeout = 0 ∨ slots h = 0))
    then Some {| h with slots := slots h + 1 |} else None
  | FullSem =>
    if decide (h = Held false true None 0 0 (claims h) 0 ∧ (timeout = 0 ∨ claims h = 0))
    then Some {| h with claims := claims h + 1 |} else None
  end.

Definition released (s : mb_sem) (n : Z) (h : held) : option held :=
  match s with
  | AddMtx => if decide (n = 1 ∧ h_add h = true) then Some {| h with h_add := false |} else None
  | GetMtx => if decide (n = 1 ∧ h_get h = true) then Some {| h with h_get := false |} else None
  | InnerMtx => if decide (n = 1 ∧ h_crit h = Some Idle) then Some {| h with h_crit := None |} else None
  | EmptySem =>
    if decide (0 < n ≤ slots h) then Some {| h with slots := slots h - n |}
    else if decide (0 < n ≤ freed h) then Some {| h with freed := freed h - n |} else None
  | FullSem =>
    if decide (0 < n ≤ claims h) then Some {| h with claims := claims h - n |}
    else if decide (0 < n ≤ filled h) then Some {| h with filled := filled h - n |} else None
  end.

Definition after_stmt (st : stmt) (h : held) : option held :=
  match st, h_crit h with
  | StoreEnd _, Some Idle =>
    if decide (0 < slots h)
    then Some {| h with h_crit := Some Stored; slots := slots h - 1; filled := filled h + 1 |} else None
  | NextEnd, Some Stored => Some {| h with h_crit := Some Advanced |}
  | IncUsed, Some Advanced => Some {| h with h_crit := Some Idle |}
  | LoadStart, Some Idle =>
    if decide (0 < claims h)
    then Some {| h with h_crit := Some Loaded; claims := claims h - 1; freed := freed h + 1 |} else None
  | NextStart, Some Loaded => Some {| h with h_crit := Some Passed |}
  | DecUsed, Some Passed => Some {| h with h_crit := Some Idle |}
  | _, _ => None
  end.

(** What [PerformTransfer] does to the buffer and the transfer. *)
Definition performed (c : list Z) (tr : transfer) (len : Z) (c' : list Z) (tr' : transfer) : Prop :=
  length c' = length c ∧ (tr' = tr ∨ tr' = advance tr (u32 (Z.min len (length_remaining tr)))).

(** [wtp p h Q]: started with [h] in hand, [p] keeps the discipline, and its
    result and what it holds at its end satisfy [Q]. *)
Section wtp.
Variable size : Z.

Fixpoint wtp {A} (p : prog A) (h : held) (Q : A → held → Prop) : Prop :=
  match p with
  | Ret a => Q a h
  | Fail f => f = FExhausted ∧ h = nothing
  | Acquire s t k => ∃ h', acquired s t h = Some h' ∧
      (slots h' ≤ size → claims h' ≤ size → wtp (k 0) h' Q) ∧
      (t ≠ -1 → wtp (k (if decide (t = 0) then EAGAIN else ETIMEDOUT)) h Q)
  | Release s n k => ∃ h', released s n h = Some h' ∧ wtp k h' Q
  | Stmt st k => ∃ h', after_stmt st h = Some h' ∧ ∀ r, wtp (k r) h' Q
  | Perform c tr len k =>
      h = nothing ∧ u32 (Z.min len (length_remaining tr)) ≤ length c ∧
      ∀ c' tr', performed c tr len c' tr' → wtp (k c' tr') h Q
  end.

Lemma wtp_mono {A} (p : prog A) h (Q Q' : A → held → Prop) :
  wtp p h Q → (∀ a h', Q a h' → Q' a h') → wtp p h Q'.
Proof.
  intros H HQ. revert h H. induction p as [a|f|s t k IH|s n p IH|st k IH|c tr len k IH]; simpl; intros h.
  - auto.
  - done.
  - intros (h' & ? & H1 & H2). exists h'. split_and!; auto.
  - intros (h' & ? & H1). exists h'. auto.
  - intros (h' & ? & H1). exists h'. auto.
  - intros (? & ? & H1). auto.
Qed.

Lemma wtp_bind {A B} (p : prog A) (k : A → prog B) h Q :
  wtp p h (λ a h', wtp (k a) h' Q) → wtp (p ≫= k) h Q.
Proof.
  change (p ≫= k) with (prog_bind k p).
  revert h. induction p as [a|f|s t k' IH|s n p IH|st k' IH|c tr len k' IH]; simpl; intros h.
  - done.
  - done.
  - intros (h' & ? & H1 & H2). exists h'. split_and!; auto.
  - intros (h' & ? & H1). exists h'. auto.
  - intros (h' & ? & H1). exists h'. auto.
  - intros (? & ? & H1). auto.
Qed.

Lemma wtp_ret {A} (a : A) h (Q : A → held → Prop) : Q a h → wtp (mret a) h Q.
Proof. done. Qed.

Lemma wtp_acquire s t h h' (Q : Z → held → Prop) :
  acquired s t h = Some h' →
  (slots h' ≤ size → claims h' ≤ size → Q 0 h') →
  (t ≠ -1 → ∀ r, r ≠ 0 → Q r h) →
  wtp (AcquireSem s t) h Q.
Proof.
  intros E H0 H1. exists h'. split_and!; [done|done|]. intros Ht. apply H1; [done|]. by case_decide.
Qed.

Lemma wtp_release s n h h' (Q : unit → held → Prop) :
  released s n h = Some h' → Q tt h' → wtp (ReleaseSem s n) h Q.
Proof. intros E H. by exists h'. Qed.

Lemma wtp_stmt st h h' (Q : Z → held → Prop) :
  after_stmt st h = Some h' → (∀ r, Q r h') → wtp (do_stmt st) h Q.
Proof. intros E H. by exists h'. Qed.
End wtp.

(** One more access of a program under proof. *)
Ltac wseq := apply wtp_bind.
Ltac wacq := wseq; eapply wtp_acquire; [by (try case_decide; intuition lia)|simpl|simpl].

(** ** The calls keep the discipline *)
Section calls.
Variable size : Z.
#[local] Abbreviation wtp := (wtp size).

Definition adding (n : Z) : held := Held true false None n 0 0 0.
Definition getting (n : Z) : held := Held false true None 0 0 n 0.

Lemma acquired_empty t n : t = 0 ∨ n = 0 → acquired EmptySem t (adding n) = Some (adding (n + 1)).
Proof. intros H. unfold acquired. by rewrite decide_True. Qed.
Lemma acquired_full t n : t = 0 ∨ n = 0 → acquired FullSem t (getting n) = Some (getting (n + 1)).
Proof. intros H. unfold acquired. by rewrite decide_True. Qed.

Lemma wait_addable_wtp t :
  wtp (MailboxWaitAddableInternal t) nothing (λ r h,
    (r = 0 ∧ h = adding 1 ∧ 1 ≤ size) ∨ (r ≠ 0 ∧ h = nothing)).
Proof.
  unfold MailboxWaitAddableInternal. wseq. eapply wtp_acquire; [done| |].
  - intros _ _. rewrite decide_False by lia. wseq. eapply wtp_acquire.
    + apply (acquired_empty t 0). by right.
    + intros Hs _. rewrite decide_False by lia. left. split_and!; [done..|exact Hs].
    + intros _ r Hr. rewrite decide_True by done. wseq.
      eapply wtp_release; [done|]. apply wtp_ret. by right.
  - intros _ r Hr. rewrite decide_True by done. apply wtp_ret. by right.
Qed.

Lemma wait_gettable_wtp t :
  wtp (MailboxWaitGettableInternal t) nothing (λ r h,
    (r = 0 ∧ h = getting 1 ∧ 1 ≤ size) ∨ (r ≠ 0 ∧ h = nothing)).
Proof.
  unfold MailboxWaitGettableInternal. wseq. eapply wtp_acquire; [done| |].
  - intros _ _. rewrite decide_False by lia. wseq. eapply wtp_acquire.
    + apply (acquired_full t 0). by right.
    + intros _ Hs. rewrite decide_False by lia. left. split_and!; [done..|exact Hs].
    + intros _ r Hr. rewrite decide_True by done. wseq.
      eapply wtp_release; [done|]. apply wtp_ret. by right.
  - intros _ r Hr. rewrite decide_True by done. apply wtp_ret. by right.
Qed.

(** [own a]: what is held with [a] units of [sem]. *)
Lemma acquire_more_wtp (sem : mb_sem) (own : Z → held) max :
  (∀ a, acquired sem 0 (own a) = Some (own (a + 1))) →
  (∀ a, slots (own a) ≤ size → claims (own a) ≤ size → a ≤ size) →
  ∀ n a, 1 ≤ a ≤ size → a ≤ max →
  wtp (acquire_more n sem a max) (own a) (λ a' h, 1 ≤ a' ≤ size ∧ a' ≤ max ∧ h = own a').
Proof.
  intros Hacq Hb n. induction n as [|n IH]; intros a Ha Hm; [done|]. cbn [acquire_more].
  case_decide as H; [|done]. wseq. eapply wtp_acquire; [apply Hacq| |].
  - intros Hs Hc. rewrite decide_True by done. apply IH; [|lia]. specialize (Hb _ Hs Hc). lia.
  - intros _ r Hr. by rewrite decide_False by done.
Qed.

Definition adding_in (n m : Z) : held := Held true false (Some Idle) n m 0 0.
Definition getting_in (n m : Z) : held := Held false true (Some Idle) 0 0 n m.

Lemma add_byte_wtp c n m : 0 < n → wtp (add_byte c) (adding_in n m) (λ _ h, h = adding_in (n - 1) (m + 1)).
Proof.
  intros Hn. unfold add_byte. wseq. eapply wtp_stmt; [simpl; by rewrite decide_True by done|].
  intros _. wseq. eapply wtp_stmt; [done|]. intros _. wseq. by eapply wtp_stmt.
Qed.

Lemma get_byte_wtp n m : 0 < n → wtp get_byte (getting_in n m) (λ _ h, h = getting_in (n - 1) (m + 1)).
Proof.
  intros Hn. unfold get_byte. wseq. eapply wtp_stmt; [simpl; by rewrite decide_True by done|].
  intros c. wseq. eapply wtp_stmt; [done|]. intros _. wseq. by eapply wtp_stmt.
Qed.

Lemma need_wtp {A} (o : option A) h (Q : A → held → Prop) :
  is_Some o → (∀ a, Q a h) → wtp (need o) h Q.
Proof. intros [a ->] HQ. apply HQ. Qed.

Lemma aget_some {A} (l : list A) i : 0 ≤ i < length l → is_Some (aget l i).
Proof. intros Hi. unfold aget. rewrite decide_True by lia. apply lookup_lt_is_Some. lia. Qed.
Lemma aset_some {A} (l : list A) i x : 0 ≤ i < length l → ∃ l', aset l i x = Some l' ∧ length l' = length l.
Proof.
  intros Hi. unfold aset. rewrite decide_True by lia. eexists. split; [done|]. apply length_insert.
Qed.

Lemma add_bytes_wtp c (n : nat) : ∀ i m,
  0 ≤ i → i + n ≤ length c → wtp (add_bytes n c i) (adding_in n m) (λ _ h, h = adding_in 0 (m + n)).
Proof.
  induction n as [|n IH]; intros i m Hi Hn; cbn [add_bytes].
  - apply wtp_ret. f_equal. lia.
  - wseq. apply need_wtp; [apply aget_some; lia|]. intros b. wseq.
    eapply wtp_mono; [apply add_byte_wtp; lia|]. intros _ ? ->.
    replace (S n - 1) with (Z.of_nat n) by lia.
    eapply wtp_mono; [apply IH; lia|]. intros _ ? ->. f_equal. lia.
Qed.

Lemma get_bytes_wtp (n : nat) : ∀ c i m,
  0 ≤ i → i + n ≤ length c →
  wtp (get_bytes n c i) (getting_in n m) (λ c' h, length c' = length c ∧ h = getting_in 0 (m + n)).
Proof.
  induction n as [|n IH]; intros c i m Hi Hn; cbn [get_bytes].
  - apply wtp_ret. split; [done|]. f_equal. lia.
  - wseq. eapply wtp_mono; [apply get_byte_wtp; lia|]. intros b ? ->. wseq.
    destruct (aset_some c i b) as (c' & -> & Hl); [lia|]. apply wtp_ret.
    replace (S n - 1) with (Z.of_nat n) by lia.
    eapply wtp_mono; [apply IH; lia|]. intros c'' ? [Hc ->]. split; [lia|]. f_equal. lia.
Qed.

Lemma acquire_inner h h' (Q : Z → held → Prop) :
  h_crit h = None → {| h with h_crit := Some Idle |} = h' → Q 0 h' → wtp (AcquireSem InnerMtx (-1)) h Q.
Proof.
  intros Hc <- HQ. eapply wtp_acquire; [simpl; by rewrite decide_True by done|done|done].
Qed.

(** Leaving: the bytes moved are announced after both mutexes are dropped. *)
Lemma leave_adding {A} (a : A) n (Q : A → held → Prop) :
  0 < n → Q a nothing →
  wtp (ReleaseSem InnerMtx 1;; ReleaseSem AddMtx 1;; ReleaseSem FullSem n;; mret a) (adding_in 0 n) Q.
Proof.
  intros Hn HQ. wseq. eapply wtp_release; [done|]. wseq. eapply wtp_release; [done|].
  wseq. eapply (wtp_release _ _ _ (Held false false None 0 n 0 0) nothing); [|done].
  unfold released. cbn [claims filled]. rewrite decide_False, decide_True by lia.
  unfold nothing. repeat f_equal; simpl; lia.
Qed.
Lemma leave_getting {A} (a : A) n (Q : A → held → Prop) :
  0 < n → Q a nothing →
  wtp (ReleaseSem InnerMtx 1;; ReleaseSem GetMtx 1;; ReleaseSem EmptySem n;; mret a) (getting_in 0 n) Q.
Proof.
  intros Hn HQ. wseq. eapply wtp_release; [done|]. wseq. eapply wtp_release; [done|].
  wseq. eapply (wtp_release _ _ _ (Held false false None 0 0 0 n) nothing); [|done].
  unfold released. cbn [slots freed]. rewrite decide_False, decide_True by lia.
  unfold nothing. repeat f_equal; simpl; lia.
Qed.

(** What a call leaves behind: nothing held, and at most [max] bytes moved. *)
Definition moved (max n : Z) (h : held) : Prop := h = nothing ∧ (n = 0 ∨ 0 ≤ n ≤ max).

Lemma MailboxAddMany_wtp t c max :
  size < 2 ^ 31 → max ≤ length c →
  wtp (MailboxAddMany t c max) nothing (λ '(res, n), moved max n).
Proof.
  intros Hsz Hmax. unfold MailboxAddMany. case_decide as H0; [by split; [|left]|].
  wseq. eapply wtp_mono; [apply wait_addable_wtp|]. intros r h [(-> & -> & Hs)|(Hr & ->)].
  2: { rewrite decide_True by done. apply wtp_ret. by split; [|left]. }
  rewrite decide_False by lia. wseq.
  eapply wtp_mono; [apply (acquire_more_wtp EmptySem adding); try done; try lia|].
  { intros a. apply acquired_empty. by left. }
  intros a h (Ha & Ham & ->). wseq. apply (acquire_inner _ (adding_in a 0)); [done|done|]. wseq.
  replace (adding_in a 0) with (adding_in (Z.to_nat a) 0) by (by rewrite Z2Nat.id by lia).
  eapply wtp_mono; [apply (add_bytes_wtp c (Z.to_nat a) 0 0); lia|].
  intros _ h ->. rewrite Z2Nat.id, Z.add_0_l, i32_small by lia.
  apply leave_adding; [lia|]. split; [done|lia].
Qed.

Lemma MailboxGetMany_wtp t c max :
  size < 2 ^ 31 → max ≤ length c →
  wtp (MailboxGetMany t c max) nothing (λ '(res, c', n) h, length c' = length c ∧ moved max n h).
Proof.
  intros Hsz Hmax. unfold MailboxGetMany. case_decide as H0; [apply wtp_ret; split; [done|split; [done|by left]]|].
  wseq. eapply wtp_mono; [apply wait_gettable_wtp|]. intros r h [(-> & -> & Hs)|(Hr & ->)].
  2: { rewrite decide_True by done. apply wtp_ret. split; [done|split; [done|by left]]. }
  rewrite decide_False by lia. wseq.
  eapply wtp_mono; [apply (acquire_more_wtp FullSem getting); try done; try lia|].
  { intros a. apply acquired_full. by left. }
  intros a h (Ha & Ham & ->). wseq. apply (acquire_inner _ (getting_in a 0)); [done|done|]. wseq.
  replace (getting_in a 0) with (getting_in (Z.to_nat a) 0) by (by rewrite Z2Nat.id by lia).
  eapply wtp_mono; [apply (get_bytes_wtp (Z.to_nat a) c 0 0); lia|].
  intros c' h [Hl ->]. rewrite Z2Nat.id, Z.add_0_l, i32_small by lia.
  apply leave_getting; [lia|]. split; [done|split; [done|lia]].
Qed.

Lemma MailboxAdd_wtp t c : wtp (MailboxAdd t c) nothing (λ _ h, h = nothing).
Proof.
  unfold MailboxAdd. wseq. eapply wtp_mono; [apply wait_addable_wtp|].
  intros r h [(-> & -> & Hs)|(Hr & ->)]; [|by rewrite decide_True by done].
  rewrite decide_False by lia. wseq. eapply acquire_inner; [done|done|]. wseq.
  eapply wtp_mono; [apply (add_byte_wtp c 1 0); lia|]. intros _ h ->. by apply (leave_adding 0 1).
Qed.

Lemma MailboxGet_wtp t c : wtp (MailboxGet t c) nothing (λ _ h, h = nothing).
Proof.
  unfold MailboxGet. wseq. eapply wtp_mono; [apply wait_gettable_wtp|].
  intros r h [(-> & -> & Hs)|(Hr & ->)]; [|by rewrite decide_True by done].
  rewrite decide_False by lia. wseq. eapply acquire_inner; [done|done|]. wseq.
  eapply wtp_mono; [apply (get_byte_wtp 1 0); lia|]. intros b h ->. by apply (leave_getting (0, b) 1).
Qed.

Lemma MailboxWaitAddable_wtp t : wtp (MailboxWaitAddable t) nothing (λ _ h, h = nothing).
Proof.
  unfold MailboxWaitAddable. wseq. eapply wtp_mono; [apply wait_addable_wtp|].
  intros r h [(-> & -> & Hs)|(Hr & ->)]; [|by rewrite decide_True by done].
  rewrite decide_False by lia. wseq. eapply wtp_release; [done|]. wseq. eapply wtp_release; [done|done].
Qed.

Lemma MailboxWaitGettable_wtp t : wtp (MailboxWaitGettable t) nothing (λ _ h, h = nothing).
Proof.
  unfold MailboxWaitGettable. wseq. eapply wtp_mono; [apply wait_gettable_wtp|].
  intros r h [(-> & -> & Hs)|(Hr & ->)]; [|by rewrite decide_True by done].
  rewrite decide_False by lia. wseq. eapply wtp_release; [done|]. wseq. eapply wtp_release; [done|done].
Qed.

Lemma perform_wtp c tr len (Q : list Z * transfer → held → Prop) :
  u32 (Z.min len (length_remaining tr)) ≤ length c →
  (∀ c' tr', performed c tr len c' tr' → Q (c', tr') nothing) →
  wtp (perform c tr len) nothing Q.
Proof. intros Hl HQ. by split_and!. Qed.

Lemma MailboxAccess_loop_wtp fuel : size < 2 ^ 31 → ∀ any tr,
  is_u64 (length_remaining tr) → wtp (MailboxAccess_loop fuel any tr) nothing (λ _ h, h = nothing).
Proof.
  intros Hsz. induction fuel as [|fuel IH]; intros any tr Hu; cbn [MailboxAccess_loop];
    (case_decide as H0; [done|]); [by split|].
  set (timeout := if blockable tr && negb any then -1 else 0). unfold CHUNK_SIZE. unfold is_u64 in Hu.
  set (len := Z.min (length_remaining tr) 256).
  assert (is_u32 len ∧ u32 (Z.min len (length_remaining tr)) = len) as [Hlen Hmin].
  { assert (is_u32 len) by (unfold is_u32, len; lia). split; [done|]. unfold len. rewrite Z.min_l by lia.
    by apply u32_small. }
  assert (length chunk = 256%nat) as Hck by apply length_replicate.
  destruct (is_write tr).
  - wseq. apply perform_wtp; [rewrite Hmin, Hck; unfold len; lia|]. intros c tr' [Hc Htr]. rewrite Hck in Hc.
    assert (is_u64 (length_remaining tr')) as Hu'.
    { destruct Htr as [->| ->]; [done|]. apply u64_range. }
    assert (0 ≤ u64 (length_remaining tr - length_remaining tr') ≤ 256) as Hx.
    { destruct Htr as [->| ->]; [by rewrite Z.sub_diag|]. rewrite Hmin. cbn [advance length_remaining].
      rewrite (u64_small (length_remaining tr - len)) by (unfold is_u64, len; lia).
      rewrite u64_small by (unfold is_u64, len; lia). unfold len. lia. }
    wseq. eapply wtp_mono; [apply MailboxAddMany_wtp; [done|rewrite Hc; lia]|].
    intros [res n] h (-> & Hn). wseq.
    eapply (wtp_mono _ _ _ (λ tr'' h, h = nothing ∧ is_u64 (length_remaining tr''))).
    { case_decide; [|by split]. rewrite decide_False by lia. split; [done|]. apply u64_range. }
    intros tr'' h [-> Hu'']. case_decide; [done|]. by apply IH.
  - wseq. eapply wtp_mono; [apply MailboxGetMany_wtp; [done|rewrite Hck; unfold len; lia]|].
    intros [[res c] n] h (Hc & -> & Hn). case_decide; [done|]. wseq.
    apply perform_wtp.
    { rewrite Hc, Hck. rewrite u32_small; unfold is_u32; unfold len in *; lia. }
    intros c' tr' [_ Htr]. apply IH. destruct Htr as [->| ->]; [done|]. apply u64_range.
Qed.

Lemma MailboxAccess_wtp fuel tr : size < 2 ^ 31 → is_u64 (length_remaining tr) →
  wtp (MailboxAccess fuel tr) nothing (λ _ h, h = nothing).
Proof.
  intros Hsz Hu. unfold MailboxAccess. case_decide; [|by apply MailboxAccess_loop_wtp].
  wseq. destruct (is_write tr).
  - eapply wtp_mono; [apply MailboxWaitAddable_wtp|]. by intros ? ? ->.
  - eapply wtp_mono; [apply MailboxWaitGettable_wtp|]. by intros ? ? ->.
Qed.

Lemma call_wtp cl : size < 2 ^ 31 → call_ok cl → wtp (call_prog cl) nothing (λ _ h, h = nothing).
Proof.
  intros Hsz Hok. destruct cl; cbn [call_prog]; wseq.
  - eapply wtp_mono; [apply MailboxWaitAddable_wtp|]. by intros ? ? ->.
  - eapply wtp_mono; [apply MailboxAdd_wtp|]. by intros ? ? ->.
  - eapply wtp_mono; [by apply MailboxAddMany_wtp|]. by intros [? ?] ? [-> _].
  - eapply wtp_mono; [apply MailboxWaitGettable_wtp|]. by intros ? ? ->.
  - eapply wtp_mono; [apply MailboxGet_wtp|]. by intros [? ?] ? ->.
  - eapply wtp_mono; [by apply MailboxGetMany_wtp|]. by intros [[? ?] ?] ? (_ & -> & _).
  - eapply wtp_mono; [by apply MailboxAccess_wtp|]. by intros [? ?] ? ->.
Qed.

(** Every client keeps the discipline and ends with nothing in hand. *)
Lemma client_wtp p : size < 2 ^ 31 → client p → wtp p nothing (λ _ h, h = nothing).
Proof.
  intros Hsz. induction 1 as [|cl k Hok _ IH]; [done|]. wseq.
  eapply wtp_mono; [by apply call_wtp|]. intros r ? ->. apply IH.
Qed.
End calls.
