(* ===== verification/MailboxTheorems.v ===== *)
(** * What mailboxes guarantee

    The ring holds a queue, the semaphores count it, and both stay so however
    the calls of several threads interleave. *)

From S2P Require Import Prelude Transfer Buffers ThreadList Scheduler Semaphore Mailbox MailboxConc.

(** ** The ring *)

(** How far the positions are behind the queue inside the critical section. *)
Definition start_lag (cr : option phase) : Z := match cr with Some Loaded => 1 | _ => 0 end.
Definition end_lag (cr : option phase) : Z := match cr with Some Stored => 1 | _ => 0 end.
Definition used_lag (cr : option phase) : Z :=
  match cr with
  | Some Stored | Some Advanced => -1
  | Some Loaded | Some Passed => 1
  | _ => 0
  end.

(** The byte at distance [i] from position [s0] of the ring. *)
Definition ring_at (size : Z) (d : list Z) (s0 : Z) (i : nat) : option Z := d !! Z.to_nat ((s0 + i) `mod` size).

(** The ring of [m] holds the queue [q] from position [s0] on; a thread is at
    [cr] of the critical section. *)
Record ring (size : Z) (m : mailbox) (s0 : Z) (q : list Z) (cr : option phase) : Prop := Ring {
  r_len : Z.of_nat (length (data m)) = size;
  r_total : total_size m = size;
  r_room : length q ≤ size;
  r_used : used_size m = length q + used_lag cr;
  r_range : 0 ≤ s0 < size;
  r_bytes : ∀ (i : nat) c, q !! i = Some c → ring_at size (data m) s0 i = Some c;
  r_first : start_pos m = (s0 - start_lag cr) `mod` size;
  r_last : end_pos m = (s0 + length q - end_lag cr) `mod` size;
}.

Section ring.
Variable size : Z.
Hypothesis size_small : size < 2 ^ 31.

Lemma mod_apart a b : 0 < size → a ≠ b → Z.abs (a - b) < size → a `mod` size ≠ b `mod` size.
Proof.
  intros Hs Hne Hd E. assert ((a - b) `mod` size = 0) as H0 by (by rewrite Zminus_mod, E, Z.sub_diag, Zmod_0_l).
  apply Z.mod_divide in H0; [|lia]. destruct H0 as [z Hz]. destruct (decide (z = 0)); nia.
Qed.

Lemma next_pos_mod p : 0 < size → next_pos (p `mod` size) size = Some ((p + 1) `mod` size).
Proof.
  intros Hs. pose proof (Z.mod_pos_bound p size Hs). unfold next_pos. rewrite decide_False by lia.
  rewrite i32_small by lia. rewrite Z.rem_mod_nonneg by lia. by rewrite Zplus_mod_idemp_l.
Qed.

Lemma ring_at_insert d s0 q c (i : nat) b :
  0 ≤ s0 < size → Z.of_nat (length d) = size → length q < size →
  (∀ (i : nat) c, q !! i = Some c → ring_at size d s0 i = Some c) →
  (q ++ [c]) !! i = Some b → ring_at size (<[Z.to_nat ((s0 + length q) `mod` size) := c]> d) s0 i = Some b.
Proof.
  intros Hs Hd Hq Hb Hi. unfold ring_at.
  pose proof (Z.mod_pos_bound (s0 + length q) size ltac:(lia)).
  pose proof (Z.mod_pos_bound (s0 + i) size ltac:(lia)).
  destruct (decide (i = length q)) as [->|Hne].
  - rewrite lookup_app_r, Nat.sub_diag in Hi by done. injection Hi as <-.
    apply list_lookup_insert_eq. lia.
  - assert (i < length q)%nat as Hlt.
    { apply lookup_lt_Some in Hi. rewrite length_app in Hi. simpl in Hi. lia. }
    rewrite list_lookup_insert_ne.
    + apply Hb. by rewrite lookup_app_l in Hi by done.
    + pose proof (mod_apart (s0 + length q) (s0 + i) ltac:(lia) ltac:(lia) ltac:(lia)). lia.
Qed.

Lemma store_end_ring m s0 q c :
  ring size m s0 q (Some Idle) → length q < size →
  ∃ m', exec_stmt (StoreEnd c) m = Done (0, m') ∧ ring size m' s0 (q ++ [c]) (Some Stored).
Proof.
  intros [] Hq. simpl in r_last0. rewrite Z.sub_0_r in r_last0.
  pose proof (Z.mod_pos_bound (s0 + length q) size ltac:(lia)).
  eexists. split.
  - unfold exec_stmt. mred. unfold aset. rewrite r_last0, decide_True by lia. reflexivity.
  - split; simpl; try done.
    + rewrite length_insert. done.
    + rewrite length_app. simpl. lia.
    + rewrite length_app. simpl in *. lia.
    + intros i b. by apply ring_at_insert.
    + rewrite length_app. simpl. f_equal. lia.
Qed.

Lemma next_end_ring m s0 q :
  ring size m s0 q (Some Stored) →
  ∃ m', exec_stmt NextEnd m = Done (0, m') ∧ ring size m' s0 q (Some Advanced).
Proof.
  intros []. eexists. split.
  - unfold exec_stmt. mred. rewrite r_last0, r_total0, next_pos_mod by lia. reflexivity.
  - split; simpl; try done. f_equal. lia.
Qed.

Lemma inc_used_ring m s0 q :
  ring size m s0 q (Some Advanced) →
  ∃ m', exec_stmt IncUsed m = Done (0, m') ∧ ring size m' s0 q (Some Idle).
Proof.
  intros []. eexists. split; [reflexivity|]. simpl in *.
  split; simpl; try done. rewrite i32_small by lia. lia.
Qed.

Lemma load_start_ring m s0 x q :
  ring size m s0 (x :: q) (Some Idle) →
  exec_stmt LoadStart m = Done (x, m) ∧ ∃ s1, ring size m s1 q (Some Loaded).
Proof.
  intros []. simpl in r_first0, r_last0. rewrite Z.sub_0_r in r_first0, r_last0.
  pose proof (r_bytes0 0%nat x eq_refl) as Hx. unfold ring_at in Hx. rewrite Z.add_0_r in Hx.
  pose proof (Z.mod_pos_bound s0 size ltac:(lia)). simpl in *. split.
  - unfold exec_stmt. mred. rewrite r_first0. unfold aget. rewrite decide_True by lia.
    rewrite Hx. done.
  - pose proof (Z.mod_pos_bound (s0 + 1) size ltac:(lia)).
    exists ((s0 + 1) `mod` size). split; simpl; try done; try lia.
    + intros i c Hi. rewrite <- (r_bytes0 (S i) c Hi). unfold ring_at. rewrite Zplus_mod_idemp_l.
      by replace (s0 + 1 + i) with (s0 + S i) by lia.
    + rewrite r_first0. simpl. rewrite Zminus_mod_idemp_l. f_equal. lia.
    + rewrite r_last0. simpl. rewrite <- Z.add_sub_assoc, Zplus_mod_idemp_l. f_equal. lia.
Qed.

Lemma next_start_ring m s0 q :
  ring size m s0 q (Some Loaded) →
  ∃ m', exec_stmt NextStart m = Done (0, m') ∧ ring size m' s0 q (Some Passed).
Proof.
  intros []. eexists. split.
  - unfold exec_stmt. mred. rewrite r_first0, r_total0, next_pos_mod by lia. reflexivity.
  - split; simpl; try done. f_equal. lia.
Qed.

Lemma dec_used_ring m s0 q :
  ring size m s0 q (Some Passed) →
  ∃ m', exec_stmt DecUsed m = Done (0, m') ∧ ring size m' s0 q (Some Idle).
Proof.
  intros []. eexists. split; [reflexivity|]. simpl in *.
  split; simpl; try done. rewrite i32_small by lia. lia.
Qed.

(** Entering and leaving the critical section changes nothing in the ring. *)
Lemma ring_idle m s0 q : ring size m s0 q None ↔ ring size m s0 q (Some Idle).
Proof. split; intros []; split; done. Qed.
End ring.

(** ** What all threads hold together *)
Definition weight (s : mb_sem) (h : held) : Z :=
  match s with
  | AddMtx => Z.b2z (h_add h)
  | GetMtx => Z.b2z (h_get h)
  | InnerMtx => match h_crit h with None => 0 | Some _ => 1 end
  | EmptySem => slots h + freed h
  | FullSem => claims h + filled h
  end.

Definition total (s : mb_sem) (hs : list held) : Z := foldr (λ h n, weight s h + n) 0 hs.

(** The units the queue itself accounts for. *)
Definition base (size : Z) (q : list Z) (s : mb_sem) : Z :=
  match s with EmptySem => length q | FullSem => size - length q | _ => 0 end.

Definition sane (h : held) : Prop := 0 ≤ slots h ∧ 0 ≤ filled h ∧ 0 ≤ claims h ∧ 0 ≤ freed h.

(** Where the thread inside the critical section is. *)
Definition crit_of (hs : list held) : option phase := list.head (omap h_crit hs).

Lemma weight_nonneg s h : sane h → 0 ≤ weight s h.
Proof.
  intros (? & ? & ? & ?). destruct s; simpl; try lia; [destruct (h_add h)|destruct (h_get h)|destruct (h_crit h)]; simpl; lia.
Qed.

Lemma total_nonneg s hs : Forall sane hs → 0 ≤ total s hs.
Proof. induction 1 as [|h hs Hh _ IH]; simpl; [lia|]. pose proof (weight_nonneg s h Hh). lia. Qed.

Lemma total_insert s hs i h h' : hs !! i = Some h → total s (<[i:=h']> hs) = total s hs - weight s h + weight s h'.
Proof.
  revert i. induction hs as [|x hs IH]; intros [|i] Hi; simplify_eq/=; [lia|]. rewrite (IH _ Hi). lia.
Qed.

Lemma total_ge s hs i h : Forall sane hs → hs !! i = Some h → weight s h ≤ total s hs.
Proof.
  intros Hs Hi. revert i Hi. induction Hs as [|x hs Hx Hs IH]; intros [|i] Hi; simplify_eq/=.
  - pose proof (total_nonneg s hs Hs). lia.
  - pose proof (weight_nonneg s x Hx). specialize (IH _ Hi). lia.
Qed.

Lemma crit_of_none hs : Forall sane hs → total InnerMtx hs = 0 → crit_of hs = None.
Proof.
  induction 1 as [|h hs Hh Hs IH]; intros Ht; [done|]. pose proof (total_nonneg InnerMtx hs Hs).
  unfold crit_of in *. simpl in *. destruct (h_crit h); [lia|]. apply IH. lia.
Qed.

Lemma crit_of_insert hs i h h' :
  Forall sane hs → hs !! i = Some h → total InnerMtx hs = weight InnerMtx h → crit_of (<[i:=h']> hs) = h_crit h'.
Proof.
  intros Hs. revert i. induction Hs as [|x hs Hx Hs IH]; intros [|i] Hi Ht; simplify_eq/=.
  - pose proof (crit_of_none hs Hs ltac:(lia)) as Hn. unfold crit_of in *. simpl. by destruct (h_crit h').
  - pose proof (total_ge InnerMtx _ _ _ Hs Hi) as Hge. simpl in Hge.
    rewrite <- (IH _ Hi); [|destruct (h_crit x); lia]. unfold crit_of. simpl. by destruct (h_crit x); [lia|].
Qed.

Lemma crit_of_same hs i h h' : hs !! i = Some h → h_crit h' = h_crit h → crit_of (<[i:=h']> hs) = crit_of hs.
Proof.
  revert i. unfold crit_of. induction hs as [|x hs IH]; intros [|i] Hi Hc; simplify_eq/=; [by rewrite Hc|].
  destruct (h_crit x); [done|]. by apply IH.
Qed.

(** The discipline moves units one by one. *)
Lemma acquired_weight s t h h' : acquired s t h = Some h' → sane h →
  sane h' ∧ weight s h' = weight s h + 1 ∧ (∀ s', s' ≠ s → weight s' h' = weight s' h) ∧
  (s ≠ InnerMtx → h_crit h' = h_crit h) ∧ (s = InnerMtx → h_crit h = None ∧ h_crit h' = Some Idle).
Proof.
  intros E (? & ? & ? & ?). destruct s; simpl in E; case_decide as H3; simplify_eq;
    (split; [unfold sane; simpl; lia|]).
  - destruct H3 as [-> _]. split_and!; simpl; [lia| |done|done]. by intros [].
  - destruct H3 as [-> _]. split_and!; simpl; [lia| |done|done]. by intros [].
  - split_and!; simpl; [lia| |done|done]. by intros [].
  - split_and!; simpl; [lia| |done|done]. by intros [].
  - split_and!; simpl; [by rewrite H3| |done|done]. by intros [].
Qed.

Lemma released_weight s n h h' : released s n h = Some h' → sane h →
  0 < n ∧ sane h' ∧ weight s h' = weight s h - n ∧ (∀ s', s' ≠ s → weight s' h' = weight s' h) ∧
  (s ≠ InnerMtx → h_crit h' = h_crit h) ∧ (s = InnerMtx → h_crit h = Some Idle ∧ h_crit h' = None).
Proof.
  intros E (? & ? & ? & ?).
  destruct s; simpl in E; repeat (case_decide; simplify_eq); try destruct_and?; simplify_eq;
    (split; [lia|]); (split; [unfold sane; simpl; lia|]);
    (split_and!; simpl; [| |done|done]); try lia; try (by intros []);
    repeat match goal with H : _ = _ |- _ => rewrite H end; done.
Qed.

(** [PerformTransfer] stops only at a NULL address, given a buffer that is long
    enough. *)
Lemma copy_in_run c a n m : 0 ≤ n ≤ length c → ∃ c', copy_in c a n m = Done (c', m) ∧ length c' = length c.
Proof.
  intros Hn. unfold copy_in. rewrite decide_True by lia. mred. eexists. split; [done|].
  rewrite length_app, length_load_bytes, length_drop. lia.
Qed.

Lemma PerformTransfer_shape c tr len m :
  u32 (Z.min len (length_remaining tr)) ≤ length c →
  (address tr = NULL ∧ PerformTransfer (Some c) tr len m = Panicked PANIC_ASSERTION_FAILURE) ∨
  ∃ st c' tr' m', PerformTransfer (Some c) tr len m = Done ((st, c', tr'), m') ∧ performed c tr len c' tr'.
Proof.
  intros Hl. destruct (decide (address tr = NULL)) as [Hn|Hn]; [left; split; [done|]|right].
  { unfold PerformTransfer. by rewrite bool_decide_false by (by intros []). }
  unfold PerformTransfer, performed. set (amt := u32 _) in *. rewrite bool_decide_true by done.
  rewrite (M_bind_done _ _ m tt m) by done. cbv zeta. case_decide as H0; [eexists _, _, _, _; by split; [|split; [|left]]|].
  pose proof (u32_range (Z.min len (length_remaining tr))) as Hr. fold amt in Hr. unfold is_u32 in Hr.
  destruct (copy_in_run c (address tr) amt m ltac:(lia)) as (ci & Eci & Hci).
  destruct (type tr), (direction tr).
  - unfold copy_out. rewrite decide_True by lia. mred. eexists _, _, _, _. by split; [|split; [|right]].
  - erewrite M_bind_done; [|by rewrite (M_bind_done _ _ _ _ _ Eci)]. eexists _, _, _, _. by split; [|split; [|right]].
  - unfold CopyOutOfKernel, copy_out. rewrite decide_True by lia. mred.
    case_decide; mred; [|rewrite decide_False by lia; eexists _, _, _, _; by split; [|split; [|right]]].
    rewrite decide_True by done. eexists _, _, _, _. by split; [|split; [|left]].
  - unfold CopyIntoKernel. mred. case_decide; mred.
    + rewrite decide_True by done. eexists _, _, _, _. by split; [|split; [|left]].
    + rewrite Eci. mred. rewrite decide_False by lia. eexists _, _, _, _. by split; [|split; [|right]].
Qed.

(** A transfer whose address is NULL: the assertion in [PerformTransfer] stops it. *)
Definition null_transfer {A} (p : prog A) : Prop :=
  ∃ buf tr len k, p = Perform buf tr len k ∧ address tr = NULL.

(** ** The invariant *)
Definition ends_empty {A} : A → held → Prop := λ _ h, h = nothing.

Record mb_inv {R} (size : Z) (c : config R) (hs : list held) (q : list Z) : Prop := MbInv {
  iv_wt : Forall2 (λ h p, wtp size p h ends_empty) hs c.2;
  iv_sane : Forall sane hs;
  iv_counts : ∀ s, w_sems c.1 s = base size q s + total s hs;
  iv_max : ∀ s, w_sems c.1 s ≤ sem_max size s;
  iv_ring : ∃ s0, ring size (w_box c.1) s0 q (crit_of hs);
}.

Section invariant.
Context {R : Type} (size : Z) (size_small : size < 2 ^ 31).
#[local] Existing Instance counting.
Implicit Types (w : world counts) (c : config R) (hs : list held) (p : prog R) (pool : list (prog R)).

Lemma base_nonneg m s0 q cr s : ring size m s0 q cr → 0 ≤ base size q s.
Proof. intros []. destruct s; simpl; lia. Qed.

(** Thread [i] changed what it holds from [h] to [h'] and continues as [p']. *)
Lemma mb_inv_update w w' pool hs q q' i h h' p p' s0 :
  mb_inv size (w, pool) hs q → hs !! i = Some h → pool !! i = Some p →
  wtp size p' h' ends_empty → sane h' →
  (∀ s, w_sems w' s - base size q' s - weight s h' = w_sems w s - base size q s - weight s h) →
  (∀ s, w_sems w' s ≤ sem_max size s) →
  ring size (w_box w') s0 q' (crit_of (<[i:=h']> hs)) →
  mb_inv size (w', <[i:=p']> pool) (<[i:=h']> hs) q'.
Proof.
  intros [] Hh Hp Hwt Hs Hc Hm Hr. split; simpl in *.
  - by apply Forall2_insert.
  - by apply Forall_insert.
  - intros s. rewrite (total_insert s hs i h h' Hh). specialize (Hc s). specialize (iv_counts0 s). lia.
  - done.
  - by exists s0.
Qed.

(** An access of the semaphores: the ring and the queue stay. *)
Lemma mb_inv_sems w f pool hs q i h h' p p' s :
  mb_inv size (w, pool) hs q → hs !! i = Some h → pool !! i = Some p →
  wtp size p' h' ends_empty → sane h' →
  f s - weight s h' = w_sems w s - weight s h → f s ≤ sem_max size s →
  (∀ s', s' ≠ s → f s' = w_sems w s' ∧ weight s' h' = weight s' h) →
  (∀ s0, ring size (w_box w) s0 q (crit_of hs) → ring size (w_box w) s0 q (crit_of (<[i:=h']> hs))) →
  mb_inv size (World f (w_box w) (w_mem w), <[i:=p']> pool) (<[i:=h']> hs) q.
Proof.
  intros Hi Hh Hp Hwt Hs Hf Hm Ho Hr. destruct (iv_ring _ _ _ _ Hi) as [s0 Hring].
  eapply (mb_inv_update w _ pool hs q q i h h' p p' s0); try done; [| |by apply Hr].
  - intros s'. simpl. destruct (decide (s' = s)) as [->|Hne]; [lia|]. destruct (Ho _ Hne). lia.
  - intros s'. simpl. destruct (decide (s' = s)) as [->|Hne]; [done|]. destruct (Ho _ Hne) as [-> _].
    apply (iv_max _ _ _ _ Hi).
Qed.

Lemma set_count_eq s n (f : counts) : set_count s n f s = n.
Proof. unfold set_count. by rewrite decide_True. Qed.
Lemma set_count_ne s s' n (f : counts) : s' ≠ s → set_count s n f s' = f s'.
Proof. intros. unfold set_count. by rewrite decide_False. Qed.

Lemma ring_crit m s0 q cr cr' :
  ring size m s0 q cr → (cr = cr' ∨ (cr = None ∧ cr' = Some Idle) ∨ (cr = Some Idle ∧ cr' = None)) →
  ring size m s0 q cr'.
Proof. intros Hr [<-|[[-> ->]|[-> ->]]]; [done|by apply ring_idle|by apply ring_idle]. Qed.

Lemma crit_of_enter hs i h h' :
  Forall sane hs → hs !! i = Some h → total InnerMtx hs + weight InnerMtx h' - weight InnerMtx h ≤ 1 →
  h_crit h = None → h_crit h' = Some Idle → crit_of hs = None ∧ crit_of (<[i:=h']> hs) = Some Idle.
Proof.
  intros Hs Hi Ht Hc Hc'. pose proof (total_nonneg InnerMtx hs Hs) as H0. cbn [weight] in Ht. rewrite Hc, Hc' in Ht.
  split; [apply crit_of_none; [done|lia]|]. rewrite <- Hc'. apply (crit_of_insert _ _ h); [done|done|].
  cbn [weight]. rewrite Hc. lia.
Qed.

(** The thread inside is the only one. *)
Lemma crit_of_inside w pool hs q i h h' ph :
  mb_inv size (w, pool) hs q → hs !! i = Some h → h_crit h = Some ph →
  crit_of hs = Some ph ∧ crit_of (<[i:=h']> hs) = h_crit h'.
Proof.
  intros Hi Hh Hc. pose proof (iv_sane _ _ _ _ Hi) as Hs.
  pose proof (total_ge InnerMtx hs i h Hs Hh) as Hge.
  pose proof (iv_counts _ _ _ _ Hi InnerMtx) as H1. pose proof (iv_max _ _ _ _ Hi InnerMtx) as H2.
  cbn [weight base sem_max] in *. rewrite Hc in Hge.
  assert (total InnerMtx hs = weight InnerMtx h) as Ht by (cbn [weight]; rewrite Hc; simpl in *; lia).
  split; [|by apply (crit_of_insert _ _ h)].
  rewrite <- Hc. rewrite <- (list_insert_id hs i h Hh) at 1. by apply (crit_of_insert _ _ h).
Qed.

Lemma acquire_inv w pool hs q i h h' p (k : Z → prog R) s t :
  mb_inv size (w, pool) hs q → hs !! i = Some h → pool !! i = Some p →
  acquired s t h = Some h' → w_sems w s < sem_max size s →
  (slots h' ≤ size → claims h' ≤ size → wtp size (k 0) h' ends_empty) →
  mb_inv size (World (set_count s (w_sems w s + 1) (w_sems w)) (w_box w) (w_mem w), <[i:=k 0]> pool)
    (<[i:=h']> hs) q.
Proof.
  intros Hi Hh Hp Hacq Hlt Hwt. pose proof (iv_sane _ _ _ _ Hi) as Hsane.
  destruct (iv_ring _ _ _ _ Hi) as [s1 Hring]. cbn [fst] in Hring.
  assert (sane h) as Hsh by (by eapply Forall_lookup_1).
  destruct (acquired_weight s t h h' Hacq Hsh) as (Hs' & Hw & Ho & Hc & Hc').
  assert (∀ s', weight s' h' ≤ sem_max size s') as Hbound.
  { intros s'. pose proof (total_ge s' hs i h Hsane Hh). pose proof (iv_counts _ _ _ _ Hi s') as Hcnt.
    pose proof (iv_max _ _ _ _ Hi s') as Hmx. pose proof (base_nonneg _ _ _ _ s' Hring). cbn [fst] in *.
    destruct (decide (s' = s)) as [->|Hne]; [lia|]. rewrite (Ho _ Hne). lia. }
  eapply (mb_inv_sems _ _ _ _ _ _ h h' p _ s); try done.
  - destruct Hs' as (? & ? & ? & ?). pose proof (Hbound EmptySem). pose proof (Hbound FullSem). simpl in *.
    apply Hwt; lia.
  - rewrite set_count_eq. lia.
  - rewrite set_count_eq. lia.
  - intros s' Hne. rewrite set_count_ne by done. split; [done|by apply Ho].
  - intros s0 Hr. eapply ring_crit; [exact Hr|].
    destruct (decide (s = InnerMtx)) as [->|Hne].
    + destruct (Hc' eq_refl) as [H1 H2]. right. left. eapply crit_of_enter; try done.
      pose proof (iv_counts _ _ _ _ Hi InnerMtx) as Hcnt. simpl in Hcnt, Hlt. cbn [weight] in *. lia.
    + left. symmetry. apply (crit_of_same _ _ h); [done|]. by apply Hc.
Qed.

Lemma release_inv w pool hs q i h h' p (k : prog R) s n :
  mb_inv size (w, pool) hs q → hs !! i = Some h → pool !! i = Some p →
  released s n h = Some h' → wtp size k h' ends_empty →
  ∃ f, count_release s n (w_sems w) = Done (tt, f) ∧
  mb_inv size (World f (w_box w) (w_mem w), <[i:=k]> pool) (<[i:=h']> hs) q.
Proof.
  intros Hi Hh Hp Hrel Hwt. pose proof (iv_sane _ _ _ _ Hi) as Hsane.
  destruct (iv_ring _ _ _ _ Hi) as [s0 Hring]. cbn [fst] in Hring.
  assert (sane h) as Hsh by (by eapply Forall_lookup_1).
  destruct (released_weight s n h h' Hrel Hsh) as (Hn & Hs' & Hw & Ho & Hc & Hc').
  pose proof (total_ge s hs i h Hsane Hh) as Hge. pose proof (iv_counts _ _ _ _ Hi s) as Hcnt.
  pose proof (base_nonneg _ _ _ _ s Hring) as Hb. cbn [fst] in Hcnt. pose proof (weight_nonneg s h' Hs').
  exists (set_count s (w_sems w s - n) (w_sems w)). split.
  { unfold count_release. rewrite decide_False by lia. mred. rewrite bool_decide_true by lia.
    mred. rewrite decide_False by lia. rewrite Z.max_r by lia. done. }
  eapply (mb_inv_sems _ _ _ _ _ _ h h' p _ s); try done.
  - rewrite set_count_eq. lia.
  - rewrite set_count_eq. pose proof (iv_max _ _ _ _ Hi s). simpl in *. lia.
  - intros s' Hne. rewrite set_count_ne by done. split; [done|by apply Ho].
  - intros s1 Hr. eapply ring_crit; [exact Hr|].
    destruct (decide (s = InnerMtx)) as [->|Hne].
    + destruct (Hc' eq_refl) as [H1 H2]. right. right.
      destruct (crit_of_inside _ _ _ _ i h h' _ Hi Hh H1) as [? ->]. done.
    + left. symmetry. apply (crit_of_same _ _ h); [done|]. by apply Hc.
Qed.

(** An access of the ring; [q'] is the queue after it. *)
Lemma stmt_inv w pool hs q i h h' p (k : Z → prog R) st :
  mb_inv size (w, pool) hs q → hs !! i = Some h → pool !! i = Some p →
  after_stmt st h = Some h' → (∀ r, wtp size (k r) h' ends_empty) →
  ∃ r m' q', exec_stmt st (w_box w) = Done (r, m') ∧
    mb_inv size (World (w_sems w) m' (w_mem w), <[i:=k r]> pool) (<[i:=h']> hs) q' ∧
    q ++ added (stmt_event st r) = got (stmt_event st r) ++ q'.
Proof.
  intros Hi Hh Hp Hst Hwt.
  destruct (iv_ring _ _ _ _ Hi) as [s0 Hring]. cbn [fst] in Hring.
  assert (sane h) as Hsh by (eapply Forall_lookup_1; [apply (iv_sane _ _ _ _ Hi)|done]).
  assert (∃ ph, h_crit h = Some ph) as [ph Hph].
  { unfold after_stmt in Hst. destruct st, (h_crit h) as [[]|]; try done; eauto. }
  destruct (crit_of_inside _ _ _ _ i h h' ph Hi Hh Hph) as [Hcr Hcr'].
  rewrite Hcr in Hring. pose proof (total_ge EmptySem hs i h (iv_sane _ _ _ _ Hi) Hh) as HE.
  pose proof (total_ge FullSem hs i h (iv_sane _ _ _ _ Hi) Hh) as HF.
  pose proof (iv_counts _ _ _ _ Hi EmptySem) as HcE. pose proof (iv_max _ _ _ _ Hi EmptySem) as HmE.
  pose proof (iv_counts _ _ _ _ Hi FullSem) as HcF. pose proof (iv_max _ _ _ _ Hi FullSem) as HmF.
  cbn [weight base sem_max fst] in *.
  assert (∀ r m' s1 q',
    sane h' → (∀ s, base size q s + weight s h = base size q' s + weight s h') →
    ring size m' s1 q' (h_crit h') →
    mb_inv size (World (w_sems w) m' (w_mem w), <[i:=k r]> pool) (<[i:=h']> hs) q') as Hupd.
  { intros r m' s1 q' Hs' Hb Hr. eapply (mb_inv_update w _ pool hs q q' i h h' p _ s1); try done.
    - intros s. simpl. specialize (Hb s). lia.
    - intros s. apply (iv_max _ _ _ _ Hi).
    - cbn [w_box]. by rewrite Hcr'. }
  destruct Hsh as (? & ? & ? & ?). unfold after_stmt in Hst. rewrite Hph in Hst.
  destruct st as [c| | | | |], ph; simplify_eq/=; try case_decide; simplify_eq/=.
  - destruct (store_end_ring size _ _ _ c Hring) as (m' & E & Hr); [lia|].
    exists 0, m', (q ++ [c]). split_and!; [exact E| |done]. eapply (Hupd 0); [unfold sane; simpl; lia| |exact Hr].
    intros []; simpl; rewrite ?Hph, ?length_app; simpl; lia.
  - destruct (next_end_ring size size_small _ _ _ Hring) as (m' & E & Hr).
    exists 0, m', q. split_and!; [exact E| |by apply app_nil_r]. eapply (Hupd 0); [unfold sane; simpl; lia| |exact Hr].
    intros []; simpl; rewrite ?Hph; lia.
  - destruct (inc_used_ring size size_small _ _ _ Hring) as (m' & E & Hr).
    exists 0, m', q. split_and!; [exact E| |by apply app_nil_r]. eapply (Hupd 0); [unfold sane; simpl; lia| |exact Hr].
    intros []; simpl; rewrite ?Hph; lia.
  - destruct q as [|x q]; [simpl in *; lia|].
    destruct (load_start_ring size _ _ _ _ Hring) as (E & s1 & Hr).
    exists x, (w_box w), q. split_and!; [exact E| |by apply app_nil_r]. eapply (Hupd x); [unfold sane; simpl; lia| |exact Hr].
    intros []; simpl; rewrite ?Hph; simpl; lia.
  - destruct (next_start_ring size size_small _ _ _ Hring) as (m' & E & Hr).
    exists 0, m', q. split_and!; [exact E| |by apply app_nil_r]. eapply (Hupd 0); [unfold sane; simpl; lia| |exact Hr].
    intros []; simpl; rewrite ?Hph; lia.
  - destruct (dec_used_ring size size_small _ _ _ Hring) as (m' & E & Hr).
    exists 0, m', q. split_and!; [exact E| |by apply app_nil_r]. eapply (Hupd 0); [unfold sane; simpl; lia| |exact Hr].
    intros []; simpl; rewrite ?Hph; lia.
Qed.

(** What one access can come to. *)
Definition step_ok c (p : prog R) q (o : outcome (list event * config R)) : Prop :=
  match o with
  | Done (tr, c') => ∃ hs' q', mb_inv size c' hs' q' ∧ q ++ added tr = got tr ++ q'
  | Panicked _ => null_transfer p
  | Faulted => False
  | Blocked | Exhausted => True
  end.

Lemma exec_step_inv w pool hs q i late p :
  mb_inv size (w, pool) hs q → pool !! i = Some p → step_ok (w, pool) p q (exec_step size i late (w, pool)).
Proof.
  intros Hi Hp. unfold exec_step. cbn [fst snd]. rewrite Hp.
  destruct (Forall2_lookup_r _ _ _ _ _ (iv_wt _ _ _ _ Hi) Hp) as (h & Hh & Hwt).
  destruct p as [a|f|s t k|s n k|st k|c tr len k]; cbn [wtp] in Hwt; unfold thread_step.
  - done.
  - by destruct Hwt as [-> _].
  - destruct Hwt as (h' & Hacq & H0 & H1). destruct (iv_ring _ _ _ _ Hi) as [s0 Hring].
    assert (∀ r, t ≠ -1 → r = (if decide (t = 0) then EAGAIN else ETIMEDOUT) →
      mb_inv size (w, <[i:=k r]> pool) hs q) as Hfail.
    { intros r Ht ->. rewrite <- (list_insert_id hs i h Hh).
      eapply (mb_inv_update w w _ _ q q i h h); try done; [by apply H1| |apply (iv_max _ _ _ _ Hi)|].
      - eapply Forall_lookup_1; [apply (iv_sane _ _ _ _ Hi)|done].
      - rewrite list_insert_id by done. exact Hring. }
    destruct late.
    { destruct (decide (t = 0 ∨ t = -1)) as [|Hn]; [done|]. exists hs, q. rewrite app_nil_r. split; [|done].
      apply Hfail; [lia|]. by rewrite decide_False by lia. }
    unfold sem_acquire, counting, count_sem_ops, count_acquire, on_sems. mred.
    destruct (decide (w_sems w s < sem_max size s)) as [Hlt|Hge]; mred.
    { exists (<[i:=h']> hs), q. rewrite app_nil_r. split; [|done]. by apply (acquire_inv _ _ _ _ _ h h' _ _ s t Hi Hh Hp). }
    destruct (decide (t = 0)) as [Ht|Ht]; mred; [|done].
    exists hs, q. rewrite app_nil_r. split; [|done]. destruct w. apply Hfail; [lia|done].
  - destruct Hwt as (h' & Hrel & H0).
    destruct (release_inv w pool hs q i h h' _ k s n Hi Hh Hp Hrel H0) as (f & E & Hi').
    unfold sem_release, counting, count_sem_ops, on_sems. mred. rewrite E. simpl.
    exists (<[i:=h']> hs), q. by rewrite app_nil_r.
  - destruct Hwt as (h' & Hst & H0).
    destruct (stmt_inv w pool hs q i h h' _ k st Hi Hh Hp Hst H0) as (r & m' & q' & E & Hi' & Hq).
    unfold on_box. mred. rewrite E. simpl. by exists (<[i:=h']> hs), q'.
  - destruct Hwt as (-> & Hl & H0). unfold on_mem. mred.
    destruct (PerformTransfer_shape c tr len (w_mem w) Hl) as [[Hn ->]|(st & c' & tr' & m' & -> & Hperf)].
    { by exists c, tr, len, k. }
    simpl. exists hs, q. rewrite app_nil_r. split; [|done]. destruct (iv_ring _ _ _ _ Hi) as [s0 Hring].
    rewrite <- (list_insert_id hs i nothing Hh).
    eapply (mb_inv_update w _ _ _ q q i nothing nothing); try done; [by apply H0|apply (iv_max _ _ _ _ Hi)|].
    rewrite list_insert_id by done. exact Hring.
Qed.
End invariant.

(** ** Reachable configurations *)

(** A mailbox as [MailboxCreate] leaves it. *)
Definition fresh_world (size : Z) (w : world counts) : Prop :=
  (∀ s, w_sems w s = initial_counts size s) ∧ Z.of_nat (length (data (w_box w))) = size ∧
  total_size (w_box w) = size ∧ used_size (w_box w) = 0 ∧ start_pos (w_box w) = 0 ∧ end_pos (w_box w) = 0.

(** The bytes in the ring, oldest first. *)
Definition contents (m : mailbox) : list Z :=
  (λ i : nat, default 0 (aget (data m) ((start_pos m + i) `mod` total_size m))) <$> seq 0 (Z.to_nat (used_size m)).

Section reachable.
Context (size : Z) (size_pos : 0 < size) (size_small : size < 2 ^ 31).
#[local] Existing Instance counting.
Implicit Types (w : world counts) (pool : list (prog unit)) (c : config unit).

Lemma initial_inv w pool :
  fresh_world size w → Forall client pool → mb_inv size (w, pool) (replicate (length pool) nothing) [].
Proof.
  intros (Hc & Hl & Ht & Hu & Hs & He) Hp.
  assert (∀ s n, total s (replicate n nothing) = 0) as Htot.
  { intros s n. induction n as [|n IH]; [done|]. simpl. rewrite IH. by destruct s. }
  assert (∀ n, crit_of (replicate n nothing) = None) as Hcr by (intros n; by induction n).
  split; cbn [fst snd].
  - induction Hp as [|p pool Hp _ IH]; simpl; constructor; [by apply client_wtp|done].
  - apply Forall_replicate. done.
  - intros s. rewrite Hc, Htot. destruct s; simpl; lia.
  - intros s. rewrite Hc. destruct s; simpl; lia.
  - exists 0. rewrite Hcr. split; simpl; try done; try lia.
Qed.

Lemma steps_inv c tr c' hs q0 :
  mb_inv size c hs q0 → steps size c tr c' →
  ∃ hs' q, mb_inv size c' hs' q ∧ q0 ++ added tr = got tr ++ q.
Proof.
  intros Hi Hst. induction Hst as [c|c1 tr c2 i late tr' c3 _ IH E].
  { exists hs, q0. by rewrite app_nil_r. }
  destruct (IH Hi) as (hs2 & q2 & Hi2 & Hq2). destruct c2 as [w pool].
  unfold exec_step in E. cbn [fst snd] in E. destruct (pool !! i) as [p|] eqn:Hp; [|done].
  pose proof (exec_step_inv size size_small w pool hs2 q2 i late p Hi2 Hp) as Hok.
  unfold exec_step in Hok. cbn [fst snd] in Hok. rewrite Hp, E in Hok. destruct Hok as (hs3 & q3 & Hi3 & Hq3).
  exists hs3, q3. split; [done|]. unfold added, got in *. rewrite !omap_app.
  rewrite app_assoc, Hq2, <- !app_assoc. f_equal. exact Hq3.
Qed.

Lemma ring_contents m s0 q : ring size m s0 q None → contents m = q.
Proof.
  intros []. unfold contents. rewrite r_used0, r_total0, r_first0. simpl in *.
  rewrite Z.add_0_r, Z.sub_0_r, Nat2Z.id. apply list_eq. intros i. rewrite list_lookup_fmap.
  destruct (decide (i < length q)%nat) as [Hi|Hi].
  - rewrite lookup_seq_lt by done. simpl. destruct (lookup_lt_is_Some_2 q i Hi) as [b Hb]. rewrite Hb.
    pose proof (r_bytes0 i b Hb) as Hat. unfold ring_at in Hat. rewrite Zplus_mod_idemp_l. unfold aget.
    pose proof (Z.mod_pos_bound (s0 + i) size ltac:(lia)). rewrite decide_True by lia. by rewrite Hat.
  - rewrite lookup_seq_ge by lia. simpl. symmetry. apply lookup_ge_None. lia.
Qed.

Lemma crit_of_free c hs q : mb_inv size c hs q → w_sems c.1 InnerMtx = 0 → crit_of hs = None.
Proof.
  intros Hi H0. apply crit_of_none; [apply (iv_sane _ _ _ _ Hi)|].
  pose proof (iv_counts _ _ _ _ Hi InnerMtx) as H. simpl in H. lia.
Qed.

Lemma reachable_inv w pool tr c' :
  fresh_world size w → Forall client pool → steps size (w, pool) tr c' →
  ∃ hs q, mb_inv size c' hs q ∧ added tr = got tr ++ q.
Proof.
  intros Hw Hp. apply (steps_inv (w, pool) tr c' (replicate (length pool) nothing) []). by apply initial_inv.
Qed.
End reachable.

(** C7: However the calls of any number of threads on one mailbox interleave,
    access by access, the mailbox is a bounded first-in first-out queue: the bytes
    read so far are the first of the bytes written, in the order of writing, and
    what is left is exactly the contents of the ring (when no thread is inside the
    inner mutex), never more than the size. No access goes outside the buffer and
    no assertion of the semaphores fails; the only panic is a transfer whose
    address is NULL. *)
Theorem mailbox_is_fifo size w pool tr c' :
  0 < size < 2 ^ 31 → fresh_world size w → Forall client pool → steps size (w, pool) tr c' →
  (∃ q, added tr = got tr ++ q ∧ length q ≤ size ∧
        (w_sems c'.1 InnerMtx = 0 → contents (w_box c'.1) = q)) ∧
  ∀ i late p, c'.2 !! i = Some p →
    match exec_step size i late c' with
    | Panicked _ => null_transfer p
    | Faulted => False
    | _ => True
    end.
Proof.
  intros [Hs Hs'] Hw Hp Hst.
  destruct (reachable_inv size Hs Hs' w pool tr c' Hw Hp Hst) as (hs & q & Hi & Hq).
  split.
  - exists q. split; [done|]. destruct (iv_ring _ _ _ _ Hi) as [s0 Hr]. split; [apply (r_room _ _ _ _ _ Hr)|].
    intros H0. rewrite (crit_of_free size c' hs q Hi H0) in Hr. by apply (ring_contents size Hs _ s0).
  - intros i late p Hp'. destruct c' as [w' pool'].
    pose proof (exec_step_inv size Hs' w' pool' hs q i late p Hi Hp') as Hok.
    by destruct (exec_step size i late (w', pool')) as [[]| | | |].
Qed.

(** C9: The discipline behind it: in every reachable configuration each thread
    runs a program that keeps the lock discipline from what it holds, and a
    thread that is done holds nothing. The semaphores count exactly what the
    threads hold and what the queue occupies, so at most one thread is inside
    each mutex and claimed room and claimed bytes are backed by the ring. *)
Theorem mailbox_discipline size w pool tr c' :
  0 < size < 2 ^ 31 → fresh_world size w → Forall client pool → steps size (w, pool) tr c' →
  ∃ hs q, Forall2 (λ h p, wtp size p h ends_empty) hs c'.2 ∧
    (∀ i h, c'.2 !! i = Some (Ret tt) → hs !! i = Some h → h = nothing) ∧
    (∀ s, total s hs = w_sems c'.1 s - base size q s ∧ w_sems c'.1 s ≤ sem_max size s) ∧
    ∀ i j h h', i ≠ j → hs !! i = Some h → hs !! j = Some h' →
      (h_add h && h_add h') || (h_get h && h_get h') = false ∧ (h_crit h = None ∨ h_crit h' = None).
Proof.
  intros [Hs Hs'] Hw Hp Hst.
  destruct (reachable_inv size Hs Hs' w pool tr c' Hw Hp Hst) as (hs & q & Hi & _).
  exists hs, q. pose proof (iv_wt _ _ _ _ Hi) as Hwt. pose proof (iv_sane _ _ _ _ Hi) as Hsane.
  split_and!; [done| | |].
  - intros i h Hr Hh. destruct (Forall2_lookup_r _ _ _ _ _ Hwt Hr) as (h' & Hh' & Hq). by simplify_eq.
  - intros s. pose proof (iv_counts _ _ _ _ Hi s). split; [lia|apply (iv_max _ _ _ _ Hi)].
  - intros i j h h' Hne Hh Hh'.
    assert (∀ s, base size q s = 0 → sem_max size s = 1 → weight s h + weight s h' ≤ 1) as Hex.
    { intros s Hb Hm. pose proof (total_insert s hs i h nothing Hh) as H1.
      assert (Forall sane (<[i:=nothing]> hs)) as Hs2 by (by apply Forall_insert).
      pose proof (total_ge s _ j h' Hs2) as H2. rewrite list_lookup_insert_ne in H2 by done. specialize (H2 Hh').
      pose proof (iv_counts _ _ _ _ Hi s). pose proof (iv_max _ _ _ _ Hi s).
      assert (weight s nothing = 0) by (by destruct s). lia. }
    pose proof (Hex AddMtx eq_refl eq_refl). pose proof (Hex GetMtx eq_refl eq_refl).
    pose proof (Hex InnerMtx eq_refl eq_refl). simpl in *.
    destruct (h_add h), (h_add h'), (h_get h), (h_get h'), (h_crit h), (h_crit h'); simpl in *; split; auto; lia.
Qed.

(** ** Deadlock *)

(** Nothing more to do with the mailbox. *)
Definition at_rest {R} (p : prog R) : Prop :=
  match p with Ret _ | Fail FExhausted => True | _ => null_transfer p end.

(** In an untimed wait for one of the semaphores of [X]. *)
Definition waits {R} (X : list mb_sem) (p : prog R) : Prop :=
  match p with Acquire s t _ => s ∈ X ∧ t = -1 | _ => False end.

Definition can_step {R} (size : Z) (i : nat) (c : config R) : Prop :=
  ∃ late tr c', exec_step size i late c = Done (tr, c').

Lemma total_positive s hs : 0 < total s hs → ∃ j h, hs !! j = Some h ∧ 0 < weight s h.
Proof.
  induction hs as [|h hs IH]; simpl; [lia|]. intros Ht. destruct (decide (0 < weight s h)) as [Hw|Hw].
  - by exists 0%nat, h.
  - destruct IH as (j & h' & ? & ?); [lia|]. by exists (S j), h'.
Qed.
Lemma total_zero s hs : (∀ i h, hs !! i = Some h → weight s h = 0) → total s hs = 0.
Proof.
  induction hs as [|h hs IH]; intros Hz; simpl; [done|]. rewrite (Hz 0%nat h eq_refl), IH; [done|].
  intros i h' Hi. by apply (Hz (S i)).
Qed.

(** What a thread may hold while it waits. *)
Lemma acquired_outside s t h h' : acquired s t h = Some h' → h_crit h = None.
Proof. destruct h as [a g cr x y z u]. destruct s; simpl; case_decide; unfold nothing in *; intros; destruct_and?; congruence. Qed.
Lemma acquired_adding s t h h' : acquired s t h = Some h' → h_add h = true → s = EmptySem ∨ s = InnerMtx.
Proof. destruct h as [a g cr x y z u]. destruct s; simpl; case_decide; unfold nothing in *; intros; destruct_and?; auto; congruence. Qed.
Lemma acquired_getting s t h h' : acquired s t h = Some h' → h_get h = true → s = FullSem ∨ s = InnerMtx.
Proof. destruct h as [a g cr x y z u]. destruct s; simpl; case_decide; unfold nothing in *; intros; destruct_and?; auto; congruence. Qed.
Lemma acquired_no_units s h h' : acquired s (-1) h = Some h' → s ≠ InnerMtx →
  weight EmptySem h = 0 ∧ weight FullSem h = 0.
Proof.
  intros E Hne. destruct h as [a g cr x y z u]. destruct s; simpl in *; try done;
    case_decide as Hd; try done; unfold nothing in *; destruct_and?;
    repeat match goal with H : Held _ _ _ _ _ _ _ = _ |- _ => injection H as ?; subst end; lia.
Qed.

Section stuck.
Context (size : Z) (size_pos : 0 < size) (size_small : size < 2 ^ 31).
Context (w : world counts) (pool : list (prog unit)) (hs : list held) (q : list Z).
Context (Hi : mb_inv size (w, pool) hs q).
Context (stuck : ∀ i, ¬ can_step size i (w, pool)).
#[local] Existing Instance counting.

(** A thread that cannot go on is at rest or in a wait it may be in. *)
Lemma stuck_thread i p h :
  pool !! i = Some p → hs !! i = Some h →
  (at_rest p ∧ h = nothing) ∨
  ∃ s k h', p = Acquire s (-1) k ∧ w_sems w s = sem_max size s ∧ acquired s (-1) h = Some h'.
Proof.
  intros Hp Hh. pose proof (Forall2_lookup_lr _ _ _ _ _ _ (iv_wt _ _ _ _ Hi) Hh Hp) as Hwt. cbn beta in Hwt.
  pose proof (λ late, exec_step_inv size size_small w pool hs q i late p Hi Hp) as Hok.
  assert (∀ late, match exec_step size i late (w, pool) with Done _ => False | _ => True end) as Hno.
  { intros late. destruct (exec_step size i late (w, pool)) as [[tr c']| | | |] eqn:E; try done.
    apply (stuck i). by exists late, tr, c'. }
  specialize (Hok false). pose proof (Hno false) as Hno0. unfold exec_step in *. cbn [fst snd] in *. rewrite Hp in *.
  destruct p as [a|f|s t k|s n k|st k|buf tr len k]; cbn [wtp] in Hwt.
  - by left.
  - destruct Hwt as [-> ->]. by left.
  - right. destruct Hwt as (h' & Hacq & _). pose proof (Hno true) as Hno1.
    unfold thread_step, sem_acquire, counting, count_sem_ops, count_acquire, on_sems in Hno0. mred.
    revert Hno0. mred. destruct (decide (w_sems w s < sem_max size s)) as [Hlt|Hge]; mred; [done|].
    destruct (decide (t = 0)) as [->|Ht]; mred; [done|intros _].
    destruct (decide (t = -1)) as [->|Ht']; [|unfold thread_step in Hno1; by rewrite decide_False in Hno1 by lia].
    exists s, k, h'. split_and!; [done| |done]. pose proof (iv_max _ _ _ _ Hi s). simpl in *. lia.
  - exfalso. destruct Hwt as (h' & Hrel & H0).
    destruct (release_inv size w pool hs q i h h' _ k s n Hi Hh Hp Hrel H0) as (f & E & _).
    revert Hno0. unfold thread_step, sem_release, counting, count_sem_ops, on_sems. mred. by rewrite E.
  - exfalso. destruct Hwt as (h' & Hst & H0).
    destruct (stmt_inv size size_small w pool hs q i h h' _ k st Hi Hh Hp Hst H0) as (r & m' & q' & E & _).
    revert Hno0. unfold thread_step, on_box. mred. by rewrite E.
  - left. destruct Hwt as (-> & Hl & _). split; [|done]. revert Hno0 Hok. unfold thread_step, on_mem. mred.
    destruct (PerformTransfer_shape buf tr len (w_mem w) Hl) as [[Hn ->]|(st & c' & tr' & m' & -> & _)]; [|done].
    intros _ _. by exists buf, tr, len, k.
Qed.

(** Who holds a mutex that is taken. *)
Lemma holder s : s = AddMtx ∨ s = GetMtx ∨ s = InnerMtx → w_sems w s = 1 →
  ∃ j p s' k h h', pool !! j = Some p ∧ 0 < weight s h ∧ p = Acquire s' (-1) k ∧
    w_sems w s' = sem_max size s' ∧ acquired s' (-1) h = Some h'.
Proof.
  intros Hs H1. pose proof (iv_counts _ _ _ _ Hi s) as Hc. cbn [fst] in Hc.
  destruct (total_positive s hs) as (j & h & Hh & Hw); [destruct Hs as [->|[->| ->]]; simpl in *; lia|].
  destruct (Forall2_lookup_l _ _ _ _ _ (iv_wt _ _ _ _ Hi) Hh) as (p & Hp & _). cbn [snd] in Hp.
  destruct (stuck_thread j p h Hp Hh) as [[_ ->]|(s' & k & h' & -> & ? & ?)].
  - destruct Hs as [->|[->| ->]]; simpl in Hw; lia.
  - by eexists j, _, s', k, h, h'.
Qed.

Lemma inner_free : w_sems w InnerMtx < 1.
Proof.
  pose proof (iv_max _ _ _ _ Hi InnerMtx) as Hm. simpl in Hm. destruct (decide (w_sems w InnerMtx = 1)) as [H1|]; [|lia].
  destruct (holder InnerMtx) as (j & p & s' & k & h & h' & _ & Hw & _ & _ & Hacq); [auto|done|].
  simpl in Hw. rewrite (acquired_outside _ _ _ _ Hacq) in Hw. lia.
Qed.

(** Whoever waits for a mutex waits for somebody who waits for the ring. *)
Lemma add_blocked : w_sems w AddMtx = 1 → w_sems w EmptySem = size.
Proof.
  intros H1. pose proof inner_free.
  destruct (holder AddMtx) as (j & p & s' & k & h & h' & _ & Hw & _ & Hs' & Hacq); [auto|done|].
  simpl in Hw. destruct (h_add h) eqn:Ha; [|simpl in Hw; lia].
  destruct (acquired_adding _ _ _ _ Hacq Ha) as [->| ->]; simpl in Hs'; [done|lia].
Qed.
Lemma get_blocked : w_sems w GetMtx = 1 → w_sems w FullSem = size.
Proof.
  intros H1. pose proof inner_free.
  destruct (holder GetMtx) as (j & p & s' & k & h & h' & _ & Hw & _ & Hs' & Hacq); [auto|done|].
  simpl in Hw. destruct (h_get h) eqn:Ha; [|simpl in Hw; lia].
  destruct (acquired_getting _ _ _ _ Hacq Ha) as [->| ->]; simpl in Hs'; [done|lia].
Qed.

(** Waiting threads hold no units, so the queue alone makes the counts. *)
Lemma stuck_counts : w_sems w EmptySem = length q ∧ w_sems w FullSem = size - length q.
Proof.
  pose proof inner_free as Hin.
  assert (∀ s, s = EmptySem ∨ s = FullSem → total s hs = 0) as Hz.
  { intros s Hs. apply total_zero. intros i h Hh.
    destruct (Forall2_lookup_l _ _ _ _ _ (iv_wt _ _ _ _ Hi) Hh) as (p & Hp & _). cbn [snd] in Hp.
    destruct (stuck_thread i p h Hp Hh) as [[_ ->]|(s' & k & h' & -> & Hs' & Hacq)]; [by destruct Hs as [->| ->]|].
    destruct (acquired_no_units _ _ _ Hacq); [intros ->; simpl in Hs'; lia|]. by destruct Hs as [->| ->]. }
  pose proof (iv_counts _ _ _ _ Hi EmptySem) as HE. pose proof (iv_counts _ _ _ _ Hi FullSem) as HF.
  rewrite Hz in HE, HF by auto. simpl in *. lia.
Qed.
End stuck.

(** C8: There is no deadlock among the mutexes: when no thread can take another
    step, either every thread is done with the mailbox, or the mailbox is full
    and all the others wait to add, or it is empty and all the others wait to
    get. Threads that add and threads that get never block each other. *)
Theorem mailbox_no_deadlock size w pool tr c' :
  0 < size < 2 ^ 31 → fresh_world size w → Forall client pool → steps size (w, pool) tr c' →
  (∀ i, ¬ can_step size i c') →
  Forall at_rest c'.2 ∨
  (contents (w_box c'.1) = [] ∧ Forall (λ p, at_rest p ∨ waits [GetMtx; FullSem] p) c'.2) ∨
  (Z.of_nat (length (contents (w_box c'.1))) = size ∧ Forall (λ p, at_rest p ∨ waits [AddMtx; EmptySem] p) c'.2).
Proof.
  intros [Hs Hs'] Hw Hp Hst Hstuck.
  destruct (reachable_inv size Hs Hs' w pool tr c' Hw Hp Hst) as (hs & q & Hi & _).
  destruct c' as [w' pool']. cbn [fst snd] in *.
  pose proof (inner_free size Hs' _ _ _ _ Hi Hstuck) as Hin.
  pose proof (add_blocked size Hs' _ _ _ _ Hi Hstuck) as Hadd.
  pose proof (get_blocked size Hs' _ _ _ _ Hi Hstuck) as Hget.
  destruct (stuck_counts size Hs' _ _ _ _ Hi Hstuck) as [HE HF].
  assert (contents (w_box w') = q) as Hq.
  { destruct (iv_ring _ _ _ _ Hi) as [s0 Hr]. pose proof (total_nonneg InnerMtx hs (iv_sane _ _ _ _ Hi)).
    pose proof (iv_counts _ _ _ _ Hi InnerMtx) as Hc. simpl in Hc.
    rewrite (crit_of_free size _ _ _ Hi) in Hr by (simpl; lia). by apply (ring_contents size Hs _ s0). }
  rewrite Hq.
  assert (∀ X, (∀ s, w_sems w' s = sem_max size s → s ∈ X) →
    Forall (λ p, at_rest p ∨ waits X p) pool') as Hall.
  { intros X HX. apply Forall_lookup_2. intros i p Hp'.
    destruct (Forall2_lookup_r _ _ _ _ _ (iv_wt _ _ _ _ Hi) Hp') as (h & Hh & _).
    destruct (stuck_thread size Hs' _ _ _ _ Hi Hstuck i p h Hp' Hh) as [[? _]|(s & k & h' & -> & Hsm & _)]; [by left|].
    right. split; [by apply HX|done]. }
  destruct (decide (Z.of_nat (length q) = size)) as [Hfull|Hne].
  - right. right. split; [done|]. apply Hall. intros [] Hsm; simpl in Hsm; [lia|set_solver|set_solver| |lia].
    specialize (Hget Hsm). lia.
  - assert (w_sems w' AddMtx ≠ 1) as Hna by (intros H1; specialize (Hadd H1); lia).
    destruct (decide (q = [])) as [->|Hq0].
    + right. left. split; [done|]. apply Hall.
      intros [] Hsm; simpl in Hsm, HE; [set_solver|lia|lia|set_solver|lia].
    + left. assert (0 < length q) by (destruct q; [done|simpl; lia]).
      assert (w_sems w' GetMtx ≠ 1) as Hng by (intros H1; specialize (Hget H1); lia).
      assert (Forall (λ p, at_rest p ∨ waits [] p) pool') as Hno.
      { apply Hall. intros [] Hsm; simpl in Hsm; lia. }
      eapply Forall_impl; [exact Hno|]. intros p [?|Hwt]; [done|]. destruct p; simpl in Hwt; try done.
      by destruct Hwt as [?%elem_of_nil _].
Qed.

(** ** Runs

    A schedule names the thread of each step and whether its wait times out. *)
Fixpoint run {R} (size : Z) (sched : list (nat * bool)) (c : config R) : outcome (list event * config R) :=
  match sched with
  | [] => Done ([], c)
  | (i, late) :: sched =>
    '(tr, c1) ← exec_step size i late c;
    '(tr', c2) ← run size sched c1;
    Done (tr ++ tr', c2)
  end.

Lemma run_steps {R} size sched (c c' : config R) tr tr0 c0 :
  steps size c0 tr0 c → run size sched c = Done (tr, c') → steps size c0 (tr0 ++ tr) c'.
Proof.
  revert c tr tr0. induction sched as [|[i late] sched IH]; intros c tr tr0 H0 E; simpl in E.
  { injection E as <- <-. by rewrite app_nil_r. }
  unfold mbind, outcome_mbind in E. destruct (exec_step size i late c) as [[tr1 c1]| | | |] eqn:E1; try done.
  simpl in E. destruct (run size sched c1) as [[tr2 c2]| | | |] eqn:E2; try done. injection E as <- <-.
  rewrite app_assoc. eapply IH; [|done]. by eapply steps_snoc.
Qed.

Definition demo_world : world counts :=
  World (initial_counts 2) (Mailbox [0; 0] 2 0 0 0 1 2 3 4 5) (Memory ∅ ∅).
Definition demo_client (cl : call) : prog unit := call_prog cl ≫= λ _, Ret tt.

Lemma demo_client_ok cl : call_ok cl → client (demo_client cl).
Proof. intros H. by apply client_call; [|intros r; constructor]. Qed.

(** One thread adds 7, the other waits for a byte; the reader is ahead at first. *)
Definition demo_pool : list (prog unit) := [demo_client (CallAdd 0 7); demo_client (CallGet (-1) 0)].
Definition demo_schedule : list (nat * bool) :=
  [(1%nat, false)] ++ replicate 9 (0%nat, false) ++ replicate 8 (1%nat, false).
Definition demo_run : outcome (list event * config unit) := run 2 demo_schedule (demo_world, demo_pool).

Lemma demo_world_fresh : fresh_world 2 demo_world.
Proof. by split_and!. Qed.

Definition is_done {A} (o : outcome A) : bool := match o with Done _ => true | _ => false end.
Definition trace_of {R} (o : outcome (list event * config R)) : list event :=
  match o with Done (tr, _) => tr | _ => [] end.
Definition end_of {R} (c : config R) (o : outcome (list event * config R)) : config R :=
  match o with Done (_, c') => c' | _ => c end.

Lemma run_end {R} size sched (c : config R) :
  is_done (run size sched c) = true →
  steps size c (trace_of (run size sched c)) (end_of c (run size sched c)).
Proof.
  intros H. apply (run_steps size sched c _ _ []); [constructor|].
  by destruct (run size sched c) as [[]| | | |].
Qed.

Definition demo_end : config unit := end_of (demo_world, demo_pool) demo_run.

Lemma demo_clients : Forall client demo_pool.
Proof. repeat (apply Forall_cons_2; [apply demo_client_ok; exact I|]). apply Forall_nil_2. Qed.

Lemma demo_steps : steps 2 (demo_world, demo_pool) [EvAdd 7; EvGet 7] demo_end.
Proof.
  assert (trace_of demo_run = [EvAdd 7; EvGet 7]) as <- by (vm_compute; reflexivity).
  apply run_end. vm_compute. reflexivity.
Qed.

Lemma mailbox_is_fifo_witness :
  ∃ q, [7] = [7] ++ q ∧ length q ≤ 2 ∧ (w_sems demo_end.1 InnerMtx = 0 → contents (w_box demo_end.1) = q).
Proof.
  exact (proj1 (mailbox_is_fifo 2 demo_world demo_pool _ demo_end (conj eq_refl eq_refl)
    demo_world_fresh demo_clients demo_steps)).
Defined.

Lemma mailbox_discipline_witness :
  ∃ hs q, Forall2 (λ h p, wtp 2 p h ends_empty) hs demo_end.2 ∧
    (∀ i h, demo_end.2 !! i = Some (Ret tt) → hs !! i = Some h → h = nothing) ∧
    (∀ s, total s hs = w_sems demo_end.1 s - base 2 q s ∧ w_sems demo_end.1 s ≤ sem_max 2 s) ∧
    ∀ i j h h', i ≠ j → hs !! i = Some h → hs !! j = Some h' →
      (h_add h && h_add h') || (h_get h && h_get h') = false ∧ (h_crit h = None ∨ h_crit h' = None).
Proof.
  exact (mailbox_discipline 2 demo_world demo_pool _ demo_end (conj eq_refl eq_refl)
    demo_world_fresh demo_clients demo_steps).
Defined.

(** Two readers of an empty mailbox: one has the mutex and waits for a byte, the
    other waits for the mutex. *)
Definition readers : list (prog unit) := [demo_client (CallGet (-1) 0); demo_client (CallGet (-1) 0)].
Definition readers_run : outcome (list event * config unit) := run 2 [(0%nat, false)] (demo_world, readers).
Definition readers_end : config unit := end_of (demo_world, readers) readers_run.

Lemma readers_steps : steps 2 (demo_world, readers) [] readers_end.
Proof.
  assert (trace_of readers_run = []) as <- by (vm_compute; reflexivity).
  apply run_end. vm_compute. reflexivity.
Qed.

Lemma readers_stuck i : ¬ can_step 2 i readers_end.
Proof.
  intros (late & tr & c & E).
  assert (is_done (exec_step 2 i late readers_end) = true) as H by (by rewrite E).
  destruct i as [|[|i]]; [destruct late; vm_compute in H; discriminate..|].
  destruct late; vm_compute in H; discriminate.
Qed.

Lemma mailbox_no_deadlock_witness :
  Forall at_rest readers_end.2 ∨
  (contents (w_box readers_end.1) = [] ∧ Forall (λ p, at_rest p ∨ waits [GetMtx; FullSem] p) readers_end.2) ∨
  (Z.of_nat (length (contents (w_box readers_end.1))) = 2 ∧
   Forall (λ p, at_rest p ∨ waits [AddMtx; EmptySem] p) readers_end.2).
Proof.
  apply (mailbox_no_deadlock 2 demo_world readers [] readers_end); [split; reflexivity|exact demo_world_fresh| | |].
  - repeat (apply Forall_cons_2; [apply demo_client_ok; exact I|]). apply Forall_nil_2.
  - exact readers_steps.
  - exact readers_stuck.
Defined.
