(* ===== verification/MailboxKernel.v ===== *)
(** * Mailboxes on the kernel's semaphores

    The counting semaphores under which mailboxes are verified are what
    [AcquireSemaphore] and [ReleaseSemaphoreEx] implement for a thread that runs
    while nobody waits on the mailbox: a call that returns over counts returns the
    same over the scheduler's state, and [MailboxCreate] sets up the counts the
    theorems start from. *)

From S2P Require Import Prelude Transfer Buffers ThreadList Scheduler Timer Semaphore SchedulerInv SchedulerSteps.
From S2P Require Import SchedulerTheorems Mailbox MailboxConc.

(** ** Releasing several units

    [j] rounds of the loop: until the count asked for or the semaphore runs out. *)
Lemma release_loop_run sem mx (j : nat) : ∀ fuel k ready sleep waits cur d n,
  sched_inv k ready sleep waits → waits !! sem = Some [] → sems k !! sem = Some (Semaphore mx cur) →
  (j < fuel)%nat → S j ≤ cur → cur < 2 ^ 31 → 0 ≤ d → n < 2 ^ 31 → - 2 ^ 31 < n - cur →
  n ≤ 0 ∨ S j ≤ n → n = S j ∨ cur = S j →
  let k' := {| k with sems := <[sem := Semaphore mx (cur - S j)]> (sems k) |} in
  ReleaseSemaphoreEx_loop fuel sem n d k = Done (d + S j, k') ∧ sched_inv k' ready sleep waits.
Proof.
  induction j as [|j IH]; intros fuel k ready sleep waits cur d n Hi Hw Hs Hf Hc Hc' Hd Hn Hn' Hr Hend k';
    (destruct fuel as [|fuel]; [lia|]); cbn [ReleaseSemaphoreEx_loop]; rewrite bool_decide_false by lia;
    (destruct (DecrementSemaphore_free k ready sleep waits sem _ false Hi Hw Hs) as [E Hi']; [simpl; lia|]);
    rewrite (M_bind_done _ _ _ _ _ E); cbn [max_count current_count] in *;
    rewrite (M_bind_done _ _ _ _ _ (get_sem_run _ sem (Semaphore mx (cur - 1)) (lookup_insert_eq _ _ _)));
    cbn [current_count]; rewrite i32_small by lia.
  - rewrite decide_False by lia. split; [done|exact Hi'].
  - rewrite decide_True by lia.
    edestruct (IH fuel _ ready sleep waits (cur - 1) (d + 1) (n - 1) Hi' Hw) as [E' Hi'']; try lia.
    { simpl. by rewrite lookup_insert_eq. }
    cbn [sems] in E', Hi''. rewrite insert_insert_eq in E', Hi''.
    replace (cur - 1 - S j) with (cur - S (S j)) in * by lia.
    rewrite E'. replace (d + 1 + S j) with (d + S (S j)) by lia. by split.
Qed.

(** Units left after [ReleaseSemaphoreEx]. *)
Definition units_left (cur n : Z) : Z := if decide (n = 0) then 0 else Z.max 0 (cur - n).

Lemma kern_release_run others k ready sleep waits sem mx cur n :
  sched_inv k ready sleep waits → can_run k → waits !! sem = Some [] →
  sems k !! sem = Some (Semaphore mx cur) → 0 < cur < 2 ^ 31 → 0 ≤ n < 2 ^ 31 →
  let k' := {| k with sems := <[sem := Semaphore mx (units_left cur n)]> (sems k) |} in
  kern_release others sem n k = Done (tt, k') ∧ sched_inv k' ready sleep waits ∧ can_run k'.
Proof.
  intros Hi [Hul Hsw Hn Hr] Hw Hs Hcur Hnr k'. unfold kern_release.
  rewrite (M_bind_done _ _ _ _ _ (eq_refl (LockScheduler k))).
  set (k0 := {| k with scheduler_lock_count := _ |}).
  assert (sched_inv k0 ready sleep waits) as Hi0 by (by apply (inv_ext k)).
  rewrite (M_bind_done _ _ _ _ _ (get_sem_run k0 _ _ Hs)). cbn [current_count].
  unfold ReleaseSemaphoreEx. rewrite decide_False by lia.
  set (j := Z.to_nat ((if decide (n = 0) then cur else Z.min n cur) - 1)).
  assert (Z.of_nat (S j) = if decide (n = 0) then cur else Z.min n cur) as Hj by (unfold j; case_decide; lia).
  destruct (release_loop_run sem mx j (Z.to_nat (Z.max n cur)) k0 ready sleep waits cur 0 n) as [E Hi'];
    try done; try (revert Hj; case_decide; lia).
  assert (cur - S j = units_left cur n) as Hleft by (rewrite Hj; unfold units_left; case_decide; lia).
  rewrite Hleft in E, Hi'.
  assert (sched_inv k' ready sleep waits) as Hk' by (by apply (inv_ext _ _ _ _ _ Hi')).
  split_and!; [|done|by split].
  rewrite (M_bind_done _ _ k0 (0 + S j) {| k0 with sems := <[sem := Semaphore mx (units_left cur n)]> (sems k0) |}).
  2: { rewrite (M_bind_done _ _ _ _ _ (get_sem_run k0 _ _ Hs)). cbn [current_count].
       rewrite bool_decide_true by lia. rewrite (M_bind_done _ _ k0 tt k0) by done. exact E. }
  rewrite UnlockScheduler_run by (simpl; lia). unfold dropped. cbn. rewrite Hsw.
  unfold k'. destruct k. simpl in *. by subst.
Qed.

(** No release of more units than an int holds. *)
Fixpoint small_releases {A} (p : prog A) : Prop :=
  match p with
  | Ret _ | Fail _ => True
  | Acquire _ _ k => ∀ r, small_releases (k r)
  | Release _ n k => n < 2 ^ 31 ∧ small_releases k
  | Stmt _ k => ∀ r, small_releases (k r)
  | Perform _ _ _ k => ∀ c tr, small_releases (k c tr)
  end.

Lemma small_bind {A B} (p : prog A) (k : A → prog B) :
  small_releases p → (∀ a, small_releases (k a)) → small_releases (p ≫= k).
Proof.
  change (p ≫= k) with (prog_bind k p). intros H Hk.
  induction p as [a|f|s t k' IH|s n p IH|st k' IH|c tr len k' IH]; simpl in *; auto.
  destruct H. auto.
Qed.

Lemma i32_bound z : i32 z < 2 ^ 31.
Proof. unfold i32. pose proof (Z.mod_pos_bound (z + 2 ^ 31) (2 ^ 32) ltac:(lia)). lia. Qed.
Lemma small_release s n : n < 2 ^ 31 → small_releases (ReleaseSem s n).
Proof. by split. Qed.
Lemma small_need {A} (o : option A) : small_releases (need o).
Proof. by destruct o. Qed.

Create HintDb small.
#[local] Hint Resolve small_bind small_release i32_bound small_need : small.
Ltac small := repeat first
  [ apply small_bind | apply small_need | apply small_release; (apply i32_bound || lia)
  | match goal with |- small_releases (match ?x with _ => _ end) => destruct x end
  | progress intros | by eauto with small | done ].

Lemma acquire_more_small n : ∀ sem a max, small_releases (acquire_more n sem a max).
Proof. induction n as [|n IH]; intros sem a max; cbn [acquire_more]; small. Qed.
#[local] Hint Resolve acquire_more_small : small.
Lemma add_bytes_small n : ∀ c i, small_releases (add_bytes n c i).
Proof. induction n as [|n IH]; intros c i; cbn [add_bytes]; small. Qed.
Lemma get_bytes_small n : ∀ c i, small_releases (get_bytes n c i).
Proof. induction n as [|n IH]; intros c i; cbn [get_bytes]; unfold get_byte; small. Qed.
#[local] Hint Resolve add_bytes_small get_bytes_small : small.
Lemma wait_addable_small t : small_releases (MailboxWaitAddableInternal t).
Proof. unfold MailboxWaitAddableInternal. small. Qed.
Lemma wait_gettable_small t : small_releases (MailboxWaitGettableInternal t).
Proof. unfold MailboxWaitGettableInternal. small. Qed.
#[local] Hint Resolve wait_addable_small wait_gettable_small : small.
Lemma MailboxAddMany_small t c max : small_releases (MailboxAddMany t c max).
Proof. unfold MailboxAddMany. small. Qed.
Lemma MailboxGetMany_small t c max : small_releases (MailboxGetMany t c max).
Proof. unfold MailboxGetMany. small. Qed.
#[local] Hint Resolve MailboxAddMany_small MailboxGetMany_small : small.
Lemma MailboxAccess_loop_small fuel : ∀ any tr, small_releases (MailboxAccess_loop fuel any tr).
Proof. induction fuel as [|fuel IH]; intros any tr; cbn [MailboxAccess_loop]; small. Qed.
#[local] Hint Resolve MailboxAccess_loop_small : small.

Lemma call_small cl : small_releases (call_prog cl).
Proof.
  destruct cl; cbn [call_prog]; unfold MailboxWaitAddable, MailboxWaitGettable, MailboxAdd, MailboxGet,
    MailboxAccess, add_byte, get_byte; small.
Qed.

(** ** Counts as a view of the kernel state

    The running thread is inside no other call, the five semaphores exist and
    nobody waits on them. *)
Definition backed (size : Z) (m : mailbox) (k : kern) (f : counts) : Prop :=
  can_run k ∧ ∃ ready sleep waits, sched_inv k ready sleep waits ∧
    ∀ s, sem_of m s ≠ NULL ∧ sems k !! sem_of m s = Some (Semaphore (sem_max size s) (f s)) ∧
         waits !! sem_of m s = Some [].

Definition distinct_sems (m : mailbox) : Prop := ∀ s s', sem_of m s = sem_of m s' → s = s'.

Section refinement.
Context (others : M kern unit) (size : Z) (m : mailbox).
Context (size_ok : 0 < size < 2 ^ 31) (distinct : distinct_sems m).

Lemma backed_set k f k' s n ready sleep waits :
  (∀ s, sem_of m s ≠ NULL ∧ sems k !! sem_of m s = Some (Semaphore (sem_max size s) (f s)) ∧
        waits !! sem_of m s = Some []) →
  sems k' = <[sem_of m s := Semaphore (sem_max size s) n]> (sems k) → can_run k' →
  sched_inv k' ready sleep waits → backed size m k' (set_count s n f).
Proof.
  intros Hs Hsems Hcr Hi. split; [done|]. exists ready, sleep, waits. split; [done|].
  intros s'. destruct (Hs s') as (Hn & Hc & Hw). split_and!; [done| |done].
  rewrite Hsems. unfold set_count. case_decide as Hd; [subst; apply lookup_insert_eq|].
  rewrite lookup_insert_ne; [done|]. intros E. by apply Hd, distinct.
Qed.

Lemma acquire_refines k f s t r f' :
  backed size m k f → count_acquire size s t f = Done (r, f') →
  ∃ k', AcquireSemaphore others (sem_of m s) t k = Done (r, k') ∧ backed size m k' f'.
Proof.
  intros (Hcr & ready & sleep & waits & Hi & Hs) E. destruct (Hs s) as (Hn & Hsem & Hw).
  unfold count_acquire in E. revert E. mred. cbn [outcome_bind].
  destruct (AcquireSemaphore_run others k ready sleep waits (sem_of m s) _ t Hi Hcr Hn Hsem)
    as [(Hlt & k' & E & Hsems & Hi' & _ & Hcr')|[(Hge & -> & k' & E & Hsems & Hi' & _ & Hcr')|(Hge & Ht & _)]];
    cbn [current_count max_count] in *.
  - rewrite decide_True by done. mred. intros [= <- <-]. exists k'. split; [done|].
    by apply (backed_set k f k' s _ ready sleep waits).
  - rewrite decide_False, decide_True by lia. mred. intros [= <- <-]. exists k'. split; [done|].
    split; [done|]. exists ready, sleep, waits. split; [done|]. intros s'. by rewrite Hsems.
  - rewrite decide_False, decide_False by lia. done.
Qed.

Lemma release_refines k f s n f' :
  backed size m k f → n < 2 ^ 31 → count_release s n f = Done (tt, f') →
  ∃ k', kern_release others (sem_of m s) n k = Done (tt, k') ∧ backed size m k' f'.
Proof.
  intros Hb Hn E. pose proof Hb as (Hcr & ready & sleep & waits & Hi & Hs). destruct (Hs s) as (Hnn & Hsem & Hw).
  unfold count_release in E. destruct (decide (n < 0)) as [Hneg|Hpos].
  { injection E as <-. exists k. split; [|done]. unfold kern_release.
    rewrite (M_bind_done _ _ _ _ _ (eq_refl (LockScheduler k))). destruct Hcr as [Hul Hsw _ _].
    set (k0 := {| k with scheduler_lock_count := _ |}).
    rewrite (M_bind_done _ _ _ _ _ (get_sem_run k0 _ _ Hsem)).
    rewrite (M_bind_done _ _ k0 0 k0) by (unfold ReleaseSemaphoreEx; by rewrite decide_True).
    rewrite UnlockScheduler_run by (simpl; lia). unfold dropped. cbn. rewrite Hsw. unfold k0. destruct k. simpl in *. by subst. }
  revert E. mred. case_bool_decide as Hc; [|done]. mred. intros [= <-].
  destruct (counted_sem _ _ _ _ (sv_counted _ _ _ _ Hi) Hsem) as (ws & _ & Hrange & _). cbn [max_count current_count] in *.
  assert (sem_max size s ≤ size) by (destruct s; simpl; lia).
  destruct (kern_release_run others k ready sleep waits (sem_of m s) (sem_max size s) (f s) n Hi Hcr Hw Hsem)
    as (E & Hi' & Hcr'); [lia..|].
  eexists. split; [exact E|]. by eapply (backed_set k f _ s _ ready sleep waits).
Qed.

Lemma interp_refines {A} (p : prog A) k f b x a f' b' x' :
  small_releases p → backed size m k f →
  @interp counts (count_sem_ops size) A p (World f b x) = Done (a, World f' b' x') →
  ∃ k', @interp kern (kern_sem_ops others m) A p (World k b x) = Done (a, World k' b' x') ∧ backed size m k' f'.
Proof.
  revert k f b x. induction p as [a0|e|s t kp IH|s n p IH|st kp IH|c tr len kp IH]; intros k f b x Hsm Hb E;
    cbn [interp small_releases] in *.
  - injection E as <- <- <- <-. by exists k.
  - by destruct e.
  - unfold on_sems in *. revert E. mred. cbn [sem_acquire count_sem_ops kern_sem_ops w_sems].
    destruct (count_acquire size s t f) as [[r f1]| | | |] eqn:E1; try done. simpl. intros E.
    destruct (acquire_refines k f s t r f1 Hb E1) as (k1 & -> & Hb1). simpl. by apply (IH r k1 f1).
  - destruct Hsm as [Hn Hsm]. unfold on_sems in *. revert E. mred. cbn [sem_release count_sem_ops kern_sem_ops w_sems].
    destruct (count_release s n f) as [[[] f1]| | | |] eqn:E1; try done. simpl. intros E.
    destruct (release_refines k f s n f1 Hb Hn E1) as (k1 & -> & Hb1). simpl. by apply (IH k1 f1).
  - unfold on_box in *. revert E. mred. cbn [w_box w_sems w_mem].
    destruct (exec_stmt st b) as [[r b1]| | | |]; try done. simpl. intros E. by apply (IH r k f).
  - unfold on_mem in *. revert E. mred. cbn [w_box w_sems w_mem].
    destruct (PerformTransfer (Some c) tr len x) as [[[[st c1] tr1] x1]| | | |]; try done. simpl. intros E.
    by apply (IH c1 tr1 k f).
Qed.
End refinement.

(** ** Creation *)
Lemma CreateSemaphore_run k ready sleep waits sem mx n :
  sched_inv k ready sleep waits → sems k !! sem = None →
  sem ≠ NULL → sem ≠ ready_list → sem ≠ sleep_list → 0 ≤ n ≤ mx → 1 ≤ mx →
  let k' := {| k with sems := <[sem := Semaphore mx n]> (sems k);
                      lists := <[sem := ThreadListHdr NULL NULL NEXT_INDEX_SEMAPHORE]> (lists k) |} in
  CreateSemaphore sem mx n k = Done (tt, k') ∧ sched_inv k' ready sleep (<[sem := []]> waits) ∧
  waits !! sem = None.
Proof.
  intros [Hl Hp Hc] Hs Hn Hr Hsl Hrange Hmx k'.
  assert (waits !! sem = None) as Hw.
  { apply eq_None_not_Some. intros Hw. apply (proj1 Hc) in Hw. rewrite Hs in Hw. by destruct Hw. }
  split_and!; [done| |done]. split.
  - destruct Hl as [Hrd Hsp Hws Hd Hv].
    assert (∀ l idx xs, l ≠ sem → list_rep k l idx xs → list_rep k' l idx xs) as Hrep.
    { intros l idx xs Hne [H1 H2 H3]. split; [|exact H2|done]. simpl. by rewrite lookup_insert_ne. }
    split; [by apply Hrep|by apply Hrep| | |exact Hv].
    + intros s ws H. apply lookup_insert_Some in H as [[<- <-]|[Hne H]].
      * split_and!; [|done..]. split; [|done|constructor]. simpl. by rewrite lookup_insert_eq.
      * destruct (Hws s ws H) as (H1 & H2). split; [by apply Hrep|done].
    + intros s1 s2 w1 w2 x H1 H2 Hx1 Hx2.
      apply lookup_insert_Some in H1 as [[<- <-]|[_ H1]]; [by apply elem_of_nil in Hx1|].
      apply lookup_insert_Some in H2 as [[<- <-]|[_ H2]]; [by apply elem_of_nil in Hx2|]. by eapply Hd.
  - destruct Hp as [H1 H2 H3 H4]. split; [done| | |done].
    + intros s ws x H Hx. apply lookup_insert_Some in H as [[<- <-]|[_ H]]; [by apply elem_of_nil in Hx|]. by eapply H2.
    + intros x Hx. destruct (H3 x Hx) as (Hnr & t & Ht & Hst). split; [done|]. exists t. split; [done|].
      destruct Hst as [?|(? & ws & Hws & Hx')]; [by left|right]. split; [done|]. exists ws. split; [|done].
      rewrite lookup_insert_ne; [done|]. intros ->. by rewrite Hw in Hws.
  - destruct Hc as [Hdom Hcnt]. split.
    + intros s. simpl. destruct (decide (s = sem)) as [->|Hne]; [rewrite !lookup_insert_eq; by split; eauto|].
      rewrite !lookup_insert_ne by done. apply Hdom.
    + intros s v ws Hv' Hw'. simpl in Hv'. apply lookup_insert_Some in Hw' as [[<- <-]|[Hne Hw']].
      * rewrite lookup_insert_eq in Hv'. by injection Hv' as <-.
      * rewrite lookup_insert_ne in Hv' by done. by eapply Hcnt.
Qed.

(** Semaphores that exist with these limits and counts, and no waiter. *)
Definition made (k : kern) (l : list (Z * semaphore)) : Prop :=
  can_run k ∧ ∃ ready sleep waits, sched_inv k ready sleep waits ∧
    Forall (λ '(a, s), a ≠ NULL ∧ sems k !! a = Some s ∧ waits !! a = Some []) l.

Definition fresh_address (k : kern) (a : Z) : Prop :=
  sems k !! a = None ∧ a ≠ NULL ∧ a ≠ ready_list ∧ a ≠ sleep_list.

Lemma create_made k l a mx n :
  made k l → fresh_address k a → 0 ≤ n ≤ mx → 1 ≤ mx →
  ∃ k', CreateSemaphore a mx n k = Done (tt, k') ∧ made k' ((a, Semaphore mx n) :: l) ∧
    ∀ b, b ≠ a → fresh_address k b → fresh_address k' b.
Proof.
  intros (Hcr & ready & sleep & waits & Hi & Hl) (Hf & Hn & Hr & Hsl) Hrange Hmx.
  destruct (CreateSemaphore_run k ready sleep waits a mx n Hi Hf Hn Hr Hsl Hrange Hmx) as (E & Hi' & Hw).
  eexists. split; [exact E|]. split.
  - split; [destruct Hcr; by split|]. exists ready, sleep, (<[a := []]> waits). split; [exact Hi'|].
    constructor; [simpl; by rewrite !lookup_insert_eq|].
    eapply Forall_impl; [exact Hl|]. intros [b s] (Hb & Hs & Hwb). simpl.
    assert (a ≠ b) by (intros ->; congruence). by rewrite !lookup_insert_ne.
  - intros b Hne (? & ?). split; [|done]. simpl. by rewrite lookup_insert_ne.
Qed.

(** The addresses of five semaphores just allocated. *)
Definition fresh_addresses (k : kern) (l : list Z) : Prop := NoDup l ∧ Forall (fresh_address k) l.

Lemma create_fresh k l a addrs mx n :
  made k l → fresh_addresses k (a :: addrs) → 0 ≤ n ≤ mx → 1 ≤ mx →
  ∃ k', CreateSemaphore a mx n k = Done (tt, k') ∧ made k' ((a, Semaphore mx n) :: l) ∧ fresh_addresses k' addrs.
Proof.
  intros Hm [[Ha Hnd]%NoDup_cons [Hf Hfs]%Forall_cons] Hrange Hmx.
  destruct (create_made k l a mx n Hm Hf Hrange Hmx) as (k' & E & Hm' & Hfr).
  exists k'. split; [done|split; [done|split; [done|]]]. apply Forall_forall. intros b Hb. apply Hfr; [by intros ->|].
  by eapply Forall_forall in Hfs.
Qed.

Lemma backed_exists k ready sleep waits size buffer full empty add get inner :
  sched_inv k ready sleep waits → can_run k → 0 < size →
  fresh_addresses k [full; empty; add; get; inner] →
  ∃ m k', MailboxCreate size buffer full empty add get inner k = Done (m, k') ∧
    backed size m k' (initial_counts size) ∧ distinct_sems m ∧
    data m = buffer ∧ total_size m = size ∧ used_size m = 0 ∧ start_pos m = 0 ∧ end_pos m = 0.
Proof.
  intros Hi Hcr Hsz Hfr. unfold MailboxCreate, CreateMutex.
  assert (distinct_sems (Mailbox buffer size 0 0 0 full empty add get inner)) as Hdis.
  { destruct Hfr as [Hnd _]. repeat (apply NoDup_cons in Hnd as [? Hnd]; repeat rewrite not_elem_of_cons in * ).
    intros [] [] Heq; simpl in Heq; try done; exfalso; destruct_and?; congruence. }
  assert (made k []) as H0 by (split; [done|]; by exists ready, sleep, waits).
  destruct (create_fresh k _ _ _ size size H0 Hfr) as (k1 & E1 & H1 & F1); [lia..|].
  destruct (create_fresh k1 _ _ _ size 0 H1 F1) as (k2 & E2 & H2 & F2); [lia..|].
  destruct (create_fresh k2 _ _ _ 1 0 H2 F2) as (k3 & E3 & H3 & F3); [lia..|].
  destruct (create_fresh k3 _ _ _ 1 0 H3 F3) as (k4 & E4 & H4 & F4); [lia..|].
  destruct (create_fresh k4 _ _ _ 1 0 H4 F4) as (k5 & E5 & (Hcr5 & r5 & s5 & w5 & Hi5 & H5) & _); [lia..|].
  rewrite (M_bind_done _ _ _ _ _ E1), (M_bind_done _ _ _ _ _ E2), (M_bind_done _ _ _ _ _ E3),
    (M_bind_done _ _ _ _ _ E4), (M_bind_done _ _ _ _ _ E5).
  do 2 eexists. split; [reflexivity|]. split; [|done]. split; [done|]. exists r5, s5, w5. split; [done|].
  rewrite !Forall_cons in H5. destruct H5 as (? & ? & ? & ? & ? & _). intros []; done.
Qed.

(** A mailbox that [MailboxCreate] made is backed by its semaphores, with the
    counts and the ring the queue theorems start from. *)
Theorem MailboxCreate_backed k ready sleep waits size buffer full empty add get inner :
  sched_inv k ready sleep waits → can_run k → 0 < size →
  fresh_addresses k [full; empty; add; get; inner] →
  ∃ m k', MailboxCreate size buffer full empty add get inner k = Done (m, k') ∧
    backed size m k' (initial_counts size) ∧ distinct_sems m ∧
    data m = buffer ∧ total_size m = size ∧ used_size m = 0 ∧ start_pos m = 0 ∧ end_pos m = 0.
Proof. apply backed_exists. Qed.

(** C10: Every mailbox call that returns over counting semaphores returns the same,
    with the same mailbox and memory, over the kernel's own semaphores, for a
    running thread while nobody waits on the mailbox, whatever other threads
    would do; afterwards the kernel's semaphores hold the counts again. *)
Theorem kernel_refines_counts others size m cl k f b x r f' b' x' :
  0 < size < 2 ^ 31 → distinct_sems m → backed size m k f →
  @interp counts (count_sem_ops size) reply (call_prog cl) (World f b x) = Done (r, World f' b' x') →
  ∃ k', @interp kern (kern_sem_ops others m) reply (call_prog cl) (World k b x) = Done (r, World k' b' x') ∧
    backed size m k' f'.
Proof. intros Hsz Hd. apply interp_refines; [done|done|apply call_small]. Qed.

Lemma kern0_fresh : fresh_addresses kern0 [200; 201; 202; 203; 204].
Proof.
  split; [apply (bool_decide_unpack _); by vm_compute|].
  repeat (apply Forall_cons_2; [by split_and!|]). apply Forall_nil_2.
Qed.

Lemma MailboxCreate_backed_witness :
  ∃ m k', MailboxCreate 2 [0; 0] 200 201 202 203 204 kern0 = Done (m, k') ∧
    backed 2 m k' (initial_counts 2) ∧ distinct_sems m ∧
    data m = [0; 0] ∧ total_size m = 2 ∧ used_size m = 0 ∧ start_pos m = 0 ∧ end_pos m = 0.
Proof.
  exact (MailboxCreate_backed kern0 [11] [] waits0 2 [0; 0] 200 201 202 203 204
    kern0_inv kern0_can_run eq_refl kern0_fresh).
Defined.

(** A byte is added to a mailbox just created. *)
Definition add_world (f : counts) : world counts := World f (Mailbox [0; 0] 2 0 0 0 200 201 202 203 204) (Memory ∅ ∅).
Definition added_world : world counts :=
  match @interp counts (count_sem_ops 2) reply (call_prog (CallAdd 0 7)) (add_world (initial_counts 2)) with
  | Done (_, w) => w
  | _ => add_world (initial_counts 2)
  end.

Lemma kernel_refines_counts_witness :
  ∃ m k k', backed 2 m k (initial_counts 2) ∧
    @interp kern (kern_sem_ops (mret tt) m) reply (call_prog (CallAdd 0 7))
      (World k (w_box (add_world (initial_counts 2))) (Memory ∅ ∅))
    = Done (Status 0, World k' (Mailbox [7; 0] 2 1 0 1 200 201 202 203 204) (Memory ∅ ∅)) ∧
    backed 2 m k' (w_sems added_world).
Proof.
  assert (∃ m k, backed 2 m k (initial_counts 2) ∧ distinct_sems m) as (m & k & Hb & Hd).
  { destruct (backed_exists kern0 [11] [] waits0 2 [0; 0] 200 201 202 203 204
      kern0_inv kern0_can_run eq_refl kern0_fresh) as (m & k & _ & Hb & Hd & _). by exists m, k. }
  destruct (kernel_refines_counts (mret tt) 2 m (CallAdd 0 7) k (initial_counts 2)
    (w_box (add_world (initial_counts 2))) (Memory ∅ ∅) (Status 0) (w_sems added_world)
    (Mailbox [7; 0] 2 1 0 1 200 201 202 203 204) (Memory ∅ ∅)) as (k' & E & Hb');
    [split; reflexivity|exact Hd|exact Hb|vm_compute; reflexivity|].
  exists m, k, k'. split; [exact Hb|]. split; [exact E|exact Hb'].
Defined.
