(* ===== verification/MailboxAccess.v ===== *)
(** * Transfers through a mailbox

    What the calls do for a thread that is alone with the mailbox, over counting
    semaphores: how many bytes move, and where they end up. *)

From S2P Require Import Prelude Physical Transfer Buffers ThreadList Scheduler Semaphore Mailbox MailboxConc MailboxTheorems.

(** ** Calls alone *)
Section alone.
Context (size : Z) (size_small : size < 2 ^ 31).
#[local] Instance alone_ops : SemOps counts := count_sem_ops size.
Implicit Types (f : counts) (b : mailbox) (x : memory).

Lemma interp_bind {A B} (p : prog A) (k : A → prog B) (w : world counts) :
  interp (p ≫= k) w = (interp p ≫= λ a, interp (k a)) w.
Proof.
  change (p ≫= k) with (prog_bind k p).
  revert w. induction p as [a|e|s t k' IH|s n p IH|st k' IH|c tr len k' IH]; intros w; cbn [prog_bind interp].
  - done.
  - by destruct e.
  - mred. destruct (on_sems (sem_acquire s t) w) as [[r w1]| | | |]; simpl; [|done..]. apply IH.
  - mred. destruct (on_sems (sem_release s n) w) as [[r w1]| | | |]; simpl; [|done..]. apply IH.
  - mred. destruct (on_box (exec_stmt st) w) as [[r w1]| | | |]; simpl; [|done..]. apply IH.
  - mred. destruct (on_mem (PerformTransfer (Some c) tr len) w) as [[[[? ?] ?] w1]| | | |]; simpl; [|done..]. apply IH.
Qed.

Lemma interp_bind_done {A B} (p : prog A) (k : A → prog B) (w w' : world counts) a :
  interp p w = Done (a, w') → interp (p ≫= k) w = interp (k a) w'.
Proof. intros E. rewrite interp_bind. by rewrite (M_bind_done _ _ _ _ _ E). Qed.
Lemma interp_bind_blocked {A B} (p : prog A) (k : A → prog B) (w : world counts) :
  interp p w = Blocked → interp (p ≫= k) w = Blocked.
Proof. intros E. rewrite interp_bind. mred. by rewrite E. Qed.

(** The counts, in the order add, get, inner, empty, full. *)
Definition counts_are f (a g i e u : Z) : Prop :=
  f AddMtx = a ∧ f GetMtx = g ∧ f InnerMtx = i ∧ f EmptySem = e ∧ f FullSem = u.

(** Nobody is inside a call, and the ring holds [q]. *)
Definition holds f b (q : list Z) : Prop :=
  counts_are f 0 0 0 (length q) (size - length q) ∧ ∃ s0, ring size b s0 q None.

Lemma acquire_free s t f b x : f s < sem_max size s →
  interp (AcquireSem s t) (World f b x) = Done (0, World (set_count s (f s + 1) f) b x).
Proof.
  intros H. unfold AcquireSem. cbn [interp]. unfold on_sems, sem_acquire, alone_ops, count_sem_ops, count_acquire. mred. cbn [w_sems w_box w_mem].
  by destruct (decide (f s < sem_max size s)); [|lia].
Qed.
Lemma acquire_taken s t f b x : sem_max size s ≤ f s →
  interp (AcquireSem s t) (World f b x) = if decide (t = 0) then Done (EAGAIN, World f b x) else Blocked.
Proof.
  intros H. unfold AcquireSem. cbn [interp]. unfold on_sems, sem_acquire, alone_ops, count_sem_ops, count_acquire. mred. cbn [w_sems w_box w_mem].
  destruct (decide (f s < sem_max size s)); [lia|]. by destruct (decide (t = 0)).
Qed.
Lemma release_some s n f b x : 0 < n ≤ f s →
  interp (ReleaseSem s n) (World f b x) = Done (tt, World (set_count s (f s - n) f) b x).
Proof.
  intros H. unfold ReleaseSem. cbn [interp]. unfold on_sems, sem_release, alone_ops, count_sem_ops, count_release. rewrite decide_False by lia. mred. cbn [w_sems w_box w_mem].
  rewrite bool_decide_true by lia. mred. rewrite decide_False by lia. by rewrite Z.max_r by lia.
Qed.
Lemma stmt_done st r f b b' x : exec_stmt st b = Done (r, b') →
  interp (do_stmt st) (World f b x) = Done (r, World f b' x).
Proof. intros E. unfold do_stmt. cbn [interp]. unfold on_box. mred. cbn [w_sems w_box w_mem]. by rewrite E. Qed.

(** Update the description of the counts. *)
Ltac counts := unfold counts_are, set_count in *; simpl in *; destruct_and?; split_and!; simpl; lia.
Ltac next E := rewrite (interp_bind_done _ _ _ _ _ E).

Lemma wait_addable_alone t f b x q :
  holds f b q →
  (length q < size → ∃ f', interp (MailboxWaitAddableInternal t) (World f b x) = Done (0, World f' b x) ∧
     counts_are f' 1 0 0 (length q + 1) (size - length q)) ∧
  (Z.of_nat (length q) = size → (t ≠ 0 → interp (MailboxWaitAddableInternal t) (World f b x) = Blocked) ∧
     (t = 0 → ∃ f', interp (MailboxWaitAddableInternal t) (World f b x) = Done (EAGAIN, World f' b x) ∧ holds f' b q)).
Proof.
  intros [Hc Hr]. pose proof Hc as (Ha & Hg & Hi & He & Hu). unfold MailboxWaitAddableInternal.
  assert (f AddMtx < sem_max size AddMtx) as Hfree by (simpl; lia).
  next (acquire_free AddMtx t f b x Hfree). rewrite decide_False by lia.
  set (f1 := set_count AddMtx _ f). assert (f1 EmptySem = length q) as He1 by done.
  split.
  - intros Hl. assert (f1 EmptySem < sem_max size EmptySem) as Hf1 by (simpl; lia).
    next (acquire_free EmptySem t f1 b x Hf1). rewrite decide_False by lia.
    eexists. split; [done|]. subst f1. counts.
  - intros Hl. assert (sem_max size EmptySem ≤ f1 EmptySem) as Hf1 by (simpl; lia).
    pose proof (acquire_taken EmptySem t f1 b x Hf1) as E. split.
    + intros Ht. rewrite decide_False in E by done. by apply interp_bind_blocked.
    + intros ->. rewrite decide_True in E by done. next E. rewrite decide_True by done.
      assert (0 < 1 ≤ f1 AddMtx) as Hrel by (unfold f1, set_count; simpl; lia).
      next (release_some AddMtx 1 f1 b x Hrel). eexists. split; [done|]. split; [|done]. subst f1. counts.
Qed.

Lemma wait_gettable_alone t f b x q :
  holds f b q →
  (0 < length q → ∃ f', interp (MailboxWaitGettableInternal t) (World f b x) = Done (0, World f' b x) ∧
     counts_are f' 0 1 0 (length q) (size - length q + 1)) ∧
  (q = [] → (t ≠ 0 → interp (MailboxWaitGettableInternal t) (World f b x) = Blocked) ∧
     (t = 0 → ∃ f', interp (MailboxWaitGettableInternal t) (World f b x) = Done (EAGAIN, World f' b x) ∧ holds f' b q)).
Proof.
  intros [Hc Hr]. pose proof Hc as (Ha & Hg & Hi & He & Hu). unfold MailboxWaitGettableInternal.
  assert (f GetMtx < sem_max size GetMtx) as Hfree by (simpl; lia).
  next (acquire_free GetMtx t f b x Hfree). rewrite decide_False by lia.
  set (f1 := set_count GetMtx _ f). assert (f1 FullSem = size - length q) as He1 by done.
  split.
  - intros Hl. assert (f1 FullSem < sem_max size FullSem) as Hf1 by (simpl; lia).
    next (acquire_free FullSem t f1 b x Hf1). rewrite decide_False by lia.
    eexists. split; [done|]. subst f1. counts.
  - intros ->. assert (sem_max size FullSem ≤ f1 FullSem) as Hf1 by (rewrite He1; simpl; lia).
    pose proof (acquire_taken FullSem t f1 b x Hf1) as E. split.
    + intros Ht. rewrite decide_False in E by done. by apply interp_bind_blocked.
    + intros ->. rewrite decide_True in E by done. next E. rewrite decide_True by done.
      assert (0 < 1 ≤ f1 GetMtx) as Hrel by (unfold f1, set_count; simpl; lia).
      next (release_some GetMtx 1 f1 b x Hrel). eexists. split; [done|]. split; [|done]. subst f1. counts.
Qed.

(** As many more units as are free and asked for. *)
Lemma acquire_more_alone (s : mb_sem) max b x (n : nat) : ∀ a f,
  f s ≤ sem_max size s → max - a ≤ n →
  let k := Z.max 0 (Z.min (max - a) (sem_max size s - f s)) in
  ∃ f', interp (acquire_more n s a max) (World f b x) = Done (a + k, World f' b x) ∧
    f' s = f s + k ∧ ∀ s', s' ≠ s → f' s' = f s'.
Proof.
  induction n as [|n IH]; intros a f Hf Hn k; cbn [acquire_more].
  { exists f. assert (k = 0) as -> by lia. by rewrite !Z.add_0_r. }
  destruct (decide (a < max)) as [Hlt|Hge].
  2: { exists f. assert (k = 0) as -> by lia. by rewrite !Z.add_0_r. }
  destruct (decide (f s < sem_max size s)) as [Hfree|Htaken].
  - next (acquire_free s 0 f b x Hfree). rewrite decide_True by done.
    destruct (IH (a + 1) (set_count s (f s + 1) f)) as (f' & E & Hf' & Ho).
    { rewrite set_count_eq. lia. }
    { lia. }
    rewrite set_count_eq in *. exists f'. rewrite E. split_and!; [do 2 f_equal; lia|lia|].
    intros s' Hne. by rewrite Ho, set_count_ne.
  - assert (sem_max size s ≤ f s) as Ht by lia. pose proof (acquire_taken s 0 f b x Ht) as E.
    rewrite decide_True in E by done. next E. rewrite decide_False by done.
    exists f. assert (k = 0) as -> by lia. by rewrite !Z.add_0_r.
Qed.

Lemma add_byte_alone c f b x s0 q :
  ring size b s0 q (Some Idle) → length q < size →
  ∃ b', interp (add_byte c) (World f b x) = Done (tt, World f b' x) ∧ ring size b' s0 (q ++ [c]) (Some Idle).
Proof.
  intros Hr Hl. unfold add_byte.
  destruct (store_end_ring size b s0 q c Hr Hl) as (b1 & E1 & Hr1).
  destruct (next_end_ring size size_small b1 s0 _ Hr1) as (b2 & E2 & Hr2).
  destruct (inc_used_ring size size_small b2 s0 _ Hr2) as (b3 & E3 & Hr3).
  next (stmt_done _ _ f b b1 x E1). next (stmt_done _ _ f b1 b2 x E2). next (stmt_done _ _ f b2 b3 x E3).
  by exists b3.
Qed.

Lemma get_byte_alone f b x s0 c q :
  ring size b s0 (c :: q) (Some Idle) →
  ∃ b' s1, interp get_byte (World f b x) = Done (c, World f b' x) ∧ ring size b' s1 q (Some Idle).
Proof.
  intros Hr. unfold get_byte.
  destruct (load_start_ring size b s0 c q Hr) as (E1 & s1 & Hr1).
  destruct (next_start_ring size size_small b s1 _ Hr1) as (b2 & E2 & Hr2).
  destruct (dec_used_ring size size_small b2 s1 _ Hr2) as (b3 & E3 & Hr3).
  next (stmt_done _ _ f b b x E1). next (stmt_done _ _ f b b2 x E2). next (stmt_done _ _ f b2 b3 x E3).
  by exists b3, s1.
Qed.

Lemma add_bytes_alone (n : nat) : ∀ c (i : nat) f b x s0 q,
  ring size b s0 q (Some Idle) → length q + n ≤ size → (i + n ≤ length c)%nat →
  ∃ b', interp (add_bytes n c i) (World f b x) = Done (tt, World f b' x) ∧
    ring size b' s0 (q ++ take n (drop i c)) (Some Idle).
Proof.
  induction n as [|n IH]; intros c i f b x s0 q Hr Hl Hc; cbn [add_bytes].
  { exists b. by rewrite take_0, app_nil_r. }
  destruct (lookup_lt_is_Some_2 c i) as [y Hy]; [lia|].
  rewrite aget_nat, Hy. cbn [need]. next (eq_refl (interp (Ret y) (World f b x))).
  destruct (add_byte_alone y f b x s0 q Hr) as (b1 & E1 & Hr1); [lia|]. next E1.
  destruct (IH c (S i) f b1 x s0 _ Hr1) as (b2 & E2 & Hr2); [rewrite length_app; simpl; lia|lia|].
  exists b2. replace (i + 1) with (Z.of_nat (S i)) by lia. split; [done|].
  rewrite (drop_S c y i Hy). cbn [take]. by rewrite <- app_assoc in Hr2.
Qed.

Lemma get_bytes_alone (n : nat) : ∀ c (i : nat) f b x s0 q,
  ring size b s0 q (Some Idle) → (n ≤ length q)%nat → (i + n ≤ length c)%nat →
  ∃ b' s1, interp (get_bytes n c i) (World f b x)
      = Done (take i c ++ take n q ++ drop (i + n) c, World f b' x) ∧
    ring size b' s1 (drop n q) (Some Idle).
Proof.
  induction n as [|n IH]; intros c i f b x s0 q Hr Hl Hc; cbn [get_bytes].
  { exists b, s0. rewrite take_0, Nat.add_0_r, drop_0. simpl. by rewrite take_drop. }
  destruct q as [|y q]; [simpl in Hl; lia|].
  destruct (get_byte_alone f b x s0 y q Hr) as (b1 & s1 & E1 & Hr1). next E1.
  rewrite aset_nat by lia. cbn [need]. next (eq_refl (interp (Ret (<[i:=y]> c)) (World f b1 x))).
  destruct (IH (<[i:=y]> c) (S i) f b1 x s1 q Hr1) as (b2 & s2 & E2 & Hr2); [simpl in Hl; lia|rewrite length_insert; lia|].
  exists b2, s2. replace (i + 1) with (Z.of_nat (S i)) by lia. split; [|done]. rewrite E2. do 2 f_equal.
  rewrite (take_S_r _ i y) by (apply list_lookup_insert_eq; lia).
  rewrite take_insert_ge by lia. rewrite drop_insert_lt by lia.
  rewrite <- app_assoc. simpl. by replace (S (i + n)) with (i + S n)%nat by lia.
Qed.

Lemma ring_enter b s0 q : ring size b s0 q None → ring size b s0 q (Some Idle).
Proof. apply ring_idle. Qed.

(** [AddMany] puts in as much as there is room for. *)
Lemma AddMany_alone t c max f b x q :
  holds f b q → 0 < max → max ≤ length c →
  (Z.of_nat (length q) = size → t ≠ 0 → interp (MailboxAddMany t c max) (World f b x) = Blocked) ∧
  (Z.of_nat (length q) = size → t = 0 → ∃ f', interp (MailboxAddMany t c max) (World f b x)
     = Done ((EAGAIN, 0), World f' b x) ∧ holds f' b q) ∧
  (length q < size → let n := Z.min max (size - length q) in
     ∃ f' b', interp (MailboxAddMany t c max) (World f b x) = Done ((0, n), World f' b' x) ∧
       holds f' b' (q ++ take (Z.to_nat n) c)).
Proof.
  intros Hh Hmax Hc. unfold MailboxAddMany. rewrite decide_False by lia.
  destruct (wait_addable_alone t f b x q Hh) as [Hroom Hfull]. split_and!.
  - intros Hl Ht. apply interp_bind_blocked. by apply Hfull.
  - intros Hl Ht. destruct (proj2 (Hfull Hl) Ht) as (f' & E & Hh'). next E. rewrite decide_True by done. by exists f'.
  - intros Hl. set (n := Z.min max (size - length q)). destruct (Hroom Hl) as (f1 & E1 & Hc1). next E1. rewrite decide_False by lia.
    destruct Hh as (_ & s0 & Hr). destruct Hc1 as (Ha & Hg & Hi & He & Hu).
    destruct (acquire_more_alone EmptySem max b x (Z.to_nat (max - 1)) 1 f1) as (f2 & E2 & He2 & Ho2);
      [simpl; lia|lia|].
    cbn [sem_max] in *. rewrite He in *.
    replace (1 + Z.max 0 (Z.min (max - 1) (size - (length q + 1)))) with n in E2 by lia.
    assert (f2 EmptySem = length q + n) as He2' by lia.
    next E2. assert (f2 InnerMtx < sem_max size InnerMtx) as Hin by (rewrite Ho2 by done; simpl; lia).
    next (acquire_free InnerMtx (-1) f2 b x Hin). set (f3 := set_count InnerMtx _ f2).
    destruct (add_bytes_alone (Z.to_nat n) c 0 f3 b x s0 q (ring_enter _ _ _ Hr)) as (b' & E4 & Hr4); [lia|lia|].
    rewrite drop_0 in Hr4. next E4.
    assert (0 < 1 ≤ f3 InnerMtx) as H5 by (unfold f3, set_count; simpl; rewrite (Ho2 InnerMtx) by done; lia).
    next (release_some InnerMtx 1 f3 b' x H5). set (f4 := set_count InnerMtx _ f3).
    assert (0 < 1 ≤ f4 AddMtx) as H6 by (unfold f4, f3, set_count; simpl; rewrite (Ho2 AddMtx) by done; lia).
    next (release_some AddMtx 1 f4 b' x H6). set (f5 := set_count AddMtx _ f4).
    rewrite i32_small by lia.
    assert (0 < n ≤ f5 FullSem) as H7 by (unfold f5, f4, f3, set_count; simpl; rewrite (Ho2 FullSem) by done; lia).
    next (release_some FullSem n f5 b' x H7). do 2 eexists. split; [reflexivity|]. split.
    + rewrite length_app, length_take. unfold f5, f4, f3.
      pose proof (Ho2 AddMtx ltac:(done)). pose proof (Ho2 GetMtx ltac:(done)).
      pose proof (Ho2 InnerMtx ltac:(done)). pose proof (Ho2 FullSem ltac:(done)). counts.
    + exists s0. by apply ring_idle.
Qed.

(** [GetMany] takes as much as there is. *)
Lemma GetMany_alone t c max f b x q :
  holds f b q → 0 < max → max ≤ length c →
  (q = [] → t ≠ 0 → interp (MailboxGetMany t c max) (World f b x) = Blocked) ∧
  (q = [] → t = 0 → ∃ f', interp (MailboxGetMany t c max) (World f b x)
     = Done ((EAGAIN, c, 0), World f' b x) ∧ holds f' b q) ∧
  (0 < length q → let n := Z.min max (length q) in
     ∃ f' b', interp (MailboxGetMany t c max) (World f b x)
       = Done ((0, take (Z.to_nat n) q ++ drop (Z.to_nat n) c, n), World f' b' x) ∧
       holds f' b' (drop (Z.to_nat n) q)).
Proof.
  intros Hh Hmax Hc. unfold MailboxGetMany. rewrite decide_False by lia.
  destruct (wait_gettable_alone t f b x q Hh) as [Hroom Hfull]. split_and!.
  - intros Hl Ht. apply interp_bind_blocked. by apply Hfull.
  - intros Hl Ht. destruct (proj2 (Hfull Hl) Ht) as (f' & E & Hh'). next E. rewrite decide_True by done. by exists f'.
  - intros Hl. set (n := Z.min max (length q)). destruct (Hroom Hl) as (f1 & E1 & Hc1). next E1. rewrite decide_False by lia.
    destruct Hh as (_ & s0 & Hr). destruct Hc1 as (Ha & Hg & Hi & He & Hu).
    destruct (acquire_more_alone FullSem max b x (Z.to_nat (max - 1)) 1 f1) as (f2 & E2 & He2 & Ho2);
      [simpl; lia|lia|].
    cbn [sem_max] in *. rewrite Hu in *.
    replace (1 + Z.max 0 (Z.min (max - 1) (size - (size - length q + 1)))) with n in E2 by lia.
    assert (f2 FullSem = size - length q + n) as He2' by lia.
    pose proof (r_room _ _ _ _ _ Hr) as Hroomq.
    next E2. assert (f2 InnerMtx < sem_max size InnerMtx) as Hin by (rewrite Ho2 by done; simpl; lia).
    next (acquire_free InnerMtx (-1) f2 b x Hin). set (f3 := set_count InnerMtx _ f2).
    destruct (get_bytes_alone (Z.to_nat n) c 0 f3 b x s0 q (ring_enter _ _ _ Hr)) as (b' & s1 & E4 & Hr4); [lia|lia|].
    rewrite take_0 in E4. simpl in E4. next E4.
    assert (0 < 1 ≤ f3 InnerMtx) as H5 by (unfold f3, set_count; simpl; rewrite (Ho2 InnerMtx) by done; lia).
    next (release_some InnerMtx 1 f3 b' x H5). set (f4 := set_count InnerMtx _ f3).
    assert (0 < 1 ≤ f4 GetMtx) as H6 by (unfold f4, f3, set_count; simpl; rewrite (Ho2 GetMtx) by done; lia).
    next (release_some GetMtx 1 f4 b' x H6). set (f5 := set_count GetMtx _ f4).
    rewrite i32_small by lia.
    assert (0 < n ≤ f5 EmptySem) as H7 by (unfold f5, f4, f3, set_count; simpl; rewrite (Ho2 EmptySem) by done; lia).
    next (release_some EmptySem n f5 b' x H7). do 2 eexists. split; [reflexivity|]. split.
    + rewrite length_drop. unfold f5, f4, f3.
      pose proof (Ho2 AddMtx ltac:(done)). pose proof (Ho2 GetMtx ltac:(done)).
      pose proof (Ho2 InnerMtx ltac:(done)). pose proof (Ho2 EmptySem ltac:(done)). counts.
    + exists s1. by apply ring_idle.
Qed.
(** ** Accesses *)
Implicit Types (tr : transfer).

Definition mem_take x tr (n : Z) : list Z := load_bytes (bytes x) (address tr) (Z.to_nat n).
Definition mem_put x tr (l : list Z) : memory :=
  Memory (vas_entries x) (store_bytes (bytes x) (address tr) l).

(** The time-out of the call the loop makes. *)
Definition access_timeout tr (any : bool) : Z := if blockable tr && negb any then -1 else 0.

Lemma chunk_length : Z.of_nat (length chunk) = 256.
Proof. done. Qed.

(** One round of writing: nothing fits, or part of the chunk goes in. *)
Lemma write_round fuel any f b x tr q :
  is_write tr = true → usable x tr → 0 < length_remaining tr → holds f b q →
  let len := Z.min (length_remaining tr) 256 in
  let t := access_timeout tr any in
  (Z.of_nat (length q) = size → t ≠ 0 →
     interp (MailboxAccess_loop (S fuel) any tr) (World f b x) = Blocked) ∧
  (Z.of_nat (length q) = size → t = 0 → ∃ f',
     interp (MailboxAccess_loop (S fuel) any tr) (World f b x)
       = Done ((if any then 0 else EAGAIN, tr), World f' b x) ∧ holds f' b q) ∧
  (length q < size → let n := Z.min len (size - length q) in ∃ f' b',
     interp (MailboxAccess_loop (S fuel) any tr) (World f b x)
       = interp (MailboxAccess_loop fuel true (advance tr n)) (World f' b' x) ∧
     holds f' b' (q ++ mem_take x tr n)).
Proof.
  intros Hw Hu Hl Hh len t. cbn [MailboxAccess_loop]. rewrite decide_False by lia. rewrite Hw.
  fold (access_timeout tr any). fold t. unfold CHUNK_SIZE. fold len.
  set (c := load_bytes (bytes x) (address tr) (Z.to_nat len) ++ drop (Z.to_nat len) chunk).
  assert (Z.of_nat (length c) = 256) as Hc.
  { unfold c. rewrite length_app, length_load_bytes, length_drop. pose proof chunk_length. unfold len. lia. }
  assert (interp (perform chunk tr len) (World f b x) = Done ((c, advance tr len), World f b x)) as E1.
  { unfold perform. cbn [interp]. unfold on_mem. mred. cbn [w_mem w_sems w_box].
    rewrite (chunk_run x tr chunk len Hu) by (rewrite ?chunk_length; unfold len; lia). by rewrite Hw. }
  assert (u64 (length_remaining tr - length_remaining (advance tr len)) = len) as Htr.
  { rewrite (advance_run x) by (done || (unfold len; lia)). simpl.
    rewrite u64_small; unfold is_u64, len; destruct Hu; lia. }
  destruct (AddMany_alone t c len f b x q Hh) as (H1 & H2 & H3); [unfold len; lia|unfold len; lia|].
  split_and!.
  - intros Hf Ht. next E1. cbv beta iota. rewrite Htr.
    apply interp_bind_blocked. by apply H1.
  - intros Hf Ht. destruct (H2 Hf Ht) as (f' & E2 & Hh'). exists f'. split; [|done].
    next E1. cbv beta iota. rewrite Htr.
    next E2. cbv beta iota.
    rewrite (decide_True (P := len ≠ 0)) by (unfold len; lia).
    rewrite (decide_False (P := len < 0)) by (unfold len; lia).
    rewrite (revert_part x tr 0 len) by (done || (unfold len; lia)). rewrite (advance_zero x) by done.
    erewrite interp_bind_done by reflexivity. by rewrite decide_True by done.
  - intros Hr. set (n := Z.min len (size - length q)). destruct (H3 Hr) as (f' & b' & E2 & Hh').
    exists f', b'. split.
    + next E1. cbv beta iota. rewrite Htr.
      next E2. cbv beta iota. fold n.
      rewrite (interp_bind_done _ _ _ (World f' b' x) (advance tr n)); [by rewrite decide_False by lia|].
      destruct (decide (len ≠ n)) as [Hne|Heq].
      * rewrite decide_False by lia. rewrite (revert_part x tr n len); [done|done|unfold n, len in *; lia..].
      * apply dec_stable in Heq. by rewrite Heq.
    + unfold c in Hh'. fold n in Hh'. rewrite take_app_le in Hh' by (rewrite length_load_bytes; unfold n; lia).
      unfold mem_take. replace (Z.to_nat len) with (Z.to_nat n + Z.to_nat (len - n))%nat in Hh' by (unfold n, len in *; lia).
      rewrite load_bytes_app in Hh'.
      by rewrite take_app_le, take_ge in Hh' by (rewrite length_load_bytes; lia).
Qed.

(** One round of reading: nothing is there, or the first bytes come out. *)
Lemma read_round fuel any f b x tr q :
  is_write tr = false → usable x tr → 0 < length_remaining tr → holds f b q →
  let len := Z.min (length_remaining tr) 256 in
  let t := access_timeout tr any in
  (q = [] → t ≠ 0 → interp (MailboxAccess_loop (S fuel) any tr) (World f b x) = Blocked) ∧
  (q = [] → t = 0 → ∃ f',
     interp (MailboxAccess_loop (S fuel) any tr) (World f b x)
       = Done ((if any then 0 else EAGAIN, tr), World f' b x) ∧ holds f' b q) ∧
  (0 < length q → let n := Z.min len (length q) in ∃ f' b',
     interp (MailboxAccess_loop (S fuel) any tr) (World f b x)
       = interp (MailboxAccess_loop fuel true (advance tr n)) (World f' b' (mem_put x tr (take (Z.to_nat n) q))) ∧
     holds f' b' (drop (Z.to_nat n) q)).
Proof.
  intros Hw Hu Hl Hh len t. cbn [MailboxAccess_loop]. rewrite decide_False by lia. rewrite Hw.
  fold (access_timeout tr any). fold t. unfold CHUNK_SIZE. fold len. pose proof chunk_length as Hck.
  destruct (GetMany_alone t chunk len f b x q Hh) as (H1 & H2 & H3); [unfold len; lia|unfold len; lia|].
  split_and!.
  - intros Hq Ht. apply interp_bind_blocked. by apply H1.
  - intros Hq Ht. destruct (H2 Hq Ht) as (f' & E & Hh'). next E. cbv beta iota. rewrite decide_True by done. by exists f'.
  - intros Hq. set (n := Z.min len (length q)). destruct (H3 Hq) as (f' & b' & E & Hh'). fold n in E, Hh'.
    exists f', b'. split; [|done]. next E. cbv beta iota. rewrite decide_False by lia.
    set (c := take (Z.to_nat n) q ++ drop (Z.to_nat n) chunk).
    assert (Z.of_nat (length c) = 256) as Hc.
    { unfold c. rewrite length_app, length_take, length_drop. unfold n, len in *. lia. }
    rewrite (interp_bind_done _ _ _ (World f' b' (mem_put x tr (take (Z.to_nat n) q))) (c, advance tr n)); [done|].
    unfold perform. cbn [interp]. unfold on_mem. mred. cbn [w_mem w_sems w_box].
    rewrite (chunk_run x tr c n Hu) by (unfold n, len in *; lia). rewrite Hw. simpl.
    unfold c, mem_put. do 5 f_equal.
    rewrite take_app_le by (rewrite length_take; unfold n, len in *; lia). rewrite take_take. f_equal. lia.
Qed.

Lemma mem_take_app x tr j k : usable x tr → 0 ≤ j → 0 ≤ k → j + k ≤ length_remaining tr →
  mem_take x tr j ++ mem_take x (advance tr j) k = mem_take x tr (j + k).
Proof.
  intros Hu Hj Hk Hl. unfold mem_take. rewrite (advance_run x) by (done || lia). cbn [address].
  rewrite Z2Nat.inj_add by lia. rewrite load_bytes_app. by rewrite Z2Nat.id by lia.
Qed.

Lemma mem_put_app x tr (l1 l2 : list Z) : usable x tr → length l1 ≤ length_remaining tr →
  mem_put (mem_put x tr l1) (advance tr (length l1)) l2 = mem_put x tr (l1 ++ l2).
Proof.
  intros Hu Hl. unfold mem_put. rewrite (advance_run x) by (done || lia). cbn [address vas_entries bytes].
  by rewrite store_bytes_app.
Qed.

(** After the first round the loop never waits. *)
Lemma write_rest (fuel : nat) : ∀ f b x tr q,
  is_write tr = true → usable x tr → length_remaining tr < fuel → holds f b q → length q ≤ size →
  let n := Z.min (length_remaining tr) (size - length q) in ∃ f' b',
    interp (MailboxAccess_loop fuel true tr) (World f b x) = Done ((0, advance tr n), World f' b' x) ∧
    holds f' b' (q ++ mem_take x tr n).
Proof.
  induction fuel as [|fuel IH]; intros f b x tr q Hw Hu Hf Hh Hq n; pose proof (us_length _ _ Hu); [lia|].
  assert (n = 0 → ∀ r, r = Done ((0, tr), World f b x) → ∃ f' b', r = Done ((0, advance tr n), World f' b' x) ∧
    holds f' b' (q ++ mem_take x tr n)) as Hnone.
  { intros Hn r ->. exists f, b. rewrite Hn, (advance_zero x) by done. unfold mem_take. simpl. by rewrite app_nil_r. }
  destruct (decide (length_remaining tr = 0)) as [H0|Hpos].
  { apply Hnone; [lia|]. cbn [MailboxAccess_loop]. by rewrite decide_True by lia. }
  destruct (write_round fuel true f b x tr q Hw Hu ltac:(lia) Hh) as (_ & H2 & H3).
  assert (access_timeout tr true = 0) as Ht by (unfold access_timeout; by rewrite andb_false_r).
  destruct (decide (Z.of_nat (length q) = size)) as [Hfull|Hroom].
  { destruct (H2 Hfull Ht) as (f' & E & Hh'). exists f', b. rewrite E.
    assert (n = 0) as -> by lia. rewrite (advance_zero x) by done. unfold mem_take. simpl. by rewrite app_nil_r. }
  destruct (H3 ltac:(lia)) as (f1 & b1 & E & Hh1). set (n1 := Z.min (Z.min (length_remaining tr) 256) (size - length q)) in *.
  rewrite E. assert (0 < n1 ≤ length_remaining tr) as Hn1 by (unfold n1; lia).
  assert (length (mem_take x tr n1) = Z.to_nat n1) as Hlt by apply length_load_bytes.
  assert (length_remaining (advance tr n1) = length_remaining tr - n1) as Hlr
    by (rewrite (advance_run x) by (done || lia); done).
  destruct (IH f1 b1 x (advance tr n1) (q ++ mem_take x tr n1) Hw) as (f2 & b2 & E2 & Hh2); try done.
  - apply (advance_usable x); [done|lia|done].
  - lia.
  - rewrite length_app, Hlt. unfold n1. lia.
  - rewrite Hlr, length_app, Hlt in E2, Hh2. rewrite <- app_assoc in Hh2.
    set (n2 := Z.min _ _) in E2, Hh2.
    assert (n1 + n2 = n) as Hsum by (unfold n, n1, n2; lia). assert (0 ≤ n2) by (unfold n2, n1; lia).
    rewrite mem_take_app in Hh2 by (done || lia). rewrite (advance_advance x) in E2 by (done || lia).
    rewrite Hsum in E2, Hh2. by exists f2, b2.
Qed.

Lemma read_rest (fuel : nat) : ∀ f b x tr q,
  is_write tr = false → usable x tr → length_remaining tr < fuel → holds f b q →
  let n := Z.min (length_remaining tr) (length q) in ∃ f' b',
    interp (MailboxAccess_loop fuel true tr) (World f b x)
      = Done ((0, advance tr n), World f' b' (mem_put x tr (take (Z.to_nat n) q))) ∧
    holds f' b' (drop (Z.to_nat n) q).
Proof.
  induction fuel as [|fuel IH]; intros f b x tr q Hw Hu Hf Hh n; pose proof (us_length _ _ Hu); [lia|].
  assert (∀ f', n = 0 → holds f' b q → ∀ r, r = Done ((0, tr), World f' b x) → ∃ f' b',
    r = Done ((0, advance tr n), World f' b' (mem_put x tr (take (Z.to_nat n) q))) ∧
    holds f' b' (drop (Z.to_nat n) q)) as Hnone.
  { intros f' Hn Hh' r ->. exists f', b. rewrite Hn, (advance_zero x) by done. split; [|done].
    unfold mem_put. simpl. by destruct x. }
  destruct (decide (length_remaining tr = 0)) as [H0|Hpos].
  { apply (Hnone f); [lia|done|]. cbn [MailboxAccess_loop]. by rewrite decide_True by lia. }
  destruct (read_round fuel true f b x tr q Hw Hu ltac:(lia) Hh) as (_ & H2 & H3).
  assert (access_timeout tr true = 0) as Ht by (unfold access_timeout; by rewrite andb_false_r).
  destruct (decide (q = [])) as [Hempty|Hsome].
  { destruct (H2 Hempty Ht) as (f' & E & Hh'). rewrite E. apply (Hnone f'); [unfold n; subst; simpl; lia|done|done]. }
  assert (0 < length q) as Hlq by (destruct q; [done|simpl; lia]).
  destruct (H3 Hlq) as (f1 & b1 & E & Hh1). set (n1 := Z.min (Z.min (length_remaining tr) 256) (length q)) in *.
  rewrite E. assert (0 < n1 ≤ length_remaining tr) as Hn1 by (unfold n1; lia).
  assert (length_remaining (advance tr n1) = length_remaining tr - n1) as Hlr
    by (rewrite (advance_run x) by (done || lia); done).
  destruct (IH f1 b1 (mem_put x tr (take (Z.to_nat n1) q)) (advance tr n1) (drop (Z.to_nat n1) q) Hw) as (f2 & b2 & E2 & Hh2); try done.
  - apply (advance_usable x); [done|lia|done].
  - lia.
  - rewrite Hlr, length_drop in E2, Hh2. set (n2 := Z.min _ (Z.of_nat (_ - _))) in E2, Hh2.
    assert (n1 + n2 = n) as Hsum by (unfold n, n1, n2; lia). assert (0 ≤ n2) by (unfold n2, n1; lia).
    rewrite drop_drop, <- Z2Nat.inj_add, Hsum in Hh2 by lia.
    rewrite (advance_advance x), Hsum in E2 by (done || lia).
    exists f2, b2. split; [|done]. rewrite E2. do 3 f_equal.
    assert (length (take (Z.to_nat n1) q) = Z.to_nat n1) as Hlt by (rewrite length_take; unfold n1; lia).
    replace (advance tr n1) with (advance tr (length (take (Z.to_nat n1) q))) by (f_equal; lia).
    rewrite mem_put_app by (done || lia). f_equal.
    rewrite <- Hsum, Z2Nat.inj_add by lia. by rewrite take_take_drop.
Qed.
End alone.

(** ** The theorems *)
Section theorems.
Context (size : Z) (size_ok : 0 < size < 2 ^ 31).
Implicit Types (fuel : nat) (f : counts) (b : mailbox) (x : memory) (tr : transfer).
#[local] Abbreviation run_access fuel tr w := (@interp counts (alone_ops size) _ (MailboxAccess fuel tr) w).

Lemma holds_contents f b q : holds size f b q → contents b = q.
Proof. intros [_ [s0 Hr]]. by apply (ring_contents size (proj1 size_ok) _ s0). Qed.

(** The first round, when the rest is known. *)
Lemma write_access fuel f b x tr q :
  holds size f b q → usable x tr → is_write tr = true → 0 < length_remaining tr < fuel → length q < size →
  let n := Z.min (length_remaining tr) (size - length q) in ∃ f' b',
    run_access fuel tr (World f b x) = Done ((0, advance tr n), World f' b' x) ∧
    holds size f' b' (q ++ mem_take x tr n).
Proof.
  intros Hh Hu Hw Hl Hq n. destruct fuel as [|fuel]; [lia|].
  unfold MailboxAccess. rewrite decide_False by lia.
  destruct (write_round size (proj2 size_ok) fuel false f b x tr q Hw Hu ltac:(lia) Hh) as (_ & _ & H3).
  destruct (H3 Hq) as (f1 & b1 & E & Hh1). set (n1 := Z.min (Z.min (length_remaining tr) 256) (size - length q)) in *.
  assert (0 < n1 ≤ length_remaining tr) as Hn1 by (unfold n1; lia).
  assert (length (mem_take x tr n1) = Z.to_nat n1) as Hlt by apply length_load_bytes.
  assert (length_remaining (advance tr n1) = length_remaining tr - n1) as Hlr
    by (rewrite (advance_run x) by (done || lia); done).
  destruct (write_rest size (proj2 size_ok) fuel f1 b1 x (advance tr n1) (q ++ mem_take x tr n1) Hw)
    as (f2 & b2 & E2 & Hh2).
  - apply (advance_usable x); [done|lia|done].
  - lia.
  - done.
  - rewrite length_app, Hlt. unfold n1. lia.
  - rewrite Hlr, length_app, Hlt in E2, Hh2. rewrite <- app_assoc in Hh2. set (n2 := Z.min _ _) in E2, Hh2.
    assert (n1 + n2 = n) as Hsum by (unfold n, n1, n2; lia). assert (0 ≤ n2) by (unfold n2, n1; lia).
    rewrite mem_take_app in Hh2 by (done || lia). rewrite (advance_advance x) in E2 by (done || lia).
    rewrite Hsum in E2, Hh2. exists f2, b2. split; [|done]. rewrite <- E2. exact E.
Qed.

Lemma read_access fuel f b x tr q :
  holds size f b q → usable x tr → is_write tr = false → 0 < length_remaining tr < fuel → q ≠ [] →
  let n := Z.min (length_remaining tr) (length q) in ∃ f' b',
    run_access fuel tr (World f b x)
      = Done ((0, advance tr n), World f' b' (mem_put x tr (take (Z.to_nat n) q))) ∧
    holds size f' b' (drop (Z.to_nat n) q).
Proof.
  intros Hh Hu Hw Hl Hq n. destruct fuel as [|fuel]; [lia|].
  assert (0 < length q) as Hlq by (destruct q; [done|simpl; lia]).
  unfold MailboxAccess. rewrite decide_False by lia.
  destruct (read_round size (proj2 size_ok) fuel false f b x tr q Hw Hu ltac:(lia) Hh) as (_ & _ & H3).
  destruct (H3 Hlq) as (f1 & b1 & E & Hh1). set (n1 := Z.min (Z.min (length_remaining tr) 256) (length q)) in *.
  assert (0 < n1 ≤ length_remaining tr) as Hn1 by (unfold n1; lia).
  assert (length_remaining (advance tr n1) = length_remaining tr - n1) as Hlr
    by (rewrite (advance_run x) by (done || lia); done).
  destruct (read_rest size (proj2 size_ok) fuel f1 b1 (mem_put x tr (take (Z.to_nat n1) q)) (advance tr n1)
    (drop (Z.to_nat n1) q) Hw) as (f2 & b2 & E2 & Hh2).
  - apply (advance_usable x); [done|lia|done].
  - lia.
  - done.
  - rewrite Hlr, length_drop in E2, Hh2. set (n2 := Z.min _ (Z.of_nat (_ - _))) in E2, Hh2.
    assert (n1 + n2 = n) as Hsum by (unfold n, n1, n2; lia). assert (0 ≤ n2) by (unfold n2, n1; lia).
    rewrite drop_drop, <- Z2Nat.inj_add, Hsum in Hh2 by lia.
    rewrite (advance_advance x), Hsum in E2 by (done || lia).
    exists f2, b2. split; [|done]. etransitivity; [exact E|]. rewrite E2. do 3 f_equal.
    assert (length (take (Z.to_nat n1) q) = Z.to_nat n1) as Hlt by (rewrite length_take; unfold n1; lia).
    replace (advance tr n1) with (advance tr (length (take (Z.to_nat n1) q))) by (f_equal; lia).
    rewrite mem_put_app by (done || lia). f_equal.
    rewrite <- Hsum, Z2Nat.inj_add by lia. by rewrite take_take_drop.
Qed.

(** C11: [MailboxAccess] by a thread alone with the mailbox, with a usable buffer.
    A write puts in as many of the bytes as there is room for, in order, and moves
    the transfer by exactly that many; a read takes as many of the oldest bytes as
    there are and were asked for, stores them in the buffer and moves the transfer
    by as many. Both answer 0 when anything moved. With no room, or nothing to
    read, a blockable access waits for another thread and any other answers EAGAIN
    and changes nothing. *)
Theorem MailboxAccess_correct fuel f b x tr :
  holds size f b (contents b) → usable x tr → 0 < length_remaining tr < fuel →
  let q := contents b in let len := length_remaining tr in
  if is_write tr then
    let n := Z.min len (size - length q) in
    (length q < size → ∃ f' b', run_access fuel tr (World f b x) = Done ((0, advance tr n), World f' b' x) ∧
       contents b' = q ++ mem_take x tr n ∧ holds size f' b' (contents b')) ∧
    (Z.of_nat (length q) = size → if blockable tr then run_access fuel tr (World f b x) = Blocked
       else ∃ f', run_access fuel tr (World f b x) = Done ((EAGAIN, tr), World f' b x) ∧ holds size f' b q)
  else
    let n := Z.min len (length q) in
    (q ≠ [] → ∃ f' b', run_access fuel tr (World f b x)
         = Done ((0, advance tr n), World f' b' (mem_put x tr (take (Z.to_nat n) q))) ∧
       contents b' = drop (Z.to_nat n) q ∧ holds size f' b' (contents b')) ∧
    (q = [] → if blockable tr then run_access fuel tr (World f b x) = Blocked
       else ∃ f', run_access fuel tr (World f b x) = Done ((EAGAIN, tr), World f' b x) ∧ holds size f' b q).
Proof.
  intros Hh Hu Hl q len. destruct fuel as [|fuel]; [lia|].
  destruct (is_write tr) eqn:Hw; cbv zeta; split; intros Hq.
  - destruct (write_access (S fuel) f b x tr q Hh Hu Hw Hl Hq) as (f' & b' & E & Hh').
    exists f', b'. rewrite (holds_contents _ _ _ Hh'). done.
  - unfold MailboxAccess. rewrite decide_False by lia.
    destruct (write_round size (proj2 size_ok) fuel false f b x tr q Hw Hu ltac:(lia) Hh) as (H1 & H2 & _).
    unfold access_timeout in H1, H2. destruct (blockable tr); [by apply H1|by apply H2].
  - destruct (read_access (S fuel) f b x tr q Hh Hu Hw Hl Hq) as (f' & b' & E & Hh').
    exists f', b'. rewrite (holds_contents _ _ _ Hh'). done.
  - unfold MailboxAccess. rewrite decide_False by lia.
    destruct (read_round size (proj2 size_ok) fuel false f b x tr q Hw Hu ltac:(lia) Hh) as (H1 & H2 & _).
    unfold access_timeout in H1, H2. destruct (blockable tr); [by apply H1|by apply H2].
Qed.

(** Bytes written to an empty mailbox that has room for them and then read into
    another buffer of the same length arrive there in order; the mailbox is empty
    again and both transfers are complete. *)
Theorem mailbox_roundtrip fuel f b x tr tr' :
  holds size f b [] → usable x tr → usable x tr' → is_write tr = true → is_write tr' = false →
  0 < length_remaining tr ≤ size → length_remaining tr' = length_remaining tr → length_remaining tr < fuel →
  ∃ w f' b' x', run_access fuel tr (World f b x) = Done ((0, advance tr (length_remaining tr)), w) ∧
    run_access fuel tr' w = Done ((0, advance tr' (length_remaining tr)), World f' b' x') ∧
    holds size f' b' [] ∧
    load_bytes (bytes x') (address tr') (Z.to_nat (length_remaining tr)) = mem_take x tr (length_remaining tr).
Proof.
  intros Hh Hu Hu' Hw Hw' Hl El Hf.
  destruct (write_access fuel f b x tr [] Hh Hu Hw) as (f1 & b1 & E1 & Hh1); [lia|simpl; lia|].
  simpl in E1, Hh1. rewrite Z.sub_0_r, Z.min_l in E1, Hh1 by lia. set (bs := mem_take _ _ _) in *.
  assert (length bs = Z.to_nat (length_remaining tr)) as Hbs by apply length_load_bytes.
  destruct (read_access fuel f1 b1 x tr' bs Hh1 Hu' Hw') as (f2 & b2 & E2 & Hh2);
    [lia|intros Hn; rewrite Hn in Hbs; simpl in Hbs; lia|].
  rewrite Z.min_l in E2, Hh2 by lia. rewrite El, <- Hbs, drop_all in Hh2. rewrite El, <- Hbs, firstn_all in E2.
  do 4 eexists. split; [exact E1|]. split; [exact E2|]. split; [exact Hh2|].
  simpl. rewrite <- Hbs. apply load_store_bytes.
Qed.
End theorems.

(** *** A buffer the caller may not use

    Four bytes are in the mailbox; a program asks to read two of them into an
    address of the kernel. *)
Definition lossy_box : mailbox := Mailbox [1; 2; 3; 4] 4 4 0 0 1 2 3 4 5.
Definition lossy_counts : counts := λ s, match s with EmptySem => 4 | _ => 0 end.
Definition lossy_transfer : transfer := CreateTransferWritingToUser 0xC0001000 2 0.

(** A read into a buffer the program may not use takes everything out of the
    mailbox, stores nothing and reports success, because the status of
    [PerformTransfer] is ignored and the length that ends the loop never goes
    down. *)
Theorem MailboxAccess_loses_bytes :
  contents lossy_box = [1; 2; 3; 4] ∧
  match @interp counts (alone_ops 4) _ (MailboxAccess 10 lossy_transfer) (World lossy_counts lossy_box (Memory ∅ ∅)) with
  | Done ((res, tr), w) => res = 0 ∧ length_remaining tr = 2 ∧ contents (w_box w) = [] ∧ w_mem w = Memory ∅ ∅
  | _ => False
  end.
Proof. split; [reflexivity|]. vm_compute. split_and!; reflexivity. Qed.

Definition small_box : mailbox := Mailbox [0; 0; 0; 0] 4 0 0 0 1 2 3 4 5.
Definition small_memory : memory := Memory ∅ {[ 4096 := 7; 4097 := 8; 4098 := 9 ]}.
Definition source_transfer : transfer := CreateKernelTransfer 4096 3 0 TRANSFER_WRITE.
Definition target_transfer : transfer := CreateKernelTransfer 8192 3 0 TRANSFER_READ.

Lemma small_holds : holds 4 (initial_counts 4) small_box [].
Proof. split; [by split_and!|]. exists 0. by split. Qed.
Lemma source_usable : usable small_memory source_transfer.
Proof. by split. Qed.
Lemma target_usable : usable small_memory target_transfer.
Proof. by split. Qed.

Lemma MailboxAccess_correct_witness :
  ∃ f' b', @interp counts (alone_ops 4) _ (MailboxAccess 5 source_transfer)
      (World (initial_counts 4) small_box small_memory)
    = Done ((0, advance source_transfer 3), World f' b' small_memory) ∧ contents b' = [7; 8; 9].
Proof.
  destruct (proj1 (MailboxAccess_correct 4 (conj eq_refl eq_refl) 5 (initial_counts 4) small_box small_memory
    source_transfer small_holds source_usable (conj eq_refl eq_refl)) eq_refl) as (f' & b' & E & Hc & _).
  exists f', b'. split; [exact E|exact Hc].
Defined.

Lemma mailbox_roundtrip_witness :
  ∃ w f' b' x', @interp counts (alone_ops 4) _ (MailboxAccess 5 source_transfer)
      (World (initial_counts 4) small_box small_memory) = Done ((0, advance source_transfer 3), w) ∧
    @interp counts (alone_ops 4) _ (MailboxAccess 5 target_transfer) w
      = Done ((0, advance target_transfer 3), World f' b' x') ∧
    holds 4 f' b' [] ∧ load_bytes (bytes x') 8192 3 = [7; 8; 9].
Proof.
  assert (0 < length_remaining source_transfer ≤ 4) as Hl by (split; [reflexivity|discriminate]).
  destruct (mailbox_roundtrip 4 (conj eq_refl eq_refl) 5 (initial_counts 4) small_box small_memory
    source_transfer target_transfer small_holds source_usable target_usable eq_refl eq_refl Hl eq_refl eq_refl)
    as (w & f' & b' & x' & E1 & E2 & Hh & Hload).
  exists w, f', b', x'. split; [exact E1|]. split; [exact E2|]. split; [exact Hh|]. exact Hload.
Defined.
