(* ===== verification/Vnode.v ===== *)
(** * vfs/vnode.c and vfs/openfile.c: files and their reference counts

    This file holds the state that the components of the virtual file system
    share, the wrappers around the operations of file system drivers, and open
    files. The reference count locks are taken and released around each update;
    they are left out, as is the check that interrupts are enabled. *)

From S2P Require Import Prelude Transfer.

(** A C string: its bytes up to the terminating zero. *)
Definition cstring : Type := list Z.

(** The string in an array. *)
Fixpoint until_zero (l : list Z) : cstring :=
  match l with [] => [] | c :: l => if decide (c = 0) then [] else c :: until_zero l end.

(** ** Data *)
Record stat := Stat {
  st_dev : Z; st_ino : Z; st_mode : Z; st_nlink : Z; st_size : Z; st_blksize : Z;
}.

(** [include/sys/stat.h] and [include/dirent.h]. *)
Definition S_IFMT : Z := Z.shiftl 7 15.
Definition S_IFIFO : Z := Z.shiftl 3 15.
Definition S_IFREG : Z := Z.shiftl 4 15.
Definition S_IFDIR : Z := Z.shiftl 5 15.
Definition S_IFBLK : Z := Z.shiftl 1 15.
Definition S_IFCHR : Z := Z.shiftl 2 15.
Definition IFTODT (x : Z) : Z := Z.shiftr x 15.
Definition DT_FIFO : Z := IFTODT S_IFIFO.
Definition DT_REG : Z := IFTODT S_IFREG.
Definition DT_DIR : Z := IFTODT S_IFDIR.
Definition S_ISDIR (m : Z) : bool := bool_decide (Z.land m S_IFMT = S_IFDIR).

(** [include/fcntl.h]. *)
Definition O_RDONLY : Z := 0.
Definition O_WRONLY : Z := 1.
Definition O_RDWR : Z := 2.
Definition O_ACCMODE : Z := 3.
Definition O_CREAT : Z := 4.
Definition O_EXCL : Z := 8.
Definition O_TRUNC : Z := 32.
Definition O_APPEND : Z := 64.
Definition O_NONBLOCK : Z := 128.
Definition O_CLOEXEC : Z := 256.

(** [include/sys/ioctl.h]. *)
Definition TCGETS : Z := 0.
Definition TCSETS : Z := 1.
Definition TCSETSW : Z := 2.
Definition TCSETSF : Z := 3.
Definition TIOCGPGRP : Z := 4.
Definition TIOCSPGRP : Z := 5.

(** Function pointers; NULL for an operation the driver does not have. *)
Record vnode_operations := VnodeOps {
  check_open : Z; read : Z; write : Z; ioctl : Z; close : Z;
  truncate : Z; create : Z; follow : Z; unlink : Z; delete_op : Z;
}.
Definition no_ops : vnode_operations := VnodeOps NULL NULL NULL NULL NULL NULL NULL NULL NULL NULL.

Record vnode := Vnode {
  ops : vnode_operations;
  vn_data : Z;
  reference_count : Z;
  vn_stat : stat;
  vn_flags : Z;
}.

Record file := File {
  can_read : bool;
  can_write : bool;
  initial_mode : Z;
  seek_position : Z;
  f_flags : Z;
  f_references : Z;
  node : Z;
}.

Record fd := Fd { fd_file : Z; fd_flags : Z }.
(** [table->lock] is a mutex; [entries] is mapped memory. *)
Record fd_table := FdTable { locked : bool; entries : list fd }.

Record mounted_file := Mounted { mount_node : Z; mount_name : cstring }.

(** dev/pipe.c *)
Record pipe := Pipe { sig : Z; mbox : Z; broken : bool }.
Definition PIPE_SIGNATURE : Z := 0xa306a9b939f6d794.

(** The state: the objects by address, the mounts in the order of the list (NULL
    before [InitVfs]), the working directory of the process that runs (NULL if it
    has none; [None] without a process), the memory of the address space, and what
    the drivers keep, of type [D]. *)
Record vfs (D : Type) := Vfs {
  vnodes : gmap Z vnode;
  files : gmap Z file;
  tables : gmap Z fd_table;
  pipes : gmap Z pipe;
  mount_points : option (list mounted_file);
  vfs_lock : bool;
  dev_id : Z;
  cwd : option Z;
  user : memory;
  drv : D;
}.
Arguments Vfs {_}.
Arguments vnodes {_}.
Arguments files {_}.
Arguments tables {_}.
Arguments pipes {_}.
Arguments mount_points {_}.
Arguments vfs_lock {_}.
Arguments dev_id {_}.
Arguments cwd {_}.
Arguments user {_}.
Arguments drv {_}.

(** ** Drivers

    What is behind the function pointers. A call gets the pointer, the vnode and
    its arguments; results through pointers are returned beside the status. *)
Class Drivers (D : Type) : Type := {
  call_check_open : Z → Z → Z → M (vfs D) Z;
  call_read : Z → Z → transfer → M (vfs D) (Z * transfer);
  call_write : Z → Z → transfer → M (vfs D) (Z * transfer);
  call_ioctl : Z → Z → Z → Z → M (vfs D) Z;
  call_close : Z → Z → M (vfs D) Z;
  call_truncate : Z → Z → Z → M (vfs D) Z;
  call_create : Z → Z → Z → cstring → Z → Z → M (vfs D) (Z * Z);   (* the vnode, and [*out] *)
  call_follow : Z → Z → cstring → M (vfs D) (Z * Z);
  call_unlink : Z → Z → M (vfs D) Z;
  call_delete : Z → Z → M (vfs D) Z;
}.

(** What one driver keeps, as a part of what all drivers keep. *)
Class Holds (D A : Type) : Type := {
  held : D → A;
  hold : A → D → D;
  held_hold a d : held (hold a d) = a;
}.

Section vnode.
Context {D : Type}.
Implicit Types s : vfs D.

Definition with_vnodes (v : gmap Z vnode) (s : vfs D) : vfs D :=
  {| vnodes := v; files := files s; tables := tables s; pipes := pipes s; mount_points := mount_points s;
     vfs_lock := vfs_lock s; dev_id := dev_id s; cwd := cwd s; user := user s; drv := drv s |}.
Definition with_files (f : gmap Z file) (s : vfs D) : vfs D :=
  {| vnodes := vnodes s; files := f; tables := tables s; pipes := pipes s; mount_points := mount_points s;
     vfs_lock := vfs_lock s; dev_id := dev_id s; cwd := cwd s; user := user s; drv := drv s |}.
Definition with_tables (t : gmap Z fd_table) (s : vfs D) : vfs D :=
  {| vnodes := vnodes s; files := files s; tables := t; pipes := pipes s; mount_points := mount_points s;
     vfs_lock := vfs_lock s; dev_id := dev_id s; cwd := cwd s; user := user s; drv := drv s |}.
Definition with_pipes (p : gmap Z pipe) (s : vfs D) : vfs D :=
  {| vnodes := vnodes s; files := files s; tables := tables s; pipes := p; mount_points := mount_points s;
     vfs_lock := vfs_lock s; dev_id := dev_id s; cwd := cwd s; user := user s; drv := drv s |}.
Definition with_mounts (m : option (list mounted_file)) (s : vfs D) : vfs D :=
  {| vnodes := vnodes s; files := files s; tables := tables s; pipes := pipes s; mount_points := m;
     vfs_lock := vfs_lock s; dev_id := dev_id s; cwd := cwd s; user := user s; drv := drv s |}.
Definition with_lock (b : bool) (s : vfs D) : vfs D :=
  {| vnodes := vnodes s; files := files s; tables := tables s; pipes := pipes s; mount_points := mount_points s;
     vfs_lock := b; dev_id := dev_id s; cwd := cwd s; user := user s; drv := drv s |}.
Definition with_dev_id (n : Z) (s : vfs D) : vfs D :=
  {| vnodes := vnodes s; files := files s; tables := tables s; pipes := pipes s; mount_points := mount_points s;
     vfs_lock := vfs_lock s; dev_id := n; cwd := cwd s; user := user s; drv := drv s |}.
Definition with_cwd (c : option Z) (s : vfs D) : vfs D :=
  {| vnodes := vnodes s; files := files s; tables := tables s; pipes := pipes s; mount_points := mount_points s;
     vfs_lock := vfs_lock s; dev_id := dev_id s; cwd := c; user := user s; drv := drv s |}.
Definition with_user (x : memory) (s : vfs D) : vfs D :=
  {| vnodes := vnodes s; files := files s; tables := tables s; pipes := pipes s; mount_points := mount_points s;
     vfs_lock := vfs_lock s; dev_id := dev_id s; cwd := cwd s; user := x; drv := drv s |}.
Definition with_drv (d : D) (s : vfs D) : vfs D :=
  {| vnodes := vnodes s; files := files s; tables := tables s; pipes := pipes s; mount_points := mount_points s;
     vfs_lock := vfs_lock s; dev_id := dev_id s; cwd := cwd s; user := user s; drv := d |}.

Definition get_vnode (n : Z) : M (vfs D) vnode := s ← get; deref (vnodes s !! n).
Definition set_vnode (n : Z) (v : vnode) : M (vfs D) unit := modify (λ s, with_vnodes (<[n := v]> (vnodes s)) s).
Definition get_file (f : Z) : M (vfs D) file := s ← get; deref (files s !! f).
Definition set_file (f : Z) (v : file) : M (vfs D) unit := modify (λ s, with_files (<[f := v]> (files s)) s).

Definition set_references (n : Z) (v : vnode) : vnode := {| v with reference_count := n |}.

(** A transfer on the memory of the address space. *)
Definition on_user {A} (m : M memory A) : M (vfs D) A := λ s,
  match m (user s) with
  | Done (a, x) => Done (a, with_user x s)
  | Panicked c => Panicked c
  | Faulted => Faulted
  | Blocked => Blocked
  | Exhausted => Exhausted
  end.

(** Addresses in use, for the allocator. *)
Definition live_objects (s : vfs D) : gset Z := dom (vnodes s) ∪ dom (files s) ∪ dom (tables s) ∪ dom (pipes s).

Section ops.
Context `{!Allocator} `{!Drivers D}.

(** ** vnode.c *)
Definition CreateVnode (o : vnode_operations) (st : stat) : M (vfs D) Z :=
  s ← get;
  let n := pick (live_objects s) in
  set_vnode n {| ops := o; reference_count := 1; vn_data := NULL; vn_stat := st; vn_flags := 0 |};;
  mret n.

Definition CheckVnode (n : Z) : M (vfs D) unit :=
  c_assert (bool_decide (n ≠ NULL));;
  v ← get_vnode n;
  c_assert (bool_decide (0 < reference_count v)).

Definition VnodeOpCheckOpen (n flags : Z) : M (vfs D) Z :=
  CheckVnode n;;
  v ← get_vnode n;
  if decide (check_open (ops v) = NULL) then mret 0 else call_check_open (check_open (ops v)) n flags.

Definition VnodeOpRead (n : Z) (io : transfer) : M (vfs D) (Z * transfer) :=
  CheckVnode n;;
  v ← get_vnode n;
  match direction io with
  | TRANSFER_WRITE => mret (EINVAL, io)
  | TRANSFER_READ => if decide (read (ops v) = NULL) then mret (EINVAL, io) else call_read (read (ops v)) n io
  end.

Definition VnodeOpWrite (n : Z) (io : transfer) : M (vfs D) (Z * transfer) :=
  CheckVnode n;;
  v ← get_vnode n;
  match direction io with
  | TRANSFER_READ => mret (EINVAL, io)
  | TRANSFER_WRITE => if decide (write (ops v) = NULL) then mret (EINVAL, io) else call_write (write (ops v)) n io
  end.

Definition VnodeOpIoctl (n command buffer : Z) : M (vfs D) Z :=
  CheckVnode n;;
  v ← get_vnode n;
  if decide (ioctl (ops v) = NULL) then
    mret (if decide (command = TCGETS ∨ command = TCSETS ∨ command = TCSETSW ∨ command = TCSETSF ∨
                     command = TIOCGPGRP ∨ command = TIOCSPGRP) then ENOTTY else EINVAL)
  else call_ioctl (ioctl (ops v)) n command buffer.

Definition VnodeOpClose (n : Z) : M (vfs D) Z :=
  v ← get_vnode n;
  if decide (reference_count v ≠ 0) then mret EINVAL else
  if decide (close (ops v) = NULL) then mret 0 else call_close (close (ops v)) n.

(** [out] is [*out] before the call. *)
Definition VnodeOpCreate (n out : Z) (name : cstring) (flags mode : Z) : M (vfs D) (Z * Z) :=
  CheckVnode n;;
  v ← get_vnode n;
  if decide (create (ops v) = NULL) then mret (EINVAL, out) else call_create (create (ops v)) n out name flags mode.

Definition VnodeOpTruncate (n offset : Z) : M (vfs D) Z :=
  CheckVnode n;;
  v ← get_vnode n;
  if decide (truncate (ops v) = NULL) then mret EINVAL else call_truncate (truncate (ops v)) n offset.

Definition VnodeOpFollow (n : Z) (name : cstring) : M (vfs D) (Z * Z) :=
  CheckVnode n;;
  v ← get_vnode n;
  if decide (follow (ops v) = NULL) then mret (ENOTDIR, junk) else call_follow (follow (ops v)) n name.

Definition VnodeOpDirentType (n : Z) : M (vfs D) Z :=
  v ← get_vnode n; mret (u8 (IFTODT (st_mode (vn_stat v)))).

Definition VnodeOpUnlink (n : Z) : M (vfs D) Z :=
  CheckVnode n;;
  v ← get_vnode n;
  if decide (unlink (ops v) = NULL) then mret EINVAL else call_unlink (unlink (ops v)) n.

Definition VnodeOpDelete (n : Z) : M (vfs D) Z :=
  CheckVnode n;;
  v ← get_vnode n;
  if decide (delete_op (ops v) = NULL) then mret EINVAL else call_delete (delete_op (ops v)) n.

(** [CheckVnode] inside [VnodeOpDelete] asserts that the count is positive. *)
Definition DestroyVnode (n : Z) : M (vfs D) unit :=
  c_assert (bool_decide (n ≠ NULL));;
  v ← get_vnode n;
  c_assert (bool_decide (reference_count v = 0));;
  (if decide (st_nlink (vn_stat v) = 0) then _ ← VnodeOpDelete n; mret tt else mret tt);;
  modify (λ s, with_vnodes (delete n (vnodes s)) s).

Definition ReferenceVnode (n : Z) : M (vfs D) unit :=
  c_assert (bool_decide (n ≠ NULL));;
  v ← get_vnode n;
  set_vnode n (set_references (reference_count v + 1) v).

Definition DereferenceVnode (n : Z) : M (vfs D) unit :=
  CheckVnode n;;
  v ← get_vnode n;
  c_assert (bool_decide (0 < reference_count v));;
  set_vnode n (set_references (reference_count v - 1) v);;
  v ← get_vnode n;
  if decide (reference_count v = 0) then _ ← VnodeOpClose n; DestroyVnode n else mret tt.

(** ** openfile.c *)
Definition CreateFile (nd mode flags : Z) (rd wr : bool) : M (vfs D) Z :=
  s ← get;
  let f := pick (live_objects s) in
  set_file f {| f_references := 1; node := nd; can_read := rd; can_write := wr; initial_mode := mode;
                f_flags := flags; seek_position := 0 |};;
  ReferenceVnode nd;;
  mret f.

Definition ReferenceFile (f : Z) : M (vfs D) unit :=
  c_assert (bool_decide (f ≠ NULL));;
  v ← get_file f;
  set_file f {| v with f_references := f_references v + 1 |}.

(** dev/pipe.c. [node->data] is taken for a pipe. *)
Definition BreakPipe (n : Z) : M (vfs D) unit :=
  v ← get_vnode n;
  s ← get;
  p ← deref (pipes s !! vn_data v);
  if decide (sig p = PIPE_SIGNATURE)
  then modify (λ s, with_pipes (<[vn_data v := {| p with broken := true |}]> (pipes s)) s)
  else panic PANIC_UNKNOWN.

Definition DereferenceFile (f : Z) : M (vfs D) unit :=
  c_assert (bool_decide (f ≠ NULL));;
  v ← get_file f;
  c_assert (bool_decide (0 < f_references v));;
  set_file f {| v with f_references := f_references v - 1 |};;
  v ← get_file f;
  if decide (f_references v = 0) then
    n ← get_vnode (node v);
    (if decide (IFTODT (st_mode (vn_stat n)) = DT_FIFO) then BreakPipe (node v) else mret tt);;
    DereferenceVnode (node v);;
    modify (λ s, with_files (delete f (files s)) s)
  else mret tt.
End ops.
End vnode.
