(* ===== verification/Vfs.v ===== *)
(** * vfs/vfs.c: paths, mounts and opening files *)

From S2P Require Import Prelude Transfer Vnode.

Definition MAX_COMPONENT_LENGTH : Z := 128.
Definition MAX_PATH_LENGTH : Z := 2000.

Definition SLASH : Z := 47.
Definition BACKSLASH : Z := 92.
Definition COLON : Z := 58.
Definition DOT : Z := 46.

(** ** Paths *)

(** The loop returns at the first colon. *)
Fixpoint IsRelative (path : cstring) : bool :=
  match path with
  | [] => true
  | c :: path => if decide (c = COLON) then false else IsRelative path
  end.

Fixpoint CheckValidComponentName_loop (name : cstring) : Z :=
  match name with
  | [] => 0
  | c :: name => if decide (c = SLASH ∨ c = BACKSLASH ∨ c = COLON) then EINVAL else CheckValidComponentName_loop name
  end.
Definition CheckValidComponentName (name : cstring) : Z :=
  match name with [] => EINVAL | _ => CheckValidComponentName_loop name end.

(** [while (path[*ptr] && path[*ptr] != delimiter)], over [rest], the path from
    [*ptr] on. The status, [out] and [*ptr]. *)
Fixpoint GetPathComponent_loop (rest : cstring) (ptr : Z) (out : cstring) (max_len delimiter : Z) :
    Z * cstring * Z :=
  match rest with
  | [] => (0, out, ptr)
  | c :: rest =>
    if decide (c = delimiter) then (0, out, ptr) else
    if decide (max_len - 1 ≤ length out) then (ENAMETOOLONG, out, ptr) else
    GetPathComponent_loop rest (ptr + 1) (out ++ [c]) max_len delimiter
  end.

(** [while (path[*ptr] == '/')]. *)
Fixpoint skip_slashes (rest : cstring) (ptr : Z) : Z :=
  match rest with
  | c :: rest => if decide (c = SLASH) then skip_slashes rest (ptr + 1) else ptr
  | [] => ptr
  end.

Definition path_from (path : cstring) (ptr : Z) : cstring := drop (Z.to_nat ptr) path.

Definition GetPathComponent (path : cstring) (ptr max_len delimiter : Z) : Z * cstring * Z :=
  let '(status, out, ptr) := GetPathComponent_loop (path_from path ptr) ptr [] max_len delimiter in
  if decide (status ≠ 0) then (status, out, ptr) else
  let ptr :=
    match path_from path ptr with
    | [] => ptr
    | _ :: rest => skip_slashes rest (ptr + 1)
    end in
  (CheckValidComponentName out, out, ptr).

(** The loop makes progress or returns, so the length of the path bounds it.
    [out] is the buffer so far. *)
Fixpoint GetFinalPathComponent_loop (fuel : nat) (path : cstring) (ptr max_len : Z) (out : cstring) :
    option (Z * cstring) :=
  if decide (length path ≤ ptr) then Some (0, out) else
  match fuel with
  | O => None
  | S fuel =>
    let '(status, out, ptr) := GetPathComponent path ptr max_len SLASH in
    if decide (status ≠ 0) then Some (status, out) else GetFinalPathComponent_loop fuel path ptr max_len out
  end.
Definition GetFinalPathComponent (path out : cstring) (max_len : Z) : option (Z * cstring) :=
  if IsRelative path then GetFinalPathComponent_loop (length path) path 0 max_len out else
  let '(status, out, ptr) := GetPathComponent path 0 max_len COLON in
  if decide (status ≠ 0) then Some (status, out)
  else GetFinalPathComponent_loop (length path) path ptr max_len out.

(** ** Directory entries *)
Definition le_bytes (n : nat) (v : Z) : list Z := (λ i : nat, (v / 2 ^ (8 * i)) `mod` 256) <$> seq 0 n.
Definition SIZEOF_DIRENT : Z := 268.

(** [struct dirent]: the serial number, the 256 bytes of the name, its length, the
    type, two bytes of padding and the disk. *)
Definition dirent_bytes (ino : Z) (name : list Z) (namlen ty : Z) (pad : list Z) (disk : Z) : list Z :=
  le_bytes 4 ino ++ name ++ [u8 namlen; u8 ty] ++ pad ++ le_bytes 4 disk.

(** [strcpy] into, and [strncpy] over the whole of, the 256 bytes of [d_name], which
    held [old]. *)
Definition strcpy_name (old s : list Z) : list Z := s ++ [0] ++ drop (S (length s)) old.
Definition strncpy_name (s : list Z) : list Z := take 255 (s ++ replicate 256 0) ++ [0].

Section vfs.
Context {D : Type} `{!Allocator} `{!Drivers D}.

(** A [struct dirent] on the stack, not initialised. *)
Definition junk_name : list Z := replicate 256 (u8 junk).
Definition junk_pad : list Z := [u8 junk; u8 junk].

Definition AcquireVfsLock : M (vfs D) unit :=
  s ← get;
  if vfs_lock s then panic PANIC_SPINLOCK_DOUBLE_ACQUISITION else put (with_lock true s).
Definition ReleaseVfsLock : M (vfs D) unit :=
  s ← get;
  if vfs_lock s then put (with_lock false s) else panic PANIC_SPINLOCK_RELEASED_BEFORE_ACQUIRED.

Definition NextDevId : M (vfs D) Z :=
  s ← get;
  put (with_dev_id (dev_id s + 1) s);;
  mret (dev_id s).

(** ** Mounts *)
Definition find_mount (name : cstring) (l : list mounted_file) : option mounted_file :=
  snd <$> list_find (λ m, name = mount_name m) l.

Definition GetMountPointFromName (name : cstring) : M (vfs D) (option mounted_file) :=
  s ← get;
  mret (m ← mount_points s; find_mount name m).

Definition DoesMountPointExist (name : cstring) : M (vfs D) Z :=
  s ← get;
  c_assert (vfs_lock s);;
  m ← GetMountPointFromName name;
  mret (match m with Some _ => EEXIST | None => 0 end).

(** [name] is [None] for NULL. *)
Definition AddVfsMount (n : Z) (name : option cstring) : M (vfs D) Z :=
  match name with
  | None => mret EINVAL
  | Some name =>
    if decide (n = NULL) then mret EINVAL else
    if decide (MAX_COMPONENT_LENGTH ≤ length name) then mret ENAMETOOLONG else
    let status := CheckValidComponentName name in
    if decide (status ≠ 0) then mret status else
    AcquireVfsLock;;
    e ← DoesMountPointExist name;
    if decide (e = EEXIST) then ReleaseVfsLock;; mret EEXIST else
    f ← CreateFile n 0 0 true true;
    s ← get;
    l ← deref (mount_points s);
    put (with_mounts (Some (l ++ [Mounted f name])) s);;
    ReleaseVfsLock;;
    mret 0
  end.

(** The mount is found by its address: the first of that name. *)
Definition RemoveVfsMount (name : option cstring) : M (vfs D) Z :=
  match name with
  | None => mret EINVAL
  | Some name =>
    if decide (CheckValidComponentName name ≠ 0) then mret EINVAL else
    AcquireVfsLock;;
    m ← GetMountPointFromName name;
    match m with
    | None => ReleaseVfsLock;; mret ENODEV
    | Some actual =>
      f ← get_file (mount_node actual);
      DereferenceVnode (node f);;
      DereferenceFile (mount_node actual);;
      s ← get;
      l ← deref (mount_points s);
      put (with_mounts (Some (match list_find (λ m, name = mount_name m) l with
                              | Some (i, _) => base.delete i l
                              | None => l
                              end)) s);;
      ReleaseVfsLock;;
      mret 0
    end
  end.

(** *** The directory of mounts *)
Definition RootsRead (n : Z) (io : transfer) : M (vfs D) (Z * transfer) :=
  if decide (offset io `mod` SIZEOF_DIRENT ≠ 0) then mret (EINVAL, io) else
  let index := i32 (offset io / SIZEOF_DIRENT) in
  if decide (index = 0 ∨ index = 1) then
    v ← get_vnode n;
    let name := if decide (index = 0) then [DOT] else [DOT; DOT] in
    let dir := dirent_bytes 0 (strcpy_name junk_name name) (length name) DT_DIR junk_pad (u32 (st_dev (vn_stat v))) in
    '(r, _, io) ← on_user (PerformTransfer (Some dir) io SIZEOF_DIRENT);
    mret (r, io)
  else
    s ← get;
    l ← deref (mount_points s);
    match aget l (index - 2) with
    | None => mret (ENOENT, io)
    | Some root =>
      f ← get_file (mount_node root);
      v ← get_vnode (node f);
      let dir := dirent_bytes (st_ino (vn_stat v)) (strncpy_name (mount_name root)) (length (mount_name root))
        (IFTODT (st_mode (vn_stat v))) junk_pad (u32 (st_dev (vn_stat v))) in
      '(r, _, io) ← on_user (PerformTransfer (Some dir) io SIZEOF_DIRENT);
      mret (r, io)
    end.

Definition RootsFollow (n : Z) (name : cstring) : M (vfs D) (Z * Z) :=
  if decide (name = [DOT; DOT]) then mret (0, n) else
  m ← GetMountPointFromName name;
  match m with
  | None => mret (ENOENT, junk)
  | Some root => f ← get_file (mount_node root); mret (0, node f)
  end.

Definition InitVfs : M (vfs D) unit := modify (with_mounts (Some [])).

(** [roots_read] and [roots_follow]: the addresses of the two functions. *)
Definition STAR : Z := 42.
Definition roots_ops (roots_read roots_follow : Z) : vnode_operations :=
  {| check_open := NULL; read := roots_read; write := NULL; ioctl := NULL; close := NULL;
     truncate := NULL; create := NULL; follow := roots_follow; unlink := NULL; delete_op := NULL |}.
Definition InitRootsFilesystem (roots_read roots_follow : Z) : M (vfs D) unit :=
  d ← NextDevId;
  n ← CreateVnode (roots_ops roots_read roots_follow)
        {| st_dev := d; st_ino := 0; st_mode := Z.lor S_IFDIR 511; st_nlink := 1; st_size := 0; st_blksize := 0 |};
  _ ← AddVfsMount n (Some [STAR]);
  mret tt.

(** ** Looking up a path *)
Fixpoint GetVnodeFromPath_loop (fuel : nat) (path : cstring) (ptr current : Z) : M (vfs D) (Z * Z) :=
  if decide (length path ≤ ptr) then mret (0, current) else
  match fuel with
  | O => exhausted
  | S fuel =>
    let '(status, component, ptr) := GetPathComponent path ptr MAX_COMPONENT_LENGTH SLASH in
    if decide (status ≠ 0) then DereferenceVnode current;; mret (status, current) else
    if decide (component = [DOT]) then GetVnodeFromPath_loop fuel path ptr current else
    '(status, next) ← VnodeOpFollow current component;
    if decide (status ≠ 0) then DereferenceVnode current;; mret (status, current) else
    GetVnodeFromPath_loop fuel path ptr next
  end.

(** Where the lookup starts, and the index in the path. *)
Definition lookup_start (path : cstring) : M (vfs D) (Z * Z * Z) :=
  if IsRelative path then
    s ← get;
    match cwd s with None => mret (ENODEV, NULL, 0) | Some c => mret (0, c, 0) end
  else
    let '(err, component, ptr) := GetPathComponent path 0 MAX_COMPONENT_LENGTH COLON in
    if decide (err ≠ 0) then mret (err, NULL, ptr) else
    m ← GetMountPointFromName component;
    match m with
    | None => mret (ENODEV, NULL, ptr)
    | Some mount =>
      if decide (mount_node mount = NULL) then mret (ENODEV, NULL, ptr) else
      f ← get_file (mount_node mount); mret (0, node f, ptr)
    end.

(** The status, and [*out], which an error leaves as it was. *)
Definition GetVnodeFromPath (path : cstring) (out : Z) (want_parent : bool) : M (vfs D) (Z * Z) :=
  if decide (Z.of_nat (length path) = 0) then mret (EINVAL, out) else
  if decide (MAX_PATH_LENGTH ≤ length path) then mret (ENAMETOOLONG, out) else
  '(err, current, ptr) ← lookup_start path;
  if decide (err ≠ 0) then mret (err, out) else
  if decide (current = NULL) then mret (ENODEV, out) else
  ReferenceVnode current;;
  '(status, current) ← GetVnodeFromPath_loop (length path) path ptr current;
  if decide (status ≠ 0) then mret (status, out) else
  if want_parent then
    '(status, parent) ← VnodeOpFollow current [DOT; DOT];
    DereferenceVnode current;;
    mret (if decide (status ≠ 0) then (status, out) else (0, parent))
  else mret (0, current).

(** ** Files *)
Definition RemoveFileOrDirectory (path : cstring) (rmdir : bool) : M (vfs D) Z :=
  '(res, n) ← GetVnodeFromPath path junk false;
  if decide (res ≠ 0) then mret res else
  v ← get_vnode n;
  let is_dir := bool_decide (IFTODT (st_mode (vn_stat v)) = DT_DIR) in
  if rmdir && negb is_dir then mret ENOTDIR else
  if negb rmdir && is_dir then mret EISDIR else
  res ← (if rmdir then VnodeOpDelete n
         else if decide (0 < st_nlink (vn_stat v)) then VnodeOpUnlink n else mret ENOENT);
  DereferenceVnode n;;
  mret res.

Definition has_flag (flags f : Z) : bool := negb (bool_decide (Z.land flags f = 0)).

(** The vnode that is opened: found, or created in its parent directory; [inl] is
    an early return. [node] is not initialised before the lookup. *)
Definition open_vnode (path : cstring) (flags mode : Z) : M (vfs D) (Z + Z) :=
  '(status, n) ← GetVnodeFromPath path junk false;
  if has_flag flags O_CREAT then
    if decide (status = ENOENT) then
      '(status, n) ← GetVnodeFromPath path n true;
      if decide (status ≠ 0) then mret (inl status) else
      match GetFinalPathComponent path [] MAX_COMPONENT_LENGTH with
      | None => exhausted
      | Some (status, name) =>
        if decide (status ≠ 0) then mret (inl status) else
        '(status, child) ← VnodeOpCreate n junk name flags mode;
        DereferenceVnode n;;
        if decide (status ≠ 0) then mret (inl status) else mret (inr child)
      end
    else if has_flag flags O_EXCL then mret (inl EEXIST)
    else mret (inr n)
  else if decide (status ≠ 0) then mret (inl status) else mret (inr n).

(** The status, and the file in [*out] if it is 0. [path] is [None] for NULL. *)
Definition OpenFile (path : option cstring) (flags mode : Z) : M (vfs D) (Z * Z) :=
  match path with
  | None | Some [] => mret (EINVAL, NULL)
  | Some path =>
    r ← open_vnode path flags mode;
    match r with
    | inl status => mret (status, NULL)
    | inr n =>
      status ← VnodeOpCheckOpen n (Z.land flags (Z.lor O_ACCMODE O_NONBLOCK));
      if decide (status ≠ 0) then DereferenceVnode n;; mret (status, NULL) else
      let rd := bool_decide (Z.land flags O_ACCMODE ≠ O_WRONLY) in
      let wr := bool_decide (Z.land flags O_ACCMODE ≠ O_RDONLY) in
      v ← get_vnode n;
      if bool_decide (IFTODT (st_mode (vn_stat v)) = DT_DIR) && wr
      then DereferenceVnode n;; mret (EISDIR, NULL) else
      if has_flag flags O_TRUNC && bool_decide (IFTODT (st_mode (vn_stat v)) = DT_REG) then
        (if wr then
           status ← VnodeOpTruncate n 0;
           mret (if decide (status ≠ 0) then status else ENOSYS, NULL)
         else mret (EINVAL, NULL))
      else
        set_vnode n {| v with vn_flags := Z.land flags (Z.lor O_NONBLOCK O_APPEND) |};;
        f ← CreateFile n mode (Z.land flags O_CLOEXEC) rd wr;
        mret (0, f)
    end
  end.

(** [blockable] of the caller's transfer is set. *)
Definition set_blockable (b : bool) (io : transfer) : transfer :=
  {| address := address io; length_remaining := length_remaining io; offset := offset io;
     direction := direction io; type := type io; blockable := b |}.

Definition FileAccess (f : Z) (io : option transfer) (wr : bool) : M (vfs D) (Z * option transfer) :=
  match io with
  | None => mret (EINVAL, None)
  | Some io =>
    if decide (address io = NULL ∨ f = NULL) then mret (EINVAL, Some io) else
    fl ← get_file f;
    if decide (node fl = NULL) then mret (EINVAL, Some io) else
    if (negb wr && negb (can_read fl)) || (wr && negb (can_write fl)) then mret (EBADF, Some io) else
    v ← get_vnode (node fl);
    let io := set_blockable (negb (has_flag (vn_flags v) O_NONBLOCK)) io in
    '(r, io) ← (if wr then VnodeOpWrite (node fl) io else VnodeOpRead (node fl) io);
    mret (r, Some io)
  end.

Definition ReadFile (f : Z) (io : option transfer) : M (vfs D) (Z * option transfer) := FileAccess f io false.
Definition WriteFile (f : Z) (io : option transfer) : M (vfs D) (Z * option transfer) := FileAccess f io true.

Definition CloseFile (f : Z) : M (vfs D) Z :=
  if decide (f = NULL) then mret EINVAL else
  fl ← get_file f;
  if decide (node fl = NULL) then mret EINVAL else
  DereferenceVnode (node fl);;
  DereferenceFile f;;
  mret 0.

Definition SetWorkingDirectory (n : Z) : M (vfs D) Z :=
  s ← get;
  match cwd s with
  | None => mret EINVAL
  | Some old =>
    if decide (n = NULL) then mret EINVAL else
    v ← get_vnode n;
    if negb (S_ISDIR (st_mode (vn_stat v))) then mret ENOTDIR else
    modify (with_cwd (Some n));;
    ReferenceVnode n;;
    (if decide (old ≠ NULL) then DereferenceVnode old else mret tt);;
    mret 0
  end.
End vfs.
