(* ===== verification/FileDes.v ===== *)
(** * vfs/filedes.c: file descriptor tables

    The lock of a table is a mutex that is not recursive: taking it while it is
    held waits for ever when nobody else runs. *)

From S2P Require Import Prelude Transfer Vnode Vfs.

Definition PROC_MAX_FD : Z := 1024.

Section filedes.
Context {D : Type} `{!Allocator} `{!Drivers D}.

Definition get_table (t : Z) : M (vfs D) fd_table := s ← get; deref (tables s !! t).
Definition set_table (t : Z) (v : fd_table) : M (vfs D) unit := modify (λ s, with_tables (<[t := v]> (tables s)) s).

Definition AcquireTable (t : Z) : M (vfs D) unit :=
  v ← get_table t;
  if locked v then block else set_table t {| v with locked := true |}.
Definition ReleaseTable (t : Z) : M (vfs D) unit :=
  v ← get_table t;
  c_assert (locked v);;
  set_table t {| v with locked := false |}.

Definition get_entry (t i : Z) : M (vfs D) fd := v ← get_table t; deref (aget (entries v) i).
Definition set_entry (t i : Z) (e : fd) : M (vfs D) unit :=
  v ← get_table t;
  l ← deref (aset (entries v) i e);
  set_table t {| v with entries := l |}.

(** The pages of the new table are zero; the loop sets each [file] to NULL. *)
Definition CreateFdTable : M (vfs D) Z :=
  s ← get;
  let t := pick (live_objects s) in
  set_table t {| locked := false; entries := replicate (Z.to_nat PROC_MAX_FD) (Fd NULL 0) |};;
  mret t.

Definition CopyFdTable (original : Z) : M (vfs D) Z :=
  new_table ← CreateFdTable;
  AcquireTable original;;
  o ← get_table original;
  n ← get_table new_table;
  set_table new_table {| n with entries := entries o |};;
  ReleaseTable original;;
  mret new_table.

(** [for (int i = 0; i < PROC_MAX_FD; ++i)], from [i] on, [n] iterations. *)
Fixpoint DestroyFdTable_loop (n : nat) (t i : Z) : M (vfs D) unit :=
  match n with
  | O => mret tt
  | S n =>
    e ← get_entry t i;
    (if decide (fd_file e ≠ NULL) then _ ← CloseFile (fd_file e); mret tt else mret tt);;
    DestroyFdTable_loop n t (i + 1)
  end.

(** The entries are unmapped; the lock is destroyed; the struct is not freed. *)
Definition DestroyFdTable (t : Z) : M (vfs D) unit :=
  AcquireTable t;;
  DestroyFdTable_loop (Z.to_nat PROC_MAX_FD) t 0;;
  v ← get_table t;
  set_table t {| v with entries := [] |};;
  ReleaseTable t.

(** The loops look for the first entry whose file is [file]. *)
Fixpoint find_entry (n : nat) (t i file : Z) : M (vfs D) (option Z) :=
  match n with
  | O => mret None
  | S n =>
    e ← get_entry t i;
    if decide (fd_file e = file) then mret (Some i) else find_entry n t (i + 1) file
  end.

(** The status, and [*fd_out], which starts as [out]. The message that is logged
    reads [file->node]. *)
Definition CreateFd (t f out flags : Z) : M (vfs D) (Z * Z) :=
  if decide (Z.land flags (Z.lnot O_CLOEXEC) ≠ 0) then mret (EINVAL, out) else
  AcquireTable t;;
  r ← find_entry (Z.to_nat PROC_MAX_FD) t 0 NULL;
  match r with
  | Some i =>
    set_entry t i (Fd f flags);;
    ReleaseTable t;;
    _ ← get_file f;
    mret (0, i)
  | None => ReleaseTable t;; mret (EMFILE, out)
  end.

Definition RemoveFd (t f : Z) : M (vfs D) Z :=
  AcquireTable t;;
  r ← find_entry (Z.to_nat PROC_MAX_FD) t 0 f;
  match r with
  | Some i =>
    e ← get_entry t i;
    set_entry t i {| e with fd_file := NULL |};;
    _ ← get_file f;
    ReleaseTable t;; mret 0
  | None => ReleaseTable t;; mret EINVAL
  end.

(** [out]: whether the pointer is valid; [*out] is NULL on an error. A NULL [out]
    is written to before it is reported. *)
Definition GetFileFromFd (t fd : Z) (out : bool) : M (vfs D) (Z * Z) :=
  if decide (out = false ∨ fd < 0 ∨ PROC_MAX_FD ≤ fd) then
    (if out then mret (EBADF, NULL) else fault)
  else
    AcquireTable t;;
    e ← get_entry t fd;
    ReleaseTable t;;
    mret (if decide (fd_file e = NULL) then EBADF else 0, fd_file e).

Fixpoint HandleExecFd_loop (n : nat) (t i : Z) : M (vfs D) Z :=
  match n with
  | O => ReleaseTable t;; mret 0
  | S n =>
    e ← get_entry t i;
    if decide (fd_file e ≠ NULL ∧ Z.land (fd_flags e) O_CLOEXEC ≠ 0) then
      set_entry t i {| e with fd_file := NULL |};;
      res ← CloseFile (fd_file e);
      if decide (res ≠ 0) then ReleaseTable t;; mret res else HandleExecFd_loop n t (i + 1)
    else HandleExecFd_loop n t (i + 1)
  end.
Definition HandleExecFd (t : Z) : M (vfs D) Z :=
  AcquireTable t;;
  HandleExecFd_loop (Z.to_nat PROC_MAX_FD) t 0.

Definition DupFd (t oldfd newfd : Z) : M (vfs D) (Z * Z) :=
  AcquireTable t;;
  '(res, original_file) ← GetFileFromFd t oldfd true;
  if decide (res ≠ 0 ∨ original_file = NULL) then ReleaseTable t;; mret (EBADF, newfd) else
  r ← find_entry (Z.to_nat PROC_MAX_FD) t 0 NULL;
  match r with
  | Some i => set_entry t i (Fd original_file 0);; ReleaseTable t;; mret (0, i)
  | None => ReleaseTable t;; mret (EMFILE, newfd)
  end.

Definition DupFd2 (t oldfd newfd flags : Z) : M (vfs D) Z :=
  if decide (Z.land flags (Z.lnot O_CLOEXEC) ≠ 0) then mret EINVAL else
  AcquireTable t;;
  '(res, original_file) ← GetFileFromFd t oldfd true;
  if decide (res ≠ 0 ∨ original_file = NULL) then ReleaseTable t;; mret EBADF else
  if decide (oldfd = newfd) then ReleaseTable t;; mret 0 else
  '(res, current_file) ← GetFileFromFd t oldfd true;
  (if decide (res = 0 ∧ current_file ≠ NULL) then _ ← CloseFile current_file; mret tt else mret tt);;
  set_entry t newfd (Fd original_file flags);;
  ReleaseTable t;;
  mret 0.
End filedes.
