(* ===== verification/VfsPaths.v ===== *)
(** * Paths: the component scanner against splitting at the slashes

    A path is split at every slash and the empty pieces are dropped, the first
    apart: [components]. [GetPathComponent] delivers these one at a time, so the
    lookup of a path is a [walk] over them and the last one is the name of the file;
    no fuel is left in the reference definitions. *)

From S2P Require Import Prelude Transfer Vnode Vfs.

(** ** The reference *)
Fixpoint split_on (l : cstring) : list cstring :=
  match l with
  | [] => [[]]
  | c :: l =>
    if decide (c = SLASH) then [] :: split_on l else
    match split_on l with w :: ws => (c :: w) :: ws | [] => [[c]] end
  end.

Definition nonempty (w : cstring) : Prop := w ≠ [].
#[export] Instance nonempty_dec w : Decision (nonempty w).
Proof. unfold nonempty. apply _. Defined.

Definition components (l : cstring) : list cstring :=
  match l with
  | [] => []
  | _ => match split_on l with w :: ws => w :: filter nonempty ws | [] => [] end
  end.

Definition component_error (w : cstring) : Z :=
  if decide (MAX_COMPONENT_LENGTH ≤ length w) then ENAMETOOLONG else CheckValidComponentName w.

(** The first component that is not valid decides; else the last one is the result. *)
Fixpoint final_component (ws : list cstring) (out : cstring) : Z * cstring :=
  match ws with
  | [] => (0, out)
  | w :: ws =>
    if decide (component_error w ≠ 0)
    then (component_error w, take (Z.to_nat (MAX_COMPONENT_LENGTH - 1)) w)
    else final_component ws w
  end.

(** Before and after the first [d]; the slashes at the front dropped. *)
Fixpoint until (d : Z) (l : cstring) : cstring :=
  match l with [] => [] | c :: l => if decide (c = d) then [] else c :: until d l end.
Definition after (d : Z) (l : cstring) : cstring := drop (length (until d l)) l.
Fixpoint drop_slashes (l : cstring) : cstring :=
  match l with [] => [] | c :: l' => if decide (c = SLASH) then drop_slashes l' else l end.
(** What is left once the component up to [d] is taken. *)
Definition past (d : Z) (l : cstring) : cstring :=
  match after d l with [] => [] | _ :: r => drop_slashes r end.

Section walk.
Context {D : Type} `{!Allocator} `{!Drivers D}.

Fixpoint walk (ws : list cstring) (n : Z) : M (vfs D) (Z * Z) :=
  match ws with
  | [] => mret (0, n)
  | w :: ws =>
    if decide (component_error w ≠ 0) then DereferenceVnode n;; mret (component_error w, n) else
    if decide (w = [DOT]) then walk ws n else
    '(status, next) ← VnodeOpFollow n w;
    if decide (status ≠ 0) then DereferenceVnode n;; mret (status, n) else walk ws next
  end.
End walk.

(** ** The scanner *)
Lemma until_app d l : until d l ++ after d l = l.
Proof.
  unfold after. induction l as [|c l IH]; simpl; [done|].
  destruct (decide (c = d)); simpl; [done|]. by f_equal.
Qed.

Lemma length_until d l : (length (until d l) + length (after d l) = length l)%nat.
Proof. rewrite <- length_app. by rewrite until_app. Qed.

Lemma component_loop_run l ptr out d max_len :
  GetPathComponent_loop l ptr out max_len d =
  if decide (length out + length (until d l) ≤ Z.max (length out) (max_len - 1))
  then (0, out ++ until d l, ptr + length (until d l))
  else (ENAMETOOLONG, out ++ take (Z.to_nat (max_len - 1) - length out) (until d l),
        ptr + (max_len - 1 - length out) `max` 0).
Proof.
  revert ptr out. induction l as [|c l IH]; intros ptr out; simpl.
  - rewrite decide_True by lia. by rewrite app_nil_r, Z.add_0_r.
  - destruct (decide (c = d)) as [->|Hc]; simpl.
    + rewrite decide_True by lia. by rewrite app_nil_r, Z.add_0_r.
    + destruct (decide (max_len - 1 ≤ length out)) as [Hm|Hm].
      * rewrite decide_False by lia. replace (_ - _)%nat with 0%nat by lia.
        rewrite take_0, app_nil_r. f_equal. lia.
      * rewrite IH, length_app. simpl. rewrite <- !app_assoc. simpl.
        destruct (decide _) as [H1|H1]; destruct (decide _) as [H2|H2]; try lia; [f_equal; lia|].
        replace (Z.to_nat (max_len - 1) - length out)%nat
          with (S (Z.to_nat (max_len - 1) - (length out + 1))) by lia.
        simpl. f_equal. lia.
Qed.

Lemma skip_slashes_run l ptr :
  skip_slashes l ptr = ptr + (length l - length (drop_slashes l)).
Proof.
  revert ptr. induction l as [|c l IH]; intros ptr; simpl; [lia|].
  destruct (decide (c = SLASH)); simpl; [rewrite IH; lia|lia].
Qed.

Lemma length_drop_slashes l : (length (drop_slashes l) ≤ length l)%nat.
Proof. induction l as [|c l IH]; simpl; [done|]. destruct (decide (c = SLASH)); simpl; lia. Qed.

Lemma drop_slashes_drop l : drop (length l - length (drop_slashes l)) l = drop_slashes l.
Proof.
  induction l as [|c l IH]; simpl; [done|].
  destruct (decide (c = SLASH)); simpl.
  - pose proof (length_drop_slashes l). replace (S (length l) - _)%nat with (S (length l - length (drop_slashes l))) by lia. done.
  - by rewrite Nat.sub_diag.
Qed.

Lemma path_from_add path ptr (k : nat) : 0 ≤ ptr → path_from path (ptr + k) = drop k (path_from path ptr).
Proof. intros. unfold path_from. rewrite drop_drop. f_equal. lia. Qed.

(** What one call does, from the path left at [ptr]. *)
Lemma component_run path ptr d l :
  0 ≤ ptr → path_from path ptr = l → l ≠ [] →
  ∃ out ptr', GetPathComponent path ptr MAX_COMPONENT_LENGTH d =
    (component_error (until d l), out, ptr') ∧
  (component_error (until d l) = 0 → out = until d l ∧ path_from path ptr' = past d l ∧ ptr < ptr') ∧
  out = take (Z.to_nat (MAX_COMPONENT_LENGTH - 1)) (until d l).
Proof.
  intros H0 Hl Hne. unfold GetPathComponent. rewrite Hl, component_loop_run. simpl. rewrite !Z.add_0_l.
  unfold component_error, MAX_COMPONENT_LENGTH in *.
  destruct (decide (length (until d l) ≤ _)) as [Hs|Hs].
  - rewrite (decide_False (P := 0 ≠ 0)) by lia. rewrite decide_False by lia.
    rewrite path_from_add, Hl by done. fold (after d l). unfold past.
    eexists _, _. split; [done|]. split; [|by rewrite take_ge by lia].
    intros Hv. split; [done|]. destruct (after d l) as [|c r] eqn:E.
    + assert (until d l = l) as Hu by (rewrite <- (until_app d l) at 2; by rewrite E, app_nil_r).
      split; [by rewrite path_from_add, Hl by done|].
      rewrite Hu. destruct l; [done|]. simpl. lia.
    + rewrite skip_slashes_run. pose proof (length_drop_slashes r).
      replace (ptr + length (until d l) + 1 + (length r - length (drop_slashes r)))
        with (ptr + (length (until d l) + S (length r - length (drop_slashes r)))%nat) by lia.
      split; [|lia]. rewrite path_from_add, Hl by done. rewrite <- drop_drop. fold (after d l). rewrite E. simpl.
      apply drop_slashes_drop.
  - rewrite (decide_True (P := ENAMETOOLONG ≠ 0)) by done. rewrite decide_True by lia.
    eexists _, _. split; [done|]. split; [done|]. f_equal.
Qed.

(** ** Components *)
Lemma split_on_until l :
  split_on l = until SLASH l :: match after SLASH l with [] => [] | _ :: r => split_on r end.
Proof.
  unfold after. induction l as [|c l IH]; simpl; [done|].
  destruct (decide (c = SLASH)); simpl; [done|]. by rewrite IH.
Qed.

Lemma components_drop_slashes l : components (drop_slashes l) = filter nonempty (split_on l).
Proof.
  induction l as [|c l IH]; simpl; [done|].
  destruct (decide (c = SLASH)) as [->|Hc]; [done|].
  unfold components. simpl. rewrite decide_False by done.
  rewrite split_on_until. rewrite filter_cons_True by done. done.
Qed.

Lemma components_past l : l ≠ [] → components l = until SLASH l :: components (past SLASH l).
Proof.
  intros Hl. unfold past. destruct l as [|c l]; [done|]. unfold components at 1.
  rewrite split_on_until. f_equal. destruct (after SLASH (c :: l)); [done|].
  by rewrite components_drop_slashes.
Qed.

Lemma IsRelative_until path : IsRelative path = bool_decide (until COLON path = path).
Proof.
  induction path as [|c l IH]; simpl; [done|].
  destruct (decide (c = COLON)); [by rewrite bool_decide_eq_false_2|].
  rewrite IH. apply bool_decide_ext. split; [by intros ->|congruence].
Qed.

Lemma path_from_nil path ptr : 0 ≤ ptr → (length path ≤ ptr ↔ path_from path ptr = []).
Proof.
  intros. unfold path_from. split; intros H1; [apply drop_ge; lia|].
  apply (f_equal length) in H1. rewrite length_drop in H1. simpl in H1. lia.
Qed.

(** One step of the scanner, over the components that are left. *)
Lemma component_step path ptr ws :
  0 ≤ ptr → components (path_from path ptr) = ws →
  match ws with
  | [] => length path ≤ ptr
  | w :: ws => ptr < length path ∧ ∃ out ptr',
      GetPathComponent path ptr MAX_COMPONENT_LENGTH SLASH = (component_error w, out, ptr') ∧
      (component_error w = 0 → out = w ∧ components (path_from path ptr') = ws ∧ ptr < ptr') ∧
      out = take (Z.to_nat (MAX_COMPONENT_LENGTH - 1)) w
  end.
Proof.
  intros H0 Hc. destruct (decide (path_from path ptr = [])) as [Hn|Hn].
  - rewrite Hn in Hc. subst. by apply path_from_nil.
  - rewrite components_past in Hc by done. subst. split.
    { destruct (decide (length path ≤ ptr)) as [Hp|]; [|lia]. by apply path_from_nil in Hp. }
    destruct (component_run path ptr SLASH _ H0 eq_refl Hn) as (out & ptr' & Hg & Hok & Ho).
    exists out, ptr'. split_and!; [done| |done]. intros Hv. apply Hok in Hv as (-> & -> & Hlt). auto.
Qed.

(** ** The last component *)
Lemma final_loop_run path (fuel : nat) ptr out :
  0 ≤ ptr → length path - ptr ≤ fuel →
  GetFinalPathComponent_loop fuel path ptr MAX_COMPONENT_LENGTH out =
    Some (final_component (components (path_from path ptr)) out).
Proof.
  revert ptr out. induction fuel as [|fuel IH]; intros ptr out H0 Hf; cbn [GetFinalPathComponent_loop];
    pose proof (component_step path ptr _ H0 eq_refl) as Hs;
    destruct (components (path_from path ptr)) as [|w ws]; try (by rewrite decide_True by done).
  - exfalso. destruct Hs as [? _]. lia.
  - destruct Hs as (Hl & o & ptr' & -> & Hok & Ho). rewrite decide_False by lia. cbn [final_component].
    destruct (decide (component_error w ≠ 0)) as [|Hv%dec_stable]; [by rewrite Ho|].
    destruct (Hok Hv) as (-> & Hw & Hlt). rewrite IH, Hw by lia. done.
Qed.

(** Where the components start, and the name of the mount. *)
Definition path_names (path : cstring) : list cstring :=
  components (if IsRelative path then path else past COLON path).

(** ** The lookup *)
Section lookup.
Context {D : Type} `{!Allocator} `{!Drivers D}.
Implicit Types s : vfs D.

Lemma lookup_loop_run path (fuel : nat) ptr n s :
  0 ≤ ptr → length path - ptr ≤ fuel →
  GetVnodeFromPath_loop fuel path ptr n s = walk (components (path_from path ptr)) n s.
Proof.
  revert ptr n s. induction fuel as [|fuel IH]; intros ptr n s H0 Hf; cbn [GetVnodeFromPath_loop];
    pose proof (component_step path ptr _ H0 eq_refl) as Hs;
    destruct (components (path_from path ptr)) as [|w ws]; try (by rewrite decide_True by done).
  - exfalso. destruct Hs as [? _]. lia.
  - destruct Hs as (Hl & o & ptr' & -> & Hok & Ho). rewrite decide_False by lia. cbn [walk].
    destruct (decide (component_error w ≠ 0)) as [|Hv%dec_stable]; [done|].
    destruct (Hok Hv) as (-> & Hw & Hlt). rewrite <- Hw.
    destruct (decide (w = [DOT])); [by apply IH; lia|].
    unfold mbind, M_mbind. destruct (VnodeOpFollow n w s) as [[[st m] s']| | | |]; try done. simpl.
    destruct (decide (st ≠ 0)); [done|]. by apply IH; lia.
Qed.

(** The vnode the lookup starts at. *)
Definition start_vnode (path : cstring) : M (vfs D) (Z * Z) :=
  if IsRelative path then
    s ← get; mret (match cwd s with None => (ENODEV, NULL) | Some c => (0, c) end)
  else if decide (component_error (until COLON path) ≠ 0) then mret (component_error (until COLON path), NULL)
  else
    m ← GetMountPointFromName (until COLON path);
    match m with
    | None => mret (ENODEV, NULL)
    | Some mount =>
      if decide (mount_node mount = NULL) then mret (ENODEV, NULL)
      else f ← get_file (mount_node mount); mret (0, node f)
    end.

(** The reference: no index, no fuel. *)
Definition lookup_path (path : cstring) (out : Z) (want_parent : bool) : M (vfs D) (Z * Z) :=
  if decide (path = []) then mret (EINVAL, out) else
  if decide (MAX_PATH_LENGTH ≤ length path) then mret (ENAMETOOLONG, out) else
  '(err, n) ← start_vnode path;
  if decide (err ≠ 0) then mret (err, out) else
  if decide (n = NULL) then mret (ENODEV, out) else
  ReferenceVnode n;;
  '(status, n) ← walk (path_names path) n;
  if decide (status ≠ 0) then mret (status, out) else
  if want_parent then
    '(status, parent) ← VnodeOpFollow n [DOT; DOT];
    DereferenceVnode n;;
    mret (if decide (status ≠ 0) then (status, out) else (0, parent))
  else mret (0, n).

Lemma lookup_start_run path s :
  path ≠ [] →
  ∃ ptr, lookup_start path s = ('(err, n) ← start_vnode path; mret (err, n, ptr)) s ∧
    (∀ n s', start_vnode path s = Done (0, n, s') →
       0 ≤ ptr ∧ components (path_from path ptr) = path_names path).
Proof.
  intros Hp. unfold lookup_start, start_vnode, path_names.
  destruct (IsRelative path) eqn:Er.
  { exists 0. split; [|done]. munfold. simpl. by destruct (cwd s). }
  destruct (component_run path 0 COLON path ltac:(lia) eq_refl Hp) as (out & ptr & Hg & Hok & Ho).
  rewrite Hg. exists ptr. destruct (decide (component_error (until COLON path) ≠ 0)) as [He|He%dec_stable].
  { split; [done|]. intros n s' [=]. congruence. }
  destruct (Hok He) as (-> & Hpf & Hlt). split; [|intros; rewrite Hpf; split; [lia|done]].
  munfold. destruct (GetMountPointFromName (until COLON path) s) as [[[m|] s']| | | |]; try done. simpl.
  destruct (decide (mount_node m = NULL)); [done|]. unfold get_file. munfold. simpl.
  by destruct (files s' !! mount_node m).
Qed.

(** C12: looking up a path is the walk over its components, for every path and
    every driver. *)
Theorem path_lookup_is_walk path out want_parent s :
  GetVnodeFromPath path out want_parent s = lookup_path path out want_parent s.
Proof.
  unfold GetVnodeFromPath, lookup_path. destruct (decide (path = [])) as [->|Hp]; [done|].
  rewrite decide_False by (destruct path; simpl; [done|lia]).
  destruct (decide (MAX_PATH_LENGTH ≤ length path)); [done|].
  destruct (lookup_start_run path s Hp) as (ptr & Hs & Hok).
  unfold mbind at 1, M_mbind at 1. rewrite Hs. clear Hs. munfold.
  destruct (start_vnode path s) as [[[err v] s']| | | |]; try done. cbn [outcome_bind].
  destruct (decide (err ≠ 0)) as [|He%dec_stable]; [done|]. subst err.
  destruct (Hok v s' eq_refl) as [H0 Hc]. destruct (decide (v = NULL)); [done|].
  destruct (ReferenceVnode v s') as [[[] s1]| | | |]; try done. cbn [outcome_bind].
  rewrite lookup_loop_run, Hc by lia. done.
Qed.
End lookup.

(** ** Paths that are printed *)

(** A path of names, each followed by [S k] slashes, and what comes last. *)
Fixpoint join (ws : list (cstring * nat)) (last : cstring) : cstring :=
  match ws with
  | [] => last
  | (w, k) :: ws => w ++ SLASH :: replicate k SLASH ++ join ws last
  end.

Definition name_char (c : Z) : Prop := c ≠ SLASH ∧ c ≠ BACKSLASH ∧ c ≠ COLON.
Definition valid_name (w : cstring) : Prop := w ≠ [] ∧ length w < MAX_COMPONENT_LENGTH ∧ Forall name_char w.

Lemma valid_name_error w : component_error w = 0 ↔ valid_name w.
Proof.
  assert (CheckValidComponentName_loop w = 0 ↔ Forall name_char w) as Hl.
  { induction w as [|c w IH]; simpl; [done|]. rewrite Forall_cons. unfold name_char at 1.
    destruct (decide _) as [Hd|Hd]; [split; [done|naive_solver]|]. rewrite IH. naive_solver. }
  unfold component_error, valid_name. destruct (decide (MAX_COMPONENT_LENGTH ≤ length w)) as [|Hlen].
  { split; [done|]. intros (_ & ? & _). lia. }
  destruct w as [|c w]; [by split; [|intros [? _]]|]. unfold CheckValidComponentName. rewrite Hl.
  split; [|naive_solver]. intros H. split; [done|]. split; [lia|done].
Qed.

Lemma until_stop d w l : d ∉ w → until d (w ++ d :: l) = w.
Proof.
  induction w as [|c w IH]; simpl; [by rewrite decide_True|]. intros [Hc Hw]%not_elem_of_cons.
  rewrite decide_False by done. by rewrite IH.
Qed.
Lemma until_all d w : d ∉ w → until d w = w.
Proof.
  induction w as [|c w IH]; simpl; [done|]. intros [Hc Hw]%not_elem_of_cons.
  rewrite decide_False by done. by rewrite IH.
Qed.
Lemma past_stop d w l : d ∉ w → past d (w ++ d :: l) = drop_slashes l.
Proof. intros. unfold past, after. rewrite until_stop by done. by rewrite drop_app_length. Qed.
Lemma past_all d w : d ∉ w → past d w = [].
Proof. intros. unfold past, after. rewrite until_all by done. by rewrite drop_all. Qed.

Lemma drop_slashes_replicate k l : drop_slashes (replicate k SLASH ++ l) = drop_slashes l.
Proof. induction k as [|k IH]; simpl; [done|]. exact IH. Qed.

Lemma name_no_char w c : Forall name_char w → ¬ name_char c → c ∉ w.
Proof. rewrite Forall_forall. auto. Qed.

(** What [join] may end with: a name or nothing. *)
Definition tail_ok (last : cstring) : Prop := last = [] ∨ valid_name last.

Lemma join_no_leading_slash ws last :
  Forall (λ w : cstring * nat, valid_name w.1) ws → tail_ok last →
  drop_slashes (join ws last) = join ws last.
Proof.
  assert (∀ w l, valid_name w → drop_slashes (w ++ l) = w ++ l) as Hw.
  { intros [|c w] l (Hne & _ & Hf); [done|]. simpl. rewrite decide_False; [done|].
    by inversion Hf as [|? ? []]. }
  intros [|[w k] ws' Hv _] Hlast; [|by apply Hw].
  destruct Hlast as [->|Hv]; [done|]. simpl. rewrite <- (app_nil_r last). by apply Hw.
Qed.

Definition tail_names (last : cstring) : list cstring := if decide (last = []) then [] else [last].

Lemma components_join ws last :
  Forall (λ w : cstring * nat, valid_name w.1) ws → tail_ok last →
  components (join ws last) = ws.*1 ++ tail_names last.
Proof.
  intros Hws Hlast. induction Hws as [|[w k] ws (Hne & Hlen & Hch) Hws IH]; simpl.
  - unfold tail_names. destruct (decide (last = [])) as [->|Hn]; [done|].
    destruct Hlast as [|(_ & _ & Hc)]; [done|].
    assert (SLASH ∉ last) by (eapply name_no_char; [done|unfold name_char; naive_solver]).
    rewrite components_past, until_all, past_all by done. done.
  - simpl in *. assert (SLASH ∉ w) by (eapply name_no_char; [done|unfold name_char; naive_solver]).
    rewrite components_past by (by destruct w).
    rewrite until_stop, past_stop, drop_slashes_replicate, join_no_leading_slash by done. by rewrite IH.
Qed.

Lemma join_no_colon ws last :
  Forall (λ w : cstring * nat, valid_name w.1) ws → tail_ok last → COLON ∉ join ws last.
Proof.
  assert (∀ w, valid_name w → COLON ∉ w) as Hv.
  { intros w (_ & _ & Hc). eapply name_no_char; [done|]. unfold name_char. naive_solver. }
  intros Hws Hlast. induction Hws as [|[w k] ws Hw Hws IH]; simpl.
  - destruct Hlast as [->|]; [set_solver|by apply Hv].
  - rewrite not_elem_of_app, not_elem_of_cons, not_elem_of_app. split_and!; [by apply Hv|done| |done].
    rewrite elem_of_replicate. by intros [? _].
Qed.

Lemma final_component_valid ws out :
  Forall valid_name ws → final_component ws out = (0, default out (last ws)).
Proof.
  intros H. revert out. induction H as [|w ws Hw Hws IH]; intros out; cbn [final_component]; [done|].
  rewrite decide_False by (apply valid_name_error in Hw; lia). rewrite IH, last_cons. by destruct (last ws).
Qed.

(** A path on a mount, or relative without one. *)
Definition print_path (mount : option (cstring * nat)) (ws : list (cstring * nat)) (last : cstring) : cstring :=
  match mount with
  | None => join ws last
  | Some (m, k) => m ++ COLON :: replicate k SLASH ++ join ws last
  end.

(** a path that is printed from valid names, with any number of slashes
    between and after them, is taken apart into the same names, and its final
    component is the last of them. *)
Theorem path_names_roundtrip mount ws final out
  (Hmount : ∀ m k, mount = Some (m, k) → valid_name m)
  (Hws : Forall (λ w : cstring * nat, valid_name w.1) ws) (Hfinal : tail_ok final) :
  path_names (print_path mount ws final) = ws.*1 ++ tail_names final ∧
  GetFinalPathComponent (print_path mount ws final) out MAX_COMPONENT_LENGTH =
    Some (0, default (default out (fst <$> mount)) (last (ws.*1 ++ tail_names final))).
Proof.
  pose proof (components_join ws final Hws Hfinal) as Hc.
  assert (Forall valid_name (ws.*1 ++ tail_names final)) as Hv.
  { apply Forall_app. split; [by apply Forall_fmap|]. unfold tail_names.
    destruct (decide _); [done|]. destruct Hfinal; [done|]. by constructor. }
  pose proof (join_no_colon ws final Hws Hfinal) as Hcolon.
  unfold path_names, GetFinalPathComponent. rewrite !IsRelative_until.
  destruct mount as [[m k]|]; simpl.
  - pose proof (Hmount m k eq_refl) as Hm. pose proof Hm as (Hne & _ & Hch).
    assert (COLON ∉ m) by (eapply name_no_char; [done|unfold name_char; naive_solver]).
    rewrite until_stop, past_stop, drop_slashes_replicate, join_no_leading_slash by done.
    rewrite bool_decide_eq_false_2 by (intros E; apply (f_equal length) in E; rewrite length_app in E; simpl in E; lia).
    split; [done|].
    set (path := m ++ _). assert (until COLON path = m) as Hu by by apply until_stop.
    assert (past COLON path = join ws final) as Hps.
    { unfold path. by rewrite past_stop, drop_slashes_replicate, join_no_leading_slash. }
    destruct (component_run path 0 COLON path ltac:(lia) eq_refl) as (o & ptr & Hg & Hok & Ho).
    { unfold path. by destruct m. }
    rewrite Hu, Hps in *. apply valid_name_error in Hm. rewrite Hg, Hm in *.
    rewrite decide_False by lia. destruct (Hok eq_refl) as (-> & Hp & Hlt).
    rewrite final_loop_run, Hp, Hc by lia.
    by rewrite final_component_valid.
  - rewrite until_all, bool_decide_eq_true_2 by done. split; [done|].
    rewrite final_loop_run by lia. unfold path_from. rewrite drop_0, Hc. by rewrite final_component_valid.
Qed.

(** "hd0:/a//bc/" *)
Lemma path_names_roundtrip_witness :
  print_path (Some ([104; 100; 48], 1%nat)) [([97], 1%nat); ([98; 99], 0%nat)] [] =
    [104; 100; 48; 58; 47; 97; 47; 47; 98; 99; 47] ∧
  path_names [104; 100; 48; 58; 47; 97; 47; 47; 98; 99; 47] = [[97]; [98; 99]] ∧
  GetFinalPathComponent [104; 100; 48; 58; 47; 97; 47; 47; 98; 99; 47] [] MAX_COMPONENT_LENGTH = Some (0, [98; 99]).
Proof.
  split; [reflexivity|].
  apply (path_names_roundtrip (Some ([104; 100; 48], 1%nat)) [([97], 1%nat); ([98; 99], 0%nat)] [] []).
  - intros m k [= <- <-]. by apply valid_name_error.
  - repeat constructor; simpl; done.
  - by left.
Defined.
