(* ===== verification/VfsOpen.v ===== *)
(** * Reference counts of looking up, opening and closing

    The drivers are used through what vfs.c says of [follow] (it increments the
    count of the vnode it finds, or creates it with a count of one) and through
    [check_open] and [close] leaving the vnodes and files alone. *)

From S2P Require Import Prelude Transfer Vnode Vfs VfsPaths.

Section counts.
Context {D : Type} {AL : Allocator} {DR : Drivers D}.
Implicit Types s : vfs D.

(** The count of a vnode; zero when it does not exist. *)
Definition refs (s : vfs D) (n : Z) : Z := default 0 (reference_count <$> vnodes s !! n).

Definition counts_ok (s : vfs D) : Prop := ∀ n v, vnodes s !! n = Some v → 0 < reference_count v.

Fixpoint occ (x : Z) (l : list Z) : Z :=
  match l with [] => 0 | y :: l => (if decide (x = y) then 1 else 0) + occ x l end.

Lemma occ_app x l l' : occ x (l ++ l') = occ x l + occ x l'.
Proof. induction l as [|y l IH]; simpl; lia. Qed.
Lemma occ_nonneg x l : 0 ≤ occ x l.
Proof. induction l as [|y l IH]; simpl; [done|]. destruct (decide _); lia. Qed.

Class DriverContract : Prop := {
  follow_found op n name s m s' :
    call_follow op n name s = Done ((0, m), s') →
    files s' = files s ∧
    (∃ v, vnodes s' = <[m := v]> (vnodes s) ∧ reference_count v = refs s m + 1);
  follow_not_found op n name s r m s' :
    call_follow op n name s = Done ((r, m), s') → r ≠ 0 →
    files s' = files s ∧ vnodes s' = vnodes s;
  check_open_pure op n flags s r s' :
    call_check_open op n flags s = Done (r, s') → files s' = files s ∧ vnodes s' = vnodes s;
  close_returns op n v s :
    vnodes s !! n = Some v → ∃ r d, call_close op n s = Done (r, with_drv d s);
}.

(** ** Runs of the counting functions *)
Lemma get_vnode_run n v s : vnodes s !! n = Some v → get_vnode n s = Done (v, s).
Proof. intros E. unfold get_vnode. mred. by rewrite E. Qed.
Lemma get_file_run f v s : files s !! f = Some v → get_file f s = Done (v, s).
Proof. intros E. unfold get_file. mred. by rewrite E. Qed.

Lemma get_vnode_inv n v s s' : get_vnode n s = Done (v, s') → s' = s ∧ vnodes s !! n = Some v.
Proof. unfold get_vnode. mred. destruct (vnodes s !! n); [|done]. by intros [= <- <-]. Qed.
Lemma get_file_inv n v s s' : get_file n s = Done (v, s') → s' = s ∧ files s !! n = Some v.
Proof. unfold get_file. mred. destruct (files s !! n); [|done]. by intros [= <- <-]. Qed.

Lemma CheckVnode_run n v s :
  n ≠ NULL → vnodes s !! n = Some v → 0 < reference_count v → CheckVnode n s = Done (tt, s).
Proof.
  intros Hn Hv Hc. unfold CheckVnode. rewrite bool_decide_eq_true_2 by done.
  unfold get_vnode. mred. rewrite Hv. mred. by rewrite bool_decide_eq_true_2.
Qed.
Lemma CheckVnode_inv n s u s' :
  CheckVnode n s = Done (u, s') → s' = s ∧ n ≠ NULL ∧ ∃ v, vnodes s !! n = Some v ∧ 0 < reference_count v.
Proof.
  unfold CheckVnode, get_vnode. mred. case_bool_decide as Hn; [|done]. cbn.
  destruct (vnodes s !! n) as [v|]; [|done]. cbn. case_bool_decide as Hc; [|done].
  intros [= _ <-]. eauto 10.
Qed.

Lemma ReferenceVnode_run n v s :
  n ≠ NULL → vnodes s !! n = Some v →
  ReferenceVnode n s = Done (tt, with_vnodes (<[n := set_references (reference_count v + 1) v]> (vnodes s)) s).
Proof.
  intros Hn Hv. unfold ReferenceVnode, get_vnode, set_vnode. mred.
  rewrite bool_decide_eq_true_2 by done. cbn. rewrite Hv. done.
Qed.
Lemma ReferenceVnode_inv n s u s' :
  ReferenceVnode n s = Done (u, s') → n ≠ NULL ∧ ∃ v, vnodes s !! n = Some v ∧
    s' = with_vnodes (<[n := set_references (reference_count v + 1) v]> (vnodes s)) s.
Proof.
  unfold ReferenceVnode, get_vnode, set_vnode. mred. case_bool_decide as Hn; [|done]. cbn.
  destruct (vnodes s !! n) as [v|]; [|done]. intros [= _ <-]. eauto.
Qed.

Lemma refs_insert v n m s :
  refs (with_vnodes (<[n := v]> (vnodes s)) s) m = if decide (m = n) then reference_count v else refs s m.
Proof.
  unfold refs. simpl. destruct (decide (m = n)) as [->|]; [by rewrite lookup_insert_eq|by rewrite lookup_insert_ne].
Qed.

(** Giving a reference back: the count drops, and a vnode at zero is gone. *)
Definition dropped (n : Z) (v : vnode) (m : gmap Z vnode) : gmap Z vnode :=
  if decide (reference_count v = 1) then delete n m
  else <[n := set_references (reference_count v - 1) v]> m.

Lemma DereferenceVnode_keeps n v s :
  n ≠ NULL → vnodes s !! n = Some v → 1 < reference_count v →
  DereferenceVnode n s = Done (tt, with_vnodes (<[n := set_references (reference_count v - 1) v]> (vnodes s)) s).
Proof.
  intros Hn Hv Hc. unfold DereferenceVnode.
  rewrite (M_bind_done _ _ _ _ _ (CheckVnode_run n v s Hn Hv ltac:(lia))).
  rewrite (M_bind_done _ _ _ _ _ (get_vnode_run n v s Hv)).
  rewrite bool_decide_eq_true_2 by lia. unfold set_vnode, get_vnode. mred.
  cbn [vnodes with_vnodes]. rewrite lookup_insert_eq. mred. by rewrite decide_False by (simpl; lia).
Qed.

Context {DC : DriverContract}.

Lemma DereferenceVnode_run n v s :
  n ≠ NULL → vnodes s !! n = Some v → 0 < reference_count v → st_nlink (vn_stat v) ≠ 0 →
  ∃ d, DereferenceVnode n s = Done (tt, with_drv d (with_vnodes (dropped n v (vnodes s)) s)).
Proof.
  intros Hn Hv Hc Hl. unfold dropped. destruct (decide (reference_count v = 1)) as [H1|H1].
  2: { exists (drv s). by apply (DereferenceVnode_keeps n v); [..|lia]. }
  unfold DereferenceVnode.
  rewrite (M_bind_done _ _ _ _ _ (CheckVnode_run n v s Hn Hv ltac:(lia))).
  rewrite (M_bind_done _ _ _ _ _ (get_vnode_run n v s Hv)).
  rewrite bool_decide_eq_true_2 by lia. unfold set_vnode.
  set (v' := set_references (reference_count v - 1) v).
  set (s1 := with_vnodes (<[n := v']> (vnodes s)) s).
  assert (vnodes s1 !! n = Some v') as Hv1 by apply lookup_insert_eq.
  rewrite (M_bind_done _ _ s tt s) by done.
  rewrite (M_bind_done (modify _) _ s tt s1) by done.
  rewrite (M_bind_done _ _ _ _ _ (get_vnode_run n v' s1 Hv1)).
  rewrite decide_True by (simpl; lia).
  assert (∃ r d, VnodeOpClose n s1 = Done (r, with_drv d s1)) as (r & d & E).
  { unfold VnodeOpClose. rewrite (M_bind_done _ _ _ _ _ (get_vnode_run n v' s1 Hv1)).
    rewrite decide_False by (simpl; lia). destruct (decide _); [by exists 0, (drv s)|by eapply close_returns]. }
  rewrite (M_bind_done _ _ _ _ _ E). unfold DestroyVnode. rewrite bool_decide_eq_true_2 by done.
  set (s2 := with_drv d s1).
  rewrite (M_bind_done (c_assert true) _ s2 tt s2) by done.
  rewrite (M_bind_done _ _ s2 v' s2) by (by apply get_vnode_run).
  rewrite bool_decide_eq_true_2 by (simpl; lia). rewrite decide_False by done.
  exists d. mred. unfold s2, s1, with_drv, with_vnodes. simpl. by rewrite delete_insert_eq.
Qed.

(** ** Looking up *)
Definition not_dot (w : cstring) : Prop := w ≠ [DOT].
#[local] Instance not_dot_dec w : Decision (not_dot w).
Proof. unfold not_dot. apply _. Defined.

Lemma VnodeOpFollow_inv n w m s s' :
  VnodeOpFollow n w s = Done ((0, m), s') →
  files s' = files s ∧ ∃ v, vnodes s' = <[m := v]> (vnodes s) ∧ reference_count v = refs s m + 1.
Proof.
  unfold VnodeOpFollow. intros (u & s1 & (-> & Hn & v & Hv & Hc)%CheckVnode_inv & H)%M_bind_inv.
  rewrite (M_bind_done _ _ _ _ _ (get_vnode_run n v s Hv)) in H.
  destruct (decide (follow (ops v) = NULL)); [done|]. by apply follow_found in H.
Qed.

Lemma refs_update m v s s' x :
  vnodes s' = <[m := v]> (vnodes s) → reference_count v = refs s m + 1 →
  refs s' x = refs s x + (if decide (x = m) then 1 else 0).
Proof.
  intros Hv Hc. unfold refs in *. rewrite Hv.
  destruct (decide (x = m)) as [->|]; [rewrite lookup_insert_eq; exact Hc|].
  rewrite lookup_insert_ne by done. lia.
Qed.

Lemma counts_ok_update m v s s' :
  counts_ok s → vnodes s' = <[m := v]> (vnodes s) → reference_count v = refs s m + 1 → counts_ok s'.
Proof.
  intros Hok Hv Hc n w. rewrite Hv. intros [[<- <-]|[_ Hw]]%lookup_insert_Some; [|by eapply Hok].
  rewrite Hc. unfold refs. destruct (vnodes s !! m) as [v'|] eqn:E; simpl; [|lia]. specialize (Hok _ _ E). lia.
Qed.

(** [x] gains one count for each time it is passed. *)
Lemma walk_counts ws n s m s' :
  counts_ok s → walk ws n s = Done ((0, m), s') →
  counts_ok s' ∧ files s' = files s ∧ ∃ dirs, length dirs = length (filter not_dot ws) ∧
    ∀ x, refs s' x + (if decide (x = n) then 1 else 0) = refs s x + occ x (dirs ++ [m]).
Proof.
  revert n s. induction ws as [|w ws IH]; intros n s Hok H; cbn [walk] in H.
  { injection H as <- <-. split_and!; [done..|]. exists []. split; [done|]. intros x. simpl. lia. }
  destruct (decide (component_error w ≠ 0)) as [He|_].
  { apply M_bind_inv in H as (? & ? & _ & [=]). congruence. }
  destruct (decide (w = [DOT])) as [->|Hw].
  { rewrite filter_cons_False by (intros Hd; by apply Hd). by apply IH. }
  rewrite filter_cons_True by done.
  apply M_bind_inv in H as ([st next] & s1 & Hf & H).
  destruct (decide (st ≠ 0)) as [Hst|Hst%dec_stable].
  { apply M_bind_inv in H as (? & ? & _ & [=]). congruence. }
  subst st. apply VnodeOpFollow_inv in Hf as (Hfiles & v & Hv & Hc).
  destruct (IH next s1 (counts_ok_update _ _ _ _ Hok Hv Hc) H) as (Hok' & Hfl & dirs & Hlen & Hrefs).
  split; [done|]. split; [congruence|]. exists (n :: dirs). split; [simpl; by f_equal|].
  intros x. specialize (Hrefs x). rewrite (refs_update _ _ _ _ x Hv Hc) in Hrefs. simpl. lia.
Qed.

Lemma start_vnode_inv path s err n s' :
  start_vnode path s = Done ((err, n), s') → s' = s.
Proof.
  unfold start_vnode, GetMountPointFromName. destruct (IsRelative path); mred; [by destruct (cwd s); intros [= <- <- <-]|].
  destruct (decide _); mred; [by intros [= <- <- <-]|].
  destruct (option_bind _ _ _ _) as [m|]; mred; [|by intros [= <- <- <-]].
  destruct (decide _); mred; [by intros [= <- <- <-]|].
  unfold get_file. mred. destruct (files s !! mount_node m); mred; [by intros [= <- <- <-]|done].
Qed.

Lemma lookup_counts path out s m s' :
  counts_ok s → GetVnodeFromPath path out false s = Done ((0, m), s') →
  counts_ok s' ∧ files s' = files s ∧ ∃ dirs, length dirs = length (filter not_dot (path_names path)) ∧
    ∀ x, refs s' x = refs s x + occ x (dirs ++ [m]).
Proof.
  intros Hok. rewrite path_lookup_is_walk. unfold lookup_path.
  destruct (decide (path = [])) as [|Hp]; [done|]. destruct (decide (_ ≤ _)) as [|Hlen]; [done|].
  intros ([err n] & s0 & Hs & H)%M_bind_inv. apply start_vnode_inv in Hs as ->.
  destruct (decide (err ≠ 0)) as [He|_]; [injection H as ??; congruence|].
  destruct (decide (n = NULL)) as [|Hnull]; [done|].
  apply M_bind_inv in H as ([] & s1 & (Hn & v & Hv & Hs1)%ReferenceVnode_inv & H).
  set (v1 := set_references (reference_count v + 1) v) in Hs1.
  assert (vnodes s1 = <[n := v1]> (vnodes s)) as Hv1 by by subst s1.
  assert (reference_count v1 = refs s n + 1) as Hc1 by (unfold refs; by rewrite Hv).
  apply M_bind_inv in H as ([st k] & s2 & Hw & H).
  destruct (decide (st ≠ 0)) as [Hst|Hst%dec_stable]; [injection H as ??; congruence|].
  subst st. injection H as <- <-.
  destruct (walk_counts _ _ _ _ _ (counts_ok_update _ _ _ _ Hok Hv1 Hc1) Hw) as (Hok2 & Hf & dirs & Hdirs & Hr).
  split; [done|]. split; [rewrite Hf; by subst s1|]. exists dirs. split; [done|].
  intros x. specialize (Hr x). rewrite (refs_update _ _ _ _ x Hv1 Hc1) in Hr. lia.
Qed.

(** ** Creating and closing files *)
Lemma CreateFile_run n v mode flags rd wr s :
  n ≠ NULL → vnodes s !! n = Some v →
  let f := pick (live_objects s) in
  CreateFile n mode flags rd wr s = Done (f,
    with_vnodes (<[n := set_references (reference_count v + 1) v]> (vnodes s))
      (with_files (<[f := File rd wr mode 0 flags 1 n]> (files s)) s)).
Proof.
  intros Hn Hv. unfold CreateFile, set_file. mred.
  erewrite ReferenceVnode_run by done. done.
Qed.

Lemma pick_not_live s : let f := pick (live_objects s) in f ≠ NULL ∧ files s !! f = None.
Proof.
  intros f. split; [apply pick_nonnull|]. pose proof (pick_fresh (live_objects s)) as Hp.
  apply not_elem_of_dom. unfold live_objects in Hp at 2. set_solver.
Qed.

Lemma refs_dropped n v s s' x :
  vnodes s !! n = Some v → vnodes s' = dropped n v (vnodes s) →
  refs s' x = refs s x - (if decide (x = n) then 1 else 0).
Proof.
  intros Hv Hd. unfold refs. rewrite Hd. unfold dropped.
  destruct (decide (reference_count v = 1)); destruct (decide (x = n)) as [->|].
  - rewrite lookup_delete_eq, Hv. simpl. lia.
  - rewrite lookup_delete_ne by done. lia.
  - rewrite lookup_insert_eq, Hv. simpl. lia.
  - rewrite lookup_insert_ne by done. lia.
Qed.

(** The last close of a file: its node loses two counts. *)
Lemma CloseFile_run f fl v s :
  f ≠ NULL → files s !! f = Some fl → f_references fl = 1 →
  node fl ≠ NULL → vnodes s !! node fl = Some v → 2 ≤ reference_count v →
  IFTODT (st_mode (vn_stat v)) ≠ DT_FIFO → st_nlink (vn_stat v) ≠ 0 →
  ∃ s' d vs, CloseFile f s = Done (0, s') ∧
    s' = with_drv d (with_vnodes vs (with_files (delete f (files s)) s)) ∧
    ∀ x, refs s' x = refs s x - (if decide (x = node fl) then 2 else 0).
Proof.
  intros Hf Hfl H1 Hn Hv H2 Hfifo Hlink. unfold CloseFile.
  rewrite decide_False by done. rewrite (M_bind_done _ _ _ _ _ (get_file_run f fl s Hfl)).
  rewrite decide_False by done.
  rewrite (M_bind_done _ _ _ _ _ (DereferenceVnode_keeps _ v s Hn Hv ltac:(lia))).
  set (v1 := set_references (reference_count v - 1) v). set (s1 := with_vnodes _ s).
  unfold DereferenceFile. rewrite bool_decide_eq_true_2 by done.
  set (fl1 := {| fl with f_references := f_references fl - 1 |}).
  set (s2 := with_files (<[f := fl1]> (files s)) s1).
  assert (vnodes s2 !! node fl = Some v1) as Hv1 by apply lookup_insert_eq.
  destruct (DereferenceVnode_run (node fl) v1 s2 Hn Hv1) as (d & E); [simpl; lia|done|].
  set (s3 := with_drv _ _) in E.
  exists (with_files (delete f (files s3)) s3), d, (vnodes s3). split; [|split].
  - unfold get_file, set_file, get_vnode. mred. unfold s1 at 1. cbn [files with_vnodes]. rewrite Hfl. mred.
    rewrite bool_decide_eq_true_2 by lia. mred. fold fl1. unfold s1 at 1. cbn [files with_files with_vnodes].
    fold s2. rewrite lookup_insert_eq. mred. rewrite decide_True by (simpl; lia).
    cbn [vnodes with_files]. change (vnodes s1 !! node fl1) with (vnodes s2 !! node fl). rewrite Hv1. mred.
    rewrite decide_False by done. mred. change (node fl1) with (node fl).
    change (with_files (<[f:=fl1]> (files s1)) s1) with s2. by rewrite E.
  - unfold s3, s2, with_drv, with_vnodes, with_files. simpl. by rewrite delete_insert_eq.
  - intros x. trans (refs s3 x); [done|]. rewrite (refs_dropped _ _ s2 s3 x Hv1 eq_refl).
    trans (refs s1 x - (if decide (x = node fl) then 1 else 0)); [done|]. unfold s1. rewrite refs_insert.
    destruct (decide (x = node fl)) as [->|]; [|lia]. unfold refs. rewrite Hv. simpl. lia.
Qed.

(** ** Opening *)
Lemma VnodeOpCheckOpen_inv n flags r s s' :
  VnodeOpCheckOpen n flags s = Done (r, s') → n ≠ NULL ∧ files s' = files s ∧ vnodes s' = vnodes s.
Proof.
  unfold VnodeOpCheckOpen. intros (u & s1 & (-> & Hn & v & Hv & Hc)%CheckVnode_inv & H)%M_bind_inv.
  rewrite (M_bind_done _ _ _ _ _ (get_vnode_run n v s Hv)) in H.
  destruct (decide (check_open (ops v) = NULL)); [by injection H as _ <-|].
  apply check_open_pure in H as [??]. done.
Qed.

Definition opened (n : Z) (flags mode : Z) : file :=
  File (bool_decide (Z.land flags O_ACCMODE ≠ O_WRONLY)) (bool_decide (Z.land flags O_ACCMODE ≠ O_RDONLY))
    mode 0 (Z.land flags O_CLOEXEC) 1 n.

Definition opened_vnode (flags : Z) (v : vnode) : vnode :=
  let w := set_references (reference_count v + 1) v in {| w with vn_flags := Z.land flags (Z.lor O_NONBLOCK O_APPEND) |}.

(** The end of [OpenFile]: the vnode found, the new file on it. *)
Lemma OpenFile_inv path flags mode f s s' :
  has_flag flags O_CREAT = false → counts_ok s → OpenFile (Some path) flags mode s = Done ((0, f), s') →
  ∃ n s1 v, GetVnodeFromPath path junk false s = Done ((0, n), s1) ∧ n ≠ NULL ∧ vnodes s1 !! n = Some v ∧
    f ≠ NULL ∧ files s !! f = None ∧ files s' = <[f := opened n flags mode]> (files s) ∧
    vnodes s' = <[n := opened_vnode flags v]> (vnodes s1).
Proof.
  intros Hc Hok. destruct path as [|c path]; [done|]. cbn [OpenFile].
  intros (r & s1 & Ho & H)%M_bind_inv. unfold open_vnode in Ho. rewrite Hc in Ho.
  apply M_bind_inv in Ho as ([st n] & s1' & Hl & Ho).
  destruct (decide (st ≠ 0)) as [Hst|Hst%dec_stable].
  { injection Ho as <- <-. injection H as ??. congruence. }
  subst st. injection Ho as <- <-.
  destruct (lookup_counts _ _ _ _ _ Hok Hl) as (_ & Hf & _).
  apply M_bind_inv in H as (st & s2 & (Hn & Hf2 & Hv2)%VnodeOpCheckOpen_inv & H).
  destruct (decide (st ≠ 0)) as [Hst|_].
  { apply M_bind_inv in H as (? & ? & _ & [=]). congruence. }
  apply M_bind_inv in H as (v & s3 & (-> & Hv)%get_vnode_inv & H).
  destruct (_ && _) eqn:Edir in H.
  { by apply M_bind_inv in H as (? & ? & _ & [=]). }
  destruct (_ && _) eqn:Etr in H.
  { destruct (bool_decide _) in H; [|done]. apply M_bind_inv in H as (st' & ? & _ & [=]).
    by destruct (decide (st' ≠ 0)). }
  set (v' := Vnode _ _ _ _ _) in H. set (s4 := with_vnodes (<[n := v']> (vnodes s2)) s2).
  unfold set_vnode in H. rewrite (M_bind_done (modify _) _ s2 tt s4) in H by done.
  assert (vnodes s4 !! n = Some v') as Hv4 by apply lookup_insert_eq.
  rewrite (M_bind_done _ _ _ _ _ (CreateFile_run n v' _ _ _ _ s4 Hn Hv4)) in H.
  injection H as <- <-. destruct (pick_not_live s4) as [Hp Hpf].
  exists n, s1', v. split; [done|]. split; [done|]. split; [by rewrite <- Hv2|]. split; [done|].
  simpl in Hpf. rewrite Hf2, Hf in Hpf. split; [done|]. split; simpl.
  - by rewrite Hf2, Hf.
  - by rewrite insert_insert_eq, Hv2.
Qed.

(** C13: a file opened without creating it is a new file with one reference, on a
    vnode with two more; closing it gives back exactly these two and the file. What
    remains is one count on the directory where the lookup started and on each one
    it passed: as many as the path has names. *)
Theorem open_close_balance path flags mode f s s'
  (Hok : counts_ok s) (Hc : has_flag flags O_CREAT = false)
  (Hopen : OpenFile (Some path) flags mode s = Done ((0, f), s')) :
  ∃ n v dirs,
    files s !! f = None ∧ files s' = <[f := opened n flags mode]> (files s) ∧ vnodes s' !! n = Some v ∧
    length dirs = length (filter not_dot (path_names path)) ∧
    (∀ x, refs s' x = refs s x + occ x dirs + (if decide (x = n) then 2 else 0)) ∧
    (IFTODT (st_mode (vn_stat v)) ≠ DT_FIFO → st_nlink (vn_stat v) ≠ 0 →
     ∃ s'', CloseFile f s' = Done (0, s'') ∧ files s'' = files s ∧ ∀ x, refs s'' x = refs s x + occ x dirs).
Proof.
  destruct (OpenFile_inv _ _ _ _ _ _ Hc Hok Hopen) as (n & s1 & v & Hl & Hn & Hv & Hf & Hnew & Hfs & Hvs).
  destruct (lookup_counts _ _ _ _ _ Hok Hl) as (Hok1 & Hf1 & dirs & Hlen & Hr).
  set (w := opened_vnode flags v) in *.
  assert (vnodes s' !! n = Some w) as Hw by (rewrite Hvs; apply lookup_insert_eq).
  assert (∀ x, refs s' x = refs s x + occ x dirs + (if decide (x = n) then 2 else 0)) as Hr'.
  { intros x. pose proof (Hr x) as Hx. rewrite occ_app in Hx. simpl in Hx.
    assert (refs s' x = refs s1 x + (if decide (x = n) then 1 else 0)) as ->.
    { eapply refs_update; [exact Hvs|]. unfold refs. by rewrite Hv. }
    destruct (decide (x = n)); lia. }
  exists n, w, dirs. split_and!; [done..|]. intros Hfifo Hlink.
  destruct (CloseFile_run f (opened n flags mode) w s') as (s'' & d & vs & E & Hs2 & Hr2); [done| |done|done|done| |done|done|].
  { rewrite Hfs. apply lookup_insert_eq. }
  { pose proof (Hr' n) as Hx. rewrite decide_True in Hx by done. unfold refs in Hx at 1. rewrite Hw in Hx. simpl in Hx.
    pose proof (occ_nonneg n dirs). assert (0 ≤ refs s n); [|simpl; lia].
    unfold refs. destruct (vnodes s !! n) as [u|] eqn:Eu; [|done]. simpl. specialize (Hok _ _ Eu). lia. }
  exists s''. split; [done|]. split; [by subst s''; simpl; rewrite Hfs, delete_insert_id|].
  intros x. rewrite Hr2, Hr'. simpl. destruct (decide (x = n)); lia.
Qed.
End counts.

(** ** The drop that destroys an unlinked vnode *)
Section unlinked.
Context {D : Type} {AL : Allocator} {DR : Drivers D}.
Implicit Types s : vfs D.

(** giving back the last reference to a vnode without links panics once its
    driver's [close] has returned: [DestroyVnode] calls [delete] through
    [CheckVnode], which asserts that the count is positive while it is zero. *)
Theorem last_unlinked_reference_panics n v s
  (Hn : n ≠ NULL) (Hv : vnodes s !! n = Some v) (H1 : reference_count v = 1) (Hl : st_nlink (vn_stat v) = 0)
  (Hclose : ∀ op s, ∃ r s', call_close op n s = Done (r, s') ∧ vnodes s' = vnodes s) :
  DereferenceVnode n s = Panicked PANIC_ASSERTION_FAILURE.
Proof.
  unfold DereferenceVnode. rewrite (M_bind_done _ _ _ _ _ (CheckVnode_run n v s Hn Hv ltac:(lia))).
  rewrite (M_bind_done _ _ _ _ _ (get_vnode_run n v s Hv)).
  rewrite bool_decide_eq_true_2 by lia. unfold set_vnode.
  set (v' := set_references (reference_count v - 1) v).
  set (s1 := with_vnodes (<[n := v']> (vnodes s)) s).
  assert (get_vnode n s1 = Done (v', s1)) as Hg by apply get_vnode_run, lookup_insert_eq.
  rewrite (M_bind_done (c_assert true) _ s tt s) by done.
  rewrite (M_bind_done (modify _) _ s tt s1) by done.
  rewrite (M_bind_done _ _ _ _ _ Hg). rewrite decide_True by (simpl; lia).
  assert (∃ r s2, VnodeOpClose n s1 = Done (r, s2) ∧ get_vnode n s2 = Done (v', s2)) as (r & s2 & Ec & Hg2).
  { unfold VnodeOpClose. rewrite (M_bind_done _ _ _ _ _ Hg), decide_False by (simpl; lia).
    destruct (decide _); [by eexists _, _|].
    destruct (Hclose (close (ops v')) s1) as (r & s2 & -> & Hv2). exists r, s2. split; [done|].
    apply get_vnode_run. rewrite Hv2. apply lookup_insert_eq. }
  rewrite (M_bind_done _ _ _ _ _ Ec).
  unfold DestroyVnode, VnodeOpDelete, CheckVnode. rewrite bool_decide_eq_true_2 by done.
  mred. rewrite Hg2. cbn [outcome_bind]. rewrite bool_decide_eq_true_2 by (simpl; lia).
  rewrite decide_True by done. mred. rewrite Hg2. mred.
  by rewrite bool_decide_eq_false_2 by (simpl; lia).
Qed.
End unlinked.

(** ** A file system of one directory *)
#[local] Instance one_file : Drivers unit := {|
  call_check_open _ _ _ := mret 0;
  call_read _ _ io := mret (0, io);
  call_write _ _ io := mret (0, io);
  call_ioctl _ _ _ _ := mret EINVAL;
  call_close _ _ := mret 0;
  call_truncate _ _ _ := mret 0;
  call_create _ _ _ _ _ _ := mret (EROFS, NULL);
  call_follow _ _ name :=
    s ← get;
    match vnodes s !! 2 with
    | Some v => if decide (name = [97]) then set_vnode 2 (set_references (reference_count v + 1) v);; mret (0, 2)
                else mret (ENOENT, NULL)
    | None => mret (ENOENT, NULL)
    end;
  call_unlink _ _ := mret 0;
  call_delete _ _ := mret 0;
|}.

#[local] Instance one_file_contract : DriverContract.
Proof.
  split.
  - intros op n name s m s'. cbn. mred. destruct (vnodes s !! 2) as [v|] eqn:E; [|done].
    destruct (decide (name = [97])); [|done]. unfold set_vnode. mred. intros [= <- <-].
    split; [done|]. eexists. split; [done|]. unfold refs. by rewrite E.
  - intros op n name s r m s'. cbn. mred. destruct (vnodes s !! 2) as [v|]; [|by intros [= <- <- <-]].
    destruct (decide (name = [97])); [|by intros [= <- <- <-]]. unfold set_vnode. mred. by intros [= <- <- <-].
  - intros op n flags s r s'. by intros [= <- <-].
  - intros op n v s _. exists 0, tt. by destruct s as [????????? []].
Qed.

Definition dir_ops : vnode_operations := VnodeOps NULL NULL NULL NULL NULL NULL NULL 8 NULL NULL.
Definition one_file_state : vfs unit := {|
  vnodes := {[ 1 := Vnode dir_ops NULL 2 (Stat 1 1 (S_IFDIR + 511) 1 0 0) 0;
               2 := Vnode no_ops NULL 1 (Stat 1 2 (S_IFREG + 511) 1 0 0) 0 ]};
  files := {[ 10 := File true true 0 0 0 1 1 ]};
  tables := ∅; pipes := ∅; mount_points := Some [Mounted 10 [100]]; vfs_lock := false; dev_id := 1;
  cwd := None; user := Memory ∅ ∅; drv := tt |}.

(** Opening "d:/a". *)
Lemma open_close_balance_witness :
  let _ := bump_allocator in
  ∃ s' n v dirs, OpenFile (Some [100; 58; 47; 97]) O_RDONLY 0 one_file_state = Done ((0, 11), s') ∧
    files s' = <[11 := opened n O_RDONLY 0]> (files one_file_state) ∧ vnodes s' !! n = Some v ∧
    length dirs = 1%nat ∧
    ∀ x, refs s' x = refs one_file_state x + occ x dirs + (if decide (x = n) then 2 else 0).
Proof.
  intros AL.
  destruct (OpenFile (Some [100; 58; 47; 97]) O_RDONLY 0 one_file_state) as [[[r f] s']| | | |] eqn:E;
    vm_compute in E; try discriminate E.
  injection E as <- <- Es.
  assert (OpenFile (Some [100; 58; 47; 97]) O_RDONLY 0 one_file_state = Done ((0, 11), s')) as Ho
    by (rewrite <- Es; vm_compute; reflexivity).
  destruct (open_close_balance [100; 58; 47; 97] O_RDONLY 0 11 one_file_state s') as (n & v & dirs & H1 & H2 & H3 & H4 & H5 & _).
  - intros n v. unfold one_file_state. simpl.
    by intros [[<- <-]|[_ [<- <-]%lookup_singleton_Some]]%lookup_insert_Some.
  - reflexivity.
  - exact Ho.
  - exists s', n, v, dirs. split_and!; done.
Defined.

Definition unlinked_state : vfs unit := with_vnodes {[ 5 := Vnode no_ops NULL 1 (Stat 1 5 S_IFREG 0 0 0) 0 ]} one_file_state.
Lemma last_unlinked_reference_panics_witness :
  DereferenceVnode 5 unlinked_state = Panicked PANIC_ASSERTION_FAILURE.
Proof.
  apply (last_unlinked_reference_panics 5 (Vnode no_ops NULL 1 (Stat 1 5 S_IFREG 0 0 0) 0) unlinked_state);
    [done|reflexivity|reflexivity|reflexivity|].
  intros op s. exists 0, s. split; reflexivity.
Defined.
