(* ===== verification/FdTables.v ===== *)
(** * Descriptor tables implement a finite map

    The promise of a table: a map from numbers below [PROC_MAX_FD] to open files
    and their flags, where a new descriptor is the lowest free one. *)

From S2P Require Import Prelude Transfer Vnode Vfs FileDes VfsOpen.

(** ** The promise *)
Inductive fd_call : Type :=
  | Create (f flags : Z)
  | Remove (f : Z)
  | Get (fd : Z).

#[local] Abbreviation fd_map := (gmap Z (Z * Z)).

Definition is_lowest (P : Z → Prop) (i : Z) : Prop := 0 ≤ i < PROC_MAX_FD ∧ P i ∧ ∀ j, 0 ≤ j < i → ¬ P j.
Definition nowhere (P : Z → Prop) : Prop := ∀ j, 0 ≤ j < PROC_MAX_FD → ¬ P j.

Definition opens (m : fd_map) (f i : Z) : Prop := fst <$> m !! i = Some f.
Definition bad_flags (flags : Z) : Prop := Z.land flags (Z.lnot O_CLOEXEC) ≠ 0.

(** The status and the second result: a descriptor, or a file. *)
Inductive fd_spec (m : fd_map) : fd_call → Z * Z → fd_map → Prop :=
  | spec_create f flags i :
      ¬ bad_flags flags → is_lowest (λ i, m !! i = None) i →
      fd_spec m (Create f flags) (0, i) (<[i := (f, flags)]> m)
  | spec_create_full f flags r :
      ¬ bad_flags flags → nowhere (λ i, m !! i = None) → fd_spec m (Create f flags) (EMFILE, r) m
  | spec_create_flags f flags r : bad_flags flags → fd_spec m (Create f flags) (EINVAL, r) m
  | spec_remove f i r : is_lowest (opens m f) i → fd_spec m (Remove f) (0, r) (delete i m)
  | spec_remove_none f r : nowhere (opens m f) → fd_spec m (Remove f) (EINVAL, r) m
  | spec_get fd f : opens m f fd → fd_spec m (Get fd) (0, f) m
  | spec_get_bad fd : m !! fd = None → fd_spec m (Get fd) (EBADF, NULL) m.

Inductive fd_trace : fd_map → list (fd_call * (Z * Z)) → fd_map → Prop :=
  | trace_nil m : fd_trace m [] m
  | trace_cons m c r m' l m'' : fd_spec m c r m' → fd_trace m' l m'' → fd_trace m ((c, r) :: l) m''.

Section tables.
Context {D : Type} {AL : Allocator} {DR : Drivers D}.
Implicit Types (s : vfs D) (m : fd_map).

Definition run_fd (t : Z) (c : fd_call) : M (vfs D) (Z * Z) :=
  match c with
  | Create f flags => CreateFd t f junk flags
  | Remove f => r ← RemoveFd t f; mret (r, junk)
  | Get fd => GetFileFromFd t fd true
  end.

Fixpoint run_fds (t : Z) (l : list fd_call) : M (vfs D) (list (fd_call * (Z * Z))) :=
  match l with
  | [] => mret []
  | c :: l => r ← run_fd t c; rest ← run_fds t l; mret ((c, r) :: rest)
  end.

(** ** A table and the map it stands for *)
Definition entry_of (e : fd) : option (Z * Z) := if decide (fd_file e = NULL) then None else Some (fd_file e, fd_flags e).

Record represents (s : vfs D) (t : Z) (l : list fd) (m : fd_map) : Prop := {
  rep_table : tables s !! t = Some (FdTable false l);
  rep_length : Z.of_nat (length l) = PROC_MAX_FD;
  rep_map : ∀ i, m !! i = aget l i ≫= entry_of;
}.

(** [t] holds [l] and, in [s'], nothing but [t] is different. *)
Definition table_is (s : vfs D) (t : Z) (l : list fd) : vfs D := with_tables (<[t := FdTable false l]> (tables s)) s.

Lemma table_is_id s t l : tables s !! t = Some (FdTable false l) → table_is s t l = s.
Proof. intros Ht. unfold table_is. rewrite insert_id by done. by destruct s. Qed.

(** With the lock held. *)
Definition held (s : vfs D) (t : Z) (l : list fd) : vfs D := with_tables (<[t := FdTable true l]> (tables s)) s.

Lemma AcquireTable_run s t l : tables s !! t = Some (FdTable false l) → AcquireTable t s = Done (tt, held s t l).
Proof. intros Ht. unfold AcquireTable, get_table, set_table. mred. by rewrite Ht. Qed.
Lemma AcquireTable_held s t l : AcquireTable t (held s t l) = Blocked.
Proof. unfold AcquireTable, get_table. mred. unfold held. simpl. by rewrite lookup_insert_eq. Qed.
Lemma ReleaseTable_run s t l : ReleaseTable t (held s t l) = Done (tt, table_is s t l).
Proof.
  unfold ReleaseTable, get_table, set_table. mred. unfold held. simpl. rewrite lookup_insert_eq. mred.
  unfold with_tables. simpl. by rewrite insert_insert_eq.
Qed.
Lemma fd_entry_run s t l i e : aget l i = Some e → get_entry t i (held s t l) = Done (e, held s t l).
Proof. intros He. unfold get_entry, get_table. mred. simpl. rewrite lookup_insert_eq. mred. cbn [entries]. by rewrite He. Qed.
Lemma set_entry_run s t l i e l' : aset l i e = Some l' → set_entry t i e (held s t l) = Done (tt, held s t l').
Proof.
  intros He. unfold set_entry, get_table, set_table. mred. simpl. rewrite lookup_insert_eq. mred. cbn [entries locked]. rewrite He. mred.
  unfold held, with_tables. simpl. by rewrite insert_insert_eq.
Qed.

Lemma aget_is_Some (l : list fd) i : 0 ≤ i < length l → is_Some (aget l i).
Proof. intros. unfold aget. rewrite decide_True by lia. apply lookup_lt_is_Some. lia. Qed.

Definition has_file (l : list fd) (f i : Z) : Prop := fd_file <$> aget l i = Some f.

(** The scan finds the first entry of the file. *)
Lemma find_entry_run s t l f (n : nat) i :
  0 ≤ i → i + n = length l →
  (∃ j, i ≤ j < length l ∧ has_file l f j ∧ (∀ k, i ≤ k < j → ¬ has_file l f k) ∧
     find_entry n t i f (held s t l) = Done (Some j, held s t l)) ∨
  ((∀ k, i ≤ k < length l → ¬ has_file l f k) ∧ find_entry n t i f (held s t l) = Done (None, held s t l)).
Proof.
  revert i. induction n as [|n IH]; intros i H0 Hn; cbn [find_entry].
  { right. split; [intros; lia|done]. }
  destruct (aget_is_Some l i) as [e He]; [lia|].
  rewrite (M_bind_done _ _ _ _ _ (fd_entry_run s t l i e He)).
  destruct (decide (fd_file e = f)) as [Hf|Hf].
  - left. exists i. unfold has_file. rewrite He. simpl. split_and!; [lia|lia|by f_equal|intros; lia|done].
  - assert (¬ has_file l f i) as Hi by (unfold has_file; rewrite He; by intros [=]).
    destruct (IH (i + 1)) as [(j & Hj & Hfj & Hlow & ->)|[Hno ->]]; [lia|lia| |].
    + left. exists j. split_and!; [lia|lia|done| |done]. intros k Hk.
      destruct (decide (k = i)) as [->|]; [done|apply Hlow; lia].
    + right. split; [|done]. intros k Hk. destruct (decide (k = i)) as [->|]; [done|apply Hno; lia].
Qed.

Lemma has_file_null (m : fd_map) l i :
  (∀ i, m !! i = aget l i ≫= entry_of) → 0 ≤ i < length l → (has_file l NULL i ↔ m !! i = None).
Proof.
  intros Hm Hi. rewrite Hm. unfold has_file, entry_of. destruct (aget_is_Some l i Hi) as [e ->]. simpl.
  destruct (decide (fd_file e = NULL)) as [->|]; [done|]. split; [by intros [=]|done].
Qed.
Lemma has_file_opens (m : fd_map) l f i :
  (∀ i, m !! i = aget l i ≫= entry_of) → f ≠ NULL → (has_file l f i ↔ opens m f i).
Proof.
  intros Hm Hf. unfold opens. rewrite Hm. unfold has_file, entry_of. destruct (aget l i) as [e|]; simpl; [|done].
  destruct (decide (fd_file e = NULL)) as [->|]; [|done]. simpl. split; [|done]. intros [=]. congruence.
Qed.

(** Storing an entry, in the map. *)
Lemma represents_store s t l m i e :
  represents s t l m → 0 ≤ i < PROC_MAX_FD →
  ∃ l', aset l i e = Some l' ∧
    represents (table_is s t l') t l' (match entry_of e with Some x => <[i := x]> m | None => delete i m end).
Proof.
  intros [Ht Hl Hm] Hi. unfold aset. rewrite decide_True by lia. eexists. split; [done|]. split.
  - apply lookup_insert_eq.
  - by rewrite length_insert.
  - intros j. assert (aget (<[Z.to_nat i:=e]> l) j = if decide (j = i) then Some e else aget l j) as ->.
    { unfold aget. destruct (decide (j = i)) as [->|Hji].
      - rewrite decide_True, list_lookup_insert_eq by lia. done.
      - destruct (decide (0 ≤ j)); [|done]. apply list_lookup_insert_ne. lia. }
    destruct (decide (j = i)) as [->|Hji]; simpl.
    + destruct (entry_of e); [by rewrite lookup_insert_eq|by rewrite lookup_delete_eq].
    + rewrite <- Hm. destruct (entry_of e); [by rewrite lookup_insert_ne|by rewrite lookup_delete_ne].
Qed.

Lemma table_is_frame s t l :
  files (table_is s t l) = files s ∧ vnodes (table_is s t l) = vnodes s ∧
  ∀ t', t' ≠ t → tables (table_is s t l) !! t' = tables s !! t'.
Proof. split_and!; [done..|]. intros. by apply lookup_insert_ne. Qed.

(** The files a call is given are open. *)
Definition call_ok (s : vfs D) (c : fd_call) : Prop :=
  match c with Create f _ | Remove f => f ≠ NULL ∧ is_Some (files s !! f) | Get _ => True end.

Definition same_but_table (t : Z) s s' : Prop :=
  files s' = files s ∧ vnodes s' = vnodes s ∧ ∀ t', t' ≠ t → tables s' !! t' = tables s !! t'.

Definition fd_call_ok (s : vfs D) (t : Z) (m : fd_map) (c : fd_call) : Prop :=
  ∃ r s' l' m', run_fd t c s = Done (r, s') ∧ fd_spec m c r m' ∧ represents s' t l' m' ∧ same_but_table t s s'.

Lemma represents_release s t l m : represents s t l m → represents (table_is s t l) t l m.
Proof. intros [Ht Hl Hm]. by rewrite table_is_id. Qed.

Lemma CreateFd_spec s t l m f flags :
  represents s t l m → f ≠ NULL → is_Some (files s !! f) → fd_call_ok s t m (Create f flags).
Proof.
  intros R Hf [fl Hfl]. pose proof R as [Ht Hl Hm]. unfold fd_call_ok. cbn [run_fd]. unfold CreateFd.
  destruct (decide (Z.land flags (Z.lnot O_CLOEXEC) ≠ 0)) as [Hbad|Hgood].
  { exists (EINVAL, junk), s, l, m. split_and!; [done|by apply spec_create_flags|done|done]. }
  rewrite (M_bind_done _ _ _ _ _ (AcquireTable_run s t l Ht)).
  destruct (find_entry_run s t l NULL (Z.to_nat PROC_MAX_FD) 0) as [(i & Hi & Hfi & Hlow & E)|[Hno E]];
    [lia|rewrite Z2Nat.id by done; lia|..]; rewrite (M_bind_done _ _ _ _ _ E).
  - destruct (represents_store s t l m i (Fd f flags) R) as (l' & Hset & R'); [lia|].
    rewrite (M_bind_done _ _ _ _ _ (set_entry_run s t l i _ l' Hset)).
    rewrite (M_bind_done _ _ _ _ _ (ReleaseTable_run s t l')).
    rewrite (M_bind_done _ _ _ _ _ (get_file_run f fl (table_is s t l') Hfl)).
    unfold entry_of in R'. simpl in R'. rewrite decide_False in R' by done.
    exists (0, i), (table_is s t l'), l', (<[i:=(f, flags)]> m). split_and!; [done| |done|apply table_is_frame..].
    apply spec_create; [by intros ?|]. split_and!; [lia|lia| |].
    + by apply (has_file_null m l i Hm); [lia|].
    + intros j Hj. rewrite <- (has_file_null m l j Hm) by lia. apply Hlow. lia.
  - rewrite (M_bind_done _ _ _ _ _ (ReleaseTable_run s t l)).
    exists (EMFILE, junk), (table_is s t l), l, m.
    split_and!; [done| |by apply represents_release|apply table_is_frame..].
    apply spec_create_full; [by intros ?|]. intros j Hj. rewrite <- (has_file_null m l j Hm) by lia. apply Hno. lia.
Qed.

Lemma RemoveFd_spec s t l m f :
  represents s t l m → f ≠ NULL → is_Some (files s !! f) → fd_call_ok s t m (Remove f).
Proof.
  intros R Hf [fl Hfl]. pose proof R as [Ht Hl Hm]. unfold fd_call_ok. cbn [run_fd].
  destruct (find_entry_run s t l f (Z.to_nat PROC_MAX_FD) 0) as [(i & Hi & Hfi & Hlow & E)|[Hno E]];
    [lia|rewrite Z2Nat.id by done; lia|..].
  - destruct (aget_is_Some l i) as [e He]; [lia|].
    destruct (represents_store s t l m i {| e with fd_file := NULL |} R) as (l' & Hset & R'); [lia|].
    assert (RemoveFd t f s = Done (0, table_is s t l')) as Hrun.
    { unfold RemoveFd. rewrite (M_bind_done _ _ _ _ _ (AcquireTable_run s t l Ht)).
      rewrite (M_bind_done _ _ _ _ _ E), (M_bind_done _ _ _ _ _ (fd_entry_run s t l i e He)).
      rewrite (M_bind_done _ _ _ _ _ (set_entry_run s t l i _ l' Hset)).
      rewrite (M_bind_done (get_file f) _ _ fl (held s t l')) by (by apply get_file_run).
      by rewrite (M_bind_done _ _ _ _ _ (ReleaseTable_run s t l')). }
    rewrite (M_bind_done _ _ _ _ _ Hrun). simpl in R'.
    exists (0, junk), (table_is s t l'), l', (delete i m). split_and!; [done| |done|apply table_is_frame..].
    apply spec_remove. split_and!; [lia|lia|by apply (has_file_opens m l f i Hm Hf)|].
    intros j Hj. rewrite <- (has_file_opens m l f j Hm Hf). apply Hlow. lia.
  - assert (RemoveFd t f s = Done (EINVAL, table_is s t l)) as Hrun.
    { unfold RemoveFd. rewrite (M_bind_done _ _ _ _ _ (AcquireTable_run s t l Ht)).
      rewrite (M_bind_done _ _ _ _ _ E). by rewrite (M_bind_done _ _ _ _ _ (ReleaseTable_run s t l)). }
    rewrite (M_bind_done _ _ _ _ _ Hrun).
    exists (EINVAL, junk), (table_is s t l), l, m.
    split_and!; [done| |by apply represents_release|apply table_is_frame..].
    apply spec_remove_none. intros j Hj. rewrite <- (has_file_opens m l f j Hm Hf). apply Hno. lia.
Qed.

Lemma GetFileFromFd_spec s t l m fd : represents s t l m → fd_call_ok s t m (Get fd).
Proof.
  intros R. pose proof R as [Ht Hl Hm]. unfold fd_call_ok. cbn [run_fd]. unfold GetFileFromFd.
  destruct (decide (true = false ∨ fd < 0 ∨ PROC_MAX_FD ≤ fd)) as [Hbad|Hgood].
  { exists (EBADF, NULL), s, l, m. split_and!; [done| |done|done]. apply spec_get_bad. rewrite Hm.
    unfold aget. destruct (decide (0 ≤ fd)); [|done]. by rewrite lookup_ge_None_2 by (destruct Hbad as [|]; [done|lia]). }
  destruct (aget_is_Some l fd) as [e He]; [lia|].
  rewrite (M_bind_done _ _ _ _ _ (AcquireTable_run s t l Ht)).
  rewrite (M_bind_done _ _ _ _ _ (fd_entry_run s t l fd e He)).
  rewrite (M_bind_done _ _ _ _ _ (ReleaseTable_run s t l)).
  eexists _, (table_is s t l), l, m. split_and!; [done| |by apply represents_release|apply table_is_frame..].
  pose proof (Hm fd) as Hfd. rewrite He in Hfd. simpl in Hfd. unfold entry_of in Hfd.
  destruct (decide (fd_file e = NULL)) as [->|]; [by apply spec_get_bad|].
  apply spec_get. unfold opens. by rewrite Hfd.
Qed.

(** C14: creating, removing and looking up descriptors is a map: every sequence of
    calls on open files returns, its results are those the map gives, and nothing
    but the table changes. *)
Theorem fd_table_refines_map t calls s l m
  (R : represents s t l m) (Hcalls : Forall (call_ok s) calls) :
  ∃ results s' l' m', run_fds t calls s = Done (results, s') ∧ results.*1 = calls ∧
    fd_trace m results m' ∧ represents s' t l' m' ∧ same_but_table t s s'.
Proof.
  revert s l m R Hcalls. induction calls as [|c calls IH]; intros s l m R Hc; cbn [run_fds].
  { exists [], s, l, m. split_and!; done || constructor. }
  apply Forall_cons in Hc as [Hc Hcs].
  assert (fd_call_ok s t m c) as (r & s1 & l1 & m1 & E & Hspec & R1 & Hf1 & Hv1 & Ht1).
  { destruct c as [f flags|f|i]; [destruct Hc; by eapply CreateFd_spec|destruct Hc; by eapply RemoveFd_spec
                                  |by eapply GetFileFromFd_spec]. }
  destruct (IH s1 l1 m1 R1) as (rs & s2 & l2 & m2 & E2 & Hrs & Htr & R2 & Hf2 & Hv2 & Ht2).
  { eapply Forall_impl; [exact Hcs|]. intros c' Hc'. unfold call_ok in *. by rewrite Hf1. }
  rewrite (M_bind_done _ _ _ _ _ E), (M_bind_done _ _ _ _ _ E2).
  exists ((c, r) :: rs), s2, l2, m2. split_and!; [done|by simpl; f_equal|by econstructor|done|].
  split; [congruence|split; [congruence|]]. intros t' Hne. by rewrite Ht2, Ht1.
Qed.

(** duplicating never succeeds: with a descriptor in range, [DupFd] and
    [DupFd2] wait for ever for the lock they hold themselves; with one out of range
    they return [EBADF]. *)
Theorem duplicate_deadlocks t l oldfd newfd flags s
  (Ht : tables s !! t = Some (FdTable false l)) (Hflags : ¬ bad_flags flags) :
  DupFd t oldfd newfd s = (if decide (0 ≤ oldfd < PROC_MAX_FD) then Blocked else Done ((EBADF, newfd), s)) ∧
  DupFd2 t oldfd newfd flags s = (if decide (0 ≤ oldfd < PROC_MAX_FD) then Blocked else Done (EBADF, s)).
Proof.
  unfold DupFd, DupFd2. rewrite (decide_False (P := Z.land _ _ ≠ 0)) by done.
  rewrite !(M_bind_done _ _ _ _ _ (AcquireTable_run s t l Ht)). unfold GetFileFromFd.
  destruct (decide (0 ≤ oldfd < PROC_MAX_FD)) as [Hin|Hout].
  - rewrite decide_False by (intros [|]; [done|lia]). mred. rewrite AcquireTable_held. done.
  - rewrite decide_True by lia.
    rewrite !(M_bind_done (mret _) _ (held s t l) _ _ eq_refl).
    rewrite !decide_True by (by left). rewrite !(M_bind_done _ _ _ _ _ (ReleaseTable_run s t l)).
    by rewrite table_is_id.
Qed.
End tables.

(** ** New tables *)
Section new.
Context {D : Type} {AL : Allocator} {DR : Drivers D}.
Implicit Types (s : vfs D) (m : fd_map).

Definition empty_entries : list fd := replicate (Z.to_nat PROC_MAX_FD) (Fd NULL 0).

Lemma empty_map (i : Z) : (∅ : fd_map) !! i = aget empty_entries i ≫= entry_of.
Proof.
  rewrite lookup_empty. unfold aget, empty_entries. destruct (decide (0 ≤ i)); [|done].
  destruct (_ !! _) as [e|] eqn:E; [|done]. by apply lookup_replicate in E as [-> _].
Qed.

Lemma CreateFdTable_represents s :
  let t := pick (live_objects s) in
  tables s !! t = None ∧ CreateFdTable s = Done (t, table_is s t empty_entries) ∧
  represents (table_is s t empty_entries) t empty_entries ∅.
Proof.
  intros t. assert (tables s !! t = None) as Hnew.
  { apply not_elem_of_dom. pose proof (pick_fresh (live_objects s)) as Hp.
    unfold live_objects in Hp at 2. fold t in Hp. set_solver. }
  split; [done|]. split; [done|]. split; [apply lookup_insert_eq|done|apply empty_map].
Qed.

(** a copied table is a new table with the same descriptors; no reference to
    the files behind them is taken. *)
Theorem CopyFdTable_shares t l m s (R : represents s t l m) :
  ∃ t' s', CopyFdTable t s = Done (t', s') ∧ tables s !! t' = None ∧
    represents s' t l m ∧ represents s' t' l m ∧ files s' = files s ∧ vnodes s' = vnodes s.
Proof.
  pose proof R as [Ht Hl Hm]. destruct (CreateFdTable_represents s) as (Hnew & E & _).
  set (t' := pick (live_objects s)) in *. exists t'. unfold CopyFdTable.
  rewrite (M_bind_done _ _ _ _ _ E). set (s1 := table_is s t' empty_entries).
  assert (t' ≠ t) as Hne by congruence.
  assert (tables s1 !! t = Some (FdTable false l)) as Ht1 by (by unfold s1; simpl; rewrite lookup_insert_ne).
  rewrite (M_bind_done _ _ _ _ _ (AcquireTable_run s1 t l Ht1)).
  unfold get_table, set_table. mred. unfold held at 1. cbn [tables with_tables]. rewrite lookup_insert_eq. mred.
  cbn [tables held with_tables s1 table_is]. rewrite lookup_insert_ne, lookup_insert_eq by done. mred.
  cbn [entries locked]. set (s2 := with_tables _ _).
  assert (s2 = held (table_is s t' l) t l) as ->.
  { unfold s2, s1, held, table_is, with_tables. simpl. f_equal.
    rewrite (insert_insert_ne _ t' t) by done. by rewrite insert_insert_eq. }
  rewrite ReleaseTable_run. mred. eexists. split; [done|]. split; [done|].
  split; [split; [apply lookup_insert_eq|done|done]|]. split; [|done].
  split; [|done|done]. simpl. rewrite lookup_insert_ne by done. apply lookup_insert_eq.
Qed.
End new.

(** ** Concrete tables *)
#[local] Existing Instance one_file.
#[local] Existing Instance bump_allocator.

Definition table_state : vfs unit := with_tables {[ 20 := FdTable false empty_entries ]} one_file_state.

Lemma table_state_represents : represents table_state 20 empty_entries ∅.
Proof. split; [reflexivity|reflexivity|apply empty_map]. Qed.

Lemma fd_table_refines_map_witness :
  ∃ results s' l' m', run_fds 20 [Create 10 0; Get 0; Remove 10; Get 0] table_state = Done (results, s') ∧
    results.*1 = [Create 10 0; Get 0; Remove 10; Get 0] ∧ fd_trace ∅ results m' ∧ represents s' 20 l' m' ∧
    same_but_table 20 table_state s'.
Proof.
  apply (fd_table_refines_map 20 _ table_state empty_entries ∅ table_state_represents).
  repeat (apply Forall_cons; split; [first [exact I|split; [discriminate|eexists; reflexivity]]|]). constructor.
Defined.

Lemma duplicate_deadlocks_witness :
  DupFd 20 3 4 table_state = Blocked ∧ DupFd2 20 3 4 0 table_state = Blocked.
Proof.
  destruct (duplicate_deadlocks 20 empty_entries 3 4 0 table_state) as [H1 H2]; [reflexivity|by intros H; apply H|].
  rewrite decide_True in H1 by done. rewrite decide_True in H2 by done. split; [exact H1|exact H2].
Defined.

Lemma CopyFdTable_shares_witness :
  ∃ t' s', CopyFdTable 20 table_state = Done (t', s') ∧ tables table_state !! t' = None ∧
    represents s' 20 empty_entries ∅ ∧ represents s' t' empty_entries ∅ ∧
    files s' = files table_state ∧ vnodes s' = vnodes table_state.
Proof. apply (CopyFdTable_shares 20 empty_entries ∅ table_state table_state_represents). Defined.
