(* ===== verification/VfsMounts.v ===== *)
(** * Mounting and unmounting *)

From S2P Require Import Prelude Transfer Vnode Vfs VfsPaths VfsOpen.

Section mounts.
Context {D : Type} {AL : Allocator} {DR : Drivers D} {DC : DriverContract}.
Implicit Types s : vfs D.

Definition mount_named (name : cstring) (s : vfs D) : option mounted_file :=
  m ← mount_points s; find_mount name m.

Lemma GetMountPointFromName_run name s : GetMountPointFromName name s = Done (mount_named name s, s).
Proof. done. Qed.

Lemma find_mount_None name l : find_mount name l = None ↔ name ∉ mount_name <$> l.
Proof.
  unfold find_mount. rewrite fmap_None, list_find_None, Forall_forall, list_elem_of_fmap. naive_solver.
Qed.

Lemma find_mount_last name f l :
  name ∉ mount_name <$> l →
  list_find (λ m, name = mount_name m) (l ++ [Mounted f name]) = Some (length l, Mounted f name).
Proof.
  intros Hn. apply list_find_Some. rewrite list_lookup_middle by done. split_and!; [done..|].
  intros j y Hy Hj. rewrite lookup_app_l in Hy by done. intros ->. apply Hn.
  apply list_elem_of_fmap. exists y. split; [done|]. by eapply list_elem_of_lookup_2.
Qed.

(** The lock is free and the names of the mounts are distinct and valid. *)
Definition mounts_ok (s : vfs D) (l : list mounted_file) : Prop :=
  vfs_lock s = false ∧ mount_points s = Some l ∧ NoDup (mount_name <$> l) ∧ Forall (λ m, valid_name (mount_name m)) l.

Lemma valid_name_check name :
  length name < MAX_COMPONENT_LENGTH → (CheckValidComponentName name = 0 ↔ valid_name name).
Proof. intros. rewrite <- valid_name_error. unfold component_error. by rewrite decide_False by lia. Qed.

(** The file that a new mount gets. *)
Definition mount_file (n : Z) : file := File true true 0 0 0 1 n.

Lemma AddVfsMount_run n v name l s :
  mounts_ok s l → valid_name name → name ∉ mount_name <$> l → n ≠ NULL → vnodes s !! n = Some v →
  ∃ f s', AddVfsMount n (Some name) s = Done (0, s') ∧ f ≠ NULL ∧ files s !! f = None ∧
    mounts_ok s' (l ++ [Mounted f name]) ∧ files s' = <[f := mount_file n]> (files s) ∧
    vnodes s' = <[n := set_references (reference_count v + 1) v]> (vnodes s).
Proof.
  intros (Hlock & Hm & Hnd & Hval) Hname Hnew Hn Hv. pose proof Hname as (_ & Hlen & _).
  cbn [AddVfsMount]. rewrite decide_False, decide_False by (done || lia).
  apply valid_name_check in Hname as Hc; [|done]. rewrite Hc. rewrite (decide_False (P := 0 ≠ 0)) by lia.
  unfold AcquireVfsLock. mred. rewrite Hlock. set (s1 := with_lock true s).
  unfold DoesMountPointExist. mred. change (vfs_lock s1) with true. cbn [outcome_bind].
  rewrite GetMountPointFromName_run. cbn [outcome_bind].
  assert (mount_named name s1 = None) as ->.
  { unfold mount_named. simpl. rewrite Hm. by apply find_mount_None. }
  rewrite decide_False by done. rewrite (CreateFile_run n v 0 0 true true s1 Hn Hv). cbn [outcome_bind].
  destruct (pick_not_live s1) as [Hf Hfresh]. set (f := pick (live_objects s1)) in *.
  cbn [mount_points with_vnodes with_files]. change (mount_points s1) with (mount_points s). rewrite Hm. mred.
  unfold ReleaseVfsLock. mred. cbn [vfs_lock with_mounts with_vnodes with_files s1 with_lock]. mred.
  eexists f, _. split; [done|]. split; [done|]. split; [done|]. split; [|done].
  split; [done|]. split; [done|]. rewrite fmap_app. split.
  - apply NoDup_app. split_and!; [done| |apply NoDup_singleton]. intros x Hx ->%list_elem_of_singleton. done.
  - apply Forall_app. split; [done|]. by constructor.
Qed.

(** C15: mounting a vnode under a new valid name, then unmounting the name,
    succeeds both times; it leaves the mounts and the files as they were and takes
    one reference from the vnode, the one its creator held. Between the two, the
    name resolves to the vnode. *)
Theorem mount_unmount_roundtrip n v name l s
  (Hok : mounts_ok s l) (Hname : valid_name name) (Hnew : name ∉ mount_name <$> l)
  (Hn : n ≠ NULL) (Hv : vnodes s !! n = Some v) (Hcount : 0 < reference_count v)
  (Hfifo : IFTODT (st_mode (vn_stat v)) ≠ DT_FIFO) (Hlink : st_nlink (vn_stat v) ≠ 0) :
  ∃ f s', AddVfsMount n (Some name) s = Done (0, s') ∧ mounts_ok s' (l ++ [Mounted f name]) ∧
    (∀ rest, start_vnode (name ++ COLON :: rest) s' = Done ((0, n), s')) ∧
    ∃ s'', RemoveVfsMount (Some name) s' = Done (0, s'') ∧ mount_points s'' = Some l ∧ files s'' = files s ∧
      ∀ x, refs s'' x = refs s x - (if decide (x = n) then 1 else 0).
Proof.
  destruct (AddVfsMount_run n v name l s Hok Hname Hnew Hn Hv) as (f & s' & E & Hf & Hfresh & Hok' & Hfs & Hvs).
  exists f, s'. split; [done|]. split; [done|].
  destruct Hok' as (Hlock & Hm & _). pose proof (find_mount_last name f l Hnew) as Hfind.
  assert (mount_named name s' = Some (Mounted f name)) as Hmn.
  { unfold mount_named. rewrite Hm. simpl. unfold find_mount. by rewrite Hfind. }
  assert (files s' !! f = Some (mount_file n)) as Hff by (rewrite Hfs; apply lookup_insert_eq).
  set (w := set_references (reference_count v + 1) v) in *.
  assert (vnodes s' !! n = Some w) as Hw by (rewrite Hvs; apply lookup_insert_eq).
  split.
  { intros rest. unfold start_vnode. rewrite IsRelative_until.
    assert (COLON ∉ name) by (destruct Hname as (_ & _ & Hch); eapply name_no_char; [done|unfold name_char; naive_solver]).
    rewrite until_stop by done.
    rewrite bool_decide_eq_false_2 by (intros Hx; apply (f_equal length) in Hx; rewrite length_app in Hx; simpl in Hx; lia).
    rewrite decide_False by (apply valid_name_error in Hname; lia).
    rewrite (M_bind_done _ _ _ _ _ (GetMountPointFromName_run name s')), Hmn. simpl. rewrite decide_False by done.
    by rewrite (M_bind_done _ _ _ _ _ (get_file_run f _ s' Hff)). }
  destruct Hname as (Hne & Hlen & Hch). pose proof (conj Hne (conj Hlen Hch)) as Hname.
  apply valid_name_check in Hname as Hc; [|done]. set (s1 := with_lock true s').
  destruct (CloseFile_run f (mount_file n) w s1) as (s2 & d & vs & Ec & -> & Hr2); [done..|simpl; lia|done|done|].
  (* the two drops are those of [CloseFile] *)
  unfold CloseFile in Ec. rewrite decide_False in Ec by done.
  rewrite (M_bind_done _ _ _ _ _ (get_file_run f _ s1 Hff)), decide_False in Ec by done.
  apply M_bind_inv in Ec as ([] & s3 & Ed & Ec). apply M_bind_inv in Ec as ([] & s4 & Ef & [= ->]).
  exists (with_mounts (Some l) (with_lock false (with_drv d (with_vnodes vs (with_files (delete f (files s1)) s1))))).
  split; [|split; [done|split]].
  - cbn [RemoveVfsMount]. rewrite Hc. rewrite (decide_False (P := 0 ≠ 0)) by lia.
    rewrite (M_bind_done AcquireVfsLock _ s' tt s1) by (unfold AcquireVfsLock; mred; by rewrite Hlock).
    rewrite (M_bind_done _ _ _ _ _ (GetMountPointFromName_run name s1)).
    change (mount_named name s1) with (mount_named name s'). rewrite Hmn. cbn [mount_node].
    rewrite (M_bind_done _ _ _ _ _ (get_file_run f _ s1 Hff)).
    rewrite (M_bind_done _ _ _ _ _ Ed), (M_bind_done _ _ _ _ _ Ef).
    mred. cbn [mount_points with_drv with_vnodes with_files]. change (mount_points s1) with (mount_points s').
    rewrite Hm. mred. rewrite Hfind.
    replace (base.delete (length l) (l ++ [Mounted f name])) with l by (by rewrite delete_middle, app_nil_r).
    done.
  - simpl. by rewrite Hfs, delete_insert_id.
  - intros x. trans (refs (with_drv d (with_vnodes vs (with_files (delete f (files s1)) s1))) x); [done|].
    rewrite Hr2. simpl. assert (refs s1 x = refs s x + (if decide (x = n) then 1 else 0)) as ->.
    { trans (refs s' x); [done|]. eapply refs_update; [exact Hvs|]. unfold refs. by rewrite Hv. }
    destruct (decide (x = n)); lia.
Qed.

(** mounting is refused, and nothing changes, when there is no name or no
    vnode, the name is too long or not valid, or is mounted already. *)
Theorem AddVfsMount_refuses n name l s (Hok : mounts_ok s l) :
  (name = None ∨ n = NULL → AddVfsMount n name s = Done (EINVAL, s)) ∧
  (∀ w, name = Some w → n ≠ NULL →
    (MAX_COMPONENT_LENGTH ≤ length w → AddVfsMount n name s = Done (ENAMETOOLONG, s)) ∧
    (length w < MAX_COMPONENT_LENGTH → ¬ valid_name w → AddVfsMount n name s = Done (EINVAL, s)) ∧
    (valid_name w → w ∈ mount_name <$> l → AddVfsMount n name s = Done (EEXIST, s))).
Proof.
  destruct Hok as (Hlock & Hm & _). split.
  { intros [->| ->]; [done|]. by destruct name. }
  intros w -> Hn. cbn [AddVfsMount]. rewrite decide_False by done. split_and!.
  - intros. by rewrite decide_True.
  - intros Hlen Hbad. rewrite decide_False by lia.
    assert (CheckValidComponentName w = EINVAL) as ->; [|done].
    destruct (decide (CheckValidComponentName w = 0)) as [E|]; [by apply valid_name_check in E|].
    destruct w as [|c w]; [done|]. unfold CheckValidComponentName in *. clear -n0.
    induction (c :: w) as [|a l IH]; [done|]. simpl in *. destruct (decide _); auto.
  - intros Hw Hin. pose proof Hw as (_ & Hlen & _). rewrite decide_False by lia.
    apply valid_name_check in Hw; [|done]. rewrite Hw, (decide_False (P := 0 ≠ 0)) by lia.
    unfold AcquireVfsLock. mred. rewrite Hlock. set (s1 := with_lock true s).
    unfold DoesMountPointExist. mred. change (vfs_lock s1) with true. cbn [outcome_bind].
    rewrite GetMountPointFromName_run. cbn [outcome_bind].
    destruct (mount_named w s1) as [m|] eqn:E.
    + rewrite decide_True by done. unfold ReleaseVfsLock, s1. mred. cbn [vfs_lock with_lock]. mred.
      do 2 f_equal. unfold with_lock. simpl. rewrite <- Hlock. by destruct s.
    + unfold mount_named in E. simpl in E. rewrite Hm in E. by apply find_mount_None in E.
Qed.
End mounts.

#[local] Existing Instance one_file.
#[local] Existing Instance one_file_contract.
#[local] Existing Instance bump_allocator.

(** Mounting vnode 2 as "e" beside "d". *)
Lemma one_file_mounts_ok : mounts_ok one_file_state [Mounted 10 [100]].
Proof.
  split; [reflexivity|]. split; [reflexivity|]. split; [apply NoDup_singleton|].
  apply Forall_singleton. by apply valid_name_error.
Qed.

Lemma mount_unmount_roundtrip_witness :
  ∃ f s', AddVfsMount 2 (Some [101]) one_file_state = Done (0, s') ∧
    mounts_ok s' ([Mounted 10 [100]] ++ [Mounted f [101]]) ∧
    (∀ rest, start_vnode ([101] ++ COLON :: rest) s' = Done ((0, 2), s')) ∧
    ∃ s'', RemoveVfsMount (Some [101]) s' = Done (0, s'') ∧ mount_points s'' = Some [Mounted 10 [100]] ∧
      files s'' = files one_file_state ∧
      ∀ x, refs s'' x = refs one_file_state x - (if decide (x = 2) then 1 else 0).
Proof.
  apply (mount_unmount_roundtrip 2 (Vnode no_ops NULL 1 (Stat 1 2 (S_IFREG + 511) 1 0 0) 0) [101]
           [Mounted 10 [100]] one_file_state one_file_mounts_ok);
    [by apply valid_name_error|by intros ?%list_elem_of_singleton|done|reflexivity|done|by vm_compute|done].
Defined.

Lemma AddVfsMount_refuses_witness : AddVfsMount 2 (Some [100]) one_file_state = Done (EEXIST, one_file_state).
Proof.
  destruct (AddVfsMount_refuses 2 (Some [100]) [Mounted 10 [100]] one_file_state one_file_mounts_ok) as [_ H].
  apply (H [100]); [reflexivity|done|by apply valid_name_error|by apply list_elem_of_singleton].
Defined.
