(* ===== verification/DemoFs.v ===== *)
(** * fs/demofs: a read-only file system on a disk

    The disk is an open file of the virtual file system, reached through the
    drivers below this one. Local arrays are given by their address in the memory
    that the transfers of the disk write to. *)

From S2P Require Import Prelude Transfer Vnode Vfs.

(** ** demofs_inodes.c *)
Definition SECTOR_SIZE : Z := 512.
Definition MAX_NAME_LENGTH : Z := 24.
Definition INODE_TO_SECTOR (inode : Z) : Z := Z.land inode 0xFFFFFF.
Definition INODE_IS_DIR (inode : Z) : Z := Z.shiftr inode 31.
Definition INODE_TO_DIR (inode : Z) : Z := Z.lor inode (2 ^ 31).

Record demofs := Demofs { disk : Z; root_inode : Z }.

(** [strncmp] on the bytes from two pointers on. *)
Fixpoint strncmp (n : nat) (s1 s2 : list Z) : option Z :=
  match n with
  | O => Some 0
  | S n =>
    match s1, s2 with
    | c :: r1, d :: r2 => if decide (c ≠ 0 ∧ c = d) then strncmp n r1 r2 else Some (c - d)
    | _, _ => None
    end
  end.

(** The data of a vnode. *)
Record vnode_data := VnodeData { vd_inode : Z; vd_fs : demofs; vd_file_length : Z; vd_directory : bool }.

Section inodes.
Context {D : Type} {AL : Allocator} {LOW : Drivers D}.

(** The address of the local array, [buffer] or [sector_buffer], of the function. *)
Variable local : Z.

Definition demofs_read_inode (fs : demofs) (inode buffer : Z) : M (vfs D) Z :=
  let io := CreateKernelTransfer buffer SECTOR_SIZE (u32 (SECTOR_SIZE * INODE_TO_SECTOR inode)) TRANSFER_READ in
  '(r, _) ← ReadFile (disk fs) (Some io);
  mret r.

(** The local array, and a byte of it. *)
Definition local_array : M (vfs D) (list Z) := s ← get; mret (load_bytes (bytes (user s)) local 512).
Definition rd (b : list Z) (i : Z) : M (vfs D) Z := deref (aget b i).

(** *** Reading a file *)
Definition read_disk (fs : demofs) (io : transfer) : M (vfs D) (Z * transfer) :=
  '(r, io) ← ReadFile (disk fs) (Some io);
  io ← deref io;
  mret (r, io).

Definition set_offset (o : Z) (io : transfer) : transfer :=
  Transfer (address io) (length_remaining io) (u64 o) (direction io) (type io) (blockable io).
Definition set_length (n : Z) (io : transfer) : transfer :=
  Transfer (address io) (u64 n) (offset io) (direction io) (type io) (blockable io).

Fixpoint demofs_read_file_loop (fuel : nat) (fs : demofs) (file file_size_left : Z) (io : transfer) :
    M (vfs D) (Z * transfer) :=
  if decide (length_remaining io = 0 ∨ file_size_left = 0) then mret (0, io) else
  match fuel with
  | O => exhausted
  | S fuel =>
    let sector := i32 (file + offset io / SECTOR_SIZE) in
    let sector_offset := i32 (offset io `mod` SECTOR_SIZE) in
    if decide (sector_offset = 0 ∧ SECTOR_SIZE ≤ length_remaining io ∧ SECTOR_SIZE ≤ file_size_left) then
      let remainder := i32 (length_remaining io `mod` SECTOR_SIZE) in
      let io := set_length (length_remaining io - remainder) io in
      let delta := i32 (i32 (sector * SECTOR_SIZE) - offset io) in
      let io := set_offset (offset io + delta) io in
      '(status, io) ← read_disk fs io;
      if decide (status ≠ 0) then mret (status, io) else
      let io := set_offset (offset io - delta) io in
      let io := set_length remainder io in
      demofs_read_file_loop fuel fs file (u32 (file_size_left - SECTOR_SIZE)) io
    else
      let temp_io := CreateKernelTransfer local SECTOR_SIZE (u64 (i32 (sector * SECTOR_SIZE))) TRANSFER_READ in
      '(status, _) ← read_disk fs temp_io;
      if decide (status ≠ 0) then mret (status, io) else
      sector_buffer ← local_array;
      let transfer_size :=
        u32 (Z.min (Z.min (SECTOR_SIZE - offset io `mod` SECTOR_SIZE) (length_remaining io)) file_size_left) in
      '(_, _, io) ← on_user (PerformTransfer (Some (drop (Z.to_nat (offset io `mod` SECTOR_SIZE)) sector_buffer))
                                             io transfer_size);
      demofs_read_file_loop fuel fs file (u32 (file_size_left - transfer_size)) io
  end.

(** Three turns are enough ([demofs_read_file_correct]); the size left bounds them
    when the transfer into the caller's buffer fails. *)
Definition demofs_read_file (fuel : nat) (fs : demofs) (file file_size_left : Z) (io : transfer) :
    M (vfs D) (Z * transfer) :=
  if decide (file_size_left ≤ offset io) then mret (0, io) else
  demofs_read_file_loop fuel fs file (u32 (file_size_left - offset io)) io.

(** *** Looking up a name *)

(** The three bytes of a sector number at [i]. *)
Definition read_sector_number (b : list Z) (i : Z) : M (vfs D) Z :=
  x ← rd b i;
  y ← rd b (i + 1);
  z ← rd b (i + 2);
  mret (Z.lor (Z.lor x (Z.shiftl y 8)) (Z.shiftl z 16)).

Definition read_length (b : list Z) (i : Z) : M (vfs D) Z :=
  x ← read_sector_number b i;
  y ← rd b (i + 3);
  mret (Z.lor x (Z.shiftl y 24)).

(** The loop over the entries from [i] on: what it returns from the function, if it
    does, is the status, [*child] and [*file_length_out]. *)
Fixpoint follow_entries (n : nat) (i : Z) (b : list Z) (name : cstring) (child length_out : Z) :
    M (vfs D) (option (Z * Z * Z)) :=
  match n with
  | O => mret None
  | S n =>
    c ← rd b (i * 32);
    if decide (c = 0) then mret (Some (ENOENT, child, length_out)) else
    r ← deref (strncmp (Z.to_nat MAX_NAME_LENGTH) (name ++ [0]) (drop (Z.to_nat (i * 32)) b));
    if decide (r = 0) then
      inode ← read_sector_number b (i * 32 + MAX_NAME_LENGTH + 4);
      flags ← rd b (i * 32 + MAX_NAME_LENGTH + 7);
      if decide (Z.land flags 1 ≠ 0) then mret (Some (0, INODE_TO_DIR inode, 0))
      else
        len ← read_length b (i * 32 + MAX_NAME_LENGTH);
        mret (Some (0, inode, len))
    else follow_entries n (i + 1) b name child length_out
  end.

(** [while (true)]: a chain of directory sectors may be a ring. *)
Fixpoint demofs_follow_loop (fuel : nat) (fs : demofs) (prnt : Z) (name : cstring) (child length_out : Z) :
    M (vfs D) (Z * Z * Z) :=
  match fuel with
  | O => exhausted
  | S fuel =>
    status ← demofs_read_inode fs prnt local;
    if decide (status ≠ 0) then mret (status, child, length_out) else
    buffer ← local_array;
    header ← rd buffer 0;
    if decide (header ≠ 0xFF ∧ header ≠ 0xFE) then mret (EIO, child, length_out) else
    found ← follow_entries 15 1 buffer name child length_out;
    match found with
    | Some r => mret r
    | None =>
      if decide (header = 0xFF) then mret (ENOENT, child, length_out)
      else if decide (header = 0xFE) then
        next ← read_sector_number buffer 1;
        demofs_follow_loop fuel fs (INODE_TO_DIR next) name child length_out
      else mret (EIO, child, length_out)
    end
  end.

(** The status, [*child] and [*file_length_out]. *)
Definition demofs_follow (fuel : nat) (fs : demofs) (prnt : Z) (name : cstring) (child length_out : Z) :
    M (vfs D) (Z * Z * Z) :=
  c_assert (bool_decide (disk fs ≠ NULL));;
  if decide (MAX_NAME_LENGTH < length name) then mret (ENAMETOOLONG, child, length_out) else
  if decide (INODE_IS_DIR prnt = 0) then mret (ENOTDIR, child, length_out) else
  demofs_follow_loop fuel fs prnt name child length_out.

(** *** Listing a directory *)

(** The loop of the indirections: the status and the last inode. *)
Fixpoint skip_sectors (n : nat) (fs : demofs) (current_inode : Z) : M (vfs D) (Z * Z) :=
  match n with
  | O => mret (0, current_inode)
  | S n =>
    status ← demofs_read_inode fs current_inode local;
    if decide (status ≠ 0) then mret (status, current_inode) else
    buffer ← local_array;
    header ← rd buffer 0;
    if decide (header ≠ (if decide (n = 0%nat) then 0xFF else 0xFE)) then mret (EIO, current_inode) else
    next ← read_sector_number buffer 1;
    skip_sectors n fs next
  end.

Definition disk_id (fs : demofs) : M (vfs D) Z :=
  f ← get_file (disk fs);
  v ← get_vnode (node f);
  mret (u32 (st_dev (vn_stat v))).

Definition demofs_read_directory_entry (fs : demofs) (directory : Z) (io : transfer) :
    M (vfs D) (Z * transfer) :=
  if decide (INODE_IS_DIR directory = 0) then mret (ENOTDIR, io) else
  if decide (offset io `mod` SIZEOF_DIRENT ≠ 0) then mret (EINVAL, io) else
  let entry_number := i32 (offset io / SIZEOF_DIRENT) in
  if decide (entry_number = 0) then
    d ← disk_id fs;
    let dir := dirent_bytes (Z.land directory 0x7FFFFFFF) (strcpy_name junk_name [DOT]) 1 DT_DIR junk_pad d in
    '(r, _, io) ← on_user (PerformTransfer (Some dir) io SIZEOF_DIRENT);
    mret (r, io)
  else
    let entry_number := i32 (entry_number - 1) in
    let indirections := Z.quot entry_number 15 in
    let offset := Z.rem entry_number 15 + 1 in
    '(status, current_inode) ← skip_sectors (Z.to_nat indirections) fs directory;
    if decide (status ≠ 0) then mret (status, io) else
    status ← demofs_read_inode fs current_inode local;
    if decide (status ≠ 0) then mret (status, io) else
    buffer ← local_array;
    c ← rd buffer (offset * 32);
    if decide (c = 0) then mret (0, io) else
    let name := until_zero (take (Z.to_nat MAX_NAME_LENGTH) (drop (Z.to_nat (offset * 32)) buffer)) in
    inode ← read_sector_number buffer (offset * 32 + MAX_NAME_LENGTH + 4);
    flags ← rd buffer (offset * 32 + MAX_NAME_LENGTH + 7);
    d ← disk_id fs;
    let dir := dirent_bytes (Z.land inode 0x7FFFFFFF) (strcpy_name junk_name name) (length name)
      (if decide (Z.land flags 1 ≠ 0) then DT_DIR else DT_REG) junk_pad d in
    '(r, _, io) ← on_user (PerformTransfer (Some dir) io SIZEOF_DIRENT);
    mret (r, io).
End inodes.

(** ** demofs_vnode.c *)
Section vnodes.
Context {D : Type} {HD : Holds D (gmap Z vnode_data)} {AL : Allocator} {LOW : Drivers D}.
Variable local : Z.

(** The addresses of the functions. *)
Variables p_check_open p_ioctl p_read p_write p_close p_truncate p_create p_follow : Z.

Definition with_nodes (m : gmap Z vnode_data) (s : vfs D) : vfs D :=
  with_drv (hold m (drv s)) s.
Definition get_data (n : Z) : M (vfs D) vnode_data :=
  v ← get_vnode n;
  s ← get;
  deref (held (drv s) !! vn_data v).

Definition CheckOpen (n flags : Z) : M (vfs D) Z :=
  mret (if decide (Z.land flags O_ACCMODE = O_WRONLY ∨ Z.land flags O_ACCMODE = O_RDWR) then EROFS else 0).

Definition Ioctl (n command buffer : Z) : M (vfs D) Z := mret EINVAL.

Definition Read (fuel : nat) (n : Z) (io : transfer) : M (vfs D) (Z * transfer) :=
  data ← get_data n;
  if vd_directory data then demofs_read_directory_entry local (vd_fs data) (vd_inode data) io
  else demofs_read_file local fuel (vd_fs data) (vd_inode data) (vd_file_length data) io.

Definition Write (n : Z) (io : transfer) : M (vfs D) (Z * transfer) := mret (EROFS, io).
Definition Create (n out : Z) (name : cstring) (flags mode : Z) : M (vfs D) (Z * Z) := mret (EROFS, out).
Definition Truncate (n offset : Z) : M (vfs D) Z := mret EROFS.

Definition Close (n : Z) : M (vfs D) Z :=
  v ← get_vnode n;
  modify (λ s, with_nodes (delete (vn_data v) (held (drv s))) s);;
  mret 0.

Definition dev_ops : vnode_operations :=
  {| check_open := p_check_open; ioctl := p_ioctl; read := p_read; write := p_write; close := p_close;
     truncate := p_truncate; create := p_create; follow := p_follow; unlink := NULL; delete_op := NULL |}.

Definition CreateDemoFsVnode (inode size : Z) : M (vfs D) Z :=
  d ← NextDevId;
  CreateVnode dev_ops
    {| st_mode := Z.lor (if decide (INODE_IS_DIR inode ≠ 0) then S_IFDIR else S_IFREG) 511; st_nlink := 1;
       st_size := size; st_ino := Z.land inode 0x7FFFFFFF; st_blksize := 512; st_dev := d |}.

(** [node->data = AllocHeap(...)] and the stores to it. *)
Definition attach (n : Z) (data : vnode_data) : M (vfs D) unit :=
  s ← get;
  let a := pick (dom (held (drv s))) in
  modify (λ s, with_nodes (<[a := data]> (held (drv s))) s);;
  v ← get_vnode n;
  set_vnode n {| v with vn_data := a |}.

Definition Follow (fuel : nat) (n : Z) (name : cstring) : M (vfs D) (Z * Z) :=
  data ← get_data n;
  if vd_directory data then
    '(status, child_inode, file_length) ← demofs_follow local fuel (vd_fs data) (vd_inode data) name junk junk;
    if decide (status ≠ 0) then mret (status, junk) else
    child_node ← CreateDemoFsVnode child_inode file_length;
    attach child_node
      {| vd_inode := child_inode; vd_fs := vd_fs data; vd_file_length := file_length;
         vd_directory := bool_decide (INODE_IS_DIR child_inode ≠ 0) |};;
    mret (0, child_node)
  else mret (ENOTDIR, junk).

(** [buffer] is the heap block read into. *)
Definition CheckForDemofsSignature (buffer raw_device : Z) : M (vfs D) Z :=
  f ← get_file raw_device;
  v ← get_vnode (node f);
  let blksize := st_blksize (vn_stat v) in
  '(res, _) ← ReadFile raw_device (Some (CreateKernelTransfer buffer blksize (u32 (8 * blksize)) TRANSFER_READ));
  if decide (res ≠ 0) then mret ENOTSUP else
  s ← get;
  if decide (load_bytes (bytes (user s)) buffer 4 = [68; 69; 77; 79]) then mret 0 else mret ENOTSUP.

(** The status and [*out]. *)
Definition DemofsMountCreator (buffer raw_device out : Z) : M (vfs D) (Z * Z) :=
  sig_check ← CheckForDemofsSignature buffer raw_device;
  if decide (sig_check ≠ 0) then mret (sig_check, out) else
  let root := Z.lor 9 (2 ^ 31) in
  n ← CreateDemoFsVnode root 0;
  f ← get_file raw_device;
  dv ← get_vnode (node f);
  v ← get_vnode n;
  set_vnode n {| v with vn_stat := {| st_dev := st_dev (vn_stat dv); st_ino := st_ino (vn_stat v);
    st_mode := st_mode (vn_stat v); st_nlink := st_nlink (vn_stat v); st_size := st_size (vn_stat v);
    st_blksize := st_blksize (vn_stat v) |} |};;
  attach n {| vd_inode := root; vd_fs := {| disk := raw_device; root_inode := root |}; vd_file_length := 0;
              vd_directory := true |};;
  f ← CreateFile n 0 0 true false;
  mret (0, f).

(** The drivers of the system: this one, above those below. *)
Definition demofs_drivers (fuel : nat) : Drivers D := {|
  call_check_open p := if decide (p = p_check_open) then CheckOpen else call_check_open p;
  call_read p := if decide (p = p_read) then Read fuel else call_read p;
  call_write p := if decide (p = p_write) then Write else call_write p;
  call_ioctl p := if decide (p = p_ioctl) then Ioctl else call_ioctl p;
  call_close p := if decide (p = p_close) then Close else call_close p;
  call_truncate p := if decide (p = p_truncate) then Truncate else call_truncate p;
  call_create p := if decide (p = p_create) then Create else call_create p;
  call_follow p := if decide (p = p_follow) then Follow fuel else call_follow p;
  call_unlink p := call_unlink p;
  call_delete p := call_delete p;
|}.
End vnodes.
