(* ===== verification/DemoFsRead.v ===== *)
(** * Reading a file of the demo file system *)

From S2P Require Import Prelude Physical Transfer Buffers Vnode Vfs DemoFs.

(** What a disk driver promises of an open disk [d]: reads of whole sectors that lie
    on the disk store the bytes of [image] and leave everything but its own state
    alone. *)
Class SectorDisk {D} {AL : Allocator} {LOW : Drivers D} (d : Z) (image : gmap Z Z) (size : Z)
    (ready : vfs D → Prop) : Prop := {
  disk_nonnull : d ≠ NULL;
  disk_whole : size `mod` SECTOR_SIZE = 0 ∧ size < 2 ^ 31;
  disk_reads s io : ready s → direction io = TRANSFER_READ → usable (user s) io →
    0 < length_remaining io → length_remaining io `mod` SECTOR_SIZE = 0 → offset io `mod` SECTOR_SIZE = 0 →
    offset io + length_remaining io ≤ size →
    ∃ b x, let s' := with_drv x (with_user (Memory (vas_entries (user s))
        (store_bytes (bytes (user s)) (address io) (load_bytes image (offset io) (Z.to_nat (length_remaining io))))) s) in
      ReadFile d (Some io) s = Done ((0, Some (set_blockable b (advance io (length_remaining io)))), s') ∧ ready s';
  ready_memory s m : ready s → vas_entries m = vas_entries (user s) → ready (with_user m s);
}.

Section read.
Context {D : Type} {AL : Allocator} {LOW : Drivers D}.
Context (d : Z) (image : gmap Z Z) (size : Z) (ready : vfs D → Prop).
Context {DISK : SectorDisk d image size ready}.
Context (local : Z) (fs : demofs) (Hfs : disk fs = d) (Hlocal : 0 < local) (Hlocal_end : local + SECTOR_SIZE < 2 ^ 32).
Implicit Types (s : vfs D) (m : memory) (io : transfer).

(** [n] bytes of the disk from [src] on were put at [a]; the local array aside,
    nothing else changed. *)
Record delivered m m' (a n src : Z) : Prop := {
  dl_entries : vas_entries m' = vas_entries m;
  dl_bytes : load_bytes (bytes m') a (Z.to_nat n) = load_bytes image src (Z.to_nat n);
  dl_rest b : ¬ (a ≤ b < a + n) → ¬ (local ≤ b < local + SECTOR_SIZE) → bytes m' !! b = bytes m !! b;
}.

Definition apart (a n : Z) : Prop := a + n ≤ local ∨ local + SECTOR_SIZE ≤ a.

Lemma load_bytes_ext (f g : gmap Z Z) a b (n : nat) :
  (∀ i, 0 ≤ i < n → load f (a + i) = load g (b + i)) → load_bytes f a n = load_bytes g b n.
Proof.
  intros H. apply list_eq_same_length with n; [apply length_load_bytes..|].
  intros i x y Hi Hx Hy. rewrite load_bytes_lookup in Hx, Hy by done.
  injection Hx as <-. injection Hy as <-. apply H. lia.
Qed.
Lemma load_bytes_at (f g : gmap Z Z) a b (n : nat) i :
  load_bytes f a n = load_bytes g b n → 0 ≤ i < n → load f (a + i) = load g (b + i).
Proof.
  intros H Hi. assert (load_bytes f a n !! Z.to_nat i = load_bytes g b n !! Z.to_nat i) as E by by rewrite H.
  rewrite !load_bytes_lookup, Z2Nat.id in E by lia. by injection E.
Qed.

Lemma delivered_nothing m a src : delivered m m a 0 src.
Proof. by split. Qed.

Lemma delivered_trans m m1 m2 a n1 n2 src :
  0 ≤ n1 → 0 ≤ n2 → apart a (n1 + n2) →
  delivered m m1 a n1 src → delivered m1 m2 (a + n1) n2 (src + n1) → delivered m m2 a (n1 + n2) src.
Proof.
  unfold apart, SECTOR_SIZE. intros H1 H2 Hap [He1 Hb1 Hr1] [He2 Hb2 Hr2]. split; [congruence| |].
  - apply load_bytes_ext. intros i Hi. destruct (decide (i < n1)).
    + rewrite <- (load_bytes_at _ _ _ _ _ i Hb1) by lia. unfold load. rewrite Hr2; [done|lia|unfold SECTOR_SIZE; lia].
    + replace (a + i) with (a + n1 + (i - n1)) by lia. replace (src + i) with (src + n1 + (i - n1)) by lia.
      apply (load_bytes_at _ _ _ _ _ _ Hb2). lia.
  - intros b Hb Hloc. rewrite Hr2 by (lia || done). apply Hr1; [lia|done].
Qed.

(** A store of the right bytes. *)
Lemma delivered_store m a n src :
  0 ≤ n → delivered m (Memory (vas_entries m) (store_bytes (bytes m) a (load_bytes image src (Z.to_nat n)))) a n src.
Proof.
  intros Hn. split; simpl; [done| |].
  - rewrite <- (length_load_bytes image src (Z.to_nat n)) at 2. rewrite load_store_bytes. done.
  - intros b Hb _. rewrite store_bytes_lookup, length_load_bytes, decide_False by lia. done.
Qed.

(** ** One turn of the loop *)
Lemma set_blockable_usable m b io : usable m io → usable m (set_blockable b io).
Proof. intros []. by split. Qed.

Lemma usable_entries m m' io : usable m io → vas_entries m' = vas_entries m → usable m' io.
Proof. intros [] E. split; try done. by rewrite E. Qed.

Lemma advance_blockable b io k : advance (set_blockable b io) k = set_blockable b (advance io k).
Proof. done. Qed.

Lemma local_usable m o : 0 ≤ o → o < 2 ^ 31 → usable m (CreateKernelTransfer local SECTOR_SIZE o TRANSFER_READ).
Proof. intros. unfold SECTOR_SIZE in *. split; simpl; try lia; done. Qed.

(** The sector of [local] is read. *)
Lemma read_local_run s o :
  ready s → 0 ≤ o → o `mod` SECTOR_SIZE = 0 → o + SECTOR_SIZE ≤ size →
  ∃ io x m', let s' := with_drv x (with_user m' s) in
    ReadFile d (Some (CreateKernelTransfer local SECTOR_SIZE o TRANSFER_READ)) s = Done ((0, Some io), s') ∧ ready s' ∧
    vas_entries m' = vas_entries (user s) ∧ load_bytes (bytes m') local 512 = load_bytes image o 512 ∧
    (∀ b, ¬ (local ≤ b < local + SECTOR_SIZE) → bytes m' !! b = bytes (user s) !! b).
Proof.
  intros Hr Ho Ha Hs. destruct disk_whole as [_ Hsz]. set (io := CreateKernelTransfer _ _ _ _).
  assert (usable (user s) io) as Hu by (apply local_usable; unfold SECTOR_SIZE in *; lia).
  destruct (disk_reads s io Hr eq_refl Hu) as (b & x & E & Hr'); [done|done|done|done|].
  exists (set_blockable b (advance io (length_remaining io))), x, (Memory (vas_entries (user s))
    (store_bytes (bytes (user s)) local (load_bytes image o (Z.to_nat SECTOR_SIZE)))).
  split; [exact E|]. split; [exact Hr'|].
  destruct (delivered_store (user s) local SECTOR_SIZE o) as [_ Hb _]; [done|]. split; [done|]. split; [exact Hb|].
  intros c Hc. cbn [bytes]. by rewrite store_bytes_lookup, length_load_bytes, decide_False.
Qed.

Lemma drop_load_bytes (f : gmap Z Z) a (i n : nat) : drop i (load_bytes f a n) = load_bytes f (a + i) (n - i).
Proof.
  destruct (decide (i ≤ n)%nat).
  - replace n with (i + (n - i))%nat at 1 by lia. rewrite load_bytes_app. rewrite drop_app_ge by (rewrite length_load_bytes; lia).
    by rewrite length_load_bytes, Nat.sub_diag, drop_0.
  - replace (n - i)%nat with 0%nat by lia. apply drop_ge. rewrite length_load_bytes. lia.
Qed.
Lemma take_load_bytes (f : gmap Z Z) a (i n : nat) : (i ≤ n)%nat → take i (load_bytes f a n) = load_bytes f a i.
Proof.
  intros. replace n with (i + (n - i))%nat by lia. rewrite load_bytes_app.
  rewrite take_app_le by (rewrite length_load_bytes; lia). apply take_ge. by rewrite length_load_bytes.
Qed.

(** What one turn moves, and what it takes off the size left. *)
Definition moved (off len left : Z) : Z * Z :=
  if decide (off `mod` SECTOR_SIZE = 0 ∧ SECTOR_SIZE ≤ len ∧ SECTOR_SIZE ≤ left) then (len - len `mod` SECTOR_SIZE, SECTOR_SIZE)
  else let t := Z.min (Z.min (SECTOR_SIZE - off `mod` SECTOR_SIZE) len) left in (t, t).

Lemma moved_bounds off len left k c :
  0 < len → 0 < left → moved off len left = (k, c) → 0 < k ≤ len ∧ 0 < c ≤ left ∧ c ≤ k.
Proof.
  intros Hl Hf. unfold moved, SECTOR_SIZE. pose proof (Z.mod_pos_bound off 512). pose proof (Z.mod_pos_bound len 512).
  case_decide as Hd; intros [= <- <-]; [|lia]. pose proof (Z.div_mod len 512). pose proof (Z.div_le_mono 512 len 512).
  change (512 / 512) with 1 in *. lia.
Qed.

Lemma set_blockable_fields b io : address (set_blockable b io) = address io ∧ offset (set_blockable b io) = offset io ∧
  length_remaining (set_blockable b io) = length_remaining io ∧ direction (set_blockable b io) = direction io.
Proof. done. Qed.

Section turn.
Context (file left : Z) (io : transfer) (s : vfs D).
Hypothesis Hready : ready s.
Hypothesis Hdir : direction io = TRANSFER_READ.
Hypothesis Hu : usable (user s) io.
Hypothesis Hfile : 0 ≤ file.
Hypothesis Hlen : 0 < length_remaining io.
Hypothesis Hleft : 0 < left < 2 ^ 32.
Hypothesis Hdisk : file * SECTOR_SIZE + offset io + length_remaining io ≤ size.

Lemma sector_small : i32 (file + offset io / SECTOR_SIZE) = file + offset io / SECTOR_SIZE ∧
  i32 ((file + offset io / SECTOR_SIZE) * SECTOR_SIZE) = (file + offset io / SECTOR_SIZE) * SECTOR_SIZE ∧
  i32 (offset io `mod` SECTOR_SIZE) = offset io `mod` SECTOR_SIZE ∧
  (file + offset io / SECTOR_SIZE) * SECTOR_SIZE + offset io `mod` SECTOR_SIZE = file * SECTOR_SIZE + offset io.
Proof.
  destruct disk_whole as [_ Hsz]. pose proof (us_offset _ _ Hu). unfold SECTOR_SIZE in *.
  pose proof (Z.div_mod (offset io) 512). pose proof (Z.mod_pos_bound (offset io) 512).
  rewrite !i32_small by lia. lia.
Qed.

(** Whole sectors go straight into the buffer of the caller. *)
Lemma turn_direct fuel :
  offset io `mod` SECTOR_SIZE = 0 ∧ SECTOR_SIZE ≤ length_remaining io ∧ SECTOR_SIZE ≤ left →
  ∃ b x m', let s' := with_drv x (with_user m' s) in let k := length_remaining io - length_remaining io `mod` SECTOR_SIZE in
    demofs_read_file_loop local (S fuel) fs file left io s =
      demofs_read_file_loop local fuel fs file (left - SECTOR_SIZE) (set_blockable b (advance io k)) s' ∧
    ready s' ∧ delivered (user s) m' (address io) k (file * SECTOR_SIZE + offset io).
Proof.
  intros Hd. destruct sector_small as (E1 & E2 & E3 & E4). destruct disk_whole as [_ Hsz].
  cbn [demofs_read_file_loop]. rewrite decide_False by lia. rewrite E1, E2, E3, decide_True by done.
  destruct Hd as (Ha & Hl & Hf). rewrite Ha, Z.add_0_r in E4. rewrite E4. pose proof Hu as [].
  repeat change (offset (set_length ?n io)) with (offset io).
  assert (i32 (file * SECTOR_SIZE + offset io - offset io) = file * SECTOR_SIZE) as ->.
  { rewrite i32_small; unfold SECTOR_SIZE in *; lia. }
  pose proof (Z.mod_pos_bound (length_remaining io) SECTOR_SIZE ltac:(done)) as Hm.
  rewrite (i32_small (length_remaining io `mod` SECTOR_SIZE)) by (unfold SECTOR_SIZE in *; lia).
  set (r := length_remaining io `mod` SECTOR_SIZE) in *. set (k := length_remaining io - r).
  set (io1 := set_offset _ _).
  assert (io1 = Transfer (address io) k (file * SECTOR_SIZE + offset io) TRANSFER_READ (type io) (blockable io)) as Eio1.
  { unfold io1, set_offset, set_length. cbn. rewrite Hdir. rewrite !u64_small by (unfold is_u64, SECTOR_SIZE in *; lia).
    f_equal. lia. }
  assert (k `mod` SECTOR_SIZE = 0) as Hk.
  { unfold k, r. rewrite Zminus_mod_idemp_r, Z.sub_diag. done. }
  assert (0 < k) as Hk0 by lia.
  assert (usable (user s) io1) as Hu1.
  { rewrite Eio1. split; cbn; try (unfold SECTOR_SIZE in *; lia). intros Ht. destruct (us_user Ht) as [[U1 U2] Hp].
    split; [split; lia|]. unfold to_user, is_write in *. cbn. rewrite Hdir in Hp. intros p Hpp. apply Hp.
    split; [lia|]. etransitivity; [apply Hpp|]. apply Z.div_le_mono; unfold ARCH_PAGE_SIZE; lia. }
  destruct (disk_reads s io1 Hready) as (b & x & E & Hr'); [by rewrite Eio1|done|by rewrite Eio1..| | |].
  { rewrite Eio1. cbn. rewrite Z.add_comm, Z_mod_plus_full. done. }
  { rewrite Eio1. cbn. lia. }
  exists b, x, (Memory (vas_entries (user s)) (store_bytes (bytes (user s)) (address io1)
    (load_bytes image (offset io1) (Z.to_nat (length_remaining io1))))).
  split; [|split; [exact Hr'|]].
  - unfold read_disk. rewrite (M_bind_done _ _ _ ((0, set_blockable b (advance io1 (length_remaining io1))))
      (with_drv x (with_user (Memory (vas_entries (user s)) (store_bytes (bytes (user s)) (address io1)
    (load_bytes image (offset io1) (Z.to_nat (length_remaining io1))))) s))).
    2: { rewrite Hfs. by rewrite (M_bind_done _ _ _ _ _ E). }
    rewrite decide_False by lia. rewrite u32_small by (unfold is_u32, SECTOR_SIZE in *; lia). f_equal.
    rewrite (advance_run (user s) io1) by (done || (rewrite Eio1; simpl; lia)). rewrite (advance_run (user s) io) by (done || lia).
    rewrite Eio1. unfold set_offset, set_length, set_blockable. cbn.
    rewrite Hdir. rewrite !u64_small by (unfold is_u64, SECTOR_SIZE in *; lia). f_equal; lia.
  - rewrite Eio1. cbn [address length_remaining offset]. apply delivered_store. lia.
Qed.

(** Part of a sector goes through the local array. *)
Lemma turn_partial fuel :
  ¬ (offset io `mod` SECTOR_SIZE = 0 ∧ SECTOR_SIZE ≤ length_remaining io ∧ SECTOR_SIZE ≤ left) →
  ∃ x m', let s' := with_drv x (with_user m' s) in
    let t := Z.min (Z.min (SECTOR_SIZE - offset io `mod` SECTOR_SIZE) (length_remaining io)) left in
    demofs_read_file_loop local (S fuel) fs file left io s =
      demofs_read_file_loop local fuel fs file (left - t) (advance io t) s' ∧
    ready s' ∧ delivered (user s) m' (address io) t (file * SECTOR_SIZE + offset io).
Proof.
  intros Hd. destruct sector_small as (E1 & E2 & E3 & E4). destruct disk_whole as [Hw Hsz].
  cbn [demofs_read_file_loop]. rewrite decide_False by lia. rewrite E1, E2, E3, decide_False by done.
  pose proof Hu as [].
  assert (0 ≤ offset io / SECTOR_SIZE) as Hq by (apply Z.div_pos; [lia|done]).
  set (o := (file + offset io / SECTOR_SIZE) * SECTOR_SIZE) in *.
  assert (0 ≤ o < 2 ^ 31 ∧ o `mod` SECTOR_SIZE = 0 ∧ o + SECTOR_SIZE ≤ size) as (Ho & Hom & Hos).
  { pose proof (Z.mod_pos_bound (offset io) SECTOR_SIZE ltac:(done)).
    split; [split; [unfold o, SECTOR_SIZE in *; lia|unfold SECTOR_SIZE in *; lia]|]. split; [unfold o; by rewrite Z_mod_mult|].
    assert (o < size) as Hlt by lia. clear -Hlt Hw. unfold o, SECTOR_SIZE in *. Z.to_euclidean_division_equations. lia. }
  destruct (read_local_run s o Hready ltac:(lia) Hom Hos) as (io1 & x & m1 & E & Hr1 & He1 & Hb1 & Hrest1).
  rewrite u64_small by (unfold is_u64, SECTOR_SIZE in *; lia). unfold read_disk at 1.
  set (s1 := with_drv x (with_user m1 s)).
  rewrite (M_bind_done _ _ _ (0, io1) s1) by (rewrite Hfs; by rewrite (M_bind_done _ _ _ _ _ E)).
  rewrite decide_False by lia.
  rewrite (M_bind_done (local_array local) _ s1 (load_bytes (bytes m1) local 512) s1) by done. rewrite Hb1.
  set (t := Z.min _ left). set (j := offset io `mod` SECTOR_SIZE) in *.
  pose proof (Z.mod_pos_bound (offset io) SECTOR_SIZE ltac:(done)) as Hj. fold j in Hj.
  assert (0 < t ≤ length_remaining io ∧ t ≤ SECTOR_SIZE - j ∧ t ≤ left) as (Ht & Htj & Htl) by lia.
  rewrite (u32_small t) by (unfold is_u32, SECTOR_SIZE in *; lia). rewrite drop_load_bytes.
  assert (512 - Z.to_nat j = Z.to_nat (SECTOR_SIZE - j))%nat as -> by (unfold SECTOR_SIZE in *; lia).
  rewrite (Z2Nat.id j), E4 by lia. set (src := file * SECTOR_SIZE + offset io) in *.
  pose proof (chunk_run m1 io (load_bytes image src (Z.to_nat (SECTOR_SIZE - j))) t
    (usable_entries _ _ _ Hu He1) ltac:(lia) ltac:(lia) ltac:(rewrite length_load_bytes; lia)) as Ec.
  unfold is_write in Ec. rewrite Hdir, take_load_bytes in Ec by lia.
  set (m2 := Memory (vas_entries m1) (store_bytes (bytes m1) (address io) (load_bytes image src (Z.to_nat t)))) in *.
  exists x, m2. split; [|split].
  - rewrite (M_bind_done _ _ s1 (0, load_bytes image src (Z.to_nat (SECTOR_SIZE - j)), advance io t) (with_user m2 s1)).
    + by rewrite u32_small by (unfold is_u32 in *; lia).
    + unfold on_user. change (user s1) with m1. by rewrite Ec.
  - exact (ready_memory s1 m2 Hr1 eq_refl).
  - destruct (delivered_store m1 (address io) t src) as [_ Hb Hrest]; [lia|]. split; [done|done|].
    intros b Hb1' Hb2. rewrite Hrest by done. by apply Hrest1.
Qed.
End turn.

(** ** The loop *)
Fixpoint amount (fuel : nat) (off len left : Z) : Z :=
  if decide (len = 0 ∨ left = 0) then 0 else
  match fuel with
  | O => 0
  | S fuel => (moved off len left).1 + amount fuel (off + (moved off len left).1) (len - (moved off len left).1)
                                                  (left - (moved off len left).2)
  end.
Fixpoint settled (fuel : nat) (off len left : Z) : Prop :=
  if decide (len = 0 ∨ left = 0) then True else
  match fuel with
  | O => False
  | S fuel => settled fuel (off + (moved off len left).1) (len - (moved off len left).1) (left - (moved off len left).2)
  end.

Lemma amount_bounds fuel off len left : 0 ≤ len → 0 ≤ left → 0 ≤ amount fuel off len left ≤ len.
Proof.
  revert off len left. induction fuel as [|fuel IH]; intros off len left Hl Hf; simpl;
    (destruct (decide (len = 0 ∨ left = 0)) as [|Hn]; [lia|]); [lia|].
  destruct (moved off len left) as [k c] eqn:E. destruct (moved_bounds off len left k c) as (H1 & H2 & H3); [lia..|done|].
  simpl. specialize (IH (off + k) (len - k) (left - c)). lia.
Qed.

(** One turn, either way. *)
Lemma turn_run file left io s fuel :
  ready s → direction io = TRANSFER_READ → usable (user s) io → 0 ≤ file → 0 < length_remaining io →
  0 < left < 2 ^ 32 → file * SECTOR_SIZE + offset io + length_remaining io ≤ size →
  ∃ b x m', let s' := with_drv x (with_user m' s) in let mv := moved (offset io) (length_remaining io) left in
    demofs_read_file_loop local (S fuel) fs file left io s =
      demofs_read_file_loop local fuel fs file (left - mv.2) (set_blockable b (advance io mv.1)) s' ∧
    ready s' ∧ delivered (user s) m' (address io) mv.1 (file * SECTOR_SIZE + offset io).
Proof.
  intros Hr Hd Hu Hf Hl Hlf Hs. unfold moved. case_decide as H.
  - by apply turn_direct.
  - destruct (turn_partial file left io s Hr Hd Hu Hf Hl Hlf Hs fuel H) as (x & m' & E & Hr' & Hdel).
    exists (blockable io), x, m'. split; [|done]. rewrite E. f_equal.
Qed.

Lemma with_same s : with_drv (drv s) (with_user (user s) s) = s.
Proof. by destruct s. Qed.

Lemma loop_run fuel file left io s :
  settled fuel (offset io) (length_remaining io) left →
  ready s → direction io = TRANSFER_READ → usable (user s) io → 0 ≤ file → 0 ≤ left < 2 ^ 32 →
  file * SECTOR_SIZE + offset io + length_remaining io ≤ size → apart (address io) (length_remaining io) →
  ∃ b x m', let s' := with_drv x (with_user m' s) in let n := amount fuel (offset io) (length_remaining io) left in
    demofs_read_file_loop local fuel fs file left io s = Done ((0, set_blockable b (advance io n)), s') ∧
    ready s' ∧ delivered (user s) m' (address io) n (file * SECTOR_SIZE + offset io).
Proof.
  revert left io s. induction fuel as [|fuel IH]; intros left io s Hset Hr Hd Hu Hf Hlf Hs Hap.
  - cbn in Hset |- *. destruct (decide (length_remaining io = 0 ∨ left = 0)) as [|]; [|done].
    exists (blockable io), (drv s), (user s). cbn zeta. rewrite with_same, (advance_zero (user s)) by done.
    split; [by destruct io|]. split; [done|apply delivered_nothing].
  - destruct (decide (length_remaining io = 0 ∨ left = 0)) as [Hstop|Hgo].
    { cbn. rewrite !decide_True by done. exists (blockable io), (drv s), (user s). cbn zeta.
      rewrite with_same, (advance_zero (user s)) by done. split; [by destruct io|]. split; [done|apply delivered_nothing]. }
    pose proof (us_length _ _ Hu).
    destruct (turn_run file left io s fuel Hr Hd Hu Hf ltac:(lia) ltac:(lia) Hs) as (b & x & m1 & E & Hr1 & Hdel).
    cbn [amount settled] in *. rewrite decide_False in Hset by done. rewrite decide_False by done.
    destruct (moved (offset io) (length_remaining io) left) as [k c] eqn:Em. cbn [fst snd] in *.
    destruct (moved_bounds (offset io) (length_remaining io) left k c ltac:(lia) ltac:(lia) Em) as (Hk & Hc & _).
    set (io1 := set_blockable b (advance io k)) in *.
    assert (address io1 = address io + k ∧ offset io1 = offset io + k ∧ length_remaining io1 = length_remaining io - k) as (Ea & Eo & El).
    { unfold io1. rewrite (advance_run (user s)) by (done || lia). done. }
    assert (usable m1 io1) as Hu1.
    { apply set_blockable_usable. apply (advance_usable (user s)); [done|lia|apply Hdel]. }
    destruct (IH (left - c) io1 (with_drv x (with_user m1 s))) as (b2 & x2 & m2 & E2 & Hr2 & Hdel2).
    { by rewrite Eo, El. } { done. } { done. } { exact Hu1. } { done. } { lia. } { lia. } { unfold apart in *. lia. }
    rewrite Eo, El in E2, Hdel2. set (n2 := amount fuel _ _ _) in *.
    pose proof (amount_bounds fuel (offset io + k) (length_remaining io - k) (left - c) ltac:(lia) ltac:(lia)) as Hn2.
    fold n2 in Hn2. exists b2, x2, m2. split; [|split; [exact Hr2|]].
    + rewrite E, E2. unfold io1. rewrite advance_blockable, (advance_advance (user s)) by (done || lia). done.
    + rewrite Ea, Z.add_assoc in Hdel2. apply (delivered_trans _ m1); [lia|lia|unfold apart in *; lia|done|exact Hdel2].
Qed.

(** ** How much is read *)
Lemma mod_sum_sector off : off `mod` SECTOR_SIZE ≠ 0 → (off + (SECTOR_SIZE - off `mod` SECTOR_SIZE)) `mod` SECTOR_SIZE = 0.
Proof. unfold SECTOR_SIZE. intros. Z.to_euclidean_division_equations. lia. Qed.

Lemma amount_stop fuel off len left : len = 0 ∨ left = 0 → settled fuel off len left ∧ amount fuel off len left = 0.
Proof. intros. destruct fuel; cbn [settled amount]; by rewrite !decide_True. Qed.
Lemma amount_go fuel off len left k c :
  len ≠ 0 → left ≠ 0 → moved off len left = (k, c) →
  (settled fuel (off + k) (len - k) (left - c) → settled (S fuel) off len left) ∧
  amount (S fuel) off len left = k + amount fuel (off + k) (len - k) (left - c).
Proof. intros Hl Hf Hm. cbn [settled amount]. rewrite !decide_False by tauto. by rewrite Hm. Qed.

(** The turn that ends in the last sector. *)
Lemma last_amount fuel off len left :
  off `mod` SECTOR_SIZE = 0 → 0 ≤ len → 0 ≤ left → len < SECTOR_SIZE ∨ left < SECTOR_SIZE →
  settled (S fuel) off len left ∧ amount (S fuel) off len left = Z.min len left.
Proof.
  intros Ha Hl Hf Hs. destruct (decide (len = 0 ∨ left = 0)) as [H0|H0].
  { destruct (amount_stop (S fuel) off len left H0). split; [done|lia]. }
  set (t := Z.min len left). destruct (amount_go fuel off len left t t) as [H1 H2]; [tauto..| |].
  { unfold moved. rewrite decide_False, Ha by lia. f_equal; unfold t, SECTOR_SIZE in *; lia. }
  destruct (amount_stop fuel (off + t) (len - t) (left - t)) as [H3 H4]; [lia|]. rewrite H4 in H2. split; [auto|lia].
Qed.

(** From the start of a sector: at most a run of whole sectors and a rest. *)
Lemma aligned_amount fuel off len left :
  off `mod` SECTOR_SIZE = 0 → 0 ≤ len → 0 ≤ left →
  settled (S (S fuel)) off len left ∧ Z.min len left ≤ amount (S (S fuel)) off len left ∧
  (len ≤ left ∨ len < 2 * SECTOR_SIZE → amount (S (S fuel)) off len left = Z.min len left).
Proof.
  intros Ha Hl Hf. pose proof (Z.mod_pos_bound len SECTOR_SIZE ltac:(done)) as Hm.
  pose proof (Z.div_mod len SECTOR_SIZE ltac:(done)) as Hdm.
  destruct (decide (SECTOR_SIZE ≤ len ∧ SECTOR_SIZE ≤ left)) as [Hd|Hd].
  2: { destruct (last_amount (S fuel) off len left) as [H1 H2]; [done..|lia|]. split; [done|]. lia. }
  set (r := len `mod` SECTOR_SIZE) in *.
  destruct (amount_go (S fuel) off len left (len - r) SECTOR_SIZE) as [H1 H2]; [unfold SECTOR_SIZE in *; lia..| |].
  { unfold moved. by rewrite decide_True. }
  destruct (last_amount fuel (off + (len - r)) (len - (len - r)) (left - SECTOR_SIZE)) as [H3 H4]; [|lia..|].
  { unfold r, SECTOR_SIZE in *. clear -Ha. Z.to_euclidean_division_equations. lia. }
  rewrite H4 in H2. split; [auto|]. unfold SECTOR_SIZE in *. split; [lia|]. intros [H|H]; [lia|].
  assert (len / 512 = 1) by (clear -H Hd; Z.to_euclidean_division_equations; lia). lia.
Qed.

(** Three turns are enough; they read what is asked for and in the file, and what
    is after the file only when at least two sectors are asked for and not there. *)
Lemma read_amount fuel off len left :
  0 ≤ len → 0 ≤ left →
  settled (S (S (S fuel))) off len left ∧ Z.min len left ≤ amount (S (S (S fuel))) off len left ∧
  (len ≤ left ∨ len < 2 * SECTOR_SIZE → amount (S (S (S fuel))) off len left = Z.min len left).
Proof.
  intros Hl Hf. destruct (decide (off `mod` SECTOR_SIZE = 0)) as [Ha|Ha]; [by apply aligned_amount|].
  pose proof (Z.mod_pos_bound off SECTOR_SIZE ltac:(done)) as Hm.
  destruct (decide (len = 0 ∨ left = 0)) as [H0|H0].
  { destruct (amount_stop (S (S (S fuel))) off len left H0) as [H1 H2]. rewrite H2. split; [done|lia]. }
  set (t := Z.min (Z.min (SECTOR_SIZE - off `mod` SECTOR_SIZE) len) left).
  destruct (amount_go (S (S fuel)) off len left t t) as [H1 H2]; [tauto..| |].
  { unfold moved. by rewrite decide_False by tauto. }
  destruct (decide (t = SECTOR_SIZE - off `mod` SECTOR_SIZE)) as [Ht|Ht].
  - destruct (aligned_amount fuel (off + t) (len - t) (left - t)) as (H3 & H4 & H5); [|lia..|].
    { rewrite Ht. by apply mod_sum_sector. }
    rewrite H2. split; [auto|]. split; [lia|]. intros H. rewrite H5 by lia. lia.
  - destruct (amount_stop (S (S fuel)) (off + t) (len - t) (left - t)) as [H3 H4]; [lia|].
    rewrite H2, H4. split; [auto|]. lia.
Qed.

(** C21: reading a file of the file system: whatever part of it is asked for is read,
    within three turns, as the bytes of the disk from its place in the file on, into
    the caller's buffer and nowhere else but the local array; the transfer moves by
    as much. A request of two sectors or more that goes past the end of the file is
    given the bytes after it as well; any other stops at the end. *)
Theorem demofs_read_file_correct (fuel : nat) file file_size io s :
  (3 ≤ fuel)%nat → ready s → direction io = TRANSFER_READ → usable (user s) io → apart (address io) (length_remaining io) →
  0 ≤ file → is_u32 file_size → file * SECTOR_SIZE + offset io + length_remaining io ≤ size →
  let left := Z.max 0 (file_size - offset io) in
  ∃ b n x m', let s' := with_drv x (with_user m' s) in
    demofs_read_file local fuel fs file file_size io s = Done ((0, set_blockable b (advance io n)), s') ∧ ready s' ∧
    delivered (user s) m' (address io) n (file * SECTOR_SIZE + offset io) ∧
    Z.min (length_remaining io) left ≤ n ≤ length_remaining io ∧
    (length_remaining io ≤ left ∨ length_remaining io < 2 * SECTOR_SIZE → n = Z.min (length_remaining io) left).
Proof.
  intros Hfuel Hr Hd Hu Hap Hf Hsz Hs left. pose proof (us_length _ _ Hu). pose proof (us_offset _ _ Hu).
  unfold demofs_read_file, is_u32 in *. destruct (decide (file_size ≤ offset io)) as [Hend|Hin].
  - exists (blockable io), 0, (drv s), (user s). cbn zeta. rewrite with_same, (advance_zero (user s)) by done.
    split; [by destruct io|]. split; [done|]. split; [apply delivered_nothing|]. lia.
  - rewrite u32_small by (unfold is_u32; lia). replace (file_size - offset io) with left by lia.
    destruct fuel as [|[|[|fuel]]]; try lia.
    destruct (read_amount fuel (offset io) (length_remaining io) left) as (H1 & H2 & H3); [lia..|].
    pose proof (amount_bounds (S (S (S fuel))) (offset io) (length_remaining io) left).
    destruct (loop_run (S (S (S fuel))) file left io s H1 Hr Hd Hu Hf ltac:(lia) Hs Hap) as (b & x & m' & E & Hr' & Hdel).
    exists b, (amount (S (S (S fuel))) (offset io) (length_remaining io) left), x, m'.
    split; [exact E|]. split; [exact Hr'|]. split; [exact Hdel|]. lia.
Qed.
End read.
