(* ===== verification/DemoFsFollow.v ===== *)
(** * Looking up a name in a directory of the demo file system *)

From S2P Require Import Prelude Physical Transfer Buffers Vnode Vfs DemoFs DemoFsRead.

(** ** Directories on the disk

    A directory is a chain of sectors: a header, the number of the next sector, and
    fifteen records of 32 bytes, the list of which a zero byte ends. *)
Record entry := Entry { e_name : list Z; e_inode : Z; e_length : Z }.

Definition at_ (l : list Z) (i : nat) : Z := default 0 (l !! i).
Definition number (l : list Z) (i : nat) : Z := at_ l i + 2 ^ 8 * at_ l (i + 1) + 2 ^ 16 * at_ l (i + 2).

Definition entry_of (r : list Z) : entry :=
  let dir := Z.odd (at_ r 31) in
  {| e_name := until_zero (take 24 r);
     e_inode := number r 28 + (if dir then 2 ^ 31 else 0);
     e_length := if dir then 0 else number r 24 + 2 ^ 24 * at_ r 27 |}.

(** The entries up to the first zero byte, and whether there was one. *)
Fixpoint entries_of (rs : list (list Z)) : list entry * bool :=
  match rs with
  | [] => ([], false)
  | r :: rs => if decide (at_ r 0 = 0) then ([], true) else let '(l, e) := entries_of rs in (entry_of r :: l, e)
  end.

(** [n] records of the sector [b] from the [i]th on. *)
Fixpoint records (b : list Z) (i n : nat) : list (list Z) :=
  match n with O => [] | S n => take 32 (drop (i * 32) b) :: records b (S i) n end.

(** The directory that starts at sector [sec] of [image], if its at most [n] sectors
    are on the disk and have a header. *)
Fixpoint dir_listing (image : gmap Z Z) (size : Z) (n : nat) (sec : Z) : option (list entry) :=
  match n with
  | O => None
  | S n =>
    let b := load_bytes image (sec * SECTOR_SIZE) 512 in
    let '(l, ended) := entries_of (records b 1 15) in
    if decide (¬ (0 ≤ sec ∧ sec * SECTOR_SIZE + SECTOR_SIZE ≤ size)) then None else
    if decide (at_ b 0 ≠ 0xFF ∧ at_ b 0 ≠ 0xFE) then None else
    if decide (ended = true ∨ at_ b 0 = 0xFF) then Some l
    else (l ++.) <$> dir_listing image size n (number b 1)
  end.

Definition find_entry (name : list Z) (l : list entry) : option entry := snd <$> list_find (λ e, e_name e = name) l.

Lemma find_entry_cons name e l : find_entry name (e :: l) = if decide (e_name e = name) then Some e else find_entry name l.
Proof.
  unfold find_entry. cbn [list_find]. destruct (decide (e_name e = name)); [done|].
  by destruct (list_find (λ e, e_name e = name) l) as [[? ?]|].
Qed.
Lemma find_entry_app name l l' :
  find_entry name (l ++ l') = match find_entry name l with Some e => Some e | None => find_entry name l' end.
Proof. induction l as [|e l IH]; [done|]. cbn [app]. rewrite !find_entry_cons, IH. by destruct (decide (e_name e = name)). Qed.

(** ** Bytes and names *)
Lemma or_low a b k : 0 ≤ k → 0 ≤ a < 2 ^ k → Z.lor a (b * 2 ^ k) = a + b * 2 ^ k.
Proof.
  intros Hk Ha. pose proof (Z.add_lor_land a (b * 2 ^ k)) as H. cut (Z.land a (b * 2 ^ k) = 0); [lia|]. clear H.
  apply Z.bits_inj'. intros n Hn. rewrite Z.land_spec, Z.bits_0, andb_false_iff.
  destruct (decide (n < k)); [right; by apply Z.mul_pow2_bits_low|left].
  rewrite <- (Z.mod_small a (2 ^ k)) by lia. apply Z.mod_pow2_bits_high. lia.
Qed.
Lemma or_high a b k : 0 ≤ k → 0 ≤ a < 2 ^ k → Z.lor a (Z.shiftl b k) = a + b * 2 ^ k.
Proof. intros. rewrite Z.shiftl_mul_pow2 by done. by apply or_low. Qed.

Lemma or_bytes x y z : is_u8 x → is_u8 y → is_u8 z →
  Z.lor (Z.lor x (Z.shiftl y 8)) (Z.shiftl z 16) = x + 2 ^ 8 * y + 2 ^ 16 * z.
Proof.
  unfold is_u8. intros Hx Hy Hz. rewrite !Z.shiftl_mul_pow2 by done.
  rewrite (or_low x y 8) by lia. rewrite or_low by lia. lia.
Qed.

Lemma strncmp_name (n : nat) name s :
  0 ∉ name → (length name ≤ n ≤ length s)%nat →
  ∃ r, strncmp n (name ++ [0]) s = Some r ∧ (r = 0 ↔ until_zero (take n s) = name).
Proof.
  revert name s. induction n as [|n IH]; intros name s H0 Hlen.
  { destruct name; [|simpl in Hlen; lia]. exists 0. done. }
  destruct s as [|d s]; [simpl in Hlen; lia|]. destruct name as [|c name]; cbn [app strncmp take until_zero].
  - rewrite decide_False by tauto. exists (0 - d). split; [done|]. destruct (decide (d = 0)); [|naive_solver lia].
    split; [done|lia].
  - apply not_elem_of_cons in H0 as [Hc H0]. destruct (decide (c ≠ 0 ∧ c = d)) as [[_ <-]|Hne].
    + destruct (IH name s H0 ltac:(simpl in *; lia)) as (r & E & Hr). exists r. split; [done|].
      rewrite decide_False by done. rewrite Hr. split; [by intros ->|by intros [=]].
    + exists (c - d). split; [done|]. assert (c ≠ d) by (intros ->; apply Hne; split; [by apply not_eq_sym|done]).
      destruct (decide (d = 0)) as [->|]; split; intros E; try lia; [done|]. injection E as ->. done.
Qed.

Section entries.
Context {D : Type} {AL : Allocator} {LOW : Drivers D}.
Implicit Types (s : vfs D) (b r : list Z).

Lemma at_record b (i k : nat) : (k < 32)%nat → at_ (take 32 (drop (i * 32) b)) k = at_ b (i * 32 + k).
Proof. intros. unfold at_. by rewrite lookup_take_lt, lookup_drop by lia. Qed.
Lemma number_record b (i k : nat) : (k + 2 < 32)%nat → number (take 32 (drop (i * 32) b)) k = number b (i * 32 + k).
Proof. intros. unfold number. rewrite !at_record by lia. by rewrite !Nat.add_assoc. Qed.

Lemma sector_byte_run b (i : nat) s : (i < length b)%nat → rd b i s = Done (at_ b i, s).
Proof.
  intros Hi. unfold rd, at_. rewrite aget_nat. destruct (b !! i) eqn:E; [done|]. apply lookup_ge_None in E. lia.
Qed.

Definition all_bytes (b : list Z) : Prop := ∀ i, is_u8 (at_ b i).

Lemma read_sector_number_run b (i : nat) s : all_bytes b → (i + 2 < length b)%nat →
  read_sector_number b i s = Done (number b i, s).
Proof.
  intros Hb Hi. unfold read_sector_number. rewrite (M_bind_done _ _ _ _ _ (sector_byte_run b i s ltac:(lia))).
  replace (Z.of_nat i + 1) with (Z.of_nat (i + 1)) by lia. replace (Z.of_nat i + 2) with (Z.of_nat (i + 2)) by lia.
  rewrite (M_bind_done _ _ _ _ _ (sector_byte_run b (i + 1) s ltac:(lia))), (M_bind_done _ _ _ _ _ (sector_byte_run b (i + 2) s ltac:(lia))).
  by rewrite or_bytes by apply Hb.
Qed.

Lemma read_length_run b (i : nat) s : all_bytes b → (i + 3 < length b)%nat →
  read_length b i s = Done (number b i + 2 ^ 24 * at_ b (i + 3), s).
Proof.
  intros Hb Hi. unfold read_length. rewrite (M_bind_done _ _ _ _ _ (read_sector_number_run b i s Hb ltac:(lia))).
  replace (Z.of_nat i + 3) with (Z.of_nat (i + 3)) by lia. rewrite (M_bind_done _ _ _ _ _ (sector_byte_run b (i + 3) s ltac:(lia))).
  unfold mret, M_mret. do 2 f_equal. pose proof (Hb i). pose proof (Hb (i + 1)%nat). pose proof (Hb (i + 2)%nat).
  pose proof (Hb (i + 3)%nat). unfold is_u8, number in *.
  pose proof (or_high (at_ b i + 2 ^ 8 * at_ b (i + 1) + 2 ^ 16 * at_ b (i + 2)) (at_ b (i + 3)) 24) as E.
  rewrite E by lia. lia.
Qed.

Lemma number_range b i : all_bytes b → 0 ≤ number b i < 2 ^ 24.
Proof.
  intros Hb. pose proof (Hb i). pose proof (Hb (i + 1)%nat). pose proof (Hb (i + 2)%nat). unfold is_u8, number in *. lia.
Qed.

Lemma odd_flag x : Z.land x 1 ≠ 0 ↔ Z.odd x = true.
Proof. pose proof (Z.land_ones x 1 ltac:(done)) as E. change (Z.ones 1) with 1 in E. rewrite E. change (2 ^ 1) with 2. rewrite Zmod_odd. by destruct (Z.odd x). Qed.

(** The records of one sector. *)
Lemma follow_entries_run (n i : nat) b name ch ln s :
  all_bytes b → length b = 512%nat → (i + n ≤ 16)%nat → 0 ∉ name → (length name ≤ 24)%nat →
  follow_entries n i b name ch ln s =
    Done (match find_entry name (entries_of (records b i n)).1 with
          | Some e => Some (0, e_inode e, e_length e)
          | None => if (entries_of (records b i n)).2 then Some (ENOENT, ch, ln) else None
          end, s).
Proof.
  intros Hb Hl. revert i. induction n as [|n IH]; intros i Hi H0 Hname; [done|]. cbn [follow_entries records entries_of].
  replace (Z.of_nat i * 32) with (Z.of_nat (i * 32)) by lia.
  rewrite (M_bind_done _ _ _ _ _ (sector_byte_run b (i * 32) s ltac:(lia))), (at_record b i 0), Nat.add_0_r by lia.
  destruct (decide (at_ b (i * 32) = 0)) as [Hz|Hnz]; [done|]. rewrite Nat2Z.id.
  destruct (strncmp_name 24 name (drop (i * 32) b) H0) as (r & Er & Hr); [rewrite length_drop; lia|].
  change (Z.to_nat MAX_NAME_LENGTH) with 24%nat. rewrite Er. rewrite (M_bind_done (deref (Some r)) _ s r s) by done.
  specialize (IH (S i) ltac:(lia) H0 Hname).
  destruct (entries_of (records b (S i) n)) as [l ended]. cbn [fst snd] in *. rewrite find_entry_cons.
  set (rec := take 32 (drop (i * 32) b)) in *.
  assert (e_name (entry_of rec) = until_zero (take 24 (drop (i * 32) b))) as Hn.
  { unfold entry_of, rec. cbn [e_name]. by rewrite take_take. }
  destruct (decide (e_name (entry_of rec) = name)) as [He|He].
  - rewrite decide_True by (rewrite Hr; congruence).
    replace (Z.of_nat (i * 32) + MAX_NAME_LENGTH + 4) with (Z.of_nat (i * 32 + 28)) by (unfold MAX_NAME_LENGTH; lia).
    replace (Z.of_nat (i * 32) + MAX_NAME_LENGTH + 7) with (Z.of_nat (i * 32 + 31)) by (unfold MAX_NAME_LENGTH; lia).
    replace (Z.of_nat (i * 32) + MAX_NAME_LENGTH) with (Z.of_nat (i * 32 + 24)) by (unfold MAX_NAME_LENGTH; lia).
    rewrite (M_bind_done _ _ _ _ _ (read_sector_number_run b (i * 32 + 28) s Hb ltac:(lia))).
    rewrite (M_bind_done _ _ _ _ _ (sector_byte_run b (i * 32 + 31) s ltac:(lia))).
    pose proof (number_range b (i * 32 + 28) Hb) as Hrange.
    unfold entry_of, rec. cbn [e_inode e_length]. rewrite !at_record, !number_record by lia.
    pose proof (odd_flag (at_ b (i * 32 + 31))) as Hodd.
    destruct (Z.odd (at_ b (i * 32 + 31))) eqn:Eo.
    + rewrite decide_True by (by apply Hodd). unfold INODE_TO_DIR, mret, M_mret.
      change (2 ^ 31) with (1 * 2 ^ 31) at 1. by rewrite or_low by lia.
    + rewrite decide_False by (rewrite Hodd; done).
      rewrite (M_bind_done _ _ _ _ _ (read_length_run b (i * 32 + 24) s Hb ltac:(lia))). rewrite Z.add_0_r.
      by replace (i * 32 + 24 + 3)%nat with (i * 32 + 27)%nat by lia.
  - rewrite decide_False by (rewrite Hr; congruence). replace (Z.of_nat i + 1) with (Z.of_nat (S i)) by lia. exact IH.
Qed.
End entries.

(** ** The chain of sectors *)
Section follow.
Context {D : Type} {AL : Allocator} {LOW : Drivers D}.
Context (d : Z) (image : gmap Z Z) (size : Z) (ready : vfs D → Prop).
Context {DISK : SectorDisk d image size ready}.
Context (local : Z) (fs : demofs) (Hfs : disk fs = d) (Hlocal : 0 < local) (Hlocal_end : local + SECTOR_SIZE < 2 ^ 32).
Hypothesis image_bytes : ∀ a x, image !! a = Some x → is_u8 x.
Implicit Types (s : vfs D).

(** Nothing but the local array and the state of the drivers changed. *)
Definition only_local s s' : Prop :=
  ∃ x m, s' = with_drv x (with_user m s) ∧ vas_entries m = vas_entries (user s) ∧
    ∀ b, ¬ (local ≤ b < local + SECTOR_SIZE) → bytes m !! b = bytes (user s) !! b.

Lemma only_local_refl s : only_local s s.
Proof. exists (drv s), (user s). by rewrite with_same. Qed.
Lemma only_local_trans s1 s2 s3 : only_local s1 s2 → only_local s2 s3 → only_local s1 s3.
Proof.
  intros (x1 & m1 & -> & Hv1 & Hb1) (x2 & m2 & -> & Hv2 & Hb2). exists x2, m2. split; [done|]. cbn [user with_user with_drv] in *.
  split; [congruence|]. intros b Hb. rewrite Hb2 by done. by apply Hb1.
Qed.

Lemma sector_bytes o : all_bytes (load_bytes image o 512).
Proof.
  intros i. unfold at_. destruct (decide (i < 512)%nat).
  - rewrite load_bytes_lookup by done. cbn [default]. unfold load. destruct (image !! (o + i)) eqn:E; [by eapply image_bytes|done].
  - rewrite lookup_ge_None_2 by (rewrite length_load_bytes; lia). done.
Qed.

(** [demofs_read_inode] of a sector of the disk. *)
Lemma read_inode_run inode s :
  let sec := INODE_TO_SECTOR inode in
  ready s → sec * SECTOR_SIZE + SECTOR_SIZE ≤ size →
  ∃ s', demofs_read_inode fs inode local s = Done (0, s') ∧ ready s' ∧ only_local s s' ∧
    load_bytes (bytes (user s')) local 512 = load_bytes image (sec * SECTOR_SIZE) 512.
Proof.
  intros sec Hr Hs. destruct (disk_whole (SectorDisk := DISK)) as [_ Hsz].
  assert (0 ≤ sec) as H0 by (apply Z.land_nonneg; right; done).
  destruct (read_local_run d image size ready local Hlocal Hlocal_end s (sec * SECTOR_SIZE) Hr) as (io & x & m & E & Hr' & Hv & Hb & Hrest).
  { unfold SECTOR_SIZE. lia. } { by rewrite Z_mod_mult. } { lia. }
  exists (with_drv x (with_user m s)). split; [|split; [exact Hr'|split; [by exists x, m|exact Hb]]].
  unfold demofs_read_inode. fold sec. rewrite Z.mul_comm, u32_small by (unfold is_u32, SECTOR_SIZE in *; lia).
  rewrite Hfs. by rewrite (M_bind_done _ _ _ _ _ E).
Qed.

Lemma next_sector n : 0 ≤ n < 2 ^ 24 → INODE_TO_SECTOR (INODE_TO_DIR n) = n.
Proof.
  intros Hn. unfold INODE_TO_SECTOR, INODE_TO_DIR. change (2 ^ 31) with (1 * 2 ^ 31). rewrite or_low by lia.
  change 0xFFFFFF with (Z.ones 24). rewrite Z.land_ones by done.
  replace (n + 1 * 2 ^ 31) with (n + 128 * 2 ^ 24) by lia. rewrite Z_mod_plus_full. by apply Z.mod_small.
Qed.

Lemma follow_loop_run (n fuel : nat) inode name ch ln l s :
  ready s → 0 ∉ name → (length name ≤ 24)%nat → (n ≤ fuel)%nat →
  dir_listing image size n (INODE_TO_SECTOR inode) = Some l →
  ∃ s', demofs_follow_loop local fuel fs inode name ch ln s =
      Done (match find_entry name l with Some e => (0, e_inode e, e_length e) | None => (ENOENT, ch, ln) end, s') ∧
    ready s' ∧ only_local s s'.
Proof.
  revert fuel inode l s. induction n as [|n IH]; intros fuel inode l s Hr H0 Hname Hfuel Hdir; [done|].
  destruct fuel as [|fuel]; [lia|]. cbn [dir_listing demofs_follow_loop] in *.
  set (sec := INODE_TO_SECTOR inode) in *. set (b := load_bytes image (sec * SECTOR_SIZE) 512) in *.
  assert (length b = 512%nat) as Hl by apply length_load_bytes. assert (all_bytes b) as Hb by apply sector_bytes.
  pose proof (follow_entries_run (D := D) 15 1 b name ch ln) as Hentries.
  destruct (entries_of (records b 1 15)) as [l1 ended]. cbn [fst snd] in Hentries.
  case_decide as Hrange; [done|]. case_decide as Hhead; [done|].
  destruct (read_inode_run inode s Hr) as (s1 & E1 & Hr1 & Hloc1 & Hb1); [lia|].
  rewrite (M_bind_done _ _ _ _ _ E1). rewrite decide_False by lia.
  rewrite (M_bind_done (local_array local) _ s1 b s1) by (unfold local_array; mred; by rewrite Hb1).
  rewrite (M_bind_done _ _ _ _ _ (sector_byte_run b 0 s1 ltac:(lia))). rewrite (decide_False _ _ Hhead).
  rewrite (M_bind_done _ _ _ _ _ (Hentries s1 Hb Hl ltac:(lia) H0 Hname)).
  destruct (decide (ended = true ∨ at_ b 0 = 0xFF)) as [Hend|Hmore].
  - injection Hdir as ->. exists s1. split; [|done]. destruct (find_entry name l); [done|].
    destruct ended; [done|]. by rewrite decide_True by (destruct Hend; done).
  - destruct (dir_listing image size n (number b 1)) as [l2|] eqn:El; [|done]. injection Hdir as <-.
    rewrite find_entry_app. destruct (find_entry name l1); [by exists s1|].
    assert (at_ b 0 ≠ 0xFF) as Hff by (intros ?; apply Hmore; by right).
    destruct ended; [exfalso; apply Hmore; by left|]. rewrite decide_False, decide_True by lia.
    rewrite (M_bind_done _ _ _ _ _ (read_sector_number_run b 1 s1 Hb ltac:(lia))).
    destruct (IH fuel (INODE_TO_DIR (number b 1)) l2 s1 Hr1 H0 Hname ltac:(lia)) as (s2 & E2 & Hr2 & Hloc2).
    { by rewrite next_sector by by apply number_range. }
    exists s2. split; [exact E2|]. split; [done|by eapply only_local_trans].
Qed.

(** C20: looking up a name finds the first entry of the directory with that name, with
    the number and length the disk has for it, or answers ENOENT; the search ends
    within as many turns as the directory has sectors. A name that is too long and a
    parent that is not a directory are refused, and no memory changes but the local
    array. *)
Theorem demofs_follow_correct (n fuel : nat) inode name ch ln l s :
  ready s → 0 ∉ name → (n ≤ fuel)%nat → dir_listing image size n (INODE_TO_SECTOR inode) = Some l →
  ∃ s', demofs_follow local fuel fs inode name ch ln s =
      Done (if decide (MAX_NAME_LENGTH < length name) then (ENAMETOOLONG, ch, ln)
            else if decide (INODE_IS_DIR inode = 0) then (ENOTDIR, ch, ln)
            else match find_entry name l with
                 | Some e => (0, e_inode e, e_length e)
                 | None => (ENOENT, ch, ln)
                 end, s') ∧ ready s' ∧ only_local s s'.
Proof.
  intros Hr H0 Hfuel Hdir. unfold demofs_follow. rewrite Hfs, bool_decide_eq_true_2 by apply disk_nonnull.
  rewrite (M_bind_done (c_assert true) _ s tt s) by done.
  destruct (decide (MAX_NAME_LENGTH < length name)) as [Hlong|Hshort].
  { exists s. split; [done|]. split; [done|apply only_local_refl]. }
  destruct (decide (INODE_IS_DIR inode = 0)).
  { exists s. split; [done|]. split; [done|apply only_local_refl]. }
  apply (follow_loop_run n); [done..| |done|done]. unfold MAX_NAME_LENGTH in Hshort. lia.
Qed.
End follow.
