(* ===== verification/DemoFsContract.v ===== *)
(** * The demo file system keeps the contract of drivers

    The theorems about opening and closing files ask of the drivers that a lookup
    gives out a reference and that the rest leaves files and vnodes alone
    ([DriverContract]). The demo file system keeps this when the drivers below do. *)

From S2P Require Import Prelude Physical Transfer Buffers Vnode Vfs VfsPaths VfsOpen DemoFs DemoFsRead DemoFsFollow.

(** Reading does not touch the files and vnodes. *)
Class QuietReads {D} (DR : Drivers D) : Prop := {
  read_quiet p n io s r s' : call_read p n io s = Done (r, s') → files s' = files s ∧ vnodes s' = vnodes s;
}.

Section keeps.
Context {D : Type}.
Implicit Types s : vfs D.

(** Calls that leave the files and vnodes alone. *)
Definition keeps {A} (m : M (vfs D) A) : Prop :=
  ∀ s a s', m s = Done (a, s') → files s' = files s ∧ vnodes s' = vnodes s.

Lemma keeps_bind {A B} (m : M (vfs D) A) (k : A → M (vfs D) B) : keeps m → (∀ a, keeps (k a)) → keeps (m ≫= k).
Proof.
  intros Hm Hk s b s' E. apply M_bind_inv in E as (a & s1 & E1 & E2).
  destruct (Hm s a s1 E1), (Hk a s1 b s' E2). split; congruence.
Qed.
Lemma keeps_ret {A} (a : A) : keeps (mret a).
Proof. by intros s b s' [= _ <-]. Qed.
Lemma keeps_get : keeps get.
Proof. by intros s b s' [= _ <-]. Qed.
Lemma keeps_deref {A} (o : option A) : keeps (deref o).
Proof. intros s b s'. destruct o; [by intros [= _ <-]|done]. Qed.
Lemma keeps_assert b : keeps (c_assert b).
Proof. intros s u s'. destruct b; [by intros [= _ <-]|done]. Qed.
Lemma keeps_exhausted {A} : keeps (exhausted (A := A)).
Proof. by intros s b s'. Qed.
Lemma keeps_if {A} (P : Prop) {HP : Decision P} (m1 m2 : M (vfs D) A) : keeps m1 → keeps m2 → keeps (if decide P then m1 else m2).
Proof. intros. by destruct (decide P). Qed.
Lemma keeps_bool {A} (b : bool) (m1 m2 : M (vfs D) A) : keeps m1 → keeps m2 → keeps (if b then m1 else m2).
Proof. by destruct b. Qed.
End keeps.

Create HintDb keeps.
#[export] Hint Resolve keeps_bind keeps_ret keeps_get keeps_deref keeps_assert keeps_exhausted keeps_if keeps_bool : keeps.
#[export] Hint Extern 1 (keeps (let '_ := ?x in _)) => destruct x : keeps.
#[export] Hint Extern 1 (∀ _, keeps _) => intro : keeps.
Ltac keep := eauto 30 with keeps.

Section reads.
Context {D : Type} {AL : Allocator} {DR : Drivers D} {QR : QuietReads DR}.

Lemma get_vnode_keeps n : keeps (get_vnode (D := D) n).
Proof. unfold get_vnode. keep. Qed.
Lemma get_file_keeps f : keeps (get_file (D := D) f).
Proof. unfold get_file. keep. Qed.
Hint Resolve get_vnode_keeps get_file_keeps : keeps.

Lemma ReadFile_keeps f io : keeps (ReadFile f (Some io)).
Proof.
  unfold ReadFile, FileAccess, VnodeOpRead, CheckVnode. cbn [negb andb orb].
  assert (∀ p n io, keeps (call_read p n io)) as Hread by (intros p n x s r s'; apply read_quiet).
  apply keeps_if; [keep|]. apply keeps_bind; [keep|]. intros fl. apply keeps_if; [keep|]. apply keeps_bool; [keep|].
  apply keeps_bind; [keep|]. intros v. apply keeps_bind; [|keep]. apply keeps_bind; [keep|]. intros _.
  apply keeps_bind; [keep|]. intros v2. destruct (direction _); keep.
Qed.
End reads.

Section demofs.
Context {D : Type} {HD : Holds D (gmap Z vnode_data)} {AL : Allocator} {LOW : Drivers D} {QR : QuietReads LOW}.
Context (local : Z).
Hint Resolve get_vnode_keeps get_file_keeps ReadFile_keeps : keeps.

Lemma read_inode_keeps fs inode buffer : keeps (demofs_read_inode fs inode buffer).
Proof. unfold demofs_read_inode. keep. Qed.
Lemma local_array_keeps : keeps (local_array (D := D) local).
Proof. unfold local_array. keep. Qed.
Lemma rd_keeps b i : keeps (rd (D := D) b i).
Proof. unfold rd. keep. Qed.
Hint Resolve read_inode_keeps local_array_keeps rd_keeps : keeps.
Lemma read_sector_number_keeps b i : keeps (read_sector_number (D := D) b i).
Proof. unfold read_sector_number. keep. Qed.
Lemma read_length_keeps b i : keeps (read_length (D := D) b i).
Proof. unfold read_length. apply keeps_bind; [apply read_sector_number_keeps|keep]. Qed.
Hint Resolve read_sector_number_keeps read_length_keeps : keeps.

Lemma follow_entries_keeps n i b name ch ln : keeps (follow_entries (D := D) n i b name ch ln).
Proof.
  revert i. induction n as [|n IH]; intros i; cbn [follow_entries]; [keep|].
  apply keeps_bind; [keep|]. intros c. apply keeps_if; [keep|]. apply keeps_bind; [keep|]. intros r.
  apply keeps_if; [keep|apply IH].
Qed.

Lemma follow_loop_keeps fuel fs prnt name ch ln : keeps (demofs_follow_loop local fuel fs prnt name ch ln).
Proof.
  revert prnt. induction fuel as [|fuel IH]; intros prnt; cbn [demofs_follow_loop]; [keep|].
  apply keeps_bind; [keep|]. intros status. apply keeps_if; [keep|]. apply keeps_bind; [keep|]. intros buffer.
  apply keeps_bind; [keep|]. intros header. apply keeps_if; [keep|].
  apply keeps_bind; [apply follow_entries_keeps|]. intros [r|]; [keep|].
  apply keeps_if; [keep|]. apply keeps_if; [|keep]. apply keeps_bind; [keep|]. intros next. apply IH.
Qed.

Lemma follow_keeps fuel fs prnt name ch ln : keeps (demofs_follow local fuel fs prnt name ch ln).
Proof. unfold demofs_follow. pose proof follow_loop_keeps. keep. Qed.

Lemma get_data_keeps n : keeps (get_data (D := D) n).
Proof. unfold get_data. keep. Qed.
Hint Resolve follow_keeps get_data_keeps : keeps.

Variables p_check_open p_ioctl p_read p_write p_close p_truncate p_create p_follow : Z.
Abbreviation Follow := (Follow local p_check_open p_ioctl p_read p_write p_close p_truncate p_create p_follow).

(** A new vnode and its data. *)
Lemma new_node_run inode size data s :
  ∃ n v s', (child ← CreateDemoFsVnode p_check_open p_ioctl p_read p_write p_close p_truncate p_create p_follow inode size;
             attach (D := D) child data;; mret child) s = Done (n, s') ∧
    files s' = files s ∧ vnodes s !! n = None ∧ vnodes s' = <[n := v]> (vnodes s) ∧ reference_count v = 1.
Proof.
  set (n := pick (live_objects (with_dev_id (dev_id s + 1) s))).
  assert (vnodes s !! n = None) as Hn.
  { apply not_elem_of_dom. intros Hin. apply (pick_fresh (live_objects (with_dev_id (dev_id s + 1) s))).
    unfold live_objects. set_solver. }
  unfold CreateDemoFsVnode, NextDevId, CreateVnode, attach, get_vnode, set_vnode. mred. fold n.
  cbn [vnodes with_vnodes with_nodes with_drv]. rewrite lookup_insert_eq. mred.
  eexists n, _, _. split; [reflexivity|]. cbn [files vnodes with_vnodes with_nodes with_drv with_dev_id].
  rewrite insert_insert_eq. split_and!; done.
Qed.

Lemma Follow_run fuel n name s r m s' :
  Follow fuel n name s = Done ((r, m), s') → files s' = files s ∧
    (r ≠ 0 → vnodes s' = vnodes s) ∧
    (r = 0 → ∃ v, vnodes s' = <[m := v]> (vnodes s) ∧ reference_count v = refs s m + 1).
Proof.
  unfold DemoFs.Follow. intros E. apply M_bind_inv in E as (data & s1 & E1 & E).
  destruct (get_data_keeps n s data s1 E1) as [Hf1 Hv1].
  destruct (vd_directory data); [|by injection E as <- <- <-].
  apply M_bind_inv in E as ([[status child] len] & s2 & E2 & E).
  destruct (follow_keeps _ _ _ _ _ _ s1 _ s2 E2) as [Hf2 Hv2].
  case_decide as Hst.
  - injection E as <- <- <-. split; [congruence|]. split; [congruence|done].
  - set (data' := VnodeData _ _ _ _) in E.
    destruct (new_node_run child len data' s2) as (n2 & v & s3 & E3 & Hf3 & Hnone & Hv3 & Hc).
    apply M_bind_inv in E as (c & s4 & E4 & E). apply M_bind_inv in E as ([] & s5 & E5 & E). injection E as <- <- <-.
    rewrite (M_bind_done _ _ _ _ _ E4), (M_bind_done _ _ _ _ _ E5) in E3. injection E3 as <- <-.
    split; [congruence|]. split; [done|]. intros _. exists v. rewrite Hv3, Hv2, Hv1. split; [done|].
    unfold refs. by rewrite <- Hv1, <- Hv2, Hnone.
Qed.

(** C22: the demo file system, on top of drivers that keep the contract of drivers and
    whose reads leave files and vnodes alone, keeps the contract: what it finds it
    gives out with a reference, and nothing else of it touches files and vnodes. So
    the reference counts of looking up, opening and closing balance on it. *)
Theorem demofs_keeps_contract (fuel : nat) (DC : DriverContract (DR := LOW)) :
  DriverContract
    (DR := demofs_drivers local p_check_open p_ioctl p_read p_write p_close p_truncate p_create p_follow fuel).
Proof.
  split.
  - intros op n name s m s'. cbn. destruct (decide (op = p_follow)); [|by apply follow_found].
    intros E. destruct (Follow_run _ _ _ _ _ _ _ E) as (Hf & _ & Hv). split; [done|by apply Hv].
  - intros op n name s r m s'. cbn. destruct (decide (op = p_follow)); [|by apply follow_not_found].
    intros E Hr. destruct (Follow_run _ _ _ _ _ _ _ E) as (Hf & Hv & _). split; [done|by apply Hv].
  - intros op n flags s r s'. cbn. destruct (decide (op = p_check_open)); [|by apply check_open_pure].
    by intros [= _ <-].
  - intros op n v s Hv. cbn. destruct (decide (op = p_close)); [|by eapply close_returns].
    unfold Close, get_vnode, with_nodes. mred. rewrite Hv. by eexists _, _.
Qed.
End demofs.

(** * The demo file system on a disk in memory *)

(** ** The state: the vnodes of the file system *)
Definition demo : Type := gmap Z vnode_data.
#[local] Instance demo_holds : Holds demo (gmap Z vnode_data).
Proof. refine {| held := id; hold := λ a _, a |}. done. Defined.

(** ** A disk driver

    The disk is file 1 on vnode 2; its driver transfers from the image. *)
Section ram_disk.
Context {D : Type} {AL : Allocator} (image : gmap Z Z).

Definition ram_read (n : Z) (io : transfer) : M (vfs D) (Z * transfer) :=
  let len := length_remaining io in
  '(r, _, io) ← on_user (PerformTransfer (Some (load_bytes image (offset io) (Z.to_nat len))) io len);
  mret (r, io).

#[local] Instance ram_drivers : Drivers D := {|
  call_check_open _ _ _ := mret 0;
  call_read _ := ram_read;
  call_write _ _ io := mret (EROFS, io);
  call_ioctl _ _ _ _ := mret EINVAL;
  call_close _ _ := mret 0;
  call_truncate _ _ _ := mret EROFS;
  call_create _ _ _ _ _ _ := mret (EROFS, junk);
  call_follow _ _ _ := mret (ENOTDIR, junk);
  call_unlink _ _ := mret EROFS;
  call_delete _ _ := mret EROFS;
|}.

Definition disk_file : file := File true false 0 0 0 1 2.
Definition disk_vnode : vnode :=
  Vnode (VnodeOps NULL 100 NULL NULL NULL NULL NULL NULL NULL NULL) NULL 1 (Stat 7 0 0 1 0 512) 0.
Definition disk_open (s : vfs D) : Prop :=
  files s !! 1 = Some disk_file ∧ vnodes s !! 2 = Some disk_vnode.

Lemma set_blockable_advance b io k : set_blockable b (advance io k) = advance (set_blockable b io) k.
Proof. done. Qed.

Lemma ram_disk_reads size s io :
  size < 2 ^ 31 → disk_open s → direction io = TRANSFER_READ → usable (user s) io → 0 < length_remaining io →
  offset io + length_remaining io ≤ size →
  ReadFile 1 (Some io) s = Done ((0, Some (set_blockable true (advance io (length_remaining io)))),
    with_user (Memory (vas_entries (user s)) (store_bytes (bytes (user s)) (address io)
      (load_bytes image (offset io) (Z.to_nat (length_remaining io))))) s).
Proof.
  intros Hsize [Hf Hv] Hd Hu Hlen Hend. unfold ReadFile, FileAccess. pose proof (us_address _ _ Hu).
  rewrite decide_False by (unfold NULL; lia).
  rewrite (M_bind_done _ _ s disk_file s) by (unfold get_file; mred; by rewrite Hf).
  change (node disk_file) with 2. rewrite decide_False by done. cbn [negb andb orb can_read can_write disk_file].
  assert (get_vnode 2 s = Done (disk_vnode, s)) as Eg by (unfold get_vnode; mred; by rewrite Hv).
  rewrite (M_bind_done _ _ _ _ _ Eg).
  rewrite (M_bind_done (VnodeOpRead _ _) _ s (0, (set_blockable true (advance io (length_remaining io))))
    (with_user (Memory (vas_entries (user s)) (store_bytes (bytes (user s)) (address io)
      (load_bytes image (offset io) (Z.to_nat (length_remaining io))))) s)); [done|].
  unfold VnodeOpRead. rewrite (M_bind_done _ _ s tt s).
  2: { unfold CheckVnode. rewrite bool_decide_eq_true_2 by done. rewrite (M_bind_done (c_assert true) _ s tt s) by done.
       by rewrite (M_bind_done _ _ _ _ _ Eg). }
  rewrite (M_bind_done _ _ _ _ _ Eg). cbn [direction set_blockable]. rewrite Hd.
  rewrite decide_False by done. cbn [call_read ram_drivers].
  set (io1 := set_blockable _ io).
  assert (usable (user s) io1) as Hu1 by (by destruct Hu).
  pose proof (chunk_run (user s) io1 (load_bytes image (offset io1) (Z.to_nat (length_remaining io1))) (length_remaining io1) Hu1) as E.
  unfold is_write in E. cbn [direction io1 set_blockable] in E. rewrite Hd in E.
  unfold ram_read, on_user. mred. rewrite E; [|done|done|rewrite length_load_bytes; simpl; lia].
  rewrite take_ge by (rewrite length_load_bytes; lia). done.
Qed.

Lemma ram_disk size (ready : vfs D → Prop) (Hsize : size `mod` SECTOR_SIZE = 0 ∧ size < 2 ^ 31)
  (Hopen : ∀ s, ready s → disk_open s) (Huser : ∀ s m, ready s → ready (with_user m s)) : SectorDisk 1 image size ready.
Proof.
  split; [done|done| |].
  - intros s io Hr Hd Hu Hl _ _ He. exists true, (drv s). split.
    + rewrite (ram_disk_reads size) by (done || apply Hsize || by apply Hopen). by destruct s.
    + set (m := Memory _ _). assert (with_drv (drv s) (with_user m s) = with_user m s) as -> by (by destruct s). by apply Huser.
  - intros s m Hr _. by apply Huser.
Qed.
End ram_disk.

(** ** An image: the signature in sector 8, a directory in sector 9 with one file of 600 bytes in sectors 10 and 11 *)
Definition file_bytes : list Z := (λ i : nat, Z.of_nat i `mod` 251) <$> seq 0 1024.
Definition directory_bytes : list Z :=
  [0xFF] ++ replicate 31 0 ++ [97; 98] ++ replicate 22 0 ++ [88; 2; 0; 0; 10; 0; 0; 0].
Definition image_at (base : Z) : gmap Z Z :=
  store_bytes (store_bytes (store_bytes ∅ (base + 8 * 512) [68; 69; 77; 79]) (base + 9 * 512) directory_bytes)
    (base + 10 * 512) file_bytes.
Definition small_image : gmap Z Z := image_at 0.

Definition start : vfs demo :=
  Vfs {[ 2 := disk_vnode ]} {[ 1 := disk_file ]} ∅ ∅ None false 1 None (Memory ∅ ∅) ∅.

#[local] Existing Instance bump_allocator.
#[local] Instance small_drivers : Drivers demo := ram_drivers small_image.
#[local] Instance small_disk : SectorDisk 1 small_image (12 * SECTOR_SIZE) disk_open :=
  ram_disk small_image (12 * SECTOR_SIZE) disk_open (conj eq_refl eq_refl) (λ _ H, H) (λ _ _ H, H).

Lemma small_image_bytes a x : small_image !! a = Some x → is_u8 x.
Proof.
  assert (map_Forall (λ _ x, 0 ≤ x < 2 ^ 8) small_image) as H by (refine (bool_decide_unpack _ _); vm_compute; exact I).
  intros E. exact (H a x E).
Qed.

Lemma demofs_follow_correct_witness :
  ∃ s', demofs_follow 0x1000 1 (Demofs 1 (Z.lor 9 (2 ^ 31))) (Z.lor 9 (2 ^ 31)) [97; 98] 0 0 start = Done ((0, 10, 600), s').
Proof.
  destruct (demofs_follow_correct 1 small_image (12 * SECTOR_SIZE) disk_open 0x1000 (Demofs 1 (Z.lor 9 (2 ^ 31)))
    eq_refl ltac:(lia) ltac:(unfold SECTOR_SIZE; lia) small_image_bytes 1 1 (Z.lor 9 (2 ^ 31)) [97; 98] 0 0
    [Entry [97; 98] 10 600] start) as (s' & E & _).
  - done.
  - set_solver by lia.
  - done.
  - vm_compute. reflexivity.
  - exists s'. exact E.
Defined.

(** 200 bytes of the file from byte 500 on: 100 are left. *)
Lemma demofs_read_file_correct_witness :
  ∃ b n s', demofs_read_file 0x1000 3 (Demofs 1 (Z.lor 9 (2 ^ 31))) 10 600
      (CreateKernelTransfer 0x2000 200 500 TRANSFER_READ) start =
    Done ((0, set_blockable b (advance (CreateKernelTransfer 0x2000 200 500 TRANSFER_READ) n)), s') ∧ n = 100.
Proof.
  destruct (demofs_read_file_correct 1 small_image (12 * SECTOR_SIZE) disk_open 0x1000 (Demofs 1 (Z.lor 9 (2 ^ 31)))
    eq_refl ltac:(lia) ltac:(unfold SECTOR_SIZE; lia) 3 10 600 (CreateKernelTransfer 0x2000 200 500 TRANSFER_READ) start)
    as (b & n & x & m' & E & _ & _ & _ & Hn).
  - done.
  - done.
  - done.
  - split; simpl; try lia. discriminate.
  - right. unfold SECTOR_SIZE. simpl. lia.
  - done.
  - done.
  - unfold SECTOR_SIZE. simpl. lia.
  - exists b, n. eexists. split; [exact E|]. rewrite Hn by (simpl; unfold SECTOR_SIZE; lia). reflexivity.
Defined.

(** ** The contract of drivers *)
Lemma on_user_keeps {D A} (m : M memory A) : keeps (D := D) (on_user m).
Proof. intros s a s'. unfold on_user. destruct (m (user s)) as [[b x]| | | |]; [by intros [= _ <-]|done..]. Qed.

#[local] Instance small_quiet : QuietReads small_drivers.
Proof.
  split. intros p n io s r s'. revert s r s'. change (keeps (D := demo) (ram_read small_image n io)). unfold ram_read.
  apply keeps_bind; [apply on_user_keeps|keep].
Qed.

Lemma small_contract : DriverContract (DR := small_drivers).
Proof.
  split.
  - by intros op n name s m s'.
  - by intros op n name s r m s' [= _ _ <-].
  - by intros op n flags s r s' [= _ <-].
  - intros op n v s _. exists 0, (drv s). by destruct s.
Qed.

Lemma demofs_keeps_contract_witness :
  DriverContract (DR := demofs_drivers (LOW := small_drivers) 0x1000 1 2 3 4 5 6 7 8 100).
Proof. exact (demofs_keeps_contract 0x1000 1 2 3 4 5 6 7 8 100 small_contract). Defined.

(** ** From the disk to a file: mount, look up, read *)
Definition all_drivers : Drivers demo := demofs_drivers (LOW := small_drivers) 0x1000 1 2 3 4 5 6 7 8 100.

Definition mount_and_read : M (vfs demo) (list Z * Z) :=
  '(_, root) ← DemofsMountCreator 1 2 3 4 5 6 7 8 0x3000 1 NULL;
  fl ← get_file root;
  '(_, n) ← VnodeOpFollow (Drivers0 := all_drivers) (node fl) [97; 98];
  '(_, io) ← VnodeOpRead (Drivers0 := all_drivers) n (CreateKernelTransfer 0x2000 8 498 TRANSFER_READ);
  s ← get;
  mret (load_bytes (bytes (user s)) 0x2000 8, length_remaining io).

Example mount_and_read_run :
  match mount_and_read start with Done (r, _) => r = ([247; 248; 249; 250; 0; 1; 2; 3], 0) | _ => False end.
Proof. vm_compute. reflexivity. Qed.
