(* ===== verification/DiskNames.v ===== *)
(** * vfs/diskutil.c: names of disks, and the partitions of a disk by name

    The spinlock around the counters is left out. *)

From Stdlib Require Import String Ascii.
From S2P Require Import Prelude Transfer Vnode Vfs.

Definition chars (s : string) : cstring := (λ c, Z.of_N (N_of_ascii c)) <$> list_ascii_of_string s.

Definition DISKUTIL_TYPE_FIXED : Z := 0.
Definition DISKUTIL_TYPE_FLOPPY : Z := 1.
Definition DISKUTIL_TYPE_OPTICAL : Z := 2.
Definition DISKUTIL_TYPE_REMOVABLE : Z := 3.
Definition DISKUTIL_TYPE_NETWORK : Z := 4.
Definition DISKUTIL_TYPE_VIRTUAL : Z := 5.
Definition DISKUTIL_TYPE_RAM : Z := 6.
Definition DISKUTIL_TYPE_OTHER : Z := 7.
Definition DISKUTIL_NUM_TYPES : Z := 8.

Definition type_strings : list cstring :=
  [chars "hd"; chars "fd"; chars "cd"; chars "rm"; chars "net"; chars "virt"; chars "ram"; chars "other"].

Record disk_names := DiskNames { type_table : list Z; next_mounted_disk_num : Z }.

(** [InitDiskUtil] leaves the counter of mounted disks alone. *)
Definition InitDiskUtil (d : disk_names) : disk_names := {| d with type_table := replicate 8 0 |}.

(** [strcat] of the string in the four characters; [str] is [None] for NULL. *)
Definition AppendNumberToString (str : option cstring) (num : Z) : Z * option cstring :=
  match str with
  | None => (EINVAL, None)
  | Some s =>
    if decide (1000 ≤ num) then (EINVAL, Some s) else
    let num_str :=
      if decide (num < 10) then [u8 (num + 48); 0; 0; 0]
      else if decide (num < 100) then [u8 (num / 10 + 48); u8 (num `mod` 10 + 48); 0; 0]
      else [u8 (num / 100 + 48); u8 ((num / 10) `mod` 10 + 48); u8 (num `mod` 10 + 48); 0] in
    (0, Some (s ++ until_zero num_str))
  end.

Definition GetPartitionNameString (index : Z) : cstring :=
  default [] (AppendNumberToString (Some (chars "part")) index).2.

(** The type whose name and counter are used. *)
Definition known_type (type : Z) : Z := if decide (DISKUTIL_NUM_TYPES ≤ type ∨ type < 0) then DISKUTIL_TYPE_OTHER else type.

Section names.
Context {D : Type} {HN : Holds D disk_names}.

Definition get_names : M (vfs D) disk_names := s ← get; mret (held (drv s)).
Definition set_names (d : disk_names) : M (vfs D) unit := modify (λ s, with_drv (hold d (drv s)) s).

Definition GenerateNewMountedDiskName : M (vfs D) cstring :=
  d ← get_names;
  let disk_num := next_mounted_disk_num d in
  set_names {| d with next_mounted_disk_num := i32 (disk_num + 1) |};;
  mret (default [] (AppendNumberToString (Some (chars "drv")) disk_num).2).

Definition GenerateNewRawDiskName (type : Z) : M (vfs D) cstring :=
  let type := known_type type in
  name ← deref (aget type_strings type);
  d ← get_names;
  disk_num ← deref (aget (type_table d) type);
  table ← deref (aset (type_table d) type (i32 (disk_num + 1)));
  set_names {| d with type_table := table |};;
  mret (default [] (AppendNumberToString (Some (chars "raw-" ++ name)) disk_num).2).
End names.

(** ** The partitions of a disk by name *)
Definition MAX_PARTITIONS_PER_DISK : Z := 8.

Record disk_partition_helper := Helper {
  partitions : list Z;
  partition_names : list cstring;
  num_partitions : Z;
}.

(** The arrays are not initialised. *)
Definition InitDiskPartitionHelper (h : disk_partition_helper) : disk_partition_helper :=
  {| h with num_partitions := 0 |}.

(** The loop from [i] on; [None] for an index outside the arrays. *)
Fixpoint DiskFollowHelper_loop (n : nat) (i : Z) (h : disk_partition_helper) (name : cstring) : option (Z * Z) :=
  match n with
  | O => Some (EINVAL, NULL)
  | S n =>
    nm ← aget (partition_names h) i;
    if decide (nm = name) then out ← aget (partitions h) i; Some (0, out)
    else DiskFollowHelper_loop n (i + 1) h name
  end.
Definition DiskFollowHelper (h : disk_partition_helper) (name : cstring) : option (Z * Z) :=
  DiskFollowHelper_loop (Z.to_nat (num_partitions h)) 0 h name.

Definition DiskCreateHelper (h : disk_partition_helper) (node : Z) (name : cstring) : option (Z * disk_partition_helper) :=
  if decide (MAX_PARTITIONS_PER_DISK ≤ num_partitions h) then Some (EINVAL, h) else
  ps ← aset (partitions h) (num_partitions h) node;
  ns ← aset (partition_names h) (num_partitions h) name;
  Some (0, {| partitions := ps; partition_names := ns; num_partitions := num_partitions h + 1 |}).

(** A helper holds a list of names and nodes, in the order they were added. *)
Record holds_list (h : disk_partition_helper) (l : list (cstring * Z)) : Prop := {
  hl_nodes : ∃ rest, partitions h = l.*2 ++ rest;
  hl_names : ∃ rest, partition_names h = l.*1 ++ rest;
  hl_num : num_partitions h = length l;
  hl_sizes : length (partitions h) = 8%nat ∧ length (partition_names h) = 8%nat;
}.

Definition find_partition (name : cstring) (l : list (cstring * Z)) : option Z :=
  (λ x, x.2.2) <$> list_find (λ x, x.1 = name) l.

Lemma helper_follow_run h done_ l name :
  holds_list h (done_ ++ l) →
  DiskFollowHelper_loop (length l) (length done_) h name =
    Some (match find_partition name l with Some n => (0, n) | None => (EINVAL, NULL) end).
Proof.
  revert done_. induction l as [|[nm nd] l IH]; intros d Hh; [done|]. pose proof Hh as [[r1 H1] [r2 H2] _ _].
  cbn [length DiskFollowHelper_loop]. rewrite !aget_nat, H1, H2, !fmap_app, <- !app_assoc.
  cbn [fmap list_fmap app fst snd]. rewrite !list_lookup_middle by (by rewrite length_fmap).
  unfold find_partition. cbn [list_find fst mbind option_bind]. destruct (decide (nm = name)); [done|].
  replace (length d + 1) with (Z.of_nat (length (d ++ [(nm, nd)]))) by (rewrite length_app; simpl; lia).
  rewrite IH by by rewrite <- app_assoc. unfold find_partition. by destruct (list_find _ l) as [[? ?]|].
Qed.

(** The partitions of a disk by name: the first with the name is found, a new one
    comes last, and a ninth is refused. *)
Theorem disk_helper_is_list h l :
  holds_list h l →
  (∀ name, DiskFollowHelper h name = Some (match find_partition name l with Some n => (0, n) | None => (EINVAL, NULL) end)) ∧
  ∀ node name, if decide (length l < MAX_PARTITIONS_PER_DISK)
    then ∃ h', DiskCreateHelper h node name = Some (0, h') ∧ holds_list h' (l ++ [(name, node)])
    else DiskCreateHelper h node name = Some (EINVAL, h).
Proof.
  intros Hh. pose proof Hh as [[r1 H1] [r2 H2] Hn [Hs1 Hs2]]. split.
  - intros name. unfold DiskFollowHelper. rewrite Hn, Nat2Z.id. exact (helper_follow_run h [] l name Hh).
  - intros node name. unfold DiskCreateHelper, MAX_PARTITIONS_PER_DISK. rewrite Hn.
    destruct (decide (length l < 8)) as [Hl|Hl]; [|by rewrite decide_True by lia].
    rewrite decide_False, !aset_nat by lia. mred. eexists. split; [done|].
    rewrite H1, length_app, length_fmap in Hs1. rewrite H2, length_app, length_fmap in Hs2.
    destruct r1 as [|x1 r1]; [simpl in Hs1; lia|]. destruct r2 as [|x2 r2]; [simpl in Hs2; lia|].
    split; cbn [partitions partition_names num_partitions].
    + exists r1. rewrite H1, insert_app_r_alt, length_fmap, Nat.sub_diag, fmap_app, <- app_assoc by (rewrite length_fmap; lia). done.
    + exists r2. rewrite H2, insert_app_r_alt, length_fmap, Nat.sub_diag, fmap_app, <- app_assoc by (rewrite length_fmap; lia). done.
    + rewrite length_app. simpl. lia.
    + rewrite !length_insert, H1, H2, !length_app, !length_fmap. done.
Qed.

(** ** Numbers in names *)
Definition is_digit (c : Z) : Prop := 48 ≤ c ≤ 57.
#[export] Instance is_digit_dec c : Decision (is_digit c).
Proof. unfold is_digit. apply _. Defined.

Definition digits_value (l : list Z) : Z := foldl (λ v c, 10 * v + (c - 48)) 0 l.

(** The digits of a number, without leading zeros. *)
Lemma AppendNumber_digits s num :
  0 ≤ num < 1000 → ∃ l, AppendNumberToString (Some s) num = (0, Some (s ++ l)) ∧ Forall is_digit l ∧ digits_value l = num ∧
    (∀ c l', l = c :: l' → c = 48 → l' = [] ∧ num = 0).
Proof.
  intros Hn. unfold AppendNumberToString. rewrite decide_False by lia.
  pose proof (Z.mod_pos_bound num 10 ltac:(done)). pose proof (Z.mod_pos_bound (num / 10) 10 ltac:(done)).
  pose proof (Z.div_mod num 10 ltac:(done)). pose proof (Z.div_mod (num / 10) 10 ltac:(done)) as H2.
  rewrite Z.div_div in H2 by done. change (10 * 10) with 100 in H2.
  case_decide; [|case_decide].
  - exists [num + 48]. rewrite u8_small by (unfold is_u8; lia). cbn [until_zero]. rewrite decide_False by lia.
    split; [done|]. split; [repeat constructor; lia|]. unfold digits_value. cbn [foldl]. split; [lia|].
    intros c l' [= <- <-]. split; [done|lia].
  - exists [num / 10 + 48; num `mod` 10 + 48]. rewrite !u8_small by (unfold is_u8; lia). cbn [until_zero].
    rewrite !decide_False by lia. split; [done|]. split; [repeat constructor; lia|]. unfold digits_value. cbn [foldl].
    split; [lia|]. intros c l' [= <- <-]. lia.
  - exists [num / 100 + 48; (num / 10) `mod` 10 + 48; num `mod` 10 + 48].
    rewrite !u8_small by (unfold is_u8; lia). cbn [until_zero]. rewrite !decide_False by lia.
    split; [done|]. split; [repeat constructor; lia|]. unfold digits_value. cbn [foldl].
    split; [lia|]. intros c l' [= <- <-]. lia.
Qed.

(** A name made of something without digits at its end and digits has one reading. *)
Lemma digits_unique s s' l l' :
  Forall is_digit l → Forall is_digit l' → Forall (λ c, ¬ is_digit c) s → Forall (λ c, ¬ is_digit c) s' →
  s ++ l = s' ++ l' → s = s' ∧ l = l'.
Proof.
  intros Hl Hl'. revert s'. induction s as [|c s IH]; intros s' Hs Hs' E.
  - destruct s' as [|c' s']; [done|]. simpl in E. subst l. inversion Hl. inversion Hs'. naive_solver.
  - destruct s' as [|c' s'].
    + simpl in E. subst l'. inversion Hl'. inversion Hs. naive_solver.
    + simpl in E. injection E as <- E. inversion Hs. inversion Hs'. destruct (IH s') as [-> ->]; done.
Qed.

(** The name of the disk of number [n] of a prefix. *)
Definition disk_name (prefix : cstring) (n : Z) : cstring := default [] (AppendNumberToString (Some prefix) n).2.

Lemma disk_name_inj p p' n n' :
  Forall (λ c, ¬ is_digit c) p → Forall (λ c, ¬ is_digit c) p' → 0 ≤ n < 1000 → 0 ≤ n' < 1000 →
  disk_name p n = disk_name p' n' → p = p' ∧ n = n'.
Proof.
  intros Hp Hp' Hn Hn'. unfold disk_name.
  destruct (AppendNumber_digits p n Hn) as (l & -> & Hl & Hv & _).
  destruct (AppendNumber_digits p' n' Hn') as (l' & -> & Hl' & Hv' & _). simpl. intros E.
  destruct (digits_unique p p' l l' Hl Hl' Hp Hp' E) as [-> ->]. split; [done|congruence].
Qed.

Definition raw_prefix (t : Z) : cstring := chars "raw-" ++ default [] (aget type_strings t).

Lemma raw_prefix_inj t t' : 0 ≤ t < 8 → 0 ≤ t' < 8 → raw_prefix t = raw_prefix t' → t = t'.
Proof.
  intros Ht Ht' E. assert (∀ i j, (i < 8)%nat → (j < 8)%nat → raw_prefix i = raw_prefix j → i = j) as H.
  { intros i j Hi Hj. do 8 (destruct i as [|i]; [do 8 (destruct j as [|j]; [by vm_compute|]); lia|]). lia. }
  rewrite <- (Z2Nat.id t), <- (Z2Nat.id t') in E |- * by lia. f_equal. apply H; [lia|lia|exact E].
Qed.
Lemma raw_prefix_letters t : 0 ≤ t < 8 → Forall (λ c, ¬ is_digit c) (raw_prefix t).
Proof.
  intros Ht. assert (∀ i, (i < 8)%nat → Forall (λ c, ¬ is_digit c) (raw_prefix i)) as H.
  { intros i Hi. do 8 (destruct i as [|i]; [refine (bool_decide_unpack _ _); vm_compute; exact I|]). lia. }
  rewrite <- (Z2Nat.id t) by lia. apply H. lia.
Qed.

(** ** Sequences of names

    A request for a name: of a mounted file system, or of a raw disk of a type. *)
Definition request : Type := option Z.
Definition series (r : request) : option Z := known_type <$> r.
Definition prefix_of (r : request) : cstring := match series r with None => chars "drv" | Some t => raw_prefix t end.
Definition counter (d : disk_names) (r : request) : Z :=
  match series r with None => next_mounted_disk_num d | Some t => default 0 (aget (type_table d) t) end.

Lemma series_range t t' : series (Some t) = Some t' → 0 ≤ t' < 8.
Proof. unfold series, known_type, DISKUTIL_NUM_TYPES, DISKUTIL_TYPE_OTHER. simpl. case_decide; intros [= <-]; lia. Qed.

Lemma prefix_of_inj r r' : prefix_of r = prefix_of r' → series r = series r'.
Proof.
  unfold prefix_of. destruct (series r) as [t|] eqn:Et, (series r') as [t'|] eqn:Et'; [|done..].
  destruct r as [r|], r' as [r'|]; [|done..]. intros E. f_equal.
  apply raw_prefix_inj; [by eapply series_range..|done].
Qed.
Lemma prefix_of_letters r : Forall (λ c, ¬ is_digit c) (prefix_of r).
Proof.
  unfold prefix_of. destruct (series r) as [t|] eqn:Et.
  - destruct r as [r|]; [|done]. apply raw_prefix_letters. by eapply series_range.
  - refine (bool_decide_unpack _ _). vm_compute. exact I.
Qed.

Section sequences.
Context {D : Type} {HN : Holds D disk_names}.

Definition generate (r : request) : M (vfs D) cstring :=
  match r with None => GenerateNewMountedDiskName | Some t => GenerateNewRawDiskName t end.

Fixpoint generate_all (rs : list request) : M (vfs D) (list cstring) :=
  match rs with
  | [] => mret []
  | r :: rs => n ← generate r; l ← generate_all rs; mret (n :: l)
  end.

Definition names_of (s : vfs D) : disk_names := held (drv s).
Definition table_ok (d : disk_names) : Prop := length (type_table d) = 8%nat.

Lemma generate_run r s :
  table_ok (names_of s) → 0 ≤ counter (names_of s) r < 2 ^ 31 - 1 →
  ∃ s', generate r s = Done (disk_name (prefix_of r) (counter (names_of s) r), s') ∧ table_ok (names_of s') ∧
    ∀ r', counter (names_of s') r' = counter (names_of s) r' + (if decide (series r' = series r) then 1 else 0).
Proof.
  unfold table_ok, names_of. intros Ht Hc. destruct r as [t|]; unfold generate.
  - pose proof (series_range t (known_type t) eq_refl) as Hr.
    unfold GenerateNewRawDiskName, get_names, set_names. unfold counter at 1 2, prefix_of, series at 1 2. cbn [fmap option_fmap option_map].
    unfold counter in Hc. unfold series in Hc at 1 2. cbn [fmap option_fmap option_map] in Hc.
    set (t' := known_type t) in *. set (d := held (drv s)) in *.
    assert (∃ p, aget type_strings t' = Some p) as [p Hp].
    { rewrite <- (Z2Nat.id t'), aget_nat by lia. apply lookup_lt_is_Some_2. simpl. lia. }
    assert (∃ n, aget (type_table d) t' = Some n) as [n Hn].
    { rewrite <- (Z2Nat.id t'), aget_nat by lia. apply lookup_lt_is_Some_2. lia. }
    rewrite Hn in *. simpl in Hc.
    assert (aset (type_table d) t' (i32 (n + 1)) = Some (<[Z.to_nat t' := n + 1]> (type_table d))) as Hs.
    { rewrite i32_small by lia. rewrite <- (Z2Nat.id t') at 1 by lia. rewrite aset_nat by lia. done. }
    eexists. split; [|split].
    + mred. rewrite Hp. mred. fold d. rewrite Hn. mred. rewrite Hs. mred. unfold raw_prefix, disk_name. rewrite Hp. reflexivity.
    + cbn [drv with_drv]. rewrite held_hold. cbn [type_table]. by rewrite length_insert.
    + intros r'. cbn [drv with_drv]. rewrite held_hold. unfold counter. destruct r' as [u|]; cbn [series fmap option_fmap option_map]; [|rewrite decide_False by done; cbn; lia].
      cbn [type_table]. pose proof (series_range u (known_type u) eq_refl) as Hru.
      change (series (Some u)) with (Some (known_type u)). change (series (Some t)) with (Some t').
      assert (∀ l : list Z, aget l (known_type u) = l !! Z.to_nat (known_type u)) as Hg.
      { intros l. by rewrite <- (Z2Nat.id (known_type u)), aget_nat, Nat2Z.id by lia. }
      rewrite !Hg. destruct (decide (known_type u = t')) as [E|E].
      * rewrite decide_True by (unfold t' in E; congruence). rewrite E in *. rewrite Hg in Hn. rewrite list_lookup_insert_eq, Hn by lia. done.
      * rewrite decide_False by (unfold t' in E; congruence). rewrite list_lookup_insert_ne by lia. lia.
  - unfold GenerateNewMountedDiskName, get_names, set_names. unfold counter at 1 2, prefix_of, series at 1 2.
    unfold counter in Hc. cbn [fmap option_fmap option_map series] in *.
    eexists. split; [mred; reflexivity|]. cbn [drv with_drv]. rewrite held_hold. split; [done|].
    intros r'. unfold counter. destruct r' as [u|]; cbn [series fmap option_fmap option_map type_table next_mounted_disk_num].
    + rewrite decide_False by done. lia.
    + rewrite decide_True by done. rewrite i32_small by lia. done.
Qed.

(** What the names of a run are: the prefix of a request, and a number that its
    series had not reached. *)
Lemma generate_all_run rs s :
  table_ok (names_of s) → (∀ r, 0 ≤ counter (names_of s) r) → (∀ r, counter (names_of s) r + length rs < 2 ^ 31) →
  ∃ l s', generate_all rs s = Done (l, s') ∧ length l = length rs ∧
    Forall (λ c, ∃ r n, c = disk_name (prefix_of r) n ∧ counter (names_of s) r ≤ n < counter (names_of s) r + length rs) l ∧
    ((∀ r, counter (names_of s) r + length rs ≤ 1000) → NoDup l).
Proof.
  revert s. induction rs as [|r rs IH]; intros s Ht Hc Hmax; cbn [generate_all].
  { exists [], s. split; [done|]. split; [done|]. split; [constructor|constructor]. }
  cbn [length] in Hmax. destruct (generate_run r s Ht) as (s1 & E1 & Ht1 & Hc1).
  { split; [apply Hc|]. specialize (Hmax r). lia. }
  assert (∀ r', counter (names_of s) r' ≤ counter (names_of s1) r' ≤ counter (names_of s) r' + 1) as Hstep.
  { intros r'. rewrite Hc1. destruct (decide _); lia. }
  destruct (IH s1 Ht1) as (l & s2 & E2 & Hlen & Hl & Hnd).
  { intros r'. specialize (Hc r'). specialize (Hstep r'). lia. }
  { intros r'. specialize (Hmax r'). specialize (Hstep r'). lia. }
  exists (disk_name (prefix_of r) (counter (names_of s) r) :: l), s2. split.
  { rewrite (M_bind_done _ _ _ _ _ E1). by rewrite (M_bind_done _ _ _ _ _ E2). }
  split; [simpl; congruence|]. split.
  { constructor; [exists r, (counter (names_of s) r); split; [done|simpl; lia]|].
    eapply Forall_impl; [exact Hl|]. intros c (r' & n & -> & Hn). exists r', n. split; [done|].
    specialize (Hstep r'). simpl. lia. }
  intros Hsmall. cbn [length] in Hsmall. constructor.
  2: { apply Hnd. intros r'. specialize (Hsmall r'). specialize (Hstep r'). lia. }
  intros Hin. rewrite Forall_forall in Hl. destruct (Hl _ Hin) as (r' & n & E & Hn).
  pose proof (Hc r). pose proof (Hc r'). pose proof (Hsmall r). pose proof (Hsmall r'). pose proof (Hstep r').
  destruct (disk_name_inj (prefix_of r) (prefix_of r') (counter (names_of s) r) n) as [Ep En];
    [apply prefix_of_letters|apply prefix_of_letters|lia|lia|done|].
  apply prefix_of_inj in Ep. rewrite Hc1, decide_True in Hn by done.
  assert (counter (names_of s) r' = counter (names_of s) r) as Ec by (unfold counter; by rewrite Ep). lia.
Qed.

(** names of disks: as long as no more than a thousand have been given out, any
    sequence of requests for names, of mounted file systems and of raw disks of any
    types, known or not, is served, and no name is given out twice. *)
Theorem disk_names_distinct rs s :
  names_of s = DiskNames (replicate 8 0) 0 → (length rs ≤ 1000)%nat →
  ∃ l s', generate_all rs s = Done (l, s') ∧ length l = length rs ∧ NoDup l.
Proof.
  intros Hs Hlen.
  assert (∀ r, counter (names_of s) r = 0) as Hc.
  { intros r. rewrite Hs. unfold counter. destruct (series r) as [t|] eqn:Et; [|done].
    destruct r as [r|]; [|done]. pose proof (series_range r t Et) as Hr. cbn [type_table].
    rewrite <- (Z2Nat.id t), aget_nat, lookup_replicate_2 by lia. done. }
  destruct (generate_all_run rs s) as (l & s' & E & Hl & _ & Hnd).
  - by rewrite Hs.
  - intros r. rewrite Hc. lia.
  - intros r. rewrite Hc. lia.
  - exists l, s'. split; [done|]. split; [done|]. apply Hnd. intros r. rewrite Hc. lia.
Qed.
End sequences.

Lemma disk_names_distinct_witness :
  ∃ l s', generate_all (D := disk_names) (HN := {| held := id; hold a _ := a; held_hold _ _ := eq_refl |})
      [Some 0; None; Some 0; Some 99; None]
      (Vfs ∅ ∅ ∅ ∅ None false 1 None (Memory ∅ ∅) (DiskNames (replicate 8 0) 0)) = Done (l, s') ∧
    length l = 5%nat ∧ NoDup l.
Proof. apply disk_names_distinct; [reflexivity|simpl; lia]. Defined.
