(* ===== verification/FsTable.v ===== *)
(** * fs/filesystem.c: the table of file systems, and mounting a partition *)

From Stdlib Require Import String.
From S2P Require Import Prelude Transfer Vnode Vfs DiskNames.

Definition MAX_REGISTERED_FILESYSTEMS : Z := 8.

(** An entry: the name, and the address of the function that tries to mount. *)
Record filesystem := Filesystem { fs_name : cstring; mount_creator : Z }.

(** The array, with [None] for what was never stored. *)
Record fs_table := FsTable {
  registered_filesystems : list (option filesystem);
  num_filesystems : Z;
  fs_table_locked : bool;
}.

(** What is behind the functions: the status and [*out], which starts as NULL. *)
Class MountCreators (D : Type) : Type := {
  call_mount_creator : Z → Z → M (vfs D) (Z * Z);   (* the function, the partition *)
}.

Section table.
Context {D : Type} {HT : Holds D fs_table} {HN : Holds D disk_names}.
Context {AL : Allocator} {DR : Drivers D} {MC : MountCreators D}.

Definition get_fs_table : M (vfs D) fs_table := s ← get; mret (held (drv s)).
Definition set_fs_table (t : fs_table) : M (vfs D) unit := modify (λ s, with_drv (hold t (drv s)) s).

Definition AcquireFsTable : M (vfs D) unit :=
  t ← get_fs_table;
  if fs_table_locked t then block else set_fs_table {| t with fs_table_locked := true |}.
Definition ReleaseFsTable : M (vfs D) unit :=
  t ← get_fs_table;
  if fs_table_locked t then set_fs_table {| t with fs_table_locked := false |} else panic PANIC_ASSERTION_FAILURE.

(** [registered_filesystems[num_filesystems++] = fs]. *)
Definition store_filesystem (fs : filesystem) : M (vfs D) unit :=
  t ← get_fs_table;
  l ← deref (aset (registered_filesystems t) (num_filesystems t) (Some fs));
  set_fs_table {| t with registered_filesystems := l |};;
  t ← get_fs_table;
  set_fs_table {| t with num_filesystems := num_filesystems t + 1 |}.

(** [fs_name] is [None] for NULL. *)
Definition RegisterFilesystem (name : option cstring) (mount : Z) : M (vfs D) Z :=
  match name with
  | None => mret EINVAL
  | Some name =>
    if decide (mount = NULL) then mret EINVAL else
    let fs := {| fs_name := name; mount_creator := mount |} in
    AcquireFsTable;;
    t ← get_fs_table;
    ret ← (if decide (num_filesystems t < MAX_REGISTERED_FILESYSTEMS) then store_filesystem fs;; mret 0 else mret EALREADY);
    store_filesystem fs;;
    ReleaseFsTable;;
    mret ret
  end.

Definition InitFilesystemTable (demofs_mount_creator : Z) : M (vfs D) unit :=
  t ← get_fs_table;
  set_fs_table {| t with num_filesystems := 0 |};;
  t ← get_fs_table;
  set_fs_table {| t with fs_table_locked := false |};;
  _ ← RegisterFilesystem (Some (chars "demofs")) demofs_mount_creator;
  mret tt.

(** The loop from [i] on: [fs] when it ends. *)
Fixpoint try_mount (n : nat) (i : Z) (partition fs : Z) : M (vfs D) Z :=
  match n with
  | O => mret fs
  | S n =>
    t ← get_fs_table;
    e ← deref (aget (registered_filesystems t) i);
    e ← deref e;
    '(res, fs) ← call_mount_creator (mount_creator e) partition;
    if decide (res = 0) then mret fs else try_mount n (i + 1) partition fs
  end.

Definition MountFilesystemForDisk (partition : Z) : M (vfs D) Z :=
  AcquireFsTable;;
  t ← get_fs_table;
  fs ← try_mount (Z.to_nat (num_filesystems t)) 0 partition NULL;
  ReleaseFsTable;;
  if decide (fs = NULL) then mret ENODEV else
  p ← get_file partition;
  f ← get_file fs;
  '(res, out) ← VnodeOpCreate (node p) (node f) (chars "fs") 0 0;
  f ← get_file fs;
  set_file fs {| f with node := out |};;
  if decide (res ≠ 0) then mret res else
  f ← get_file fs;
  name ← GenerateNewMountedDiskName;
  _ ← AddVfsMount (node f) (Some name);
  mret 0.
End table.

(** ** Registering stores twice *)
Section doubles.
Context {D : Type} {HT : Holds D fs_table}.
Implicit Types s : vfs D.

Lemma get_fs_table_run t s : held (drv s) = t → get_fs_table s = Done (t, s).
Proof. by intros <-. Qed.

Lemma store_filesystem_run fs l (n : nat) b s :
  held (drv s) = FsTable l n b → length l = 8%nat →
  if decide (n < 8)%nat
  then ∃ d, store_filesystem fs s = Done (tt, with_drv d s) ∧ held d = FsTable (<[n := Some fs]> l) (S n) b
  else store_filesystem fs s = Faulted.
Proof.
  intros Hs Hl. unfold store_filesystem. rewrite (M_bind_done _ _ _ _ _ (get_fs_table_run _ s Hs)).
  cbn [registered_filesystems num_filesystems]. destruct (decide (n < 8)%nat) as [Hn|Hn].
  - rewrite aset_nat by lia. set (t1 := FsTable (<[n := Some fs]> l) n b). set (d1 := hold t1 (drv s)).
    rewrite (M_bind_done (deref _) _ s (<[n := Some fs]> l) s) by done.
    rewrite (M_bind_done (set_fs_table t1) _ s tt (with_drv d1 s)) by done.
    rewrite (M_bind_done _ _ (with_drv d1 s) t1 (with_drv d1 s)) by (apply get_fs_table_run, held_hold).
    eexists. split; [unfold set_fs_table, modify; cbn; reflexivity|]. rewrite held_hold. unfold t1. cbn. f_equal. lia.
  - unfold aset. rewrite decide_False by lia. done.
Qed.

(** A file system is stored twice; when fewer than two places are left, the second
    store is past the end of the array. *)
Theorem RegisterFilesystem_doubles name mount l (n : nat) s :
  held (drv s) = FsTable l n false → length l = 8%nat → mount ≠ NULL →
  let fs := Filesystem name mount in
  if decide (n ≤ 6)%nat
  then ∃ d, RegisterFilesystem (Some name) mount s = Done (0, with_drv d s) ∧
       held d = FsTable (<[S n := Some fs]> (<[n := Some fs]> l)) (S (S n)) false
  else RegisterFilesystem (Some name) mount s = Faulted.
Proof.
  intros Hs Hl Hm fs. unfold RegisterFilesystem. rewrite (decide_False (P := mount = NULL)) by done. fold fs.
  set (d0 := hold (FsTable l n true) (drv s)). assert (held d0 = FsTable l n true) as H0 by apply held_hold.
  rewrite (M_bind_done AcquireFsTable _ s tt (with_drv d0 s)).
  2: { unfold AcquireFsTable. rewrite (M_bind_done _ _ _ _ _ (get_fs_table_run _ s Hs)). done. }
  rewrite (M_bind_done _ _ _ _ _ (get_fs_table_run _ (with_drv d0 s) H0)). cbn [num_filesystems].
  pose proof (store_filesystem_run fs l n true (with_drv d0 s) H0 Hl) as Hst1. unfold MAX_REGISTERED_FILESYSTEMS.
  destruct (decide (n < 8)%nat) as [Hn|Hn].
  2: { rewrite (decide_False (P := (n ≤ 6)%nat)) by lia. rewrite decide_False by lia.
       rewrite (M_bind_done (mret EALREADY) _ _ EALREADY (with_drv d0 s)) by done. mred. by rewrite Hst1. }
  destruct Hst1 as (d1 & E1 & H1). rewrite (decide_True (P := (n < 8)%Z)) by lia.
  rewrite (M_bind_done _ _ _ 0 (with_drv d1 s)) by (by rewrite (M_bind_done _ _ _ _ _ E1)).
  pose proof (store_filesystem_run fs (<[n := Some fs]> l) (S n) true (with_drv d1 s) H1) as Hst2. rewrite length_insert in Hst2.
  specialize (Hst2 Hl). destruct (decide (S n < 8)%nat) as [Hn2|Hn2].
  2: { rewrite decide_False by lia. mred. by rewrite Hst2. }
  rewrite decide_True by lia. destruct Hst2 as (d2 & E2 & H2).
  exists (hold (FsTable (<[S n := Some fs]> (<[n := Some fs]> l)) (S (S n)) false) d2).
  split; [|apply held_hold]. rewrite (M_bind_done _ _ _ _ _ E2). unfold ReleaseFsTable.
  rewrite (M_bind_done _ _ _ tt (with_drv (hold (FsTable (<[S n := Some fs]> (<[n := Some fs]> l)) (S (S n)) false) d2) s)); [done|].
  rewrite (M_bind_done _ _ (with_drv d2 s) _ _ (get_fs_table_run _ (with_drv d2 s) H2)). done.
Qed.
End doubles.
