(* ===== verification/Partition.v ===== *)
(** * dev/partition.c: partitions of a disk

    A partition is a block device that passes its transfers on to the disk. The
    first block of the disk is read through a mapping of the disk as a file; what
    makes and removes it is the interface [Mappings]. *)

From Stdlib Require Import String.
From S2P Require Import Prelude Transfer Vnode Vfs DiskNames FsTable.

Definition i64 (z : Z) : Z := (z + 2 ^ 63) `mod` 2 ^ 64 - 2 ^ 63.

Record partition_data := Partition {
  p_fs : Z;
  p_disk : Z;
  p_id : Z;
  start_byte : Z;
  length_bytes : Z;
  disk_bytes_per_sector : Z;
  media_type : Z;
  p_boot : bool;
}.

(** The transfer on the disk, whose length is the signed number [length]. *)
Definition disk_request (partition : partition_data) (tr : transfer) : Z * transfer :=
  let start_addr := u64 (offset tr + start_byte partition) in
  let length :=
    if decide (length_bytes partition < u64 (offset tr + length_remaining tr))
    then i64 (i64 (length_bytes partition) - i64 (offset tr)) else i64 (length_remaining tr) in
  (length, Transfer (address tr) (u64 length) start_addr (direction tr) (type tr) (blockable tr)).

Class Mappings (D : Type) : Type := {
  map_file : Z → Z → M (vfs D) Z;     (* size, file: the address, or NULL *)
  unmap : Z → Z → M (vfs D) unit;
}.

Section partition.
Context {D : Type} {HP : Holds D (gmap Z partition_data)} {HT : Holds D fs_table} {HN : Holds D disk_names}.
Context {AL : Allocator} {LOW : Drivers D} {MC : MountCreators D} {MP : Mappings D}.

(** The addresses of the functions. *)
Variables p_read p_write p_create p_follow : Z.

(** [node->data]. *)
Definition get_partition (n : Z) : M (vfs D) partition_data :=
  v ← get_vnode n;
  s ← get;
  deref (held (drv s) !! vn_data v).
Definition set_partition (a : Z) (p : partition_data) : M (vfs D) unit :=
  modify (λ s, with_drv (hold (<[a := p]> (held (drv s))) (drv s)) s).

Definition Access (n : Z) (tr : transfer) (wr : bool) : M (vfs D) (Z * transfer) :=
  partition ← get_partition n;
  let '(length, real_transfer) := disk_request partition tr in
  '(res, real_transfer) ← (if wr then WriteFile (p_disk partition) (Some real_transfer)
                           else ReadFile (p_disk partition) (Some real_transfer));
  real_transfer ← deref real_transfer;
  let bytes_transferred := u64 (length - length_remaining real_transfer) in
  mret (res, Transfer (u32 (address tr + bytes_transferred)) (u64 (length_remaining tr - bytes_transferred))
               (u64 (offset tr + bytes_transferred)) (direction tr) (type tr) (blockable tr)).

Definition Read (n : Z) (tr : transfer) : M (vfs D) (Z * transfer) := Access n tr false.
Definition Write (n : Z) (tr : transfer) : M (vfs D) (Z * transfer) := Access n tr true.

(** [*fs] is the vnode to hold, and stays as it is. *)
Definition Create (n fs : Z) (name : cstring) (flags mode : Z) : M (vfs D) (Z * Z) :=
  v ← get_vnode n;
  partition ← get_partition n;
  if decide (p_fs partition ≠ NULL) then mret (EALREADY, fs) else
  f ← CreateFile fs flags mode true true;
  partition ← get_partition n;
  set_partition (vn_data v) {| partition with p_fs := f |};;
  mret (0, fs).

Definition Follow (n : Z) (name : cstring) : M (vfs D) (Z * Z) :=
  partition ← get_partition n;
  if decide (name = chars "fs") then
    if decide (p_fs partition = NULL) then mret (EINVAL, junk) else
    f ← get_file (p_fs partition);
    mret (0, node f)
  else mret (EINVAL, junk).

Definition dev_ops : vnode_operations :=
  {| check_open := NULL; read := p_read; write := p_write; ioctl := NULL; close := NULL;
     truncate := NULL; create := p_create; follow := p_follow; unlink := NULL; delete_op := NULL |}.

(** The drivers of the system: this one, above those below. *)
Definition partition_drivers : Drivers D := {|
  call_check_open p := call_check_open p;
  call_read p := if decide (p = p_read) then Read else call_read p;
  call_write p := if decide (p = p_write) then Write else call_write p;
  call_ioctl p := call_ioctl p;
  call_close p := call_close p;
  call_truncate p := call_truncate p;
  call_create p := if decide (p = p_create) then Create else call_create p;
  call_follow p := if decide (p = p_follow) then Follow else call_follow p;
  call_unlink p := call_unlink p;
  call_delete p := call_delete p;
|}.

(** ** Finding partitions *)

(** The file systems are mounted through the drivers of the whole system, [ALL]. *)
Context (ALL : Drivers D).

Definition CreatePartition (disk start length id sector_size media : Z) (boot : bool) : M (vfs D) Z :=
  s ← get;
  let data := pick (dom (held (drv s) : gmap Z partition_data)) in
  set_partition data {| p_fs := NULL; p_disk := disk; p_id := id; start_byte := start; length_bytes := length;
    disk_bytes_per_sector := sector_size; media_type := media; p_boot := boot |};;
  (if decide (sector_size = 0) then fault else mret tt);;   (* st_blocks = length / sector_size *)
  d ← NextDevId;
  n ← CreateVnode dev_ops
    {| st_mode := Z.lor S_IFBLK 511; st_blksize := u32 sector_size; st_nlink := 1; st_size := u32 length; st_dev := d; st_ino := 0 |};
  v ← get_vnode n;
  set_vnode n {| v with vn_data := data |};;
  partition ← CreateFile n 0 0 true true;
  _ ← MountFilesystemForDisk (DR := ALL) partition;
  mret partition.

(** A byte of memory. *)
Definition mem_byte (a : Z) : M (vfs D) Z := s ← get; mret (load (bytes (user s)) a).

(** [x = mem[i + 3]; x <<= 8; x |= mem[i + 2]; ...]. *)
Definition read_le32 (a : Z) : M (vfs D) Z :=
  b3 ← mem_byte (a + 3);
  b2 ← mem_byte (a + 2);
  b1 ← mem_byte (a + 1);
  b0 ← mem_byte a;
  mret (Z.lor (u32 (Z.shiftl (Z.lor (u32 (Z.shiftl (Z.lor (u32 (Z.shiftl b3 8)) b2) 8)) b1) 8)) b0).

Definition TryCreateMbrPartition (disk mem index sector_size : Z) : M (vfs D) Z :=
  let offset := 0x1BE + index * 16 in
  active ← mem_byte (mem + offset);
  if decide (Z.land active 0x7F ≠ 0) then mret NULL else
  media ← mem_byte (mem + (offset + 4));
  start_sector ← read_le32 (mem + (offset + 8));
  total_sectors ← read_le32 (mem + (offset + 12));
  if decide (start_sector = 0 ∧ total_sectors = 0) then mret NULL else
  CreatePartition disk (u64 (start_sector * sector_size)) (u64 (total_sectors * sector_size)) index sector_size media
    (bool_decide (Z.land active 0x80 ≠ 0)).

(** The entries of the table from [index] on: the partitions found. *)
Fixpoint mbr_loop (n : nat) (index disk mem block_size : Z) : M (vfs D) (list Z) :=
  match n with
  | O => mret []
  | S n =>
    p ← TryCreateMbrPartition disk mem index block_size;
    l ← mbr_loop n (index + 1) disk mem block_size;
    mret (if decide (p ≠ NULL) then p :: l else l)
  end.

(** [None] for NULL; the array up to its terminating NULL. *)
Definition GetMbrPartitions (disk : Z) : M (vfs D) (option (list Z)) :=
  f ← get_file disk;
  v ← get_vnode (node f);
  let block_size := st_blksize (vn_stat v) in
  mem ← map_file block_size disk;
  if decide (mem = NULL) then mret None else
  b ← mem_byte (mem + 0x1FE);
  if decide (b ≠ 0x55) then mret None else
  b ← mem_byte (mem + 0x1FF);
  if decide (b ≠ 0xAA) then mret None else
  l ← mbr_loop 4 0 disk mem (i32 block_size);
  unmap mem block_size;;
  mret (Some l).

Definition GetPartitionsForDisk (disk : Z) : M (vfs D) (option (list Z)) := GetMbrPartitions disk.

(** ** vfs/diskutil.c *)
Fixpoint name_partitions (l : list Z) (i : Z) (disk : Z) : M (vfs D) unit :=
  match l with
  | [] => mret tt
  | p :: l =>
    f ← get_file p;
    let str := GetPartitionNameString i in
    df ← get_file disk;
    _ ← VnodeOpCreate (Drivers0 := ALL) (node df) (node f) str 0 0;
    name_partitions l (i + 1) disk
  end.

Definition CreateDiskPartitions (disk : Z) : M (vfs D) unit :=
  l ← GetPartitionsForDisk disk;
  match l with
  | None | Some [] =>
    df ← get_file disk;
    dv ← get_vnode (node df);
    let st := vn_stat dv in
    p ← CreatePartition disk 0 (u64 (st_size st)) 0 (i32 (st_blksize st)) 0 false;
    f ← get_file p;
    _ ← VnodeOpCreate (Drivers0 := ALL) (node df) (node f) (GetPartitionNameString 0) 0 0;
    mret tt
  | Some l => name_partitions l 0 disk
  end.
End partition.
