(* ===== verification/PartitionTheorems.v ===== *)
(** * Partitions are disks, and stay within themselves *)

From S2P Require Import Prelude Physical Transfer Buffers Vnode Vfs VfsOpen DemoFs DemoFsRead DemoFsFollow DiskNames FsTable Partition.

(** ** The request on the disk *)
Lemma i64_small z : -2 ^ 63 ≤ z < 2 ^ 63 → i64 z = z.
Proof. intros. unfold i64. rewrite Z.mod_small; lia. Qed.

Definition partition_bounds (p : partition_data) : Prop :=
  0 ≤ start_byte p ∧ 0 ≤ length_bytes p ∧ start_byte p + length_bytes p < 2 ^ 63.

(** What is asked of the disk: from a place in the partition or at its end, as much
    of the transfer as is in it. *)
Lemma disk_request_inside p tr :
  partition_bounds p → 0 ≤ offset tr ≤ length_bytes p → 0 ≤ length_remaining tr < 2 ^ 63 →
  let n := Z.min (length_remaining tr) (length_bytes p - offset tr) in
  disk_request p tr = (n, Transfer (address tr) n (start_byte p + offset tr) (direction tr) (type tr) (blockable tr)).
Proof.
  intros (Hs & Hl & Hend) Ho Hlen n. unfold disk_request.
  rewrite (u64_small (offset tr + start_byte p)) by (unfold is_u64; lia).
  rewrite (u64_small (offset tr + length_remaining tr)) by (unfold is_u64; lia).
  rewrite (Z.add_comm (offset tr) (start_byte p)). unfold n. case_decide.
  - rewrite (i64_small (length_bytes p)), (i64_small (offset tr)), i64_small, u64_small by (unfold is_u64; lia).
    by rewrite Z.min_r by lia.
  - rewrite i64_small, u64_small by (unfold is_u64; lia). by rewrite Z.min_l by lia.
Qed.

(** C37: a transfer from inside a partition asks the disk for bytes of the partition
    only: it is cut at the end. From beyond the end, the length comes out negative
    and is taken for a huge one: the request leaves the partition. *)
Theorem partition_requests_confined p tr :
  partition_bounds p → is_u64 (offset tr) → 0 < length_remaining tr < 2 ^ 62 → offset tr < 2 ^ 62 →
  let real := (disk_request p tr).2 in
  address real = address tr ∧ offset real = start_byte p + offset tr ∧
  if decide (offset tr ≤ length_bytes p)
  then offset real + length_remaining real ≤ start_byte p + length_bytes p ∧
       length_remaining real = Z.min (length_remaining tr) (length_bytes p - offset tr)
  else start_byte p + length_bytes p < offset real ∧ 2 ^ 63 < length_remaining real.
Proof.
  intros Hb Ho Hlen Hsmall real. unfold is_u64 in Ho. pose proof Hb as (Hs & Hl & Hend).
  destruct (decide (offset tr ≤ length_bytes p)) as [Hin|Hout].
  - unfold real. rewrite disk_request_inside by (done || lia). cbn. lia.
  - unfold real, disk_request. cbn [snd address offset length_remaining].
    rewrite (u64_small (offset tr + start_byte p)) by (unfold is_u64; lia).
    rewrite (u64_small (offset tr + length_remaining tr)) by (unfold is_u64; lia).
    rewrite decide_True by lia.
    rewrite (i64_small (length_bytes p)), (i64_small (offset tr)), i64_small by lia.
    assert (u64 (length_bytes p - offset tr) = length_bytes p - offset tr + 2 ^ 64) as ->.
    { unfold u64. rewrite <- (Z.mod_add _ 1) by lia. rewrite Z.mod_small; lia. }
    split; [done|]. lia.
Qed.

Lemma partition_requests_confined_witness :
  let p := Partition NULL 1 0 (9 * 512) (3 * 512) 512 0 false in
  let real := (disk_request p (CreateKernelTransfer 0x2000 1024 1024 TRANSFER_READ)).2 in
  offset real + length_remaining real ≤ start_byte p + length_bytes p ∧ length_remaining real = 512.
Proof.
  intros p real.
  destruct (partition_requests_confined p (CreateKernelTransfer 0x2000 1024 1024 TRANSFER_READ)) as (_ & _ & H).
  - unfold partition_bounds. simpl. lia.
  - unfold is_u64. simpl. lia.
  - simpl. lia.
  - simpl. lia.
  - rewrite decide_True in H by (simpl; lia). exact H.
Defined.

(** ** A partition of a disk is a disk *)
Definition shifted (start : Z) (image : gmap Z Z) : gmap Z Z := kmap (λ a, a - start) image.

#[local] Instance shift_inj start : Inj (=) (=) (λ a : Z, a - start).
Proof. intros x y. lia. Qed.

Lemma load_shifted start image a : load (shifted start image) a = load image (start + a).
Proof.
  unfold load, shifted. f_equal. replace a with (start + a - start) at 1 by lia.
  apply (lookup_kmap (λ a, a - start)).
Qed.
Lemma load_bytes_shifted start image a (n : nat) :
  load_bytes (shifted start image) a n = load_bytes image (start + a) n.
Proof. apply load_bytes_ext. intros i Hi. rewrite load_shifted. f_equal. lia. Qed.

Section is_disk.
Context {D : Type} {HP : Holds D (gmap Z partition_data)} {AL : Allocator} {LOW : Drivers D}.
Context (d : Z) (image : gmap Z Z) (size : Z) (ready : vfs D → Prop) {DISK : SectorDisk d image size ready}.
Variables p_read p_write p_create p_follow : Z.
Context (pf pn a : Z) (f : file) (v : vnode) (p : partition_data).
Hypothesis Hpf : pf ≠ NULL.
Hypothesis Hpn : pn ≠ NULL.
Hypothesis Hf : node f = pn ∧ can_read f = true.
Hypothesis Hv : 0 < reference_count v ∧ vn_data v = a ∧ read (ops v) = p_read.
Hypothesis Hread : p_read ≠ NULL.
Hypothesis Hdisk : p_disk p = d.
Hypothesis Hpart : 0 ≤ start_byte p ∧ 0 ≤ length_bytes p ∧ start_byte p + length_bytes p ≤ size.
Hypothesis Hwhole : start_byte p `mod` SECTOR_SIZE = 0 ∧ length_bytes p `mod` SECTOR_SIZE = 0.
Hypothesis Hready : ∀ s, ready s → files s !! pf = Some f ∧ vnodes s !! pn = Some v ∧ held (drv s) !! a = Some p.

Abbreviation ALL := (partition_drivers p_read p_write p_create p_follow).

(** C23: a partition whose bounds are whole sectors of a disk is itself a disk, with
    the part of the image that is its own: whatever is proved of a file system on a
    disk holds of it on a partition. *)
Theorem partition_is_disk : SectorDisk (LOW := ALL) pf (shifted (start_byte p) image) (length_bytes p) ready.
Proof.
  destruct disk_whole as [_ Hsize].
  split; [done|split; [apply Hwhole|lia]| |apply ready_memory].
  intros s io Hr Hd Hu Hlen Hlm Hom Hend. destruct (Hready s Hr) as (Hsf & Hsv & Hsp).
  destruct Hf as [Hfn Hfr]. destruct Hv as (Hvc & Hvd & Hvr).
  set (io1 := set_blockable (negb (has_flag (vn_flags v) O_NONBLOCK)) io).
  set (real := Transfer (address io) (length_remaining io) (start_byte p + offset io) TRANSFER_READ (type io) (blockable io1)).
  pose proof Hu as [].
  assert (disk_request p io1 = (length_remaining io, real)) as Ereq.
  { pose proof (disk_request_inside p io1) as E. cbn [offset length_remaining io1 set_blockable address direction type] in E.
    rewrite E; [|unfold partition_bounds; lia|lia|lia]. rewrite Z.min_l by lia. rewrite Hd. done. }
  assert (usable (user s) real) as Hu1.
  { split; cbn; try lia. intros Ht. destruct (us_user Ht) as [Ha Hp]. split; [done|]. unfold to_user, is_write in *. cbn.
    by rewrite Hd in Hp. }
  destruct (disk_reads s real Hr eq_refl Hu1) as (b & x & E & Hr'); cbn [length_remaining offset real]; [done|done| |lia|].
  { apply Z.mod_divide; [done|]. apply Z.divide_add_r; apply Z.mod_divide; (done || apply Hwhole). }
  cbn [address length_remaining offset real] in E, Hr'.
  exists (blockable io1), x. rewrite load_bytes_shifted. split; [|exact Hr'].
  unfold ReadFile at 1, FileAccess. rewrite decide_False by (unfold NULL in *; lia).
  rewrite (M_bind_done _ _ _ _ _ (get_file_run pf f s Hsf)), Hfn, decide_False by done. rewrite Hfr. cbn [negb andb orb].
  rewrite (M_bind_done _ _ _ _ _ (get_vnode_run pn v s Hsv)). fold io1.
  set (s' := with_drv x _) in E |- *.
  rewrite (M_bind_done _ _ s (0, advance io1 (length_remaining io)) s'); [done|].
  unfold VnodeOpRead. rewrite (M_bind_done _ _ _ _ _ (CheckVnode_run pn v s Hpn Hsv Hvc)).
  rewrite (M_bind_done _ _ _ _ _ (get_vnode_run pn v s Hsv)). cbn [direction io1 set_blockable]. rewrite Hd, Hvr.
  rewrite decide_False by done. cbn [call_read partition_drivers]. rewrite decide_True by done.
  unfold Read, Access, get_partition.
  rewrite (M_bind_done _ _ s p s).
  2: { rewrite (M_bind_done _ _ _ _ _ (get_vnode_run pn v s Hsv)). mred. by rewrite Hvd, Hsp. }
  fold io1. rewrite Ereq, Hdisk. rewrite (M_bind_done _ _ _ _ _ E). cbn [deref].
  rewrite (M_bind_done (mret _) _ s' (set_blockable b (advance real (length_remaining io))) s') by done.
  rewrite (advance_run (user s) real) by (done || (cbn; lia)). cbn [length_remaining set_blockable].
  unfold mret, M_mret. do 3 f_equal. unfold advance. cbn [address length_remaining offset direction type blockable io1 set_blockable].
  replace (length_remaining io - (length_remaining real - length_remaining io)) with (length_remaining io) by (cbn; lia).
  rewrite (u64_small (length_remaining io)) by (unfold is_u64; lia). done.
Qed.
End is_disk.

(** ** The partition table

    An entry: a flag, three bytes of the old addressing, the type, three more, and
    the first sector and the number of sectors. *)
Record mbr_entry := Mbr { m_boot : bool; m_type : Z; m_start : Z; m_total : Z }.
Definition mbr_bytes (e : mbr_entry) (c1 c2 : list Z) : list Z :=
  (if m_boot e then 0x80 else 0) :: c1 ++ m_type e :: c2 ++ le_bytes 4 (m_start e) ++ le_bytes 4 (m_total e).

Lemma le_bytes_four v : le_bytes 4 v = [v `mod` 256; (v / 2 ^ 8) `mod` 256; (v / 2 ^ 16) `mod` 256; (v / 2 ^ 24) `mod` 256].
Proof. unfold le_bytes. cbn [seq fmap list_fmap]. change (2 ^ (8 * 0%nat)) with 1. by rewrite Z.div_1_r. Qed.

Lemma le_value v : is_u32 v →
  v `mod` 256 + 2 ^ 8 * ((v / 2 ^ 8) `mod` 256) + 2 ^ 16 * ((v / 2 ^ 16) `mod` 256) + 2 ^ 24 * ((v / 2 ^ 24) `mod` 256) = v.
Proof.
  unfold is_u32. intros Hv. pose proof (Z.div_mod v 256 ltac:(done)) as H1.
  pose proof (Z.div_mod (v / 2 ^ 8) 256 ltac:(done)) as H2. pose proof (Z.div_mod (v / 2 ^ 16) 256 ltac:(done)) as H3.
  rewrite Z.div_div in H2, H3 by done. change (2 ^ 8 * 256) with (2 ^ 16) in H2. change (2 ^ 16 * 256) with (2 ^ 24) in H3.
  change 256 with (2 ^ 8) in *. rewrite (Z.mod_small (v / 2 ^ 24)); [lia|]. split; [by apply Z.div_pos; lia|].
  apply Z.div_lt_upper_bound; lia.
Qed.

Section mbr.
Context {D : Type} {HP : Holds D (gmap Z partition_data)} {HT : Holds D fs_table} {HN : Holds D disk_names}.
Context {AL : Allocator} {MC : MountCreators D} (ALL : Drivers D).
Variables p_read p_write p_create p_follow : Z.
Implicit Types s : vfs D.

Lemma read_le32_run a v s :
  is_u32 v → load_bytes (bytes (user s)) a 4 = le_bytes 4 v → read_le32 a s = Done (v, s).
Proof.
  intros Hv. rewrite le_bytes_four. cbn [load_bytes]. intros [= H0 H1 H2 H3].
  replace (a + 1 + 1) with (a + 2) in H2 by lia. replace (a + 1 + 1 + 1) with (a + 3) in H3 by lia.
  unfold read_le32, mem_byte. mred. rewrite H0, H1, H2, H3. do 2 f_equal.
  assert (∀ x, 0 ≤ x `mod` 256 < 2 ^ 8) as Hm by (intros x; apply Z.mod_pos_bound; done).
  pose proof (Hm v). pose proof (Hm (v / 2 ^ 8)). pose proof (Hm (v / 2 ^ 16)). pose proof (Hm (v / 2 ^ 24)).
  pose proof (le_value v Hv) as Hval.
  set (x0 := v `mod` 256) in *. set (x1 := (v / 2 ^ 8) `mod` 256) in *. set (x2 := (v / 2 ^ 16) `mod` 256) in *.
  set (x3 := (v / 2 ^ 24) `mod` 256) in *.
  assert (∀ hi lo, 0 ≤ hi < 2 ^ 24 → 0 ≤ lo < 2 ^ 8 → Z.lor (u32 (Z.shiftl hi 8)) lo = lo + 2 ^ 8 * hi) as Hstep.
  { intros hi lo Hhi Hlo. rewrite Z.shiftl_mul_pow2, u32_small by (unfold is_u32 in *; lia). rewrite Z.lor_comm, or_low by lia. lia. }
  rewrite (Hstep x3 x2), (Hstep (x2 + 2 ^ 8 * x3) x1), Hstep by lia. lia.
Qed.

(** the entry of a partition table that was written for a partition is read back:
    a partition of that first sector, length, type and flag is created, at bytes
    that are the sectors times their size; an empty entry is skipped. *)
Theorem mbr_entry_roundtrip e c1 c2 disk mem (index : Z) sector_size s :
  is_u32 (m_start e) → is_u32 (m_total e) → length c1 = 3%nat → length c2 = 3%nat → 0 < sector_size ≤ 2 ^ 16 →
  load_bytes (bytes (user s)) (mem + (0x1BE + index * 16)) 16 = mbr_bytes e c1 c2 →
  TryCreateMbrPartition p_read p_write p_create p_follow ALL disk mem index sector_size s =
    if decide (m_start e = 0 ∧ m_total e = 0) then Done (NULL, s)
    else CreatePartition p_read p_write p_create p_follow ALL disk (m_start e * sector_size) (m_total e * sector_size)
           index sector_size (m_type e) (m_boot e) s.
Proof.
  intros Hs Ht H1 H2 Hss Hmem.
  destruct c1 as [|x1 [|x2 [|x3 [|? ?]]]]; try done. destruct c2 as [|y1 [|y2 [|y3 [|? ?]]]]; try done.
  set (a := mem + (0x1BE + index * 16)) in *.
  change 16%nat with (8 + (4 + 4))%nat in Hmem. rewrite !load_bytes_app in Hmem. unfold mbr_bytes in Hmem.
  change (_ :: _) with (([if m_boot e then 0x80 else 0; x1; x2; x3; m_type e; y1; y2; y3])
    ++ (le_bytes 4 (m_start e) ++ le_bytes 4 (m_total e))) in Hmem.
  apply app_inj_1 in Hmem as [Hfirst Hrest]; [|by rewrite length_load_bytes].
  apply app_inj_1 in Hrest as [Hstart Htotal]; [|rewrite length_load_bytes, le_bytes_four; done].
  cbn [load_bytes] in Hfirst. injection Hfirst as Hflag _ _ _ Hty _ _ _.
  unfold TryCreateMbrPartition. fold a.
  rewrite (M_bind_done (mem_byte a) _ s (if m_boot e then 0x80 else 0) s) by (unfold mem_byte; mred; by rewrite Hflag).
  rewrite decide_False by (destruct (m_boot e); intros H; by apply H).
  replace (mem + (0x1BE + index * 16 + 4)) with (a + 1 + 1 + 1 + 1) by lia.
  rewrite (M_bind_done (mem_byte _) _ s (m_type e) s) by (unfold mem_byte; mred; by rewrite Hty).
  replace (mem + (0x1BE + index * 16 + 8)) with (a + 8%nat) by lia.
  replace (mem + (0x1BE + index * 16 + 12)) with (a + 8%nat + 4%nat) by lia.
  rewrite (M_bind_done _ _ _ _ _ (read_le32_run _ _ s Hs Hstart)), (M_bind_done _ _ _ _ _ (read_le32_run _ _ s Ht Htotal)).
  unfold is_u32 in *. rewrite !u64_small by (unfold is_u64; nia).
  destruct (decide (m_start e = 0 ∧ m_total e = 0)); [done|].
  by destruct (m_boot e).
Qed.
End mbr.

(** * A file system on a partition of a disk in memory *)

From Stdlib Require Import String.
From S2P Require Import Prelude Physical Transfer Buffers Vnode Vfs DemoFs DemoFsRead DemoFsFollow DemoFsContract.
From S2P Require Import DiskNames FsTable Partition.

(** ** The state of all drivers *)
Record system := System {
  sys_nodes : gmap Z vnode_data;
  sys_partitions : gmap Z partition_data;
  sys_table : fs_table;
  sys_names : disk_names;
}.

#[local] Instance system_nodes : Holds system (gmap Z vnode_data).
Proof. refine {| held := sys_nodes; hold a d := System a (sys_partitions d) (sys_table d) (sys_names d) |}. done. Defined.
#[local] Instance system_partitions : Holds system (gmap Z partition_data).
Proof. refine {| held := sys_partitions; hold a d := System (sys_nodes d) a (sys_table d) (sys_names d) |}. done. Defined.
#[local] Instance system_table : Holds system fs_table.
Proof. refine {| held := sys_table; hold a d := System (sys_nodes d) (sys_partitions d) a (sys_names d) |}. done. Defined.
#[local] Instance system_names : Holds system disk_names.
Proof. refine {| held := sys_names; hold a d := System (sys_nodes d) (sys_partitions d) (sys_table d) a |}. done. Defined.

(** The disk, file 1, has one partition, file 3: its sectors 3 to 14. *)
Definition disk_image : gmap Z Z := image_at (3 * 512).
Definition the_partition : partition_data := Partition NULL 1 0 (3 * 512) (12 * 512) 512 0 false.
Definition partition_file : file := File true true 0 0 0 1 4.
Definition partition_vnode : vnode :=
  Vnode (VnodeOps NULL 201 202 NULL NULL NULL 203 204 NULL NULL) 5 1 (Stat 8 0 0 1 (12 * 512) 512) 0.

Definition all_ready (s : vfs system) : Prop :=
  disk_open s ∧ files s !! 3 = Some partition_file ∧ vnodes s !! 4 = Some partition_vnode ∧
  sys_partitions (drv s) !! 5 = Some the_partition.

#[local] Existing Instance bump_allocator.
#[local] Instance disk_drivers : Drivers system := ram_drivers disk_image.
#[local] Instance whole_disk : SectorDisk 1 disk_image (16 * SECTOR_SIZE) all_ready.
Proof.
  apply (ram_disk disk_image (16 * SECTOR_SIZE) all_ready (conj eq_refl eq_refl)).
  - by intros s (? & _).
  - intros s m H. exact H.
Qed.

Definition ready_state : vfs system :=
  Vfs {[ 2 := disk_vnode; 4 := partition_vnode ]} {[ 1 := disk_file; 3 := partition_file ]} ∅ ∅ None false 1 None
    (Memory ∅ ∅)
    (System ∅ {[ 5 := the_partition ]} (FsTable (replicate 8 None) 0 false) (DiskNames (replicate 8 0) 0)).

Lemma disk_image_bytes a x : shifted (start_byte the_partition) disk_image !! a = Some x → is_u8 x.
Proof.
  assert (map_Forall (λ _ x, 0 ≤ x < 2 ^ 8) (shifted (start_byte the_partition) disk_image)) as H
    by (refine (bool_decide_unpack _ _); vm_compute; exact I).
  intros E. exact (H a x E).
Qed.

(** A name is looked up through the partition. *)
Lemma partition_is_disk_witness :
  ∃ s', demofs_follow_loop (LOW := partition_drivers 201 202 203 204) 0x1000 1 (Demofs 3 (Z.lor 9 (2 ^ 31)))
      (Z.lor 9 (2 ^ 31)) [97; 98] 0 0 ready_state = Done ((0, 10, 600), s').
Proof.
  destruct (follow_loop_run (LOW := partition_drivers 201 202 203 204) 3 (shifted (start_byte the_partition) disk_image) (length_bytes the_partition) all_ready
    (DISK := partition_is_disk 1 disk_image (16 * SECTOR_SIZE) all_ready 201 202 203 204 3 4 5 partition_file partition_vnode
       the_partition ltac:(done) ltac:(done) ltac:(done) ltac:(done) ltac:(done) eq_refl ltac:(done) ltac:(done)
       ltac:(intros s (_ & H); exact H))
    0x1000 (Demofs 3 (Z.lor 9 (2 ^ 31))) eq_refl ltac:(lia) ltac:(unfold SECTOR_SIZE; lia) disk_image_bytes
    1 1 (Z.lor 9 (2 ^ 31)) [97; 98] 0 0 [Entry [97; 98] 10 600] ready_state) as (s' & E & _).
  - split; [done|]. done.
  - set_solver by lia.
  - simpl. lia.
  - lia.
  - vm_compute. reflexivity.
  - exists s'. exact E.
Defined.

(** ** From the partition table to a file

    The whole way: the disk has a partition table with one entry, for a partition
    with the demo file system, which is mounted. *)
Definition demofs_layer (low : Drivers system) : Drivers system := demofs_drivers (LOW := low) 0x1000 1 2 3 4 5 6 7 8 100.
Definition the_drivers : Drivers system := demofs_layer (partition_drivers (LOW := disk_drivers) 201 202 203 204).

#[local] Instance the_creators : MountCreators system := {|
  call_mount_creator _ partition :=
    DemofsMountCreator (LOW := partition_drivers (LOW := disk_drivers) 201 202 203 204) 1 2 3 4 5 6 7 8 0x3000 partition NULL
|}.

Definition table_bytes : list Z := mbr_bytes (Mbr true 0x83 3 12) [1; 2; 3] [4; 5; 6] ++ replicate 48 0 ++ [0x55; 0xAA].
Definition mapped_disk : memory := Memory ∅ (store_bytes ∅ (0x8000 + 0x1BE) table_bytes).
#[local] Instance the_mappings : Mappings system := {| map_file _ _ := mret 0x8000; unmap _ _ := mret tt |}.

Definition boot_state : vfs system :=
  Vfs {[ 2 := disk_vnode ]} {[ 1 := disk_file ]} ∅ ∅ (Some []) false 1 None mapped_disk
    (System ∅ ∅ (FsTable (replicate 8 None) 0 false) (DiskNames (replicate 8 0) 0)).

Lemma mbr_entry_roundtrip_witness :
  TryCreateMbrPartition 201 202 203 204 the_drivers 1 0x8000 0 512 boot_state =
  CreatePartition 201 202 203 204 the_drivers 1 1536 6144 0 512 0x83 true boot_state.
Proof.
  refine (mbr_entry_roundtrip the_drivers 201 202 203 204 (Mbr true 0x83 3 12) [1; 2; 3] [4; 5; 6] 1 0x8000 0 512 boot_state
    _ _ eq_refl eq_refl _ _); [done|done|done|].
  refine (bool_decide_unpack _ _). vm_compute. exact I.
Defined.

Definition boot_and_read : M (vfs system) (list Z * list (list Z)) :=
  InitFilesystemTable 77;;
  CreateDiskPartitions 201 202 203 204 the_drivers 1;;
  s ← get;
  '(_, f) ← OpenFile (Drivers0 := the_drivers) (Some (chars "drv0:/ab")) 0 0;
  '(_, io) ← ReadFile (Drivers0 := the_drivers) f (Some (CreateKernelTransfer 0x2000 8 498 TRANSFER_READ));
  s ← get;
  mret (load_bytes (bytes (user s)) 0x2000 8, mount_name <$> default [] (mount_points s)).

Example boot_and_read_run :
  match boot_and_read boot_state with
  | Done (r, _) => r = ([247; 248; 249; 250; 0; 1; 2; 3], [chars "drv0"])
  | _ => False
  end.
Proof. vm_compute. reflexivity. Qed.
