(* ===== verification/Boxes.v ===== *)
(** * The mailboxes that devices own

    A driver keeps the handles of its mailboxes. The calls are the programs of
    [Mailbox] over the semaphores of the box, and the transfers of a call are made
    on the memory of the address space. A call that waits blocks: in between other
    threads would run, which is the subject of [MailboxConc]. *)

From S2P Require Import Prelude Physical Transfer Buffers ThreadList Scheduler Semaphore Mailbox MailboxConc MailboxTheorems MailboxAccess Vnode.

Record box := Box { box_sems : counts; box_mb : mailbox }.

(** ** The calls on one byte, of a thread alone *)
Section bytes.
Context (size : Z) (size_small : size < 2 ^ 31).
#[local] Instance byte_ops : SemOps counts := count_sem_ops size.
Implicit Types (f : counts) (b : mailbox) (x : memory).

#[local] Ltac next E := rewrite (interp_bind_done size _ _ _ _ _ E).
#[local] Ltac counts := unfold counts_are, set_count in *; simpl in *; destruct_and?; split_and!; simpl; lia.

Lemma Add_alone t c f b x q :
  holds size f b q → length q < size →
  ∃ f' b', interp (MailboxAdd t c) (World f b x) = Done (0, World f' b' x) ∧ holds size f' b' (q ++ [c]).
Proof.
  intros Hh Hl. unfold MailboxAdd. destruct (wait_addable_alone size t f b x q Hh) as [Hroom _].
  destruct (Hroom Hl) as (f1 & E1 & Ha & Hg & Hi & He & Hu). next E1. rewrite decide_False by lia.
  assert (f1 InnerMtx < sem_max size InnerMtx) as Hin by (simpl; lia).
  next (acquire_free size InnerMtx (-1) f1 b x Hin). set (f2 := set_count InnerMtx _ f1).
  destruct Hh as (_ & s0 & Hr).
  destruct (add_byte_alone size size_small c f2 b x s0 q (proj1 (ring_idle _ _ _ _) Hr) Hl) as (b' & E3 & Hr3). next E3.
  assert (0 < 1 ≤ f2 InnerMtx) as H4 by (unfold f2, set_count; simpl; lia).
  next (release_some size InnerMtx 1 f2 b' x H4). set (f3 := set_count InnerMtx _ f2).
  assert (0 < 1 ≤ f3 AddMtx) as H5 by (unfold f3, f2, set_count; simpl; lia).
  next (release_some size AddMtx 1 f3 b' x H5). set (f4 := set_count AddMtx _ f3).
  assert (0 < 1 ≤ f4 FullSem) as H6 by (unfold f4, f3, f2, set_count; simpl; lia).
  next (release_some size FullSem 1 f4 b' x H6). do 2 eexists. split; [reflexivity|]. split.
  - rewrite length_app. unfold f4, f3, f2. counts.
  - exists s0. by apply ring_idle.
Qed.

Lemma Get_alone t c0 f b x c q :
  holds size f b (c :: q) →
  ∃ f' b', interp (MailboxGet t c0) (World f b x) = Done ((0, c), World f' b' x) ∧ holds size f' b' q.
Proof.
  intros Hh. unfold MailboxGet. destruct (wait_gettable_alone size t f b x (c :: q) Hh) as [Hsome _].
  destruct Hsome as (f1 & E1 & Ha & Hg & Hi & He & Hu); [simpl; lia|]. next E1. rewrite decide_False by lia.
  assert (f1 InnerMtx < sem_max size InnerMtx) as Hin by (simpl; lia).
  next (acquire_free size InnerMtx (-1) f1 b x Hin). set (f2 := set_count InnerMtx _ f1).
  destruct Hh as (_ & s0 & Hr). pose proof (r_room _ _ _ _ _ Hr) as Hroom.
  destruct (get_byte_alone size size_small f2 b x s0 c q (proj1 (ring_idle _ _ _ _) Hr)) as (b' & s1 & E3 & Hr3). next E3.
  assert (0 < 1 ≤ f2 InnerMtx) as H4 by (unfold f2, set_count; simpl; lia).
  next (release_some size InnerMtx 1 f2 b' x H4). set (f3 := set_count InnerMtx _ f2).
  assert (0 < 1 ≤ f3 GetMtx) as H5 by (unfold f3, f2, set_count; simpl; lia).
  next (release_some size GetMtx 1 f3 b' x H5). set (f4 := set_count GetMtx _ f3).
  assert (0 < 1 ≤ f4 EmptySem) as H6 by (unfold f4, f3, f2, set_count; simpl in *; lia).
  next (release_some size EmptySem 1 f4 b' x H6). do 2 eexists. split; [reflexivity|]. split.
  - unfold f4, f3, f2. simpl in Hroom. counts.
  - exists s1. by apply ring_idle.
Qed.
End bytes.

(** ** The calls on the boxes of a device *)
Section boxes.
Context {D : Type} {HB : Holds D (gmap Z box)}.
Implicit Types s : vfs D.

Definition get_boxes : M (vfs D) (gmap Z box) := s ← get; mret (held (drv s)).
Definition set_boxes (m : gmap Z box) : M (vfs D) unit := modify (λ s, with_drv (hold m (drv s)) s).

(** A call on the mailbox at [h]. *)
Definition call_box {A} (h : Z) (p : prog A) : M (vfs D) A :=
  m ← get_boxes;
  b ← deref (m !! h);
  s ← get;
  match @interp counts (count_sem_ops (total_size (box_mb b))) _ p (World (box_sems b) (box_mb b) (user s)) with
  | Done (a, w) =>
    modify (with_user (w_mem w));;
    set_boxes (<[h := Box (w_sems w) (w_box w)]> m);;
    mret a
  | Panicked c => panic c
  | Faulted => fault
  | Blocked => block
  | Exhausted => exhausted
  end.

Definition box_add (h timeout c : Z) : M (vfs D) Z := call_box h (MailboxAdd timeout c).
Definition box_get (h timeout c0 : Z) : M (vfs D) (Z * Z) := call_box h (MailboxGet timeout c0).
Definition box_access (h : Z) (tr : transfer) : M (vfs D) (Z * transfer) :=
  call_box h (MailboxAccess (S (Z.to_nat (length_remaining tr))) tr).

(** The buffer holds what the heap left in it. *)
Definition box_create `{!Allocator} (size : Z) (buffer : list Z) : M (vfs D) Z :=
  m ← get_boxes;
  let h := pick (dom m) in
  set_boxes (<[h := Box (initial_counts size)
    {| data := buffer; total_size := size; used_size := 0; start_pos := 0; end_pos := 0;
       full_sem := 1; empty_sem := 2; add_mtx := 3; get_mtx := 4; inner_mtx := 5 |}]> m);;
  mret h.

(** The semaphores that are not at zero are kept, and leak. *)
Definition box_destroy (h : Z) : M (vfs D) unit :=
  m ← get_boxes;
  _ ← deref (m !! h);
  set_boxes (delete h m).

(** *** What they do *)
Definition box_holds (m : gmap Z box) (h size : Z) (q : list Z) : Prop :=
  0 < size < 2 ^ 31 ∧ ∃ b, m !! h = Some b ∧ holds size (box_sems b) (box_mb b) q.

Lemma box_holds_total m h size q : box_holds m h size q →
  ∃ b, m !! h = Some b ∧ total_size (box_mb b) = size ∧ holds size (box_sems b) (box_mb b) q.
Proof. intros (_ & b & Hb & Hh). exists b. split_and!; [done| |done]. destruct Hh as (_ & s0 & []). done. Qed.

Lemma box_room m h size q : box_holds m h size q → length q ≤ size.
Proof. intros (_ & b & _ & _ & s0 & []). done. Qed.

(** The other boxes stay. *)
Definition only_box (h : Z) (m m' : gmap Z box) : Prop := ∀ h', h' ≠ h → m' !! h' = m !! h'.

Lemma box_holds_other h h' m m' size q : only_box h m m' → h' ≠ h → box_holds m h' size q → box_holds m' h' size q.
Proof. intros Ho Hne (Hs & b & Hb & Hh). split; [done|]. exists b. by rewrite Ho. Qed.

Lemma call_box_run {A} h size q (p : prog A) f' b' x' (a : A) b s :
  held (drv s) !! h = Some b → total_size (box_mb b) = size → 0 < size < 2 ^ 31 →
  @interp counts (count_sem_ops size) _ p (World (box_sems b) (box_mb b) (user s)) = Done (a, World f' b' x') →
  holds size f' b' q →
  ∃ d m', call_box h p s = Done (a, with_drv d (with_user x' s)) ∧ d = hold m' (drv s) ∧ held d = m' ∧
    box_holds m' h size q ∧ only_box h (held (drv s)) m'.
Proof.
  intros Hb Ht Hsz E Hh. set (m' := <[h := Box f' b']> (held (drv s) : gmap Z box)).
  exists (hold m' (drv s)), m'. split_and!; [|done|apply held_hold| |].
  - unfold call_box, get_boxes. mred. rewrite Hb. mred. rewrite Ht, E. done.
  - split; [done|]. exists (Box f' b'). split; [apply lookup_insert_eq|done].
  - intros h' Hne. by apply lookup_insert_ne.
Qed.

Lemma box_add_run h size q t c s :
  box_holds (held (drv s)) h size q → length q < size →
  ∃ d m', box_add h t c s = Done (0, with_drv d s) ∧ d = hold m' (drv s) ∧ held d = m' ∧
    box_holds m' h size (q ++ [c]) ∧ only_box h (held (drv s)) m'.
Proof.
  intros Hb Hl. destruct (box_holds_total _ _ _ _ Hb) as (b & Hm & Ht & Hh). destruct Hb as [Hsz _].
  destruct (Add_alone size (proj2 Hsz) t c _ _ (user s) q Hh Hl) as (f' & b' & E & Hh').
  assert (with_user (user s) s = s) as Hu by (by destruct s).
  destruct (call_box_run h size _ _ f' b' (user s) 0 b s Hm Ht Hsz E Hh') as (d & m' & H). rewrite Hu in H. by exists d, m'.
Qed.

Lemma box_get_run h size c q t c0 s :
  box_holds (held (drv s)) h size (c :: q) →
  ∃ d m', box_get h t c0 s = Done ((0, c), with_drv d s) ∧ d = hold m' (drv s) ∧ held d = m' ∧
    box_holds m' h size q ∧ only_box h (held (drv s)) m'.
Proof.
  intros Hb. destruct (box_holds_total _ _ _ _ Hb) as (b & Hm & Ht & Hh). destruct Hb as [Hsz _].
  destruct (Get_alone size (proj2 Hsz) t c0 _ _ (user s) c q Hh) as (f' & b' & E & Hh').
  assert (with_user (user s) s = s) as Hu by (by destruct s).
  destruct (call_box_run h size _ _ f' b' (user s) (0, c) b s Hm Ht Hsz E Hh') as (d & m' & H). rewrite Hu in H. by exists d, m'.
Qed.

(** A transfer on a bounded stream of [size] bytes that holds [q]: what it answers,
    the memory after it and what the stream holds then. *)
Definition stream_access (size : Z) (tr : transfer) (x : memory) (q : list Z) : outcome ((Z * transfer) * memory * list Z) :=
  let n := Z.min (length_remaining tr) (if is_write tr then size - length q else length q) in
  if decide (n ≤ 0) then if blockable tr then Blocked else Done ((EAGAIN, tr), x, q)
  else if is_write tr then Done ((0, advance tr n), x, q ++ mem_take x tr n)
  else Done ((0, advance tr n), mem_put x tr (take (Z.to_nat n) q), drop (Z.to_nat n) q).

Lemma box_access_run h size q tr s :
  box_holds (held (drv s)) h size q → usable (user s) tr → 0 < length_remaining tr →
  match stream_access size tr (user s) q with
  | Done (r, x', q') => ∃ d m', box_access h tr s = Done (r, with_drv d (with_user x' s)) ∧ d = hold m' (drv s) ∧
      held d = m' ∧ box_holds m' h size q' ∧ only_box h (held (drv s)) m'
  | _ => box_access h tr s = Blocked
  end.
Proof.
  intros Hb Hu Hn. destruct (box_holds_total _ _ _ _ Hb) as (b & Hm & Ht & Hh). pose proof Hb as [Hsz _].
  pose proof (box_room _ _ _ _ Hb) as Hroom. unfold stream_access.
  set (fuel := S (Z.to_nat (length_remaining tr))). assert (0 < length_remaining tr < fuel) as Hf by lia.
  set (w := World (box_sems b) (box_mb b) (user s)).
  assert (∀ r f' b' x' q',
      @interp counts (count_sem_ops size) _ (MailboxAccess fuel tr) w = Done (r, World f' b' x') → holds size f' b' q' →
      ∃ d m', box_access h tr s = Done (r, with_drv d (with_user x' s)) ∧ d = hold m' (drv s) ∧ held d = m' ∧
        box_holds m' h size q' ∧ only_box h (held (drv s)) m') as Hrun.
  { intros r f' b' x' q' E Hh'. by apply (call_box_run h size _ _ f' b' x' r b s). }
  assert (@interp counts (count_sem_ops size) _ (MailboxAccess fuel tr) w = Blocked → box_access h tr s = Blocked) as Hblock.
  { intros E. unfold box_access, call_box, get_boxes. mred. rewrite Hm. mred. unfold fuel, w in E. by rewrite Ht, E. }
  destruct (is_write tr) eqn:Hw.
  - destruct (decide (_ ≤ 0)) as [Hfull|Hsome].
    + assert (Z.of_nat (length q) = size) as Hlq by lia. unfold MailboxAccess in Hrun, Hblock. rewrite decide_False in Hrun, Hblock by lia.
      destruct (write_round size (proj2 Hsz) (Z.to_nat (length_remaining tr)) false _ _ (user s) tr q Hw Hu Hn Hh) as (H1 & H2 & _).
      unfold access_timeout in H1, H2. destruct (blockable tr); [by apply Hblock, H1|].
      destruct (H2 Hlq eq_refl) as (f' & E & Hh'). by apply (Hrun _ f' (box_mb b)).
    + destruct (write_access size Hsz fuel _ _ (user s) tr q Hh Hu Hw Hf ltac:(lia)) as (f' & b' & E & Hh').
      by apply (Hrun _ f' b').
  - destruct (decide (_ ≤ 0)) as [Hfull|Hsome].
    + assert (q = []) as -> by (destruct q; [done|simpl in Hfull; lia]).
      unfold MailboxAccess in Hrun, Hblock. rewrite decide_False in Hrun, Hblock by lia.
      destruct (read_round size (proj2 Hsz) (Z.to_nat (length_remaining tr)) false _ _ (user s) tr [] Hw Hu Hn Hh) as (H1 & H2 & _).
      unfold access_timeout in H1, H2. destruct (blockable tr); [by apply Hblock, H1|].
      destruct (H2 eq_refl eq_refl) as (f' & E & Hh'). by apply (Hrun _ f' (box_mb b)).
    + destruct (read_access size Hsz fuel _ _ (user s) tr q Hh Hu Hw Hf ltac:(intros ->; simpl in Hsome; lia)) as (f' & b' & E & Hh').
      by apply (Hrun _ f' b').
Qed.

(** A fresh box is empty. *)
Lemma box_create_run `{!Allocator} size buffer s :
  0 < size < 2 ^ 31 → Z.of_nat (length buffer) = size →
  ∃ h d m', box_create size buffer s = Done (h, with_drv d s) ∧ d = hold m' (drv s) ∧ held d = m' ∧ h ≠ NULL ∧
    h ∉ dom (held (drv s) : gmap Z box) ∧ box_holds m' h size [] ∧ only_box h (held (drv s)) m'.
Proof.
  intros Hsz Hl. unfold box_create, get_boxes. mred. set (m := (held (drv s) : gmap Z box)).
  set (h := pick (dom m)). set (b := Box _ _). set (m' := <[h := b]> m).
  exists h, (hold m' (drv s)), m'. pose proof (pick_fresh (dom m)) as Hnew. pose proof (pick_nonnull (dom m)) as Hnull.
  split_and!; [done|done|apply held_hold|done|done| |].
  - split; [done|]. exists b. split; [apply lookup_insert_eq|]. split.
    + unfold counts_are. cbn. lia.
    + exists 0. split; cbn; try done; try lia.
  - intros h' Hne. by apply lookup_insert_ne.
Qed.
End boxes.
