(* ===== verification/Pipe.v ===== *)
(** * dev/pipe.c: unnamed pipes

    [BreakPipe] is in [Vnode], which calls it when a file is closed. *)

From S2P Require Import Prelude Physical Transfer Buffers ThreadList Scheduler Semaphore Mailbox MailboxConc MailboxAccess Vnode Vfs VfsOpen Boxes.

Definition PIPE_SIZE : Z := 2048.
(** [include/errno.h] and [include/signal.h] of the C library. *)
Definition EPIPE : Z := 26.
Definition SIGPIPE : Z := 11.

(** What devices need of signals: [RaiseSignal(GetThread(), sig, false)] and
    [RaiseSignalToProcessGroup]. *)
Class Signals (D : Type) : Type := {
  raise_current : Z → M (vfs D) Z;
  raise_group : Z → Z → M (vfs D) unit;     (* process group, signal *)
}.

Section pipe.
Context {D : Type} {HB : Holds D (gmap Z box)} {SG : Signals D} {AL : Allocator}.
(** The address of the function. *)
Variable p_access : Z.

Definition ReadWrite (n : Z) (tr : transfer) : M (vfs D) (Z * transfer) :=
  v ← get_vnode n;
  s ← get;
  pipe ← deref (pipes s !! vn_data v);
  if broken pipe then
    match direction tr with
    | TRANSFER_READ => mret (0, tr)
    | TRANSFER_WRITE => _ ← raise_current SIGPIPE; mret (EPIPE, tr)
    end
  else box_access (mbox pipe) tr.

Definition dev_ops : vnode_operations :=
  {| check_open := NULL; read := p_access; write := p_access; ioctl := NULL; close := NULL;
     truncate := NULL; create := NULL; follow := NULL; unlink := NULL; delete_op := NULL |}.

(** The drivers of the system: this one, above those below. *)
Definition pipe_drivers (LOW : Drivers D) : Drivers D := {|
  call_check_open p := call_check_open p;
  call_read p := if decide (p = p_access) then ReadWrite else call_read p;
  call_write p := if decide (p = p_access) then ReadWrite else call_write p;
  call_ioctl p := call_ioctl p;
  call_close p := call_close p;
  call_truncate p := call_truncate p;
  call_create p := call_create p;
  call_follow p := call_follow p;
  call_unlink p := call_unlink p;
  call_delete p := call_delete p;
|}.

(** [buffer]: what the heap left in the memory of the mailbox. *)
Definition CreatePipe (buffer : list Z) : M (vfs D) Z :=
  d ← NextDevId;
  n ← CreateVnode dev_ops
    {| st_mode := Z.lor S_IFIFO 511; st_nlink := 1; st_dev := d; st_ino := 0; st_size := 0; st_blksize := 0 |};
  s ← get;
  let pipe := pick (live_objects s) in
  h ← box_create PIPE_SIZE buffer;
  modify (λ s, with_pipes (<[pipe := {| mbox := h; broken := false; sig := PIPE_SIGNATURE |}]> (pipes s)) s);;
  v ← get_vnode n;
  set_vnode n {| v with vn_data := pipe |};;
  mret n.
End pipe.

(** ** A pipe is a bounded stream of bytes *)
Section stream.
Context {D : Type} {HB : Holds D (gmap Z box)} {SG : Signals D} {AL : Allocator} (LOW : Drivers D) (p_access : Z).
Hypothesis Hop : p_access ≠ NULL.
Implicit Types s : vfs D.
Abbreviation DR := (pipe_drivers p_access LOW).

(** The vnode [n] is a pipe that holds [q]. *)
Definition is_pipe s (n : Z) (b : bool) (q : list Z) : Prop :=
  n ≠ NULL ∧ ∃ v p, vnodes s !! n = Some v ∧ 0 < reference_count v ∧ ops v = dev_ops p_access ∧
    IFTODT (st_mode (vn_stat v)) = DT_FIFO ∧ pipes s !! vn_data v = Some p ∧ sig p = PIPE_SIGNATURE ∧ broken p = b ∧
    box_holds (held (drv s)) (mbox p) PIPE_SIZE q.

(** Memory, and the boxes of a device that keeps the vnodes and pipes. *)
Lemma is_pipe_after s n b q q' (d : D) x :
  is_pipe s n b q → (∀ h, box_holds (held (drv s)) h PIPE_SIZE q → box_holds (held d) h PIPE_SIZE q') →
  is_pipe (with_drv d (with_user x s)) n b q'.
Proof. intros (Hn & v & p & H1 & H2 & H3 & H4 & H5 & H6 & H7 & H8) Hq. split; [done|]. exists v, p. split_and!; auto. Qed.

Lemma pipe_read_call s n b q tr : is_pipe s n b q → is_write tr = false →
  VnodeOpRead (Drivers0 := DR) n tr s = ReadWrite n tr s.
Proof.
  intros (Hn & v & p & Hv & Hc & Ho & _) Hd. unfold VnodeOpRead.
  rewrite (M_bind_done _ _ _ _ _ (CheckVnode_run n v s Hn Hv Hc)), (M_bind_done _ _ _ _ _ (get_vnode_run n v s Hv)), Ho.
  unfold is_write in Hd. destruct (direction tr); [|done]. cbn [read dev_ops]. rewrite decide_False by done.
  cbn [call_read pipe_drivers]. by rewrite decide_True by done.
Qed.
Lemma pipe_write_call s n b q tr : is_pipe s n b q → is_write tr = true →
  VnodeOpWrite (Drivers0 := DR) n tr s = ReadWrite n tr s.
Proof.
  intros (Hn & v & p & Hv & Hc & Ho & _) Hd. unfold VnodeOpWrite.
  rewrite (M_bind_done _ _ _ _ _ (CheckVnode_run n v s Hn Hv Hc)), (M_bind_done _ _ _ _ _ (get_vnode_run n v s Hv)), Ho.
  unfold is_write in Hd. destruct (direction tr); [done|]. cbn [write dev_ops]. rewrite decide_False by done.
  cbn [call_write pipe_drivers]. by rewrite decide_True by done.
Qed.

Definition pipe_op (n : Z) (tr : transfer) : M (vfs D) (Z * transfer) :=
  if is_write tr then VnodeOpWrite (Drivers0 := DR) n tr else VnodeOpRead (Drivers0 := DR) n tr.

Lemma pipe_op_run s n b q tr : is_pipe s n b q → pipe_op n tr s = ReadWrite n tr s.
Proof.
  intros H. unfold pipe_op. destruct (is_write tr) eqn:Hw; [by apply (pipe_write_call s n b q)|by apply (pipe_read_call s n b q)].
Qed.

(** C30: through its vnode, a pipe is a bounded stream of bytes: a write adds what
    fits and a read takes what there is, in order; with no room or nothing there
    they wait or answer EAGAIN. Once broken, reads end at once and a write raises
    SIGPIPE. *)
Theorem pipe_is_stream s n (b : bool) q tr :
  is_pipe s n b q → usable (user s) tr → 0 < length_remaining tr →
  if b then pipe_op n tr s = (if is_write tr then _ ← raise_current SIGPIPE; mret (EPIPE, tr) else mret (0, tr)) s else
  match stream_access PIPE_SIZE tr (user s) q with
  | Done (r, x, q') => ∃ d, pipe_op n tr s = Done (r, with_drv d (with_user x s)) ∧ is_pipe (with_drv d (with_user x s)) n false q'
  | _ => pipe_op n tr s = Blocked
  end.
Proof.
  intros H Hu Hl. rewrite (pipe_op_run s n b q) by done.
  destruct H as (Hn & v & p & Hv & Hc & Ho & Ht & Hp & Hs & Hb & Hh).
  assert (ReadWrite n tr s = (if broken p then if is_write tr then _ ← raise_current SIGPIPE; mret (EPIPE, tr) else mret (0, tr)
      else box_access (mbox p) tr) s) as ->.
  { unfold ReadWrite. rewrite (M_bind_done _ _ _ _ _ (get_vnode_run n v s Hv)). mred. rewrite Hp. mred.
    destruct (broken p); [|done]. unfold is_write. by destruct (direction tr). }
  rewrite Hb. destruct b; [done|]. pose proof (box_access_run (mbox p) PIPE_SIZE q tr s Hh Hu Hl) as E.
  destruct (stream_access PIPE_SIZE tr (user s) q) as [[[r x] q']| | | |]; [|exact E..].
  destruct E as (d & m' & E & _ & Hd & Hh' & _). exists d. split; [exact E|]. split; [done|].
  exists v, p. split_and!; try done. cbn. by rewrite Hd.
Qed.

(** What was not read when the other end is closed is lost: closing a file breaks
    the pipe at once, and reads then find its end. *)
Theorem close_drops_bytes s n f v q tr :
  is_pipe s n false q → q ≠ [] → f ≠ NULL → files s !! f = Some v → node v = n → f_references v = 1 →
  (∀ w, vnodes s !! n = Some w → reference_count w = 2) → is_write tr = false →
  ∃ s', DereferenceFile (Drivers0 := DR) f s = Done (tt, s') ∧ pipe_op n tr s' = Done ((0, tr), s').
Proof.
  intros (Hn & w & p & Hw & Hc & Ho & Ht & Hp & Hs & Hb & Hh) Hq Hf Hv Hnode Hr H2 Hwr. specialize (H2 w Hw).
  set (s1 := with_files (<[f := {| v with f_references := 0 |}]> (files s)) s).
  set (s2 := with_pipes (<[vn_data w := {| p with broken := true |}]> (pipes s)) s1).
  set (s3 := with_vnodes (<[n := set_references 1 w]> (vnodes s)) s2).
  exists (with_files (delete f (files s3)) s3). split.
  - unfold DereferenceFile. rewrite bool_decide_eq_true_2 by done. rewrite (M_bind_done (c_assert true) _ s tt s) by done.
    rewrite (M_bind_done _ _ _ _ _ (get_file_run f v s Hv)), Hr, bool_decide_eq_true_2 by done.
    rewrite (M_bind_done (c_assert true) _ s tt s) by done. rewrite (M_bind_done _ _ s tt s1) by done.
    rewrite (M_bind_done (get_file f) _ s1 {| v with f_references := 0 |} s1) by (apply get_file_run, lookup_insert_eq).
    rewrite decide_True by done. cbn [node]. rewrite Hnode.
    rewrite (M_bind_done (get_vnode n) _ s1 w s1) by (by apply get_vnode_run).
    rewrite Ht, decide_True by done.
    rewrite (M_bind_done (BreakPipe n) _ s1 tt s2).
    2: { unfold BreakPipe. rewrite (M_bind_done (get_vnode n) _ s1 w s1) by (by apply get_vnode_run). mred. cbn [pipes s1 with_files].
         rewrite Hp. mred. by rewrite decide_True by done. }
    rewrite (M_bind_done (DereferenceVnode (Drivers0 := DR) n) _ s2 tt s3); [done|].
    unfold DereferenceVnode. rewrite (M_bind_done _ _ _ _ _ (CheckVnode_run n w s2 Hn Hw Hc)).
    rewrite (M_bind_done (get_vnode n) _ s2 w s2) by (by apply get_vnode_run).
    rewrite H2, bool_decide_eq_true_2 by done. rewrite (M_bind_done (c_assert true) _ s2 tt s2) by done.
    rewrite (M_bind_done _ _ s2 tt s3) by done.
    rewrite (M_bind_done (get_vnode n) _ s3 (set_references 1 w) s3) by (apply get_vnode_run, lookup_insert_eq). done.
  - set (s4 := with_files _ _).
    assert (is_pipe s4 n true q) as H4.
    { split; [done|]. exists (set_references 1 w), {| p with broken := true |}. split_and!; try done; apply lookup_insert_eq. }
    rewrite (pipe_op_run s4 n true q tr H4). unfold ReadWrite.
    rewrite (M_bind_done (get_vnode n) _ s4 (set_references 1 w) s4) by (apply get_vnode_run, lookup_insert_eq).
    mred. cbn [vn_data set_references pipes s4 s3 s2 with_files with_vnodes with_pipes]. rewrite lookup_insert_eq. mred. cbn [broken].
    unfold is_write in Hwr. by destruct (direction tr).
Qed.

(** A new pipe is an empty stream. *)
Lemma CreatePipe_run s buffer :
  Z.of_nat (length buffer) = PIPE_SIZE →
  ∃ n s', CreatePipe p_access buffer s = Done (n, s') ∧ user s' = user s ∧ is_pipe s' n false [].
Proof.
  intros Hl. set (s0 := with_dev_id (dev_id s + 1) s).
  set (v0 := {| ops := dev_ops p_access; vn_data := NULL; reference_count := 1; vn_flags := 0;
    vn_stat := {| st_mode := Z.lor S_IFIFO 511; st_nlink := 1; st_dev := dev_id s; st_ino := 0; st_size := 0; st_blksize := 0 |} |}).
  set (n := pick (live_objects s0)). set (s1 := with_vnodes (<[n := v0]> (vnodes s0)) s0).
  set (a := pick (live_objects s1)).
  destruct (box_create_run PIPE_SIZE buffer s1) as (h & d & m' & E & _ & Hd & _ & _ & Hh & _); [by unfold PIPE_SIZE|done|].
  set (s2 := with_drv d s1). set (pp := {| mbox := h; broken := false; sig := PIPE_SIGNATURE |}).
  set (s3 := with_pipes (<[a := pp]> (pipes s2)) s2).
  exists n, (with_vnodes (<[n := {| v0 with vn_data := a |}]> (vnodes s3)) s3). split_and!.
  - unfold CreatePipe. rewrite (M_bind_done NextDevId _ s (dev_id s) s0) by done.
    rewrite (M_bind_done (CreateVnode _ _) _ s0 n s1) by done. rewrite (M_bind_done get _ s1 s1 s1) by done. fold a.
    rewrite (M_bind_done _ _ s1 h s2 E). rewrite (M_bind_done (modify _) _ s2 tt s3) by done.
    rewrite (M_bind_done (get_vnode n) _ s3 v0 s3) by (apply get_vnode_run, lookup_insert_eq). done.
  - done.
  - split; [apply pick_nonnull|]. exists {| v0 with vn_data := a |}, pp. split_and!; try done.
    + apply lookup_insert_eq.
    + apply lookup_insert_eq.
    + cbn. by rewrite Hd.
Qed.
End stream.

(** ** A run: three bytes in, three bytes out *)
#[local] Instance only_boxes : Holds (gmap Z box) (gmap Z box).
Proof. refine {| held d := d; hold a _ := a |}. done. Defined.
#[local] Instance no_signals : Signals (gmap Z box) := {| raise_current _ := mret 0; raise_group _ _ := mret tt |}.
#[local] Existing Instance bump_allocator.
Definition no_drivers {D} : Drivers D := {|
  call_check_open _ _ _ := fault; call_read _ _ _ := fault; call_write _ _ _ := fault; call_ioctl _ _ _ _ := fault;
  call_close _ _ := fault; call_truncate _ _ _ := fault; call_create _ _ _ _ _ _ := fault; call_follow _ _ _ := fault;
  call_unlink _ _ := fault; call_delete _ _ := fault |}.
Definition before_pipe : vfs (gmap Z box) :=
  Vfs ∅ ∅ ∅ ∅ None false 1 None (Memory ∅ {[ 0x1000 := 7; 0x1001 := 8; 0x1002 := 9 ]}) ∅.

Lemma pipe_is_stream_witness :
  ∃ n s s', CreatePipe 300 (replicate 2048 0) before_pipe = Done (n, s) ∧
    pipe_op no_drivers 300 n (CreateKernelTransfer 0x1000 3 0 TRANSFER_WRITE) s =
      Done ((0, advance (CreateKernelTransfer 0x1000 3 0 TRANSFER_WRITE) 3), s') ∧ is_pipe 300 s' n false [7; 8; 9].
Proof.
  destruct (CreatePipe_run 300 before_pipe (replicate 2048 0)) as (n & s & E & Hu & Hp).
  { by rewrite length_replicate. }
  pose proof (pipe_is_stream no_drivers 300 ltac:(done) s n false [] (CreateKernelTransfer 0x1000 3 0 TRANSFER_WRITE) Hp) as H.
  assert (user s = Memory ∅ {[ 0x1000 := 7; 0x1001 := 8; 0x1002 := 9 ]}) as Hm by done.
  rewrite Hm in H. destruct H as (d & Eop & Hq); [by split|done|].
  exists n, s. eexists. split_and!; [exact E|exact Eop|exact Hq].
Defined.
