(* ===== verification/Pty.v ===== *)
(** * dev/pty.c: pseudoterminals

    The master has the keyboard and the screen, the subordinate the standard input
    and output of programs. What is typed goes through the thread [LineProcessor],
    which edits the line and hands it on when it is complete. *)

From S2P Require Import Prelude Transfer Buffers ThreadList Scheduler Semaphore Mailbox MailboxAccess Vnode Vfs Signal Boxes Pipe.

Definition CTRL_C : Z := 67 - 64.
Definition CTRL_Q : Z := 81 - 64.
Definition CTRL_Z : Z := 90 - 64.
Definition INTERNAL_BUFFER_SIZE : Z := 4096.
Definition LINE_BUFFER_SIZE : Z := 300.
Definition FLUSHED_BUFFER_SIZE : Z := 300.
Definition SIGINT : Z := 10.
Definition EINTR : Z := 33.

(** [include/termios.h] of the C library: four words and 32 half words. *)
Definition ECHO : Z := 1.
Definition ICANON : Z := 2.
Definition sizeof_termios : Z := 80.

Record master_data := MasterData {
  subordinate : Z;
  display_buffer : Z;
  keybrd_buffer : Z;
  flushed_buffer : Z;
  line_processing_thread : Z;
}.

(** [termios]: the bytes of the struct. *)
Record sub_data := SubData {
  master : Z;
  termios : list Z;
  line_buffer : list Z;
  line_buffer_char_width : list Z;
  line_buffer_pos : Z;
  controlling_pgid : Z;
}.

(** The word at [i] of a struct. *)
Definition word_at (l : list Z) (i : nat) : Z := bytes_word (take 4 (drop i l)).

Definition c_lflag (t : list Z) : Z := word_at t 12.
Definition set_c_lflag (v : Z) (t : list Z) : list Z := take 12 t ++ word_bytes v ++ drop 16 t.

(** What the drivers keep: mailboxes, and the data of masters and subordinates. *)
Record terminals := Terminals {
  t_boxes : gmap Z box;
  masters : gmap Z master_data;
  subs : gmap Z sub_data;
}.

#[export] Instance boxes_of_terminals {D} (HT : Holds D terminals) : Holds D (gmap Z box).
Proof.
  refine {| held d := t_boxes (held d); hold b d := hold {| (held d : terminals) with t_boxes := b |} d |}.
  intros a d. by rewrite held_hold.
Defined.

(** The thread of the line processor, and the process that runs. *)
Class Terminal_env (D : Type) : Type := {
  create_line_processor : Z → M (vfs D) Z;    (* CreateThread(LineProcessor, sub, ...) *)
  terminate_thread : Z → M (vfs D) unit;
  current_pid : M (vfs D) Z;
}.

Section pty.
Context {D : Type} {HT : Holds D terminals} {SG : Signals D} {AL : Allocator} {TE : Terminal_env D}.
(** The addresses of the functions. *)
Variables p_mread p_mwrite p_mclose p_sread p_swrite p_sioctl : Z.

Definition get_terminals : M (vfs D) terminals := s ← get; mret (held (drv s)).
Definition set_terminals (t : terminals) : M (vfs D) unit := modify (λ s, with_drv (hold t (drv s)) s).

(** [node->data], and what is there. *)
Definition data_of (n : Z) : M (vfs D) Z := v ← get_vnode n; mret (vn_data v).
Definition get_sub (a : Z) : M (vfs D) sub_data := t ← get_terminals; deref (subs t !! a).
Definition set_sub (a : Z) (x : sub_data) : M (vfs D) unit :=
  t ← get_terminals; set_terminals {| t with subs := <[a := x]> (subs t) |}.
Definition get_master (a : Z) : M (vfs D) master_data := t ← get_terminals; deref (masters t !! a).

(** ** The line buffer *)
Fixpoint flush_loop (n : nat) (i internal master_internal : Z) : M (vfs D) unit :=
  match n with
  | O => mret tt
  | S n =>
    m ← get_master master_internal;
    x ← get_sub internal;
    c ← deref (aget (line_buffer x) i);
    _ ← box_add (flushed_buffer m) (-1) (u8 c);
    flush_loop n (i + 1) internal master_internal
  end.

Definition FlushSubordinateLineBuffer (n : Z) : M (vfs D) unit :=
  internal ← data_of n;
  x ← get_sub internal;
  master_internal ← data_of (master x);
  flush_loop (Z.to_nat (line_buffer_pos x)) 0 internal master_internal;;
  x ← get_sub internal;
  set_sub internal {| x with line_buffer_pos := 0 |}.

Definition RemoveFromSubordinateLineBuffer (n : Z) : M (vfs D) unit :=
  internal ← data_of n;
  x ← get_sub internal;
  if decide (line_buffer_pos x = 0) then mret tt else
  l ← deref (aset (line_buffer x) (line_buffer_pos x - 1) 0);
  set_sub internal {| x with line_buffer := l; line_buffer_pos := line_buffer_pos x - 1 |}.

(** [c] is a signed char. *)
Definition AddToSubordinateLineBuffer (n c width : Z) : M (vfs D) unit :=
  internal ← data_of n;
  x ← get_sub internal;
  if decide (line_buffer_pos x = LINE_BUFFER_SIZE) then mret tt else
  l ← deref (aset (line_buffer x) (line_buffer_pos x) c);
  w ← deref (aset (line_buffer_char_width x) (line_buffer_pos x) width);
  set_sub internal {| x with line_buffer := l; line_buffer_char_width := w; line_buffer_pos := line_buffer_pos x + 1 |}.

(** ** The line processor *)
Definition BACKSPACE : Z := 8.
Definition NEWLINE : Z := 10.

(** What is shown for a character. *)
Definition echo_char (internal master_internal c : Z) (canon : bool) : M (vfs D) unit :=
  m ← get_master master_internal;
  if decide (c = BACKSPACE ∧ canon = true) then
    x ← get_sub internal;
    if decide (0 < line_buffer_pos x) then
      _ ← box_add (display_buffer m) (-1) BACKSPACE;
      _ ← box_add (display_buffer m) (-1) 32;
      _ ← box_add (display_buffer m) (-1) BACKSPACE;
      mret tt
    else mret tt
  else _ ← box_add (display_buffer m) (-1) c; mret tt.

(** One turn of the loop. *)
Definition line_turn (n internal master_internal : Z) : M (vfs D) unit :=
  x ← get_sub internal;
  let echo := bool_decide (Z.land (c_lflag (termios x)) ECHO ≠ 0) in
  let canon := bool_decide (Z.land (c_lflag (termios x)) ICANON ≠ 0) in
  m ← get_master master_internal;
  '(_, c) ← box_get (keybrd_buffer m) (-1) junk;
  (if echo then echo_char internal master_internal c canon else mret tt);;
  (if decide (c = BACKSPACE ∧ canon = true) then RemoveFromSubordinateLineBuffer n
   else AddToSubordinateLineBuffer n (i8 c) 1);;
  if decide (c = NEWLINE ∨ c = CTRL_C ∨ c = CTRL_Q ∨ c = CTRL_Z ∨ canon = false) then
    x ← get_sub internal;
    (if decide (c = CTRL_C) then raise_group (controlling_pgid x) SIGINT
     else if decide (c = CTRL_Q) then raise_group (controlling_pgid x) SIGCONT
     else if decide (c = CTRL_Z) then raise_group (controlling_pgid x) SIGSTOP
     else mret tt);;
    FlushSubordinateLineBuffer n
  else mret tt.

(** The first [turns] turns: the loop has no end, it waits for the keyboard. *)
Fixpoint line_turns (turns : nat) (n internal master_internal : Z) : M (vfs D) unit :=
  match turns with
  | O => mret tt
  | S turns => line_turn n internal master_internal;; line_turns turns n internal master_internal
  end.

Definition LineProcessor (turns : nat) (sub : Z) : M (vfs D) unit :=
  internal ← data_of sub;
  x ← get_sub internal;
  master_internal ← data_of (master x);
  line_turns turns sub internal master_internal.

(** ** The operations of the two vnodes *)
Definition MasterRead (n : Z) (tr : transfer) : M (vfs D) (Z * transfer) :=
  a ← data_of n; m ← get_master a; box_access (display_buffer m) tr.
Definition MasterWrite (n : Z) (tr : transfer) : M (vfs D) (Z * transfer) :=
  a ← data_of n; m ← get_master a; box_access (keybrd_buffer m) tr.

(** [internal->master->data] of a subordinate. *)
Definition master_of (n : Z) : M (vfs D) master_data :=
  a ← data_of n; x ← get_sub a; b ← data_of (master x); get_master b.

Definition SubordinateRead (n : Z) (tr : transfer) : M (vfs D) (Z * transfer) :=
  m ← master_of n; box_access (flushed_buffer m) tr.

Fixpoint write_loop (fuel : nat) (display res : Z) (tr : transfer) : M (vfs D) (Z * transfer) :=
  if decide (0 < length_remaining tr ∧ (res = 0 ∨ res = EINTR)) then
    match fuel with
    | O => exhausted
    | S fuel => '(res, tr) ← box_access display tr; write_loop fuel display res tr
    end
  else mret (res, tr).

(** Each turn that goes on has moved a byte. *)
Definition SubordinateWrite (n : Z) (tr : transfer) : M (vfs D) (Z * transfer) :=
  m ← master_of n; write_loop (Z.to_nat (length_remaining tr)) (display_buffer m) 0 tr.

Definition MasterClose (n : Z) : M (vfs D) Z :=
  a ← data_of n;
  m ← get_master a;
  box_destroy (display_buffer m);;
  box_destroy (flushed_buffer m);;
  box_destroy (keybrd_buffer m);;
  terminate_thread (line_processing_thread m);;
  t ← get_terminals;
  set_terminals {| t with masters := delete a (masters t) |};;
  mret 0.

(** A struct that is copied from and to the program. *)
Definition copy_in (arg size : Z) : M (vfs D) (Z * list Z) :=
  '(res, l, _) ← on_user (PerformTransfer (Some (replicate (Z.to_nat size) junk)) (CreateTransferReadingFromUser arg size 0) size);
  mret (res, l).
Definition copy_out (arg size : Z) (l : list Z) : M (vfs D) Z :=
  '(res, _, _) ← on_user (PerformTransfer (Some l) (CreateTransferWritingToUser arg size 0) size);
  mret res.

Definition SubordinateIoctl (n cmd arg : Z) : M (vfs D) Z :=
  internal ← data_of n;
  if decide (cmd = TCSETS ∨ cmd = TCSETSW ∨ cmd = TCSETSF) then
    if decide (cmd ≠ TCSETS) then mret ENOSYS else
    '(res, new_term) ← copy_in arg sizeof_termios;
    if decide (res ≠ 0) then mret res else
    x ← get_sub internal;
    set_sub internal {| x with termios := new_term |};;
    mret 0
  else if decide (cmd = TCGETS) then
    x ← get_sub internal; copy_out arg sizeof_termios (termios x)
  else if decide (cmd = TIOCGPGRP) then
    x ← get_sub internal; copy_out arg 4 (word_bytes (controlling_pgid x))
  else if decide (cmd = TIOCSPGRP) then
    '(res, new_pgid) ← copy_in arg 4;
    if decide (res ≠ 0) then mret res else
    x ← get_sub internal;
    set_sub internal {| x with controlling_pgid := i32 (word_at new_pgid 0) |};;
    mret 0
  else mret EINVAL.

Definition master_operations : vnode_operations :=
  {| check_open := NULL; read := p_mread; write := p_mwrite; ioctl := NULL; close := p_mclose;
     truncate := NULL; create := NULL; follow := NULL; unlink := NULL; delete_op := NULL |}.
Definition subordinate_operations : vnode_operations :=
  {| check_open := NULL; read := p_sread; write := p_swrite; ioctl := p_sioctl; close := NULL;
     truncate := NULL; create := NULL; follow := NULL; unlink := NULL; delete_op := NULL |}.

(** The drivers of the system: these two, above those below. *)
Definition pty_drivers (LOW : Drivers D) : Drivers D := {|
  call_check_open p := call_check_open p;
  call_read p := if decide (p = p_mread) then MasterRead else if decide (p = p_sread) then SubordinateRead else call_read p;
  call_write p := if decide (p = p_mwrite) then MasterWrite else if decide (p = p_swrite) then SubordinateWrite else call_write p;
  call_ioctl p := if decide (p = p_sioctl) then SubordinateIoctl else call_ioctl p;
  call_close p := if decide (p = p_mclose) then MasterClose else call_close p;
  call_truncate p := call_truncate p;
  call_create p := call_create p;
  call_follow p := call_follow p;
  call_unlink p := call_unlink p;
  call_delete p := call_delete p;
|}.

(** [fresh]: what the heap left in the memory of the struct, and [buffers] in that
    of the three mailboxes. [line_buffer_pos] is not set. The result is the two
    vnodes. *)
Definition CreatePseudoTerminal (fresh : sub_data) (buffers : list Z * list Z * list Z) : M (vfs D) (Z * Z) :=
  d ← NextDevId;
  let st := {| st_mode := Z.lor S_IFCHR 511; st_nlink := 1; st_dev := d; st_ino := 0; st_size := 0; st_blksize := 0 |} in
  m ← CreateVnode master_operations st;
  s ← CreateVnode subordinate_operations st;
  t ← get_terminals;
  let m_data := pick (dom (masters t)) in
  let s_data := pick (dom (subs t)) in
  display ← box_create INTERNAL_BUFFER_SIZE buffers.1.1;
  keybrd ← box_create INTERNAL_BUFFER_SIZE buffers.1.2;
  flushed ← box_create FLUSHED_BUFFER_SIZE buffers.2;
  thr ← create_line_processor s;
  pid ← current_pid;
  t ← get_terminals;
  set_terminals {| t with
    masters := <[m_data := {| subordinate := s; display_buffer := display; keybrd_buffer := keybrd; flushed_buffer := flushed;
                              line_processing_thread := thr |}]> (masters t);
    subs := <[s_data := {| fresh with master := m; termios := set_c_lflag (Z.lor ICANON ECHO) (termios fresh);
                           controlling_pgid := pid |}]> (subs t) |};;
  v ← get_vnode m; set_vnode m {| v with vn_data := m_data |};;
  v ← get_vnode s; set_vnode s {| v with vn_data := s_data |};;
  mret (m, s).
End pty.
