(* ===== verification/PtyTheorems.v ===== *)
(** * What is typed on a terminal

    The line a program reads is the line that was edited, and the screen shows it. *)

From S2P Require Import Prelude Physical Transfer Buffers ThreadList Scheduler Semaphore Mailbox MailboxConc MailboxAccess Vnode Vfs VfsOpen Signal Boxes Pipe Pty.

(** ** The reference: editing a line *)
Definition is_backspace (canon : bool) (c : Z) : bool := canon && bool_decide (c = BACKSPACE).

(** The line after a character; nothing is added to a full line. *)
Definition edit (canon : bool) (line : list Z) (c : Z) : list Z :=
  if is_backspace canon c then removelast line
  else if decide (Z.of_nat (length line) = LINE_BUFFER_SIZE) then line else line ++ [c].

(** What goes to the screen. *)
Definition echoed (canon echo : bool) (line : list Z) (c : Z) : list Z :=
  if echo then
    if is_backspace canon c then match line with [] => [] | _ => [BACKSPACE; 32; BACKSPACE] end
    else [c]
  else [].

(** A character that hands the line on, and the signal it raises. *)
Definition ends (canon : bool) (c : Z) : bool :=
  bool_decide (c = NEWLINE ∨ c = CTRL_C ∨ c = CTRL_Q ∨ c = CTRL_Z ∨ canon = false).
Definition signals_of (pg c : Z) : list (Z * Z) :=
  if decide (c = CTRL_C) then [(pg, SIGINT)]
  else if decide (c = CTRL_Q) then [(pg, SIGCONT)]
  else if decide (c = CTRL_Z) then [(pg, SIGSTOP)] else [].

(** Signals are delivered to the group, and leave terminals alone. *)
Class SignalLaws (D : Type) {HT : Holds D terminals} {SG : Signals D} : Type := {
  raised : D → list (Z * Z);
  raised_hold (t : terminals) (d : D) : raised (hold t d) = raised d;
  raise_group_run pg sig (s : vfs D) :
    ∃ d, raise_group pg sig s = Done (tt, with_drv d s) ∧ held d = (held (drv s) : terminals) ∧
      raised d = raised (drv s) ++ [(pg, sig)];
}.

Section tty.
Context {D : Type} {HT : Holds D terminals} {SG : Signals D} {SL : SignalLaws D} {AL : Allocator}.
(** The two vnodes with their data, the mailboxes of the master. *)
Context (n mn a b pg : Z) (m : master_data) (canon echo : bool).
Hypothesis Hboxes : NoDup [display_buffer m; keybrd_buffer m; flushed_buffer m].
Implicit Types (s : vfs D) (d : D) (line kb shown flushed : list Z) (sg : list (Z * Z)).

(** The data of the subordinate: the line so far is in its buffer. *)
Record sub_holds (x : sub_data) line : Prop := {
  sh_master : master x = mn;
  sh_pos : line_buffer_pos x = length line;
  sh_length : length (line_buffer x) = 300%nat;
  sh_widths : length (line_buffer_char_width x) = 300%nat;
  sh_line : take (length line) (line_buffer x) = i8 <$> line;
  sh_bytes : Forall is_u8 line;
  sh_echo : bool_decide (Z.land (c_lflag (termios x)) ECHO ≠ 0) = echo;
  sh_canon : bool_decide (Z.land (c_lflag (termios x)) ICANON ≠ 0) = canon;
  sh_group : controlling_pgid x = pg;
}.

Record tty d line kb shown flushed sg : Prop := {
  tty_master : masters (held d) !! b = Some m;
  tty_sub : ∃ x, subs (held d) !! a = Some x ∧ sub_holds x line;
  tty_kb : box_holds (t_boxes (held d)) (keybrd_buffer m) INTERNAL_BUFFER_SIZE kb;
  tty_shown : box_holds (t_boxes (held d)) (display_buffer m) INTERNAL_BUFFER_SIZE shown;
  tty_flushed : box_holds (t_boxes (held d)) (flushed_buffer m) FLUSHED_BUFFER_SIZE flushed;
  tty_signals : raised d = sg;
}.

Definition tty_nodes s : Prop :=
  (vn_data <$> vnodes s !! n) = Some a ∧ (vn_data <$> vnodes s !! mn) = Some b.

(** *** Steps on the parts *)
Lemma data_of_run k c s : (vn_data <$> vnodes s !! k) = Some c → data_of k s = Done (c, s).
Proof. intros H. apply fmap_Some in H as (v & Hv & ->). unfold data_of. by rewrite (M_bind_done _ _ _ _ _ (get_vnode_run k v s Hv)). Qed.

Lemma get_sub_run x s : subs (held (drv s)) !! a = Some x → get_sub a s = Done (x, s).
Proof. intros H. unfold get_sub, get_terminals. mred. by rewrite H. Qed.
Lemma get_master_run s : masters (held (drv s)) !! b = Some m → get_master b s = Done (m, s).
Proof. intros H. unfold get_master, get_terminals. mred. by rewrite H. Qed.

(** A call on one box. *)
Lemma tty_boxes d d' mm line kb shown flushed sg kb' shown' flushed' :
  tty d line kb shown flushed sg → d' = hold mm d →
  box_holds mm (keybrd_buffer m) INTERNAL_BUFFER_SIZE kb' →
  box_holds mm (display_buffer m) INTERNAL_BUFFER_SIZE shown' →
  box_holds mm (flushed_buffer m) FLUSHED_BUFFER_SIZE flushed' →
  tty d' line kb' shown' flushed' sg.
Proof.
  intros [] -> Hk Hs Hf. unfold hold, boxes_of_terminals. split; rewrite ?held_hold; cbn; try done.
  by rewrite raised_hold.
Qed.

Lemma boxes_apart : display_buffer m ≠ keybrd_buffer m ∧ display_buffer m ≠ flushed_buffer m ∧ keybrd_buffer m ≠ flushed_buffer m.
Proof. pose proof Hboxes as H. rewrite !NoDup_cons in H. set_solver. Qed.

Lemma add_display s line kb shown flushed sg c t :
  tty (drv s) line kb shown flushed sg → length shown < INTERNAL_BUFFER_SIZE →
  ∃ d, box_add (display_buffer m) t c s = Done (0, with_drv d s) ∧ tty d line kb (shown ++ [c]) flushed sg.
Proof.
  intros H Hl. pose proof H as []. destruct (box_add_run (HB := boxes_of_terminals HT) _ _ _ t c s tty_shown0 Hl) as (d & mm & E & Hd & _ & Hh & Ho).
  destruct boxes_apart as (? & ? & ?). exists d. split; [exact E|].
  apply (tty_boxes (drv s) d mm line kb shown flushed sg); try done; by apply (box_holds_other _ _ _ _ _ _ Ho).
Qed.
Lemma add_flushed s line kb shown flushed sg c t :
  tty (drv s) line kb shown flushed sg → length flushed < FLUSHED_BUFFER_SIZE →
  ∃ d, box_add (flushed_buffer m) t c s = Done (0, with_drv d s) ∧ tty d line kb shown (flushed ++ [c]) sg.
Proof.
  intros H Hl. pose proof H as []. destruct (box_add_run (HB := boxes_of_terminals HT) _ _ _ t c s tty_flushed0 Hl) as (d & mm & E & Hd & _ & Hh & Ho).
  destruct boxes_apart as (? & ? & ?). exists d. split; [exact E|].
  apply (tty_boxes (drv s) d mm line kb shown flushed sg); try done; by apply (box_holds_other _ _ _ _ _ _ Ho).
Qed.
Lemma take_key s line c kb shown flushed sg t c0 :
  tty (drv s) line (c :: kb) shown flushed sg →
  ∃ d, box_get (keybrd_buffer m) t c0 s = Done ((0, c), with_drv d s) ∧ tty d line kb shown flushed sg.
Proof.
  intros H. pose proof H as []. destruct (box_get_run (HB := boxes_of_terminals HT) _ _ _ _ t c0 s tty_kb0) as (d & mm & E & Hd & _ & Hh & Ho).
  destruct boxes_apart as (? & ? & ?). exists d. split; [exact E|].
  apply (tty_boxes (drv s) d mm line (c :: kb) shown flushed sg); try done; by apply (box_holds_other _ _ _ _ _ _ Ho).
Qed.

Lemma store_sub s x line line' kb shown flushed sg :
  tty (drv s) line kb shown flushed sg → sub_holds x line' →
  ∃ d, set_sub a x s = Done (tt, with_drv d s) ∧ tty d line' kb shown flushed sg.
Proof.
  intros [] Hx. eexists. split; [unfold set_sub, get_terminals, set_terminals; mred; reflexivity|].
  split; rewrite ?held_hold; cbn; try done; [|by rewrite raised_hold].
  exists x. split; [apply lookup_insert_eq|done].
Qed.

(** *** The line buffer *)
Lemma u8_i8 c : is_u8 c → u8 (i8 c) = c.
Proof.
  intros Hc. assert (i8 c = c + - ((c + 2 ^ 7) / 2 ^ 8) * 2 ^ 8) as ->.
  { unfold i8. rewrite Z.mod_eq by done. lia. }
  unfold u8. rewrite Z.mod_add by done. by apply Z.mod_small.
Qed.

Lemma line_room x line : sub_holds x line → (length line ≤ 300)%nat.
Proof. intros []. pose proof (f_equal length sh_line0) as E. rewrite length_fmap, length_take in E. lia. Qed.

Lemma line_char x line (i : nat) c : sub_holds x line → line !! i = Some c →
  aget (line_buffer x) i = Some (i8 c) ∧ is_u8 c.
Proof.
  intros [] Hi. pose proof (lookup_lt_Some _ _ _ Hi) as Hl. split.
  - rewrite aget_nat, <- (lookup_take_lt (line_buffer x) (length line)), sh_line0, list_lookup_fmap, Hi by lia. done.
  - by apply (Forall_lookup_1 _ _ i c sh_bytes0).
Qed.

Lemma flush_loop_run (k : nat) : ∀ (i : nat) s line kb shown flushed sg,
  tty (drv s) line kb shown flushed sg → (i + k = length line)%nat → length flushed + k ≤ FLUSHED_BUFFER_SIZE →
  ∃ d, flush_loop k i a b s = Done (tt, with_drv d s) ∧ tty d line kb shown (flushed ++ drop i line) sg.
Proof.
  induction k as [|k IH]; intros i s line kb shown flushed sg H Hi Hl.
  - exists (drv s). rewrite drop_ge, app_nil_r by lia. split; [by destruct s|done].
  - destruct (lookup_lt_is_Some_2 line i) as [c Hc]; [lia|]. pose proof H as []. destruct tty_sub0 as (x & Hx & Hxl).
    destruct (line_char x line i c Hxl Hc) as [Hget Hu8]. cbn [flush_loop].
    rewrite (M_bind_done _ _ _ _ _ (get_master_run s tty_master0)), (M_bind_done _ _ _ _ _ (get_sub_run x s Hx)), Hget.
    rewrite (M_bind_done (deref _) _ s (i8 c) s) by done. rewrite u8_i8 by done.
    destruct (add_flushed s line kb shown flushed sg c (-1) H) as (d1 & E1 & H1); [lia|].
    rewrite (M_bind_done _ _ _ _ _ E1). replace (i + 1) with (Z.of_nat (S i)) by lia.
    destruct (IH (S i) (with_drv d1 s) line kb shown (flushed ++ [c]) sg H1) as (d2 & E2 & H2); [lia| |].
    { rewrite length_app. simpl. lia. }
    exists d2. split; [exact E2|]. by rewrite (drop_S line c i) by done; rewrite <- app_assoc in H2.
Qed.

Lemma Flush_run s line kb shown flushed sg :
  tty_nodes s → tty (drv s) line kb shown flushed sg → length flushed + length line ≤ FLUSHED_BUFFER_SIZE →
  ∃ d, FlushSubordinateLineBuffer n s = Done (tt, with_drv d s) ∧ tty d [] kb shown (flushed ++ line) sg.
Proof.
  intros [Hn Hm] H Hl. pose proof H as []. destruct tty_sub0 as (x & Hx & Hxl). unfold FlushSubordinateLineBuffer.
  rewrite (M_bind_done _ _ _ _ _ (data_of_run n a s Hn)), (M_bind_done _ _ _ _ _ (get_sub_run x s Hx)).
  rewrite (sh_master _ _ Hxl), (M_bind_done _ _ _ _ _ (data_of_run mn b s Hm)), (sh_pos _ _ Hxl), Nat2Z.id.
  destruct (flush_loop_run (length line) 0 s line kb shown flushed sg H) as (d1 & E1 & H1); [lia|lia|].
  change (Z.of_nat 0) with 0 in E1. rewrite (M_bind_done _ _ _ _ _ E1).
  pose proof H1 as []. destruct tty_sub0 as (x1 & Hx1 & Hxl1). rewrite (M_bind_done _ _ _ _ _ (get_sub_run x1 (with_drv d1 s) Hx1)).
  apply (store_sub (with_drv d1 s) _ line [] kb shown (flushed ++ drop 0 line) sg H1).
  destruct Hxl1. by split.
Qed.

Lemma Remove_run s line kb shown flushed sg :
  tty_nodes s → tty (drv s) line kb shown flushed sg →
  ∃ d, RemoveFromSubordinateLineBuffer n s = Done (tt, with_drv d s) ∧ tty d (removelast line) kb shown flushed sg.
Proof.
  intros [Hn Hm] H. pose proof H as []. destruct tty_sub0 as (x & Hx & Hxl). unfold RemoveFromSubordinateLineBuffer.
  rewrite (M_bind_done _ _ _ _ _ (data_of_run n a s Hn)), (M_bind_done _ _ _ _ _ (get_sub_run x s Hx)), (sh_pos _ _ Hxl).
  destruct (decide (Z.of_nat (length line) = 0)) as [Hz|Hz].
  { exists (drv s). split; [by destruct s|]. by destruct line. }
  pose proof (line_room x line Hxl) as Hroom. destruct Hxl.
  replace (length line - 1) with (Z.of_nat (length line - 1)) by lia. rewrite aset_nat by lia.
  rewrite (M_bind_done (deref _) _ s (<[(length line - 1)%nat := 0]> (line_buffer x)) s) by done.
  apply (store_sub s _ line (removelast line) kb shown flushed sg H).
  assert (length (removelast line) = (length line - 1)%nat) as Hrl by (rewrite removelast_firstn_len, length_take; lia).
  split; cbn; try done.
  - lia.
  - by rewrite length_insert.
  - rewrite Hrl, take_insert_ge by lia. rewrite removelast_firstn_len, fmap_take, <- sh_line0, take_take. f_equal. lia.
  - rewrite removelast_firstn_len. by apply Forall_take.
Qed.

Lemma Add_run s line kb shown flushed sg c :
  tty_nodes s → tty (drv s) line kb shown flushed sg → is_u8 c →
  ∃ d, AddToSubordinateLineBuffer n (i8 c) 1 s = Done (tt, with_drv d s) ∧
    tty d (if decide (Z.of_nat (length line) = LINE_BUFFER_SIZE) then line else line ++ [c]) kb shown flushed sg.
Proof.
  intros [Hn Hm] H Hc. pose proof H as []. destruct tty_sub0 as (x & Hx & Hxl). unfold AddToSubordinateLineBuffer.
  rewrite (M_bind_done _ _ _ _ _ (data_of_run n a s Hn)), (M_bind_done _ _ _ _ _ (get_sub_run x s Hx)), (sh_pos _ _ Hxl).
  destruct (decide (Z.of_nat (length line) = LINE_BUFFER_SIZE)) as [Hfull|Hfree].
  { exists (drv s). split; [by destruct s|done]. }
  pose proof (line_room x line Hxl) as Hroom. unfold LINE_BUFFER_SIZE in Hfree. destruct Hxl.
  rewrite !aset_nat by lia. rewrite (M_bind_done (deref _) _ s (<[length line := i8 c]> (line_buffer x)) s) by done.
  rewrite (M_bind_done (deref _) _ s (<[length line := 1]> (line_buffer_char_width x)) s) by done.
  apply (store_sub s _ line (line ++ [c]) kb shown flushed sg H). split; cbn; try done.
  - rewrite length_app. simpl. lia.
  - by rewrite length_insert.
  - by rewrite length_insert.
  - rewrite length_app, fmap_app. simpl. replace (length line + 1)%nat with (S (length line)) by lia.
    rewrite (take_S_r _ _ (i8 c)) by (apply list_lookup_insert_eq; lia). by rewrite take_insert_ge, sh_line0 by lia.
  - apply Forall_app. split; [done|]. by apply Forall_singleton.
Qed.

(** *** Turns of the line processor *)
Lemma add_three s line kb shown flushed sg c1 c2 c3 :
  tty (drv s) line kb shown flushed sg → length shown + 3 ≤ INTERNAL_BUFFER_SIZE →
  ∃ d, (_ ← box_add (display_buffer m) (-1) c1; _ ← box_add (display_buffer m) (-1) c2;
        _ ← box_add (display_buffer m) (-1) c3; mret tt) s = Done (tt, with_drv d s) ∧
    tty d line kb (shown ++ [c1; c2; c3]) flushed sg.
Proof.
  intros H Hl. destruct (add_display s line kb shown flushed sg c1 (-1) H) as (d1 & E1 & H1); [lia|].
  destruct (add_display (with_drv d1 s) line kb (shown ++ [c1]) flushed sg c2 (-1) H1) as (d2 & E2 & H2); [rewrite length_app; simpl; lia|].
  destruct (add_display (with_drv d2 s) line kb ((shown ++ [c1]) ++ [c2]) flushed sg c3 (-1) H2) as (d3 & E3 & H3);
    [rewrite !length_app; simpl; lia|].
  exists d3. rewrite (M_bind_done _ _ _ _ _ E1), (M_bind_done _ _ (with_drv d1 s) _ _ E2), (M_bind_done _ _ (with_drv d2 s) _ _ E3).
  split; [done|]. by rewrite <- !app_assoc in H3.
Qed.

Lemma length_echoed line c : length (echoed canon echo line c) ≤ 3.
Proof. unfold echoed. destruct echo, (is_backspace canon c), line; simpl; lia. Qed.

Lemma echo_run s line kb shown flushed sg c :
  tty (drv s) line kb shown flushed sg → length shown + 3 ≤ INTERNAL_BUFFER_SIZE →
  ∃ d, (if echo then echo_char a b c canon else mret tt) s = Done (tt, with_drv d s) ∧
    tty d line kb (shown ++ echoed canon echo line c) flushed sg.
Proof.
  intros H Hl. pose proof H as []. destruct tty_sub0 as (x & Hx & Hxl). unfold echoed.
  assert ((∃ d, (mret tt : M (vfs D) unit) s = Done (tt, with_drv d s) ∧ tty d line kb (shown ++ []) flushed sg)) as Hnone.
  { exists (drv s). rewrite app_nil_r. split; [by destruct s|done]. }
  destruct echo; [|exact Hnone]. unfold echo_char, is_backspace.
  rewrite (M_bind_done _ _ _ _ _ (get_master_run s tty_master0)).
  destruct (decide (c = BACKSPACE ∧ canon = true)) as [[-> ->]|Hno].
  - rewrite bool_decide_eq_true_2 by done. rewrite (M_bind_done _ _ _ _ _ (get_sub_run x s Hx)), (sh_pos _ _ Hxl). cbn [andb].
    destruct line as [|l0 line]; [exact Hnone|]. rewrite decide_True by (simpl; lia). by apply add_three.
  - assert (canon && bool_decide (c = BACKSPACE) = false) as ->.
    { destruct canon; [|done]. apply bool_decide_eq_false_2. naive_solver. }
    destruct (add_display s line kb shown flushed sg c (-1) H) as (d & E & H1); [lia|].
    exists d. by rewrite (M_bind_done _ _ _ _ _ E).
Qed.

Lemma edit_run s line kb shown flushed sg c :
  tty_nodes s → tty (drv s) line kb shown flushed sg → is_u8 c →
  ∃ d, (if decide (c = BACKSPACE ∧ canon = true) then RemoveFromSubordinateLineBuffer n
        else AddToSubordinateLineBuffer n (i8 c) 1) s = Done (tt, with_drv d s) ∧ tty d (edit canon line c) kb shown flushed sg.
Proof.
  intros Hn H Hc. unfold edit, is_backspace. destruct (decide (c = BACKSPACE ∧ canon = true)) as [[-> ->]|Hno].
  - rewrite bool_decide_eq_true_2 by done. by apply Remove_run.
  - assert (canon && bool_decide (c = BACKSPACE) = false) as ->.
    { destruct canon; [|done]. apply bool_decide_eq_false_2. naive_solver. }
    by apply Add_run.
Qed.

Lemma raise_run s line kb shown flushed sg pair :
  tty (drv s) line kb shown flushed sg →
  ∃ d, raise_group pair.1 pair.2 s = Done (tt, with_drv d s) ∧ tty d line kb shown flushed (sg ++ [pair]).
Proof.
  intros []. destruct (raise_group_run pair.1 pair.2 s) as (d & E & Hd & Hr). exists d. split; [exact E|].
  split; rewrite ?Hd; try done. rewrite Hr, tty_signals0. by destruct pair.
Qed.

Lemma signals_run s line kb shown flushed sg c :
  tty (drv s) line kb shown flushed sg →
  ∃ d, (if decide (c = CTRL_C) then raise_group pg SIGINT
        else if decide (c = CTRL_Q) then raise_group pg SIGCONT
        else if decide (c = CTRL_Z) then raise_group pg SIGSTOP
        else mret tt) s = Done (tt, with_drv d s) ∧ tty d line kb shown flushed (sg ++ signals_of pg c).
Proof.
  intros H. unfold signals_of. repeat case_decide.
  - by apply (raise_run s line kb shown flushed sg (pg, SIGINT)).
  - by apply (raise_run s line kb shown flushed sg (pg, SIGCONT)).
  - by apply (raise_run s line kb shown flushed sg (pg, SIGSTOP)).
  - exists (drv s). rewrite app_nil_r. split; [by destruct s|done].
Qed.

Lemma line_turn_run s line c kb shown flushed sg :
  tty_nodes s → tty (drv s) line (c :: kb) shown flushed sg → is_u8 c →
  length shown + 3 ≤ INTERNAL_BUFFER_SIZE →
  (ends canon c = true → length flushed + length (edit canon line c) ≤ FLUSHED_BUFFER_SIZE) →
  ∃ d, line_turn n a b s = Done (tt, with_drv d s) ∧
    if ends canon c
    then tty d [] kb (shown ++ echoed canon echo line c) (flushed ++ edit canon line c) (sg ++ signals_of pg c)
    else tty d (edit canon line c) kb (shown ++ echoed canon echo line c) flushed sg.
Proof.
  intros Hn H Hc Hshown Hflushed. pose proof H as []. destruct tty_sub0 as (x & Hx & Hxl). unfold line_turn.
  rewrite (M_bind_done _ _ _ _ _ (get_sub_run x s Hx)), (sh_echo _ _ Hxl), (sh_canon _ _ Hxl).
  rewrite (M_bind_done _ _ _ _ _ (get_master_run s tty_master0)).
  destruct (take_key s line c kb shown flushed sg (-1) junk H) as (d1 & E1 & H1). rewrite (M_bind_done _ _ _ _ _ E1).
  destruct (echo_run (with_drv d1 s) line kb shown flushed sg c H1 Hshown) as (d2 & E2 & H2). rewrite (M_bind_done _ _ _ _ _ E2).
  destruct (edit_run (with_drv d2 s) line kb _ flushed sg c Hn H2 Hc) as (d3 & E3 & H3). rewrite (M_bind_done _ _ _ _ _ E3).
  set (s3 := with_drv d3 (with_drv d2 (with_drv d1 s))). unfold ends in *. case_bool_decide as Hend.
  - rewrite decide_True by done. pose proof H3 as []. destruct tty_sub0 as (x3 & Hx3 & Hxl3).
    rewrite (M_bind_done (get_sub a) _ s3 x3 s3 (get_sub_run x3 s3 Hx3)), (sh_group _ _ Hxl3).
    destruct (signals_run s3 _ kb _ flushed sg c H3) as (d4 & E4 & H4). rewrite (M_bind_done _ _ s3 _ _ E4).
    destruct (Flush_run (with_drv d4 s3) _ kb _ flushed _ Hn H4) as (d5 & E5 & H5); [by apply Hflushed|].
    exists d5. split; [exact E5|exact H5].
  - rewrite decide_False by done. by exists d3.
Qed.

(** What the screen gets for the characters of a line. *)
Fixpoint echo_all line (cs : list Z) : list Z :=
  match cs with [] => [] | c :: cs => echoed canon echo line c ++ echo_all (edit canon line c) cs end.

Lemma typing_run (cs : list Z) : ∀ s line kb shown flushed sg,
  tty_nodes s → tty (drv s) line (cs ++ kb) shown flushed sg → Forall (λ c, is_u8 c ∧ ends canon c = false) cs →
  length shown + 3 * length cs ≤ INTERNAL_BUFFER_SIZE →
  ∃ d, line_turns (length cs) n a b s = Done (tt, with_drv d s) ∧
    tty d (foldl (edit canon) line cs) kb (shown ++ echo_all line cs) flushed sg.
Proof.
  induction cs as [|c cs IH]; intros s line kb shown flushed sg Hn H Hcs Hl.
  { exists (drv s). cbn. rewrite app_nil_r. split; [by destruct s|done]. }
  apply Forall_cons in Hcs as [[Hc Hend] Hcs]. cbn [length] in Hl.
  destruct (line_turn_run s line c (cs ++ kb) shown flushed sg Hn H Hc) as (d1 & E1 & H1); [lia|by rewrite Hend|].
  rewrite Hend in H1. cbn [line_turns length foldl echo_all]. rewrite (M_bind_done _ _ _ _ _ E1).
  pose proof (length_echoed line c).
  destruct (IH (with_drv d1 s) (edit canon line c) kb (shown ++ echoed canon echo line c) flushed sg Hn H1 Hcs) as (d2 & E2 & H2).
  { rewrite length_app. lia. }
  exists d2. split; [exact E2|]. by rewrite <- app_assoc in H2.
Qed.

Lemma line_turns_app i j s : line_turns (i + j) n a b s = (line_turns i n a b;; line_turns j n a b) s.
Proof.
  revert s. induction i as [|i IH]; intros s; [done|]. cbn [Nat.add line_turns]. mred.
  destruct (line_turn n a b s) as [[[] s1]| | | |]; [|done..]. cbn. apply IH.
Qed.

Lemma LineProcessor_run turns s line kb shown flushed sg :
  tty_nodes s → tty (drv s) line kb shown flushed sg → LineProcessor turns n s = line_turns turns n a b s.
Proof.
  intros [Hn Hm] []. destruct tty_sub0 as (x & Hx & Hxl). unfold LineProcessor.
  rewrite (M_bind_done _ _ _ _ _ (data_of_run n a s Hn)), (M_bind_done _ _ _ _ _ (get_sub_run x s Hx)).
  by rewrite (sh_master _ _ Hxl), (M_bind_done _ _ _ _ _ (data_of_run mn b s Hm)).
Qed.

(** A whole line: the characters, and one that ends it. *)
Lemma line_run (cs : list Z) e s kb shown flushed sg :
  tty_nodes s → tty (drv s) [] (cs ++ e :: kb) shown flushed sg →
  Forall (λ c, is_u8 c ∧ ends canon c = false) cs → is_u8 e → ends canon e = true →
  length shown + 3 * (length cs + 1) ≤ INTERNAL_BUFFER_SIZE →
  let line := foldl (edit canon) [] cs in
  length flushed + length (edit canon line e) ≤ FLUSHED_BUFFER_SIZE →
  ∃ d, LineProcessor (S (length cs)) n s = Done (tt, with_drv d s) ∧
    tty d [] kb (shown ++ echo_all [] cs ++ echoed canon echo line e) (flushed ++ edit canon line e) (sg ++ signals_of pg e).
Proof.
  intros Hn H Hcs He Hend Hl line Hf. rewrite (LineProcessor_run _ s [] (cs ++ e :: kb) shown flushed sg Hn H).
  replace (S (length cs)) with (length cs + 1)%nat by lia. rewrite line_turns_app.
  destruct (typing_run cs s [] (e :: kb) shown flushed sg Hn H Hcs) as (d1 & E1 & H1); [lia|].
  rewrite (M_bind_done _ _ _ _ _ E1). cbn [line_turns].
  assert (length (echo_all [] cs) ≤ 3 * length cs) as Hlen.
  { clear. generalize (@nil Z). induction cs as [|c cs IH]; intros l; [done|]. cbn [echo_all length]. rewrite length_app.
    pose proof (length_echoed l c). pose proof (IH (edit canon l c)). lia. }
  destruct (line_turn_run (with_drv d1 s) line e kb _ flushed sg Hn H1 He) as (d2 & E2 & H2).
  { rewrite length_app. lia. }
  { done. }
  rewrite Hend in H2. exists d2. rewrite (M_bind_done _ _ (with_drv d1 s) _ _ E2). split; [done|]. by rewrite app_assoc.
Qed.

(** Without [ICANON] the bytes pass unchanged, one by one. *)
Lemma raw_run (cs : list Z) : canon = false → ∀ s kb shown flushed sg,
  tty_nodes s → tty (drv s) [] (cs ++ kb) shown flushed sg → Forall is_u8 cs →
  length shown + 3 * length cs ≤ INTERNAL_BUFFER_SIZE → length flushed + length cs ≤ FLUSHED_BUFFER_SIZE →
  ∃ d, line_turns (length cs) n a b s = Done (tt, with_drv d s) ∧
    tty d [] kb (shown ++ (if echo then cs else [])) (flushed ++ cs) (sg ++ (cs ≫= signals_of pg)).
Proof.
  intros Hcanon. induction cs as [|c cs IH]; intros s kb shown flushed sg Hn H Hcs Hl Hf.
  { exists (drv s). assert ((if echo then [] else []) = @nil Z) as -> by (by destruct echo). cbn. rewrite !app_nil_r.
    split; [by destruct s|done]. }
  apply Forall_cons in Hcs as [Hc Hcs]. cbn [length] in Hl, Hf.
  assert (edit canon [] c = [c]) as Hedit by (unfold edit, is_backspace; by rewrite Hcanon).
  assert (ends canon c = true) as Hend by (apply bool_decide_eq_true_2; tauto).
  destruct (line_turn_run s [] c (cs ++ kb) shown flushed sg Hn H Hc) as (d1 & E1 & H1); [lia|rewrite Hedit; simpl; lia|].
  rewrite Hend, Hedit in H1. cbn [line_turns length]. rewrite (M_bind_done _ _ _ _ _ E1).
  assert (echoed canon echo [] c = if echo then [c] else []) as Hecho by (unfold echoed, is_backspace; by rewrite Hcanon).
  rewrite Hecho in H1.
  destruct (IH (with_drv d1 s) kb _ _ _ Hn H1 Hcs) as (d2 & E2 & H2).
  { rewrite length_app. destruct echo; simpl; lia. }
  { rewrite length_app. simpl. lia. }
  exists d2. split; [exact E2|]. rewrite <- !app_assoc in H2. by destruct echo.
Qed.
End tty.

(** ** The screen: a row of cells and a cursor *)
Record screen := Screen { row : list Z; cursor : nat }.
Definition blank : screen := Screen [] 0.
Definition put_char (sc : screen) (c : Z) : screen :=
  if decide (c = BACKSPACE) then Screen (row sc) (pred (cursor sc))
  else Screen (if decide (cursor sc < length (row sc))%nat then <[cursor sc := c]> (row sc) else row sc ++ [c]) (S (cursor sc)).

(** The row shows the line, with the cursor after it and blanks behind. *)
Definition shows (sc : screen) (line : list Z) : Prop :=
  cursor sc = length line ∧ take (length line) (row sc) = line ∧ Forall (.= 32) (drop (length line) (row sc)).

Lemma shows_length sc line : shows sc line → (length line ≤ length (row sc))%nat.
Proof. intros (_ & H & _). rewrite <- H at 1. rewrite length_take. lia. Qed.

Lemma shows_put sc line c : c ≠ BACKSPACE → shows sc line → shows (put_char sc c) (line ++ [c]).
Proof.
  intros Hc H. pose proof (shows_length _ _ H) as Hl. destruct H as (Hcur & Htake & Hdrop). unfold put_char.
  rewrite decide_False by done. unfold shows. cbn [cursor row]. rewrite length_app, Hcur. cbn [length].
  replace (length line + 1)%nat with (S (length line)) by lia. split; [done|]. case_decide as Hlt.
  - split.
    + rewrite (take_S_r _ _ c) by (apply list_lookup_insert_eq; lia). by rewrite take_insert_ge, Htake by lia.
    + rewrite drop_insert_lt by lia. replace (S (length line)) with (length line + 1)%nat by lia.
      rewrite <- drop_drop. by apply Forall_drop.
  - assert (length line = length (row sc)) as E by lia. rewrite take_ge in Htake by lia. rewrite Htake. split.
    + rewrite take_ge; [done|]. rewrite length_app. simpl. lia.
    + rewrite drop_ge; [constructor|]. rewrite length_app. simpl. lia.
Qed.

Lemma put_back sc : put_char sc BACKSPACE = Screen (row sc) (pred (cursor sc)).
Proof. done. Qed.
Lemma put_blank r k : (k < length r)%nat → put_char (Screen r k) 32 = Screen (<[k := 32]> r) (S k).
Proof. intros H. unfold put_char. cbn [row cursor]. by rewrite decide_False, decide_True. Qed.

Lemma shows_erase sc line c : shows sc (line ++ [c]) → shows (foldl put_char sc [BACKSPACE; 32; BACKSPACE]) line.
Proof.
  intros H. pose proof (shows_length _ _ H) as Hl. destruct H as (Hcur & Htake & Hdrop). rewrite length_app in *. cbn [length] in *.
  cbn [foldl]. rewrite (put_back sc), Hcur. replace (pred (length line + 1)) with (length line) by lia.
  rewrite put_blank, put_back by lia. cbn [row cursor pred].
  assert (take (length line) (row sc) = line) as Hline.
  { replace (take (length line) (row sc)) with (take (length line) (take (length line + 1) (row sc)))
      by (rewrite take_take; f_equal; lia). by rewrite Htake, take_app_length. }
  split_and!; cbn [row cursor]; [done| |].
  - by rewrite take_insert_ge by lia.
  - rewrite (drop_S _ 32 (length line)) by (apply list_lookup_insert_eq; lia). constructor; [done|].
    rewrite drop_insert_lt by lia. by replace (S (length line)) with (length line + 1)%nat by lia.
Qed.

(** On the screen a line looks the way it is. *)
Lemma echo_shows (cs : list Z) : ∀ line sc,
  shows sc line → Z.of_nat (length line + length cs) ≤ LINE_BUFFER_SIZE →
  shows (foldl put_char sc (echo_all true true line cs)) (foldl (edit true) line cs).
Proof.
  induction cs as [|c cs IH]; intros line sc Hs Hl; [done|]. cbn [echo_all foldl]. rewrite foldl_app. cbn [length] in Hl.
  apply IH.
  - unfold echoed, edit, is_backspace. cbn [andb]. case_bool_decide as Hc.
    + destruct line as [|l0 line] using rev_ind; [done|]. rewrite removelast_last.
      destruct (line ++ [l0]) eqn:El; [by destruct line|]. rewrite <- El in Hs. by apply (shows_erase _ _ l0).
    + unfold LINE_BUFFER_SIZE in *. rewrite decide_False by lia. by apply shows_put.
  - unfold edit, is_backspace. cbn [andb]. case_bool_decide; [rewrite removelast_firstn_len, length_take; lia|].
    case_decide; [lia|]. rewrite length_app. simpl. lia.
Qed.

(** ** From the keyboard to the program *)
Section terminal.
Context {D : Type} {HT : Holds D terminals} {SG : Signals D} {SL : SignalLaws D} {AL : Allocator}.
Context (n mn a b pg : Z) (m : master_data).
Hypothesis Hboxes : NoDup [display_buffer m; keybrd_buffer m; flushed_buffer m].
Implicit Types (s : vfs D) (line kb shown flushed : list Z) (sg : list (Z * Z)).
#[local] Abbreviation tty canon echo := (tty mn a b pg m canon echo).
#[local] Abbreviation tty_nodes := (tty_nodes n mn a b).

(** A transfer on one of the three mailboxes that succeeds. *)
Lemma terminal_access canon echo h size q tr line kb shown flushed sg s r x q' :
  tty canon echo (drv s) line kb shown flushed sg → usable (user s) tr → 0 < length_remaining tr →
  box_holds (t_boxes (held (drv s))) h size q → stream_access size tr (user s) q = Done (r, x, q') →
  ∃ d mm, box_access h tr s = Done (r, with_drv d (with_user x s)) ∧ d = hold mm (drv s) ∧ box_holds mm h size q' ∧
    only_box h (t_boxes (held (drv s))) mm.
Proof.
  intros H Hu Hl Hh E. pose proof (box_access_run (HB := boxes_of_terminals HT) h size q tr s Hh Hu Hl) as Hrun.
  rewrite E in Hrun. destruct Hrun as (d & mm & Erun & Hd & _ & Hh' & Ho). by exists d, mm.
Qed.

Lemma master_of_run canon echo s line kb shown flushed sg :
  tty_nodes s → tty canon echo (drv s) line kb shown flushed sg → master_of n s = Done (m, s).
Proof.
  intros [Hn Hm] []. destruct tty_sub0 as (x & Hx & Hxl). unfold master_of.
  rewrite (M_bind_done _ _ _ _ _ (data_of_run n a s Hn)), (M_bind_done _ _ _ _ _ (get_sub_run a x s Hx)), (sh_master _ _ _ _ _ _ Hxl),
    (M_bind_done _ _ _ _ _ (data_of_run mn b s Hm)). by apply get_master_run.
Qed.

(** The keys go into the keyboard buffer. *)
Lemma MasterWrite_run canon echo s line shown flushed sg tr :
  tty_nodes s → tty canon echo (drv s) line [] shown flushed sg → usable (user s) tr → is_write tr = true →
  0 < length_remaining tr ≤ INTERNAL_BUFFER_SIZE →
  ∃ d, MasterWrite mn tr s = Done ((0, advance tr (length_remaining tr)), with_drv d s) ∧
    tty canon echo d line (mem_take (user s) tr (length_remaining tr)) shown flushed sg.
Proof.
  intros [Hn Hm] H Hu Hw Hl. pose proof H as []. unfold MasterWrite.
  rewrite (M_bind_done _ _ _ _ _ (data_of_run mn b s Hm)), (M_bind_done _ _ _ _ _ (get_master_run b m s tty_master0)).
  destruct (terminal_access canon echo (keybrd_buffer m) INTERNAL_BUFFER_SIZE [] tr line [] shown flushed sg s (0, advance tr (length_remaining tr)) (user s)
    (mem_take (user s) tr (length_remaining tr)) H Hu) as (d & mm & E & Hd & Hh & Ho).
  - lia.
  - exact tty_kb0.
  - unfold stream_access. rewrite Hw. cbn [length]. rewrite Z.min_l by lia. by rewrite decide_False by lia.
  - exists d. assert (with_user (user s) s = s) as Hs by (by destruct s). rewrite Hs in E. split; [exact E|].
    destruct (boxes_apart m Hboxes) as (? & ? & ?).
    apply (tty_boxes mn a b pg m canon echo (drv s) d mm line [] shown flushed sg); try done; by apply (box_holds_other _ _ _ _ _ _ Ho).
Qed.

(** A program reads what was handed on. *)
Lemma SubordinateRead_run canon echo s line kb shown flushed sg tr :
  tty_nodes s → tty canon echo (drv s) line kb shown flushed sg → usable (user s) tr → is_write tr = false →
  0 < length_remaining tr → flushed ≠ [] →
  let k := Z.min (length_remaining tr) (length flushed) in
  ∃ d, SubordinateRead n tr s = Done ((0, advance tr k), with_drv d (with_user (mem_put (user s) tr (take (Z.to_nat k) flushed)) s)) ∧
    tty canon echo d line kb shown (drop (Z.to_nat k) flushed) sg.
Proof.
  intros Hn H Hu Hw Hl Hf k. pose proof H as []. unfold SubordinateRead.
  rewrite (M_bind_done _ _ _ _ _ (master_of_run canon echo s line kb shown flushed sg Hn H)).
  assert (0 < length flushed) as Hpos by (destruct flushed; [done|simpl; lia]).
  destruct (terminal_access canon echo (flushed_buffer m) FLUSHED_BUFFER_SIZE flushed tr line kb shown flushed sg s (0, advance tr k)
    (mem_put (user s) tr (take (Z.to_nat k) flushed)) (drop (Z.to_nat k) flushed) H Hu Hl tty_flushed0) as (d & mm & E & Hd & Hh & Ho).
  - unfold stream_access. rewrite Hw. fold k. by rewrite decide_False by (unfold k; lia).
  - exists d. split; [exact E|]. destruct (boxes_apart m Hboxes) as (? & ? & ?).
    apply (tty_boxes mn a b pg m canon echo (drv s) d mm line kb shown flushed sg); try done; by apply (box_holds_other _ _ _ _ _ _ Ho).
Qed.

Lemma ends_line e : ends true e = true → is_u8 e ∧ is_backspace true e = false.
Proof.
  unfold ends, is_backspace, is_u8. rewrite bool_decide_eq_true. unfold NEWLINE, CTRL_C, CTRL_Q, CTRL_Z, BACKSPACE.
  intros [->|[->|[->|[->|?]]]]; [split; [lia|done]..|done].
Qed.
Lemma typed_char c : c = BACKSPACE ∨ 32 ≤ c < 127 → is_u8 c ∧ ends true c = false.
Proof.
  unfold ends, is_u8, NEWLINE, CTRL_C, CTRL_Q, CTRL_Z, BACKSPACE. intros H. split; [lia|]. apply bool_decide_eq_false. lia.
Qed.

(** C28: keys that are typed on the master of a terminal with line editing, printable
    characters and backspaces and then a newline or control key, are read by the
    program as the edited line and that key, which a line of 300 characters loses;
    the control key raises its signal in the group of the terminal. After each of the
    keys, as long as at most 300 were typed, what the screen has got by then ([out])
    makes it show the line as edited so far, with the cursor behind it. *)
Theorem typed_line_is_read (cs : list Z) e s shown sg keys tr :
  tty_nodes s → tty true true (drv s) [] [] shown [] sg →
  usable (user s) keys → is_write keys = true → length_remaining keys = S (length cs) →
  mem_take (user s) keys (length_remaining keys) = cs ++ [e] →
  Forall (λ c, c = BACKSPACE ∨ 32 ≤ c < 127) cs → ends true e = true →
  length shown + 3 * (length cs + 1) ≤ INTERNAL_BUFFER_SIZE →
  let line := foldl (edit true) [] cs in
  let result := if decide (length line = 300%nat) then line else line ++ [e] in
  usable (user s) tr → is_write tr = false → length result ≤ length_remaining tr →
  ∃ s1 s2 s3 out, MasterWrite mn keys s = Done ((0, advance keys (length_remaining keys)), s1) ∧
    LineProcessor (S (length cs)) n s1 = Done (tt, s2) ∧
    SubordinateRead n tr s2 = Done ((0, advance tr (length result)), s3) ∧
    load_bytes (bytes (user s3)) (address tr) (length result) = result ∧
    tty true true (drv s3) [] [] (shown ++ out (length cs) ++ [e]) [] (sg ++ signals_of pg e) ∧
    ∀ j, (j ≤ length cs)%nat → ∃ sj, LineProcessor j n s1 = Done (tt, sj) ∧
      tty true true (drv sj) (foldl (edit true) [] (take j cs)) (drop j cs ++ [e]) (shown ++ out j) [] sg ∧
      (j ≤ LINE_BUFFER_SIZE → shows (foldl put_char blank (out j)) (foldl (edit true) [] (take j cs))).
Proof.
  intros Hn H Hk Hkw Hkl Hkeys Hcs He Hroom line result Hu Hw Hl. destruct (ends_line e He) as [He8 Hback].
  destruct (MasterWrite_run true true s [] shown [] sg keys Hn H Hk Hkw) as (d1 & E1 & H1).
  { unfold INTERNAL_BUFFER_SIZE in *. lia. }
  rewrite Hkeys in H1.
  assert (edit true line e = result) as Hedit.
  { unfold edit, result, LINE_BUFFER_SIZE. rewrite Hback. by repeat case_decide; try lia. }
  assert (length line ≤ 300)%nat as Hline.
  { assert (∀ l : list Z, (length l ≤ 300)%nat → (length (foldl (edit true) l cs) ≤ 300)%nat) as Hle; [|apply Hle; simpl; lia].
    clear. induction cs as [|c cs IH]; intros l Hl; [done|]. cbn [foldl]. apply IH. unfold edit, LINE_BUFFER_SIZE.
    destruct (is_backspace true c); [rewrite removelast_firstn_len, length_take; lia|]. case_decide; [done|].
    rewrite length_app. simpl. lia. }
  destruct (line_run n mn a b pg m true true Hboxes cs e (with_drv d1 s) [] shown [] sg Hn H1) as (d2 & E2 & H2); try done.
  { eapply Forall_impl; [exact Hcs|]. apply typed_char. }
  { fold line. rewrite Hedit. unfold result, FLUSHED_BUFFER_SIZE. case_decide; rewrite ?length_app; simpl; lia. }
  fold line in H2. rewrite Hedit in H2. unfold echoed in H2. rewrite Hback in H2.
  set (s2 := with_drv d2 (with_drv d1 s)) in *. cbn [app] in H2.
  assert (0 < length result) as Hpos.
  { unfold result. case_decide; [lia|]. rewrite length_app. simpl. lia. }
  destruct (SubordinateRead_run true true s2 [] [] _ result _ tr Hn H2) as (d3 & E3 & H3); [done|done|lia|by destruct result|].
  rewrite Z.min_r, Nat2Z.id, take_ge in E3 by lia. rewrite Z.min_r, Nat2Z.id, drop_ge in H3 by lia.
  exists (with_drv d1 s), s2. eexists. exists (λ j, echo_all true true [] (take j cs)). rewrite (firstn_all cs).
  split; [exact E1|]. split; [exact E2|]. split; [exact E3|]. split; [apply load_store_bytes|]. split; [exact H3|].
  intros j Hj. rewrite <- (take_drop j cs), <- app_assoc in H1.
  assert (length (take j cs) = j) as Htake by (rewrite length_take; lia).
  destruct (typing_run n mn a b pg m true true Hboxes (take j cs) (with_drv d1 s) [] _ shown [] sg Hn H1) as (dj & Ej & Hdj).
  { apply Forall_take. eapply Forall_impl; [exact Hcs|]. apply typed_char. }
  { rewrite Htake. lia. }
  rewrite Htake in Ej. exists (with_drv dj (with_drv d1 s)). split; [|split; [exact Hdj|]].
  { by rewrite (LineProcessor_run n mn a b pg m true true j (with_drv d1 s) _ _ _ _ _ Hn H1). }
  intros Hj300. apply echo_shows; [by split_and!|]. cbn [length]. by rewrite Htake.
Qed.
End terminal.

(** * A terminal at work *)

From Stdlib Require Import String.
From S2P Require Import Prelude Physical Transfer Buffers ThreadList Scheduler Semaphore Mailbox MailboxConc MailboxTheorems MailboxAccess.
From S2P Require Import Vnode Vfs Signal Boxes Pipe Pty.

(** ** The drivers keep terminals; the signals raised are recorded *)
Record tty_system := TtySystem { ts_terminals : terminals; ts_raised : list (Z * Z) }.
#[local] Instance system_terminals : Holds tty_system terminals.
Proof. refine {| held := ts_terminals; hold t d := TtySystem t (ts_raised d) |}. done. Defined.
#[local] Instance system_signals : Signals tty_system := {|
  raise_current _ := mret 0;
  raise_group pg sig := modify (λ s, with_drv (TtySystem (ts_terminals (drv s)) (ts_raised (drv s) ++ [(pg, sig)])) s) |}.
#[local] Instance system_signal_laws : SignalLaws tty_system.
Proof. refine {| raised := ts_raised |}; [done|]. intros pg sig s. by eexists. Defined.
#[local] Instance system_env : Terminal_env tty_system := {|
  create_line_processor _ := mret 99; terminate_thread _ := mret tt; current_pid := mret 42 |}.
#[local] Existing Instance bump_allocator.

Lemma fresh_holds size buffer : 0 < size < 2 ^ 31 → Z.of_nat (length buffer) = size →
  holds size (initial_counts size) (Mailbox buffer size 0 0 0 1 2 3 4 5) [].
Proof. intros Hs Hl. split; [unfold counts_are; cbn; lia|]. exists 0. split; cbn; try done; try lia. Qed.

Definition empty_box (size : Z) : box :=
  Box (initial_counts size) (Mailbox (replicate (Z.to_nat size) 0) size 0 0 0 1 2 3 4 5).
Lemma empty_box_holds m h size : 0 < size < 2 ^ 31 → m !! h = Some (empty_box size) → box_holds m h size [].
Proof.
  intros Hs Hm. split; [done|]. exists (empty_box size). split; [done|]. apply fresh_holds; [done|].
  rewrite length_replicate. lia.
Qed.

(** A terminal whose master is vnode 2 and whose subordinate is vnode 3. *)
Definition the_master : master_data := MasterData 3 1 2 3 99.
Definition the_sub : sub_data := SubData 2 (set_c_lflag (Z.lor ICANON ECHO) (replicate 80 0)) (replicate 300 0) (replicate 300 0) 0 42.
Definition tty_vnode (data : Z) : vnode := Vnode no_ops data 1 (Stat 1 0 0 1 0 0) 0.
Definition keys_memory : memory := Memory ∅ (store_bytes ∅ 0x1000 [108; 120; 8; 115; 10]).
Definition tty_start : vfs tty_system :=
  Vfs {[ 2 := tty_vnode 7; 3 := tty_vnode 8 ]} ∅ ∅ ∅ None false 1 None keys_memory
    (TtySystem (Terminals {[ 1 := empty_box 4096; 2 := empty_box 4096; 3 := empty_box 300 ]}
       {[ 7 := the_master ]} {[ 8 := the_sub ]}) []).

(** [l x backspace s newline] is read as [ls]. *)
Lemma typed_line_is_read_witness :
  let keys := CreateKernelTransfer 0x1000 5 0 TRANSFER_WRITE in
  let tr := CreateKernelTransfer 0x2000 16 0 TRANSFER_READ in
  ∃ s1 s2 s3, MasterWrite 2 keys tty_start = Done ((0, advance keys 5), s1) ∧ LineProcessor 5 3 s1 = Done (tt, s2) ∧
    SubordinateRead 3 tr s2 = Done ((0, advance tr 3), s3) ∧ load_bytes (bytes (user s3)) 0x2000 3 = [108; 115; 10].
Proof.
  intros keys tr.
  assert (usable keys_memory keys) as Hk by by split.
  assert (usable keys_memory tr) as Ht by by split.
  destruct (typed_line_is_read 3 2 8 7 42 the_master ltac:(refine (bool_decide_unpack _ _); vm_compute; exact I)
    [108; 120; 8; 115] 10 tty_start [] [] keys tr) as (s1 & s2 & s3 & out & E1 & E2 & E3 & E4 & _).
  - by split.
  - split; [done| |by apply empty_box_holds..|done]. exists the_sub. split; [done|]. by split.
  - exact Hk.
  - done.
  - done.
  - vm_compute. reflexivity.
  - unfold BACKSPACE. repeat (apply Forall_cons; split; [lia|]). by apply Forall_nil.
  - done.
  - unfold INTERNAL_BUFFER_SIZE. simpl. lia.
  - exact Ht.
  - done.
  - vm_compute. discriminate.
  - exists s1, s2, s3. split; [exact E1|]. split; [exact E2|]. split; [exact E3|exact E4].
Defined.

(** ** From the creation of a terminal *)
Definition fresh_sub (pos : Z) : sub_data := SubData 0 (replicate 80 0) (replicate 300 0) (replicate 300 0) pos 0.
Definition nothing : vfs tty_system := Vfs ∅ ∅ ∅ ∅ None false 1 None keys_memory (TtySystem (Terminals ∅ ∅ ∅) []).

Definition type_and_read (pos : Z) : M (vfs tty_system) (list Z * list Z) :=
  '(m, n) ← CreatePseudoTerminal 11 12 13 14 15 16 (fresh_sub pos) (replicate 4096 0, replicate 4096 0, replicate 300 0);
  _ ← MasterWrite m (CreateKernelTransfer 0x1000 5 0 TRANSFER_WRITE);
  LineProcessor 5 n;;
  _ ← SubordinateRead n (CreateKernelTransfer 0x2000 16 0 TRANSFER_READ);
  '(_, tr) ← MasterRead m (CreateKernelTransfer 0x3000 32 0 TRANSFER_READ);
  s ← get;
  mret (load_bytes (bytes (user s)) 0x2000 3, load_bytes (bytes (user s)) 0x3000 (Z.to_nat (32 - length_remaining tr))).

Example type_and_read_run :
  match type_and_read 0 nothing with
  | Done (r, _) => r = ([108; 115; 10], [108; 120; 8; 32; 8; 115; 10])
  | _ => False
  end.
Proof. vm_compute. reflexivity. Qed.

(** The heap does not clear the struct, and [line_buffer_pos] is never set: with
    what it may hold the first key is stored outside of the line. *)
Example line_buffer_pos_not_set : type_and_read 1000 nothing = Faulted.
Proof. vm_compute. reflexivity. Qed.
