(* ===== verification/Syscalls.v ===== *)
(** * sys/: the system calls on files

    The arguments are words of the program. [GetFdTable(GetProcess())] is the
    parameter [table]; the calls of the other components are the parameter
    [other_call]. *)

From S2P Require Import Prelude Transfer Vnode Vfs FileDes.

(** [include/fcntl.h], [include/unistd.h], [include/dirent.h], [include/errno.h]. *)
Definition O_NOCTTY : Z := 16.
Definition O_DIRECT : Z := 512.
Definition SEEK_SET : Z := 0.
Definition SEEK_CUR : Z := 1.
Definition SEEK_END : Z := 2.
Definition DT_SOCK : Z := IFTODT (Z.shiftl 7 15).
Definition ESPIPE : Z := 27.

Definition ALLOWABLE_FLAGS : Z :=
  Z.lor O_CREAT (Z.lor O_EXCL (Z.lor O_NOCTTY (Z.lor O_TRUNC (Z.lor O_APPEND
    (Z.lor O_NONBLOCK (Z.lor O_CLOEXEC (Z.lor O_DIRECT O_ACCMODE))))))).

(** [_SYSCALL_NUM_ENTRIES]. *)
Definition SYSCALL_NUM_ENTRIES : Z := 26.

Section syscalls.
Context {D : Type} {AL : Allocator} {DR : Drivers D}.
Context (table : Z) (other_call : Z → Z → Z → Z → Z → Z → M (vfs D) Z).

(** [char path[400]], read with a limit of 399. *)
Definition read_path (filename : Z) : M (vfs D) (Z * cstring) :=
  '(res, path) ← on_user (ReadStringFromUsermode (replicate 400 junk) filename 399);
  mret (res, until_zero path).

Definition SysOpen (filename flags mode fdout _ : Z) : M (vfs D) Z :=
  if decide (Z.land flags (Z.lnot ALLOWABLE_FLAGS) ≠ 0) then mret EINVAL else
  '(res, path) ← read_path filename;
  if decide (res ≠ 0) then mret res else
  '(res, file) ← OpenFile (Some path) flags mode;
  if decide (res ≠ 0) then mret res else
  '(res, fd) ← CreateFd table file junk (Z.land flags O_CLOEXEC);
  if decide (res ≠ 0) then _ ← CloseFile file; mret res else
  res ← on_user (WriteWordToUsermode fdout fd);
  if decide (res ≠ 0) then _ ← CloseFile file; _ ← RemoveFd table file; mret res else
  mret 0.

Definition SysReadWrite (fd size buffer br_out write : Z) : M (vfs D) Z :=
  '(res, file) ← GetFileFromFd table (i32 fd) true;
  if decide (file = NULL ∨ res ≠ 0) then mret res else
  fl ← get_file file;
  (if decide (write ≠ 0 ∧ Z.land (f_flags fl) O_APPEND ≠ 0) then
     v ← get_vnode (node fl); set_file file {| fl with seek_position := st_size (vn_stat v) |}
   else mret tt);;
  fl ← get_file file;
  let io := CreateTransferWritingToUser buffer size (seek_position fl) in
  let io := Transfer (address io) (length_remaining io) (offset io) (if decide (write = 0) then TRANSFER_READ else TRANSFER_WRITE)
              (type io) (blockable io) in
  '(res, io) ← (if decide (write = 0) then ReadFile file (Some io) else WriteFile file (Some io));
  if decide (res ≠ 0) then mret res else
  io ← deref io;
  let br := u32 (size - length_remaining io) in
  fl ← get_file file;
  set_file file {| fl with seek_position := u32 (seek_position fl + br) |};;
  on_user (WriteWordToUsermode br_out br).

(** [off_t] is an unsigned word. *)
Definition SysSeek (fd pos_ptr whence _ _ : Z) : M (vfs D) Z :=
  '(res, file) ← GetFileFromFd table (i32 fd) true;
  if decide (file = NULL ∨ res ≠ 0) then mret res else
  '(res, offset, _) ← on_user (PerformTransfer (Some (replicate 4 junk)) (CreateTransferReadingFromUser pos_ptr 4 0) 4);
  if decide (res ≠ 0) then mret res else
  fl ← get_file file;
  type ← VnodeOpDirentType (node fl);
  if decide (type = DT_FIFO ∨ type = DT_SOCK) then mret ESPIPE else
  v ← get_vnode (node fl);
  let offset := bytes_word offset in
  if decide (whence ≠ SEEK_CUR ∧ whence ≠ SEEK_END ∧ whence ≠ SEEK_SET) then mret EINVAL else
  let offset := if decide (whence = SEEK_CUR) then u32 (offset + seek_position fl)
                else if decide (whence = SEEK_END) then u32 (offset + st_size (vn_stat v)) else offset in
  set_file file {| fl with seek_position := offset |};;
  '(res, _, _) ← on_user (PerformTransfer (Some (word_bytes offset)) (CreateTransferWritingToUser pos_ptr 4 0) 4);
  mret res.

Definition SysClose (fd _ _ _ _ : Z) : M (vfs D) Z :=
  '(res, file) ← GetFileFromFd table (i32 fd) true;
  if decide (res ≠ 0) then mret res else
  _ ← RemoveFd table file;
  CloseFile file.

Definition SysDup (dup_num old_fd new_fd flags _ : Z) : M (vfs D) Z :=
  if decide (Z.land flags (Z.lnot O_CLOEXEC) ≠ 0) then mret EINVAL else
  if decide (dup_num = 1) then
    '(res, result_fd) ← DupFd table (i32 old_fd) junk;
    if decide (res ≠ 0) then mret res else on_user (WriteWordToUsermode new_fd (u32 result_fd))
  else if decide (dup_num = 2) then DupFd2 table (i32 old_fd) (i32 new_fd) flags
  else mret EINVAL.

Definition SysIoctl (fd cmd arg1 _ success_retv : Z) : M (vfs D) Z :=
  '(res, file) ← GetFileFromFd table (i32 fd) true;
  if decide (res ≠ 0) then mret res else
  fl ← get_file file;
  res ← VnodeOpIoctl (node fl) (i32 cmd) arg1;
  if decide (res ≠ 0) then mret res else on_user (WriteWordToUsermode success_retv 0).

Definition SysRemove (filename rmdir _ _ _ : Z) : M (vfs D) Z :=
  if decide (1 < rmdir) then mret EINVAL else
  '(res, path) ← read_path filename;
  if decide (res ≠ 0) then mret res else
  RemoveFileOrDirectory path (bool_decide (rmdir ≠ 0)).

Definition SysChdir (fd _ _ _ _ : Z) : M (vfs D) Z :=
  '(res, file) ← GetFileFromFd table (i32 fd) true;
  if decide (res ≠ 0) then mret res else
  fl ← get_file file;
  SetWorkingDirectory (node fl).

Definition system_call_table : list (Z → Z → Z → Z → Z → M (vfs D) Z) :=
  [other_call 0; other_call 1; other_call 2; other_call 3; SysOpen; SysReadWrite; SysClose; SysSeek; SysDup; other_call 9;
   SysRemove; other_call 11; other_call 12; other_call 13; other_call 14; other_call 15; other_call 16; SysIoctl;
   other_call 18; SysChdir; other_call 20; other_call 21; other_call 22; other_call 23; other_call 24; other_call 25].

(** [call] is signed: the test does not catch a negative one. *)
Definition HandleSystemCall (call a b c d e : Z) : M (vfs D) Z :=
  if decide (SYSCALL_NUM_ENTRIES ≤ call) then mret ENOSYS else
  f ← deref (aget system_call_table call);
  f a b c d e.
End syscalls.
