(* ===== verification/SyscallsTheorems.v ===== *)
(** * Reading a file through system calls *)

From S2P Require Import Prelude Physical Transfer Buffers Vnode Vfs FileDes VfsOpen FdTables DemoFsRead Syscalls.

(** ** Files with contents

    What a driver promises of a vnode [n] that reads as [content]: a read puts the
    bytes from the offset on into the buffer, as many as there are and fit, and
    what it changes besides does not matter for the next one. *)
Class ReadsAs {D : Type} {AL : Allocator} {DR : Drivers D} (n : Z) (content : list Z) (ready : vfs D → Prop) : Prop := {
  ra_nonnull : n ≠ NULL;
  ra_small : length content < 2 ^ 31;
  ra_node s : ready s → is_Some (vnodes s !! n);
  ra_read s io : ready s → direction io = TRANSFER_READ → usable (user s) io → offset io ≤ length content →
    let k := Z.min (length_remaining io) (length content - offset io) in
    ∃ b x m, VnodeOpRead n io s = Done ((0, set_blockable b (advance io k)), with_drv x (with_user m s)) ∧
      vas_entries m = vas_entries (user s) ∧
      load_bytes (bytes m) (address io) (Z.to_nat k) = take (Z.to_nat k) (drop (Z.to_nat (offset io)) content) ∧
      ready (with_drv x (with_user m s));
  ra_files s fs : ready s → ready (with_files fs s);
  ra_user s m : ready s → vas_entries m = vas_entries (user s) → ready (with_user m s);
}.

(** ** Words of the program *)
Lemma WriteWord_run m a v :
  usable m (CreateTransferWritingToUser a 4 0) →
  WriteWordToUsermode a v m = Done (0, Memory (vas_entries m) (store_bytes (bytes m) a (word_bytes v))).
Proof.
  intros Hu. unfold WriteWordToUsermode.
  pose proof (chunk_run m (CreateTransferWritingToUser a 4 0) (word_bytes v) 4 Hu) as E. cbn [is_write direction] in E.
  rewrite (M_bind_done _ _ _ _ _ (E ltac:(lia) ltac:(cbn; lia) ltac:(cbn; lia))). done.
Qed.

Section reading.
Context {D : Type} {AL : Allocator} {DR : Drivers D} (table : Z).
Context (n : Z) (content : list Z) (ready : vfs D → Prop) {RA : ReadsAs n content ready}.
Implicit Types (s : vfs D) (m : memory).

(** The descriptor [fd] is open on the file [f] at [pos]. *)
Record open_at (fd f pos : Z) s : Prop := {
  oa_ready : ready s;
  oa_table : ∃ l e, tables s !! table = Some (FdTable false l) ∧ aget l fd = Some e ∧ fd_file e = f;
  oa_file : ∃ fl, files s !! f = Some fl ∧ node fl = n ∧ can_read fl = true ∧ seek_position fl = pos;
}.

Lemma GetFileFromFd_run fd f pos s :
  open_at fd f pos s → f ≠ NULL → 0 ≤ fd < PROC_MAX_FD → GetFileFromFd table fd true s = Done ((0, f), s).
Proof.
  intros [_ (l & e & Ht & He & Hf) _] Hnn Hfd. unfold GetFileFromFd. rewrite decide_False by lia.
  assert (table_is s table l = s) as Hs by (unfold table_is, with_tables; rewrite insert_id by done; by destruct s).
  rewrite (M_bind_done _ _ _ _ _ (AcquireTable_run s table l Ht)), (M_bind_done _ _ _ _ _ (fd_entry_run s table l fd e He)).
  rewrite (M_bind_done _ _ _ _ _ (ReleaseTable_run s table l)), Hs, Hf. by rewrite decide_False by done.
Qed.

(** One call, up to the number of bytes that is written to the program. *)
Lemma SysReadWrite_upto fd f pos size buffer br_out s :
  open_at fd f pos s → f ≠ NULL → 0 ≤ fd < PROC_MAX_FD → 0 ≤ pos ≤ length content → 0 < size < 2 ^ 31 →
  usable (user s) (CreateTransferWritingToUser buffer size pos) →
  let k := Z.min size (length content - pos) in
  ∃ s2, SysReadWrite table fd size buffer br_out 0 s = on_user (WriteWordToUsermode br_out k) s2 ∧
    (∀ m, vas_entries m = vas_entries (user s) → open_at fd f (pos + k) (with_user m s2)) ∧
    vas_entries (user s2) = vas_entries (user s) ∧
    load_bytes (bytes (user s2)) buffer (Z.to_nat k) = take (Z.to_nat k) (drop (Z.to_nat pos) content).
Proof.
  intros H Hf Hfd Hpos Hsize Hu k. pose proof ra_small as Hsmall.
  unfold SysReadWrite. rewrite i32_small by (unfold PROC_MAX_FD in *; lia).
  rewrite (M_bind_done _ _ _ _ _ (GetFileFromFd_run fd f pos s H Hf Hfd)).
  rewrite (decide_False (P := f = NULL ∨ 0 ≠ 0)) by (intros [?|?]; done).
  destruct H as [Hr Ht (fl & Hfl & Hnode & Hread & Hseek)]. destruct (ra_node s Hr) as [v Hv].
  rewrite (M_bind_done _ _ _ _ _ (get_file_run f fl s Hfl)).
  rewrite (decide_False (P := 0 ≠ 0 ∧ _)) by (intros [? _]; done). rewrite (M_bind_done (mret tt) _ s tt s) by done.
  rewrite (M_bind_done _ _ _ _ _ (get_file_run f fl s Hfl)), Hseek. rewrite !(decide_True (P := 0 = 0)) by done.
  cbn [address length_remaining offset type blockable CreateTransferWritingToUser CreateTransfer].
  set (io := Transfer buffer size pos TRANSFER_READ TRANSFER_USERMODE true).
  set (io1 := set_blockable (negb (has_flag (vn_flags v) O_NONBLOCK)) io).
  assert (usable (user s) io1) as Hu1 by (by apply set_blockable_usable).
  destruct (ra_read s io1 Hr eq_refl Hu1) as (b & x & m & E & Hvas & Hbytes & Hr'); [cbn; lia|].
  cbn [length_remaining offset address io1 io set_blockable] in E, Hbytes, Hr'. fold io io1 in E. fold k in E, Hbytes, Hr'.
  set (s1 := with_drv x (with_user m s)) in *.
  pose proof (us_address _ _ Hu) as Hba. cbn [address CreateTransferWritingToUser CreateTransfer] in Hba.
  rewrite (M_bind_done _ _ s (0, Some (set_blockable b (advance io1 k))) s1).
  2: { unfold ReadFile, FileAccess. rewrite decide_False by (unfold NULL in *; cbn; lia).
       rewrite (M_bind_done _ _ _ _ _ (get_file_run f fl s Hfl)), Hnode, decide_False by apply ra_nonnull. rewrite Hread. cbn [negb andb orb].
       rewrite (M_bind_done _ _ _ _ _ (get_vnode_run n v s Hv)). fold io1. by rewrite (M_bind_done _ _ _ _ _ E). }
  rewrite (decide_False (P := 0 ≠ 0)) by (intros ?; done). cbn [deref].
  rewrite (M_bind_done (mret _) _ s1 (set_blockable b (advance io1 k)) s1) by done.
  assert (length_remaining (set_blockable b (advance io1 k)) = size - k) as Hrem.
  { rewrite (advance_run (user s) io1) by (done || (cbn; lia)). done. }
  rewrite Hrem, (u32_small (size - (size - k))) by (unfold is_u32; lia).
  replace (size - (size - k)) with k by lia.
  rewrite (M_bind_done (get_file f) _ s1 fl s1) by (by apply get_file_run). rewrite Hseek.
  rewrite (u32_small (pos + k)) by (unfold is_u32; lia).
  set (fl2 := {| fl with seek_position := pos + k |}). set (s2 := with_files (<[f := fl2]> (files s1)) s1).
  rewrite (M_bind_done (set_file f _) _ s1 tt s2) by done.
  exists s2. split_and!; [done| |exact Hvas|exact Hbytes].
  intros m2 Hm2. split; [|exact Ht|exists fl2; split_and!; [apply lookup_insert_eq|done..]].
  apply ra_user; [by apply ra_files|]. by rewrite Hm2.
Qed.

(** The next bytes of the file. *)
Lemma SysReadWrite_read fd f pos size buffer br_out s :
  open_at fd f pos s → f ≠ NULL → 0 ≤ fd < PROC_MAX_FD → 0 ≤ pos ≤ length content → 0 < size < 2 ^ 31 →
  usable (user s) (CreateTransferWritingToUser buffer size pos) →
  usable (user s) (CreateTransferWritingToUser br_out 4 0) →
  (br_out + 4 ≤ buffer ∨ buffer + size ≤ br_out) →
  let k := Z.min size (length content - pos) in
  ∃ s', SysReadWrite table fd size buffer br_out 0 s = Done (0, s') ∧ open_at fd f (pos + k) s' ∧
    vas_entries (user s') = vas_entries (user s) ∧
    load_bytes (bytes (user s')) buffer (Z.to_nat k) = take (Z.to_nat k) (drop (Z.to_nat pos) content) ∧
    load_bytes (bytes (user s')) br_out 4 = word_bytes k.
Proof.
  intros H Hf Hfd Hpos Hsize Hu Hb Hdis k.
  destruct (SysReadWrite_upto fd f pos size buffer br_out s H Hf Hfd Hpos Hsize Hu) as (s2 & E & Ho & Hvas & Hbytes). fold k in E, Ho, Hbytes.
  set (m := user s2) in *.
  assert (usable m (CreateTransferWritingToUser br_out 4 0)) as Hb1 by (by apply (usable_entries (user s))).
  set (m2 := Memory (vas_entries m) (store_bytes (bytes m) br_out (word_bytes k))).
  exists (with_user m2 s2). split_and!.
  - rewrite E. unfold on_user. fold m. by rewrite (WriteWord_run m br_out k Hb1).
  - by apply Ho.
  - exact Hvas.
  - cbn [user with_user m2 bytes]. rewrite <- Hbytes. apply load_bytes_ext. intros i Hi. unfold load.
    rewrite store_bytes_lookup. cbn [length word_bytes]. by rewrite decide_False by lia.
  - exact (load_store_bytes (bytes m) br_out (word_bytes k)).
Qed.

(** A program that reads in pieces: it looks at the number of bytes it was given
    and takes them out of its buffer. *)
Fixpoint read_pieces (j : nat) (fd size buffer br_out : Z) : M (vfs D) (list Z) :=
  match j with
  | O => mret []
  | S j =>
    res ← SysReadWrite table fd size buffer br_out 0;
    if decide (res ≠ 0) then mret [] else
    s ← get;
    let br := bytes_word (load_bytes (bytes (user s)) br_out 4) in
    rest ← read_pieces j fd size buffer br_out;
    mret (load_bytes (bytes (user s)) buffer (Z.to_nat br) ++ rest)
  end.

(** C19: a program that reads an open file piece by piece gets its bytes, each once
    and in order, from where the file stands: after [j] pieces the first [j] times
    the size of a piece, and the whole rest of the file once there are enough. *)
Theorem pieces_are_the_file (j : nat) : ∀ fd f pos size buffer br_out s,
  open_at fd f pos s → f ≠ NULL → 0 ≤ fd < PROC_MAX_FD → 0 ≤ pos ≤ length content → 0 < size < 2 ^ 31 →
  usable (user s) (CreateTransferWritingToUser buffer size 0) →
  usable (user s) (CreateTransferWritingToUser br_out 4 0) →
  (br_out + 4 ≤ buffer ∨ buffer + size ≤ br_out) →
  ∃ s', read_pieces j fd size buffer br_out s = Done (take (Z.to_nat (j * size)) (drop (Z.to_nat pos) content), s') ∧
    open_at fd f (Z.min (length content) (pos + j * size)) s'.
Proof.
  induction j as [|j IH]; intros fd f pos size buffer br_out s H Hf Hfd Hpos Hsize Hu Hb Hdis; cbn [read_pieces].
  { exists s. split; [done|]. by rewrite Z.min_r by lia; rewrite Z.mul_0_l, Z.add_0_r. }
  pose proof ra_small as Hsmall.
  assert (usable (user s) (CreateTransferWritingToUser buffer size pos)) as Hu1 by (destruct Hu; split; cbn in *; lia || done).
  destruct (SysReadWrite_read fd f pos size buffer br_out s H Hf Hfd Hpos Hsize Hu1 Hb Hdis) as (s1 & E & H1 & Hvas & Hbuf & Hbr).
  set (k := Z.min size (length content - pos)) in *. rewrite (M_bind_done _ _ _ _ _ E).
  rewrite (decide_False (P := 0 ≠ 0)) by (intros ?; done). rewrite (M_bind_done get _ s1 s1 s1) by done. cbv zeta.
  rewrite Hbr, word_bytes_roundtrip by (unfold is_u32; lia). rewrite Hbuf.
  destruct (IH fd f (pos + k) size buffer br_out s1 H1 Hf Hfd ltac:(lia) Hsize
    (usable_entries _ _ _ Hu Hvas) (usable_entries _ _ _ Hb Hvas) Hdis) as (s2 & E2 & H2).
  exists s2. rewrite (M_bind_done _ _ _ _ _ E2). unfold mret, M_mret. split.
  - do 2 f_equal. rewrite Z2Nat.inj_add by lia. rewrite <- drop_drop. set (l := drop (Z.to_nat pos) content).
    assert (Z.of_nat (length l) = length content - pos) as Hl by (unfold l; rewrite length_drop; lia).
    destruct (decide (size ≤ length content - pos)) as [Hin|Hout].
    + assert (k = size) as -> by lia. replace (Z.to_nat (S j * size)) with (Z.to_nat size + Z.to_nat (j * size))%nat by lia.
      by rewrite take_take_drop.
    + rewrite (drop_ge l) by lia. rewrite take_nil, app_nil_r, !take_ge by nia. done.
  - destruct (decide (size ≤ length content - pos)) as [Hin|Hout].
    + replace (Z.min (length content) (pos + S j * size)) with (Z.min (length content) (pos + k + j * size)) by (f_equal; lia). done.
    + replace (Z.min (length content) (pos + S j * size)) with (Z.min (length content) (pos + k + j * size)) by nia. done.
Qed.

(** ** Calls that a program can break the kernel with *)

(** The number of a call is signed, and only compared with the number of calls. *)
Lemma negative_call_faults other call a b c d e s : call < 0 →
  HandleSystemCall table other call a b c d e s = Faulted.
Proof.
  intros Hc. unfold HandleSystemCall, SYSCALL_NUM_ENTRIES. rewrite decide_False by lia. unfold aget.
  by rewrite decide_False by lia.
Qed.

(** A NULL pointer for the number of bytes reaches the assertion of
    [PerformTransfer]: any program can stop the kernel with a read. *)
Theorem null_pointer_panics fd f pos size buffer s :
  open_at fd f pos s → f ≠ NULL → 0 ≤ fd < PROC_MAX_FD → 0 ≤ pos ≤ length content → 0 < size < 2 ^ 31 →
  usable (user s) (CreateTransferWritingToUser buffer size pos) →
  SysReadWrite table fd size buffer NULL 0 s = Panicked PANIC_ASSERTION_FAILURE.
Proof.
  intros H Hf Hfd Hpos Hsize Hu.
  by destruct (SysReadWrite_upto fd f pos size buffer NULL s H Hf Hfd Hpos Hsize Hu) as (s2 & -> & _).
Qed.
End reading.

(** * System calls on a file in memory *)

From Stdlib Require Import String.
From S2P Require Import Prelude Physical Transfer Buffers Vnode Vfs FileDes VfsOpen DemoFsRead DiskNames Syscalls.

(** A driver whose only file is a list of bytes. *)
Definition text : list Z := [77; 101; 114; 108; 111; 110].
Definition text_read (n : Z) (io : transfer) : M (vfs unit) (Z * transfer) :=
  let l := drop (Z.to_nat (offset io)) text in
  let k := Z.min (length_remaining io) (length l) in
  '(res, _, io) ← on_user (PerformTransfer (Some l) io k);
  mret (res, io).

#[local] Existing Instance bump_allocator.
#[local] Instance text_drivers : Drivers unit := {|
  call_check_open _ _ _ := mret 0; call_read _ := text_read; call_write _ _ io := mret (ENOSYS, io); call_ioctl _ _ _ _ := mret ENOSYS;
  call_close _ _ := mret 0; call_truncate _ _ _ := mret ENOSYS; call_create _ _ out _ _ _ := mret (ENOSYS, out);
  call_follow _ _ _ := mret (0, 20); call_unlink _ _ := mret ENOSYS; call_delete _ _ := mret ENOSYS |}.

Definition text_vnode : vnode := Vnode (VnodeOps NULL 1 1 1 NULL NULL NULL 1 NULL NULL) 0 1 (Stat 1 0 S_IFREG 1 6 512) 0.
Definition text_file (pos : Z) : file := File true false 0 pos 0 1 20.
Definition text_ready (s : vfs unit) : Prop := vnodes s !! 20 = Some text_vnode.

#[local] Instance text_reads : ReadsAs 20 text text_ready.
Proof.
  split; [done|done|by intros s Hs; exists text_vnode| |done|done].
  intros s io Hs Hd Hu Ho k. destruct s as [vn fi ta pi mo lo de cw us dr]. unfold text_ready in Hs. cbn in Hs, Hu.
  assert (VnodeOpRead 20 io (Vfs vn fi ta pi mo lo de cw us dr) = text_read 20 io (Vfs vn fi ta pi mo lo de cw us dr)) as ->.
  { unfold VnodeOpRead. rewrite (M_bind_done _ _ _ _ _ (CheckVnode_run 20 text_vnode (Vfs vn fi ta pi mo lo de cw us dr) ltac:(done) Hs ltac:(done))).
    rewrite (M_bind_done _ _ _ _ _ (get_vnode_run 20 text_vnode (Vfs vn fi ta pi mo lo de cw us dr) Hs)), Hd. done. }
  unfold text_read. set (l := drop (Z.to_nat (offset io)) text). pose proof (us_offset _ _ Hu). pose proof (us_length _ _ Hu).
  assert (Z.of_nat (length l) = length text - offset io) as Hl by (unfold l; rewrite length_drop; lia). rewrite Hl. fold k.
  assert (set_blockable (blockable io) (advance io k) = advance io k) as Hsame by done.
  exists (blockable io), dr. rewrite Hsame. destruct (decide (k = 0)) as [Hk|Hk].
  - assert (PerformTransfer (Some l) io k us = Done ((0, l, io), us)) as E.
    { unfold PerformTransfer. rewrite bool_decide_eq_true_2 by (pose proof (us_address _ _ Hu); unfold NULL; lia).
      mred. rewrite Hk, Z.min_l by done. by rewrite decide_True by done. }
    exists us. split_and!; [|done|by rewrite Hk|done]. unfold on_user. mred. cbn [user]. rewrite E.
    rewrite Hk, (advance_zero us) by done. done.
  - assert (0 < k) as Hpos by (unfold k; lia).
    pose proof (chunk_run us io l k Hu Hpos ltac:(unfold k; lia) ltac:(lia)) as E. unfold is_write in E. rewrite Hd in E.
    set (m' := Memory _ _) in E. exists m'. split_and!; [|done| |done].
    + unfold on_user. mred. cbn [user]. by rewrite E.
    + pose proof (load_store_bytes (bytes us) (address io) (take (Z.to_nat k) l)) as H1. by rewrite length_take_le in H1 by lia.
Qed.

(** The program has a page of its own; descriptor 3 is the file. *)
Definition program_page : vas_entry := VasEntry true true false 0 false true false false.
Definition program_memory : memory := Memory {[ 0x10000 := program_page ]} (store_bytes ∅ 0x10000800 [97; 98; 0]).
Definition text_start : vfs unit :=
  Vfs {[ 20 := text_vnode ]} {[ 10 := text_file 0 ]} {[ 50 := FdTable false ([Fd 0 0; Fd 0 0; Fd 0 0; Fd 10 0] ++ replicate 1020 (Fd 0 0)) ]} ∅
    (Some []) false 1 (Some 20) program_memory tt.

Lemma program_usable a size : 0 < size → 0x10000000 ≤ a → a + size < 0x10001000 →
  usable program_memory (CreateTransferWritingToUser a size 0).
Proof.
  intros Hs Ha He. split; cbn; try lia. intros _. split; [unfold in_user_area, ARCH_USER_AREA_BASE, ARCH_USER_AREA_LIMIT; lia|].
  intros p Hp. assert (p = 0x10000) as ->.
  { unfold ARCH_PAGE_SIZE in Hp. pose proof (Z.div_le_mono 0x10000000 a 4096 ltac:(lia) Ha) as H1.
    pose proof (Z.div_le_mono (a + size) 0x10000fff 4096 ltac:(lia) ltac:(lia)) as H2.
    change (0x10000000 / 4096) with 0x10000 in H1. change (0x10000fff / 4096) with 0x10000 in H2. lia. }
  exists program_page. by split_and!.
Qed.

Lemma text_open : open_at 50 20 text_ready 3 10 0 text_start.
Proof. split; [done| |]. - eexists _, (Fd 10 0). split_and!; [reflexivity|reflexivity|done]. - by exists (text_file 0). Qed.

(** Two pieces of four bytes are the whole file. *)
Lemma pieces_are_the_file_witness :
  ∃ s', read_pieces 50 2 3 4 0x10000100 0x10000200 text_start = Done (text, s').
Proof.
  destruct (pieces_are_the_file 50 20 text text_ready 2 3 10 0 4 0x10000100 0x10000200 text_start text_open) as (s' & E & _).
  - done.
  - unfold PROC_MAX_FD. lia.
  - simpl. lia.
  - lia.
  - apply program_usable; lia.
  - apply program_usable; lia.
  - lia.
  - exists s'. exact E.
Defined.

(** Opening a file into a pointer the program may not use: the file is closed, and
    [RemoveFd] then reads the struct that was freed. *)
Example open_with_bad_pointer :
  SysOpen 50 0x10000800 O_RDONLY 0 0x20000000 0 text_start = Faulted ∧
  match SysOpen 50 0x10000800 O_RDONLY 0 0x10000100 0 text_start with Done (r, _) => r = 0 | _ => False end.
Proof. split; vm_compute; reflexivity. Qed.
