(* ===== verification/Process.v ===== *)
(** * thread/process.c: processes

    A process lives in a store by address; its children and threads are trees of
    addresses ordered by the default comparator, and the process table is a tree of
    nodes ordered by process id. What processes use of semaphores, threads, address
    spaces, descriptor tables and vnodes is the interface [Kernel]. *)

From S2P Require Import Prelude Tree.

Definition SEM_BIG_NUMBER : Z := Z.shiftl 1 30.
Definition SEM_REQUIRE_FULL : Z := 2.
Definition WNOHANG : Z := 1.
Definition SIGCHLD : Z := 4.

Definition COMPARE_SIGN (a b : Z) : Z := if decide (b < a) then 1 else if decide (a < b) then -1 else 0.

Record process := Process {
  pid : Z;
  pgid : Z;
  parent : Z;
  vas : Z;
  children : option tree;   (* [None] once the tree is destroyed *)
  threads : option tree;
  lock : Z;
  killed_children_semaphore : Z;
  fd_table : Z;
  retv : Z;
  terminated : bool;
  p_cwd : Z;
}.

Record process_table_node := PNode { n_pid : Z; n_process : Z }.

(** The other components of the kernel, with state [X]. *)
Class Kernel (X : Type) : Type := {
  create_semaphore : Z → Z → M X Z;            (* maximum, initial count *)
  acquire_semaphore : Z → Z → M X Z;           (* time-out *)
  release_semaphore : Z → M X unit;
  destroy_semaphore : Z → Z → M X Z;           (* flags *)
  get_thread_running : M X Z;
  get_process_running : M X Z;
  terminate_thread : Z → M X unit;
  is_terminating : Z → M X bool;               (* of the state and [needs_termination] *)
  set_thread_process : Z → Z → M X unit;
  create_thread : Z → Z → Z → M X Z;           (* entry point, argument, address space *)
  create_fork_thread : Z → Z → M X unit;       (* process, thread *)
  create_killer_thread : Z → M X unit;         (* process *)
  raise_signal : Z → Z → M X unit;
  create_vas : M X Z;
  copy_vas : Z → M X unit;
  destroy_vas : Z → M X unit;
  get_vas : M X Z;
  create_fd_table : M X Z;
  destroy_fd_table : Z → M X unit;
  reference_vnode : Z → M X unit;
  dereference_vnode : Z → M X unit;
}.

Record procs (X : Type) := Procs {
  processes : gmap Z process;
  nodes : gmap Z process_table_node;
  process_table : tree;
  process_table_mutex : Z;
  next_pid : Z;
  ext : X;
}.
Arguments Procs {_} _ _ _ _ _ _.
Arguments processes {_}.
Arguments nodes {_}.
Arguments process_table {_}.
Arguments process_table_mutex {_}.
Arguments next_pid {_}.
Arguments ext {_}.

Section process.
Context {X : Type}.
Implicit Types s : procs X.

Definition with_processes (p : gmap Z process) s : procs X :=
  Procs p (nodes s) (process_table s) (process_table_mutex s) (next_pid s) (ext s).
Definition with_nodes (n : gmap Z process_table_node) s : procs X :=
  Procs (processes s) n (process_table s) (process_table_mutex s) (next_pid s) (ext s).
Definition with_table (t : tree) s : procs X :=
  Procs (processes s) (nodes s) t (process_table_mutex s) (next_pid s) (ext s).
Definition with_next_pid (n : Z) s : procs X :=
  Procs (processes s) (nodes s) (process_table s) (process_table_mutex s) n (ext s).
Definition with_mutex (m : Z) s : procs X :=
  Procs (processes s) (nodes s) (process_table s) m (next_pid s) (ext s).
Definition with_ext (x : X) s : procs X :=
  Procs (processes s) (nodes s) (process_table s) (process_table_mutex s) (next_pid s) x.

(** A call of another component. *)
Definition lift {A} (m : M X A) : M (procs X) A := λ s,
  outcome_bind (λ '(a, x), Done (a, with_ext x s)) (m (ext s)).

Definition get_process (p : Z) : M (procs X) process := s ← get; deref (processes s !! p).
Definition set_process (p : Z) (v : process) : M (procs X) unit :=
  modify (λ s, with_processes (<[p := v]> (processes s)) s).

(** A call of the tree library. *)
Definition run_tree {A} (m : M tree A) (t : tree) : M (procs X) (A * tree) := λ s,
  outcome_bind (λ '(a, t'), Done ((a, t'), s)) (m t).
Definition on_tree {A} (m : M tree A) (o : option tree) : M (procs X) (A * tree) :=
  t ← deref o; run_tree m t.

(** [ProcessTableComparator], which reads the ids of the nodes. *)
Definition ProcessTableComparator (ns : gmap Z process_table_node) : tree_comparator := λ a b,
  COMPARE_SIGN (default 0 (n_pid <$> ns !! a)) (default 0 (n_pid <$> ns !! b)).

(** A call on the process table with the nodes [ns] in memory. The comparator is a
    constant pointer; what it computes is settled at the call. *)
Definition on_table {A} (ns : gmap Z process_table_node) (m : M tree A) : M (procs X) A :=
  s ← get;
  let t := process_table s in
  '(a, t) ← on_tree m (Some {| t with equality_handler := ProcessTableComparator ns |});
  put (with_table {| t with equality_handler := equality_handler (process_table s) |} s);;
  mret a.

Section ops.
Context `{!Allocator} `{!Kernel X}.

Definition CreateMutex : M (procs X) Z := lift (create_semaphore 1 0).
Definition AcquireMutex (mtx : Z) : M (procs X) unit := _ ← lift (acquire_semaphore mtx (-1)); mret tt.
Definition ReleaseMutex (mtx : Z) : M (procs X) unit := lift (release_semaphore mtx).

Definition AcquireTableMutex : M (procs X) unit := s ← get; AcquireMutex (process_table_mutex s).
Definition ReleaseTableMutex : M (procs X) unit := s ← get; ReleaseMutex (process_table_mutex s).

Definition AllocateNextPid : M (procs X) Z :=
  s ← get;
  put (with_next_pid (i32 (next_pid s + 1)) s);;
  mret (next_pid s).

Definition InsertIntoProcessTable (prcss : Z) : M (procs X) Z :=
  p ← AllocateNextPid;
  AcquireTableMutex;;
  s ← get;
  let node := pick (dom (nodes s)) in
  modify (with_nodes (<[node := PNode p prcss]> (nodes s)));;
  s ← get;
  on_table (nodes s) (TreeInsert node);;
  ReleaseTableMutex;;
  mret p.

(** [TreeGet] with a [dummy] node on the stack. *)
Definition find_node (p : Z) : M (procs X) Z :=
  s ← get;
  let dummy := pick (dom (nodes s)) in
  on_table (<[dummy := PNode p junk]> (nodes s)) (TreeGet dummy).

Definition RemoveFromProcessTable (p : Z) : M (procs X) unit :=
  AcquireTableMutex;;
  actual ← find_node p;
  s ← get;
  on_table (nodes s) (TreeDelete actual);;
  modify (with_nodes (delete actual (nodes s)));;
  ReleaseTableMutex.

Definition LockProcess (prcss : Z) : M (procs X) unit := p ← get_process prcss; AcquireMutex (lock p).
Definition UnlockProcess (prcss : Z) : M (procs X) unit := p ← get_process prcss; ReleaseMutex (lock p).

Definition InitProcess : M (procs X) unit :=
  m ← CreateMutex;
  modify (with_mutex m);;
  modify (with_table TreeCreate).

Definition GetProcess : M (procs X) Z := lift get_process_running.

Definition GetProcessFromPid (p : Z) : M (procs X) Z :=
  AcquireTableMutex;;
  node ← find_node p;
  ReleaseTableMutex;;
  if decide (node = NULL) then mret NULL else
  s ← get;
  n ← deref (nodes s !! node);
  mret (n_process n).

(** Lines 94 to 106, and 126 to 138. *)
Definition new_process (parent_pid : Z) : M (procs X) Z :=
  s ← get;
  let prcss := pick (dom (processes s)) in
  mtx ← CreateMutex;
  v ← lift create_vas;
  sem ← lift (create_semaphore SEM_BIG_NUMBER SEM_BIG_NUMBER);
  set_process prcss {| lock := mtx; vas := v; parent := parent_pid; children := Some TreeCreate;
    threads := Some TreeCreate; killed_children_semaphore := sem; retv := 0; terminated := false;
    pid := junk; pgid := junk; fd_table := junk; p_cwd := junk |};;
  i ← InsertIntoProcessTable prcss;
  p ← get_process prcss;
  set_process prcss {| p with pid := i |};;
  p ← get_process prcss;
  set_process prcss {| p with pgid := i |};;
  t ← lift create_fd_table;
  p ← get_process prcss;
  set_process prcss {| p with fd_table := t |};;
  mret prcss.

Definition set_cwd (prcss c : Z) : M (procs X) unit :=
  p ← get_process prcss; set_process prcss {| p with p_cwd := c |}.

Definition insert_child (prnt prcss : Z) : M (procs X) unit :=
  p ← get_process prnt;
  '(_, t) ← on_tree (TreeInsert prcss) (children p);
  set_process prnt {| p with children := Some t |}.

(** Lines 110 to 114, and 143 to 147. *)
Definition join_parent (prnt prcss : Z) : M (procs X) unit :=
  insert_child prnt prcss;;
  p ← get_process prnt;
  set_cwd prcss (p_cwd p);;
  if decide (p_cwd p ≠ NULL) then lift (reference_vnode (p_cwd p)) else mret tt.

Definition CreateProcessEx (parent_pid : Z) : M (procs X) Z :=
  prcss ← new_process parent_pid;
  (if decide (parent_pid ≠ 0) then prnt ← GetProcessFromPid parent_pid; join_parent prnt prcss
   else set_cwd prcss NULL);;
  mret prcss.

Definition CreateProcess (parent_pid : Z) : M (procs X) Z :=
  prcss ← new_process parent_pid;
  (if decide (parent_pid ≠ 0) then
     prnt ← GetProcessFromPid parent_pid;
     LockProcess prnt;;
     join_parent prnt prcss;;
     UnlockProcess prnt
   else set_cwd prcss NULL);;
  mret prcss.

Definition AddThreadToProcess (prcss thr : Z) : M (procs X) unit :=
  LockProcess prcss;;
  p ← get_process prcss;
  '(_, t) ← on_tree (TreeInsert thr) (threads p);
  set_process prcss {| p with threads := Some t |};;
  lift (set_thread_process thr prcss);;
  UnlockProcess prcss.

Definition CreateProcessWithEntryPoint (parent_pid entry_point args : Z) : M (procs X) Z :=
  prcss ← CreateProcess parent_pid;
  p ← get_process prcss;
  thr ← lift (create_thread entry_point args (vas p));
  AddThreadToProcess prcss thr;;
  mret prcss.

Definition ForkProcess : M (procs X) Z :=
  prcss ← GetProcess;
  LockProcess prcss;;
  p ← get_process prcss;
  new ← CreateProcessEx (pid p);
  n ← get_process new;
  lift (copy_vas (vas n));;
  p ← get_process prcss;
  n ← get_process new;
  set_process new {| n with pgid := pgid p |};;
  thr ← lift get_thread_running;
  lift (create_fork_thread new thr);;
  cur ← GetProcess;
  UnlockProcess cur;;
  mret new.

Definition ReapProcess (prcss : Z) : M (procs X) unit :=
  p ← get_process prcss;
  v ← lift get_vas;
  c_assert (bool_decide (vas p ≠ v));;
  res ← lift (destroy_semaphore (killed_children_semaphore p) SEM_REQUIRE_FULL);
  c_assert (bool_decide (res = 0));;
  lift (destroy_vas (vas p));;
  lift (destroy_fd_table (fd_table p));;
  RemoveFromProcessTable (pid p);;
  (if decide (parent p ≠ 0) then
     prnt ← GetProcessFromPid (parent p);
     q ← get_process prnt;
     '(_, t) ← on_tree (TreeDelete prcss) (children q);
     set_process prnt {| q with children := Some t |}
   else mret tt);;
  (if decide (p_cwd p ≠ NULL) then lift (dereference_vnode (p_cwd p)) else mret tt);;
  modify (λ s, with_processes (delete prcss (processes s)) s).

(** The id of the child reaped, or 0, and [*status], which starts as [status]. It
    returns as soon as it has reaped, so the tree it walks does not change. *)
Fixpoint RecursivelyTryReap (node : tree_node) (target status : Z) : M (procs X) (Z * Z) :=
  match node with
  | Null => mret (0, status)
  | TNode lt child rt =>
    LockProcess child;;
    c ← get_process child;
    if decide (terminated c = true ∧ (pid c = target ∨ target = -1)) then
      UnlockProcess child;;
      ReapProcess child;;
      mret (pid c, retv c)
    else
      UnlockProcess child;;
      '(left_retv, status) ← RecursivelyTryReap lt target status;
      if decide (left_retv ≠ 0) then mret (left_retv, status) else RecursivelyTryReap rt target status
  end.

Definition AdoptOrphan (adopter orphan : Z) : M (procs X) unit :=
  LockProcess adopter;;
  a ← get_process adopter;
  o ← get_process orphan;
  set_process orphan {| o with parent := pid a |};;
  insert_child adopter orphan;;
  a ← get_process adopter;
  lift (release_semaphore (killed_children_semaphore a));;
  UnlockProcess adopter.

(** The tree is the one of the process that dies: it does not change unless that
    process is the adopter itself. *)
Fixpoint RecursivelyMakeChildrenOrphans (node : tree_node) : M (procs X) unit :=
  match node with
  | Null => mret tt
  | TNode lt orphan rt =>
    RecursivelyMakeChildrenOrphans lt;;
    RecursivelyMakeChildrenOrphans rt;;
    adopter ← GetProcessFromPid 1;
    AdoptOrphan adopter orphan
  end.

Fixpoint RecursivelyKillRemainingThreads (node : tree_node) : M (procs X) unit :=
  match node with
  | Null => mret tt
  | TNode lt victim rt =>
    RecursivelyKillRemainingThreads lt;;
    RecursivelyKillRemainingThreads rt;;
    t ← lift (is_terminating victim);
    if (t : bool) then mret tt else lift (terminate_thread victim)
  end.

Definition GetArbitraryThreadFromProcess (prcss : Z) : M (procs X) Z :=
  p ← get_process prcss;
  t ← deref (threads p);
  mret (match root t with TNode _ thr _ => thr | Null => NULL end).

Definition KillProcessHelper (prcss : Z) : M (procs X) unit :=
  p ← get_process prcss;
  cur ← GetProcess;
  c_assert (bool_decide (cur = NULL));;
  v ← lift get_vas;
  c_assert (bool_decide (v ≠ vas p));;
  t ← deref (threads p);
  RecursivelyKillRemainingThreads (root t);;
  p ← get_process prcss;
  t ← deref (children p);
  RecursivelyMakeChildrenOrphans (root t);;
  p ← get_process prcss;
  set_process prcss {| p with threads := None |};;
  p ← get_process prcss;
  set_process prcss {| p with children := None |};;
  lift (destroy_vas (vas p));;
  p ← get_process prcss;
  set_process prcss {| p with terminated := true |};;
  (if decide (parent p = 0) then ReapProcess prcss
   else
     prnt ← GetProcessFromPid (parent p);
     c_assert (bool_decide (prnt ≠ NULL));;
     q ← get_process prnt;
     lift (release_semaphore (killed_children_semaphore q));;
     thr ← GetArbitraryThreadFromProcess prnt;
     lift (raise_signal thr SIGCHLD));;
  thr ← lift get_thread_running;
  lift (terminate_thread thr).

Definition KillProcess (ret : Z) : M (procs X) unit :=
  prcss ← GetProcess;
  p ← get_process prcss;
  set_process prcss {| p with retv := ret |};;
  lift (create_killer_thread prcss);;
  thr ← lift get_thread_running;
  lift (terminate_thread thr).

Definition GetFdTable (prcss : Z) : M (procs X) Z :=
  if decide (prcss = NULL) then mret NULL else p ← get_process prcss; mret (fd_table p).

Definition GetPid (prcss : Z) : M (procs X) Z :=
  if decide (prcss = NULL) then mret 0 else p ← get_process prcss; mret (pid p).

(** The processes are appended to the list in pre-order. *)
Fixpoint GetProcessesFromPgidRecursive (node : tree_node) (group : Z) (acc : list Z) : M (procs X) (list Z) :=
  match node with
  | Null => mret acc
  | TNode lt data rt =>
    acc ← (if decide (data ≠ NULL) then
              s ← get;
              pnode ← deref (nodes s !! data);
              if decide (n_process pnode ≠ NULL) then
                p ← get_process (n_process pnode);
                mret (if decide (pgid p = group) then acc ++ [n_process pnode] else acc)
              else mret acc
            else mret acc);
    acc ← GetProcessesFromPgidRecursive lt group acc;
    GetProcessesFromPgidRecursive rt group acc
  end.

Definition GetProcessesFromPgid (group : Z) : M (procs X) (list Z) :=
  AcquireTableMutex;;
  s ← get;
  l ← GetProcessesFromPgidRecursive (root (process_table s)) group [];
  ReleaseTableMutex;;
  mret l.

(** Each turn takes a unit of the semaphore. *)
Fixpoint WaitProcess_loop (fuel : nat) (prcss target status flags failed_reaps : Z) : M (procs X) (Z * Z * Z) :=
  match fuel with
  | O => exhausted
  | S fuel =>
    p ← get_process prcss;
    res ← lift (acquire_semaphore (killed_children_semaphore p)
                  (if decide (Z.land flags WNOHANG ≠ 0) then 0 else -1));
    if decide (res ≠ 0) then mret (0, status, failed_reaps) else
    LockProcess prcss;;
    p ← get_process prcss;
    t ← deref (children p);
    '(result, status) ← RecursivelyTryReap (root t) target status;
    UnlockProcess prcss;;
    if decide (result = 0)
    then WaitProcess_loop fuel prcss target status flags (if decide (target ≠ -1) then failed_reaps + 1 else failed_reaps)
    else mret (result, status, failed_reaps)
  end.

Fixpoint release_failed (n : nat) (prcss : Z) : M (procs X) unit :=
  match n with
  | O => mret tt
  | S n =>
    p ← get_process prcss;
    lift (release_semaphore (killed_children_semaphore p));;
    release_failed n prcss
  end.

(** The id of the child, or 0, and [*status]. *)
Definition WaitProcess (fuel : nat) (target status flags : Z) : M (procs X) (Z * Z) :=
  prcss ← GetProcess;
  '(result, status, failed_reaps) ← WaitProcess_loop fuel prcss target status flags 0;
  release_failed (Z.to_nat failed_reaps) prcss;;
  mret (result, status).
End ops.
End process.
