(* ===== verification/ProcessTable.v ===== *)
(** * The process table implements a map from ids to processes

    A tree without equal data is a set under its comparator; the process table is
    such a tree. [KernelLaws] is what processes rely on in the other components:
    semaphores count, and the other calls return without touching a semaphore. *)

From Stdlib Require Import Sorted.
From S2P Require Import Prelude Tree Process.

(** ** A tree without equal data, as a set

    What clients of the tree use: no two data compare equal, so the calls insert
    and remove exactly one. The comparator is an argument, because clients'
    comparators read memory that changes between calls. *)
Record set_tree (cmp : tree_comparator) (t : tree) : Prop := {
  st_avl : avl (root t);
  st_strict : strict_tree cmp (root t);
  st_size : tree_size t = length (contents t);
}.

Section set.
Context (cmp : tree_comparator) `{!TotalComparator cmp}.
Implicit Types t : tree.

Definition keyed (t : tree) : tree := {| t with equality_handler := cmp |}.

Lemma set_tree_empty : set_tree cmp TreeCreate.
Proof. split; [done|constructor|done]. Qed.

Lemma set_tree_nodup t : set_tree cmp t → NoDup (contents t).
Proof.
  intros [_ Hs _]. unfold strict_tree in Hs. unfold contents.
  induction Hs as [|x l Hl IH Hx]; constructor; [|done].
  intros Hin. rewrite Forall_forall in Hx. specialize (Hx x Hin). rewrite cmp_refl in Hx. lia.
Qed.

(** Distinct data are compared apart. *)
Lemma set_tree_apart t x y :
  set_tree cmp t → x ∈ contents t → y ∈ contents t → cmp x y = 0 → x = y.
Proof.
  intros [_ Hs _] Hx Hy Hxy. unfold strict_tree in Hs. unfold contents in *.
  induction Hs as [|a l Hl IH Ha]; [by apply not_elem_of_nil in Hx|]. rewrite Forall_forall in Ha.
  apply elem_of_cons in Hx as [->|Hx]; apply elem_of_cons in Hy as [->|Hy]; [done| | |by apply IH].
  - specialize (Ha y Hy). lia.
  - specialize (Ha x Hx). apply cmp_anti in Ha. lia.
Qed.

Lemma strict_mid_intro a d b :
  StronglySorted (λ x y, cmp x y < 0) a → StronglySorted (λ x y, cmp x y < 0) b →
  Forall (λ x, cmp x d < 0) a → Forall (λ y, cmp d y < 0) b → StronglySorted (λ x y, cmp x y < 0) (a ++ d :: b).
Proof.
  rewrite StronglySorted_app, StronglySorted_cons, !Forall_forall. intros Ha Hb Had Hdb. split_and!; [|done..].
  intros x y Hx [->|Hy]%elem_of_cons; [by apply Had|].
  apply (cmp_lt_trans cmp x d y); [by apply Had|by apply Hdb].
Qed.

Lemma set_insert t d :
  set_tree cmp t → Forall (λ x, cmp x d ≠ 0) (contents t) →
  ∃ t', TreeInsert d (keyed t) = Done (tt, t') ∧ set_tree cmp t' ∧ contents t' ≡ₚ d :: contents t.
Proof.
  intros [Ha Hs Hz] Hd. unfold TreeInsert. mred.
  unfold contents in *. destruct (root t) as [|l x r] eqn:Er; cbn [root keyed]; rewrite Er.
  - eexists. split; [done|]. split; [|done]. split; simpl; [done|by repeat constructor|rewrite Hz; done].
  - destruct (AvlInsert_run cmp (TNode l x r) d) as (t' & E & Ha' & _ & (a & b & Ea & Eb & Hab)); [done..|].
    unfold lift_tree. cbn [equality_handler keyed]. rewrite E. cbn. eexists. split; [done|].
    assert (ordered_tree cmp (TNode l x r)) as Ho.
    { clear -Hs. unfold strict_tree, ordered_tree in *. induction Hs as [|y l' Hl IH Hy]; constructor; [done|].
      eapply Forall_impl; [exact Hy|]. intros. simpl in *. lia. }
    destruct (Hab Ho) as [Hla Hlb]. unfold strict_tree in Hs. rewrite Ea in *.
    assert (StronglySorted (λ x y, cmp x y < 0) (a ++ d :: b)) as Hs'.
    { apply StronglySorted_app in Hs as (_ & Hsa & Hsb). apply Forall_app in Hd as [Hda Hdb].
      rewrite Forall_forall in Hla, Hlb, Hda, Hdb. apply strict_mid_intro; [done|done|..]; apply Forall_forall; intros y Hy.
      - specialize (Hla y Hy). specialize (Hda y Hy). lia.
      - specialize (Hlb y Hy). specialize (Hdb y Hy).
        destruct (decide (cmp d y = 0)) as [E0|]; [|lia]. by apply cmp_eq_sym in E0. }
    assert (AvlPrint t' ≡ₚ d :: a ++ b) as Hp by (rewrite Eb; by rewrite <- Permutation_middle).
    split; [|simpl in Ea |- *; by rewrite Hp, Ea].
    split; simpl; [done|unfold strict_tree; by rewrite Eb|]. unfold contents. simpl. rewrite Hp, Hz. simpl. lia.
Qed.

Lemma set_delete t d :
  set_tree cmp t → d ∈ contents t →
  ∃ t', TreeDelete d (keyed t) = Done (tt, t') ∧ set_tree cmp t' ∧ contents t ≡ₚ d :: contents t'.
Proof.
  intros Ht Hd. pose proof Ht as [Ha Hs Hz]. unfold TreeDelete. mred. cbn [root equality_handler keyed].
  destruct (AvlDelete_run cmp (root t) d Ha) as (t' & E & Ha' & _ & Hp). specialize (Hp Hs).
  unfold lift_tree. rewrite E. cbn. eexists. split; [done|].
  unfold contents in *. apply list_elem_of_split in Hd as (a & b & El). unfold strict_tree in Hs. rewrite El in *.
  pose proof (strict_mid _ _ _ _ Hs) as (Hsa & Hsb & Hla & Hlb).
  rewrite without_here in Hp by (done || apply cmp_refl).
  assert (a ++ d :: b ≡ₚ d :: AvlPrint t') as Hperm by (rewrite Hp; by rewrite Permutation_middle).
  split; [|done]. split; simpl; [done| |].
  - unfold strict_tree. rewrite Hp. apply StronglySorted_app. split_and!; [|done|done].
    intros x y Hx Hy. rewrite Forall_forall in Hla, Hlb.
    apply (cmp_lt_trans cmp x d y); [by apply Hla|by apply Hlb].
  - unfold contents. simpl. rewrite Hz, Hperm. simpl. lia.
Qed.

Lemma set_get t d :
  NULL ∉ contents t →
  ∃ p, TreeGet d (keyed t) = Done (p, keyed t) ∧
    ((p ∈ contents t ∧ cmp p d = 0) ∨ (p = NULL ∧ ∀ x, x ∈ contents t → cmp x d ≠ 0)).
Proof. intros Hn. eexists. split; [done|]. by apply AvlGet_spec. Qed.
End set.

(** A comparator that agrees on the data will do. *)
Lemma set_tree_agree cmp cmp' t :
  (∀ x y, x ∈ contents t → y ∈ contents t → cmp x y = cmp' x y) → set_tree cmp t → set_tree cmp' t.
Proof.
  intros Hag [Ha Hs Hz]. split; [done| |done]. unfold strict_tree in *. unfold contents in Hag.
  induction Hs as [|x l Hl IH Hx]; [constructor|]. constructor.
  - apply IH. intros. apply Hag; by right.
  - rewrite Forall_forall in *. intros y Hy. rewrite <- Hag; [by apply Hx|by left|by right].
Qed.

(** ** What processes use *)
Class KernelLaws (X : Type) `{K : Kernel X} : Type := {
  (** The semaphores (current count, maximum), and the running thread, process and
      address space. *)
  sems : X → gmap Z (Z * Z);
  running : X → Z * Z * Z;
  acquire_free x m t c mx : sems x !! m = Some (c, mx) → c < mx →
    ∃ x', acquire_semaphore m t x = Done (0, x') ∧ sems x' = <[m := (c + 1, mx)]> (sems x) ∧ running x' = running x;
  acquire_taken x m c mx : sems x !! m = Some (c, mx) → mx ≤ c →
    ∃ r x', acquire_semaphore m 0 x = Done (r, x') ∧ r ≠ 0 ∧ sems x' = sems x ∧ running x' = running x;
  release_taken x m c mx : sems x !! m = Some (c, mx) → 0 < c →
    ∃ x', release_semaphore m x = Done (tt, x') ∧ sems x' = <[m := (c - 1, mx)]> (sems x) ∧ running x' = running x;
  create_fresh x mx c : ∃ m x', create_semaphore mx c x = Done (m, x') ∧ sems x !! m = None ∧
    sems x' = <[m := (c, mx)]> (sems x) ∧ running x' = running x;
  destroy_full x m c mx : sems x !! m = Some (c, mx) →
    ∃ r x', destroy_semaphore m SEM_REQUIRE_FULL x = Done (r, x') ∧ running x' = running x ∧
      (c = mx → r = 0 ∧ sems x' = delete m (sems x)) ∧ (c ≠ mx → r ≠ 0 ∧ sems x' = sems x);
  running_thread x : ∃ x', get_thread_running x = Done ((running x).1.1, x') ∧ sems x' = sems x ∧ running x' = running x;
  running_process x : ∃ x', get_process_running x = Done ((running x).1.2, x') ∧ sems x' = sems x ∧ running x' = running x;
  running_vas x : ∃ x', get_vas x = Done ((running x).2, x') ∧ sems x' = sems x ∧ running x' = running x;
  terminate_returns x t : ∃ x', terminate_thread t x = Done (tt, x') ∧ sems x' = sems x ∧
    (t ≠ (running x).1.1 → running x' = running x);
  terminating_returns x t : ∃ b x', is_terminating t x = Done (b, x') ∧ sems x' = sems x ∧ running x' = running x;
  signal_returns x t g : t ≠ NULL → ∃ x', raise_signal t g x = Done (tt, x') ∧ sems x' = sems x ∧ running x' = running x;
  set_process_returns x t p : ∃ x', set_thread_process t p x = Done (tt, x') ∧ sems x' = sems x ∧ running x' = running x;
  create_vas_returns x : ∃ v x', create_vas x = Done (v, x') ∧ sems x' = sems x ∧ running x' = running x;
  destroy_vas_returns x v : v ≠ (running x).2 →
    ∃ x', destroy_vas v x = Done (tt, x') ∧ sems x' = sems x ∧ running x' = running x;
  create_fds_returns x : ∃ t x', create_fd_table x = Done (t, x') ∧ sems x' = sems x ∧ running x' = running x;
  destroy_fds_returns x t : ∃ x', destroy_fd_table t x = Done (tt, x') ∧ sems x' = sems x ∧ running x' = running x;
  reference_returns x n : n ≠ NULL → ∃ x', reference_vnode n x = Done (tt, x') ∧ sems x' = sems x ∧ running x' = running x;
  dereference_returns x n : n ≠ NULL → ∃ x', dereference_vnode n x = Done (tt, x') ∧ sems x' = sems x ∧ running x' = running x;
}.

#[export] Instance ProcessTableComparator_total ns : TotalComparator (ProcessTableComparator ns).
Proof. split; intros; unfold ProcessTableComparator, COMPARE_SIGN in *; repeat case_decide; lia. Qed.

Section table.
Context {X : Type} {AL : Allocator} {K : Kernel X} {KL : KernelLaws X}.
Implicit Types (s : procs X) (tbl : gmap Z Z).

(** Nothing but the other components moved, and no semaphore. *)
Definition quiet s s' : Prop :=
  ∃ x, s' = with_ext x s ∧ sems x = sems (ext s) ∧ running x = running (ext s).

Lemma quiet_refl s : quiet s s.
Proof. exists (ext s). by destruct s. Qed.
Lemma quiet_trans s s1 s2 : quiet s s1 → quiet s1 s2 → quiet s s2.
Proof.
  intros (x & -> & Hx & Hr) (y & -> & Hy & Hr'). exists y. split; [done|]. simpl in *. split; congruence.
Qed.

(** A lifted call that is quiet. *)
Lemma lift_run {A} (m : M X A) a x s :
  m (ext s) = Done (a, x) → lift m s = Done (a, with_ext x s).
Proof. intros Hm. unfold lift. by rewrite Hm. Qed.

Lemma lift_quiet {A} (m : M X A) s a x' :
  m (ext s) = Done (a, x') → sems x' = sems (ext s) → running x' = running (ext s) →
  lift m s = Done (a, with_ext x' s) ∧ quiet s (with_ext x' s).
Proof. intros Hm Hs Hr. split; [by apply lift_run|by exists x']. Qed.

(** ** Mutexes *)
Definition mutex_free (m : Z) s : Prop := sems (ext s) !! m = Some (0, 1).

(** A body that runs with the mutex held and gives a result. *)
Lemma with_mutex_held m s :
  mutex_free m s →
  ∃ x, AcquireMutex m s = Done (tt, with_ext x s) ∧ sems x = <[m := (1, 1)]> (sems (ext s)) ∧ running x = running (ext s).
Proof.
  intros Hm. destruct (acquire_free (ext s) m (-1) 0 1 Hm) as (x & E & Hs & Hr); [lia|].
  exists x. split; [|done]. unfold AcquireMutex. by rewrite (M_bind_done _ _ _ _ _ (lift_run _ _ _ _ E)).
Qed.

Lemma release_mutex m s c :
  sems (ext s) !! m = Some (1, c) →
  ∃ x, ReleaseMutex m s = Done (tt, with_ext x s) ∧ sems x = <[m := (0, c)]> (sems (ext s)) ∧ running x = running (ext s).
Proof.
  intros Hm. destruct (release_taken (ext s) m 1 c Hm) as (x & E & Hs & Hr); [lia|].
  exists x. split; [by apply lift_run|done].
Qed.

(** ** The table *)
Record table_ok s tbl : Prop := {
  tab_tree : set_tree (ProcessTableComparator (nodes s)) (process_table s);
  tab_nodes n : n ∈ contents (process_table s) ↔ is_Some (nodes s !! n);
  tab_null : nodes s !! NULL = None;
  tab_map i p : tbl !! i = Some p ↔ ∃ n, nodes s !! n = Some (PNode i p);
  tab_pids i : is_Some (tbl !! i) → 0 < i < next_pid s;
  tab_next : 0 < next_pid s;
  tab_mutex : mutex_free (process_table_mutex s) s;
}.

Lemma compare_zero ns a b i p j q :
  ns !! a = Some (PNode i p) → ns !! b = Some (PNode j q) → ProcessTableComparator ns a b = 0 ↔ i = j.
Proof.
  intros Ha Hb. unfold ProcessTableComparator. rewrite Ha, Hb. simpl. unfold COMPARE_SIGN.
  repeat case_decide; lia.
Qed.

Lemma compare_insert ns n v a b :
  a ≠ n → b ≠ n → ProcessTableComparator (<[n := v]> ns) a b = ProcessTableComparator ns a b.
Proof. intros. unfold ProcessTableComparator. by rewrite !lookup_insert_ne. Qed.

Lemma compare_delete ns n a b :
  a ≠ n → b ≠ n → ProcessTableComparator (delete n ns) a b = ProcessTableComparator ns a b.
Proof. intros. unfold ProcessTableComparator. by rewrite !lookup_delete_ne. Qed.

Lemma find_node_run s tbl i :
  table_ok s tbl →
  ∃ n, find_node i s = Done (n, s) ∧
    match tbl !! i with Some p => n ≠ NULL ∧ nodes s !! n = Some (PNode i p) | None => n = NULL end.
Proof.
  intros [Ht Hn Hnull Hmap _ _ _]. unfold find_node.
  set (dummy := pick (dom (nodes s))).
  assert (nodes s !! dummy = None) as Hd by apply not_elem_of_dom, pick_fresh.
  set (ns := <[dummy := PNode i junk]> (nodes s)).
  assert (∀ x, x ∈ contents (process_table s) → x ≠ dummy) as Hne.
  { intros x Hx ->. apply Hn in Hx as [? ?]. congruence. }
  assert (NULL ∉ contents (process_table s)) as Hnc by (rewrite Hn, Hnull; by intros [? ?]).
  destruct (set_get (ProcessTableComparator ns) (process_table s) dummy Hnc) as (n & E & Hcase).
  exists n. split.
  { mred. fold dummy. unfold on_table, on_tree, run_tree. mred. fold ns.
    unfold keyed in E. rewrite E. cbn [outcome_bind]. unfold with_table. by destruct s as [??[]]. }
  destruct Hcase as [[Hin Hc]|[-> Hno]].
  - pose proof Hin as [[j p] Hj]%Hn.
    assert (ns !! n = Some (PNode j p)) as Hjn by (unfold ns; rewrite lookup_insert_ne; [done|by intros <-; eapply Hne]).
    apply (compare_zero ns n dummy j p i junk Hjn (lookup_insert_eq _ _ _)) in Hc as ->.
    assert (tbl !! i = Some p) as -> by (apply Hmap; eauto). split; [|done]. intros ->. congruence.
  - destruct (tbl !! i) as [p|] eqn:Ei; [|done]. apply Hmap in Ei as [n Hni]. exfalso.
    assert (n ∈ contents (process_table s)) as Hin by (apply Hn; eauto).
    apply (Hno n Hin). apply (compare_zero ns n dummy i p i junk); [|apply lookup_insert_eq|done].
    unfold ns. rewrite lookup_insert_ne; [done|]. intros <-. by apply (Hne _ Hin).
Qed.

(** Another state with the same table. *)
Lemma table_ok_same s s' tbl :
  table_ok s tbl → nodes s' = nodes s → process_table s' = process_table s → next_pid s' = next_pid s →
  process_table_mutex s' = process_table_mutex s →
  sems (ext s') !! process_table_mutex s = sems (ext s) !! process_table_mutex s → table_ok s' tbl.
Proof.
  intros [Ht Hn Hnull Hmap Hp Hnx Hmx] E1 E2 E3 E4 E5. split; try (by rewrite ?E1, ?E2, ?E3).
  unfold mutex_free. rewrite E4, E5. done.
Qed.

Lemma table_ok_quiet s s' tbl : quiet s s' → table_ok s tbl → table_ok s' tbl.
Proof. intros (x & -> & Hs & _) Ht. eapply table_ok_same; [exact Ht|done..|]. simpl. by rewrite Hs. Qed.

Lemma AcquireTableMutex_run s tbl :
  table_ok s tbl → ∃ x, AcquireTableMutex s = Done (tt, with_ext x s) ∧
    sems x = <[process_table_mutex s := (1, 1)]> (sems (ext s)) ∧ running x = running (ext s).
Proof. intros Ht. unfold AcquireTableMutex. mred. apply with_mutex_held. apply Ht. Qed.

Lemma ReleaseTableMutex_run s c :
  sems (ext s) !! process_table_mutex s = Some (1, c) →
  ∃ x, ReleaseTableMutex s = Done (tt, with_ext x s) ∧
    sems x = <[process_table_mutex s := (0, c)]> (sems (ext s)) ∧ running x = running (ext s).
Proof. intros Hc. unfold ReleaseTableMutex. mred. by apply release_mutex. Qed.

Lemma find_node_ext s x tbl i :
  table_ok s tbl →
  ∃ n, find_node i (with_ext x s) = Done (n, with_ext x s) ∧
    match tbl !! i with Some p => n ≠ NULL ∧ nodes s !! n = Some (PNode i p) | None => n = NULL end.
Proof.
  intros Ht. destruct (find_node_run s tbl i Ht) as (n & E & Hn). exists n. split; [|done].
  revert E. unfold find_node, on_table, on_tree, run_tree, TreeGet. mred. cbn. intros [= E]. rewrite E.
  unfold with_table, with_ext. simpl. by destruct (process_table s).
Qed.

Lemma mutex_roundtrip (sm : gmap Z (Z * Z)) m : sm !! m = Some (0, 1) → <[m := (0, 1)]> (<[m := (1, 1)]> sm) = sm.
Proof. intros Hm. rewrite insert_insert_eq. by apply insert_id. Qed.

(** Looking up an id. *)
Lemma GetProcessFromPid_run s tbl i :
  table_ok s tbl → ∃ s', GetProcessFromPid i s = Done (default NULL (tbl !! i), s') ∧ quiet s s'.
Proof.
  intros Ht. unfold GetProcessFromPid.
  destruct (AcquireTableMutex_run s tbl Ht) as (x1 & E1 & Hs1 & Hr1). rewrite (M_bind_done _ _ _ _ _ E1).
  destruct (find_node_ext s x1 tbl i Ht) as (n & E2 & Hn). rewrite (M_bind_done _ _ _ _ _ E2).
  destruct (ReleaseTableMutex_run (with_ext x1 s) 1) as (x2 & E3 & Hs2 & Hr2).
  { simpl. rewrite Hs1. apply lookup_insert_eq. }
  rewrite (M_bind_done _ _ _ _ _ E3). simpl in Hs2, Hr2. rewrite Hs1, mutex_roundtrip in Hs2 by apply Ht.
  assert (quiet s (with_ext x2 s)) as Hq by (exists x2; split; [done|split; [done|congruence]]).
  exists (with_ext x2 s). split; [|done].
  change (with_ext x2 (with_ext x1 s)) with (with_ext x2 s).
  destruct (tbl !! i) as [p|]; [|by subst n].
  destruct Hn as [Hnn Hn]. rewrite decide_False by done. mred. cbn [nodes with_ext]. by rewrite Hn.
Qed.

(** Inserting a process gives it the next id. *)
Lemma InsertIntoProcessTable_run s tbl p :
  table_ok s tbl → next_pid s + 1 < 2 ^ 31 →
  ∃ s', InsertIntoProcessTable p s = Done (next_pid s, s') ∧ table_ok s' (<[next_pid s := p]> tbl) ∧
    processes s' = processes s ∧ sems (ext s') = sems (ext s) ∧ running (ext s') = running (ext s) ∧
    process_table_mutex s' = process_table_mutex s ∧ next_pid s' = next_pid s + 1.
Proof.
  intros Ht Hmax. pose proof Ht as [Htree Hn Hnull Hmap Hpids Hnext Hmx].
  unfold InsertIntoProcessTable, AllocateNextPid. mred. rewrite i32_small by lia.
  set (s0 := with_next_pid (next_pid s + 1) s).
  destruct (with_mutex_held (process_table_mutex s) s0 Hmx) as (x1 & E1 & Hs1 & Hr1).
  unfold AcquireTableMutex. mred. change (process_table_mutex s0) with (process_table_mutex s).
  rewrite E1. cbn [outcome_bind]. set (s1 := with_ext x1 s0).
  set (node := pick (dom (nodes s1))). set (ns := <[node := PNode (next_pid s) p]> (nodes s1)).
  assert (nodes s !! node = None) as Hfresh by apply not_elem_of_dom, pick_fresh.
  assert (∀ n, n ∈ contents (process_table s) → n ≠ node) as Hne.
  { intros n Hin ->. apply Hn in Hin as [? ?]. congruence. }
  assert (set_tree (ProcessTableComparator ns) (process_table s)) as Htree'.
  { eapply set_tree_agree; [|exact Htree]. intros. symmetry. apply compare_insert; auto. }
  destruct (set_insert (ProcessTableComparator ns) (process_table s) node Htree') as (t' & Ei & Ht' & Hc').
  { apply Forall_forall. intros n Hin. pose proof Hin as [[j q] Hj]%Hn.
    intros Hz. apply (compare_zero ns n node j q (next_pid s) p) in Hz as ->; [|by unfold ns; rewrite lookup_insert_ne; [|by intros <-; eapply Hne]|apply lookup_insert_eq].
    assert (is_Some (tbl !! next_pid s)) as Hs%Hpids by (exists q; apply Hmap; eauto). lia. }
  unfold on_table, on_tree, run_tree. mred. cbn [nodes with_nodes]. fold node ns.
  change (process_table (with_nodes ns s1)) with (process_table s).
  unfold keyed in Ei. rewrite Ei. cbn [outcome_bind].
  set (s2 := with_table _ _). unfold ReleaseTableMutex. mred.
  destruct (release_mutex (process_table_mutex s2) s2 1) as (x2 & E2 & Hs2 & Hr2).
  { simpl. rewrite Hs1. apply lookup_insert_eq. }
  rewrite E2. cbn [outcome_bind]. eexists. split; [done|].
  change (sems (ext s2)) with (sems x1) in Hs2. change (running (ext s2)) with (running x1) in Hr2.
  change (process_table_mutex s2) with (process_table_mutex s) in Hs2.
  rewrite Hs1, mutex_roundtrip in Hs2 by done. simpl in Hs1, Hr1, Hr2, Hs2.
  split; [|split_and!; cbn [ext with_ext]; (done || congruence)].
  split; cbn [nodes process_table next_pid process_table_mutex with_ext s2 with_table with_nodes s1 s0 with_next_pid].
  - eapply set_tree_agree; [done|]. destruct Ht' as [Ha Hst Hz]. by split.
  - intros n. unfold contents. cbn [root]. fold (contents t'). rewrite Hc', elem_of_cons, Hn.
    unfold ns. rewrite lookup_insert_is_Some. cbn [nodes s1 s0 with_ext with_next_pid].
    destruct (decide (node = n)) as [->|]; naive_solver.
  - unfold ns. rewrite lookup_insert_ne; [done|]. apply pick_nonnull.
  - intros i q. unfold ns. split.
    + intros [[<- <-]|[Hi Hq]]%lookup_insert_Some; [exists node; apply lookup_insert_eq|].
      apply Hmap in Hq as [n Hnq]. exists n. rewrite lookup_insert_ne; [done|]. intros <-. simpl in Hnq. congruence.
    + intros [n [[<- [= <- <-]]|[Hnn Hq]]%lookup_insert_Some]; [apply lookup_insert_eq|].
      assert (tbl !! i = Some q) as Hi by (apply Hmap; eauto).
      rewrite lookup_insert_ne; [done|]. intros <-. destruct (Hpids (next_pid s)) as [_ ?]; [eauto|lia].
  - intros i. rewrite lookup_insert_is_Some. intros [<-|[_ Hi%Hpids]]; lia.
  - lia.
  - unfold mutex_free. simpl. rewrite Hs2. done.
Qed.

(** Removing an id that is there. *)
Lemma RemoveFromProcessTable_run s tbl i p :
  table_ok s tbl → tbl !! i = Some p →
  ∃ s', RemoveFromProcessTable i s = Done (tt, s') ∧ table_ok s' (delete i tbl) ∧
    processes s' = processes s ∧ sems (ext s') = sems (ext s) ∧ running (ext s') = running (ext s) ∧
    process_table_mutex s' = process_table_mutex s ∧ next_pid s' = next_pid s.
Proof.
  intros Ht Hi. pose proof Ht as [Htree Hn Hnull Hmap Hpids Hnext Hmx].
  unfold RemoveFromProcessTable.
  destruct (AcquireTableMutex_run s tbl Ht) as (x1 & E1 & Hs1 & Hr1). rewrite (M_bind_done _ _ _ _ _ E1).
  destruct (find_node_ext s x1 tbl i Ht) as (n & E2 & Hnode). rewrite (M_bind_done _ _ _ _ _ E2).
  rewrite Hi in Hnode. destruct Hnode as [Hnn Hnode].
  assert (n ∈ contents (process_table s)) as Hin by (apply Hn; eauto).
  destruct (set_delete (ProcessTableComparator (nodes s)) (process_table s) n Htree Hin) as (t' & Ed & Ht' & Hc').
  assert (n ∉ contents t') as Hnot.
  { pose proof (set_tree_nodup _ _ Htree) as Hnd. rewrite Hc' in Hnd. by apply NoDup_cons in Hnd as [? _]. }
  unfold on_table, on_tree, run_tree. mred. cbn [nodes process_table with_ext].
  unfold keyed in Ed. rewrite Ed. cbn [outcome_bind].
  set (s2 := with_nodes _ _). unfold ReleaseTableMutex. mred.
  destruct (release_mutex (process_table_mutex s2) s2 1) as (x2 & E3 & Hs2 & Hr2).
  { simpl. rewrite Hs1. apply lookup_insert_eq. }
  rewrite E3. eexists. split; [done|].
  change (sems (ext s2)) with (sems x1) in Hs2. change (running (ext s2)) with (running x1) in Hr2.
  change (process_table_mutex s2) with (process_table_mutex s) in Hs2.
  rewrite Hs1, mutex_roundtrip in Hs2 by done. simpl in Hs1, Hr1, Hr2, Hs2.
  split; [|split_and!; cbn [ext with_ext]; (done || congruence)].
  assert (∀ m, m ∈ contents t' ↔ m ∈ contents (process_table s) ∧ m ≠ n) as Hmem.
  { intros m. rewrite Hc', elem_of_cons. split; [|naive_solver]. intros Hm. split; [by right|]. by intros ->. }
  split; cbn [nodes process_table next_pid process_table_mutex with_ext s2 with_table with_nodes].
  - destruct Ht' as [Ha Hst Hz]. eapply set_tree_agree; [|by split]. intros x y Hx Hy.
    unfold contents in Hx, Hy. cbn [root] in Hx, Hy. symmetry. apply compare_delete; by apply Hmem.
  - intros m. unfold contents. cbn [root]. fold (contents t'). rewrite Hmem, Hn, lookup_delete_is_Some. naive_solver.
  - by rewrite lookup_delete_None; right.
  - intros j q. rewrite lookup_delete_Some, Hmap. split.
    + intros [Hij [m Hm]]. exists m. rewrite lookup_delete_ne; [done|]. intros <-. congruence.
    + intros [m [Hnm Hm]%lookup_delete_Some]. split; [|eauto]. intros <-.
      apply Hnm. apply (set_tree_apart _ _ n m Htree); [done|apply Hn; eauto|].
      by eapply compare_zero.
  - intros j [_ Hj]%lookup_delete_is_Some. by apply Hpids.
  - done.
  - unfold mutex_free. simpl. rewrite Hs2. done.
Qed.
End table.
