(* ===== verification/ProcessInv.v ===== *)
(** * The process tree: its invariant, and reaping *)

From S2P Require Import Prelude Tree Process ProcessTable.

Section inv.
Context {X : Type} {AL : Allocator} {K : Kernel X} {KL : KernelLaws X}.
Implicit Types (s : procs X) (tbl : gmap Z Z) (own : gmap Z (Z * bool)).

Abbreviation cmp := AvlDefaultComparator.

(** A tree of addresses with the default comparator. *)
Definition addr_tree (t : tree) : Prop := set_tree cmp t ∧ equality_handler t = cmp.

Lemma keyed_id t : equality_handler t = cmp → keyed cmp t = t.
Proof. intros Ht. unfold keyed. rewrite <- Ht. by destruct t. Qed.

Lemma default_apart x y : cmp x y = 0 ↔ x = y.
Proof. unfold AvlDefaultComparator. repeat case_decide; lia. Qed.

Lemma addr_insert t d :
  addr_tree t → d ∉ contents t →
  ∃ t', TreeInsert d t = Done (tt, t') ∧ addr_tree t' ∧ contents t' ≡ₚ d :: contents t.
Proof.
  intros [Ht He] Hd. destruct (set_insert cmp t d Ht) as (t' & E & Ht' & Hc).
  { apply Forall_forall. intros x Hx ->%default_apart. done. }
  rewrite keyed_id in E by done. exists t'. split; [done|]. split; [|done]. split; [done|].
  revert E. unfold TreeInsert. mred. destruct (root t) as [|l x r]; [intros [= <-]; exact He|].
  unfold lift_tree. destruct (AvlInsert _ _ _); [|done..]. cbn. intros [= <-]. exact He.
Qed.

Lemma addr_delete t d :
  addr_tree t → d ∈ contents t →
  ∃ t', TreeDelete d t = Done (tt, t') ∧ addr_tree t' ∧ contents t ≡ₚ d :: contents t'.
Proof.
  intros [Ht He] Hd. destruct (set_delete cmp t d Ht Hd) as (t' & E & Ht' & Hc).
  rewrite keyed_id in E by done. exists t'. split; [done|]. split; [|done]. split; [done|].
  revert E. unfold TreeDelete. mred. unfold lift_tree. destruct (AvlDelete _ _ _); [|done..]. cbn.
  intros [= <-]. exact He.
Qed.

(** ** The invariant *)

(** The process whose lock is held, NULL for none. *)
Variable holder : Z.
Definition lock_state (p : Z) : Z * Z := if decide (p = holder) then (1, 1) else (0, 1).

(** [own] says whose lock ([false]) or semaphore ([true]) each semaphore is. *)
Record process_ok s tbl own (p : Z) (pr : process) : Prop := {
  po_null : p ≠ NULL;
  po_listed : tbl !! pid pr = Some p;
  po_own_lock : own !! lock pr = Some (p, false);
  po_own_sem : own !! killed_children_semaphore pr = Some (p, true);
  po_lock : sems (ext s) !! lock pr = Some (lock_state p);
  po_sem : ∃ c, sems (ext s) !! killed_children_semaphore pr = Some (c, SEM_BIG_NUMBER) ∧ 0 ≤ c ≤ SEM_BIG_NUMBER;
  po_children : if terminated pr then children pr = None else
    ∃ t, children pr = Some t ∧ addr_tree t ∧
      ∀ c, c ∈ contents t ↔ ∃ cr, processes s !! c = Some cr ∧ parent cr = pid pr;
  po_threads : terminated pr = false → ∃ t, threads pr = Some t ∧ addr_tree t;
  po_self : parent pr ≠ pid pr;
  po_parent : parent pr ≠ 0 → ∃ q qr, tbl !! parent pr = Some q ∧ processes s !! q = Some qr ∧ terminated qr = false;
}.

Record procs_ok s tbl own : Prop := {
  ok_table : table_ok s tbl;
  ok_own_mutex : own !! process_table_mutex s = Some (NULL, false);
  ok_own_live m : is_Some (own !! m) → is_Some (sems (ext s) !! m);
  ok_live i p : tbl !! i = Some p → ∃ pr, processes s !! p = Some pr ∧ pid pr = i;
  ok_process p pr : processes s !! p = Some pr → process_ok s tbl own p pr;
}.

Lemma procs_ok_quiet s s' tbl own : quiet s s' → procs_ok s tbl own → procs_ok s' tbl own.
Proof.
  intros Hq [Ht Hom Hol Hl Hp]. pose proof Hq as (x & -> & Hs & _). split; [by eapply table_ok_quiet|done| |done|].
  - intros m. simpl. rewrite Hs. apply Hol.
  - intros p pr Hpr. destruct (Hp p pr Hpr) as [? ? ? ? Hlock Hsem ? ? ? ?]. split; try done; simpl; by rewrite Hs.
Qed.

Lemma pid_unique s tbl own p q pr qr :
  procs_ok s tbl own → processes s !! p = Some pr → processes s !! q = Some qr → pid pr = pid qr → p = q.
Proof.
  intros Hok Hp Hq E. pose proof (po_listed _ _ _ _ _ (ok_process _ _ _ Hok p pr Hp)).
  pose proof (po_listed _ _ _ _ _ (ok_process _ _ _ Hok q qr Hq)). rewrite E in *. congruence.
Qed.

Lemma pid_positive s tbl own p pr : procs_ok s tbl own → processes s !! p = Some pr → 0 < pid pr.
Proof.
  intros Hok Hp. pose proof (po_listed _ _ _ _ _ (ok_process _ _ _ Hok p pr Hp)) as H.
  apply (tab_pids s tbl (ok_table _ _ _ Hok) (pid pr)). by rewrite H.
Qed.

(** A process that has a child is alive. *)
Lemma no_child_of_dead s tbl own p pr c cr :
  procs_ok s tbl own → processes s !! p = Some pr → terminated pr = true → processes s !! c = Some cr → parent cr ≠ pid pr.
Proof.
  intros Hok Hp Ht Hc E. pose proof (pid_positive _ _ _ _ _ Hok Hp).
  destruct (po_parent _ _ _ _ _ (ok_process _ _ _ Hok c cr Hc)) as (q & qr & Hq & Hqr & Htq); [lia|].
  rewrite E in Hq. pose proof (po_listed _ _ _ _ _ (ok_process _ _ _ Hok p pr Hp)) as Hl.
  rewrite Hl in Hq. injection Hq as <-. congruence.
Qed.

Lemma get_process_run p pr s : processes s !! p = Some pr → get_process p s = Done (pr, s).
Proof. intros H. unfold get_process. mred. by rewrite H. Qed.

Lemma lock_free s tbl own p pr :
  procs_ok s tbl own → processes s !! p = Some pr → p ≠ holder → mutex_free (lock pr) s.
Proof.
  intros Hok Hp Hh. pose proof (po_lock _ _ _ _ _ (ok_process _ _ _ Hok p pr Hp)) as Hl.
  unfold lock_state in Hl. by rewrite decide_False in Hl.
Qed.

(** Taking and releasing a lock, with nothing in between. *)
Lemma lock_process_run s tbl own p pr :
  procs_ok s tbl own → processes s !! p = Some pr → p ≠ holder →
  ∃ x, LockProcess p s = Done (tt, with_ext x s) ∧ sems x = <[lock pr := (1, 1)]> (sems (ext s)) ∧ running x = running (ext s).
Proof.
  intros Hok Hp Hh. unfold LockProcess. rewrite (M_bind_done _ _ _ _ _ (get_process_run p pr s Hp)).
  apply with_mutex_held. by apply lock_free with tbl own p.
Qed.

Lemma unlock_process_run s p pr c :
  processes s !! p = Some pr → sems (ext s) !! lock pr = Some (1, c) →
  ∃ x, UnlockProcess p s = Done (tt, with_ext x s) ∧ sems x = <[lock pr := (0, c)]> (sems (ext s)) ∧ running x = running (ext s).
Proof.
  intros Hp Hs. unfold UnlockProcess. rewrite (M_bind_done _ _ _ _ _ (get_process_run p pr s Hp)).
  by apply release_mutex.
Qed.

Lemma lock_unlock_quiet s tbl own p pr :
  procs_ok s tbl own → processes s !! p = Some pr → p ≠ holder →
  ∃ s1 s2, LockProcess p s = Done (tt, s1) ∧ processes s1 = processes s ∧ UnlockProcess p s1 = Done (tt, s2) ∧ quiet s s2.
Proof.
  intros Hok Hp Hh. destruct (lock_process_run s tbl own p pr Hok Hp Hh) as (x & E & Hs & Hr).
  destruct (unlock_process_run (with_ext x s) p pr 1) as (y & E2 & Hs2 & Hr2); [done|simpl; rewrite Hs; apply lookup_insert_eq|].
  eexists _, _. split; [exact E|]. split; [done|]. split; [exact E2|]. exists y. split; [done|].
  simpl in Hs2, Hr2. rewrite Hs, mutex_roundtrip in Hs2; [split; congruence|].
  by apply (lock_free s tbl own p pr).
Qed.

(** ** Reaping *)

(** The store once the child [p] is gone from the tree [t] of its parent [q]. *)
Definition unparent (q : Z) (qr : process) (t : tree) : process := {| qr with children := Some t |}.

(** The invariant does not look at how the parent's tree got to its contents. *)
Lemma procs_ok_reaped s tbl own p pr s' ps own' :
  procs_ok s tbl own → processes s !! p = Some pr → terminated pr = true →
  table_ok s' (delete (pid pr) tbl) → process_table_mutex s' = process_table_mutex s →
  own' = delete (killed_children_semaphore pr) own →
  sems (ext s') = delete (killed_children_semaphore pr) (sems (ext s)) →
  processes s' = delete p ps → ps !! p = Some pr →
  (∀ r rr', r ≠ p → ps !! r = Some rr' → ∃ rr, processes s !! r = Some rr ∧
     (rr' = rr ∧ parent pr ≠ pid rr ∨
      parent pr = pid rr ∧ ∃ t t', children rr = Some t ∧ rr' = unparent r rr t' ∧ addr_tree t' ∧ contents t ≡ₚ p :: contents t')) →
  (∀ r, is_Some (ps !! r) ↔ is_Some (processes s !! r)) →
  procs_ok s' (delete (pid pr) tbl) own'.
Proof.
  intros Hok Hp Hterm Htab Hmtx -> Hsems Hps Hpp Hrel Hdom.
  pose proof (ok_process _ _ _ Hok p pr Hp) as Hpo.
  assert (∀ m r b, own !! m = Some (r, b) → r ≠ p → m ≠ killed_children_semaphore pr) as Hother.
  { intros m r b Hm Hr ->. rewrite (po_own_sem _ _ _ _ _ Hpo) in Hm. injection Hm as -> ?. done. }
  (* every process that is left, and what became of it *)
  assert (∀ r rr', processes s' !! r = Some rr' → r ≠ p ∧ ∃ rr, processes s !! r = Some rr ∧
    pid rr' = pid rr ∧ parent rr' = parent rr ∧ terminated rr' = terminated rr ∧ lock rr' = lock rr ∧
    killed_children_semaphore rr' = killed_children_semaphore rr ∧ threads rr' = threads rr) as Hback.
  { intros r rr'. rewrite Hps. intros [Hr Hrr]%lookup_delete_Some. split; [done|].
    destruct (Hrel r rr') as (rr & Hx & [[-> _]|(_ & t & t' & _ & -> & _)]); [done|done|eauto 10|].
    exists rr. by split_and!. }
  assert (∀ r rr, processes s !! r = Some rr → r ≠ p → ∃ rr', processes s' !! r = Some rr' ∧
    pid rr' = pid rr ∧ parent rr' = parent rr ∧ terminated rr' = terminated rr) as Hfwd.
  { intros r rr Hr Hne. destruct (proj2 (Hdom r)) as [rr' Hrr']; [eauto|]. exists rr'. rewrite Hps, lookup_delete_ne by done.
    split; [done|]. destruct (Hback r rr') as (_ & rr2 & Hr2 & H1 & H2 & H3 & _); [by rewrite Hps, lookup_delete_ne|].
    rewrite Hr in Hr2. by injection Hr2 as <-. }
  split; [done|..].
  - rewrite Hmtx, lookup_delete_ne; [apply Hok|]. intros E. pose proof (ok_own_mutex _ _ _ Hok) as Hm. rewrite <- E in Hm.
    rewrite (po_own_sem _ _ _ _ _ Hpo) in Hm. injection Hm as ??. done.
  - intros m [Hm Hom]%lookup_delete_is_Some. rewrite Hsems, lookup_delete_is_Some. split; [done|]. by apply Hok.
  - intros i r [Hi Hr]%lookup_delete_Some. destruct (ok_live _ _ _ Hok i r Hr) as (rr & Hrr & Hpid).
    assert (r ≠ p) as Hne by (intros ->; rewrite Hp in Hrr; injection Hrr as <-; done).
    destruct (Hfwd r rr Hrr Hne) as (rr' & Hrr' & H1 & _). exists rr'. split; [done|congruence].
  - intros r rr' Hr. destruct (Hback r rr' Hr) as (Hne & rr & Hrr & Epid & Epar & Eterm & Elock & Esem & Ethr).
    destruct (ok_process _ _ _ Hok r rr Hrr) as [Hn Hl Hol Hos Hlk Hsm Hch Hth Hself Hpt].
    assert (pid pr ≠ pid rr) as Hpid by (intros E; apply Hne; symmetry; by eapply (pid_unique s tbl own)).
    split.
    + done.
    + rewrite Epid. by rewrite lookup_delete_ne.
    + rewrite Elock, lookup_delete_ne; [done|]. intros E. by eapply (Hother (lock rr)).
    + rewrite Esem, lookup_delete_ne; [done|]. intros E. by eapply (Hother (killed_children_semaphore rr)).
    + rewrite Elock, Hsems, lookup_delete_ne; [done|]. intros E. by eapply (Hother (lock rr)).
    + rewrite Esem, Hsems, lookup_delete_ne; [done|]. intros E. by eapply (Hother (killed_children_semaphore rr)).
    + rewrite Eterm. rewrite Hps in Hr. apply lookup_delete_Some in Hr as [_ Hr].
      assert (∀ c, (∃ cr, processes s' !! c = Some cr ∧ parent cr = pid rr') ↔
                   c ≠ p ∧ ∃ cr, processes s !! c = Some cr ∧ parent cr = pid rr) as Hkids.
      { intros c. rewrite Epid. split.
        - intros (cr' & Hc & Hcp). destruct (Hback c cr' Hc) as (? & cr & ? & _ & E & _). split; [done|].
          exists cr. split; [done|congruence].
        - intros (Hcne & cr & Hc & Hcp). destruct (Hfwd c cr Hc Hcne) as (cr' & ? & _ & E & _).
          exists cr'. split; [done|congruence]. }
      destruct (Hrel r rr' Hne Hr) as (rr2 & Hrr2 & Hcase). rewrite Hrr in Hrr2. injection Hrr2 as <-.
      destruct (terminated rr) eqn:Et.
      * destruct Hcase as [[-> _]|(Epp & _)]; [done|]. exfalso.
        by apply (no_child_of_dead s tbl own r rr p pr Hok Hrr Et Hp).
      * destruct Hch as (t & Ht & Hat & Hct). destruct Hcase as [[-> Hnp]|(Epp & t0 & t' & Ht0 & -> & Hat' & Hperm)].
        { exists t. split; [done|]. split; [done|]. intros c. rewrite Hct, Hkids. split; [|naive_solver].
          intros (cr & Hc & Hcp). split; [|eauto]. intros ->. rewrite Hp in Hc. injection Hc as <-. done. }
        rewrite Ht in Ht0. injection Ht0 as <-. exists t'. split; [done|]. split; [done|].
        intros c. rewrite Hkids, <- Hct, Hperm, elem_of_cons.
        assert (p ∉ contents t') as Hpn.
        { destruct Hat as [Hst _]. apply set_tree_nodup in Hst; [|apply _]. rewrite Hperm in Hst. by apply NoDup_cons in Hst as [? _]. }
        split; [|naive_solver]. intros Hc. split; [|by right]. by intros ->.
    + rewrite Eterm, Ethr. apply Hth.
    + congruence.
    + rewrite Epar. intros Hnz. destruct (Hpt Hnz) as (q & qr & Hq & Hqr & Hqt).
      assert (q ≠ p) as Hqp by (intros ->; congruence).
      destruct (Hfwd q qr Hqr Hqp) as (qr' & Hqr' & _ & _ & Eq). exists q, qr'. split; [|by rewrite Eq].
      rewrite lookup_delete_ne; [done|]. intros E. rewrite <- E in Hq. rewrite (po_listed _ _ _ _ _ Hpo) in Hq. congruence.
Qed.

(** The state after reaping: [p] is gone, the others keep everything but the tree
    that held it. *)
Record reaped s s' (p : Z) (pr : process) : Prop := {
  rp_gone : processes s' !! p = None;
  rp_others r rr : r ≠ p → processes s !! r = Some rr →
    ∃ ch, processes s' !! r = Some {| rr with children := ch |};
  rp_back r : is_Some (processes s' !! r) → is_Some (processes s !! r);
  rp_sems : sems (ext s') = delete (killed_children_semaphore pr) (sems (ext s));
  rp_running : running (ext s') = running (ext s);
  rp_mutex : process_table_mutex s' = process_table_mutex s;
}.

Lemma with_ext_ext x y s : with_ext y (with_ext x s) = with_ext y s.
Proof. done. Qed.

(** The calls around the table: semaphore, address space, descriptors. *)
Lemma reap_prefix s p pr c :
  processes s !! p = Some pr → vas pr ≠ (running (ext s)).2 →
  sems (ext s) !! killed_children_semaphore pr = Some (c, SEM_BIG_NUMBER) →
  ∀ (k : M (procs X) unit),
  ∃ x, running x = running (ext s) ∧
    sems x = (if decide (c = SEM_BIG_NUMBER) then delete (killed_children_semaphore pr) (sems (ext s)) else sems (ext s)) ∧
    (v ← lift get_vas;
     c_assert (bool_decide (vas pr ≠ v));;
     res ← lift (destroy_semaphore (killed_children_semaphore pr) SEM_REQUIRE_FULL);
     c_assert (bool_decide (res = 0));;
     lift (destroy_vas (vas pr));;
     lift (destroy_fd_table (fd_table pr));;
     k) s =
    if decide (c = SEM_BIG_NUMBER) then k (with_ext x s) else Panicked PANIC_ASSERTION_FAILURE.
Proof.
  intros Hp Hv Hsem k. destruct (running_vas (ext s)) as (x1 & E1 & Hs1 & Hr1).
  rewrite (M_bind_done _ _ _ _ _ (lift_run _ _ _ _ E1)), bool_decide_eq_true_2 by done.
  rewrite (M_bind_done (c_assert true) _ (with_ext x1 s) tt (with_ext x1 s)) by done.
  destruct (destroy_full x1 (killed_children_semaphore pr) c SEM_BIG_NUMBER) as (r & x2 & E2 & Hr2 & Hfull & Hnot);
    [by rewrite Hs1|].
  rewrite (M_bind_done _ _ _ _ _ (lift_run _ _ _ (with_ext x1 s) E2)), with_ext_ext.
  destruct (decide (c = SEM_BIG_NUMBER)) as [Hc|Hc].
  - destruct (Hfull Hc) as [-> Hs2]. rewrite bool_decide_eq_true_2 by done.
    rewrite (M_bind_done (c_assert true) _ (with_ext x2 s) tt (with_ext x2 s)) by done.
    destruct (destroy_vas_returns x2 (vas pr)) as (x3 & E3 & Hs3 & Hr3); [congruence|].
    rewrite (M_bind_done _ _ _ _ _ (lift_run _ _ _ (with_ext x2 s) E3)), with_ext_ext.
    destruct (destroy_fds_returns x3 (fd_table pr)) as (x4 & E4 & Hs4 & Hr4).
    rewrite (M_bind_done _ _ _ _ _ (lift_run _ _ _ (with_ext x3 s) E4)), with_ext_ext.
    exists x4. split_and!; [congruence|congruence|done].
  - destruct (Hnot Hc) as [Hz Hs2]. rewrite bool_decide_eq_false_2 by done.
    exists x2. split_and!; [congruence|congruence|done].
Qed.

Lemma ReapProcess_run s tbl own p pr c :
  procs_ok s tbl own → processes s !! p = Some pr → terminated pr = true → vas pr ≠ (running (ext s)).2 →
  sems (ext s) !! killed_children_semaphore pr = Some (c, SEM_BIG_NUMBER) →
  if decide (c = SEM_BIG_NUMBER) then
    ∃ s', ReapProcess p s = Done (tt, s') ∧ reaped s s' p pr ∧
      procs_ok s' (delete (pid pr) tbl) (delete (killed_children_semaphore pr) own)
  else ReapProcess p s = Panicked PANIC_ASSERTION_FAILURE.
Proof.
  intros Hok Hp Hterm Hv Hsem. unfold ReapProcess. rewrite (M_bind_done _ _ _ _ _ (get_process_run p pr s Hp)).
  match goal with |- context [lift (destroy_fd_table _);; ?k] => set (rest := k) end.
  destruct (reap_prefix s p pr c Hp Hv Hsem rest) as (x & Hr & Hs & ->).
  destruct (decide (c = SEM_BIG_NUMBER)) as [_|_]; [|done]. unfold rest. clear rest.
  set (s1 := with_ext x s).
  pose proof (ok_process _ _ _ Hok p pr Hp) as Hpo.
  assert (table_ok s1 tbl) as Ht1.
  { eapply table_ok_same; [apply Hok|done..|]. simpl. rewrite Hs, lookup_delete_ne; [done|]. intros E.
    pose proof (po_own_sem _ _ _ _ _ Hpo) as Ho. rewrite E, (ok_own_mutex _ _ _ Hok) in Ho. done. }
  destruct (RemoveFromProcessTable_run s1 tbl (pid pr) p Ht1 (po_listed _ _ _ _ _ Hpo))
    as (s2 & E2 & Ht2 & Hps2 & Hs2 & Hr2 & Hm2 & _). rewrite (M_bind_done _ _ _ _ _ E2).
  assert (∀ s3 ps, table_ok s3 (delete (pid pr) tbl) → processes s3 = ps → process_table_mutex s3 = process_table_mutex s →
    sems (ext s3) = delete (killed_children_semaphore pr) (sems (ext s)) → running (ext s3) = running (ext s) →
    ∃ s', ((if decide (p_cwd pr ≠ NULL) then lift (dereference_vnode (p_cwd pr)) else mret tt);;
           modify (λ s, with_processes (delete p (processes s)) s)) s3 = Done (tt, s') ∧
      table_ok s' (delete (pid pr) tbl) ∧ processes s' = delete p ps ∧ process_table_mutex s' = process_table_mutex s ∧
      sems (ext s') = delete (killed_children_semaphore pr) (sems (ext s)) ∧ running (ext s') = running (ext s)) as Hend.
  { intros s3 ps Ht3 Hps3 Hm3 Hs3 Hr3. destruct (decide (p_cwd pr ≠ NULL)) as [Hc|Hc].
    - destruct (dereference_returns (ext s3) (p_cwd pr) Hc) as (y & Ey & Hsy & Hry).
      rewrite (M_bind_done _ _ _ _ _ (lift_run _ _ _ _ Ey)). eexists. split; [done|]. simpl.
      split_and!; [|by rewrite Hps3|done|congruence|congruence].
      eapply table_ok_same; [exact Ht3|done..|]. simpl. by rewrite Hsy.
    - rewrite (M_bind_done (mret tt) _ s3 tt s3) by done. eexists. split; [done|]. simpl.
      split_and!; [|by rewrite Hps3|done..]. by eapply table_ok_same. }
  destruct (decide (parent pr ≠ 0)) as [Hpar|Hpar%dec_stable].
  - destruct (po_parent _ _ _ _ _ Hpo Hpar) as (q & qr & Hq & Hqr & Hqt).
    assert (q ≠ p) as Hqp by (intros ->; congruence).
    assert (parent pr = pid qr) as Epq.
    { destruct (ok_live _ _ _ Hok _ _ Hq) as (qr2 & Hqr2 & <-). congruence. }
    assert (parent pr ≠ pid pr) as Hne.
    { intros E. apply Hqp. eapply (pid_unique s tbl own); [done..|]. congruence. }
    destruct (GetProcessFromPid_run s2 _ (parent pr) Ht2) as (s3 & E3 & Hq3).
    rewrite lookup_delete_ne, Hq in E3 by done. simpl in E3.
    pose proof (ok_process _ _ _ Hok q qr Hqr) as Hqo. pose proof (po_children _ _ _ _ _ Hqo) as Hch.
    rewrite Hqt in Hch. destruct Hch as (t & Htc & Hat & Hct).
    destruct (addr_delete t p Hat) as (t' & Ed & Hat' & Hperm); [apply Hct; eauto|].
    pose proof Hq3 as (y & -> & Hsy & Hry). set (s4 := with_processes (<[q := unparent q qr t']> (processes s)) (with_ext y s2)).
    assert ((prnt ← GetProcessFromPid (parent pr); q ← get_process prnt;
             '(_, t) ← on_tree (TreeDelete p) (children q); set_process prnt {| q with children := Some t |}) s2
            = Done (tt, s4)) as Ewhole.
    { rewrite (M_bind_done _ _ _ _ _ E3).
      rewrite (M_bind_done _ _ _ _ _ (get_process_run q qr (with_ext y s2) ltac:(simpl; by rewrite Hps2))).
      unfold on_tree, run_tree, set_process. mred. rewrite Htc. mred. rewrite Ed. mred.
      unfold s4. simpl. by rewrite Hps2. }
    rewrite (M_bind_done _ _ _ _ _ Ewhole).
    destruct (Hend s4 (<[q := unparent q qr t']> (processes s))) as (s' & E' & Ht' & Hps' & Hm' & Hs' & Hr').
    { eapply table_ok_same; [exact Ht2|done..|]. simpl. by rewrite Hsy. }
    { done. }
    { simpl. by rewrite Hm2. }
    { simpl. rewrite Hsy, Hs2. done. }
    { simpl. rewrite Hry, Hr2. done. }
    exists s'. split; [exact E'|]. split.
    + split; try done.
      * rewrite Hps'. apply lookup_delete_eq.
      * intros r rr Hr1 Hrr. rewrite Hps', lookup_delete_ne by done. destruct (decide (r = q)) as [->|Hrq].
        { rewrite lookup_insert_eq. rewrite Hrr in Hqr. injection Hqr as <-. by exists (Some t'). }
        rewrite lookup_insert_ne by done. exists (children rr). rewrite Hrr. by destruct rr.
      * intros r. rewrite Hps'. intros [_ [<-|[_ Hx]]%lookup_insert_is_Some]%lookup_delete_is_Some; [by eexists|done].
    + eapply (procs_ok_reaped s tbl own p pr s' (<[q := unparent q qr t']> (processes s))); try done.
      * by rewrite lookup_insert_ne.
      * intros r rr' Hrp. intros [[<- <-]|[Hrq Hr1]]%lookup_insert_Some.
        { exists qr. split; [done|]. right. split; [done|]. by exists t, t'. }
        exists rr'. split; [done|]. left. split; [done|]. intros E. apply Hrq. symmetry.
        eapply (pid_unique s tbl own); [done..|congruence].
      * intros r. rewrite lookup_insert_is_Some. split; [intros [<-|[_ ?]]; eauto|].
        destruct (decide (q = r)); [by left|by right].
  - rewrite (M_bind_done (mret tt) _ s2 tt s2) by done.
    destruct (Hend s2 (processes s)) as (s' & E' & Ht' & Hps' & Hm' & Hs' & Hr').
    { done. } { by rewrite Hps2. } { by rewrite Hm2. } { by rewrite Hs2. } { by rewrite Hr2. }
    exists s'. split; [exact E'|]. split.
    + split; try done.
      * rewrite Hps'. apply lookup_delete_eq.
      * intros r rr Hr1 Hrr. rewrite Hps', lookup_delete_ne by done. exists (children rr). rewrite Hrr. by destruct rr.
      * intros r. rewrite Hps'. by intros [_ ?]%lookup_delete_is_Some.
    + eapply (procs_ok_reaped s tbl own p pr s' (processes s)); try done.
      intros r rr' Hrp Hr1. exists rr'. split; [done|]. left. split; [done|]. rewrite Hpar.
      pose proof (pid_positive _ _ _ _ _ Hok Hr1). lia.
Qed.
End inv.
