(* ===== verification/ProcessWait.v ===== *)
(** * Waiting for children *)

From S2P Require Import Prelude Tree Process ProcessTable ProcessInv.

Section wait.
Context {X : Type} {AL : Allocator} {K : Kernel X} {KL : KernelLaws X}.
Implicit Types (s : procs X) (tbl : gmap Z Z) (own : gmap Z (Z * bool)).

(** A dead child that the call waits for; the first one in the order of the walk. *)
Definition is_zombie s (target c : Z) : Prop :=
  match processes s !! c with
  | Some cr => terminated cr = true ∧ (pid cr = target ∨ target = -1)
  | None => False
  end.
#[local] Instance is_zombie_dec s target c : Decision (is_zombie s target c).
Proof. unfold is_zombie. destruct (processes s !! c); apply _. Defined.

Fixpoint first_zombie s (target : Z) (t : tree_node) : option Z :=
  match t with
  | Null => None
  | TNode lt c rt =>
    if decide (is_zombie s target c) then Some c else
    match first_zombie s target lt with Some z => Some z | None => first_zombie s target rt end
  end.

Lemma first_zombie_spec s target t :
  match first_zombie s target t with
  | Some c => c ∈ AvlPrint t ∧ is_zombie s target c
  | None => ∀ c, c ∈ AvlPrint t → ¬ is_zombie s target c
  end.
Proof.
  induction t as [|l IHl d r IHr]; simpl; [intros c Hc; by apply not_elem_of_nil in Hc|].
  destruct (decide (is_zombie s target d)) as [Hd|Hd]; [set_solver|].
  destruct (first_zombie s target l) as [c|]; [set_solver|].
  destruct (first_zombie s target r) as [c|]; [set_solver|].
  intros c. rewrite elem_of_app, elem_of_cons. naive_solver.
Qed.

Lemma first_zombie_same s s' target t : processes s' = processes s → first_zombie s' target t = first_zombie s target t.
Proof.
  intros Hp. induction t as [|l IHl d r IHr]; simpl; [done|]. rewrite IHl, IHr.
  assert (is_zombie s' target d ↔ is_zombie s target d) as Hi by (unfold is_zombie; by rewrite Hp).
  destruct (decide (is_zombie s' target d)), (decide (is_zombie s target d)); tauto || done.
Qed.

Lemma quiet_processes s s' : quiet s s' → processes s' = processes s.
Proof. by intros (x & -> & _). Qed.

(** The walk stops at the first such child and reaps it. *)
Lemma try_reap_run h t target status s tbl own :
  procs_ok h s tbl own → (∀ c, c ∈ AvlPrint t → c ≠ h ∧ is_Some (processes s !! c)) →
  match first_zombie s target t with
  | None => ∃ s', RecursivelyTryReap t target status s = Done ((0, status), s') ∧ quiet s s'
  | Some c => ∀ cr, processes s !! c = Some cr → ∃ s1, quiet s s1 ∧
      (∀ s2, ReapProcess c s1 = Done (tt, s2) → RecursivelyTryReap t target status s = Done ((pid cr, retv cr), s2)) ∧
      (∀ code, ReapProcess c s1 = Panicked code → RecursivelyTryReap t target status s = Panicked code)
  end.
Proof.
  revert s. induction t as [|l IHl d r IHr]; intros s Hok Hin; cbn [first_zombie RecursivelyTryReap].
  { exists s. split; [done|apply quiet_refl]. }
  destruct (Hin d) as [Hdh [dr Hd]]; [simpl; set_solver|].
  destruct (lock_unlock_quiet h s tbl own d dr Hok Hd Hdh) as (s1 & s2 & El & Hp1 & Eu & Hq).
  rewrite (M_bind_done _ _ _ _ _ El).
  rewrite (M_bind_done _ _ _ _ _ (get_process_run d dr s1 ltac:(by rewrite Hp1))).
  assert (is_zombie s target d ↔ terminated dr = true ∧ (pid dr = target ∨ target = -1)) as Hz
    by (unfold is_zombie; by rewrite Hd).
  destruct (decide (is_zombie s target d)) as [Hzd|Hzd].
  - rewrite decide_True by tauto. intros cr Hcr. rewrite Hd in Hcr. injection Hcr as <-.
    exists s2. split; [done|]. split.
    + intros s3 E3. by rewrite (M_bind_done _ _ _ _ _ Eu), (M_bind_done _ _ _ _ _ E3).
    + intros code E3. by rewrite (M_bind_done _ _ _ _ _ Eu), (M_bind_panic _ _ _ _ E3).
  - rewrite decide_False by tauto. rewrite (M_bind_done _ _ _ _ _ Eu).
    assert (procs_ok h s2 tbl own) as Hok2 by by eapply procs_ok_quiet.
    pose proof (quiet_processes _ _ Hq) as Hp2.
    specialize (IHl s2 Hok2 ltac:(intros c Hc; rewrite Hp2; apply Hin; simpl; set_solver)).
    rewrite (first_zombie_same s s2) in IHl by done.
    pose proof (first_zombie_spec s target l) as Hspec.
    destruct (first_zombie s target l) as [c|].
    + intros cr Hcr. destruct (IHl cr) as (s3 & Hq3 & Hd3 & Hp3); [by rewrite Hp2|].
      exists s3. split; [by eapply quiet_trans|]. split.
      * intros s4 E4. rewrite (M_bind_done _ _ _ _ _ (Hd3 s4 E4)).
        pose proof (pid_positive _ _ _ _ _ _ Hok Hcr). by rewrite decide_True by lia.
      * intros code E4. by rewrite (M_bind_panic _ _ _ _ (Hp3 code E4)).
    + destruct IHl as (s3 & E3 & Hq3). rewrite (M_bind_done _ _ _ _ _ E3). rewrite decide_False by lia.
      assert (quiet s s3) as Hq13 by by eapply quiet_trans.
      assert (procs_ok h s3 tbl own) as Hok3 by by eapply procs_ok_quiet.
      pose proof (quiet_processes _ _ Hq13) as Hp3.
      specialize (IHr s3 Hok3 ltac:(intros c Hc; rewrite Hp3; apply Hin; simpl; set_solver)).
      rewrite (first_zombie_same s s3) in IHr by done.
      destruct (first_zombie s target r) as [c|].
      * intros cr Hcr. destruct (IHr cr) as (s4 & Hq4 & Hd4 & Hp4); [by rewrite Hp3|].
        exists s4. split; [by eapply quiet_trans|]. done.
      * destruct IHr as (s4 & E4 & Hq4). exists s4. split; [done|by eapply quiet_trans].
Qed.

(** ** Semaphores that move under the invariant *)
Lemma procs_ok_sems h h' s x tbl own :
  procs_ok h s tbl own →
  sems x !! process_table_mutex s = sems (ext s) !! process_table_mutex s →
  (∀ m, is_Some (sems (ext s) !! m) → is_Some (sems x !! m)) →
  (∀ p pr, processes s !! p = Some pr → sems x !! lock pr = Some (lock_state h' p)) →
  (∀ p pr, processes s !! p = Some pr →
     ∃ c, sems x !! killed_children_semaphore pr = Some (c, SEM_BIG_NUMBER) ∧ 0 ≤ c ≤ SEM_BIG_NUMBER) →
  procs_ok h' (with_ext x s) tbl own.
Proof.
  intros [Ht Hom Hol Hl Hp] Hm Hlive Hlock Hsem. split; [by eapply table_ok_same|done| |done|].
  - intros m Hown. apply Hlive. by apply Hol.
  - intros p pr Hpr. destruct (Hp p pr Hpr) as [? ? ? ? _ _ ? ? ? ?]. split; try done; [by apply Hlock|by eapply Hsem].
Qed.

(** Semaphores with different owners are different. *)
Lemma owners_differ h s tbl own p q pr qr :
  procs_ok h s tbl own → processes s !! p = Some pr → processes s !! q = Some qr →
  lock pr ≠ killed_children_semaphore qr ∧ lock pr ≠ process_table_mutex s ∧
  killed_children_semaphore pr ≠ process_table_mutex s ∧
  (p ≠ q → lock pr ≠ lock qr ∧ killed_children_semaphore pr ≠ killed_children_semaphore qr).
Proof.
  intros Hok Hp Hq. destruct (ok_process _ _ _ _ Hok p pr Hp) as [Hn _ Hl Hs _ _ _ _ _ _].
  destruct (ok_process _ _ _ _ Hok q qr Hq) as [_ _ Hl' Hs' _ _ _ _ _ _]. pose proof (ok_own_mutex _ _ _ _ Hok) as Hm.
  split; [|split; [|split]].
  - intros E. rewrite E in Hl. congruence.
  - intros E. rewrite E in Hl. congruence.
  - intros E. rewrite E in Hs. congruence.
  - intros Hne. split; intros E; [rewrite E in Hl|rewrite E in Hs]; congruence.
Qed.

(** Changing who holds the one lock. *)
Lemma procs_ok_lock h h' s x tbl own p pr :
  procs_ok h s tbl own → processes s !! p = Some pr → sems x = <[lock pr := lock_state h' p]> (sems (ext s)) →
  (∀ q, q ≠ p → q ≠ NULL → lock_state h' q = lock_state h q) → procs_ok h' (with_ext x s) tbl own.
Proof.
  intros Hok Hp Hs Hst. eapply procs_ok_sems; [done|..]; rewrite Hs.
  - rewrite lookup_insert_ne; [done|]. by apply (owners_differ h s tbl own p p pr pr).
  - intros m Hm. apply lookup_insert_is_Some. destruct (decide (lock pr = m)); auto.
  - intros q qr Hq. destruct (decide (q = p)) as [->|Hne].
    + rewrite Hp in Hq. injection Hq as <-. apply lookup_insert_eq.
    + rewrite lookup_insert_ne by (by apply (owners_differ h s tbl own p q pr qr); try done).
      rewrite Hst by (done || by apply (ok_process _ _ _ _ Hok q qr)). by apply (ok_process _ _ _ _ Hok q qr).
  - intros q qr Hq. rewrite lookup_insert_ne by (by apply (owners_differ h s tbl own p q pr qr)).
    by apply (ok_process _ _ _ _ Hok q qr).
Qed.

(** Taking or giving a unit. *)
Lemma procs_ok_unit h s x tbl own p pr c :
  procs_ok h s tbl own → processes s !! p = Some pr → 0 ≤ c ≤ SEM_BIG_NUMBER →
  sems x = <[killed_children_semaphore pr := (c, SEM_BIG_NUMBER)]> (sems (ext s)) → procs_ok h (with_ext x s) tbl own.
Proof.
  intros Hok Hp Hc Hs. eapply procs_ok_sems; [done|..]; rewrite Hs.
  - rewrite lookup_insert_ne; [done|]. by apply (owners_differ h s tbl own p p pr pr).
  - intros m Hm. apply lookup_insert_is_Some. destruct (decide (killed_children_semaphore pr = m)); auto.
  - intros q qr Hq. rewrite lookup_insert_ne by (apply not_eq_sym; by apply (owners_differ h s tbl own q p qr pr)).
    by apply (ok_process _ _ _ _ Hok q qr).
  - intros q qr Hq. destruct (decide (q = p)) as [->|Hne].
    + rewrite Hp in Hq. injection Hq as <-. exists c. split; [apply lookup_insert_eq|done].
    + rewrite lookup_insert_ne by (by apply (owners_differ h s tbl own p q pr qr)).
      by apply (ok_process _ _ _ _ Hok q qr).
Qed.

(** ** One turn of the wait *)
Section turn.
Context (s : procs X) (tbl : gmap Z Z) (own : gmap Z (Z * bool)) (w : Z) (wr : process) (t : tree).
Hypothesis Hok : procs_ok NULL s tbl own.
Hypothesis Hw : processes s !! w = Some wr.
Hypothesis Halive : terminated wr = false.
Hypothesis Ht : children wr = Some t.

Lemma children_alive c : c ∈ contents t → c ≠ w ∧ ∃ cr, processes s !! c = Some cr ∧ parent cr = pid wr.
Proof.
  pose proof (po_children _ _ _ _ _ _ (ok_process _ _ _ _ Hok w wr Hw)) as Hch. rewrite Halive, Ht in Hch.
  destruct Hch as (t' & [= <-] & _ & Hct). intros Hc. apply Hct in Hc. split; [|done]. intros ->.
  destruct Hc as (cr & Hcr & Hpar). rewrite Hw in Hcr. injection Hcr as <-.
  by apply (po_self _ _ _ _ _ _ (ok_process _ _ _ _ Hok w wr Hw)).
Qed.

(** The lock of the parent is taken, then given back. *)
Lemma parent_lock :
  ∃ x, LockProcess w s = Done (tt, with_ext x s) ∧ procs_ok w (with_ext x s) tbl own ∧
    sems x = <[lock wr := (1, 1)]> (sems (ext s)) ∧ running x = running (ext s).
Proof.
  assert (w ≠ NULL) as Hnn by apply (ok_process _ _ _ _ Hok w wr Hw).
  destruct (lock_process_run NULL s tbl own w wr Hok Hw Hnn) as (x & E & Hs & Hr).
  exists x. split_and!; [done| |done|done]. eapply (procs_ok_lock NULL w s); [done|done| |].
  - unfold lock_state. by rewrite decide_True.
  - intros q Hq Hqn. unfold lock_state. by rewrite !decide_False.
Qed.
End turn.

Lemma parent_unlock s tbl own w wr :
  procs_ok w s tbl own → processes s !! w = Some wr →
  ∃ x, UnlockProcess w s = Done (tt, with_ext x s) ∧ procs_ok NULL (with_ext x s) tbl own ∧
    sems x = <[lock wr := (0, 1)]> (sems (ext s)) ∧ running x = running (ext s).
Proof.
  intros Hok Hw. pose proof (ok_process _ _ _ _ Hok w wr Hw) as Hwo. pose proof (po_null _ _ _ _ _ _ Hwo) as Hnn.
  pose proof (po_lock _ _ _ _ _ _ Hwo) as Hl. unfold lock_state in Hl. rewrite decide_True in Hl by done.
  destruct (unlock_process_run s w wr 1 Hw Hl) as (x & E & Hs & Hr). exists x. split_and!; [done| |done|done].
  eapply (procs_ok_lock w NULL s); [done|done| |].
  - unfold lock_state. by rewrite decide_False.
  - intros q Hq Hqn. unfold lock_state. by rewrite !decide_False.
Qed.

(** A turn that takes a unit and finds a dead child. *)
Lemma wait_turn_reaps s tbl own w wr t c flags target status failed fuel z zr :
  procs_ok NULL s tbl own → processes s !! w = Some wr → terminated wr = false → children wr = Some t →
  sems (ext s) !! killed_children_semaphore wr = Some (c, SEM_BIG_NUMBER) → c < SEM_BIG_NUMBER →
  first_zombie s target (root t) = Some z → processes s !! z = Some zr → vas zr ≠ (running (ext s)).2 →
  match sems (ext s) !! killed_children_semaphore zr with
  | Some (k, _) =>
    if decide (k = SEM_BIG_NUMBER) then
      ∃ s', WaitProcess_loop (S fuel) w target status flags failed s = Done ((pid zr, retv zr, failed), s') ∧
        procs_ok NULL s' (delete (pid zr) tbl) (delete (killed_children_semaphore zr) own) ∧
        processes s' !! z = None ∧
        sems (ext s') = <[killed_children_semaphore wr := (c + 1, SEM_BIG_NUMBER)]>
                          (delete (killed_children_semaphore zr) (sems (ext s))) ∧
        running (ext s') = running (ext s)
    else WaitProcess_loop (S fuel) w target status flags failed s = Panicked PANIC_ASSERTION_FAILURE
  | None => False
  end.
Proof.
  intros Hok Hw Halive Ht Hsem Hc Hz Hzr Hvas. cbn [WaitProcess_loop].
  rewrite (M_bind_done _ _ _ _ _ (get_process_run w wr s Hw)).
  destruct (acquire_free (ext s) (killed_children_semaphore wr) (if decide (Z.land flags WNOHANG ≠ 0) then 0 else -1)
              c SEM_BIG_NUMBER Hsem Hc) as (x1 & E1 & Hs1 & Hr1).
  rewrite (M_bind_done _ _ _ _ _ (lift_run _ _ _ _ E1)), (decide_False (P := 0 ≠ 0)) by lia.
  pose proof (po_sem _ _ _ _ _ _ (ok_process _ _ _ _ Hok w wr Hw)) as (c0 & Hc0 & Hc0r).
  rewrite Hsem in Hc0. injection Hc0 as <-.
  assert (procs_ok NULL (with_ext x1 s) tbl own) as Hok1 by (apply (procs_ok_unit NULL s x1 tbl own w wr (c + 1)); [done|done|lia|done]).
  destruct (parent_lock (with_ext x1 s) tbl own w wr Hok1 Hw) as (x2 & E2 & Hok2 & Hs2 & Hr2).
  rewrite (M_bind_done _ _ _ _ _ E2), with_ext_ext. rewrite with_ext_ext in Hok2. set (s2 := with_ext x2 s) in *.
  rewrite (M_bind_done _ _ _ _ _ (get_process_run w wr s2 Hw)).
  unfold deref. rewrite Ht. rewrite (M_bind_done (mret t) _ s2 t s2) by done.
  pose proof (try_reap_run w (root t) target status s2 tbl own Hok2) as Hreap.
  rewrite (first_zombie_same s s2), Hz in Hreap by done.
  specialize (Hreap ltac:(intros d Hd; destruct (children_alive s tbl own w wr t Hok Hw Halive Ht d Hd) as (? & dr & Hdr & _); split; [done|by exists dr])).
  destruct (Hreap zr Hzr) as (s3 & Hq3 & Hd3 & Hp3). clear Hreap.
  pose proof (first_zombie_spec s target (root t)) as Hspec. rewrite Hz in Hspec. destruct Hspec as [Hzin Hzz].
  unfold is_zombie in Hzz. rewrite Hzr in Hzz. destruct Hzz as [Hzt _].
  destruct (children_alive s tbl own w wr t Hok Hw Halive Ht z Hzin) as (Hzw & _).
  destruct (owners_differ NULL s tbl own w z wr zr Hok Hw Hzr) as (Hd1 & _ & _ & Hd2). destruct (Hd2 (not_eq_sym Hzw)) as [_ Hd4].
  pose proof (po_sem _ _ _ _ _ _ (ok_process _ _ _ _ Hok z zr Hzr)) as (k & Hk & Hkr). rewrite Hk.
  pose proof Hq3 as (x3 & Es3 & Hs3 & Hr3). subst s3.
  assert (sems x3 = <[lock wr := (1, 1)]> (<[killed_children_semaphore wr := (c + 1, SEM_BIG_NUMBER)]> (sems (ext s)))) as Hsx
    by (simpl in *; congruence).
  assert (procs_ok w (with_ext x3 s2) tbl own) as Hok3 by by eapply procs_ok_quiet.
  pose proof (ReapProcess_run w (with_ext x3 s2) tbl own z zr k Hok3 Hzr Hzt) as Hrun.
  simpl in Hrun, Hr1, Hr2, Hr3. rewrite Hr3, Hr2, Hr1 in Hrun. specialize (Hrun Hvas).
  rewrite Hsx, !lookup_insert_ne in Hrun by done. specialize (Hrun Hk).
  destruct (decide (k = SEM_BIG_NUMBER)) as [Hfull|Hnot].
  - destruct Hrun as (s4 & E4 & Hreaped & Hok4).
    rewrite (M_bind_done _ _ _ _ _ (Hd3 s4 E4)).
    destruct Hreaped as [Hgone Hothers _ Hsems4 Hrun4 _].
    destruct (Hothers w wr) as (ch & Hw4); [done|done|].
    destruct (parent_unlock s4 _ _ w {| wr with children := ch |} Hok4 Hw4) as (x5 & E5 & Hok5 & Hs5 & Hr5).
    rewrite (M_bind_done _ _ _ _ _ E5).
    pose proof (pid_positive _ _ _ _ _ _ Hok Hzr). rewrite decide_False by lia.
    eexists. split; [done|]. split; [done|]. split; [done|]. simpl in *. split; [|congruence].
    rewrite Hs5, Hsems4, Hsx.
    rewrite !delete_insert_ne by done. rewrite insert_insert_eq.
    rewrite insert_id; [done|].
    destruct (owners_differ NULL s tbl own w w wr wr Hok Hw Hw) as (Hd5 & _).
    rewrite lookup_insert_ne, lookup_delete_ne by (by apply not_eq_sym).
    apply (lock_free NULL s tbl own w wr Hok Hw). by apply (ok_process _ _ _ _ Hok w wr Hw).
  - by rewrite (M_bind_panic _ _ _ _ (Hp3 _ Hrun)).
Qed.

(** A turn that takes a unit and finds none. *)
Lemma wait_turn_none s tbl own w wr t c flags target status failed fuel :
  procs_ok NULL s tbl own → processes s !! w = Some wr → terminated wr = false → children wr = Some t →
  sems (ext s) !! killed_children_semaphore wr = Some (c, SEM_BIG_NUMBER) → c < SEM_BIG_NUMBER →
  first_zombie s target (root t) = None →
  ∃ x, sems x = <[killed_children_semaphore wr := (c + 1, SEM_BIG_NUMBER)]> (sems (ext s)) ∧
    running x = running (ext s) ∧ procs_ok NULL (with_ext x s) tbl own ∧
    WaitProcess_loop (S fuel) w target status flags failed s =
    WaitProcess_loop fuel w target status flags (if decide (target ≠ -1) then failed + 1 else failed) (with_ext x s).
Proof.
  intros Hok Hw Halive Ht Hsem Hc Hz. cbn [WaitProcess_loop].
  rewrite (M_bind_done _ _ _ _ _ (get_process_run w wr s Hw)).
  destruct (acquire_free (ext s) (killed_children_semaphore wr) (if decide (Z.land flags WNOHANG ≠ 0) then 0 else -1)
              c SEM_BIG_NUMBER Hsem Hc) as (x1 & E1 & Hs1 & Hr1).
  rewrite (M_bind_done _ _ _ _ _ (lift_run _ _ _ _ E1)), (decide_False (P := 0 ≠ 0)) by lia.
  pose proof (po_sem _ _ _ _ _ _ (ok_process _ _ _ _ Hok w wr Hw)) as (c0 & Hc0 & Hc0r).
  rewrite Hsem in Hc0. injection Hc0 as <-.
  assert (procs_ok NULL (with_ext x1 s) tbl own) as Hok1
    by (apply (procs_ok_unit NULL s x1 tbl own w wr (c + 1)); [done|done|lia|done]).
  destruct (parent_lock (with_ext x1 s) tbl own w wr Hok1 Hw) as (x2 & E2 & Hok2 & Hs2 & Hr2).
  rewrite (M_bind_done _ _ _ _ _ E2), with_ext_ext. rewrite with_ext_ext in Hok2. set (s2 := with_ext x2 s) in *.
  rewrite (M_bind_done _ _ _ _ _ (get_process_run w wr s2 Hw)).
  unfold deref. rewrite Ht. rewrite (M_bind_done (mret t) _ s2 t s2) by done.
  pose proof (try_reap_run w (root t) target status s2 tbl own Hok2) as Hreap.
  rewrite (first_zombie_same s s2), Hz in Hreap by done.
  destruct Hreap as (s3 & E3 & (x3 & -> & Hs3 & Hr3)).
  { intros d Hd. destruct (children_alive s tbl own w wr t Hok Hw Halive Ht d Hd) as (? & dr & Hdr & _).
    split; [done|by exists dr]. }
  rewrite (M_bind_done _ _ _ _ _ E3). unfold s2 in *. rewrite with_ext_ext in *.
  assert (procs_ok w (with_ext x3 s) tbl own) as Hok3.
  { eapply procs_ok_quiet; [|exact Hok2]. by exists x3. }
  destruct (parent_unlock (with_ext x3 s) tbl own w wr Hok3 Hw) as (x4 & E4 & Hok4 & Hs4 & Hr4).
  rewrite (M_bind_done _ _ _ _ _ E4), with_ext_ext, (decide_True (P := 0 = 0)) by done.
  rewrite with_ext_ext in Hok4. exists x4. simpl in *. split; [|split; [congruence|split; [done|done]]].
  rewrite Hs4, Hs3, Hs2, Hs1. apply mutex_roundtrip.
  destruct (owners_differ NULL s tbl own w w wr wr Hok Hw Hw) as (Hd5 & _).
  rewrite lookup_insert_ne by (by apply not_eq_sym).
  apply (lock_free NULL s tbl own w wr Hok Hw). by apply (ok_process _ _ _ _ Hok w wr Hw).
Qed.

(** Polling takes every unit that is left. *)
Lemma poll_run (fuel : nat) s tbl own w wr t c flags target status failed :
  procs_ok NULL s tbl own → processes s !! w = Some wr → terminated wr = false → children wr = Some t →
  sems (ext s) !! killed_children_semaphore wr = Some (c, SEM_BIG_NUMBER) → c ≤ SEM_BIG_NUMBER →
  Z.land flags WNOHANG ≠ 0 → first_zombie s target (root t) = None → SEM_BIG_NUMBER - c < fuel →
  ∃ x, WaitProcess_loop fuel w target status flags failed s =
      Done ((0, status, failed + (if decide (target ≠ -1) then SEM_BIG_NUMBER - c else 0)), with_ext x s) ∧
    sems x = <[killed_children_semaphore wr := (SEM_BIG_NUMBER, SEM_BIG_NUMBER)]> (sems (ext s)) ∧
    running x = running (ext s) ∧ procs_ok NULL (with_ext x s) tbl own.
Proof.
  revert s c failed. induction fuel as [|fuel IH]; intros s c failed Hok Hw Halive Ht Hsem Hc Hflags Hz Hfuel; [lia|].
  destruct (decide (c = SEM_BIG_NUMBER)) as [->|Hne].
  - cbn [WaitProcess_loop]. rewrite (M_bind_done _ _ _ _ _ (get_process_run w wr s Hw)), (decide_True (P := Z.land flags WNOHANG ≠ 0)) by exact Hflags.
    destruct (acquire_taken (ext s) (killed_children_semaphore wr) _ _ Hsem) as (r & x & E & Hr & Hs & Hrun); [done|].
    rewrite (M_bind_done _ _ _ _ _ (lift_run _ _ _ _ E)), decide_True by done.
    exists x. rewrite Z.sub_diag. split; [|split; [by rewrite Hs, insert_id|split; [done|]]].
    + destruct (decide (target ≠ -1)); by rewrite Z.add_0_r.
    + eapply procs_ok_quiet; [|exact Hok]. by exists x.
  - destruct (wait_turn_none s tbl own w wr t c flags target status failed fuel Hok Hw Halive Ht Hsem) as (x & Hs & Hr & Hok' & E);
      [lia|done|].
    destruct (IH (with_ext x s) (c + 1) (if decide (target ≠ -1) then failed + 1 else failed)) as (y & Ey & Hsy & Hry & Hoky);
      [done..| |lia|done|by rewrite (first_zombie_same s)|lia|].
    { simpl. rewrite Hs. apply lookup_insert_eq. }
    rewrite with_ext_ext in *. exists y. rewrite E, Ey. simpl in *. split; [|split; [|split; [congruence|done]]].
    + do 2 f_equal. f_equal. destruct (decide (target ≠ -1)); lia.
    + by rewrite Hsy, Hs, insert_insert_eq.
Qed.

(** Giving back the units of the turns that failed. *)
Lemma release_failed_run (n : nat) s tbl own w wr c :
  procs_ok NULL s tbl own → processes s !! w = Some wr →
  sems (ext s) !! killed_children_semaphore wr = Some (c, SEM_BIG_NUMBER) → n ≤ c ≤ SEM_BIG_NUMBER →
  ∃ x, release_failed n w s = Done (tt, with_ext x s) ∧
    sems x = <[killed_children_semaphore wr := (c - n, SEM_BIG_NUMBER)]> (sems (ext s)) ∧
    running x = running (ext s) ∧ procs_ok NULL (with_ext x s) tbl own.
Proof.
  revert s c. induction n as [|n IH]; intros s c Hok Hw Hsem Hn; cbn [release_failed].
  { exists (ext s). replace (c - 0%nat) with c by lia. rewrite insert_id by done.
    assert (with_ext (ext s) s = s) as Hid by by destruct s. rewrite Hid. done. }
  rewrite (M_bind_done _ _ _ _ _ (get_process_run w wr s Hw)).
  destruct (release_taken (ext s) (killed_children_semaphore wr) c SEM_BIG_NUMBER Hsem) as (x & E & Hs & Hr); [lia|].
  rewrite (M_bind_done _ _ _ _ _ (lift_run _ _ _ _ E)).
  assert (procs_ok NULL (with_ext x s) tbl own) as Hok'
    by (apply (procs_ok_unit NULL s x tbl own w wr (c - 1)); [done|done|lia|done]).
  destruct (IH (with_ext x s) (c - 1) Hok' Hw) as (y & Ey & Hsy & Hry & Hoky); [simpl; rewrite Hs; apply lookup_insert_eq|lia|].
  exists y. rewrite Ey. rewrite with_ext_ext in *. simpl in *. split; [done|]. split; [|split; [congruence|done]].
  rewrite Hsy, Hs, insert_insert_eq. do 2 f_equal. lia.
Qed.

Lemma GetProcess_run s : ∃ x, GetProcess s = Done ((running (ext s)).1.2, with_ext x s) ∧ quiet s (with_ext x s).
Proof.
  destruct (running_process (ext s)) as (x & E & Hs & Hr). exists x. split; [by apply lift_run|by exists x].
Qed.

(** C18: waiting when a unit of the semaphore is there and a child that is waited
    for is dead: the first such child in the tree is reaped, and its id and return
    value are the result; it is gone from the table, one unit is taken and the
    process tree is well-formed again. If the child died with children it had not
    waited for, so that its own semaphore still has units, the kernel panics. *)
Theorem WaitProcess_reaps s tbl own w wr t c flags target status (fuel : nat) z zr
  (Hok : procs_ok NULL s tbl own) (Hrun : (running (ext s)).1.2 = w) (Hw : processes s !! w = Some wr)
  (Halive : terminated wr = false) (Ht : children wr = Some t)
  (Hsem : sems (ext s) !! killed_children_semaphore wr = Some (c, SEM_BIG_NUMBER)) (Hc : c < SEM_BIG_NUMBER)
  (Hz : first_zombie s target (root t) = Some z) (Hzr : processes s !! z = Some zr)
  (Hvas : vas zr ≠ (running (ext s)).2) :
  match sems (ext s) !! killed_children_semaphore zr with
  | Some (k, _) =>
    if decide (k = SEM_BIG_NUMBER) then
      ∃ s', WaitProcess (S fuel) target status flags s = Done ((pid zr, retv zr), s') ∧
        procs_ok NULL s' (delete (pid zr) tbl) (delete (killed_children_semaphore zr) own) ∧
        processes s' !! z = None ∧
        sems (ext s') = <[killed_children_semaphore wr := (c + 1, SEM_BIG_NUMBER)]>
                          (delete (killed_children_semaphore zr) (sems (ext s)))
    else WaitProcess (S fuel) target status flags s = Panicked PANIC_ASSERTION_FAILURE
  | None => False
  end.
Proof.
  unfold WaitProcess. destruct (GetProcess_run s) as (x & E & Hq). rewrite (M_bind_done _ _ _ _ _ E), Hrun.
  assert (procs_ok NULL (with_ext x s) tbl own) as Hok' by by eapply procs_ok_quiet.
  pose proof Hq as (x' & Ex & Hsx & Hrx). injection Ex as <-.
  pose proof (wait_turn_reaps (with_ext x s) tbl own w wr t c flags target status 0 fuel z zr Hok' Hw Halive Ht) as Hturn.
  simpl in Hturn. rewrite Hsx, Hrx, (first_zombie_same s (with_ext x s)) in Hturn by done.
  specialize (Hturn Hsem Hc Hz Hzr Hvas). destruct (sems (ext s) !! killed_children_semaphore zr) as [[k mx]|]; [|done].
  destruct (decide (k = SEM_BIG_NUMBER)).
  - destruct Hturn as (s' & E' & H1 & H2 & H3 & _). exists s'. cbn [WaitProcess_loop]. rewrite (M_bind_done _ _ _ _ _ E'). done.
  - by rewrite (M_bind_panic _ _ _ _ Hturn).
Qed.

(** polling for a child when none that is waited for is dead: it ends within as
    many turns as there are units, with the id 0 and nothing reaped. Waiting for
    one process gives every unit back; waiting for any uses them up. *)
Theorem WaitProcess_polls s tbl own w wr t c flags target status (fuel : nat)
  (Hok : procs_ok NULL s tbl own) (Hrun : (running (ext s)).1.2 = w) (Hw : processes s !! w = Some wr)
  (Halive : terminated wr = false) (Ht : children wr = Some t)
  (Hsem : sems (ext s) !! killed_children_semaphore wr = Some (c, SEM_BIG_NUMBER))
  (Hflags : Z.land flags WNOHANG ≠ 0) (Hz : first_zombie s target (root t) = None) (Hfuel : SEM_BIG_NUMBER - c < fuel) :
  ∃ s', WaitProcess fuel target status flags s = Done ((0, status), s') ∧ procs_ok NULL s' tbl own ∧
    processes s' = processes s ∧
    sems (ext s') = if decide (target = -1)
                    then <[killed_children_semaphore wr := (SEM_BIG_NUMBER, SEM_BIG_NUMBER)]> (sems (ext s))
                    else sems (ext s).
Proof.
  unfold WaitProcess. destruct (GetProcess_run s) as (x & E & Hq). rewrite (M_bind_done _ _ _ _ _ E), Hrun.
  assert (procs_ok NULL (with_ext x s) tbl own) as Hok' by by eapply procs_ok_quiet.
  pose proof Hq as (x' & Ex & Hsx & Hrx). injection Ex as <-.
  pose proof (po_sem _ _ _ _ _ _ (ok_process _ _ _ _ Hok w wr Hw)) as (c0 & Hc0 & Hc0r).
  rewrite Hsem in Hc0. injection Hc0 as <-.
  destruct (poll_run fuel (with_ext x s) tbl own w wr t c flags target status 0 Hok' Hw Halive Ht)
    as (y & Ey & Hsy & Hry & Hoky); [by simpl; rewrite Hsx|lia|done|by rewrite (first_zombie_same s)|done|].
  rewrite (M_bind_done _ _ _ _ _ Ey), with_ext_ext. rewrite with_ext_ext in Hoky. rewrite Z.add_0_l.
  simpl in Hsy. rewrite Hsx in Hsy.
  destruct (release_failed_run (Z.to_nat (if decide (target ≠ -1) then SEM_BIG_NUMBER - c else 0)) (with_ext y s) tbl own w wr
              SEM_BIG_NUMBER Hoky Hw) as (u & Eu & Hsu & Hru & Hoku).
  { simpl. rewrite Hsy. apply lookup_insert_eq. }
  { destruct (decide (target ≠ -1)); lia. }
  rewrite (M_bind_done _ _ _ _ _ Eu). rewrite with_ext_ext in *. exists (with_ext u s). split; [done|]. split; [done|].
  split; [done|]. simpl in *. rewrite Hsu, Hsy, insert_insert_eq.
  destruct (decide (target = -1)) as [->|Hne].
  - rewrite decide_False by (intros H; by apply H). simpl. do 2 f_equal.
  - rewrite decide_True by done. rewrite Z2Nat.id by lia. replace (SEM_BIG_NUMBER - (SEM_BIG_NUMBER - c)) with c by lia.
    by rewrite insert_id.
Qed.
End wait.
