(* ===== verification/ProcessCreate.v ===== *)
(** * Creating processes *)

From S2P Require Import Prelude Tree Process ProcessTable ProcessInv ProcessWait.

Section create.
Context {X : Type} {AL : Allocator} {K : Kernel X} {KL : KernelLaws X}.
Implicit Types (s : procs X) (tbl : gmap Z Z) (own : gmap Z (Z * bool)).

(** What a new process is. *)
Record fresh_process (np : process) (i par m1 m2 : Z) : Prop := {
  fp_pid : pid np = i;
  fp_pgid : pgid np = i;
  fp_parent : parent np = par;
  fp_lock : lock np = m1;
  fp_sem : killed_children_semaphore np = m2;
  fp_children : children np = Some TreeCreate;
  fp_threads : threads np = Some TreeCreate;
  fp_terminated : terminated np = false;
}.

Lemma addr_tree_empty : addr_tree TreeCreate.
Proof. split; [apply set_tree_empty|done]. Qed.

(** The invariant with a process more. *)
Lemma procs_ok_created s tbl own s' p np i par m1 m2 :
  procs_ok NULL s tbl own → fresh_process np i par m1 m2 → p ≠ NULL → processes s !! p = None → processes s' !! p = Some np →
  tbl !! i = None → 0 < i → table_ok s' (<[i := p]> tbl) → process_table_mutex s' = process_table_mutex s →
  m1 ≠ m2 → sems (ext s) !! m1 = None → sems (ext s) !! m2 = None →
  sems (ext s') = <[m2 := (SEM_BIG_NUMBER, SEM_BIG_NUMBER)]> (<[m1 := (0, 1)]> (sems (ext s))) →
  (par ≠ 0 → ∃ q qr, tbl !! par = Some q ∧ processes s !! q = Some qr ∧ terminated qr = false) →
  (∀ r rr', r ≠ p → processes s' !! r = Some rr' → ∃ rr, processes s !! r = Some rr ∧
     (rr' = rr ∧ par ≠ pid rr ∨
      par = pid rr ∧ ∃ t t', children rr = Some t ∧ rr' = unparent r rr t' ∧ addr_tree t' ∧ contents t' ≡ₚ p :: contents t)) →
  (∀ r, r ≠ p → is_Some (processes s' !! r) ↔ is_Some (processes s !! r)) →
  procs_ok NULL s' (<[i := p]> tbl) (<[m2 := (p, true)]> (<[m1 := (p, false)]> own)).
Proof.
  intros Hok Hnp Hpn Hp Hp' Hi Hipos Htab Hmtx Hm12 Hm1 Hm2 Hsems Hpar Hrel Hdom.
  destruct Hnp as [Epid _ Epar Elock Esem Ech Eth Eterm].
  assert (∀ m, is_Some (own !! m) → m ≠ m1 ∧ m ≠ m2) as Hfresh.
  { intros m [x Hx]%(ok_own_live _ _ _ _ Hok). split; intros ->; congruence. }
  assert (∀ r rr', r ≠ p → processes s' !! r = Some rr' → ∃ rr, processes s !! r = Some rr ∧
    pid rr' = pid rr ∧ parent rr' = parent rr ∧ terminated rr' = terminated rr ∧ lock rr' = lock rr ∧
    killed_children_semaphore rr' = killed_children_semaphore rr ∧ threads rr' = threads rr) as Hback.
  { intros r rr' Hr Hrr. destruct (Hrel r rr' Hr Hrr) as (rr & Hx & [[-> _]|(_ & t & t' & _ & -> & _)]); [by eauto 10|].
    exists rr. by split_and!. }
  assert (∀ r rr, processes s !! r = Some rr → r ≠ p ∧ ∃ rr', processes s' !! r = Some rr' ∧
    pid rr' = pid rr ∧ parent rr' = parent rr ∧ terminated rr' = terminated rr) as Hfwd.
  { intros r rr Hr. assert (r ≠ p) as Hne by congruence. split; [done|].
    destruct (proj2 (Hdom r Hne)) as [rr' Hrr']; [eauto|]. exists rr'. split; [done|].
    destruct (Hback r rr' Hne Hrr') as (rr2 & Hr2 & H1 & H2 & H3 & _). rewrite Hr in Hr2. by injection Hr2 as <-. }
  assert (∀ r rr, processes s !! r = Some rr → parent rr ≠ i) as Hnokid.
  { intros r rr Hr E. destruct (po_parent _ _ _ _ _ _ (ok_process _ _ _ _ Hok r rr Hr)) as (q & qr & Hq & _); [lia|].
    rewrite E in Hq. congruence. }
  split; [done|..].
  - rewrite Hmtx. pose proof (ok_own_mutex _ _ _ _ Hok) as Hm. destruct (Hfresh (process_table_mutex s)) as [? ?]; [eauto|].
    by rewrite !lookup_insert_ne.
  - intros m. rewrite Hsems, !lookup_insert_is_Some. intros [<-|[_ [<-|[_ Hm]]]].
    + by left.
    + right. split; [done|by left].
    + destruct (Hfresh m Hm). right. split; [done|]. right. split; [done|]. by apply Hok.
  - intros j r [[<- <-]|[Hj Hr]]%lookup_insert_Some; [by exists np|].
    destruct (ok_live _ _ _ _ Hok j r Hr) as (rr & Hrr & Hpid). destruct (Hfwd r rr Hrr) as (_ & rr' & Hrr' & H1 & _).
    exists rr'. split; [done|congruence].
  - intros r rr' Hr. destruct (decide (r = p)) as [->|Hne].
    + rewrite Hp' in Hr. injection Hr as <-. split.
      * done.
      * rewrite Epid. apply lookup_insert_eq.
      * rewrite Elock, lookup_insert_ne by done. apply lookup_insert_eq.
      * rewrite Esem. apply lookup_insert_eq.
      * rewrite Elock, Hsems, lookup_insert_ne, lookup_insert_eq by done. unfold lock_state. by rewrite decide_False.
      * exists SEM_BIG_NUMBER. rewrite Esem, Hsems, lookup_insert_eq. split; [done|]. by vm_compute.
      * rewrite Eterm. exists TreeCreate. split; [done|]. split; [apply addr_tree_empty|]. intros c. split.
        { intros Hc. by apply not_elem_of_nil in Hc. }
        intros (cr & Hc & Hcp). exfalso. rewrite Epid in Hcp. destruct (decide (c = p)) as [->|Hcne].
        { rewrite Hp' in Hc. injection Hc as <-. rewrite Epar in Hcp. subst par.
          destruct Hpar as (q & qr & Hq & _); [lia|]. congruence. }
        destruct (Hback c cr Hcne Hc) as (cr0 & Hc0 & _ & E & _). by apply (Hnokid c cr0 Hc0); congruence.
      * intros _. exists TreeCreate. split; [done|apply addr_tree_empty].
      * rewrite Epid, Epar. intros ->. destruct Hpar as (q & qr & Hq & _); [lia|]. congruence.
      * rewrite Epar. intros Hnz. destruct (Hpar Hnz) as (q & qr & Hq & Hqr & Hqt).
        destruct (Hfwd q qr Hqr) as (_ & qr' & Hqr' & _ & _ & E). exists q, qr'.
        split; [|split; [done|congruence]]. rewrite lookup_insert_ne; [done|]. intros <-. congruence.
    + destruct (Hback r rr' Hne Hr) as (rr & Hrr & Epidr & Eparr & Etermr & Elockr & Esemr & Ethr).
      destruct (ok_process _ _ _ _ Hok r rr Hrr) as [Hn Hl Hol Hos Hlk Hsm Hch Hth Hself Hpt].
      destruct (Hfresh (lock rr)) as [Hl1 Hl2]; [eauto|].
      destruct (Hfresh (killed_children_semaphore rr)) as [Hs1 Hs2]; [eauto|].
      assert (∀ c, (∃ cr, processes s' !! c = Some cr ∧ parent cr = pid rr) ↔
                   c = p ∧ par = pid rr ∨ ∃ cr, processes s !! c = Some cr ∧ parent cr = pid rr) as Hkids.
      { intros c. split.
        - intros (cr' & Hc & Hcp). destruct (decide (c = p)) as [->|Hcne].
          { rewrite Hp' in Hc. injection Hc as <-. left. split; [done|congruence]. }
          destruct (Hback c cr' Hcne Hc) as (cr & Hcr & _ & E & _). right. exists cr. split; [done|congruence].
        - intros [[-> E]|(cr & Hc & Hcp)]; [exists np; split; [done|congruence]|].
          destruct (Hfwd c cr Hc) as (_ & cr' & Hc' & _ & E & _). exists cr'. split; [done|congruence]. }
      split.
      * done.
      * rewrite Epidr, lookup_insert_ne; [done|]. congruence.
      * rewrite Elockr. by rewrite !lookup_insert_ne.
      * rewrite Esemr. by rewrite !lookup_insert_ne.
      * rewrite Elockr, Hsems. by rewrite !lookup_insert_ne.
      * rewrite Esemr, Hsems. by rewrite !lookup_insert_ne.
      * rewrite Etermr. destruct (Hrel r rr' Hne Hr) as (rr2 & Hrr2 & Hcase). rewrite Hrr in Hrr2. injection Hrr2 as <-.
        destruct (terminated rr) eqn:Et.
        { destruct Hcase as [[-> _]|(Epp & _)]; [done|]. exfalso. pose proof (pid_positive _ _ _ _ _ _ Hok Hrr).
          destruct Hpar as (q & qr & Hq & Hqr & Hqt); [lia|]. rewrite Epp, Hl in Hq. injection Hq as <-. congruence. }
        destruct Hch as (t & Ht & Hat & Hct). rewrite Epidr.
        destruct Hcase as [[-> Hnp]|(Epp & t0 & t' & Ht0 & -> & Hat' & Hperm)].
        { exists t. split; [done|]. split; [done|]. intros c. rewrite Hct, Hkids. split; [by right|]. intros [[_ ?]|?]; done. }
        rewrite Ht in Ht0. injection Ht0 as <-. exists t'. split; [done|]. split; [done|].
        intros c. rewrite Hkids, <- Hct, Hperm, elem_of_cons. naive_solver.
      * rewrite Etermr, Ethr. apply Hth.
      * congruence.
      * rewrite Eparr. intros Hnz. destruct (Hpt Hnz) as (q & qr & Hq & Hqr & Hqt).
        destruct (Hfwd q qr Hqr) as (_ & qr' & Hqr' & _ & _ & E). exists q, qr'.
        split; [|split; [done|congruence]]. rewrite lookup_insert_ne; [done|]. intros E1. by apply (Hnokid r rr Hrr).
Qed.

(** [p->field = value]. *)
Lemma update_run {A} p f r (k : M (procs X) A) s :
  processes s !! p = Some r →
  (x ← get_process p; set_process p (f x);; k) s = k (with_processes (<[p := f r]> (processes s)) s).
Proof. intros H. rewrite (M_bind_done _ _ _ _ _ (get_process_run p r s H)). done. Qed.

(** The common part: a process, its semaphores and its place in the table. *)
Lemma new_process_run s tbl own par :
  procs_ok NULL s tbl own → next_pid s + 1 < 2 ^ 31 →
  ∃ p np m1 m2 s1, new_process par s = Done (p, s1) ∧ p ≠ NULL ∧ processes s !! p = None ∧
    fresh_process np (next_pid s) par m1 m2 ∧ processes s1 = <[p := np]> (processes s) ∧
    table_ok s1 (<[next_pid s := p]> tbl) ∧ process_table_mutex s1 = process_table_mutex s ∧
    m1 ≠ m2 ∧ sems (ext s) !! m1 = None ∧ sems (ext s) !! m2 = None ∧
    sems (ext s1) = <[m2 := (SEM_BIG_NUMBER, SEM_BIG_NUMBER)]> (<[m1 := (0, 1)]> (sems (ext s))) ∧
    running (ext s1) = running (ext s) ∧ next_pid s1 = next_pid s + 1.
Proof.
  intros Hok Hmax. unfold new_process. rewrite (M_bind_done get _ s s s) by done. set (p := pick (dom (processes s))).
  assert (p ≠ NULL) as Hpn by apply pick_nonnull.
  assert (processes s !! p = None) as Hp by apply not_elem_of_dom, pick_fresh.
  unfold CreateMutex. destruct (create_fresh (ext s) 1 0) as (m1 & x1 & E1 & Hm1 & Hs1 & Hr1).
  rewrite (M_bind_done _ _ _ _ _ (lift_run _ _ _ _ E1)).
  destruct (create_vas_returns x1) as (v & x2 & E2 & Hs2 & Hr2).
  rewrite (M_bind_done _ _ _ _ _ (lift_run _ _ _ (with_ext x1 s) E2)), with_ext_ext.
  destruct (create_fresh x2 SEM_BIG_NUMBER SEM_BIG_NUMBER) as (m2 & x3 & E3 & Hm2 & Hs3 & Hr3).
  rewrite (M_bind_done _ _ _ _ _ (lift_run _ _ _ (with_ext x2 s) E3)), with_ext_ext.
  set (r0 := Process _ _ _ _ _ _ _ _ _ _ _ _).
  set (s2 := with_processes (<[p := r0]> (processes s)) (with_ext x3 s)).
  rewrite (M_bind_done (set_process p r0) _ (with_ext x3 s) tt s2) by done.
  rewrite Hs2, Hs1 in Hm2. apply lookup_insert_None in Hm2 as [Hm2 Hne].
  assert (process_table_mutex s ≠ m1 ∧ process_table_mutex s ≠ m2) as [Hx1 Hx2].
  { pose proof (tab_mutex _ _ (ok_table _ _ _ _ Hok)) as Hf. unfold mutex_free in Hf. split; intros E; rewrite E in Hf; congruence. }
  assert (table_ok s2 tbl) as Ht2.
  { eapply table_ok_same; [apply Hok|done..|]. simpl. by rewrite Hs3, Hs2, Hs1, !lookup_insert_ne. }
  destruct (InsertIntoProcessTable_run s2 tbl p Ht2 Hmax) as (s3 & E4 & Ht3 & Hp3 & Hs4 & Hr4 & Hm4 & Hn4).
  rewrite (M_bind_done _ _ _ _ _ E4). change (next_pid s2) with (next_pid s) in *.
  assert (processes s3 = <[p := r0]> (processes s)) as Hp3' by by rewrite Hp3.
  set (r1 := {| r0 with pid := next_pid s |}). set (r2 := {| r1 with pgid := next_pid s |}).
  set (s4 := with_processes (<[p := r1]> (processes s3)) s3).
  set (s5 := with_processes (<[p := r2]> (processes s4)) s4).
  destruct (create_fds_returns (ext s5)) as (t & x5 & E5 & Hs5 & Hr5).
  set (s6 := with_ext x5 s5). set (r3 := {| r2 with fd_table := t |}).
  exists p, r3, m1, m2, (with_processes (<[p := r3]> (processes s6)) s6).
  split.
  { etrans; [by apply (update_run p (λ x, {| x with pid := next_pid s |}) r0); rewrite Hp3', lookup_insert_eq|].
    etrans; [by apply (update_run p (λ x, {| x with pgid := next_pid s |}) r1 _ s4), lookup_insert_eq|].
    change (with_processes _ s4) with s5. rewrite (M_bind_done _ _ _ _ _ (lift_run _ _ _ s5 E5)).
    etrans; [by apply (update_run p (λ x, {| x with fd_table := t |}) r2 _ s6), lookup_insert_eq|done]. }
  split; [done|]. split; [done|]. split; [by split|].
  split; [simpl; by rewrite Hp3', !insert_insert_eq|].
  split; [eapply table_ok_same; [exact Ht3|done..|simpl; by rewrite Hs5]|].
  split; [simpl; by rewrite Hm4|]. split; [done|]. split; [done|]. split; [done|]. simpl.
  split; [|split; [|done]].
  - rewrite Hs5. simpl. rewrite Hs4. simpl. by rewrite Hs3, Hs2, Hs1.
  - rewrite Hr5. simpl. rewrite Hr4. simpl. congruence.
Qed.

(** Joining the parent: its tree gains the child, which gets its directory. *)
Lemma join_parent_run s q p qr np t :
  processes s !! q = Some qr → processes s !! p = Some np → q ≠ p → children qr = Some t → addr_tree t → p ∉ contents t →
  ∃ t' x, join_parent q p s = Done (tt, with_ext x (with_processes (<[p := {| np with p_cwd := p_cwd qr |}]>
                                                  (<[q := unparent q qr t']> (processes s))) s)) ∧
    addr_tree t' ∧ contents t' ≡ₚ p :: contents t ∧ sems x = sems (ext s) ∧ running x = running (ext s).
Proof.
  intros Hq Hp Hqp Ht Hat Hnot. destruct (addr_insert t p Hat Hnot) as (t' & Ei & Hat' & Hperm). exists t'.
  set (s1 := with_processes (<[q := unparent q qr t']> (processes s)) s).
  assert (insert_child q p s = Done (tt, s1)) as E1.
  { unfold insert_child. rewrite (M_bind_done _ _ _ _ _ (get_process_run q qr s Hq)).
    unfold on_tree, run_tree, set_process. mred. rewrite Ht. mred. by rewrite Ei. }
  assert (processes s1 !! q = Some (unparent q qr t')) as Hq1 by apply lookup_insert_eq.
  assert (processes s1 !! p = Some np) as Hp1 by (unfold s1; simpl; by rewrite lookup_insert_ne).
  set (s2 := with_processes (<[p := {| np with p_cwd := p_cwd qr |}]> (processes s1)) s1).
  assert (set_cwd p (p_cwd qr) s1 = Done (tt, s2)) as E2.
  { unfold set_cwd. by rewrite (M_bind_done _ _ _ _ _ (get_process_run p np s1 Hp1)). }
  unfold join_parent. rewrite (M_bind_done _ _ _ _ _ E1), (M_bind_done _ _ _ _ _ (get_process_run q _ s1 Hq1)).
  change (p_cwd (unparent q qr t')) with (p_cwd qr). rewrite (M_bind_done _ _ _ _ _ E2).
  destruct (decide (p_cwd qr ≠ NULL)) as [Hc|Hc].
  - destruct (reference_returns (ext s2) (p_cwd qr) Hc) as (x & E & Hs & Hr). exists x.
    split; [exact (lift_run _ _ _ s2 E)|done].
  - exists (ext s). split; [done|done].
Qed.

Lemma CreateProcess_run s tbl own par
  (Hok : procs_ok NULL s tbl own) (Hmax : next_pid s + 1 < 2 ^ 31)
  (Hpar : par ≠ 0 → ∃ q qr, tbl !! par = Some q ∧ processes s !! q = Some qr ∧ terminated qr = false) :
  ∃ p np s' own', CreateProcess par s = Done (p, s') ∧ processes s !! p = None ∧ processes s' !! p = Some np ∧
    pid np = next_pid s ∧ pgid np = next_pid s ∧ parent np = par ∧ terminated np = false ∧
    threads np = Some TreeCreate ∧ children np = Some TreeCreate ∧
    (par = 0 → p_cwd np = NULL) ∧
    (∀ q qr, tbl !! par = Some q → processes s !! q = Some qr → p_cwd np = p_cwd qr) ∧
    procs_ok NULL s' (<[next_pid s := p]> tbl) own' ∧ running (ext s') = running (ext s).
Proof.
  destruct (new_process_run s tbl own par Hok Hmax)
    as (p & np & m1 & m2 & s1 & E1 & Hpn & Hpnone & Hfp & Hps1 & Ht1 & Hmtx & Hm12 & Hm1 & Hm2 & Hs1 & Hr1 & _).
  pose proof (ok_table _ _ _ _ Hok) as Ht. pose proof (tab_next _ _ Ht) as Hnext.
  assert (tbl !! next_pid s = None) as Hnew.
  { destruct (tbl !! next_pid s) as [z|] eqn:Ez; [|done]. destruct (tab_pids _ _ Ht (next_pid s)) as [_ ?]; [eauto|lia]. }
  assert (tbl !! 0 = None) as Hzero.
  { destruct (tbl !! 0) as [z|] eqn:Ez; [|done]. destruct (tab_pids _ _ Ht 0) as [? _]; [eauto|lia]. }
  pose proof (procs_ok_created s tbl own) as Hcreated.
  unfold CreateProcess. rewrite (M_bind_done _ _ _ _ _ E1). destruct (decide (par ≠ 0)) as [Hnz|Hz%dec_stable].
  - destruct (Hpar Hnz) as (q & qr & Hq & Hqr & Hqt).
    assert (par ≠ next_pid s) as Hne by congruence. assert (q ≠ p) as Hqp by congruence.
    pose proof (ok_process _ _ _ _ Hok q qr Hqr) as Hqo.
    pose proof (po_children _ _ _ _ _ _ Hqo) as Hch. rewrite Hqt in Hch. destruct Hch as (t & Htc & Hat & Hct).
    destruct (GetProcessFromPid_run s1 _ par Ht1) as (s2 & E2 & (x2 & -> & Hs2 & Hr2)).
    rewrite lookup_insert_ne, Hq in E2 by done. simpl in E2.
    assert (processes s1 !! q = Some qr) as Hq1 by (by rewrite Hps1, lookup_insert_ne).
    assert (processes s1 !! p = Some np) as Hp1 by (rewrite Hps1; apply lookup_insert_eq).
    assert (mutex_free (lock qr) (with_ext x2 s1)) as Hfree.
    { pose proof (lock_free NULL s tbl own q qr Hok Hqr (po_null _ _ _ _ _ _ Hqo)) as Hf. unfold mutex_free in *. simpl.
      rewrite Hs2, Hs1, !lookup_insert_ne by congruence. done. }
    destruct (with_mutex_held _ _ Hfree) as (x3 & E3 & Hs3 & Hr3). rewrite with_ext_ext in E3.
    destruct (join_parent_run (with_ext x3 s1) q p qr np t Hq1 Hp1 Hqp Htc Hat) as (t' & x4 & E4 & Hat' & Hperm & Hs4 & Hr4).
    { rewrite Hct. intros (cr & Hcr & _). congruence. }
    set (np' := {| np with p_cwd := p_cwd qr |}) in *. set (s4 := with_ext x4 _) in E4.
    assert (processes s4 !! q = Some (unparent q qr t')) as Hq4.
    { unfold s4. simpl. by rewrite lookup_insert_ne, lookup_insert_eq. }
    simpl in Hs3, Hr3, Hs4, Hr4.
    destruct (release_mutex (lock qr) s4 1) as (x5 & E5 & Hs5 & Hr5).
    { simpl. rewrite Hs4, Hs3. apply lookup_insert_eq. }
    exists p, np', (with_ext x5 s4), (<[m2 := (p, true)]> (<[m1 := (p, false)]> own)).
    assert (processes s4 = <[p := np']> (<[q := unparent q qr t']> (<[p := np]> (processes s)))) as Hps4 by (simpl; by rewrite Hps1).
    split; [|split; [done|split; [change (processes (with_ext x5 s4)) with (processes s4); by rewrite Hps4, lookup_insert_eq|]]].
    { rewrite (M_bind_done _ _ s1 tt (with_ext x5 s4)); [done|].
      rewrite (M_bind_done _ _ _ _ _ E2). unfold LockProcess, UnlockProcess.
      rewrite (M_bind_done _ _ (with_ext x2 s1) tt (with_ext x3 s1));
        [|by rewrite (M_bind_done _ _ _ _ _ (get_process_run q qr (with_ext x2 s1) Hq1))].
      rewrite (M_bind_done _ _ _ _ _ E4). by rewrite (M_bind_done _ _ _ _ _ (get_process_run q _ s4 Hq4)). }
    destruct Hfp as [F1 F2 F3 F4 F5 F6 F7 F8]. split_and!; try done.
    + intros q' qr'. rewrite Hq. intros [= <-]. rewrite Hqr. by intros [= <-].
    + apply (Hcreated (with_ext x5 s4) p np' (next_pid s) par m1 m2); try done.
      * change (processes (with_ext x5 s4)) with (processes s4). by rewrite Hps4, lookup_insert_eq.
      * assert (sems x5 = sems (ext s1)) as Hsx.
        { rewrite Hs5. simpl. rewrite Hs4, Hs3, Hs2. apply mutex_roundtrip. unfold mutex_free in Hfree. simpl in Hfree. congruence. }
        eapply table_ok_same; [exact Ht1|done..|]. simpl. by rewrite Hsx.
      * simpl. rewrite Hs5. simpl. rewrite Hs4, Hs3, Hs2. rewrite mutex_roundtrip; [done|].
        unfold mutex_free in Hfree. simpl in Hfree. congruence.
      * intros r rr' Hr. change (processes (with_ext x5 s4)) with (processes s4). rewrite Hps4, lookup_insert_ne by done.
        intros [[<- <-]|[Hrq Hrr1]]%lookup_insert_Some.
        { exists qr. split; [done|]. right. split; [|by exists t, t'].
          destruct (ok_live _ _ _ _ Hok _ _ Hq) as (qr2 & Hqr2 & E). congruence. }
        rewrite lookup_insert_ne in Hrr1 by done. exists rr'. split; [done|]. left. split; [done|].
        intros E. apply Hrq. pose proof (po_listed _ _ _ _ _ _ (ok_process _ _ _ _ Hok r rr' Hrr1)) as Hl. congruence.
      * intros r Hr. change (processes (with_ext x5 s4)) with (processes s4). rewrite Hps4, lookup_insert_ne, lookup_insert_is_Some by done.
        rewrite lookup_insert_ne by done. split; [intros [<-|[_ ?]]; eauto|]. destruct (decide (q = r)); auto.
    + simpl. rewrite Hr5. simpl. congruence.
  - subst par.
    assert (processes s1 !! p = Some np) as Hp1 by (rewrite Hps1; apply lookup_insert_eq).
    set (np' := {| np with p_cwd := NULL |}). set (s2 := with_processes (<[p := np']> (processes s1)) s1).
    assert (set_cwd p NULL s1 = Done (tt, s2)) as E2.
    { unfold set_cwd. by rewrite (M_bind_done _ _ _ _ _ (get_process_run p np s1 Hp1)). }
    rewrite (M_bind_done _ _ _ _ _ E2).
    exists p, np', s2, (<[m2 := (p, true)]> (<[m1 := (p, false)]> own)).
    assert (processes s2 = <[p := np']> (processes s)) as Hps2 by (simpl; by rewrite Hps1, insert_insert_eq).
    split; [done|]. split; [done|]. split; [by rewrite Hps2, lookup_insert_eq|].
    destruct Hfp as [F1 F2 F3 F4 F5 F6 F7 F8]. split_and!; try done.
    + intros q qr Hq. congruence.
    + apply (Hcreated s2 p np' (next_pid s) 0 m1 m2); try done.
      * by rewrite Hps2, lookup_insert_eq.
      * by eapply table_ok_same.
      * intros r rr' Hr. rewrite Hps2, lookup_insert_ne by done. intros Hrr. exists rr'. split; [done|]. left.
        split; [done|]. pose proof (pid_positive _ _ _ _ _ _ Hok Hrr). lia.
      * intros r Hr. by rewrite Hps2, lookup_insert_ne.
Qed.

(** creating a process: it has the next id, is its own group, has no children
    and no threads and the directory of its parent; it is in the table and among
    the children of its parent, the process tree is well-formed again, and every id
    is looked up as before but for the new one, which finds the new process. *)
Theorem CreateProcess_correct s tbl own par
  (Hok : procs_ok NULL s tbl own) (Hmax : next_pid s + 1 < 2 ^ 31)
  (Hpar : par ≠ 0 → ∃ q qr, tbl !! par = Some q ∧ processes s !! q = Some qr ∧ terminated qr = false) :
  ∃ p np s' own', CreateProcess par s = Done (p, s') ∧ processes s !! p = None ∧ processes s' !! p = Some np ∧
    pid np = next_pid s ∧ pgid np = next_pid s ∧ parent np = par ∧ terminated np = false ∧
    threads np = Some TreeCreate ∧ children np = Some TreeCreate ∧
    (par = 0 → p_cwd np = NULL) ∧
    (∀ q qr, tbl !! par = Some q → processes s !! q = Some qr → p_cwd np = p_cwd qr) ∧
    (∀ q qr, tbl !! par = Some q → processes s' !! q = Some qr → ∃ t, children qr = Some t ∧ p ∈ contents t) ∧
    procs_ok NULL s' (<[next_pid s := p]> tbl) own' ∧ running (ext s') = running (ext s) ∧
    ∀ i, ∃ s2, GetProcessFromPid i s' = Done (if decide (i = next_pid s) then p else default NULL (tbl !! i), s2) ∧ quiet s' s2.
Proof.
  destruct (CreateProcess_run s tbl own par Hok Hmax Hpar)
    as (p & np & s' & own' & E & Hnone & Hp & Hpid & Hpg & Hpp & Hlive & Hth & Hch & Hc1 & Hc2 & Hok' & Hr).
  exists p, np, s', own'. split_and!; try done.
  - intros q qr Hq Hqr. destruct (decide (par = 0)) as [->|Hnz].
    { destruct (tab_pids _ _ (ok_table _ _ _ _ Hok) 0) as [? _]; [by exists q|lia]. }
    destruct (Hpar Hnz) as (q2 & _ & Hq2 & _). rewrite Hq in Hq2. injection Hq2 as <-.
    pose proof (ok_process _ _ _ _ Hok' q qr Hqr) as Hqo.
    destruct (ok_live _ _ _ _ Hok' par q) as (qr2 & Hqr2 & Hqpid).
    { rewrite lookup_insert_ne; [done|]. intros <-. destruct (tab_pids _ _ (ok_table _ _ _ _ Hok) (next_pid s)); [by exists q|lia]. }
    rewrite Hqr in Hqr2. injection Hqr2 as <-.
    destruct (po_parent _ _ _ _ _ _ (ok_process _ _ _ _ Hok' p np Hp)) as (q3 & qr3 & Hq3 & Hqr3 & Hl3); [congruence|].
    pose proof (po_listed _ _ _ _ _ _ Hqo) as Hlisted. rewrite Hqpid, <- Hpp, Hq3 in Hlisted. injection Hlisted as ->.
    rewrite Hqr in Hqr3. injection Hqr3 as <-.
    pose proof (po_children _ _ _ _ _ _ Hqo) as Hcq. rewrite Hl3 in Hcq. destruct Hcq as (t & Ht & _ & Hct).
    exists t. split; [done|]. apply Hct. exists np. split; congruence.
  - intros i. destruct (GetProcessFromPid_run s' _ i (ok_table _ _ _ _ Hok')) as (s2 & E2 & Hq2).
    exists s2. split; [|done]. rewrite E2. destruct (decide (i = next_pid s)) as [->|Hi].
    + by rewrite lookup_insert_eq.
    + by rewrite lookup_insert_ne by (by apply not_eq_sym).
Qed.
End create.
