(* ===== verification/ProcessKill.v ===== *)
(** * Ending a process: its threads, its orphans, its parent *)

From S2P Require Import Prelude Tree Process ProcessTable ProcessInv ProcessWait ProcessCreate.

Section kill.
Context {X : Type} {AL : Allocator} {K : Kernel X} {KL : KernelLaws X}.
Implicit Types (s : procs X) (tbl : gmap Z Z) (own : gmap Z (Z * bool)).

(** ** Threads *)
Lemma kill_threads_quiet t s :
  (running (ext s)).1.1 ∉ AvlPrint t → ∃ s', RecursivelyKillRemainingThreads t s = Done (tt, s') ∧ quiet s s'.
Proof.
  revert s. induction t as [|l IHl v r IHr]; intros s Hn; cbn [RecursivelyKillRemainingThreads].
  { exists s. split; [done|apply quiet_refl]. }
  cbn [AvlPrint] in Hn. rewrite not_elem_of_app, not_elem_of_cons in Hn. destruct Hn as (Hl & Hv & Hr).
  destruct (IHl s Hl) as (s1 & E1 & Hq1). rewrite (M_bind_done _ _ _ _ _ E1).
  pose proof Hq1 as (x1 & -> & Hs1 & Hr1).
  destruct (IHr (with_ext x1 s)) as (s2 & E2 & Hq2); [simpl; by rewrite Hr1|]. rewrite (M_bind_done _ _ _ _ _ E2).
  pose proof Hq2 as (x2 & -> & Hs2 & Hr2). rewrite with_ext_ext. simpl in Hs2, Hr2.
  destruct (terminating_returns x2 v) as (b & x3 & E3 & Hs3 & Hr3).
  rewrite (M_bind_done _ _ _ _ _ (lift_run _ _ _ (with_ext x2 s) E3)), with_ext_ext.
  destruct b.
  - exists (with_ext x3 s). split; [done|]. exists x3. split; [done|split; congruence].
  - destruct (terminate_returns x3 v) as (x4 & E4 & Hs4 & Hr4).
    exists (with_ext x4 s). split; [exact (lift_run _ _ _ (with_ext x3 s) E4)|]. exists x4. split; [done|].
    assert (v ≠ (running x3).1.1) as Hne by congruence. specialize (Hr4 Hne). split; congruence.
Qed.

(** ** Orphans *)
Section orphans.
Context (s : procs X) (tbl : gmap Z Z) (own : gmap Z (Z * bool)) (a : Z) (ar : process) (ta : tree) (ca : Z).
Hypothesis Hok : procs_ok NULL s tbl own.
Hypothesis Hinit : tbl !! 1 = Some a.
Hypothesis Ha : processes s !! a = Some ar.
Hypothesis Haa : terminated ar = false.
Hypothesis Hta : children ar = Some ta.
Hypothesis Hca : sems (ext s) !! killed_children_semaphore ar = Some (ca, SEM_BIG_NUMBER).

Definition adopt (o : process) : process := {| o with parent := 1 |}.

(** [s'] is [s] after the processes [l] were given to [a]. *)
Record adopted (l : list Z) s' : Prop := {
  ad_table : table_ok s' tbl;
  ad_mutex : process_table_mutex s' = process_table_mutex s;
  ad_others r : r ≠ a → processes s' !! r = (if decide (r ∈ l) then adopt else id) <$> processes s !! r;
  ad_tree : ∃ t, processes s' !! a = Some (unparent a ar t) ∧ addr_tree t ∧ contents t ≡ₚ l ++ contents ta;
  ad_sems : sems (ext s') = <[killed_children_semaphore ar := (ca - length l, SEM_BIG_NUMBER)]> (sems (ext s));
  ad_running : running (ext s') = running (ext s);
}.

Lemma adopter_facts : pid ar = 1 ∧ a ≠ NULL ∧ mutex_free (lock ar) s ∧ addr_tree ta ∧
  (∀ c, c ∈ contents ta ↔ ∃ cr, processes s !! c = Some cr ∧ parent cr = 1) ∧
  lock ar ≠ killed_children_semaphore ar ∧ lock ar ≠ process_table_mutex s ∧
  killed_children_semaphore ar ≠ process_table_mutex s.
Proof.
  pose proof (ok_process _ _ _ _ Hok a ar Ha) as Hao. pose proof (po_null _ _ _ _ _ _ Hao) as Hn.
  assert (pid ar = 1) as Hp by (destruct (ok_live _ _ _ _ Hok _ _ Hinit) as (ar2 & Har2 & E); congruence).
  pose proof (po_children _ _ _ _ _ _ Hao) as Hch. rewrite Haa, Hta, Hp in Hch.
  destruct Hch as (t & [= <-] & Hat & Hct). destruct (owners_differ NULL s tbl own a a ar ar Hok Ha Ha) as (H1 & H2 & H3 & _).
  split_and!; try done. by apply (lock_free NULL s tbl own a ar Hok Ha).
Qed.

Lemma adopted_nil : adopted [] s.
Proof.
  destruct adopter_facts as (_ & _ & _ & Hat & _). split; [apply Hok|done| | | |done].
  - intros r Hr. rewrite decide_False by (by intros ?%not_elem_of_nil). by destruct (processes s !! r).
  - exists ta. split; [|done]. rewrite Ha. f_equal. unfold unparent. rewrite <- Hta. by destruct ar.
  - simpl. rewrite Z.sub_0_r. by rewrite insert_id.
Qed.

(** One more orphan. *)
Lemma AdoptOrphan_run l s1 o or :
  adopted l s1 → o ∉ l → o ≠ a → processes s !! o = Some or → parent or ≠ 1 → length l < ca ≤ SEM_BIG_NUMBER →
  ∃ s2, (adopter ← GetProcessFromPid 1; AdoptOrphan adopter o) s1 = Done (tt, s2) ∧ adopted (o :: l) s2.
Proof.
  intros [Ht Hm Hoth (t & Hat1 & Hat & Hperm) Hs Hr] Hol Hoa Ho Hpar Hlen.
  destruct adopter_facts as (Hpid & Han & Hfree & _ & Hct & Hne1 & Hne2 & Hne3).
  destruct (GetProcessFromPid_run s1 tbl 1 Ht) as (s2 & E1 & (x1 & -> & Hs1 & Hr1)). rewrite Hinit in E1. simpl in E1.
  rewrite (M_bind_done _ _ _ _ _ E1). set (aw := unparent a ar t) in *.
  assert (processes s1 !! o = Some or) as Ho1.
  { rewrite Hoth, decide_False, Ho by done. done. }
  assert (o ∉ contents t) as Hnot.
  { rewrite Hperm, not_elem_of_app, Hct. split; [done|]. intros (cr & Hcr & ?). congruence. }
  destruct (addr_insert t o Hat Hnot) as (t' & Ei & Hat' & Hperm').
  assert (mutex_free (lock aw) (with_ext x1 s1)) as Hf.
  { unfold mutex_free in *. simpl. rewrite Hs1, Hs, lookup_insert_ne by (by apply not_eq_sym). done. }
  destruct (with_mutex_held (lock aw) (with_ext x1 s1) Hf) as (x2 & E2 & Hs2 & Hr2). rewrite with_ext_ext in E2.
  simpl in Hs2, Hr2. unfold AdoptOrphan, LockProcess.
  rewrite (M_bind_done _ _ (with_ext x1 s1) tt (with_ext x2 s1)); [|by rewrite (M_bind_done _ _ _ _ _ (get_process_run a aw (with_ext x1 s1) Hat1))].
  rewrite (M_bind_done _ _ _ _ _ (get_process_run a aw (with_ext x2 s1) Hat1)).
  rewrite (M_bind_done _ _ _ _ _ (get_process_run o or (with_ext x2 s1) Ho1)).
  change (pid aw) with (pid ar). rewrite Hpid. fold (adopt or).
  set (s3 := with_processes (<[o := adopt or]> (processes s1)) (with_ext x2 s1)).
  rewrite (M_bind_done (set_process o (adopt or)) _ (with_ext x2 s1) tt s3) by done.
  assert (processes s3 !! a = Some aw) as Ha3 by (unfold s3; simpl; by rewrite lookup_insert_ne).
  set (s4 := with_processes (<[a := unparent a aw t']> (processes s3)) s3).
  assert (insert_child a o s3 = Done (tt, s4)) as E4.
  { unfold insert_child. rewrite (M_bind_done _ _ _ _ _ (get_process_run a aw s3 Ha3)).
    unfold on_tree, run_tree, set_process. mred. cbn [children aw unparent]. mred. by rewrite Ei. }
  rewrite (M_bind_done _ _ _ _ _ E4).
  assert (processes s4 !! a = Some (unparent a aw t')) as Ha4 by apply lookup_insert_eq.
  rewrite (M_bind_done _ _ _ _ _ (get_process_run a _ s4 Ha4)).
  destruct (release_taken x2 (killed_children_semaphore ar) (ca - length l) SEM_BIG_NUMBER) as (x5 & E5 & Hs5 & Hr5).
  { rewrite Hs2, lookup_insert_ne by done. rewrite Hs1, Hs. apply lookup_insert_eq. }
  { lia. }
  change (killed_children_semaphore (unparent a aw t')) with (killed_children_semaphore ar).
  rewrite (M_bind_done _ _ _ _ _ (lift_run _ _ _ s4 E5)).
  destruct (release_mutex (lock ar) (with_ext x5 s4) 1) as (x6 & E6 & Hs6 & Hr6).
  { simpl. rewrite Hs5, lookup_insert_ne by (by apply not_eq_sym). rewrite Hs2. apply lookup_insert_eq. }
  simpl in Hs6, Hr6. exists (with_ext x6 s4). split.
  { unfold UnlockProcess. rewrite (M_bind_done _ _ _ _ _ (get_process_run a _ (with_ext x5 s4) Ha4)).
    by rewrite <- (with_ext_ext x5 x6 s4). }
  assert (sems x6 = <[killed_children_semaphore ar := (ca - length (o :: l), SEM_BIG_NUMBER)]> (sems (ext s))) as Hsx.
  { rewrite Hs6, Hs5, Hs2, Hs1, Hs. simpl. change (lock aw) with (lock ar).
    rewrite (insert_insert_ne _ (killed_children_semaphore ar) (lock ar)) by (by apply not_eq_sym).
    rewrite !insert_insert_eq. unfold mutex_free in Hfree.
    rewrite insert_id by (by rewrite lookup_insert_ne by (by apply not_eq_sym)). do 2 f_equal. lia. }
  split.
  - eapply table_ok_same; [exact Ht|done..|]. simpl. rewrite Hsx, Hs, Hm. by rewrite !lookup_insert_ne.
  - done.
  - intros r Hra. simpl. rewrite lookup_insert_ne by done. destruct (decide (r = o)) as [->|Hro].
    + rewrite lookup_insert_eq, decide_True, Ho by (by left). done.
    + rewrite lookup_insert_ne, Hoth by done. f_equal.
      destruct (decide (r ∈ l)) as [Hin|Hin]; [rewrite decide_True by (by right)|rewrite decide_False by (rewrite not_elem_of_cons; done)]; done.
  - exists t'. split; [exact Ha4|]. split; [done|]. rewrite Hperm', Hperm. done.
  - exact Hsx.
  - simpl. congruence.
Qed.

Lemma orphans_run t l s1 :
  adopted l s1 → NoDup (AvlPrint t ++ l) → a ∉ AvlPrint t →
  (∀ o, o ∈ AvlPrint t → ∃ or, processes s !! o = Some or ∧ parent or ≠ 1) →
  length (AvlPrint t ++ l) ≤ ca ≤ SEM_BIG_NUMBER →
  ∃ s2 l', RecursivelyMakeChildrenOrphans t s1 = Done (tt, s2) ∧ adopted l' s2 ∧ l' ≡ₚ AvlPrint t ++ l.
Proof.
  revert l s1. induction t as [|lt IHl d rt IHr]; intros l s1 Had Hnd Hna Hin Hlen; cbn [RecursivelyMakeChildrenOrphans].
  { by exists s1, l. }
  cbn [AvlPrint] in *. rewrite <- app_assoc in *. simpl in *.
  rewrite not_elem_of_app, not_elem_of_cons in Hna. destruct Hna as (Hnl & Hnd' & Hnr).
  assert (AvlPrint lt ++ d :: AvlPrint rt ++ l ≡ₚ d :: AvlPrint rt ++ AvlPrint lt ++ l) as Hperm.
  { rewrite <- Permutation_middle. constructor. rewrite !app_assoc. by rewrite (Permutation_app_comm (AvlPrint lt)). }
  rewrite Hperm in Hnd, Hlen. apply NoDup_cons in Hnd as [Hd Hnd].
  simpl in Hlen. rewrite length_app in Hlen.
  destruct (IHl l s1 Had) as (s2 & l2 & E2 & Had2 & Hl2).
  { by apply NoDup_app in Hnd as (_ & _ & ?). } { done. } { intros o Ho. apply Hin. set_solver. } { lia. }
  rewrite (M_bind_done _ _ _ _ _ E2).
  destruct (IHr l2 s2 Had2) as (s3 & l3 & E3 & Had3 & Hl3).
  { by rewrite Hl2. } { done. } { intros o Ho. apply Hin. set_solver. } { rewrite Hl2, length_app. lia. }
  rewrite (M_bind_done _ _ _ _ _ E3).
  destruct (Hin d) as (dr & Hdr & Hdp); [set_solver|].
  assert (l3 ≡ₚ AvlPrint rt ++ AvlPrint lt ++ l) as Hl3' by (by rewrite Hl3, Hl2).
  destruct (AdoptOrphan_run l3 s3 d dr Had3) as (s4 & E4 & Had4); [by rewrite Hl3'|done|done|done| |].
  { rewrite Hl3', length_app. lia. }
  exists s4, (d :: l3). split; [exact E4|]. split; [done|]. rewrite Hl3'. by rewrite Hperm.
Qed.
End orphans.

(** ** The dead process *)
Definition dead (pr : process) : process :=
  {| pid := pid pr; pgid := pgid pr; parent := parent pr; vas := vas pr; children := None; threads := None;
     lock := lock pr; killed_children_semaphore := killed_children_semaphore pr; fd_table := fd_table pr;
     retv := retv pr; terminated := true; p_cwd := p_cwd pr |}.

(** What becomes of each process: [p] is dead, its children are those of [a]. *)
Definition after_kill (p : Z) (a : Z) (t' : tree) (l : list Z) (r : Z) (rr : process) : process :=
  if decide (r = p) then dead rr else if decide (r = a) then unparent a rr t'
  else if decide (r ∈ l) then adopt rr else rr.

Lemma procs_ok_killed s tbl own p pr t a ar ta t' l s' :
  procs_ok NULL s tbl own → processes s !! p = Some pr → terminated pr = false → children pr = Some t →
  tbl !! 1 = Some a → processes s !! a = Some ar → terminated ar = false → children ar = Some ta →
  p ≠ a → parent ar ≠ pid pr → l ≡ₚ contents t → addr_tree t' → contents t' ≡ₚ l ++ contents ta →
  table_ok s' tbl → process_table_mutex s' = process_table_mutex s →
  (∀ r, processes s' !! r = after_kill p a t' l r <$> processes s !! r) →
  (∀ m, is_Some (sems (ext s) !! m) → is_Some (sems (ext s') !! m)) →
  (∀ r rr, processes s !! r = Some rr → sems (ext s') !! lock rr = sems (ext s) !! lock rr ∧
     ∃ c, sems (ext s') !! killed_children_semaphore rr = Some (c, SEM_BIG_NUMBER) ∧ 0 ≤ c ≤ SEM_BIG_NUMBER) →
  procs_ok NULL s' tbl own.
Proof.
  intros Hok Hp Halive Ht Hinit Ha Haa Hta Hpa Hapar Hl Hat' Hct' Htab Hmtx Hps Hlive Hsems.
  pose proof (po_children _ _ _ _ _ _ (ok_process _ _ _ _ Hok p pr Hp)) as Hpc. rewrite Halive, Ht in Hpc.
  destruct Hpc as (t0 & [= <-] & _ & Hpt).
  pose proof (po_children _ _ _ _ _ _ (ok_process _ _ _ _ Hok a ar Ha)) as Hac. rewrite Haa, Hta in Hac.
  destruct Hac as (t0 & [= <-] & _ & Hat).
  assert (pid ar = 1) as Hpid1 by (destruct (ok_live _ _ _ _ Hok _ _ Hinit) as (ar2 & Har2 & E); congruence).
  assert (pid pr ≠ 1) as Hppid.
  { intros E. apply Hpa. eapply (pid_unique NULL s tbl own); [done..|congruence]. }
  assert (∀ c, c ∈ l ↔ ∃ cr, processes s !! c = Some cr ∧ parent cr = pid pr) as Hkids by (intros c; by rewrite Hl, Hpt).
  assert (a ∉ l) as Hal by (rewrite Hkids; intros (cr & Hcr & ?); congruence).
  assert (p ∉ l) as Hpl.
  { rewrite Hkids. intros (cr & Hcr & E). rewrite Hp in Hcr. injection Hcr as <-.
    by apply (po_self _ _ _ _ _ _ (ok_process _ _ _ _ Hok p pr Hp)). }
  assert (∀ r rr, pid (after_kill p a t' l r rr) = pid rr ∧ lock (after_kill p a t' l r rr) = lock rr ∧
    killed_children_semaphore (after_kill p a t' l r rr) = killed_children_semaphore rr ∧
    parent (after_kill p a t' l r rr) = (if decide (r ∈ l) then 1 else parent rr) ∧
    terminated (after_kill p a t' l r rr) = (if decide (r = p) then true else terminated rr) ∧
    (r ≠ p → threads (after_kill p a t' l r rr) = threads rr)) as Hfields.
  { intros r rr. unfold after_kill. destruct (decide (r = p)) as [->|]; [by rewrite decide_False|].
    destruct (decide (r = a)) as [->|]; [by rewrite decide_False|]. by destruct (decide (r ∈ l)). }
  (* who is whose child now *)
  assert (∀ c k, (∃ cr, processes s' !! c = Some cr ∧ parent cr = k) ↔
     (c ∈ l ∧ k = 1) ∨ ((c ∉ l) ∧ ∃ cr, processes s !! c = Some cr ∧ parent cr = k)) as Hnow.
  { intros c k. rewrite Hps. split.
    - intros (cr' & [cr [Hc ->]]%fmap_Some & <-). destruct (Hfields c cr) as (_ & _ & _ & -> & _).
      destruct (decide (c ∈ l)); [by left|right; eauto].
    - intros [[Hcl ->]|(Hcl & cr & Hc & <-)].
      + pose proof Hcl as (cr & Hc & _)%Hkids. rewrite Hc. eexists. split; [done|].
        destruct (Hfields c cr) as (_ & _ & _ & -> & _). by rewrite decide_True.
      + rewrite Hc. eexists. split; [done|]. destruct (Hfields c cr) as (_ & _ & _ & -> & _). by rewrite decide_False. }
  split; [done|..].
  - rewrite Hmtx. apply Hok.
  - intros m Hm. apply Hlive. by apply Hok.
  - intros i r Hr. destruct (ok_live _ _ _ _ Hok i r Hr) as (rr & Hrr & E). rewrite Hps, Hrr.
    eexists. split; [done|]. destruct (Hfields r rr) as (-> & _). done.
  - intros r rr'. rewrite Hps. intros [rr [Hrr ->]]%fmap_Some.
    destruct (Hfields r rr) as (Epid & Elock & Esem & Epar & Eterm & Ethr).
    destruct (Hsems r rr Hrr) as [Hsl Hss].
    destruct (ok_process _ _ _ _ Hok r rr Hrr) as [Hn Hls Hol Hos Hlk Hsm Hch Hth Hself Hpar].
    split; rewrite ?Epid, ?Elock, ?Esem; try done.
    + by rewrite Hsl.
    + rewrite Eterm. unfold after_kill. destruct (decide (r = p)) as [->|Hrp]; [done|].
      destruct (decide (r = a)) as [->|Hra].
      * rewrite Ha in Hrr. injection Hrr as <-. rewrite Haa. exists t'. split; [done|]. split; [done|].
        intros c. change (pid (unparent a ar t')) with (pid ar). rewrite Hpid1, Hnow, Hct', elem_of_app, Hat, Hpid1.
        destruct (decide (c ∈ l)) as [Hc|Hc]; [naive_solver|]. naive_solver.
      * assert (pid rr ≠ 1 ∧ pid rr ≠ pid pr) as [Hp1 Hp2].
        { split; intros E; [apply Hra; eapply (pid_unique NULL s tbl own); [done..|congruence]|].
          apply Hrp. by eapply (pid_unique NULL s tbl own). }
        assert (children (if decide (r ∈ l) then adopt rr else rr) = children rr) as -> by (by destruct (decide (r ∈ l))).
        destruct (terminated rr); [done|].
        destruct Hch as (tr & Htr & Hatr & Hctr). exists tr. split; [done|]. split; [done|]. intros c. rewrite Hctr, Hnow.
        split; [|naive_solver]. intros (cr & Hc & Hcp). right. split; [|eauto]. rewrite Hkids. intros (cr2 & Hc2 & ?). congruence.
    + rewrite Eterm. destruct (decide (r = p)); [done|]. rewrite Ethr by done. done.
    + rewrite Epar. destruct (decide (r ∈ l)) as [Hrl|]; [|done]. intros E.
      apply Hal. assert (r = a) as <-; [|done]. eapply (pid_unique NULL s tbl own); [done..|congruence].
    + rewrite Epar. destruct (decide (r ∈ l)) as [Hrl|Hrl].
      * intros _. exists a. rewrite Hps, Ha. eexists. split; [done|]. split; [done|].
        destruct (Hfields a ar) as (_ & _ & _ & _ & -> & _). by rewrite decide_False.
      * intros Hnz. destruct (Hpar Hnz) as (q & qr & Hq & Hqr & Hqt). exists q. rewrite Hps, Hqr. eexists.
        split; [done|]. split; [done|]. destruct (Hfields q qr) as (_ & _ & _ & _ & -> & _).
        rewrite decide_False; [done|]. intros ->. apply Hrl, Hkids. exists rr. split; [done|].
        destruct (ok_live _ _ _ _ Hok _ _ Hq) as (qr2 & Hqr2 & <-). congruence.
Qed.

(** The end of the dead process's part: the parent is told. *)
Lemma notify_run s tbl q qr tq thr lt rt cq par :
  table_ok s tbl → tbl !! par = Some q → q ≠ NULL → processes s !! q = Some qr → threads qr = Some tq →
  root tq = TNode lt thr rt → thr ≠ NULL →
  sems (ext s) !! killed_children_semaphore qr = Some (cq, SEM_BIG_NUMBER) → 0 < cq →
  ∃ x, ((prnt ← GetProcessFromPid par;
         c_assert (bool_decide (prnt ≠ NULL));;
         q ← get_process prnt;
         lift (release_semaphore (killed_children_semaphore q));;
         thr ← GetArbitraryThreadFromProcess prnt;
         lift (raise_signal thr SIGCHLD));;
        thr ← lift get_thread_running;
        lift (terminate_thread thr)) s = Done (tt, with_ext x s) ∧
    sems x = <[killed_children_semaphore qr := (cq - 1, SEM_BIG_NUMBER)]> (sems (ext s)).
Proof.
  intros Ht Hpar Hqn Hq Htq Hroot Hthr Hsem Hcq.
  destruct (GetProcessFromPid_run s tbl par Ht) as (s1 & E1 & (x1 & -> & Hs1 & Hr1)). rewrite Hpar in E1. simpl in E1.
  destruct (release_taken x1 (killed_children_semaphore qr) cq SEM_BIG_NUMBER) as (x2 & E2 & Hs2 & Hr2); [by rewrite Hs1|done|].
  destruct (signal_returns x2 thr SIGCHLD Hthr) as (x3 & E3 & Hs3 & Hr3).
  destruct (running_thread x3) as (x4 & E4 & Hs4 & Hr4).
  destruct (terminate_returns x4 (running x3).1.1) as (x5 & E5 & Hs5 & _).
  exists x5. split; [|congruence].
  rewrite (M_bind_done _ _ s tt (with_ext x3 s)).
  { rewrite (M_bind_done _ _ _ _ _ (lift_run _ _ _ (with_ext x3 s) E4)).
    exact (lift_run _ _ _ (with_ext x4 s) E5). }
  rewrite (M_bind_done _ _ _ _ _ E1), bool_decide_eq_true_2 by done.
  rewrite (M_bind_done (c_assert true) _ (with_ext x1 s) tt (with_ext x1 s)) by done.
  rewrite (M_bind_done _ _ _ _ _ (get_process_run q qr (with_ext x1 s) Hq)).
  rewrite (M_bind_done _ _ _ _ _ (lift_run _ _ _ (with_ext x1 s) E2)), with_ext_ext.
  rewrite (M_bind_done _ _ _ thr (with_ext x2 s)).
  { exact (lift_run _ _ _ (with_ext x2 s) E3). }
  unfold GetArbitraryThreadFromProcess. rewrite (M_bind_done _ _ _ _ _ (get_process_run q qr (with_ext x2 s) Hq)).
  unfold deref. rewrite Htq. rewrite (M_bind_done (mret tq) _ (with_ext x2 s) tq (with_ext x2 s)) by done. by rewrite Hroot.
Qed.

(** ** The helper *)
Section helper.
Context (s : procs X) (tbl : gmap Z Z) (own : gmap Z (Z * bool)) (p : Z) (pr : process) (t tp : tree).
Context (a : Z) (ar : process) (ta : tree) (ca : Z).
Hypothesis Hok : procs_ok NULL s tbl own.
Hypothesis Hp : processes s !! p = Some pr.
Hypothesis Halive : terminated pr = false.
Hypothesis Ht : children pr = Some t.
Hypothesis Htp : threads pr = Some tp.
Hypothesis Hnobody : (running (ext s)).1.2 = NULL.
Hypothesis Hvas : vas pr ≠ (running (ext s)).2.
Hypothesis Hself : (running (ext s)).1.1 ∉ contents tp.
Hypothesis Hinit : tbl !! 1 = Some a.
Hypothesis Ha : processes s !! a = Some ar.
Hypothesis Haa : terminated ar = false.
Hypothesis Hta : children ar = Some ta.
Hypothesis Hpa : p ≠ a.
Hypothesis Hapar : parent ar ≠ pid pr.
Hypothesis Hca : sems (ext s) !! killed_children_semaphore ar = Some (ca, SEM_BIG_NUMBER).
Hypothesis Hroom : length (contents t) < ca.

(** [s8] is the state in which the parent is told, or the process reaped. *)
Record died (t' : tree) (l : list Z) s8 : Prop := {
  di_orphans : l ≡ₚ contents t;
  di_tree : addr_tree t' ∧ contents t' ≡ₚ l ++ contents ta;
  di_table : table_ok s8 tbl;
  di_mutex : process_table_mutex s8 = process_table_mutex s;
  di_processes r : processes s8 !! r = after_kill p a t' l r <$> processes s !! r;
  di_sems : sems (ext s8) = <[killed_children_semaphore ar := (ca - length (contents t), SEM_BIG_NUMBER)]> (sems (ext s));
}.

Lemma helper_dies :
  ∃ s8 t' l, died t' l s8 ∧ KillProcessHelper p s =
    ((if decide (parent pr = 0) then ReapProcess p
      else
        prnt ← GetProcessFromPid (parent pr);
        c_assert (bool_decide (prnt ≠ NULL));;
        q ← get_process prnt;
        lift (release_semaphore (killed_children_semaphore q));;
        thr ← GetArbitraryThreadFromProcess prnt;
        lift (raise_signal thr SIGCHLD));;
     thr ← lift get_thread_running;
     lift (terminate_thread thr)) s8.
Proof.
  pose proof (ok_process _ _ _ _ Hok p pr Hp) as Hpo. pose proof (po_children _ _ _ _ _ _ Hpo) as Hpc.
  rewrite Halive, Ht in Hpc. destruct Hpc as (t0 & [= <-] & Hat & Hpt).
  destruct (adopter_facts s tbl own a ar ta Hok Hinit Ha Haa Hta) as (Hpid1 & Han & _ & _ & _ & _ & _ & Hkm).
  assert (pid pr ≠ 1) as Hppid.
  { intros E. apply Hpa. eapply (pid_unique NULL s tbl own); [done..|congruence]. }
  assert (p ∉ contents t) as Hpt'.
  { rewrite Hpt. intros (cr & Hcr & E). rewrite Hp in Hcr. injection Hcr as <-. by apply (po_self _ _ _ _ _ _ Hpo). }
  unfold KillProcessHelper. rewrite (M_bind_done _ _ _ _ _ (get_process_run p pr s Hp)).
  destruct (GetProcess_run s) as (x1 & E1 & (x1' & Ex & Hs1 & Hr1)). injection Ex as <-.
  rewrite (M_bind_done _ _ _ _ _ E1), Hnobody.
  rewrite bool_decide_eq_true_2 by done. rewrite (M_bind_done (c_assert true) _ (with_ext x1 s) tt (with_ext x1 s)) by done.
  destruct (running_vas x1) as (x2 & E2 & Hs2 & Hr2).
  rewrite (M_bind_done _ _ _ _ _ (lift_run _ _ _ (with_ext x1 s) E2)), with_ext_ext.
  rewrite Hr1, bool_decide_eq_true_2 by (by apply not_eq_sym).
  rewrite (M_bind_done (c_assert true) _ (with_ext x2 s) tt (with_ext x2 s)) by done.
  rewrite (M_bind_done (deref (threads pr)) _ (with_ext x2 s) tp (with_ext x2 s)) by (by rewrite Htp).
  destruct (kill_threads_quiet (root tp) (with_ext x2 s)) as (s3 & E3 & (x3 & -> & Hs3 & Hr3)).
  { simpl. by rewrite Hr2, Hr1. }
  rewrite (M_bind_done _ _ _ _ _ E3), with_ext_ext. simpl in Hs3, Hr3. set (s3 := with_ext x3 s).
  assert (sems x3 = sems (ext s)) as Hsx3 by congruence.
  assert (procs_ok NULL s3 tbl own) as Hok3.
  { eapply procs_ok_quiet; [|exact Hok]. exists x3. split; [done|split; congruence]. }
  rewrite (M_bind_done _ _ _ _ _ (get_process_run p pr s3 Hp)).
  rewrite (M_bind_done (deref (children pr)) _ s3 t s3) by (by rewrite Ht).
  assert (ca ≤ SEM_BIG_NUMBER) as Hcab.
  { destruct (po_sem _ _ _ _ _ _ (ok_process _ _ _ _ Hok a ar Ha)) as (c & Hc & Hcr). rewrite Hca in Hc. injection Hc as <-. lia. }
  destruct (orphans_run s3 tbl own a ar ta ca Hok3 Hinit Ha Haa Hta ltac:(simpl; by rewrite Hsx3) (root t) [] s3)
    as (s4 & l & E4 & [Htab4 Hmtx4 Hoth4 (t' & Ha4 & Hat' & Hct') Hs4 Hr4] & Hl).
  { apply (adopted_nil s3 tbl own a ar ta ca Hok3 Hinit Ha Haa Hta). simpl. by rewrite Hsx3. }
  { rewrite app_nil_r. by apply (set_tree_nodup AvlDefaultComparator t (proj1 Hat)). }
  { intros Hin. apply Hpt in Hin as (cr & Hcr & E). congruence. }
  { intros o (or & Hor & E)%Hpt. exists or. split; [done|congruence]. }
  { rewrite app_nil_r. fold (contents t). lia. }
  rewrite app_nil_r in Hl. fold (contents t) in Hl. rewrite (M_bind_done _ _ _ _ _ E4).
  assert (p ∉ l) as Hpl by by rewrite Hl.
  assert (processes s4 !! p = Some pr) as Hp4.
  { rewrite Hoth4 by done. rewrite decide_False by done. simpl. by rewrite Hp. }
  set (pr1 := {| pr with threads := None |}). set (pr2 := {| pr1 with children := None |}).
  rewrite (update_run p (λ x, {| x with threads := None |}) pr _ s4 Hp4). fold pr1.
  set (s5 := with_processes (<[p := pr1]> (processes s4)) s4).
  rewrite (M_bind_done _ _ _ _ _ (get_process_run p pr1 s5 (lookup_insert_eq _ _ _))). fold pr2.
  set (s6 := with_processes (<[p := pr2]> (processes s5)) s5).
  rewrite (M_bind_done (set_process p pr2) _ s5 tt s6) by done.
  destruct (destroy_vas_returns (ext s4) (vas pr)) as (x7 & E7 & Hs7 & Hr7); [rewrite Hr4; simpl; congruence|].
  change (vas pr1) with (vas pr). rewrite (M_bind_done _ _ _ _ _ (lift_run _ _ _ s6 E7)).
  rewrite (M_bind_done _ _ _ _ _ (get_process_run p pr2 (with_ext x7 s6) (lookup_insert_eq _ _ _))).
  fold (dead pr). set (s8 := with_processes (<[p := dead pr]> (processes s6)) (with_ext x7 s6)).
  rewrite (M_bind_done (set_process p (dead pr)) _ (with_ext x7 s6) tt s8) by done.
  change (parent pr2) with (parent pr).
  assert (processes s8 = <[p := dead pr]> (processes s4)) as Hps8 by (simpl; by rewrite !insert_insert_eq).
  assert (∀ r, processes s8 !! r = after_kill p a t' l r <$> processes s !! r) as Hfin.
  { intros r. rewrite Hps8. unfold after_kill. destruct (decide (r = p)) as [->|Hrp].
    { by rewrite lookup_insert_eq, Hp. }
    rewrite lookup_insert_ne by done. destruct (decide (r = a)) as [->|Hra]; [by rewrite Ha4, Ha|].
    rewrite Hoth4 by done. simpl. by destruct (decide (r ∈ l)). }
  assert (sems (ext s8) = <[killed_children_semaphore ar := (ca - length (contents t), SEM_BIG_NUMBER)]> (sems (ext s))) as Hs8.
  { simpl. rewrite Hs7, Hs4. simpl. by rewrite Hl, Hsx3. }
  assert (table_ok s8 tbl) as Htab8.
  { eapply table_ok_same; [exact Htab4|done..|]. simpl. by rewrite Hs7. }
  exists s8, t', l. split; [|reflexivity].
  split; [done|done|done| |done|done]. change (process_table_mutex s8) with (process_table_mutex s4). by rewrite Hmtx4.
Qed.

(** ** A process with a parent *)
Section notify.
Context (q : Z) (qr : process) (tq : tree) (lt rt : tree_node) (thr cq : Z).
Hypothesis Hparent : parent pr ≠ 0.
Hypothesis Hq : tbl !! parent pr = Some q.
Hypothesis Hqr : processes s !! q = Some qr.
Hypothesis Htq : threads qr = Some tq.
Hypothesis Hroot : root tq = TNode lt thr rt.
Hypothesis Hthr : thr ≠ NULL.
Hypothesis Hcq : sems (ext s) !! killed_children_semaphore qr = Some (cq, SEM_BIG_NUMBER).
Hypothesis Hroomq : 0 < cq.

Lemma KillProcessHelper_run :
  ∃ s' t' l, KillProcessHelper p s = Done (tt, s') ∧ procs_ok NULL s' tbl own ∧ l ≡ₚ contents t ∧
    (∀ r, processes s' !! r = after_kill p a t' l r <$> processes s !! r) ∧
    sems (ext s') !! killed_children_semaphore qr =
      Some ((if decide (q = a) then ca - length (contents t) else cq) - 1, SEM_BIG_NUMBER).
Proof.
  pose proof (ok_process _ _ _ _ Hok p pr Hp) as Hpo.
  assert (q ≠ p) as Hqp.
  { intros ->. apply (po_self _ _ _ _ _ _ Hpo). destruct (ok_live _ _ _ _ Hok _ _ Hq) as (qr2 & Hqr2 & E). congruence. }
  destruct helper_dies as (s8 & t' & l & [Hl [Hat' Hct'] Htab8 Hmtx8 Hfin Hs8] & E8). rewrite decide_False in E8 by done.
  destruct (adopter_facts s tbl own a ar ta Hok Hinit Ha Haa Hta) as (_ & _ & _ & _ & _ & _ & _ & Hkm).
  assert (ca ≤ SEM_BIG_NUMBER) as Hcab.
  { destruct (po_sem _ _ _ _ _ _ (ok_process _ _ _ _ Hok a ar Ha)) as (c & Hc & Hcr). rewrite Hca in Hc. injection Hc as <-. lia. }
  set (qr' := after_kill p a t' l q qr).
  assert (processes s8 !! q = Some qr') as Hq8 by by rewrite Hfin, Hqr.
  assert (threads qr' = threads qr ∧ killed_children_semaphore qr' = killed_children_semaphore qr) as [Eqt Eqs].
  { unfold qr', after_kill. rewrite decide_False by done. destruct (decide (q = a)); [done|]. by destruct (decide (q ∈ l)). }
  set (cq' := if decide (q = a) then ca - length (contents t) else cq).
  assert (∀ r rr, r ≠ a → processes s !! r = Some rr → killed_children_semaphore ar ≠ killed_children_semaphore rr) as Hsne.
  { intros r rr Hra Hrr. apply not_eq_sym. by apply (owners_differ NULL s tbl own r a rr ar). }
  destruct (notify_run s8 tbl q qr' tq thr lt rt cq' (parent pr) Htab8 Hq) as (x9 & E9 & Hs9); try done.
  { by apply (ok_process _ _ _ _ Hok q qr). } { by rewrite Eqt. }
  { rewrite Eqs, Hs8. unfold cq'. destruct (decide (q = a)) as [->|Hqa].
    - rewrite Ha in Hqr. injection Hqr as <-. apply lookup_insert_eq.
    - by rewrite lookup_insert_ne by by apply (Hsne q qr). }
  { unfold cq'. destruct (decide (q = a)); lia. }
  rewrite Eqs, Hs8 in Hs9. exists (with_ext x9 s8), t', l. split; [by rewrite E8|].
  split; [|split; [done|split; [exact Hfin|simpl; rewrite Hs9; apply lookup_insert_eq]]].
  assert (∀ r rr, processes s !! r = Some rr → lock rr ≠ killed_children_semaphore ar ∧ lock rr ≠ killed_children_semaphore qr ∧
    killed_children_semaphore rr ≠ process_table_mutex s) as Hne.
  { intros r rr Hrr. destruct (owners_differ NULL s tbl own r a rr ar Hok Hrr Ha) as (? & ? & ? & _).
    destruct (owners_differ NULL s tbl own r q rr qr Hok Hrr Hqr) as (? & _). done. }
  assert (killed_children_semaphore qr ≠ process_table_mutex s) as Hqm by by eapply Hne.
  eapply (procs_ok_killed s tbl own p pr t a ar ta t' l); try done.
  - eapply table_ok_same; [exact Htab8|done..|]. simpl. by rewrite Hs9, Hmtx8, lookup_insert_ne, Hs8, lookup_insert_ne.
  - intros m Hm. simpl. rewrite Hs9, !lookup_insert_is_Some. destruct (decide (killed_children_semaphore qr = m)); [by left|].
    right. split; [done|]. destruct (decide (killed_children_semaphore ar = m)); [by left|by right].
  - intros r rr Hrr. destruct (Hne r rr Hrr) as (H1 & H2 & _). simpl. rewrite Hs9.
    split; [by rewrite !lookup_insert_ne by (by apply not_eq_sym)|].
    destruct (decide (r = q)) as [->|Hrq].
    + rewrite Hqr in Hrr. injection Hrr as <-. eexists. rewrite lookup_insert_eq. split; [done|].
      destruct (po_sem _ _ _ _ _ _ (ok_process _ _ _ _ Hok q qr Hqr)) as (c & Hc & Hcr). rewrite Hcq in Hc. injection Hc as <-.
      unfold cq'. destruct (decide (q = a)); lia.
    + rewrite lookup_insert_ne by (apply not_eq_sym; by apply (owners_differ NULL s tbl own r q rr qr)).
      destruct (decide (r = a)) as [->|Hra].
      * rewrite Ha in Hrr. injection Hrr as <-. eexists. rewrite lookup_insert_eq. split; [done|]. lia.
      * rewrite lookup_insert_ne by (by apply (Hsne r rr)). by apply (ok_process _ _ _ _ Hok r rr).
Qed.
End notify.
End helper.

Lemma first_zombie_only s k (t : tree_node) z :
  z ∈ AvlPrint t → is_zombie s k z → (∀ c, c ∈ AvlPrint t → is_zombie s k c → c = z) → first_zombie s k t = Some z.
Proof.
  intros Hin Hz Hone. pose proof (first_zombie_spec s k t) as H. destruct (first_zombie s k t) as [c|].
  - destruct H. f_equal. by apply Hone.
  - by destruct (H z Hin Hz).
Qed.

(** C17: ending a process that has a parent: it becomes a zombie without threads and
    children, each of its children becomes a child of the first process, the
    semaphore of its parent gains one unit for it, the process tree is well-formed
    again, and a wait of the parent for it will find it. *)
Theorem KillProcessHelper_correct s tbl own p pr t tp a ar ta ca q qr tq lt thr rt cq
  (Hok : procs_ok NULL s tbl own) (Hp : processes s !! p = Some pr) (Halive : terminated pr = false)
  (Ht : children pr = Some t) (Htp : threads pr = Some tp)
  (Hnobody : (running (ext s)).1.2 = NULL) (Hvas : vas pr ≠ (running (ext s)).2)
  (Hself : (running (ext s)).1.1 ∉ contents tp)
  (Hinit : tbl !! 1 = Some a) (Ha : processes s !! a = Some ar) (Haa : terminated ar = false) (Hta : children ar = Some ta)
  (Hpa : p ≠ a) (Hapar : parent ar ≠ pid pr)
  (Hca : sems (ext s) !! killed_children_semaphore ar = Some (ca, SEM_BIG_NUMBER)) (Hroom : length (contents t) < ca)
  (Hparent : parent pr ≠ 0) (Hq : tbl !! parent pr = Some q) (Hqr : processes s !! q = Some qr)
  (Htq : threads qr = Some tq) (Hroot : root tq = TNode lt thr rt) (Hthr : thr ≠ NULL)
  (Hcq : sems (ext s) !! killed_children_semaphore qr = Some (cq, SEM_BIG_NUMBER)) (Hroomq : 0 < cq) :
  ∃ s' t' l, KillProcessHelper p s = Done (tt, s') ∧ procs_ok NULL s' tbl own ∧ l ≡ₚ contents t ∧
    (∀ r, processes s' !! r = after_kill p a t' l r <$> processes s !! r) ∧
    sems (ext s') !! killed_children_semaphore qr =
      Some ((if decide (q = a) then ca - length (contents t) else cq) - 1, SEM_BIG_NUMBER) ∧
    ∃ qr' tq', processes s' !! q = Some qr' ∧ children qr' = Some tq' ∧ first_zombie s' (pid pr) (root tq') = Some p.
Proof.
  destruct (KillProcessHelper_run s tbl own p pr t tp a ar ta ca Hok Hp Halive Ht Htp Hnobody Hvas Hself Hinit Ha Haa Hta
    Hpa Hapar Hca Hroom q qr tq lt rt thr cq) as (s' & t' & l & E & Hok' & Hl & Hps & Hsem); [done..|].
  exists s', t', l. split_and!; [done..|].
  assert (processes s' !! p = Some (dead pr)) as Hp'.
  { rewrite Hps, Hp. simpl. unfold after_kill. by rewrite decide_True. }
  pose proof (ok_process _ _ _ _ Hok' p _ Hp') as Hpo.
  destruct (po_parent _ _ _ _ _ _ Hpo Hparent) as (q2 & qr' & Hq2 & Hqr' & Hlive).
  simpl in Hq2. rewrite Hq in Hq2. injection Hq2 as <-.
  pose proof (po_children _ _ _ _ _ _ (ok_process _ _ _ _ Hok' q qr' Hqr')) as Hch. rewrite Hlive in Hch.
  destruct Hch as (tq' & Htq' & _ & Hct). exists qr', tq'. split; [done|]. split; [done|]. apply first_zombie_only.
  - apply Hct. exists (dead pr). split; [done|]. simpl.
    destruct (ok_live _ _ _ _ Hok' _ _ Hq) as (qr2 & Hqr2 & <-). congruence.
  - unfold is_zombie. rewrite Hp'. simpl. auto.
  - intros c _ Hz. unfold is_zombie in Hz. destruct (processes s' !! c) as [cr|] eqn:Hc; [|done].
    destruct Hz as [_ [E'|E']].
    + eapply (pid_unique NULL s' tbl own); done.
    + pose proof (pid_positive _ _ _ _ _ _ Hok Hp). lia.
Qed.
End kill.
