(* ===== verification/ProcessRun.v ===== *)
(** * A run: a process is created, ends, and is waited for

    The other components of the kernel as counting semaphores and a record of who
    runs; they keep the laws. *)

From S2P Require Import Prelude Tree Process ProcessTable ProcessInv ProcessWait ProcessCreate ProcessKill.

(** ** Giving a process a thread *)
Section thread.
Context {X : Type} {AL : Allocator} {K : Kernel X} {KL : KernelLaws X}.
Implicit Types (s : procs X) (tbl : gmap Z Z) (own : gmap Z (Z * bool)).

Lemma procs_ok_threads s tbl own p pr t' :
  procs_ok NULL s tbl own → processes s !! p = Some pr → addr_tree t' →
  procs_ok NULL (with_processes (<[p := {| pr with threads := Some t' |}]> (processes s)) s) tbl own.
Proof.
  intros Hok Hp Ht'. set (pr' := {| pr with threads := Some t' |}).
  assert (∀ r rr', <[p := pr']> (processes s) !! r = Some rr' → ∃ rr, processes s !! r = Some rr ∧
    pid rr' = pid rr ∧ parent rr' = parent rr ∧ terminated rr' = terminated rr ∧ lock rr' = lock rr ∧
    killed_children_semaphore rr' = killed_children_semaphore rr ∧ children rr' = children rr) as Hback.
  { intros r rr' [[<- <-]|[Hr Hrr]]%lookup_insert_Some; [exists pr|exists rr']; by split_and!. }
  assert (∀ r rr, processes s !! r = Some rr → ∃ rr', <[p := pr']> (processes s) !! r = Some rr' ∧
    pid rr' = pid rr ∧ parent rr' = parent rr ∧ terminated rr' = terminated rr) as Hfwd.
  { intros r rr Hr. destruct (decide (p = r)) as [<-|Hne].
    - rewrite lookup_insert_eq. rewrite Hp in Hr. injection Hr as <-. by exists pr'.
    - rewrite lookup_insert_ne by done. by exists rr. }
  split; [by eapply table_ok_same; [apply Hok|..]|apply Hok|apply (ok_own_live _ _ _ _ Hok)| |].
  - intros i r Hr. destruct (ok_live _ _ _ _ Hok i r Hr) as (rr & Hrr & E).
    destruct (Hfwd r rr Hrr) as (rr' & Hrr' & E1 & _). exists rr'. split; [done|congruence].
  - intros r rr' Hr. destruct (Hback r rr' Hr) as (rr & Hrr & E1 & E2 & E3 & E4 & E5 & E6).
    destruct (ok_process _ _ _ _ Hok r rr Hrr) as [Hn Hls Hol Hos Hlk Hsm Hch Hth Hself Hpar].
    split; rewrite ?E1, ?E2, ?E3, ?E4, ?E5, ?E6; try done.
    + destruct (terminated rr); [done|]. destruct Hch as (t & Ht & Hat & Hct). exists t. split; [done|]. split; [done|].
      intros c. rewrite Hct. split.
      * intros (cr & Hc & Hcp). destruct (Hfwd c cr Hc) as (cr' & Hc' & _ & E & _). exists cr'. split; [done|congruence].
      * intros (cr' & Hc & Hcp). destruct (Hback c cr' Hc) as (cr & Hc' & _ & E & _). exists cr. split; [done|congruence].
    + intros Hal. simpl in Hr. apply lookup_insert_Some in Hr as [[_ <-]|[_ Hr]]; [by exists t'|].
      rewrite Hrr in Hr. injection Hr as <-. by apply Hth.
    + intros Hnz. destruct (Hpar Hnz) as (q & qr & Hq & Hqr & Hqt). destruct (Hfwd q qr Hqr) as (qr' & Hqr' & _ & _ & E).
      exists q, qr'. split; [done|]. split; [done|congruence].
Qed.

(** Only the semaphores matter. *)
Lemma procs_ok_ext s x tbl own : procs_ok NULL s tbl own → sems x = sems (ext s) → procs_ok NULL (with_ext x s) tbl own.
Proof.
  intros Hok Hs. eapply procs_ok_sems; [done|..]; rewrite Hs; try done; intros p pr Hp; by apply (ok_process _ _ _ _ Hok p pr).
Qed.
End thread.

(** ** The rest of the kernel as counters *)
Record counters := Counters { c_sems : gmap Z (Z * Z); c_running : Z * Z * Z }.

Definition put_sem (m : Z) (v : Z * Z) : M counters unit :=
  modify (λ x, Counters (<[m := v]> (c_sems x)) (c_running x)).

#[local] Existing Instance bump_allocator.

#[local] Instance counting_kernel : Kernel counters := {|
  create_semaphore mx c := x ← get; let m := pick (dom (c_sems x)) in put_sem m (c, mx);; mret m;
  acquire_semaphore m t :=
    x ← get;
    '(c, mx) ← deref (c_sems x !! m);
    if decide (c < mx) then put_sem m (c + 1, mx);; mret 0
    else if decide (t = 0) then mret EAGAIN else block;
  release_semaphore m :=
    x ← get;
    '(c, mx) ← deref (c_sems x !! m);
    if decide (0 < c) then put_sem m (c - 1, mx) else panic PANIC_ASSERTION_FAILURE;
  destroy_semaphore m flags :=
    x ← get;
    '(c, mx) ← deref (c_sems x !! m);
    if decide (flags = SEM_REQUIRE_FULL ∧ c ≠ mx) then mret EBUSY
    else put (Counters (delete m (c_sems x)) (c_running x));; mret 0;
  get_thread_running := gets (λ x, (c_running x).1.1);
  get_process_running := gets (λ x, (c_running x).1.2);
  terminate_thread _ := mret tt;
  is_terminating _ := mret false;
  set_thread_process _ _ := mret tt;
  create_thread _ _ _ := mret 0;
  create_fork_thread _ _ := mret tt;
  create_killer_thread _ := mret tt;
  raise_signal t _ := if decide (t = NULL) then fault else mret tt;
  create_vas := mret 7;
  copy_vas _ := mret tt;
  destroy_vas v := x ← get; if decide (v = (c_running x).2) then panic PANIC_VAS_TRIED_TO_SELF_DESTRUCT else mret tt;
  get_vas := gets (λ x, (c_running x).2);
  create_fd_table := mret 0;
  destroy_fd_table _ := mret tt;
  reference_vnode _ := mret tt;
  dereference_vnode _ := mret tt;
|}.

#[local] Instance counting_laws : KernelLaws counters.
Proof.
  refine (@Build_KernelLaws counters counting_kernel c_sems c_running _ _ _ _ _ _ _ _ _ _ _ _ _ _ _ _ _ _);
    intros; cbn; mred.
  - rewrite H. cbn. rewrite decide_True by done. by eexists.
  - rewrite H. cbn. rewrite decide_False by lia. by eexists _, _.
  - rewrite H. cbn. rewrite decide_True by done. by eexists.
  - eexists _, _. split; [done|]. split; [apply not_elem_of_dom, (@pick_fresh bump_allocator)|done].
  - rewrite H. cbn. destruct (decide (c = mx)) as [->|Hne].
    + rewrite decide_False by naive_solver. eexists _, _. split; [done|]. by split_and!.
    + rewrite decide_True by done. eexists _, _. split; [done|]. by split_and!.
  - by exists x.
  - by exists x.
  - by exists x.
  - by exists x.
  - by exists false, x.
  - rewrite decide_False by done. by exists x.
  - by exists x.
  - by exists 7, x.
  - rewrite decide_False by done. by exists x.
  - by exists 0, x.
  - by exists x.
  - by exists x.
  - by exists x.
Defined.

(** ** The run *)
Definition empty_kernel (p : Z) (v : Z) : counters := Counters {[ 1 := (0, 1) ]} (9, p, v).
Definition no_process : procs counters := Procs ∅ ∅ TreeCreate 1 1 (empty_kernel NULL 0).

Lemma no_process_ok : procs_ok NULL no_process ∅ {[ 1 := (NULL, false) ]}.
Proof.
  split.
  - split.
    + apply set_tree_empty.
    + intros n. simpl. rewrite lookup_empty, is_Some_alt. simpl. split; [by intros ?%not_elem_of_nil|done].
    + apply lookup_empty.
    + intros i p. cbn. split; [by intros ?%lookup_empty_Some|]. by intros [n ?%lookup_empty_Some].
    + by intros i [? ?%lookup_empty_Some].
    + done.
    + reflexivity.
  - reflexivity.
  - intros m [? [<- _]%lookup_singleton_Some]. by eexists.
  - by intros i p ?%lookup_empty_Some.
  - cbn. by intros p pr ?%lookup_empty_Some.
Qed.

Definition run_or {A} (m : M (procs counters) A) (s : procs counters) : procs counters :=
  match m s with Done (_, s') => s' | _ => s end.

(** The first process, with a thread; its child; the child's killer runs. *)
Definition with_init : procs counters := run_or (CreateProcess 0) no_process.
Definition with_child : procs counters := run_or (CreateProcess 1) with_init.
Definition init_process : process :=
  default (Process 0 0 0 0 None None 0 0 0 0 false 0) (processes with_child !! 1).
Definition init_threads : tree := Tree 1 (TNode Null 5 Null) NULL AvlDefaultComparator.
Definition with_thread : procs counters :=
  with_processes (<[1 := {| init_process with threads := Some init_threads |}]> (processes with_child)) with_child.

Definition created (tbl : gmap Z Z) (s : procs counters) : Prop := ∃ own, procs_ok NULL s tbl own.

Lemma with_init_ok : created {[ 1 := 1 ]} with_init.
Proof.
  destruct (CreateProcess_run no_process ∅ {[ 1 := (NULL, false) ]} 0 no_process_ok) as (p & np & s' & own' & E & _ & Hp & _ & _ & _ & _ & _ & _ & _ & _ & Hok & _);
    [done|done|].
  exists own'. unfold with_init, run_or. rewrite E.
  assert (CreateProcess 0 no_process = Done (1, with_init)) as E' by (vm_compute; reflexivity).
  assert (p = 1) as -> by congruence. exact Hok.
Qed.

(** Evaluate an equation, an inequality or a difference of the run. *)
Ltac evaluate :=
  match goal with
  | |- _ ≠ _ => vm_compute; congruence
  | |- @eq _ _ _ => vm_compute; reflexivity
  | |- (_ < _)%Z => vm_compute; reflexivity
  end.

Definition lookup_process (s : procs counters) (p : Z) : process :=
  default (Process 0 0 0 0 None None 0 0 0 0 false 0) (processes s !! p).

Lemma with_child_ok : created (<[2 := 2]> {[ 1 := 1 ]}) with_child.
Proof.
  destruct with_init_ok as [own Hok].
  destruct (CreateProcess_run with_init _ own 1 Hok) as (p & np & s' & own' & E & _ & _ & _ & _ & _ & _ & _ & _ & _ & _ & Hok' & _).
  - vm_compute; reflexivity.
  - intros _. exists 1, (lookup_process with_init 1). split; [reflexivity|split; vm_compute; reflexivity].
  - assert (CreateProcess 1 with_init = Done (2, with_child)) as E' by (vm_compute; reflexivity).
    assert (p = 2) as -> by congruence. assert (s' = with_child) as -> by congruence.
    exists own'. exact Hok'.
Qed.

Lemma with_thread_ok : created (<[2 := 2]> {[ 1 := 1 ]}) with_thread.
Proof.
  destruct with_child_ok as [own Hok]. exists own. apply procs_ok_threads; [done|vm_compute; reflexivity|].
  split; [|done]. split; [|repeat constructor|done]. simpl. split_and!; done || lia.
Qed.

(** [s] with another thread of another process running. *)
Definition running_as (r : Z * Z * Z) (s : procs counters) : procs counters :=
  with_ext (Counters (c_sems (ext s)) r) s.
Lemma running_as_ok r tbl s : created tbl s → created tbl (running_as r s).
Proof. intros [own Hok]. exists own. by apply procs_ok_ext. Qed.

Definition after_death : procs counters := run_or (KillProcessHelper 2) with_thread.

Definition tree_of (o : option tree) : tree := default TreeCreate o.

Lemma KillProcessHelper_correct_witness :
  ∃ own s' t' l, KillProcessHelper 2 with_thread = Done (tt, s') ∧ procs_ok NULL s' (<[2 := 2]> {[ 1 := 1 ]}) own ∧ l ≡ₚ [] ∧
    (∀ r, processes s' !! r = after_kill 2 1 t' l r <$> processes with_thread !! r) ∧
    sems (ext s') !! killed_children_semaphore (lookup_process with_thread 1) = Some (SEM_BIG_NUMBER - 1, SEM_BIG_NUMBER).
Proof.
  destruct with_thread_ok as [own Hok].
  set (pr := lookup_process with_thread 2). set (ar := lookup_process with_thread 1).
  destruct (KillProcessHelper_correct with_thread _ own 2 pr TreeCreate TreeCreate 1 ar (tree_of (children ar)) SEM_BIG_NUMBER
    1 ar init_threads Null 5 Null SEM_BIG_NUMBER Hok) as (s' & t' & l & E & Hok' & Hl & Hps & Hs & _).
  all: try evaluate.
  - apply not_elem_of_nil.
  - exists own, s', t', l. rewrite decide_True in Hs by done. split_and!; [exact E|exact Hok'|exact Hl|exact Hps|].
    rewrite Hs. reflexivity.
Defined.

Lemma after_death_ok : created (<[2 := 2]> {[ 1 := 1 ]}) after_death.
Proof.
  destruct with_thread_ok as [own Hok]. exists own.
  set (pr := lookup_process with_thread 2). set (ar := lookup_process with_thread 1).
  destruct (KillProcessHelper_run with_thread (<[2 := 2]> {[ 1 := 1 ]}) own 2 pr TreeCreate TreeCreate 1 ar (tree_of (children ar))
    SEM_BIG_NUMBER Hok) with (q := 1) (qr := ar) (tq := init_threads) (lt := Null) (rt := Null) (thr := 5) (cq := SEM_BIG_NUMBER)
    as (s' & t' & l & E & Hok' & _).
  all: try evaluate.
  - apply not_elem_of_nil.
  - unfold after_death, run_or. by rewrite E.
Qed.

(** The parent runs, and finds its dead child; or asks for another. *)
Definition parent_runs : procs counters := running_as (5, 1, 0) after_death.

Lemma WaitProcess_reaps_witness :
  ∃ own s', WaitProcess 1 (-1) 77 0 parent_runs = Done ((2, 0), s') ∧
    procs_ok NULL s' (delete 2 (<[2 := 2]> {[ 1 := 1 ]})) own ∧ processes s' !! 2 = None.
Proof.
  destruct (running_as_ok (5, 1, 0) _ _ after_death_ok) as [own Hok].
  pose proof (WaitProcess_reaps parent_runs _ own 1 (lookup_process parent_runs 1)
    (tree_of (children (lookup_process parent_runs 1))) (SEM_BIG_NUMBER - 1) 0 (-1) 77 0 2 (lookup_process parent_runs 2) Hok) as H.
  assert (sems (ext parent_runs) !! killed_children_semaphore (lookup_process parent_runs 2) = Some (SEM_BIG_NUMBER, SEM_BIG_NUMBER)) as Hz
    by (vm_compute; reflexivity).
  rewrite Hz, decide_True in H by done.
  destruct H as (s' & E & Hok' & Hgone & _); try evaluate.
  exists (delete (killed_children_semaphore (lookup_process parent_runs 2)) own), s'. split_and!; [|exact Hok'|exact Hgone].
  assert ((pid (lookup_process parent_runs 2), retv (lookup_process parent_runs 2)) = (2, 0)) as Hr by (vm_compute; reflexivity).
  rewrite Hr in E. exact E.
Defined.

Lemma WaitProcess_polls_witness :
  ∃ own s', WaitProcess 2 5 77 WNOHANG parent_runs = Done ((0, 77), s') ∧
    procs_ok NULL s' (<[2 := 2]> {[ 1 := 1 ]}) own ∧ processes s' = processes parent_runs ∧
    sems (ext s') = sems (ext parent_runs).
Proof.
  destruct (running_as_ok (5, 1, 0) _ _ after_death_ok) as [own Hok]. exists own.
  destruct (WaitProcess_polls parent_runs _ own 1 (lookup_process parent_runs 1)
    (tree_of (children (lookup_process parent_runs 1))) (SEM_BIG_NUMBER - 1) WNOHANG 5 77 2 Hok) as (s' & E & Hok' & Hps & Hs);
    try evaluate.
  rewrite decide_False in Hs by done. exists s'. split_and!; [exact E|exact Hok'|exact Hps|exact Hs].
Defined.

Lemma CreateProcess_correct_witness :
  ∃ p np s' own', CreateProcess 0 no_process = Done (p, s') ∧ processes s' !! p = Some np ∧ pid np = 1 ∧
    procs_ok NULL s' {[ 1 := p ]} own'.
Proof.
  destruct (CreateProcess_correct no_process ∅ {[ 1 := (NULL, false) ]} 0 no_process_ok)
    as (p & np & s' & own' & E & _ & Hp & Hpid & _ & _ & _ & _ & _ & _ & _ & _ & Hok & _); [done|done|].
  exists p, np, s', own'. split_and!; [exact E|exact Hp|exact Hpid|exact Hok].
Defined.
