(* ===== verification/Irql.v ===== *)
(** * irq/irql.c, sync/spinlock.c, irq/irq.c and the x86 interrupt masking

    One processor: its IRQL, the queue of deferred calls (the max-heap of
    [HeapAdt]), the spinlocks, the table of interrupt handlers (lists of
    [LinkedList]) and the two 8259 interrupt controllers with the CPU's
    interrupt flag. Handlers are function pointers the kernel is given, so the
    code behind an address is a parameter of the model; so is [Schedule]. *)

From Stdlib Require Import Sorted.
From S2P Require Import Prelude LinkedList HeapAdt.

(** ** Constants of include/irql.h and arch/x86/include/pic.h *)
Definition IRQL_STANDARD := 0.
Definition IRQL_STANDARD_HIGH_PRIORITY := 1.
Definition IRQL_PAGE_FAULT := 2.
Definition IRQL_SCHEDULER := 3.
Definition IRQL_DRIVER := 4.
Definition IRQL_TIMER := 40.
Definition IRQL_HIGH := 41.
Definition PIC_IRQ_BASE := 32.
Definition HIGHEST_IRQ_NUM := 256.
Definition PIC1_COMMAND := 0x20.
Definition PIC2_COMMAND := 0xA0.

(** ** Data *)
Record spinlock := Spinlock { lock : Z; name : list Z; lk_irql : Z; prev_irql : Z }.

Record machine (W : Type) := Machine {
  irql : Z;
  deferred_functions : heap_adt;
  init_irql_done : bool;
  postponed_task_switch : bool;
  locks : gmap Z spinlock;
  irq_table : gmap Z Z;           (** absent: NULL *)
  list_heap : lheap;
  interrupts : bool;              (** the CPU's interrupt flag *)
  ready_for_irqs : bool;
  pic_prev : Z;                   (** [prev] of [DisablePicLines] *)
  pic1_data : Z;
  pic2_data : Z;
  pic_eoi : list Z;               (** command ports sent an EOI, latest first *)
  world : W;                      (** the rest of the machine *)
}.
Arguments Machine {_}.
Arguments irql {_} _.
Arguments deferred_functions {_} _.
Arguments init_irql_done {_} _.
Arguments postponed_task_switch {_} _.
Arguments locks {_} _.
Arguments irq_table {_} _.
Arguments list_heap {_} _.
Arguments interrupts {_} _.
Arguments ready_for_irqs {_} _.
Arguments pic_prev {_} _.
Arguments pic1_data {_} _.
Arguments pic2_data {_} _.
Arguments pic_eoi {_} _.
Arguments world {_} _.

(** [struct deferment], two 32-bit pointers. *)
Record deferment := Deferment { df_handler : Z; df_context : Z }.
Definition deferment_bytes (d : deferment) : list Z :=
  le_split 4 (df_handler d) ++ le_split 4 (df_context d).
Definition deferment_of (bs : list Z) : deferment :=
  Deferment (le_combine (take 4 bs)) (le_combine (drop 4 bs)).

Section irql.
Context {W : Type}.
Abbreviation MM := (M (machine W)).

(** The code behind a deferred function pointer, behind an interrupt handler's
    pointer, and [Schedule] of thread.c. *)
Variable call_handler : Z → Z → MM unit.
Variable call_irq_handler : Z → MM Z.
Variable Schedule : MM unit.

Definition on_queue {A} (f : M heap_adt A) : MM A := λ c,
  '(a, q) ← f (deferred_functions c); Done (a, {| c with deferred_functions := q |}).
Definition on_lists {A} (f : M lheap A) : MM A := λ c,
  '(a, h) ← f (list_heap c); Done (a, {| c with list_heap := h |}).

(** *** arch/x86/cpu/interrupt.c and arch/x86/dev/pic.c *)
Definition ArchDisableInterrupts : MM unit := modify (λ c, {| c with interrupts := false |}).
Definition ArchEnableInterrupts : MM unit := modify (λ c, {| c with interrupts := true |}).

(** [disabled_irqs] is a 16-bit value; a data port keeps 8 bits. *)
Definition DisablePicLines (disabled_irqs : Z) : MM unit :=
  c ← get;
  if decide (pic_prev c ≠ disabled_irqs) then
    put {| c with pic1_data := Z.land disabled_irqs 0xFF;
                  pic2_data := u8 (Z.shiftr disabled_irqs 8); pic_prev := disabled_irqs |}
  else mret tt.

(** [1 << irq_num] is a 32-bit int; the mask is truncated to 16 bits. *)
Definition ArchSetIrql (level : Z) : MM unit :=
  c ← get;
  if decide (level = IRQL_HIGH ∨ level = IRQL_TIMER ∨ ready_for_irqs c = false) then mret tt else
  (if decide (IRQL_DRIVER ≤ level) then
     let irq_num := level - IRQL_DRIVER in
     DisablePicLines (Z.land (Z.land (Z.lxor 0xFFFF (Z.shiftl 1 irq_num - 1)) (Z.lnot (Z.shiftl 1 2))) 0xFFFF)
   else DisablePicLines 0);;
  ArchEnableInterrupts.

Definition SendPicEoi (irq_num : Z) : MM unit :=
  (if decide (PIC_IRQ_BASE + 8 ≤ irq_num) then
     modify (λ c, {| c with pic_eoi := PIC2_COMMAND :: pic_eoi c |})
   else mret tt);;
  modify (λ c, {| c with pic_eoi := PIC1_COMMAND :: pic_eoi c |}).
Definition ArchSendEoi (irq_num : Z) : MM unit := SendPicEoi irq_num.

Definition GetRequiredIrql (irq_num : Z) : Z :=
  if decide (irq_num = PIC_IRQ_BASE + 0) then IRQL_TIMER else IRQL_DRIVER + irq_num - PIC_IRQ_BASE.

(** *** irq/irql.c *)
Definition GetIrql : MM Z := gets irql.

Definition DeferUntilIrql (level handler context : Z) : MM unit :=
  c ← get;
  let current := irql c in
  if decide (level = current ∨ (level = IRQL_STANDARD_HIGH_PRIORITY ∧ current = IRQL_STANDARD)) then
    call_handler handler context
  else if decide (current < level) then panic PANIC_INVALID_IRQL
  else if init_irql_done c then
    on_queue (HeapAdtInsert (deferment_bytes (Deferment handler context)) (u64 level))
  else mret tt.

Definition RaiseIrql (level : Z) : MM Z :=
  ArchDisableInterrupts;;
  c ← get;
  let existing_level := irql c in
  if decide (level < existing_level) then panic PANIC_INVALID_IRQL else
  modify (λ c, {| c with irql := level |});;
  ArchSetIrql level;;
  mret existing_level.

(** The level a request for [IRQL_STANDARD_HIGH_PRIORITY] runs at. *)
Definition norm_level (l : Z) : Z :=
  if decide (l = IRQL_STANDARD_HIGH_PRIORITY) then IRQL_STANDARD else l.

(** Each turn takes one deferred call; [fuel] bounds the turns, since a handler
    may defer more. A NULL handler is looked at again without being removed. *)
Fixpoint LowerIrql_loop (fuel : nat) (target_level current_level : Z) : MM unit :=
  c ← get;
  if init_irql_done c then
    used ← on_queue HeapAdtGetUsedSize;
    if decide (0 < used)%nat then
      match fuel with
      | O => exhausted
      | S fuel =>
        next ← on_queue HeapAdtPeek;
        c_assert (bool_decide (i32 (priority next) ≤ current_level ∨
          (priority next = IRQL_STANDARD_HIGH_PRIORITY ∧ current_level = IRQL_STANDARD)));;
        if decide (target_level ≤ i32 (priority next)) then
          let current_level := norm_level (i32 (priority next)) in
          bytes ← on_queue (read_data next);
          let deferred_call := deferment_of bytes in
          let context := df_context deferred_call in
          let handler := df_handler deferred_call in
          if decide (handler = NULL) then
            ArchSetIrql current_level;; LowerIrql_loop fuel target_level current_level
          else
            on_queue HeapAdtPop;;
            modify (λ c, {| c with irql := current_level |});;
            ArchSetIrql current_level;;
            call_handler handler context;;
            LowerIrql_loop fuel target_level current_level
        else mret tt
      end
    else mret tt
  else mret tt.

Definition LowerIrql (fuel : nat) (target_level : Z) : MM unit :=
  c ← get;
  if decide (irql c < target_level) then panic PANIC_INVALID_IRQL else
  LowerIrql_loop fuel target_level (irql c);;
  let current_level := norm_level target_level in
  modify (λ c, {| c with irql := current_level |});;
  ArchSetIrql current_level;;
  c ← get;
  if decide (current_level = IRQL_STANDARD ∧ postponed_task_switch c = true) then
    put {| c with postponed_task_switch := false |};;
    Schedule
  else mret tt.

Definition PostponeScheduleUntilStandardIrql : MM unit :=
  modify (λ c, {| c with postponed_task_switch := true |}).

Definition InitIrql `{Allocator} : MM unit :=
  q ← (λ c, h ← HeapAdtCreate 32 true 8; Done (h, c)) : MM heap_adt;
  modify (λ c, {| c with deferred_functions := q |});;
  modify (λ c, {| c with init_irql_done := true |}).

Definition GetNumberInDeferQueue : MM nat := on_queue HeapAdtGetUsedSize.

(** [x86MakeReadyForIrqs] *)
Definition x86MakeReadyForIrqs : MM unit :=
  modify (λ c, {| c with ready_for_irqs := true |});;
  l ← GetIrql;
  RaiseIrql l;; mret tt.

(** *** sync/spinlock.c; the name is a C string without its terminator. *)
Definition InitSpinlock (lp : Z) (nm : list Z) (level : Z) : MM unit :=
  c_assert (bool_decide (length nm ≤ 15)%nat);;
  c_assert (bool_decide (IRQL_SCHEDULER ≤ level));;
  c ← get;
  l ← deref (locks c !! lp);
  put {| c with locks := <[lp := {| l with lock := 0; lk_irql := level; name := nm |}]> (locks c) |}.

(** [lock bts]/[lock btr] on bit 0; a set bit is spun on for ever, as no other
    processor is in the model. *)
Definition ArchSpinlockAcquire (lp : Z) : MM unit :=
  c ← get;
  l ← deref (locks c !! lp);
  if Z.testbit (lock l) 0 then block else
  put {| c with locks := <[lp := {| l with lock := Z.setbit (lock l) 0 |}]> (locks c) |}.
Definition ArchSpinlockRelease (lp : Z) : MM unit :=
  c ← get;
  l ← deref (locks c !! lp);
  put {| c with locks := <[lp := {| l with lock := Z.clearbit (lock l) 0 |}]> (locks c) |}.

Definition AcquireSpinlock (lp : Z) : MM Z :=
  c ← get;
  l ← deref (locks c !! lp);
  if decide (lock l ≠ 0) then panic PANIC_SPINLOCK_DOUBLE_ACQUISITION else
  prior_irql ← RaiseIrql (lk_irql l);
  (if decide (prior_irql < lk_irql l) then RaiseIrql (lk_irql l);; mret tt else mret tt);;
  ArchSpinlockAcquire lp;;
  c ← get;
  l ← deref (locks c !! lp);
  put {| c with locks := <[lp := {| l with prev_irql := prior_irql |}]> (locks c) |};;
  mret prior_irql.

Definition ReleaseSpinlock (fuel : nat) (lp : Z) : MM unit :=
  c ← get;
  l ← deref (locks c !! lp);
  if decide (lock l = 0) then panic PANIC_SPINLOCK_RELEASED_BEFORE_ACQUIRED else
  let old_irql := prev_irql l in
  ArchSpinlockRelease lp;;
  LowerIrql fuel old_irql.

Definition IsSpinlockHeld (lp : Z) : MM bool :=
  c ← get; l ← deref (locks c !! lp); mret (bool_decide (lock l ≠ 0)).

(** *** irq/irq.c *)
Definition irq_list (irq_num : Z) : MM Z := gets (λ c, default NULL (irq_table c !! irq_num)).

Definition RegisterIrqHandler `{Allocator} (irq_num handler : Z) : MM Z :=
  if decide (irq_num < 0 ∨ HIGHEST_IRQ_NUM ≤ irq_num ∨ handler = NULL) then mret EINVAL else
  lst ← irq_list irq_num;
  (if decide (lst = NULL) then
     p ← on_lists ListCreate;
     modify (λ c, {| c with irq_table := <[irq_num := p]> (irq_table c) |})
   else mret tt);;
  lst ← irq_list irq_num;
  on_lists (ListInsertEnd lst handler);;
  mret 0.

Fixpoint RespondToIrq_loop (fuel : nat) (iter : Z) : MM unit :=
  match fuel with
  | O => exhausted
  | S fuel =>
    if decide (iter = NULL) then mret tt else
    handler ← on_lists (ListGetDataFromNode iter);
    c_assert (bool_decide (handler ≠ NULL));;
    r ← call_irq_handler handler;
    if decide (r = 0) then mret tt else
    next ← on_lists (ListGetNextNode iter);
    RespondToIrq_loop fuel next
  end.

Definition RespondToIrq (fuel : nat) (irq req_irl : Z) : MM unit :=
  old ← RaiseIrql req_irl;
  ArchSendEoi irq;;
  lst ← irq_list irq;
  (if decide (lst ≠ NULL) then
     iter ← on_lists (ListGetFirstNode lst);
     c ← get;
     RespondToIrq_loop (walk_bound (list_heap c)) iter
   else mret tt);;
  LowerIrql fuel old.
End irql.

Lemma deref_run {S A} (o : option A) a (s : S) : o = Some a → deref o s = Done (a, s).
Proof. by intros ->. Qed.

(** ** The interrupt controllers *)
Section masking.
Context {W : Type}.
Implicit Types c : machine W.

Definition line_mask (level : Z) : Z :=
  if decide (IRQL_DRIVER ≤ level) then
    Z.land (Z.land (Z.lxor 0xFFFF (Z.shiftl 1 (level - IRQL_DRIVER) - 1)) (Z.lnot (Z.shiftl 1 2))) 0xFFFF
  else 0.

(** [ArchSetIrql] as a function on the state. *)
Definition arch_set (level : Z) (c : machine W) : machine W :=
  let off := bool_decide (level = IRQL_HIGH ∨ level = IRQL_TIMER ∨ ready_for_irqs c = false) in
  let same := off || bool_decide (pic_prev c = line_mask level) in
  {| c with interrupts := if off then interrupts c else true;
            pic_prev := if off then pic_prev c else line_mask level;
            pic1_data := if same then pic1_data c else Z.land (line_mask level) 0xFF;
            pic2_data := if same then pic2_data c else u8 (Z.shiftr (line_mask level) 8) |}.

Lemma ArchSetIrql_run level c : ArchSetIrql level c = Done (tt, arch_set level c).
Proof.
  unfold ArchSetIrql, arch_set, DisablePicLines, ArchEnableInterrupts, line_mask. mred.
  destruct (decide (level = IRQL_HIGH ∨ level = IRQL_TIMER ∨ ready_for_irqs c = false)) as [H|H].
  - rewrite bool_decide_true by done. by destruct c.
  - rewrite bool_decide_false by done. cbn [orb].
    destruct (decide (IRQL_DRIVER ≤ level));
      match goal with |- context [decide (pic_prev c ≠ ?m)] => destruct (decide (pic_prev c ≠ m)) as [Hp|Hp] end;
      cbn [outcome_bind];
      (rewrite bool_decide_false by done) || (rewrite bool_decide_true by (by apply dec_stable)); try done;
      apply dec_stable in Hp; rewrite <- Hp; by destruct c.
Qed.

(** Line [j] of the pair of controllers is masked. *)
Definition masked (c : machine W) (j : Z) : bool :=
  if decide (j < 8) then Z.testbit (pic1_data c) j else Z.testbit (pic2_data c) (j - 8).
(** The static [prev] agrees with the hardware, as it does from [InitPic] on. *)
Definition pic_synced (c : machine W) : Prop := ∀ j, 0 ≤ j < 16 → masked c j = Z.testbit (pic_prev c) j.

Lemma line_mask_testbit level j :
  0 ≤ j < 16 → Z.testbit (line_mask level) j = bool_decide (IRQL_DRIVER ≤ level ∧ level - IRQL_DRIVER ≤ j ∧ j ≠ 2).
Proof.
  intros Hj. unfold line_mask. destruct (decide (IRQL_DRIVER ≤ level)) as [Hl|Hl].
  2: { rewrite Z.bits_0. symmetry. apply bool_decide_false. tauto. }
  set (n := level - IRQL_DRIVER). assert (0 ≤ n) by lia.
  rewrite !Z.land_spec, Z.lxor_spec, Z.lnot_spec by lia.
  change 0xFFFF with (Z.ones 16). rewrite (Z.ones_spec_low 16) by lia.
  replace (Z.shiftl 1 n - 1) with (Z.ones n) by (unfold Z.ones; lia).
  replace (Z.testbit (Z.shiftl 1 2) j) with (bool_decide (j = 2)).
  2: { change (Z.shiftl 1 2) with (2 ^ 2). rewrite Z.pow2_bits_eqb by lia.
       destruct (Z.eqb_spec 2 j); [by apply bool_decide_true|by apply bool_decide_false; lia]. }
  rewrite andb_true_r. destruct (decide (n ≤ j)) as [Hn|Hn].
  - rewrite Z.ones_spec_high by lia. cbn [xorb andb].
    destruct (decide (j = 2)); [rewrite bool_decide_true, bool_decide_false by (done || lia)
                               |rewrite bool_decide_false, bool_decide_true by (done || lia)]; done.
  - rewrite Z.ones_spec_low by lia. cbn [xorb andb]. symmetry. apply bool_decide_false. lia.
Qed.

Lemma arch_set_synced level c : pic_synced c → pic_synced (arch_set level c).
Proof.
  intros Hs j Hj. unfold arch_set, masked. simpl.
  destruct (bool_decide (level = IRQL_HIGH ∨ _)) eqn:Hoff; cbn [orb]; [by apply Hs|].
  destruct (bool_decide (pic_prev c = line_mask level)) eqn:Hp.
  - apply bool_decide_eq_true in Hp. rewrite <- Hp. by apply Hs.
  - destruct (decide (j < 8)).
    + change 0xFF with (Z.ones 8). rewrite Z.land_spec, Z.ones_spec_low by lia. by rewrite andb_true_r.
    + unfold u8. rewrite <- Z.land_ones by lia. rewrite Z.land_spec, Z.ones_spec_low, Z.shiftr_spec by lia.
      rewrite andb_true_r. f_equal. lia.
Qed.

Lemma arch_set_masked level c j :
  pic_synced c → ready_for_irqs c = true → 0 ≤ level < IRQL_TIMER → 0 ≤ j < 16 →
  masked (arch_set level c) j = bool_decide (IRQL_DRIVER ≤ level ∧ level - IRQL_DRIVER ≤ j ∧ j ≠ 2) ∧
  interrupts (arch_set level c) = true.
Proof.
  intros Hs Hr Hl Hj. rewrite (arch_set_synced level c Hs j Hj). unfold arch_set. simpl.
  rewrite bool_decide_false by (unfold IRQL_HIGH, IRQL_TIMER in *; intros [|[|]]; [lia|lia|congruence]).
  by rewrite line_mask_testbit.
Qed.
End masking.

(** ** Deferred calls

    Handlers of a verified client act on the world and may postpone a task
    switch; they leave the level, the locks and the queue as they found them. *)
Section deferral.
Context {W : Type}.
Implicit Types c : machine W.
Variable call_handler : Z → Z → M (machine W) unit.
Variable Schedule : M (machine W) unit.
Variable effect : Z → Z → Z → W * bool → W * bool.

Definition set_wp (wp : W * bool) (c : machine W) : machine W :=
  {| c with world := wp.1; postponed_task_switch := wp.2 |}.
Definition wp (c : machine W) : W * bool := (world c, postponed_task_switch c).

Lemma wp_set s c : wp (set_wp s c) = s.
Proof. by destruct s. Qed.

Definition handlers_ok : Prop := ∀ h ctx c,
  call_handler h ctx c = Done (tt, set_wp (effect h ctx (irql c) (wp c)) c).

(** The calls waiting, with their levels. *)
Definition queued (c : machine W) : list (Z * deferment) :=
  (λ x, (x.1, deferment_of x.2)) <$> entries (deferred_functions c).

Record irql_wf (c : machine W) : Prop := {
  iw_heap : heap_wf (deferred_functions c);
  iw_max : max (deferred_functions c) = true;
  iw_width : element_width (deferred_functions c) = 8%nat;
  iw_level : 0 ≤ irql c ≤ IRQL_HIGH;
  iw_queued : Forall (λ x, 0 ≤ x.1 ≤ irql c ∧ df_handler x.2 ≠ NULL) (queued c);
}.

(** One deferred call, and a list of them in order. *)
Definition run_call (s : W * bool) (x : Z * deferment) : W * bool :=
  effect (df_handler x.2) (df_context x.2) (norm_level x.1) s.

(** What [LowerIrql] does not touch. *)
Definition frame (c c' : machine W) : Prop :=
  locks c' = locks c ∧ irq_table c' = irq_table c ∧ list_heap c' = list_heap c ∧
  init_irql_done c' = init_irql_done c ∧ ready_for_irqs c' = ready_for_irqs c ∧ pic_eoi c' = pic_eoi c.

Lemma frame_trans c1 c2 c3 : frame c1 c2 → frame c2 c3 → frame c1 c3.
Proof. unfold frame. intuition congruence. Qed.

Lemma i32_level p l : 0 ≤ p ≤ l → l ≤ IRQL_HIGH → i32 p = p.
Proof. intros. apply i32_small. unfold IRQL_HIGH in *. lia. Qed.

Lemma on_queue_done {A} (f : M heap_adt A) c a q :
  f (deferred_functions c) = Done (a, q) →
  on_queue f c = Done (a, {| c with deferred_functions := q |}).
Proof. intros E. unfold on_queue. by rewrite E. Qed.

Lemma set_queue_id c : {| c with deferred_functions := deferred_functions c |} = c.
Proof. by destruct c. Qed.

(** The loop's precondition: nothing queued is above the running level, up to
    the identification of the two standard levels. *)
Record loop_ok (c : machine W) (cur : Z) : Prop := {
  lo_init : init_irql_done c = true;
  lo_heap : heap_wf (deferred_functions c);
  lo_max : max (deferred_functions c) = true;
  lo_width : element_width (deferred_functions c) = 8%nat;
  lo_queued : Forall (λ x, (0 ≤ x.1 ≤ IRQL_HIGH) ∧ (x.1 ≤ cur ∨ x.1 = 1 ∧ cur = 0) ∧ df_handler x.2 ≠ NULL) (queued c);
}.

Lemma LowerIrql_loop_run (T : Z) : handlers_ok → ∀ (n fuel : nat) c cur,
  loop_ok c cur → size (deferred_functions c) = n → (n ≤ fuel)%nat →
  ∃ out c', LowerIrql_loop call_handler fuel T cur c = Done (tt, c') ∧ frame c c' ∧
    heap_wf (deferred_functions c') ∧ max (deferred_functions c') = true ∧
    element_width (deferred_functions c') = 8%nat ∧
    capacity (deferred_functions c') = capacity (deferred_functions c) ∧
    queued c ≡ₚ out ++ queued c' ∧ Sorted (λ x y, y.1 ≤ x.1) out ∧
    Forall (λ x, T ≤ x.1) out ∧ Forall (λ x, x.1 < T) (queued c') ∧
    wp c' = foldl run_call (wp c) out ∧ (pic_synced c → pic_synced c').
Proof.
  intros Hcall n. induction n as [|n IH]; intros fuel c cur [Hi Hwf Hm Hw Hq] Hn Hf.
  - exists [], c. destruct fuel; cbn [LowerIrql_loop];
      rewrite (M_bind_done _ _ _ _ _ (get_run c)), Hi;
      (erewrite M_bind_done by (apply on_queue_done; unfold HeapAdtGetUsedSize, gets; reflexivity));
      rewrite set_queue_id, decide_False by lia;
      assert (queued c = []) as Hnil by (unfold queued, entries; by rewrite Hn); rewrite Hnil;
      (split_and!; [done|by unfold frame|done|done|done|done|done|constructor|done|done|done|done]).
  - destruct fuel as [|fuel]; [lia|].
    destruct (peek_run _ Hwf) as (e & r & E1 & Hp & Hd & Hhd & Hbest); [lia|].
    destruct (pop_run _ Hwf) as (e' & h' & E2 & Hwf' & Hhd' & Hperm & Hs' & Hc' & Hm' & He'); [lia|].
    rewrite Hhd in Hhd'. injection Hhd' as <-.
    assert (e ∈ entries (deferred_functions c)) as Hin by (rewrite Hperm; set_solver).
    rewrite Forall_forall in Hq.
    destruct (Hq (e.1, deferment_of e.2)) as (Hrange & Hcur & Hnn); [by apply list_elem_of_fmap_2' with e|].
    cbn [fst snd] in *.
    cbn [LowerIrql_loop]. rewrite (M_bind_done _ _ _ _ _ (get_run c)), Hi.
    erewrite M_bind_done by (apply on_queue_done; unfold HeapAdtGetUsedSize, gets; reflexivity).
    rewrite set_queue_id, decide_True by lia.
    erewrite M_bind_done by (apply on_queue_done; exact E1). rewrite set_queue_id.
    rewrite Hp, (i32_level e.1 IRQL_HIGH) by lia.
    erewrite M_bind_done by (apply c_assert_run, bool_decide_true; unfold IRQL_STANDARD, IRQL_STANDARD_HIGH_PRIORITY; tauto).
    destruct (decide (T ≤ e.1)) as [HT|HT].
    + erewrite M_bind_done by (apply on_queue_done; exact Hd). rewrite set_queue_id, decide_False by done.
      erewrite M_bind_done by (apply on_queue_done; exact E2).
      rewrite (M_bind_done _ _ _ _ _ (eq_refl : modify _ _ = Done (tt, _))).
      rewrite (M_bind_done _ _ _ _ _ (ArchSetIrql_run _ _)).
      rewrite (M_bind_done _ _ _ _ _ (Hcall _ _ _)).
      set (c1 := set_wp _ _).
      assert (queued c ≡ₚ (e.1, deferment_of e.2) :: queued c1) as Hq1.
      { unfold queued. by rewrite Hperm. }
      destruct (IH fuel c1 (norm_level e.1)) as (out & c' & E & Hfr & R); [| |lia|].
      { split; [done|done|by simpl; rewrite Hm'|simpl; congruence|].
        apply Forall_forall. intros x Hx.
        destruct (Hq x) as (? & ? & ?); [rewrite Hq1; set_solver|]. split; [done|]. split; [|done].
        apply list_elem_of_fmap in Hx as (y & -> & Hy). cbn [fst] in *.
        assert (y.1 ≤ e.1).
        { specialize (Hbest y). rewrite Hm in Hbest. apply Hbest. rewrite Hperm. set_solver. }
        unfold norm_level. destruct (decide (e.1 = _)); unfold IRQL_STANDARD_HIGH_PRIORITY, IRQL_STANDARD in *; lia. }
      { simpl. lia. }
      destruct R as (R1 & R2 & R3 & R4 & R5 & R6 & R7 & R8 & R9 & R10).
      exists ((e.1, deferment_of e.2) :: out), c'. split_and!; [done| |done|done|done| | | |by constructor|done| |].
      * eapply frame_trans; [|done]. by unfold frame.
      * rewrite R4. simpl. done.
      * by rewrite Hq1, R5.
      * constructor; [done|]. destruct out as [|x out]; constructor. simpl.
        assert (x ∈ queued c1) as Hx by (rewrite R5; set_solver).
        apply list_elem_of_fmap in Hx as (y & -> & Hy). simpl.
        specialize (Hbest y). rewrite Hm in Hbest. apply Hbest. rewrite Hperm. set_solver.
      * rewrite R9. subst c1. by rewrite wp_set.
      * intros Hsy. apply R10. exact (arch_set_synced _ _ Hsy).
    + exists [], c. split_and!; [done|by unfold frame|done|done|done|done|done|constructor|done| |done|done].
      apply Forall_forall. intros x Hx. apply list_elem_of_fmap in Hx as (y & -> & Hy). simpl.
      specialize (Hbest y Hy). rewrite Hm in Hbest. unfold better in Hbest. lia.
Qed.

(** The level and the switch postponed to it, at the end of [LowerIrql]. *)
Definition finish (c : machine W) : outcome (unit * machine W) :=
  if decide (irql c = IRQL_STANDARD ∧ postponed_task_switch c = true) then
    Schedule {| c with postponed_task_switch := false |}
  else Done (tt, c).

(** [LowerIrql] from [c] to [T] ran the calls [out] and left the state [c']. *)
Record lowered (c : machine W) (T : Z) (out : list (Z * deferment)) (c' : machine W) : Prop := {
  ld_wf : irql_wf c';
  ld_level : irql c' = norm_level T;
  ld_perm : queued c ≡ₚ out ++ queued c';
  ld_order : Sorted (λ x y, y.1 ≤ x.1) out;
  ld_run : Forall (λ x, T ≤ x.1) out;
  ld_kept : Forall (λ x, x.1 < T) (queued c');
  ld_effect : wp c' = foldl run_call (wp c) out;
  ld_capacity : capacity (deferred_functions c') = capacity (deferred_functions c);
  ld_frame : frame c c';
  ld_pic : pic_synced c → pic_synced c';
}.

Lemma LowerIrql_run (fuel : nat) T c :
  handlers_ok → irql_wf c → init_irql_done c = true → 0 ≤ T ≤ irql c →
  (size (deferred_functions c) ≤ fuel)%nat →
  ∃ out c', LowerIrql call_handler Schedule fuel T c = finish c' ∧ lowered c T out c'.
Proof.
  intros Hcall [Hwf Hm Hw Hl Hq] Hi HT Hf.
  destruct (LowerIrql_loop_run T Hcall (size (deferred_functions c)) fuel c (irql c))
    as (out & c1 & E & Hfr & R1 & R2 & R3 & R4 & R5 & R6 & R7 & R8 & R9 & R10); [|done|done|].
  { split; [done..|]. eapply Forall_impl; [exact Hq|]. intros x [? ?]. split; [lia|]. split; [lia|done]. }
  set (c2 := {| c1 with irql := norm_level T |}).
  exists out, (arch_set (norm_level T) c2). split.
  - unfold LowerIrql. rewrite (M_bind_done _ _ _ _ _ (get_run c)), decide_False by lia.
    rewrite (M_bind_done _ _ _ _ _ E). rewrite (M_bind_done _ _ _ _ _ (eq_refl : modify _ _ = Done (tt, c2))).
    rewrite (M_bind_done _ _ _ _ _ (ArchSetIrql_run _ _)).
    rewrite (M_bind_done _ _ _ _ _ (get_run _)). unfold finish. cbn [irql arch_set c2].
    by destruct (decide _).
  - assert (0 ≤ norm_level T ≤ IRQL_HIGH) as HN.
    { unfold norm_level, IRQL_STANDARD, IRQL_STANDARD_HIGH_PRIORITY in *. destruct (decide _); lia. }
    split; try done; [|by intros Hsy%R10; apply arch_set_synced].
    split; try done. apply Forall_forall. intros x Hx.
    rewrite Forall_forall in Hq, R8. assert (x.1 < T) by (by apply R8).
    destruct (Hq x) as [Hx0 Hnn]; [rewrite R5; set_solver|]. split; [|done]. simpl.
    unfold norm_level, IRQL_STANDARD, IRQL_STANDARD_HIGH_PRIORITY. destruct (decide _); lia.
Qed.

Lemma RaiseIrql_run level c :
  irql c ≤ level →
  RaiseIrql level c = Done (irql c, arch_set level {| c with interrupts := false; irql := level |}).
Proof.
  intros Hl. unfold RaiseIrql. rewrite (M_bind_done _ _ _ _ _ (eq_refl : ArchDisableInterrupts c = Done (tt, _))).
  rewrite (M_bind_done _ _ _ _ _ (get_run _)). simpl. rewrite decide_False by lia.
  rewrite (M_bind_done _ _ _ _ _ (eq_refl : modify _ _ = Done (tt, _))).
  by rewrite (M_bind_done _ _ _ _ _ (ArchSetIrql_run _ _)).
Qed.

Lemma raised_wf level c b :
  irql_wf c → irql c ≤ level ≤ IRQL_HIGH → irql_wf (arch_set level {| c with interrupts := b; irql := level |}).
Proof.
  intros [Hwf Hm Hw Hl Hq] ?. split; try done; simpl; [lia|].
  eapply Forall_impl; [exact Hq|]. simpl. intros x [? ?]. split; [lia|done].
Qed.

(** Bytes of a deferment read back. *)
Lemma le_split_bytes n w : Forall is_byte (le_split n w).
Proof.
  revert w. induction n as [|n IH]; intros w; constructor; [|apply IH].
  apply Z.mod_pos_bound. lia.
Qed.
Lemma le_combine_split (n : nat) w : 0 ≤ w < 2 ^ (8 * n) → le_combine (le_split n w) = w.
Proof.
  revert w. induction n as [|n IH]; intros w Hw; [simpl in *; lia|].
  cbn [le_split le_combine]. rewrite IH.
  - pose proof (Z.div_mod w (2 ^ 8)). lia.
  - replace (8 * S n) with (8 + 8 * n) in Hw by lia. rewrite Z.pow_add_r in Hw by lia.
    split; [apply Z.div_pos; lia|]. apply Z.div_lt_upper_bound; lia.
Qed.
Lemma deferment_roundtrip h ctx :
  is_u32 h → is_u32 ctx → deferment_of (deferment_bytes (Deferment h ctx)) = Deferment h ctx.
Proof.
  intros Hh Hc. unfold deferment_of, deferment_bytes. cbn [df_handler df_context].
  rewrite take_app_length' by (by rewrite le_split_length). rewrite drop_app_length' by (by rewrite le_split_length).
  by rewrite !le_combine_split by (unfold is_u32 in *; simpl; lia).
Qed.

Lemma DeferUntilIrql_queues level h ctx c :
  irql_wf c → init_irql_done c = true → 0 ≤ level < irql c → is_u32 h → h ≠ NULL → is_u32 ctx →
  ¬ (level = IRQL_STANDARD_HIGH_PRIORITY ∧ irql c = IRQL_STANDARD) →
  (size (deferred_functions c) < capacity (deferred_functions c))%nat →
  ∃ q, DeferUntilIrql call_handler level h ctx c = Done (tt, {| c with deferred_functions := q |}) ∧
    irql_wf {| c with deferred_functions := q |} ∧ size q = S (size (deferred_functions c)) ∧
    capacity q = capacity (deferred_functions c) ∧
    queued {| c with deferred_functions := q |} ≡ₚ (level, Deferment h ctx) :: queued c.
Proof.
  intros [Hwf Hm Hw Hl Hq] Hi Hlt Hh Hnn Hc Hne Hcap.
  assert (u64 level = level) as Hu by (apply u64_small; unfold is_u64, IRQL_HIGH in *; lia).
  destruct (insert_run (deferred_functions c) (deferment_bytes (Deferment h ctx)) level Hwf Hcap)
    as (q & E & Hwf' & Hp & Hs' & Hc' & Hm' & Hw').
  { by rewrite Hw. }
  { apply Forall_app_2; apply le_split_bytes. }
  assert (queued {| c with deferred_functions := q |} ≡ₚ (level, Deferment h ctx) :: queued c) as Hqu.
  { unfold queued. simpl. rewrite Hp. simpl. by rewrite deferment_roundtrip. }
  exists q. split_and!; [|split|done..]; simpl; try done; try congruence.
  - unfold DeferUntilIrql. rewrite (M_bind_done _ _ _ _ _ (get_run c)).
    rewrite decide_False by (intros [|]; [lia|done]). rewrite decide_False by lia.
    rewrite <- (on_queue_done _ c tt q E). by rewrite Hi, Hu.
  - rewrite Hqu. constructor; [simpl; split; [lia|done]|done].
Qed.
End deferral.

(** ** Properties *)
Section properties.
Context {W : Type}.
Implicit Types c : machine W.
Variable call_handler : Z → Z → M (machine W) unit.
Variable call_irq_handler : Z → M (machine W) Z.
Variable Schedule : M (machine W) unit.
Variable effect : Z → Z → Z → W * bool → W * bool.

(** Queue a batch of calls. *)
Fixpoint defer_all (ds : list (Z * deferment)) : M (machine W) unit :=
  match ds with
  | [] => mret tt
  | (level, d) :: ds =>
    DeferUntilIrql call_handler level (df_handler d) (df_context d);; defer_all ds
  end.

(** A call that can be queued at level [l]. *)
Definition deferrable (l : Z) (x : Z * deferment) : Prop :=
  0 ≤ x.1 < l ∧ is_u32 (df_handler x.2) ∧ df_handler x.2 ≠ NULL ∧ is_u32 (df_context x.2).

Lemma defer_all_run ds : ∀ c,
  irql_wf c → init_irql_done c = true → 0 < irql c → Forall (deferrable (irql c)) ds →
  (length ds + size (deferred_functions c) ≤ capacity (deferred_functions c))%nat →
  ∃ q, defer_all ds c = Done (tt, {| c with deferred_functions := q |}) ∧
    irql_wf {| c with deferred_functions := q |} ∧
    size q = (length ds + size (deferred_functions c))%nat ∧
    capacity q = capacity (deferred_functions c) ∧
    queued {| c with deferred_functions := q |} ≡ₚ ds ++ queued c.
Proof.
  induction ds as [|[l [h ctx]] ds IH]; intros c Hwf Hi Hpos Hds Hcap.
  - exists (deferred_functions c). rewrite set_queue_id. done.
  - apply Forall_cons in Hds as [(Hl & Hh & Hnn & Hc) Hds]. simpl in Hl, Hh, Hnn, Hc, Hcap.
    destruct (DeferUntilIrql_queues call_handler l h ctx c) as (q & E & Hwf1 & Hs & Hcp & Hq); try done; [|lia|].
    { intros [_ H0]. rewrite H0 in Hpos. unfold IRQL_STANDARD in Hpos. lia. }
    destruct (IH {| c with deferred_functions := q |}) as (q' & E' & Hwf' & Hs' & Hcp' & Hq'); try done; [simpl; lia|].
    exists q'. cbn [defer_all df_handler df_context]. rewrite (M_bind_done _ _ _ _ _ E).
    split_and!; [exact E'|exact Hwf'|rewrite Hs'; simpl; lia|rewrite Hcp'; exact Hcp|].
    etransitivity; [exact Hq'|]. rewrite Hq. simpl. by rewrite Permutation_middle.
Qed.

(** C35: raising the IRQL, deferring any batch of calls that fits the queue and
    lowering the IRQL to [T] runs exactly the pending calls of level at least
    [T], in non-increasing order of level, each once and at its own level,
    keeps the others queued, leaves the processor at [T] (level 1 means level
    0), and then performs a postponed task switch exactly when the level is
    the standard one. No assertion of the queue fails. *)
Theorem deferred_calls_run_in_order (fuel : nat) L T ds c :
  handlers_ok call_handler effect → irql_wf c → init_irql_done c = true →
  0 < L → irql c ≤ L ≤ IRQL_HIGH → 0 ≤ T ≤ L → Forall (deferrable L) ds →
  (length ds + size (deferred_functions c) ≤ capacity (deferred_functions c))%nat →
  (length ds + size (deferred_functions c) ≤ fuel)%nat →
  ∃ c1 out c', (RaiseIrql L;; defer_all ds) c = Done (tt, c1) ∧
    queued c1 ≡ₚ ds ++ queued c ∧ wp c1 = wp c ∧
    LowerIrql call_handler Schedule fuel T c1 = finish Schedule c' ∧ lowered effect c1 T out c'.
Proof.
  intros Hcall Hwf Hi Hpos HL HT Hds Hcap Hf.
  set (c0 := arch_set L {| c with interrupts := false; irql := L |}).
  assert (irql_wf c0) as Hwf0 by (by apply raised_wf).
  destruct (defer_all_run ds c0) as (q & E & Hwf1 & Hs & Hcp & Hq); try done.
  destruct (LowerIrql_run call_handler Schedule effect fuel T {| c0 with deferred_functions := q |})
    as (out & c' & E' & Hlow); try done; [by simpl in *; rewrite Hs|].
  exists {| c0 with deferred_functions := q |}, out, c'. split_and!; try done.
  by rewrite (M_bind_done _ _ _ _ _ (RaiseIrql_run L c ltac:(lia))).
Qed.

(** a spinlock taken from a level at or below its own is held at the lock's
    level; taking it again panics; releasing it, from any state in which the
    critical section left it, frees the lock and returns to the level before,
    running the deferred calls that level allows. A lock of a level below the
    current one cannot be taken: [RaiseIrql] panics. *)
Theorem spinlock_critical_section (fuel : nat) lp l c :
  handlers_ok call_handler effect → irql_wf c → init_irql_done c = true →
  locks c !! lp = Some l → lock l = 0 → lk_irql l ≤ IRQL_HIGH →
  if decide (lk_irql l < irql c) then AcquireSpinlock lp c = Panicked PANIC_INVALID_IRQL
  else ∃ c1, AcquireSpinlock lp c = Done (irql c, c1) ∧ irql c1 = lk_irql l ∧ irql_wf c1 ∧
    IsSpinlockHeld lp c1 = Done (true, c1) ∧ queued c1 = queued c ∧ wp c1 = wp c ∧
    AcquireSpinlock lp c1 = Panicked PANIC_SPINLOCK_DOUBLE_ACQUISITION ∧
    ∀ c2, irql_wf c2 → init_irql_done c2 = true → irql c2 = lk_irql l → locks c2 !! lp = locks c1 !! lp →
      (size (deferred_functions c2) ≤ fuel)%nat →
      ∃ out c3 c4, ReleaseSpinlock call_handler Schedule fuel lp c2 = finish Schedule c4 ∧
        c3 = {| c2 with locks := <[lp := {| l with lock := 0; prev_irql := irql c |}]> (locks c2) |} ∧
        lowered effect c3 (irql c) out c4.
Proof.
  intros Hcall Hwf Hi Hlp Hfree Hhi. destruct (decide (lk_irql l < irql c)) as [Hlt|Hlt].
  { unfold AcquireSpinlock. rewrite (M_bind_done _ _ _ _ _ (get_run c)), (M_bind_done _ _ _ _ _ (deref_run _ _ c Hlp)).
    rewrite decide_False by lia. apply M_bind_panic. unfold RaiseIrql. mred. simpl. by rewrite decide_True. }
  set (c0 := arch_set (lk_irql l) {| c with interrupts := false; irql := lk_irql l |}).
  set (c0' := arch_set (lk_irql l) {| c0 with interrupts := false; irql := lk_irql l |}).
  set (ca := if decide (irql c < lk_irql l) then c0' else c0).
  set (l1 := {| l with lock := 1; prev_irql := irql c |}).
  set (c1 := {| ca with locks := <[lp := l1]> (locks ca) |}).
  assert (irql ca = lk_irql l ∧ irql_wf ca ∧ locks ca = locks c ∧ queued ca = queued c ∧ wp ca = wp c)
    as (Ha1 & Ha2 & Ha3 & Ha4 & Ha5).
  { assert (irql_wf c0) by (apply raised_wf; [done|lia]).
    unfold ca. destruct (decide _); (split; [done|split; [|done]]); [|done]. apply raised_wf; [done|simpl; lia]. }
  assert (AcquireSpinlock lp c = Done (irql c, c1)) as E1.
  { unfold AcquireSpinlock. rewrite (M_bind_done _ _ _ _ _ (get_run c)), (M_bind_done _ _ _ _ _ (deref_run _ _ c Hlp)).
    rewrite decide_False by lia.
    rewrite (M_bind_done _ _ _ _ _ (RaiseIrql_run (lk_irql l) c ltac:(lia))). fold c0.
    rewrite (M_bind_done _ _ c0 tt ca).
    2: { unfold ca. destruct (decide _); [|done]. by rewrite (M_bind_done _ _ _ _ _ (RaiseIrql_run (lk_irql l) c0 ltac:(simpl; lia))). }
    set (cb := {| ca with locks := <[lp := {| l with lock := 1 |}]> (locks ca) |}).
    rewrite (M_bind_done _ _ ca tt cb).
    2: { unfold ArchSpinlockAcquire. rewrite (M_bind_done _ _ _ _ _ (get_run ca)), Ha3, (M_bind_done _ _ _ _ _ (deref_run _ _ ca Hlp)).
         unfold cb. by rewrite Hfree, Ha3. }
    rewrite (M_bind_done _ _ _ _ _ (get_run cb)). 
    assert (locks cb !! lp = Some {| l with lock := 1 |}) as Hcb by (simpl; by rewrite lookup_insert_eq).
    rewrite (M_bind_done _ _ _ _ _ (deref_run _ _ cb Hcb)).
    rewrite (M_bind_done _ _ _ _ _ (eq_refl : put _ _ = Done (tt, _))). unfold c1, cb. simpl.
    by rewrite insert_insert_eq. }
  assert (locks c1 !! lp = Some l1) as Hl1 by (simpl; by rewrite lookup_insert_eq).
  exists c1. split_and!; [done|done| | |done|done| |].
  - destruct Ha2. by split.
  - unfold IsSpinlockHeld. rewrite (M_bind_done _ _ _ _ _ (get_run c1)), Hl1. done.
  - unfold AcquireSpinlock. by rewrite (M_bind_done _ _ _ _ _ (get_run c1)), Hl1.
  - intros c2 Hwf2 Hi2 Hirql2 Hlk2 Hf. rewrite Hl1 in Hlk2.
    set (c3 := {| c2 with locks := <[lp := {| l with lock := 0; prev_irql := irql c |}]> (locks c2) |}).
    destruct (LowerIrql_run call_handler Schedule effect fuel (irql c) c3) as (out & c4 & E4 & Hlow); try done.
    { destruct Hwf2. by split. }
    { simpl. destruct Hwf. lia. }
    exists out, c3, c4. split; [|done]. unfold ReleaseSpinlock.
    rewrite (M_bind_done _ _ _ _ _ (get_run c2)), (M_bind_done _ _ _ _ _ (deref_run _ _ c2 Hlk2)).
    rewrite decide_False by done. rewrite (M_bind_done _ _ c2 tt c3); [done|].
    unfold ArchSpinlockRelease. rewrite (M_bind_done _ _ _ _ _ (get_run c2)), Hlk2. done.
Qed.

(** at a device level [IRQL_DRIVER + n] the controllers are left with
    exactly the lines [n] and above masked, the cascade line 2 aside, and
    interrupts enabled. So a line [j] with [1 <= j < n] stays open although its
    own level [IRQL_DRIVER + j] is lower, and the interrupt entry for it
    panics in [RaiseIrql]. *)
Theorem open_line_below_level_panics (fuel : nat) (n j : Z) c :
  pic_synced c → ready_for_irqs c = true → irql c ≤ IRQL_DRIVER + n → 1 ≤ j < n → n < 16 →
  ∃ c', RaiseIrql (IRQL_DRIVER + n) c = Done (irql c, c') ∧ interrupts c' = true ∧
    (∀ i, 0 ≤ i < 16 → masked c' i = bool_decide (n ≤ i ∧ i ≠ 2)) ∧
    RespondToIrq call_handler call_irq_handler Schedule fuel (PIC_IRQ_BASE + j)
      (GetRequiredIrql (PIC_IRQ_BASE + j)) c' = Panicked PANIC_INVALID_IRQL.
Proof.
  intros Hs Hr Hl Hj Hn. unfold IRQL_DRIVER in *.
  set (c0 := {| c with interrupts := false; irql := 4 + n |}).
  assert (pic_synced c0) as Hs0 by done.
  exists (arch_set (4 + n) c0). split; [by apply RaiseIrql_run|].
  assert (0 ≤ 4 + n < IRQL_TIMER) by (unfold IRQL_TIMER; lia). split; [|split].
  - by destruct (arch_set_masked (4 + n) c0 0 Hs0 Hr).
  - intros i Hi. destruct (arch_set_masked (4 + n) c0 i Hs0 Hr) as [-> _]; [done..|].
    apply bool_decide_ext. unfold IRQL_DRIVER. lia.
  - unfold RespondToIrq. apply M_bind_panic. unfold RaiseIrql. mred. simpl.
    unfold GetRequiredIrql, IRQL_DRIVER. rewrite (decide_False (P := PIC_IRQ_BASE + j = _)) by lia.
    rewrite decide_True by lia. done.
Qed.
End properties.

(** ** Concrete runs: the world records the handlers that ran. *)
Definition log_effect (h ctx level : Z) (s : list (Z * Z * Z) * bool) : list (Z * Z * Z) * bool :=
  ((h, ctx, level) :: s.1, s.2).
Definition log_handler (h ctx : Z) : M (machine (list (Z * Z * Z))) unit := λ c,
  Done (tt, set_wp (log_effect h ctx (irql c) (wp c)) c).
Definition no_irq_handler (h : Z) : M (machine (list (Z * Z * Z))) Z := mret 0.
Definition no_schedule : M (machine (list (Z * Z * Z))) unit := mret tt.

Definition idle_machine : machine (list (Z * Z * Z)) :=
  Machine 0 (Heap 32 0 8 2 true (replicate 64 0)) true false
    {[ 50 := Spinlock 0 [103] IRQL_SCHEDULER 0 ]} ∅ (LHeap ∅ ∅) true true 0 0 0 [] [].

Lemma idle_machine_wf : irql_wf idle_machine.
Proof.
  destruct (create_wf (H := bump_allocator) 32 true 8) as (h & E & Hwf & _); [lia..|].
  injection E as <-. split; [exact Hwf|done|done|simpl; unfold IRQL_HIGH; lia|done].
Qed.

Lemma idle_machine_synced : pic_synced idle_machine.
Proof. intros j Hj. unfold masked. simpl. destruct (decide _); by rewrite ?Z.bits_0. Qed.

Lemma deferred_calls_run_in_order_witness :
  ∃ c1 out c', (RaiseIrql 4;; defer_all log_handler [(0, Deferment 7 1); (3, Deferment 8 2)]) idle_machine = Done (tt, c1) ∧
    queued c1 ≡ₚ [(0, Deferment 7 1); (3, Deferment 8 2)] ++ queued idle_machine ∧ wp c1 = wp idle_machine ∧
    LowerIrql log_handler no_schedule 2 0 c1 = finish no_schedule c' ∧ lowered log_effect c1 0 out c'.
Proof.
  apply (deferred_calls_run_in_order log_handler no_schedule log_effect 2 4 0 [(0, Deferment 7 1); (3, Deferment 8 2)] idle_machine);
    try done; try (simpl; unfold IRQL_HIGH; lia); [apply idle_machine_wf|].
  repeat constructor; simpl; unfold is_u32, NULL; lia.
Defined.

Lemma spinlock_critical_section_witness :
  ∃ c1, AcquireSpinlock 50 idle_machine = Done (0, c1) ∧ irql c1 = IRQL_SCHEDULER ∧ irql_wf c1 ∧
    IsSpinlockHeld 50 c1 = Done (true, c1) ∧ queued c1 = queued idle_machine ∧ wp c1 = wp idle_machine ∧
    AcquireSpinlock 50 c1 = Panicked PANIC_SPINLOCK_DOUBLE_ACQUISITION ∧
    ∀ c2, irql_wf c2 → init_irql_done c2 = true → irql c2 = IRQL_SCHEDULER → locks c2 !! 50 = locks c1 !! 50 →
      (size (deferred_functions c2) ≤ 32)%nat →
      ∃ out c3 c4, ReleaseSpinlock log_handler no_schedule 32 50 c2 = finish no_schedule c4 ∧
        c3 = {| c2 with locks := <[50 := Spinlock 0 [103] IRQL_SCHEDULER 0]> (locks c2) |} ∧
        lowered log_effect c3 0 out c4.
Proof.
  apply (spinlock_critical_section log_handler no_schedule log_effect 32 50 (Spinlock 0 [103] IRQL_SCHEDULER 0) idle_machine);
    [done|apply idle_machine_wf|done|reflexivity|done|unfold IRQL_SCHEDULER, IRQL_HIGH; simpl; lia].
Defined.

Lemma open_line_below_level_panics_witness :
  ∃ c', RaiseIrql (IRQL_DRIVER + 12) idle_machine = Done (0, c') ∧ interrupts c' = true ∧
    (∀ i, 0 ≤ i < 16 → masked c' i = bool_decide (12 ≤ i ∧ i ≠ 2)) ∧
    RespondToIrq log_handler no_irq_handler no_schedule 32 (PIC_IRQ_BASE + 1)
      (GetRequiredIrql (PIC_IRQ_BASE + 1)) c' = Panicked PANIC_INVALID_IRQL.
Proof.
  apply (open_line_below_level_panics log_handler no_irq_handler no_schedule 32 12 1 idle_machine);
    [apply idle_machine_synced|done|unfold IRQL_DRIVER; simpl; lia|lia|lia].
Defined.
