(* ===== verification/TimeConv.v ===== *)
(** * libc/common/timeconv.c: the system clock's calendar

    A time value is a 64-bit count of microseconds since 1 January 1601;
    [TimeStructToValue] and [TimeValueToStruct] convert it to and from calendar
    fields for the years 1601 to 2400. *)

From S2P Require Import Prelude.

Record ostime := Ostime {
  sec : Z; min : Z; hour : Z; day : Z; month : Z; year : Z; microsec : Z;
}.

#[export] Instance ostime_eq_dec : EqDecision ostime.
Proof. solve_decision. Defined.

Definition SECS_PER_DAY := 86400.

(** C's remainder; the years the code asks about are positive. *)
Definition IsLeapYear (y : Z) : bool :=
  bool_decide (Z.rem y 4 = 0) && (negb (bool_decide (Z.rem y 100 = 0)) || bool_decide (Z.rem y 400 = 0)).

Definition cumulative_days_in_months : list Z :=
  [0; 31; 31 + 28; 31 + 28 + 31; 31 + 28 + 31 + 30; 31 + 28 + 31 + 30 + 31;
   31 + 28 + 31 + 30 + 31 + 30; 31 + 28 + 31 + 30 + 31 + 30 + 31;
   31 + 28 + 31 + 30 + 31 + 30 + 31 + 31; 31 + 28 + 31 + 30 + 31 + 30 + 31 + 31 + 30;
   31 + 28 + 31 + 30 + 31 + 30 + 31 + 31 + 30 + 31; 31 + 28 + 31 + 30 + 31 + 30 + 31 + 31 + 30 + 31 + 30;
   31 + 28 + 31 + 30 + 31 + 30 + 31 + 31 + 30 + 31 + 30 + 31].

(** [cumulative_days_in_months[i]]; the code indexes it with 0 to 12 only. *)
Definition cumulative (i : Z) : Z := default 0 (aget cumulative_days_in_months i).

(** [while (i < year)], [i] going up by four: one more turn than a quarter of
    the span is enough. *)
Fixpoint GetFullLeapYearsSince1601_loop (fuel : nat) (i y leaps : Z) : Z :=
  match fuel with
  | O => leaps
  | S fuel =>
    if decide (i < y) then
      GetFullLeapYearsSince1601_loop fuel (i + 4) y (if IsLeapYear i then leaps + 1 else leaps)
    else leaps
  end.
Definition GetFullLeapYearsSince1601 (y : Z) : Z :=
  GetFullLeapYearsSince1601_loop (Z.to_nat ((y - 1601) / 4 + 1)) 1604 y 0.

Definition TimeStructToValue (t : ostime) : Z :=
  if decide (year t < 1601 ∨ year t > 2400) then 0 else
  if decide (month t < 1 ∨ month t > 12) then 0 else
  if decide (day t < 1 ∨ day t > 31) then 0 else
  let total_secs := sec t in
  let total_secs := u64 (total_secs + min t * 60) in
  let total_secs := u64 (total_secs + hour t * 3600) in
  let days := u64 (day t - 1) in
  let days := u64 (days + cumulative (month t - 1)) in
  let days := if IsLeapYear (year t) && bool_decide (3 ≤ month t) then u64 (days + 1) else days in
  let days := u64 (days + 365 * (year t - 1601)) in
  let days := u64 (days + GetFullLeapYearsSince1601 (year t)) in
  let total_secs := u64 (total_secs + days * SECS_PER_DAY) in
  u64 (total_secs * 1000000 + microsec t).

(** The [for] loop over the months of one year: the month reached and the days
    left in it. *)
Fixpoint find_month (fuel : nat) (i m y days_left : Z) : Z * Z :=
  match fuel with
  | O => (m, days_left)
  | S fuel =>
    let days := cumulative i in
    let leap := Z.b2z (bool_decide (2 ≤ i) && IsLeapYear y) in
    if decide (days + leap ≤ days_left) then find_month fuel (i + 1) (m + 1) y days_left
    else
      let prior := cumulative (i - 1) + Z.b2z (bool_decide (2 ≤ i - 1) && IsLeapYear y) in
      (m, days_left - prior)
  end.

(** The [while (true)] loop over the years; it leaves after the year 2400, so
    801 turns are enough. [m] is the month of the previous turn. *)
Fixpoint find_year (fuel : nat) (y m days_left : Z) : Z * Z * Z :=
  match fuel with
  | O => (y, m, days_left)
  | S fuel =>
    if decide (y > 2400) then (y, m, days_left) else
    let '(m, days_left) := find_month 12 1 1 y days_left in
    if decide (m = 13) then
      find_year fuel (y + 1) m (days_left - if IsLeapYear y then 366 else 365)
    else (y, m, days_left)
  end.

(** [res.month] is set before it is read, as [res.year] starts at 1601. *)
Definition TimeValueToStruct (t : Z) : ostime :=
  let us := t `mod` 1000000 in
  let t := t / 1000000 in
  let days_left := i32 (t / SECS_PER_DAY) in
  let '(y, m, days_left) := find_year 801 1601 1 days_left in
  Ostime (t `mod` 60) ((t / 60) `mod` 60) ((t / 3600) `mod` 24) (u8 (days_left + 1)) m y us.

Definition GetWeekday (t : Z) : Z :=
  let days_since_1601 := i32 (t / 1000000 / SECS_PER_DAY) in
  Z.rem (1 + days_since_1601) 7 + 1.

Definition SECS_BETWEEN_1970_AND_1601 := 11644473600.
Definition TimeValueToUnixTime (t : Z) : Z := u64 (t / 1000000 - SECS_BETWEEN_1970_AND_1601).
Definition UnixTimeToTimeValue (t : Z) : Z := u64 (u64 (t + SECS_BETWEEN_1970_AND_1601) * 1000000).

(** ** The calendar the code implements *)

Definition year_days (y : Z) : Z := if IsLeapYear y then 366 else 365.
(** Days before 1 January of [y]. *)
Definition year_base (y : Z) : Z := 365 * (y - 1601) + GetFullLeapYearsSince1601 y.
Definition leap_extra (l : bool) (i : Z) : Z := Z.b2z (bool_decide (2 ≤ i) && l).
Definition month_days (l : bool) (m : Z) : Z :=
  cumulative m + leap_extra l m - (cumulative (m - 1) + leap_extra l (m - 1)).
Definition day_of_year (l : bool) (m d : Z) : Z := cumulative (m - 1) + leap_extra l (m - 1) + d - 1.

Record valid_date (y m d : Z) : Prop := {
  vd_year : 1601 ≤ y ≤ 2400;
  vd_month : 1 ≤ m ≤ 12;
  vd_day : 1 ≤ d ≤ month_days (IsLeapYear y) m;
}.
Record valid_time (t : ostime) : Prop := {
  vt_date : valid_date (year t) (month t) (day t);
  vt_sec : 0 ≤ sec t < 60;
  vt_min : 0 ≤ min t < 60;
  vt_hour : 0 ≤ hour t < 24;
  vt_us : 0 ≤ microsec t < 1000000;
}.

(** Facts about a bounded range of years or days, by evaluation. *)
Lemma below_forallb (n : nat) (f : Z → bool) :
  forallb (λ i : nat, f i) (seq 0 n) = true → ∀ z, 0 ≤ z < n → f z = true.
Proof.
  intros H z Hz. rewrite forallb_forall in H. specialize (H (Z.to_nat z)).
  rewrite Z2Nat.id in H by lia. apply H, in_seq. lia.
Qed.

Lemma year_base_step y : 1601 ≤ y ≤ 2400 → year_base (y + 1) = year_base y + year_days y.
Proof.
  intros Hy.
  pose (f z := bool_decide (year_base (1601 + z + 1) = year_base (1601 + z) + year_days (1601 + z))).
  assert (f (y - 1601) = true) as H by (apply (below_forallb 800); [by vm_compute|lia]).
  unfold f in H. apply bool_decide_eq_true in H. by replace (1601 + (y - 1601)) with y in H by lia.
Qed.

Lemma year_base_mono y y' : 1601 ≤ y → y ≤ y' → y' ≤ 2401 → year_base y + 365 * (y' - y) ≤ year_base y'.
Proof.
  intros Hy Hle Hle'.
  assert (∀ k, 0 ≤ k → y + k ≤ 2401 → year_base y + 365 * k ≤ year_base (y + k)) as H.
  { apply (natlike_ind (λ k, y + k ≤ 2401 → year_base y + 365 * k ≤ year_base (y + k))).
    - intros _. rewrite !Z.add_0_r. done.
    - intros k Hk IH H. replace (y + Z.succ k) with (y + k + 1) in * by lia.
      rewrite year_base_step by lia. unfold year_days. destruct (IsLeapYear _); lia. }
  specialize (H (y' - y) ltac:(lia)). replace (y + (y' - y)) with y' in H by lia. apply H. lia.
Qed.

Lemma find_month_ext fuel : ∀ i m y y' d,
  IsLeapYear y = IsLeapYear y' → find_month fuel i m y d = find_month fuel i m y' d.
Proof.
  induction fuel as [|fuel IH]; intros i m y y' d H; [done|]. simpl. rewrite H.
  destruct (decide _); [by apply IH|done].
Qed.

(** A year of each kind stands for all of that kind. *)
Definition sample (l : bool) : Z := if l then 1604 else 1601.
Lemma sample_leap l : IsLeapYear (sample l) = l.
Proof. by destruct l. Qed.

(** The month search inside a year returns the one valid date of that day. *)
Lemma find_month_within y d :
  0 ≤ d < year_days y →
  ∃ m k, find_month 12 1 1 y d = (m, k) ∧ 1 ≤ m ≤ 12 ∧ 0 ≤ k < month_days (IsLeapYear y) m ∧
         k ≤ 30 ∧ day_of_year (IsLeapYear y) m (k + 1) = d.
Proof.
  intros Hd. rewrite (find_month_ext 12 1 1 y (sample (IsLeapYear y)) d) by (by rewrite sample_leap).
  set (l := IsLeapYear y) in *.
  pose (f z := let '(m, k) := find_month 12 1 1 (sample l) z in
    bool_decide (z < (if l then 366 else 365) → 1 ≤ m ≤ 12 ∧ 0 ≤ k < month_days l m ∧ k ≤ 30 ∧ day_of_year l m (k + 1) = z)).
  assert (f d = true) as H.
  { apply (below_forallb 366); [by destruct l; vm_compute|]. unfold year_days in Hd. fold l in Hd. destruct l; lia. }
  unfold f in H. destruct (find_month 12 1 1 (sample l) d) as [m k]. apply bool_decide_eq_true in H.
  exists m, k. split; [done|]. apply H. unfold year_days in Hd. fold l in Hd. destruct l; lia.
Qed.

Lemma find_month_of y m d :
  valid_date y m d → find_month 12 1 1 y (day_of_year (IsLeapYear y) m d) = (m, d - 1) ∧ d ≤ 31 ∧
    0 ≤ day_of_year (IsLeapYear y) m d < year_days y.
Proof.
  intros [Hy Hm Hd]. rewrite (find_month_ext 12 1 1 y (sample (IsLeapYear y))) by (by rewrite sample_leap).
  unfold year_days. set (l := IsLeapYear y) in *.
  assert (month_days l m ≤ 31) as Hle.
  { pose (f z := bool_decide (month_days l (1 + z) ≤ 31)).
    assert (f (m - 1) = true) as H by (apply (below_forallb 12); [by destruct l; vm_compute|lia]).
    unfold f in H. apply bool_decide_eq_true in H. by replace (1 + (m - 1)) with m in H by lia. }
  pose (g (zm zd : Z) := bool_decide (zd + 1 ≤ month_days l (1 + zm) →
    find_month 12 1 1 (sample l) (day_of_year l (1 + zm) (zd + 1)) = (1 + zm, zd) ∧
    0 ≤ day_of_year l (1 + zm) (zd + 1) < (if l then 366 else 365))).
  assert (g (m - 1) (d - 1) = true) as H.
  { apply (below_forallb 31 (λ zd, g (m - 1) zd)); [|lia].
    apply (below_forallb 12 (λ zm, forallb (λ i : nat, g zm i) (seq 0 31))); [by destruct l; vm_compute|lia]. }
  unfold g in H. apply bool_decide_eq_true in H.
  replace (1 + (m - 1)) with m in H by lia. replace (d - 1 + 1) with d in H by lia.
  destruct H; [lia|]. split; [done|]. split; [lia|done].
Qed.

(** A whole year is skipped when at least its days are left. *)
Lemma find_month_past y d : year_days y ≤ d → find_month 12 1 1 y d = (13, d).
Proof.
  intros Hd. assert (∀ (n : nat) i m, (0 ≤ i) → i + n = 13 → find_month n i m y d = (m + n, d)) as H.
  { induction n as [|n IH]; intros i m Hi Hn; [by rewrite Z.add_0_r|]. cbn [find_month].
    rewrite decide_True.
    - rewrite IH by lia. f_equal. lia.
    - assert (cumulative i ≤ 365).
      { pose (f z := bool_decide (cumulative z ≤ 365)).
        assert (f i = true) as Hf by (apply (below_forallb 13); [by vm_compute|lia]).
        by apply bool_decide_eq_true in Hf. }
      unfold year_days in Hd. destruct (IsLeapYear y), (bool_decide (2 ≤ i)); simpl; lia. }
  apply (H 12%nat); lia.
Qed.

Lemma find_year_of y m d : valid_date y m d → ∀ (fuel : nat) y0 m0,
  1601 ≤ y0 ≤ y → (y - y0 < fuel) →
  find_year fuel y0 m0 (year_base y - year_base y0 + day_of_year (IsLeapYear y) m d) = (y, m, d - 1).
Proof.
  intros Hv. destruct (find_month_of y m d Hv) as (Hm & _ & Hdoy).
  induction fuel as [|fuel IH]; intros y0 m0 Hy Hf; [lia|]. pose proof (vd_year _ _ _ Hv).
  cbn [find_year]. rewrite decide_False by lia. destruct (decide (y0 = y)) as [->|Hne].
  - rewrite Z.sub_diag, Z.add_0_l, Hm. rewrite decide_False by (destruct Hv; lia). done.
  - assert (year_base (y0 + 1) = year_base y0 + year_days y0) as Hstep by (apply year_base_step; lia).
    pose proof (year_base_mono (y0 + 1) y ltac:(lia) ltac:(lia) ltac:(lia)).
    rewrite find_month_past by lia. rewrite decide_True by done.
    rewrite <- (IH (y0 + 1) 13) by lia. f_equal. rewrite Hstep. unfold year_days. destruct (IsLeapYear y0); lia.
Qed.

Lemma find_year_total : ∀ (fuel : nat) y0 m0 d,
  1601 ≤ y0 → y0 + fuel = 2402 → 0 ≤ d → year_base y0 + d < year_base 2401 →
  ∃ y m k, find_year fuel y0 m0 d = (y, m, k) ∧ valid_date y m (k + 1) ∧ 0 ≤ k ≤ 30 ∧
    year_base y + day_of_year (IsLeapYear y) m (k + 1) = year_base y0 + d.
Proof.
  induction fuel as [|fuel IH]; intros y0 m0 d Hy Hf Hd Hlt.
  { assert (y0 = 2402) as -> by lia. exfalso. revert Hlt. vm_compute (year_base 2401). vm_compute (year_base 2402). lia. }
  assert (y0 ≤ 2400).
  { destruct (decide (y0 = 2401)) as [->|]; lia. }
  cbn [find_year]. rewrite decide_False by lia. destruct (decide (d < year_days y0)) as [Hw|Hw].
  - destruct (find_month_within y0 d ltac:(lia)) as (m & k & E & Hm & Hk & Hk30 & Hdoy).
    rewrite E, decide_False by lia. exists y0, m, k. split; [done|]. split; [split; lia|]. lia.
  - rewrite find_month_past, decide_True by (done || lia).
    pose proof (year_base_step y0 ltac:(lia)) as Hstep.
    destruct (IH (y0 + 1) 13 (d - if IsLeapYear y0 then 366 else 365)) as (y & m & k & E & Hv & Hk & Hb);
      unfold year_days in *; [lia|lia|destruct (IsLeapYear y0); lia|destruct (IsLeapYear y0); lia|].
    exists y, m, k. split; [done|]. split; [done|]. split; [done|]. destruct (IsLeapYear y0); lia.
Qed.

(** The value of a date, without wrap-around. *)
Definition calendar_value (t : ostime) : Z :=
  ((year_base (year t) + day_of_year (IsLeapYear (year t)) (month t) (day t)) * SECS_PER_DAY
   + hour t * 3600 + min t * 60 + sec t) * 1000000 + microsec t.
(** One past the last microsecond of the year 2400. *)
Definition end_of_time : Z := year_base 2401 * SECS_PER_DAY * 1000000.

Lemma day_bound y m d :
  valid_date y m d → 0 ≤ year_base y + day_of_year (IsLeapYear y) m d < year_base 2401.
Proof.
  intros Hv. destruct (find_month_of y m d Hv) as (_ & _ & Hdoy). pose proof (vd_year _ _ _ Hv).
  pose proof (year_base_mono 1601 y ltac:(lia) ltac:(lia) ltac:(lia)).
  pose proof (year_base_mono (y + 1) 2401 ltac:(lia) ltac:(lia) ltac:(lia)).
  rewrite year_base_step in * by lia. change (year_base 1601) with 0 in *. lia.
Qed.

Lemma TimeStructToValue_run t : valid_time t → TimeStructToValue t = calendar_value t.
Proof.
  intros [Hv Hs Hm Hh Hu]. destruct (find_month_of _ _ _ Hv) as (_ & Hd31 & _).
  pose proof (day_bound _ _ _ Hv) as Hb. change (year_base 2401) with 292194 in Hb.
  destruct Hv as [Hy Hmo Hd]. unfold TimeStructToValue, calendar_value.
  do 3 (rewrite decide_False by lia).
  assert (0 ≤ cumulative (month t - 1) ≤ 365) as Hc.
  { pose (f z := bool_decide (0 ≤ cumulative z ≤ 365)).
    assert (f (month t - 1) = true) as Hf by (apply (below_forallb 13); [by vm_compute|lia]).
    by apply bool_decide_eq_true in Hf. }
  unfold year_base, day_of_year, leap_extra in *.
  replace (bool_decide (2 ≤ month t - 1)) with (bool_decide (3 ≤ month t)) in * by (apply bool_decide_ext; lia).
  rewrite (andb_comm (IsLeapYear (year t))). unfold SECS_PER_DAY.
  pose proof (year_base_mono 1601 (year t) ltac:(lia) ltac:(lia) ltac:(lia)) as Hmono.
  change (year_base 1601) with 0 in Hmono. unfold year_base in Hmono.
  set (b := bool_decide (3 ≤ month t) && IsLeapYear (year t)) in *.
  set (g := GetFullLeapYearsSince1601 (year t)) in *. set (cu := cumulative (month t - 1)) in *.
  clearbody b g cu. unfold is_u64 in *.
  destruct b; simpl Z.b2z in *;
    repeat match goal with
    | |- context [u64 ?x] =>
      lazymatch x with context [u64 _] => fail | _ => rewrite (u64_small x) by (unfold is_u64; lia) end
    end; lia.
Qed.

(** ** Properties *)

(** converting any valid calendar time of the years 1601 to 2400 to a time
    value and back gives the same fields; the conversion never wraps. *)
Theorem calendar_roundtrip t :
  valid_time t → TimeValueToStruct (TimeStructToValue t) = t ∧ 0 ≤ TimeStructToValue t < end_of_time.
Proof.
  intros Hv. rewrite TimeStructToValue_run by done. pose proof (day_bound _ _ _ (vt_date _ Hv)) as Hb.
  pose proof (find_year_of _ _ _ (vt_date _ Hv) 801 1601 1) as Hf.
  destruct (find_month_of _ _ _ (vt_date _ Hv)) as (_ & Hd31 & _).
  destruct Hv as [[Hy Hmo Hd] Hs Hm Hh Hu].
  change (year_base 1601) with 0 in Hf. rewrite Z.sub_0_r in Hf.
  unfold TimeValueToStruct, calendar_value, end_of_time.
  set (N := year_base (year t) + day_of_year (IsLeapYear (year t)) (month t) (day t)) in *.
  change (year_base 2401) with 292194 in *. unfold SECS_PER_DAY in *.
  split; [|clearbody N; lia].
  set (S := N * 86400 + hour t * 3600 + min t * 60 + sec t).
  replace ((S * 1000000 + microsec t) `mod` 1000000) with (microsec t) by (apply (Z.mod_unique _ _ S); lia).
  replace ((S * 1000000 + microsec t) / 1000000) with S by (apply (Z.div_unique _ _ _ (microsec t)); lia).
  replace (S `mod` 60) with (sec t) by (apply (Z.mod_unique _ _ (N * 1440 + hour t * 60 + min t)); lia).
  replace ((S / 60) `mod` 60) with (min t).
  2: { replace (S / 60) with (N * 1440 + hour t * 60 + min t) by (apply (Z.div_unique _ _ _ (sec t)); lia).
       apply (Z.mod_unique _ _ (N * 24 + hour t)); lia. }
  replace ((S / 3600) `mod` 24) with (hour t).
  2: { replace (S / 3600) with (N * 24 + hour t) by (apply (Z.div_unique _ _ _ (min t * 60 + sec t)); lia).
       apply (Z.mod_unique _ _ N); lia. }
  replace (S / 86400) with N by (apply (Z.div_unique _ _ _ (hour t * 3600 + min t * 60 + sec t)); lia).
  rewrite i32_small by lia. rewrite Hf by lia.
  rewrite u8_small by (unfold is_u8; lia). replace (day t - 1 + 1) with (day t) by lia. by destruct t.
Qed.

(** every time value before the year 2401 converts to a valid calendar time
    whose value is the one started from, so distinct values have distinct
    calendar times. *)
Theorem value_roundtrip v :
  0 ≤ v < end_of_time →
  valid_time (TimeValueToStruct v) ∧ TimeStructToValue (TimeValueToStruct v) = v.
Proof.
  intros Hv. unfold end_of_time, SECS_PER_DAY in Hv.
  set (S := v / 1000000). set (N := S / 86400).
  pose proof (Z.div_mod v 1000000 ltac:(lia)) as E1. fold S in E1. pose proof (Z.mod_pos_bound v 1000000 ltac:(lia)).
  pose proof (Z.div_mod S 86400 ltac:(lia)) as E2. fold N in E2. pose proof (Z.mod_pos_bound S 86400 ltac:(lia)).
  assert (0 ≤ N < year_base 2401) as HN by lia.
  destruct (find_year_total 801 1601 1 N) as (y & m & k & E & Hd & Hk & Hb); [lia|lia|lia| |].
  { change (year_base 1601) with 0. lia. }
  change (year_base 1601) with 0 in Hb. rewrite Z.add_0_l in Hb.
  assert (valid_time (TimeValueToStruct v) ∧ calendar_value (TimeValueToStruct v) = v) as [H1 H2].
  2: { split; [done|]. by rewrite TimeStructToValue_run. }
  unfold TimeValueToStruct. fold S. unfold SECS_PER_DAY. fold N.
  change (year_base 2401) with 292194 in *. rewrite i32_small, E by lia.
  rewrite (u8_small (k + 1)) by (unfold is_u8; lia). split.
  - split; simpl; try done; apply Z.mod_pos_bound; lia.
  - unfold calendar_value, SECS_PER_DAY. simpl. rewrite Hb.
    pose proof (Z.div_mod S 60 ltac:(lia)). pose proof (Z.div_mod (S / 60) 60 ltac:(lia)).
    assert (S / 3600 = S / 60 / 60) as E3 by (rewrite Z.div_div by lia; f_equal).
    pose proof (Z.div_mod (S / 3600) 24 ltac:(lia)).
    assert (N = S / 3600 / 24) as E4 by (unfold N; rewrite Z.div_div by lia; f_equal).
    rewrite E4, E3 in *. lia.
Qed.

(** The Unix conversions invert each other on seconds from 1970 on. *)
Lemma unix_time_roundtrip s :
  0 ≤ s → s + SECS_BETWEEN_1970_AND_1601 < 2 ^ 64 / 1000000 → TimeValueToUnixTime (UnixTimeToTimeValue s) = s.
Proof.
  intros Hs Hlt. unfold TimeValueToUnixTime, UnixTimeToTimeValue, SECS_BETWEEN_1970_AND_1601 in *.
  change (2 ^ 64 / 1000000) with 18446744073709 in Hlt.
  rewrite (u64_small (s + _)) by (unfold is_u64; lia). rewrite (u64_small (_ * 1000000)) by (unfold is_u64; lia).
  rewrite Z.div_mul by lia. rewrite u64_small by (unfold is_u64; lia). lia.
Qed.

(** 1 January 1970 is the Unix epoch and was a Thursday, the fifth day of the
    code's week, in which Saturday is 7. *)
Lemma unix_epoch :
  TimeStructToValue (Ostime 0 0 0 1 1 1970 0) = UnixTimeToTimeValue 0 ∧ GetWeekday (UnixTimeToTimeValue 0) = 5.
Proof. by vm_compute. Qed.

Definition leap_day : ostime := Ostime 59 59 23 29 2 2000 999999.
Lemma leap_day_valid : valid_time leap_day.
Proof.
  split; [split|..]; unfold leap_day; cbn [year month day sec min hour microsec]; try lia.
  change (month_days (IsLeapYear 2000) 2) with 29. lia.
Qed.
Lemma calendar_roundtrip_witness :
  TimeValueToStruct (TimeStructToValue leap_day) = leap_day ∧ 0 ≤ TimeStructToValue leap_day < end_of_time.
Proof. apply (calendar_roundtrip leap_day), leap_day_valid. Defined.
Lemma value_roundtrip_witness :
  valid_time (TimeValueToStruct 12596687999999999) ∧
  TimeStructToValue (TimeValueToStruct 12596687999999999) = 12596687999999999.
Proof. apply (value_roundtrip 12596687999999999). vm_compute (end_of_time). lia. Defined.
