(* ===== verification/SearchSort.v ===== *)
(** * libc/common/stdlib/search_sort.c: [qsort], [bsearch]

    The array is a list of its elements: the code addresses it only as
    [base + index * size] and moves whole elements of [size] bytes. Indices are
    32-bit [size_t] values and wrap; an element outside the array is a fault.
    The two temporary buffers of [Merge] are copies. *)

From Stdlib Require Import Sorted.
From S2P Require Import Prelude.

#[local] Ltac Zify.zify_post_hook ::= Z.to_euclidean_division_equations.

Section search_sort.
Context {A : Type}.
Variable compar : A → A → Z.

(** [memcpy] of [count] elements out of the array, and of one into it. *)
Definition read_range (low count : Z) : M (list A) (list A) :=
  arr ← get;
  if decide (0 ≤ low ∧ 0 ≤ count ∧ low + count ≤ length arr)
  then mret (take (Z.to_nat count) (drop (Z.to_nat low) arr)) else fault.
Definition write_elem (i : Z) (x : A) : M (list A) unit :=
  arr ← get; arr' ← deref (aset arr i x); put arr'.

(** The first [while] of [Merge]; every turn consumes one element. *)
Fixpoint Merge_loop (fuel : nat) (temp_1 temp_2 : list A) (index_1 index_2 out_index : Z) : M (list A) (Z * Z * Z) :=
  if decide (index_1 < length temp_1 ∧ index_2 < length temp_2) then
    match fuel with
    | O => exhausted
    | S fuel =>
      item_1 ← deref (aget temp_1 index_1);
      item_2 ← deref (aget temp_2 index_2);
      if decide (compar item_1 item_2 ≤ 0) then
        write_elem out_index item_1;; Merge_loop fuel temp_1 temp_2 (index_1 + 1) index_2 (out_index + 1)
      else
        write_elem out_index item_2;; Merge_loop fuel temp_1 temp_2 index_1 (index_2 + 1) (out_index + 1)
    end
  else mret (index_1, index_2, out_index).

(** The other two: what is left of one buffer. *)
Fixpoint Merge_rest (fuel : nat) (temp : list A) (index out_index : Z) : M (list A) Z :=
  if decide (index < length temp) then
    match fuel with
    | O => exhausted
    | S fuel =>
      item ← deref (aget temp index);
      write_elem out_index item;; Merge_rest fuel temp (index + 1) (out_index + 1)
    end
  else mret out_index.

Definition Merge (low mid high : Z) : M (list A) unit :=
  let count_1 := u32 (mid - low + 1) in
  let count_2 := u32 (high - mid) in
  temp_1 ← read_range low count_1;
  temp_2 ← read_range (u32 (mid + 1)) count_2;
  '(index_1, index_2, out_index) ← Merge_loop (length temp_1 + length temp_2) temp_1 temp_2 0 0 low;
  out_index ← Merge_rest (length temp_1) temp_1 index_1 out_index;
  Merge_rest (length temp_2) temp_2 index_2 out_index;;
  mret tt.

(** Both halves are shorter; [fuel] bounds the depth. *)
Fixpoint MergeSort (fuel : nat) (low high : Z) : M (list A) unit :=
  if decide (low < high) then
    match fuel with
    | O => exhausted
    | S fuel =>
      let mid := low + (high - low) / 2 in
      MergeSort fuel low mid;;
      MergeSort fuel (u32 (mid + 1)) high;;
      Merge low mid high
    end
  else mret tt.

Definition qsort (fuel : nat) (nmemb : Z) : M (list A) unit := MergeSort fuel 0 (u32 (nmemb - 1)).
Definition qsort_pageable (fuel : nat) (nmemb : Z) : M (list A) unit := MergeSort fuel 0 (u32 (nmemb - 1)).

(** ** What the merge computes *)
Definition R (x y : A) : Prop := compar x y ≤ 0.
Instance R_dec x y : Decision (R x y) := decide (compar x y ≤ 0).

Lemma write_elem_run pre x (rest : list A) y :
  write_elem (length pre) x (pre ++ y :: rest) = Done (tt, (pre ++ [x]) ++ rest).
Proof.
  unfold write_elem. mred. rewrite aset_nat by (rewrite length_app; simpl; lia). cbn [outcome_bind].
  rewrite insert_app_r_alt, Nat.sub_diag by lia. simpl. by rewrite <- app_assoc.
Qed.

Lemma read_range_run pre l (post : list A) :
  read_range (length pre) (length l) (pre ++ l ++ post) = Done (l, pre ++ l ++ post).
Proof.
  unfold read_range. mred. rewrite decide_True by (rewrite !length_app; lia).
  rewrite !Nat2Z.id, drop_app_length, take_app_length. done.
Qed.

Lemma Merge_rest_run t : ∀ (fuel : nat) (i : nat) pre old post,
  (length t - i ≤ fuel)%nat → length old = (length t - i)%nat →
  Merge_rest fuel t i (length pre) (pre ++ old ++ post)
  = Done (Z.of_nat (length (pre ++ drop i t)), (pre ++ drop i t) ++ post).
Proof.
  induction fuel as [|fuel IH]; intros i pre old post Hf Ho.
  - destruct old; [|simpl in Ho; lia]. simpl. rewrite decide_False by lia. by rewrite drop_ge, app_nil_r by lia.
  - cbn [Merge_rest]. destruct (decide (i < length t)) as [Hi|Hi].
    + destruct (lookup_lt_is_Some_2 t i) as [x Hx]; [lia|]. destruct old as [|y old]; [simpl in Ho; lia|].
      rewrite aget_nat, Hx. unfold deref at 1. rewrite (M_bind_done _ _ _ x _ eq_refl).
      rewrite (M_bind_done _ _ _ _ _ (write_elem_run pre x (old ++ post) y)).
      specialize (IH (S i) (pre ++ [x]) old post ltac:(lia) ltac:(simpl in Ho; lia)).
      rewrite length_app in IH. simpl length in IH.
      replace (i + 1) with (Z.of_nat (S i)) by lia. replace (length pre + 1) with (Z.of_nat (length pre + 1)) by lia.
      rewrite IH. rewrite (drop_S _ _ _ Hx). by rewrite <- !app_assoc.
    + destruct old; [|simpl in Ho; lia]. by rewrite drop_ge, app_nil_r by lia.
Qed.

Lemma Merge_loop_run t1 t2 : ∀ (fuel i1 i2 : nat) pre old post,
  (i1 ≤ length t1)%nat → (i2 ≤ length t2)%nat →
  length old = (length t1 - i1 + (length t2 - i2))%nat → (length old ≤ fuel)%nat →
  ∃ (j1 j2 : nat) done_ old',
    Merge_loop fuel t1 t2 i1 i2 (length pre) (pre ++ old ++ post)
    = Done ((Z.of_nat j1, Z.of_nat j2, Z.of_nat (length (pre ++ done_))), (pre ++ done_) ++ old' ++ post) ∧
    length old' = (length t1 - j1 + (length t2 - j2))%nat ∧
    list_merge R (drop i1 t1) (drop i2 t2) = done_ ++ drop j1 t1 ++ drop j2 t2 ∧
    (j1 = length t1 ∨ j2 = length t2) ∧ (j1 ≤ length t1)%nat ∧ (j2 ≤ length t2)%nat.
Proof.
  induction fuel as [|fuel IH]; intros i1 i2 pre old post H1 H2 Ho Hf.
  - exists i1, i2, [], old. simpl. rewrite decide_False by lia. rewrite app_nil_r.
    split_and!; [done|done| |lia|done|done]. by rewrite !drop_ge by lia.
  - cbn [Merge_loop]. destruct (decide (i1 < length t1 ∧ i2 < length t2)) as [[Hi1 Hi2]|Hstop].
    + destruct (lookup_lt_is_Some_2 t1 i1) as [x Hx]; [lia|]. destruct (lookup_lt_is_Some_2 t2 i2) as [z Hz]; [lia|].
      destruct old as [|y old]; [simpl in Ho; lia|]. simpl in Ho, Hf.
      rewrite !aget_nat, Hx, Hz. unfold deref. rewrite (M_bind_done _ _ _ x _ eq_refl), (M_bind_done _ _ _ z _ eq_refl).
      pose proof (drop_S t1 x i1 Hx) as D1. pose proof (drop_S t2 z i2 Hz) as D2.
      destruct (decide (compar x z ≤ 0)) as [Hc|Hc].
      * rewrite (M_bind_done _ _ _ _ _ (write_elem_run pre x (old ++ post) y)).
        destruct (IH (S i1) i2 (pre ++ [x]) old post) as (j1 & j2 & d & old' & E & Hlen & Hmm & Hj); [lia..|].
        exists j1, j2, (x :: d), old'. rewrite length_app in E. simpl length in E.
        replace (i1 + 1) with (Z.of_nat (S i1)) by lia. replace (length pre + 1) with (Z.of_nat (length pre + 1)) by lia.
        rewrite E, D1, D2, list_merge_cons, decide_True, <- D2, Hmm by done. rewrite <- !(app_assoc pre [x]). done.
      * rewrite (M_bind_done _ _ _ _ _ (write_elem_run pre z (old ++ post) y)).
        destruct (IH i1 (S i2) (pre ++ [z]) old post) as (j1 & j2 & d & old' & E & Hlen & Hmm & Hj); [lia..|].
        exists j1, j2, (z :: d), old'. rewrite length_app in E. simpl length in E.
        replace (i2 + 1) with (Z.of_nat (S i2)) by lia. replace (length pre + 1) with (Z.of_nat (length pre + 1)) by lia.
        rewrite E, D1, D2, list_merge_cons, decide_False, <- D1, Hmm by done. rewrite <- !(app_assoc pre [z]). done.
    + exists i1, i2, [], old. rewrite app_nil_r. split_and!; [done|done| |lia|done|done].
      assert (i1 = length t1 ∨ i2 = length t2) as [-> | ->] by lia.
      * by rewrite (drop_ge t1), list_merge_nil_l by lia.
      * by rewrite (drop_ge t2), list_merge_nil_r, app_nil_r by lia.
Qed.

Lemma Merge_run pre l1 l2 post low mid high :
  low = length pre → mid = length pre + length l1 - 1 → high = length pre + length l1 + length l2 - 1 →
  (1 ≤ length l1)%nat → length pre + length l1 + length l2 < 2 ^ 32 →
  Merge low mid high (pre ++ (l1 ++ l2) ++ post) = Done (tt, pre ++ list_merge R l1 l2 ++ post).
Proof.
  intros -> -> -> H1 Hlt. unfold Merge.
  rewrite !(u32_small) by (unfold is_u32; lia).
  replace (length pre + length l1 - 1 - length pre + 1) with (Z.of_nat (length l1)) by lia.
  replace (length pre + length l1 + length l2 - 1 - (length pre + length l1 - 1)) with (Z.of_nat (length l2)) by lia.
  rewrite <- (app_assoc l1). rewrite (M_bind_done _ _ _ _ _ (read_range_run pre l1 (l2 ++ post))).
  replace (length pre + length l1 - 1 + 1) with (Z.of_nat (length (pre ++ l1))) by (rewrite length_app; lia).
  rewrite (app_assoc pre). rewrite (M_bind_done _ _ _ _ _ (read_range_run (pre ++ l1) l2 post)).
  rewrite <- (app_assoc pre), (app_assoc l1).
  destruct (Merge_loop_run l1 l2 (length l1 + length l2) 0 0 pre (l1 ++ l2) post)
    as (j1 & j2 & d & old & E & Hlen & Hm & Hj & Hj1 & Hj2); [lia|lia|rewrite length_app; lia|rewrite length_app; lia|].
  rewrite (M_bind_done _ _ _ _ _ E). rewrite !drop_0 in Hm. rewrite Hm.
  set (o1 := take (length l1 - j1) old). set (o2 := drop (length l1 - j1) old).
  assert (old = o1 ++ o2) as Hold by (symmetry; apply take_drop). rewrite Hold, <- (app_assoc o1).
  erewrite M_bind_done by (apply (Merge_rest_run l1 (length l1) j1 (pre ++ d) o1 (o2 ++ post));
    [lia|unfold o1; rewrite length_take; lia]).
  erewrite M_bind_done by (apply (Merge_rest_run l2 (length l2) j2 ((pre ++ d) ++ drop j1 l1) o2 post);
    [lia|unfold o2; rewrite length_drop; lia]).
  unfold mret, M_mret. by rewrite <- !app_assoc.
Qed.

Context (Htrans : Transitive R) (Htotal : Total R).

(** Elements the comparison does not tell apart. *)
Definition same_key (x y : A) : Prop := R x y ∧ R y x.
Instance same_key_dec x y : Decision (same_key x y).
Proof. unfold same_key. apply _. Defined.

Lemma filter_same_key_nil x x1 x2 l :
  StronglySorted R (x1 :: l) → ¬ R x1 x2 → same_key x x2 → filter (same_key x) (x1 :: l) = [].
Proof.
  intros Hs Hn [Hx _]. assert (∀ y, y ∈ x1 :: l → ¬ same_key x y) as H.
  { intros y Hy [_ Hyx]. apply Hn. apply StronglySorted_inv in Hs as [_ Hall]. rewrite Forall_forall in Hall.
    assert (R x1 y) as H1.
    { apply elem_of_cons in Hy as [->|Hy]; [|by apply Hall]. by destruct (Htotal x1 x1). }
    etransitivity; [exact H1|]. by etransitivity. }
  clear Hs. induction (x1 :: l) as [|y l' IH]; [done|]. rewrite filter_cons_False by (apply H; set_solver).
  apply IH. set_solver.
Qed.

(** The merge keeps the order of elements it cannot tell apart. *)
Lemma filter_merge x l1 : ∀ l2,
  StronglySorted R l1 → StronglySorted R l2 →
  filter (same_key x) (list_merge R l1 l2) = filter (same_key x) (l1 ++ l2).
Proof.
  induction l1 as [|x1 l1 IH1]; intros l2 H1 H2; [by rewrite list_merge_nil_l|].
  induction l2 as [|x2 l2 IH2]; [by rewrite list_merge_nil_r, app_nil_r|]. rewrite list_merge_cons.
  pose proof H1 as Hs1. apply StronglySorted_inv in H1 as [H1 _]. pose proof H2 as Hs2. apply StronglySorted_inv in H2 as [H2 _].
  destruct (decide (R x1 x2)) as [Hr|Hr].
  - cbn [app]. rewrite !filter_cons, (IH1 (x2 :: l2)) by done. done.
  - rewrite filter_cons, IH2 by done. change (x1 :: l1 ++ x2 :: l2) with ((x1 :: l1) ++ x2 :: l2).
    rewrite !filter_app, (filter_cons _ x2). destruct (decide (same_key x x2)) as [Hk|]; [|done].
    by rewrite (filter_same_key_nil x x1 x2 l1).
Qed.

(** A rearrangement of [l] into order that is stable. *)
Record sorts (l l' : list A) : Prop := {
  so_sorted : StronglySorted R l';
  so_perm : l' ≡ₚ l;
  so_stable : ∀ x, filter (same_key x) l' = filter (same_key x) l;
}.

Lemma sorts_merge l1 l2 l1' l2' : sorts l1 l1' → sorts l2 l2' → sorts (l1 ++ l2) (list_merge R l1' l2').
Proof.
  intros [S1 P1 F1] [S2 P2 F2]. split.
  - apply Sorted_StronglySorted; [exact Htrans|].
    apply Sorted_list_merge; [exact Htotal|by apply StronglySorted_Sorted..].
  - by rewrite merge_Permutation, P1, P2.
  - intros x. rewrite filter_merge by done. by rewrite !filter_app, F1, F2.
Qed.

Lemma MergeSort_run : ∀ (fuel : nat) pre l post,
  (1 ≤ length l)%nat → (length l ≤ fuel)%nat → length pre + length l < 2 ^ 32 →
  ∃ l', MergeSort fuel (length pre) (length pre + length l - 1) (pre ++ l ++ post)
        = Done (tt, pre ++ l' ++ post) ∧ sorts l l'.
Proof.
  induction fuel as [|fuel IH]; intros pre l post H1 Hf Hlt; [lia|]. cbn [MergeSort].
  destruct (decide (length pre < length pre + length l - 1)) as [Hlong|Hshort].
  2: { exists l. split; [done|]. destruct l as [|x [|y l]]; simpl in *; try lia.
       split; [repeat constructor|done|done]. }
  set (n := S (Z.to_nat ((length l - 1) / 2))).
  assert (Z.of_nat n = (length l - 1) / 2 + 1) as Hn by (unfold n; lia).
  assert (1 ≤ n < length l)%nat as Hnb by (unfold n; lia).
  set (l1 := take n l). set (l2 := drop n l).
  assert (length l1 = n) as Hl1 by (unfold l1; rewrite length_take; lia).
  assert (length l2 = (length l - n)%nat) as Hl2 by (unfold l2; rewrite length_drop; lia).
  assert (l = l1 ++ l2) as Hl by (symmetry; apply take_drop).
  replace (length pre + (length pre + length l - 1 - length pre) / 2) with (length pre + length l1 - 1).
  2: { rewrite Hl1, Hn. replace (length pre + length l - 1 - length pre) with (length l - 1) by lia. lia. }
  rewrite u32_small by (unfold is_u32; lia).
  destruct (IH pre l1 (l2 ++ post)) as (l1' & E1 & S1); [lia..|].
  replace (pre ++ l ++ post) with (pre ++ l1 ++ l2 ++ post) by (by rewrite (app_assoc l1), <- Hl).
  rewrite (M_bind_done _ _ _ _ _ E1).
  assert (length l1' = length l1) as Hl1' by (apply Permutation_length, S1).
  destruct (IH (pre ++ l1') l2 post) as (l2' & E2 & S2); [lia|lia|rewrite length_app; lia|].
  assert (length l2' = length l2) as Hl2' by (apply Permutation_length, S2).
  rewrite length_app, Hl1' in E2. rewrite (app_assoc pre).
  replace (length pre + length l1 - 1 + 1) with (Z.of_nat (length pre + length l1)) by lia.
  replace (length pre + length l - 1) with ((length pre + length l1)%nat + length l2 - 1) by lia.
  rewrite (M_bind_done _ _ _ _ _ E2).
  exists (list_merge R l1' l2'). split; [|rewrite Hl; by apply sorts_merge].
  rewrite <- (app_assoc pre), (app_assoc l1'). apply Merge_run; lia.
Qed.
End search_sort.

Section bsearch.
Context {A K : Type}.
Variable compar : K → A → Z.

(** [while (low <= high)]: the interval shrinks until [high] wraps; [fuel]
    bounds the turns. The result is the index found, or [None] for NULL. *)
Fixpoint bsearch_loop (fuel : nat) (key : K) (base : list A) (low high : Z) : outcome (option Z) :=
  if decide (low ≤ high) then
    match fuel with
    | O => Exhausted
    | S fuel =>
      let mid := u32 (low + u32 (high - low) / 2) in
      match aget base mid with
      | None => Faulted
      | Some mid_item =>
        let compare_result := compar key mid_item in
        if decide (compare_result = 0) then Done (Some mid)
        else if decide (compare_result < 0) then bsearch_loop fuel key base low (u32 (mid - 1))
        else bsearch_loop fuel key base (u32 (mid + 1)) high
      end
    end
  else Done None.

Definition bsearch (fuel : nat) (key : K) (base : list A) (nmemb : Z) : outcome (option Z) :=
  bsearch_loop fuel key base 0 (u32 (nmemb - 1)).

(** What [bsearch] asks of the array: the elements compare in the order less,
    equal, greater. *)
Definition partitioned (key : K) (base : list A) : Prop :=
  ∀ i j x y, (i < j)%nat → base !! i = Some x → base !! j = Some y →
    (0 ≤ compar key y → 0 ≤ compar key x) ∧ (0 < compar key y → 0 < compar key x).

(** The answer can only be between [low] and [high]. *)
Definition bracketed (key : K) (base : list A) (low high : Z) : Prop :=
  ∀ (i : nat) x, base !! i = Some x → ((i < low → 0 < compar key x) ∧ (high < i → compar key x < 0)).

Definition found (key : K) (base : list A) (r : option Z) : Prop :=
  match r with
  | Some i => ∃ x, aget base i = Some x ∧ compar key x = 0
  | None => ∀ x, x ∈ base → compar key x ≠ 0
  end.

Lemma bsearch_loop_run key base : partitioned key base →
  (∀ x, head base = Some x → 0 ≤ compar key x) → length base < 2 ^ 31 →
  ∀ (fuel : nat) low high, 0 ≤ low → low ≤ high + 1 → -1 ≤ high < length base → (low = 0 → 0 ≤ high) →
  high - low + 2 ≤ fuel → bracketed key base low high →
  ∃ r, bsearch_loop fuel key base low (u32 high) = Done r ∧ found key base r.
Proof.
  intros Hp Hfirst Hlen. induction fuel as [|fuel IH]; intros low high H0 Hlh Hh Hz Hf Hb; [lia|].
  assert (u32 high = high) as -> by (apply u32_small; unfold is_u32; lia).
  cbn [bsearch_loop]. destruct (decide (low ≤ high)) as [Hle|Hgt].
  2: { exists None. split; [done|]. intros x Hx. apply list_elem_of_lookup in Hx as [i Hi].
       destruct (Hb i x Hi) as [B1 B2]. intros Hc0. destruct (decide (i < low)); [|lia].
       specialize (B1 ltac:(lia)). lia. }
  assert (u32 (high - low) = high - low) as -> by (apply u32_small; unfold is_u32; lia).
  set (mid := low + (high - low) / 2). assert (low ≤ mid ≤ high) as Hmid by (unfold mid; lia).
  assert (u32 mid = mid) as -> by (apply u32_small; unfold is_u32; lia).
  assert (mid = Z.of_nat (Z.to_nat mid)) as Em by lia.
  destruct (lookup_lt_is_Some_2 base (Z.to_nat mid)) as [x Hx]; [lia|].
  assert (aget base mid = Some x) as Hax by (rewrite Em; by rewrite aget_nat). rewrite Hax.
  destruct (decide (compar key x = 0)) as [Hc|Hc]; [by exists (Some mid); split; [|exists x]|].
  destruct (decide (compar key x < 0)) as [Hc'|Hc'].
  - assert (mid ≠ 0) as Hm0.
    { intros Hm0. rewrite Hm0 in Hx. destruct base as [|x0 base]; [done|]. injection Hx as ->.
      specialize (Hfirst x eq_refl). lia. }
    apply IH; try lia. intros i y Hy. destruct (Hb i y Hy) as [B1 B2]. split; [done|].
    intros Hi. destruct (decide (Z.to_nat mid = i)) as [<-|]; [congruence|].
    destruct (Hp (Z.to_nat mid) i x y) as [P1 P2]; [lia|done..|]. lia.
  - assert (u32 (mid + 1) = mid + 1) as -> by (apply u32_small; unfold is_u32; lia).
    assert (u32 high = high) as Hu by (apply u32_small; unfold is_u32; lia). rewrite <- Hu.
    apply IH; try lia. intros i y Hy. destruct (Hb i y Hy) as [B1 B2]. split; [|done].
    intros Hi. destruct (decide (Z.to_nat mid = i)) as [<-|]; [assert (x = y) as <- by congruence; lia|].
    destruct (Hp i (Z.to_nat mid) y x) as [P1 P2]; [lia|done..|]. lia.
Qed.

(** Below the first element [high] falls to 0 and wraps to the largest
    [size_t], and the next element looked at is outside the array. *)
Lemma bsearch_loop_wraps key base :
  (∀ x, x ∈ base → compar key x < 0) → length base < 2 ^ 31 →
  ∀ (fuel : nat) high, 0 ≤ high < length base → high + 2 ≤ fuel →
  bsearch_loop fuel key base 0 high = Faulted.
Proof.
  intros Hall Hlen. induction fuel as [|fuel IH]; intros high Hh Hf; [lia|].
  cbn [bsearch_loop]. rewrite decide_True by lia. rewrite Z.sub_0_r, Z.add_0_l.
  rewrite (u32_small high) by (unfold is_u32; lia). rewrite u32_small by (unfold is_u32; lia).
  destruct (lookup_lt_is_Some_2 base (Z.to_nat (high / 2))) as [x Hx]; [lia|].
  assert (aget base (high / 2) = Some x) as Hax.
  { replace (high / 2) with (Z.of_nat (Z.to_nat (high / 2))) by lia. by rewrite aget_nat. }
  rewrite Hax. assert (compar key x < 0) by (eapply Hall, list_elem_of_lookup_2, Hx).
  rewrite decide_False, decide_True by lia. destruct (decide (high / 2 = 0)) as [Hz|Hnz].
  - rewrite Hz. change (u32 (0 - 1)) with (2 ^ 32 - 1). destruct fuel as [|fuel]; [lia|].
    cbn [bsearch_loop]. rewrite decide_True by lia. change (u32 (0 + u32 (2 ^ 32 - 1 - 0) / 2)) with (2 ^ 31 - 1).
    unfold aget. rewrite decide_True by lia. by rewrite lookup_ge_None_2 by lia.
  - rewrite u32_small by (unfold is_u32; lia). apply IH; lia.
Qed.
End bsearch.

(** ** Properties *)

(** for a comparison that is a total preorder, [qsort] on a non-empty array
    terminates without leaving it and rearranges it into order; elements that
    compare equal keep their order, so the result is the one stable sorting of
    the input. *)
Theorem qsort_sorts {A} (compar : A → A → Z) (fuel : nat) (arr : list A) :
  Transitive (R compar) → Total (R compar) → arr ≠ [] → length arr < 2 ^ 32 → (length arr ≤ fuel)%nat →
  ∃ arr', qsort compar fuel (length arr) arr = Done (tt, arr') ∧ sorts compar arr arr'.
Proof.
  intros Ht Hto Hne Hlt Hf.
  assert (1 ≤ length arr)%nat by (destruct arr; simpl in *; [done|lia]).
  destruct (MergeSort_run compar Ht Hto fuel [] arr []) as (l' & E & Hs); [done|done|simpl; lia|].
  exists l'. split; [|done]. unfold qsort. rewrite u32_small by (unfold is_u32; lia).
  simpl in E. rewrite !app_nil_r in E. exact E.
Qed.

(** on an array ordered for the key, [bsearch] terminates and answers
    correctly (an element that compares equal, or NULL when there is none)
    exactly when the key is not below the first element; for a key below every
    element it leaves the array, because [high = mid - 1] wraps at zero. *)
Theorem bsearch_correct {A K} (compar : K → A → Z) key x0 (l : list A) (fuel : nat) :
  let base := x0 :: l in
  partitioned compar key base → length base < 2 ^ 31 → (length base + 2 ≤ fuel)%nat →
  if decide (compar key x0 < 0) then bsearch compar fuel key base (length base) = Faulted
  else ∃ r, bsearch compar fuel key base (length base) = Done r ∧ found compar key base r.
Proof.
  intros base Hp Hlen Hf. assert (1 ≤ length base)%nat by (simpl; lia). unfold bsearch.
  destruct (decide (compar key x0 < 0)) as [Hlt|Hge].
  - rewrite u32_small by (unfold is_u32; lia). apply bsearch_loop_wraps; [|done|lia|lia].
    intros x Hx. apply list_elem_of_lookup in Hx as [i Hi]. destruct i as [|i].
    + injection Hi as <-. done.
    + destruct (Hp 0%nat (S i) x0 x) as [P1 P2]; [lia|done..|]. lia.
  - apply bsearch_loop_run; try done; try lia.
    + intros x Hx. injection Hx as <-. lia.
    + intros i x Hi. split; [lia|]. intros Hhi. apply lookup_lt_Some in Hi. lia.
Qed.

(** An empty array makes [nmemb - 1] wrap: [bsearch] reads outside it. *)
Lemma bsearch_empty_faults {A K} (compar : K → A → Z) key (fuel : nat) :
  (0 < fuel)%nat → bsearch compar fuel key [] 0 = Faulted.
Proof. intros. destruct fuel; [lia|]. done. Qed.

(** ** Concrete runs *)
Definition by_first (x y : Z * Z) : Z := x.1 - y.1.
Lemma by_first_trans : Transitive (R by_first).
Proof. intros x y z. unfold R, by_first. lia. Qed.
Lemma by_first_total : Total (R by_first).
Proof. intros x y. unfold R, by_first. lia. Qed.

Example qsort_run : qsort by_first 5 5 [(3, 0); (1, 0); (3, 1); (2, 0); (1, 1)]
  = Done (tt, [(1, 0); (1, 1); (2, 0); (3, 0); (3, 1)]).
Proof. by vm_compute. Qed.

Lemma qsort_sorts_witness :
  let arr := [(3, 0); (1, 0); (3, 1)] in
  ∃ arr', qsort by_first 3 3 arr = Done (tt, arr') ∧ sorts by_first arr arr'.
Proof.
  apply (qsort_sorts by_first 3 [(3, 0); (1, 0); (3, 1)] by_first_trans by_first_total); simpl; [done|lia|lia].
Defined.

Lemma bsearch_correct_witness :
  ∃ r, bsearch Z.sub 4 5 [3; 5] 2 = Done r ∧ found Z.sub 5 [3; 5] r.
Proof.
  apply (bsearch_correct Z.sub 5 3 [5] 4); [|simpl; lia|simpl; lia].
  intros [|[|i]] [|[|j]] x y; simpl; intros; simplify_eq; lia.
Defined.
