(* ===== verification/CString.v ===== *)
(** * libc/common/string.c, ctype.c and the routines of common/cmn_string.h

    Memory is a map from addresses to bytes (0 to 255); an access to an address
    outside it is a fault. A [char] is signed on the target, so a byte read as
    a [char] is [i8] of it. Loops that stop at a terminating zero take a bound
    on their turns; loops with a count run on the count. The kernel shares
    [string.c] with user programs. *)

From S2P Require Import Prelude.

Abbreviation mem := (gmap Z Z).
Definition load (p : Z) : M mem Z := m ← get; deref (m !! p).
Definition store (p b : Z) : M mem unit :=
  m ← get; deref (m !! p);; put (<[p := u8 b]> m).

(** ** ctype.c; the arguments are [int]s. *)
Definition toupper (c : Z) : Z := if decide (97 ≤ c ≤ 122) then c - 32 else c.
Definition tolower (c : Z) : Z := if decide (65 ≤ c ≤ 90) then c + 32 else c.
Definition isupper (c : Z) : bool := bool_decide (65 ≤ c ≤ 90).
Definition islower (c : Z) : bool := bool_decide (97 ≤ c ≤ 122).
Definition isdigit (c : Z) : bool := bool_decide (48 ≤ c ≤ 57).
Definition isalpha (c : Z) : bool := isupper c || islower c.
Definition isalnum (c : Z) : bool := isalpha c || isdigit c.
Definition iscntrl (c : Z) : bool := bool_decide (c < 32 ∨ c = 127).
Definition isblank (c : Z) : bool := bool_decide (c = 9 ∨ c = 32).
Definition isprint (c : Z) : bool := negb (iscntrl c).
Definition isgraph (c : Z) : bool := isprint c && bool_decide (c ≠ 32).
Definition isspace (c : Z) : bool := bool_decide (c = 32 ∨ c = 12 ∨ c = 10 ∨ c = 13 ∨ c = 9 ∨ c = 11).
Definition ispunct (c : Z) : bool := isprint c && negb (isspace c) && negb (isalnum c).
Definition isxdigit (c : Z) : bool := isdigit c || bool_decide (65 ≤ c ≤ 70 ∨ 97 ≤ c ≤ 102).

(** ** Memory blocks *)
Fixpoint memset_loop (n : nat) (ptr c : Z) : M mem unit :=
  match n with O => mret tt | S n => store ptr c;; memset_loop n (ptr + 1) c end.
Definition memset (addr c : Z) (n : nat) : M mem Z := memset_loop n addr c;; mret addr.

(** Forward copy, the loop of [memcpy] and of the first branch of [memmove]. *)
Fixpoint copy_up (n : nat) (a b : Z) : M mem unit :=
  match n with O => mret tt | S n => v ← load b; store a v;; copy_up n (a + 1) (b + 1) end.
(** Backward copy; [a] and [b] are one past the bytes to copy. *)
Fixpoint copy_down (n : nat) (a b : Z) : M mem unit :=
  match n with
  | O => mret tt
  | S n => v ← load (b - 1); store (a - 1) v;; copy_down n (a - 1) (b - 1)
  end.

Definition memcpy (dst src : Z) (n : nat) : M mem Z := copy_up n dst src;; mret dst.
Definition memmove (dst src : Z) (n : nat) : M mem Z :=
  (if decide (dst ≤ src) then copy_up n dst src else copy_down n (dst + n) (src + n));; mret dst.

Fixpoint memchr (ptr c : Z) (n : nat) : M mem Z :=
  match n with
  | O => mret NULL
  | S n => v ← load ptr; if decide (v = u8 c) then mret ptr else memchr (ptr + 1) c n
  end.

Fixpoint memcmp (a b : Z) (n : nat) : M mem Z :=
  match n with
  | O => mret 0
  | S n =>
    x ← load a; y ← load b;
    if decide (x < y) then mret (-1) else if decide (y < x) then mret 1 else memcmp (a + 1) (b + 1) n
  end.

(** ** Strings *)
Fixpoint strlen_loop (fuel : nat) (str len : Z) : M mem Z :=
  match fuel with
  | O => exhausted
  | S fuel => v ← load (str + len); if decide (v = 0) then mret len else strlen_loop fuel str (len + 1)
  end.
Definition strlen (fuel : nat) (str : Z) : M mem Z := strlen_loop fuel str 0.

(** Copy bytes up to and including the terminator. *)
Fixpoint strcpy_loop (fuel : nat) (dst src : Z) : M mem unit :=
  match fuel with
  | O => exhausted
  | S fuel =>
    v ← load src; store dst v;;
    if decide (v = 0) then mret tt else strcpy_loop fuel (dst + 1) (src + 1)
  end.
Definition strcpy (fuel : nat) (dst src : Z) : M mem Z := strcpy_loop fuel dst src;; mret dst.

(** The address of the terminator. *)
Fixpoint find_end (fuel : nat) (p : Z) : M mem Z :=
  match fuel with
  | O => exhausted
  | S fuel => v ← load p; if decide (v = 0) then mret p else find_end fuel (p + 1)
  end.
Definition strcat (fuel : nat) (dst src : Z) : M mem Z :=
  e ← find_end fuel dst; strcpy_loop fuel e src;; mret dst.

Fixpoint strcmp (fuel : nat) (s1 s2 : Z) : M mem Z :=
  match fuel with
  | O => exhausted
  | S fuel =>
    x ← load s1; y ← load s2;
    if decide (x ≠ 0 ∧ x = y) then strcmp fuel (s1 + 1) (s2 + 1) else mret (x - y)
  end.

(** A count bounds the loop; at zero neither string is read. *)
Fixpoint strncmp (s1 s2 : Z) (n : nat) : M mem Z :=
  match n with
  | O => mret 0
  | S n =>
    x ← load s1; y ← load s2;
    if decide (x ≠ 0 ∧ x = y) then strncmp (s1 + 1) (s2 + 1) n else mret (x - y)
  end.

Fixpoint strcasecmp (fuel : nat) (s1 s2 : Z) : M mem Z :=
  match fuel with
  | O => exhausted
  | S fuel =>
    x ← load s1; y ← load s2;
    if decide (x ≠ 0 ∧ tolower (i8 x) = tolower (i8 y)) then strcasecmp fuel (s1 + 1) (s2 + 1)
    else mret (tolower x - tolower y)
  end.
Fixpoint strncasecmp (s1 s2 : Z) (n : nat) : M mem Z :=
  match n with
  | O => mret 0
  | S n =>
    x ← load s1; y ← load s2;
    if decide (x ≠ 0 ∧ tolower (i8 x) = tolower (i8 y)) then strncasecmp (s1 + 1) (s2 + 1) n
    else mret (tolower x - tolower y)
  end.

Fixpoint strncpy_loop (n : nat) (dst src : Z) : M mem unit :=
  match n with
  | O => mret tt
  | S n =>
    v ← load src;
    if decide (v ≠ 0) then store dst v;; strncpy_loop n (dst + 1) (src + 1)
    else store dst 0;; strncpy_loop n (dst + 1) src
  end.
Definition strncpy (dst src : Z) (n : nat) : M mem Z := strncpy_loop n dst src;; mret dst.

(** At most [n] bytes of the source; the place the terminator goes. *)
Fixpoint strncat_loop (n : nat) (dst src : Z) : M mem Z :=
  v ← load src;
  if decide (v = 0) then mret dst else
  match n with
  | O => mret dst
  | S n => store dst v;; strncat_loop n (dst + 1) (src + 1)
  end.
Definition strncat (fuel : nat) (dst src : Z) (n : nat) : M mem Z :=
  e ← find_end fuel dst; e ← strncat_loop n e src; store e 0;; mret dst.

Fixpoint strchr (fuel : nat) (s c : Z) : M mem Z :=
  match fuel with
  | O => exhausted
  | S fuel =>
    v ← load s;
    if decide (i8 v = i8 c) then mret s else
    if decide (v = 0) then mret NULL else strchr fuel (s + 1) c
  end.

Fixpoint strrchr_loop (fuel : nat) (s c result : Z) : M mem Z :=
  match fuel with
  | O => exhausted
  | S fuel =>
    v ← load s;
    if decide (v = 0) then mret result else
    strrchr_loop fuel (s + 1) c (if decide (i8 v = i8 c) then s else result)
  end.
Definition strrchr (fuel : nat) (s c : Z) : M mem Z := strrchr_loop fuel s c NULL.

(** The inner loop of the set searches: is the byte [v] in the string at [s2]. *)
Fixpoint in_set (fuel : nat) (v s2 : Z) : M mem bool :=
  match fuel with
  | O => exhausted
  | S fuel =>
    w ← load s2;
    if decide (w = 0) then mret false else
    if decide (v = w) then mret true else in_set fuel v (s2 + 1)
  end.

Fixpoint strspn_loop (fuel : nat) (s1 s2 i : Z) : M mem Z :=
  match fuel with
  | O => exhausted
  | S fuel' =>
    v ← load (s1 + i);
    if decide (v = 0) then mret i else
    found ← in_set fuel v s2;
    if negb found then mret i else strspn_loop fuel' s1 s2 (i + 1)
  end.
Definition strspn (fuel : nat) (s1 s2 : Z) : M mem Z := strspn_loop fuel s1 s2 0.

Fixpoint strcspn_loop (fuel : nat) (s1 s2 i : Z) : M mem Z :=
  match fuel with
  | O => exhausted
  | S fuel' =>
    v ← load (s1 + i);
    if decide (v = 0) then mret i else
    found ← in_set fuel v s2;
    if (found : bool) then mret i else strcspn_loop fuel' s1 s2 (i + 1)
  end.
Definition strcspn (fuel : nat) (s1 s2 : Z) : M mem Z := strcspn_loop fuel s1 s2 0.

Fixpoint strpbrk (fuel : nat) (s s2 : Z) : M mem Z :=
  match fuel with
  | O => exhausted
  | S fuel' =>
    v ← load s;
    if decide (v = 0) then mret NULL else
    found ← in_set fuel v s2;
    if (found : bool) then mret s else strpbrk fuel' (s + 1) s2
  end.

Fixpoint strstr_loop (fuel : nat) (haystack needle : Z) (n : nat) : M mem Z :=
  match fuel with
  | O => exhausted
  | S fuel =>
    v ← load haystack;
    if decide (v = 0) then mret NULL else
    r ← memcmp haystack needle n;
    if decide (r = 0) then mret haystack else strstr_loop fuel (haystack + 1) needle n
  end.
Definition strstr (fuel : nat) (haystack needle : Z) : M mem Z :=
  n ← strlen fuel needle;
  if decide (n = 0) then mret haystack else strstr_loop fuel haystack needle (Z.to_nat n).

(** [while (n-- > 1)]: the end of what was written. *)
Fixpoint strxfrm_loop (n : nat) (dst src : Z) : M mem Z :=
  match n with
  | O | S O => mret dst
  | S n =>
    v ← load src;
    if decide (v ≠ 0) then store dst v;; strxfrm_loop n (dst + 1) (src + 1)
    else store dst 0;; mret dst
  end.
Definition strxfrm (fuel : nat) (dst src : Z) (n : nat) : M mem Z :=
  if decide (n = O) then
    (if decide (dst ≠ NULL) then store dst 0 else mret tt);; mret 0
  else
    d ← strxfrm_loop n dst src; store d 0;; strlen fuel d.

(** The two arrays on the stack, of [1 + strxfrm(NULL, s, 0)] bytes, are at
    [out1] and [out2]. *)
Definition strcoll (fuel : nat) (out1 out2 s1 s2 : Z) : M mem Z :=
  r1 ← strxfrm fuel NULL s1 0; let size1 := 1 + r1 in
  r2 ← strxfrm fuel NULL s2 0; let size2 := 1 + r2 in
  strxfrm fuel out1 s1 (Z.to_nat size1);;
  strxfrm fuel out2 s2 (Z.to_nat size2);;
  strcmp fuel out1 out2.

(** [strtok]: the static [saved_pointer] is an argument and a result. The first
    loop stops at the first byte that is not a delimiter. *)
Fixpoint strtok_skip (fuel : nat) (saved delim i token : Z) : M mem (option Z) :=
  match fuel with
  | O => exhausted
  | S fuel' =>
    v ← load (saved + i);
    if decide (v = 0) then mret (Some token) else
    found ← in_set fuel v delim;
    if (found : bool) then strtok_skip fuel' saved delim (i + 1) (saved + i) else mret None
  end.
Definition strtok (fuel : nat) (saved_pointer s delim : Z) : M mem (Z * Z) :=
  if decide (s = NULL ∧ saved_pointer = NULL) then mret (NULL, saved_pointer) else
  let saved := if decide (s ≠ NULL) then s else saved_pointer in
  r ← strtok_skip fuel saved delim 0 NULL;
  match r with
  | None => mret (NULL, NULL)
  | Some token =>
    i ← strcspn fuel saved delim;
    v ← load (saved + i);
    if decide (v ≠ 0) then store (saved + i) 0;; mret (token, saved + i + 1)
    else mret (token, NULL)
  end.

(** ** stdlib/atoi.c; [val] wraps like the [int] it is. *)
Fixpoint skip_space (fuel : nat) (str i : Z) : M mem Z :=
  match fuel with
  | O => exhausted
  | S fuel =>
    v ← load (str + i);
    if decide (v ≠ 0 ∧ isspace (i8 v) = true) then skip_space fuel str (i + 1) else mret i
  end.
Fixpoint atoi_digits (fuel : nat) (str i val : Z) : M mem Z :=
  match fuel with
  | O => exhausted
  | S fuel =>
    v ← load (str + i);
    if decide (v ≠ 0 ∧ isdigit (i8 v) = true) then
      atoi_digits fuel str (i + 1) (i32 (i32 (val * 10) + (i8 v - 48)))
    else mret val
  end.
Definition atoi (fuel : nat) (str : Z) : M mem Z :=
  i ← skip_space fuel str 0;
  v ← load (str + i);
  let negate := bool_decide (v = 45) in
  let i := if decide (v = 43 ∨ v = 45) then i + 1 else i in
  val ← atoi_digits fuel str i 0;
  mret (if negate then i32 (- val) else val).

(** ** Memory contents *)
Fixpoint bytes_at (m : mem) (p : Z) (l : list Z) : Prop :=
  match l with [] => True | b :: l => m !! p = Some b ∧ bytes_at m (p + 1) l end.
Definition cstr (m : mem) (p : Z) (l : list Z) : Prop :=
  bytes_at m p (l ++ [0]) ∧ Forall (λ b, 0 < b < 256) l.
(** The [n] addresses from [p] on can be written. *)
Definition mapped (m : mem) (p : Z) (n : nat) : Prop := ∀ a, p ≤ a < p + n → is_Some (m !! a).
(** Only the [n] addresses from [p] on may differ, and none is lost. *)
Definition changes (m m' : mem) (p : Z) (n : nat) : Prop :=
  (∀ a, ¬ (p ≤ a < p + n) → m' !! a = m !! a) ∧ dom m' = dom m.

Lemma load_run m p b : m !! p = Some b → load p m = Done (b, m).
Proof. intros H. unfold load. mred. by rewrite H. Qed.
Lemma store_run m p b : is_Some (m !! p) → store p b m = Done (tt, <[p := u8 b]> m).
Proof. intros [v H]. unfold store. mred. by rewrite H. Qed.

Lemma bytes_at_app m p l1 l2 : bytes_at m p (l1 ++ l2) ↔ bytes_at m p l1 ∧ bytes_at m (p + length l1) l2.
Proof.
  revert p. induction l1 as [|b l1 IH]; intros p; cbn [app bytes_at length].
  - rewrite Z.add_0_r. tauto.
  - rewrite IH, Nat2Z.inj_succ. replace (p + 1 + length l1) with (p + Z.succ (length l1)) by lia. tauto.
Qed.
Lemma bytes_at_ext m m' p l :
  (∀ a, p ≤ a < p + length l → m' !! a = m !! a) → bytes_at m p l → bytes_at m' p l.
Proof.
  revert p. induction l as [|b l IH]; intros p Hext; [done|]. cbn [bytes_at length] in *.
  intros [Hb Hl]. split; [rewrite Hext by lia; done|]. apply IH; [|done]. intros a Ha. apply Hext. lia.
Qed.
Lemma bytes_at_mapped m p l : bytes_at m p l → mapped m p (length l).
Proof.
  revert p. induction l as [|b l IH]; intros p; cbn [bytes_at length]; [intros _ a Ha; lia|].
  intros [Hb Hl] a Ha. destruct (decide (a = p)) as [->|]; [by exists b|]. apply (IH _ Hl). lia.
Qed.
Lemma changes_refl m p : changes m m p 0.
Proof. by split. Qed.
Lemma changes_insert m p v : is_Some (m !! p) → changes m (<[p := v]> m) p 1.
Proof.
  intros H. split.
  - intros a Ha. rewrite lookup_insert_ne; [done|]. intros ->. apply Ha. lia.
  - rewrite dom_insert_L. apply elem_of_dom in H. set_solver.
Qed.
Lemma changes_trans m1 m2 m3 p1 (n1 : nat) p2 (n2 : nat) p (n : nat) :
  changes m1 m2 p1 n1 → changes m2 m3 p2 n2 →
  p ≤ p1 → p1 + n1 ≤ p + n → p ≤ p2 → p2 + n2 ≤ p + n → changes m1 m3 p n.
Proof.
  intros [F1 D1] [F2 D2] ????. split; [|congruence]. intros a Ha. rewrite F2 by lia. apply F1. lia.
Qed.
Lemma changes_mapped m m' p n q k : changes m m' p n → mapped m q k → mapped m' q k.
Proof. intros [_ D] H a Ha. apply elem_of_dom. rewrite D. apply elem_of_dom. by apply H. Qed.
Lemma changes_bytes m m' p (n : nat) q l :
  changes m m' p n → q + length l ≤ p ∨ p + n ≤ q → bytes_at m q l → bytes_at m' q l.
Proof. intros [F _] Hd. apply bytes_at_ext. intros a Ha. apply F. lia. Qed.

Definition is_bytes (l : list Z) : Prop := Forall (λ b, 0 ≤ b < 256) l.

(** Copying upwards is right when the destination does not run into bytes of
    the source still to be read. *)
Lemma copy_up_run bs : ∀ m a b,
  is_bytes bs → bytes_at m b bs → mapped m a (length bs) → (a ≤ b ∨ b + length bs ≤ a) →
  ∃ m', copy_up (length bs) a b m = Done (tt, m') ∧ bytes_at m' a bs ∧ changes m m' a (length bs).
Proof.
  induction bs as [|v bs IH]; intros m a b Hb Hsrc Hm Hd.
  - exists m. split; [done|]. split; [done|apply changes_refl].
  - apply Forall_cons in Hb as [Hv Hb]. cbn [bytes_at length] in *. destruct Hsrc as [Hb0 Hsrc].
    set (m1 := <[a := v]> m). assert (is_Some (m !! a)) as Ha by (apply Hm; lia).
    assert (changes m m1 a 1) as Hc1 by (by apply changes_insert).
    destruct (IH m1 (a + 1) (b + 1)) as (m' & E & Hat & Hc); [done| | |lia|].
    { eapply bytes_at_ext; [|exact Hsrc]. intros x Hx. apply Hc1. lia. }
    { eapply changes_mapped; [exact Hc1|]. intros x Hx. apply Hm. lia. }
    exists m'. cbn [copy_up]. rewrite (M_bind_done _ _ _ _ _ (load_run _ _ _ Hb0)).
    rewrite (M_bind_done _ _ _ _ _ (store_run _ _ v Ha)). rewrite (u8_small v) by (unfold is_u8; lia).
    split; [exact E|]. split; [split; [|done]|].
    + destruct Hc as [F _]. rewrite F by lia. apply lookup_insert_eq.
    + eapply changes_trans; [exact Hc1|exact Hc|lia..].
Qed.

(** Downwards, when the destination is above the source. *)
Lemma copy_down_run bs : ∀ m a b,
  is_bytes bs → bytes_at m b bs → mapped m a (length bs) → b < a →
  ∃ m', copy_down (length bs) (a + length bs) (b + length bs) m = Done (tt, m') ∧
        bytes_at m' a bs ∧ changes m m' a (length bs).
Proof.
  induction bs as [|v bs IH] using rev_ind; intros m a b Hb Hsrc Hm Hd.
  - exists m. split; [done|]. split; [done|apply changes_refl].
  - apply Forall_app in Hb as [Hb Hv]. rewrite Forall_singleton in Hv. rewrite length_app in *. simpl length in *.
    rewrite bytes_at_app in Hsrc. destruct Hsrc as [Hsrc [Hb0 _]].
    set (m1 := <[a + length bs := v]> m).
    assert (is_Some (m !! (a + length bs))) as Ha by (apply Hm; lia).
    assert (changes m m1 (a + length bs) 1) as Hc1 by (by apply changes_insert).
    destruct (IH m1 a b) as (m' & E & Hat & Hc); [done| | |done|].
    { eapply changes_bytes; [exact Hc1|lia|done]. }
    { eapply changes_mapped; [exact Hc1|]. intros x Hx. apply Hm. lia. }
    exists m'. rewrite Nat.add_1_r. cbn [copy_down].
    replace (b + S (length bs) - 1) with (b + length bs) by lia.
    replace (a + S (length bs) - 1) with (a + length bs) by lia.
    rewrite (M_bind_done _ _ _ _ _ (load_run _ _ _ Hb0)).
    rewrite (M_bind_done _ _ _ _ _ (store_run _ _ v Ha)). rewrite (u8_small v) by (unfold is_u8; lia).
    split; [exact E|]. split.
    + apply bytes_at_app. split; [done|]. split; [|done]. destruct Hc as [F _].
      rewrite F by lia. apply lookup_insert_eq.
    + eapply changes_trans; [exact Hc1|exact Hc|lia..].
Qed.

(** ** Reading strings *)
Lemma cstr_cons m p b l : cstr m p (b :: l) ↔ m !! p = Some b ∧ 0 < b < 256 ∧ cstr m (p + 1) l.
Proof. unfold cstr. rewrite Forall_cons. simpl. tauto. Qed.
Lemma cstr_nil m p : cstr m p [] ↔ m !! p = Some 0.
Proof. unfold cstr. simpl. split; [tauto|]. intros. repeat split; [done|constructor]. Qed.
Lemma cstr_suffix m p l1 l2 : cstr m p (l1 ++ l2) → cstr m (p + length l1) l2.
Proof.
  intros [H F]. rewrite <- app_assoc, bytes_at_app in H. apply Forall_app in F as [_ F]. split; [apply H|done].
Qed.

Lemma find_end_run l : ∀ m (fuel : nat) p,
  cstr m p l → (length l < fuel)%nat → find_end fuel p m = Done (p + length l, m).
Proof.
  induction l as [|b l IH]; intros m fuel p Hs Hf; (destruct fuel as [|fuel]; [simpl in Hf; lia|]); cbn [find_end].
  - apply cstr_nil in Hs. rewrite (M_bind_done _ _ _ _ _ (load_run _ _ _ Hs)). rewrite decide_True by done.
    simpl length. by rewrite Z.add_0_r.
  - apply cstr_cons in Hs as (Hb & Hr & Hs). rewrite (M_bind_done _ _ _ _ _ (load_run _ _ _ Hb)).
    rewrite decide_False by lia. simpl in Hf. rewrite IH by (done || lia). do 2 f_equal. simpl length. lia.
Qed.

Lemma strlen_run l : ∀ m (fuel : nat) p i,
  cstr m (p + i) l → (length l < fuel)%nat → strlen_loop fuel p i m = Done (i + length l, m).
Proof.
  induction l as [|b l IH]; intros m fuel p i Hs Hf; (destruct fuel as [|fuel]; [simpl in Hf; lia|]); cbn [strlen_loop].
  - apply cstr_nil in Hs. rewrite (M_bind_done _ _ _ _ _ (load_run _ _ _ Hs)). rewrite decide_True by done.
    simpl length. by rewrite Z.add_0_r.
  - apply cstr_cons in Hs as (Hb & Hr & Hs). rewrite (M_bind_done _ _ _ _ _ (load_run _ _ _ Hb)).
    rewrite decide_False by lia. simpl in Hf. rewrite <- Z.add_assoc in Hs.
    rewrite IH by (done || lia). do 2 f_equal. simpl length. lia.
Qed.

Lemma strcpy_loop_run l : ∀ m (fuel : nat) dst src,
  cstr m src l → (length l < fuel)%nat → mapped m dst (S (length l)) →
  src + length l < dst ∨ dst + length l < src →
  ∃ m', strcpy_loop fuel dst src m = Done (tt, m') ∧ cstr m' dst l ∧ changes m m' dst (S (length l)).
Proof.
  induction l as [|b l IH]; intros m fuel dst src Hs Hf Hm Hd; (destruct fuel as [|fuel]; [simpl in Hf; lia|]);
    cbn [strcpy_loop]; (assert (is_Some (m !! dst)) as Ha by (apply Hm; lia)).
  - apply cstr_nil in Hs. rewrite (M_bind_done _ _ _ _ _ (load_run _ _ _ Hs)).
    rewrite (M_bind_done _ _ _ _ _ (store_run _ _ 0 Ha)). eexists. split; [done|]. split.
    + apply cstr_nil. apply lookup_insert_eq.
    + by apply changes_insert.
  - apply cstr_cons in Hs as (Hb & Hr & Hs). rewrite (M_bind_done _ _ _ _ _ (load_run _ _ _ Hb)).
    rewrite (M_bind_done _ _ _ _ _ (store_run _ _ b Ha)). rewrite (u8_small b) by (unfold is_u8; lia).
    rewrite decide_False by lia. simpl in Hf, Hd, Hm.
    set (m1 := <[dst := b]> m). assert (changes m m1 dst 1) as Hc1 by (by apply changes_insert).
    destruct (IH m1 fuel (dst + 1) (src + 1)) as (m' & E & Hat & Hc); [|lia| |lia|].
    { split; [|apply Hs]. destruct Hs as [Hs _].
      eapply changes_bytes; [exact Hc1| |exact Hs]. rewrite length_app. simpl length. lia. }
    { eapply changes_mapped; [exact Hc1|]. intros x Hx. apply Hm. lia. }
    exists m'. split; [exact E|]. split.
    + apply cstr_cons. split_and!; [|lia|lia|done]. destruct Hc as [F _]. rewrite F by lia. apply lookup_insert_eq.
    + eapply changes_trans; [exact Hc1|exact Hc|simpl; lia..].
Qed.

(** ** Comparing strings *)
Fixpoint lex_compare (l1 l2 : list Z) : comparison :=
  match l1, l2 with
  | [], [] => Eq
  | [], _ => Lt
  | _, [] => Gt
  | x :: l1, y :: l2 => match x ?= y with Eq => lex_compare l1 l2 | c => c end
  end.

Lemma lex_compare_eq l1 l2 : lex_compare l1 l2 = Eq ↔ l1 = l2.
Proof.
  revert l2. induction l1 as [|x l1 IH]; intros [|y l2]; simpl; try done.
  destruct (Z.compare_spec x y); subst; [rewrite IH; naive_solver|split; [done|]; intros [=]; lia..].
Qed.

Lemma sub_compare x y : (x - y ?= 0) = (x ?= y).
Proof. destruct (Z.compare_spec x y); [apply Z.compare_eq_iff|apply Z.compare_lt_iff|apply Z.compare_gt_iff]; lia. Qed.

Lemma strcmp_run l1 : ∀ l2 m (fuel : nat) p q,
  cstr m p l1 → cstr m q l2 → (length l1 < fuel)%nat →
  ∃ r, strcmp fuel p q m = Done (r, m) ∧ (r ?= 0) = lex_compare l1 l2.
Proof.
  induction l1 as [|x l1 IH]; intros l2 m fuel p q H1 H2 Hf; (destruct fuel as [|fuel]; [simpl in Hf; lia|]); cbn [strcmp].
  - apply cstr_nil in H1. rewrite (M_bind_done _ _ _ _ _ (load_run _ _ _ H1)). destruct l2 as [|y l2].
    + apply cstr_nil in H2. rewrite (M_bind_done _ _ _ _ _ (load_run _ _ _ H2)). rewrite decide_False by lia. by eexists.
    + apply cstr_cons in H2 as (H2 & Hy & _). rewrite (M_bind_done _ _ _ _ _ (load_run _ _ _ H2)).
      rewrite decide_False by lia. eexists. split; [done|]. rewrite sub_compare. apply Z.compare_lt_iff; lia.
  - apply cstr_cons in H1 as (H1 & Hx & Hs1). rewrite (M_bind_done _ _ _ _ _ (load_run _ _ _ H1)). destruct l2 as [|y l2].
    + apply cstr_nil in H2. rewrite (M_bind_done _ _ _ _ _ (load_run _ _ _ H2)). rewrite decide_False by lia.
      eexists. split; [done|]. rewrite sub_compare. apply Z.compare_gt_iff; lia.
    + apply cstr_cons in H2 as (H2 & Hy & Hs2). rewrite (M_bind_done _ _ _ _ _ (load_run _ _ _ H2)). simpl.
      destruct (decide (x ≠ 0 ∧ x = y)) as [[_ ->]|Hne].
      * rewrite Z.compare_refl. apply IH; [done..|simpl in Hf; lia].
      * eexists. split; [done|]. rewrite sub_compare. destruct (Z.compare_spec x y); [lia|done..].
Qed.

Lemma strncmp_run (n : nat) : ∀ l1 l2 m p q,
  cstr m p l1 → cstr m q l2 →
  ∃ r, strncmp p q n m = Done (r, m) ∧ (r ?= 0) = lex_compare (take n l1) (take n l2).
Proof.
  induction n as [|n IH]; intros l1 l2 m p q H1 H2; [by exists 0|]. cbn [strncmp].
  destruct l1 as [|x l1].
  - apply cstr_nil in H1. rewrite (M_bind_done _ _ _ _ _ (load_run _ _ _ H1)). destruct l2 as [|y l2].
    + apply cstr_nil in H2. rewrite (M_bind_done _ _ _ _ _ (load_run _ _ _ H2)). rewrite decide_False by lia. by eexists.
    + apply cstr_cons in H2 as (H2 & Hy & _). rewrite (M_bind_done _ _ _ _ _ (load_run _ _ _ H2)).
      rewrite decide_False by lia. eexists. split; [done|]. rewrite sub_compare. apply Z.compare_lt_iff; lia.
  - apply cstr_cons in H1 as (H1 & Hx & Hs1). rewrite (M_bind_done _ _ _ _ _ (load_run _ _ _ H1)). destruct l2 as [|y l2].
    + apply cstr_nil in H2. rewrite (M_bind_done _ _ _ _ _ (load_run _ _ _ H2)). rewrite decide_False by lia.
      eexists. split; [done|]. rewrite sub_compare. apply Z.compare_gt_iff; lia.
    + apply cstr_cons in H2 as (H2 & Hy & Hs2). rewrite (M_bind_done _ _ _ _ _ (load_run _ _ _ H2)). simpl.
      destruct (decide (x ≠ 0 ∧ x = y)) as [[_ ->]|Hne].
      * rewrite Z.compare_refl. by apply IH.
      * eexists. split; [done|]. rewrite sub_compare. destruct (Z.compare_spec x y); [lia|done..].
Qed.

(** ** Searching *)
Lemma memcmp_prefix nd : ∀ hs m h p,
  cstr m h hs → bytes_at m p nd → Forall (λ b, 0 < b < 256) nd →
  ∃ r, memcmp h p (length nd) m = Done (r, m) ∧ (r = 0 ↔ nd `prefix_of` hs).
Proof.
  induction nd as [|x nd IH]; intros hs m h p Hh Hp Hn.
  - exists 0. split; [done|]. split; [intros _; apply prefix_nil|done].
  - destruct Hp as [Hx Hp]. apply Forall_cons in Hn as [Hxr Hn]. cbn [length memcmp]. destruct hs as [|y hs].
    + apply cstr_nil in Hh. rewrite (M_bind_done _ _ _ _ _ (load_run _ _ _ Hh)), (M_bind_done _ _ _ _ _ (load_run _ _ _ Hx)).
      rewrite decide_True by lia. exists (-1). split; [done|]. split; [done|]. by intros [k [=]].
    + apply cstr_cons in Hh as (Hy & Hyr & Hh).
      rewrite (M_bind_done _ _ _ _ _ (load_run _ _ _ Hy)), (M_bind_done _ _ _ _ _ (load_run _ _ _ Hx)).
      assert (x ≠ y → ¬ x :: nd `prefix_of` y :: hs) as Hnp by (intros Hne [k [=]]; congruence).
      destruct (decide (y < x)).
      { exists (-1). split; [done|]. split; [done|]. intros H. exfalso. apply Hnp; [lia|done]. }
      destruct (decide (x < y)).
      { exists 1. split; [done|]. split; [done|]. intros H. exfalso. apply Hnp; [lia|done]. }
      assert (x = y) as -> by lia. destruct (IH hs m (h + 1) (p + 1) Hh Hp Hn) as (r & E & Hr).
      exists r. split; [done|]. rewrite Hr. split; [apply prefix_cons|apply prefix_cons_inv_2].
Qed.

(** [r] points at the first place in [hs], which is at [h], where [nd] starts;
    or [nd] does not occur and [r] is NULL. *)
Definition first_occurrence (h : Z) (hs nd : list Z) (r : Z) : Prop :=
  (∃ i : nat, r = h + i ∧ (i < length hs)%nat ∧ nd `prefix_of` drop i hs ∧ ∀ j, (j < i)%nat → ¬ nd `prefix_of` drop j hs) ∨
  (r = NULL ∧ ∀ j, ¬ nd `prefix_of` drop j hs).

Lemma strstr_loop_run nd p m : bytes_at m p nd → Forall (λ b, 0 < b < 256) nd → nd ≠ [] →
  ∀ hs h (fuel : nat), cstr m h hs → (length hs < fuel)%nat →
  ∃ r, strstr_loop fuel h p (length nd) m = Done (r, m) ∧ first_occurrence h hs nd r.
Proof.
  intros Hp Hn Hne. induction hs as [|y hs IH]; intros h fuel Hh Hf; (destruct fuel as [|fuel]; [simpl in Hf; lia|]);
    cbn [strstr_loop].
  - apply cstr_nil in Hh. rewrite (M_bind_done _ _ _ _ _ (load_run _ _ _ Hh)). rewrite decide_True by done.
    exists NULL. split; [done|]. right. split; [done|]. intros j. rewrite drop_nil. intros [k Hk].
    destruct nd; done.
  - destruct (memcmp_prefix nd (y :: hs) m h p Hh Hp Hn) as (r & E & Hr).
    apply cstr_cons in Hh as (Hy & Hyr & Hh). rewrite (M_bind_done _ _ _ _ _ (load_run _ _ _ Hy)).
    rewrite decide_False by lia. rewrite (M_bind_done _ _ _ _ _ E). destruct (decide (r = 0)) as [Hz|Hz].
    + exists h. split; [done|]. left. exists 0%nat. split; [lia|]. split; [simpl; lia|]. split; [by apply Hr|lia].
    + simpl in Hf. destruct (IH (h + 1) fuel Hh ltac:(lia)) as (r' & E' & Hocc). exists r'. split; [done|].
      destruct Hocc as [(i & -> & Hi & Hpre & Hmin)|[-> Hnone]]; [left; exists (S i)|right].
      * split; [lia|]. split; [simpl; lia|]. split; [done|]. intros [|j] Hj; [by rewrite <- Hr|]. apply Hmin. lia.
      * split; [done|]. intros [|j]; [by rewrite <- Hr|]. apply Hnone.
Qed.

(** ** Properties *)

(** [memmove] copies the [n] bytes of the source, as they were, to the
    destination whether or not the two blocks overlap, changes nothing else
    and returns the destination; [memcpy] does the same for blocks that do not
    overlap. *)
Theorem memmove_correct m dst src bs :
  is_bytes bs → bytes_at m src bs → mapped m dst (length bs) →
  (∃ m', memmove dst src (length bs) m = Done (dst, m') ∧ bytes_at m' dst bs ∧ changes m m' dst (length bs)) ∧
  (dst + length bs ≤ src ∨ src + length bs ≤ dst →
   ∃ m', memcpy dst src (length bs) m = Done (dst, m') ∧ bytes_at m' dst bs ∧ bytes_at m' src bs ∧
         changes m m' dst (length bs)).
Proof.
  intros Hb Hsrc Hm. split.
  - unfold memmove. destruct (decide (dst ≤ src)) as [Hle|Hgt].
    + destruct (copy_up_run bs m dst src) as (m' & E & R); [done..|lia|].
      exists m'. by rewrite (M_bind_done _ _ _ _ _ E).
    + destruct (copy_down_run bs m dst src) as (m' & E & R); [done..|lia|].
      exists m'. by rewrite (M_bind_done _ _ _ _ _ E).
  - intros Hd. destruct (copy_up_run bs m dst src) as (m' & E & R1 & R2); [done..|lia|].
    exists m'. unfold memcpy. rewrite (M_bind_done _ _ _ _ _ E). split_and!; [done|done| |done].
    eapply changes_bytes; [exact R2|lia|done].
Qed.

(** [strcmp] and [strncmp] terminate, change nothing and return a number
    whose sign is the lexicographic order of the strings as unsigned bytes (of
    their first [n] bytes for [strncmp]); zero exactly when those are equal. *)
Theorem strcmp_orders m p q l1 l2 (n fuel : nat) :
  cstr m p l1 → cstr m q l2 → (length l1 < fuel)%nat →
  (∃ r, strcmp fuel p q m = Done (r, m) ∧ (r ?= 0) = lex_compare l1 l2 ∧ (r = 0 ↔ l1 = l2)) ∧
  (∃ r, strncmp p q n m = Done (r, m) ∧ (r ?= 0) = lex_compare (take n l1) (take n l2) ∧
        (r = 0 ↔ take n l1 = take n l2)).
Proof.
  intros H1 H2 Hf. destruct (strcmp_run l1 l2 m fuel p q H1 H2 Hf) as (r & E & Hr).
  destruct (strncmp_run n l1 l2 m p q H1 H2) as (r' & E' & Hr'). split.
  - exists r. split_and!; [done|done|]. by rewrite <- lex_compare_eq, <- Hr, Z.compare_eq_iff.
  - exists r'. split_and!; [done|done|]. by rewrite <- lex_compare_eq, <- Hr', Z.compare_eq_iff.
Qed.

(** [strcat] onto a buffer with room for both strings, apart from the
    source, leaves the concatenation there, terminated, keeps the source, and
    writes nothing outside the end of the destination; [strlen] of the result
    is the sum of the lengths. *)
Theorem strcat_appends m dst src l1 l2 (fuel : nat) :
  cstr m dst l1 → cstr m src l2 → mapped m dst (length l1 + length l2 + 1) →
  src + length l2 < dst ∨ dst + length l1 + length l2 < src →
  (length l1 + length l2 < fuel)%nat →
  ∃ m', strcat fuel dst src m = Done (dst, m') ∧ cstr m' dst (l1 ++ l2) ∧ cstr m' src l2 ∧
    changes m m' (dst + length l1) (length l2 + 1) ∧
    strlen fuel dst m' = Done (Z.of_nat (length l1 + length l2), m').
Proof.
  intros H1 H2 Hm Hd Hf. unfold strcat. rewrite (M_bind_done _ _ _ _ _ (find_end_run l1 m fuel dst H1 ltac:(lia))).
  destruct (strcpy_loop_run l2 m fuel (dst + length l1) src) as (m' & E & Hs & Hc); [done|lia| |lia|].
  { intros a Ha. apply Hm. lia. }
  exists m'. rewrite (M_bind_done _ _ _ _ _ E). rewrite Nat.add_1_r.
  assert (cstr m' dst (l1 ++ l2)) as Hcat.
  { destruct H1 as [H1 F1], H2 as [_ F2], Hs as [Hs _]. split; [|by apply Forall_app_2].
    rewrite <- app_assoc. apply bytes_at_app. split; [|done].
    apply bytes_at_app in H1 as [H1 _]. eapply changes_bytes; [exact Hc|lia|done]. }
  split_and!; [done|done| |done|].
  - destruct H2 as [H2 F2]. split; [|done]. eapply changes_bytes; [exact Hc| |done].
    rewrite length_app. simpl length. lia.
  - unfold strlen. rewrite (strlen_run (l1 ++ l2)); [|by rewrite Z.add_0_r|rewrite length_app; lia].
    do 2 f_equal. rewrite length_app. lia.
Qed.

(** [strstr] terminates and returns the first occurrence of the needle, the
    haystack itself for an empty needle and NULL when there is none; it never
    reads past the haystack's terminator. *)
Theorem strstr_finds_first m h p hs nd (fuel : nat) :
  cstr m h hs → cstr m p nd → (length hs < fuel)%nat → (length nd < fuel)%nat →
  ∃ r, strstr fuel h p m = Done (r, m) ∧ (nd = [] → r = h) ∧ (nd ≠ [] → first_occurrence h hs nd r).
Proof.
  intros Hh Hp Hf1 Hf2. unfold strstr, strlen.
  rewrite (M_bind_done _ _ _ _ _ (strlen_run nd m fuel p 0 ltac:(by rewrite Z.add_0_r) Hf2)).
  destruct (decide (0 + length nd = 0)) as [Hz|Hz].
  - exists h. split; [done|]. split; [done|]. intros []. destruct nd; [done|simpl in Hz; lia].
  - assert (nd ≠ []) as Hne by (by intros ->).
    destruct Hp as [Hp Fp]. apply bytes_at_app in Hp as [Hp _].
    destruct (strstr_loop_run nd p m Hp Fp Hne hs h fuel Hh Hf1) as (r & E & Ho).
    exists r. replace (Z.to_nat (0 + length nd)) with (length nd) by lia. by split_and!.
Qed.

(** ** What [strcoll] and [strtok] do *)

(** [strcoll] sizes its buffers with [strxfrm(NULL, s, 0)], which is always 0,
    so it compares two empty strings: every two strings compare equal. *)
Lemma strcoll_always_equal m out1 out2 s1 s2 (fuel : nat) :
  is_Some (m !! out1) → is_Some (m !! out2) → (0 < fuel)%nat →
  ∃ m', strcoll fuel out1 out2 s1 s2 m = Done (0, m').
Proof.
  intros H1 H2 Hf. destruct fuel as [|fuel]; [lia|].
  set (m1 := <[out1 := 0]> m). set (m2 := <[out2 := 0]> m1).
  assert (is_Some (m1 !! out2)) as H2' by (unfold m1; destruct (decide (out1 = out2)) as [->|];
    [rewrite lookup_insert_eq; by eexists|by rewrite lookup_insert_ne]).
  assert (m2 !! out2 = Some 0) as E2 by apply lookup_insert_eq.
  assert (m2 !! out1 = Some 0) as E1.
  { unfold m2. destruct (decide (out1 = out2)) as [->|]; [apply lookup_insert_eq|].
    rewrite lookup_insert_ne by done. apply lookup_insert_eq. }
  assert (∀ (mm : mem) o s, is_Some (mm !! o) → strxfrm (S fuel) o s 1 mm = Done (0, <[o := 0]> mm)) as Hx.
  { intros mm o s Ho. unfold strxfrm. rewrite decide_False by done. cbn [strxfrm_loop].
    rewrite (M_bind_done _ _ mm o mm) by done.
    rewrite (M_bind_done _ _ _ _ _ (store_run _ _ 0 Ho)). change (u8 0) with 0.
    apply (strlen_run [] (<[o := 0]> mm) (S fuel) o 0); [|simpl; lia].
    apply cstr_nil. rewrite Z.add_0_r. apply lookup_insert_eq. }
  exists m2. unfold strcoll.
  rewrite (M_bind_done _ _ m 0 m) by (unfold strxfrm; by rewrite decide_True).
  rewrite (M_bind_done _ _ m 0 m) by (unfold strxfrm; by rewrite decide_True).
  change (Z.to_nat (1 + 0)) with 1%nat. rewrite (M_bind_done _ _ _ _ _ (Hx m out1 s1 H1)).
  rewrite (M_bind_done _ _ _ _ _ (Hx m1 out2 s2 H2')). fold m2. cbn [strcmp].
  rewrite (M_bind_done _ _ _ _ _ (load_run _ _ _ E1)), (M_bind_done _ _ _ _ _ (load_run _ _ _ E2)).
  by rewrite decide_False by lia.
Qed.

Lemma in_set_run l : ∀ m (fuel : nat) p v,
  cstr m p l → (length l < fuel)%nat → in_set fuel v p m = Done (bool_decide (v ∈ l), m).
Proof.
  induction l as [|b l IH]; intros m fuel p v Hs Hf; (destruct fuel as [|fuel]; [simpl in Hf; lia|]); cbn [in_set].
  - apply cstr_nil in Hs. rewrite (M_bind_done _ _ _ _ _ (load_run _ _ _ Hs)). rewrite decide_True by done.
    rewrite bool_decide_false by set_solver. done.
  - apply cstr_cons in Hs as (Hb & Hr & Hs). rewrite (M_bind_done _ _ _ _ _ (load_run _ _ _ Hb)).
    rewrite decide_False by lia. destruct (decide (v = b)) as [->|Hne].
    + rewrite bool_decide_true by set_solver. done.
    + simpl in Hf. rewrite IH by (done || lia). do 2 f_equal. apply bool_decide_ext. set_solver.
Qed.

(** A string that has any byte outside the delimiters yields no token: the
    first loop takes the first such byte for the end of the string. *)
Lemma strtok_returns_nothing m s delim pre b rest ds (fuel : nat) saved :
  s ≠ NULL → cstr m s (pre ++ b :: rest) → cstr m delim ds →
  Forall (λ x, x ∈ ds) pre → b ∉ ds → (length pre + length ds + 1 < fuel)%nat →
  strtok fuel saved s delim m = Done ((NULL, NULL), m).
Proof.
  intros Hs Hstr Hds Hpre Hb Hf. unfold strtok.
  rewrite decide_False by tauto. rewrite decide_True by done.
  assert (∀ l (f : nat) i tok, cstr m (s + i) (l ++ b :: rest) → Forall (λ x, x ∈ ds) l →
    (length l + length ds + 1 < f)%nat → strtok_skip f s delim i tok m = Done (None, m)) as H.
  { induction l as [|x l IH]; intros f i tok Hc Hl Hlf; (destruct f as [|f]; [lia|]); cbn [strtok_skip app] in *;
      apply cstr_cons in Hc as (Hx & Hxr & Hc); rewrite (M_bind_done _ _ _ _ _ (load_run _ _ _ Hx));
      rewrite decide_False by lia.
    - rewrite (M_bind_done _ _ _ _ _ (in_set_run ds m (S f) delim b Hds ltac:(lia))).
      by rewrite bool_decide_false by done.
    - apply Forall_cons in Hl as [Hxd Hl]. simpl in Hlf.
      rewrite (M_bind_done _ _ _ _ _ (in_set_run ds m (S f) delim x Hds ltac:(lia))).
      rewrite bool_decide_true by done. apply IH; [by rewrite Z.add_assoc|done|lia]. }
  rewrite (M_bind_done _ _ _ _ _ (H pre fuel 0 NULL ltac:(by rewrite Z.add_0_r) Hpre ltac:(lia))). done.
Qed.

(** ** Concrete runs: the block 1, 2, 3 at 10; the strings ab at 20 with room
    up to 27, b at 30. *)
Definition small_mem : mem :=
  list_to_map [(10, 1); (11, 2); (12, 3); (13, 9); (20, 97); (21, 98); (22, 0); (23, 7); (24, 7); (30, 98); (31, 0)].

Lemma small_ab : cstr small_mem 20 [97; 98].
Proof. split; [by repeat split|repeat constructor; lia]. Qed.
Lemma small_b : cstr small_mem 30 [98].
Proof. split; [by repeat split|repeat constructor; lia]. Qed.

Lemma memmove_correct_witness :
  (∃ m', memmove 11 10 3 small_mem = Done (11, m') ∧ bytes_at m' 11 [1; 2; 3] ∧ changes small_mem m' 11 3) ∧
  (11 + 3%nat ≤ 10 ∨ 10 + 3%nat ≤ 11 →
   ∃ m', memcpy 11 10 3 small_mem = Done (11, m') ∧ bytes_at m' 11 [1; 2; 3] ∧ bytes_at m' 10 [1; 2; 3] ∧
         changes small_mem m' 11 3).
Proof.
  apply (memmove_correct small_mem 11 10 [1; 2; 3]); [repeat constructor; lia|by repeat split|].
  intros a Ha. simpl in Ha. assert (a = 11 ∨ a = 12 ∨ a = 13) as [->|[->| ->]] by lia; by eexists.
Defined.

Lemma strcmp_orders_witness :
  (∃ r, strcmp 3 20 30 small_mem = Done (r, small_mem) ∧ (r ?= 0) = lex_compare [97; 98] [98] ∧ (r = 0 ↔ [97; 98] = [98])) ∧
  (∃ r, strncmp 20 30 0 small_mem = Done (r, small_mem) ∧ (r ?= 0) = lex_compare (take 0 [97; 98]) (take 0 [98]) ∧
        (r = 0 ↔ take 0 [97; 98] = take 0 [98])).
Proof. apply (strcmp_orders small_mem 20 30 [97; 98] [98] 0 3 small_ab small_b). simpl. lia. Defined.

Lemma strcat_appends_witness :
  ∃ m', strcat 4 20 30 small_mem = Done (20, m') ∧ cstr m' 20 ([97; 98] ++ [98]) ∧ cstr m' 30 [98] ∧
    changes small_mem m' (20 + 2%nat) (1 + 1) ∧ strlen 4 20 m' = Done (Z.of_nat (2 + 1), m').
Proof.
  apply (strcat_appends small_mem 20 30 [97; 98] [98] 4 small_ab small_b); [|simpl; lia|simpl; lia].
  intros a Ha. simpl in Ha. assert (a = 20 ∨ a = 21 ∨ a = 22 ∨ a = 23) as [->|[->|[->| ->]]] by lia; by eexists.
Defined.

Lemma strstr_finds_first_witness :
  ∃ r, strstr 3 20 30 small_mem = Done (r, small_mem) ∧ ([98] = [] → r = 20) ∧
       ([98] ≠ [] → first_occurrence 20 [97; 98] [98] r).
Proof. apply (strstr_finds_first small_mem 20 30 [97; 98] [98] 3 small_ab small_b); simpl; lia. Defined.
