(* ===== verification/Strings.v ===== *)
(** * Strings as lists of characters

    [strcmp] of common/cmn_string.h and [atoi] of stdlib/atoi.c for code whose strings
    are lists, without the zero at their end. [CString] has them over memory; here
    [atoi] is shown to be the same. *)

From S2P Require Import Prelude CString.

(** The difference of the first characters that differ. *)
Fixpoint strcmp (a b : list Z) : Z :=
  match a, b with
  | [], [] => 0
  | [], y :: _ => - y
  | x :: _, [] => x
  | x :: a, y :: b => if decide (x ≠ 0 ∧ x = y) then strcmp a b else x - y
  end.

Fixpoint after_spaces (l : list Z) : list Z :=
  match l with [] => [] | c :: r => if isspace c then after_spaces r else l end.
Fixpoint digits_value (l : list Z) (val : Z) : Z :=
  match l with [] => val | c :: r => if isdigit c then digits_value r (i32 (i32 (val * 10) + (c - 48))) else val end.
Definition atoi (l : list Z) : Z :=
  let l := after_spaces l in
  match l with
  | [] => 0
  | c :: r =>
    if decide (c = 43) then digits_value r 0
    else if decide (c = 45) then i32 (- digits_value r 0)
    else digits_value l 0
  end.

Lemma strcmp_eq (a b : list Z) : 0 ∉ a → 0 ∉ b → strcmp a b = 0 ↔ a = b.
Proof.
  revert b. induction a as [|x a IH]; intros [|y b] Ha Hb; cbn [strcmp]; [done| | |].
  { split; [|done]. intros E. exfalso. apply Hb. assert (y = 0) as -> by lia. left. }
  { split; [|done]. intros ->. exfalso. apply Ha. left. }
  apply not_elem_of_cons in Ha as [Hx Ha]. apply not_elem_of_cons in Hb as [Hy Hb].
  case_decide as E; [destruct E as [_ ->]; rewrite IH by done; split; [by intros ->|by intros [=]]|].
  split; [lia|intros [= -> ->]; lia].
Qed.
Lemma strcmp_refl (a : list Z) : strcmp a a = 0.
Proof. induction a as [|x a IH]; cbn [strcmp]; [done|]. case_decide; [done|lia]. Qed.
Lemma strcmp_opp (a b : list Z) : strcmp a b = - strcmp b a.
Proof.
  revert b. induction a as [|x a IH]; intros [|y b]; cbn [strcmp]; try lia.
  repeat case_decide; [apply IH|lia..].
Qed.
Lemma strcmp_le_trans (a b c : list Z) : strcmp a b ≤ 0 → strcmp b c ≤ 0 → strcmp a c ≤ 0.
Proof.
  revert b c. induction a as [|x a IH]; intros [|y b] [|z c]; cbn [strcmp]; repeat case_decide; try lia.
  intros. by apply (IH b).
Qed.

(** ** [atoi] over memory *)
Lemma after_spaces_run l : ∀ m p fuel i,
  bytes_at m (p + i) (l ++ [0]) → Forall (λ b, 0 < b < 256) l → (length l < fuel)%nat →
  ∃ j, CString.skip_space fuel p i m = Done (j, m) ∧
    ∃ r, bytes_at m (p + j) (r ++ [0]) ∧ Forall (λ b, 0 < b < 256) r ∧ i8 <$> r = after_spaces (i8 <$> l) ∧ (length r ≤ length l)%nat.
Proof.
  induction l as [|c l IH]; intros m p fuel i Hm Hl Hf; (destruct fuel as [|fuel]; [cbn in Hf; lia|]); cbn [CString.skip_space];
    destruct Hm as [Hc Hm]; unfold CString.load; mred; rewrite Hc; mred.
  - rewrite decide_False by (intros [? _]; done). exists i. split; [done|]. exists []. by split_and!.
  - apply Forall_cons in Hl as [Hb Hl]. cbn [fmap list_fmap after_spaces]. destruct (isspace (i8 c)) eqn:Es.
    + rewrite decide_True by (split; [lia|done]). destruct (IH m p fuel (i + 1)) as (j & E & r & H1 & H2 & H3 & H4);
        [by rewrite Z.add_assoc|done|cbn in Hf; lia|]. exists j. split; [exact E|]. exists r. split_and!; try done. cbn. lia.
    + rewrite decide_False by (by intros [_ ?]). exists i. split; [done|]. exists (c :: l).
      split_and!; [by split|by constructor|done|done].
Qed.

Lemma digits_value_run l : ∀ m p fuel i val,
  bytes_at m (p + i) (l ++ [0]) → Forall (λ b, 0 < b < 256) l → (length l < fuel)%nat →
  CString.atoi_digits fuel p i val m = Done (digits_value (i8 <$> l) val, m).
Proof.
  induction l as [|c l IH]; intros m p fuel i val Hm Hl Hf; (destruct fuel as [|fuel]; [cbn in Hf; lia|]); cbn [CString.atoi_digits];
    destruct Hm as [Hc Hm]; unfold CString.load; mred; rewrite Hc; mred.
  - by rewrite decide_False by (intros [? _]; done).
  - apply Forall_cons in Hl as [Hb Hl]. cbn [fmap list_fmap digits_value]. destruct (isdigit (i8 c)) eqn:Es.
    + rewrite decide_True by (split; [lia|done]). apply IH; [by rewrite Z.add_assoc|done|cbn in Hf; lia].
    + by rewrite decide_False by (by intros [_ ?]).
Qed.

Lemma i8_inj c d : 0 < c < 256 → 0 ≤ d < 128 → i8 c = d ↔ c = d.
Proof.
  unfold i8. intros. destruct (decide (c < 128)); [rewrite Z.mod_small by lia; lia|].
  replace (c + 2 ^ 7) with (c - 2 ^ 7 + 1 * 2 ^ 8) by lia. rewrite Z_mod_plus_full, Z.mod_small by lia. lia.
Qed.

(** [atoi] of the string at an address is [atoi] of its characters. *)
Theorem atoi_of_string m p l fuel :
  cstr m p l → (length l < fuel)%nat → CString.atoi fuel p m = Done (atoi (i8 <$> l), m).
Proof.
  intros [Hm Hl] Hf. unfold CString.atoi. destruct (after_spaces_run l m p fuel 0) as (j & E & r & Hr & Hrb & Er & Hlen); [by rewrite Z.add_0_r|done|done|].
  rewrite (M_bind_done _ _ _ _ _ E). unfold atoi. rewrite <- Er. destruct r as [|c r].
  - destruct Hr as [Hc _]. unfold CString.load. mred. rewrite Hc. mred. rewrite decide_False by lia.
    destruct fuel as [|fuel]; [lia|]. cbn [CString.atoi_digits]. unfold CString.load. mred. rewrite Hc. mred.
    rewrite decide_False by (by intros [? _]). done.
  - pose proof Hr as [Hc Hr']. apply Forall_cons in Hrb as [Hb Hrb]. unfold CString.load. mred. rewrite Hc. mred. cbn [fmap list_fmap].
    assert (∀ d, 0 ≤ d < 128 → i8 c = d ↔ c = d) as Hi by (intros; by apply i8_inj).
    destruct (decide (c = 43)) as [->|H43].
    + rewrite decide_True by tauto. rewrite (digits_value_run r) by first [done|by rewrite Z.add_assoc|cbn in Hlen; lia]. done.
    + destruct (decide (c = 45)) as [->|H45].
      * rewrite decide_True by tauto. rewrite (digits_value_run r) by first [done|by rewrite Z.add_assoc|cbn in Hlen; lia]. done.
      * rewrite decide_False by tauto. rewrite (digits_value_run (c :: r)) by first [done|by constructor|cbn in Hlen |- *; lia].
        rewrite bool_decide_eq_false_2 by done. cbn [outcome_bind]. by rewrite !decide_False by (rewrite Hi; lia).
Qed.

(** ** [strtol] and its kin

    The macro of stdlib/strtol.c for a type of [w] bits, over the characters of the
    string. A result has the value, the error that is left in [errno], if any, and
    the index stored to [endptr], if the end is reached that stores it. *)
Definition ERANGE : Z := 22.

Record strto_result : Type := mk_result { value : Z; err : option Z; end_at : option nat }.

(** The character at the head of what is left, zero at the end. *)
Definition at_head (l : list Z) : Z := default 0 (head l).

Definition IsDigitInBase (c base : Z) : bool :=
  if decide (isdigit c = true ∧ c - 48 < base) then true else bool_decide (tolower c - 97 + 10 < base).

Definition digit_val (c : Z) : Z := if isdigit c then c - 48 else tolower c - 97 + 10.

Section strto.
Context (w : Z) (unsigned : bool) (LIM_MIN LIM_MAX : Z).

(** A value as the type holds it, and whether it is one of the type's: what the
    checked additions of _stdckdint.h test. *)
Definition wrap (z : Z) : Z := if unsigned then z `mod` 2 ^ w else (z + 2 ^ (w - 1)) `mod` 2 ^ w - 2 ^ (w - 1).
Definition fits (z : Z) : bool := bool_decide (wrap z = z).

(** The loop over the digits, [i] characters behind the one [str] points to. *)
Fixpoint strto_digits (str : nat) (base : Z) (negate : bool) (l : list Z) (i : nat) (any_digits : bool) (val : Z) : strto_result :=
  let stop := mk_result val None (Some (if any_digits then (str + i)%nat else str)) in
  match l with
  | [] => stop
  | c :: r =>
    if IsDigitInBase c base then
      let val := wrap (val * base) in
      let d := digit_val c in
      if negate then
        if unsigned && bool_decide (0 < d) then mk_result 0 (Some ERANGE) None
        else if fits (val - d) then strto_digits str base negate r (S i) true (wrap (val - d))
        else mk_result LIM_MIN (Some ERANGE) None
      else if fits (val + d) then strto_digits str base negate r (S i) true (wrap (val + d))
      else mk_result LIM_MAX (Some ERANGE) None
    else stop
  end.

Definition strto (l : list Z) (base : Z) : strto_result :=
  if decide (base < 2 ∨ 36 < base) then mk_result 0 (Some EINVAL) None else
  let s := after_spaces l in
  let i := (length l - length s)%nat in
  let '(negate, s, i) :=
    if decide (at_head s = 43) then (false, tail s, S i)
    else if decide (at_head s = 45) then (true, tail s, S i)
    else (false, s, i) in
  if decide (at_head s = 48 ∧ (at_head s = 120 ∨ at_head s = 88) ∧ (base = 0 ∨ base = 16)) then strto_digits 2 16 negate (drop 2 s) i false 0
  else if decide (at_head s = 48 ∧ base = 0) then strto_digits 1 8 negate (drop 1 s) i false 0
  else strto_digits 0 (if decide (base = 0) then 10 else base) negate s i false 0.
End strto.

Definition LONG_MIN : Z := - 2 ^ 31.
Definition LONG_MAX : Z := 2 ^ 31 - 1.
Definition strtol := strto 32 false LONG_MIN LONG_MAX.
Definition strtoll := strto 64 false (- 2 ^ 63) (2 ^ 63 - 1).
Definition strtoul := strto 32 true 0 (2 ^ 32 - 1).
Definition strtoull := strto 64 true 0 (2 ^ 64 - 1).

(** What a numeral in a base stands for. *)
Definition numeral (base : Z) (l : list Z) : Prop :=
  Forall (λ c, (48 ≤ c ≤ 57 ∨ 65 ≤ c ≤ 90 ∨ 97 ≤ c ≤ 122) ∧ digit_val c < base) l.
Definition number (base val : Z) (l : list Z) : Z := foldl (λ v c, v * base + digit_val c) val l.

Lemma digit_val_bounds c : 48 ≤ c ≤ 57 ∨ 65 ≤ c ≤ 90 ∨ 97 ≤ c ≤ 122 → 0 ≤ digit_val c.
Proof. unfold digit_val, isdigit, tolower. intros. case_bool_decide; [lia|]. case_decide; lia. Qed.

Lemma digit_in_base c base : digit_val c < base → IsDigitInBase c base = true.
Proof. unfold digit_val, IsDigitInBase. destruct (isdigit c); intros; case_decide; try done; apply bool_decide_eq_true; lia. Qed.

Lemma number_ge base val l : numeral base l → 0 < base → 0 ≤ val → val ≤ number base val l.
Proof.
  intros Hl Hb. revert val. induction l as [|c l IH]; intros val Hv; cbn; [done|].
  apply Forall_cons in Hl as [[Hc _] Hl]. pose proof (digit_val_bounds _ Hc).
  etrans; [|apply IH; [done|nia]]. nia.
Qed.

Section reading.
Context (w : Z) (unsigned : bool) (Hw : 0 < w).

Lemma fits_spec z : fits w unsigned z = true ↔ if unsigned then 0 ≤ z < 2 ^ w else - 2 ^ (w - 1) ≤ z < 2 ^ (w - 1).
Proof.
  unfold fits, wrap. rewrite bool_decide_eq_true. pose proof (Z.pow_pos_nonneg 2 (w - 1) ltac:(lia) ltac:(lia)) as Hp.
  assert (2 ^ w = 2 * 2 ^ (w - 1)) as E by (rewrite <- Z.pow_succ_r by lia; f_equal; lia).
  destruct unsigned.
  - split; [intros <-; apply Z.mod_pos_bound; lia|by apply Z.mod_small].
  - pose proof (Z.mod_pos_bound (z + 2 ^ (w - 1)) (2 ^ w) ltac:(lia)). split; [lia|]. intros. rewrite Z.mod_small; lia.
Qed.

(** The value with its sign. *)
Definition signed_value (negate : bool) (z : Z) : Z := if negate then - z else z.

(** A value between 0 and one the type has is one of the type's. *)
Lemma fits_between negate z z' :
  0 ≤ z ≤ z' → fits w unsigned (signed_value negate z') = true → fits w unsigned (signed_value negate z) = true.
Proof. rewrite !fits_spec. pose proof (Z.pow_pos_nonneg 2 (w - 1) ltac:(lia) ltac:(lia)). destruct negate, unsigned; cbn; lia. Qed.

Lemma strto_digits_reads lmin lmax str base negate l : ∀ i any val,
  2 ≤ base → numeral base l → 0 ≤ val → (any = true ∨ l ≠ []) → (negate && unsigned) = false →
  fits w unsigned (signed_value negate (number base val l)) = true →
  strto_digits w unsigned lmin lmax str base negate l i any (signed_value negate val) =
    mk_result (signed_value negate (number base val l)) None (Some (str + (i + length l))%nat).
Proof.
  induction l as [|c l IH]; intros i any val Hb Hl Hv Hany Hs Hf; cbn [strto_digits number foldl length].
  { destruct Hany as [->|]; [|done]. by rewrite Nat.add_0_r. }
  apply Forall_cons in Hl as [[Hc Hd] Hl]. rewrite digit_in_base by done. pose proof (digit_val_bounds _ Hc) as H0.
  change (foldl _ _ l) with (number base (val * base + digit_val c) l).
  assert (val * base + digit_val c ≤ number base (val * base + digit_val c) l) as Hn by (apply number_ge; [done|lia|nia]).
  assert (∀ z, 0 ≤ z ≤ val * base + digit_val c → wrap w unsigned (signed_value negate z) = signed_value negate z) as Hwrap.
  { intros z Hz. apply (bool_decide_unpack _), Is_true_true. apply (fits_between _ _ (number base (val * base + digit_val c) l)); [lia|done]. }
  assert (wrap w unsigned (signed_value negate val * base) = signed_value negate (val * base)) as ->.
  { rewrite <- (Hwrap (val * base)) by nia. f_equal. destruct negate; cbn; lia. }
  assert (if negate then signed_value negate (val * base) - digit_val c = signed_value negate (val * base + digit_val c)
    else signed_value negate (val * base) + digit_val c = signed_value negate (val * base + digit_val c)) as E by (destruct negate; cbn; lia).
  assert (fits w unsigned (signed_value negate (val * base + digit_val c)) = true) as Hfit by (apply (fits_between _ _ (number base (val * base + digit_val c) l)); [nia|done]).
  rewrite <- Nat.add_succ_comm. rewrite <- (IH (S i) true) by (auto; nia).
  destruct negate; [|by rewrite E, Hfit, Hwrap by nia].
  assert (unsigned && bool_decide (0 < digit_val c) = false) as -> by (by cbn [andb] in Hs; rewrite Hs).
  by rewrite E, Hfit, Hwrap by nia.
Qed.
End reading.

Lemma after_spaces_all sp l : Forall (λ c, isspace c = true) sp → isspace (at_head l) = false → after_spaces (sp ++ l) = l.
Proof.
  intros Hsp Hl. induction sp as [|c sp IH]; cbn [app after_spaces].
  - destruct l as [|c l]; [done|]. cbn in *. by rewrite Hl.
  - apply Forall_cons in Hsp as [Hc Hsp]. rewrite Hc. auto.
Qed.

(** The signs that may stand before a numeral. *)
Definition sign (negate : bool) (sg : list Z) : Prop := if negate then sg = [45] else sg = [] ∨ sg = [43].

(** A numeral, after spaces and perhaps a sign, is read as its number and up to
    its end, in every base and for each of the types that can hold it. *)
Theorem strto_reads_numeral w unsigned lmin lmax base sp negate sg ds :
  0 < w → 2 ≤ base ≤ 36 → Forall (λ c, isspace c = true) sp → sign negate sg → numeral base ds → ds ≠ [] →
  (negate && unsigned) = false → fits w unsigned (signed_value negate (number base 0 ds)) = true →
  strto w unsigned lmin lmax (sp ++ sg ++ ds) base =
    mk_result (signed_value negate (number base 0 ds)) None (Some (length (sp ++ sg ++ ds))).
Proof.
  intros Hw Hb Hsp Hsg Hds Hne Hs Hf. assert (∃ c r, ds = c :: r ∧ (48 ≤ c ≤ 57 ∨ 65 ≤ c ≤ 90 ∨ 97 ≤ c ≤ 122)) as (c & r & E & Hc).
  { destruct ds as [|c r]; [done|]. apply Forall_cons in Hds as [[Hc _] _]. eauto. }
  unfold strto. rewrite decide_False by lia. rewrite after_spaces_all.
  2: done.
  2: { unfold isspace. apply bool_decide_eq_false. destruct negate; cbn in Hsg; [|destruct Hsg as [Hsg|Hsg]]; rewrite Hsg; subst ds; cbn; lia. }
  assert (strto_digits w unsigned lmin lmax 0 base negate ds (length sp + length sg) false 0 =
    mk_result (signed_value negate (number base 0 ds)) None (Some (length (sp ++ sg ++ ds)))) as Hrun.
  { pose proof (strto_digits_reads w unsigned Hw lmin lmax 0 base negate ds (length sp + length sg) false 0) as R.
    replace (signed_value negate 0) with 0 in R by (by destruct negate). rewrite R by auto with lia.
    rewrite !length_app. do 2 f_equal. lia. }
  rewrite <- Hrun. rewrite length_app, Nat.add_sub.
  destruct negate; cbn in Hsg; [|destruct Hsg as [Hsg|Hsg]]; subst sg; cbn [app at_head head default length tail].
  2: { subst ds. cbn [at_head head default from_option]. rewrite !decide_False by (cbn; lia). f_equal. cbn. lia. }
  1: rewrite decide_False, decide_True by done.
  2: rewrite decide_True by done.
  all: cbn [tail]; rewrite !decide_False by (subst ds; cbn; lia); f_equal; lia.
Qed.

(** What stops none of it: a space behind the digits is taken for a digit of value
    -55, so is a comma (-43); a hexadecimal prefix is not one; base 0 is refused; a
    number ten times too large comes back small, without an error. *)
Theorem strtol_defects :
  strtol [49; 50; 32] 10 = mk_result 65 None (Some 3%nat) ∧
  strtol [49; 44; 50] 10 = mk_result (- 328) None (Some 3%nat) ∧
  strtol [48; 120; 49; 48] 16 = mk_result 0 None (Some 1%nat) ∧
  strtol [49; 48] 0 = mk_result 0 (Some EINVAL) None ∧
  strtol [52; 50; 57; 52; 57; 54; 55; 50; 57; 54] 10 = mk_result 0 None (Some 10%nat).
Proof. by vm_compute. Qed.
