(* ===== verification/Stdio.v ===== *)
(** * Streams and formatted output of the C library

    libc/hosted/stdio/stdio.c. The state is one stream and the system below it;
    a stream of [fmemopen] has the memory it writes to in its record. The bytes of
    the buffer that are in use are a list, so [buffer_used] is its length. The
    lock of a stream counts but, with one thread id for all, excludes nobody, and
    is left out. *)

From S2P Require Import Prelude Vnode CString Strings.

Definition EOF : Z := -1.
Definition BUFSIZ : Z := 512.
Definition _IOFBF : Z := 0.
Definition _IOLBF : Z := 1.
Definition _IONBF : Z := 2.
Definition BUFFER_DIR_UNSET : Z := 0.
Definition BUFFER_DIR_READ : Z := 1.
Definition BUFFER_DIR_WRITE : Z := 2.

Record FILE : Type := mk_FILE {
  fd : Z;
  ungetc_ : Z;
  eof : bool;
  error : bool;
  buffer_mode : Z;
  buffer : list Z;
  buffer_size : Z;
  buffer_needs_freeing : bool;
  flags : Z;
  mem_buffer : list Z;
  mem_size : Z;
  mem_seek_pos : Z;
  mem_buffer_needs_freeing : bool;
  buffer_direction : Z;
  memopen : bool;
}.

(** What the streams use of the system: [read] and [write] return -1 with an error
    in [errno], [open] a descriptor or -1; [fstat] is asked for directories only. *)
Class Sys (W : Type) : Type := {
  sys_read : Z → Z → W → (Z + list Z) * W;
  sys_write : Z → list Z → W → (Z + Z) * W;
  sys_open : list Z → Z → W → (Z + Z) * W;
  sys_close : Z → W → Z * W;
  sys_is_dir : Z → W → (Z + bool) * W;
  sys_isatty : Z → W → bool;
}.

Section stdio.
Context {W : Type} {SY : Sys W}.

(** [errno] and what [%n] stored, with the pointers it stored to, are kept beside
    the stream. *)
Record io : Type := mk_io { stream : FILE; os : W; errno : Z; stored : list (Z * Z) }.

Definition file : M io FILE := gets stream.
Definition update (f : FILE → FILE) : M io unit := modify (λ s, {| s with stream := f (stream s) |}).
Definition set_errno (e : Z) : M io unit := modify (λ s, {| s with errno := e |}).

(** A call of the system: [None] for its result -1. *)
Definition system {A} (f : W → (Z + A) * W) : M io (option A) := λ s,
  match f (os s) with
  | (inl e, w) => Done (None, {| s with os := w; errno := e |})
  | (inr a, w) => Done (Some a, {| s with os := w |})
  end.

(** Bytes of memory: outside of what is there an access is a fault. *)
Definition read_mem (l : list Z) (pos n : Z) : option (list Z) :=
  if decide (0 ≤ pos ∧ 0 ≤ n ∧ pos + n ≤ length l) then Some (take (Z.to_nat n) (drop (Z.to_nat pos) l)) else None.
Definition write_mem (l : list Z) (pos : Z) (bs : list Z) : option (list Z) :=
  if decide (0 ≤ pos ∧ pos + length bs ≤ length l) then
    Some (take (Z.to_nat pos) l ++ bs ++ drop (Z.to_nat pos + length bs) l) else None.

(** ** Reading and writing below the buffer *)
Definition _file_read (size : Z) : M io (option (list Z)) := f ← file; system (sys_read (fd f) size).
Definition _file_write (bs : list Z) : M io (option Z) := f ← file; system (sys_write (fd f) bs).

Definition _mem_read (size : Z) : M io (option (list Z)) :=
  f ← file;
  if decide (Z.land (flags f) O_ACCMODE = O_WRONLY) then set_errno EINVAL;; mret None
  else if decide (mem_size f ≤ mem_seek_pos f) then mret (Some [])
  else
    let size := if decide (mem_size f ≤ mem_seek_pos f + size) then mem_size f - mem_seek_pos f else size in
    bs ← deref (read_mem (mem_buffer f) (mem_seek_pos f) size);
    update (λ f, {| f with mem_seek_pos := mem_seek_pos f + size |});;
    mret (Some bs).

(** The search for the end of the text: at most [n] characters further. *)
Fixpoint skip_text (n : nat) : M io unit :=
  f ← file;
  b ← deref (aget (mem_buffer f) (mem_seek_pos f));
  if decide (b = 0) then mret tt else
  match n with
  | O => mret tt
  | S n => update (λ f, {| f with mem_seek_pos := mem_seek_pos f + 1 |});; skip_text n
  end.

Definition _mem_write (bs : list Z) : M io (option Z) :=
  f ← file;
  let size : Z := length bs in
  if decide (Z.land (flags f) O_ACCMODE = O_RDONLY) then set_errno EINVAL;; mret None else
  (if decide (Z.land (flags f) O_APPEND ≠ 0) then skip_text (Z.to_nat (size - mem_seek_pos f)) else mret tt);;
  f ← file;
  if decide (mem_size f ≤ mem_seek_pos f + size) then set_errno ENOSPC;; mret None
  else
    mem ← deref (write_mem (mem_buffer f) (mem_seek_pos f) bs);
    update (λ f, {| f with mem_buffer := mem; mem_seek_pos := mem_seek_pos f + size |});;
    mret (Some size).

(** [stream->read] and [stream->write]. *)
Definition stream_read (size : Z) : M io (option (list Z)) :=
  f ← file; if memopen f then _mem_read size else _file_read size.
Definition stream_write (bs : list Z) : M io (option Z) :=
  f ← file; if memopen f then _mem_write bs else _file_write bs.

(** ** Opening *)
Fixpoint mode_flags (mode : list Z) (flags : Z) : Z :=
  match mode with
  | [] => flags
  | c :: r =>
    mode_flags r
      (if decide (c = 43) then Z.lor (Z.land flags (Z.lnot O_ACCMODE)) O_RDWR
       else if decide (c = 98) then flags
       else if decide (c = 120) then Z.lor flags O_EXCL
       else flags)
  end.

Definition fail {A} (e : Z) : M io (option A) := set_errno e;; mret None.

(** Whether the stream is returned, or NULL. *)
Definition fopen_existing_stream (filename mode : list Z) : M io (option unit) :=
  update (λ f, {| f with ungetc_ := EOF; eof := false; error := false; buffer := []; buffer_size := BUFSIZ;
    buffer_needs_freeing := true; buffer_direction := BUFFER_DIR_UNSET |});;
  if decide (length mode = 0%nat ∨ (3 < length mode)%nat) then fail EINVAL else
  match mode with
  | [] => fail EINVAL
  | c :: r =>
    if negb (bool_decide (c = 114 ∨ c = 119 ∨ c = 97)) then fail EINVAL else
    let fl := mode_flags r
      (if decide (c = 114) then O_RDONLY
       else if decide (c = 119) then Z.lor O_WRONLY (Z.lor O_CREAT O_TRUNC)
       else Z.lor O_WRONLY (Z.lor O_CREAT O_APPEND)) in
    update (λ f, {| f with flags := fl |});;
    f ← file;
    if memopen f then update (λ f, {| f with buffer_mode := _IOFBF |});; mret (Some tt) else
    d ← system (sys_open filename fl);
    match d with
    | None => mret None
    | Some d =>
      st ← system (sys_is_dir d);
      match st with
      | None => mret None
      | Some true => fail EISDIR
      | Some false =>
        w ← gets os;
        let mode := if decide (Z.land fl O_ACCMODE ≠ O_RDONLY ∧ sys_isatty d w = true) then _IOLBF else _IOFBF in
        update (λ f, {| f with buffer_mode := mode; fd := d |});;
        mret (Some tt)
      end
    end
  end.

Definition fopen (filename mode : list Z) : M io (option unit) :=
  update (λ f, {| f with memopen := false |});;
  fopen_existing_stream filename mode.

(** [fmemopen], for a buffer of the caller's or, for NULL, one of its own. *)
Definition fmemopen (buf : option (list Z)) (own : list Z) (size : Z) (mode : list Z) : M io (option unit) :=
  if decide (size = 0) then fail ENOMEM else
  update (λ f, {| f with memopen := true |});;
  result ← fopen_existing_stream [] mode;
  update (λ f, {| f with mem_size := size; mem_seek_pos := 0 |});;
  (match buf with
   | None => update (λ f, {| f with mem_buffer := <[0%nat := 0]> own; mem_buffer_needs_freeing := true |})
   | Some b => update (λ f, {| f with mem_buffer := b; mem_buffer_needs_freeing := false |})
   end);;
  (if decide (at_head mode = 97) then skip_text (Z.to_nat size)
   else if decide (strcmp mode [119; 43] = 0) then
     f ← file;
     mem ← deref (aset (mem_buffer f) 0 0);
     update (λ f, {| f with mem_buffer := mem |})
   else mret tt);;
  mret result.

(** ** Buffers *)
Definition fflush : M io Z :=
  f ← file;
  if decide (buffer_direction f = BUFFER_DIR_UNSET) then mret 0
  else if decide (buffer_direction f = BUFFER_DIR_READ) then
    update (λ f, {| f with buffer := [] |});; mret 0
  else if decide (buffer_direction f = BUFFER_DIR_WRITE) then
    bytes_written ← stream_write (buffer f);
    match bytes_written with
    | None => update (λ f, {| f with error := true |});; mret EOF
    | Some _ =>
      update (λ f, {| f with buffer := [] |});;
      (f ← file;
       if memopen f && bool_decide (mem_seek_pos f < mem_size f) then
         mem ← deref (aset (mem_buffer f) (mem_seek_pos f) 0);
         update (λ f, {| f with mem_buffer := mem; mem_seek_pos := mem_seek_pos f + 1 |})
       else mret tt);;
      mret 0
    end
  else set_errno EBADF;; mret EOF.

Definition fclose : M io Z :=
  fflush;;
  f ← file;
  if memopen f then mret 0 else
  w ← gets os;
  let '(status, w) := sys_close (fd f) w in
  modify (λ s, {| s with os := w |});;
  if decide (status ≠ 0) then mret EOF else mret 0.

Definition feof : M io bool := f ← file; mret (eof f).
Definition ferror : M io bool := f ← file; mret (error f).
Definition clearerr : M io unit := update (λ f, {| f with eof := false; error := false |}).

Definition setvbuf (own : bool) (mode size : Z) : M io Z :=
  f ← file;
  if decide (buffer_direction f ≠ BUFFER_DIR_UNSET) then set_errno EBADF;; mret (-1) else
  let size := if decide (size < 32) then 32 else size in
  update (λ f, {| f with buffer_needs_freeing := negb own; buffer_size := size; buffer := []; buffer_mode := mode |});;
  mret 0.
Definition setbuffer (own : bool) (size : Z) : M io Z := setvbuf own (if own then _IOFBF else _IONBF) size.
Definition setbuf (own : bool) : M io Z := setbuffer own BUFSIZ.
Definition setlinebuf : M io Z := setvbuf false _IOLBF 0.

Definition fileno : M io Z :=
  f ← file; if memopen f then set_errno EBADF;; mret (-1) else mret (fd f).

(** ** Characters *)
Definition ungetc (c : Z) : M io Z :=
  if decide (c = EOF) then mret EOF else
  f ← file;
  if decide (ungetc_ f = EOF) then update (λ f, {| f with ungetc_ := c |});; mret c else mret EOF.

(** [fputc], with the depth of its calls to itself: it calls itself once, after a
    flush has made room. *)
Fixpoint fputc_at (depth : nat) (c : Z) : M io Z :=
  match depth with
  | O => exhausted
  | S depth =>
    update (λ f, {| f with buffer_direction := BUFFER_DIR_WRITE |});;
    let byte := u8 c in
    f ← file;
    if decide (buffer_mode f = _IONBF) then
      written ← stream_write [byte];
      match written with
      | None => update (λ f, {| f with error := true |});; mret EOF
      | Some _ => mret c
      end
    else if decide (buffer_mode f = _IOLBF) then
      stop ←
        (if decide (length (buffer f) < buffer_size f) then
           update (λ f, {| f with buffer := buffer f ++ [byte] |});; mret false
         else
           status ← fflush;
           if decide (status = EOF) then update (λ f, {| f with error := true |});; mret true else
           status ← fputc_at depth c;
           mret (bool_decide (status = EOF)));
      if (stop : bool) then mret EOF else
      if decide (byte = 10) then
        status ← fflush;
        if decide (status = EOF) then mret EOF else mret c
      else mret c
    else if decide (buffer_mode f = _IOFBF) then
      if decide (length (buffer f) < buffer_size f) then
        update (λ f, {| f with buffer := buffer f ++ [byte] |});; mret c
      else
        status ← fflush;
        if decide (status = EOF) then mret EOF else fputc_at depth c
    else mret c
  end.
Definition fputc (c : Z) : M io Z := fputc_at 2 c.

Definition fgetc : M io Z :=
  update (λ f, {| f with buffer_direction := BUFFER_DIR_READ; eof := false |});;
  f ← file;
  if decide (ungetc_ f ≠ EOF) then update (λ f, {| f with ungetc_ := EOF |});; mret (ungetc_ f) else
  stop ←
    (if decide (buffer f = []) then
       bytes_read ← stream_read (if decide (buffer_mode f = _IONBF) then 1 else buffer_size f);
       match bytes_read with
       | None => update (λ f, {| f with error := true |});; mret true
       | Some bs =>
         update (λ f, {| f with buffer := bs |});;
         if decide (bs = []) then update (λ f, {| f with eof := true |});; mret true else mret false
       end
     else mret false);
  if (stop : bool) then mret EOF else
  f ← file;
  c ← deref (head (buffer f));
  update (λ f, {| f with buffer := tail (buffer f) |});;
  mret (i8 c).

(** [fgets] with what it has stored to the buffer of the caller, and whether it
    returns that buffer or NULL. *)
Fixpoint fgets_loop (n : nat) (got : list Z) : M io (list Z * bool) :=
  match n with
  | O => mret (got, true)
  | S n =>
    c ← fgetc;
    let got := got ++ [i8 c] in
    f ← file;
    if error f then mret (got ++ [0], false)
    else
      e ← feof;
      if (e : bool) then mret (got ++ [0], false)
      else if decide (i8 c = 10) then mret (got ++ [0], true)
      else match n with O => mret (got ++ [0], true) | _ => fgets_loop n got end
  end.
Definition fgets (n : Z) : M io (list Z * bool) := fgets_loop (Z.to_nat (n - 1)) [].

(** A string is given by its characters. *)
Fixpoint fputs (s : list Z) : M io Z :=
  match s with
  | [] => mret 0
  | c :: r =>
    status ← fputc c;
    if decide (status = EOF) then mret EOF else fputs r
  end.
Definition puts (s : list Z) : M io Z :=
  status ← fputs s;
  if decide (status < 0) then mret EOF else fputc 10.

(** ** Formatted output

    The arguments that follow the format: words of four and of eight bytes, and
    pointers to strings. One of another kind than the format asks for is read as
    what it is not, a fault here. *)
Inductive va : Type :=
  | VInt (z : Z)
  | VLong (z : Z)
  | VStr (s : list Z).

Definition va_word (ap : list va) : M io (Z * list va) :=
  match ap with VInt z :: r => mret (z, r) | _ => fault end.
Definition va_long (ap : list va) : M io (Z * list va) :=
  match ap with VLong z :: r => mret (z, r) | _ => fault end.
Definition va_str (ap : list va) : M io (list Z * list va) :=
  match ap with VStr s :: r => mret (s, r) | _ => fault end.

Definition i16 (z : Z) : Z := (z + 2 ^ 15) `mod` 2 ^ 16 - 2 ^ 15.
Definition i64 (z : Z) : Z := (z + 2 ^ 63) `mod` 2 ^ 64 - 2 ^ 63.

(** The characters of a format that the code compares with. *)
Definition is_flag (c : Z) : bool := bool_decide (c = 35 ∨ c = 48 ∨ c = 45 ∨ c = 32 ∨ c = 43).

(** The leading flag characters, and the rest. *)
Fixpoint flag_chars (l : list Z) : list Z * list Z :=
  match l with
  | [] => ([], [])
  | c :: r => if is_flag c then let '(fs, r) := flag_chars r in (c :: fs, r) else ([], l)
  end.

(** A number in the format, after its value so far. *)
Fixpoint format_number (l : list Z) (val : Z) : Z * list Z :=
  match l with
  | [] => (val, [])
  | c :: r => if isdigit c then format_number r (i32 (i32 (val * 10) + (c - 48))) else (val, l)
  end.

(** The field width, whether it turned the alignment to the left, and the rest. *)
Definition parse_width (l : list Z) (ap : list va) : M io (Z * bool * list Z * list va) :=
  match l with
  | c :: r =>
    if decide (c = 42) then
      '(w, ap) ← va_word ap;
      let w := i32 w in
      mret (if decide (w < 0) then (i32 (- w), true, r, ap) else (w, false, r, ap))
    else if decide (49 ≤ c ≤ 57) then
      let '(w, r) := format_number r (c - 48) in mret (w, false, r, ap)
    else mret (-1, false, l, ap)
  | [] => mret (-1, false, l, ap)
  end.

Definition parse_precision (l : list Z) (ap : list va) : M io (Z * list Z * list va) :=
  match l with
  | 46 :: r =>
    '(p, r, ap) ←
      (match r with
       | 42 :: r => '(p, ap) ← va_word ap; mret (i32 p, r, ap)
       | _ => let '(p, r) := format_number r 0 in mret (p, r, ap)
       end);
    mret (if decide (p < -1) then -1 else p, r, ap)
  | _ => mret (-1, l, ap)
  end.

(** Length modifiers: hh is H and ll is q. *)
Inductive modifier : Type := mod_none | mod_H | mod_h | mod_l | mod_q | mod_L | mod_j | mod_z | mod_t.

Definition parse_modifier (l : list Z) : modifier * list Z :=
  match l with
  | 104 :: 104 :: r => (mod_H, r)
  | 104 :: r => (mod_h, r)
  | 108 :: 108 :: r => (mod_q, r)
  | 108 :: r => (mod_l, r)
  | 113 :: r => (mod_q, r)
  | 76 :: r => (mod_L, r)
  | 106 :: r => (mod_j, r)
  | 122 :: r | 90 :: r => (mod_z, r)
  | 116 :: r => (mod_t, r)
  | _ => (mod_none, l)
  end.

Definition signed_arg (m : modifier) (ap : list va) : M io (Z * list va) :=
  match m with
  | mod_q | mod_j => '(z, ap) ← va_long ap; mret (i64 z, ap)
  | _ =>
    '(z, ap) ← va_word ap;
    mret (match m with mod_H => i8 z | mod_h => i16 z | _ => i32 z end, ap)
  end.

Definition unsigned_arg (m : modifier) (ap : list va) : M io (Z * list va) :=
  match m with
  | mod_q | mod_j => '(z, ap) ← va_long ap; mret (u64 z, ap)
  | _ =>
    '(z, ap) ← va_word ap;
    mret (match m with mod_H => u8 z | mod_h => z `mod` 2 ^ 16 | mod_t => u64 (i32 z) | _ => u32 z end, ap)
  end.

(** [%n] stores the count of characters, as the type of the modifier holds it. *)
Definition store_count (m : modifier) (n : Z) (ap : list va) : M io (list va) :=
  '(p, ap) ← va_word ap;
  modify (λ s, {| s with stored := stored s ++ [(p, match m with mod_H => i8 n | mod_h => i16 n | _ => n end)] |});;
  mret ap.

(** The digits of a number into [num_buf], from its end down; [j] places are free. *)
Definition base_lookup : list Z := map Z.of_nat
  [48;49;50;51;52;53;54;55;56;57;65;66;67;68;69;70;48;49;50;51;52;53;54;55;56;57;97;98;99;100;101;102]%nat.

Fixpoint digits (j : nat) (real_value precision base_as_int lower : Z) (acc : list Z) : M io (list Z) :=
  if decide (0 < real_value ∨ 0 < precision) then
    match j with
    | O => fault
    | S j =>
      c ← deref (aget base_lookup (real_value `mod` base_as_int + lower));
      digits j (real_value / base_as_int) (precision - 1) base_as_int lower (c :: acc)
    end
  else mret acc.

(** Characters of one kind after the other, each counted; results are ignored. *)
Fixpoint put_counted (l : list Z) (chars_written : Z) : M io Z :=
  match l with
  | [] => mret chars_written
  | c :: r => fputc c;; put_counted r (i32 (chars_written + 1))
  end.

(** A conversion as it is printed: text, sign (0 for none), prefix, padding. *)
Record piece : Type := mk_piece {
  text : list Z;
  sign_to_display : Z;
  prefix : list Z;
  numeric : bool;
  buffer_manual_len : Z;
}.

Definition piece_sign (p : piece) : list Z := (if decide (sign_to_display p = 0) then [] else [sign_to_display p]) ++ prefix p.

(** The text of a piece, cut at the length that was given for it. *)
Definition piece_text (p : piece) : list Z :=
  if decide (buffer_manual_len p = -1) then text p else take (Z.to_nat (buffer_manual_len p)) (text p).

Definition padding_required (p : piece) (base : Z) (alternative_form : bool) (field_width : Z) : Z :=
  field_width - (if decide (buffer_manual_len p = -1) then length (text p) else buffer_manual_len p)
  - (if decide (sign_to_display p = 0) then 0 else 1)
  - (if alternative_form && bool_decide (base ≠ 0) then (if decide (base = 111) then 1 else 2) else 0).

(** The sign, the text and the padding, in the order that the flags ask for. *)
Definition put_piece (p : piece) (pad : Z) (pad_with_zeroes left_align : bool) (n : Z) : M io Z :=
  let padding (c : Z) := repeat c (Z.to_nat pad) in
  if pad_with_zeroes then
    n ← put_counted (piece_sign p) n; n ← put_counted (padding 48) n; put_counted (piece_text p) n
  else if left_align then
    n ← put_counted (piece_sign p) n; n ← put_counted (piece_text p) n; put_counted (padding 32) n
  else
    n ← put_counted (padding 32) n; n ← put_counted (piece_sign p) n; put_counted (piece_text p) n.

Definition floating_point : list Z := [102;108;111;97;116;105;110;103;32;112;111;105;110;116;33].

(** The base of a conversion: 0 for decimal, or the character of its specifier. *)
Definition is_integral (c : Z) : bool := bool_decide (c = 100 ∨ c = 105 ∨ c = 117 ∨ c = 112 ∨ c = 111 ∨ c = 120 ∨ c = 88).
Definition is_signed (c : Z) : bool := bool_decide (c = 100 ∨ c = 105).
Definition base_of (c : Z) : Z :=
  if decide (c = 112) then 120 else if decide (c = 111 ∨ c = 120 ∨ c = 88) then c else 0.

(** What is printed for the specifier [c], and the arguments that are left. *)
Definition convert (c : Z) (m : modifier) (precision : Z) (alternative_form display_sign space : bool) (ap : list va) : M io (piece * list va) :=
  if is_integral c then
    let base := base_of c in
    '(real_value, negative, ap) ←
      (if is_signed c then
         '(value, ap) ← signed_arg m ap;
         mret (u64 (if decide (value < 0) then i64 (- value) else value), bool_decide (value < 0), ap)
       else if decide (c = 112) then '(z, ap) ← va_word ap; mret (u32 z, false, ap)
       else '(value, ap) ← unsigned_arg m ap; mret (value, false, ap));
    let sign := if (negative : bool) then 45 else if display_sign then 43 else if space then 32 else 0 in
    let base_as_int := if decide (base = 0) then 10 else if decide (base = 111) then 8 else 16 in
    l ← digits 31 real_value (if decide (precision = -1) then 1 else precision) base_as_int (if decide (base = 120) then 16 else 0) [];
    mret (mk_piece l sign (if alternative_form && bool_decide (base ≠ 0) then (if decide (base = 111) then [base] else [48; base]) else []) true (-1), ap)
  else if decide (c = 99) then
    '(z, ap) ← va_word ap;
    mret (mk_piece (if decide (i8 z = 0) then [] else [i8 z]) 0 [] false (-1), ap)
  else if decide (c = 115) then
    '(s, ap) ← va_str ap;
    mret (mk_piece s 0 [] false precision, ap)
  else mret (mk_piece floating_point 0 [] false (-1), ap).

(** One conversion, behind the percent sign. The result is the rest of the format,
    [None] when its end has been taken for a specifier. *)
Definition conversion (l : list Z) (ap : list va) (n : Z) : M io (option (list Z) * list va * Z) :=
  let '(fs, l) := flag_chars l in
  let alternative_form := bool_decide (35 ∈ fs) in
  let left_align := bool_decide (45 ∈ fs) in
  let display_sign := bool_decide (43 ∈ fs) in
  '(field_width, left_too, l, ap) ← parse_width l ap;
  '(precision, l, ap) ← parse_precision l ap;
  let left_align := left_align || left_too in
  let pad_with_zeroes := bool_decide (48 ∈ fs) && negb left_align && bool_decide (precision = -1) in
  let space := bool_decide (32 ∈ fs) && negb display_sign in
  let '(m, l) := parse_modifier l in
  let c := at_head l in
  let rest := match l with [] => None | _ :: r => Some r end in
  if decide (c = 37) then n ← put_counted [37] n; mret (rest, ap, n)
  else if decide (c = 110) then ap ← store_count m n ap; mret (rest, ap, n)
  else
    '(p, ap) ← convert c m precision (alternative_form || bool_decide (c = 112)) display_sign space ap;
    let pad := padding_required p (if is_integral c then base_of c else 0) (alternative_form || bool_decide (c = 112)) field_width in
    n ← put_piece p pad (negb left_align && pad_with_zeroes && numeric p) left_align n;
    mret (rest, ap, n).

Fixpoint vfprintf_loop (fuel : nat) (format : list Z) (ap : list va) (chars_written : Z) : M io Z :=
  match fuel with
  | O => exhausted
  | S fuel =>
    match format with
    | [] => mret chars_written
    | 37 :: r =>
      '(rest, ap, n) ← conversion r ap chars_written;
      r ← deref rest;
      vfprintf_loop fuel r ap n
    | c :: r => n ← put_counted [c] chars_written; vfprintf_loop fuel r ap n
    end
  end.

(** Every turn takes a character of the format. *)
Definition vfprintf (format : list Z) (ap : list va) : M io Z := vfprintf_loop (S (length format)) format ap 0.

(** The memory of the caller is [str]; it is returned with the result. *)
Definition vsnprintf (str : list Z) (size : Z) (format : list Z) (ap : list va) : M io (Z * list Z) :=
  f ← fmemopen (Some str) [] (u32 (size - 1)) [119];
  match f with
  | None => mret (-1, str)
  | Some _ =>
    status_1 ← vfprintf format ap;
    status_2 ← fclose;
    f ← file;
    let str := mem_buffer f in
    if decide (status_1 = -1) then mret (-1, str)
    else if decide (status_2 ≠ 0) then set_errno status_2;; mret (-1, str)
    else if decide (i32 size - 1 ≤ status_1) then str ← deref (aset str (size - 1) 0); mret (status_1, str)
    else mret (status_1, str)
  end.

Definition vsprintf (str format : list Z) (ap : list va) : M io (Z * list Z) := vsnprintf str (2 ^ 31 - 1) format ap.
End stdio.

(** A statement that returns. *)
#[local] Ltac step := erewrite M_bind_done; [|reflexivity]; cbv beta;
  cbn [stream os errno stored fd ungetc_ eof error buffer_mode buffer buffer_size buffer_needs_freeing flags mem_buffer mem_size mem_seek_pos
    mem_buffer_needs_freeing buffer_direction memopen].

(** ** Writing while there is room

    [appended s l] is the stream after the bytes [l] have gone to its buffer. *)
Section writing.
Context {W : Type} {SY : Sys W}.
Implicit Types (s : @io W) (l : list Z).

Definition appended s l : io :=
  match l with
  | [] => s
  | _ => let f := stream s in {| s with stream := {| f with buffer_direction := BUFFER_DIR_WRITE; buffer := buffer f ++ l |} |}
  end.

Lemma appended_app s a b : appended (appended s a) b = appended s (a ++ b).
Proof.
  destruct s as [[] o e st]. destruct a as [|x a]; [done|]. destruct b as [|y b]; cbn; [by rewrite app_nil_r|].
  by rewrite <- app_assoc.
Qed.

(** A buffered stream with room for [n] more bytes. *)
Definition room (n : Z) s : Prop :=
  buffer_mode (stream s) = _IOFBF ∧ length (buffer (stream s)) + n ≤ buffer_size (stream s).

Lemma room_appended n s l : room (length l + n) s → room n (appended s l).
Proof.
  intros [Hm Hr]. destruct s as [[] o e st], l as [|x l]; cbn in *; (split; [done|]); cbn in *; [lia|].
  rewrite length_app. cbn. lia.
Qed.

Lemma fputc_room c s : room 1 s → fputc c s = Done (c, appended s [u8 c]).
Proof.
  intros [Hm Hr]. unfold fputc. cbn [fputc_at]. step. step. cbn [stream buffer_mode buffer buffer_size]. rewrite Hm.
  rewrite 2!decide_False by discriminate. rewrite decide_True by done.
  rewrite decide_True by lia. step. by rewrite <- Hm.
Qed.

Lemma put_counted_room l : ∀ n s,
  room (length l) s → 0 ≤ n → n + length l < 2 ^ 31 →
  put_counted l n s = Done (n + length l, appended s (u8 <$> l)).
Proof.
  induction l as [|c l IH]; intros n s Hr Hn Hlen; cbn [put_counted fmap list_fmap].
  { cbn. unfold mret, M_mret. by rewrite Z.add_0_r. }
  assert (room (length [u8 c] + length l) s) as Hr' by (destruct Hr; cbn [length] in *; split; [done|lia]).
  rewrite (M_bind_done _ _ _ _ _ (fputc_room c s ltac:(destruct Hr; cbn [length] in *; split; [done|lia]))).
  cbn [length] in Hlen. rewrite IH by (try apply room_appended; rewrite ?i32_small; done || lia).
  rewrite appended_app, i32_small by lia. cbn [app length]. do 2 f_equal. lia.
Qed.

Lemma put_counted_app a b n s : put_counted (a ++ b) n s = (n ← put_counted a n; put_counted b n) s.
Proof.
  revert n s. induction a as [|c a IH]; intros n s; cbn [put_counted app]; [done|].
  unfold mbind, M_mbind in *. destruct (fputc c s) as [[z s1]| | | |]; cbn; [|done..]. apply IH.
Qed.

(** The characters of a piece with its padding. *)
Definition piece_chars (p : piece) (pad : Z) (pad_with_zeroes left_align : bool) : list Z :=
  let padding (c : Z) := repeat c (Z.to_nat pad) in
  if pad_with_zeroes then piece_sign p ++ padding 48 ++ piece_text p
  else if left_align then piece_sign p ++ piece_text p ++ padding 32
  else padding 32 ++ piece_sign p ++ piece_text p.

Lemma put_piece_chars p pad z left_align n s :
  put_piece p pad z left_align n s = put_counted (piece_chars p pad z left_align) n s.
Proof.
  unfold put_piece, piece_chars. destruct z; [|destruct left_align]; rewrite put_counted_app; unfold mbind, M_mbind;
    destruct (put_counted _ n s) as [[m s1]| | | |]; cbn; try done; by rewrite put_counted_app.
Qed.

(** ** The digits of a number *)
Lemma number_snoc base val l c : number base val (l ++ [c]) = number base val l * base + digit_val c.
Proof. unfold number. by rewrite foldl_app. Qed.

(** The characters that the table has for a base read as their places in it. *)
Lemma base_lookup_digit d lower : 0 ≤ d < 16 → lower = 0 ∨ lower = 16 →
  ∃ c, aget base_lookup (d + lower) = Some c ∧ digit_val c = d ∧ (48 ≤ c ≤ 57 ∨ 65 ≤ c ≤ 90 ∨ 97 ≤ c ≤ 122) ∧ 0 ≤ c < 128.
Proof.
  intros Hd Hl.
  assert (d = 0 ∨ d = 1 ∨ d = 2 ∨ d = 3 ∨ d = 4 ∨ d = 5 ∨ d = 6 ∨ d = 7 ∨ d = 8 ∨ d = 9 ∨ d = 10 ∨ d = 11 ∨ d = 12 ∨ d = 13 ∨ d = 14 ∨ d = 15) as E by lia.
  destruct Hl as [->| ->]; repeat (destruct E as [->|E]); subst; eexists; (split_and!; [by vm_compute|by vm_compute|lia..]).
Qed.

Lemma digits_reads base lower (Hb : 2 ≤ base ≤ 16) (Hl : lower = 0 ∨ lower = 16) k : ∀ j rv p acc s,
  (k ≤ j)%nat → 0 ≤ rv < base ^ k → p ≤ k →
  ∃ l, digits j rv p base lower acc s = Done (l ++ acc, s) ∧ number base 0 l = rv ∧ numeral base l ∧
    (length l ≤ k)%nat ∧ (0 < p → l ≠ []) ∧ Forall (λ c, 0 ≤ c < 128) l.
Proof.
  induction k as [|k IH]; intros j rv p acc s Hk Hrv Hp.
  { exists []. assert (rv = 0) as -> by lia. destruct j; cbn [digits]; rewrite decide_False by lia; (split_and!; [done|done|apply Forall_nil_2|cbn; lia|intros; exfalso; lia|apply Forall_nil_2]). }
  destruct j as [|j]; [lia|]. cbn [digits]. case_decide as E.
  2: { exists []. assert (rv = 0) as -> by lia. split_and!; [done|done|apply Forall_nil_2|cbn; lia|intros; exfalso; lia|apply Forall_nil_2]. }
  pose proof (Z.mod_pos_bound rv base ltac:(lia)) as Hmod.
  destruct (base_lookup_digit (rv `mod` base) lower) as (c & Ec & Hc & Hr & Hc7); [lia|done|].
  rewrite Ec. mred. destruct (IH j (rv / base) (p - 1) (c :: acc) s) as (l & El & Hn & Hnum & Hlen & _ & H7); [lia| |lia|].
  { rewrite Nat2Z.inj_succ, Z.pow_succ_r in Hrv by lia. split; [apply Z.div_pos; lia|]. apply Z.div_lt_upper_bound; lia. }
  exists (l ++ [c]). rewrite El, <- app_assoc. split; [done|]. rewrite number_snoc, Hn, Hc. split; [rewrite (Z.div_mod rv base) at 3; lia|].
  split; [apply Forall_app_2; [done|constructor; [split; [done|lia]|constructor]]|]. rewrite length_app. cbn.
  split; [lia|]. split; [by destruct l|]. apply Forall_app_2; [done|by constructor].
Qed.

(** ** Formats of one conversion: flags, a width and a specifier *)
Definition plain_flags (fs : list Z) : Prop := Forall (λ c, c = 35 ∨ c = 48 ∨ c = 32 ∨ c = 43) fs.
Definition plain_width (w : list Z) : Prop :=
  Forall (λ c, 48 ≤ c ≤ 57) w ∧ at_head w ≠ 48 ∧ number 10 0 w ≤ BUFSIZ.

Lemma flag_chars_app fs l : plain_flags fs → is_flag (at_head l) = false → flag_chars (fs ++ l) = (fs, l).
Proof.
  intros Hfs Hl. induction fs as [|c fs IH]; cbn [app flag_chars].
  - destruct l as [|c l]; [done|]. cbn in Hl |- *. by rewrite Hl.
  - apply Forall_cons in Hfs as [Hc Hfs]. unfold is_flag at 1. rewrite bool_decide_eq_true_2 by lia. by rewrite IH.
Qed.

Lemma decimal_numeral l : Forall (λ c, 48 ≤ c ≤ 57) l → numeral 10 l.
Proof. intros H. eapply Forall_impl; [exact H|]. intros c Hc. cbv beta in *. split; [lia|]. unfold digit_val, isdigit. rewrite bool_decide_eq_true_2; lia. Qed.

Lemma format_number_reads ds l : ∀ val,
  Forall (λ c, 48 ≤ c ≤ 57) ds → isdigit (at_head l) = false → 0 ≤ val → number 10 val ds < 2 ^ 31 →
  format_number (ds ++ l) val = (number 10 val ds, l).
Proof.
  induction ds as [|c ds IH]; intros val Hds Hl Hv Hn; cbn [app format_number].
  - destruct l as [|c l]; [done|]. cbn in Hl |- *. by rewrite Hl.
  - apply Forall_cons in Hds as [Hc Hds]. unfold isdigit at 1. rewrite bool_decide_eq_true_2 by lia.
    assert (digit_val c = c - 48) as Hd by (unfold digit_val, isdigit; by rewrite bool_decide_eq_true_2 by lia).
    cbn [number foldl] in Hn |- *. change (foldl _ _ ds) with (number 10 (val * 10 + digit_val c) ds) in *.
    pose proof (number_ge 10 (val * 10 + digit_val c) ds (decimal_numeral _ Hds) ltac:(lia) ltac:(lia)).
    rewrite Hd in *. rewrite (i32_small (val * 10)), i32_small by lia. apply IH; [done|done|lia|done].
Qed.

Lemma parse_width_reads w c ap s : plain_width w → c ≠ 42 → isdigit c = false →
  ∃ v, parse_width (w ++ [c]) ap s = Done (v, false, [c], ap, s) ∧ v ≤ BUFSIZ.
Proof.
  intros (Hw & H0 & Hn) Hc Hd. unfold isdigit in Hd. apply bool_decide_eq_false in Hd. destruct w as [|x w]; cbn [app parse_width].
  - rewrite decide_False by done. rewrite decide_False by lia. exists (-1). by split.
  - pose proof Hw as [Hx Hw']%Forall_cons. cbn in H0. rewrite decide_False by lia. rewrite decide_True by lia.
    assert (digit_val x = x - 48) as Ex by (unfold digit_val, isdigit; by rewrite bool_decide_eq_true_2 by lia).
    cbn [number foldl] in Hn. rewrite Z.mul_0_l, Z.add_0_l, Ex in Hn. rewrite (format_number_reads w [c]); [|done| |lia|].
    + by eexists.
    + unfold isdigit. cbn. apply bool_decide_eq_false. lia.
    + unfold number, BUFSIZ in *. lia.
Qed.

(** ** The integer conversions *)
Definition specifier (c : Z) : Prop := c = 100 ∨ c = 105 ∨ c = 117 ∨ c = 111 ∨ c = 120 ∨ c = 88.
Definition base_as_int (c : Z) : Z := if decide (c = 111) then 8 else if decide (c = 120 ∨ c = 88) then 16 else 10.
Definition in_range (c z : Z) : Prop := if is_signed c then LONG_MIN ≤ z ≤ LONG_MAX else 0 ≤ z < 2 ^ 32.

(** What [piece_of] a number has: its digits, and a minus sign if it is negative. *)
Record is_piece_of (c z : Z) (p : piece) : Prop := {
  ip_number : number (base_as_int c) 0 (text p) = Z.abs z;
  ip_numeral : numeral (base_as_int c) (text p);
  ip_some : text p ≠ [];
  ip_length : (length (text p) ≤ 11)%nat;
  ip_ascii : Forall (λ c, 0 ≤ c < 128) (text p);
  ip_sign : sign_to_display p = 45 ∧ z < 0 ∨ 0 ≤ z ∧ (sign_to_display p = 43 ∨ sign_to_display p = 32 ∨ sign_to_display p = 0);
  ip_prefix : prefix p = [];
  ip_whole : buffer_manual_len p = -1;
  ip_numeric : numeric p = true;
}.

Lemma convert_integer c z alt plus space ap s :
  specifier c → in_range c z → (alt = true → base_as_int c = 10) →
  ∃ p, convert c mod_none (-1) alt plus space (VInt z :: ap) s = Done (p, ap, s) ∧ is_piece_of c z p.
Proof.
  intros Hc Hz Halt.
  assert (2 ≤ base_as_int c ≤ 16) as Hb by (unfold base_as_int; repeat case_decide; lia).
  assert (Z.abs z < base_as_int c ^ 11%nat) as Hlt.
  { apply Z.lt_le_trans with (8 ^ 11%nat); [unfold in_range, LONG_MIN, LONG_MAX in Hz; destruct (is_signed c); lia|].
    apply Z.pow_le_mono_l. unfold base_as_int. repeat case_decide; lia. }
  destruct (digits_reads (base_as_int c) (if decide (base_of c = 120) then 16 else 0) Hb ltac:(case_decide; auto) 11 31 (Z.abs z) 1 [] s)
    as (l & El & Hn & Hnum & Hlen & Hne & Hasc); [lia|lia|lia|].
  rewrite app_nil_r in El.
  assert (is_integral c = true) as Ei by (unfold is_integral; apply bool_decide_eq_true; unfold specifier in Hc; tauto).
  assert ((if decide (base_of c = 0) then 10 else if decide (base_of c = 111) then 8 else 16) = base_as_int c) as Eb.
  { unfold base_of, base_as_int. unfold specifier in Hc. repeat (case_decide; subst); lia. }
  assert ((alt && bool_decide (base_of c ≠ 0)) = false) as Ealt.
  { destruct alt; [|done]. specialize (Halt eq_refl). unfold base_as_int in Halt. cbn. apply bool_decide_eq_false.
    unfold base_of. unfold specifier in Hc. repeat (case_decide; subst); lia. }
  unfold convert. rewrite Ei.
  erewrite M_bind_done with (a := (Z.abs z, bool_decide (z < 0), ap)).
  2: { unfold in_range in Hz. destruct (is_signed c) eqn:Es.
    - unfold signed_arg, va_word. step. unfold LONG_MIN, LONG_MAX in Hz. rewrite i32_small by lia. unfold mret, M_mret. do 4 f_equal.
      clear - Hz. case_decide; [assert (i64 (- z) = - z) as -> by (unfold i64; rewrite Z.mod_small; lia)|]; rewrite u64_small by (unfold is_u64; lia); lia.
    - rewrite decide_False by (unfold specifier in Hc; lia). unfold unsigned_arg, va_word. step. unfold mret, M_mret.
      rewrite u32_small by (unfold is_u32; lia). rewrite Z.abs_eq by lia. by rewrite bool_decide_eq_false_2 by lia. }
  cbv beta. rewrite Eb, Ealt. rewrite (decide_True (P := -1 = -1)) by done. rewrite (M_bind_done _ _ _ _ _ El).
  eexists. split; [done|]. split; cbn [text sign_to_display prefix buffer_manual_len numeric]; try done; [by apply Hne|].
  destruct (decide (z < 0)) as [Hz0|Hz0]; [left|right].
  - split; [by rewrite bool_decide_eq_true_2|done].
  - split; [lia|]. rewrite bool_decide_eq_false_2 by done. destruct plus, space; auto.
Qed.

(** ** Where the number stands in the text *)
Lemma length_piece_chars p pad zeroes left_align :
  length (piece_chars p pad zeroes left_align) = (length (piece_sign p) + Z.to_nat pad + length (piece_text p))%nat.
Proof. unfold piece_chars. destruct zeroes; [|destruct left_align]; rewrite !length_app, repeat_length; lia. Qed.

Lemma number_zeros base n l : number base 0 (repeat 48 n ++ l) = number base 0 l.
Proof. induction n as [|n IH]; cbn [repeat app number foldl]; [done|]. exact IH. Qed.

(** Spaces, a sign and a numeral: what [strto_reads_numeral] reads. *)
Record shows (base z : Z) (chars : list Z) : Prop := {
  sh_parts : ∃ sp sg ds, chars = sp ++ sg ++ ds ∧ Forall (λ c, isspace c = true) sp ∧ sign (bool_decide (z < 0)) sg ∧
    numeral base ds ∧ ds ≠ [] ∧ number base 0 ds = Z.abs z;
  sh_ascii : Forall (λ c, 0 ≤ c < 128) chars;
}.

Lemma ascii_bytes l : Forall (λ c, 0 ≤ c < 128) l → u8 <$> l = l.
Proof. intros H. induction H as [|c l Hc H IH]; [done|]. cbn [fmap list_fmap]. rewrite u8_small by (unfold is_u8; lia). by f_equal. Qed.

Lemma Forall_repeat (P : Z → Prop) c n : P c → Forall P (repeat c n).
Proof. intros. induction n; by constructor. Qed.

Lemma piece_chars_shows c z p pad zeroes : is_piece_of c z p → shows (base_as_int c) z (piece_chars p pad zeroes false).
Proof.
  intros [Hn Hnum Hne Hlen Hasc Hs Hp Hw _].
  assert (piece_text p = text p) as Et by (unfold piece_text; by rewrite decide_True).
  assert (Forall (λ c, 0 ≤ c < 128) (piece_sign p)) as Hsa.
  { unfold piece_sign. rewrite Hp, app_nil_r. case_decide; [apply Forall_nil_2|]. constructor; [lia|apply Forall_nil_2]. }
  split.
  2: { unfold piece_chars. rewrite Et. revert Hsa. generalize (piece_sign p). intros q Hq.
    destruct zeroes; repeat apply Forall_app_2; first [done|by apply Forall_repeat]. }
  assert (∃ sp sg, piece_sign p = sp ++ sg ∧ Forall (λ c, isspace c = true) sp ∧ sign (bool_decide (z < 0)) sg) as (sp & sg & Es & Hsp & Hsg).
  { unfold piece_sign. rewrite Hp, app_nil_r. destruct Hs as [[E Hz]|[Hz Hs]].
    - exists [], [45]. rewrite E, bool_decide_eq_true_2 by done. by split_and!.
    - rewrite bool_decide_eq_false_2 by lia. destruct Hs as [E|[E|E]]; rewrite E.
      + exists [], [43]. split_and!; [done|done|by right].
      + exists [32], []. split_and!; [done|by constructor|by left].
      + exists [], []. split_and!; [done|done|by left]. }
  assert (2 ≤ base_as_int c) as Hb by (unfold base_as_int; repeat case_decide; lia).
  unfold piece_chars. rewrite Et, Es. destruct zeroes.
  - exists sp, sg, (repeat 48 (Z.to_nat pad) ++ text p). rewrite <- app_assoc. split_and!; try done.
    + apply Forall_app_2; [|done]. apply Forall_repeat. split; [lia|]. change (digit_val 48) with 0. lia.
    + intros [_ ?]%app_eq_nil. done.
    + by rewrite number_zeros.
  - exists (repeat 32 (Z.to_nat pad) ++ sp), sg, (text p). rewrite <- !app_assoc. split_and!; try done.
    apply Forall_app_2; [|done]. by apply Forall_repeat.
Qed.

(** The format: flags other than the minus sign, a width and a specifier. *)
Definition integer_format (fs w : list Z) (c : Z) : list Z := 37 :: fs ++ w ++ [c].

Lemma vfprintf_integer fs w c z s :
  plain_flags fs → plain_width w → specifier c → in_range c z → (35 ∈ fs → base_as_int c = 10) → room BUFSIZ s →
  ∃ chars, vfprintf (integer_format fs w c) [VInt z] s = Done (Z.of_nat (length chars), appended s chars) ∧
    shows (base_as_int c) z chars ∧ length chars ≤ BUFSIZ.
Proof.
  intros Hfs Hw Hc Hz Halt Hroom.
  assert (isdigit c = false ∧ c ≠ 42 ∧ is_flag c = false) as (Hcd & Hc42 & Hcf).
  { unfold isdigit, is_flag. rewrite !bool_decide_eq_false. unfold specifier in Hc. lia. }
  assert (45 ∉ fs) as H45 by (intros H; apply (proj1 (Forall_forall _ _) Hfs) in H; lia).
  destruct (parse_width_reads w c [VInt z] s Hw Hc42 Hcd) as (v & Ew & Hv).
  assert (is_flag (at_head (w ++ [c])) = false) as Hhead.
  { destruct w as [|x w]; [done|]. cbn. destruct Hw as (Hx & H0 & _). cbn in H0. apply Forall_cons in Hx as [Hx _].
    unfold is_flag. apply bool_decide_eq_false. lia. }
  destruct (convert_integer c z (bool_decide (35 ∈ fs)) (bool_decide (43 ∈ fs)) (bool_decide (32 ∈ fs) && negb (bool_decide (43 ∈ fs))) [] s Hc Hz)
    as (p & Ep & Hp); [by rewrite bool_decide_eq_true|].
  set (alt := bool_decide (35 ∈ fs)) in *.
  assert (bool_decide (c = 112) = false) as H112 by (apply bool_decide_eq_false; unfold specifier in Hc; lia).
  set (zeroes := negb (false || false) && (bool_decide (48 ∈ fs) && negb (false || false) && bool_decide (-1 = -1)) && numeric p).
  set (pad := padding_required p (if is_integral c then base_of c else 0) alt v).
  exists (piece_chars p pad zeroes false).
  assert (length (piece_chars p pad zeroes false) ≤ BUFSIZ) as Hlen.
  { rewrite length_piece_chars. pose proof (ip_length _ _ _ Hp). subst pad. unfold padding_required, piece_sign, piece_text.
    rewrite (ip_whole _ _ _ Hp), (ip_prefix _ _ _ Hp), app_nil_r, !(decide_True (P := -1 = -1)) by done. unfold BUFSIZ in *.
    destruct (alt && bool_decide _); repeat case_decide; cbn [length]; lia. }
  split; [|split; [by apply piece_chars_shows|done]].
  unfold vfprintf, integer_format. cbn [length vfprintf_loop].
  erewrite M_bind_done with (a := (Some [], [], Z.of_nat (length (piece_chars p pad zeroes false)))).
  2: { unfold conversion. rewrite flag_chars_app by done. rewrite (M_bind_done _ _ _ _ _ Ew). cbv beta iota.
    assert (parse_precision [c] [VInt z] s = Done (-1, [c], [VInt z], s)) as Eprec.
    { unfold parse_precision. unfold specifier in Hc. by repeat (destruct Hc as [->|Hc]); subst. }
    rewrite (M_bind_done _ _ _ _ _ Eprec). cbv beta iota.
    assert (parse_modifier [c] = (mod_none, [c])) as -> by (unfold specifier in Hc; by repeat (destruct Hc as [->|Hc]); subst).
    change (at_head [c]) with c. cbv iota. rewrite decide_False, decide_False by (unfold specifier in Hc; lia).
    rewrite H112, !orb_false_r, (bool_decide_eq_false_2 (45 ∈ fs)) by done.
    rewrite (M_bind_done _ _ _ _ _ Ep). cbv beta iota. fold alt.
    erewrite M_bind_done; [|rewrite put_piece_chars; apply (put_counted_room (piece_chars p pad zeroes false)); [|lia|]].
    - done.
    - destruct Hroom. split; [done|lia].
    - unfold BUFSIZ in Hlen. lia. }
  cbv beta iota. rewrite (ascii_bytes _ (sh_ascii _ _ _ (piece_chars_shows c z p pad zeroes Hp))).
  step. replace (length (fs ++ w ++ [c])) with (S (length (fs ++ w))) by (rewrite !length_app; cbn; lia). done.
Qed.

(** ** Printing to memory *)
Lemma write_mem_start l bs : (length bs ≤ length l)%nat → write_mem l 0 bs = Some (bs ++ drop (length bs) l).
Proof. intros. unfold write_mem. rewrite decide_True by lia. done. Qed.

Lemma aset_end (a : list Z) x y b : aset (a ++ x :: b) (Z.of_nat (length a)) y = Some (a ++ y :: b).
Proof.
  rewrite aset_nat by (rewrite length_app; cbn; lia). f_equal. rewrite insert_app_r_alt by lia. by rewrite Nat.sub_diag.
Qed.

(** The stream of a memory buffer that is opened for writing. *)
Lemma fmemopen_w str size s :
  size ≠ 0 → ∃ s1, fmemopen (Some str) [] size [119] s = Done (Some tt, s1) ∧ buffer_mode (stream s1) = _IOFBF ∧
    buffer (stream s1) = [] ∧ buffer_size (stream s1) = BUFSIZ ∧ memopen (stream s1) = true ∧
    flags (stream s1) = Z.lor O_WRONLY (Z.lor O_CREAT O_TRUNC) ∧ mem_buffer (stream s1) = str ∧
    mem_size (stream s1) = size ∧ mem_seek_pos (stream s1) = 0.
Proof.
  intros Hs. unfold fmemopen. rewrite decide_False by done. destruct s as [[] o e st]. step. eexists. split.
  - erewrite M_bind_done.
    2: { unfold fopen_existing_stream. step. cbn [length negb bool_decide]. rewrite decide_False by lia.
      rewrite bool_decide_eq_true_2 by auto. cbn [negb]. step. step. cbn [stream memopen]. step. reflexivity. }
    cbv beta. step. step. rewrite decide_False by done. step. reflexivity.
  - by split_and!.
Qed.

(** A text that fits into the buffer of the stream and leaves two bytes of the
    caller's memory stands there with a zero behind it. *)
Lemma vsnprintf_text (P : list Z → Prop) str size format ap s :
  (∀ s, room BUFSIZ s → ∃ chars, vfprintf format ap s = Done (Z.of_nat (length chars), appended s chars) ∧
    P chars ∧ chars ≠ [] ∧ length chars ≤ BUFSIZ) →
  BUFSIZ + 2 ≤ size → size ≤ length str → size < 2 ^ 31 →
  ∃ chars s', vsnprintf str size format ap s = Done ((Z.of_nat (length chars), chars ++ 0 :: drop (S (length chars)) str), s') ∧
    P chars ∧ length chars ≤ BUFSIZ.
Proof.
  intros Hrun Hsize Hstr H31. assert (BUFSIZ = 512) as HB by done. unfold vsnprintf.
  assert (u32 (size - 1) = size - 1) as -> by (apply u32_small; unfold is_u32; lia).
  destruct (fmemopen_w str (size - 1) s) as (s1 & E1 & Hm & Hb & Hbs & Hmo & Hfl & Hmb & Hms & Hmp); [lia|].
  rewrite (M_bind_done _ _ _ _ _ E1). cbv beta iota.
  destruct (Hrun s1) as (chars & Ev & HP & Hne & Hlen); [split; [done|rewrite Hb, Hbs; cbn [length]; lia]|].
  exists chars. rewrite (M_bind_done _ _ _ _ _ Ev).
  destruct s1 as [[] o e st]. cbn in Hm, Hb, Hbs, Hmo, Hfl, Hmb, Hms, Hmp. subst. destruct chars as [|c chars]; [done|]. cbn [appended stream buffer].
  set (bs := c :: chars) in *. rewrite app_nil_l.
  assert (∃ x r, drop (length bs) str = x :: r ∧ r = drop (S (length bs)) str) as (x & r & Ex & Er).
  { destruct (drop (length bs) str) as [|x r] eqn:E.
    - apply (f_equal length) in E. rewrite length_drop in E. cbn [length] in E. lia.
    - exists x, r. split; [done|]. rewrite <- Nat.add_1_r, <- drop_drop, E. done. }
  assert (length (bs ++ drop (length bs) str) = length str) as Hlw by (rewrite length_app, length_drop; lia).
  erewrite M_bind_done.
  2: { unfold fclose. erewrite M_bind_done.
    2: { unfold fflush. step. rewrite 2!decide_False by discriminate. rewrite decide_True by done.
      erewrite M_bind_done.
      2: { unfold stream_write. step. unfold _mem_write. step. rewrite decide_False by done. rewrite decide_False by (by intros []).
        step. step. rewrite decide_False by lia. rewrite write_mem_start by lia. step. step. reflexivity. }
      cbv beta iota. step. erewrite M_bind_done.
      2: { step. cbn [andb]. rewrite Z.add_0_l. rewrite bool_decide_eq_true_2 by lia. rewrite Ex, aset_end. step. reflexivity. }
      cbv beta. reflexivity. }
    step. reflexivity. }
  cbv beta. step. rewrite 2!decide_False by lia. rewrite i32_small, decide_False by lia.
  eexists. split; [rewrite <- Er; reflexivity|done].
Qed.

(** What [scanf]'s counterpart in this library, [strtol] or [strtoul], makes of it. *)
Definition reader (c : Z) : list Z → Z → strto_result := if is_signed c then strtol else strtoul.

Lemma shows_read c z chars :
  in_range c z → specifier c → shows (base_as_int c) z chars → reader c chars (base_as_int c) = mk_result z None (Some (length chars)).
Proof.
  intros Hz Hc [(sp & sg & ds & -> & Hsp & Hsg & Hds & Hne & Hn) _].
  assert (signed_value (bool_decide (z < 0)) (number (base_as_int c) 0 ds) = z) as Ev.
  { rewrite Hn. case_bool_decide; cbn [signed_value]; lia. }
  assert (2 ≤ base_as_int c ≤ 36) as Hb by (unfold base_as_int; repeat case_decide; lia).
  unfold reader, in_range in *. destruct (is_signed c).
  - unfold strtol. rewrite (strto_reads_numeral 32 false LONG_MIN LONG_MAX _ sp _ sg ds ltac:(lia) Hb Hsp Hsg Hds Hne); rewrite ?Ev, ?andb_false_r; try done.
    apply fits_spec; [lia|]. unfold LONG_MIN, LONG_MAX in Hz. lia.
  - unfold strtoul. rewrite (strto_reads_numeral 32 true 0 (2 ^ 32 - 1) _ sp _ sg ds ltac:(lia) Hb Hsp Hsg Hds Hne); rewrite ?Ev; try done.
    + by rewrite bool_decide_eq_false_2 by lia.
    + apply fits_spec; [lia|]. lia.
Qed.

(** C38: A number that is printed is read back. With any of the flags +, space and 0, and #
    for decimal conversions, no width or one of 1 to 512 ([BUFSIZ]), and one of the
    conversions d, i, u, o, x and X, [vsnprintf] of an integer in the range of the
    conversion, into memory of at least 514 bytes, leaves a string, and [strtol], or
    [strtoul] for the unsigned conversions, in the base of the conversion gives the number
    again, up to the end of the string. The prefix that # asks for in the other bases is
    not read back. *)
Theorem printf_read_back str size fs w c z s :
  plain_flags fs → plain_width w → specifier c → in_range c z → (35 ∈ fs → base_as_int c = 10) →
  BUFSIZ + 2 ≤ size → size ≤ length str → size < 2 ^ 31 →
  ∃ n str' s', vsnprintf str size (integer_format fs w c) [VInt z] s = Done ((Z.of_nat n, str'), s') ∧
    str' !! n = Some 0 ∧ length str' = length str ∧
    reader c (take n str') (base_as_int c) = mk_result z None (Some n).
Proof.
  intros Hfs Hw Hc Hz Halt Hsize Hstr H31. assert (BUFSIZ = 512) as HB by done.
  destruct (vsnprintf_text (shows (base_as_int c) z) str size (integer_format fs w c) [VInt z] s) as (chars & s' & E & Hsh & Hlen); try done.
  { intros s1 Hr. destruct (vfprintf_integer fs w c z s1) as (chars & E & Hsh & Hlen); try done. exists chars. split_and!; try done.
    destruct (sh_parts _ _ _ Hsh) as (sp & sg & ds & -> & _ & _ & _ & Hne & _). by intros [_ [_ ?]%app_eq_nil]%app_eq_nil. }
  exists (length chars), (chars ++ 0 :: drop (S (length chars)) str), s'. split; [exact E|]. split; [|split].
  - by rewrite lookup_app_r, Nat.sub_diag by lia.
  - rewrite length_app. cbn [length]. rewrite length_drop. lia.
  - rewrite take_app_length. by apply shows_read.
Qed.
End writing.

(** ** Streams over a file *)
Section files.
Context {W : Type} {SY : Sys W}.
Implicit Types (s : @io W) (l : list Z).

(** A run of calls of [write] on a descriptor, none of which failed: the bytes each was
    given. How many of them it took is not looked at, here as in the code. *)
Inductive writes (d : Z) : W → list (list Z) → W → Prop :=
  | writes_nil w : writes d w [] w
  | writes_cons w bs n w1 calls w2 : sys_write d bs w = (inr n, w1) → writes d w1 calls w2 → writes d w (bs :: calls) w2.

Lemma writes_app d w calls1 w1 calls2 w2 : writes d w calls1 w1 → writes d w1 calls2 w2 → writes d w (calls1 ++ calls2) w2.
Proof. induction 1; [done|]. intros. econstructor; eauto. Qed.
Lemma writes_one d bs w n w1 : sys_write d bs w = (inr n, w1) → writes d w [bs] w1.
Proof. intros E. econstructor; [exact E|constructor]. Qed.

(** A stream of a file that is written to. *)
Record output_stream s : Prop := {
  os_file : memopen (stream s) = false;
  os_mode : buffer_mode (stream s) = _IOFBF ∨ buffer_mode (stream s) = _IOLBF ∨ buffer_mode (stream s) = _IONBF;
  os_unbuffered : buffer_mode (stream s) = _IONBF → buffer (stream s) = [];
  os_size : 0 < buffer_size (stream s);
  os_used : length (buffer (stream s)) ≤ buffer_size (stream s);
  os_dir : buffer_direction (stream s) = BUFFER_DIR_WRITE ∨ buffer_direction (stream s) = BUFFER_DIR_UNSET ∧ buffer (stream s) = [];
}.

(** A step of a stream that succeeds in putting [l]: it stays a stream, on the same
    descriptor and with the same buffering, and what was waiting and [l] are, in order,
    what calls of [write] were given and what waits now. *)
Record puts_bytes s l s' : Prop := {
  pb_stream : output_stream s';
  pb_fd : fd (stream s') = fd (stream s);
  pb_mode : buffer_mode (stream s') = buffer_mode (stream s);
  pb_writes : ∃ calls, writes (fd (stream s)) (os s) calls (os s') ∧ concat calls ++ buffer (stream s') = buffer (stream s) ++ l;
}.

(** A step that fails: the error mark is set, and after calls of [write] that succeeded
    one failed; together they were given what was waiting and [l] up to some point. *)
Record write_failed s l s' : Prop := {
  wf_error : error (stream s') = true;
  wf_write : ∃ calls lost rest w, writes (fd (stream s)) (os s) calls w ∧
    sys_write (fd (stream s)) lost w = (inl (errno s'), os s') ∧ concat calls ++ lost ++ rest = buffer (stream s) ++ l;
}.

(** [m] puts [l] and returns [z], or fails with EOF. *)
Definition tries (m : M io Z) s (z : Z) l : Prop :=
  (z ≠ EOF ∧ ∃ s', m s = Done (z, s') ∧ puts_bytes s l s') ∨ (∃ s', m s = Done (EOF, s') ∧ write_failed s l s').

Lemma puts_bytes_trans s l s1 l' s2 : puts_bytes s l s1 → puts_bytes s1 l' s2 → puts_bytes s (l ++ l') s2.
Proof.
  intros [_ F1 M1 (c1 & W1 & B1)] [O2 F2 M2 (c2 & W2 & B2)]. split; [done|congruence|congruence|].
  exists (c1 ++ c2). split; [rewrite F1 in W2; by eapply writes_app|]. by rewrite concat_app, <- app_assoc, B2, app_assoc, B1, app_assoc.
Qed.
Lemma puts_bytes_refl s : output_stream s → puts_bytes s [] s.
Proof. intros. split; [done..|]. exists []. split; [constructor|]. by rewrite app_nil_r. Qed.

Lemma write_failed_more s l l' s' : write_failed s l s' → write_failed s (l ++ l') s'.
Proof.
  intros [He (c & lost & rest & w & Hwr & E & B)]. split; [done|]. exists c, lost, (rest ++ l'), w. split_and!; [done|done|].
  by rewrite (app_assoc (buffer _)), <- B, <- !app_assoc.
Qed.
Lemma write_failed_after s l s1 l' s' : puts_bytes s l s1 → write_failed s1 l' s' → write_failed s (l ++ l') s'.
Proof.
  intros [_ F _ (c1 & W1 & B1)] [He (c & lost & rest & w & Hwr & E & B)]. rewrite F in Hwr, E. split; [done|].
  exists (c1 ++ c), lost, rest, w. split_and!; [by eapply writes_app|done|].
  by rewrite concat_app, <- app_assoc, B, app_assoc, B1, app_assoc.
Qed.
Lemma write_failed_mark s l s' : write_failed s l s' →
  write_failed s l {| s' with stream := (let f := stream s' in {| f with error := true |}) |}.
Proof. intros [He Hw]. by split. Qed.

(** One after the other, the second unless the first fails. *)
Lemma tries_then (m : M io Z) (k : Z → M io Z) s z l z' l' :
  tries m s z l → (∀ s1, puts_bytes s l s1 → tries (k z) s1 z' l') →
  (∀ s', write_failed s l s' → ∃ s2, k EOF s' = Done (EOF, s2) ∧ write_failed s l s2) →
  tries (m ≫= k) s z' (l ++ l').
Proof.
  intros [(Hz & s1 & E & Hp)|(s1 & E & Hf)] Hk Hend; unfold tries; setoid_rewrite (M_bind_done _ _ _ _ _ E).
  - destruct (Hk s1 Hp) as [(Hz' & s2 & E2 & Hp2)|(s2 & E2 & Hf2)].
    + left. split; [done|]. exists s2. split; [done|]. by eapply puts_bytes_trans.
    + right. exists s2. split; [done|]. by eapply write_failed_after.
  - right. destruct (Hend s1 Hf) as (s2 & E2 & Hf2). exists s2. split; [done|]. by apply write_failed_more.
Qed.
Lemma tries_from s l s1 m z l' : puts_bytes s l s1 → (tries m s1 z l') →
  (∀ m' : M io Z, m' s = m s1 → tries m' s z (l ++ l')).
Proof.
  intros Hp Hm m' E. unfold tries. setoid_rewrite E. destruct Hm as [(Hz & s2 & E2 & Hp2)|(s2 & E2 & Hf2)].
  - left. split; [done|]. exists s2. split; [done|]. by eapply puts_bytes_trans.
  - right. exists s2. split; [done|]. by eapply write_failed_after.
Qed.
Lemma tries_ret s z : z ≠ EOF → output_stream s → tries (mret z) s z [].
Proof. intros Hz Ho. left. split; [done|]. exists s. split; [done|]. by apply puts_bytes_refl. Qed.

(** *** The operations *)
Lemma stream_write_file bs s : memopen (stream s) = false →
  stream_write bs s = match sys_write (fd (stream s)) bs (os s) with
    | (inl e, w) => Done (None, mk_io (stream s) w e (stored s))
    | (inr n, w) => Done (Some n, mk_io (stream s) w (errno s) (stored s))
    end.
Proof.
  intros Hf. unfold stream_write. step. rewrite Hf. cbv iota. unfold _file_write. step. unfold system.
  by destruct (sys_write _ _ _) as [[]].
Qed.

Lemma fflush_cases s : output_stream s →
  (∃ s', fflush s = Done (0, s') ∧ puts_bytes s [] s' ∧ buffer (stream s') = []) ∨ (∃ s', fflush s = Done (EOF, s') ∧ write_failed s [] s').
Proof.
  intros Ho. pose proof Ho as [Hf Hm Hn Hs Hu Hd]. unfold fflush. step. destruct Hd as [Hd|[Hd Hb]]; rewrite Hd.
  2: { rewrite decide_True by done. left. exists s. split; [done|]. split; [by apply puts_bytes_refl|done]. }
  rewrite 2!decide_False by discriminate. rewrite decide_True by done. pose proof (stream_write_file (buffer (stream s)) s Hf) as Ew.
  destruct (sys_write (fd (stream s)) (buffer (stream s)) (os s)) as [[e|k] w] eqn:Es; rewrite (M_bind_done _ _ _ _ _ Ew); cbv iota beta.
  - right. step. eexists. split; [reflexivity|]. split; [done|]. exists [], (buffer (stream s)), [], (os s).
    split; [constructor|]. split; [exact Es|]. done.
  - left. step. erewrite M_bind_done; [|step; rewrite Hf; cbn [andb]; reflexivity]. eexists. split; [reflexivity|]. split; [|done]. split; [|done|done|].
    + split; cbn; [done|done|done|done|lia|by left].
    + exists [buffer (stream s)]. split; [by eapply writes_one|]. cbn. by rewrite !app_nil_r.
Qed.
Lemma fflush_tries s : output_stream s → tries fflush s 0 [].
Proof. intros [(s' & E & H & _)|H]%fflush_cases; [left; split; [done|by exists s']|by right]. Qed.

(** Setting the direction changes nothing that counts. *)
Definition to_write s : io := {| s with stream := (let f := stream s in {| f with buffer_direction := BUFFER_DIR_WRITE |}) |}.
Lemma puts_direction s : output_stream s → puts_bytes s [] (to_write s).
Proof.
  intros [Hf Hm Hn Hs Hu Hd]. split; [|done|done|exists []; split; [constructor|by rewrite app_nil_r]]. split; cbn; try done. by left.
Qed.

Lemma puts_buffered c s :
  output_stream s → buffer_mode (stream s) ≠ _IONBF → length (buffer (stream s)) < buffer_size (stream s) →
  puts_bytes s [c] {| s with stream := (let f := stream s in {| f with buffer_direction := BUFFER_DIR_WRITE; buffer := buffer f ++ [c] |}) |}.
Proof.
  intros [Hf Hm Hn Hs Hu Hd] Hmode Hl. split; [|done|done|exists []; split; [constructor|done]].
  split; cbn; try done; [rewrite length_app; cbn [length]; lia|by left].
Qed.

(** A line that is complete is sent. *)
Definition end_line (c : Z) : M io Z := if decide (u8 c = 10) then status ← fflush; if decide (status = EOF) then mret EOF else mret c else mret c.
Lemma end_line_tries c s : c ≠ EOF → output_stream s → tries (end_line c) s c [].
Proof.
  intros Hc Ho. unfold end_line. case_decide; [|by apply tries_ret]. rewrite <- (app_nil_r []). eapply tries_then; [by apply fflush_tries| |].
  - intros s1 Hp. rewrite decide_False by discriminate. apply tries_ret; [done|apply Hp].
  - intros s' Hf. rewrite decide_True by done. by exists s'.
Qed.

Lemma fputc_at_tries d c s : output_stream s → c ≠ EOF → length (buffer (stream s)) < buffer_size (stream s) → tries (fputc_at (S d) c) s c [u8 c].
Proof.
  intros Ho Hc Hl. destruct (os_mode _ Ho) as [Hm|[Hm|Hm]].
  - left. split; [done|]. eexists. split; [|apply (puts_buffered (u8 c) s Ho); [by rewrite Hm|done]]. cbn [fputc_at]. step. step.
    rewrite 2!decide_False by (rewrite Hm; discriminate). rewrite 2!decide_True by done. step. done.
  - pose proof (puts_buffered (u8 c) s Ho ltac:(by rewrite Hm) Hl) as Hp. rewrite <- (app_nil_r [u8 c]).
    apply (tries_from s [u8 c] _ _ c [] Hp (end_line_tries c _ Hc (pb_stream _ _ _ Hp))). cbn [fputc_at]. step. step.
    rewrite decide_False by (rewrite Hm; discriminate). rewrite (decide_True _ _ Hm), (decide_True _ _ Hl). step. done.
  - pose proof (stream_write_file [u8 c] (to_write s) (os_file _ Ho)) as Ew. unfold tries. cbn [fputc_at]. setoid_rewrite (M_bind_done _ _ s tt (to_write s) eq_refl).
    setoid_rewrite (M_bind_done _ _ (to_write s) (stream (to_write s)) (to_write s) eq_refl). rewrite decide_True by done.
    change (fd (stream (to_write s))) with (fd (stream s)) in Ew. change (os (to_write s)) with (os s) in Ew.
    destruct (sys_write (fd (stream s)) [u8 c] (os s)) as [[e|k] w] eqn:Es; setoid_rewrite (M_bind_done _ _ _ _ _ Ew).
    + right. eexists. split; [reflexivity|]. split; [done|]. exists [], [u8 c], [], (os s). split; [constructor|]. split; [exact Es|].
      by rewrite (os_unbuffered _ Ho Hm).
    + left. split; [done|]. eexists. split; [reflexivity|]. pose proof (puts_direction s Ho) as [H1 _ _ _]. destruct H1. split; [by split|done|done|].
      exists [[u8 c]]. split; [by eapply writes_one|]. cbn. by rewrite (os_unbuffered _ Ho Hm).
Qed.

Lemma fputc_tries c s : output_stream s → c ≠ EOF → tries (fputc c) s c [u8 c].
Proof.
  intros Ho Hc. unfold fputc. destruct (decide (length (buffer (stream s)) < buffer_size (stream s))) as [Hl|Hl]; [by apply fputc_at_tries|].
  pose proof (puts_direction s Ho) as Hdir.
  assert (∀ s1, fflush (to_write s) = Done (0, s1) → puts_bytes (to_write s) [] s1 → buffer (stream s1) = [] → tries (fputc_at 1 c) s1 c [u8 c]) as Hsecond.
  { intros s1 _ Hp1 Hb. apply fputc_at_tries; [apply Hp1|done|]. rewrite Hb. apply (os_size _ (pb_stream _ _ _ Hp1)). }
  destruct (os_mode _ Ho) as [Hm|[Hm|Hm]].
  - apply (tries_from s [] (to_write s) (s0 ← fflush; if decide (s0 = EOF) then mret EOF else fputc_at 1 c) c [u8 c] Hdir).
    + destruct (fflush_cases (to_write s) (pb_stream _ _ _ Hdir)) as [(s1 & E1 & Hp1 & Hb1)|(s1 & E1 & Hf1)].
      * apply (tries_from _ [] s1 (fputc_at 1 c) c [u8 c] Hp1 (Hsecond s1 E1 Hp1 Hb1)). rewrite (M_bind_done _ _ _ _ _ E1). by rewrite decide_False.
      * right. exists s1. rewrite (M_bind_done _ _ _ _ _ E1), decide_True by done. split; [done|]. by apply (write_failed_more _ [] [u8 c]).
    + cbn [fputc_at]. step. step. fold (to_write s). rewrite 2!decide_False by (rewrite Hm; discriminate). by rewrite (decide_True _ _ Hm), (decide_False _ _ Hl).
  - apply (tries_from s [] (to_write s) (stop ← (status ← fflush;
        if decide (status = EOF) then update (λ f, {| f with error := true |});; mret true
        else status ← fputc_at 1 c; mret (bool_decide (status = EOF)));
      if (stop : bool) then mret EOF else end_line c) c [u8 c] Hdir).
    + destruct (fflush_cases (to_write s) (pb_stream _ _ _ Hdir)) as [(s1 & E1 & Hp1 & Hb1)|(s1 & E1 & Hf1)].
      * apply (tries_from _ [] s1 (status ← fputc_at 1 c; if decide (status = EOF) then mret EOF else end_line c) c [u8 c] Hp1).
        { rewrite <- (app_nil_r [u8 c]). eapply tries_then; [by apply Hsecond|..].
          - intros s2 Hp2. rewrite decide_False by done. apply end_line_tries; [done|apply Hp2].
          - intros s2 Hf2. by exists s2. }
        unfold mbind, M_mbind. rewrite E1. cbn [outcome_bind]. rewrite decide_False by done.
        destruct (fputc_at 1 c s1) as [[z s2]| | | |]; [|done..]. cbn. unfold mret, M_mret. cbn.
        by destruct (decide (z = EOF)) as [->|?]; [rewrite bool_decide_eq_true_2|rewrite bool_decide_eq_false_2].
      * right. eexists. split; [|apply (write_failed_more _ [] [u8 c]), write_failed_mark, Hf1].
        unfold mbind, M_mbind. rewrite E1. cbn [outcome_bind]. by rewrite decide_True.
    + cbn [fputc_at]. step. step. fold (to_write s). rewrite decide_False by (rewrite Hm; discriminate).
      by rewrite (decide_True _ _ Hm), (decide_False _ _ Hl).
  - exfalso. pose proof (os_unbuffered _ Ho Hm) as E. pose proof (os_size _ Ho). rewrite E in Hl. cbn [length] in Hl. lia.
Qed.

(** What a program writes: characters, strings and flushes, until one fails. *)
Inductive output : Type := Put (c : Z) | Puts (l : list Z) | Flush.

Definition perform (o : output) : M io Z := match o with Put c => fputc c | Puts l => fputs l | Flush => fflush end.
Definition bytes_of (o : output) : list Z := match o with Put c => [u8 c] | Puts l => u8 <$> l | Flush => [] end.
Definition answer (o : output) : Z := match o with Put c => c | _ => 0 end.
Definition allowed (o : output) : Prop := match o with Put c => c ≠ EOF | Puts l => EOF ∉ l | Flush => True end.
Fixpoint performs (os : list output) : M io Z :=
  match os with
  | [] => mret 0
  | o :: os => z ← perform o; if decide (z = EOF) then mret EOF else performs os
  end.

Lemma fputs_tries l s : output_stream s → EOF ∉ l → tries (fputs l) s 0 (u8 <$> l).
Proof.
  revert s. induction l as [|c l IH]; intros s Ho Ha; cbn [fputs fmap list_fmap]; [by apply tries_ret|].
  apply not_elem_of_cons in Ha as [Hc Ha]. change (u8 c :: list_fmap _ _ u8 l) with ([u8 c] ++ (u8 <$> l)).
  apply (tries_then (fputc c) (λ status, if decide (status = EOF) then mret EOF else fputs l) s c [u8 c]); [apply fputc_tries; [done|congruence]| |].
  - intros s1 Hp. rewrite decide_False by congruence. apply IH; [apply Hp|done].
  - intros s' Hf. by exists s'.
Qed.
Lemma perform_tries o s : output_stream s → allowed o → tries (perform o) s (answer o) (bytes_of o).
Proof. destruct o; cbn; intros Ho Ha; [by apply fputc_tries|by apply fputs_tries|by apply fflush_tries]. Qed.
Lemma performs_tries os s : output_stream s → Forall allowed os → tries (performs os) s 0 (concat (bytes_of <$> os)).
Proof.
  revert s. induction os as [|o os IH]; intros s Ho Ha; cbn [performs fmap list_fmap concat]; [by apply tries_ret|].
  apply Forall_cons in Ha as [Hao Ha]. eapply tries_then; [by apply perform_tries| |].
  - intros s1 Hp. rewrite decide_False; [apply IH; [apply Hp|done]|]. destruct o; cbn in *; [done|discriminate..].
  - intros s' Hf. by exists s'.
Qed.
Lemma performs_flush os s s' : output_stream s → Forall allowed os → performs (os ++ [Flush]) s = Done (0, s') → buffer (stream s') = [].
Proof.
  revert s. induction os as [|o os IH]; intros s Ho Ha E; cbn [performs app] in E.
  - apply M_bind_inv in E as (z & s1 & E1 & E2). cbn in E1. destruct (fflush_cases s Ho) as [(s2 & E3 & _ & Hb)|(s2 & E3 & _)]; rewrite E3 in E1; injection E1 as <- <-.
    + rewrite decide_False in E2 by discriminate. by injection E2 as <-.
    + by rewrite decide_True in E2.
  - apply Forall_cons in Ha as [Hao Ha]. apply M_bind_inv in E as (z & s1 & E1 & E2).
    destruct (decide (z = EOF)); [done|]. destruct (perform_tries o s Ho Hao) as [(_ & s2 & E3 & Hp)|(s2 & E3 & _)]; rewrite E3 in E1; injection E1 as <- <-; [|done].
    by apply (IH s2 (pb_stream _ _ _ Hp) Ha).
Qed.

(** C39: Output is handed over in order. Whatever characters, strings and flushes a program
    performs on a stream of a file, in each of the three kinds of buffering, until one
    fails, on any system: either all succeed, and the bytes given to the calls of [write],
    in order, and then what waits in the buffer, are what waited before and what was
    written; the buffer is not over its size, and empty if a flush was last. Or one answers
    EOF, the error mark is set, and the calls of [write], the last of which failed, were
    given a beginning of those bytes. What a call of [write] does not take of what it is
    given is lost ([short_write_loses]). The byte 255 as -1, which [fputc] and [fputs] take
    for the end of the file, is left out. *)
Theorem output_in_order os s :
  output_stream s → Forall allowed os →
  let all := buffer (stream s) ++ concat (bytes_of <$> os) in
  (∃ s1 calls, performs os s = Done (0, s1) ∧ writes (fd (stream s)) (Stdio.os s) calls (Stdio.os s1) ∧
    concat calls ++ buffer (stream s1) = all ∧ length (buffer (stream s1)) ≤ buffer_size (stream s1) ∧
    (last os = Some Flush → buffer (stream s1) = [])) ∨
  (∃ s1 calls given rest w, performs os s = Done (EOF, s1) ∧ error (stream s1) = true ∧
    writes (fd (stream s)) (Stdio.os s) calls w ∧ sys_write (fd (stream s)) given w = (inl (errno s1), Stdio.os s1) ∧
    concat calls ++ given ++ rest = all).
Proof.
  intros Ho Ha all. destruct (performs_tries os s Ho Ha) as [(_ & s1 & E & [H1 _ _ (calls & Hw & Hb)])|(s1 & E & [He (calls & given & rest & w & Hw & Es & Hb)])].
  - left. exists s1, calls. split; [exact E|]. split; [exact Hw|]. split; [exact Hb|]. split; [exact (os_used _ H1)|]. intros Hl. apply last_Some in Hl as [os' ->].
    apply Forall_app in Ha as [Ha _]. exact (performs_flush os' s s1 Ho Ha E).
  - right. by exists s1, calls, given, rest, w.
Qed.
End files.

(** ** Reading

    What a descriptor still has to give, in pieces as the system likes. *)
Class SysLaws (W : Type) {SY : Sys W} : Type := {
  remaining : Z → W → list Z;
  sys_read_some d n w : 0 < n → ∃ k w', sys_read d n w = (inr (take k (remaining d w)), w') ∧
    remaining d w' = drop k (remaining d w) ∧ k ≤ n ∧ (remaining d w ≠ [] → (0 < k)%nat);
}.

Section reading.
Context {W : Type} {SY : Sys W} {SL : SysLaws W}.
Implicit Types (s : @io W) (l : list Z).

Record input_stream s : Prop := {
  is_file : memopen (stream s) = false;
  is_size : 0 < buffer_size (stream s);
}.

(** The bytes that a program has yet to read. *)
Definition unread s : list Z := (if decide (ungetc_ (stream s) = EOF) then [] else [u8 (ungetc_ (stream s))]) ++ buffer (stream s) ++ remaining (fd (stream s)) (os s).

Lemma stream_read_some n s : memopen (stream s) = false → 0 < n →
  ∃ k w', stream_read n s = Done (Some (take k (remaining (fd (stream s)) (os s))), {| s with os := w' |}) ∧
    remaining (fd (stream s)) w' = drop k (remaining (fd (stream s)) (os s)) ∧ (remaining (fd (stream s)) (os s) ≠ [] → (0 < k)%nat).
Proof.
  intros Hf Hn. destruct (sys_read_some (fd (stream s)) n (os s) Hn) as (k & w' & E & Hr & _ & Hk). exists k, w'. split; [|done].
  unfold stream_read. step. rewrite Hf. cbv iota. unfold _file_read. step. unfold system. by rewrite E.
Qed.

(** Every call gives the next byte, as a signed character, and at the end of the
    file EOF, with the mark that [feof] tests. *)
Lemma fgetc_next s : input_stream s → ungetc_ (stream s) = EOF →
  ∃ s', fgetc s = Done (match unread s with [] => EOF | c :: _ => i8 c end, s') ∧ input_stream s' ∧ ungetc_ (stream s') = EOF ∧
    unread s' = tail (unread s) ∧ eof (stream s') = bool_decide (unread s = []) ∧ error (stream s') = error (stream s).
Proof.
  intros [Hf Hs] Hu. destruct s as [[] o e st]. cbn in Hf, Hs, Hu. subst. unfold unread. cbn [stream ungetc_ buffer fd os].
  rewrite (decide_True (P := EOF = EOF)) by done. rewrite app_nil_l. unfold fgetc. step. step. rewrite decide_False by (by intros []).
  destruct buffer0 as [|c l].
  - rewrite decide_True by done. rewrite app_nil_l.
    set (s1 := mk_io _ _ _ _). assert (∃ k w', stream_read (if decide (buffer_mode0 = _IONBF) then 1 else buffer_size0) s1 =
      Done (Some (take k (remaining fd0 o)), {| s1 with os := w' |}) ∧
      remaining fd0 w' = drop k (remaining fd0 o) ∧ (remaining fd0 o ≠ [] → (0 < k)%nat)) as (k & w' & Er & Hr & Hk).
    { apply (stream_read_some _ s1); [done|by case_decide]. }
    destruct (remaining fd0 o) as [|x r] eqn:Erem.
    + rewrite take_nil in Er. erewrite M_bind_done.
      2: { rewrite (M_bind_done _ _ _ _ _ Er). cbv beta iota. step. rewrite decide_True by done. step. reflexivity. }
      cbv beta iota. eexists. split; [reflexivity|]. split; [by split|]. split; [done|]. cbn. rewrite Hr. by destruct k.
    + destruct k as [|k]; [by specialize (Hk ltac:(done)); lia|]. cbn [take drop] in Er, Hr. erewrite M_bind_done.
      2: { rewrite (M_bind_done _ _ _ _ _ Er). cbv beta iota. step. rewrite decide_False by done. reflexivity. }
      cbv beta iota. step. step. step. eexists. split; [reflexivity|]. split; [by split|]. split; [done|]. cbn. rewrite Hr. by rewrite take_drop.
  - rewrite decide_False by done. step. step. step. step. eexists. split; [reflexivity|]. split; [by split|]. done.
Qed.

Fixpoint fgetcs (n : nat) : M io (list Z) :=
  match n with O => mret [] | S n => c ← fgetc; l ← fgetcs n; mret (c :: l) end.

(** Input arrives in order: however the system cuts it into pieces, and in every
    kind of buffering, as many calls of [fgetc] as the file has bytes give these
    bytes, as signed characters, and the next call gives EOF and marks the end. *)
Theorem input_in_order s : input_stream s → ungetc_ (stream s) = EOF →
  ∃ s1, fgetcs (length (unread s)) s = Done (i8 <$> unread s, s1) ∧ unread s1 = [] ∧
    ∃ s2, fgetc s1 = Done (EOF, s2) ∧ eof (stream s2) = true ∧ unread s2 = [].
Proof.
  remember (unread s) as l eqn:El. revert s El. induction l as [|c l IH]; intros s El Hs Hu; cbn [length fgetcs fmap list_fmap].
  - exists s. split; [done|]. split; [done|]. destruct (fgetc_next s Hs Hu) as (s2 & E & _ & _ & Hl & He & _).
    exists s2. rewrite <- El in E, Hl, He. by split_and!.
  - destruct (fgetc_next s Hs Hu) as (s1 & E & Hs1 & Hu1 & Hl & _). rewrite <- El in E, Hl.
    destruct (IH s1 (eq_sym Hl) Hs1 Hu1) as (s2 & E2 & H2). exists s2. rewrite (M_bind_done _ _ _ _ _ E), (M_bind_done _ _ _ _ _ E2). done.
Qed.
End reading.

(** ** What goes wrong

    A format that ends in a percent sign is read beyond its end; # before an octal
    conversion prints an o; a string that is cut is padded for the length that was
    asked for; a text that does not fit with a byte to spare is not stored at all;
    with size 0 or 1 there is no output to count. *)
Definition no_stream : FILE := mk_FILE 0 EOF false false _IOFBF [] BUFSIZ true 0 [] 0 0 false BUFFER_DIR_UNSET false.
Definition no_sys : Sys unit := {|
  sys_read _ _ w := (inr [], w); sys_write _ l w := (inr (Z.of_nat (length l)), w); sys_open _ _ w := (inl ENOENT, w);
  sys_close _ w := (0, w); sys_is_dir _ w := (inr false, w); sys_isatty _ _ := false |}.
Definition run_snprintf (str : list Z) (size : Z) (format : list Z) (ap : list va) : outcome (Z * list Z) :=
  outcome_bind (λ '(r, _), Done r) (vsnprintf (SY := no_sys) str size format ap (mk_io no_stream tt 0 [])).

Theorem printf_defects :
  run_snprintf (repeat 7 8) 8 [53; 37] [] = Faulted ∧
  run_snprintf (repeat 7 8) 8 [37; 35; 111] [VInt 8] = Done (3, [111; 49; 48; 0; 7; 7; 7; 7]) ∧
  run_snprintf (repeat 7 8) 8 [37; 53; 46; 51; 115] [VStr [97]] = Done (3, [32; 32; 97; 0; 7; 7; 7; 7]) ∧
  run_snprintf (repeat 7 4) 4 [37; 100] [VInt 123] = Done (3, [7; 7; 7; 0]) ∧
  run_snprintf (repeat 7 4) 1 [37; 100] [VInt 123] = Done (-1, repeat 7 4) ∧
  run_snprintf (repeat 7 8) 8 [37; 46; 51; 50; 100] [VInt 1] = Faulted.
Proof. by vm_compute. Qed.

(** ** Both at work *)
Lemma printf_read_back_witness :
  ∃ n str' s', vsnprintf (SY := no_sys) (repeat 7 600) 600 (integer_format [48; 43] [49; 50] 100) [VInt (-4095)] (mk_io no_stream tt 0 []) =
      Done ((Z.of_nat n, str'), s') ∧
    str' !! n = Some 0 ∧ length str' = length (repeat 7 600) ∧
    reader 100 (take n str') (base_as_int 100) = mk_result (-4095) None (Some n).
Proof.
  apply (printf_read_back (SY := no_sys) (repeat 7 600) 600 [48; 43] [49; 50] 100 (-4095)).
  - repeat constructor; lia.
  - split; [repeat constructor; lia|]. split; [done|by vm_compute].
  - by left.
  - by vm_compute.
  - done.
  - by vm_compute.
  - by vm_compute.
  - lia.
Defined.

(** A system with one file: what is left of it to read, and what was written. *)
#[local] Instance one_file : Sys (list Z * list Z) := {
  sys_read _ n w := (inr (take (Z.to_nat n) w.1), (drop (Z.to_nat n) w.1, w.2));
  sys_write _ l w := (inr (Z.of_nat (length l)), (w.1, w.2 ++ l));
  sys_open _ _ w := (inr 3, w);
  sys_close _ w := (0, w);
  sys_is_dir _ w := (inr false, w);
  sys_isatty _ _ := true;
}.
#[refine, local] Instance one_file_laws : SysLaws (list Z * list Z) := { remaining _ w := w.1 }.
Proof.
  intros d n w Hn. exists (Z.to_nat n), (drop (Z.to_nat n) w.1, w.2). split_and!; [done|done|lia|intros _; lia].
Defined.

(** A terminal: [fopen] for writing makes its stream buffered by lines. *)
Definition opened_for (mode : list Z) : io := match fopen [97] mode (mk_io no_stream ([104; 105; 10; 255], []) 0 []) with Done (_, s) => s | _ => mk_io no_stream ([], []) 0 [] end.

Lemma output_in_order_witness :
  let os := [Put 104; Puts [105; 10]; Put 33; Flush] in
  ∃ s1 calls, performs os (opened_for [119]) = Done (0, s1) ∧ writes 3 (Stdio.os (opened_for [119])) calls (Stdio.os s1) ∧
    concat calls ++ buffer (stream s1) = [104; 105; 10; 33] ∧ length (buffer (stream s1)) ≤ buffer_size (stream s1) ∧
    (Some Flush = Some Flush → buffer (stream s1) = []).
Proof.
  destruct (output_in_order [Put 104; Puts [105; 10]; Put 33; Flush] (opened_for [119])) as [H|(s1 & calls & given & rest & w & E & _)].
  - split; vm_compute; try done; auto.
  - repeat constructor; try done. set_solver.
  - exact H.
  - vm_compute in E. discriminate.
Defined.

(** A system that takes one byte at a time, as a call of [write] may: what is over is lost,
    and no error is seen. *)
#[local] Instance one_byte : Sys (list Z) := {
  sys_read _ n w := (inr [], w);
  sys_write _ l w := (inr (Z.of_nat (length (take 1 l))), w ++ take 1 l);
  sys_open _ _ w := (inr 3, w);
  sys_close _ w := (0, w);
  sys_is_dir _ w := (inr false, w);
  sys_isatty _ _ := false;
}.
Example short_write_loses :
  match performs [Puts [104; 105]; Flush] (mk_io (stream (opened_for [119])) [] 0 []) with
  | Done (z, s) => z = 0 ∧ os s = [104] ∧ buffer (stream s) = [] ∧ error (stream s) = false
  | _ => False
  end.
Proof. by vm_compute. Qed.

Lemma input_in_order_witness :
  ∃ s1, fgetcs 4 (opened_for [114]) = Done ([104; 105; 10; -1], s1) ∧ unread s1 = [] ∧
    ∃ s2, fgetc s1 = Done (EOF, s2) ∧ eof (stream s2) = true ∧ unread s2 = [].
Proof. refine (input_in_order (opened_for [114]) _ _); [split; by vm_compute|by vm_compute]. Defined.
