(* ===== verification/Driver.v ===== *)
(** * util/driver.c: loaded drivers, symbols and relocations

    Drivers are loaded at any address and relocated, so a page of a driver that was
    dropped and is read again from its file must get its relocations once more. The
    kernel's symbols and those of drivers are kept in a tree by name. The
    permissions and words of pages, loading and the file system are interfaces. *)

From S2P Require Import Prelude Physical Transfer Tree SearchSort CString Vnode Strings.

Record symbol := Symbol { sym_name : cstring; sym_addr : Z }.
Record loaded_driver := Loaded { filename : cstring; relocation_point : Z; relocation_table : Z }.

Record rel := Rel { r_address : Z; r_value : Z }.
Record rel_table := RelTable { total_entries : Z; used_entries : Z; entries : list rel }.

(** The state of this file, before the rest of the kernel [P]. *)
Record drivers (P : Type) := DriverState {
  driver_table_lock : bool;
  symbol_table_lock : bool;
  loaded_drivers : tree;
  symbol_table : tree;
  symbols : gmap Z symbol;
  driver_structs : gmap Z loaded_driver;
  rel_tables : gmap Z rel_table;
  pages : P;
}.
Arguments DriverState {_}.
Arguments driver_table_lock {_}.
Arguments symbol_table_lock {_}.
Arguments loaded_drivers {_}.
Arguments symbol_table {_}.
Arguments symbols {_}.
Arguments driver_structs {_}.
Arguments rel_tables {_}.
Arguments pages {_}.

(** Comparators read the structs. *)
Definition COMPARE_SIGN (a b : Z) : Z := if decide (a = b) then 0 else if decide (a < b) then -1 else 1.

Definition SymbolComparator (sy : gmap Z symbol) : tree_comparator := λ a b,
  strcmp (default [] (sym_name <$> sy !! a)) (default [] (sym_name <$> sy !! b)).
Definition DriverTableComparatorByRelocationPoint (ds : gmap Z loaded_driver) : tree_comparator := λ a b,
  COMPARE_SIGN (default 0 (relocation_point <$> ds !! a)) (default 0 (relocation_point <$> ds !! b)).
Definition DriverTableComparatorByName (ds : gmap Z loaded_driver) : tree_comparator := λ a b,
  strcmp (default [] (filename <$> ds !! a)) (default [] (filename <$> ds !! b)).
Definition RelocationTableComparator (a b : rel) : Z := COMPARE_SIGN (r_address a) (r_address b).
(** The key is an address. *)
Definition BinarySearchComparator (a : Z) (b : rel) : Z :=
  let page_a := a / ARCH_PAGE_SIZE in
  let page_b := r_address b / ARCH_PAGE_SIZE in
  if decide (page_b < page_a) then 1 else if decide (page_a < page_b) then -1 else 0.

(** mem/virtual.c: the permissions of an address, and a word of memory. *)
Class Pages (P : Type) : Type := {
  get_permissions : Z → M P Z;
  set_permissions : Z → Z → Z → M P Z;      (* the address, what to add, what to remove *)
  lock_virt : Z → M P bool;
  unlock_virt : Z → M P unit;
  map_entries : Z → M P unit;               (* the pages of a relocation table *)
  store_word : Z → Z → M P unit;
}.

(** arch/x86/elf/elf.c and the file system: opening a file; loading a driver, with
    its relocation point and table; adding its symbols. *)
Class Loader (P : Type) : Type := {
  open_driver : cstring → M (drivers P) (Z * Z);
  ArchLoadDriver : Z → M (drivers P) (Z * Z * Z);
  ArchLoadSymbols : Z → Z → M (drivers P) unit;
  close_driver : Z → M (drivers P) unit;
}.

Section driver.
Context {P : Type} {AL : Allocator} {PG : Pages P} {LD : Loader P}.
Implicit Types s : drivers P.

Definition state : M (drivers P) (drivers P) := get.

Definition with_driver_lock (b : bool) s : drivers P :=
  DriverState b (symbol_table_lock s) (loaded_drivers s) (symbol_table s) (symbols s) (driver_structs s) (rel_tables s) (pages s).
Definition with_symbol_lock (b : bool) s : drivers P :=
  DriverState (driver_table_lock s) b (loaded_drivers s) (symbol_table s) (symbols s) (driver_structs s) (rel_tables s) (pages s).
Definition with_loaded (t : tree) s : drivers P :=
  DriverState (driver_table_lock s) (symbol_table_lock s) t (symbol_table s) (symbols s) (driver_structs s) (rel_tables s) (pages s).
Definition with_symbol_table (t : tree) s : drivers P :=
  DriverState (driver_table_lock s) (symbol_table_lock s) (loaded_drivers s) t (symbols s) (driver_structs s) (rel_tables s) (pages s).
Definition with_symbols (m : gmap Z symbol) s : drivers P :=
  DriverState (driver_table_lock s) (symbol_table_lock s) (loaded_drivers s) (symbol_table s) m (driver_structs s) (rel_tables s) (pages s).
Definition with_structs (m : gmap Z loaded_driver) s : drivers P :=
  DriverState (driver_table_lock s) (symbol_table_lock s) (loaded_drivers s) (symbol_table s) (symbols s) m (rel_tables s) (pages s).
Definition with_rel_tables (m : gmap Z rel_table) s : drivers P :=
  DriverState (driver_table_lock s) (symbol_table_lock s) (loaded_drivers s) (symbol_table s) (symbols s) (driver_structs s) m (pages s).
Definition with_pages (p : P) s : drivers P :=
  DriverState (driver_table_lock s) (symbol_table_lock s) (loaded_drivers s) (symbol_table s) (symbols s) (driver_structs s) (rel_tables s) p.

Definition on_pages {A} (m : M P A) : M (drivers P) A := λ s,
  outcome_bind (λ '(a, p), Done (a, with_pages p s)) (m (pages s)).

(** The mutexes are not recursive. *)
Definition AcquireDriverTable : M (drivers P) unit :=
  s ← state; if driver_table_lock s then block else put (with_driver_lock true s).
Definition ReleaseDriverTable : M (drivers P) unit := s ← state; c_assert (driver_table_lock s);; put (with_driver_lock false s).
Definition AcquireSymbolTable : M (drivers P) unit :=
  s ← state; if symbol_table_lock s then block else put (with_symbol_lock true s).
Definition ReleaseSymbolTable : M (drivers P) unit := s ← state; c_assert (symbol_table_lock s);; put (with_symbol_lock false s).

(** A call on one of the trees; the comparator, a constant pointer, is settled at
    the call. *)
Definition on_loaded {A} (cmp : gmap Z loaded_driver → tree_comparator) (ds : gmap Z loaded_driver) (m : M tree A) : M (drivers P) A := λ s,
  outcome_bind (λ '(a, t), Done (a, with_loaded t s)) (m {| (loaded_drivers s) with equality_handler := cmp ds |}).
Definition on_symbol_table {A} (sy : gmap Z symbol) (m : M tree A) : M (drivers P) A := λ s,
  outcome_bind (λ '(a, t), Done (a, with_symbol_table t s)) (m {| (symbol_table s) with equality_handler := SymbolComparator sy |}).

(** ** Drivers by name and by address *)
Definition GetDriverAddressWithLockHeld (name : cstring) : M (drivers P) Z :=
  s ← state;
  let dummy := pick (dom (driver_structs s)) in
  res ← on_loaded DriverTableComparatorByName (<[dummy := Loaded name junk junk]> (driver_structs s)) (TreeGet dummy);
  if decide (res = NULL) then mret 0 else
  d ← deref (driver_structs s !! res);
  mret (relocation_point d).

Definition GetDriverFromAddress (point : Z) : M (drivers P) Z :=
  AcquireDriverTable;;
  s ← state;
  let dummy := pick (dom (driver_structs s)) in
  res ← on_loaded DriverTableComparatorByRelocationPoint (<[dummy := Loaded [] point junk]> (driver_structs s)) (TreeGet dummy);
  ReleaseDriverTable;;
  mret res.

Definition GetDriverAddress (name : cstring) : M (drivers P) Z :=
  AcquireDriverTable;;
  res ← GetDriverAddressWithLockHeld name;
  ReleaseDriverTable;;
  mret res.

(** ** Symbols *)
Definition DoesSymbolContainIllegalCharacters (sy : cstring) : bool :=
  existsb (λ c, negb (isalnum c) && negb (bool_decide (c = 95))) sy || bool_decide (sy = []).

Definition AddSymbol (sy : cstring) (address : Z) : M (drivers P) unit :=
  if DoesSymbolContainIllegalCharacters sy then mret tt else
  s ← state;
  let entry := pick (dom (symbols s)) in
  modify (λ s, with_symbols (<[entry := Symbol sy address]> (symbols s)) s);;
  AcquireSymbolTable;;
  s ← state;
  there ← on_symbol_table (symbols s) (TreeContains entry);
  (if (there : bool) then modify (λ s, with_symbols (delete entry (symbols s)) s)
   else on_symbol_table (symbols s) (TreeInsert entry));;
  ReleaseSymbolTable.

(** [0] for a symbol that is not there. *)
Definition GetSymbolAddress (sy : cstring) : M (drivers P) Z :=
  AcquireSymbolTable;;
  s ← state;
  let dummy := pick (dom (symbols s)) in
  result ← on_symbol_table (<[dummy := Symbol sy junk]> (symbols s)) (TreeGet dummy);
  ReleaseSymbolTable;;
  if decide (result = NULL) then mret 0 else
  x ← deref (symbols s !! result);
  c_assert (bool_decide (strcmp (sym_name x) sy = 0));;
  mret (sym_addr x).

(** [sys:/kernel.exe]. *)
Definition InitSymbolTable (kernel_name : cstring) : M (drivers P) unit :=
  modify (with_driver_lock false);;
  modify (with_symbol_lock false);;
  modify (with_loaded TreeCreate);;
  modify (with_symbol_table TreeCreate);;
  '(res, f) ← open_driver kernel_name;
  if decide (res ≠ 0) then panic PANIC_NO_FILESYSTEM else
  ArchLoadSymbols f 0;;
  close_driver f.

(** ** Loading *)
Definition LoadDriver (name : cstring) : M (drivers P) Z :=
  '(res, f) ← open_driver name;
  if decide (res ≠ 0) then mret res else
  s ← state;
  let drv := pick (dom (driver_structs s)) in
  modify (λ s, with_structs (<[drv := Loaded name 0 NULL]> (driver_structs s)) s);;
  '(res, point, table) ← ArchLoadDriver f;
  modify (λ s, with_structs (<[drv := Loaded name point table]> (driver_structs s)) s);;
  if decide (res ≠ 0) then mret res else
  c_assert (bool_decide (table ≠ NULL));;
  s ← state;
  on_loaded DriverTableComparatorByName (driver_structs s) (TreeInsert drv);;
  ArchLoadSymbols f point;;
  mret 0.

Definition RequireDriver (name : cstring) : M (drivers P) Z :=
  AcquireDriverTable;;
  a ← GetDriverAddressWithLockHeld name;
  if decide (a ≠ 0) then ReleaseDriverTable;; mret 0 else
  res ← LoadDriver name;
  ReleaseDriverTable;;
  mret res.

(** ** Relocation tables *)
Definition get_rel_table (t : Z) : M (drivers P) rel_table := s ← state; deref (rel_tables s !! t).
Definition set_rel_table (t : Z) (x : rel_table) : M (drivers P) unit :=
  modify (λ s, with_rel_tables (<[t := x]> (rel_tables s)) s).

(** [qsort_pageable] sorts the entries that are used. *)
Definition SortRelocationTable (t : Z) : M (drivers P) unit :=
  x ← get_rel_table t;
  match qsort RelocationTableComparator (length (entries x)) (used_entries x) (entries x) with
  | Done (_, l) => set_rel_table t {| x with entries := l |}
  | Panicked c => panic c
  | Faulted => fault
  | Blocked => block
  | Exhausted => exhausted
  end.

Definition AddToRelocationTable (t addr val : Z) : M (drivers P) unit :=
  x ← get_rel_table t;
  c_assert (bool_decide (used_entries x < total_entries x));;
  l ← deref (aset (entries x) (used_entries x) (Rel addr val));
  set_rel_table t {| x with entries := l; used_entries := used_entries x + 1 |}.

(** The pages are cleared. *)
Definition CreateRelocationTable (count : Z) : M (drivers P) Z :=
  s ← state;
  let t := pick (dom (rel_tables s)) in
  on_pages (map_entries (u32 (count * 8)));;
  set_rel_table t {| entries := replicate (Z.to_nat count) (Rel 0 0); used_entries := 0; total_entries := count |};;
  mret t.

(** ** Relocating a page *)
Definition page_of (a : Z) : Z := a / ARCH_PAGE_SIZE.

(** [entry->address / ARCH_PAGE_SIZE == virtual / ARCH_PAGE_SIZE
     || (entry->address - sizeof(size_t) + 1) == virtual / ARCH_PAGE_SIZE]. *)
Definition on_this_page (virtual : Z) (e : rel) : bool :=
  bool_decide (page_of (r_address e) = page_of virtual ∨ u32 (r_address e - 4 + 1) = page_of virtual).

(** Back to the entry before those of the page, or the first of all. *)
Fixpoint first_entry (l : list rel) (virtual : Z) (i : nat) : option nat :=
  match i with
  | O => Some O
  | S j => e ← l !! i; if on_this_page virtual e then first_entry l virtual j else Some i
  end.

(** [if (needs_write) SetVirtPermissions(page, VM_WRITE, 0)], and back. *)
Definition add_write (needs_write : bool) (page : Z) : M P unit :=
  if needs_write then _ ← set_permissions page VM_WRITE 0; mret tt else mret tt.
Definition remove_write (needs_write : bool) (page : Z) : M P unit :=
  if needs_write then _ ← set_permissions page 0 VM_WRITE; mret tt else mret tt.

(** An entry near the end of the page makes the next one writable too. What is to
    be undone of it is set anew by every such entry. *)
Definition touch_next_page (virtual : Z) (e : rel) (write_high unlock_high : bool) : M P (bool * bool) :=
  if decide (page_of (u32 (r_address e + 4 + 1)) = page_of virtual) then mret (write_high, unlock_high) else
  was_locked ← lock_virt (u32 (virtual + ARCH_PAGE_SIZE));
  p ← get_permissions (u32 (virtual + ARCH_PAGE_SIZE));
  let needs := bool_decide (Z.land p VM_WRITE = 0) in
  add_write needs (u32 (virtual + ARCH_PAGE_SIZE));;
  mret (needs, negb (was_locked : bool)).

(** The loop over the entries, [n] of them at most. *)
Fixpoint relocate_entries (n : nat) (l : list rel) (virtual final_address i : Z) (write_high unlock_high : bool) : M P (bool * bool) :=
  match n with
  | O => mret (write_high, unlock_high)
  | S n =>
    e ← deref (aget l i);
    if on_this_page virtual e then
      '(write_high, unlock_high) ← touch_next_page virtual e write_high unlock_high;
      store_word (r_address e) (r_value e);;
      if decide (r_address e = final_address) then mret (write_high, unlock_high)
      else relocate_entries n l virtual final_address (i + 1) write_high unlock_high
    else mret (write_high, unlock_high)
  end.

Definition ApplyRelocationsToPage (x : rel_table) (virtual : Z) : M P unit :=
  match bsearch BinarySearchComparator (length (entries x) + 2) virtual (entries x) (used_entries x) with
  | Done (Some i) =>
    first ← deref (first_entry (entries x) virtual (Z.to_nat i));
    let first := if decide (first ≠ 0%nat) then S first else first in
    p ← get_permissions virtual;
    let needs_write_low := bool_decide (Z.land p VM_WRITE = 0) in
    add_write needs_write_low virtual;;
    last ← deref (aget (entries x) (used_entries x - 1));
    '(write_high, unlock_high) ← relocate_entries (length (entries x)) (entries x) virtual (r_address last) first false false;
    remove_write needs_write_low virtual;;
    remove_write write_high (u32 (virtual + ARCH_PAGE_SIZE));;
    (if (unlock_high : bool) then unlock_virt (u32 (virtual + ARCH_PAGE_SIZE)) else mret tt)
  | Done None => panic PANIC_ASSERTION_FAILURE
  | Panicked c => panic c
  | Faulted => fault
  | Blocked => block
  | Exhausted => exhausted
  end.

Definition RelocatePage (relocation_base virt : Z) : M (drivers P) unit :=
  drv ← GetDriverFromAddress relocation_base;
  if decide (drv = NULL) then panic PANIC_ASSERTION_FAILURE else
  s ← state;
  d ← deref (driver_structs s !! drv);
  x ← get_rel_table (relocation_table d);
  on_pages (ApplyRelocationsToPage x virt).
End driver.
