(* ===== verification/DriverTheorems.v ===== *)
(** * Symbols are a map, and relocated pages come back *)

From Stdlib Require Import Sorted.
From S2P Require Import Prelude Tree Physical Transfer Vnode SearchSort CString Strings Driver.

#[export] Instance SymbolComparator_total sy : TotalComparator (SymbolComparator sy).
Proof.
  unfold SymbolComparator. split; intros; [apply strcmp_refl|rewrite strcmp_opp; lia|by eapply strcmp_le_trans].
Qed.

Definition legal (sy : cstring) : bool := negb (DoesSymbolContainIllegalCharacters sy).

(** What adding a symbol means: the first of a name stays. *)
Definition add_spec (m : gmap cstring Z) (x : cstring * Z) : gmap cstring Z :=
  if legal x.1 then match m !! x.1 with Some _ => m | None => <[x.1 := x.2]> m end else m.

Section symbols.
Context {P : Type} {AL : Allocator} {PG : Pages P}.
Implicit Types (s : drivers P) (m : gmap cstring Z).

Record symbols_are s m : Prop := {
  sa_lock : symbol_table_lock s = false;
  sa_avl : avl (root (symbol_table s));
  sa_null : NULL ∉ contents (symbol_table s);
  sa_live a : a ∈ contents (symbol_table s) → ∃ x, symbols s !! a = Some x ∧ 0 ∉ sym_name x;
  sa_map k v : m !! k = Some v ↔ ∃ a, a ∈ contents (symbol_table s) ∧ symbols s !! a = Some (Symbol k v);
}.

(** An entry that compares equal to a name is the entry of that name. *)
Lemma symbol_found s m d x k v :
  symbols_are s m → d ∉ dom (symbols s) → 0 ∉ k → x ∈ contents (symbol_table s) →
  SymbolComparator (<[d := Symbol k v]> (symbols s)) x d = 0 → ∃ w, symbols s !! x = Some (Symbol k w) ∧ m !! k = Some w.
Proof.
  intros H Hd Hk Hx Hc. destruct (sa_live _ _ H x Hx) as ([k' w] & Ex & Hk'). unfold SymbolComparator in Hc.
  assert (d ≠ x) as Hne by (intros ->; apply Hd; by apply elem_of_dom_2 in Ex).
  rewrite lookup_insert_ne, Ex, lookup_insert_eq in Hc by done. cbn in Hc, Hk'. apply strcmp_eq in Hc as ->; [|done..].
  exists w. split; [done|]. apply (sa_map _ _ H). by exists x.
Qed.
Lemma symbol_not_found s m d k v :
  symbols_are s m → d ∉ dom (symbols s) → 0 ∉ k →
  (∀ x, x ∈ contents (symbol_table s) → SymbolComparator (<[d := Symbol k v]> (symbols s)) x d ≠ 0) → m !! k = None.
Proof.
  intros H Hd Hk Hno. destruct (m !! k) as [w|] eqn:Ek; [|done]. apply (sa_map _ _ H) in Ek as (a & Ha & Ea).
  exfalso. apply (Hno a Ha). unfold SymbolComparator.
  assert (d ≠ a) as Hne by (intros ->; apply Hd; by apply elem_of_dom_2 in Ea).
  rewrite lookup_insert_ne, Ea, lookup_insert_eq by done. cbn. by apply strcmp_eq.
Qed.

Lemma AddSymbol_run s m k v :
  symbols_are s m → 0 ∉ k → ∃ s', AddSymbol k v s = Done (tt, s') ∧ symbols_are s' (add_spec m (k, v)).
Proof.
  intros H Hk. pose proof H as [Hl Ha Hn Hlive Hmap]. unfold AddSymbol, add_spec, legal. cbn [fst snd].
  destruct (DoesSymbolContainIllegalCharacters k); [by exists s|]. cbn [negb].
  set (d := pick (dom (symbols s))). assert (d ∉ dom (symbols s)) as Hd by apply pick_fresh.
  assert (d ≠ NULL) as Hdn by apply pick_nonnull.
  assert (∀ a x, symbols s !! a = Some x → d ≠ a) as Hne by (intros a x Ea ->; apply Hd; by apply elem_of_dom_2 in Ea).
  unfold state, AcquireSymbolTable, ReleaseSymbolTable, on_symbol_table, TreeContains, state. mred.
  cbn [symbol_table_lock with_symbols]. rewrite Hl. mred. cbn [symbol_table symbols with_symbols with_symbol_lock].
  fold d. set (sy := <[d := Symbol k v]> (symbols s)). set (t := symbol_table s) in *.
  set (t' := {| t with equality_handler := SymbolComparator sy |}).
  change (AvlContains (equality_handler t') (root t') d) with (AvlContains (SymbolComparator sy) (root t) d).
  destruct (AvlContains (SymbolComparator sy) (root t) d) eqn:Ec.
  - apply AvlContains_iff in Ec as (x & Hx & Hxd). destruct (symbol_found s m d x k v H Hd Hk Hx Hxd) as (w & Ex & Emk).
    rewrite Emk. mred. eexists. split; [reflexivity|].
    assert (delete d sy = symbols s) as Hsy by (unfold sy; apply delete_insert_id; by apply not_elem_of_dom).
    split; cbn [symbol_table symbols symbol_table_lock with_symbol_lock with_symbols with_symbol_table]; rewrite ?Hsy; done.
  - assert (m !! k = None) as Emk.
    { apply (symbol_not_found s m d k v H Hd Hk). intros x Hx Hxd.
      assert (AvlContains (SymbolComparator sy) (root t) d = true) as Ht by (apply AvlContains_iff; by exists x). congruence. }
    rewrite Emk.
    assert (∃ t2, TreeInsert d t' = Done (tt, t2) ∧ avl (root t2) ∧ contents t2 ≡ₚ d :: contents t) as (t2 & Et & Ha2 & Hp2).
    { unfold TreeInsert. mred. cbn [root t' equality_handler]. unfold contents. destruct (root t) as [|l0 x0 r0] eqn:Er.
      - cbn. eexists. split; [reflexivity|]. split; [|done]. cbn. split; [lia|done].
      - destruct (AvlInsert_run (SymbolComparator sy) (TNode l0 x0 r0) d) as (t2 & E & Ha' & _ & (a & b & Ea & Eb & _)); [done|done|].
        unfold lift_tree. cbn [equality_handler]. rewrite E. cbn. eexists. split; [reflexivity|]. split; [done|].
        change (AvlPrint t2 ≡ₚ d :: AvlPrint (TNode l0 x0 r0)). rewrite Eb, Ea. by rewrite Permutation_middle. }
    cbn beta. set (t3 := Tree _ _ _ _). change t3 with t'. rewrite Et. cbn. eexists. split; [reflexivity|].
    split; cbn [symbol_table symbols symbol_table_lock with_symbol_lock with_symbols with_symbol_table]; [done|done| | |].
    + rewrite Hp2. set_solver.
    + intros a. rewrite Hp2. unfold sy. intros [->|Hin]%elem_of_cons; [exists (Symbol k v); by rewrite lookup_insert_eq|].
      destruct (Hlive a Hin) as (x & Ex & Hx). exists x. by rewrite lookup_insert_ne by (by eapply Hne).
    + intros k' v'. setoid_rewrite Hp2. unfold sy. destruct (decide (k = k')) as [<-|Hkk].
      * rewrite lookup_insert_eq. split.
        -- intros [= <-]. exists d. split; [by left|by apply lookup_insert_eq].
        -- intros (a & [->|Hin]%elem_of_cons & Ea); [by rewrite lookup_insert_eq in Ea; injection Ea as ->|].
           destruct (Hlive a Hin) as (x & Ex & _). rewrite lookup_insert_ne in Ea by (by eapply Hne).
           assert (m !! k = Some v') as Hbad by (apply Hmap; by exists a). congruence.
      * rewrite lookup_insert_ne, Hmap by done. split.
        -- intros (a & Hin & Ea). exists a. split; [by right|]. by rewrite lookup_insert_ne by (by eapply Hne).
        -- intros (a & [->|Hin]%elem_of_cons & Ea); [rewrite lookup_insert_eq in Ea; by injection Ea as ->|].
           destruct (Hlive a Hin) as (x & Ex & _). rewrite lookup_insert_ne in Ea by (by eapply Hne). by exists a.
Qed.

Lemma GetSymbolAddress_run s m k :
  symbols_are s m → 0 ∉ k → ∃ s', GetSymbolAddress k s = Done (default 0 (m !! k), s') ∧ symbols_are s' m ∧
    pages s' = pages s ∧ rel_tables s' = rel_tables s.
Proof.
  intros H Hk. pose proof H as [Hl Ha Hn Hlive Hmap]. unfold GetSymbolAddress, AcquireSymbolTable, ReleaseSymbolTable, state. mred.
  rewrite Hl. mred. cbn [symbols with_symbol_lock]. set (d := pick (dom (symbols s))).
  assert (d ∉ dom (symbols s)) as Hd by apply pick_fresh. unfold on_symbol_table, TreeGet. mred. cbn [symbol_table with_symbol_lock].
  set (sy := <[d := Symbol k junk]> (symbols s)). set (t := symbol_table s) in *. cbn [root equality_handler].
  destruct (AvlGet_spec (SymbolComparator sy) (root t) d Hn) as [[Hin Hc]|[-> Hno]].
  - set (x := AvlGet _ _ _) in *. destruct (symbol_found s m d x k junk H Hd Hk Hin Hc) as (w & Ex & Emk).
    assert (x ≠ NULL) as Hx by (intros E; rewrite E in Hin; done).
    cbn. rewrite decide_False by done. cbn. rewrite Ex. cbn. rewrite Emk.
    rewrite bool_decide_eq_true_2 by (by apply strcmp_eq). cbn. eexists. split; [reflexivity|]. split; [by split|done].
  - rewrite (symbol_not_found s m d k junk H Hd Hk Hno). cbn. eexists. split; [reflexivity|]. split; [by split|done].
Qed.

Fixpoint add_symbols (l : list (cstring * Z)) : M (drivers P) unit :=
  match l with [] => mret tt | x :: l => AddSymbol x.1 x.2;; add_symbols l end.

(** C31: the symbol table is a map by name: after any additions, a name has the first
    address that was given for it, if its characters are legal, and 0 otherwise. *)
Theorem symbol_table_is_map (l : list (cstring * Z)) : ∀ s m k,
  symbols_are s m → Forall (λ x, 0 ∉ x.1) l → 0 ∉ k →
  ∃ s' s'', add_symbols l s = Done (tt, s') ∧ GetSymbolAddress k s' = Done (default 0 (foldl add_spec m l !! k), s'') ∧
    symbols_are s'' (foldl add_spec m l).
Proof.
  induction l as [|[k0 v0] l IH]; intros s m k H Hl Hk.
  - destruct (GetSymbolAddress_run s m k H Hk) as (s' & E & H' & _). exists s, s'. by split_and!.
  - apply Forall_cons in Hl as [Hk0 Hl]. destruct (AddSymbol_run s m k0 v0 H Hk0) as (s1 & E1 & H1).
    destruct (IH s1 _ k H1 Hl Hk) as (s' & s'' & E & Hrest). exists s', s''. split; [|exact Hrest].
    cbn [add_symbols fst snd]. by rewrite (M_bind_done _ _ _ _ _ E1).
Qed.
End symbols.

#[local] Existing Instance bump_allocator.

(** No symbols yet. *)
Definition no_symbols {P} (p : P) : drivers P := DriverState false false TreeCreate TreeCreate ∅ ∅ ∅ p.

Lemma no_symbols_are {P} (p : P) : symbols_are (no_symbols p) ∅.
Proof.
  split; cbn; [done|done| | |].
  - apply not_elem_of_nil.
  - by intros a ?%elem_of_nil.
  - intros k v. rewrite lookup_empty. split; [done|]. by intros (a & ?%elem_of_nil & _).
Qed.

Lemma symbol_table_is_map_witness : let l := [([97; 98], 5); ([97], 6); ([97; 98], 7); ([46], 8)] in
  ∃ s' s'', add_symbols l (no_symbols tt) = Done (tt, s') ∧ GetSymbolAddress [97; 98] s' = Done (5, s'') ∧
    symbols_are s'' (foldl add_spec ∅ l).
Proof.
  intros l. destruct (symbol_table_is_map l (no_symbols tt) ∅ [97; 98]) as (s' & s'' & E1 & E2 & E3).
  - apply no_symbols_are.
  - repeat constructor; cbn; rewrite ?elem_of_cons, elem_of_nil; naive_solver.
  - rewrite !elem_of_cons, elem_of_nil. naive_solver.
  - exists s', s''. split; [exact E1|]. split; [|exact E3]. rewrite E2. vm_compute. reflexivity.
Defined.

(** * A page of a driver that is read again gets its relocations back *)

(** Byte [k] of a word. *)
Definition word_byte (w k : Z) : Z := Z.land (Z.shiftr w (8 * k)) 255.

(** Memory after the words of the entries are stored, one after the other. *)
Definition store (m : Z → Z) (e : rel) : Z → Z := λ x,
  if decide (r_address e ≤ x < r_address e + 4) then word_byte (r_value e) (x - r_address e) else m x.
Definition restored (m : Z → Z) (p : list rel) : Z → Z := foldl store m p.

Lemma restored_ext p : ∀ m m', (∀ x, m x = m' x) → ∀ x, restored m p x = restored m' p x.
Proof.
  induction p as [|e p IH]; intros m m' E x; [apply E|]. cbn. apply IH. intros y. unfold store. by rewrite E.
Qed.

(** What the pages promise. [p_perm] is of a page, and is [None] where the page may
    not be made writable: a page of a driver may, as it is mapped relocatable. *)
Class PagesLaws (P : Type) {PG : Pages P} := {
  p_byte : P → Z → Z;
  p_perm : P → Z → option Z;
  p_get s a x : p_perm s (page_of a) = Some x → get_permissions a s = Done (x, s);
  p_set s a add rem x :
    p_perm s (page_of a) = Some x → ∃ r s', set_permissions a add rem s = Done (r, s') ∧ (∀ y, p_byte s' y = p_byte s y) ∧
      ∀ n, p_perm s' n = if decide (n = page_of a) then Some (Z.lor (Z.land x (Z.lnot rem)) add) else p_perm s n;
  p_store s a w x :
    p_perm s (page_of a) = Some x → Z.land x VM_WRITE ≠ 0 → page_of (a + 3) = page_of a →
    ∃ s', store_word a w s = Done (tt, s') ∧ (∀ y, p_byte s' y = store (p_byte s) (Rel a w) y) ∧ ∀ n, p_perm s' n = p_perm s n;
}.

Definition earlier (a b : rel) : Prop := r_address a < r_address b.
(** An entry of the page of [v], not so near its end that the next is touched. *)
Definition inside (v : Z) (e : rel) : Prop := page_of (r_address e) = page_of v ∧ page_of (r_address e + 5) = page_of v.
Definition outside (v : Z) (e : rel) : Prop := page_of (r_address e) ≠ page_of v.
(** Above the first megabyte: the addresses of drivers, never page numbers. *)
Definition high (e : rel) : Prop := 2 ^ 20 + 3 ≤ r_address e < 2 ^ 32 - 5.

Lemma page_of_range v : is_u32 v → 0 ≤ page_of v < 2 ^ 20.
Proof.
  unfold is_u32, page_of, ARCH_PAGE_SIZE. intros. split; [apply Z.div_pos; lia|apply Z.div_lt_upper_bound; lia].
Qed.

Lemma on_this_page_iff v e : is_u32 v → high e → on_this_page v e = bool_decide (page_of (r_address e) = page_of v).
Proof.
  intros Hv%page_of_range He. unfold on_this_page, high in *. apply bool_decide_ext.
  rewrite u32_small by (unfold is_u32; lia). split; [intros [?|?]; [done|lia]|by left].
Qed.

Lemma page_between a b c : a ≤ b ≤ c → page_of a = page_of c → page_of b = page_of a.
Proof.
  intros H E. assert (page_of a ≤ page_of b ≤ page_of c); [|lia].
  unfold page_of, ARCH_PAGE_SIZE in *. split; apply Z.div_le_mono; lia.
Qed.

Section pages.
Context {P : Type} {PG : Pages P} {PL : PagesLaws P}.
Implicit Types (s : P) (l a b p : list rel).

Lemma relocate_entries_run v l b fa p : ∀ pre n s x,
  l = pre ++ p ++ b → is_u32 v → Forall high (p ++ b) → Forall (inside v) p → Forall (outside v) b →
  StronglySorted earlier (p ++ b) → r_address <$> last (p ++ b) = Some fa →
  (length p < n ∨ b = [] ∧ p ≠ [] ∧ length p ≤ n)%nat → p_perm s (page_of v) = Some x → Z.land x VM_WRITE ≠ 0 →
  ∃ s', relocate_entries n l v fa (Z.of_nat (length pre)) false false s = Done ((false, false), s') ∧
    (∀ y, p_byte s' y = restored (p_byte s) p y) ∧ ∀ k, p_perm s' k = p_perm s k.
Proof.
  induction p as [|e p IH]; intros pre n s x El Hv Hhi Hin Hout Hs Hlast Hn Hx Hw; (destruct n as [|n]; [cbn in Hn; naive_solver lia|]); cbn [relocate_entries].
  - destruct b as [|c b]; [done|]. assert (aget l (length pre) = Some c) as -> by (rewrite aget_nat, El; by apply list_lookup_middle).
    mred. rewrite on_this_page_iff, bool_decide_eq_false_2 by first [done|apply Forall_cons in Hout; apply Hout|apply Forall_cons in Hhi; apply Hhi].
    by exists s.
  - assert (aget l (length pre) = Some e) as -> by (rewrite aget_nat, El; by apply list_lookup_middle). mred.
    cbn [app] in *. apply Forall_cons in Hhi as [He Hhi]. apply Forall_cons in Hin as [[Hp1 Hp2] Hin].
    apply StronglySorted_inv in Hs as [Hs He']. rewrite on_this_page_iff, bool_decide_eq_true_2 by done.
    unfold touch_next_page. unfold high in He. rewrite (u32_small (r_address e + 4 + 1)) by (unfold is_u32; lia).
    replace (r_address e + 4 + 1) with (r_address e + 5) by lia. rewrite decide_True by done. mred.
    destruct (p_store s (r_address e) (r_value e) x) as (s1 & E1 & Hb1 & Hq1);
      [by rewrite Hp1|done|apply (page_between (r_address e) _ (r_address e + 5)); [lia|congruence]|].
    rewrite E1. mred. destruct (p ++ b) as [|f r] eqn:Er.
    + apply app_eq_nil in Er as [-> ->]. injection Hlast as ->. rewrite decide_True by done. exists s1. split; [done|]. split; [|done].
      intros y. rewrite Hb1. done.
    + destruct (last (f :: r)) as [g|] eqn:Eg; [|by apply last_None in Eg]. change (last (e :: f :: r)) with (last (f :: r)) in Hlast. rewrite Eg in Hlast.
      injection Hlast as <-. assert (earlier e g) as Heg.
      { rewrite Forall_forall in He'. apply He'. by apply last_Some_elem_of. }
      rewrite decide_False by (unfold earlier in Heg; lia).
      replace (Z.of_nat (length pre) + 1) with (Z.of_nat (length (pre ++ [e]))) by (rewrite length_app; cbn; lia).
      destruct (IH (pre ++ [e]) n s1 x) as (s' & E & Hb & Hq); try by rewrite ?Er, ?Eg.
      { by rewrite <- app_assoc. }
      { cbn in Hn. destruct Hn as [?|(-> & _ & ?)]; [left; lia|right; split_and!; [done| |lia]]. by intros ->. }
      { by rewrite Hq1. }
      exists s'. split; [exact E|]. split; [|intros k; by rewrite Hq].
      intros y. rewrite Hb. cbn. apply restored_ext. intros z. by rewrite Hb1.
Qed.

(** ** Finding the first entry of the page *)
Lemma StronglySorted_lookup l i j x y :
  StronglySorted earlier l → (i < j)%nat → l !! i = Some x → l !! j = Some y → earlier x y.
Proof.
  intros Hs. revert i j. induction Hs as [|c l Hs IH Hc]; intros i j Hij Hi Hj; [done|].
  destruct j as [|j]; [lia|]. destruct i as [|i]; [|by apply (IH i j); [lia|..]].
  injection Hi as ->. rewrite Forall_lookup in Hc. by apply (Hc j).
Qed.

Lemma BinarySearchComparator_sign v e :
  (0 ≤ BinarySearchComparator v e ↔ page_of (r_address e) ≤ page_of v) ∧
  (0 < BinarySearchComparator v e ↔ page_of (r_address e) < page_of v) ∧
  (BinarySearchComparator v e = 0 ↔ page_of (r_address e) = page_of v).
Proof. unfold BinarySearchComparator. cbv zeta. unfold page_of. repeat case_decide; lia. Qed.

Lemma page_of_earlier x y : earlier x y → page_of (r_address x) ≤ page_of (r_address y).
Proof. unfold earlier, page_of, ARCH_PAGE_SIZE. intros. apply Z.div_le_mono; lia. Qed.

Lemma bsearch_page v a p b :
  StronglySorted earlier (a ++ p ++ b) → p ≠ [] → length (a ++ p ++ b) < 2 ^ 31 →
  Forall (outside v) a → Forall (inside v) p → Forall (outside v) b →
  ∃ i, bsearch BinarySearchComparator (length (a ++ p ++ b) + 2) v (a ++ p ++ b) (length (a ++ p ++ b)) = Done (Some (Z.of_nat i)) ∧
    (length a ≤ i < length a + length p)%nat.
Proof.
  intros Hs Hp Hlen Ha Hin Hb. set (l := a ++ p ++ b) in *.
  assert (partitioned BinarySearchComparator v l) as Hpart.
  { intros i j x y Hij Hi Hj. pose proof (page_of_earlier x y (StronglySorted_lookup _ _ _ _ _ Hs Hij Hi Hj)).
    destruct (BinarySearchComparator_sign v x) as (-> & -> & _), (BinarySearchComparator_sign v y) as (-> & -> & _). lia. }
  destruct p as [|e p]; [done|]. assert (l !! length a = Some e) as Ee by by apply list_lookup_middle.
  assert (page_of (r_address e) = page_of v) as Hpe by (by apply Forall_cons in Hin as [[? _] _]).
  destruct l as [|x0 l0] eqn:El; [done|].
  pose proof (bsearch_correct BinarySearchComparator v x0 l0 (length (x0 :: l0) + 2) Hpart Hlen (le_n _)) as Hbs. cbv zeta in Hbs.
  rewrite decide_False in Hbs.
  2: { destruct (length a) as [|k] eqn:Ek.
    - injection Ee as ->. destruct (BinarySearchComparator_sign v e) as (H1 & _). lia.
    - pose proof (page_of_earlier x0 e (StronglySorted_lookup _ 0 (S k) _ _ Hs ltac:(lia) eq_refl Ee)).
      destruct (BinarySearchComparator_sign v x0) as (H1 & _). lia. }
  destruct Hbs as ([i|] & E & Hf).
  - destruct Hf as (y & Ey & Hy). unfold aget in Ey. case_decide as Hi; [|done]. exists (Z.to_nat i). rewrite Z2Nat.id by done. split; [done|].
    apply BinarySearchComparator_sign in Hy. rewrite <- El in Ey. unfold l in Ey.
    apply lookup_app_Some in Ey as [Ey|[Hge Ey]]; [rewrite Forall_lookup in Ha; by apply Ha in Ey|].
    split; [lia|]. apply lookup_app_Some in Ey as [Ey|[Hge2 Ey]]; [apply lookup_lt_Some in Ey; lia|].
    rewrite Forall_lookup in Hb. by apply Hb in Ey.
  - exfalso. apply (Hf e); [by apply list_elem_of_lookup; exists (length a)|]. by apply BinarySearchComparator_sign.
Qed.

(** One less than the first entry of the page, and not below the first of all. *)
Lemma first_entry_run v a p b i :
  is_u32 v → Forall high (a ++ p ++ b) → Forall (outside v) a → Forall (inside v) p → (length a ≤ i < length a + length p)%nat →
  first_entry (a ++ p ++ b) v i = Some (length a - 1)%nat.
Proof.
  intros Hv Hhi Ha Hin. induction i as [|j IH]; intros Hi; cbn [first_entry]; [by replace (length a - 1)%nat with 0%nat by lia|].
  assert (∃ e, p !! (S j - length a)%nat = Some e) as (e & Ee) by (apply lookup_lt_is_Some; lia).
  assert ((a ++ p ++ b) !! S j = Some e) as El by (rewrite lookup_app_r by lia; by apply lookup_app_l_Some).
  assert (high e) as He by (rewrite Forall_lookup in Hhi; by eapply Hhi).
  rewrite El. cbn. rewrite on_this_page_iff, bool_decide_eq_true_2 by first [done|rewrite Forall_lookup in Hin; by apply Hin in Ee as [? _]].
  destruct (decide (length a ≤ j)%nat) as [Hj|Hj]; [by apply IH; lia|]. assert (length a = S j) as Hl by lia. rewrite Hl.
  destruct j as [|j]; [done|]. cbn [first_entry]. assert (∃ c, a !! S j = Some c) as (c & Ec) by (apply lookup_lt_is_Some; lia).
  assert ((a ++ p ++ b) !! S j = Some c) as Elc by by apply lookup_app_l_Some.
  rewrite Elc. cbn. rewrite on_this_page_iff, bool_decide_eq_false_2; [by replace (S (S j) - 1)%nat with (S j) by lia| |done|].
  - rewrite Forall_lookup in Ha. by apply Ha in Ec.
  - rewrite Forall_lookup in Hhi. by eapply Hhi.
Qed.

Lemma write_bit_set x : Z.land (Z.lor (Z.land x (Z.lnot 0)) VM_WRITE) VM_WRITE ≠ 0.
Proof.
  intros E. apply (f_equal (λ z, Z.testbit z 1)) in E. revert E. rewrite Z.land_spec, Z.lor_spec.
  change (Z.testbit VM_WRITE 1) with true. rewrite Bool.orb_true_r. done.
Qed.
Lemma write_bit_restored x :
  Z.land x VM_WRITE = 0 → Z.lor (Z.land (Z.lor (Z.land x (Z.lnot 0)) VM_WRITE) (Z.lnot VM_WRITE)) 0 = x.
Proof.
  intros Hx. rewrite Z.lor_0_r, Z.land_lor_distr_l, Z.land_lnot_diag, Z.lor_0_r, Z.land_m1_r.
  apply Z.bits_inj'. intros n Hn. rewrite Z.land_spec, Z.lnot_spec by done.
  apply (f_equal (λ z, Z.testbit z n)) in Hx. rewrite Z.land_spec, Z.bits_0 in Hx.
  destruct (Z.testbit x n); [|done]. cbn in *. by rewrite Hx.
Qed.

(** The page made writable for a change, and back. *)
Lemma made_writable s v x :
  p_perm s (page_of v) = Some x →
  ∃ s', add_write (bool_decide (Z.land x VM_WRITE = 0)) v s = Done (tt, s') ∧
    (∀ y, p_byte s' y = p_byte s y) ∧
    ∃ x', Z.land x' VM_WRITE ≠ 0 ∧ (∀ k, p_perm s' k = if decide (k = page_of v) then Some x' else p_perm s k) ∧
      (Z.land x VM_WRITE ≠ 0 → x' = x) ∧ (Z.land x VM_WRITE = 0 → Z.lor (Z.land x' (Z.lnot VM_WRITE)) 0 = x).
Proof.
  intros Hx. unfold add_write. case_bool_decide as Hw.
  - destruct (p_set s v VM_WRITE 0 x Hx) as (r & s' & E & Hb & Hq). exists s'. rewrite (M_bind_done _ _ _ _ _ E). split; [done|]. split; [done|].
    eexists. split; [apply write_bit_set|]. split; [exact Hq|]. split; [done|apply write_bit_restored].
  - exists s. split; [done|]. split; [done|]. exists x. split; [done|]. split; [|done]. intros k. by case_decide; subst.
Qed.
Lemma made_as_before s0 s v x x' :
  p_perm s0 (page_of v) = Some x → (∀ k, p_perm s k = if decide (k = page_of v) then Some x' else p_perm s0 k) →
  (Z.land x VM_WRITE ≠ 0 → x' = x) → (Z.land x VM_WRITE = 0 → Z.lor (Z.land x' (Z.lnot VM_WRITE)) 0 = x) →
  ∃ s', remove_write (bool_decide (Z.land x VM_WRITE = 0)) v s = Done (tt, s') ∧
    (∀ y, p_byte s' y = p_byte s y) ∧ ∀ k, p_perm s' k = p_perm s0 k.
Proof.
  intros Hx Hs H1 H2. unfold remove_write. case_bool_decide as Hw.
  - destruct (p_set s v 0 VM_WRITE x') as (r & s' & E & Hb & Hq); [by rewrite Hs, decide_True|]. exists s'.
    rewrite (M_bind_done _ _ _ _ _ E). split; [done|]. split; [done|]. intros k. rewrite Hq, H2 by done.
    case_decide; [by subst|]. rewrite Hs. by rewrite decide_False.
  - exists s. split; [done|]. split; [done|]. intros k. rewrite Hs. rewrite H1 by done. by case_decide; subst.
Qed.

(** when a page of a driver is relocated again, the words stored are those of the
    relocation table whose address is on the page, in order, and no other; the
    permissions of every page are what they were. When the table has exactly one entry
    of earlier pages, nothing is stored: the search for the page's first entry stops at
    the start of the table, on an entry that is not of the page. *)
Theorem relocations_restored s v x a p b :
  let l := a ++ p ++ b in
  is_u32 v → p_perm s (page_of v) = Some x → StronglySorted earlier l → length l < 2 ^ 31 → Forall high l →
  p ≠ [] → Forall (outside v) a → Forall (inside v) p → Forall (outside v) b →
  ∃ s', ApplyRelocationsToPage (RelTable (length l) (length l) l) v s = Done (tt, s') ∧
    (∀ y, p_byte s' y = if decide (length a = 1%nat) then p_byte s y else restored (p_byte s) p y) ∧
    ∀ k, p_perm s' k = p_perm s k.
Proof.
  intros l Hv Hx Hs Hlen Hhi Hp Ha Hin Hb. unfold ApplyRelocationsToPage. cbn [entries used_entries].
  destruct (bsearch_page v a p b Hs Hp Hlen Ha Hin Hb) as (i & Ei & Hi). fold l in Ei. rewrite Ei, Nat2Z.id.
  pose proof (first_entry_run v a p b i Hv Hhi Ha Hin Hi) as Ef. fold l in Ef. rewrite Ef. mred. rewrite (p_get s v x Hx). mred.
  destruct (made_writable s v x Hx) as (s1 & E1 & Hb1 & x' & Hw' & Hq1 & Hback1 & Hback2). rewrite E1. mred.
  assert (∃ g, last (p ++ b) = Some g) as (g & Hg).
  { destruct (last (p ++ b)) eqn:E; [by eexists|]. by apply last_None, app_eq_nil in E as [-> _]. }
  assert (aget l (length l - 1) = Some g) as ->.
  { replace (Z.of_nat (length l) - 1) with (Z.of_nat (pred (length l))) by (unfold l; rewrite !length_app; destruct p; cbn; [done|lia]).
    rewrite aget_nat. rewrite <- last_lookup. unfold l. by rewrite last_app, Hg. }
  mred.
  match goal with |- context [relocate_entries ?n ?l ?v ?fa ?i false false] =>
    assert (∃ s2, relocate_entries n l v fa i false false s1 = Done ((false, false), s2) ∧
      (∀ y, p_byte s2 y = if decide (length a = 1%nat) then p_byte s y else restored (p_byte s) p y) ∧
      ∀ k, p_perm s2 k = p_perm s1 k) as (s2 & E2 & Hb2 & Hq2) end.
  { destruct (decide (length a = 1%nat)) as [Ha1|Ha1].
    - destruct a as [|e [|]]; [done| |done]. exists s1. split; [|by split]. change (length l) with (S (length (p ++ b))).
      cbn [relocate_entries]. match goal with |- context [aget l ?i] => change (aget l i) with (Some e) end. mred.
      rewrite on_this_page_iff, bool_decide_eq_false_2; [done|by apply Forall_cons in Ha as [? _]|done|by apply Forall_cons in Hhi as [? _]].
    - replace (Z.of_nat (if decide ((length a - 1)%nat ≠ 0%nat) then S (length a - 1) else (length a - 1)%nat)) with (Z.of_nat (length a))
        by (destruct (length a) as [|[|k]]; [done|done|]; rewrite decide_True by lia; lia).
      apply Forall_app in Hhi as [_ Hhi].
      destruct (relocate_entries_run v l b (r_address g) p a (length l) s1 x') as (s2 & E2 & Hb2 & Hq2); try done.
      + by apply StronglySorted_app in Hs as (_ & _ & ?).
      + by rewrite Hg.
      + unfold l. rewrite !length_app. destruct b; [right; split_and!; [done|done|lia]|left; cbn; lia].
      + by rewrite Hq1, decide_True.
      + exists s2. split; [exact E2|]. split; [|done]. intros y. rewrite Hb2. by apply restored_ext. }
  rewrite E2. mred. destruct (made_as_before s s2 v x x' Hx) as (s3 & E3 & Hb3 & Hq3); [intros k; by rewrite Hq2, Hq1|done..|].
  rewrite E3. mred. exists s3. split; [done|]. split; [|done]. intros y. by rewrite Hb3, Hb2.
Qed.
End pages.

(** ** Concrete pages *)
Record flat := Flat { f_byte : Z → Z; f_perm : Z → option Z }.

#[export] Instance FlatPages : Pages flat := {
  get_permissions a s := match f_perm s (page_of a) with Some x => Done (x, s) | None => Done (0, s) end;
  set_permissions a add rem s :=
    match f_perm s (page_of a) with
    | Some x => Done (0, Flat (f_byte s) (λ k, if decide (k = page_of a) then Some (Z.lor (Z.land x (Z.lnot rem)) add) else f_perm s k))
    | None => Done (ENOMEM, s)
    end;
  lock_virt _ s := Done (true, s);
  unlock_virt _ s := Done (tt, s);
  map_entries _ s := Done (tt, s);
  store_word a w s :=
    match f_perm s (page_of a) with
    | Some x => if decide (Z.land x VM_WRITE = 0) then Faulted else Done (tt, Flat (store (f_byte s) (Rel a w)) (f_perm s))
    | None => Faulted
    end;
}.
#[export] Instance FlatPagesLaws : PagesLaws flat.
Proof.
  refine {| p_byte := f_byte; p_perm := f_perm |}.
  - intros s a x E. cbn. by rewrite E.
  - intros s a add rem x E. cbn. rewrite E. eauto.
  - intros s a w x E Hw _. cbn. rewrite E, decide_False by done. eauto.
Defined.

Definition two_words : list rel := [Rel 3221229576 16909060; Rel 3221229580 7].
Definition read_only : flat := Flat (λ _, 0) (λ _, Some 1).

Lemma relocations_restored_witness :
  let l := [] ++ two_words ++ [Rel 3221233672 9] in
  ∃ s', ApplyRelocationsToPage (RelTable (length l) (length l) l) 3221229568 read_only = Done (tt, s') ∧
    (∀ y, p_byte s' y = if decide (length (@nil rel) = 1%nat) then p_byte read_only y else restored (p_byte read_only) two_words y) ∧
    ∀ k, p_perm s' k = p_perm read_only k.
Proof.
  apply (relocations_restored read_only 3221229568 1 [] two_words [Rel 3221233672 9]).
  - unfold is_u32. lia.
  - reflexivity.
  - repeat constructor; unfold earlier; cbn; lia.
  - cbn. lia.
  - repeat constructor; cbn; lia.
  - discriminate.
  - constructor.
  - repeat constructor.
  - repeat constructor. intros E. vm_compute in E. discriminate.
Defined.

(** The word of an entry is there; and is not, after one entry of an earlier page. *)
Definition byte_after (l : list rel) (a : Z) : option Z :=
  match ApplyRelocationsToPage (RelTable (length l) (length l) l) 3221229568 read_only with
  | Done (_, s) => Some (f_byte s a)
  | _ => None
  end.
Example relocated : byte_after two_words 3221229576 = Some 4.
Proof. vm_compute. reflexivity. Qed.
Example not_relocated_after_one : byte_after (Rel 3221225480 9 :: two_words) 3221229576 = Some 0.
Proof. vm_compute. reflexivity. Qed.
