(* ===== verification/Elf.v ===== *)
(** * arch/x86/elf/elf.c: loading programs and drivers

    A file is mapped and read as a list of bytes; a pointer into it is an offset, and a
    read outside it is a fault. Its segments are mapped or copied to where it is
    loaded, the words that its relocations name are changed there, and what was
    written is kept in a relocation table ([Driver]). *)

From S2P Require Import Prelude Physical Transfer Tree SearchSort CString Vnode Strings Driver.

(** include/elf.h. *)
Definition SHN_UNDEF : Z := 0.
Definition SHN_ABS : Z := 65521.
Definition SHT_RELA : Z := 4.
Definition SHT_REL : Z := 9.
Definition STB_WEAK : Z := 2.
Definition R_386_32 : Z := 1.
Definition R_386_PC32 : Z := 2.
Definition R_386_RELATIVE : Z := 8.
Definition PHT_LOAD : Z := 1.
Definition PF_X : Z := 1.
Definition PF_W : Z := 2.
Definition PF_R : Z := 4.
Definition ELF32_ST_BIND (info : Z) : Z := Z.shiftr info 4.
Definition ELF32_R_SYM (info : Z) : Z := Z.shiftr info 8.
Definition ELF32_R_TYPE (info : Z) : Z := u8 info.
Definition DO_386_32 (s a : Z) : Z := u32 (s + a).
Definition DO_386_RELATIVE (b a : Z) : Z := u32 (b + a).
Definition DO_386_PC32 (s a p : Z) : Z := u32 (s + a - p).
Definition VM_FIXED_VIRT : Z := 64.

(** mem/virtual.c and the file system, as far as loading uses them beyond [Pages]. *)
Class ImagePages (P : Type) : Type := {
  MapVirt : Z → Z → Z → Z → Z → Z → M P Z;   (* physical, virtual, bytes, flags, file, position *)
  UnmapVirt : Z → Z → M P Z;
  write_bytes : Z → list Z → M P unit;        (* [memcpy] to an address *)
  load_word : Z → M P Z;
  file_image : Z → M P (list Z);              (* a whole file, mapped to be read *)
  release_image : Z → M P unit;
}.

(** ** Reading the image *)
Definition rd16 (img : list Z) (a : Z) : option Z :=
  b0 ← aget img a; b1 ← aget img (a + 1); Some (b0 + 256 * b1).
Definition rd32 (img : list Z) (a : Z) : option Z :=
  h0 ← rd16 img a; h1 ← rd16 img (a + 2); Some (h0 + 65536 * h1).
(** [n] bytes for [memcpy]. *)
Definition slice (img : list Z) (a n : Z) : option (list Z) :=
  if decide (0 ≤ a ∧ a + n ≤ length img) then Some (take (Z.to_nat n) (drop (Z.to_nat a) img)) else None.
(** The string at an offset: there is a zero after it. *)
Definition string_at (img : list Z) (a : Z) : option (list Z) :=
  if decide (0 ≤ a ∧ 0 ∈ drop (Z.to_nat a) img) then Some (until_zero (drop (Z.to_nat a) img)) else None.

Section elf.
Context {P : Type} {AL : Allocator} {PG : Pages P} {IP : ImagePages P}.
Implicit Types s : drivers P.

(** A field of 32 or 16 bits. *)
Definition field32 (img : list Z) (a : Z) : M (drivers P) Z := deref (rd32 img a).
Definition field16 (img : list Z) (a : Z) : M (drivers P) Z := deref (rd16 img a).

(** [struct Elf32_Ehdr] at the start of the image. *)
Definition e_entry (img : list Z) : M (drivers P) Z := field32 img 24.
Definition e_phoff (img : list Z) : M (drivers P) Z := field32 img 28.
Definition e_shoff (img : list Z) : M (drivers P) Z := field32 img 32.
Definition e_phnum (img : list Z) : M (drivers P) Z := field16 img 44.
Definition e_shnum (img : list Z) : M (drivers P) Z := field16 img 48.
Definition e_shstrndx (img : list Z) : M (drivers P) Z := field16 img 50.

(** The arrays of [struct Elf32_Phdr], 32 bytes each, and [struct Elf32_Shdr], 40. *)
Definition program_header (phoff : Z) (i : Z) : Z := u32 (phoff + 32 * i).
Definition section_header (shoff : Z) (i : Z) : Z := u32 (shoff + 40 * i).

Definition IsElfValid (img : list Z) : M (drivers P) bool :=
  m0 ← deref (aget img 0);
  if decide (m0 ≠ 127) then mret false else
  m1 ← deref (aget img 1);
  if decide (m1 ≠ 69) then mret false else
  m2 ← deref (aget img 2);
  if decide (m2 ≠ 76) then mret false else
  m3 ← deref (aget img 3);
  mret (bool_decide (m3 = 70)).

Fixpoint image_size_loop (img : list Z) (phoff : Z) (n : nat) (i total_size : Z) : M (drivers P) Z :=
  match n with
  | O => mret total_size
  | S n =>
    let ph := program_header phoff i in
    address ← field32 img (ph + 8);
    size ← field32 img (ph + 16);
    memsz ← field32 img (ph + 20);
    type ← field32 img ph;
    let top := u32 (address + size + u32 (memsz - size)) in
    image_size_loop img phoff n (i + 1) (if decide (type = PHT_LOAD ∧ total_size ≤ top) then top else total_size)
  end.
Definition ElfGetSizeOfImageIncludingBss (img : list Z) : M (drivers P) Z :=
  phoff ← e_phoff img;
  phnum ← e_phnum img;
  total_size ← image_size_loop img phoff (Z.to_nat phnum) 0 0;
  mret (Z.land (u32 (total_size + ARCH_PAGE_SIZE - 1)) (Z.lnot (ARCH_PAGE_SIZE - 1))).

(** [SetVirtPermissions] on [n] pages from [addr]. *)
Fixpoint set_pages (n : nat) (addr add remove : Z) : M P unit :=
  match n with
  | O => mret tt
  | S n => _ ← set_permissions addr add remove; set_pages n (u32 (addr + ARCH_PAGE_SIZE)) add remove
  end.

(** [PF_X], [PF_W] and [PF_R] as page flags. *)
Definition page_flags_of (flags : Z) (with_write : bool) : Z :=
  Z.lor (Z.lor (if decide (Z.land flags PF_X ≠ 0) then VM_EXEC else 0)
    (if with_write && bool_decide (Z.land flags PF_W ≠ 0) then VM_WRITE else 0))
    (if decide (Z.land flags PF_R ≠ 0) then VM_READ else 0).

(** A segment that is copied: of a program, or one that may be written. *)
Definition copy_segment (img : list Z) (addr offset size num_zero_bytes flags page_flags : Z) (driver : bool) : M (drivers P) Z :=
  let pages := u32 (size + num_zero_bytes + (ARCH_PAGE_SIZE - 1)) / ARCH_PAGE_SIZE in
  on_pages (set_pages (Z.to_nat pages) addr (Z.lor page_flags (if driver then 0 else VM_WRITE)) (Z.lor (Z.lor VM_READ VM_WRITE) VM_EXEC));;
  b ← deref (slice img offset size);
  on_pages (write_bytes addr b);;
  (if negb driver && bool_decide (Z.land flags PF_W = 0)
   then on_pages (set_pages (Z.to_nat pages) addr 0 VM_WRITE) else mret tt);;
  mret 0.

(** A segment of a driver that is only read: whole pages are mapped from the file, to
    be relocated whenever they are read, and the rest is copied. *)
Definition map_segment (img : list Z) (addr offset size page_flags relocation_point file : Z) : M (drivers P) Z :=
  let remainder := Z.land size (ARCH_PAGE_SIZE - 1) in
  let pages := (size - remainder) / ARCH_PAGE_SIZE in
  if decide (Z.land addr (ARCH_PAGE_SIZE - 1) ≠ 0) then mret EINVAL else
  v ← (if decide (0 < pages) then
         _ ← on_pages (UnmapVirt addr (pages * ARCH_PAGE_SIZE));
         on_pages (MapVirt relocation_point addr (pages * ARCH_PAGE_SIZE) (Z.lor (Z.lor VM_RELOCATABLE VM_FILE) page_flags) file offset)
       else mret addr);
  if decide (v ≠ addr) then mret ENOMEM else
  let rest := u32 (addr + pages * ARCH_PAGE_SIZE) in
  (if decide (0 < remainder) then
     _ ← on_pages (set_permissions rest (Z.lor page_flags VM_WRITE) (Z.lor VM_READ VM_EXEC));
     b ← deref (slice img (u32 (offset + pages * ARCH_PAGE_SIZE)) remainder);
     on_pages (write_bytes rest b);;
     _ ← on_pages (set_permissions rest 0 VM_WRITE);
     mret tt
   else mret tt);;
  mret 0.

Definition ElfLoadProgramHeader (img : list Z) (ph : Z) (driver : bool) (relocation_point file : Z) : M (drivers P) Z :=
  address ← field32 img (ph + 8);
  offset ← field32 img (ph + 4);
  size ← field32 img (ph + 16);
  flags ← field32 img (ph + 24);
  memsz ← field32 img (ph + 20);
  let addr := u32 (address + relocation_point) in
  let page_flags := page_flags_of flags true in
  if bool_decide (Z.land flags PF_W ≠ 0) || negb driver
  then copy_segment img addr offset size (u32 (memsz - size)) flags page_flags driver
  else map_segment img addr offset size page_flags relocation_point file.

(** The result of loading a segment is not looked at. *)
Fixpoint load_headers (img : list Z) (phoff : Z) (n : nat) (i relocation_point file : Z) (driver : bool) : M (drivers P) unit :=
  match n with
  | O => mret tt
  | S n =>
    type ← field32 img (program_header phoff i);
    (if decide (type = PHT_LOAD)
     then _ ← ElfLoadProgramHeader img (program_header phoff i) driver relocation_point file; mret tt else mret tt);;
    load_headers img phoff n (i + 1) relocation_point file driver
  end.
Definition ElfLoadProgramHeaders (img : list Z) (relocation_point file : Z) (driver : bool) : M (drivers P) Z :=
  phoff ← e_phoff img;
  phnum ← e_phnum img;
  load_headers img phoff (Z.to_nat phnum) 0 relocation_point file driver;;
  mret 0.

(** ** Symbols *)
(** A null pointer, without a string table, is a fault where it is used. *)
Definition ElfLookupString (img : list Z) (offset : Z) : M (drivers P) (list Z) :=
  ndx ← e_shstrndx img;
  if decide (ndx = SHN_UNDEF) then fault else
  shoff ← e_shoff img;
  table ← field32 img (section_header shoff ndx + 16);
  deref (string_at img (u32 (table + offset))).

(** The value, and [*error]. *)
Definition ElfGetSymbolValue (img : list Z) (table index relocation_point : Z) : M (drivers P) (Z * bool) :=
  if decide (table = SHN_UNDEF ∨ index = SHN_UNDEF) then mret (0, true) else
  shoff ← e_shoff img;
  let symbol_table := section_header shoff table in
  link ← field32 img (symbol_table + 24);
  let string_table := section_header shoff link in
  size ← field32 img (symbol_table + 20);
  entsize ← field32 img (symbol_table + 36);
  if decide (entsize = 0) then fault else
  if decide (size / entsize ≤ index) then mret (0, true) else
  symbols ← field32 img (symbol_table + 16);
  let symbol := u32 (symbols + 16 * index) in
  shndx ← field16 img (symbol + 14);
  if decide (shndx = SHN_UNDEF) then
    strings ← field32 img (string_table + 16);
    st_name ← field32 img symbol;
    name ← deref (string_at img (u32 (strings + st_name)));
    target ← GetSymbolAddress name;
    if decide (target = 0) then
      info ← deref (aget img (symbol + 12));
      mret (0, bool_decide (Z.land (ELF32_ST_BIND info) STB_WEAK = 0))
    else mret (target, false)
  else
    value ← field32 img (symbol + 4);
    if decide (shndx = SHN_ABS) then mret (value, false)
    else mret (u32 (value + relocation_point), false).

(** ** Relocations *)
(** The new value of a word, and whether the type is known. *)
Definition relocated_value (type symbol_value word addr relocation_point : Z) : Z * bool :=
  if decide (type = R_386_32) then (DO_386_32 symbol_value word, true)
  else if decide (type = R_386_PC32) then (DO_386_PC32 symbol_value word addr, true)
  else if decide (type = R_386_RELATIVE) then (DO_386_RELATIVE relocation_point word, true)
  else (0, false).

(** The change of the word at [addr], which is made writable for it. *)
Definition relocate_word (type symbol_value addr relocation_point : Z) : M P (Z * bool) :=
  low ← get_permissions addr;
  high ← get_permissions (u32 (addr + 3));
  let needs_write_low := bool_decide (Z.land low VM_WRITE = 0) in
  let needs_write_high := bool_decide (Z.land high VM_WRITE = 0) in
  add_write needs_write_low addr;;
  add_write needs_write_high (u32 (addr + 3));;
  word ← load_word addr;
  let v := relocated_value type symbol_value word addr relocation_point in
  store_word addr v.1;;
  mret v.
Definition protect_word (low high addr : Z) : M P unit :=
  remove_write (bool_decide (Z.land low VM_WRITE = 0)) addr;;
  remove_write (bool_decide (Z.land high VM_WRITE = 0)) (u32 (addr + 3)).

(** [table] is NULL for a program. *)
Definition ElfPerformRelocation (img : list Z) (relocation_point section rel table : Z) : M (drivers P) bool :=
  r_offset ← field32 img rel;
  r_info ← field32 img (rel + 4);
  let addr := u32 (relocation_point + r_offset) in
  '(symbol_value, error) ←
    (if decide (ELF32_R_SYM r_info ≠ SHN_UNDEF) then
       link ← field32 img (section + 24);
       ElfGetSymbolValue img link (ELF32_R_SYM r_info) relocation_point
     else mret (0, false));
  if (error : bool) then mret false else
  low ← on_pages (get_permissions addr);
  high ← on_pages (get_permissions (u32 (addr + 3)));
  '(val, success) ← on_pages (relocate_word (ELF32_R_TYPE r_info) symbol_value addr relocation_point);
  (if decide (table ≠ NULL) then AddToRelocationTable table addr val else mret tt);;
  on_pages (protect_word low high addr);;
  mret success.

(** The entries of one section, 8 bytes each. *)
Fixpoint relocation_entries (img : list Z) (relocation_point section rels : Z) (n : nat) (index table : Z) : M (drivers P) bool :=
  match n with
  | O => mret true
  | S n =>
    success ← ElfPerformRelocation img relocation_point section (u32 (rels + 8 * index)) table;
    if (success : bool) then relocation_entries img relocation_point section rels n (index + 1) table else mret false
  end.

(** ".rel.dyn". *)
Definition rel_dyn : list Z := [46; 114; 101; 108; 46; 100; 121; 110].

(** One section: the result, and [*table] from then on. [want_table] is false for a
    program. *)
Definition relocation_section (img : list Z) (relocation_point section : Z) (want_table : bool) (table : Z) : M (drivers P) (bool * Z) :=
  type ← field32 img (section + 4);
  if decide (type = SHT_REL) then
    rels ← field32 img (section + 16);
    size ← field32 img (section + 20);
    entsize ← field32 img (section + 36);
    if decide (entsize = 0) then fault else
    let count := i32 (size / entsize) in
    sh_name ← field32 img section;
    name ← ElfLookupString img sh_name;
    if decide (strcmp name rel_dyn ≠ 0) then mret (true, table) else
    table ← (if want_table then CreateRelocationTable count else mret NULL);
    success ← relocation_entries img relocation_point section rels (Z.to_nat count) 0 table;
    if (success : bool) then
      (if want_table then SortRelocationTable table else mret tt);;
      mret (true, table)
    else mret (false, table)
  else mret (bool_decide (type ≠ SHT_RELA), table).

Fixpoint relocation_sections (img : list Z) (relocation_point shoff : Z) (want_table : bool) (n : nat) (i table : Z) : M (drivers P) (bool * Z) :=
  match n with
  | O => mret (true, table)
  | S n =>
    '(success, table) ← relocation_section img relocation_point (section_header shoff i) want_table table;
    if (success : bool) then relocation_sections img relocation_point shoff want_table n (i + 1) table else mret (false, table)
  end.
Definition ElfPerformRelocations (img : list Z) (relocation_point : Z) (want_table : bool) : M (drivers P) (bool * Z) :=
  shoff ← e_shoff img;
  shnum ← e_shnum img;
  relocation_sections img relocation_point shoff want_table (Z.to_nat shnum) 0 NULL.

(** ** Loading *)
(** The result, where it is loaded, and the relocation table of a driver. *)
Definition ElfLoad (img : list Z) (load_point file : Z) (driver : bool) : M (drivers P) (Z * Z * Z) :=
  valid ← IsElfValid img;
  if negb (valid : bool) then mret (EINVAL, load_point, NULL) else
  shnum ← e_shnum img;
  phnum ← e_phnum img;
  if decide (shnum = 0 ∨ phnum = 0) then mret (EINVAL, load_point, NULL) else
  size ← ElfGetSizeOfImageIncludingBss img;
  point ← on_pages (MapVirt 0 load_point size
    (Z.lor VM_READ (if driver then 0 else Z.lor (Z.lor VM_LOCAL VM_USER) VM_FIXED_VIRT)) NULL 0);
  _ ← ElfLoadProgramHeaders img point file driver;
  '(success, table) ← ElfPerformRelocations img point driver;
  mret (if (success : bool) then 0 else EINVAL, point, table).

(** ".lockedtext" and ".lockeddata". *)
Definition lockedtext : list Z := [46; 108; 111; 99; 107; 101; 100; 116; 101; 120; 116].
Definition lockeddata : list Z := [46; 108; 111; 99; 107; 101; 100; 100; 97; 116; 97].

Fixpoint lock_pages (n : nat) (addr : Z) : M P unit :=
  match n with O => mret tt | S n => _ ← lock_virt addr; lock_pages n (u32 (addr + ARCH_PAGE_SIZE)) end.
Fixpoint lock_sections (img : list Z) (shoff : Z) (n : nat) (i relocation_point : Z) : M (drivers P) unit :=
  match n with
  | O => mret tt
  | S n =>
    let sh := section_header shoff i in
    sh_name ← field32 img sh;
    name ← ElfLookupString img sh_name;
    (if decide (strcmp name lockedtext = 0 ∨ strcmp name lockeddata = 0) then
       sh_addr ← field32 img (sh + 12);
       sh_size ← field32 img (sh + 20);
       on_pages (lock_pages (Z.to_nat (u32 (sh_size + ARCH_PAGE_SIZE - 1) / ARCH_PAGE_SIZE))
         (Z.land (u32 (sh_addr + relocation_point)) (Z.lnot (ARCH_PAGE_SIZE - 1))))
     else mret tt);;
    lock_sections img shoff n (i + 1) relocation_point
  end.

(** The result, the relocation point, the table and the entry point, which only a
    program asks for. *)
Definition ArchLoadDriver (file relocation_point : Z) (driver : bool) : M (drivers P) (Z * Z * Z * Z) :=
  img ← on_pages (file_image file);
  entry ← (if driver then mret 0 else e ← e_entry img; mret (u32 (e + relocation_point)));
  '(res, point, table) ← ElfLoad img relocation_point file driver;
  if decide (res ≠ 0) then mret (res, point, table, entry) else
  (if driver then
     shoff ← e_shoff img;
     shnum ← e_shnum img;
     lock_sections img shoff (Z.to_nat shnum) 0 point
   else mret tt);;
  on_pages (release_image file);;
  mret (res, point, table, entry).

(** ** Exported symbols *)
(** Offsets and lengths of the tables, zero until they are found. *)
Record tables := Tables { symtab_off : Z; symtab_len : Z; strtab_off : Z; strtab_len : Z }.
Definition symtab_name : list Z := [46; 115; 121; 109; 116; 97; 98].
Definition strtab_name : list Z := [46; 115; 116; 114; 116; 97; 98].

Fixpoint find_tables (img : list Z) (shoff shstrndx : Z) (n : nat) (i : Z) (t : tables) : M (drivers P) tables :=
  match n with
  | O => mret t
  | S n =>
    let sh := section_header shoff i in
    file_offset ← field32 img (sh + 16);
    names ← field32 img (section_header shoff shstrndx + 16);
    sh_name ← field32 img sh;
    name ← deref (string_at img (u32 (names + sh_name)));
    sh_size ← field32 img (sh + 20);
    find_tables img shoff shstrndx n (i + 1)
      (if decide (strcmp name symtab_name = 0) then Tables file_offset sh_size (strtab_off t) (strtab_len t)
       else if decide (strcmp name strtab_name = 0) then Tables (symtab_off t) (symtab_len t) file_offset sh_size
       else t)
  end.

(** Symbols that are hidden or internal, or have no value, are skipped. *)
Fixpoint add_symbols_of (img : list Z) (t : tables) (adjust : Z) (n : nat) (i : Z) : M (drivers P) unit :=
  match n with
  | O => mret tt
  | S n =>
    let symbol := u32 (symtab_off t + 16 * i) in
    st_value ← field32 img (symbol + 4);
    st_other ← deref (aget img (symbol + 13));
    (if decide (st_value = 0) then mret tt
     else if decide (Z.land st_other 3 ≠ 0) then mret tt
     else
       st_name ← field32 img symbol;
       name ← deref (string_at img (u32 (strtab_off t + st_name)));
       AddSymbol name (u32 (st_value + adjust)));;
    add_symbols_of img t adjust n (i + 1)
  end.

Definition ArchLoadSymbols (file adjust : Z) : M (drivers P) unit :=
  img ← on_pages (file_image file);
  valid ← IsElfValid img;
  if negb (valid : bool) then panic PANIC_BAD_KERNEL else
  shoff ← e_shoff img;
  if decide (shoff = 0) then panic PANIC_BAD_KERNEL else
  shnum ← e_shnum img;
  shstrndx ← e_shstrndx img;
  t ← find_tables img shoff shstrndx (Z.to_nat shnum) 0 (Tables 0 0 0 0);
  if decide (symtab_off t = 0 ∨ strtab_off t = 0 ∨ symtab_len t = 0 ∨ strtab_len t = 0) then panic PANIC_BAD_KERNEL else
  add_symbols_of img t adjust (Z.to_nat (symtab_len t / 16)) 0;;
  on_pages (release_image file).

(** ** The program loader, an image in memory already *)
Fixpoint load_loader (img : list Z) (phoff : Z) (n : nat) (i : Z) : M (drivers P) Z :=
  match n with
  | O => mret 0
  | S n =>
    let ph := program_header phoff i in
    address ← field32 img (ph + 8);
    offset ← field32 img (ph + 4);
    size ← field32 img (ph + 16);
    type ← field32 img ph;
    flags ← field32 img (ph + 24);
    memsz ← field32 img (ph + 20);
    if decide (type = PHT_LOAD) then
      addr ← on_pages (MapVirt 0 address (u32 (size + u32 (memsz - size)))
        (Z.lor (Z.lor (Z.lor (Z.lor VM_FIXED_VIRT VM_LOCAL) VM_WRITE) VM_USER) (page_flags_of flags false)) NULL 0);
      if decide (addr ≠ address) then mret ENOMEM else
      b ← deref (slice img offset size);
      on_pages (write_bytes address b);;
      (if decide (Z.land flags PF_W = 0) then _ ← on_pages (set_permissions address 0 VM_WRITE); mret tt else mret tt);;
      load_loader img phoff n (i + 1)
    else load_loader img phoff n (i + 1)
  end.
(** The result, and the entry point when it is 0. *)
Definition ArchLoadProgramLoader (img : list Z) : M (drivers P) (Z * option Z) :=
  phoff ← e_phoff img;
  phnum ← e_phnum img;
  res ← load_loader img phoff (Z.to_nat phnum) 0;
  if decide (res ≠ 0) then mret (res, None) else
  entry ← e_entry img;
  mret (0, Some entry).

(** What [Driver] asks of loading: a driver is placed anywhere, and its entry point is
    not asked for. *)
Definition elf_loader (open : cstring → M (drivers P) (Z * Z)) (close : Z → M (drivers P) unit) : Loader P := {|
  Driver.open_driver := open;
  Driver.ArchLoadDriver f := '(res, point, table, _) ← ArchLoadDriver f 0 true; mret (res, point, table);
  Driver.ArchLoadSymbols := ArchLoadSymbols;
  Driver.close_driver := close;
|}.
End elf.
