(* ===== verification/ElfTheorems.v ===== *)
(** * A page of a driver that is read again is as the driver was loaded *)

From Stdlib Require Import Sorted.
From S2P Require Import Prelude Physical Transfer Tree SearchSort CString Vnode Strings Driver DriverTheorems Elf.

Definition word_at (m : Z → Z) (a : Z) : Z := m a + 256 * m (a + 1) + 65536 * m (a + 2) + 16777216 * m (a + 3).

(** What loading asks of the pages besides [PagesLaws]: a word is read from a page that
    is there, and the pages of a new relocation table are others than those. *)
Class ImageLaws (P : Type) {PG : Pages P} {IP : ImagePages P} {PL : PagesLaws P} : Prop := {
  im_load s a x : p_perm s (page_of a) = Some x → page_of (a + 3) = page_of a → load_word a s = Done (word_at (p_byte s) a, s);
  im_map s n : ∃ s', map_entries n s = Done (tt, s') ∧
    (∀ y, is_Some (p_perm s (page_of y)) → p_byte s' y = p_byte s y) ∧
    ∀ k, is_Some (p_perm s k) → p_perm s' k = p_perm s k;
}.

(** ** Symbols *)
Section symbol.
Context (img : list Z) (m : gmap cstring Z) (relocation_point : Z).

(** The value of a symbol, from the file and the kernel's symbols [m]; [None] when
    there is no such symbol or the file is not well formed. *)
Definition symbol_value (table index : Z) : option Z :=
  if decide (table = SHN_UNDEF ∨ index = SHN_UNDEF) then None else
  shoff ← rd32 img 32;
  link ← rd32 img (section_header shoff table + 24);
  size ← rd32 img (section_header shoff table + 20);
  entsize ← rd32 img (section_header shoff table + 36);
  if decide (entsize = 0 ∨ size / entsize ≤ index) then None else
  symbols ← rd32 img (section_header shoff table + 16);
  let symbol := u32 (symbols + 16 * index) in
  shndx ← rd16 img (symbol + 14);
  if decide (shndx = SHN_UNDEF) then
    strings ← rd32 img (section_header shoff link + 16);
    st_name ← rd32 img symbol;
    name ← string_at img (u32 (strings + st_name));
    let target := default 0 (m !! name) in
    info ← (if decide (target = 0) then aget img (symbol + 12) else Some 0);
    if decide (target = 0 ∧ Z.land (ELF32_ST_BIND info) STB_WEAK = 0) then None else Some target
  else
    value ← rd32 img (symbol + 4);
    Some (if decide (shndx = SHN_ABS) then value else u32 (value + relocation_point)).

(** A relocation: the address of its word, its type and the value of its symbol. *)
Record relocation := Relocation { rc_addr : Z; rc_type : Z; rc_symbol : Z }.
Definition known_type (t : Z) : Prop := t = R_386_32 ∨ t = R_386_PC32 ∨ t = R_386_RELATIVE.

Definition relocation_at (section rel : Z) : option relocation :=
  r_offset ← rd32 img rel;
  r_info ← rd32 img (rel + 4);
  sym ← (if decide (ELF32_R_SYM r_info ≠ SHN_UNDEF) then
           link ← rd32 img (section + 24); symbol_value link (ELF32_R_SYM r_info)
         else Some 0);
  if decide (ELF32_R_TYPE r_info = R_386_32 ∨ ELF32_R_TYPE r_info = R_386_PC32 ∨ ELF32_R_TYPE r_info = R_386_RELATIVE)
  then Some (Relocation (u32 (relocation_point + r_offset)) (ELF32_R_TYPE r_info) sym) else None.

(** The entry of the table for it: the word before is in memory [b]. *)
Definition entry_of (b : Z → Z) (r : relocation) : rel :=
  Rel (rc_addr r) (relocated_value (rc_type r) (rc_symbol r) (word_at b (rc_addr r)) (rc_addr r) relocation_point).1.
End symbol.

Section elf_proofs.
Context {P : Type} {AL : Allocator} {PG : Pages P} {IP : ImagePages P} {PL : PagesLaws P} {IL : ImageLaws P}.
Implicit Types (s : drivers P) (m : gmap cstring Z).

(** Reading symbols leaves memory and the tables alone. *)
Definition same_tables (s s' : drivers P) : Prop := pages s' = pages s ∧ rel_tables s' = rel_tables s.

Lemma string_at_zero img a k : string_at img a = Some k → 0 ∉ k.
Proof.
  unfold string_at. case_decide; [|done]. intros [= <-]. generalize (drop (Z.to_nat a) img). intros l.
  induction l as [|c l IH]; cbn [until_zero]; [apply not_elem_of_nil|]. case_decide; [apply not_elem_of_nil|].
  apply not_elem_of_cons. split; [congruence|done].
Qed.

(** Take the next read of the specification, and make it in the code. *)
#[local] Tactic Notation "take_read" ident(E) ident(v) :=
  match goal with H : (?o ≫= _) = Some _ |- _ => destruct o as [v|] eqn:E; [|done]; cbn [mbind option_bind] in H end.

Lemma ElfGetSymbolValue_run img m point table index v s :
  symbols_are s m → symbol_value img m point table index = Some v →
  ∃ s', ElfGetSymbolValue img table index point s = Done ((v, false), s') ∧ symbols_are s' m ∧ same_tables s s'.
Proof.
  intros Hs Hv. unfold symbol_value, ElfGetSymbolValue, e_shoff, field32, field16 in *. case_decide; [done|].
  take_read E1 shoff. take_read E2 link. take_read E3 sz. take_read E4 entsize. case_decide as Hsz; [done|].
  take_read E5 symbols. take_read E6 shndx. mred. rewrite ?E1. mred. rewrite ?E2. mred. rewrite ?E3. mred. rewrite ?E4. mred.
  rewrite !decide_False by (intros ?; apply Hsz; tauto). rewrite ?E5. mred. rewrite ?E6. mred. destruct (decide (shndx = SHN_UNDEF)).
  - take_read E7 strings. take_read E8 st_name. take_read E9 name. mred. rewrite ?E7. mred. rewrite ?E8. mred. rewrite ?E9. mred.
    destruct (GetSymbolAddress_run s m name Hs (string_at_zero _ _ _ E9)) as (s' & E & Hs' & Hp & Ht). rewrite E. mred.
    exists s'. destruct (decide (default 0 (m !! name) = 0)) as [E0|E0].
    + take_read E10 info. rewrite decide_True by done. mred. rewrite ?E10. mred. case_decide as Hw; [done|]. injection Hv as <-. rewrite bool_decide_eq_false_2 by tauto. rewrite E0. by split_and!.
    + cbn in Hv. rewrite decide_False in Hv by tauto. injection Hv as <-. rewrite decide_False by done. by split_and!.
  - take_read E7 value. injection Hv as <-. rewrite ?E7. mred. exists s. destruct (decide (shndx = SHN_ABS)); by split_and!.
Qed.

(** ** One word *)
Lemma set_twice x : Z.lor (Z.land (Z.lor (Z.land x (Z.lnot 0)) VM_WRITE) (Z.lnot 0)) VM_WRITE = Z.lor (Z.land x (Z.lnot 0)) VM_WRITE.
Proof. rewrite !Z.land_m1_r. by rewrite <- Z.lor_assoc, Z.lor_diag. Qed.
Lemma clear_clear x : Z.land x VM_WRITE = 0 → Z.lor (Z.land x (Z.lnot VM_WRITE)) 0 = x.
Proof.
  intros Hx. rewrite Z.lor_0_r. apply Z.bits_inj'. intros n Hn. rewrite Z.land_spec, Z.lnot_spec by done.
  apply (f_equal (λ z, Z.testbit z n)) in Hx. rewrite Z.land_spec, Z.bits_0 in Hx. destruct (Z.testbit x n); [|done]. cbn in *. by rewrite Hx.
Qed.

Definition perm_with (f : Z → option Z) (k x : Z) : Z → option Z := λ j, if decide (j = k) then Some x else f j.

Lemma add_write_run (q : P) a (b : bool) x : p_perm q (page_of a) = Some x →
  ∃ q', add_write b a q = Done (tt, q') ∧ (∀ y, p_byte q' y = p_byte q y) ∧
    ∀ k, p_perm q' k = perm_with (p_perm q) (page_of a) (if b then Z.lor (Z.land x (Z.lnot 0)) VM_WRITE else x) k.
Proof.
  intros Hx. unfold add_write, perm_with. destruct b.
  - destruct (p_set q a VM_WRITE 0 x Hx) as (r & q' & E & Hb & Hq). exists q'. rewrite (M_bind_done _ _ _ _ _ E). by split_and!.
  - exists q. split; [done|]. split; [done|]. intros k. by case_decide; subst.
Qed.
Lemma remove_write_run (q : P) a (b : bool) x : p_perm q (page_of a) = Some x →
  ∃ q', remove_write b a q = Done (tt, q') ∧ (∀ y, p_byte q' y = p_byte q y) ∧
    ∀ k, p_perm q' k = perm_with (p_perm q) (page_of a) (if b then Z.lor (Z.land x (Z.lnot VM_WRITE)) 0 else x) k.
Proof.
  intros Hx. unfold remove_write, perm_with. destruct b.
  - destruct (p_set q a 0 VM_WRITE x Hx) as (r & q' & E & Hb & Hq). exists q'. rewrite (M_bind_done _ _ _ _ _ E). by split_and!.
  - exists q. split; [done|]. split; [done|]. intros k. by case_decide; subst.
Qed.

Lemma relocated_value_known t sym w a point : known_type t → (relocated_value t sym w a point).2 = true.
Proof. unfold relocated_value. intros [->|[->| ->]]; done. Qed.

(** A word that does not reach the next page. *)
Definition own_page (a : Z) : Prop := page_of (a + 5) = page_of a ∧ 2 ^ 20 + 3 ≤ a < 2 ^ 32 - 5.

Lemma own_page_3 a : own_page a → page_of (a + 3) = page_of a ∧ u32 (a + 3) = a + 3.
Proof.
  intros [Hp Ha]. split; [|by apply u32_small; unfold is_u32; lia].
  apply (page_between a (a + 3) (a + 5)); [lia|done].
Qed.

Lemma relocate_word_run (q : P) t sym a point x :
  p_perm q (page_of a) = Some x → own_page a → known_type t →
  let v := (relocated_value t sym (word_at (p_byte q) a) a point).1 in
  ∃ q1 q2, relocate_word t sym a point q = Done ((v, true), q1) ∧ protect_word x x a q1 = Done (tt, q2) ∧
    (∀ y, p_byte q2 y = store (p_byte q) (Rel a v) y) ∧ ∀ k, p_perm q2 k = p_perm q k.
Proof.
  intros Hx Ha Ht v. destruct (own_page_3 a Ha) as [Hp3 Eu3]. unfold relocate_word, protect_word. rewrite Eu3.
  assert (p_perm q (page_of (a + 3)) = Some x) as Hx3 by by rewrite Hp3.
  rewrite (M_bind_done _ _ _ _ _ (p_get q a x Hx)), (M_bind_done _ _ _ _ _ (p_get q (a + 3) x Hx3)). set (b := bool_decide _).
  destruct (add_write_run q a b x Hx) as (qa & Ea & Hba & Hqa). rewrite (M_bind_done _ _ _ _ _ Ea).
  set (w := if b then Z.lor (Z.land x (Z.lnot 0)) VM_WRITE else x) in *.
  assert (∀ f : Z → option Z, f (page_of a) = Some w → ∀ k, perm_with f (page_of a) w k = f k) as Hidem.
  { intros f Hf k. unfold perm_with. by case_decide; subst. }
  assert (p_perm qa (page_of a) = Some w) as Hwa by (rewrite Hqa; unfold perm_with; by rewrite decide_True).
  destruct (add_write_run qa (a + 3) b w) as (qb & Eb & Hbb & Hqb); [by rewrite Hp3|]. rewrite (M_bind_done _ _ _ _ _ Eb).
  assert ((if b then Z.lor (Z.land w (Z.lnot 0)) VM_WRITE else w) = w) as Ew by (unfold w; destruct b; [apply set_twice|done]).
  assert (∀ k, p_perm qb k = p_perm qa k) as Hqb' by (intros k; rewrite Hqb, Ew, Hp3; by apply Hidem).
  assert (Z.land w VM_WRITE ≠ 0) as Hww.
  { unfold w, b. case_bool_decide as Hz; [apply write_bit_set|done]. }
  assert (p_perm qb (page_of a) = Some w) as Hwb by by rewrite Hqb'.
  rewrite (M_bind_done _ _ _ _ _ (im_load qb a w Hwb Hp3)). cbv zeta.
  assert (word_at (p_byte qb) a = word_at (p_byte q) a) as -> by (unfold word_at; by rewrite !Hbb, !Hba).
  fold v. destruct (p_store qb a v w Hwb Hww Hp3) as (qc & Ec & Hbc & Hqc). rewrite (M_bind_done _ _ _ _ _ Ec).
  assert (p_perm qc (page_of a) = Some w) as Hwc by by rewrite Hqc.
  destruct (remove_write_run qc a b w Hwc) as (qd & Ed & Hbd & Hqd).
  set (u := if b then Z.lor (Z.land w (Z.lnot VM_WRITE)) 0 else w) in *.
  assert (u = x) as Eu. { unfold u, w, b. case_bool_decide; [by apply write_bit_restored|done]. }
  assert (p_perm qd (page_of (a + 3)) = Some x) as Hwd by (rewrite Hp3, Hqd, Eu; unfold perm_with; by rewrite decide_True).
  destruct (remove_write_run qd (a + 3) b x Hwd) as (qe & Ee & Hbe & Hqe).
  exists qc, qe. split; [|split; [by rewrite (M_bind_done _ _ _ _ _ Ed)|split]].
  - unfold mret, M_mret. do 2 f_equal. unfold v. rewrite <- (relocated_value_known t sym (word_at (p_byte q) a) a point Ht). by destruct (relocated_value _ _ _ _ _).
  - intros y. rewrite Hbe, Hbd, Hbc. unfold store. by rewrite Hbb, Hba.
  - intros k. rewrite Hqe. unfold perm_with. rewrite Hp3. case_decide as Hk; [subst k|].
    + rewrite Hx. unfold b. case_bool_decide; [by rewrite clear_clear|done].
    + rewrite Hqd. unfold perm_with. rewrite decide_False by done. rewrite Hqc, Hqb', Hqa. unfold perm_with. by rewrite decide_False.
Qed.

(** ** Words that do not overlap *)
Definition separate (l : list Z) : Prop := NoDup l ∧ ∀ a b, a ∈ l → b ∈ l → a ≠ b → a + 4 ≤ b ∨ b + 4 ≤ a.
Definition covers (e : rel) (y : Z) : Prop := r_address e ≤ y < r_address e + 4.

Lemma separate_perm l l' : l ≡ₚ l' → separate l → separate l'.
Proof. intros Hp [Hn H]. split; [by rewrite <- Hp|]. intros a b. rewrite <- Hp. apply H. Qed.
Lemma separate_cons a l : separate (a :: l) → (a ∉ l) ∧ separate l ∧ Forall (λ b, a + 4 ≤ b ∨ b + 4 ≤ a) l.
Proof.
  intros [Hn H]. apply NoDup_cons in Hn as [Ha Hn]. split; [done|]. split.
  - split; [done|]. intros b c Hb Hc. apply H; by right.
  - apply Forall_forall. intros b Hb. apply H; [by left|by right|by intros ->].
Qed.

Lemma restored_other es : ∀ mem y, Forall (λ e, ¬ covers e y) es → restored mem es y = mem y.
Proof.
  induction es as [|e es IH]; intros mem y H; [done|]. apply Forall_cons in H as [He H]. cbn. rewrite IH by done.
  unfold store. by rewrite decide_False.
Qed.
Lemma restored_covered es : ∀ mem e y, separate (r_address <$> es) → e ∈ es → covers e y →
  restored mem es y = word_byte (r_value e) (y - r_address e).
Proof.
  induction es as [|e0 es IH]; intros mem e y Hs He Hy; [by apply elem_of_nil in He|]. cbn [fmap list_fmap] in Hs.
  apply separate_cons in Hs as (Hn & Hs & Hf). apply elem_of_cons in He as [->|He]; cbn; [|by apply IH].
  rewrite restored_other; [unfold store; by rewrite decide_True|]. apply Forall_forall. intros e1 He1 Hc. unfold covers in *.
  rewrite Forall_forall in Hf. destruct (Hf (r_address e1)) as [?|?]; [apply list_elem_of_fmap; by exists e1|lia|lia].
Qed.
Lemma covered_dec es y : (∃ e, e ∈ es ∧ covers e y) ∨ Forall (λ e, ¬ covers e y) es.
Proof.
  induction es as [|e es [(e1 & H & Hc)|H]]; [by right|left; exists e1; split; [by right|done]|].
  destruct (decide (r_address e ≤ y < r_address e + 4)); [left; exists e; by split; [left|]|by right; constructor].
Qed.

(** A page shows the entries of the page only. *)
Lemma restored_page es p (mem mem' : Z → Z) y :
  separate (r_address <$> es) → separate (r_address <$> p) → (∀ e, e ∈ p ↔ e ∈ es ∧ page_of (r_address e) = page_of y) →
  Forall (λ e, own_page (r_address e)) es → mem' y = mem y → restored mem' p y = restored mem es y.
Proof.
  intros Hs Hsp Hp Ho Hy. destruct (covered_dec es y) as [(e & He & Hc)|Hn].
  - rewrite (restored_covered es mem e y Hs He Hc). apply restored_covered; [done| |done]. apply Hp. split; [done|].
    rewrite Forall_forall in Ho. destruct (Ho e He) as [Hpg _]. symmetry. apply (page_between _ y (r_address e + 5)); [unfold covers in Hc; lia|done].
  - rewrite !restored_other; [done|done|]. rewrite Forall_forall in Hn |- *. intros e He. apply Hn. by apply Hp.
Qed.

Lemma word_at_restored es mem a :
  Forall (λ e, r_address e + 4 ≤ a ∨ a + 4 ≤ r_address e) es → word_at (restored mem es) a = word_at mem a.
Proof.
  intros H. unfold word_at. rewrite !restored_other; [done|..]; (eapply Forall_impl; [exact H|]); unfold covers; cbn; intros e He; lia.
Qed.

(** ** The relocations of a section *)
(** The state after the entries [ds], of [n], where memory was [b0]. *)
Record running (s : drivers P) m (t : Z) (n : nat) (b0 : Z → Z) (perm0 : Z → option Z) (ds : list rel) : Prop := {
  ru_symbols : symbols_are s m;
  ru_table : rel_tables s !! t = Some (RelTable n (length ds) (ds ++ replicate (n - length ds) (Rel 0 0)));
  ru_bytes y : p_byte (pages s) y = restored b0 ds y;
  ru_perms k : p_perm (pages s) k = perm0 k;
}.

Lemma on_pages_run {A} (mm : M P A) s a q : mm (pages s) = Done (a, q) → on_pages mm s = Done (a, with_pages q s).
Proof. intros E. unfold on_pages. by rewrite E. Qed.

Lemma field32_run img a v s : rd32 img a = Some v → field32 img a s = Done (v, s).
Proof. intros E. unfold field32. by rewrite E. Qed.

Lemma relocation_symbol_run img m point section rel r s :
  symbols_are s m → relocation_at img m point section rel = Some r →
  ∃ off info s', rd32 img rel = Some off ∧ rd32 img (rel + 4) = Some info ∧ rc_addr r = u32 (point + off) ∧ rc_type r = ELF32_R_TYPE info ∧
    known_type (rc_type r) ∧ symbols_are s' m ∧ same_tables s s' ∧
    (if decide (ELF32_R_SYM info ≠ SHN_UNDEF) then link ← field32 img (section + 24); ElfGetSymbolValue img link (ELF32_R_SYM info) point
     else mret (0, false)) s = Done ((rc_symbol r, false), s').
Proof.
  intros Hs Hr. unfold relocation_at in Hr. destruct (rd32 img rel) as [off|] eqn:E1; [|done]. cbn in Hr.
  destruct (rd32 img (rel + 4)) as [info|] eqn:E2; [|done]. cbn in Hr. exists off, info.
  destruct (decide (ELF32_R_SYM info ≠ SHN_UNDEF)) as [Hsym|Hsym].
  - destruct (rd32 img (section + 24)) as [link|] eqn:E3; [|done]. cbn in Hr.
    destruct (symbol_value img m point link (ELF32_R_SYM info)) as [v|] eqn:E4; [|done]. cbn in Hr. case_decide as Hk; [|done]. injection Hr as <-.
    destruct (ElfGetSymbolValue_run img m point link _ v s Hs E4) as (s' & E & Hs' & Hsame). exists s'. split_and!; try done.
    unfold field32. rewrite E3. done.
  - cbn in Hr. case_decide as Hk; [|done]. injection Hr as <-. exists s. by split_and!.
Qed.

Lemma ElfPerformRelocation_run img m point section rel r s t n b0 perm0 ds :
  running s m t n b0 perm0 ds → t ≠ NULL → (length ds < n)%nat → relocation_at img m point section rel = Some r →
  own_page (rc_addr r) → is_Some (perm0 (page_of (rc_addr r))) →
  Forall (λ e, r_address e + 4 ≤ rc_addr r ∨ rc_addr r + 4 ≤ r_address e) ds →
  ∃ s', ElfPerformRelocation img point section rel t s = Done (true, s') ∧ running s' m t n b0 perm0 (ds ++ [entry_of point b0 r]).
Proof.
  intros [Hs Ht Hb Hq] Htn Hn Hr Ho [x Hx] Hsep.
  destruct (relocation_symbol_run img m point section rel r s Hs Hr) as (off & info & s1 & E1 & E2 & Ea & Ety & Hk & Hs1 & [Hp1 Ht1] & E3).
  unfold ElfPerformRelocation.
  rewrite (M_bind_done _ _ _ _ _ (field32_run img rel off s E1)), (M_bind_done _ _ _ _ _ (field32_run img (rel + 4) info s E2)).
  rewrite <- Ea. cbv zeta. rewrite (M_bind_done _ _ _ _ _ E3).
  assert (p_perm (pages s1) (page_of (rc_addr r)) = Some x) as Hx1 by (by rewrite Hp1, Hq).
  destruct (own_page_3 _ Ho) as [Hp3 Eu3]. rewrite Eu3.
  assert (p_perm (pages s1) (page_of (rc_addr r + 3)) = Some x) as Hx3 by (by rewrite Hp3). cbv beta iota.
  rewrite (M_bind_done _ _ _ _ _ (on_pages_run (get_permissions (rc_addr r)) s1 x (pages s1) (p_get _ _ _ Hx1))).
  set (s2 := with_pages (pages s1) s1).
  rewrite (M_bind_done _ _ _ _ _ (on_pages_run (get_permissions (rc_addr r + 3)) s2 x (pages s1) (p_get (pages s1) _ _ Hx3))).
  set (s3 := with_pages (pages s1) s2). rewrite <- Ety.
  destruct (relocate_word_run (pages s1) (rc_type r) (rc_symbol r) (rc_addr r) point x Hx1 Ho Hk) as (q1 & q2 & Er & Epr & Hbq & Hqq).
  rewrite (M_bind_done _ _ _ _ _ (on_pages_run _ s3 _ q1 Er)). cbv beta iota. rewrite decide_True by done.
  assert (word_at (p_byte (pages s1)) (rc_addr r) = word_at b0 (rc_addr r)) as Ew.
  { rewrite Hp1, <- (word_at_restored ds b0 (rc_addr r) Hsep). unfold word_at. by rewrite !Hb. }
  rewrite Ew. unfold AddToRelocationTable, get_rel_table, set_rel_table, state, modify. mred.
  change (rel_tables (with_pages q1 s3)) with (rel_tables s1). rewrite Ht1, Ht. mred. cbn [used_entries total_entries entries].
  rewrite bool_decide_eq_true_2 by lia. rewrite aset_nat by (rewrite length_app, length_replicate; lia). mred.
  match goal with |- context [on_pages ?mm ?st] => rewrite (on_pages_run mm st tt q2) by (unfold protect_word in Epr |- *; rewrite Eu3 in Epr |- *; exact Epr) end.
  mred. eexists. split; [reflexivity|].
  assert (ds ++ [entry_of point b0 r] = ds ++ [Rel (rc_addr r) (relocated_value (rc_type r) (rc_symbol r) (word_at b0 (rc_addr r)) (rc_addr r) point).1]) as Eds by done.
  split.
  - destruct Hs1. split; done.
  - cbn [rel_tables with_pages with_rel_tables]. rewrite lookup_insert_eq. do 2 f_equal; [rewrite length_app; cbn; lia|].
    rewrite insert_app_r_alt, Nat.sub_diag, length_app by lia. cbn [length]. replace (n - length ds)%nat with (S (n - (length ds + 1))) by lia.
    cbn [replicate]. by rewrite <- app_assoc.
  - intros y. cbn [pages with_pages with_rel_tables]. rewrite Hbq, Ew. unfold restored. rewrite foldl_app. cbn. unfold store. by rewrite Hp1, Hb.
  - intros k. cbn [pages with_pages with_rel_tables]. by rewrite Hqq, Hp1, Hq.
Qed.

Lemma relocation_entries_run img m point section rels n b0 perm0 t rs : ∀ k s ds,
  running s m t n b0 perm0 ds → t ≠ NULL → (length ds + length rs ≤ n)%nat →
  (∀ i r, rs !! i = Some r → relocation_at img m point section (u32 (rels + 8 * Z.of_nat (k + i))) = Some r) →
  Forall (λ r, own_page (rc_addr r) ∧ is_Some (perm0 (page_of (rc_addr r)))) rs →
  separate ((r_address <$> ds) ++ (rc_addr <$> rs)) →
  ∃ s', relocation_entries img point section rels (length rs) (Z.of_nat k) t s = Done (true, s') ∧
    running s' m t n b0 perm0 (ds ++ (entry_of point b0 <$> rs)).
Proof.
  induction rs as [|r rs IH]; intros k s ds H Ht Hn Hat Hok Hsep; cbn [relocation_entries length].
  - exists s. split; [done|]. cbn. by rewrite app_nil_r.
  - apply Forall_cons in Hok as [[Ho Hp] Hok].
    assert (separate (rc_addr r :: (r_address <$> ds) ++ (rc_addr <$> rs))) as Hsep1.
    { eapply separate_perm; [|exact Hsep]. cbn. by rewrite Permutation_middle. }
    apply separate_cons in Hsep1 as (_ & _ & Hf). apply Forall_app in Hf as [Hf _]. apply Forall_fmap in Hf.
    destruct (ElfPerformRelocation_run img m point section (u32 (rels + 8 * Z.of_nat k)) r s t n b0 perm0 ds H Ht) as (s1 & E1 & H1);
      [cbn in Hn; lia|specialize (Hat 0%nat r eq_refl); by rewrite Nat.add_0_r in Hat|done|done| |].
    { eapply Forall_impl; [exact Hf|]. cbn. intros e He. lia. }
    rewrite (M_bind_done _ _ _ _ _ E1). replace (Z.of_nat k + 1) with (Z.of_nat (S k)) by lia.
    destruct (IH (S k) s1 (ds ++ [entry_of point b0 r]) H1 Ht) as (s2 & E2 & H2).
    + rewrite length_app. cbn in Hn |- *. lia.
    + intros i r' Hr'. replace (S k + i)%nat with (k + S i)%nat by lia. by apply Hat.
    + done.
    + rewrite fmap_app, <- app_assoc. exact Hsep.
    + exists s2. split; [exact E2|]. by rewrite <- app_assoc in H2.
Qed.

(** ** Sorting the table *)
Lemma comparator_sign a b : R RelocationTableComparator a b ↔ r_address a ≤ r_address b.
Proof. unfold R, RelocationTableComparator, COMPARE_SIGN. repeat case_decide; lia. Qed.
#[local] Instance comparator_trans : Transitive (R RelocationTableComparator).
Proof. intros a b c. rewrite !comparator_sign. lia. Qed.
#[local] Instance comparator_total : Total (R RelocationTableComparator).
Proof. intros a b. rewrite !comparator_sign. lia. Qed.

Lemma sorted_earlier l : StronglySorted (R RelocationTableComparator) l → NoDup (r_address <$> l) → StronglySorted earlier l.
Proof.
  induction 1 as [|e l Hs IH Hf]; intros Hn; [constructor|]. cbn in Hn. apply NoDup_cons in Hn as [He Hn].
  constructor; [by apply IH|]. rewrite Forall_forall in Hf |- *. intros x Hx. specialize (Hf x Hx). apply comparator_sign in Hf.
  unfold earlier. assert (r_address e ≠ r_address x) as Hne by (intros E; apply He; rewrite E; apply list_elem_of_fmap; by exists x). lia.
Qed.

Lemma SortRelocationTable_run s t n es :
  rel_tables s !! t = Some (RelTable n (length es) es) → es ≠ [] → length es < 2 ^ 32 → NoDup (r_address <$> es) →
  ∃ es', SortRelocationTable t s = Done (tt, with_rel_tables (<[t := RelTable n (length es) es']> (rel_tables s)) s) ∧
    es' ≡ₚ es ∧ StronglySorted earlier es'.
Proof.
  intros Ht Hne Hlen Hn. destruct (qsort_sorts RelocationTableComparator (length es) es comparator_trans comparator_total Hne Hlen (le_n _)) as (es' & E & [H1 H2 _]).
  exists es'. split; [|split; [done|]].
  - unfold SortRelocationTable, get_rel_table, set_rel_table, state, modify. mred. rewrite Ht. mred. cbn [entries used_entries]. rewrite E. done.
  - apply sorted_earlier; [done|]. by rewrite H2.
Qed.

(** ** A section of relocations *)
(** The section header at [section] is of ".rel.dyn", with [n] entries from [rels] on. *)
Record rel_dyn_section (img : list Z) (section rels : Z) (n : nat) : Prop := {
  rd_type : rd32 img (section + 4) = Some SHT_REL;
  rd_rels : rd32 img (section + 16) = Some rels;
  rd_count : ∃ size entsize, rd32 img (section + 20) = Some size ∧ rd32 img (section + 36) = Some entsize ∧
      entsize ≠ 0 ∧ size / entsize = n;
  rd_name : ∃ sh_name ndx shoff table, rd32 img section = Some sh_name ∧ rd16 img 50 = Some ndx ∧ ndx ≠ SHN_UNDEF ∧
      rd32 img 32 = Some shoff ∧ rd32 img (section_header shoff ndx + 16) = Some table ∧
      string_at img (u32 (table + sh_name)) = Some rel_dyn;
}.

Lemma relocation_section_run img m point section rels rs s :
  symbols_are s m → rel_dyn_section img section rels (length rs) → rs ≠ [] → length rs < 2 ^ 31 →
  (∀ i r, rs !! i = Some r → relocation_at img m point section (u32 (rels + 8 * Z.of_nat i)) = Some r) →
  Forall (λ r, own_page (rc_addr r) ∧ is_Some (p_perm (pages s) (page_of (rc_addr r)))) rs → separate (rc_addr <$> rs) →
  ∃ (q : P) t es s', (∀ y, is_Some (p_perm (pages s) (page_of y)) → p_byte q y = p_byte (pages s) y) ∧
    (∀ k, is_Some (p_perm (pages s) k) → p_perm q k = p_perm (pages s) k) ∧
    relocation_section img point section true NULL s = Done ((true, t), s') ∧
    rel_tables s' !! t = Some (RelTable (length rs) (length rs) es) ∧ es ≡ₚ entry_of point (p_byte q) <$> rs ∧ StronglySorted earlier es ∧
    (∀ y, p_byte (pages s') y = restored (p_byte q) (entry_of point (p_byte q) <$> rs) y) ∧ (∀ k, p_perm (pages s') k = p_perm q k).
Proof.
  intros Hs [Hty Hrels (size & entsize & Hsize & Hent & He0 & Hcnt) (nm & ndx & shoff & tab & Hnm & Hndx & Hndx0 & Hshoff & Htab & Hstr)] Hne Hlen Hat Hok Hsep.
  destruct (im_map (pages s) (u32 (i32 (size / entsize) * 8))) as (q1 & Eq & Hb1 & Hp1).
  assert (i32 (size / entsize) = length rs) as Ecnt by (rewrite Hcnt; unfold i32; rewrite Z.mod_small; lia).
  set (t := pick (dom (rel_tables s))). assert (t ≠ NULL) as Ht0 by apply pick_nonnull.
  set (s1 := with_rel_tables (<[t := RelTable (length rs) 0 (replicate (length rs) (Rel 0 0))]> (rel_tables s)) (with_pages q1 s)).
  assert (CreateRelocationTable (length rs) s = Done (t, s1)) as Ec.
  { unfold CreateRelocationTable, state, set_rel_table, modify. mred. rewrite Ecnt in Eq.
    rewrite (on_pages_run _ s tt q1 Eq). mred. rewrite Nat2Z.id. done. }
  assert (running s1 m t (length rs) (p_byte q1) (p_perm q1) []) as Hrun.
  { split; [destruct Hs; by split|cbn; by rewrite lookup_insert_eq, Nat.sub_0_r|done|done]. }
  destruct (relocation_entries_run img m point section rels (length rs) (p_byte q1) (p_perm q1) t rs 0 s1 [] Hrun Ht0) as (s2 & E2 & [H2 Ht2 Hb2 Hp2]);
    [done|exact Hat| |exact Hsep|].
  { eapply Forall_impl; [exact Hok|]. intros r [Ho Hp]. split; [done|]. by rewrite Hp1. }
  cbn [app] in *. set (es0 := entry_of point (p_byte q1) <$> rs) in *. assert (length es0 = length rs) as Hl0 by apply length_fmap.
  rewrite Hl0, Nat.sub_diag, app_nil_r in Ht2. rewrite <- Hl0 in Ht2.
  destruct (SortRelocationTable_run s2 t _ es0 Ht2) as (es & E3 & Hperm & Hsort); [by destruct rs|lia| |].
  { unfold es0. rewrite <- list_fmap_compose. apply Hsep. }
  exists q1, t, es, (with_rel_tables (<[t := RelTable (length es0) (length es0) es]> (rel_tables s2)) s2).
  split; [done|]. split; [done|]. split.
  - unfold relocation_section. rewrite (M_bind_done _ _ _ _ _ (field32_run _ _ _ s Hty)). rewrite decide_True by done.
    rewrite (M_bind_done _ _ _ _ _ (field32_run _ _ _ s Hrels)), (M_bind_done _ _ _ _ _ (field32_run _ _ _ s Hsize)), (M_bind_done _ _ _ _ _ (field32_run _ _ _ s Hent)).
    rewrite decide_False by done. cbv zeta. rewrite Ecnt, Nat2Z.id. rewrite (M_bind_done _ _ _ _ _ (field32_run _ _ _ s Hnm)).
    assert (ElfLookupString img nm s = Done (rel_dyn, s)) as El.
    { unfold ElfLookupString, e_shstrndx, e_shoff, field16. rewrite Hndx. mred. rewrite decide_False by done. unfold field32. mred.
      rewrite Hshoff. mred. rewrite Htab. mred. by rewrite Hstr. }
    rewrite (M_bind_done _ _ _ _ _ El). rewrite decide_False by (intros E; apply E; apply strcmp_refl).
    rewrite (M_bind_done _ _ _ _ _ Ec). rewrite (M_bind_done _ _ _ _ _ E2). by rewrite (M_bind_done _ _ _ _ _ E3).
  - split; [cbn; by rewrite lookup_insert_eq, Hl0|]. split; [done|]. split; [done|]. split; done.
Qed.

(** ** Splitting a sorted table by pages *)
Lemma split_by_page l v : StronglySorted earlier l →
  l = filter (λ e, page_of (r_address e) < v) l ++ filter (λ e, page_of (r_address e) = v) l ++ filter (λ e, v < page_of (r_address e)) l.
Proof.
  induction 1 as [|e l Hs IH Hf]; [done|].
  assert (∀ x, x ∈ l → page_of (r_address e) ≤ page_of (r_address x)) as Hle.
  { intros x Hx. rewrite Forall_forall in Hf. by apply page_of_earlier, Hf. }
  assert (∀ Q : rel → Prop, ∀ HQ : ∀ x, Decision (Q x), (∀ x, x ∈ l → ¬ Q x) → filter Q l = []) as Hnil.
  { intros Q HQ Hno. destruct (filter Q l) as [|x r] eqn:E; [done|]. exfalso. assert (x ∈ filter Q l) as Hx by (rewrite E; left).
    apply list_elem_of_filter in Hx as [Hq Hx]. by apply (Hno x). }
  rewrite !filter_cons. destruct (Z.lt_trichotomy (page_of (r_address e)) v) as [Hlt|[Heq|Hgt]].
  - rewrite decide_True, decide_False, decide_False by lia. cbn. by rewrite <- IH.
  - rewrite decide_False, decide_True, decide_False by lia. rewrite Hnil in IH |- * by (intros x Hx; specialize (Hle x Hx); lia). cbn [app] in IH |- *. by rewrite <- IH.
  - rewrite decide_False, decide_False, decide_True by lia.
    rewrite (Hnil (λ x, page_of (r_address x) < v)) in IH |- * by (intros x Hx; specialize (Hle x Hx); lia).
    rewrite (Hnil (λ x, page_of (r_address x) = v)) in IH |- * by (intros x Hx; specialize (Hle x Hx); lia). cbn [app] in IH |- *. by rewrite <- IH.
Qed.

(** C40: a page of a driver that is dropped and read again from its file is as it was after
    the driver was loaded: when the relocations of a section succeed, the table they
    leave restores, on a page that shows the bytes from before, exactly the bytes that
    loading left there, and the permissions of all pages. The conditions are: a relocated
    word is on the page; no two relocated words overlap, and none reaches the next page;
    and the relocated words on earlier pages are not exactly one, since the code then
    starts at that one and stops ([not_relocated_after_one]). *)
Theorem driver_page_reloads img m point section rels rs s :
  symbols_are s m → rel_dyn_section img section rels (length rs) → rs ≠ [] → length rs < 2 ^ 31 →
  (∀ i r, rs !! i = Some r → relocation_at img m point section (u32 (rels + 8 * Z.of_nat i)) = Some r) →
  Forall (λ r, own_page (rc_addr r) ∧ is_Some (p_perm (pages s) (page_of (rc_addr r)))) rs → separate (rc_addr <$> rs) →
  ∃ t x s', relocation_section img point section true NULL s = Done ((true, t), s') ∧ rel_tables s' !! t = Some x ∧
    ∀ (q : P) v w,
      is_u32 v → p_perm q (page_of v) = Some w → is_Some (p_perm (pages s) (page_of v)) →
      (∀ y, page_of y = page_of v → p_byte q y = p_byte (pages s) y) →
      Exists (λ r, page_of (rc_addr r) = page_of v) rs → length (filter (λ r, page_of (rc_addr r) < page_of v) rs) ≠ 1%nat →
      ∃ q', ApplyRelocationsToPage x v q = Done (tt, q') ∧
        (∀ y, page_of y = page_of v → p_byte q' y = p_byte (pages s') y) ∧ ∀ k, p_perm q' k = p_perm q k.
Proof.
  intros Hs Hsec Hne Hlen Hat Hok Hsep.
  destruct (relocation_section_run img m point section rels rs s Hs Hsec Hne Hlen Hat Hok Hsep) as (q1 & t & es & s' & Hb1 & Hp1 & E & Ht & Hperm & Hsort & Hb & Hp).
  exists t, (RelTable (length rs) (length rs) es), s'. split; [exact E|]. split; [exact Ht|].
  intros q v w Hv Hw Hmap Hold Hex H1. set (es0 := entry_of point (p_byte q1) <$> rs) in *.
  assert (length es = length rs) as Hl by (rewrite (Permutation_length Hperm); apply length_fmap).
  assert (∀ e, e ∈ es → ∃ r, r ∈ rs ∧ r_address e = rc_addr r) as Hfrom.
  { intros e He. rewrite Hperm in He. apply list_elem_of_fmap in He as (r & -> & Hr). by exists r. }
  assert (Forall (λ e, own_page (r_address e)) es) as Ho.
  { apply Forall_forall. intros e He. destruct (Hfrom e He) as (r & Hr & ->). rewrite Forall_forall in Hok. by apply Hok. }
  assert (separate (r_address <$> es)) as Hse.
  { eapply separate_perm; [by rewrite Hperm|]. unfold es0. rewrite <- list_fmap_compose. exact Hsep. }
  set (a := filter (λ e, page_of (r_address e) < page_of v) es). set (p := filter (λ e, page_of (r_address e) = page_of v) es).
  set (b := filter (λ e, page_of v < page_of (r_address e)) es). assert (es = a ++ p ++ b) as Esplit by by apply split_by_page.
  destruct (relocations_restored q v w a p b) as (q' & Eq & Hbq & Hpq); rewrite <- ?Esplit; try done; [lia| | | | | |].
  - eapply Forall_impl; [exact Ho|]. intros e [_ He]. exact He.
  - intros Ep. apply Exists_exists in Hex as (r & Hr & Hrv). assert (entry_of point (p_byte q1) r ∈ p) as Hin.
    { apply list_elem_of_filter. split; [done|]. rewrite Hperm. apply list_elem_of_fmap. by exists r. }
    rewrite Ep in Hin. by apply elem_of_nil in Hin.
  - apply Forall_forall. intros e He%list_elem_of_filter. unfold outside. lia.
  - apply Forall_forall. intros e [He Hin]%list_elem_of_filter. split; [done|]. rewrite Forall_forall in Ho. destruct (Ho e Hin) as [Hpe _]. by rewrite Hpe.
  - apply Forall_forall. intros e He%list_elem_of_filter. unfold outside. lia.
  - exists q'. rewrite <- Esplit, Hl in Eq. split; [exact Eq|]. split; [|exact Hpq]. intros y Hy. rewrite Hbq.
    assert (length a ≠ 1%nat) as Ha1.
    { intros Ha. apply H1. rewrite <- Ha. unfold a. rewrite Hperm. unfold es0. clear. induction rs as [|r rs IH]; [done|].
      cbn [fmap list_fmap]. rewrite !filter_cons. cbn [entry_of r_address]. case_decide; cbn [length]; by rewrite IH. }
    rewrite decide_False by done. rewrite Hb. apply (restored_page es0 p).
    + eapply separate_perm; [by rewrite <- Hperm|done].
    + assert ((r_address <$> p) `sublist_of` (r_address <$> es)) as Hsub by (apply fmap_sublist, sublist_filter). destruct Hse as [Hn Hd]. split.
      * eapply sublist_NoDup; [exact Hn|exact Hsub].
      * intros c d Hc Hdd. apply Hd; by eapply elem_of_sublist.
    + intros e. unfold p. rewrite list_elem_of_filter, Hperm, Hy. tauto.
    + by rewrite <- Hperm.
    + rewrite Hold by done. rewrite Hb1; [done|by rewrite Hy].
Qed.
End elf_proofs.

(** ** A small driver *)
#[local] Existing Instance bump_allocator.
#[export] Instance FlatImage : ImagePages flat := {
  MapVirt _ v _ _ _ _ s := Done (v, s);
  UnmapVirt _ _ s := Done (0, s);
  write_bytes a l s := Done (tt, Flat (λ y, if decide (a ≤ y < a + length l) then default 0 (l !! Z.to_nat (y - a)) else f_byte s y) (f_perm s));
  load_word a s := match f_perm s (page_of a) with Some _ => Done (word_at (f_byte s) a, s) | None => Faulted end;
  file_image _ s := Done ([], s);
  release_image _ s := Done (tt, s);
}.
#[export] Instance FlatImageLaws : ImageLaws flat.
Proof.
  split.
  - intros s a x E _. cbn in *. by rewrite E.
  - intros s n. exists s. by split_and!.
Qed.

(** Three sections: none, the names, and ".rel.dyn" with two relative relocations. *)
Definition small_driver : list Z := [
  127; 69; 76; 70; 0; 0; 0; 0; 0; 0; 0; 0; 0; 0; 0; 0; 0; 0; 0; 0; 0; 0; 0; 0; 0; 0;
  0; 0; 0; 0; 0; 0; 52; 0; 0; 0; 0; 0; 0; 0; 0; 0; 0; 0; 0; 0; 0; 0; 3; 0; 1; 0;
  0; 0; 0; 0; 0; 0; 0; 0; 0; 0; 0; 0; 0; 0; 0; 0; 0; 0; 0; 0; 0; 0; 0; 0; 0; 0;
  0; 0; 0; 0; 0; 0; 0; 0; 0; 0; 0; 0; 0; 0; 0; 0; 0; 0; 0; 0; 0; 0; 0; 0; 0; 0;
  0; 0; 0; 0; 172; 0; 0; 0; 0; 0; 0; 0; 0; 0; 0; 0; 0; 0; 0; 0; 0; 0; 0; 0; 0; 0;
  0; 0; 1; 0; 0; 0; 9; 0; 0; 0; 0; 0; 0; 0; 0; 0; 0; 0; 192; 0; 0; 0; 16; 0; 0; 0;
  0; 0; 0; 0; 0; 0; 0; 0; 0; 0; 0; 0; 8; 0; 0; 0; 0; 46; 114; 101; 108; 46; 100; 121; 110; 0;
  0; 0; 0; 0; 0; 0; 0; 0; 0; 0; 8; 0; 0; 0; 8; 0; 0; 0; 12; 0; 0; 0; 8; 0; 0; 0].
Definition small_point : Z := 3221225472.
Definition small_relocations : list relocation := [Relocation (small_point + 8) 8 0; Relocation (small_point + 12) 8 0].

Lemma driver_page_reloads_witness :
  ∃ t x s', relocation_section small_driver small_point 132 true NULL (no_symbols read_only) = Done ((true, t), s') ∧ rel_tables s' !! t = Some x ∧
    ∀ (q : flat) v w,
      is_u32 v → p_perm q (page_of v) = Some w → is_Some (p_perm read_only (page_of v)) →
      (∀ y, page_of y = page_of v → p_byte q y = p_byte read_only y) →
      Exists (λ r, page_of (rc_addr r) = page_of v) small_relocations →
      length (filter (λ r, page_of (rc_addr r) < page_of v) small_relocations) ≠ 1%nat →
      ∃ q', ApplyRelocationsToPage x v q = Done (tt, q') ∧
        (∀ y, page_of y = page_of v → p_byte q' y = p_byte (pages s') y) ∧ ∀ k, p_perm q' k = p_perm q k.
Proof.
  apply (driver_page_reloads small_driver ∅ small_point 132 192 small_relocations (no_symbols read_only)).
  - apply no_symbols_are.
  - split; [reflexivity|reflexivity|by exists 16, 8|exists 1, 1, 52, 172; repeat split; done].
  - discriminate.
  - cbn. lia.
  - intros [|[|i]] r E; [injection E as <-; vm_compute; reflexivity|injection E as <-; vm_compute; reflexivity|by destruct i].
  - repeat constructor; unfold own_page; cbn [rc_addr]; try (vm_compute; reflexivity); try (unfold small_point; lia); by eexists.
  - unfold small_relocations, small_point. cbn. split.
    + repeat constructor; rewrite ?list_elem_of_singleton, ?elem_of_nil; lia.
    + intros a b Ha Hb Hab. rewrite !elem_of_cons, elem_of_nil in Ha, Hb. lia.
Defined.

(** The word at 8 is the relocation point after loading, and again after a reload. *)
Definition reloaded_bytes : option (list Z * list Z) :=
  match relocation_section small_driver small_point 132 true NULL (no_symbols read_only) with
  | Done ((_, t), s) =>
    match rel_tables s !! t with
    | Some x =>
      match ApplyRelocationsToPage x small_point read_only with
      | Done (_, q) => Some (f_byte (pages s) <$> [small_point + 8; small_point + 11; small_point + 12], f_byte q <$> [small_point + 8; small_point + 11; small_point + 12])
      | _ => None
      end
    | None => None
    end
  | _ => None
  end.
Example reload_run : reloaded_bytes = Some ([0; 192; 0], [0; 192; 0]).
Proof. vm_compute. reflexivity. Qed.
