(* ===== verification/Message.v ===== *)
(** * sync/message.c: message boxes

    A message is copied into kernel memory and its address put at the end of a linked
    list; a semaphore counts the messages that are there. The semaphore is the count of
    its units and a call that would wait blocks, as for a thread that runs alone; the
    spinlock around the list is a flag. *)

From S2P Require Import Prelude LinkedList.

Definition SEM_BIG_NUMBER : Z := Z.shiftl 1 30.

Record msgbox := MsgBox {
  payload_size : Z;
  data : Z;                          (* the list *)
  locked : bool;
  sem_count : Z;                     (* [current_count]: units taken, of [SEM_BIG_NUMBER] *)
  list_heap : lheap;
  payloads : gmap Z (list Z);        (* the copies, by address *)
}.

Section message.
Context {AL : Allocator}.

Definition with_lists (h : lheap) (s : msgbox) : msgbox := MsgBox (payload_size s) (data s) (locked s) (sem_count s) h (payloads s).
Definition with_payloads (m : gmap Z (list Z)) (s : msgbox) : msgbox :=
  MsgBox (payload_size s) (data s) (locked s) (sem_count s) (list_heap s) m.
Definition with_count (n : Z) (s : msgbox) : msgbox := MsgBox (payload_size s) (data s) (locked s) n (list_heap s) (payloads s).
Definition with_lock (b : bool) (s : msgbox) : msgbox := MsgBox (payload_size s) (data s) b (sem_count s) (list_heap s) (payloads s).

Definition on_list {A} (m : M lheap A) : M msgbox A := λ s,
  outcome_bind (λ '(a, h), Done (a, with_lists h s)) (m (list_heap s)).

Definition AcquireSpinlock : M msgbox unit := s ← get; if locked s then block else put (with_lock true s).
Definition ReleaseSpinlock : M msgbox unit := s ← get; c_assert (locked s);; put (with_lock false s).
Definition AcquireSemaphore : M msgbox Z :=
  s ← get; if decide (sem_count s < SEM_BIG_NUMBER) then put (with_count (sem_count s + 1) s);; mret 0 else block.
Definition ReleaseSemaphore : M msgbox unit :=
  s ← get; c_assert (bool_decide (0 < sem_count s));; put (with_count (sem_count s - 1) s).

(** The box is made on a heap of lists. *)
Definition CreateMessageBox (size : Z) (h : lheap) : outcome msgbox :=
  outcome_bind (λ '(l, h), Done (MsgBox size l false SEM_BIG_NUMBER h ∅)) (ListCreate h).

(** The messages of the list are left behind. *)
Definition DestroyMessageBox (fuel : nat) : M msgbox unit := s ← get; on_list (ListDestroy fuel (data s)).

Definition SendMessage (payload : list Z) : M msgbox Z :=
  s ← get;
  let copy := pick (dom (payloads s)) in
  modify (λ s, with_payloads (<[copy := take (Z.to_nat (payload_size s)) payload]> (payloads s)) s);;
  AcquireSpinlock;;
  on_list (ListInsertEnd (data s) copy);;
  ReleaseSpinlock;;
  ReleaseSemaphore;;
  mret 0.

(** The result, and what was copied to [payload]. *)
Definition ReceiveMessage : M msgbox (Z * list Z) :=
  res ← AcquireSemaphore;
  if decide (res ≠ 0) then mret (res, []) else
  AcquireSpinlock;;
  s ← get;
  node ← on_list (ListGetFirstNode (data s));
  copy ← on_list (ListGetDataFromNode node);
  _ ← on_list (ListDeleteIndex (data s) 0);
  ReleaseSpinlock;;
  s ← get;
  p ← deref (payloads s !! copy);
  modify (λ s, with_payloads (delete copy (payloads s)) s);;
  mret (0, p).

(** ** A message box is a queue *)
#[local] Opaque SEM_BIG_NUMBER.

(** The addresses in the list are those of the copies. *)
Record box_is (s : msgbox) (q : list (list Z)) : Prop := {
  bi_lock : locked s = false;
  bi_count : sem_count s = SEM_BIG_NUMBER - length q;
  bi_data : data s ≠ NULL;
  bi_list : ∃ l, is_list (list_heap s) (data s) l ∧ NoDup l.*2 ∧
      Forall2 (λ a m, payloads s !! a = Some m) l.*2 q;
}.

Lemma on_list_run {A} (m : M lheap A) s a h : m (list_heap s) = Done (a, h) → on_list m s = Done (a, with_lists h s).
Proof. intros E. unfold on_list. by rewrite E. Qed.

Lemma CreateMessageBox_run size h : ∃ s, CreateMessageBox size h = Done s ∧ box_is s [] ∧ payload_size s = size.
Proof.
  destruct (ListCreate_run h) as (h' & E & Hl & _ & _). unfold CreateMessageBox. rewrite E. cbn. eexists. split; [reflexivity|]. split; [|done].
  split; cbn; [done|lia|apply pick_nonnull|]. exists []. split; [done|]. split; [apply NoDup_nil_2|constructor].
Qed.

Lemma SendMessage_run s q p : box_is s q → length q < SEM_BIG_NUMBER → payload_size s = length p →
  ∃ s', SendMessage p s = Done (0, s') ∧ box_is s' (q ++ [p]) ∧ payload_size s' = payload_size s.
Proof.
  intros [Hlk Hc Hd (l & Hl & Hnd & Hp)] Hq Hsize. unfold SendMessage, AcquireSpinlock, ReleaseSpinlock, ReleaseSemaphore, modify. mred.
  cbn [locked with_payloads]. rewrite Hlk. mred. set (c := pick (dom (payloads s))).
  assert (payloads s !! c = None) as Hc0 by (apply not_elem_of_dom; apply pick_fresh). clearbody c.
  destruct (ListInsertEnd_run (list_heap s) (data s) _ l c Hl) as (h' & E & Hl' & _).
  match goal with |- context [on_list ?m ?s1] => rewrite (on_list_run m s1 tt h' E) end. mred.
  cbn [locked with_lock with_lists sem_count with_payloads]. mred. rewrite bool_decide_eq_true_2 by (cbn; lia). mred.
  eexists. split; [reflexivity|]. split; [|done]. cbn. rewrite Hsize, Nat2Z.id, firstn_all. split; cbn; [done|rewrite length_app; cbn [length]; lia|done|].
  exists (l ++ [(pick (live (list_heap s)), c)]). rewrite fmap_app. cbn [fmap list_fmap]. split; [|split].
  - unfold is_list. rewrite length_app. cbn [length]. by replace (Z.of_nat (length l + 1)) with (Z.of_nat (length l) + 1) by lia.
  - apply NoDup_app. split; [done|]. split; [|apply NoDup_singleton]. intros a Ha ->%list_elem_of_singleton.
    cbn in Ha. apply list_elem_of_lookup in Ha as (i & Hi). destruct (Forall2_lookup_l _ _ _ _ _ Hp Hi) as (m & _ & Hm). congruence.
  - apply Forall2_app; [|constructor; [by rewrite lookup_insert_eq|constructor]].
    eapply Forall2_impl; [exact Hp|]. cbn. intros a m Hm.
    assert (c ≠ a) as Hne by (intros E'; rewrite E' in Hc0; congruence). by rewrite lookup_insert_ne.
Qed.

Lemma ReceiveMessage_run s p q : box_is s (p :: q) →
  ∃ s', ReceiveMessage s = Done ((0, p), s') ∧ box_is s' q ∧ payload_size s' = payload_size s.
Proof.
  intros [Hlk Hc Hd (l & Hl & Hnd & Hp)]. unfold ReceiveMessage, AcquireSemaphore, AcquireSpinlock, ReleaseSpinlock, modify. mred.
  rewrite decide_True by (cbn [length] in Hc; lia). mred. rewrite decide_False by lia. mred. cbn [locked with_count]. rewrite Hlk. mred.
  cbn [data with_lock with_count]. destruct l as [|[a c] l]; [by inversion Hp|].
  cbn in Hnd, Hp. apply NoDup_cons in Hnd as [Hca Hnd]. apply Forall2_cons in Hp as [Hpc Hp].
  assert (ListGetFirstNode (data s) (list_heap s) = Done (a, list_heap s)) as E1.
  { unfold ListGetFirstNode. rewrite decide_False by done. destruct Hl as [Hh _ _]. by rewrite (M_bind_done _ _ _ _ _ (read_list_run _ _ _ Hh)). }
  assert (ListGetDataFromNode a (list_heap s) = Done (c, list_heap s)) as E2.
  { unfold ListGetDataFromNode. destruct Hl as [_ Hs _]. destruct Hs as (_ & Hann & nx & Hn & _). rewrite decide_False by done.
    by rewrite (M_bind_done _ _ _ _ _ (read_node_run _ _ _ Hn)). }
  destruct (ListDeleteIndex_run (list_heap s) (data s) _ ((a, c) :: l) 0 Hl) as (h' & E3 & Hl' & _); [cbn; lia|cbn; lia|].
  match goal with |- context [on_list (ListGetFirstNode _) ?s1] => rewrite (on_list_run (ListGetFirstNode (data s)) s1 a (list_heap s) E1) end. mred.
  match goal with |- context [on_list (ListGetDataFromNode _) ?s1] => rewrite (on_list_run (ListGetDataFromNode a) s1 c (list_heap s) E2) end. mred.
  match goal with |- context [on_list (ListDeleteIndex _ _) ?s1] => rewrite (on_list_run (ListDeleteIndex (data s) 0) s1 true h' E3) end. mred.
  cbn [locked with_lists with_lock payloads with_count]. mred.
  match goal with |- context [payloads ?x !! c] => change (payloads x) with (payloads s) end. rewrite Hpc. mred. eexists. split; [reflexivity|]. split; [|done].
  cbn [length] in Hc. split; cbn; [done|lia|done|]. exists l. split; [|split; [done|]].
  - unfold is_list. cbn [delete list_delete] in Hl'. by replace (Z.of_nat (length ((a, c) :: l)) - 1) with (Z.of_nat (length l)) in Hl' by (cbn; lia).
  - apply Forall2_same_length_lookup_2; [by apply Forall2_length in Hp|]. intros i x m Hi Hm.
    rewrite lookup_delete_ne; [exact (Forall2_lookup_lr _ _ _ _ _ _ Hp Hi Hm)|]. intros ->. apply Hca. by eapply list_elem_of_lookup_2.
Qed.

(** ** Sequences of calls *)
Inductive call := Send (p : list Z) | Receive.
Fixpoint run_calls (l : list call) : M msgbox (list (list Z)) :=
  match l with
  | [] => mret []
  | Send p :: l => _ ← SendMessage p; run_calls l
  | Receive :: l => '(_, p) ← ReceiveMessage; r ← run_calls l; mret (p :: r)
  end.
(** A queue of [n] places at most: what is received, and what is left. *)
Fixpoint queue_calls (n : Z) (q : list (list Z)) (l : list call) : option (list (list Z) * list (list Z)) :=
  match l with
  | [] => Some ([], q)
  | Send p :: l => if decide (length q < n) then queue_calls n (q ++ [p]) l else None
  | Receive :: l => match q with [] => None | p :: q => '(r, q') ← queue_calls n q l; Some (p :: r, q') end
  end.

Lemma run_calls_run l : ∀ s q r q',
  box_is s q → (∀ p, Send p ∈ l → payload_size s = length p) → queue_calls SEM_BIG_NUMBER q l = Some (r, q') →
  ∃ s', run_calls l s = Done (r, s') ∧ box_is s' q'.
Proof.
  induction l as [|[p|] l IH]; intros s q r q' H Hs Hq; cbn in Hq.
  - injection Hq as <- <-. by exists s.
  - case_decide as Hlen; [|done]. destruct (SendMessage_run s q p H Hlen) as (s1 & E1 & H1 & Hs1); [apply Hs; by left|].
    destruct (IH s1 _ r q' H1) as (s2 & E2 & H2); [intros x Hx; rewrite Hs1; apply Hs; by right|done|]. exists s2. split; [|done].
    cbn [run_calls]. by rewrite (M_bind_done _ _ _ _ _ E1).
  - destruct q as [|p q]; [done|]. destruct (queue_calls SEM_BIG_NUMBER q l) as [[r1 q1]|] eqn:Eq; [|done]. injection Hq as <- <-.
    destruct (ReceiveMessage_run s p q H) as (s1 & E1 & H1 & Hs1).
    destruct (IH s1 q r1 q1 H1) as (s2 & E2 & H2); [intros x Hx; rewrite Hs1; apply Hs; by right|done|]. exists s2. split; [|done].
    cbn [run_calls]. by rewrite (M_bind_done _ _ _ _ _ E1), (M_bind_done _ _ _ _ _ E2).
Qed.

(** A message box is a queue: from its creation on, calls that send no more than
    the semaphore counts and receive no more than was sent return the messages in the
    order in which they were sent, each once. *)
Theorem message_box_is_queue size h l r q :
  (∀ p, Send p ∈ l → length p = Z.to_nat size) → 0 ≤ size → queue_calls SEM_BIG_NUMBER [] l = Some (r, q) →
  ∃ s s', CreateMessageBox size h = Done s ∧ run_calls l s = Done (r, s') ∧ box_is s' q.
Proof.
  intros Hs H0 Hq. destruct (CreateMessageBox_run size h) as (s & E & H & Hsz).
  destruct (run_calls_run l s [] r q H) as (s' & E' & H'); [intros p Hp; rewrite Hsz, (Hs p Hp); lia|done|]. by exists s, s'.
Qed.

(** With nothing there a receiver waits. *)
Lemma ReceiveMessage_waits s : box_is s [] → ReceiveMessage s = Blocked.
Proof. intros [_ Hc _ _]. unfold ReceiveMessage, AcquireSemaphore. mred. rewrite decide_False by (cbn in Hc; lia). done. Qed.
End message.

Lemma message_box_is_queue_witness :
  ∃ s s', CreateMessageBox (AL := bump_allocator) 2 (LHeap ∅ ∅) = Done s ∧
    run_calls (AL := bump_allocator) [Send [1; 2]; Send [3; 4]; Receive; Send [5; 6]; Receive] s = Done ([[1; 2]; [3; 4]], s') ∧ box_is s' [[5; 6]].
Proof.
  apply (message_box_is_queue (AL := bump_allocator) 2 (LHeap ∅ ∅) [Send [1; 2]; Send [3; 4]; Receive; Send [5; 6]; Receive]); [|lia|reflexivity].
  intros p Hp. rewrite !elem_of_cons, elem_of_nil in Hp. destruct Hp as [E|[E|[E|[E|[E|[]]]]]]; by simplify_eq.
Defined.
