(* ===== verification/Console.v ===== *)
(** * util/console.c: the console's escape codes and output

    The console reads what programs write to its terminal, acts on the escape codes
    and sends the rest to the video driver, up to [VID_MAX_PUTCHARS_LEN] characters at
    a time. A [char] is signed. The calls of [ReadFile] in the loop of the thread are
    given as the list of what they read. *)

From S2P Require Import Prelude Vnode CString Strings.

Definition VID_MAX_PUTCHARS_LEN : Z := 26.

Inductive video_msg :=
  | VIDMSG_CLEAR_SCREEN (bg fg : Z)
  | VIDMSG_PUTCHAR (c fg bg : Z)
  | VIDMSG_PUTCHARS (cs : list Z) (fg bg : Z)
  | VIDMSG_SET_CURSOR (x y : Z).

(** The static variables of the file; [messages] are those sent to the video driver
    so far, [None] while there is no driver. *)
Record console := Console {
  console_fg : Z;
  console_bg : Z;
  console_buffer_ptr : Z;
  console_buffer : list Z;
  messages : option (list video_msg);
}.

Definition with_colours (fg bg : Z) (s : console) : console :=
  Console fg bg (console_buffer_ptr s) (console_buffer s) (messages s).
Definition with_buffer (p : Z) (b : list Z) (s : console) : console :=
  Console (console_fg s) (console_bg s) p b (messages s).

(** util/video.c. *)
Definition SendVideoMessage (m : video_msg) : M console unit :=
  modify (λ s, Console (console_fg s) (console_bg s) (console_buffer_ptr s) (console_buffer s) ((λ l, l ++ [m]) <$> messages s)).

(** [memset(console_buffer, 0, VID_MAX_PUTCHARS_LEN)]. *)
Definition zeros : list Z := replicate (Z.to_nat VID_MAX_PUTCHARS_LEN) 0.

(** [strncpy] into an array of [n]: the string, and zeros after it. *)
Fixpoint strncpy_array (n : nat) (l : list Z) : list Z :=
  match n with
  | O => []
  | S n => match l with
    | [] => replicate (S n) 0
    | c :: r => if decide (c = 0) then replicate (S n) 0 else c :: strncpy_array n r
    end
  end.

Definition Flush : M console unit :=
  s ← get;
  if decide (0 < console_buffer_ptr s) then
    SendVideoMessage (VIDMSG_PUTCHARS (strncpy_array (Z.to_nat VID_MAX_PUTCHARS_LEN) (console_buffer s)) (console_fg s) (console_bg s));;
    modify (with_buffer 0 zeros)
  else mret tt.

Definition Putchar (c : Z) : M console unit :=
  s ← get;
  b ← deref (aset (console_buffer s) (console_buffer_ptr s) c);
  modify (with_buffer (console_buffer_ptr s + 1) b);;
  s ← get;
  if decide (VID_MAX_PUTCHARS_LEN ≤ console_buffer_ptr s) then Flush else mret tt.

(** Element [i] of a string, 0 at its end. *)
Definition code_at (code : list Z) (i : nat) : Z := default 0 (code !! i).
Definition last_char (code : list Z) : Z := code_at code (length code - 1).

(** [while (code[index] && code[index] != ';') ++index]. *)
Fixpoint to_semicolon (code : list Z) (n index : nat) : nat :=
  match n with
  | O => index
  | S n => if decide (code_at code index ≠ 0 ∧ code_at code index ≠ 59) then to_semicolon code n (S index) else index
  end.

Definition colour_map : list Z := [0; 4; 2; 6; 1; 5; 3; 7].

Fixpoint put_all (code : list Z) : M console unit :=
  match code with [] => mret tt | c :: r => Putchar c;; put_all r end.

(** The codes are the characters after ESC: [\[2J], [\[0m], [\[..m] and [\[y;xH]. *)
Definition ProcessAnsiEscapeCode (code : list Z) : M console unit :=
  if decide (code_at code 0 ≠ 91) then mret tt else
  if decide (strcmp code [91; 50; 74] = 0) then
    modify (with_buffer 0 zeros);;
    s ← get;
    SendVideoMessage (VIDMSG_CLEAR_SCREEN (console_bg s) (console_fg s))
  else if decide (strcmp code [91; 48; 109] = 0) then
    Flush;;
    modify (with_colours 7 0)
  else if decide (4 ≤ length code ∧ last_char code = 109) then
    Flush;;
    let col := atoi (drop 1 code) in
    s ← get;
    if decide (30 ≤ col ≤ 37) then c ← deref (aget colour_map (col - 30)); modify (with_colours c (console_bg s))
    else if decide (40 ≤ col ≤ 47) then c ← deref (aget colour_map (col - 40)); modify (with_colours (console_fg s) c)
    else if decide (90 ≤ col ≤ 97) then c ← deref (aget colour_map (col - 90)); modify (with_colours (c + 8) (console_bg s))
    else if decide (100 ≤ col ≤ 107) then c ← deref (aget colour_map (col - 100)); modify (with_colours (console_fg s) (c + 8))
    else mret tt
  else if decide (4 ≤ length code ∧ last_char code = 72) then
    let y := atoi (drop 1 code) in
    let index := to_semicolon code (length code) 1 in
    if decide (code_at code index = 59 ∧ code_at code (S index) ≠ 0) then
      let x := atoi (drop (S index) code) in
      Flush;;
      SendVideoMessage (VIDMSG_SET_CURSOR (i32 (x - 1)) (i32 (y - 1)))
    else mret tt
  else
    Putchar 27;;
    put_all code.

(** ** The thread *)
(** Its local variables. *)
Record parser := Parser { escape : bool; ansi_code : list Z; ansi_code_len : Z }.

Definition console_byte (p : parser) (c : Z) : M console parser :=
  if escape p then
    code ← deref (aset (ansi_code p) (ansi_code_len p) c);
    let len := ansi_code_len p + 1 in
    if decide ((64 ≤ c ∧ c ≠ 91) ∨ 14 ≤ len) then
      code ← deref (aset code len 0);
      ProcessAnsiEscapeCode (until_zero code);;
      mret (Parser false code len)
    else mret (Parser true code len)
  else if decide (c = 27) then mret (Parser true (ansi_code p) 0)
  else
    Putchar c;;
    mret p.

Fixpoint console_bytes (p : parser) (buffer : list Z) : M console parser :=
  match buffer with [] => mret p | c :: r => p ← console_byte p c; console_bytes p r end.

(** The loop of the thread, for the reads that it makes. *)
Fixpoint console_reads (p : parser) (reads : list (list Z)) : M console parser :=
  match reads with
  | [] => mret p
  | b :: r => p ← console_bytes p b; Flush;; console_reads p r
  end.

(** The array [ansi_code] starts with anything, [junk]. *)
Definition ConsoleDriverThread (junk : list Z) (reads : list (list Z)) : M console parser :=
  console_reads (Parser false junk 0) reads.

(** The state after [InitConsole], with a video driver that has got no message. *)
Definition initial_console : console := Console 7 0 0 zeros (Some []).

(** * What the console shows does not depend on how it is buffered *)

(** ** A terminal without a buffer

    What is on the screen since it was last cleared, and the escape code that has
    begun. *)
Inductive shown := Char (c fg bg : Z) | Cleared (bg fg : Z) | Cursor (x y : Z).

Record terminal := Terminal { t_fg : Z; t_bg : Z; t_code : option (list Z); t_shown : list shown }.

Definition show (e : shown) (l : list shown) : list shown :=
  match e with Cleared _ _ => [e] | _ => l ++ [e] end.
Definition emit (e : shown) (t : terminal) : terminal := Terminal (t_fg t) (t_bg t) (t_code t) (show e (t_shown t)).
Definition colours (fg bg : Z) (t : terminal) : terminal := Terminal fg bg (t_code t) (t_shown t).
Definition code_is (o : option (list Z)) (t : terminal) : terminal := Terminal (t_fg t) (t_bg t) o (t_shown t).
Definition print (l : list Z) (t : terminal) : terminal := foldl (λ t c, emit (Char c (t_fg t) (t_bg t)) t) t l.

(** The colours of the codes 30 to 37 and so on, in the order of the VGA palette. *)
Definition palette (n : Z) : Z := default 0 (aget [0; 4; 2; 6; 1; 5; 3; 7] n).
Definition set_colour (n : Z) (t : terminal) : terminal :=
  if decide (30 ≤ n ≤ 37) then colours (palette (n - 30)) (t_bg t) t
  else if decide (40 ≤ n ≤ 47) then colours (t_fg t) (palette (n - 40)) t
  else if decide (90 ≤ n ≤ 97) then colours (palette (n - 90) + 8) (t_bg t) t
  else if decide (100 ≤ n ≤ 107) then colours (t_fg t) (palette (n - 100) + 8) t
  else t.

(** The two numbers of [\[y;xH]. *)
Fixpoint after_semicolon (l : list Z) : option (list Z) :=
  match l with [] => None | c :: r => if decide (c = 59) then Some r else after_semicolon r end.
Definition move (l : list Z) (t : terminal) : terminal :=
  match after_semicolon l with
  | Some (c :: r) => emit (Cursor (i32 (atoi (c :: r) - 1)) (i32 (atoi l - 1))) t
  | _ => t
  end.

(** A code that is not known is shown as it is; one that does not begin with a
    bracket is not. *)
Definition escape_code (code : list Z) (t : terminal) : terminal :=
  match code with
  | 91 :: l =>
    if decide (code = [91; 50; 74]) then emit (Cleared (t_bg t) (t_fg t)) t
    else if decide (code = [91; 48; 109]) then colours 7 0 t
    else if decide (4 ≤ length code ∧ last code = Some 109) then set_colour (atoi l) t
    else if decide (4 ≤ length code ∧ last code = Some 72) then move l t
    else print (27 :: code) t
  | _ => t
  end.

(** A code ends with a letter, or is cut off after 14 characters. *)
Definition terminal_byte (t : terminal) (c : Z) : terminal :=
  match t_code t with
  | None => if decide (c = 27) then code_is (Some []) t else emit (Char c (t_fg t) (t_bg t)) t
  | Some code =>
    let code := code ++ [c] in
    if decide ((64 ≤ c ∧ c ≠ 91) ∨ (14 ≤ length code)%nat) then escape_code code (code_is None t)
    else code_is (Some code) t
  end.
Definition fresh_terminal : terminal := Terminal 7 0 None [].

(** What the messages show. *)
Definition chars_shown (fg bg : Z) (l : list Z) : list shown := (λ c, Char c fg bg) <$> l.
Definition message_shown (l : list shown) (m : video_msg) : list shown :=
  match m with
  | VIDMSG_CLEAR_SCREEN bg fg => [Cleared bg fg]
  | VIDMSG_PUTCHAR c fg bg => l ++ [Char c fg bg]
  | VIDMSG_PUTCHARS cs fg bg => l ++ chars_shown fg bg (until_zero (take (Z.to_nat VID_MAX_PUTCHARS_LEN) cs))
  | VIDMSG_SET_CURSOR x y => l ++ [Cursor x y]
  end.
Definition messages_shown (l : list video_msg) : list shown := foldl message_shown [] l.

(** ** The arrays *)
Lemma until_zero_app l r : 0 ∉ l → until_zero (l ++ 0 :: r) = l.
Proof.
  induction l as [|c l IH]; intros Hl; cbn; [done|]. apply not_elem_of_cons in Hl as [Hc Hl].
  rewrite decide_False by done. by rewrite IH.
Qed.
Lemma until_zero_full l : 0 ∉ l → until_zero l = l.
Proof.
  induction l as [|c l IH]; intros Hl; cbn; [done|]. apply not_elem_of_cons in Hl as [Hc Hl].
  rewrite decide_False by done. by rewrite IH.
Qed.
Lemma until_zero_padded l n : 0 ∉ l → until_zero (l ++ replicate n 0) = l.
Proof. intros Hl. destruct n; cbn; [rewrite app_nil_r; by apply until_zero_full|by apply until_zero_app]. Qed.

Lemma strncpy_array_padded n l : 0 ∉ l → (length l ≤ n)%nat → strncpy_array n l = l ++ replicate (n - length l) 0.
Proof.
  revert l. induction n as [|n IH]; intros [|c l] Hl Hn; try done; [cbn in Hn; lia|]. cbn [strncpy_array].
  apply not_elem_of_cons in Hl as [Hc Hl]. rewrite decide_False by done. cbn in Hn |- *. by rewrite IH by (try done; lia).
Qed.
Lemma strncpy_array_zeros n l k : 0 ∉ l → (length l ≤ n)%nat → strncpy_array n (l ++ replicate k 0) = l ++ replicate (n - length l) 0.
Proof.
  revert l. induction n as [|n IH]; intros [|c l] Hl Hn; cbn [length app] in *; [done|lia|by destruct k|]. cbn [strncpy_array].
  apply not_elem_of_cons in Hl as [Hc Hl]. rewrite decide_False by done. cbn [app Nat.sub]. by rewrite IH by (try done; lia).
Qed.

#[local] Arguments strncpy_array : simpl never.

(** ** The state of the console and of the terminal *)
Record console_is (s : console) (t : terminal) (pending : list Z) (sent : list video_msg) : Prop := {
  ci_fg : console_fg s = t_fg t;
  ci_bg : console_bg s = t_bg t;
  ci_ptr : console_buffer_ptr s = length pending;
  ci_room : (length pending < 26)%nat;
  ci_nonzero : 0 ∉ pending;
  ci_buffer : console_buffer s = pending ++ replicate (26 - length pending) 0;
  ci_sent : messages s = Some sent;
  ci_shown : t_shown t = messages_shown sent ++ chars_shown (t_fg t) (t_bg t) pending;
}.
Definition shows (s : console) (t : terminal) : Prop := ∃ pending sent, console_is s t pending sent.
Definition flushed (s : console) (t : terminal) : Prop := ∃ sent, console_is s t [] sent.

Lemma flushed_shows s t : flushed s t → shows s t.
Proof. intros (sent & H). by exists [], sent. Qed.
#[local] Hint Resolve flushed_shows : core.

Lemma messages_shown_snoc l m : messages_shown (l ++ [m]) = message_shown (messages_shown l) m.
Proof. unfold messages_shown. by rewrite foldl_app. Qed.

Lemma console_Flush_run s t : shows s t → ∃ s', Flush s = Done (tt, s') ∧ flushed s' t.
Proof.
  intros (l & sent & [Hfg Hbg Hp Hr Hz Hb Hs Ht]). unfold Flush. mred. rewrite Hp. destruct l as [|c l].
  - exists s. split; [done|]. exists sent. by split.
  - rewrite decide_True by (cbn; lia). unfold SendVideoMessage, modify, with_buffer. cbn. eexists. split; [reflexivity|].
    exists (sent ++ [VIDMSG_PUTCHARS (strncpy_array 26 (console_buffer s)) (console_fg s) (console_bg s)]).
    split; cbn; try done; [lia|apply not_elem_of_nil|by rewrite Hs|].
    rewrite app_nil_r, messages_shown_snoc. cbn [message_shown]. rewrite Hb, Hfg, Hbg, strncpy_array_zeros by first [done|lia].
    change (Z.to_nat VID_MAX_PUTCHARS_LEN) with 26%nat. rewrite take_ge by (rewrite length_app, length_replicate; lia). by rewrite until_zero_padded.
Qed.

Lemma Putchar_run s t c : c ≠ 0 → shows s t → ∃ s', Putchar c s = Done (tt, s') ∧ shows s' (emit (Char c (t_fg t) (t_bg t)) t).
Proof.
  intros Hc (l & sent & [Hfg Hbg Hp Hr Hz Hb Hs Ht]). unfold Putchar. mred. rewrite Hp, aset_nat by (rewrite Hb, length_app, length_replicate; lia).
  mred. set (s1 := with_buffer _ _ s).
  assert (<[length l := c]> (console_buffer s) = (l ++ [c]) ++ replicate (25 - length l) 0) as Eb.
  { rewrite Hb, insert_app_r_alt, Nat.sub_diag by lia. replace (26 - length l)%nat with (S (25 - length l)) by lia. cbn. by rewrite <- app_assoc. }
  assert (chars_shown (t_fg t) (t_bg t) (l ++ [c]) = chars_shown (t_fg t) (t_bg t) l ++ [Char c (t_fg t) (t_bg t)]) as Ech.
  { unfold chars_shown. by rewrite fmap_app. }
  assert (0 ∉ l ++ [c]) as Hz' by (rewrite elem_of_app, list_elem_of_singleton; naive_solver).
  case_decide as Hfull.
  - assert (length l = 25%nat) as Hl by (unfold s1, VID_MAX_PUTCHARS_LEN in Hfull; cbn in Hfull; lia). unfold Flush. mred.
    rewrite decide_True by (unfold s1; cbn; lia). unfold SendVideoMessage, modify, with_buffer. cbn. eexists. split; [reflexivity|].
    exists [], (sent ++ [VIDMSG_PUTCHARS (strncpy_array 26 (console_buffer s1)) (console_fg s1) (console_bg s1)]).
    split; cbn; try done; [lia|apply not_elem_of_nil|by rewrite Hs|].
    rewrite app_nil_r, messages_shown_snoc. cbn [message_shown]. rewrite Eb, strncpy_array_zeros by first [done|rewrite length_app; cbn; lia].
    change (Z.to_nat VID_MAX_PUTCHARS_LEN) with 26%nat. rewrite take_ge, until_zero_padded by first [done|rewrite !length_app, length_replicate; cbn; lia].
    rewrite Hfg, Hbg, Ech, Ht. by rewrite app_assoc.
  - exists s1. split; [done|]. exists (l ++ [c]), sent. unfold s1, VID_MAX_PUTCHARS_LEN in *. cbn in Hfull.
    assert (length (l ++ [c]) = S (length l)) as Hlen by (rewrite length_app; cbn; lia).
    split; cbn; try done; [lia|lia|by rewrite Eb, Hlen|]. rewrite Ech, Ht. by rewrite app_assoc.
Qed.

Lemma put_all_run l : ∀ s t, 0 ∉ l → shows s t → ∃ s', put_all l s = Done (tt, s') ∧ shows s' (print l t).
Proof.
  induction l as [|c l IH]; intros s t Hz H; cbn [put_all print]; [by exists s|].
  apply not_elem_of_cons in Hz as [Hc Hz]. destruct (Putchar_run s t c) as (s1 & E1 & H1); [congruence|done|].
  destruct (IH s1 _ Hz H1) as (s2 & E2 & H2). exists s2. by rewrite (M_bind_done _ _ _ _ _ E1).
Qed.

(** ** Escape codes *)
Lemma last_char_last code c : last code = Some c → last_char code = c.
Proof. unfold last_char, code_at. rewrite last_lookup. intros E. replace (length code - 1)%nat with (pred (length code)) by lia. by rewrite E. Qed.
Lemma last_char_iff code c : c ≠ 0 → last_char code = c ↔ last code = Some c.
Proof.
  intros Hc. split; [|by apply last_char_last]. unfold last_char, code_at. rewrite last_lookup.
  replace (pred (length code)) with (length code - 1)%nat by lia. destruct (code !! _); cbn; congruence.
Qed.

Lemma to_semicolon_run code : 0 ∉ code → ∀ l n i, drop i code = l → (length l ≤ n)%nat →
  let j := to_semicolon code n i in
  match after_semicolon l with
  | Some r => code_at code j = 59 ∧ drop (S j) code = r
  | None => code_at code j = 0
  end.
Proof.
  intros Hz. induction l as [|c l IH]; intros n i Hd Hn j; unfold j; cbn [after_semicolon].
  - assert (code !! i = None) as Ei.
    { apply lookup_ge_None. assert (length (drop i code) = 0%nat) as E by by rewrite Hd. rewrite length_drop in E. lia. }
    assert (code_at code i = 0) as Eca by (unfold code_at; by rewrite Ei).
    destruct n; cbn [to_semicolon]; [done|]. by rewrite decide_False by (rewrite Eca; intros [? _]; done).
  - assert (code !! i = Some c) as Ei by (rewrite <- (Nat.add_0_r i), <- lookup_drop, Hd; done).
    assert (c ≠ 0) as Hc by (intros ->; apply Hz; by eapply list_elem_of_lookup_2).
    assert (drop (S i) code = l) as Hd' by (rewrite <- (Nat.add_1_r i), <- drop_drop, Hd; done).
    destruct n as [|n]; [cbn in Hn; lia|]. cbn [to_semicolon].
    assert (code_at code i = c) as Eca by (unfold code_at; by rewrite Ei). destruct (decide (c = 59)) as [H59|H59].
    + rewrite decide_False by (rewrite Eca; naive_solver). by rewrite Eca.
    + rewrite decide_True by (by rewrite Eca). apply IH; [done|cbn in Hn; lia].
Qed.

Lemma aget_palette n : 0 ≤ n ≤ 7 → aget colour_map n = Some (palette n).
Proof.
  intros Hn. unfold palette, colour_map. destruct (aget _ n) eqn:E; [done|]. exfalso. unfold aget in E. rewrite decide_True in E by lia.
  apply lookup_ge_None in E. cbn in E. lia.
Qed.

Lemma colours_run fg bg s t : flushed s t → flushed (with_colours fg bg s) (colours fg bg t).
Proof. intros (sent & [Hfg Hbg Hp Hr Hz Hb Hs Ht]). exists sent. by split. Qed.

Lemma set_colour_run n s t : flushed s t → ∃ s',
  (s ← get;
   if decide (30 ≤ n ≤ 37) then c ← deref (aget colour_map (n - 30)); modify (with_colours c (console_bg s))
   else if decide (40 ≤ n ≤ 47) then c ← deref (aget colour_map (n - 40)); modify (with_colours (console_fg s) c)
   else if decide (90 ≤ n ≤ 97) then c ← deref (aget colour_map (n - 90)); modify (with_colours (c + 8) (console_bg s))
   else if decide (100 ≤ n ≤ 107) then c ← deref (aget colour_map (n - 100)); modify (with_colours (console_fg s) (c + 8))
   else mret tt) s = Done (tt, s') ∧ flushed s' (set_colour n t).
Proof.
  intros H. pose proof H as (sent & [Hfg Hbg _ _ _ _ _ _]). mred. unfold set_colour. rewrite <- Hfg, <- Hbg.
  repeat case_decide; rewrite ?aget_palette by lia; mred; eexists; (split; [reflexivity|]); try apply colours_run; done.
Qed.

Lemma cursor_run x y s t : flushed s t → ∃ s', SendVideoMessage (VIDMSG_SET_CURSOR x y) s = Done (tt, s') ∧ flushed s' (emit (Cursor x y) t).
Proof.
  intros (sent & [Hfg Hbg Hp Hr Hz Hb Hs Ht]). eexists. split; [reflexivity|]. exists (sent ++ [VIDMSG_SET_CURSOR x y]).
  split; cbn; try done; [by rewrite Hs|]. rewrite app_nil_r in *. rewrite messages_shown_snoc. cbn [message_shown]. by rewrite Ht.
Qed.

Lemma escape_run code s t : 0 ∉ code → shows s t → ∃ s', ProcessAnsiEscapeCode code s = Done (tt, s') ∧ shows s' (escape_code code t).
Proof.
  intros Hz H. unfold ProcessAnsiEscapeCode. destruct code as [|c l]; [by exists s|].
  change (code_at (c :: l) 0) with c. destruct (decide (c = 91)) as [->|Hc].
  2: { rewrite decide_True by done. exists s. split; [done|]. unfold escape_code. repeat (case_match; try done; try congruence). }
  rewrite decide_False by (intros ?; done). unfold escape_code. set (code := 91 :: l) in *.
  assert (∀ k, 0 ∉ k → strcmp code k = 0 ↔ code = k) as Hcmp by (intros; by apply strcmp_eq).
  assert (0 ∉ [91; 50; 74]) as Hk1 by (rewrite !elem_of_cons, elem_of_nil; naive_solver).
  assert (0 ∉ [91; 48; 109]) as Hk2 by (rewrite !elem_of_cons, elem_of_nil; naive_solver).
  destruct (decide (code = [91; 50; 74])) as [E|Hn1]; [|].
  { rewrite decide_True by (by apply Hcmp). destruct H as (p & sent & [Hfg Hbg Hp Hr Hz' Hb Hs Ht]).
    unfold SendVideoMessage, modify, with_buffer. mred. eexists. split; [reflexivity|].
    exists [], (sent ++ [VIDMSG_CLEAR_SCREEN (t_bg t) (t_fg t)]).
    split; cbn; try done; [lia|apply not_elem_of_nil|by rewrite Hs, Hfg, Hbg|]. by rewrite messages_shown_snoc. }
  rewrite decide_False by (by rewrite Hcmp). destruct (decide (code = [91; 48; 109])) as [E|Hn2].
  { rewrite decide_True by (by apply Hcmp). destruct (console_Flush_run s t H) as (s1 & E1 & H1). rewrite (M_bind_done _ _ _ _ _ E1).
    eexists. split; [reflexivity|]. apply flushed_shows. by apply colours_run. }
  rewrite decide_False by (by rewrite Hcmp).
  destruct (decide (4 ≤ length code ∧ last code = Some 109)) as [[E1 E2]|Hn3].
  { rewrite decide_True by (by rewrite last_char_iff). destruct (console_Flush_run s t H) as (s1 & Es1 & H1). rewrite (M_bind_done _ _ _ _ _ Es1).
    destruct (set_colour_run (atoi (drop 1 code)) s1 t H1) as (s2 & Es2 & H2). exists s2. split; [exact Es2|]. by apply flushed_shows. }
  rewrite decide_False by (by rewrite last_char_iff). destruct (decide (4 ≤ length code ∧ last code = Some 72)) as [E|Hn4].
  { rewrite decide_True by (by rewrite last_char_iff). pose proof (to_semicolon_run code Hz l (length code) 1 eq_refl ltac:(cbn; lia)) as Hsc.
    cbv zeta in Hsc |- *. unfold move. destruct (after_semicolon l) as [r|].
    - destruct Hsc as [Ej Er]. set (j := to_semicolon code (length code) 1) in *.
      assert (code_at code (S j) = default 0 (head r)) as Eh by (unfold code_at; rewrite <- Er, head_lookup, lookup_drop; by rewrite Nat.add_0_r).
      rewrite Eh. destruct r as [|c r]; [rewrite decide_False by (cbn; naive_solver); by exists s|].
      assert (c ≠ 0) as Hc.
      { intros ->. apply Hz. rewrite <- (take_drop (S j) code), Er. apply elem_of_app. right. left. }
      rewrite decide_True by done. destruct (console_Flush_run s t H) as (s1 & Es1 & H1). rewrite (M_bind_done _ _ _ _ _ Es1), Er.
      destruct (cursor_run (i32 (atoi (c :: r) - 1)) (i32 (atoi l - 1)) s1 t H1) as (s2 & Es2 & H2). exists s2. split; [exact Es2|]. by apply flushed_shows.
    - rewrite decide_False by (rewrite Hsc; naive_solver). by exists s. }
  rewrite decide_False by (by rewrite last_char_iff).
  destruct (put_all_run (27 :: code) s t) as (s1 & E1 & H1); [by rewrite not_elem_of_cons|done|]. exists s1. split; [exact E1|exact H1].
Qed.

(** ** The thread *)
Definition parses (p : parser) (t : terminal) : Prop :=
  length (ansi_code p) = 16%nat ∧
  match t_code t with
  | None => escape p = false
  | Some code => escape p = true ∧ ansi_code_len p = length code ∧ (length code < 14)%nat ∧ (0 ∉ code) ∧ take (length code) (ansi_code p) = code
  end.

Lemma shows_code o s t : shows s t → shows s (code_is o t).
Proof. intros (p & sent & []). exists p, sent. by split. Qed.

Lemma print_code l : ∀ t, t_code (print l t) = t_code t.
Proof. induction l as [|c l IH]; intros t; [done|]. exact (IH (emit (Char c (t_fg t) (t_bg t)) t)). Qed.
Lemma escape_code_code code t : t_code (escape_code code t) = t_code t.
Proof.
  unfold escape_code. destruct code as [|c l]; [done|]. destruct (decide (c = 91)) as [->|Hc]; [|repeat (case_match; try done; try congruence)].
  repeat (case_decide; [try done|]); try done; [| |by rewrite print_code].
  - unfold set_colour. by repeat case_decide.
  - unfold move. by repeat case_match.
Qed.

Lemma console_byte_run p s t c :
  c ≠ 0 → shows s t → parses p t → ∃ p' s', console_byte p c s = Done (p', s') ∧ shows s' (terminal_byte t c) ∧ parses p' (terminal_byte t c).
Proof.
  intros Hc H [Hlen Hp]. unfold console_byte, terminal_byte. destruct (t_code t) as [code|] eqn:Et.
  - destruct Hp as (-> & -> & Hl & Hz & Hcode). rewrite aset_nat by lia. mred.
    assert (take (S (length code)) (<[length code := c]> (ansi_code p)) = code ++ [c]) as Ecode.
    { rewrite (take_S_r _ _ c) by (apply list_lookup_insert_eq; lia). by rewrite take_insert_ge, Hcode by lia. }
    assert (length (code ++ [c]) = S (length code)) as El by (rewrite length_app; cbn; lia).
    assert (0 ∉ code ++ [c]) as Hz' by (rewrite elem_of_app, list_elem_of_singleton; naive_solver).
    replace (Z.of_nat (length code) + 1) with (Z.of_nat (S (length code))) by lia.
    destruct (decide ((64 ≤ c ∧ c ≠ 91) ∨ 14 ≤ Z.of_nat (S (length code)))) as [Hend|Hmore].
    + rewrite decide_True by (rewrite El; lia). rewrite aset_nat by (rewrite length_insert; lia). mred.
      assert (until_zero (<[S (length code) := 0]> (<[length code := c]> (ansi_code p))) = code ++ [c]) as ->.
      { rewrite <- (take_drop_middle (<[S (length code) := 0]> (<[length code := c]> (ansi_code p))) (S (length code)) 0)
          by (apply list_lookup_insert_eq; rewrite length_insert; lia).
        rewrite take_insert_ge, Ecode by lia. by apply until_zero_app. }
      destruct (escape_run (code ++ [c]) s (code_is None t) Hz' (shows_code _ _ _ H)) as (s1 & E1 & H1). rewrite E1. cbn.
      do 2 eexists. split; [reflexivity|]. split; [done|]. split; [cbn; by rewrite !length_insert|]. by rewrite escape_code_code.
    + rewrite decide_False by (rewrite El; lia). do 2 eexists. split; [reflexivity|]. split; [by apply shows_code|].
      split; [cbn; by rewrite length_insert|]. cbn [t_code code_is ansi_code escape ansi_code_len]. rewrite El. split_and!; [done|done|lia|done|done].
  - rewrite Hp. destruct (decide (c = 27)) as [->|Hesc].
    + do 2 eexists. split; [reflexivity|]. split; [by apply shows_code|]. split; [done|]. cbn. split_and!; [done|done|lia|apply not_elem_of_nil|done].
    + destruct (Putchar_run s t c Hc H) as (s1 & E1 & H1). rewrite (M_bind_done _ _ _ _ _ E1). do 2 eexists. split; [reflexivity|].
      split; [done|]. split; [done|]. cbn [t_code emit]. by rewrite Et.
Qed.

Lemma console_bytes_run l : ∀ p s t,
  0 ∉ l → shows s t → parses p t →
  ∃ p' s', console_bytes p l s = Done (p', s') ∧ shows s' (foldl terminal_byte t l) ∧ parses p' (foldl terminal_byte t l).
Proof.
  induction l as [|c l IH]; intros p s t Hz H Hp; [by exists p, s|]. apply not_elem_of_cons in Hz as [Hc Hz].
  destruct (console_byte_run p s t c) as (p1 & s1 & E1 & H1 & Hp1); [congruence|done|done|].
  destruct (IH p1 s1 _ Hz H1 Hp1) as (p2 & s2 & E2 & H2). exists p2, s2. split; [|exact H2].
  cbn [console_bytes]. by rewrite (M_bind_done _ _ _ _ _ E1).
Qed.

Lemma console_reads_run reads : ∀ p s t,
  Forall (λ l, 0 ∉ l) reads → flushed s t → parses p t →
  ∃ p' s', console_reads p reads s = Done (p', s') ∧ flushed s' (foldl terminal_byte t (concat reads)).
Proof.
  induction reads as [|l reads IH]; intros p s t Hz H Hp; [by exists p, s|]. apply Forall_cons in Hz as [Hl Hz].
  destruct (console_bytes_run l p s t Hl (flushed_shows _ _ H) Hp) as (p1 & s1 & E1 & H1 & Hp1).
  destruct (console_Flush_run s1 _ H1) as (s2 & E2 & H2). destruct (IH p1 s2 _ Hz H2 Hp1) as (p3 & s3 & E3 & H3).
  exists p3, s3. split; [cbn [console_reads]; by rewrite (M_bind_done _ _ _ _ _ E1), (M_bind_done _ _ _ _ _ E2)|].
  cbn [concat]. by rewrite foldl_app.
Qed.

Lemma initial_console_flushed : flushed initial_console fresh_terminal.
Proof. exists []. split; try done; cbn; [lia|apply not_elem_of_nil]. Qed.

(** However the bytes written to the console are split into reads, and however the
    characters are gathered into messages, the messages show what a terminal without
    a buffer shows that acts on every byte at once: the characters in their colours,
    cursor movements and the clearing of the screen. No access leaves the arrays of the
    code and of the buffer. *)
Theorem console_is_unbuffered (junk : list Z) (reads : list (list Z)) :
  length junk = 16%nat → Forall (λ l, 0 ∉ l) reads →
  ∃ p s ms, ConsoleDriverThread junk reads initial_console = Done (p, s) ∧ messages s = Some ms ∧
    messages_shown ms = t_shown (foldl terminal_byte fresh_terminal (concat reads)).
Proof.
  intros Hj Hz. destruct (console_reads_run reads (Parser false junk 0) initial_console fresh_terminal Hz initial_console_flushed) as (p & s & E & ms & H);
    [by split|]. exists p, s, ms. split; [exact E|]. destruct H as [_ _ _ _ _ _ Hs Ht]. split; [done|].
  rewrite Ht. cbn. by rewrite app_nil_r.
Qed.

(** ** Runs *)
Lemma console_is_unbuffered_witness : let reads := [[72; 105; 27; 91; 51]; [49; 109; 33]] in
  ∃ p s ms, ConsoleDriverThread (replicate 16 7) reads initial_console = Done (p, s) ∧ messages s = Some ms ∧
    messages_shown ms = [Char 72 7 0; Char 105 7 0; Char 33 4 0].
Proof.
  apply (console_is_unbuffered (replicate 16 7) [[72; 105; 27; 91; 51]; [49; 109; 33]]); [reflexivity|].
  repeat constructor; rewrite !elem_of_cons, elem_of_nil; naive_solver.
Defined.

Definition sent_messages (reads : list (list Z)) : option (list video_msg) :=
  match ConsoleDriverThread (replicate 16 0) reads initial_console with Done (_, s) => messages s | _ => None end.

(** [ESC\[2J] drops what was not sent yet; [ESC\[5;3H] moves the cursor. *)
Example clear_and_move : sent_messages [[65; 27; 91; 50; 74; 27; 91; 53; 59; 51; 72; 66]] =
  Some [VIDMSG_CLEAR_SCREEN 0 7; VIDMSG_SET_CURSOR 2 4; VIDMSG_PUTCHARS (66 :: replicate 25 0) 7 0].
Proof. reflexivity. Qed.
(** What comes after a zero byte is lost, up to the end of the message. *)
Example zero_byte_hides : sent_messages [[65; 0; 66]] = Some [VIDMSG_PUTCHARS (65 :: replicate 25 0) 7 0].
Proof. reflexivity. Qed.
(** Of several attributes in a code only the first number counts. *)
Example several_attributes : messages_shown (default [] (sent_messages [[27; 91; 49; 59; 51; 49; 109; 65]])) = [Char 65 7 0].
Proof. reflexivity. Qed.
