(* ===== verification/Vga.v ===== *)
(** * drivers/x86/vga/vga.c: the text mode screen

    The video driver of the console: it takes messages and writes characters with
    their colours into the 80 by 25 cells of video memory. A write outside the cells
    of the screen is a fault of the model. *)

From S2P Require Import Prelude Vnode CString Strings Console.

Definition SCREEN_WIDTH : Z := 80.
Definition SCREEN_HEIGHT : Z := 25.

Record vga := VgaData {
  cursor_x : Z;
  cursor_y : Z;
  colour : Z;
  cells : list Z;          (* video memory, a [uint16_t] for each cell *)
  hw_cursor : Z * Z;       (* what was last written to the registers 0x0E and 0x0F *)
}.

Definition u16 (z : Z) : Z := z `mod` 2 ^ 16.

Definition at_cursor (x y : Z) (s : vga) : vga := VgaData x y (colour s) (cells s) (hw_cursor s).
Definition with_colour (c : Z) (s : vga) : vga := VgaData (cursor_x s) (cursor_y s) c (cells s) (hw_cursor s).
Definition with_cells (l : list Z) (s : vga) : vga := VgaData (cursor_x s) (cursor_y s) (colour s) l (hw_cursor s).

Definition VgaSetCursor : M vga unit :=
  modify (λ s, let pos := cursor_y s * 80 + cursor_x s in
    VgaData (cursor_x s) (cursor_y s) (colour s) (cells s) (u8 (Z.shiftr pos 8), u8 (Z.land pos 255))).

Definition store_cell (i v : Z) : M vga unit :=
  s ← get; l ← deref (aset (cells s) i v); modify (with_cells l).

Fixpoint ClearLine_loop (n : nat) (i : Z) : M vga unit :=
  match n with O => mret tt | S n => s ← get; store_cell i (colour s);; ClearLine_loop n (i + 1) end.
Definition ClearLine (y : Z) : M vga unit := ClearLine_loop 80 (80 * y).

(** [memmove] by one line, up. *)
Definition scroll (l : list Z) : list Z := take 1920 (drop 80 l) ++ drop 1920 l.

Definition VgaNewline : M vga unit :=
  modify (λ s, at_cursor 0 (cursor_y s) s);;
  s ← get;
  c_assert (bool_decide (cursor_y s < SCREEN_HEIGHT));;
  if decide (cursor_y s = SCREEN_HEIGHT - 1) then
    modify (λ s, with_cells (scroll (cells s)) s);;
    ClearLine (SCREEN_HEIGHT - 1)
  else modify (λ s, at_cursor (cursor_x s) (cursor_y s + 1) s).

(** [data.colour | c], where [c] is a signed [char]. *)
Definition VgaRenderCharacter (c : Z) : M vga unit :=
  s ← get; store_cell (cursor_y s * 80 + cursor_x s) (u16 (Z.lor (colour s) c)).

(** The last case of [DrvConsolePutchar]. *)
Definition put_visible (c : Z) : M vga unit :=
  VgaRenderCharacter c;;
  modify (λ s, at_cursor (cursor_x s + 1) (cursor_y s) s);;
  s ← get;
  if decide (cursor_x s = SCREEN_WIDTH) then VgaNewline else mret tt.

(** [while (data.cursor_x % 8 != 0) DrvConsolePutchar(' ')], at most [n] turns. *)
Fixpoint tab_loop (n : nat) : M vga unit :=
  s ← get;
  if decide (Z.rem (cursor_x s) 8 ≠ 0) then
    match n with O => exhausted | S n => put_visible 32;; tab_loop n end
  else mret tt.

Definition DrvConsolePutchar (c : Z) : M vga unit :=
  if decide (c = 10) then VgaNewline
  else if decide (c = 13) then modify (λ s, at_cursor 0 (cursor_y s) s)
  else if decide (c = 8) then
    s ← get;
    if decide (0 < cursor_x s) then modify (λ s, at_cursor (cursor_x s - 1) (cursor_y s) s)
    else modify (λ s, at_cursor (SCREEN_WIDTH - 1) (cursor_y s - 1) s)
  else if decide (c = 9) then put_visible 32;; tab_loop 8
  else put_visible c.

(** The characters of a string or of a message, up to the first zero. *)
Fixpoint put_string (l : list Z) : M vga unit :=
  match l with
  | [] => mret tt
  | c :: l => if decide (c = 0) then mret tt else DrvConsolePutchar c;; put_string l
  end.

(** "\n\nPANIC               \n". *)
Definition panic_banner : list Z := [10; 10; 80; 65; 78; 73; 67] ++ replicate 15 32 ++ [10].
Definition PanicHandler (msg : list Z) : M vga unit :=
  modify (with_colour (Z.shiftl 31 8));;
  put_string panic_banner;;
  put_string msg.

Fixpoint clear_lines (n : nat) (i : Z) : M vga unit :=
  match n with O => mret tt | S n => ClearLine i;; clear_lines n (i + 1) end.
Definition ClearScreen : M vga unit :=
  modify (at_cursor 0 0);;
  clear_lines (Z.to_nat SCREEN_HEIGHT) 0.

Definition colour_of (fg bg : Z) : Z := u16 (Z.lor (Z.shiftl fg 8) (Z.shiftl bg 12)).

(** A turn of [MessageLoop]. *)
Definition vga_message (m : video_msg) : M vga unit :=
  match m with
  | VIDMSG_CLEAR_SCREEN bg fg =>
    modify (with_colour (colour_of fg bg));;
    ClearScreen
  | VIDMSG_PUTCHAR c fg bg =>
    modify (with_colour (colour_of fg bg));;
    DrvConsolePutchar c;;
    VgaSetCursor
  | VIDMSG_PUTCHARS cs fg bg =>
    modify (with_colour (colour_of fg bg));;
    put_string (take (Z.to_nat VID_MAX_PUTCHARS_LEN) cs);;
    VgaSetCursor
  | VIDMSG_SET_CURSOR x y =>
    modify (at_cursor x y);;
    VgaSetCursor
  end.

Fixpoint MessageLoop (l : list video_msg) : M vga unit :=
  match l with [] => mret tt | m :: l => vga_message m;; MessageLoop l end.

(** The screen that [InitVga] clears; the cursor registers keep what they held. *)
Definition InitVga : M vga unit := ClearScreen.
Definition at_boot (l : list Z) (hw : Z * Z) : vga := VgaData 0 0 (Z.shiftl 7 8) l hw.

(** * Text on the screen

    Text is a growing list of rows of 80 cells, of which the screen shows the last 25. *)

(** ** Paper: the text in rows, written at its end *)
Record paper := Paper { p_above : list (list Z); p_row : list Z; p_x : nat; p_blank : Z }.

Definition blank_row (c : Z) : list Z := replicate 80 c.
(** A new row is one of the empty rows of the screen, until it has scrolled. *)
Definition new_row (colour : Z) (p : paper) : paper :=
  Paper (p_above p ++ [p_row p]) (blank_row (if decide (length (p_above p) < 24)%nat then p_blank p else colour)) 0 (p_blank p).
Definition put_cell (colour c : Z) (p : paper) : paper :=
  let p := Paper (p_above p) (<[p_x p := u16 (Z.lor colour c)]> (p_row p)) (S (p_x p)) (p_blank p) in
  if decide (p_x p = 80%nat) then new_row colour p else p.
Fixpoint put_spaces (n : nat) (colour : Z) (p : paper) : paper :=
  match n with O => p | S n => put_spaces n colour (put_cell colour 32 p) end.
(** To the next multiple of 8: 80 is one. *)
Definition put_tab (colour : Z) (p : paper) : paper := put_spaces (8 - p_x p mod 8) colour p.

(** [None] for a backspace at the start of a row. *)
Definition put_char (colour c : Z) (p : paper) : option paper :=
  if decide (c = 10) then Some (new_row colour p)
  else if decide (c = 13) then Some (Paper (p_above p) (p_row p) 0 (p_blank p))
  else if decide (c = 8) then
    match p_x p with O => None | S x => Some (Paper (p_above p) (p_row p) x (p_blank p)) end
  else if decide (c = 9) then Some (put_tab colour p)
  else Some (put_cell colour c p).

Definition put_shown (p : paper) (e : shown) : option paper :=
  match e with Char c fg bg => put_char (colour_of fg bg) c p | _ => None end.
Fixpoint put_all_shown (p : paper) (l : list shown) : option paper :=
  match l with [] => Some p | e :: l => p ← put_shown p e; put_all_shown p l end.

Definition empty_paper (c : Z) : paper := Paper [] (blank_row c) 0 c.

(** What the screen shows of it. *)
Definition rows (p : paper) : list (list Z) := p_above p ++ [p_row p].
Definition window (p : paper) : list (list Z) :=
  let n := length (rows p) in
  if decide (n ≤ 25)%nat then rows p ++ replicate (25 - n) (blank_row (p_blank p)) else drop (n - 25) (rows p).

Record screen_at (s : vga) (p : paper) : Prop := {
  si_cells : cells s = concat (window p);
  si_x : cursor_x s = p_x p;
  si_y : cursor_y s = Z.min (length (rows p)) 25 - 1;
  si_above : Forall (λ r, length r = 80%nat) (p_above p);
  si_row : length (p_row p) = 80%nat;
}.

Definition screen_is (s : vga) (p : paper) : Prop := screen_at s p ∧ (p_x p < 80)%nat.

(** ** Rows of equal length *)
Lemma length_concat_rows (l : list (list Z)) : Forall (λ r, length r = 80%nat) l → length (concat l) = (80 * length l)%nat.
Proof. induction 1 as [|r l Hr Hl IH]; cbn; [done|]. rewrite length_app, Hr, IH. lia. Qed.

Lemma concat_insert (l : list (list Z)) i j r v : Forall (λ r, length r = 80%nat) l → l !! i = Some r → (j < 80)%nat →
  <[(80 * i + j)%nat := v]> (concat l) = concat (<[i := <[j := v]> r]> l).
Proof.
  intros Hl. revert i. induction Hl as [|r0 l Hr Hl IH]; intros i Hi Hj; [done|]. destruct i as [|i]; cbn [concat].
  - injection Hi as ->. change (<[0%nat := <[j := v]> r]> (r :: l)) with (<[j := v]> r :: l). cbn [concat].
    by rewrite insert_app_l by lia.
  - change (<[S i := <[j := v]> r]> (r0 :: l)) with (r0 :: <[i := <[j := v]> r]> l). cbn [concat].
    rewrite <- IH by done. rewrite insert_app_r_alt by lia. by replace (80 * S i + j - length r0)%nat with (80 * i + j)%nat by lia.
Qed.

Lemma drop_rows (l : list (list Z)) n : Forall (λ r, length r = 80%nat) l → drop (80 * n) (concat l) = concat (drop n l).
Proof.
  intros Hl. revert n. induction Hl as [|r l Hr Hl IH]; intros n; [cbn [concat]; by rewrite !drop_nil|]. destruct n as [|n]; [done|].
  cbn [concat drop]. rewrite <- IH, drop_app_ge by lia. by replace (80 * S n - length r)%nat with (80 * n)%nat by lia.
Qed.
Lemma take_rows (l : list (list Z)) n : Forall (λ r, length r = 80%nat) l → take (80 * n) (concat l) = concat (take n l).
Proof.
  intros Hl. revert n. induction Hl as [|r l Hr Hl IH]; intros n; [cbn [concat]; by rewrite !take_nil|]. destruct n as [|n]; [done|].
  cbn [concat take]. rewrite <- IH, take_app_ge by lia. by replace (80 * S n - length r)%nat with (80 * n)%nat by lia.
Qed.

(** ** The window *)
Lemma rows_length s p : screen_at s p → Forall (λ r, length r = 80%nat) (rows p).
Proof. intros [_ _ _ Ha Hr]. apply Forall_app. split; [done|by repeat constructor]. Qed.
Lemma window_rows p : Forall (λ r, length r = 80%nat) (rows p) → Forall (λ r, length r = 80%nat) (window p) ∧ length (window p) = 25%nat.
Proof.
  intros H. unfold window. case_decide as Hn.
  - split; [|rewrite length_app, length_replicate; lia]. apply Forall_app. split; [done|]. apply Forall_replicate. apply length_replicate.
  - split; [by apply Forall_drop|]. rewrite length_drop. lia.
Qed.

(** The last row of the text is where the cursor is. *)
Lemma window_last p : ∃ u d, window p = u ++ p_row p :: d ∧ Z.of_nat (length u) = Z.min (length (rows p)) 25 - 1 ∧
  ∀ r x, window (Paper (p_above p) r x (p_blank p)) = u ++ r :: d.
Proof.
  unfold window, rows. cbn [p_above p_row p_blank p_x]. rewrite !length_app. cbn [length].
  destruct (decide (length (p_above p) + 1 ≤ 25)%nat) as [Hn|Hn].
  - exists (p_above p), (replicate (25 - (length (p_above p) + 1)) (blank_row (p_blank p))). split; [by rewrite <- app_assoc|]. split; [lia|].
    intros r x. rewrite length_app. cbn [length]. rewrite decide_True by done. by rewrite <- app_assoc.
  - exists (drop (length (p_above p) + 1 - 25) (p_above p)), []. rewrite drop_app_le by lia. split; [done|]. split; [rewrite length_drop; lia|].
    intros r x. rewrite length_app. cbn [length]. rewrite decide_False by done. by rewrite drop_app_le by lia.
Qed.

(** ** The operations *)
#[local] Arguments ClearLine : simpl never.
#[local] Arguments scroll : simpl never.
Lemma ClearLine_loop_run n : ∀ s l r d, cells s = l ++ r ++ d → length r = n →
  ClearLine_loop n (length l) s = Done (tt, with_cells (l ++ replicate n (colour s) ++ d) s).
Proof.
  induction n as [|n IH]; intros s l r d Hs Hr; cbn [ClearLine_loop].
  - destruct r; [|done]. destruct s. cbn in *. by subst.
  - destruct r as [|c r]; [done|]. injection Hr as Hr. unfold store_cell. mred.
    rewrite Hs, aset_nat by (rewrite length_app; cbn; lia). mred. unfold modify. cbn.
    assert (<[length l := colour s]> (l ++ c :: r ++ d) = (l ++ [colour s]) ++ r ++ d) as E
      by (rewrite insert_app_r_alt, Nat.sub_diag by lia; cbn; by rewrite <- app_assoc).
    rewrite E. replace (Z.of_nat (length l) + 1) with (Z.of_nat (length (l ++ [colour s]))) by (rewrite length_app; cbn; lia).
    rewrite (IH _ (l ++ [colour s]) r d) by done. cbn. by rewrite <- app_assoc.
Qed.
Lemma ClearLine_run y s u r d :
  cells s = u ++ r ++ d → length u = (80 * y)%nat → length r = 80%nat →
  ClearLine (Z.of_nat y) s = Done (tt, with_cells (u ++ blank_row (colour s) ++ d) s).
Proof.
  intros Hs Hu Hr. unfold ClearLine. replace (80 * Z.of_nat y) with (Z.of_nat (length u)) by lia. by apply (ClearLine_loop_run 80 s u r d).
Qed.

Lemma window_full p : (25 ≤ length (rows p))%nat → window p = drop (length (rows p) - 25) (rows p).
Proof.
  intros Hn. unfold window. case_decide; [|done]. replace (length (rows p)) with 25%nat by lia. cbn [Nat.sub replicate]. by rewrite app_nil_r.
Qed.

Lemma new_row_window c p : Forall (λ r, length r = 80%nat) (rows p) →
  concat (window (new_row c p)) =
    if decide (length (rows p) < 25)%nat then concat (window p) else concat (drop 1 (window p)) ++ blank_row c.
Proof.
  intros Hrows. assert (rows (new_row c p) = rows p ++ [p_row (new_row c p)]) as Er by done.
  assert (length (rows p) = S (length (p_above p))) as El by (unfold rows; rewrite length_app; cbn; lia).
  case_decide as Hn.
  - f_equal. unfold window at 1. rewrite Er, length_app. cbn [length]. rewrite decide_True by lia. unfold window. rewrite decide_True by lia.
    cbn [p_row new_row p_blank]. rewrite decide_True by lia. replace (25 - length (rows p))%nat with (S (25 - (length (rows p) + 1))) by lia.
    cbn [replicate]. by rewrite <- app_assoc.
  - rewrite !window_full by (rewrite ?Er, ?length_app; cbn; lia). rewrite drop_drop. rewrite Er at 1 2. rewrite length_app. cbn [length].
    rewrite drop_app_le by lia. cbn [p_row new_row]. rewrite decide_False by lia. rewrite concat_app. cbn [concat]. rewrite app_nil_r.
    by replace (length (rows p) + 1 - 25)%nat with (length (rows p) - 25 + 1)%nat by lia.
Qed.

Lemma VgaNewline_run s p : screen_at s p →
  ∃ s', VgaNewline s = Done (tt, s') ∧ screen_is s' (new_row (colour s) p) ∧ colour s' = colour s.
Proof.
  intros H. pose proof (rows_length s p H) as Hrows. destruct H as [Hc Hx Hy Ha Hr].
  assert (length (rows p) = S (length (p_above p))) as El by (unfold rows; rewrite length_app; cbn; lia).
  assert (length (rows (new_row (colour s) p)) = S (length (rows p))) as El' by (unfold rows; cbn; rewrite !length_app; cbn; lia).
  unfold VgaNewline, modify, SCREEN_HEIGHT. mred. unfold at_cursor. cbn [cursor_y cursor_x].
  rewrite bool_decide_eq_true_2 by lia. destruct (decide (cursor_y s = 25 - 1)) as [Ey|Ey].
  - cbn. destruct (window_rows p Hrows) as [Hw Hlw]. unfold scroll. rewrite Hc.
    rewrite (drop_rows (window p) 1 Hw : drop 80 _ = _), (drop_rows (window p) 24 Hw : drop 1920 _ = _).
    rewrite (take_rows (drop 1 (window p)) 24 (Forall_drop _ 1 _ Hw) : take 1920 _ = _). rewrite (take_ge (drop 1 (window p))) by (rewrite length_drop; lia).
    match goal with |- context [ClearLine _ ?s1] => set (s1' := s1) end.
    assert (cells s1' = concat (drop 1 (window p)) ++ concat (drop 24 (window p)) ++ []) as Es1 by (by rewrite app_nil_r).
    assert (length (concat (drop 1 (window p))) = (80 * 24)%nat) as Hu by (rewrite length_concat_rows, length_drop, Hlw by (by apply Forall_drop); done).
    assert (length (concat (drop 24 (window p))) = 80%nat) as Hd by (rewrite length_concat_rows, length_drop, Hlw by (by apply Forall_drop); done).
    pose proof (ClearLine_run 24 s1' _ _ [] Es1 Hu Hd) as E. change (25 - 1) with (Z.of_nat 24). rewrite E. eexists. split; [reflexivity|]. split; [|done].
    split; [|cbn; lia]. split; try done.
    + cbn [cells with_cells]. rewrite new_row_window, decide_False by (done || lia). by rewrite app_nil_r.
    + cbn [cursor_y with_cells s1']. rewrite El'. cbn. lia.
  - cbn. eexists. split; [reflexivity|]. split; [|done]. split; [|cbn; lia]. split; try done.
    + cbn [cells]. rewrite new_row_window, decide_True by (done || lia). done.
    + cbn [cursor_y]. rewrite El'. lia.
Qed.

Lemma put_visible_run s p c : screen_is s p →
  ∃ s', put_visible c s = Done (tt, s') ∧ screen_is s' (put_cell (colour s) c p) ∧ colour s' = colour s.
Proof.
  intros [H Hin]. pose proof (rows_length s p H) as Hrows. destruct (window_rows p Hrows) as [Hw Hlw]. destruct H as [Hc Hx Hy Ha Hr].
  destruct (window_last p) as (u & d & Ew & Hu & Hall).
  assert (cursor_y s * 80 + cursor_x s = Z.of_nat (80 * length u + p_x p)) as Ei by lia.
  unfold put_visible, VgaRenderCharacter, store_cell, modify. mred. rewrite Ei.
  rewrite aset_nat by (rewrite Hc, length_concat_rows, Hlw by done; assert (length u < 25)%nat by (rewrite <- Hlw, Ew, length_app; cbn; lia); lia).
  mred. cbn [cursor_x with_cells at_cursor cursor_y].
  assert (<[(80 * length u + p_x p)%nat := u16 (Z.lor (colour s) c)]> (cells s) =
    concat (window (Paper (p_above p) (<[p_x p := u16 (Z.lor (colour s) c)]> (p_row p)) (S (p_x p)) (p_blank p)))) as Ecells.
  { rewrite Hc, (concat_insert _ _ _ (p_row p)) by first [done|rewrite Ew; by apply list_lookup_middle].
    rewrite Hall. rewrite Ew. by rewrite insert_app_r_alt, Nat.sub_diag by lia. }
  set (p1 := Paper _ _ _ _) in Ecells. set (s1 := at_cursor _ _ _).
  assert (screen_at s1 p1) as H1.
  { split; [exact Ecells|cbn; lia|cbn; unfold rows in *; cbn; rewrite length_app in *; done|done|cbn; by rewrite length_insert]. }
  unfold put_cell. fold p1. unfold SCREEN_WIDTH. destruct (decide (cursor_x s + 1 = 80)) as [E80|E80].
  - rewrite decide_True by (cbn; lia). destruct (VgaNewline_run s1 p1 H1) as (s2 & E2 & H2 & Hcol). exists s2. by split_and!.
  - rewrite decide_False by (cbn; lia). exists s1. split; [done|]. split; [|done]. split; [done|cbn; lia].
Qed.

Lemma put_cell_x colour c p : p_x (put_cell colour c p) = if decide (S (p_x p) = 80)%nat then 0%nat else S (p_x p).
Proof. unfold put_cell. cbn [p_x]. by case_decide. Qed.

(** After a character there is one space less to the next multiple of 8. *)
Lemma next_tab x : (x < 80)%nat → ((8 - (if decide (S x = 80) then 0 else S x) mod 8) mod 8 = 7 - x mod 8)%nat.
Proof.
  intros Hx. pose proof (Nat.mod_upper_bound x 8 ltac:(done)). pose proof (Nat.div_mod_eq x 8) as Hdm. case_decide as H80.
  - assert (x = 79)%nat as -> by lia. done.
  - destruct (decide (x mod 8 = 7)%nat) as [E7|H7].
    + assert (S x mod 8 = 0)%nat as E8.
      { replace (S x) with ((x / 8 + 1) * 8)%nat by lia. apply Nat.Div0.mod_mul. }
      by rewrite E8, E7.
    + assert (S x mod 8 = S (x mod 8))%nat as E8.
      { replace (S x) with (S (x mod 8) + x / 8 * 8)%nat by lia. rewrite Nat.Div0.mod_add. apply Nat.mod_small. lia. }
      rewrite E8, Nat.mod_small by lia. lia.
Qed.

(** The spaces still to come of a tab. *)
Lemma tab_loop_run n : ∀ s p, screen_is s p → ((8 - p_x p mod 8) mod 8 ≤ n)%nat →
  ∃ s', tab_loop n s = Done (tt, s') ∧ screen_is s' (put_spaces ((8 - p_x p mod 8) mod 8) (colour s) p) ∧ colour s' = colour s.
Proof.
  induction n as [|n IH]; intros s p H Hn.
  all: pose proof H as [[_ Hx _ _ _] Hin].
  all: pose proof (Nat.mod_upper_bound (p_x p) 8 ltac:(done)) as Hm.
  all: assert (Z.rem (cursor_x s) 8 = Z.of_nat (p_x p mod 8)) as Erem by (rewrite Hx, Z.rem_mod_nonneg, Nat2Z.inj_mod by lia; done).
  all: cbn [tab_loop]; mred; rewrite Erem.
  - assert (p_x p mod 8 = 0)%nat as E0.
    { destruct (decide (p_x p mod 8 = 0)%nat) as [|Hne]; [done|]. rewrite Nat.mod_small in Hn by lia. lia. }
    rewrite E0. by exists s.
  - destruct (decide (p_x p mod 8 = 0)%nat) as [E0|Hne].
    + rewrite E0. by exists s.
    + rewrite decide_True by lia. destruct (put_visible_run s p 32 H) as (s1 & E1 & H1 & Hc1).
      assert ((8 - p_x (put_cell (colour s) 32 p) mod 8) mod 8 = 7 - p_x p mod 8)%nat as Ek.
      { rewrite put_cell_x. by apply next_tab. }
      rewrite Nat.mod_small in Hn |- * by lia.
      destruct (IH s1 (put_cell (colour s) 32 p) H1) as (s2 & E2 & H2 & Hc2); [lia|]. rewrite Ek, Hc1 in H2. rewrite Hc1 in Hc2.
      exists s2. rewrite E1. mred. split; [exact E2|]. split; [|done].
      replace (8 - p_x p mod 8)%nat with (S (7 - p_x p mod 8)) by lia. exact H2.
Qed.

Lemma put_tab_run s p : screen_is s p →
  ∃ s', (put_visible 32;; tab_loop 8) s = Done (tt, s') ∧ screen_is s' (put_tab (colour s) p) ∧ colour s' = colour s.
Proof.
  intros H. destruct (put_visible_run s p 32 H) as (s1 & E1 & H1 & Hc1). rewrite (M_bind_done _ _ _ _ _ E1).
  pose proof (Nat.mod_upper_bound (p_x (put_cell (colour s) 32 p)) 8 ltac:(done)).
  destruct (tab_loop_run 8 s1 _ H1) as (s2 & E2 & H2 & Hc2); [pose proof (Nat.mod_upper_bound (8 - p_x (put_cell (colour s) 32 p) mod 8) 8 ltac:(done)); lia|].
  exists s2. split; [exact E2|]. rewrite Hc1 in H2, Hc2. split; [|done]. unfold put_tab.
  destruct H as [[_ _ _ _ _] Hin]. pose proof (Nat.mod_upper_bound (p_x p) 8 ltac:(done)).
  replace (8 - p_x p mod 8)%nat with (S (7 - p_x p mod 8)) by lia. cbn [put_spaces].
  replace (7 - p_x p mod 8)%nat with ((8 - p_x (put_cell (colour s) 32 p) mod 8) mod 8)%nat; [exact H2|].
  rewrite put_cell_x. by apply next_tab.
Qed.

Lemma DrvConsolePutchar_run s p c p' : screen_is s p → put_char (colour s) c p = Some p' →
  ∃ s', DrvConsolePutchar c s = Done (tt, s') ∧ screen_is s' p' ∧ colour s' = colour s.
Proof.
  intros H Hp. unfold DrvConsolePutchar, put_char in *. destruct (decide (c = 10)); [injection Hp as <-; by apply VgaNewline_run, H|].
  pose proof H as [[Hc Hx Hy Ha Hr] Hin]. destruct (decide (c = 13)).
  { injection Hp as <-. eexists. split; [reflexivity|]. split; [|done]. split; [by split|cbn; lia]. }
  destruct (decide (c = 8)).
  { destruct (p_x p) as [|x] eqn:Ex; [done|]. injection Hp as <-. unfold modify. mred. rewrite decide_True by lia.
    eexists. split; [reflexivity|]. split; [|done]. split; [split; try done; cbn; lia|cbn; lia]. }
  destruct (decide (c = 9)); injection Hp as <-; [by apply put_tab_run|by apply put_visible_run].
Qed.

Lemma put_string_run fg bg l : ∀ s p p',
  screen_is s p → colour s = colour_of fg bg → put_all_shown p (chars_shown fg bg (until_zero l)) = Some p' →
  ∃ s', put_string l s = Done (tt, s') ∧ screen_is s' p'.
Proof.
  induction l as [|c l IH]; intros s p p' H Hc Hp; cbn [put_string until_zero] in *; [injection Hp as <-; by exists s|].
  destruct (decide (c = 0)); [injection Hp as <-; by exists s|]. cbn [chars_shown fmap list_fmap put_all_shown put_shown] in Hp.
  destruct (put_char (colour_of fg bg) c p) as [p1|] eqn:E1; [|done]. cbn in Hp. rewrite <- Hc in E1.
  destruct (DrvConsolePutchar_run s p c p1 H E1) as (s1 & Es & H1 & Hc1). rewrite (M_bind_done _ _ _ _ _ Es).
  apply (IH s1 p1 p' H1); [congruence|exact Hp].
Qed.

(** ** Messages *)
Definition is_char (e : shown) : Prop := match e with Char _ _ _ => True | _ => False end.

Lemma put_all_shown_app l1 l2 p p' : put_all_shown p (l1 ++ l2) = Some p' →
  ∃ p1, put_all_shown p l1 = Some p1 ∧ put_all_shown p1 l2 = Some p'.
Proof.
  revert p. induction l1 as [|e l1 IH]; intros p H; [by exists p|]. cbn in *. destruct (put_shown p e) as [p2|]; [|done]. by apply IH.
Qed.
Lemma put_all_shown_chars l p p' : put_all_shown p l = Some p' → Forall is_char l.
Proof.
  revert p. induction l as [|e l IH]; intros p H; [constructor|]. cbn in H. destruct e; [|done|done]. cbn in H.
  destruct (put_char _ _ _) as [p1|]; [|done]. constructor; [done|]. by eapply IH.
Qed.

Lemma VgaSetCursor_run s p : screen_is s p → ∃ s', VgaSetCursor s = Done (tt, s') ∧ screen_is s' p.
Proof. intros [[Hc Hx Hy Ha Hr] Hin]. eexists. split; [reflexivity|]. split; [by split|done]. Qed.

Lemma with_colour_screen s p c : screen_is s p → screen_is (with_colour c s) p.
Proof. intros [[Hc Hx Hy Ha Hr] Hin]. split; [by split|done]. Qed.

(** A message that only adds characters. *)
Lemma vga_message_run s p m p' l :
  screen_is s p → Forall is_char (message_shown l m) → (∀ l2, message_shown l m = l ++ l2 → put_all_shown p l2 = Some p') →
  ∃ s', vga_message m s = Done (tt, s') ∧ screen_is s' p'.
Proof.
  intros H Hch Hp. destruct m as [bg fg|c fg bg|cs fg bg|x y]; cbn [vga_message message_shown] in *.
  - by apply Forall_cons in Hch as [[] _].
  - specialize (Hp _ eq_refl). cbn in Hp. destruct (put_char (colour_of fg bg) c p) as [p1|] eqn:E1; [|done]. injection Hp as ->.
    destruct (DrvConsolePutchar_run (with_colour (colour_of fg bg) s) p c p' (with_colour_screen _ _ _ H) E1) as (s1 & Es & H1 & _).
    unfold modify. mred. rewrite Es. mred. by apply VgaSetCursor_run.
  - specialize (Hp _ eq_refl).
    destruct (put_string_run fg bg (take (Z.to_nat VID_MAX_PUTCHARS_LEN) cs) (with_colour (colour_of fg bg) s) p p' (with_colour_screen _ _ _ H) eq_refl Hp)
      as (s1 & Es & H1).
    unfold modify. mred. rewrite Es. mred. by apply VgaSetCursor_run.
  - apply Forall_app in Hch as [_ Hch]. by apply Forall_cons in Hch as [[] _].
Qed.

Lemma message_shown_prefix l m : Forall is_char (message_shown l m) → ∃ l2, message_shown l m = l ++ l2.
Proof. destruct m; cbn [message_shown]; intros H; [by apply Forall_cons in H as [[] _]|by eexists..]. Qed.

Lemma MessageLoop_app l1 l2 s : MessageLoop (l1 ++ l2) s = (MessageLoop l1;; MessageLoop l2) s.
Proof.
  revert s. induction l1 as [|m l1 IH]; intros s; [done|]. cbn [app MessageLoop]. mred.
  destruct (vga_message m s) as [[[] s1]| | | |]; cbn; [|done..]. rewrite IH. done.
Qed.

Lemma MessageLoop_run ms : ∀ s p p',
  screen_is s p → put_all_shown p (messages_shown ms) = Some p' → ∃ s', MessageLoop ms s = Done (tt, s') ∧ screen_is s' p'.
Proof.
  induction ms as [|m ms IH] using rev_ind; intros s p p' H Hp; [injection Hp as <-; by exists s|].
  rewrite messages_shown_snoc in Hp. pose proof (put_all_shown_chars _ _ _ Hp) as Hch.
  destruct (message_shown_prefix _ _ Hch) as (l2 & El). rewrite El in Hp. apply put_all_shown_app in Hp as (p1 & Hp1 & Hp2).
  destruct (IH s p p1 H Hp1) as (s1 & E1 & H1).
  destruct (vga_message_run s1 p1 m p' _ H1 Hch) as (s2 & E2 & H2); [intros l3 E3; rewrite El in E3; apply app_inv_head in E3; rewrite <- E3; exact Hp2|].
  exists s2. split; [|done]. rewrite MessageLoop_app. mred. rewrite E1. mred. cbn [MessageLoop]. mred. by rewrite E2.
Qed.

(** ** The screen at the start *)
Lemma clear_lines_run n : ∀ y s u r, cells s = u ++ r → length u = (80 * y)%nat → length r = (80 * n)%nat →
  clear_lines n (Z.of_nat y) s = Done (tt, with_cells (u ++ replicate (80 * n) (colour s)) s).
Proof.
  induction n as [|n IH]; intros y s u r Hs Hu Hr; cbn [clear_lines].
  - destruct r; [|done]. destruct s. cbn in *. by subst.
  - assert (cells s = u ++ take 80 r ++ drop 80 r) as Hs' by (by rewrite take_drop).
    mred. rewrite (ClearLine_run y s u (take 80 r) (drop 80 r) Hs' Hu) by (rewrite length_take; lia). mred.
    replace (Z.of_nat y + 1) with (Z.of_nat (S y)) by lia.
    rewrite (IH (S y) _ (u ++ blank_row (colour s)) (drop 80 r));
      [|by rewrite <- app_assoc|rewrite length_app; unfold blank_row; rewrite length_replicate; lia|rewrite length_drop; lia].
    rewrite <- app_assoc. unfold blank_row. cbn [colour with_cells]. rewrite <- replicate_add. by replace (80 + 80 * n)%nat with (80 * S n)%nat by lia.
Qed.

Lemma InitVga_run l hw : length l = 2000%nat → ∃ s, InitVga (at_boot l hw) = Done (tt, s) ∧ screen_is s (empty_paper (Z.shiftl 7 8)).
Proof.
  intros Hl. unfold InitVga, ClearScreen, modify. mred.
  pose proof (clear_lines_run 25 0 (at_cursor 0 0 (at_boot l hw)) [] l eq_refl eq_refl Hl) as E.
  change (Z.to_nat SCREEN_HEIGHT) with 25%nat. change (Z.of_nat 0) with 0 in E. rewrite E. eexists. split; [reflexivity|].
  split; [|cbn; lia]. split; try done.
Qed.

(** C5: the screen shows what programs wrote to the console: after any writes, split into
    reads in any way, that show only characters (in any colours), the messages of the
    console bring the screen of the VGA driver to the last 25 rows of the text, where
    rows of 80 characters are wrapped, tabs go to the next multiple of 8 columns, and
    the cursor is where the text ends. *)
Theorem console_text_on_screen (junk l : list Z) (hw : Z * Z) (reads : list (list Z)) (p : paper) :
  length junk = 16%nat → length l = 2000%nat → Forall (λ r, 0 ∉ r) reads →
  put_all_shown (empty_paper (Z.shiftl 7 8)) (t_shown (foldl terminal_byte fresh_terminal (concat reads))) = Some p →
  ∃ q s ms v0 v, ConsoleDriverThread junk reads initial_console = Done (q, s) ∧ messages s = Some ms ∧
    InitVga (at_boot l hw) = Done (tt, v0) ∧ MessageLoop ms v0 = Done (tt, v) ∧
    cells v = concat (window p) ∧ cursor_x v = p_x p ∧ cursor_y v = Z.min (length (rows p)) 25 - 1.
Proof.
  intros Hj Hl Hz Hp. destruct (console_reads_run reads (Parser false junk 0) initial_console fresh_terminal Hz initial_console_flushed) as (q & s & E & ms & H);
    [by split|]. destruct H as [_ _ _ _ _ _ Hs Ht]. cbn in Ht. rewrite app_nil_r in Ht. rewrite Ht in Hp.
  destruct (InitVga_run l hw Hl) as (v0 & E0 & H0). destruct (MessageLoop_run ms v0 _ p H0 Hp) as (v & Ev & [[Hc Hx Hy _ _] _]).
  exists q, s, ms, v0, v. by split_and!.
Qed.

(** ** Runs *)
(** "Hi", a new line, red, "!". *)
Definition hi : list (list Z) := [[72; 105; 10; 27]; [91; 51; 49; 109; 33]].
Definition hi_paper : paper :=
  default (empty_paper 0) (put_all_shown (empty_paper (Z.shiftl 7 8)) (t_shown (foldl terminal_byte fresh_terminal (concat hi)))).
Definition no_text : list Z := replicate 2000 0.

Example hi_cells : take 3 (concat (window hi_paper)) = [1864; 1897; 1792] ∧ concat (window hi_paper) !! 80%nat = Some 1057.
Proof. vm_compute. by split. Qed.

Lemma console_text_on_screen_witness :
  ∃ q s ms v0 v, ConsoleDriverThread (replicate 16 0) hi initial_console = Done (q, s) ∧ messages s = Some ms ∧
    InitVga (at_boot no_text (0, 0)) = Done (tt, v0) ∧ MessageLoop ms v0 = Done (tt, v) ∧
    cells v = concat (window hi_paper) ∧ cursor_x v = 1%nat ∧ cursor_y v = Z.min 2%nat 25 - 1.
Proof.
  apply (console_text_on_screen (replicate 16 0) no_text (0, 0) hi hi_paper); [vm_compute; reflexivity|vm_compute; reflexivity| |vm_compute; reflexivity].
  repeat constructor; rewrite !elem_of_cons, elem_of_nil; naive_solver.
Defined.

Definition cells_after (ms : list video_msg) : outcome (list Z) :=
  match (InitVga;; MessageLoop ms) (at_boot no_text (0, 0)) with
  | Done (_, s) => Done (take 2 (cells s))
  | Panicked c => Panicked c
  | Faulted => Faulted
  | Blocked => Blocked
  | Exhausted => Exhausted
  end.
(** A character above 127 is negative, and [colour | c] loses the colours. *)
Example negative_char_loses_colours : cells_after [VIDMSG_PUTCHAR (i8 200) 7 0] = Done [65480; 1792].
Proof. vm_compute. reflexivity. Qed.
(** A backspace at the top left corner puts the cursor above the screen. *)
Example backspace_leaves_screen : cells_after [VIDMSG_PUTCHAR 8 7 0; VIDMSG_PUTCHAR 65 7 0] = Faulted.
Proof. vm_compute. reflexivity. Qed.
(** The coordinates of [ESC\[y;xH] are not checked. *)
Example cursor_not_checked : cells_after [VIDMSG_SET_CURSOR 0 30; VIDMSG_PUTCHAR 65 7 0] = Faulted.
Proof. vm_compute. reflexivity. Qed.
Example newline_below_screen_panics : cells_after [VIDMSG_SET_CURSOR 0 30; VIDMSG_PUTCHAR 10 7 0] = Panicked PANIC_ASSERTION_FAILURE.
Proof. vm_compute. reflexivity. Qed.
