(* ===== verification/Keyboard.v ===== *)
(** * drivers/x86/ps2/ps2keyboard.c: from scancodes to characters

    The interrupt handler reads a scancode; all but the prefix 0xE0 are handled later,
    by a call deferred through [Irql], that keeps track of the modifier keys and sends
    characters to the console. The controller (drivers/x86/ps2/ps2controller.c) is behind an interface. *)

From S2P Require Import Prelude LinkedList HeapAdt Irql CString.

Definition set1_map_lower_norm : list Z := [
   32; 32; 49; 50; 51; 52; 53; 54; 55; 56; 57; 48; 45; 61; 32; 32;
   113; 119; 101; 114; 116; 121; 117; 105; 111; 112; 91; 93; 32; 32; 97; 115;
   100; 102; 103; 104; 106; 107; 108; 59; 39; 96; 32; 92; 122; 120; 99; 118;
   98; 110; 109; 44; 46; 47; 32; 42; 32; 32; 32; 32; 32; 32; 32; 32;
   32; 32; 32; 32; 32; 32; 32; 55; 56; 57; 45; 52; 53; 54; 43; 49;
   50; 51; 48; 46; 32; 32; 32; 32; 32; 32; 32; 32; 32; 32; 32; 32;
   32; 32; 32; 32; 32; 32; 32; 32; 32; 32; 32; 32; 32; 32; 32; 32;
   32; 32; 32; 32; 32; 32; 32; 32; 32; 32; 32; 32; 32; 32; 32].
Definition set1_map_upper_norm : list Z := [
   32; 32; 33; 64; 35; 36; 37; 94; 38; 42; 40; 41; 95; 43; 32; 32;
   81; 87; 69; 82; 84; 89; 85; 73; 79; 80; 123; 125; 32; 32; 65; 83;
   68; 70; 71; 72; 74; 75; 76; 58; 34; 126; 32; 124; 90; 88; 67; 86;
   66; 78; 77; 60; 62; 63; 32; 42; 32; 32; 32; 32; 32; 32; 32; 32;
   32; 32; 32; 32; 32; 32; 32; 55; 56; 57; 45; 52; 53; 54; 43; 49;
   50; 51; 48; 46; 32; 32; 32; 32; 32; 32; 32; 32; 32; 32; 32; 32;
   32; 32; 32; 32; 32; 32; 32; 32; 32; 32; 32; 32; 32; 32; 32; 32;
   32; 32; 32; 32; 32; 32; 32; 32; 32; 32; 32; 32; 32; 32; 32].
Definition set1_map_lower_caps : list Z := [
   32; 32; 49; 50; 51; 52; 53; 54; 55; 56; 57; 48; 45; 61; 32; 32;
   81; 87; 69; 82; 84; 89; 85; 73; 79; 80; 91; 93; 32; 32; 65; 83;
   68; 70; 71; 72; 74; 75; 76; 59; 39; 96; 32; 92; 90; 88; 67; 86;
   66; 78; 77; 44; 46; 47; 32; 42; 32; 32; 32; 32; 32; 32; 32; 32;
   32; 32; 32; 32; 32; 32; 32; 55; 56; 57; 45; 52; 53; 54; 43; 49;
   50; 51; 48; 46; 32; 32; 32; 32; 32; 32; 32; 32; 32; 32; 32; 32;
   32; 32; 32; 32; 32; 32; 32; 32; 32; 32; 32; 32; 32; 32; 32; 32;
   32; 32; 32; 32; 32; 32; 32; 32; 32; 32; 32; 32; 32; 32; 32].
Definition set1_map_upper_caps : list Z := [
   32; 32; 33; 64; 35; 36; 37; 94; 38; 42; 40; 41; 95; 43; 32; 32;
   113; 119; 101; 114; 116; 121; 117; 105; 111; 112; 123; 125; 32; 32; 97; 115;
   100; 102; 103; 104; 106; 107; 108; 58; 34; 126; 32; 124; 122; 120; 99; 118;
   98; 110; 109; 60; 62; 63; 32; 42; 32; 32; 32; 32; 32; 32; 32; 32;
   32; 32; 32; 32; 32; 32; 32; 55; 56; 57; 45; 52; 53; 54; 43; 49;
   50; 51; 48; 46; 32; 32; 32; 32; 32; 32; 32; 32; 32; 32; 32; 32;
   32; 32; 32; 32; 32; 32; 32; 32; 32; 32; 32; 32; 32; 32; 32; 32;
   32; 32; 32; 32; 32; 32; 32; 32; 32; 32; 32; 32; 32; 32; 32].

(** ** Keys and scancodes of set 1 *)
Definition KEYCODE_ENTER : Z := 10.
Definition KEYCODE_BACKSPACE : Z := 8.
Definition KEYCODE_TAB : Z := 9.
Definition KEYCODE_ESCAPE : Z := 27.
Definition KEYCODE_LEFT_ARROW : Z := 128.
Definition KEYCODE_RIGHT_ARROW : Z := 129.
Definition KEYCODE_UP_ARROW : Z := 130.
Definition KEYCODE_DOWN_ARROW : Z := 131.
Definition SET1_ENTER : Z := 28.
Definition SET1_BACKSPACE : Z := 14.
Definition SET1_TAB : Z := 15.
Definition SET1_ESCAPE : Z := 1.
Definition SET1_SHIFT : Z := 42.
Definition SET1_SHIFT_R : Z := 54.
Definition SET1_CTRL : Z := 29.
Definition SET1_EXTENSION : Z := 224.
Definition SET1_CAPS_LOCK : Z := 58.
Definition SET1_EXT_UP_ARROW : Z := 72.
Definition SET1_EXT_DOWN_ARROW : Z := 80.
Definition SET1_EXT_LEFT_ARROW : Z := 75.
Definition SET1_EXT_RIGHT_ARROW : Z := 77.

Record keyboard := Keyboard {
  release_mode : bool;
  control_held : bool;
  shift_held : bool;
  shift_r_held : bool;
  caps_lock_on : bool;
  extended : bool;
}.

(** What a call does outside: a byte to the device, a character to the console. *)
Inductive output := DeviceWrite (b : Z) | Keystroke (c : Z).

Definition Ps2KeyboardSetLEDs (k : keyboard) : list output :=
  [DeviceWrite 237; DeviceWrite (Z.shiftl (Z.b2z (caps_lock_on k)) 2)].

(** The table [set1_tables\[shift + caps_lock_on * 2\]]. *)
Definition TranslateCharacter (k : keyboard) (scancode : Z) (shift : bool) : option Z :=
  let table := match caps_lock_on k, shift with
    | false, false => set1_map_lower_norm
    | false, true => set1_map_upper_norm
    | true, false => set1_map_lower_caps
    | true, true => set1_map_upper_caps
    end in
  aget table scancode.

(** The switch over the scancodes after 0xE0. *)
Definition extended_key (scancode : Z) : Z :=
  if decide (scancode = SET1_EXT_UP_ARROW) then KEYCODE_UP_ARROW
  else if decide (scancode = SET1_EXT_DOWN_ARROW) then KEYCODE_DOWN_ARROW
  else if decide (scancode = SET1_EXT_LEFT_ARROW) then KEYCODE_LEFT_ARROW
  else if decide (scancode = SET1_EXT_RIGHT_ARROW) then KEYCODE_RIGHT_ARROW
  else 0.

(** The other switch: the key, 0 for none. A read outside the tables is a fault. *)
Definition plain_key (k : keyboard) (scancode : Z) : option (keyboard * Z * list output) :=
  if decide (scancode = SET1_ENTER) then Some (k, KEYCODE_ENTER, [])
  else if decide (scancode = SET1_BACKSPACE) then Some (k, KEYCODE_BACKSPACE, [])
  else if decide (scancode = SET1_TAB) then Some (k, KEYCODE_TAB, [])
  else if decide (scancode = SET1_ESCAPE) then Some (k, KEYCODE_ESCAPE, [])
  else if decide (scancode = SET1_SHIFT) then
    Some (Keyboard (release_mode k) (control_held k) (negb (release_mode k)) (shift_r_held k) (caps_lock_on k) (extended k), 0, [])
  else if decide (scancode = SET1_SHIFT_R) then
    Some (Keyboard (release_mode k) (control_held k) (shift_held k) (negb (release_mode k)) (caps_lock_on k) (extended k), 0, [])
  else if decide (scancode = SET1_CTRL) then
    Some (Keyboard (release_mode k) (negb (release_mode k)) (shift_held k) (shift_r_held k) (caps_lock_on k) (extended k), 0, [])
  else if decide (scancode = SET1_CAPS_LOCK) then
    if release_mode k then Some (k, 0, [])
    else
      let k := Keyboard (release_mode k) (control_held k) (shift_held k) (shift_r_held k) (negb (caps_lock_on k)) (extended k) in
      Some (k, 0, Ps2KeyboardSetLEDs k)
  else if decide (scancode < length set1_map_lower_norm) then
    (λ c, (k, c, [])) <$> TranslateCharacter k scancode (xorb (shift_held k) (shift_r_held k))
  else Some (k, 0, []).

(** The characters a key sends; a [char] is signed. *)
Definition keystrokes (control : bool) (c : Z) : list output :=
  if control then
    if islower c || (bool_decide (64 ≤ c ≤ 95) && negb (isupper c)) then
      [Keystroke (i8 (c - (if islower c then 32 + 64 else 64)))]
    else []
  else if decide (c = KEYCODE_UP_ARROW) then [Keystroke 27; Keystroke 91; Keystroke 65]
  else if decide (c = KEYCODE_DOWN_ARROW) then [Keystroke 27; Keystroke 91; Keystroke 66]
  else if decide (c = KEYCODE_RIGHT_ARROW) then [Keystroke 27; Keystroke 91; Keystroke 67]
  else if decide (c = KEYCODE_LEFT_ARROW) then [Keystroke 27; Keystroke 91; Keystroke 68]
  else [Keystroke (i8 c)].

Definition set_release (b : bool) (k : keyboard) : keyboard :=
  Keyboard b (control_held k) (shift_held k) (shift_r_held k) (caps_lock_on k) (extended k).
Definition set_extended (b : bool) (k : keyboard) : keyboard :=
  Keyboard (release_mode k) (control_held k) (shift_held k) (shift_r_held k) (caps_lock_on k) b.

Definition Ps2KeyboardTranslateSet1 (k : keyboard) (scancode : Z) : option (keyboard * list output) :=
  let k := if decide (Z.land scancode 128 ≠ 0) then set_release true k else k in
  let scancode := if decide (Z.land scancode 128 ≠ 0) then Z.land scancode 127 else scancode in
  '(k, c, out) ← (if extended k then Some (k, extended_key scancode, []) else plain_key k scancode);
  let send_it := bool_decide (c ≠ 0) && negb (release_mode k) in
  let k := set_release false k in
  let sent := if (send_it : bool) then keystrokes (control_held k) c else [] in
  Some (set_extended false k, out ++ sent).

(** ** Interrupts and deferred calls

    The machine of [Irql]; the rest of the world is the keyboard, what its data port
    holds, and what has been sent. *)
Record keyboard_world := World { kb : keyboard; port60 : Z; sent : list output }.
Abbreviation KM := (M (machine keyboard_world)).

(** The start of [Ps2KeyboardTranslateSet1] asserts its level. *)
Definition HandleCharacter (scancode : Z) : KM unit :=
  l ← GetIrql;
  c_assert (bool_decide (l = IRQL_STANDARD));;
  w ← gets world;
  r ← deref (Ps2KeyboardTranslateSet1 (kb w) (u8 scancode));
  modify (λ c, {| c with world := World r.1 (port60 w) (sent w ++ r.2) |}).

Section interrupts.
(** Where the two functions are, the code at other addresses, and [Schedule]. *)
Variables HandleCharacter_ptr Ps2KeyboardIrqHandler_ptr : Z.
Variable other_call : Z → Z → KM unit.
Variable other_irq : Z → KM Z.
Variable Schedule : KM unit.

Definition call_handler (handler context : Z) : KM unit :=
  if decide (handler = HandleCharacter_ptr) then HandleCharacter context else other_call handler context.

Definition Ps2KeyboardIrqHandler : KM Z :=
  w ← gets world;
  let scancode := u8 (port60 w) in
  (if decide (scancode = SET1_EXTENSION) then
     modify (λ c, {| c with world := World (set_extended true (kb w)) (port60 w) (sent w) |})
   else DeferUntilIrql call_handler IRQL_STANDARD HandleCharacter_ptr scancode);;
  mret 0.

Definition call_irq_handler (handler : Z) : KM Z :=
  if decide (handler = Ps2KeyboardIrqHandler_ptr) then Ps2KeyboardIrqHandler else other_irq handler.

(** What happens on the processor: an interrupt of the keyboard, or code that raises or
    lowers the level. *)
Inductive event := Irq (scancode : Z) | Raise (level : Z) | Lower (level : Z).

Definition run_event (fuel : nat) (e : event) : KM unit :=
  match e with
  | Irq scancode =>
    modify (λ c, {| c with world := World (kb (world c)) scancode (sent (world c)) |});;
    RespondToIrq call_handler call_irq_handler Schedule fuel (PIC_IRQ_BASE + 1) (GetRequiredIrql (PIC_IRQ_BASE + 1))
  | Raise level => RaiseIrql level;; mret tt
  | Lower level => LowerIrql call_handler Schedule fuel level
  end.

Fixpoint run_events (fuel : nat) (l : list event) : KM unit :=
  match l with
  | [] => mret tt
  | e :: l => run_event fuel e;; run_events fuel l
  end.
End interrupts.

(** ** Set-up *)
Class Ps2Controller (C : Type) : Type := {
  Ps2DeviceWrite : Z → M C unit;
  Ps2DeviceRead : M C Z;
  Ps2ControllerGetConfiguration : M C Z;
  Ps2ControllerSetConfiguration : Z → M C unit;
  Ps2ControllerTestPort : M C Z;
  EnableKeyboard : M C unit;               (* the handler is registered and the device enabled *)
}.

Section setup.
Context {C : Type} {PC : Ps2Controller C}.

Definition Ps2KeyboardGetScancodeSet : M C Z :=
  Ps2DeviceWrite 240;;
  Ps2DeviceWrite 0;;
  set ← Ps2DeviceRead;
  if decide (set = 67 ∨ set = 1) then mret 1
  else if decide (set = 65 ∨ set = 2) then mret 2
  else if decide (set = 63 ∨ set = 3) then mret 3
  else mret (-1).

Definition Ps2KeyboardSetScancodeSet (num : Z) : M C Z :=
  Ps2DeviceWrite 240;;
  Ps2DeviceWrite (u8 num);;
  set ← Ps2KeyboardGetScancodeSet;
  mret (if decide (num = set) then 0 else EIO).

Definition Ps2KeyboardSetTranslation (enable : bool) : M C unit :=
  config ← Ps2ControllerGetConfiguration;
  Ps2ControllerSetConfiguration (if enable then Z.lor config 64 else Z.land config (Z.lnot 64)).

Definition InitPs2Keyboard : M C unit :=
  Ps2KeyboardSetTranslation true;;
  _ ← Ps2KeyboardSetScancodeSet 1;
  res ← Ps2ControllerTestPort;
  if decide (res ≠ 0) then mret tt else
  config ← Ps2ControllerGetConfiguration;
  let translation_on := bool_decide (Z.land config 64 ≠ 0) in
  set ← Ps2KeyboardGetScancodeSet;
  (if decide (set = 3 ∨ set = -1) then
     _ ← Ps2KeyboardSetScancodeSet (if translation_on then 2 else 1); mret tt
   else if decide (set = 1 ∧ translation_on = true) then
     res ← Ps2KeyboardSetScancodeSet 2;
     if decide (res ≠ 0) then
       _ ← Ps2KeyboardSetScancodeSet 1;
       Ps2KeyboardSetTranslation false
     else mret tt
   else if decide (set = 2 ∧ translation_on = false) then
     res ← Ps2KeyboardSetScancodeSet 1;
     if decide (res ≠ 0) then
       _ ← Ps2KeyboardSetScancodeSet 2;
       Ps2KeyboardSetTranslation true
     else mret tt
   else mret tt);;
  EnableKeyboard.
End setup.

(** * What is typed is sent, whenever the deferred calls run *)

#[export] Instance output_eq_dec : EqDecision output.
Proof. solve_decision. Defined.
#[export] Instance keyboard_eq_dec : EqDecision keyboard.
Proof. solve_decision. Defined.

Definition idle : keyboard := Keyboard false false false false false false.









Section runs.
Variables hptr iptr : Z.
Variable other_call : Z → Z → KM unit.
Variable other_irq : Z → KM Z.
Variable Schedule : KM unit.
Hypothesis hptr_ok : is_u32 hptr ∧ hptr ≠ NULL.
Hypothesis iptr_ok : iptr ≠ NULL.
Abbreviation call := (call_handler hptr other_call).
Abbreviation irq_call := (call_irq_handler hptr iptr other_call other_irq).














End runs.



(** ** Runs *)
(** A machine with the keyboard registered and nothing else. *)
Definition start : machine keyboard_world :=
  Machine 0 (Heap 32 0 8 2 true (replicate 64 0)) true false ∅ {[ 33 := 1 ]}
    (LHeap {[ 2 := Node 200 NULL ]} {[ 1 := LList 1 2 2 ]}) true true 0 0 0 [] (World idle 0 []).
Definition run (l : list event) : outcome (unit * machine keyboard_world) :=
  run_events 100 200 (λ _ _, fault) (λ _, fault) (mret tt) 40 l start.



(** What a run sends. *)
Definition sends (l : list event) : option (list output) :=
  match run l with Done (_, m) => Some (sent (world m)) | _ => None end.

(** Keys that come while calls are deferred come out swapped: the queue puts the newest
    of equal priority first. *)
Example delayed_keys_swap : sends [Raise 3; Irq 30; Irq 48; Lower 0] = Some [Keystroke 98; Keystroke 97].
Proof. vm_compute. reflexivity. Qed.
Example delayed_release_comes_first : sends [Raise 3; Irq 42; Irq 170; Lower 0; Irq 30] = Some [Keystroke 65].
Proof. vm_compute. reflexivity. Qed.
(** The queue holds 32 calls: the next scancode panics. *)
Example delayed_keys_panic : run (Raise 3 :: replicate 33 (Irq 30)) = Panicked PANIC_PRIORITY_QUEUE.
Proof. vm_compute. reflexivity. Qed.
(** Control and C; caps lock and A; the arrow up. *)
Example control_c : sends (Irq <$> [29; 46; 174; 157]) = Some [Keystroke 3].
Proof. vm_compute. reflexivity. Qed.
Example caps_lock : sends (Irq <$> [58; 186; 30; 158]) = Some [DeviceWrite 237; DeviceWrite 4; Keystroke 65].
Proof. vm_compute. reflexivity. Qed.
Example arrow_up : sends (Irq <$> [224; 72; 224; 200]) = Some [Keystroke 27; Keystroke 91; Keystroke 65].
Proof. vm_compute. reflexivity. Qed.
(** The prefix acts at once: on a key before it, whose deferred call has yet to run, and
    no more on its own key, which types an 8. *)
Example prefix_overtakes : sends [Raise 3; Irq 30; Irq 224; Lower 0; Irq 72] = Some [Keystroke 56].
Proof. vm_compute. reflexivity. Qed.
(** Keys without a character, as Alt, F1 and scroll lock, type a space. *)
Example alt_types_space : sends (Irq <$> [56; 184]) = Some [Keystroke 32].
Proof. vm_compute. reflexivity. Qed.
