(* ===== verification/Ed.v ===== *)
(** * The text editor

    applications/init/ed.c over the streams of [Stdio]: the document as lines in
    allocated buffers, the cursor, the commands of the keys, loading and saving.
    The keys that are typed are the [input] of the state; when they run out, the
    editor waits. Drawing, line numbers and scrolling, which only show the
    document, are left out, as is [doc_tail]: no call asks [GetLine] for it. *)

From S2P Require Import Prelude Vnode CString Strings Stdio.

(** A line: the characters it has room for, and how many are in use. *)
Record line : Type := mk_line { str : list Z; len : Z }.

Definition allocation_size (l : line) : Z := length (str l).

Definition ECANCELED : Z := 34.

Section editor.
Context {W : Type} {SY : Sys W}.

Record editor : Type := mk_editor {
  doc : list line;
  filepath : option (list Z);
  cursor_pos : Z;
  cursor_line : Z;
  dirty : bool;
  num_lines : Z;
  scroll_mode : Z;
  programmers_newline : Z;
  search_line : option line;
  input : list Z;
  world : W;
  last_errno : Z;
}.

Definition change (f : editor → editor) : M editor unit := modify f.

(** The next key, for a terminal that has one. *)
Definition getchar : M editor Z :=
  s ← get;
  match input s with
  | [] => block
  | c :: r => put {| s with input := r |};; mret (i8 c)
  end.

(** Work on a stream of its own. *)
Definition with_stream {A} (m : M (@io W) A) : M editor A := λ s,
  match m (mk_io no_stream (world s) (last_errno s) []) with
  | Done (a, i) => Done (a, {| s with world := os i; last_errno := errno i |})
  | Panicked c => Panicked c
  | Faulted => Faulted
  | Blocked => Blocked
  | Exhausted => Exhausted
  end.

(** ** Lines *)
Definition CreateLine (default_size : Z) : line := mk_line (repeat 0 (Z.to_nat default_size)) 0.

Definition GetLine (num : Z) : M editor (option line) := s ← get; mret (aget (doc s) num).

(** [GetLine(num)] where the code uses the result. *)
Definition the_line (num : Z) : M editor line := l ← GetLine num; deref l.
Definition set_line (num : Z) (l : line) : M editor unit :=
  s ← get; d ← deref (aset (doc s) num l); put {| s with doc := d |}.

(** [memmove] in the characters of a line. *)
Definition move_chars (l : list Z) (dst src n : Z) : option (list Z) :=
  bs ← read_mem l src n; write_mem l dst bs.

Definition grown (l : line) : option line :=
  if decide (allocation_size l ≤ len l + 1) then
    bs ← read_mem (str l) 0 (len l);
    new_line ← write_mem (repeat 0 (Z.to_nat (allocation_size l * 2))) 0 bs;
    Some (mk_line new_line (len l))
  else Some l.

Definition AddCharToLine (l : line) (pos c : Z) : option line :=
  l ← grown l;
  new ← (if decide (pos = -1) then aset (str l) (len l) c
         else moved ← move_chars (str l) (pos + 1) pos (len l - pos); aset moved pos c);
  Some (mk_line new (len l + 1)).

(** All characters of [cs], at the end. *)
Fixpoint AddCharsToLine (l : line) (cs : list Z) : option line :=
  match cs with [] => Some l | c :: r => l ← AddCharToLine l (-1) c; AddCharsToLine l r end.

Definition RemoveCharacterFromLine (l : line) (pos : Z) : option line :=
  moved ← move_chars (str l) pos (pos + 1) (len l - pos - 1);
  new ← aset moved (len l - 1) 0;
  Some (mk_line new (len l - 1)).

Definition MergeLineWithPrevious (num : Z) : M editor unit :=
  prev ← the_line (num - 1);
  curr ← the_line num;
  cs ← deref (read_mem (str curr) 0 (len curr));
  merged ← deref (AddCharsToLine prev cs);
  set_line (num - 1) merged;;
  change (λ s, {| s with doc := take (Z.to_nat num) (doc s) ++ drop (S (Z.to_nat num)) (doc s); num_lines := num_lines s - 1 |}).

(** ** The cursor *)
Definition CursorLeft : M editor unit :=
  s ← get;
  if decide (cursor_pos s - 1 < 0) then
    if decide (cursor_line s - 1 < 0) then put {| s with cursor_pos := 0; cursor_line := 0 |}
    else l ← the_line (cursor_line s - 1); put {| s with cursor_line := cursor_line s - 1; cursor_pos := len l |}
  else put {| s with cursor_pos := cursor_pos s - 1 |}.

Definition CursorRight : M editor unit :=
  s ← get;
  l ← the_line (cursor_line s);
  if decide (len l < cursor_pos s + 1) then
    next ← GetLine (cursor_line s + 1);
    match next with
    | Some _ => put {| s with cursor_pos := 0; cursor_line := cursor_line s + 1 |}
    | None => put {| s with cursor_pos := len l |}
    end
  else put {| s with cursor_pos := cursor_pos s + 1 |}.

Definition CursorDown : M editor unit :=
  s ← get;
  l ← the_line (cursor_line s);
  next ← GetLine (cursor_line s + 1);
  match next with
  | Some n => put {| s with cursor_line := cursor_line s + 1; cursor_pos := if decide (len n < cursor_pos s) then len n else cursor_pos s |}
  | None => put {| s with cursor_pos := len l |}
  end.

Definition CursorUp : M editor unit :=
  s ← get;
  if decide (0 < cursor_line s) then
    p ← the_line (cursor_line s - 1);
    put {| s with cursor_line := cursor_line s - 1; cursor_pos := if decide (len p < cursor_pos s) then len p else cursor_pos s |}
  else put {| s with cursor_pos := 0 |}.

(** ** A new line

    The characters of a string in memory: those before its first zero. *)
Fixpoint c_string (l : list Z) : option (list Z) :=
  match l with [] => None | c :: r => if decide (c = 0) then Some [] else s ← c_string r; Some (c :: s) end.

Fixpoint leading_spaces (l : list Z) : Z :=
  match l with c :: r => if decide (c = 32) then 1 + leading_spaces r else 0 | [] => 0 end.

(** The spaces that a new line starts with. *)
Definition indentation (programmers_newline : Z) (current : line) : option Z :=
  if decide (programmers_newline = 0) then Some 0 else
  s ← c_string (str current);
  let n := leading_spaces s in
  n ← (if decide (programmers_newline = 2 ∨ programmers_newline = 4) then
         c ← aget (str current) (len current - 1); Some (if decide (c = 123) then n + 4 else n)
       else Some n);
  (if decide (programmers_newline = 3 ∨ programmers_newline = 4) then
     c ← aget (str current) (len current - 1); Some (if decide (c = 58) then n + 4 else n)
   else Some n).

Definition InsertNewline : M editor unit :=
  s ← get;
  current ← the_line (cursor_line s);
  let chars_remaining := len current - cursor_pos s in
  let newline := CreateLine (chars_remaining + 20) in
  num_spaces ← deref (indentation (programmers_newline s) current);
  spaces ← deref (write_mem (str newline) 0 (repeat 32 (Z.to_nat num_spaces)));
  tail ← deref (c_string (drop (Z.to_nat (cursor_pos s)) (str current)));
  chars ← deref (write_mem spaces num_spaces (tail ++ [0]));
  cut ← deref (write_mem (str current) (cursor_pos s) (repeat 0 (Z.to_nat (allocation_size current - cursor_pos s))));
  let n := Z.to_nat (cursor_line s) in
  put {| s with
    doc := take n (doc s) ++ mk_line cut (cursor_pos s) :: mk_line chars (chars_remaining + num_spaces) :: drop (S n) (doc s);
    cursor_pos := num_spaces; cursor_line := cursor_line s + 1; num_lines := num_lines s + 1 |}.

(** ** Files *)

(** The loop of [LoadFile]: characters go to line [i]. *)
Fixpoint load_chars (fuel : nat) (d : list line) (n : Z) (i : nat) : M (@io W) (list line * Z) :=
  match fuel with
  | O => exhausted
  | S fuel =>
    c ← fgetc;
    if decide (c = EOF) then mret (d, n)
    else if decide (c = 10) then load_chars fuel (take (S i) d ++ [CreateLine 50]) (n + 1) (S i)
    else
      l ← deref (d !! i);
      l ← deref (AddCharToLine l (-1) c);
      load_chars fuel (<[i := l]> d) n i
  end.

Definition load_stream (fuel : nat) (path : list Z) (d : list line) (n : Z) : M (@io W) (Z + (list line * Z)) :=
  set_errno 0;;
  f ← fopen path [114];
  match f with
  | None => e ← gets errno; mret (inl e)
  | Some _ => r ← load_chars fuel d n 0; fclose;; mret (inr r)
  end.

Definition LoadFile (fuel : nat) (path : list Z) : M editor Z :=
  s ← get;
  r ← with_stream (load_stream fuel path (doc s) (num_lines s));
  match r with
  | inl e => mret e
  | inr (d, n) => change (λ s, {| s with doc := d; num_lines := n; filepath := Some path; dirty := false |});; mret 0
  end.

(** The lines into the stream, a newline between one and the next. The result is
    the error that stopped it. *)
Fixpoint save_lines (first : bool) (d : list line) : M (@io W) (option Z) :=
  match d with
  | [] => mret None
  | l :: r =>
    set_errno 0;;
    res ← (if first then mret 0 else fputc 10);
    if decide (res = EOF) then e ← gets errno; fclose;; mret (Some e)
    else
      s ← deref (c_string (str l));
      res ← vfprintf [37; 115] [VStr s];
      if decide (res < 0) then e ← gets errno; fclose;; mret (Some e)
      else save_lines false r
  end.

Definition save_stream (path : list Z) (d : list line) : M (@io W) (option Z) :=
  set_errno 0;;
  f ← fopen path [119];
  match f with
  | None => e ← gets errno; mret (Some e)
  | Some _ =>
    res ← save_lines true d;
    match res with
    | Some e => mret (Some e)
    | None => fclose;; mret None
    end
  end.

(** ** Prompts

    One line of input, shown in the first line of the screen. *)
Fixpoint skip_digits (n : nat) (c : Z) : M editor Z :=
  match n with
  | O => exhausted
  | S n => if isdigit c then c ← getchar; skip_digits n c else mret c
  end.

Definition after_bracket : M editor Z := c ← getchar; s ← get; skip_digits (S (length (input s))) c.

Fixpoint GetSingleLineInput_loop (fuel : nat) (save_line : line) (save_cur : Z) : M editor (Z * line) :=
  match fuel with
  | O => exhausted
  | S fuel =>
    c ← getchar;
    if decide (c = 27) then
      c ← getchar;
      if decide (c = 91) then
        c ← after_bracket;
        GetSingleLineInput_loop fuel save_line
          (if decide (c = 67) then (if decide (save_cur < len save_line) then save_cur + 1 else save_cur)
           else if decide (c = 68) then (if decide (0 < save_cur) then save_cur - 1 else save_cur)
           else save_cur)
      else mret (ECANCELED, save_line)
    else if decide (c = 8 ∨ c = 127) then
      if decide (save_cur ≠ 0) then
        l ← deref (RemoveCharacterFromLine save_line (save_cur - 1)); GetSingleLineInput_loop fuel l (save_cur - 1)
      else GetSingleLineInput_loop fuel save_line save_cur
    else if decide (c = 10) then mret (0, save_line)
    else if isprint c then
      l ← deref (AddCharToLine save_line save_cur c); GetSingleLineInput_loop fuel l (save_cur + 1)
    else GetSingleLineInput_loop fuel save_line save_cur
  end.

(** Every turn takes a key. *)
Definition GetSingleLineInput (save_line : line) : M editor (Z * line) :=
  s ← get; GetSingleLineInput_loop (S (length (input s))) save_line (len save_line).

(** A line of a hundred characters with a text in it. *)
Definition prompt_line (text : list Z) : M editor line :=
  chars ← deref (write_mem (str (CreateLine 100)) 0 (text ++ [0])); mret (mk_line chars (length text)).

(** ** Searching *)

(** Where a string begins in another, as [strstr] finds it. *)
Fixpoint starts_with (pat l : list Z) : bool :=
  match pat, l with
  | [], _ => true
  | c :: pat, d :: l => bool_decide (c = d) && starts_with pat l
  | _, [] => false
  end.
Fixpoint strstr_in (l pat : list Z) : option Z :=
  if starts_with pat l then Some 0 else
  match l with [] => None | _ :: r => i ← strstr_in r pat; Some (i + 1) end.

(** The loop over the lines, from the cursor on. *)
Fixpoint search_loop (fuel : nat) (pat : list Z) (line : option line) : M editor (option unit) :=
  match fuel with
  | O => exhausted
  | S fuel =>
    match line with
    | None => mret None
    | Some l =>
      s ← get;
      let next_line := put {| s with cursor_line := cursor_line s + 1; cursor_pos := 0 |};; n ← GetLine (cursor_line s + 1); search_loop fuel pat n in
      if decide (len l ≤ cursor_pos s) then next_line
      else
        text ← deref (c_string (drop (Z.to_nat (cursor_pos s)) (str l)));
        match strstr_in text pat with
        | Some i =>
          if decide (i = 0) then put {| s with cursor_pos := cursor_pos s + 1 |};; search_loop fuel pat (Some l)
          else put {| s with cursor_pos := cursor_pos s + i |};; mret (Some tt)
        | None => next_line
        end
    end
  end.

(** Every turn passes a character or the end of a line. *)
Definition search_fuel (d : list line) : nat := S (sum_list ((λ l, Z.to_nat (len l) + 1)%nat <$> d)).

Definition Search : M editor Z :=
  s ← get;
  '(res, save_line) ← GetSingleLineInput (default (CreateLine 100) (search_line s));
  change (λ s, {| s with search_line := Some save_line |});;
  if decide (res ≠ 0) then mret res else
  pat ← deref (c_string (str save_line));
  l ← the_line (cursor_line s);
  next ← GetLine (cursor_line s + 1);
  (match next with
   | None => if decide (len l ≤ cursor_pos s) then change (λ s, {| s with cursor_line := 0; cursor_pos := 0 |}) else mret tt
   | Some _ => mret tt
   end);;
  s ← get;
  l ← GetLine (cursor_line s);
  found ← search_loop (search_fuel (doc s)) pat l;
  match found with
  | Some _ => mret 0
  | None =>
    s ← get;
    l ← the_line (cursor_line s - 1);
    put {| s with cursor_line := cursor_line s - 1; cursor_pos := len l |};;
    mret 0
  end.

Definition GoToLine : M editor Z :=
  save_line ← prompt_line [];
  '(res, save_line) ← GetSingleLineInput save_line;
  if decide (res ≠ 0) then mret res else
  text ← deref (c_string (str save_line));
  let line := atoi text in
  s ← get;
  let line := if decide (line = -1) then num_lines s else line in
  let line := if decide (line < 1) then 1 else line in
  let line := if decide (num_lines s < line) then num_lines s else line in
  put {| s with cursor_line := line - 1; cursor_pos := 0 |};;
  mret 0.

(** The fuel is for the file that is loaded. *)
Definition OpenFile (fuel : nat) : M editor Z :=
  save_line ← prompt_line [];
  '(res, save_line) ← GetSingleLineInput save_line;
  if decide (res ≠ 0) then mret res else
  path ← deref (c_string (str save_line));
  res ← LoadFile fuel path;
  if decide (res ≠ 0) then getchar;; mret res else mret res.

Definition SaveFile : M editor Z :=
  s ← get;
  save_line ← prompt_line (default [] (filepath s));
  '(res, save_line) ← GetSingleLineInput save_line;
  if decide (res ≠ 0) then mret res else
  path ← deref (c_string (str save_line));
  err ← with_stream (save_stream path (doc s));
  match err with
  | Some e => getchar;; mret e
  | None => change (λ s, {| s with dirty := false; filepath := Some path |});; mret 0
  end.

(** ** The commands of the keys *)
Definition new_document (s : editor) : editor := {| s with
  doc := [CreateLine 50]; filepath := None; cursor_pos := 0; cursor_line := 0; dirty := false; num_lines := 1 |}.

Definition ClearFile : M editor unit := change new_document.

Fixpoint times (n : nat) (m : M editor unit) : M editor unit := match n with O => mret tt | S n => m;; times n m end.

Definition SCREEN_HEIGHT : nat := 24%nat.

(** The command of a key, whether it leaves the editor. *)
Definition command (fuel : nat) (c : Z) : M editor bool :=
  if decide (c = 27) then
    c ← getchar;
    (if decide (c = 91) then
       c ← after_bracket;
       if decide (c = 65) then CursorUp
       else if decide (c = 66) then CursorDown
       else if decide (c = 67) then CursorRight
       else if decide (c = 68) then CursorLeft
       else if decide (c = 83) then times SCREEN_HEIGHT CursorUp
       else if decide (c = 84) then times SCREEN_HEIGHT CursorDown
       else mret tt
     else mret tt);;
    mret false
  else if decide (c = 12) then mret false
  else if decide (c = 2) then GoToLine;; mret false
  else if decide (c = 19) then SaveFile;; mret false
  else if decide (c = 20) then change (λ s, {| s with scroll_mode := (scroll_mode s + 1) `mod` 3 |});; mret false
  else if decide (c = 21) then change (λ s, {| s with programmers_newline := (programmers_newline s + 1) `mod` 5 |});; mret false
  else if decide (c = 6) then Search;; mret false
  else if decide (c = 14 ∨ c = 15 ∨ c = 24) then
    s ← get;
    do_action ←
      (if dirty s then
         k ← getchar;
         if decide (k = 10) then res ← SaveFile; mret (bool_decide (res = 0))
         else mret (bool_decide (k = 0))
       else mret true);
    if (do_action : bool) then
      if decide (c = 14) then ClearFile;; mret false
      else if decide (c = 24) then mret true
      else OpenFile fuel;; mret false
    else mret false
  else if decide (c = 8 ∨ c = 127) then
    s ← get;
    (if decide (cursor_pos s = 0) then
       if decide (cursor_line s ≠ 0) then
         l ← the_line (cursor_line s - 1);
         change (λ s, {| s with cursor_pos := len l; cursor_line := cursor_line s - 1 |});;
         MergeLineWithPrevious (cursor_line s);;
         change (λ s, {| s with dirty := true |})
       else mret tt
     else
       l ← the_line (cursor_line s);
       l ← deref (RemoveCharacterFromLine l (cursor_pos s - 1));
       set_line (cursor_line s) l;;
       change (λ s, {| s with cursor_pos := cursor_pos s - 1; dirty := true |}));;
    mret false
  else if decide (c = 10) then
    change (λ s, {| s with dirty := true |});; InsertNewline;; mret false
  else if isprint c then
    change (λ s, {| s with dirty := true |});;
    s ← get;
    l ← the_line (cursor_line s);
    l ← deref (AddCharToLine l (cursor_pos s) c);
    set_line (cursor_line s) l;;
    change (λ s, {| s with cursor_pos := cursor_pos s + 1 |});;
    mret false
  else mret false.

(** [EditorMain] from its loop on, for at most [n] commands. *)
Fixpoint editor_loop (fuel n : nat) : M editor bool :=
  match n with
  | O => mret false
  | S n =>
    c ← getchar;
    stop ← command fuel c;
    if (stop : bool) then mret true else editor_loop fuel n
  end.

(** What is set up before the loop: a new document, or a file. *)
Definition start (fuel : nat) (path : option (list Z)) : M editor Z :=
  change new_document;;
  res ← (match path with None => mret 0 | Some p => LoadFile fuel p end);
  change (λ s, {| s with dirty := false |});;
  mret res.

(** ** What a line holds

    Its characters, and zeros up to its end. *)
Definition char_ok (c : Z) : Prop := c ≠ 0 ∧ c ≠ 10.
Definition holds (l : line) (cs : list Z) : Prop :=
  (∃ k, (0 < k)%nat ∧ str l = cs ++ repeat 0 k) ∧ len l = length cs ∧ Forall char_ok cs.

Lemma holds_new n : 0 < n → holds (CreateLine n) [].
Proof. intros. split; [|by split]. exists (Z.to_nat n). split; [lia|done]. Qed.

Lemma read_mem_app (a b c : list Z) pos n : pos = Z.of_nat (length a) → n = Z.of_nat (length b) → read_mem (a ++ b ++ c) pos n = Some b.
Proof.
  intros -> ->. unfold read_mem. rewrite !length_app, decide_True by lia. by rewrite !Nat2Z.id, drop_app_length, take_app_length.
Qed.
Lemma write_mem_app (a b b' c : list Z) pos : pos = Z.of_nat (length a) → length b = length b' → write_mem (a ++ b ++ c) pos b' = Some (a ++ b' ++ c).
Proof.
  intros -> Hb. unfold write_mem. rewrite !length_app, decide_True by lia. rewrite Nat2Z.id, take_app_length, <- Hb.
  by rewrite (app_assoc a b c), <- length_app, drop_app_length.
Qed.
Lemma aset_app (a : list Z) x y b pos : pos = Z.of_nat (length a) → aset (a ++ x :: b) pos y = Some (a ++ y :: b).
Proof. intros ->. apply aset_end. Qed.

Lemma repeat_split (x : Z) n k : (n ≤ k)%nat → repeat x k = repeat x n ++ repeat x (k - n).
Proof. intros. rewrite <- repeat_app. f_equal. lia. Qed.

Lemma char_ok_c_string (cs : list Z) k : (0 < k)%nat → Forall char_ok cs → c_string (cs ++ repeat 0 k) = Some cs.
Proof.
  intros Hk H. induction H as [|c cs [Hc _] H IH]; cbn [app c_string].
  - destruct k; [lia|]. cbn. done.
  - rewrite decide_False by done. by rewrite IH.
Qed.

Lemma holds_c_string l cs : holds l cs → c_string (str l) = Some cs.
Proof. intros ((k & Hk & ->) & _ & H). by apply char_ok_c_string. Qed.

(** Room for one more character and the zero behind it. *)
Lemma grown_holds l cs : holds l cs →
  ∃ l' k, grown l = Some l' ∧ (1 < k)%nat ∧ str l' = cs ++ repeat 0 k ∧ len l' = length cs.
Proof.
  intros ((k & Hk & Es) & El & H). unfold grown, allocation_size. rewrite Es, El, length_app, repeat_length. case_decide as Hd.
  - rewrite <- (app_nil_l (cs ++ _)), (read_mem_app [] cs _ 0) by done. cbn [mbind option_bind].
    rewrite (repeat_split 0 (length cs)) by lia. rewrite <- (app_nil_l (repeat 0 (length cs) ++ _)), (write_mem_app [] _ cs _ 0) by (done || by rewrite repeat_length).
    eexists (mk_line _ _), _. split; [reflexivity|]. cbn [str len app]. split; [|done]. lia.
  - exists l, k. split; [done|]. split; [lia|done].
Qed.

Lemma AddCharToLine_holds l a b c pos : holds l (a ++ b) → char_ok c → pos = Z.of_nat (length a) ∨ pos = -1 ∧ b = [] →
  ∃ l', AddCharToLine l pos c = Some l' ∧ holds l' (a ++ c :: b).
Proof.
  intros Hl Hc Hpos. destruct (grown_holds l _ Hl) as (g & k & Eg & Hk & Es & El). destruct Hl as (_ & _ & Hcs).
  assert (Forall char_ok (a ++ c :: b)) as Hcs' by (apply Forall_app in Hcs as [??]; apply Forall_app_2; [done|by constructor]).
  unfold AddCharToLine. rewrite Eg. cbn [mbind option_bind]. rewrite El, Es.
  destruct k as [|k]; [lia|]. cbn [repeat]. destruct Hpos as [Hpos|[-> ->]].
  - rewrite decide_False by lia. unfold move_chars. rewrite <- app_assoc.
    rewrite (read_mem_app a b (0 :: repeat 0 k)) by (rewrite ?length_app; lia). cbn [mbind option_bind].
    assert (∃ x r, b ++ 0 :: repeat 0 k = x :: r ++ repeat 0 k ∧ length r = length b) as (x & r & Er & Hr).
    { destruct b as [|x b]; [by exists 0, []|]. exists x, (b ++ [0]). cbn. rewrite length_app. cbn. split; [by rewrite <- app_assoc|lia]. }
    rewrite Er. change (a ++ x :: r ++ repeat 0 k) with (a ++ [x] ++ r ++ repeat 0 k). rewrite app_assoc.
    rewrite (write_mem_app (a ++ [x]) r b) by (rewrite ?length_app; cbn [length]; lia || done). cbn [mbind option_bind].
    rewrite <- app_assoc. cbn [app]. rewrite (aset_app a x c) by done. cbn [mbind option_bind].
    eexists. split; [done|]. split; [|split; [|done]].
    + exists k. split; [lia|]. cbn [str]. by rewrite <- app_assoc.
    + cbn [len]. rewrite !length_app. cbn [length]. lia.
  - rewrite decide_True by done. rewrite app_nil_r. rewrite (aset_app a 0 c) by done. cbn [mbind option_bind].
    eexists. split; [done|]. split; [|split; [|done]].
    + exists k. split; [lia|]. cbn [str]. by rewrite <- app_assoc.
    + cbn [len]. rewrite !length_app. cbn [length]. lia.
Qed.

Lemma AddCharsToLine_holds cs : ∀ l a, holds l a → Forall char_ok cs → ∃ l', AddCharsToLine l cs = Some l' ∧ holds l' (a ++ cs).
Proof.
  induction cs as [|c cs IH]; intros l a Hl Hcs; cbn [AddCharsToLine].
  - exists l. by rewrite app_nil_r.
  - apply Forall_cons in Hcs as [Hc Hcs]. destruct (AddCharToLine_holds l a [] c (-1)) as (l1 & E1 & H1); [by rewrite app_nil_r|done|by right|].
    rewrite E1. cbn [mbind option_bind]. destruct (IH l1 (a ++ [c]) H1 Hcs) as (l2 & E2 & H2). exists l2. split; [done|]. by rewrite <- app_assoc in H2.
Qed.

Lemma RemoveCharacterFromLine_holds l a c b pos : holds l (a ++ c :: b) → pos = Z.of_nat (length a) →
  ∃ l', RemoveCharacterFromLine l pos = Some l' ∧ holds l' (a ++ b).
Proof.
  intros ((k & Hk & Es) & El & Hcs) ->. unfold RemoveCharacterFromLine, move_chars. rewrite Es, El.
  change (a ++ c :: b) with (a ++ [c] ++ b). rewrite !length_app. cbn [length]. rewrite app_assoc, <- app_assoc.
  rewrite (read_mem_app (a ++ [c]) b) by (rewrite ?length_app; cbn [length]; lia). cbn [mbind option_bind].
  assert (∃ r x, [c] ++ b = r ++ [x] ∧ length r = length b) as (r & x & Er & Hr).
  { destruct b as [|y b _] using rev_ind; [by exists [], c|]. exists (c :: b), y. rewrite length_app. cbn. split; [done|lia]. }
  rewrite <- app_assoc, (app_assoc [c] b), Er, <- app_assoc. rewrite (write_mem_app a r b) by done. cbn [mbind option_bind].
  cbn [app]. rewrite (app_assoc a b). rewrite (aset_app (a ++ b) x 0) by (rewrite length_app; lia). cbn [mbind option_bind].
  eexists. split; [done|]. split; [|split].
  - exists (S k). split; [lia|]. done.
  - cbn [len]. rewrite length_app. lia.
  - apply Forall_app in Hcs as [? [_ ?]%Forall_cons]. by apply Forall_app_2.
Qed.

(** ** The document around the cursor

    [at_cursor s pre a b post]: the document of [s] has the lines [pre], the line
    [a ++ b] with the cursor between the two, and the lines [post]. *)
Implicit Types (s : editor) (pre post : list (list Z)) (a b : list Z).

Record at_cursor s pre a b post : Prop := {
  ac_doc : Forall2 holds (doc s) (pre ++ (a ++ b) :: post);
  ac_line : cursor_line s = length pre;
  ac_pos : cursor_pos s = length a;
  ac_num : num_lines s = length (doc s);
}.

Lemma doc_split d pre x post : Forall2 holds d (pre ++ x :: post) →
  ∃ dp l dq, d = dp ++ l :: dq ∧ Forall2 holds dp pre ∧ holds l x ∧ Forall2 holds dq post ∧ length dp = length pre.
Proof.
  intros H. apply Forall2_app_inv_r in H as (dp & d2 & Hp & H2 & ->). apply Forall2_cons_inv_r in H2 as (l & dq & Hl & Hq & ->).
  exists dp, l, dq. split_and!; try done. by apply Forall2_length in Hp.
Qed.

Lemma aget_app {A} (a : list A) (x : A) (b : list A) i : i = Z.of_nat (length a) → aget (a ++ x :: b) i = Some x.
Proof. intros ->. rewrite aget_nat. by apply list_lookup_middle. Qed.

#[local] Ltac step := erewrite M_bind_done; [|reflexivity]; cbv beta;
  cbn [doc filepath cursor_pos cursor_line dirty num_lines scroll_mode programmers_newline search_line input world last_errno].

Lemma the_line_at s n dp l dq : doc s = dp ++ l :: dq → n = Z.of_nat (length dp) → the_line n s = Done (l, s).
Proof. intros Hd ->. unfold the_line, GetLine. step. rewrite Hd. by rewrite aget_app by done. Qed.

Lemma set_line_at s n dp l dq l' : doc s = dp ++ l :: dq → n = Z.of_nat (length dp) →
  set_line n l' s = Done (tt, {| s with doc := dp ++ l' :: dq |}).
Proof.
  intros Hd ->. unfold set_line. step. rewrite Hd. unfold aset. rewrite decide_True by (rewrite length_app; cbn [length]; lia).
  rewrite Nat2Z.id, insert_app_r_alt, Nat.sub_diag by lia. done.
Qed.

(** ** The commands at the cursor *)
Lemma type_char s pre a b post f c :
  at_cursor s pre a b post → 32 ≤ c < 127 →
  ∃ s', command f c s = Done (false, s') ∧ at_cursor s' pre (a ++ [c]) b post ∧ input s' = input s ∧
    programmers_newline s' = programmers_newline s ∧ dirty s' = true.
Proof.
  intros [Hd Hl Hp Hn] Hc. destruct (doc_split _ _ _ _ Hd) as (dp & l & dq & Ed & Hdp & Hll & Hdq & Hlen).
  unfold command. rewrite !decide_False by lia.
  assert (isprint c = true) as -> by (unfold isprint, iscntrl; rewrite bool_decide_eq_false_2 by lia; done).
  step. step. rewrite Hl, Hp.
  erewrite M_bind_done; [|eapply (the_line_at _ _ dp l dq); [exact Ed|by rewrite Hlen]].
  destruct (AddCharToLine_holds l a b c (length a)) as (l' & E & Hl'); [done|unfold char_ok; lia|by left|].
  rewrite E. step. erewrite M_bind_done; [|eapply (set_line_at _ _ dp l dq); [exact Ed|by rewrite Hlen]].
  cbv beta. step. eexists. split; [reflexivity|]. split; [|done]. split; cbn [doc cursor_line cursor_pos num_lines].
  - apply Forall2_app; [done|]. constructor; [|done]. by rewrite <- app_assoc.
  - done.
  - rewrite length_app. cbn [length]. lia.
  - rewrite Hn, Ed, !length_app. done.
Qed.

(** What every command keeps. *)
Definition keeps s s' : Prop := input s' = input s ∧ programmers_newline s' = programmers_newline s.

Lemma drop_past {A} (a : list A) (x : A) (b : list A) n : n = length a → drop (S n) (a ++ x :: b) = b.
Proof. intros ->. by induction a. Qed.

Lemma write_mem_nil (l : list Z) : write_mem l 0 [] = Some l.
Proof. unfold write_mem. by rewrite decide_True by (cbn [length]; lia). Qed.

Lemma type_newline s pre a b post f :
  at_cursor s pre a b post → programmers_newline s = 0 →
  ∃ s', command f 10 s = Done (false, s') ∧ at_cursor s' (pre ++ [a]) [] b post ∧ keeps s s' ∧ dirty s' = true.
Proof.
  intros [Hd Hl Hp Hn] Hprog. destruct (doc_split _ _ _ _ Hd) as (dp & l & dq & Ed & Hdp & Hll & Hdq & Hlen).
  pose proof Hll as ((k & Hk & Es) & El & Hcs). apply Forall_app in Hcs as [Ha Hb].
  assert (∃ m, str (CreateLine (length (a ++ b) - length a + 20)) = [] ++ repeat 0 (S (length b)) ++ repeat 0 (S m)) as (m & Em).
  { exists 18%nat. cbn [CreateLine str app]. rewrite <- repeat_app. f_equal. rewrite length_app. lia. }
  unfold command. rewrite !decide_False by lia. rewrite decide_True by done. step.
  erewrite M_bind_done.
  2: { unfold InsertNewline. step. rewrite Hl, Hp, Hprog.
    erewrite M_bind_done; [|eapply (the_line_at _ _ dp l dq); [exact Ed|by rewrite Hlen]].
    cbn [indentation]. unfold indentation. rewrite decide_True by done. step.
    change (repeat 32 (Z.to_nat 0)) with (@nil Z). rewrite write_mem_nil. step.
    assert (drop (Z.to_nat (length a)) (str l) = b ++ repeat 0 k) as -> by (by rewrite Nat2Z.id, Es, <- app_assoc, drop_app_length).
    rewrite char_ok_c_string by done. step. rewrite El.
    rewrite Em. rewrite (write_mem_app [] _ (b ++ [0]) _ 0) by (done || (rewrite repeat_length, length_app; cbn [length]; lia)). step.
    unfold allocation_size. rewrite Es.
    assert (write_mem ((a ++ b) ++ repeat 0 k) (length a) (repeat 0 (Z.to_nat (length ((a ++ b) ++ repeat 0 k) - length a))) =
      Some (a ++ repeat 0 (length b + k))) as Hcut.
    { replace ((a ++ b) ++ repeat 0 k) with (a ++ (b ++ repeat 0 k) ++ []) by (by rewrite app_nil_r, app_assoc). rewrite (write_mem_app a (b ++ repeat 0 k)).
      - rewrite app_nil_r. do 3 f_equal. rewrite !length_app, repeat_length. cbn [length]. lia.
      - done.
      - rewrite !repeat_length, !length_app, repeat_length. cbn [length]. lia. }
    rewrite Hcut. step. reflexivity. }
  cbv beta. eexists. split; [reflexivity|]. split; [|split; [split; [done|exact (eq_sym Hprog)]|done]]. rewrite Ed. split; cbn [doc cursor_line cursor_pos num_lines].
  - rewrite <- Hlen, Nat2Z.id, take_app_length. rewrite <- (app_assoc pre [a]). apply Forall2_app; [done|]. cbn [app]. constructor; [|constructor].
    + split; [|done]. exists (length b + k)%nat. split; [lia|done].
    + split; [|split; [|done]].
      * exists (S (S m)). cbn [str app]. split; [lia|]. by rewrite <- app_assoc.
      * cbn [len]. rewrite length_app. lia.
    + by rewrite drop_past.
  - rewrite length_app. cbn [length]. lia.
  - done.
  - rewrite Hn, Ed. rewrite <- Hlen, Nat2Z.id, take_app_length. rewrite !length_app. cbn [length].
    rewrite length_drop, !length_app. cbn [length]. lia.
Qed.

(** Backspace inside of a line. *)
Lemma type_backspace s pre a x b post f c :
  at_cursor s pre (a ++ [x]) b post → c = 8 ∨ c = 127 →
  ∃ s', command f c s = Done (false, s') ∧ at_cursor s' pre a b post ∧ keeps s s' ∧ dirty s' = true.
Proof.
  intros [Hd Hl Hp Hn] Hc. destruct (doc_split _ _ _ _ Hd) as (dp & l & dq & Ed & Hdp & Hll & Hdq & Hlen).
  rewrite length_app in Hp. cbn [length] in Hp.
  unfold command. rewrite !decide_False by lia. rewrite decide_True by done. step. rewrite (decide_False (P := cursor_pos s = 0)) by lia.
  destruct (RemoveCharacterFromLine_holds l a x b (cursor_pos s - 1)) as (l' & E & Hl'); [by rewrite <- app_assoc in Hll|lia|].
  erewrite M_bind_done.
  2: { rewrite Hl. erewrite M_bind_done; [|eapply (the_line_at _ _ dp l dq); [exact Ed|by rewrite Hlen]].
    rewrite E. step. erewrite M_bind_done; [|eapply (set_line_at _ _ dp l dq); [exact Ed|by rewrite Hlen]]. reflexivity. }
  eexists. split; [reflexivity|]. split; [|by split_and!]. split; cbn [doc cursor_line cursor_pos num_lines].
  - apply Forall2_app; [done|]. by constructor.
  - done.
  - lia.
  - rewrite Hn, Ed, !length_app. done.
Qed.

(** Backspace at the beginning of a line joins it to the one before. *)
Lemma MergeLineWithPrevious_at s num dp l1 l2 dq x1 x2 :
  doc s = dp ++ l1 :: l2 :: dq → num = Z.of_nat (S (length dp)) → holds l1 x1 → holds l2 x2 →
  ∃ l, MergeLineWithPrevious num s = Done (tt, {| s with doc := dp ++ l :: dq; num_lines := num_lines s - 1 |}) ∧ holds l (x1 ++ x2).
Proof.
  intros Ed Hnum H1 H2. pose proof H2 as ((k & Hk & Es) & El & Hcs).
  destruct (AddCharsToLine_holds x2 l1 x1 H1 Hcs) as (l & E & Hl). exists l. split; [|done].
  assert (doc s = (dp ++ [l1]) ++ l2 :: dq) as Ed' by (by rewrite <- app_assoc).
  unfold MergeLineWithPrevious. erewrite M_bind_done; [|eapply (the_line_at _ _ dp l1); [exact Ed|lia]].
  erewrite M_bind_done; [|eapply (the_line_at _ _ (dp ++ [l1]) l2); [exact Ed'|rewrite length_app; cbn [length]; lia]].
  assert (read_mem (str l2) 0 (len l2) = Some x2) as -> by (rewrite Es, El; by apply (read_mem_app [] x2)).
  step. rewrite E. step. erewrite M_bind_done; [|eapply (set_line_at _ _ dp l1); [exact Ed|lia]]. unfold change, modify. cbn [doc num_lines].
  do 3 f_equal. rewrite Hnum, Nat2Z.id. replace (dp ++ l :: l2 :: dq) with ((dp ++ [l]) ++ l2 :: dq) by (by rewrite <- app_assoc).
  rewrite drop_past by (rewrite length_app; cbn [length]; lia). rewrite take_app_length' by (rewrite length_app; cbn [length]; lia).
  by rewrite <- app_assoc.
Qed.

Lemma type_backspace_join s pre p b post f c :
  at_cursor s (pre ++ [p]) [] b post → c = 8 ∨ c = 127 →
  ∃ s', command f c s = Done (false, s') ∧ at_cursor s' pre p b post ∧ keeps s s' ∧ dirty s' = true.
Proof.
  intros [Hd Hl Hp Hn] Hc. destruct (doc_split _ _ _ _ Hd) as (d1 & l2 & dq & Ed & Hd1 & Hl2 & Hdq & Hlen).
  apply Forall2_app_inv_r in Hd1 as (dp & d1' & Hdp & Hd1' & ->). apply Forall2_cons_inv_r in Hd1' as (l1 & d0 & Hl1 & Hd0 & ->).
  apply Forall2_nil_inv_r in Hd0 as ->. rewrite <- app_assoc in Ed. cbn [app] in Ed. apply Forall2_length in Hdp as Hlp.
  rewrite length_app in Hl. cbn [length] in Hl, Hp.
  unfold command. rewrite !decide_False by lia. rewrite decide_True by done. step.
  rewrite (decide_True (P := cursor_pos s = 0)) by done. rewrite (decide_True (P := cursor_line s ≠ 0)) by lia.
  set (s1 := mk_editor (doc s) (filepath s) (len l1) (cursor_line s - 1) (dirty s) (num_lines s) (scroll_mode s) (programmers_newline s) (search_line s) (input s) (world s) (last_errno s)).
  destruct (MergeLineWithPrevious_at s1 (cursor_line s) dp l1 l2 dq p b Ed) as (l & E & Hl'); [lia|done|done|].
  erewrite M_bind_done.
  2: { erewrite M_bind_done; [|eapply (the_line_at _ _ dp l1); [exact Ed|lia]]. step. fold s1.
    rewrite (M_bind_done _ _ _ _ _ E). reflexivity. }
  eexists. split; [reflexivity|]. split; [|by split_and!]. split; cbn [doc cursor_line cursor_pos num_lines].
  - apply Forall2_app; [done|]. by constructor.
  - cbn. lia.
  - cbn. by destruct Hl1 as (_ & -> & _).
  - cbn [num_lines s1]. rewrite Hn, Ed, !length_app. cbn [length]. lia.
Qed.

(** Backspace at the beginning of the document does nothing. *)
Lemma type_backspace_first s b post f c : at_cursor s [] [] b post → c = 8 ∨ c = 127 → command f c s = Done (false, s).
Proof.
  intros [Hd Hl Hp Hn] Hc. unfold command. rewrite !decide_False by lia. rewrite decide_True by done. step.
  rewrite (decide_True (P := cursor_pos s = 0)) by done. rewrite decide_False by (rewrite Hl; cbn [length]; lia). done.
Qed.

(** ** The arrow keys *)
Lemma left_in_line s pre a x b post : at_cursor s pre (a ++ [x]) b post →
  ∃ s', CursorLeft s = Done (tt, s') ∧ at_cursor s' pre a (x :: b) post ∧ keeps s s' ∧ dirty s' = dirty s.
Proof.
  intros [Hd Hl Hp Hn]. rewrite length_app in Hp. cbn [length] in Hp. unfold CursorLeft. step. rewrite decide_False by lia.
  eexists. split; [reflexivity|]. split; [|by split_and!]. split; cbn [doc cursor_line cursor_pos num_lines]; [by rewrite <- app_assoc in Hd|done|lia|done].
Qed.

Lemma left_to_line s pre p b post : at_cursor s (pre ++ [p]) [] b post →
  ∃ s', CursorLeft s = Done (tt, s') ∧ at_cursor s' pre p [] (b :: post) ∧ keeps s s' ∧ dirty s' = dirty s.
Proof.
  intros [Hd Hl Hp Hn]. rewrite length_app in Hl. cbn [length] in Hl, Hp. rewrite <- app_assoc in Hd. cbn [app] in Hd.
  destruct (doc_split _ _ _ _ Hd) as (dp & l & dq & Ed & Hdp & Hll & Hdq & Hlen).
  unfold CursorLeft. step. rewrite decide_True by lia. rewrite decide_False by lia.
  erewrite M_bind_done; [|eapply (the_line_at _ _ dp l); [exact Ed|lia]].
  eexists. split; [reflexivity|]. split; [|by split_and!]. split; cbn [doc cursor_line cursor_pos num_lines]; [by rewrite app_nil_r|lia|by destruct Hll as (_ & -> & _)|done].
Qed.

Lemma left_first s b post : at_cursor s [] [] b post →
  ∃ s', CursorLeft s = Done (tt, s') ∧ at_cursor s' [] [] b post ∧ keeps s s' ∧ dirty s' = dirty s.
Proof.
  intros [Hd Hl Hp Hn]. cbn [length] in Hl, Hp. unfold CursorLeft. step. rewrite !decide_True by lia.
  eexists. split; [reflexivity|]. split; [|by split_and!]. by split.
Qed.

Lemma right_in_line s pre a x b post : at_cursor s pre a (x :: b) post →
  ∃ s', CursorRight s = Done (tt, s') ∧ at_cursor s' pre (a ++ [x]) b post ∧ keeps s s' ∧ dirty s' = dirty s.
Proof.
  intros [Hd Hl Hp Hn]. destruct (doc_split _ _ _ _ Hd) as (dp & l & dq & Ed & Hdp & Hll & Hdq & Hlen).
  unfold CursorRight. step. erewrite M_bind_done; [|eapply (the_line_at _ _ dp l); [exact Ed|lia]].
  rewrite decide_False by (destruct Hll as (_ & -> & _); rewrite length_app; cbn [length]; lia).
  eexists. split; [reflexivity|]. split; [|by split_and!].
  split; cbn [doc cursor_line cursor_pos num_lines]; [by rewrite <- app_assoc|done|rewrite length_app; cbn [length]; lia|done].
Qed.

Lemma right_to_line s pre a n post : at_cursor s pre a [] (n :: post) →
  ∃ s', CursorRight s = Done (tt, s') ∧ at_cursor s' (pre ++ [a]) [] n post ∧ keeps s s' ∧ dirty s' = dirty s.
Proof.
  intros [Hd Hl Hp Hn]. destruct (doc_split _ _ _ _ Hd) as (dp & l & dq & Ed & Hdp & Hll & Hdq & Hlen).
  apply Forall2_cons_inv_r in Hdq as (l' & dq' & Hl' & Hdq & ->).
  unfold CursorRight. step. erewrite M_bind_done; [|eapply (the_line_at _ _ dp l); [exact Ed|lia]].
  rewrite app_nil_r in Hll, Hd. rewrite decide_True by (destruct Hll as (_ & -> & _); lia).
  unfold GetLine. step. rewrite Ed. replace (dp ++ l :: l' :: dq') with ((dp ++ [l]) ++ l' :: dq') by (by rewrite <- app_assoc).
  rewrite aget_app by (rewrite length_app; cbn [length]; lia).
  eexists. split; [reflexivity|]. split; [|by split_and!].
  split; cbn [doc cursor_line cursor_pos num_lines]; [|rewrite length_app; cbn [length]; lia|done|by rewrite Hn, Ed, <- app_assoc].
  rewrite <- !app_assoc. cbn [app]. by rewrite <- Ed.
Qed.

Lemma right_last s pre a : at_cursor s pre a [] [] →
  ∃ s', CursorRight s = Done (tt, s') ∧ at_cursor s' pre a [] [] ∧ keeps s s' ∧ dirty s' = dirty s.
Proof.
  intros [Hd Hl Hp Hn]. destruct (doc_split _ _ _ _ Hd) as (dp & l & dq & Ed & Hdp & Hll & Hdq & Hlen).
  apply Forall2_nil_inv_r in Hdq as ->. unfold CursorRight. step. erewrite M_bind_done; [|eapply (the_line_at _ _ dp l); [exact Ed|lia]].
  rewrite app_nil_r in Hll. pose proof Hll as (_ & El & _). rewrite decide_True by lia.
  unfold GetLine. step.
  assert (aget (doc s) (cursor_line s + 1) = None) as ->.
  { rewrite Hl, <- Hlen, Ed. unfold aget. rewrite decide_True by lia. apply lookup_ge_None_2. rewrite length_app. cbn [length]. lia. }
  eexists. split; [reflexivity|]. split; [|by split_and!]. by split.
Qed.

(** Moving to a line: the column is kept, cut at the end of the line. *)
Definition column (a x : list Z) : nat := Nat.min (length a) (length x).

Lemma up_to_line s pre p a b post : at_cursor s (pre ++ [p]) a b post →
  ∃ s', CursorUp s = Done (tt, s') ∧ at_cursor s' pre (take (column a p) p) (drop (column a p) p) ((a ++ b) :: post) ∧ keeps s s' ∧ dirty s' = dirty s.
Proof.
  intros [Hd Hl Hp Hn]. rewrite length_app in Hl. cbn [length] in Hl. rewrite <- app_assoc in Hd. cbn [app] in Hd.
  destruct (doc_split _ _ _ _ Hd) as (dp & l & dq & Ed & Hdp & Hll & Hdq & Hlen). pose proof Hll as (_ & El & _).
  unfold CursorUp. step. rewrite decide_True by lia. erewrite M_bind_done; [|eapply (the_line_at _ _ dp l); [exact Ed|lia]].
  eexists. split; [reflexivity|]. split; [|by split_and!]. split; cbn [doc cursor_line cursor_pos num_lines]; [by rewrite take_drop|lia| |done].
  rewrite length_take. unfold column. case_decide; lia.
Qed.

Lemma up_first s a b post : at_cursor s [] a b post →
  ∃ s', CursorUp s = Done (tt, s') ∧ at_cursor s' [] [] (a ++ b) post ∧ keeps s s' ∧ dirty s' = dirty s.
Proof.
  intros [Hd Hl Hp Hn]. cbn [length] in Hl. unfold CursorUp. step. rewrite decide_False by lia.
  eexists. split; [reflexivity|]. split; [|by split_and!]. by split.
Qed.

Lemma down_to_line s pre a b n post : at_cursor s pre a b (n :: post) →
  ∃ s', CursorDown s = Done (tt, s') ∧ at_cursor s' (pre ++ [a ++ b]) (take (column a n) n) (drop (column a n) n) post ∧ keeps s s' ∧ dirty s' = dirty s.
Proof.
  intros [Hd Hl Hp Hn]. destruct (doc_split _ _ _ _ Hd) as (dp & l & dq & Ed & Hdp & Hll & Hdq & Hlen).
  apply Forall2_cons_inv_r in Hdq as (l' & dq' & Hl' & Hdq & ->). pose proof Hl' as (_ & El & _).
  unfold CursorDown. step. erewrite M_bind_done; [|eapply (the_line_at _ _ dp l); [exact Ed|lia]].
  unfold GetLine. step. rewrite Ed. replace (dp ++ l :: l' :: dq') with ((dp ++ [l]) ++ l' :: dq') by (by rewrite <- app_assoc).
  rewrite aget_app by (rewrite length_app; cbn [length]; lia).
  eexists. split; [reflexivity|]. split; [|by split_and!].
  split; cbn [doc cursor_line cursor_pos num_lines]; [|rewrite length_app; cbn [length]; lia| |by rewrite Hn, Ed, <- app_assoc].
  - rewrite take_drop, <- !app_assoc. cbn [app]. by rewrite <- Ed.
  - rewrite length_take. unfold column. case_decide; lia.
Qed.

Lemma down_last s pre a b : at_cursor s pre a b [] →
  ∃ s', CursorDown s = Done (tt, s') ∧ at_cursor s' pre (a ++ b) [] [] ∧ keeps s s' ∧ dirty s' = dirty s.
Proof.
  intros [Hd Hl Hp Hn]. destruct (doc_split _ _ _ _ Hd) as (dp & l & dq & Ed & Hdp & Hll & Hdq & Hlen).
  apply Forall2_nil_inv_r in Hdq as ->. unfold CursorDown. step. erewrite M_bind_done; [|eapply (the_line_at _ _ dp l); [exact Ed|lia]].
  pose proof Hll as (_ & El & _). unfold GetLine. step.
  assert (aget (doc s) (cursor_line s + 1) = None) as ->.
  { rewrite Hl, <- Hlen, Ed. unfold aget. rewrite decide_True by lia. apply lookup_ge_None_2. rewrite length_app. cbn [length]. lia. }
  eexists. split; [reflexivity|]. split; [|by split_and!]. split; cbn [doc cursor_line cursor_pos num_lines]; [by rewrite app_nil_r|done|done|done].
Qed.

(** ** The text

    The text before the cursor and the text after it, with newlines between the
    lines. *)
Definition before pre a : list Z := concat ((λ l, l ++ [10]) <$> pre) ++ a.
Definition after b post : list Z := b ++ concat ((λ l, 10 :: l) <$> post).

Definition showing s (t1 t2 : list Z) : Prop := ∃ pre a b post, at_cursor s pre a b post ∧ t1 = before pre a ∧ t2 = after b post.

Lemma before_snoc pre p a : before (pre ++ [p]) a = before pre p ++ 10 :: a.
Proof. unfold before. rewrite fmap_app, concat_app. cbn. rewrite app_nil_r. by rewrite <- !app_assoc. Qed.
Lemma before_char pre a c : before pre (a ++ [c]) = before pre a ++ [c].
Proof. unfold before. by rewrite app_assoc. Qed.
Lemma after_line b n post : after b (n :: post) = b ++ 10 :: after n post.
Proof. done. Qed.
Lemma whole pre a b post : before pre a ++ after b post = before pre [] ++ after (a ++ b) post.
Proof. unfold before, after. by rewrite app_nil_r, <- !app_assoc. Qed.
Lemma whole_up pre p a b post : before (pre ++ [p]) a ++ after b post = before pre [] ++ after p ((a ++ b) :: post).
Proof. rewrite whole, before_snoc, after_line. rewrite <- app_assoc. cbn [app]. unfold before. by rewrite app_nil_r, <- app_assoc. Qed.

(** What a key does to the text: abstractly, the text before and after the cursor. *)
Inductive key : Type := Char (c : Z) | Enter | Backspace | ArrowLeft | ArrowRight | ArrowUp | ArrowDown.

Definition key_ok (k : key) : Prop := match k with Char c => 32 ≤ c < 127 | _ => True end.
Definition key_bytes (k : key) : list Z :=
  match k with
  | Char c => [c] | Enter => [10] | Backspace => [8]
  | ArrowUp => [27; 91; 65] | ArrowDown => [27; 91; 66] | ArrowRight => [27; 91; 67] | ArrowLeft => [27; 91; 68]
  end.

Inductive edits : key → list Z * list Z → list Z * list Z → Prop :=
  | edit_char c t u : edits (Char c) (t, u) (t ++ [c], u)
  | edit_enter t u : edits Enter (t, u) (t ++ [10], u)
  | edit_backspace t c u : edits Backspace (t ++ [c], u) (t, u)
  | edit_backspace_first u : edits Backspace ([], u) ([], u)
  | edit_left t c u : edits ArrowLeft (t ++ [c], u) (t, c :: u)
  | edit_left_first u : edits ArrowLeft ([], u) ([], u)
  | edit_right t c u : edits ArrowRight (t, c :: u) (t ++ [c], u)
  | edit_right_last t : edits ArrowRight (t, []) (t, [])
  | edit_up t u t' u' : t ++ u = t' ++ u' → (length t' ≤ length t)%nat → edits ArrowUp (t, u) (t', u')
  | edit_down t u t' u' : t ++ u = t' ++ u' → (length t ≤ length t')%nat → edits ArrowDown (t, u) (t', u').

Lemma snoc_cases {A} (l : list A) : l = [] ∨ ∃ l' x, l = l' ++ [x].
Proof. induction l as [|x l _] using rev_ind; [by left|right; eauto]. Qed.

Definition with_input s (l : list Z) : editor := {| s with input := l |}.

Lemma at_cursor_input s pre a b post l : at_cursor s pre a b post → at_cursor (with_input s l) pre a b post.
Proof. intros [Hd Hl Hp Hn]. by split. Qed.

Lemma getchar_key s c rest : input s = c :: rest → 0 ≤ c < 128 → getchar s = Done (c, with_input s rest).
Proof. intros Hi Hc. unfold getchar. step. rewrite Hi. step. unfold mret, M_mret. by rewrite i8_small by lia. Qed.

(** The keys that are one byte. *)
Lemma byte_key s c rest f : input s = c :: rest → 0 ≤ c < 128 →
  (c ← getchar; command f c) s = command f c (with_input s rest).
Proof. intros Hi Hc. by rewrite (M_bind_done _ _ _ _ _ (getchar_key s c rest Hi Hc)). Qed.

(** The arrow keys, of three bytes. *)
Definition arrow (c : Z) : M editor unit :=
  if decide (c = 65) then CursorUp else if decide (c = 66) then CursorDown else if decide (c = 67) then CursorRight else CursorLeft.

Lemma arrow_key s c rest f s' : input s = 27 :: 91 :: c :: rest → 65 ≤ c ≤ 68 → arrow c (with_input s rest) = Done (tt, s') →
  (c ← getchar; command f c) s = Done (false, s').
Proof.
  intros Hi Hc E. rewrite (M_bind_done _ _ _ _ _ (getchar_key s 27 _ Hi ltac:(lia))). unfold command. rewrite decide_True by done.
  rewrite (M_bind_done _ _ _ _ _ (getchar_key (with_input s (91 :: c :: rest)) 91 _ eq_refl ltac:(lia))). rewrite (decide_True (P := 91 = 91)) by done.
  assert (after_bracket (with_input (with_input s (91 :: c :: rest)) (c :: rest)) = Done (c, with_input s rest)) as Eb.
  { unfold after_bracket. erewrite M_bind_done; [|by apply (getchar_key _ c rest); [|lia]]. step. cbn [skip_digits].
    assert (isdigit c = false) as -> by (unfold isdigit; apply bool_decide_eq_false; lia). done. }
  erewrite M_bind_done; [done|]. rewrite (M_bind_done _ _ _ _ _ Eb). rewrite <- E. unfold arrow.
  repeat case_decide; try lia; done.
Qed.

(** The command of a key edits the text as the key should; nothing is changed
    without a mark that the file is not saved. *)
Definition edited (k : key) s (t u : list Z) s' : Prop :=
  ∃ t' u', showing s' t' u' ∧ edits k (t, u) (t', u') ∧ (dirty s' = false → dirty s = false ∧ t' ++ u' = t ++ u).

Lemma edited_by_move k s t u s' pre a b post : at_cursor s' pre a b post → dirty s' = dirty s →
  edits k (t, u) (before pre a, after b post) → t ++ u = before pre a ++ after b post → edited k s t u s'.
Proof. intros Hc Hd He Hw. exists (before pre a), (after b post). split; [by exists pre, a, b, post|]. split; [done|]. intros. by rewrite <- Hd. Qed.

Lemma edited_by_change k s t u s' pre a b post : at_cursor s' pre a b post → dirty s' = true →
  edits k (t, u) (before pre a, after b post) → edited k s t u s'.
Proof. intros Hc Hd He. exists (before pre a), (after b post). split; [by exists pre, a, b, post|]. split; [done|]. congruence. Qed.

(** The next command is that of the key, and does what the key should. *)
Definition commanded f rest (k : key) s (t u : list Z) : Prop :=
  ∃ s', (c ← getchar; command f c) s = Done (false, s') ∧ keeps (with_input s rest) s' ∧ edited k s t u s'.

Section command.
Context (f : nat) (rest : list Z).

Lemma commanded_move s pre a b post k c s' pre' a' b' post' :
  input s = 27 :: 91 :: c :: rest → 65 ≤ c ≤ 68 →
  arrow c (with_input s rest) = Done (tt, s') → at_cursor s' pre' a' b' post' → keeps (with_input s rest) s' → dirty s' = dirty (with_input s rest) →
  edits k (before pre a, after b post) (before pre' a', after b' post') → before pre a ++ after b post = before pre' a' ++ after b' post' → commanded f rest k s (before pre a) (after b post).
Proof.
  intros Hi Hr E Hc' Hk Hd He Hw. exists s'. split; [by apply (arrow_key s c rest)|]. split; [done|]. by eapply edited_by_move.
Qed.

Lemma commanded_change s pre a b post k c s' pre' a' b' post' :
  input s = c :: rest → 0 ≤ c < 128 →
  command f c (with_input s rest) = Done (false, s') → at_cursor s' pre' a' b' post' → keeps (with_input s rest) s' → dirty s' = true →
  edits k (before pre a, after b post) (before pre' a', after b' post') → commanded f rest k s (before pre a) (after b post).
Proof.
  intros Hi Hr E Hc' Hk Hd He. exists s'. rewrite (byte_key s c rest) by done. split; [done|]. split; [done|]. by eapply edited_by_change.
Qed.

Lemma char_command s pre a b post c : at_cursor (with_input s rest) pre a b post →
  32 ≤ c < 127 → input s = c :: rest → commanded f rest (Char c) s (before pre a) (after b post).
Proof.
  intros Hc Hk Hi. destruct (type_char _ pre a b post f c Hc Hk) as (s' & E & Hc' & Hin & Hpr & Hd).
  eapply commanded_change; [exact Hi|lia|exact E|exact Hc'|by split|done|]. rewrite before_char. constructor.
Qed.

Lemma enter_command s pre a b post : at_cursor (with_input s rest) pre a b post →
  programmers_newline s = 0 → input s = 10 :: rest → commanded f rest Enter s (before pre a) (after b post).
Proof.
  intros Hc Hprog Hi. destruct (type_newline _ pre a b post f Hc Hprog) as (s' & E & Hc' & Hke & Hd).
  eapply commanded_change; [exact Hi|lia|exact E|exact Hc'|done|done|]. rewrite before_snoc. constructor.
Qed.

Lemma backspace_command s pre a b post : at_cursor (with_input s rest) pre a b post →
  input s = 8 :: rest → commanded f rest Backspace s (before pre a) (after b post).
Proof.
  intros Hc Hi. destruct (snoc_cases a) as [->|(a' & x & ->)]; [destruct (snoc_cases pre) as [->|(pre' & p & ->)]|].
  - exists (with_input s rest). rewrite (byte_key s 8 rest) by (done || lia).
    split; [by apply (type_backspace_first _ b post); [|left]|]. split; [done|]. eapply edited_by_move; [exact Hc|done| |done]. constructor.
  - destruct (type_backspace_join _ pre' p b post f 8 Hc) as (s' & E & Hc' & Hke & Hd); [by left|].
    eapply commanded_change; [exact Hi|lia|exact E|exact Hc'|done|done|]. rewrite before_snoc. constructor.
  - destruct (type_backspace _ pre a' x b post f 8 Hc) as (s' & E & Hc' & Hke & Hd); [by left|].
    eapply commanded_change; [exact Hi|lia|exact E|exact Hc'|done|done|]. rewrite before_char. constructor.
Qed.

Lemma left_command s pre a b post : at_cursor (with_input s rest) pre a b post →
  input s = 27 :: 91 :: 68 :: rest → commanded f rest ArrowLeft s (before pre a) (after b post).
Proof.
  intros Hc Hi. destruct (snoc_cases a) as [->|(a' & x & ->)]; [destruct (snoc_cases pre) as [->|(pre' & p & ->)]|].
  - destruct (left_first _ b post Hc) as (s' & E & Hc' & Hke & Hd).
    eapply commanded_move; [exact Hi|lia|exact E|exact Hc'|done|done| |done]. constructor.
  - destruct (left_to_line _ pre' p b post Hc) as (s' & E & Hc' & Hke & Hd).
    eapply commanded_move; [exact Hi|lia|exact E|exact Hc'|done|done| |]; rewrite before_snoc, after_line; [constructor|by rewrite <- app_assoc].
  - destruct (left_in_line _ pre a' x b post Hc) as (s' & E & Hc' & Hke & Hd).
    eapply commanded_move; [exact Hi|lia|exact E|exact Hc'|done|done| |]; rewrite before_char; [constructor|by rewrite <- app_assoc].
Qed.

Lemma right_command s pre a b post : at_cursor (with_input s rest) pre a b post →
  input s = 27 :: 91 :: 67 :: rest → commanded f rest ArrowRight s (before pre a) (after b post).
Proof.
  intros Hc Hi. destruct b as [|x b']; [destruct post as [|n post']|].
  - destruct (right_last _ pre a Hc) as (s' & E & Hc' & Hke & Hd).
    eapply commanded_move; [exact Hi|lia|exact E|exact Hc'|done|done| |done]. constructor.
  - destruct (right_to_line _ pre a n post' Hc) as (s' & E & Hc' & Hke & Hd).
    eapply commanded_move; [exact Hi|lia|exact E|exact Hc'|done|done| |]; rewrite before_snoc, after_line; [constructor|by rewrite <- app_assoc].
  - destruct (right_in_line _ pre a x b' post Hc) as (s' & E & Hc' & Hke & Hd).
    eapply commanded_move; [exact Hi|lia|exact E|exact Hc'|done|done| |]; rewrite before_char; [constructor|by rewrite <- app_assoc].
Qed.

Lemma up_command s pre a b post : at_cursor (with_input s rest) pre a b post →
  input s = 27 :: 91 :: 65 :: rest → commanded f rest ArrowUp s (before pre a) (after b post).
Proof.
  intros Hc Hi. destruct (snoc_cases pre) as [->|(pre' & p & ->)].
  - destruct (up_first _ a b post Hc) as (s' & E & Hc' & Hke & Hd).
    eapply commanded_move; [exact Hi|lia|exact E|exact Hc'|done|done| |apply whole]. constructor; [apply whole|]. cbn. lia.
  - destruct (up_to_line _ pre' p a b post Hc) as (s' & E & Hc' & Hke & Hd).
    assert (before (pre' ++ [p]) a ++ after b post = before pre' (take (column a p) p) ++ after (drop (column a p) p) ((a ++ b) :: post)) as Hw.
    { rewrite whole_up, (whole pre' (take _ _)). by rewrite take_drop. }
    eapply commanded_move; [exact Hi|lia|exact E|exact Hc'|done|done| |exact Hw]. constructor; [exact Hw|].
    rewrite before_snoc. unfold before. rewrite !length_app, length_take. lia.
Qed.

Lemma down_command s pre a b post : at_cursor (with_input s rest) pre a b post →
  input s = 27 :: 91 :: 66 :: rest → commanded f rest ArrowDown s (before pre a) (after b post).
Proof.
  intros Hc Hi. destruct post as [|n post'].
  - destruct (down_last _ pre a b Hc) as (s' & E & Hc' & Hke & Hd).
    assert (before pre a ++ after b [] = before pre (a ++ b) ++ after [] []) as Hw by (rewrite whole, (whole pre (a ++ b)); by rewrite app_nil_r).
    eapply commanded_move; [exact Hi|lia|exact E|exact Hc'|done|done| |exact Hw]. constructor; [exact Hw|]. unfold before. rewrite !length_app. lia.
  - destruct (down_to_line _ pre a b n post' Hc) as (s' & E & Hc' & Hke & Hd).
    assert (before pre a ++ after b (n :: post') = before (pre ++ [a ++ b]) (take (column a n) n) ++ after (drop (column a n) n) post') as Hw.
    { rewrite whole_up. rewrite (take_drop (column a n) n). by rewrite whole. }
    eapply commanded_move; [exact Hi|lia|exact E|exact Hc'|done|done| |exact Hw]. constructor; [exact Hw|].
    rewrite before_snoc. unfold before. rewrite !length_app. cbn [length]. lia.
Qed.
End command.

Lemma key_command k s t u f rest :
  key_ok k → showing s t u → programmers_newline s = 0 → input s = key_bytes k ++ rest → commanded f rest k s t u.
Proof.
  intros Hk (pre & a & b & post & Hc & -> & ->) Hprog Hi. apply (at_cursor_input _ _ _ _ _ rest) in Hc.
  destruct k as [c| | | | | |]; cbn [key_bytes app] in Hi.
  - by apply char_command.
  - by apply enter_command.
  - by apply backspace_command.
  - by apply left_command.
  - by apply right_command.
  - by apply up_command.
  - by apply down_command.
Qed.

(** Many keys. *)
Inductive all_edits : list key → list Z * list Z → list Z * list Z → Prop :=
  | no_edit tu : all_edits [] tu tu
  | more_edits k ks tu1 tu2 tu3 : edits k tu1 tu2 → all_edits ks tu2 tu3 → all_edits (k :: ks) tu1 tu3.

(** The editor edits its text: from a document with the cursor between the texts
    [t] and [u], and whatever characters, returns, backspaces and arrows are typed,
    every command returns, the buffers of the lines grow as needed, and the text is
    what the keys make of it, one after the other; as long as the file is not
    marked as changed the text is the one that was there. *)
Theorem editor_edits_text ks s t u f rest :
  Forall key_ok ks → showing s t u → programmers_newline s = 0 → input s = concat (key_bytes <$> ks) ++ rest →
  ∃ s', editor_loop f (length ks) s = Done (false, s') ∧ input s' = rest ∧
    ∃ t' u', showing s' t' u' ∧ all_edits ks (t, u) (t', u') ∧ (dirty s' = false → dirty s = false ∧ t' ++ u' = t ++ u).
Proof.
  intros Hks. revert s t u. induction Hks as [|k ks Hk Hks IH]; intros s t u Hs Hprog Hi; cbn [length editor_loop fmap list_fmap concat app] in *.
  - exists s. split; [done|]. split; [done|]. exists t, u. split; [done|]. split; [constructor|done].
  - rewrite <- app_assoc in Hi. destruct (key_command k s t u f _ Hk Hs Hprog Hi) as (s1 & E & [Hin Hpr] & t1 & u1 & Hs1 & He & Hd).
    destruct (IH s1 t1 u1 Hs1) as (s2 & E2 & Hi2 & t2 & u2 & Hs2 & He2 & Hd2); [by rewrite Hpr|done|].
    exists s2. split.
    + destruct (M_bind_inv _ _ _ _ _ E) as (c & s0 & Eg & Ec). rewrite (M_bind_done _ _ _ _ _ Eg), (M_bind_done _ _ _ _ _ Ec). done.
    + split; [done|]. exists t2, u2. split; [done|]. split; [by econstructor|].
      intros Hd2f. destruct (Hd2 Hd2f) as [Hd1 ->]. by apply Hd.
Qed.
End editor.

(** ** Saving and loading

    Files by path: what a descriptor that was opened for writing got is what the
    path holds once it is closed, and what a descriptor opened for reading has. A file
    takes what it is given whole, as long as there is room. *)
Class FileSystem (W : Type) {SY : Sys W} {SL : SysLaws W} : Type := {
  content : list Z → W → list Z;
  written : Z → W → list Z;
  may_open : list Z → W → Prop;
  writes_to : Z → list Z → W → Prop;
  open_to_write p w : may_open p w → ∃ d w', sys_open p (Z.lor O_WRONLY (Z.lor O_CREAT O_TRUNC)) w = (inr d, w') ∧
    (sys_is_dir d w' = (inr false, w')) ∧ written d w' = [] ∧ writes_to d p w';
  write_whole d p bs w : writes_to d p w → ∃ w', sys_write d bs w = (inr (Z.of_nat (length bs)), w') ∧
    written d w' = written d w ++ bs ∧ writes_to d p w';
  close_stores d p w : writes_to d p w → ∃ w', sys_close d w = (0, w') ∧ content p w' = written d w ∧ may_open p w';
  open_to_read p w : may_open p w → ∃ d w', sys_open p O_RDONLY w = (inr d, w') ∧
    (sys_is_dir d w' = (inr false, w')) ∧ remaining d w' = content p w;
}.

Section files.
Context {W : Type} {SY : Sys W} {SL : SysLaws W} {FS : FileSystem W}.
Implicit Types (s : @editor W) (i : @io W) (pre post ls : list (list Z)) (a b : list Z).

#[local] Ltac step := erewrite M_bind_done; [|reflexivity]; cbv beta;
  cbn [doc filepath cursor_pos cursor_line dirty num_lines scroll_mode programmers_newline search_line input world last_errno
    stream os errno stored fd ungetc_ eof error buffer_mode buffer buffer_size buffer_needs_freeing flags mem_buffer mem_size mem_seek_pos
    mem_buffer_needs_freeing buffer_direction memopen].

(** The characters that pass through a file: those of a [char] but -1, which
    is taken for the end of the file. *)
Definition file_char (c : Z) : Prop := - 128 ≤ c < 128 ∧ c ≠ EOF.

(** *** Writing to a file of which no call fails *)
Record puts_whole p i l i' : Prop := {
  pw_puts : puts_bytes i l i';
  pw_file : writes_to (fd (stream i')) p (os i');
  pw_bytes : written (fd (stream i')) (os i') ++ buffer (stream i') = written (fd (stream i)) (os i) ++ buffer (stream i) ++ l;
}.
Lemma writes_whole d p w calls w' : writes d w calls w' → writes_to d p w →
  writes_to d p w' ∧ written d w' = written d w ++ concat calls.
Proof.
  induction 1 as [w|w bs n w1 calls w2 E _ IH]; intros Hp; [by rewrite app_nil_r|].
  destruct (write_whole d p bs w Hp) as (w' & E' & Hw & Hp'). rewrite E in E'. injection E' as _ ->.
  destruct (IH Hp') as [Hp2 ->]. split; [done|]. by rewrite Hw, <- app_assoc.
Qed.
Lemma puts_file p i l i' : writes_to (fd (stream i)) p (os i) → puts_bytes i l i' → puts_whole p i l i'.
Proof.
  intros Hp H. pose proof H as [_ F _ (calls & Hw & Hb)]. destruct (writes_whole _ p _ _ _ Hw Hp) as [Hp' Hwr].
  split; [done|by rewrite F|]. by rewrite F, Hwr, <- app_assoc, Hb.
Qed.
Lemma puts_whole_trans p i l i1 l' i2 : puts_whole p i l i1 → puts_whole p i1 l' i2 → puts_whole p i (l ++ l') i2.
Proof.
  intros [P1 F1 B1] [P2 F2 B2]. split; [by eapply puts_bytes_trans|done|]. by rewrite B2, app_assoc, B1, <- !app_assoc.
Qed.
Lemma tries_whole p (m : M io Z) i z l : writes_to (fd (stream i)) p (os i) → tries m i z l →
  z ≠ EOF ∧ ∃ i', m i = Done (z, i') ∧ puts_whole p i l i'.
Proof.
  intros Hp [(Hz & i' & E & H)|(i' & _ & [_ (calls & lost & rest & w & Hw & E & _)])].
  - split; [done|]. exists i'. split; [done|]. by apply puts_file.
  - exfalso. destruct (writes_whole _ p _ _ _ Hw Hp) as [Hp' _]. destruct (write_whole _ p lost w Hp') as (w' & E' & _). by rewrite E in E'.
Qed.
Lemma fputc_whole p c i : output_stream i → writes_to (fd (stream i)) p (os i) → c ≠ EOF →
  ∃ i', fputc c i = Done (c, i') ∧ puts_whole p i [u8 c] i'.
Proof. intros Ho Hp Hc. by apply (tries_whole p), fputc_tries. Qed.
Lemma puts_whole_errno p i e : output_stream i → writes_to (fd (stream i)) p (os i) → puts_whole p i [] {| i with errno := e |}.
Proof.
  intros [? ? ? ? ? ?] Hp. split; [|done|by rewrite app_nil_r]. split; [by split|done|done|]. exists []. split; [constructor|]. by rewrite app_nil_r.
Qed.

Lemma put_counted_puts p l : ∀ n (i : @io W), output_stream i → writes_to (fd (stream i)) p (os i) → EOF ∉ l → 0 ≤ n → n + length l < 2 ^ 31 →
  ∃ i', put_counted l n i = Done (n + length l, i') ∧ puts_whole p i (u8 <$> l) i'.
Proof.
  induction l as [|c l IH]; intros n i Ho Hp Ha Hn Hl; cbn [put_counted fmap list_fmap].
  - exists i. split; [unfold mret, M_mret; cbn; by rewrite Z.add_0_r|by apply puts_file; [|apply puts_bytes_refl]].
  - apply not_elem_of_cons in Ha as [Hc Ha]. cbn [length] in Hl. destruct (fputc_whole p c i Ho Hp) as (i1 & E1 & Hp1); [congruence|].
    rewrite (M_bind_done _ _ _ _ _ E1), i32_small by lia. destruct (IH (n + 1) i1 (pb_stream _ _ _ (pw_puts _ _ _ _ Hp1)) (pw_file _ _ _ _ Hp1) Ha) as (i2 & E2 & Hp2); [lia|lia|].
    exists i2. split; [rewrite E2; do 2 f_equal; cbn [length]; lia|]. exact (puts_whole_trans _ _ _ _ _ _ Hp1 Hp2).
Qed.

(** A string that is printed with %s goes out as it is. *)
Lemma vfprintf_string p l (i : @io W) : output_stream i → writes_to (fd (stream i)) p (os i) → EOF ∉ l → length l < 2 ^ 31 →
  ∃ i', vfprintf [37; 115] [VStr l] i = Done (Z.of_nat (length l), i') ∧ puts_whole p i (u8 <$> l) i'.
Proof.
  intros Ho Hw Ha Hl. destruct (put_counted_puts p l 0 i Ho Hw Ha) as (i' & E & Hp); [lia|lia|]. exists i'. split; [|done].
  unfold vfprintf. cbn [length vfprintf_loop]. erewrite M_bind_done with (a := (Some [], [], Z.of_nat (length l))).
  2: { unfold conversion. cbn [flag_chars]. change (is_flag 115) with false. cbv iota beta. cbn [parse_width]. step. cbn [parse_precision]. step.
    cbn [parse_modifier]. change (at_head [115]) with 115. cbv beta iota. rewrite 2!decide_False by lia.
    assert (∀ (alt : bool) pn qn, convert 115 mod_none (-1) alt pn qn [VStr l] i = Done (mk_piece l 0 [] false (-1), [], i)) as Ec by done.
    rewrite (M_bind_done _ _ _ _ _ (Ec _ _ _)). cbv beta iota. erewrite M_bind_done; [|rewrite put_piece_chars].
    2: { unfold piece_chars. cbn [numeric]. rewrite andb_false_r. rewrite (bool_decide_eq_false_2 (45 ∈ [])) by (by intros ?%elem_of_nil). cbn [orb].
      unfold padding_required. cbn [buffer_manual_len text sign_to_display]. rewrite (decide_True (P := -1 = -1)), (decide_True (P := 0 = 0)) by done.
      assert (∀ z, 0 ≤ z → Z.to_nat (-1 - length l - 0 - z) = 0%nat) as Hz by lia. rewrite Hz by (repeat case_match; lia). exact E. }
    done. }
  cbv beta iota. step. done.
Qed.

Lemma save_lines_puts p d : ∀ first ls i,
  Forall2 holds d ls → Forall (Forall file_char) ls → Forall (λ l, length l < 2 ^ 31) ls → output_stream i → writes_to (fd (stream i)) p (os i) →
  ∃ i', save_lines first d i = Done (None, i') ∧
    puts_whole p i (u8 <$> (if first then match ls with [] => [] | l :: r => after l r end else concat ((λ l, 10 :: l) <$> ls))) i'.
Proof.
  induction d as [|l d IH]; intros first ls i Hd Hc Hlen Ho Hw; apply Forall2_length in Hd as Hl0; destruct ls as [|x ls]; try done; cbn [save_lines].
  { exists i. split; [done|]. destruct first; (apply puts_file; [done|by apply puts_bytes_refl]). }
  apply Forall2_cons in Hd as [Hx Hd]. apply Forall_cons in Hc as [Hcx Hc]. apply Forall_cons in Hlen as [Hlx Hlen].
  pose proof (puts_whole_errno p i 0 Ho Hw) as Hp0. step. set (i0 := mk_io _ _ _ _).
  assert (EOF ∉ x) as Hneof by (intros H; apply (proj1 (Forall_forall _ _) Hcx) in H as [_ ?]; done).
  assert (∃ r i1, (if first then mret 0 else fputc 10) i0 = Done (r, i1) ∧ r ≠ EOF ∧ puts_whole p i (u8 <$> if first then [] else [10]) i1) as (r & i1 & E1 & Hr & Hp1).
  { destruct first; [by exists 0, i0|]. destruct (fputc_whole p 10 i0 (pb_stream _ _ _ (pw_puts _ _ _ _ Hp0)) (pw_file _ _ _ _ Hp0)) as (i1 & E1 & Hp1); [done|].
    exists 10, i1. split; [done|]. split; [done|]. exact (puts_whole_trans _ _ _ _ _ _ Hp0 Hp1). }
  rewrite (M_bind_done _ _ _ _ _ E1), decide_False by done. rewrite (holds_c_string l x Hx). step.
  destruct (vfprintf_string p x i1 (pb_stream _ _ _ (pw_puts _ _ _ _ Hp1)) (pw_file _ _ _ _ Hp1) Hneof Hlx) as (i2 & E2 & Hp2). rewrite (M_bind_done _ _ _ _ _ E2), decide_False by lia.
  destruct (IH false ls i2 Hd Hc Hlen (pb_stream _ _ _ (pw_puts _ _ _ _ Hp2)) (pw_file _ _ _ _ Hp2)) as (i3 & E3 & Hp3). exists i3. split; [done|].
  pose proof (puts_whole_trans _ _ _ _ _ _ (puts_whole_trans _ _ _ _ _ _ Hp1 Hp2) Hp3) as Hp.
  rewrite <- !fmap_app in Hp. destruct first; [exact Hp|]. by rewrite <- app_assoc in Hp.
Qed.

(** Opening a file for writing. *)
Lemma fopen_write p i : may_open p (os i) →
  ∃ i' d, fopen p [119] i = Done (Some tt, i') ∧ output_stream i' ∧ fd (stream i') = d ∧ written d (os i') ++ buffer (stream i') = [] ∧ writes_to d p (os i').
Proof.
  intros Hm. destruct (open_to_write p (os i) Hm) as (d & w' & Eo & Ed & Hw & Hwr). unfold fopen. destruct i as [[] w e st]. cbn [os] in *.
  unfold fopen_existing_stream. step. step. cbn [length]. rewrite decide_False by lia. rewrite bool_decide_eq_true_2 by auto. cbn [negb].
  step. step. cbv iota.
  erewrite M_bind_done; [|unfold system; cbn [os]; cbn [mode_flags]; rewrite (decide_False (P := 119 = 114)), decide_True by done; rewrite Eo; reflexivity].
  cbv iota beta. erewrite M_bind_done; [|unfold system; cbn [os]; rewrite Ed; reflexivity]. cbv iota beta. step. step.
  eexists _, d. split; [reflexivity|]. split; [|split; [done|split; [|done]]].
  - split; cbn; try done; [|right; done]. case_decide; [by right; left|by left].
  - cbn. by rewrite Hw.
Qed.

Lemma fopen_read p i : may_open p (os i) →
  ∃ i', fopen p [114] i = Done (Some tt, i') ∧ input_stream i' ∧ ungetc_ (stream i') = EOF ∧ unread i' = content p (os i).
Proof.
  intros Hm. destruct (open_to_read p (os i) Hm) as (d & w' & Eo & Ed & Hr). unfold fopen. destruct i as [[] w e st]. cbn [os] in *.
  unfold fopen_existing_stream. step. step. cbn [length]. rewrite decide_False by lia. rewrite bool_decide_eq_true_2 by auto. cbn [negb].
  step. step. cbv iota.
  erewrite M_bind_done; [|unfold system; cbn [os]; cbn [mode_flags]; rewrite decide_True by done; rewrite Eo; reflexivity].
  cbv iota beta. erewrite M_bind_done; [|unfold system; cbn [os]; rewrite Ed; reflexivity]. cbv iota beta. step. step.
  eexists. split; [reflexivity|]. split; [by split|]. split; [done|]. unfold unread. cbn. by rewrite Hr.
Qed.

(** The text of lines. *)
Definition text_of (ls : list (list Z)) : list Z := match ls with [] => [] | l :: r => after l r end.

Record savable (ls : list (list Z)) : Prop := {
  sv_chars : Forall (Forall file_char) ls;
  sv_lengths : Forall (λ l, length l < 2 ^ 31) ls;
}.

Lemma save_stream_stores p d ls i :
  may_open p (os i) → Forall2 holds d ls → savable ls →
  ∃ i', save_stream p d i = Done (None, i') ∧ content p (os i') = u8 <$> text_of ls ∧ may_open p (os i').
Proof.
  intros Hm Hd [Hc Hlen]. unfold save_stream. step. set (i0 := mk_io _ _ _ _).
  destruct (fopen_write p i0 Hm) as (i1 & fd1 & E1 & Ho1 & Hfd & Hput & Hwr). rewrite (M_bind_done _ _ _ _ _ E1).
  rewrite <- Hfd in Hwr, Hput.
  destruct (save_lines_puts p d true ls i1 Hd Hc Hlen Ho1 Hwr) as (i2 & E2 & Hp2). rewrite (M_bind_done _ _ _ _ _ E2).
  destruct (fflush_cases i2 (pb_stream _ _ _ (pw_puts _ _ _ _ Hp2))) as [(i3 & E3 & Hp3' & Hb3)|(i3 & E3 & Hf3)].
  2: { exfalso. destruct (tries_whole p fflush i2 0 [] (pw_file _ _ _ _ Hp2) ltac:(by right; exists i3)) as (_ & i4 & E4 & _). by rewrite E3 in E4. }
  pose proof (puts_whole_trans _ _ _ _ _ _ Hp2 (puts_file p _ _ _ (pw_file _ _ _ _ Hp2) Hp3')) as [Hp Hwr3 Hb].
  rewrite Hb3, !app_nil_r, app_assoc, Hput in Hb. rewrite (pb_fd _ _ _ Hp), Hfd in Hwr3, Hb.
  destruct (close_stores fd1 p (os i3) Hwr3) as (w' & Ec & Hcont & Hmay).
  unfold fclose. erewrite M_bind_done.
  2: { rewrite (M_bind_done _ _ _ _ _ E3). step. rewrite (os_file _ (pb_stream _ _ _ Hp)). step.
    rewrite (pb_fd _ _ _ Hp), Hfd, Ec. step. rewrite decide_False by (by intros []). reflexivity. }
  eexists. split; [reflexivity|]. cbn [os]. split; [|done]. rewrite Hcont.
  rewrite Hb. by destruct ls.
Qed.

(** ** Loading *)

(** The lines of a text, after the characters [a] of the first. *)
Fixpoint lines_of (a t : list Z) : list (list Z) :=
  match t with [] => [a] | c :: r => if decide (c = 10) then a :: lines_of [] r else lines_of (a ++ [c]) r end.

Lemma lines_of_after post : ∀ a b, Forall (Forall char_ok) (b :: post) → lines_of a (after b post) = (a ++ b) :: post.
Proof.
  induction post as [|n post IH].
  all: intros a b Hc; apply Forall_cons in Hc as [Hb Hc]; revert a; induction Hb as [|c b [_ Hc10] Hb IHb]; intros a; cbn [after].
  - by rewrite app_nil_r.
  - cbn. rewrite decide_False by done. unfold after in IHb. cbn in IHb. rewrite IHb. by rewrite <- app_assoc.
  - cbn. change (n ++ concat _) with (after n post). rewrite IH by done. by rewrite app_nil_r.
  - unfold after in *. cbn in *. rewrite decide_False by done. rewrite IHb. by rewrite <- app_assoc.
Qed.

Lemma file_char_u8 c : file_char c → i8 (u8 c) = c.
Proof. intros [Hc _]. unfold i8, u8. destruct (decide (0 ≤ c)).
  - rewrite (Z.mod_small c), Z.mod_small; lia.
  - replace (c `mod` 2 ^ 8) with (c + 2 ^ 8); [rewrite <- (Z_mod_plus_full _ (-1)), Z.mod_small; lia|].
    rewrite <- (Z_mod_plus_full c 1). rewrite Z.mod_small; lia.
Qed.

Lemma load_chars_lines t : ∀ fuel dp l pre a n i,
  (length t < fuel)%nat → Forall file_char t → 0 ∉ t → input_stream i → ungetc_ (stream i) = EOF → unread i = u8 <$> t →
  Forall2 holds dp pre → holds l a →
  ∃ d i', load_chars fuel (dp ++ [l]) n (length dp) i = Done ((d, n + Z.of_nat (length (lines_of a t)) - 1), i') ∧
    Forall2 holds d (pre ++ lines_of a t) ∧ input_stream i'.
Proof.
  induction t as [|c t IH]; intros fuel dp l pre a n i Hf Hc H0 Hi Hu Hun Hdp Hl;
    (destruct fuel as [|fuel]; [cbn [length] in Hf; lia|]); cbn [load_chars lines_of];
    destruct (fgetc_next i Hi Hu) as (i1 & E1 & Hi1 & Hu1 & Hun1 & _); rewrite Hun in E1, Hun1; cbn [fmap list_fmap tail] in E1, Hun1;
    rewrite (M_bind_done _ _ _ _ _ E1).
  - rewrite decide_True by done. exists (dp ++ [l]), i1. split; [unfold mret, M_mret; do 3 f_equal; cbn [length]; lia|].
    split; [|done]. apply Forall2_app; [done|]. by constructor.
  - apply Forall_cons in Hc as [Hc Hct]. apply not_elem_of_cons in H0 as [H0 H0t]. rewrite file_char_u8 by done. cbn [length] in Hf.
    destruct Hc as [Hrange Heof]. rewrite decide_False by done. case_decide as H10.
    + assert (take (S (length dp)) (dp ++ [l]) = dp ++ [l]) as -> by (apply take_ge; rewrite length_app; cbn [length]; lia).
      replace (S (length dp)) with (length (dp ++ [l])) by (rewrite length_app; cbn [length]; lia).
      destruct (IH fuel (dp ++ [l]) (CreateLine 50) (pre ++ [a]) [] (n + 1) i1) as (d & i' & E & Hd & Hi'); try done; [lia|..].
      * apply Forall2_app; [done|]. by constructor.
      * by apply holds_new.
      * exists d, i'. split; [rewrite E; do 3 f_equal; cbn [length]; lia|]. by rewrite <- app_assoc in Hd.
    + rewrite list_lookup_middle by done. step.
      destruct (AddCharToLine_holds l a [] c (-1)) as (l' & El & Hl'); [by rewrite app_nil_r|split; [congruence|done]|by right|].
      rewrite El. step. rewrite insert_app_r_alt, Nat.sub_diag by lia. cbn [list_insert insert].
      destruct (IH fuel dp l' pre (a ++ [c]) n i1) as (d & i' & E & Hd); try done; [lia|]. by exists d, i'.
Qed.

Lemma fclose_returns i : memopen (stream i) = false → ∃ z i', fclose i = Done (z, i').
Proof.
  intros Hf. assert (∃ z i1, fflush i = Done (z, i1) ∧ memopen (stream i1) = false) as (z & i1 & E & Hf1).
  { unfold fflush. step. destruct (decide (buffer_direction (stream i) = BUFFER_DIR_UNSET)) as [?|?]; [by exists 0, i|].
    destruct (decide (buffer_direction (stream i) = BUFFER_DIR_READ)) as [?|?]; [by eexists 0, _|].
    destruct (decide (buffer_direction (stream i) = BUFFER_DIR_WRITE)) as [?|?]; [|by eexists EOF, _].
    pose proof (stream_write_file (buffer (stream i)) i Hf) as Ew.
    destruct (sys_write _ _ _) as [[er|k] w]; rewrite (M_bind_done _ _ _ _ _ Ew); cbv iota beta; step; [by eexists EOF, _|].
    erewrite M_bind_done; [|step; rewrite Hf; cbn [andb]; reflexivity]. by eexists 0, _. }
  unfold fclose. rewrite (M_bind_done _ _ _ _ _ E). step. rewrite Hf1. step. destruct (sys_close _ _) as [st w']. step.
  case_decide; eauto.
Qed.

Lemma load_stream_lines p l n post fuel i : may_open p (os i) → content p (os i) = u8 <$> after l post → (length (after l post) < fuel)%nat →
  Forall (Forall char_ok) (l :: post) → Forall file_char (after l post) → 0 ∉ after l post →
  ∃ d i', load_stream fuel p [CreateLine 50] n i = Done (inr (d, n + Z.of_nat (length post)), i') ∧ Forall2 holds d (l :: post).
Proof.
  intros Hm Hcont Hfuel Hok Hc H0. unfold load_stream. step. set (i0 := mk_io _ _ _ _).
  destruct (fopen_read p i0 Hm) as (i1 & E1 & Hi1 & Hu1 & Hun1). rewrite (M_bind_done _ _ _ _ _ E1).
  destruct (load_chars_lines (after l post) fuel [] (CreateLine 50) [] [] n i1) as (d & i2 & E2 & Hd & Hi2); try done.
  { by rewrite Hun1. }
  { by apply holds_new. }
  rewrite (M_bind_done _ _ _ _ _ E2). destruct (fclose_returns i2 (is_file _ Hi2)) as (z & i3 & E3). rewrite (M_bind_done _ _ _ _ _ E3).
  rewrite (lines_of_after post [] l Hok) in Hd |- *. exists d, i3. split; [|done]. unfold mret, M_mret. do 4 f_equal. cbn [length]. lia.
Qed.

Lemma text_of_app pre a b post : text_of (pre ++ (a ++ b) :: post) = before pre a ++ after b post.
Proof.
  assert (∀ p ls, ls ≠ [] → after p ls = p ++ 10 :: text_of ls) as Ha by (intros p [|x ls] ?; done).
  destruct pre as [|p pre]; cbn [app text_of]; [unfold before, after; cbn; by rewrite app_assoc|].
  revert p. induction pre as [|q pre IH]; intros p; cbn [app]; rewrite Ha by done.
  - cbn [app text_of]. unfold before, after. cbn. rewrite app_nil_r, <- !app_assoc. done.
  - cbn [app text_of]. rewrite IH. unfold before. cbn. by rewrite <- !app_assoc.
Qed.

Lemma Forall_text_of (P : Z → Prop) ls : Forall P (text_of ls) → Forall (Forall P) ls.
Proof.
  destruct ls as [|l ls]; [done|]. cbn [text_of]. revert l. induction ls as [|x ls IH]; intros l H; unfold after in H; apply Forall_app in H as [Hl H].
  - by constructor.
  - cbn in H. apply Forall_cons in H as [_ H]. constructor; [done|]. by apply IH.
Qed.

Lemma length_text_of ls n : length (text_of ls) < n → Forall (λ l, length l < n) ls.
Proof.
  destruct ls as [|l ls]; [done|]. cbn [text_of]. revert l. induction ls as [|x ls IH]; intros l H; unfold after in H; rewrite length_app in H.
  - constructor; [lia|done].
  - constructor; [lia|]. apply IH. unfold after. cbn in H |- *. rewrite length_app in *. lia.
Qed.

Lemma holds_chars d ls : Forall2 holds d ls → Forall (Forall char_ok) ls.
Proof. intros H. apply Forall2_Forall_r with (P := holds) (l := d); [done|]. apply Forall_forall. by intros l _ x (_ & _ & ?). Qed.

Lemma no_zero_text ls : Forall (Forall char_ok) ls → 0 ∉ text_of ls.
Proof.
  destruct ls as [|l ls]; cbn [text_of]; [intros _ H; by apply elem_of_nil in H|]. revert l.
  induction ls as [|x ls IH]; intros l Hc; apply Forall_cons in Hc as [Hl Hc]; unfold after.
  - cbn. rewrite app_nil_r. intros H. apply (proj1 (Forall_forall _ _) Hl) in H as [? _]. done.
  - intros [H|H]%elem_of_app; [apply (proj1 (Forall_forall _ _) Hl) in H as [? _]; done|].
    cbn in H. apply elem_of_cons in H as [?|H]; [done|]. by apply (IH x Hc).
Qed.

(** A prompt that is answered with the text it offers. *)
Lemma prompt_accepted p s rest : length p < 100 → Forall char_ok p → input s = 10 :: rest →
  ∃ l, (save_line ← prompt_line p; GetSingleLineInput save_line) s = Done ((0, l), with_input s rest) ∧ c_string (str l) = Some p.
Proof.
  intros Hlen Hp Hi. assert (write_mem (str (CreateLine 100)) 0 (p ++ [0]) = Some (p ++ repeat 0 (100 - length p))) as Ew.
  { cbn [CreateLine str]. rewrite (repeat_split 0 (S (length p))) by lia. rewrite <- (app_nil_l (_ ++ _)), <- (app_nil_r (repeat 0 (_ - _))).
    rewrite (write_mem_app [] _ (p ++ [0])) by (done || (rewrite repeat_length, length_app; cbn [length]; lia)).
    cbn [app]. rewrite app_nil_r, <- app_assoc. do 2 f_equal. replace (100 - length p)%nat with (S (100 - S (length p))) by lia. done. }
  exists (mk_line (p ++ repeat 0 (100 - length p)) (length p)). split; [|apply char_ok_c_string; [lia|done]].
  unfold prompt_line. rewrite Ew. erewrite M_bind_done; [|reflexivity]. unfold GetSingleLineInput. step. cbn [GetSingleLineInput_loop].
  rewrite (M_bind_done _ _ _ _ _ (getchar_key s 10 rest Hi ltac:(lia))). done.
Qed.

(** What is saved is what was edited, and what is loaded again. From a document
    with the texts [t] and [u] around the cursor, saving under the name offered
    stores exactly the text in the file, and a new document that loads the file
    shows it, with the cursor at its start. *)
Theorem save_then_load s t u p rest fuel :
  showing s t u → filepath s = Some p → input s = 10 :: rest → length p < 100 → Forall char_ok p →
  may_open p (world s) → Forall file_char (t ++ u) → length (t ++ u) < 2 ^ 31 → (length (t ++ u) < fuel)%nat →
  ∃ s1, SaveFile s = Done (0, s1) ∧ showing s1 t u ∧ dirty s1 = false ∧ content p (world s1) = u8 <$> (t ++ u) ∧
    ∃ s2, LoadFile fuel p (new_document s1) = Done (0, s2) ∧ showing s2 [] (t ++ u) ∧ dirty s2 = false.
Proof.
  intros (pre & a & b & post & Hc & -> & ->) Hpath Hi Hlp Hp Hm Hchars Hlen Hfuel. pose proof (ac_doc _ _ _ _ _ Hc) as Hd.
  rewrite <- text_of_app in Hchars, Hlen, Hfuel |- *. set (ls := pre ++ (a ++ b) :: post) in *.
  assert (savable ls) as Hsv by (split; [by apply Forall_text_of|by apply length_text_of]).
  destruct (prompt_accepted p s rest Hlp Hp Hi) as (l & El & Hl).
  destruct (save_stream_stores p (doc s) ls (mk_io no_stream (world s) (last_errno s) []) Hm Hd Hsv) as (i' & Es & Hcont & Hm').
  set (s1 := mk_editor (doc s) (Some p) (cursor_pos s) (cursor_line s) false (num_lines s) (scroll_mode s) (programmers_newline s) (search_line s) rest (os i') (errno i')).
  assert (SaveFile s = Done (0, s1)) as E1.
  { destruct (M_bind_inv _ _ _ _ _ El) as (sl & s0 & Epl & Eg). unfold SaveFile. step. rewrite Hpath.
    rewrite (M_bind_done _ _ _ _ _ Epl), (M_bind_done _ _ _ _ _ Eg). rewrite decide_False by (by intros []). rewrite Hl. step.
    erewrite M_bind_done; [|unfold with_stream, with_input; cbn [doc world last_errno]; rewrite Es; reflexivity]. cbv iota. step. done. }
  exists s1. split; [done|]. split; [exists pre, a, b, post; split; [|done]|].
  { destruct Hc. by split. }
  split; [done|]. split; [done|].
  assert (∃ l0 post0, ls = l0 :: post0 ∧ text_of ls = after l0 post0) as (l0 & post0 & Els & Etx) by (subst ls; destruct pre; eauto).
  pose proof (holds_chars _ _ Hd) as Hok.
  destruct (load_stream_lines p l0 1 post0 fuel (mk_io no_stream (os i') (errno i') []) Hm') as (d & i2 & E2 & Hd2); try (rewrite <- Etx; done).
  { by rewrite <- Els. }
  { rewrite <- Etx. by apply no_zero_text. }
  eexists. split.
  - unfold LoadFile. step. erewrite M_bind_done; [|unfold with_stream, new_document, s1; cbn [doc world last_errno num_lines]; rewrite E2; reflexivity].
    cbv iota. step. reflexivity.
  - split; [|done]. exists [], [], l0, post0. split; [|by rewrite Etx]. split; cbn [doc cursor_line cursor_pos num_lines]; [done|done|done|].
    apply Forall2_length in Hd2. rewrite Hd2. cbn [length]. lia.
Qed.
End files.

(** ** Both at work

    A system with one file: what it holds, what has been written since it was
    opened for writing, and what is left to read. *)
Record one_file : Type := mk_file { holding : list Z; writing : option (list Z); reading : list Z }.

#[local] Instance one_file_sys : Sys one_file := {
  sys_read _ n w := (inr (take (Z.to_nat n) (reading w)), {| w with reading := drop (Z.to_nat n) (reading w) |});
  sys_write _ l w := (inr (Z.of_nat (length l)), {| w with writing := Some (default [] (writing w) ++ l) |});
  sys_open _ fl w := (inr 3, if decide (fl = O_RDONLY) then {| w with reading := holding w |} else {| w with writing := Some [] |});
  sys_close _ w := (0, match writing w with Some l => mk_file l None (reading w) | None => w end);
  sys_is_dir _ w := (inr false, w);
  sys_isatty _ _ := false;
}.
#[refine, local] Instance one_file_laws : SysLaws one_file := { remaining _ w := reading w }.
Proof.
  intros d n w Hn. eexists (Z.to_nat n), _. split_and!; [reflexivity|done|lia|intros _; lia].
Defined.
#[refine, local] Instance one_file_system : FileSystem one_file :=
  { content _ w := holding w; written _ w := default [] (writing w); may_open _ _ := True; writes_to _ _ w := is_Some (writing w) }.
Proof.
  - intros p w _. eexists 3, _. split; [reflexivity|]. rewrite decide_False by discriminate. by eauto.
  - intros d p bs w _. eexists. split; [reflexivity|]. cbn. eauto.
  - intros d p w [l El]. eexists. split; [reflexivity|]. split; [|done]. cbn in *. by rewrite El.
  - intros p w _. eexists 3, _. split; [reflexivity|]. by split.
Defined.

(** The editor as it starts, with keys to come. *)
Definition fresh (path : list Z) (w : one_file) (keys : list Z) : editor :=
  mk_editor [CreateLine 50] (Some path) 0 0 false 1 2 0 None keys w 0.

Lemma fresh_showing path w keys : showing (fresh path w keys) [] [].
Proof. exists [], [], [], []. split; [|done]. split; [|done..]. constructor; [by apply holds_new|constructor]. Qed.

(** Typing [hi], a return, [x], going up and to the right, and a backspace. *)
Definition some_keys : list key := [Char 104; Char 105; Enter; Char 120; ArrowUp; ArrowRight; Backspace].

Lemma editor_edits_text_witness :
  let s := fresh [97] (mk_file [] None []) (concat (key_bytes <$> some_keys)) in
  ∃ s', editor_loop 5 (length some_keys) s = Done (false, s') ∧ input s' = [] ∧
    ∃ t' u', showing s' t' u' ∧ all_edits some_keys ([], []) (t', u') ∧ (dirty s' = false → dirty s = false ∧ t' ++ u' = [] ++ []).
Proof.
  intros s. apply (editor_edits_text some_keys s [] [] 5 []).
  - repeat constructor; cbn; lia.
  - apply fresh_showing.
  - done.
  - by rewrite app_nil_r.
Defined.

(** Saving with ctrl-S and return. *)
Lemma save_then_load_witness :
  let s := fresh [97] (mk_file [120] None []) [10] in
  ∃ s1, SaveFile s = Done (0, s1) ∧ showing s1 [] [] ∧ dirty s1 = false ∧ content [97] (world s1) = u8 <$> ([] ++ []) ∧
    ∃ s2, LoadFile 1 [97] (new_document s1) = Done (0, s2) ∧ showing s2 [] ([] ++ []) ∧ dirty s2 = false.
Proof.
  intros s. apply (save_then_load s [] [] [97] [] 1).
  - apply fresh_showing.
  - done.
  - done.
  - cbn. lia.
  - repeat constructor; lia.
  - exact I.
  - constructor.
  - cbn. lia.
  - cbn. lia.
Defined.

(** ** What goes wrong

    A search passes over a match at the beginning of a line; a return in an empty
    line, with indentation behind braces, reads before the line; a line indented by
    twenty spaces overflows the next; a file opened over a document is appended to
    its first line. *)
Definition after_typing (n : nat) (s : @editor one_file) : outcome (list (option (list Z)) * Z * Z) :=
  outcome_bind (λ '(_, s), Done ((λ l, c_string (str l)) <$> doc s, cursor_line s, cursor_pos s)) (editor_loop 10 n s).

Theorem editor_defects :
  after_typing 7 (fresh [97] (mk_file [] None []) ([97; 10; 98; 10; 27; 91; 65] ++ [27; 91; 65] ++ [6; 98; 10])) =
    Done ([Some [97]; Some [98]; Some []], 2, 0) ∧
  after_typing 3 (fresh [97] (mk_file [] None []) [21; 21; 10]) = Faulted ∧
  after_typing 22 (fresh [97] (mk_file [] None []) ([21] ++ repeat 32 20 ++ [10])) = Faulted ∧
  after_typing 2 (fresh [97] (mk_file [120; 10; 121] None []) ([97] ++ [15; 0; 102; 10])) = Done ([Some [97; 120]; Some [121]], 0, 1).
Proof. by vm_compute. Qed.
